(* ===== verification/_CoqProject ===== *)
-Q . S2P
Prelude.v
Go.v
Mcp.v
FoldKeys.v
Rules.v
Registry.v
Token.v
Broker.v
Gateway.v
Authority.v
Captool.v
Opsig.v
Rate.v
Directive.v
SentLedger.v
Messaging.v
DirectiveApi.v
Enrol.v
ChatLedger.v
Uses.v
Verify.v
Wait.v
LineDiff.v
TreePath.v
ManifestCodec.v
ManifestEntry.v
ManifestHeader.v
HeaderRound.v
Manifest.v
Listing.v
ManifestRound.v
ManifestFile.v
EntryTypes.v
Render.v
Merge.v
DiffExact.v
Effects.v
GoPath.v
GoText.v
GoHttp.v
Egress.v
EgressPolicy.v
AgentLedger.v
AgentShown.v
AgentHistory.v
Scion.v
Live.v
Worker.v
Workspace.v
Dispatch.v
DispatchSafe.v
DispatchReply.v
Fleet.v
Healer.v
ContactMsg.v
ContactSafe.v
RemotePath.v
RemoteWorld.v
ContactView.v
ContactPage.v
RemoteGate.v
RemoteFence.v
RemoteServe.v
RemoteRuns.v
RemoteLogin.v
Retention.v
Store.v
Blobs.v
Gc.v
Deletion.v
BlobWriter.v
StoreVerify.v
Models.v
Witnesses.v
WitnessesNode.v
WitnessesTree.v
WitnessesView.v
WitnessesWorker.v
WitnessesContact.v
WitnessesRemote.v
