(* ===== verification/Prelude.v ===== *)
(** Verification of lever's broker, of its remote proxy, egress rules and tree backups.

    Lever runs AI agents in containers and puts one broker on the host between
    them and everything they can reach. An agent proves who it is with a client
    certificate, asks the broker for capability tokens, and calls tools through
    the broker's gateway; a first-party tool verifies each token again. The
    operator hands agents signed one-shot directives through the broker, agents
    message each other through it, and it tells an agent whether a message it
    received was really sent by whom it says. The broker also starts and resumes
    the workers, for the manager and for the operator, and heals their lapsed
    certificates and hub tokens. People reach the agents' hub from a browser only
    through lever's remote proxy, which signs them in on the host, shows the hub
    none of their own credentials, and fences a contact to its own agents; what an
    agent writes to a contact is shown there only if the broker authorized it.
    Beside it lever keeps backups of the agents' trees: a content-addressed store of blobs and one manifest for each
    snapshot, with retention, collection, verification and a diff of two snapshots
    that is safe to print. This library models that broker, the proxy, the
    egress rules, the store and the parts they rest on as Rocq functions and proves what makes them correct.

    * The files

    Basis.
    - [Prelude]: machine integers ([wrap64], [sat64]), [result], strings, the
      tactics [guards] and [walk], the hint database [lever].
    - [Go]: what the code uses of Go's library: UTF-8 and case folding over the
      Unicode tables, JSON values, time. The interfaces [Unicode], [GoJson],
      [Base64] and [TimeFormat] stand for the tables and the codecs.

    Capabilities.
    - [Mcp] ([internal/mcp/mcp.go]): MCP messages, argument mapping, the
      capability argument.
    - [FoldKeys] ([internal/servicehost/foldkeys.go]): the streaming check for
      keys equal under case folding.
    - [Rules] ([internal/broker/rules]): who may obtain or delegate what.
    - [Registry] ([internal/broker/registry]): tools, operations, constraints.
    - [Token] ([internal/cap/token]): minting, parsing and verifying tokens, over
      the interfaces [SigScheme] (ed25519) and [TokenWire] (the two JSON structs).
    - [Broker] ([internal/broker/broker.go], [revoke.go], [require.go],
      [request.go], [register.go], [tools.go]): the authority's state (record
      [Broker], with the revocation file in [b_disk]) and its routes.
    - [Gateway] ([gateway.go], [llmproxy.go]): what is forwarded, and as what.
    - [Captool] ([captool/]): the server of a first-party tool.
    - [Authority]: the whole authority as a transition system, [event]s and
      [exec], [reachable] and [run]: mints, registrations, calls, bumps,
      revocations and restarts in any order.

    Directives.
    - [Opsig] ([internal/opsig/opsig.go]): the signed documents.
    - [Rate] ([rateWindow] of [directive_agent.go]): per-agent limits.
    - [Directive] ([directive.go]): the store and its file; [drun] runs a
      sequence of operations, failed writes and restarts.
    - [DirectiveApi] ([directive_agent.go], [directive_admin.go]): the routes of
      agents and operator over the state [Node]; [nrun] runs a sequence of them.

    Messages.
    - [SentLedger] ([internal/sentledger], append of [internal/hostledger]).
    - [Messaging] ([msg.go], [sent.go], identity of [worker.go]).
    - [ChatLedger] ([internal/chatledger]): posts of web sign-ins.
    - [Uses] ([chatUses] of [chat.go]): which messages an agent has verified.
    - [Verify] ([verify.go]): the verification route over the two ledgers.

    Identities.
    - [Enrol] ([internal/cap/ca], [enrol.go], [renew.go], [bootstrap.go],
      [csr.go], admission of [reenrol.go]), over the interface [X509].

    Workers.
    - [Effects]: programs that ask the world, their runs, and monitors over them.
    - [GoPath]: file paths of package [path/filepath], and [RelOverlapFold] of
      [internal/fsutil].
    - [Scion] ([internal/scion/lifecycle.go], [task.go], [bringup.go],
      [internal/imageref]): agent records, the labels of agent-settable text, the
      checks of tasks and images. [Live] ([lifecycle.go]): the wait until an agent
      is live and the settle window.
    - [Worker] ([internal/broker/worker.go], [workercap.go], [shared.go]): worker
      specs, the type [action] of every question a route asks of the hub, the
      guest, the host's files and the broker's shared state, and the steps the
      routes are made of. [Workspace]: the checks of the host directory a worker
      mounts. [Dispatch] ([worker.go], [recycle.go], [operator.go],
      [operator_workers.go], [operator_newsession.go], [workerticket.go]): the
      routes.
    - [DispatchSafe]: which question may be asked when, and that no route ever
      asks another; [DispatchReply]: what replies carry; [Fleet]: any number of
      requests at once over the shared locks and counts.
    - [Healer] ([reenrol.go], [tokenwatch.go]): the automatic heals, over the
      questions of [Worker] and their own, with a monitor that extends
      [DispatchSafe]'s.

    Messages to contacts.
    - [AgentLedger] ([internal/agentledger], append of [internal/hostledger]): what
      agents were let through to send to a contact, and which messages were shown
      for it; [AgentShown] and [AgentHistory]: its invariants over any history of
      appends, torn writes, rotations and restarts.
    - [ContactMsg] ([contactmsg.go], [contactmatch.go]): the broker's three routes;
      [ContactSafe]: their rules in every history.

    The remote proxy ([internal/remoteproxy/]).
    - [GoText], [GoHttp]: what the code uses of packages [strings], [net/url],
      [net/http] and [httputil], escaping, queries, headers, the reverse proxy's
      own edits of a request.
    - [RemotePath] ([pathcheck.go], route lists of [proxy.go]); [RemoteWorld]: the
      configuration, audit lines, JSON values and the questions a handler asks;
      [RemoteGate] ([proxy.go], [chat.go]): who may ask, what the hub is sent and
      what comes back; [RemoteFence] ([contact.go]): a contact's requests;
      [ContactView] ([agentmsgs.go], and in Module [ContactEvents] [events.go]):
      what a contact reads; [RemoteServe] ([proxy.go], routes of [chatpage.go],
      [wake.go], [activity.go], [files.go]): the handler from request to answer.
    - [RemoteRuns]: the monitor over the handler's runs; [ContactPage] (with the
      question of [internal/cli/host/remote.go]): a contact's page down to the
      broker's ledger.
    - [RemoteLogin] ([login.go], and in Module [RemoteRevoke] [revoke.go]): the
      sign-ins requests share and the end of a revoked login's requests, as step
      relations over any interleaving.

    The jail's network ([internal/egress/]).
    - [Egress] ([allowlist.go], [listing.go], [jump.go]); [EgressPolicy]: what
      iptables does with the rules' text.

    Waiting.
    - [Wait] ([internal/wait/wait.go]): a probe polled with backoff, over a
      [World] that answers probes, clock and context.

    Tree backups ([internal/treebackup/]).
    - [TreePath] (paths of [types.go]), [ManifestCodec] (the JSON-lines encoder
      and strict scanner of [manifest.go]), [ManifestEntry] and [ManifestHeader]
      (the two kinds of line), [Manifest] (summary, writer and streaming
      validating reader). The interfaces [StdBase64], [NanoTime] and [SHA256]
      stand for base64, RFC 3339 and the digest.
    - [Listing]: what a valid list of entries is, and that the reader's check
      accepts exactly these; [HeaderRound], [ManifestRound], [ManifestFile],
      [EntryTypes]: round trips, whole files, types of what is decoded.
    - [Retention] (the policy and the Bloom filter of [gc.go], over [MapHash]);
      [Store] ([store.go], [lock.go], [status.go]): the disk, the operations in a
      state and error monad in which any call of the operating system may fail,
      and a weakest-precondition calculus; [Blobs] and [BlobWriter] (blobs of
      [store.go], over [FileSystem]); [Gc] and [Deletion] ([gc.go], numbering of
      [store.go]); [StoreVerify] ([verify.go]).
    - [LineDiff] ([linediff.go]): the anchored diff of two texts.
    - [Render] ([render.go]): quoting, content lines and rows, over the interface
      [UnicodeTables].
    - [Merge] (the merge of [diff.go]), [DiffExact]: what it reports, against the
      outer join of the two listings.

    Evaluation.
    - [Models] (with Module [TreeModels]): concrete instances of every interface, proved to
      satisfy its laws, and a small store.
    - [Witnesses], [WitnessesNode], [WitnessesTree], [WitnessesView],
      [WitnessesWorker], [WitnessesContact] (with Module [WitnessesHost]),
      [WitnessesRemote]: each theorem with hypotheses applied at a concrete input where they hold.

    * How the code is rendered

    A handler is a function from the request, what it reads of the world (clock,
    random bytes, whether a write reached the disk, what the hub answers) and the
    state to the state after it and the answer; an early return is a branch with
    its status and text. Methods under a mutex are single steps. Files are their
    decoded lines, [None] for a line the reader skips, so torn and foreign lines
    are values; manifests and blobs are their bytes. Times are nanoseconds and
    [int]s keep their width where the code can reach it. Go maps are [gmap]s, or
    association lists where a loop's order shows. Randomness may repeat; where a
    theorem needs it fresh it says so. The store's operations draw from a list of
    faults that says which call of the operating system fails; what other
    processes do between the two phases of a collection or a verification is a
    function [between] on the disk. A worker route calls the hub, the guest and
    the shared state many times while other requests run, so it is a program
    ([Effects.prog]) whose every such call is a question, answered by anything:
    what is proved of its runs holds whatever other requests do in between.
    [Fleet] then answers the questions about locks, admission and the hub's list
    from one shared state, in every interleaving. The proxy's handler is such a
    program too: the hub, the session source, the broker, the clock and the fence's
    caches answer it, and the cookie its state carries is an argument of what the
    reverse proxy does. Where requests share a structure under a mutex ([RemoteLogin],
    [RemoteRevoke]), each critical section is one step.

    * What is shown

    - Authority ([Authority], [Captool], [Gateway], [Broker]): every forwarded
      tool or LLM call, and every run of a tool's handler, is backed by a mint the
      policy allowed, for this caller, tool, operation and arguments; minting
      happens exactly when the policy and registry allow it; a minted token
      works; revocations and epoch bumps are terminal, across restarts once they
      have reached the disk (the broker only logs a failed write); tools cannot
      widen themselves on registration, agents cannot forge the gateway's headers,
      third-party tools never see a token; gateway and tool agree. A token an
      attacker presents is assumed [unforged]: its signature, when it verifies, is
      one the broker made; nothing else is assumed of agents.
    - Parsing ([FoldKeys], [Opsig], [Registry], [Rules]): the streaming and
      token-walking checks equal their recursive specifications, statements and
      policy queries are accepted exactly when they should be.
    - Directives ([Directive], [DirectiveApi], [Rate]): one consume per directive,
      no replay, bounded previews, revocation, opaque refusals, only what the
      operator signed, rate limits, all across failed writes and restarts.
    - Messages ([SentLedger], [Messaging], [Uses], [Verify]): sends are recorded
      before they are made and found afterwards, records cannot be rewritten,
      a verified message is one a record holds for the caller and is new once,
      "no record" is never said of a failure to look, messaging is default-deny.
    - Identities ([Enrol]): tickets work once, certificates carry proven names,
      automatic heals are spaced.
    - Workers ([DispatchSafe], [DispatchReply], [Fleet], [Live]): a container is
      started or resumed, a ticket issued and a record deleted only under the
      worker's lock and after the checks the code owes it, a container is started
      as configured, every lock and slot is given back, running workers are capped
      in every interleaving, the status fields of replies carry only labels lever
      knows, a chat login
      is one short token of the audit log, a start counts as live only on what the
      record showed.
    - Heals ([Healer]): an automatic heal acts only after the checks a request
      would owe, under the same lock, and gives back what it took.
    - Contacts ([AgentHistory], [ContactSafe], [ContactPage]): what a contact is
      shown of an agent stands on one message request among the broker's past events
      that the rules let through then, for one message only, at a bounded rate; the
      whole way from the hub's answer through the proxy to the broker's ledger. A
      [history] is the list of those events from an empty ledger, and a theorem
      names the event by its position in it.
    - The remote proxy ([RemoteRuns], [RemotePath], [RemoteLogin]): a request reaches
      the hub only past every check, with the login's session as its only
      credential; a contact reaches its own conversations alone, its hub user being
      what the hub said of this login; no answer hands
      out a session; a path that passes reads one way; a session handed out is the
      recorded user's; a revoked login's open requests end. [signin_target_may_leave]
      shows a sign-in target that passes its check and leaves the site.
    - Egress ([EgressPolicy]): the loaded rules are the posture's policy, and the
      jump is first and once.
    - Waiting ([Wait]): every wait ends, answers for what it saw, and takes what
      [Total] says.
    - Manifests ([Listing], [ManifestRound], [ManifestFile], [EntryTypes]): an
      accepted file is a valid listing with the summary and digest it claims, a
      written one is read back, validation ends, decoded fields are typed, no
      entry line outgrows the line limit.
    - The store ([Retention], [Gc], [Deletion], [BlobWriter], [StoreVerify]):
      wherever a collection or a deletion stops, every blob a manifest on the disk
      refers to is still there; an unreadable manifest stops the collection
      before anything is deleted; what retention keeps is left, and it is exactly
      what the policy names, over days and weeks counted from 1970; deleting never frees a number; a stored blob is its
      content; a verification that finds nothing means a healthy store.
    - Diffs ([LineDiff], [Render], [DiffExact]): the hunks of a text diff rebuild
      the new text, its anchors are longest, a quoted path or content line tells
      what it was made from and holds nothing a terminal acts on, rows fit, and
      the merge of two manifests reports exactly what their listings say.

    * Fuel and bounds

    [Go.chunks] decodes a string with its byte length as fuel, each step using at
    least one byte ([chunks_fuel_enough]). The duplicate-key walk has more fuel
    than twice the number of tokens; [duplicate_keys_exact] shows it suffices. The
    case-folding orbit [fold_loop] takes four steps, the longest orbit of the
    Unicode tables, which [Unicode]'s law states. The scanner's loops
    ([str_loop], [object_loop], [array_loop]) have the length of what is left,
    each turn consumes a byte; [uint_digits] has 20 turns, the digits of 2^64;
    validation and marking one turn more than the bytes of the file, each reads a
    line ([validation_terminates]); [write_loop] the bytes to write; the
    quarantine's and [FreeID]'s counters are the code's own bounds of 1000 and
    999; [merge_loop] one turn more than the entries of both manifests
    ([diff_is_exact] shows it ends); [For] is given fuel, and [wait_ends] bounds
    the turns it needs; [holdLive] is given fuel, and [window_ends] bounds its
    turns; [anchor] has the length of the path, each turn takes a component off
    it; [stopWaitAttempts] is the code's own bound; a pass of [RemoteRevoke]'s poller
    has a measure ([pass_goes_on]). Everything else is structural.

    * Not modelled

    Ed25519, X.509, JSON text, base64, RFC 3339, SHA-256, the seeded hash of the
    Bloom filters and [ssh-keygen] are interfaces with their documented laws; so
    are [url.Parse], the reverse proxy's list of hop-by-hop headers
    ([Gateway.NetLib]) and the tables of package [unicode]. The HTTP server, its
    timeouts and routing, the limit on repeated backend-error lines, audit
    redaction, the exact wording of wrapped errors, the neutralising of markers in
    message bodies, file permissions and locks (a lock is granted or busy), the
    opening of a store and the monotonic clock are left out. The label resolution
    of [verify.go] and waits for one in flight are single steps. The wording of
    the worker routes' refusals and audit lines is left out: a refusal is its
    reason, phase and status. In their runs the wait until live is one question
    ([Live] models it by itself), and a context that ends shows as the error of
    the call it ends. [Fleet] takes the hub's list at its word, as the code's
    comment does: phase and container status are agent-settable, so a worker that
    lies slips out of the count; and a record a start or resume brings up counts
    from the answer of that call on. A heal of the manager is one question: its
    lifecycle is the apply engine's. The time limits and loops of the heals are left
    out.

    Of the remote proxy: the answer is a value, so flushing, WebSocket upgrades
    beyond their headers, and what a client sees of an answer cut short are left
    out; [url.Parse], [net.ParseIP], media types, HTML escaping and JSON text are
    interfaces, and JSON values keep their members in order as the code's raw
    messages do; the handlers of the chat page (lists, files, wake, activity, push,
    voice, new conversation, operator view) are questions answered by anything, so
    [no_session_leaves] excepts them; the hub client of the chat page, the listener
    and its dial into the jail are not modelled. In [RemoteLogin] a panic is a step,
    and the request that led it is answered with an error, as its client sees.

    Agent files, operator notes and events, configuration, the apply engine, the walk and the
    restore of a tree, the printed report of a diff, the command lines of the hub
    client, and everything that drives containers, processes and devices (backends,
    voice, push, provisioning) are not modelled: most of them is calls of services,
    with few rules of their own (configuration checks, the resume guard and stop
    claim of the apply engine, the file ledger's limits). *)

From stdpp Require Export base tactics option list gmap strings.
From Stdlib Require Export Ascii ZArith Lia.

#[global] Open Scope Z_scope.
#[global] Set Default Goal Selector "!".

(** * Go's scalar types *)

(** [int] and [int64] are 64 bits wide on every platform lever is built for. *)
Definition min_int64 : Z := - 2 ^ 63.
Definition max_int64 : Z := 2 ^ 63 - 1.

(** Two's complement wrap-around of [int] arithmetic ([x++]). *)
Definition wrap64 (z : Z) : Z := (z + 2 ^ 63) mod 2 ^ 64 - 2 ^ 63.

(** Saturation, which [time.Time.Sub] applies to its [Duration] result. *)
Definition sat64 (z : Z) : Z := Z.max min_int64 (Z.min max_int64 z).

Definition int64_range (z : Z) : Prop := min_int64 <= z <= max_int64.

Lemma wrap64_id z : int64_range z -> wrap64 z = z.
Proof.
  unfold int64_range, min_int64, max_int64, wrap64. intros H.
  rewrite Z.mod_small; lia.
Qed.

Lemma wrap64_range z : int64_range (wrap64 z).
Proof.
  unfold int64_range, min_int64, max_int64, wrap64.
  pose proof (Z.mod_pos_bound (z + 2 ^ 63) (2 ^ 64)). lia.
Qed.

Lemma sat64_range z : int64_range (sat64 z).
Proof. unfold int64_range, sat64, min_int64, max_int64. lia. Qed.

Lemma sat64_id z : int64_range z -> sat64 z = z.
Proof. unfold int64_range, sat64. lia. Qed.

(** * Time

    A [time.Time] is an instant: nanoseconds counted from Go's zero time
    (January 1, year 1, 00:00 UTC), so [IsZero] is equality with 0. A
    [time.Duration] is an [int64] of nanoseconds. The monotonic reading some
    values carry is not modelled: an instant has one reading. *)

Abbreviation Time := Z (only parsing).
Abbreviation Duration := Z (only parsing).

Definition Second : Duration := 10 ^ 9.
Definition Minute : Duration := 60 * Second.
Definition Hour : Duration := 60 * Minute.

(** The zero [time.Time]. *)
Definition zeroTime : Time := 0.

(** The Unix epoch, in nanoseconds after the zero time. *)
Definition unixEpoch : Time := 62135596800 * Second.

Definition IsZero (t : Time) : bool := t =? zeroTime.
Definition Before (t u : Time) : bool := t <? u.
Definition After (t u : Time) : bool := u <? t.
Definition Add (t : Time) (d : Duration) : Time := t + d.
Definition Sub (t u : Time) : Duration := sat64 (t - u).

(** [t.UnixNano()], whose result wraps outside the years 1678 to 2262. *)
Definition UnixNano (t : Time) : Z := wrap64 (t - unixEpoch).

(** [time.Unix(0, n)]. *)
Definition UnixTime (n : Z) : Time := unixEpoch + n.

(** The instants [UnixNano] represents. *)
Definition unix_range (t : Time) : Prop := int64_range (t - unixEpoch).

Lemma UnixTime_UnixNano t : unix_range t -> UnixTime (UnixNano t) = t.
Proof. unfold unix_range, UnixTime, UnixNano. intros H. rewrite wrap64_id; [lia | done]. Qed.

(** Comparing a saturated difference with a duration that fits is comparing
    the exact difference. *)
Lemma Sub_le_iff t u d : min_int64 <= d < max_int64 -> Sub t u <= d <-> t - u <= d.
Proof. unfold Sub, sat64, min_int64, max_int64. lia. Qed.

Lemma Sub_lt_iff t u d : min_int64 < d <= max_int64 -> Sub t u < d <-> t - u < d.
Proof. unfold Sub, sat64, min_int64, max_int64. lia. Qed.

(** * Results *)

(** What a Go function returning [(A, error)] yields. *)
Inductive result (A E : Type) : Type :=
| Ok (a : A)
| Err (e : E).
Arguments Ok {A E} a.
Arguments Err {A E} e.

Definition is_ok {A E} (r : result A E) : bool :=
  match r with Ok _ => true | Err _ => false end.

Definition res_bind {A B E} (m : result A E) (f : A -> result B E) : result B E :=
  match m with Ok a => f a | Err e => Err e end.

Declare Scope go_scope.
Delimit Scope go_scope with go.
Notation "'try' x ':=' m 'in' k" := (res_bind m (fun x => k))
  (at level 10, x pattern, k at level 200) : go_scope.
(** [require b else e in k]: the guard [if !b { return e }] before [k]. *)
Notation "'require' b 'else' e 'in' k" := (if b then k else e)
  (at level 10, e at level 100, k at level 200, only parsing) : go_scope.
#[global] Open Scope go_scope.

(** * Strings

    A Go [string] (and a [[]byte]) is a byte sequence, [String.string]. *)

Abbreviation bytes := string (only parsing).

Definition str_eqb (s t : string) : bool := bool_decide (s = t).
Definition is_empty (s : string) : bool := str_eqb s "".
Definition len (s : string) : Z := Z.of_nat (String.length s).

(** [strings.HasPrefix s p]. *)
Definition HasPrefix (s p : string) : bool := String.prefix p s.

(** [s[n:]] for [n <= len s]. *)
Definition drop_bytes (n : nat) (s : string) : string :=
  String.substring n (String.length s - n) s.

(** [strings.CutPrefix s p]: the rest and whether [p] was there. *)
Definition CutPrefix (s p : string) : string * bool :=
  if HasPrefix s p then (drop_bytes (String.length p) s, true) else (s, false).

Fixpoint string_forallb (f : Ascii.ascii -> bool) (s : string) : bool :=
  match s with
  | EmptyString => true
  | String c s' => f c && string_forallb f s'
  end.

(** Byte [c] lies in ['lo'..'hi']. *)
Definition in_range (lo hi c : Ascii.ascii) : bool :=
  (Ascii.nat_of_ascii lo <=? Ascii.nat_of_ascii c)%nat
  && (Ascii.nat_of_ascii c <=? Ascii.nat_of_ascii hi)%nat.

Definition is_lower_hex (c : Ascii.ascii) : bool :=
  in_range "0"%char "9"%char c || in_range "a"%char "f"%char c.

Lemma str_eqb_eq s t : str_eqb s t = true <-> s = t.
Proof. apply bool_decide_eq_true. Qed.

Lemma str_eqb_neq s t : str_eqb s t = false <-> s <> t.
Proof. apply bool_decide_eq_false. Qed.

Lemma str_eqb_refl s : str_eqb s s = true.
Proof. by apply str_eqb_eq. Qed.

Lemma is_empty_true s : is_empty s = true <-> s = "".
Proof. apply str_eqb_eq. Qed.

Lemma is_empty_false s : is_empty s = false <-> s <> "".
Proof. apply str_eqb_neq. Qed.

Lemma len_pos s : s <> "" -> 0 < len s.
Proof. unfold len. destruct s; [done|]. intros _. cbn [String.length]. lia. Qed.

Lemma string_app_cons c (s t : string) : String c s +:+ t = String c (s +:+ t).
Proof. reflexivity. Qed.

Lemma string_app_nil (t : string) : "" +:+ t = t.
Proof. reflexivity. Qed.

Lemma str_app_assoc (a b c : string) : (a +:+ b) +:+ c = a +:+ (b +:+ c).
Proof. induction a as [|x a IH]; [done|]. by rewrite !string_app_cons, IH. Qed.

Lemma str_app_nil (a : string) : a +:+ "" = a.
Proof. induction a as [|x a IH]; [done|]. by rewrite string_app_cons, IH. Qed.

Lemma str_length_app (a b : string) : String.length (a +:+ b) = (String.length a + String.length b)%nat.
Proof. induction a as [|x a IH]; [done|]. rewrite string_app_cons. simpl. by rewrite IH. Qed.

Lemma substring_all s : String.substring 0 (String.length s) s = s.
Proof. induction s as [|c s IH]; [done|]. simpl. by rewrite IH. Qed.

Lemma drop_bytes_app (a b : string) : drop_bytes (String.length a) (a +:+ b) = b.
Proof.
  unfold drop_bytes. rewrite str_length_app. replace (String.length a + String.length b - String.length a)%nat
    with (String.length b) by lia.
  induction a as [|c a IH]; [apply substring_all|]. rewrite string_app_cons. simpl. exact IH.
Qed.

Lemma HasPrefix_app (a b : string) : HasPrefix (a +:+ b) a = true.
Proof.
  unfold HasPrefix. induction a as [|c a IH]; [by destruct b|]. rewrite string_app_cons. simpl.
  destruct (ascii_dec c c); [exact IH | done].
Qed.

Lemma substring_prefix d s : String.substring 0 (String.length d) s = d <-> exists r, s = d +:+ r.
Proof.
  revert s. induction d as [|c d IH]; intros s; simpl.
  { split; [by exists s | by destruct s]. }
  destruct s as [|e s]; [split; [done | by intros [r Hr]]|]. simpl. split.
  - intros [= -> H]. apply IH in H as [r ->]. by exists r.
  - intros [r Hr]. rewrite string_app_cons in Hr. injection Hr as -> ->. f_equal. apply IH. by exists r.
Qed.

Lemma HasPrefix_spec s p : HasPrefix s p = true <-> exists r, s = p +:+ r.
Proof. unfold HasPrefix. rewrite String.prefix_correct. apply substring_prefix. Qed.

(** * HTTP answers

    [ROk a] is [writeJSON(w, a)] (status 200), [HttpError c m] is
    [http.Error(w, m, c)], [RawJSON c m] writes the bytes [m] with status [c]
    and content type [application/json], [Refuse r m c] is [refuse]: an
    [http.Error] with the machine-readable reason header. *)
Inductive response (A : Type) : Type :=
| ROk (a : A)
| HttpError (code : Z) (msg : string)
| RawJSON (code : Z) (body : string)
| Refuse (reason : string) (msg : string) (code : Z).
Arguments ROk {A} a.
Arguments HttpError {A} code msg.
Arguments RawJSON {A} code body.
Arguments Refuse {A} reason msg code.

Definition StatusBadRequest : Z := 400.
Definition StatusUnauthorized : Z := 401.
Definition StatusForbidden : Z := 403.
Definition StatusNotFound : Z := 404.
Definition StatusMethodNotAllowed : Z := 405.
Definition StatusConflict : Z := 409.
Definition StatusTooManyRequests : Z := 429.
Definition StatusInternalServerError : Z := 500.
Definition StatusBadGateway : Z := 502.
Definition StatusServiceUnavailable : Z := 503.

(** * Automation *)

Create HintDb lever.

(** Appends of literals, computed. *)
Create Rewrite HintDb lever_str.
#[export] Hint Rewrite string_app_cons string_app_nil str_app_nil : lever_str.
Ltac strs := autorewrite with lever_str in *.

(** Split the boolean guards of a handler into facts about strings and
    integers. *)
Ltac guard_step :=
  match goal with
  | H : (_ && _) = true |- _ => apply andb_prop in H; destruct H
  | H : (_ || _) = false |- _ => apply orb_false_elim in H; destruct H
  | H : negb _ = true |- _ => apply negb_true_iff in H
  | H : negb _ = false |- _ => apply negb_false_iff in H
  | H : bool_decide _ = true |- _ => apply bool_decide_eq_true in H
  | H : bool_decide _ = false |- _ => apply bool_decide_eq_false in H
  | H : str_eqb _ _ = true |- _ => apply str_eqb_eq in H
  | H : str_eqb _ _ = false |- _ => apply str_eqb_neq in H
  | H : is_empty _ = true |- _ => apply is_empty_true in H
  | H : is_empty _ = false |- _ => apply is_empty_false in H
  end.
Ltac guards := repeat guard_step.

(** Walk down the [match]es and [if]s of an equation that ends in a known
    outcome, discarding the branches that cannot be it. *)
Ltac walk H :=
  repeat (first
    [ discriminate H
    | match type of H with
      | context [match ?x with _ => _ end] =>
          let E := fresh "E" in destruct x eqn:E; try discriminate H
      end ]);
  try (injection H as H).
