(* ===== verification/Go.v ===== *)
(** The parts of Go's standard library the modelled code relies on.

    UTF-8 decoding, case folding and space trimming are defined here over the
    Unicode case tables, which are the parameter [Unicode]. JSON values are the
    inductive type [any] that [encoding/json] decodes into; its encoder, decoder
    and token stream, base64url and RFC 3339 parsing are the parameters
    [GoJson], [Base64] and [TimeFormat]. *)

From S2P Require Import Prelude.

(** * UTF-8 *)

Definition byte_val (c : ascii) : Z := Z.of_nat (nat_of_ascii c).

(** [utf8.RuneError]. *)
Definition RuneError : Z := 65533.

(** A continuation byte, [10xxxxxx]. *)
Definition is_cont (c : ascii) : bool := (128 <=? byte_val c) && (byte_val c <=? 191).

(** One step of [utf8.DecodeRuneInString]: the rune, the bytes it took, and the
    rest. An invalid or truncated sequence is [RuneError] of width one. *)
Definition decode_rune (c : ascii) (rest : string) : Z * string * string :=
  let b0 := byte_val c in
  let bad := (RuneError, String c "", rest) in
  if b0 <? 128 then (b0, String c "", rest)
  else match rest with
  | String c1 r1 =>
    let b1 := byte_val c1 in
    if (194 <=? b0) && (b0 <=? 223) then
      if is_cont c1
      then ((b0 - 192) * 64 + (b1 - 128), String c (String c1 ""), r1)
      else bad
    else match r1 with
    | String c2 r2 =>
      let b2 := byte_val c2 in
      if (224 <=? b0) && (b0 <=? 239) then
        let r := ((b0 - 224) * 64 + (b1 - 128)) * 64 + (b2 - 128) in
        if is_cont c1 && is_cont c2 && (2048 <=? r)
           && negb ((55296 <=? r) && (r <=? 57343))
        then (r, String c (String c1 (String c2 "")), r2)
        else bad
      else match r2 with
      | String c3 r3 =>
        let r := (((b0 - 240) * 64 + (b1 - 128)) * 64 + (b2 - 128)) * 64 + (byte_val c3 - 128) in
        if (240 <=? b0) && (b0 <=? 244) && is_cont c1 && is_cont c2 && is_cont c3
           && (65536 <=? r) && (r <=? 1114111)
        then (r, String c (String c1 (String c2 (String c3 ""))), r3)
        else bad
      | EmptyString => bad
      end
    | EmptyString => bad
    end
  | EmptyString => bad
  end.

(** [for _, r := range s]: every rune with its bytes. The fuel is the byte
    length, and every step takes at least one byte. *)
Fixpoint chunks_fuel (fuel : nat) (s : string) : list (Z * string) :=
  match fuel, s with
  | S f, String c rest =>
    let '(r, b, rest') := decode_rune c rest in (r, b) :: chunks_fuel f rest'
  | _, _ => []
  end.

Definition chunks (s : string) : list (Z * string) := chunks_fuel (String.length s) s.
Definition runes (s : string) : list Z := (chunks s).*1.

(** [utf8.EncodeRune]; a rune out of range is written as [RuneError]. *)
Definition encode_rune (r : Z) : string :=
  let ch z := ascii_of_nat (Z.to_nat z) in
  let r := if (r <? 0) || (1114111 <? r) || ((55296 <=? r) && (r <=? 57343))
           then RuneError else r in
  if r <? 128 then String (ch r) ""
  else if r <? 2048 then String (ch (192 + r / 64)) (String (ch (128 + r mod 64)) "")
  else if r <? 65536 then
    String (ch (224 + r / 4096)) (String (ch (128 + r / 64 mod 64)) (String (ch (128 + r mod 64)) ""))
  else
    String (ch (240 + r / 262144)) (String (ch (128 + r / 4096 mod 64))
      (String (ch (128 + r / 64 mod 64)) (String (ch (128 + r mod 64)) ""))).

Definition encode_runes (rs : list Z) : string := foldr (fun r s => encode_rune r +:+ s) "" rs.

(** * Unicode case tables *)

(** A Unicode code point that is not a surrogate half. *)
Definition valid_rune (r : Z) : bool :=
  (0 <=? r) && (r <=? 1114111) && negb ((55296 <=? r) && (r <=? 57343)).

(** [unicode.SimpleFold] walks the orbit of runes equal under case folding and
    returns to where it started; the longest orbit of the tables has four
    runes, all code points. [unicode.ToLower] maps one rune. *)
Class Unicode := {
  SimpleFold : Z -> Z;
  rune_lower : Z -> Z;
  simple_fold_cycle : forall r, exists k : nat, (1 <= k <= 4)%nat /\ Nat.iter k SimpleFold r = r;
  simple_fold_valid : forall r, valid_rune r = true -> valid_rune (SimpleFold r) = true
}.

(** Runes equal under case folding: one is among the iterates of the other. *)
Definition rune_equal_fold `{Unicode} (r s : Z) : bool :=
  existsb (fun k => Nat.iter k SimpleFold r =? s) [0; 1; 2; 3]%nat.

Fixpoint forallb2 {A B} (f : A -> B -> bool) (l : list A) (k : list B) : bool :=
  match l, k with
  | [], [] => true
  | x :: l, y :: k => f x y && forallb2 f l k
  | _, _ => false
  end.

(** [strings.EqualFold]. *)
Definition EqualFold `{Unicode} (s t : string) : bool := forallb2 rune_equal_fold (runes s) (runes t).

(** [strings.ToLower]: every rune through [unicode.ToLower]. *)
Definition ToLower `{Unicode} (s : string) : string := encode_runes (rune_lower <$> runes s).

(** [unicode.IsSpace]. *)
Definition IsSpace (r : Z) : bool :=
  bool_decide (r ∈ [9; 10; 11; 12; 13; 32; 133; 160; 5760; 8232; 8233; 8239; 8287; 12288])
  || ((8192 <=? r) && (r <=? 8202)).

Fixpoint drop_spaces (cs : list (Z * string)) : list (Z * string) :=
  match cs with
  | (r, b) :: cs' => if IsSpace r then drop_spaces cs' else cs
  | [] => []
  end.

(** [strings.TrimSpace]. *)
Definition TrimSpace (s : string) : string :=
  foldr (fun c acc => c.2 +:+ acc) "" (reverse (drop_spaces (reverse (drop_spaces (chunks s))))).

(** * JSON values *)

Set Warnings "-register-all".

(** What [json.Unmarshal] stores into an [any]: a number is a [float64], given
    by its bits. *)
Inductive any : Type :=
| ANull
| ABool (b : bool)
| ANum (bits : Z)
| AStr (s : string)
| AArr (l : list any)
| AObj (m : gmap string any).

(** The type assertions [v.(string)], [v.(map[string]any)], [v.([]any)]. *)
Definition as_string (v : any) : option string := match v with AStr s => Some s | _ => None end.
Definition as_obj (v : any) : option (gmap string any) := match v with AObj m => Some m | _ => None end.
Definition as_arr (v : any) : option (list any) := match v with AArr l => Some l | _ => None end.

(** One token of [json.Decoder.Token]: the four delimiters, a string, or any
    other scalar (a number, a boolean, null). *)
Inductive jtok : Type :=
| TObjOpen | TObjClose | TArrOpen | TArrClose
| TStr (s : string)
| TScalar.

(** [encoding/json]: [Marshal] and [Unmarshal] on untyped values, and the token
    stream of a decoder with how it ended ([true]: [io.EOF]; [false]: any other
    error). *)
Class GoJson := {
  Marshal : any -> option bytes;
  Unmarshal : bytes -> option any;
  Tokens : bytes -> list jtok * bool
}.

(** [base64.RawURLEncoding]. *)
Class Base64 := {
  b64_encode : bytes -> string;
  b64_decode : string -> option bytes;
  b64_round : forall b, b64_decode (b64_encode b) = Some b
}.

(** [time.Parse(time.RFC3339, _)]. *)
Class TimeFormat := {
  ParseRFC3339 : string -> option Time
}.

(** * UTF-8 round trip *)

Lemma byte_val_of_nat z : 0 <= z < 256 -> byte_val (ascii_of_nat (Z.to_nat z)) = z.
Proof. intros Hz. unfold byte_val. rewrite nat_ascii_embedding; lia. Qed.

Lemma byte_val_range c : 0 <= byte_val c < 256.
Proof. unfold byte_val. pose proof (nat_ascii_bounded c). lia. Qed.

Ltac bytes_arith :=
  repeat match goal with
  | |- context [byte_val (ascii_of_nat (Z.to_nat ?z))] =>
      rewrite (byte_val_of_nat z) by lia
  end.

(** Decide the boolean comparisons of integers [lia] can settle. *)
Ltac zcases :=
  repeat match goal with
  | |- context [?a <? ?b] => first [ replace (a <? b) with true by lia | replace (a <? b) with false by lia ]
  | |- context [?a <=? ?b] => first [ replace (a <=? b) with true by lia | replace (a <=? b) with false by lia ]
  end.

Lemma split64 r : 64 * (r / 64) + r mod 64 = r.
Proof. symmetry. apply Z.div_mod. lia. Qed.

(** Decoding an encoded code point gives it back and stops right after it. *)
Lemma decode_encode_rune r rest :
  valid_rune r = true ->
  exists c tl, encode_rune r = String c tl
    /\ decode_rune c (tl +:+ rest) = (r, String c tl, rest).
Proof.
  intros Hv. unfold valid_rune in Hv. guards.
  assert (Hr : 0 <= r <= 1114111) by lia.
  assert (Hs : r < 55296 \/ 57343 < r) by lia.
  unfold encode_rune.
  replace ((r <? 0) || (1114111 <? r) || ((55296 <=? r) && (r <=? 57343))) with false by lia.
  pose proof (split64 r). pose proof (split64 (r / 64)). pose proof (split64 (r / 64 / 64)).
  pose proof (Z.mod_pos_bound r 64). pose proof (Z.mod_pos_bound (r / 64) 64).
  pose proof (Z.mod_pos_bound (r / 64 / 64) 64).
  replace (r / 4096) with (r / 64 / 64) by (by rewrite Z.div_div by lia).
  replace (r / 262144) with (r / 64 / 64 / 64) by (by rewrite !Z.div_div by lia).
  generalize dependent (r / 64 / 64 mod 64). intros m2.
  generalize dependent (r / 64 / 64 / 64). intros q3.
  generalize dependent (r / 64 mod 64). intros m1.
  generalize dependent (r / 64 / 64). intros q2.
  generalize dependent (r mod 64). intros m0.
  generalize dependent (r / 64). intros q1.
  intros. unfold decode_rune, is_cont.
  destruct (Z.ltb_spec r 128); [|destruct (Z.ltb_spec r 2048); [|destruct (Z.ltb_spec r 65536)]];
    do 2 eexists; (split; [reflexivity|]); rewrite ?string_app_cons, ?string_app_nil; bytes_arith; zcases; cbn [andb negb];
    try (replace ((55296 <=? _) && (_ <=? 57343)) with false by lia; cbn [andb negb]);
    repeat f_equal; lia.
Qed.

(** A decoding step splits its input, leaves less of it, and gives a code
    point. *)
Lemma decode_rune_split c rest r b rest' :
  decode_rune c rest = (r, b, rest') ->
  String c rest = b +:+ rest' /\ (String.length rest' <= String.length rest)%nat
  /\ valid_rune r = true.
Proof.
  unfold decode_rune. intros E. pose proof (byte_val_range c) as Hc.
  destruct (Z.ltb_spec (byte_val c) 128).
  { injection E as <- <- <-. split_and!; [done | lia | unfold valid_rune; lia]. }
  assert (Hbad : (RuneError, String c "", rest) = (r, b, rest') ->
    String c rest = b +:+ rest' /\ (String.length rest' <= String.length rest)%nat /\ valid_rune r = true).
  { intros [= <- <- <-]. done. }
  destruct rest as [|c1 r1]; [by apply Hbad|]. pose proof (byte_val_range c1) as Hc1.
  case_match eqn:E1; guards.
  { case_match eqn:E2; [|by apply Hbad]. unfold is_cont in E2. guards.
    injection E as <- <- <-. simpl. split_and!; [done | lia | unfold valid_rune; lia]. }
  destruct r1 as [|c2 r2]; [by apply Hbad|]. pose proof (byte_val_range c2) as Hc2.
  case_match eqn:E2; guards.
  { case_match eqn:E3; [|by apply Hbad]. unfold is_cont in E3. guards.
    injection E as <- <- <-. simpl. split_and!; [done | lia | unfold valid_rune; lia]. }
  destruct r2 as [|c3 r3]; [by apply Hbad|]. pose proof (byte_val_range c3) as Hc3.
  case_match eqn:E3; [|by apply Hbad]. unfold is_cont in E3. guards.
  injection E as <- <- <-. simpl. split_and!; [done | lia | unfold valid_rune; lia].
Qed.

Lemma chunks_fuel_enough f : forall s, (String.length s <= f)%nat -> chunks_fuel f s = chunks s.
Proof.
  induction f as [f IH] using lt_wf_ind. intros s Hs.
  destruct s as [|c rest]; [by destruct f|].
  destruct f as [|f]; simpl in Hs; [lia|]. unfold chunks. simpl.
  destruct (decode_rune c rest) as [[r b] rest'] eqn:E.
  destruct (decode_rune_split _ _ _ _ _ E) as (_ & Hlen & _).
  f_equal. rewrite !IH; [done | lia..].
Qed.

Lemma chunks_cons c rest :
  chunks (String c rest) = let '(r, b, rest') := decode_rune c rest in (r, b) :: chunks rest'.
Proof.
  unfold chunks at 1. simpl. destruct (decode_rune c rest) as [[r b] rest'] eqn:E.
  destruct (decode_rune_split _ _ _ _ _ E) as (_ & Hlen & _).
  by rewrite chunks_fuel_enough.
Qed.

(** The chunks of a string spell it. *)
Lemma chunks_concat s : foldr (fun c acc => c.2 +:+ acc) "" (chunks s) = s.
Proof.
  induction s as [s IH] using (induction_ltof1 _ String.length). unfold ltof in IH.
  destruct s as [|c rest]; [done|]. rewrite chunks_cons.
  destruct (decode_rune c rest) as [[r b] rest'] eqn:E.
  destruct (decode_rune_split _ _ _ _ _ E) as (-> & Hlen & _).
  simpl. rewrite IH; [done | simpl; lia].
Qed.

Lemma runes_valid s : Forall (fun r => valid_rune r = true) (runes s).
Proof.
  unfold runes. induction s as [s IH] using (induction_ltof1 _ String.length). unfold ltof in IH.
  destruct s as [|c rest]; [constructor|]. rewrite chunks_cons.
  destruct (decode_rune c rest) as [[r b] rest'] eqn:E.
  destruct (decode_rune_split _ _ _ _ _ E) as (_ & Hlen & Hv).
  simpl. constructor; [done | apply IH; simpl; lia].
Qed.

(** Encoding code points and decoding them again is the identity. *)
Lemma runes_encode rs :
  Forall (fun r => valid_rune r = true) rs -> runes (encode_runes rs) = rs.
Proof.
  induction 1 as [|r rs Hr _ IH]; [done|]. simpl.
  destruct (decode_encode_rune r (encode_runes rs) Hr) as (c & tl & -> & E).
  unfold runes. rewrite string_app_cons, chunks_cons, E, fmap_cons.
  f_equal. exact IH.
Qed.

(** An ASCII string is its own runes. *)
Definition is_ascii (s : string) : bool := string_forallb (fun c => byte_val c <? 128) s.

Fixpoint byte_list (s : string) : list Z :=
  match s with EmptyString => [] | String c s' => byte_val c :: byte_list s' end.

Lemma runes_ascii s : is_ascii s = true -> runes s = byte_list s.
Proof.
  unfold is_ascii. induction s as [|c s IH]; [done|]. cbn [string_forallb byte_list].
  intros [Hc Hs]%andb_prop. unfold runes. rewrite chunks_cons. unfold decode_rune.
  rewrite Hc, fmap_cons. f_equal. by apply IH.
Qed.

Lemma encode_ascii s : is_ascii s = true -> encode_runes (byte_list s) = s.
Proof.
  unfold is_ascii. induction s as [|c s IH]; [done|]. cbn [string_forallb byte_list].
  intros [Hc Hs]%andb_prop. cbn [encode_runes foldr]. fold (encode_runes (byte_list s)).
  rewrite IH by done. pose proof (byte_val_range c). unfold encode_rune.
  replace ((byte_val c <? 0) || (1114111 <? byte_val c)
    || ((55296 <=? byte_val c) && (byte_val c <=? 57343))) with false by lia.
  rewrite Hc. unfold byte_val. by rewrite Nat2Z.id, ascii_nat_embedding.
Qed.
