(* ===== verification/Mcp.v ===== *)
(** The JSON-RPC / MCP plumbing ([internal/mcp/mcp.go]) shared by the broker
    gateway and the first-party tool SDK: the [tools/call] projection, the
    constraint parameters both verify against, and the capability argument's
    removal and advertisement. *)

From S2P Require Import Prelude Go.

Module Mcp.

Definition MaxBodyBytes : Z := 2 ^ 20.
Definition ProtocolVersion : string := "2024-11-05".
Definition CapabilityArg : string := "_capability".

Definition CodeParseError : Z := -32700.
Definition CodeMethodNotFound : Z := -32601.
Definition CodeInvalidParams : Z := -32602.
Definition CodeInternalError : Z := -32603.
Definition CodeServerError : Z := -32000.

(** A decoded message, [map[string]any]. *)
Abbreviation msg := (gmap string any) (only parsing).

(** [msg["method"].(string)]: a missing key or another type gives [""]. *)
Definition get_string (m : msg) (k : string) : string :=
  default "" (m !! k ≫= as_string).

(** [Parse]: the method and the message; [None] when the body is no JSON
    object. Decoding [null] leaves a nil map, which reads as empty. *)
Definition Parse `{GoJson} (body : bytes) : option (string * msg) :=
  match Unmarshal body with
  | Some (AObj m) => Some (get_string m "method", m)
  | Some ANull => Some ("", ∅)
  | _ => None
  end.

(** A framed reply. [id] is [nil] when the message has none. *)
Inductive reply :=
| Result (id : any) (result : any)
| Error (id : any) (code : Z) (message : string).

Definition TextResult (id : any) (text : string) : reply :=
  Result id (AObj {[ "content" := AArr [AObj (<["type" := AStr "text"]> {["text" := AStr text]})] ]}).

Definition CapabilityProperty : any :=
  AObj (<["type" := AStr "string"]>
        {["description" := AStr "lever capability token authorizing this call"]}).

(** The id a reply carries: [msg["id"]], [nil] when absent. *)
Definition msg_id (m : msg) : any := default ANull (m !! "id").

(** [Dispatch]: [initialize] and [tools/list] are answered here, [tools/call]
    goes to the service. *)
Definition Dispatch `{GoJson} (body : bytes) (name version : string) (tools : list any)
    (call : any -> msg -> reply) : reply :=
  match Parse body with
  | None => Error ANull CodeParseError "parse error"
  | Some (method, m) =>
    let id := msg_id m in
    if str_eqb method "initialize" then
      Result id (AObj (<["protocolVersion" := AStr ProtocolVersion]>
        (<["capabilities" := AObj {["tools" := AObj ∅]}]>
        {["serverInfo" := AObj (<["name" := AStr name]>
            {["version" := AStr (if is_empty version then "dev" else version)]})]})))
    else if str_eqb method "tools/list" then Result id (AObj {["tools" := AArr tools]})
    else if str_eqb method "tools/call" then call id m
    else Error id CodeMethodNotFound "method not found"
  end.

(** The string a non-capability argument is checked as: a string as it is,
    anything else JSON-encoded. *)
Definition project_arg `{GoJson} (v : any) : option string :=
  match as_string v with Some s => Some s | None => Marshal v end.

(** One iteration of the argument loop of [ToolsCall]. *)
Definition tools_call_arg `{GoJson} (acc : option (gmap string string * string)) (kv : string * any)
    : option (gmap string string * string) :=
  match acc with
  | None => None
  | Some (args, cap) =>
    let '(k, v) := kv in
    if str_eqb k CapabilityArg then Some (args, default "" (as_string v))
    else match project_arg v with
         | Some s => Some (<[k := s]> args, cap)
         | None => None
         end
  end.

(** [ToolsCall]: the tool name, the string arguments without [_capability], and
    the token. [None] is [ok = false]. *)
Definition ToolsCall `{GoJson} (m : msg) : option (string * gmap string string * string) :=
  match m !! "params" ≫= as_obj with
  | None => None
  | Some params =>
    let name := get_string params "name" in
    let rawArgs := default ∅ (params !! "arguments" ≫= as_obj) in
    match foldl tools_call_arg (Some (∅, "")) (map_to_list rawArgs) with
    | None => None
    | Some (args, cap) => if is_empty name then None else Some (name, args, cap)
    end
  end.

(** [MapConstraintParams]: the three loops, over the entries of the maps in any
    order. *)
Definition drop_renamed (out : gmap string string) (kv : string * string) : gmap string string :=
  let '(ck, argName) := kv in if str_eqb ck argName then out else delete ck out.

Definition bind_renamed (args out : gmap string string) (kv : string * string) : gmap string string :=
  let '(ck, argName) := kv in
  match args !! argName with Some v => <[ck := v]> out | None => out end.

Definition MapConstraintParams (caveatParam : list (string * string)) (args : gmap string string)
    : gmap string string :=
  foldl (bind_renamed args) (foldl drop_renamed args caveatParam) caveatParam.

Section Fold.
Context (EqualFold : string -> string -> bool).

(** [RenamedKeyArg]: the renamed constraint key an argument is named like, or
    [""]. The two loops range over maps, in the order given. *)
Fixpoint RenamedKeyArg (caveatParam : list (string * string)) (args : list string) : string :=
  match caveatParam with
  | [] => ""
  | (ck, argName) :: rest =>
    if str_eqb ck argName then RenamedKeyArg rest args
    else if existsb (fun k => negb (str_eqb k argName) && EqualFold k ck) args then ck
    else RenamedKeyArg rest args
  end.
End Fold.

(** [StripCapability] on the decoded message: [delete(args, CapabilityArg)]. *)
Definition strip_capability (m : msg) : msg :=
  match m !! "params" ≫= as_obj with
  | None => m
  | Some params =>
    match params !! "arguments" ≫= as_obj with
    | None => m
    | Some args =>
      <["params" := AObj (<["arguments" := AObj (delete CapabilityArg args)]> params)]> m
    end
  end.

(** The re-marshalled bytes; [json.Marshal]'s error is dropped, leaving none. *)
Definition StripCapability `{GoJson} (m : msg) : bytes :=
  default "" (Marshal (AObj (strip_capability m))).

(** One iteration of the tool loop of [AugmentToolsListSchema]. *)
Definition augment_tool (ti : any) : any :=
  match as_obj ti with
  | None => ti
  | Some tool =>
    let schema := default {["type" := AStr "object"]} (tool !! "inputSchema" ≫= as_obj) in
    let props := default ∅ (schema !! "properties" ≫= as_obj) in
    AObj (<["inputSchema" :=
      AObj (<["properties" := AObj (<[CapabilityArg := CapabilityProperty]> props)]> schema)]> tool)
  end.

(** The decoded reply with every tool augmented; [None] leaves the body as it
    came. *)
Definition augment_message (v : any) : option any :=
  msg ← as_obj v; result ← msg !! "result" ≫= as_obj; tools ← result !! "tools" ≫= as_arr;
  Some (AObj (<["result" := AObj (<["tools" := AArr (augment_tool <$> tools)]> result)]> msg)).

Definition AugmentToolsListSchema `{GoJson} (respBody : bytes) : bytes :=
  default respBody ((Unmarshal respBody ≫= augment_message) ≫= Marshal).

(** * The projection of a call *)

Section Projection.
Context `{GoJson}.

Lemma tools_call_none l : foldl tools_call_arg None l = None.
Proof. induction l as [|[k v] l IH]; [done | exact IH]. Qed.

(** What the loop collects from a list of entries with distinct keys. *)
Lemma tools_call_loop l : forall args cap args' cap',
  NoDup l.*1 -> (forall k, k ∈ l.*1 -> args !! k = None) ->
  foldl tools_call_arg (Some (args, cap)) l = Some (args', cap') ->
  (forall k, args' !! k = if decide (k = CapabilityArg) then args !! k
                          else match (list_to_map l : gmap string any) !! k with
                               | Some v => project_arg v
                               | None => args !! k
                               end)
  /\ cap' = match (list_to_map l : gmap string any) !! CapabilityArg with
            | Some v => default "" (as_string v)
            | None => cap
            end.
Proof.
  induction l as [|[k0 v0] l IH]; intros args cap args' cap' Hnd Hfr E; simpl in *.
  { injection E as <- <-. split; [intros k; by case_decide | done]. }
  apply NoDup_cons in Hnd as [Hk0 Hnd].
  assert (Hout : (list_to_map l : gmap string any) !! k0 = None) by by apply not_elem_of_list_to_map_1.
  assert (Hfr' : forall k, k ∈ l.*1 -> args !! k = None) by (intros k Hk; apply Hfr; by right).
  destruct (str_eqb k0 CapabilityArg) eqn:Ek; guards.
  - subst k0. destruct (IH _ _ _ _ Hnd Hfr' E) as [H1 H2]. rewrite Hout in H2. split.
    + intros k. rewrite H1. case_decide as Hd; [done | by rewrite lookup_insert_ne].
    + by rewrite lookup_insert_eq.
  - destruct (project_arg v0) as [s|] eqn:Ep; [|by rewrite tools_call_none in E].
    destruct (IH (<[k0:=s]> args) cap args' cap' Hnd) as [H1 H2].
    + intros k Hk. rewrite lookup_insert_ne; [by apply Hfr' | intros ->; done].
    + done.
    + split.
      * intros k. rewrite H1. case_decide as Hd.
        -- by rewrite lookup_insert_ne by congruence.
        -- destruct (decide (k0 = k)) as [<-|Hne].
           ++ by rewrite Hout, !lookup_insert_eq.
           ++ by rewrite !lookup_insert_ne by done.
      * rewrite H2. by rewrite lookup_insert_ne by done.
Qed.

(** The shape of a message the projection reads. *)
Definition call_args (m : msg) : gmap string any :=
  default ∅ (p ← m !! "params" ≫= as_obj; p !! "arguments" ≫= as_obj).

Lemma ToolsCall_inv m name args cap :
  ToolsCall m = Some (name, args, cap) ->
  name <> ""
  /\ (exists p, m !! "params" = Some (AObj p) /\ get_string p "name" = name)
  /\ cap = match call_args m !! CapabilityArg with Some v => default "" (as_string v) | None => "" end
  /\ forall k, args !! k = if decide (k = CapabilityArg) then None
                           else call_args m !! k ≫= project_arg.
Proof.
  unfold ToolsCall, call_args. intros E.
  destruct (m !! "params") as [[]|] eqn:Ep; simpl in *; try done.
  destruct (foldl _ _ _) as [[args' cap']|] eqn:El; [|done].
  destruct (is_empty _) eqn:En; [done|]. guards. injection E as <- <- <-.
  apply tools_call_loop in El as [H1 H2]; [| apply NoDup_fst_map_to_list | by set_solver].
  rewrite list_to_map_to_list in H1, H2.
  split_and!; [done | by eauto | exact H2 |].
  intros k. rewrite H1. case_decide; [done|]. by destruct (_ !! k).
Qed.
End Projection.

(** * Constraint parameters *)

Section Params.
Context (args : gmap string string).

Lemma drop_renamed_none l : forall (out : gmap string string) k,
  out !! k = None -> foldl drop_renamed out l !! k = None.
Proof.
  induction l as [|[ck an] l IH]; intros out k Hk; simpl; [done|]. apply IH.
  destruct (str_eqb ck an); [done|]. rewrite lookup_delete. by case_decide.
Qed.

Lemma drop_renamed_gone l k an : forall out : gmap string string,
  (k, an) ∈ l -> k <> an -> foldl drop_renamed out l !! k = None.
Proof.
  induction l as [|[ck an'] l IH]; intros out Hin Hne; simpl; [set_solver|].
  apply elem_of_cons in Hin as [[= <- <-]|Hin]; [|by apply IH].
  apply str_eqb_neq in Hne. rewrite Hne. apply drop_renamed_none, lookup_delete_eq.
Qed.

Lemma drop_renamed_kept l k : forall out : gmap string string,
  (forall an, (k, an) ∈ l -> k = an) -> foldl drop_renamed out l !! k = out !! k.
Proof.
  induction l as [|[ck an] l IH]; intros out Hall; simpl; [done|].
  rewrite IH by (intros an' Hin; apply Hall; by right).
  destruct (str_eqb ck an) eqn:E; guards; [done|].
  rewrite lookup_delete_ne; [done|]. intros ->. apply E, Hall. by left.
Qed.

Lemma bind_renamed_lookup l : forall out k,
  NoDup l.*1 ->
  foldl (bind_renamed args) out l !! k
  = match (list_to_map l : gmap string string) !! k with
    | Some an => match args !! an with Some v => Some v | None => out !! k end
    | None => out !! k
    end.
Proof.
  induction l as [|[ck an] l IH]; intros out k Hnd; simpl; [done|].
  apply NoDup_cons in Hnd as [Hck Hnd]. rewrite IH by done.
  assert (Hout : (list_to_map l : gmap string string) !! ck = None) by by apply not_elem_of_list_to_map_1.
  destruct (decide (ck = k)) as [->|Hne].
  - rewrite Hout, lookup_insert_eq. by destruct (args !! an); rewrite ?lookup_insert_eq.
  - rewrite lookup_insert_ne by done. by destruct (args !! an); rewrite ?lookup_insert_ne by done.
Qed.

(** The parameter a constraint key is checked against: the renamed argument for
    a key the operation renames, the argument of the same name otherwise. *)
Definition param_of (cp : gmap string string) (k : string) : option string :=
  match cp !! k with Some an => args !! an | None => args !! k end.

Lemma MapConstraintParams_lookup cp l k :
  l ≡ₚ map_to_list cp -> MapConstraintParams l args !! k = param_of cp k.
Proof.
  intros Hl. unfold MapConstraintParams, param_of.
  assert (Hnd : NoDup l.*1) by (rewrite Hl; apply NoDup_fst_map_to_list).
  assert (Hm : list_to_map l = cp).
  { rewrite <- (list_to_map_to_list cp). by apply list_to_map_proper. }
  rewrite bind_renamed_lookup by done. rewrite Hm.
  assert (Hin : forall an, (k, an) ∈ l <-> cp !! k = Some an)
    by (intros an; rewrite Hl; apply elem_of_map_to_list).
  destruct (cp !! k) as [an|] eqn:Ek.
  - destruct (args !! an) as [v|] eqn:Ea; [done|].
    destruct (decide (k = an)) as [<-|Hne].
    + rewrite drop_renamed_kept; [done | naive_solver].
    + apply (drop_renamed_gone _ _ an); naive_solver.
  - apply drop_renamed_kept. naive_solver.
Qed.
End Params.

(** A renamed constraint key some argument is named like, with that argument. *)
Definition renamed_clash (EF : string -> string -> bool) (cp : list (string * string))
    (args : list string) (ck : string) : Prop :=
  exists an k, (ck, an) ∈ cp /\ ck <> an /\ k ∈ args /\ k <> an /\ EF k ck = true.

Lemma existsb_clash (EF : string -> string -> bool) an ck args :
  existsb (fun k => negb (str_eqb k an) && EF k ck) args = true
  <-> exists k, k ∈ args /\ k <> an /\ EF k ck = true.
Proof.
  rewrite existsb_exists. setoid_rewrite andb_true_iff. setoid_rewrite negb_true_iff.
  setoid_rewrite str_eqb_neq. setoid_rewrite list_elem_of_In. done.
Qed.

Lemma renamed_clash_cons (EF : string -> string -> bool) ck an cp args r :
  renamed_clash EF ((ck, an) :: cp) args r
  <-> (r = ck /\ ck <> an /\ exists k, k ∈ args /\ k <> an /\ EF k ck = true)
      \/ renamed_clash EF cp args r.
Proof. unfold renamed_clash. setoid_rewrite elem_of_cons. naive_solver. Qed.

(** The answer is a clashing key, and [""] only when there is none (no
    operation renames the empty key). *)
Lemma RenamedKeyArg_spec (EF : string -> string -> bool) cp args :
  "" ∉ cp.*1 ->
  match RenamedKeyArg EF cp args with
  | "" => forall ck, ~ renamed_clash EF cp args ck
  | r => renamed_clash EF cp args r
  end.
Proof.
  induction cp as [|[ck an] cp IH]; intros Hne; simpl.
  { intros ck (an & k & Hin & _). set_solver. }
  simpl in Hne. apply not_elem_of_cons in Hne as [Hck Hne]. specialize (IH Hne).
  destruct (str_eqb ck an) eqn:E; guards.
  { subst. destruct (RenamedKeyArg EF cp args).
    - intros ck. rewrite renamed_clash_cons. specialize (IH ck). naive_solver.
    - rewrite renamed_clash_cons. by right. }
  destruct (existsb _ args) eqn:Ex.
  - destruct ck; [done|]. rewrite renamed_clash_cons. left. by rewrite <- existsb_clash.
  - apply not_true_iff_false in Ex. rewrite existsb_clash in Ex.
    destruct (RenamedKeyArg EF cp args).
    + intros ck'. rewrite renamed_clash_cons. specialize (IH ck'). naive_solver.
    + rewrite renamed_clash_cons. by right.
Qed.

(** The condition is needed: [""] answers both "none" and "the empty key", so a
    clash of the empty key hides one of another key. *)
Lemma empty_key_hides_clash :
  exists cp args ck, renamed_clash str_eqb cp args ck /\ ck <> "" /\ RenamedKeyArg str_eqb cp args = "".
Proof.
  exists [("", "a"); ("to", "dest")], ["to"; ""], "to". split_and!; [|done|by vm_compute].
  exists "dest", "to". split_and!; [set_solver|done|set_solver|done|done].
Qed.

(** * The capability argument *)

Lemma strip_no_capability m : call_args (strip_capability m) !! CapabilityArg = None.
Proof.
  unfold call_args, strip_capability.
  destruct (m !! "params") as [[]|] eqn:Ep; simpl; rewrite ?Ep; simpl; try done.
  destruct (m0 !! "arguments") as [[]|] eqn:Ea; simpl; rewrite ?Ep; simpl; rewrite ?Ea; simpl; try done.
  rewrite lookup_insert_eq. simpl. rewrite lookup_insert_eq. simpl. apply lookup_delete_eq.
Qed.

Lemma strip_keeps_args m k :
  k <> CapabilityArg -> call_args (strip_capability m) !! k = call_args m !! k.
Proof.
  intros Hk. unfold call_args, strip_capability.
  destruct (m !! "params") as [[]|] eqn:Ep; simpl; rewrite ?Ep; simpl; try done.
  destruct (m0 !! "arguments") as [[]|] eqn:Ea; simpl; rewrite ?Ep; simpl; rewrite ?Ea; simpl; try done.
  rewrite lookup_insert_eq. simpl. rewrite lookup_insert_eq. simpl. by rewrite lookup_delete_ne.
Qed.

End Mcp.
