(* ===== verification/FoldKeys.v ===== *)
(** Ambiguous JSON keys ([internal/servicehost/foldkeys.go]): the gateway refuses
    a message some object of which has two keys equal under Unicode case
    folding, since a checker that reads keys exactly and a server that matches
    them case-insensitively would read it differently. *)

From S2P Require Import Prelude Go.

Module FoldKeys.

Set Warnings "-register-all".

(** * JSON texts as trees of tokens *)

Inductive jtree : Type :=
| JScalar
| JString (s : string)
| JArray (l : list jtree)
| JObject (l : list (string * jtree)).

(** The token stream a decoder produces for the text of a tree. *)
Fixpoint flatten (t : jtree) : list jtok :=
  match t with
  | JScalar => [TScalar]
  | JString s => [TStr s]
  | JArray l => TArrOpen :: foldr (fun t acc => flatten t ++ acc) [TArrClose] l
  | JObject l => TObjOpen :: foldr (fun kv acc => TStr kv.1 :: flatten kv.2 ++ acc) [TObjClose] l
  end.

Section TreeInd.
Context (P : jtree -> Prop)
  (Hscalar : P JScalar) (Hstring : forall s, P (JString s))
  (Harray : forall l, Forall P l -> P (JArray l))
  (Hobject : forall l, Forall (fun kv => P kv.2) l -> P (JObject l)).

Fixpoint jtree_nested_ind (t : jtree) : P t :=
  match t with
  | JScalar => Hscalar
  | JString s => Hstring s
  | JArray l => Harray l
      ((fix go (l : list jtree) : Forall P l :=
          match l with [] => Forall_nil_2 _ | t :: l => Forall_cons_2 _ _ _ (jtree_nested_ind t) (go l) end) l)
  | JObject l => Hobject l
      ((fix go (l : list (string * jtree)) : Forall (fun kv => P kv.2) l :=
          match l with
          | [] => Forall_nil_2 _
          | kv :: l => Forall_cons_2 _ _ _ (jtree_nested_ind kv.2) (go l)
          end) l)
  end.
End TreeInd.

(** * The walk *)

Definition maxJSONDepth : nat := 256.

(** The smallest rune of the folding orbit: the loop [for f := SimpleFold(r);
    f != r; f = SimpleFold(f)]. An orbit has at most four runes, so the loop
    takes at most three turns before it is back at [r]. *)
Fixpoint fold_loop `{Unicode} (fuel : nat) (r f m : Z) : Z :=
  match fuel with
  | O => m
  | S n => if f =? r then m else fold_loop n r (SimpleFold f) (if f <? m then f else m)
  end.

Definition foldRune `{Unicode} (r : Z) : Z := fold_loop 4 r (SimpleFold r) r.

Definition foldKey `{Unicode} (s : string) : string := encode_runes (foldRune <$> runes s).

(** [jsonFrame]: an open object with its folded keys and [expectKey], or an open
    array ([keys] nil). *)
Inductive jsonFrame :=
| FObj (keys : gset string) (expectKey : bool)
| FArr.

(** [valueDone]; the top of the stack is the head of the list. *)
Definition valueDone (stack : list jsonFrame) : list jsonFrame :=
  match stack with
  | FObj keys _ :: rest => FObj keys true :: rest
  | _ => stack
  end.

(** One turn of the loop; [None] is [return true]. *)
Definition fold_step `{Unicode} (tok : jtok) (stack : list jsonFrame) : option (list jsonFrame) :=
  match stack with
  | FObj keys true :: rest =>
    match tok with
    | TObjClose => Some (valueDone rest)
    | TStr k =>
      if bool_decide (foldKey k ∈ keys) then None
      else Some (FObj ({[foldKey k]} ∪ keys) false :: rest)
    | _ => None
    end
  | _ =>
    match tok with
    | TObjOpen => if (maxJSONDepth <=? length stack)%nat then None else Some (FObj ∅ true :: stack)
    | TArrOpen => if (maxJSONDepth <=? length stack)%nat then None else Some (FArr :: stack)
    | TArrClose | TObjClose =>
      match stack with [] => None | _ :: rest => Some (valueDone rest) end
    | _ => Some (valueDone stack)
    end
  end.

Fixpoint fold_run `{Unicode} (toks : list jtok) (eof : bool) (stack : list jsonFrame) : bool :=
  match toks with
  | [] => if eof then match stack with [] => false | _ => true end else true
  | tok :: toks' =>
    match fold_step tok stack with
    | None => true
    | Some stack' => fold_run toks' eof stack'
    end
  end.

Definition FoldedKeyCollision `{Unicode, GoJson} (body : bytes) : bool :=
  let '(toks, eof) := Tokens body in fold_run toks eof [].

(** * What it decides *)

Section Spec.
Context `{Unicode}.

(** ** Folded keys and case folding *)

Abbreviation fold_iter k r := (Nat.iter k SimpleFold r) (only parsing).

(** The loop finds the least of the orbit. *)
Lemma foldRune_min r :
  foldRune r = Z.min (Z.min r (SimpleFold r))
    (Z.min (SimpleFold (SimpleFold r)) (SimpleFold (SimpleFold (SimpleFold r)))).
Proof.
  unfold foldRune. cbn [fold_loop].
  destruct (simple_fold_cycle r) as (k & Hk & Hr).
  destruct (Z.eqb_spec (SimpleFold r) r) as [E1|N1]; [rewrite !E1; lia|].
  destruct (Z.eqb_spec (SimpleFold (SimpleFold r)) r) as [E2|N2].
  { rewrite E2. destruct (Z.ltb_spec (SimpleFold r) r); lia. }
  destruct (Z.eqb_spec (SimpleFold (SimpleFold (SimpleFold r))) r) as [E3|N3].
  { rewrite E3. repeat case_match; lia. }
  destruct k as [|[|[|[|[|k]]]]]; simpl in Hr; try lia.
  rewrite Hr, Z.eqb_refl. repeat case_match; lia.
Qed.

Lemma foldRune_step r : foldRune (SimpleFold r) = foldRune r.
Proof.
  rewrite !foldRune_min. destruct (simple_fold_cycle r) as (k & Hk & Hr).
  destruct k as [|[|[|[|[|k]]]]]; simpl in Hr; try lia; rewrite ?Hr; lia.
Qed.

Lemma foldRune_iter k r : foldRune (fold_iter k r) = foldRune r.
Proof. induction k as [|k IH]; simpl; [done | by rewrite foldRune_step]. Qed.

Lemma foldRune_in_orbit r : exists k, (k <= 3)%nat /\ foldRune r = fold_iter k r.
Proof.
  rewrite foldRune_min.
  destruct (Z.min_spec (Z.min r (SimpleFold r))
    (Z.min (SimpleFold (SimpleFold r)) (SimpleFold (SimpleFold (SimpleFold r))))) as [[_ ->]|[_ ->]].
  - destruct (Z.min_spec r (SimpleFold r)) as [[_ ->]|[_ ->]]; [exists 0%nat | exists 1%nat]; split; (lia || done).
  - destruct (Z.min_spec (SimpleFold (SimpleFold r)) (SimpleFold (SimpleFold (SimpleFold r)))) as [[_ ->]|[_ ->]];
      [exists 2%nat | exists 3%nat]; split; (lia || done).
Qed.

(** Twelve steps walk every orbit a whole number of times. *)
Lemma fold_iter_period r : fold_iter 12 r = r.
Proof.
  destruct (simple_fold_cycle r) as (k & Hk & Hr).
  destruct k as [|[|[|[|[|k]]]]]; simpl in Hr; try lia; cbn [Nat.iter nat_rect]; by rewrite ?Hr.
Qed.

Lemma fold_iter_add i j r : fold_iter i (fold_iter j r) = fold_iter (i + j) r.
Proof. induction i as [|i IH]; simpl; [done | by f_equal]. Qed.

(** Every iterate is one of the first four. *)
Lemma fold_iter_small n r : exists k, k ∈ [0; 1; 2; 3]%nat /\ fold_iter n r = fold_iter k r.
Proof.
  induction n as [|n (k & Hk & E)]; [exists 0%nat; split; [set_solver | done]|].
  simpl. rewrite E. destruct (simple_fold_cycle r) as (p & Hp & Hr).
  repeat (apply elem_of_cons in Hk as [->|Hk]);
    [exists 1%nat | exists 2%nat | exists 3%nat | | by apply not_elem_of_nil in Hk];
    try (split; [set_solver | done]).
  destruct p as [|[|[|[|[|p]]]]]; simpl in Hr; try lia.
  - exists 0%nat. split; [set_solver|]. simpl. by rewrite !Hr.
  - exists 0%nat. split; [set_solver|]. simpl. by rewrite !Hr.
  - exists 1%nat. split; [set_solver|]. simpl. by rewrite !Hr.
  - exists 0%nat. split; [set_solver|]. done.
Qed.

Lemma rune_equal_fold_iff r s : rune_equal_fold r s = true <-> foldRune r = foldRune s.
Proof.
  unfold rune_equal_fold. rewrite existsb_exists. setoid_rewrite Z.eqb_eq. split.
  - intros (k & _ & <-). by rewrite foldRune_iter.
  - intros E. destruct (foldRune_in_orbit r) as (i & Hi & Er).
    destruct (foldRune_in_orbit s) as (j & Hj & Es).
    destruct (fold_iter_small ((12 - j) + i) r) as (k & Hk & Ek).
    exists k. split; [by apply list_elem_of_In|].
    rewrite <- Ek, <- fold_iter_add, <- Er, E, Es, fold_iter_add.
    replace (12 - j + j)%nat with 12%nat by lia. apply fold_iter_period.
Qed.

Lemma foldRune_valid r : valid_rune r = true -> valid_rune (foldRune r) = true.
Proof.
  intros Hr. destruct (foldRune_in_orbit r) as (k & _ & ->).
  induction k as [|k IH]; simpl; [done | by apply simple_fold_valid].
Qed.

Lemma EqualFold_runes rs ss :
  forallb2 rune_equal_fold rs ss = true <-> foldRune <$> rs = foldRune <$> ss.
Proof.
  revert ss. induction rs as [|r rs IH]; intros [|s ss]; cbn [forallb2]; [done..|].
  rewrite !fmap_cons, andb_true_iff, IH, rune_equal_fold_iff. split; [by intros [-> ->] | by intros [= -> ->]].
Qed.

Lemma foldKey_iff s t : foldKey s = foldKey t <-> EqualFold s t = true.
Proof.
  unfold EqualFold. rewrite EqualFold_runes. unfold foldKey. split; [|by intros ->].
  assert (Hv : forall u, Forall (fun r => valid_rune r = true) (foldRune <$> runes u)).
  { intros u. apply Forall_fmap. eapply Forall_impl; [apply runes_valid | intros r; apply foldRune_valid]. }
  intros E. by rewrite <- (runes_encode _ (Hv s)), <- (runes_encode _ (Hv t)), E.
Qed.

(** No two of the keys are equal under case folding. *)
Fixpoint clash_free (keys : list string) : bool :=
  match keys with
  | [] => true
  | k :: keys' => forallb (fun k' => negb (EqualFold k k')) keys' && clash_free keys'
  end.

Lemma clash_free_folded keys : clash_free keys = bool_decide (NoDup (foldKey <$> keys)).
Proof.
  induction keys as [|k keys IH]; cbn [clash_free]; [done|].
  rewrite IH, fmap_cons. erewrite (bool_decide_ext (NoDup (_ :: _))); [|apply NoDup_cons].
  rewrite bool_decide_and. f_equal. apply eq_true_iff_eq.
  rewrite bool_decide_eq_true, forallb_forall, list_elem_of_fmap. setoid_rewrite negb_true_iff. split.
  - intros Hn (k' & E & Hin). apply foldKey_iff in E. rewrite Hn in E; [done | by apply list_elem_of_In].
  - intros Hn k' Hin%list_elem_of_In. apply not_true_iff_false. rewrite <- foldKey_iff. intros E. apply Hn. by exists k'.
Qed.

(** No object of the tree, opened at depth [d], has two keys equal under folding,
    and the tree nests no deeper than [maxJSONDepth]. *)
Fixpoint unambiguous (d : nat) (t : jtree) : bool :=
  match t with
  | JScalar | JString _ => true
  | JArray l => (d <? maxJSONDepth)%nat && forallb (unambiguous (S d)) l
  | JObject l =>
    (d <? maxJSONDepth)%nat && clash_free l.*1
    && forallb (fun kv => unambiguous (S d) kv.2) l
  end.

Definition value_pos (stack : list jsonFrame) : bool :=
  match stack with FObj _ true :: _ => false | _ => true end.

Lemma fold_step_value tok stack :
  value_pos stack = true ->
  fold_step tok stack =
    match tok with
    | TObjOpen => if (maxJSONDepth <=? length stack)%nat then None else Some (FObj ∅ true :: stack)
    | TArrOpen => if (maxJSONDepth <=? length stack)%nat then None else Some (FArr :: stack)
    | TArrClose | TObjClose =>
      match stack with [] => None | _ :: rest => Some (valueDone rest) end
    | _ => Some (valueDone stack)
    end.
Proof. by destruct stack as [|[? []|] ?]. Qed.

(** Running over the tokens of one value: either it is refused, or the walk
    goes on as after a value. *)
Definition run_value (t : jtree) : Prop := forall toks eof stack,
  value_pos stack = true ->
  fold_run (flatten t ++ toks) eof stack
  = if unambiguous (length stack) t then fold_run toks eof (valueDone stack) else true.

Lemma run_array l : Forall run_value l -> forall toks eof stack,
  fold_run (foldr (fun t acc => flatten t ++ acc) [TArrClose] l ++ toks) eof (FArr :: stack)
  = if forallb (unambiguous (S (length stack))) l then fold_run toks eof (valueDone stack) else true.
Proof.
  induction 1 as [|t l Ht _ IH]; intros toks eof stack; [done|].
  simpl. rewrite <- app_assoc, Ht by done. simpl.
  destruct (unambiguous _ t); simpl; [apply IH | done].
Qed.

Lemma run_fields l : Forall (fun kv : string * jtree => run_value kv.2) l -> forall keys toks eof stack,
  fold_run (foldr (fun kv acc => TStr kv.1 :: flatten kv.2 ++ acc) [TObjClose] l ++ toks) eof
    (FObj keys true :: stack)
  = if bool_decide (NoDup ((fun kv => foldKey kv.1) <$> l))
       && bool_decide (Forall (fun kv => foldKey kv.1 ∉ keys) l)
       && forallb (fun kv => unambiguous (S (length stack)) kv.2) l
    then fold_run toks eof (valueDone stack) else true.
Proof.
  induction 1 as [|[k t] l Ht _ IH]; intros keys toks eof stack; [done|].
  cbn [foldr app fold_run fst snd fold_step].
  destruct (bool_decide (foldKey k ∈ keys)) eqn:Ek; guards.
  { rewrite (bool_decide_eq_false_2 (Forall _ _)); [by rewrite andb_false_r|].
    rewrite Forall_cons. naive_solver. }
  rewrite <- app_assoc, Ht by done. cbn [length valueDone forallb snd].
  destruct (unambiguous _ t); [|by rewrite andb_false_r]. rewrite IH. cbn [andb].
  rewrite <- !bool_decide_and. erewrite bool_decide_ext; [reflexivity|].
  rewrite fmap_cons, NoDup_cons, Forall_cons, list_elem_of_fmap. cbn [fst].
  setoid_rewrite Forall_forall. set_solver.
Qed.

Lemma run_value_all t : run_value t.
Proof.
  induction t as [|s|l IH|l IH] using jtree_nested_ind; intros toks eof stack Hv;
    cbn [flatten app fold_run]; rewrite fold_step_value by done; try done.
  - cbn [unambiguous]. destruct (Nat.leb_spec maxJSONDepth (length stack)).
    + by replace (length stack <? maxJSONDepth)%nat with false by (symmetry; apply Nat.ltb_ge; lia).
    + replace (length stack <? maxJSONDepth)%nat with true by (symmetry; apply Nat.ltb_lt; lia).
      by apply run_array.
  - cbn [unambiguous]. destruct (Nat.leb_spec maxJSONDepth (length stack)).
    + by replace (length stack <? maxJSONDepth)%nat with false by (symmetry; apply Nat.ltb_ge; lia).
    + replace (length stack <? maxJSONDepth)%nat with true by (symmetry; apply Nat.ltb_lt; lia).
      rewrite run_fields by done. cbn [andb]. rewrite clash_free_folded, <- list_fmap_compose.
      rewrite (bool_decide_eq_true_2 (Forall _ l)); [by rewrite andb_true_r|].
      apply Forall_forall. set_solver.
Qed.

Lemma fold_run_trees ts : fold_run (concat (flatten <$> ts)) true []
  = negb (forallb (unambiguous 0) ts).
Proof.
  induction ts as [|t ts IH]; [done|].
  rewrite fmap_cons. cbn [concat forallb]. rewrite run_value_all by done. cbn [length valueDone].
  destruct (unambiguous 0 t); [exact IH | done].
Qed.

(** A stream cut short by an error is always refused. *)
Lemma fold_run_error toks : forall stack, fold_run toks false stack = true.
Proof.
  induction toks as [|tok toks IH]; intros stack; simpl; [done|].
  by destruct (fold_step tok stack).
Qed.

(** The collision check is exact. It refuses a body made of complete JSON
    values exactly when some object at any level has two keys that
    [strings.EqualFold] holds equal, or the nesting passes the depth limit; a
    body whose tokens end in an error it always refuses. *)
Theorem folded_collision_exact `{GoJson} body ts eof toks :
  Tokens body = (toks, eof) -> (eof = true -> toks = concat (flatten <$> ts)) ->
  FoldedKeyCollision body = if eof then negb (forallb (unambiguous 0) ts) else true.
Proof.
  intros E Ht. unfold FoldedKeyCollision. rewrite E. destruct eof; [|apply fold_run_error].
  rewrite (Ht eq_refl). apply fold_run_trees.
Qed.

End Spec.

End FoldKeys.
