(* ===== verification/Rules.v ===== *)
(** The request and delegation policy ([internal/broker/rules/rules.go]): per
    agent, the capabilities it may obtain for itself and the ones it may mint
    bound to another agent. The policy is built at boot with [AllowObtain] and
    [AllowDelegate] and queried by [MayObtainRule]; it is default-deny. *)

From S2P Require Import Prelude.

Module Rules.

(** [capKey]: one (tool, operation). *)
Record capKey := CapKey { ck_tool : string; ck_op : string }.

#[export] Instance capKey_eq_dec : EqDecision capKey.
Proof. solve_decision. Defined.
#[export] Instance capKey_countable : Countable capKey :=
  inj_countable' (fun k => (ck_tool k, ck_op k)) (fun p => CapKey p.1 p.2)
    (fun k => match k with CapKey _ _ => eq_refl end).

(** [agentPolicy]: the sets are the Go maps to [struct{}]. *)
Record agentPolicy := AgentPolicy {
  obtain : gset capKey;
  delegate : gmap capKey (gset string)
}.

(** [Policy]: [p.agents]. *)
Abbreviation Policy := (gmap string agentPolicy) (only parsing).

Definition NewPolicy : Policy := ∅.

Definition emptyPolicy : agentPolicy := AgentPolicy ∅ ∅.

(** [p.ensure(agent)]: the agent's entry, created empty when absent. *)
Definition ensure (p : Policy) (agent : string) : agentPolicy :=
  default emptyPolicy (p !! agent).

Definition AllowObtain (p : Policy) (agent tool op : string) : Policy :=
  let ap := ensure p agent in
  <[agent := AgentPolicy ({[CapKey tool op]} ∪ obtain ap) (delegate ap)]> p.

Definition AllowDelegate (p : Policy) (agent tool op : string) (to : list string) : Policy :=
  let ap := ensure p agent in
  let k := CapKey tool op in
  let set := default ∅ (delegate ap !! k) in
  <[agent := AgentPolicy (obtain ap) (<[k := list_to_set to ∪ set]> (delegate ap))]> p.

(** [MayObtainRule]: [Some rule] on allow, with the matched rule's id. *)
Definition MayObtainRule (p : Policy) (requester boundTo tool op : string) : option string :=
  match p !! requester with
  | None => None
  | Some ap =>
    let k := CapKey tool op in
    if str_eqb requester boundTo then
      if bool_decide (k ∈ obtain ap)
      then Some ("obtain:" +:+ requester +:+ ":" +:+ tool +:+ "." +:+ op)
      else None
    else
      match delegate ap !! k with
      | None => None
      | Some recips =>
        if bool_decide (boundTo ∈ recips)
        then Some ("delegate:" +:+ requester +:+ "->" +:+ boundTo +:+ ":" +:+ tool +:+ "." +:+ op)
        else None
      end
  end.

(** ** What the policy means

    The boot-time construction as a list of statements, and the relation the
    queries decide. *)

Inductive grant_stmt :=
| GObtain (agent tool op : string)
| GDelegate (agent tool op : string) (to : list string).

Definition apply_stmt (p : Policy) (s : grant_stmt) : Policy :=
  match s with
  | GObtain a t o => AllowObtain p a t o
  | GDelegate a t o to => AllowDelegate p a t o to
  end.

Definition build (ss : list grant_stmt) : Policy := fold_left apply_stmt ss NewPolicy.

(** The specification: some statement of the list grants the mint. *)
Definition granted (ss : list grant_stmt) (requester boundTo tool op : string) : Prop :=
  (requester = boundTo /\ GObtain requester tool op ∈ ss)
  \/ (requester <> boundTo /\ exists to, GDelegate requester tool op to ∈ ss /\ boundTo ∈ to).

(** ** Lemmas *)

(** The two questions a query asks of the policy, as propositions. *)
Definition may_self (p : Policy) (a tool op : string) : Prop :=
  CapKey tool op ∈ obtain (ensure p a).
Definition may_delegate (p : Policy) (a to tool op : string) : Prop :=
  to ∈ default ∅ (delegate (ensure p a) !! CapKey tool op).

Lemma may_obtain_iff p r b t o :
  is_Some (MayObtainRule p r b t o)
  <-> (r = b /\ may_self p r t o) \/ (r <> b /\ may_delegate p r b t o).
Proof.
  unfold MayObtainRule, may_self, may_delegate, ensure.
  destruct (p !! r) as [ap|]; simpl.
  2:{ split; [by intros [??] | intros [[_ H]|[_ H]]]; set_solver. }
  destruct (str_eqb r b) eqn:E; guards.
  - case_bool_decide as Hd; split; [naive_solver | by eauto | by intros [??] | naive_solver].
  - destruct (delegate ap !! _) as [rs|]; simpl.
    + case_bool_decide as Hd; split; [naive_solver | by eauto | by intros [??] | naive_solver].
    + split; [by intros [??] | naive_solver set_solver].
Qed.

Lemma ensure_insert p a b ap :
  ensure (<[a := ap]> p) b = if decide (a = b) then ap else ensure p b.
Proof. unfold ensure. rewrite lookup_insert. by case_decide. Qed.

Lemma may_self_step p s a t o :
  may_self (apply_stmt p s) a t o <-> s = GObtain a t o \/ may_self p a t o.
Proof.
  destruct s as [a' t' o'|a' t' o' to]; simpl;
    unfold AllowObtain, AllowDelegate, may_self; rewrite ensure_insert;
    case_decide; subst; simpl; set_solver.
Qed.

Lemma may_delegate_step p s a b t o :
  may_delegate (apply_stmt p s) a b t o
  <-> (exists to, s = GDelegate a t o to /\ b ∈ to) \/ may_delegate p a b t o.
Proof.
  destruct s as [a' t' o'|a' t' o' to]; simpl;
    unfold AllowObtain, AllowDelegate, may_delegate; rewrite ensure_insert;
    case_decide; subst; simpl.
  - naive_solver.
  - naive_solver.
  - rewrite lookup_insert. case_decide as Hk; simpl.
    + simplify_eq. rewrite elem_of_union, elem_of_list_to_set. naive_solver.
    + naive_solver.
  - naive_solver.
Qed.

Lemma build_from ss : forall p a b t o,
  (may_self (fold_left apply_stmt ss p) a t o <-> GObtain a t o ∈ ss \/ may_self p a t o)
  /\ (may_delegate (fold_left apply_stmt ss p) a b t o
      <-> (exists to, GDelegate a t o to ∈ ss /\ b ∈ to) \/ may_delegate p a b t o).
Proof.
  induction ss as [|s ss IH]; intros p a b t o; simpl.
  - split; [set_solver | split; [by right | intros [(?&H&_)|?]; [set_solver | done]]].
  - destruct (IH (apply_stmt p s) a b t o) as [IH1 IH2].
    rewrite IH1, IH2, may_self_step, may_delegate_step.
    setoid_rewrite elem_of_cons. split; naive_solver.
Qed.

(** The policy is default-deny and exact. A query is allowed exactly when one
    of the statements the policy was built from grants it: an obtain statement
    of the requester when it asks for itself, a delegate statement naming the
    other agent when it asks for another. *)
Theorem policy_is_exact ss r b t o :
  is_Some (MayObtainRule (build ss) r b t o) <-> granted ss r b t o.
Proof.
  rewrite may_obtain_iff. unfold build, granted.
  destruct (build_from ss NewPolicy r b t o) as [-> ->].
  assert (~ may_self NewPolicy r t o) by (unfold may_self, ensure, NewPolicy; set_solver).
  assert (~ may_delegate NewPolicy r b t o) by (unfold may_delegate, ensure, NewPolicy; set_solver).
  naive_solver.
Qed.

End Rules.
