(* ===== verification/Registry.v ===== *)
(** The tool registry ([internal/broker/registry/registry.go]): the registered
    tools with their operations, the constraint-key to argument mapping and the
    allowed constraint values. The mutex makes each operation atomic, so each is
    a function of the map of tools. *)

From S2P Require Import Prelude Go Mcp.

Module Registry.

(** [wire.ReservedLLMTool], [wire.ReservedLLMOp], [wire.WildcardOp]. *)
Definition ReservedLLMTool : string := "llm".
Definition ReservedLLMOp : string := "generate".
Definition WildcardOp : string := "*".

Record Operation := MkOperation {
  op_Name : string;
  CaveatParam : gmap string string;
  Params : list string
}.

Record Tool := MkTool {
  Name : string;
  Backend : string;
  Operations : gmap string Operation;
  AllowedValues : gmap string (list string);
  FirstParty : bool;
  External : bool;
  Coarse : bool
}.

Abbreviation registry := (gmap string Tool) (only parsing).

Inductive regError :=
| EmptyName
| EmptyBackend (name : string)
| NoOperations (name : string)
| UnknownTool (tool : string)
| NoOperation (tool op : string)
| RenamedKeyArgErr (ck argName : string)
| NeedsKey (tool op : string)
| NoParameter (tool op k : string)
| Forbids (tool k v : string).

(** [CloneAllowedValues] deep-copies; values are immutable here, so the copy is
    the map itself. *)
Definition CloneAllowedValues (m : gmap string (list string)) : gmap string (list string) :=
  (fun v => v) <$> m.

Definition New : registry := ∅.

Definition Register (r : registry) (t : Tool) : result registry regError :=
  if is_empty (Name t) then Err EmptyName
  else if is_empty (Backend t) then Err (EmptyBackend (Name t))
  else if bool_decide (Operations t = ∅) then Err (NoOperations (Name t))
  else Ok (<[Name t := t]> r).

Definition Lookup (r : registry) (name : string) : option Tool := r !! name.

Definition HasOperation (r : registry) (tool op : string) : bool :=
  match r !! tool with
  | None => false
  | Some t => bool_decide (is_Some (Operations t !! op))
  end.

Definition Names (r : registry) : list string := (map_to_list r).*1.

Definition MapParams `{Unicode} (r : registry) (tool op : string) (args : gmap string string)
    : result (gmap string string) regError :=
  match r !! tool with
  | None => Err (UnknownTool tool)
  | Some t =>
    match Operations t !! op with
    | None => Err (NoOperation tool op)
    | Some o =>
      let cp := map_to_list (CaveatParam o) in
      let ck := Mcp.RenamedKeyArg EqualFold cp (map_to_list args).*1 in
      if negb (is_empty ck) then Err (RenamedKeyArgErr ck (default "" (CaveatParam o !! ck)))
      else Ok (Mcp.MapConstraintParams cp args)
    end
  end.

(** The declared parameters of an operation: [Params] and the keys of
    [CaveatParam]. *)
Definition declared (o : Operation) (k : string) : bool :=
  bool_decide (k ∈ Params o) || bool_decide (is_Some (CaveatParam o !! k)).

(** [AllowedValues] permits [v] for key [k]. *)
Definition value_allowed (t : Tool) (k v : string) : bool :=
  match AllowedValues t !! k with
  | None => true
  | Some allowed => bool_decide (v ∈ allowed)
  end.

(** The loops stop at the first entry they refuse, in map order. *)
Definition ValidateConstraints (r : registry) (tool op : string) (constraints : gmap string string)
    : result unit regError :=
  match r !! tool with
  | None => Err (UnknownTool tool)
  | Some t =>
    match Operations t !! op with
    | None => Err (NoOperation tool op)
    | Some o =>
      if bool_decide (is_Some (constraints !! "")) then Err (NeedsKey tool op)
      else
        let undeclared :=
          if bool_decide (Params o = []) then None
          else list_find (fun kv => declared o kv.1 = false) (map_to_list constraints) in
        match undeclared with
        | Some (_, (k, _)) => Err (NoParameter tool op k)
        | None =>
          match list_find (fun kv => value_allowed t kv.1 kv.2 = false) (map_to_list constraints) with
          | Some (_, (k, v)) => Err (Forbids tool k v)
          | None => Ok tt
          end
        end
    end
  end.

(** ** Lemmas *)

(** Constraints the registry accepts for an operation of a registered tool. *)
Definition constraints_ok (t : Tool) (o : Operation) (cs : gmap string string) : Prop :=
  forall k v, cs !! k = Some v ->
    k <> "" /\ (Params o <> [] -> declared o k = true) /\ value_allowed t k v = true.

Lemma find_none {P : string * string -> Prop} `{forall x, Decision (P x)} (m : gmap string string) :
  list_find P (map_to_list m) = None <-> forall k v, m !! k = Some v -> ~ P (k, v).
Proof.
  rewrite list_find_None, Forall_forall. split.
  - intros Hall k v E. by apply Hall, elem_of_map_to_list.
  - intros Hall [k v] Hin. by apply Hall, elem_of_map_to_list.
Qed.

Lemma ValidateConstraints_ok r tool op cs :
  ValidateConstraints r tool op cs = Ok tt
  <-> exists t o, r !! tool = Some t /\ Operations t !! op = Some o /\ constraints_ok t o cs.
Proof.
  unfold ValidateConstraints, constraints_ok.
  destruct (r !! tool) as [t|]; [|naive_solver].
  destruct (Operations t !! op) as [o|] eqn:Eo; [|naive_solver].
  case_bool_decide as Hk.
  { destruct Hk as [v Hv]. split; [done|]. intros (t' & o' & [= <-] & ? & Hall). simplify_eq.
    by destruct (Hall _ _ Hv). }
  destruct (if bool_decide (Params o = []) then None else _) as [[i [k v]]|] eqn:Eu.
  - split; [done|]. intros (t' & o' & [= <-] & ? & Hall). simplify_eq.
    case_bool_decide as Hp; [done|].
    apply list_find_Some in Eu as (Hin & Hd & _). apply list_elem_of_lookup_2, elem_of_map_to_list in Hin.
    destruct (Hall _ _ Hin) as (_ & Hdecl & _). simpl in Hd. by rewrite Hdecl in Hd.
  - destruct (list_find (fun kv => value_allowed _ _ _ = false) _) as [[i [k v]]|] eqn:Ef.
    + split; [done|]. intros (t' & o' & [= <-] & ? & Hall). simplify_eq.
      apply list_find_Some in Ef as (Hin & Hd & _). apply list_elem_of_lookup_2, elem_of_map_to_list in Hin.
      destruct (Hall _ _ Hin) as (_ & _ & Ha). simpl in Hd. by rewrite Ha in Hd.
    + split; [|done]. intros _. exists t, o. split_and!; [done..|]. intros k v E.
      rewrite find_none in Ef. specialize (Ef _ _ E). simpl in Ef. apply not_false_iff_true in Ef.
      split_and!; [naive_solver | | done].
      intros Hp. case_bool_decide; [done|]. rewrite find_none in Eu.
      specialize (Eu _ _ E). simpl in Eu. by apply not_false_iff_true in Eu.
Qed.

Lemma ValidateConstraints_has r tool op cs :
  ValidateConstraints r tool op cs = Ok tt -> HasOperation r tool op = true.
Proof.
  rewrite ValidateConstraints_ok. intros (t & o & Et & Eo & _). unfold HasOperation.
  rewrite Et. by apply bool_decide_eq_true_2.
Qed.

Section Params.
Context `{Unicode}.

(** A successful mapping binds every constraint key to the argument the tool
    reads for it. *)
Lemma MapParams_ok r tool op args params :
  MapParams r tool op args = Ok params ->
  exists t o, r !! tool = Some t /\ Operations t !! op = Some o
    /\ forall k, params !! k = Mcp.param_of args (CaveatParam o) k.
Proof.
  unfold MapParams. intros E.
  destruct (r !! tool) as [t|]; [|done]. destruct (Operations t !! op) as [o|] eqn:Eo; [|done].
  destruct (negb _); [done|]. injection E as <-. exists t, o. split_and!; [done..|].
  intros k. by apply Mcp.MapConstraintParams_lookup.
Qed.

(** A call's parameters are the arguments the tool reads. A successful
    mapping takes every constraint key's value from the argument the operation
    renames it to, and from the argument of that name otherwise; and no argument
    is named, up to case folding, like a renamed constraint key, so none can
    pose as one. *)
Theorem params_are_read_arguments r tool op args params :
  (forall t o, r !! tool = Some t -> Operations t !! op = Some o -> CaveatParam o !! "" = None) ->
  MapParams r tool op args = Ok params ->
  exists t o, r !! tool = Some t /\ Operations t !! op = Some o
    /\ (forall k, params !! k = Mcp.param_of args (CaveatParam o) k)
    /\ forall ck an k, CaveatParam o !! ck = Some an -> ck <> an -> is_Some (args !! k) -> k <> an ->
         EqualFold k ck = false.
Proof.
  intros Hne E. destruct (MapParams_ok _ _ _ _ _ E) as (t & o & Et & Eo & Hp). exists t, o.
  split_and!; [done..|]. intros ck an k Ec Hck [v Ev] Hk.
  unfold MapParams in E. rewrite Et, Eo in E. destruct (is_empty _) eqn:En; [|done]. guards.
  assert (Hnil : "" ∉ (map_to_list (CaveatParam o)).*1).
  { intros ([k0 an0] & E0 & Hin%elem_of_map_to_list)%list_elem_of_fmap. cbn in E0. subst k0.
    by rewrite (Hne t o Et Eo) in Hin. }
  pose proof (Mcp.RenamedKeyArg_spec EqualFold _ (map_to_list args).*1 Hnil) as Hs. rewrite En in Hs.
  apply not_true_iff_false. intros Hf. apply (Hs ck). exists an, k.
  split_and!; [by apply elem_of_map_to_list | done | | done | done].
  apply list_elem_of_fmap. exists (k, v). split; [done | by apply elem_of_map_to_list].
Qed.
End Params.

End Registry.
