(* ===== verification/Token.v ===== *)
(** Capability tokens ([internal/cap/token/token.go]): a signed structure that
    binds one (tool, operation) to one agent, with parameter constraints, an
    expiry and a mint epoch. Ed25519 and the JSON wire form of the two structs
    are the interfaces [SigScheme] and [TokenWire]. *)

From S2P Require Import Prelude Go.

Module Token.

Record Capability := MkCapability { Tool : string; Operation : string }.
Record Constraint := MkConstraint { Key : string; Value : string }.

Record Grant := MkGrant {
  g_Agent : string;
  g_Capability : Capability;
  g_Constraints : list Constraint;
  g_Expiry : Time;
  g_Epoch : Z
}.

(** [payload], the signed body. *)
Record payload := MkPayload {
  p_ID : string;
  p_Agent : string;
  p_Tool : string;
  p_Op : string;
  p_Constraints : list Constraint;
  p_ExpiryNanos : Z;
  p_Epoch : Z
}.

(** [envelope]: the payload bytes and the detached signature. *)
Record envelope := MkEnvelope { e_Payload : bytes; e_Sig : bytes }.

#[export] Instance Constraint_eq_dec : EqDecision Constraint.
Proof. solve_decision. Defined.
#[export] Instance payload_eq_dec : EqDecision payload.
Proof. solve_decision. Defined.

(** [crypto/ed25519]. *)
Class SigScheme := {
  PublicOf : bytes -> bytes;
  Sign : bytes -> bytes -> bytes;
  SigVerify : bytes -> bytes -> bytes -> bool;
  sign_verify : forall priv m, SigVerify (PublicOf priv) m (Sign priv m) = true;
  public_size : forall priv, len (PublicOf priv) = 32
}.
Definition PublicKeySize : Z := 32.

(** A string that is valid UTF-8: [encoding/json] replaces anything else. *)
Definition utf8 (s : string) : Prop := encode_runes (runes s) = s.

(** A payload JSON carries without loss. *)
Definition payload_wf (p : payload) : Prop :=
  utf8 (p_ID p) /\ utf8 (p_Agent p) /\ utf8 (p_Tool p) /\ utf8 (p_Op p)
  /\ Forall (fun c => utf8 (Key c) /\ utf8 (Value c)) (p_Constraints p)
  /\ int64_range (p_ExpiryNanos p) /\ int64_range (p_Epoch p).

(** [encoding/json] on the two structs. *)
Class TokenWire := {
  marshal_payload : payload -> option bytes;
  unmarshal_payload : bytes -> option payload;
  marshal_envelope : envelope -> option bytes;
  unmarshal_envelope : bytes -> option envelope;
  payload_round : forall p, payload_wf p ->
    exists b, marshal_payload p = Some b /\ unmarshal_payload b = Some p;
  envelope_round : forall e, exists b, marshal_envelope e = Some b /\ unmarshal_envelope b = Some e
}.

(** [encoding/hex.EncodeToString]. *)
Definition hex_digit (n : nat) : ascii :=
  default "0"%char (String.get n "0123456789abcdef").
Fixpoint hex_encode (s : string) : string :=
  match s with
  | EmptyString => ""
  | String c s' =>
    let n := nat_of_ascii c in
    String (hex_digit (n / 16)) (String (hex_digit (n mod 16)) (hex_encode s'))
  end.

Inductive tokError :=
| EmptyAgent
| EmptyCapability
| EmptyConstraintKey (i : nat)
| MintID
| MarshalError
| UnmarshalError
| UnmarshalPayloadError
| RequestZeroTime
| RequestEmptyCapability
| BadPublicKey
| BadSignature
| WrongCaller (caller bound : string)
| CapabilityNotGranted
| ConstraintNotSatisfied (c : Constraint)
| Expired
| EpochBelow (epoch minEpoch : Z).

Lemma utf8_ascii s : is_ascii s = true -> utf8 s.
Proof. intros Ha. unfold utf8. rewrite runes_ascii by done. by apply encode_ascii. Qed.

(** Hexadecimal digits, in the range a token id is checked for. *)
Definition hex_rune (c : Z) : bool := ((48 <=? c) && (c <=? 57)) || ((97 <=? c) && (c <=? 102)).

Lemma hex_digit_rune n : (n < 16)%nat -> hex_rune (byte_val (hex_digit n)) = true.
Proof. intros Hn. do 16 (destruct n as [|n]; [reflexivity|]). lia. Qed.

Lemma hex_encode_shape s :
  String.length (hex_encode s) = (2 * String.length s)%nat
  /\ is_ascii (hex_encode s) = true /\ forallb hex_rune (byte_list (hex_encode s)) = true.
Proof.
  induction s as [|c s (IHl & IHa & IHh)]; [done|].
  pose proof (nat_ascii_bounded c) as Hc.
  assert (Hd : (nat_of_ascii c / 16 < 16)%nat) by (apply Nat.Div0.div_lt_upper_bound; lia).
  assert (Hm : (nat_of_ascii c mod 16 < 16)%nat) by (apply Nat.mod_upper_bound; lia).
  apply hex_digit_rune in Hd, Hm.
  cbn [hex_encode String.length byte_list forallb]. unfold is_ascii in *. cbn [string_forallb].
  rewrite IHl, IHa, IHh, Hd, Hm. unfold hex_rune in Hd, Hm.
  split_and!; [lia | lia | done].
Qed.

(** * Keys ([keys.go]) *)

(** [encoding/hex.DecodeString]: both cases of the letters, whole bytes only. *)
Definition unhex_digit (c : ascii) : option nat :=
  let n := nat_of_ascii c in
  if in_range "0"%char "9"%char c then Some (n - 48)%nat
  else if in_range "a"%char "f"%char c then Some (n - 87)%nat
  else if in_range "A"%char "F"%char c then Some (n - 55)%nat
  else None.

Fixpoint hex_decode (s : string) : option bytes :=
  match s with
  | EmptyString => Some ""
  | String _ EmptyString => None
  | String a (String b s') =>
    x ← unhex_digit a; y ← unhex_digit b; rest ← hex_decode s';
    Some (String (ascii_of_nat (16 * x + y)) rest)
  end.

Definition EncodePublicKey (pub : bytes) : string := hex_encode pub.

Inductive keyError := KeyDecode | KeySize (n : Z).

Definition DecodePublicKey (s : string) : result bytes keyError :=
  match hex_decode s with
  | None => Err KeyDecode
  | Some b => if negb (len b =? PublicKeySize) then Err (KeySize (len b)) else Ok b
  end.

Lemma unhex_hex_digit n : (n < 16)%nat -> unhex_digit (hex_digit n) = Some n.
Proof. intros Hn. do 16 (destruct n as [|n]; [reflexivity|]). lia. Qed.

Lemma hex_round s : hex_decode (hex_encode s) = Some s.
Proof.
  induction s as [|c s IH]; [done|]. cbn [hex_encode hex_decode].
  pose proof (nat_ascii_bounded c) as Hc.
  rewrite !unhex_hex_digit; [| apply Nat.Div0.div_lt_upper_bound; lia | apply Nat.mod_upper_bound; lia].
  cbn [mbind option_bind]. rewrite IH. cbn [mbind option_bind].
  rewrite <- Nat.div_mod by lia. by rewrite ascii_nat_embedding.
Qed.

Lemma hex_encode_inj s t : hex_encode s = hex_encode t -> s = t.
Proof. intros E. apply (f_equal hex_decode) in E. rewrite !hex_round in E. by injection E. Qed.

Lemma DecodeEncodePublicKey pub : len pub = PublicKeySize -> DecodePublicKey (EncodePublicKey pub) = Ok pub.
Proof. intros Hl. unfold DecodePublicKey, EncodePublicKey. by rewrite hex_round, Hl. Qed.

Section Tokens.
Context `{SigScheme, TokenWire}.

(** The constraint loop of [Mint]. *)
Definition empty_key (cs : list Constraint) : option nat :=
  fst <$> list_find (fun c => Key c = "") cs.

(** The payload [Mint] signs. *)
Definition mint_payload (idb : bytes) (g : Grant) : payload :=
  MkPayload (hex_encode idb) (g_Agent g) (Tool (g_Capability g)) (Operation (g_Capability g))
    (g_Constraints g) (UnixNano (g_Expiry g)) (g_Epoch g).

(** [Mint]; [idb] is what [rand.Read] fills the 16 byte id with. *)
Definition Mint (priv : bytes) (g : Grant) (idb : option bytes) : result bytes tokError :=
  if is_empty (g_Agent g) then Err EmptyAgent
  else if is_empty (Tool (g_Capability g)) || is_empty (Operation (g_Capability g)) then Err EmptyCapability
  else match empty_key (g_Constraints g) with
  | Some i => Err (EmptyConstraintKey i)
  | None =>
    match idb with
    | None => Err MintID
    | Some idb =>
      match marshal_payload (mint_payload idb g) with
      | None => Err MarshalError
      | Some plBytes =>
        match marshal_envelope (MkEnvelope plBytes (Sign priv plBytes)) with
        | None => Err MarshalError
        | Some tok => Ok tok
        end
      end
    end
  end.

(** [parse]: no signature or claim is checked. *)
Definition parse (tok : bytes) : result (envelope * payload) tokError :=
  match unmarshal_envelope tok with
  | None => Err UnmarshalError
  | Some env =>
    match unmarshal_payload (e_Payload env) with
    | None => Err UnmarshalPayloadError
    | Some pl => Ok (env, pl)
    end
  end.

Definition ID (tok : bytes) : string :=
  match parse tok with
  | Err _ => ""
  | Ok (_, pl) =>
    if negb (len (p_ID pl) =? 32) then ""
    else if forallb hex_rune (runes (p_ID pl)) then p_ID pl else ""
  end.

Record Request := MkRequest {
  r_Caller : string;
  r_Capability : Capability;
  r_Params : gmap string string;
  r_Now : Time;
  r_MinEpoch : Z
}.

Definition satisfied (params : gmap string string) (c : Constraint) : bool :=
  bool_decide (params !! Key c = Some (Value c)).

Definition Verify (pub tok : bytes) (r : Request) : result unit tokError :=
  if IsZero (r_Now r) then Err RequestZeroTime
  else if is_empty (Tool (r_Capability r)) || is_empty (Operation (r_Capability r)) then Err RequestEmptyCapability
  else if negb (len pub =? PublicKeySize) then Err BadPublicKey
  else match parse tok with
  | Err e => Err e
  | Ok (env, pl) =>
    if negb (SigVerify pub (e_Payload env) (e_Sig env)) then Err BadSignature
    else if negb (str_eqb (r_Caller r) (p_Agent pl)) then Err (WrongCaller (r_Caller r) (p_Agent pl))
    else if negb (str_eqb (Tool (r_Capability r)) (p_Tool pl))
            || negb (str_eqb (Operation (r_Capability r)) (p_Op pl)) then Err CapabilityNotGranted
    else match list_find (fun c => satisfied (r_Params r) c = false) (p_Constraints pl) with
    | Some (_, c) => Err (ConstraintNotSatisfied c)
    | None =>
      if negb (Before (r_Now r) (UnixTime (p_ExpiryNanos pl))) then Err Expired
      else if p_Epoch pl <? r_MinEpoch r then Err (EpochBelow (p_Epoch pl) (r_MinEpoch r))
      else Ok tt
    end
  end.

(** ** What verification means *)

(** The claims of a payload hold for a request. *)
Definition payload_admits (pl : payload) (r : Request) : Prop :=
  r_Caller r = p_Agent pl /\ Tool (r_Capability r) = p_Tool pl /\ Operation (r_Capability r) = p_Op pl
  /\ Forall (fun c => r_Params r !! Key c = Some (Value c)) (p_Constraints pl)
  /\ r_Now r < UnixTime (p_ExpiryNanos pl) /\ r_MinEpoch r <= p_Epoch pl.

(** A request [Verify] looks at: a clock reading and a named capability. *)
Definition request_wf (r : Request) : Prop :=
  r_Now r <> zeroTime /\ Tool (r_Capability r) <> "" /\ Operation (r_Capability r) <> "".

Lemma satisfied_none params cs :
  list_find (fun c => satisfied params c = false) cs = None
  <-> Forall (fun c => params !! Key c = Some (Value c)) cs.
Proof.
  rewrite list_find_None. apply Forall_iff. intros c. unfold satisfied.
  rewrite not_false_iff_true. apply bool_decide_eq_true.
Qed.

Lemma Verify_ok pub tok r :
  Verify pub tok r = Ok tt
  <-> request_wf r /\ len pub = PublicKeySize
      /\ exists env pl, parse tok = Ok (env, pl)
         /\ SigVerify pub (e_Payload env) (e_Sig env) = true /\ payload_admits pl r.
Proof.
  unfold Verify, request_wf, payload_admits, IsZero, Before. split.
  - intros E. destruct (Z.eqb_spec (r_Now r) zeroTime); [done|].
    destruct (_ || _) eqn:Ec; [done|]. destruct (negb (len pub =? PublicKeySize)) eqn:Ep; [done|]. guards.
    destruct (parse tok) as [[env pl]|] eqn:Et; [|done].
    destruct (negb (SigVerify _ _ _)) eqn:Es; [done|].
    destruct (negb (str_eqb _ _)) eqn:Ea; [done|].
    destruct (_ || _) eqn:Eo in E; [done|].
    destruct (list_find _ _) as [[? ?]|] eqn:Ef; [done|]. apply satisfied_none in Ef.
    destruct (negb (_ <? _)) eqn:Ex; [done|]. destruct (_ <? r_MinEpoch r) eqn:Em; [done|]. guards.
    split_and!; [done..|lia|]. exists env, pl. split_and!; (done || lia).
  - intros ((Hn & Ht & Ho) & Hp & env & pl & Et & Es & Ha & Hto & Hop & Hc & Hx & Hm).
    apply satisfied_none in Hc.
    rewrite Et, Es, Hc, <- Ha, <- Hto, <- Hop, !str_eqb_refl, Hp.
    replace (r_Now r =? zeroTime) with false by lia.
    rewrite (proj2 (is_empty_false _) Ht), (proj2 (is_empty_false _) Ho). simpl.
    replace (r_Now r <? UnixTime (p_ExpiryNanos pl)) with true by lia.
    by replace (p_Epoch pl <? r_MinEpoch r) with false by lia.
Qed.

(** ** What minting produces *)

(** A grant [Mint] accepts. *)
Definition grant_wf (g : Grant) : Prop :=
  g_Agent g <> "" /\ Tool (g_Capability g) <> "" /\ Operation (g_Capability g) <> ""
  /\ Forall (fun c => Key c <> "") (g_Constraints g).

Lemma empty_key_none cs : empty_key cs = None <-> Forall (fun c => Key c <> "") cs.
Proof.
  unfold empty_key. rewrite fmap_None, list_find_None. done.
Qed.

Lemma Mint_ok priv g idb tok :
  Mint priv g (Some idb) = Ok tok ->
  grant_wf g /\ exists pb, marshal_payload (mint_payload idb g) = Some pb
    /\ marshal_envelope (MkEnvelope pb (Sign priv pb)) = Some tok.
Proof.
  unfold Mint, grant_wf. intros E.
  destruct (is_empty (g_Agent g)) eqn:Ea; [done|]. destruct (_ || _) eqn:Ec; [done|]. guards.
  destruct (empty_key _) eqn:Ek; [done|]. apply empty_key_none in Ek.
  destruct (marshal_payload _) as [pb|] eqn:Ep; [|done].
  destruct (marshal_envelope _) as [t|] eqn:Ee; [|done]. injection E as ->.
  split; [done | by eauto].
Qed.

(** With a grant it accepts whose claims JSON carries, minting always yields a
    token. *)
Lemma Mint_total priv g idb :
  grant_wf g -> payload_wf (mint_payload idb g) ->
  exists tok, Mint priv g (Some idb) = Ok tok
    /\ exists env, parse tok = Ok (env, mint_payload idb g)
       /\ SigVerify (PublicOf priv) (e_Payload env) (e_Sig env) = true.
Proof.
  intros (Ha & Ht & Ho & Hk) Hwf. unfold Mint.
  destruct (payload_round _ Hwf) as (pb & Ep & Eu).
  destruct (envelope_round (MkEnvelope pb (Sign priv pb))) as (tok & Ee & Eue).
  apply empty_key_none in Hk.
  rewrite (proj2 (is_empty_false _) Ha), (proj2 (is_empty_false _) Ht), (proj2 (is_empty_false _) Ho),
    Hk, Ep, Ee. simpl.
  exists tok. split; [done|]. exists (MkEnvelope pb (Sign priv pb)).
  unfold parse. rewrite Eue. simpl. rewrite Eu. split; [done | apply sign_verify].
Qed.

(** The id of a minted token is the hexadecimal of the randomness it was minted
    with. *)
Lemma ID_minted tok env idb g :
  String.length idb = 16%nat -> parse tok = Ok (env, mint_payload idb g) -> ID tok = hex_encode idb.
Proof.
  intros Hl Ep. unfold ID. rewrite Ep. cbn [mint_payload p_ID].
  destruct (hex_encode_shape idb) as (El & Ea & Eh).
  unfold len. rewrite El, Hl. simpl negb. cbv iota. by rewrite runes_ascii, Eh.
Qed.

End Tokens.

End Token.
