(* ===== verification/Broker.v ===== *)
(** The broker's capability authority: revocation state and its persistence
    ([internal/broker/broker.go], [revoke.go]), the caller gates ([require.go],
    [internal/cap/ca/tls.go]), minting ([request.go]), tool registration
    ([register.go]) and the catalog ([tools.go]). A handler maps the broker, the request and
    what it reads of the world (the clock, randomness, whether a write reached
    the disk) to the broker after it and the answer. *)

From S2P Require Import Prelude Go Mcp FoldKeys Rules Registry Token.

Module Broker.

(** * State *)

Record RevocationState := MkRevocationState { MinEpoch : Z; Revoked : list string }.

(** One [broker.decision] line, with the detail as handed to the redactor. *)
Record AuditLine := MkAudit {
  a_op : string;
  a_caller : string;
  a_decision : string;
  a_detail : string;
  a_kvs : list (string * string)
}.

(** The fields of [Broker] the authority reads and writes. [b_disk] is what the
    last successful [persist] wrote; [b_persist] is whether there is a
    persister. *)
Record Broker := MkBroker {
  b_priv : bytes;
  b_pub : bytes;
  b_manager : string;
  b_rules : Rules.Policy;
  b_reg : Registry.registry;
  b_grantTTL : Duration;
  b_toolSecret : string;
  b_apiKey : string;
  b_serviceHosts : gmap string string;
  b_minEpoch : Z;
  b_revoked : gset string;
  b_persist : bool;
  b_disk : RevocationState;
  b_log : list AuditLine
}.

(** ** Field updates *)

Definition set_log (l : list AuditLine) (b : Broker) : Broker :=
  MkBroker (b_priv b) (b_pub b) (b_manager b) (b_rules b) (b_reg b) (b_grantTTL b) (b_toolSecret b)
    (b_apiKey b) (b_serviceHosts b) (b_minEpoch b) (b_revoked b) (b_persist b) (b_disk b) l.
Definition set_reg (r : Registry.registry) (b : Broker) : Broker :=
  MkBroker (b_priv b) (b_pub b) (b_manager b) (b_rules b) r (b_grantTTL b) (b_toolSecret b)
    (b_apiKey b) (b_serviceHosts b) (b_minEpoch b) (b_revoked b) (b_persist b) (b_disk b) (b_log b).
Definition set_rev (e : Z) (rs : gset string) (d : RevocationState) (b : Broker) : Broker :=
  MkBroker (b_priv b) (b_pub b) (b_manager b) (b_rules b) (b_reg b) (b_grantTTL b) (b_toolSecret b)
    (b_apiKey b) (b_serviceHosts b) e rs (b_persist b) d (b_log b).

(** [b.audit]: one more line. *)
Definition audit (op caller decision detail : string) (kvs : list (string * string)) (b : Broker) : Broker :=
  set_log (b_log b ++ [MkAudit op caller decision detail kvs]) b.

(** * Revocation *)

(** [New], the part that restores the revocation state: the floor and the list
    as loaded. *)
Definition restore (d : RevocationState) (b : Broker) : Broker :=
  set_rev (MinEpoch d) (list_to_set (Revoked d)) d b.

(** [persistLocked]: [wrote] is whether the write reached the disk; a failure is
    only logged. *)
Definition persistLocked (wrote : bool) (b : Broker) : Broker :=
  if b_persist b && wrote
  then set_rev (b_minEpoch b) (b_revoked b) (MkRevocationState (b_minEpoch b) (elements (b_revoked b))) b
  else b.

Definition BumpEpoch (wrote : bool) (b : Broker) : Broker :=
  persistLocked wrote (set_rev (wrap64 (b_minEpoch b + 1)) (b_revoked b) (b_disk b) b).

Definition Revoke (agent : string) (wrote : bool) (b : Broker) : Broker :=
  persistLocked wrote (set_rev (b_minEpoch b) ({[agent]} ∪ b_revoked b) (b_disk b) b).

Definition isRevoked (agent : string) (b : Broker) : bool := bool_decide (agent ∈ b_revoked b).

Definition handleBumpEpoch (wrote : bool) (b : Broker) : Broker * response unit :=
  (audit "bump-epoch" "" "allow" "" [] (BumpEpoch wrote b), ROk tt).

(** The decoded body, [None] when it does not decode. *)
Definition handleRevoke (body : option string) (wrote : bool) (b : Broker) : Broker * response unit :=
  match body with
  | Some agent =>
    if is_empty agent
    then (audit "revoke" "" "deny" "bad body" [] b, HttpError StatusBadRequest "bad request")
    else (audit "revoke" agent "allow" "" [] (Revoke agent wrote b), ROk tt)
  | None => (audit "revoke" "" "deny" "bad body" [] b, HttpError StatusBadRequest "bad request")
  end.

(** * Callers *)

(** The TLS state of a request: none, a connection without a client
    certificate, or a verified certificate's common name. *)
Inductive peer := NoTLS | NoCert | Cert (cn : string).

(** [ca.RequireAgent] and [ca.AgentFromConnState]. *)
Definition RequireAgent (p : peer) : result string string :=
  match p with
  | NoTLS => Err "ca: request has no TLS state"
  | NoCert => Err "ca: no client certificate"
  | Cert cn => if is_empty cn then Err "ca: client certificate has empty common name" else Ok cn
  end.

Definition forbidden {A} : response A := HttpError StatusForbidden "forbidden".

(** [requireLiveAgent]: [None] when the 403 was written. *)
Definition requireLiveAgent (p : peer) (op detailPrefix : string) (b : Broker) : Broker * option string :=
  match RequireAgent p with
  | Err e => (audit op "" "deny" (detailPrefix +:+ e) [] b, None)
  | Ok caller =>
    if isRevoked caller b then (audit op caller "deny" (detailPrefix +:+ "revoked") [] b, None)
    else (b, Some caller)
  end.

Definition requireManager (p : peer) (op detailPrefix : string) (b : Broker) : Broker * option string :=
  match RequireAgent p with
  | Err e => (audit op "" "deny" (detailPrefix +:+ e) [] b, None)
  | Ok caller =>
    if negb (str_eqb caller (b_manager b))
    then (audit op caller "deny" (detailPrefix +:+ "not the manager identity") [] b, None)
    else if isRevoked caller b then (audit op caller "deny" (detailPrefix +:+ "revoked") [] b, None)
    else (b, Some caller)
  end.

(** * Rendering

    The texts [fmt] and [encoding/json] make of errors, integers, times and maps
    for the log and the answers. *)
Class Rendering := {
  regText : Registry.regError -> string;
  tokText : Token.tokError -> string;
  itoa : Z -> string;
  formatRFC3339 : Time -> string;
  marshal_constraints : gmap string string -> option string
}.

(** * Minting *)

(** [wire.CapRequest]. *)
Record CapRequest := MkCapRequest {
  cr_Tool : string;
  cr_Op : string;
  cr_BoundTo : string;
  cr_Constraints : gmap string string
}.

(** [denyDetail]; [op] is the request's operation after coercion. *)
Definition denyDetail (prefix tool op boundTo requestedOp caller : string) : string :=
  prefix +:+ " (tool=" +:+ tool +:+ " op=" +:+ requestedOp
  +:+ (if negb (str_eqb requestedOp op) then " coerced_to=" +:+ op else "")
  +:+ (if negb (str_eqb boundTo caller) then " bound_to=" +:+ boundTo else "") +:+ ")".

Section Handlers.
Context `{Token.SigScheme, Token.TokenWire, Base64, GoJson, Unicode, Rendering}.

(** The constraints of a request as a token carries them, in map order. *)
Definition request_constraints (cs : gmap string string) : list Token.Constraint :=
  (fun kv => Token.MkConstraint kv.1 kv.2) <$> map_to_list cs.

(** The operation asked for, after the coarse-tool coercion. *)
Definition coerced_op (b : Broker) (tool op : string) : string :=
  if Registry.HasOperation (b_reg b) tool Registry.WildcardOp then Registry.WildcardOp else op.

Definition request_bound (req : CapRequest) (caller : string) : string :=
  if is_empty (cr_BoundTo req) then caller else cr_BoundTo req.

(** The grant [handleRequest] mints. *)
Definition request_grant (b : Broker) (req : CapRequest) (caller : string) (now : Time) : Token.Grant :=
  Token.MkGrant (request_bound req caller)
    (Token.MkCapability (cr_Tool req) (coerced_op b (cr_Tool req) (cr_Op req)))
    (request_constraints (cr_Constraints req)) (Add now (b_grantTTL b)) (b_minEpoch b).

(** [handleRequest]: the answer on success is the base64url token. [now] is the
    clock reading the expiry is counted from, [idb] the token id's randomness. *)
Definition handleRequest (p : peer) (body : option CapRequest) (now : Time) (idb : option bytes)
    (b : Broker) : Broker * response string :=
  match requireLiveAgent p "request" "" b with
  | (b, None) => (b, forbidden)
  | (b, Some caller) =>
    match body with
    | None => (audit "request" caller "deny" "bad body" [] b, HttpError StatusBadRequest "bad request")
    | Some req =>
      let boundTo := request_bound req caller in
      let tool := cr_Tool req in
      let requestedOp := cr_Op req in
      let op := coerced_op b tool requestedOp in
      let deny prefix :=
        let detail := denyDetail prefix tool op boundTo requestedOp caller in
        (audit "request" caller "deny" detail [] b, HttpError StatusForbidden detail) in
      match Rules.MayObtainRule (b_rules b) caller boundTo tool op with
      | None => deny "policy: may not obtain/delegate"
      | Some rule =>
        if negb (Registry.HasOperation (b_reg b) tool op) then deny "unregistered op"
        else match Registry.ValidateConstraints (b_reg b) tool op (cr_Constraints req) with
        | Err e => deny (regText e)
        | Ok _ =>
          let g := request_grant b req caller now in
          match Token.Mint (b_priv b) g idb with
          | Err e =>
            (audit "request" caller "error" (tokText e) [] b,
             HttpError StatusInternalServerError "internal error")
          | Ok tok =>
            let detail := tool +:+ "." +:+ op +:+ "->" +:+ boundTo
              +:+ (if negb (str_eqb requestedOp op)
                   then " (op coerced: " +:+ requestedOp +:+ " -> " +:+ op +:+ ")" else "") in
            let kvs := [("id", Token.ID tok); ("rule", rule);
                        ("exp", formatRFC3339 (Token.g_Expiry g)); ("epoch", itoa (Token.g_Epoch g))] in
            if bool_decide (cr_Constraints req = ∅)
            then (audit "request" caller "allow" detail kvs b, ROk (b64_encode tok))
            else match marshal_constraints (cr_Constraints req) with
            | None =>
              (audit "request" caller "error" "marshal constraints: " [] b,
               HttpError StatusInternalServerError "internal error")
            | Some cj =>
              (audit "request" caller "allow" detail (kvs ++ [("constraints", cj)]) b, ROk (b64_encode tok))
            end
          end
        end
      end
    end
  end.

(** * Registration *)

(** [wire.RegisterRequest]: the name and the operations with their
    [caveat_param]. *)
Record RegisterRequest := MkRegisterRequest {
  rr_Name : string;
  rr_Operations : list (string * gmap string string)
}.

(** The loop that collects the body's [caveat_param]s; [inr name] is an
    operation the config does not have. *)
Fixpoint collect_caveats (cfg : gmap string Registry.Operation) (ops : list (string * gmap string string))
    (acc : gmap string (gmap string string)) : gmap string (gmap string string) + string :=
  match ops with
  | [] => inl acc
  | (name, cp) :: ops' =>
    if bool_decide (is_Some (cfg !! name)) then collect_caveats cfg ops' (<[name := cp]> acc)
    else inr name
  end.

(** The operation the registration keeps for a configured one: [None] when the
    body disagrees with a configured [caveat_param]. *)
Definition merge_op (bodyCP : gmap string (gmap string string)) (name : string) (op : Registry.Operation)
    : option Registry.Operation :=
  let cp := default ∅ (bodyCP !! name) in
  if bool_decide (Registry.CaveatParam op = ∅) then Some (Registry.MkOperation name cp (Registry.Params op))
  else if bool_decide (Registry.CaveatParam op = cp)
       then Some (Registry.MkOperation name (Registry.CaveatParam op) (Registry.Params op))
       else None.

(** The merge loop, over the configured operations in map order. *)
Fixpoint merge_ops (bodyCP : gmap string (gmap string string)) (ops : list (string * Registry.Operation))
    (acc : gmap string Registry.Operation) : gmap string Registry.Operation + string :=
  match ops with
  | [] => inl acc
  | (name, op) :: ops' =>
    match merge_op bodyCP name op with
    | Some o => merge_ops bodyCP ops' (<[name := o]> acc)
    | None => inr name
    end
  end.

(** [handleRegister]: the answer is the public key and the epoch. *)
Definition handleRegister (body : option RegisterRequest) (b : Broker) : Broker * response (bytes * Z) :=
  match body with
  | None => (audit "register" "" "deny" "bad body" [] b, HttpError StatusBadRequest "bad request")
  | Some req =>
    let name := rr_Name req in
    let deny detail code msg := (audit "register" name "deny" detail [] b, HttpError code msg) in
    match Registry.Lookup (b_reg b) name with
    | None => deny "tool not configured" StatusForbidden "tool not configured"
    | Some cfg =>
      if Registry.External cfg
      then deny "external tool does not self-register" StatusForbidden "external tool does not self-register"
      else match collect_caveats (Registry.Operations cfg) (rr_Operations req) ∅ with
      | inr o => deny ("operation not configured: " +:+ o) StatusForbidden "operation not configured"
      | inl bodyCP =>
        match merge_ops bodyCP (map_to_list (Registry.Operations cfg)) ∅ with
        | inr o => deny ("caveat_param mismatch for " +:+ o) StatusForbidden "caveat_param mismatch"
        | inl merged =>
          let t := Registry.MkTool (Registry.Name cfg) (Registry.Backend cfg) merged
                     (Registry.CloneAllowedValues (Registry.AllowedValues cfg)) (Registry.FirstParty cfg) false false in
          match Registry.Register (b_reg b) t with
          | Err e => deny (regText e) StatusBadRequest (regText e)
          | Ok reg => (audit "register" name "allow" (Registry.Backend cfg) [] (set_reg reg b),
                       ROk (b_pub b, b_minEpoch b))
          end
        end
      end
    end
  end.

(** * The catalog *)

Definition handleTools (p : peer) (b : Broker) : Broker * response (list string) :=
  match requireLiveAgent p "tools" "" b with
  | (b, None) => (b, forbidden)
  | (b, Some _) =>
    (b, ROk (filter (fun n => n <> Registry.ReservedLLMTool) (Registry.Names (b_reg b))))
  end.

(** * What a registration can change *)

Lemma merge_ops_lookup cp l : forall acc merged n,
  NoDup l.*1 -> merge_ops cp l acc = inl merged ->
  merged !! n = match (list_to_map l : gmap string Registry.Operation) !! n with
                | Some op => merge_op cp n op
                | None => acc !! n
                end
  /\ (forall op, (list_to_map l : gmap string Registry.Operation) !! n = Some op -> is_Some (merge_op cp n op)).
Proof.
  induction l as [|[n' op'] l IH]; intros acc merged n Hnd E; simpl in *.
  { injection E as <-. split; [done | intros op; by rewrite lookup_empty]. }
  apply NoDup_cons in Hnd as [Hn Hnd]. destruct (merge_op cp n' op') as [o|] eqn:Em; [|done].
  destruct (IH _ _ n Hnd E) as [H1' H2']. rewrite lookup_insert. case_decide as Hd.
  - subst n'. rewrite (not_elem_of_list_to_map_1 _ _ Hn), lookup_insert_eq in H1'.
    split; [by rewrite H1' | intros op [= <-]; by eauto].
  - by rewrite lookup_insert_ne in H1'.
Qed.

(** The operation a registration keeps for a configured one: its name and
    declared parameters as configured, and its argument mapping too unless the
    configuration left it open. *)
Definition op_kept (o o' : Registry.Operation) : Prop :=
  Registry.Params o' = Registry.Params o
  /\ (Registry.CaveatParam o <> ∅ -> Registry.CaveatParam o' = Registry.CaveatParam o).

(** A tool that registers itself cannot widen what it was configured for. An
    accepted registration names a configured, non-external tool and replaces
    only that entry: same backend, same allowed values, same first-party
    standing, the same operations with the same declared parameters, and the
    configured argument mapping wherever there is one; the revocation state and
    the policy stay as they were. *)
Theorem registration_cannot_widen body b b' ans :
  handleRegister body b = (b', ROk ans) ->
  exists req cfg t, body = Some req /\ b_reg b !! rr_Name req = Some cfg
    /\ Registry.External cfg = false
    /\ b_reg b' = <[Registry.Name cfg := t]> (b_reg b)
    /\ (Registry.Name t, Registry.Backend t, Registry.AllowedValues t, Registry.FirstParty t)
       = (Registry.Name cfg, Registry.Backend cfg, Registry.AllowedValues cfg, Registry.FirstParty cfg)
    /\ (forall n, option_Forall2 op_kept (Registry.Operations cfg !! n) (Registry.Operations t !! n))
    /\ (b_rules b', b_minEpoch b', b_revoked b', b_disk b') = (b_rules b, b_minEpoch b, b_revoked b, b_disk b)
    /\ ans = (b_pub b, b_minEpoch b).
Proof.
  unfold handleRegister. intros E. destruct body as [req|]; [|done].
  destruct (Registry.Lookup _ _) as [cfg|] eqn:El; [|done].
  destruct (Registry.External cfg) eqn:Ex; [done|].
  destruct (collect_caveats _ _ _) as [cp|]; [|done].
  destruct (merge_ops _ _ _) as [merged|] eqn:Em; [|done].
  destruct (Registry.Register _ _) as [reg|] eqn:Er; [|done]. injection E as <- <-.
  unfold Registry.Register in Er. repeat case_match; try done. injection Er as <-.
  do 3 eexists. repeat (split; [done|]).
  split; [unfold Registry.CloneAllowedValues; simpl; by rewrite map_fmap_id|]. split; [|done].
  intros n. simpl.
  destruct (merge_ops_lookup cp _ _ _ n (NoDup_fst_map_to_list _) Em) as [-> Hs].
  rewrite list_to_map_to_list in *. destruct (Registry.Operations cfg !! n) as [o|] eqn:Eo; [|by rewrite lookup_empty; constructor].
  destruct (Hs o eq_refl) as [o' Eo']. rewrite Eo'. constructor. unfold merge_op in Eo'.
  repeat case_bool_decide; simplify_eq; by split.
Qed.

End Handlers.

End Broker.
