(* ===== verification/Gateway.v ===== *)
(** The tool gateway ([internal/broker/gateway.go]) and the LLM proxy
    ([internal/broker/llmproxy.go]): which requests of an agent go on to a
    backend, and what the backend is sent. *)

From S2P Require Import Prelude Go Mcp FoldKeys Rules Registry Token Broker.

Module Gateway.
Import Broker.

(** * Requests *)

(** [http.Header], keyed by canonical names, as [net/http] stores them. *)
Abbreviation Header := (gmap string (list string)) (only parsing).

(** [h.Get(k)]. *)
Definition hget (h : Header) (k : string) : string :=
  match h !! k with Some (v :: _) => v | _ => "" end.
(** [h.Set(k, v)]. *)
Definition hset (k v : string) (h : Header) : Header := <[k := [v]]> h.
Definition hdel_all (ks : list string) (h : Header) : Header := foldr (fun k h => delete k h) h ks.

(** [q_escaped] and [q_query] are [URL.EscapedPath()] and [URL.RawQuery];
    [q_body] is [None] when the body cannot be read within its limit;
    [q_remoteIP] is the client address, when it splits. *)
Record HttpReq := MkHttpReq {
  q_peer : peer;
  q_method : string;
  q_path : string;
  q_escaped : string;
  q_query : string;
  q_header : Header;
  q_body : option bytes;
  q_remoteIP : option string
}.

Record URL := MkURL { u_Host : string; u_Path : string; u_RawQuery : string }.

(** [net/url.Parse], and the header names [httputil.ReverseProxy] removes as
    hop-by-hop (the fixed list and what the Connection header names). *)
Class NetLib := {
  url_parse : string -> option URL;
  hop_by_hop : Header -> list string
}.

(** What the reverse proxy sends. *)
Record OutReq := MkOutReq {
  o_host : string;
  o_path : string;
  o_query : string;
  o_header : Header;
  o_body : bytes
}.

(** The end of a gateway request: an answer to the agent, or a request to the
    backend. The answer body is a JSON-RPC reply, none for a bare 202. *)
Inductive verdict :=
| Answer (r : response (option Mcp.reply))
| NotFound
| MethodNotAllowed
| Forward (o : OutReq).

Definition toolSecretHeader : string := "X-Lever-Tool-Secret".
Definition callerHeader : string := "X-Lever-Caller".
Definition methodHeader : string := "X-Lever-Method".

Fixpoint str_contains (s p : string) : bool :=
  HasPrefix s p || match s with EmptyString => false | String _ s' => str_contains s' p end.

Section Gateway.
Context `{Token.SigScheme, Token.TokenWire, Base64, GoJson, Unicode, Rendering, NetLib}.

Definition backendURL (backend : string) : option URL :=
  url_parse (if str_contains backend "://" then backend else "http://" +:+ backend).

(** [truncate], on the audited path. *)
Definition maxAuditPath : nat := 256.
Definition truncate (s : string) (n : nat) : string :=
  if (n <? String.length s)%nat then String.substring 0 n s else s.

(** * What the backend is sent *)

Definition routingHeaders : list string :=
  ["X-Original-Url"; "X-Rewrite-Url"; "X-Original-Method";
   "X-Http-Method-Override"; "X-Http-Method"; "X-Method-Override"].

(** What [httputil.ReverseProxy] drops before [Rewrite] runs. *)
Definition rp_strip (h : Header) : Header :=
  hdel_all ["Forwarded"; "X-Forwarded-For"; "X-Forwarded-Host"; "X-Forwarded-Proto"]
    (hdel_all (hop_by_hop h) h).

(** [rewriteUpstream], on the headers. *)
Definition rewriteUpstream (ip : option string) (h : Header) : Header :=
  let h := delete "Cookie" h in
  match ip with Some ip => hset "X-Forwarded-For" ip h | None => h end.

(** [newToolProxy]'s [Rewrite]. *)
Definition tool_rewrite (ip : option string) (h : Header) : Header :=
  filter (fun kv => HasPrefix kv.1 "X-Forwarded-" = false \/ kv.1 = "X-Forwarded-For")
    (hdel_all routingHeaders (rewriteUpstream ip h)).

(** The whole outbound request: the target's path and query whatever the
    inbound ones; a service host's request also carries the caller. *)
Definition proxy_tool (target : URL) (svc : bool) (caller : string) (q : HttpReq) (h : Header) (body : bytes)
    : OutReq :=
  let h := tool_rewrite (q_remoteIP q) (rp_strip h) in
  MkOutReq (u_Host target) (if is_empty (u_Path target) then "/" else u_Path target) (u_RawQuery target)
    (if svc then hset callerHeader caller h else h) body.

Definition maxToolsListBytes : Z := 16 * 2 ^ 20.

(** [ModifyResponse]: a [tools/list] answer gets the capability argument in
    every schema; [None] is the error for one too large. *)
Definition modify_response (outMethod : string) (body : bytes) : option bytes :=
  if negb (str_eqb outMethod "tools/list") then Some body
  else if maxToolsListBytes <? len body then None
  else Some (Mcp.AugmentToolsListSchema body).

(** * Authorizing one message *)

Definition deny (tool caller detail : string) (kvs : list (string * string)) (code : Z) (msg : string)
    (b : Broker) : Broker * (response (option Mcp.reply) + Header * bytes) :=
  (audit tool caller "deny" detail kvs b, inl (HttpError code msg)).

(** [answerNotFound]. *)
Definition answerNotFound (m : Mcp.msg) : response (option Mcp.reply) :=
  match m !! "id" with
  | None => ROk None
  | Some id => ROk (Some (Mcp.Error id Mcp.CodeMethodNotFound "method not found"))
  end.

(** The operation a call needs: the wildcard for a coarse tool. *)
Definition requiredOp (t : Registry.Tool) (op : string) : string :=
  if Registry.Coarse t then Registry.WildcardOp else op.

(** [authorizeToolCall]: [inr (headers, body)] lets the message go on with those
    headers and body. *)
Definition authorizeToolCall (t : Registry.Tool) (caller : string) (body : bytes) (h : Header) (now : Time)
    (b : Broker) : Broker * (response (option Mcp.reply) + Header * bytes) :=
  let toolName := Registry.Name t in
  match Mcp.Parse body with
  | None => (b, inl (HttpError StatusBadRequest "bad request"))
  | Some (method, m) =>
    if str_eqb method "tools/call" then
      match Mcp.ToolsCall m with
      | None => deny toolName caller "missing capability" [] StatusForbidden "forbidden" b
      | Some (op, args, capB64) =>
        if is_empty capB64 then deny toolName caller "missing capability" [] StatusForbidden "forbidden" b
        else match b64_decode capB64 with
        | None => deny toolName caller "bad capability encoding" [] StatusForbidden "forbidden" b
        | Some rawTok =>
          let rop := requiredOp t op in
          let kv := [("id", Token.ID rawTok)] in
          match Registry.MapParams (b_reg b) toolName rop args with
          | Err (Registry.RenamedKeyArgErr ck an) =>
            deny toolName caller (regText (Registry.RenamedKeyArgErr ck an)) kv StatusBadRequest "bad request" b
          | Err e => deny toolName caller (regText e) kv StatusForbidden "forbidden" b
          | Ok params =>
            if isRevoked caller b then deny toolName caller "revoked" kv StatusForbidden "forbidden" b
            else match Token.Verify (b_pub b) rawTok
                   (Token.MkRequest caller (Token.MkCapability toolName rop) params now (b_minEpoch b)) with
            | Err e => deny toolName caller (tokText e) kv StatusForbidden "forbidden" b
            | Ok _ =>
              let '(body', h') := if Registry.FirstParty t then (body, hset callerHeader caller h)
                                  else (Mcp.StripCapability m, h) in
              (audit toolName caller "allow" op kv b, inr (hset methodHeader "tools/call" h', body'))
            end
          end
        end
      end
    else if bool_decide (method ∈ ["initialize"; "tools/list"; "notifications/initialized"; "ping"]) then
      (b, inr (hset methodHeader method h, body))
    else if bool_decide (method ∈ ["server/discover"; "resources/list"; "resources/templates/list"; "prompts/list"]) then
      (if isRevoked caller b then audit toolName caller "deny" ("revoked: " +:+ method) [] b else b,
       inl (answerNotFound m))
    else deny toolName caller ("method not allowlisted: " +:+ method) [] StatusForbidden "forbidden" b
  end.

(** * The handler *)

(** [gatewayHandler]: the tool and its target, fixed when the route is built. *)
Definition gatewayHandler (toolName : string) (b : Broker) : option (Registry.Tool * URL) :=
  t ← Registry.Lookup (b_reg b) toolName; target ← backendURL (Registry.Backend t); Some (t, target).

(** Drop every inbound [X-Lever-*] header. *)
Definition scrub (h : Header) : Header := filter (fun kv => HasPrefix kv.1 "X-Lever-" = false) h.

(** The closure [gatewayHandler] returns. *)
Definition gateway (toolName : string) (t : Registry.Tool) (target : URL) (q : HttpReq) (now : Time) (b : Broker)
    : Broker * verdict :=
  match RequireAgent (q_peer q) with
  | Err e => (audit toolName "" "deny" e [] b, Answer forbidden)
  | Ok caller =>
    if negb (str_eqb (q_path q) ("/mcp/" +:+ toolName +:+ "/"))
    then (audit toolName caller "deny" "path not allowed" [("path", truncate (q_escaped q) maxAuditPath)] b, NotFound)
    else
      let h := scrub (q_header q) in
      if negb (str_eqb (q_method q) "POST") then
        (if isRevoked caller b then audit toolName caller "deny" ("revoked: " +:+ q_method q) [] b else b,
         MethodNotAllowed)
      else match q_body q with
      | None => (audit toolName caller "deny" "bad body" [] b, Answer (HttpError StatusBadRequest "bad request"))
      | Some body =>
        if FoldKeys.FoldedKeyCollision body then
          (audit toolName caller "deny" "keys equal under case folding" [] b,
           Answer (HttpError StatusBadRequest "bad request"))
        else match authorizeToolCall t caller body h now b with
        | (b, inl r) => (b, Answer r)
        | (b, inr (h, body)) =>
          let h := if Registry.FirstParty t && negb (is_empty (b_toolSecret b))
                   then hset toolSecretHeader (b_toolSecret b) h else h in
          let svc := bool_decide (is_Some (b_serviceHosts b !! toolName)) in
          (b, Forward (proxy_tool target svc caller q (delete "Upgrade" h) body))
        end
      end
  end.

(** * The LLM proxy *)

Definition model_byte (c : ascii) : bool :=
  in_range "a"%char "z"%char c || in_range "A"%char "Z"%char c || in_range "0"%char "9"%char c
  || bool_decide (c ∈ ["."%char; "_"%char; ":"%char; "-"%char]).

Definition validModelID (id : string) : bool :=
  if is_empty id || str_eqb id "." || str_eqb id ".." then false else string_forallb model_byte id.

Definition llmPathAllowed (method path : string) : bool :=
  if str_eqb method "POST" then str_eqb path "/v1/messages" || str_eqb path "/v1/messages/count_tokens"
  else if str_eqb method "GET" then
    if str_eqb path "/v1/models" then true
    else let '(id, ok) := CutPrefix path "/v1/models/" in ok && validModelID id
  else false.

Definition bearerToken (h : Header) : option bytes :=
  let v := hget h "Authorization" in
  if negb (HasPrefix v "Bearer ") then None
  else match b64_decode (TrimSpace (drop_bytes 7 v)) with
  | Some raw => if is_empty raw then None else Some raw
  | None => None
  end.

(** [llmProxyHandler]'s [Rewrite]: the capability token out, the real key in. *)
Definition llm_rewrite (apiKey : string) (ip : option string) (h : Header) : Header :=
  let h := rewriteUpstream ip h in
  let h := hset "X-Api-Key" apiKey (delete "X-Api-Key" (delete "Authorization" h)) in
  if is_empty (hget h "Anthropic-Version") then hset "Anthropic-Version" "2023-06-01" h else h.

(** [ProxyRequest.SetURL]: the request's path and query below the target's. *)
Definition joinPath (a p : string) : string :=
  let aslash := match String.get (String.length a - 1) a with
                | Some c => bool_decide (c = "/"%char) | None => false end in
  let bslash := HasPrefix p "/" in
  if aslash && bslash then a +:+ drop_bytes 1 p
  else if negb aslash && negb bslash then a +:+ "/" +:+ p
  else a +:+ p.
Definition joinQuery (a q : string) : string :=
  if is_empty a || is_empty q then a +:+ q else a +:+ "&" +:+ q.

(** [llmProxyHandler], mounted with [/llm] stripped from the path. *)
Definition llmProxy (upstream : URL) (q : HttpReq) (now : Time) (b : Broker) : Broker * verdict :=
  match RequireAgent (q_peer q) with
  | Err _ => (audit "llm" "" "deny" "no client cert" [] b, Answer forbidden)
  | Ok caller =>
    match bearerToken (q_header q) with
    | None => (audit "llm" caller "deny" "missing capability" [] b,
               Answer (HttpError StatusUnauthorized "unauthorized"))
    | Some raw =>
      let kv := [("id", Token.ID raw)] in
      if isRevoked caller b then (audit "llm" caller "deny" "revoked" kv b, Answer forbidden)
      else match Token.Verify (b_pub b) raw
             (Token.MkRequest caller (Token.MkCapability Registry.ReservedLLMTool Registry.ReservedLLMOp)
                ∅ now (b_minEpoch b)) with
      | Err e => (audit "llm" caller "deny" ("token: " +:+ tokText e) kv b, Answer forbidden)
      | Ok _ =>
        if negb (llmPathAllowed (q_method q) (q_escaped q)) then
          (audit "llm" caller "deny" ("path not allowlisted: " +:+ q_method q +:+ " " +:+ q_escaped q) kv b,
           Answer forbidden)
        else
          (audit "llm" caller "allow" "" kv b,
           Forward (MkOutReq (u_Host upstream) (joinPath (u_Path upstream) (q_escaped q))
             (joinQuery (u_RawQuery upstream) (q_query q))
             (llm_rewrite (b_apiKey b) (q_remoteIP q) (rp_strip (q_header q))) (default "" (q_body q))))
      end
    end
  end.

(** * What goes through *)

(** The methods that need no token. *)
Definition free_method (m : string) : Prop :=
  m ∈ ["initialize"; "tools/list"; "notifications/initialized"; "ping"].

(** A [tools/call] message whose token verifies for [caller] now. *)
Record call_granted (t : Registry.Tool) (caller : string) (body : bytes) (now : Time) (b : Broker) := MkGranted {
  cg_msg : Mcp.msg;
  cg_op : string;
  cg_args : gmap string string;
  cg_cap : string;
  cg_tok : bytes;
  cg_params : gmap string string;
  cg_parse : Mcp.Parse body = Some ("tools/call", cg_msg);
  cg_call : Mcp.ToolsCall cg_msg = Some (cg_op, cg_args, cg_cap);
  cg_decode : b64_decode cg_cap = Some cg_tok;
  cg_map : Registry.MapParams (b_reg b) (Registry.Name t) (requiredOp t cg_op) cg_args = Ok cg_params;
  cg_live : caller ∉ b_revoked b;
  cg_verify : Token.Verify (b_pub b) cg_tok
    (Token.MkRequest caller (Token.MkCapability (Registry.Name t) (requiredOp t cg_op))
       cg_params now (b_minEpoch b)) = Ok tt
}.

(** A message goes on only with a free method, unchanged, or as a granted
    call. *)
Lemma authorize_pass t caller body h now b b' h' body' :
  authorizeToolCall t caller body h now b = (b', inr (h', body')) ->
  (exists m method, Mcp.Parse body = Some (method, m) /\ free_method method /\ b' = b
     /\ h' = hset methodHeader method h /\ body' = body)
  \/ exists c : call_granted t caller body now b,
       b' = audit (Registry.Name t) caller "allow" (cg_op _ _ _ _ _ c) [("id", Token.ID (cg_tok _ _ _ _ _ c))] b
       /\ h' = hset methodHeader "tools/call" (if Registry.FirstParty t then hset callerHeader caller h else h)
       /\ body' = if Registry.FirstParty t then body else Mcp.StripCapability (cg_msg _ _ _ _ _ c).
Proof.
  unfold authorizeToolCall. intros E.
  destruct (Mcp.Parse body) as [[method m]|] eqn:Ep; [|done].
  destruct (str_eqb method "tools/call") eqn:Em; guards.
  - right. subst method.
    destruct (Mcp.ToolsCall m) as [[[op args] cap]|] eqn:Ec; [|done].
    destruct (is_empty cap); [done|]. destruct (b64_decode cap) as [raw|] eqn:Ed; [|done].
    destruct (Registry.MapParams _ _ _ _) as [params|e] eqn:Ea; [|by destruct e].
    destruct (isRevoked caller b) eqn:Er; [done|]. unfold isRevoked in Er. guards.
    destruct (Token.Verify _ _ _) as [[]|] eqn:Ev; [|done].
    unshelve eexists; [by econstructor|]. simpl. by destruct (Registry.FirstParty t); simplify_eq/=.
  - left. case_bool_decide as Hf; [|by case_bool_decide].
    simplify_eq. by eauto 10.
Qed.

Lemma gateway_forward_inv name t target q now b b' o :
  gateway name t target q now b = (b', Forward o) ->
  exists caller body h' body',
    q_peer q = Cert caller /\ caller <> "" /\ q_path q = "/mcp/" +:+ name +:+ "/"
    /\ q_method q = "POST" /\ q_body q = Some body /\ FoldKeys.FoldedKeyCollision body = false
    /\ authorizeToolCall t caller body (scrub (q_header q)) now b = (b', inr (h', body'))
    /\ o = proxy_tool target (bool_decide (is_Some (b_serviceHosts b !! name))) caller q
             (delete "Upgrade" (if Registry.FirstParty t && negb (is_empty (b_toolSecret b))
               then hset toolSecretHeader (b_toolSecret b) h' else h')) body'.
Proof.
  unfold gateway. intros E.
  destruct (RequireAgent (q_peer q)) as [caller|] eqn:Ea; [|done].
  destruct (negb (str_eqb _ _)) eqn:Ep in E; [done|].
  destruct (negb (str_eqb _ "POST")) eqn:Em in E; [done|].
  destruct (q_body q) as [body|] eqn:Eb; [|done].
  destruct (FoldKeys.FoldedKeyCollision body) eqn:Ef; [done|].
  destruct (authorizeToolCall _ _ _ _ _ _) as [b1 [r|[h' body']]] eqn:Eau; [done|].
  assert (Hs : b_toolSecret b1 = b_toolSecret b /\ b_serviceHosts b1 = b_serviceHosts b).
  { apply authorize_pass in Eau as [(?&?&_&_&->&_)|[? [-> _]]]; done. }
  destruct Hs as [Hs1 Hs2]. rewrite Hs1, Hs2 in E.
  injection E as <- <-. guards.
  unfold RequireAgent in Ea. destruct (q_peer q) as [| |cn]; try done.
  destruct (is_empty cn) eqn:Ecn; [done|]. guards. injection Ea as <-.
  exists cn, body, h', body'. done.
Qed.

(** ** What reaches the backend *)

Lemma hdel_all_sub ks (h : Header) k v : hdel_all ks h !! k = Some v -> h !! k = Some v.
Proof.
  induction ks as [|k' ks IH]; simpl; [done|].
  rewrite lookup_delete_Some. naive_solver.
Qed.

Lemma rp_strip_sub (h : Header) k v : rp_strip h !! k = Some v -> h !! k = Some v.
Proof. unfold rp_strip. intros E. by do 2 apply hdel_all_sub in E. Qed.

Lemma tool_rewrite_sub ip (h : Header) k v :
  k <> "X-Forwarded-For" -> tool_rewrite ip h !! k = Some v -> h !! k = Some v.
Proof.
  unfold tool_rewrite, rewriteUpstream. intros Hk E.
  apply map_lookup_filter_Some in E as [E _]. apply hdel_all_sub in E.
  destruct ip as [ip|].
  - unfold hset in E. rewrite lookup_insert_ne in E by done. by apply lookup_delete_Some in E as [_ E].
  - by apply lookup_delete_Some in E as [_ E].
Qed.

Lemma scrub_none (h : Header) k : HasPrefix k "X-Lever-" = true -> scrub h !! k = None.
Proof.
  intros Hk. unfold scrub. apply map_lookup_filter_None_2. right. intros v _. simpl. by rewrite Hk.
Qed.

(** An outbound [X-Lever-*] header is one the gateway set: the caller, the tool
    secret of a first-party tool, or the method. *)
Definition lever_headers_ok (t : Registry.Tool) (caller secret : string) (h : Header) : Prop :=
  forall k vs, HasPrefix k "X-Lever-" = true -> h !! k = Some vs ->
    (k = callerHeader /\ vs = [caller])
    \/ (k = toolSecretHeader /\ vs = [secret] /\ Registry.FirstParty t = true)
    \/ k = methodHeader.

Lemma lever_headers_set t caller secret h k v :
  lever_headers_ok t caller secret h ->
  ((k = callerHeader /\ v = caller) \/ (k = toolSecretHeader /\ v = secret /\ Registry.FirstParty t = true)
   \/ k = methodHeader) ->
  lever_headers_ok t caller secret (hset k v h).
Proof.
  intros Hh Hk k' vs Hp. unfold hset. rewrite lookup_insert. case_decide; [|by apply Hh].
  intros [= <-]. naive_solver.
Qed.

Lemma lever_headers_proxy t caller secret target svc q h body :
  lever_headers_ok t caller secret h ->
  lever_headers_ok t caller secret (o_header (proxy_tool target svc caller q (delete "Upgrade" h) body)).
Proof.
  intros Hh. simpl.
  assert (Hr : lever_headers_ok t caller secret
                 (tool_rewrite (q_remoteIP q) (rp_strip (delete "Upgrade" h)))).
  { intros k vs Hp E. apply tool_rewrite_sub in E; [|by intros ->].
    apply rp_strip_sub in E. apply lookup_delete_Some in E as [_ E]. by eapply Hh. }
  destruct svc; [|done]. apply lever_headers_set; [done | by left].
Qed.

(** An agent cannot forge what a backend trusts. Whatever headers, path and
    query it sends, a forwarded request goes to the tool's configured host and
    path, and its [X-Lever-*] headers are the gateway's own: the certified
    caller, the tool secret for a first-party tool only, and the method. *)
Theorem no_forged_headers name t target q now b b' o caller :
  q_peer q = Cert caller ->
  gateway name t target q now b = (b', Forward o) ->
  lever_headers_ok t caller (b_toolSecret b) (o_header o)
  /\ o_host o = u_Host target /\ o_query o = u_RawQuery target
  /\ o_path o = (if is_empty (u_Path target) then "/" else u_Path target).
Proof.
  intros Hp (caller' & body & h' & body' & Hq & _ & _ & _ & _ & _ & Ha & ->)%gateway_forward_inv.
  rewrite Hp in Hq. injection Hq as <-.
  split; [|done]. apply lever_headers_proxy.
  assert (Hs : lever_headers_ok t caller (b_toolSecret b) (scrub (q_header q))).
  { intros k vs Hk. by rewrite scrub_none. }
  assert (Hh : lever_headers_ok t caller (b_toolSecret b) h').
  { apply authorize_pass in Ha as [(?&?&_&_&_&->&_)|[? (_&->&_)]];
      (apply lever_headers_set; [|by right; right]).
    - done.
    - destruct (Registry.FirstParty t); [|done]. apply lever_headers_set; [done | by left]. }
  destruct (Registry.FirstParty t) eqn:Ef; [|done]. simpl.
  destruct (negb _); [|done]. apply lever_headers_set; [done | by right; left].
Qed.

(** A tool that is not first-party never sees the token. The body forwarded
    to it is the message re-encoded without the capability argument, and with
    every other argument as the agent sent it. *)
Theorem third_party_gets_no_token name t target q now b b' o body m :
  Registry.FirstParty t = false -> q_body q = Some body -> Mcp.Parse body = Some ("tools/call", m) ->
  gateway name t target q now b = (b', Forward o) ->
  exists m', o_body o = default "" (Marshal (AObj m')) /\ Mcp.call_args m' !! Mcp.CapabilityArg = None
    /\ forall k, k <> Mcp.CapabilityArg -> Mcp.call_args m' !! k = Mcp.call_args m !! k.
Proof.
  intros Hf Hb Hp (caller & body' & h' & sent & _ & _ & _ & _ & Eb & _ & Ha & ->)%gateway_forward_inv.
  rewrite Hb in Eb. injection Eb as <-. exists (Mcp.strip_capability m).
  split_and!; [| apply Mcp.strip_no_capability | intros k; apply Mcp.strip_keeps_args]. simpl.
  apply authorize_pass in Ha as [(m' & method & Ep & Hfree & _)|[c (_ & _ & ->)]].
  - rewrite Hp in Ep. injection Ep as <- _. unfold free_method in Hfree. set_solver.
  - rewrite Hf. destruct c as [m' op args cap tok params Ep]. simpl. rewrite Hp in Ep. by injection Ep as <-.
Qed.

End Gateway.

End Gateway.
