(* ===== verification/Authority.v ===== *)
(** The capability authority as a system: the broker under any interleaving of
    mint requests, registrations, tool calls, LLM calls, epoch bumps,
    revocations and restarts, with the history of what it signed. The theorems
    say what authority an accepted call implies and what revocation cuts. *)

From S2P Require Import Prelude Go Mcp FoldKeys Rules Registry Token Broker Gateway.

Module Authority.
Import Broker Gateway.

(** * What the handlers leave alone *)

(** The parts of the broker no handler changes. *)
Definition core (b : Broker) :=
  (b_priv b, b_pub b, b_manager b, b_rules b, b_grantTTL b, b_toolSecret b, b_persist b).
(** The revocation part. *)
Definition revs (b : Broker) := (b_minEpoch b, b_revoked b, b_disk b).

Ltac frame := repeat case_match; simplify_eq/=; try done.

Section System.
Context `{Token.SigScheme, Token.TokenWire, Base64, GoJson, Unicode, Rendering, NetLib}.

Lemma requireLiveAgent_inv p op pre b b' r :
  requireLiveAgent p op pre b = (b', r) ->
  core b' = core b /\ revs b' = revs b /\ b_reg b' = b_reg b
  /\ match r with
     | Some caller => b' = b /\ p = Cert caller /\ caller <> "" /\ caller ∉ b_revoked b
     | None => True
     end.
Proof.
  unfold requireLiveAgent. intros E.
  destruct (RequireAgent p) as [caller|] eqn:Ea; [|by simplify_eq].
  destruct (isRevoked caller b) eqn:Er; [by simplify_eq|].
  unfold isRevoked in Er. guards. simplify_eq.
  unfold RequireAgent in Ea. destruct p as [| |cn]; try done.
  destruct (is_empty cn) eqn:En; [done|]. guards. by injection Ea as ->.
Qed.

Lemma handleRequest_frame p body now idb b :
  core (handleRequest p body now idb b).1 = core b /\ revs (handleRequest p body now idb b).1 = revs b.
Proof.
  unfold handleRequest.
  destruct (requireLiveAgent p "request" "" b) as [b1 [caller|]] eqn:E;
    apply requireLiveAgent_inv in E as (Hc & Hr & _ & Hx); [|done].
  destruct Hx as [-> _]. repeat case_match; done.
Qed.

Lemma handleRegister_frame body b :
  core (handleRegister body b).1 = core b /\ revs (handleRegister body b).1 = revs b.
Proof. unfold handleRegister. repeat case_match; done. Qed.

Lemma gateway_frame name t target q now b :
  core (gateway name t target q now b).1 = core b /\ revs (gateway name t target q now b).1 = revs b.
Proof.
  assert (Ha : forall caller body h, core (authorizeToolCall t caller body h now b).1 = core b
    /\ revs (authorizeToolCall t caller body h now b).1 = revs b).
  { intros. unfold authorizeToolCall, deny. repeat case_match; done. }
  unfold gateway.
  destruct (RequireAgent _) as [caller|]; [|done].
  destruct (negb _); [done|]. destruct (negb _); [by case_match|].
  destruct (q_body q) as [body|]; [|done]. destruct (FoldKeys.FoldedKeyCollision _); [done|].
  specialize (Ha caller body (scrub (q_header q))).
  destruct (authorizeToolCall _ _ _ _ _ _) as [b1 [r|[h' body']]]; done.
Qed.

Lemma llmProxy_frame up q now b :
  core (llmProxy up q now b).1 = core b /\ revs (llmProxy up q now b).1 = revs b.
Proof. unfold llmProxy. repeat case_match; done. Qed.

Lemma handleTools_frame p b :
  core (handleTools p b).1 = core b /\ revs (handleTools p b).1 = revs b.
Proof.
  unfold handleTools. destruct (requireLiveAgent p "tools" "" b) as [b1 [caller|]] eqn:E;
    by apply requireLiveAgent_inv in E as (Hc & Hr & _ & _).
Qed.

(** * What a successful mint request implies *)

Lemma handleRequest_ok p body now idb b b' t64 :
  handleRequest p body now idb b = (b', ROk t64) ->
  exists caller req idb' tok,
    p = Cert caller /\ caller <> "" /\ (caller ∉ b_revoked b) /\ body = Some req /\ idb = Some idb'
    /\ is_Some (Rules.MayObtainRule (b_rules b) caller (request_bound req caller) (cr_Tool req)
                  (coerced_op b (cr_Tool req) (cr_Op req)))
    /\ Registry.ValidateConstraints (b_reg b) (cr_Tool req) (coerced_op b (cr_Tool req) (cr_Op req))
         (cr_Constraints req) = Ok tt
    /\ Token.Mint (b_priv b) (request_grant b req caller now) (Some idb') = Ok tok
    /\ t64 = b64_encode tok.
Proof.
  unfold handleRequest. intros E.
  destruct (requireLiveAgent p "request" "" b) as [b1 [caller|]] eqn:El; [|done].
  apply requireLiveAgent_inv in El as (_ & _ & _ & -> & -> & Hne & Hlive).
  destruct body as [req|]; [|done].
  destruct (Rules.MayObtainRule _ _ _ _ _) as [rule|] eqn:Em; [|done].
  destruct (negb _); [done|].
  destruct (Registry.ValidateConstraints _ _ _ _) as [[]|] eqn:Ev; [|done].
  destruct (Token.Mint _ _ _) as [tok|] eqn:Et; [|done].
  assert (Hi : exists i, idb = Some i).
  { destruct idb as [i|]; [by eauto|]. unfold Token.Mint in Et. by repeat case_match. }
  destruct Hi as [i ->].
  exists caller, req, i, tok. split_and!; try done.
  case_bool_decide; [by simplify_eq | by case_match; simplify_eq].
Qed.

(** * The system *)

(** One mint: who asked, the token id's randomness, and the grant signed. *)
Record mint := MkMint {
  m_requester : string;
  m_idb : bytes;
  m_grant : Token.Grant
}.

Record sys := MkSys { s_b : Broker; s_minted : list mint }.

(** What can happen. A restart keeps the policy and the keys, reads the
    revocation file, and builds the registry from the configuration anew. *)
Inductive event :=
| EvRequest (p : peer) (body : option CapRequest) (now : Time) (idb : option bytes)
| EvRegister (body : option RegisterRequest)
| EvTools (p : peer)
| EvCall (name : string) (t : Registry.Tool) (target : URL) (q : HttpReq) (now : Time)
| EvLLM (upstream : URL) (q : HttpReq) (now : Time)
| EvBump (wrote : bool)
| EvRevoke (body : option string) (wrote : bool)
| EvRestart (reg : Registry.registry).

(** The mint of a request the broker answered with a token. *)
Definition mint_of (p : peer) (body : option CapRequest) (now : Time) (idb : option bytes) (b : Broker)
    : list mint :=
  match handleRequest p body now idb b, p, body, idb with
  | (_, ROk _), Cert caller, Some req, Some i => [MkMint caller i (request_grant b req caller now)]
  | _, _, _, _ => []
  end.

Definition exec (s : sys) (e : event) : sys :=
  let b := s_b s in
  match e with
  | EvRequest p body now idb => MkSys (handleRequest p body now idb b).1 (mint_of p body now idb b ++ s_minted s)
  | EvRegister body => MkSys (handleRegister body b).1 (s_minted s)
  | EvTools p => MkSys (handleTools p b).1 (s_minted s)
  | EvCall name t target q now => MkSys (gateway name t target q now b).1 (s_minted s)
  | EvLLM up q now => MkSys (llmProxy up q now b).1 (s_minted s)
  | EvBump wrote => MkSys (handleBumpEpoch wrote b).1 (s_minted s)
  | EvRevoke body wrote => MkSys (handleRevoke body wrote b).1 (s_minted s)
  | EvRestart reg => MkSys (restore (b_disk b) (set_reg reg b)) (s_minted s)
  end.

Definition run (s : sys) (es : list event) : sys := foldl exec s es.

(** Strings that came through a JSON decoder or a certificate are UTF-8, and the
    clock is within the years [UnixNano] covers. *)
Definition request_utf8 (req : CapRequest) : Prop :=
  Token.utf8 (cr_Tool req) /\ Token.utf8 (cr_Op req) /\ Token.utf8 (cr_BoundTo req)
  /\ forall k v, cr_Constraints req !! k = Some v -> Token.utf8 k /\ Token.utf8 v.

Definition event_ok (s : sys) (e : event) : Prop :=
  match e with
  | EvRequest p body now idb =>
    (forall cn, p = Cert cn -> Token.utf8 cn) /\ (forall req, body = Some req -> request_utf8 req)
    /\ unix_range (Add now (b_grantTTL (s_b s)))
  | EvBump _ => b_minEpoch (s_b s) < max_int64
  | _ => True
  end.

(** A change of the revocation state reaches the disk. *)
Definition durable (s : sys) (e : event) : Prop :=
  match e with
  | EvBump wrote | EvRevoke _ wrote => wrote = true /\ b_persist (s_b s) = true
  | _ => True
  end.

Inductive reachable (b0 : Broker) : sys -> Prop :=
| reach_init : reachable b0 (MkSys b0 [])
| reach_step s e : reachable b0 s -> event_ok s e -> reachable b0 (exec s e).

(** A boot state: the published key is the signing key's, the floor an [int]. *)
Definition boot_ok (b0 : Broker) : Prop :=
  b_pub b0 = Token.PublicOf (b_priv b0) /\ int64_range (b_minEpoch b0) /\ int64_range (MinEpoch (b_disk b0)).

(** The payload bytes a mint signed. *)
Definition signed_bytes (r : mint) : option bytes :=
  Token.marshal_payload (Token.mint_payload (m_idb r) (m_grant r)).

(** The signature scheme was not forged for this token: if its signature
    verifies under the broker's key, the broker signed its payload. *)
Definition unforged (s : sys) (tok : bytes) : Prop :=
  forall env pl, Token.parse tok = Ok (env, pl) ->
    Token.SigVerify (b_pub (s_b s)) (Token.e_Payload env) (Token.e_Sig env) = true ->
    exists r, r ∈ s_minted s /\ signed_bytes r = Some (Token.e_Payload env).

(** * The invariant *)

(** A mint the policy allows and whose payload JSON carries. *)
Definition mint_ok (p : Rules.Policy) (r : mint) : Prop :=
  let g := m_grant r in
  is_Some (Rules.MayObtainRule p (m_requester r) (Token.g_Agent g)
             (Token.Tool (Token.g_Capability g)) (Token.Operation (Token.g_Capability g)))
  /\ unix_range (Token.g_Expiry g)
  /\ Token.payload_wf (Token.mint_payload (m_idb r) g).

Record inv (b0 : Broker) (s : sys) : Prop := MkInv {
  inv_core : core (s_b s) = core b0;
  inv_epoch : int64_range (b_minEpoch (s_b s)) /\ int64_range (MinEpoch (b_disk (s_b s)));
  inv_minted : Forall (mint_ok (b_rules b0)) (s_minted s)
}.

Lemma request_payload_wf b req caller now idb :
  Token.utf8 caller -> request_utf8 req -> int64_range (b_minEpoch b) ->
  Token.payload_wf (Token.mint_payload idb (request_grant b req caller now)).
Proof.
  intros Hc (Ht & Ho & Hb & Hcs) He. unfold Token.payload_wf, request_grant. simpl. split_and!.
  - apply Token.utf8_ascii, Token.hex_encode_shape.
  - unfold request_bound. by case_match.
  - done.
  - unfold coerced_op. case_match; [by apply Token.utf8_ascii | done].
  - unfold request_constraints. apply Forall_fmap, Forall_forall. intros [k v] Hin. simpl.
    apply Hcs. by apply elem_of_map_to_list.
  - apply wrap64_range.
  - done.
Qed.

Lemma mint_of_ok p body now idb s :
  event_ok s (EvRequest p body now idb) -> int64_range (b_minEpoch (s_b s)) ->
  Forall (mint_ok (b_rules (s_b s))) (mint_of p body now idb (s_b s)).
Proof.
  intros (Hcn & Hreq & Hu) He. unfold mint_of.
  destruct (handleRequest p body now idb (s_b s)) as [b' [t64| | |]] eqn:E; try done.
  apply handleRequest_ok in E as (caller & req & i & tok & -> & _ & _ & -> & -> & Hm & _).
  constructor; [|done]. split_and!; [done..|].
  apply request_payload_wf; auto.
Qed.

Lemma core_rules b b' : core b = core b' ->
  b_rules b = b_rules b' /\ b_pub b = b_pub b' /\ b_priv b = b_priv b'
  /\ b_grantTTL b = b_grantTTL b' /\ b_persist b = b_persist b'.
Proof. unfold core. intros E. by simplify_eq. Qed.

Lemma revs_eq b b' : revs b = revs b' ->
  b_minEpoch b = b_minEpoch b' /\ b_revoked b = b_revoked b' /\ b_disk b = b_disk b'.
Proof. unfold revs. intros E. by simplify_eq. Qed.

Lemma persist_frame w b :
  core (persistLocked w b) = core b /\ b_minEpoch (persistLocked w b) = b_minEpoch b
  /\ b_revoked (persistLocked w b) = b_revoked b
  /\ (b_disk (persistLocked w b) = b_disk b
      \/ b_disk (persistLocked w b) = MkRevocationState (b_minEpoch b) (elements (b_revoked b))).
Proof. unfold persistLocked. case_match; split_and!; try done; [by right | by left]. Qed.

Lemma exec_frame s e :
  core (s_b (exec s e)) = core (s_b s)
  /\ match e with
     | EvBump _ | EvRevoke _ _ | EvRestart _ => True
     | _ => revs (s_b (exec s e)) = revs (s_b s)
     end.
Proof.
  destruct e; simpl;
    [ apply handleRequest_frame | apply handleRegister_frame | apply handleTools_frame
    | apply gateway_frame | apply llmProxy_frame | .. ]; split; try done.
  - apply (persist_frame wrote (set_rev _ _ _ _)).
  - unfold handleRevoke. repeat case_match; try done. apply (persist_frame wrote (set_rev _ _ _ _)).
Qed.

Lemma exec_epochs s e :
  int64_range (b_minEpoch (s_b s)) /\ int64_range (MinEpoch (b_disk (s_b s))) ->
  int64_range (b_minEpoch (s_b (exec s e))) /\ int64_range (MinEpoch (b_disk (s_b (exec s e)))).
Proof.
  intros [Hr1 Hr2]. pose proof (exec_frame s e) as [_ Hf].
  destruct e as [| | | | |w|body w|]; try by (destruct (revs_eq _ _ Hf) as (-> & _ & ->)).
  - simpl. unfold BumpEpoch.
    destruct (persist_frame w (set_rev (wrap64 (b_minEpoch (s_b s) + 1)) (b_revoked (s_b s)) (b_disk (s_b s)) (s_b s)))
      as (_ & -> & _ & [->| ->]); simpl; split; auto using wrap64_range.
  - simpl. unfold handleRevoke. repeat case_match; try done. simpl. unfold Revoke.
    destruct (persist_frame w (set_rev (b_minEpoch (s_b s)) ({[s0]} ∪ b_revoked (s_b s)) (b_disk (s_b s)) (s_b s)))
      as (_ & -> & _ & [->| ->]); simpl; done.
  - done.
Qed.

Lemma exec_inv b0 s e : inv b0 s -> event_ok s e -> inv b0 (exec s e).
Proof.
  intros [Hc He Hm] Hok. destruct (exec_frame s e) as [Hc' _].
  split; [by rewrite Hc' | by apply exec_epochs |].
  destruct e; try done. simpl. apply Forall_app. split; [|done].
  destruct (core_rules _ _ Hc) as [<- _]. by apply mint_of_ok; [|apply He].
Qed.

Lemma reachable_inv b0 s : boot_ok b0 -> reachable b0 s -> inv b0 s.
Proof.
  intros (Hp & He & Hd). induction 1 as [|s e _ IH Hok]; [by split | by apply exec_inv].
Qed.

(** * From an accepted token to the mint behind it *)

(** A mint grants a call: it is bound to the caller, for the tool and operation,
    the policy allowed it, the parameters meet its constraints, and it is
    neither expired nor below the epoch floor. *)
Definition mint_covers (p : Rules.Policy) (r : mint) (caller tool op : string)
    (params : string -> option string) (now : Time) (floor : Z) : Prop :=
  let g := m_grant r in
  Token.g_Agent g = caller
  /\ Token.g_Capability g = Token.MkCapability tool op
  /\ is_Some (Rules.MayObtainRule p (m_requester r) caller tool op)
  /\ Forall (fun c => params (Token.Key c) = Some (Token.Value c)) (Token.g_Constraints g)
  /\ now < Token.g_Expiry g
  /\ floor <= Token.g_Epoch g.

Lemma verified_mint b0 s tok r :
  boot_ok b0 -> reachable b0 s -> unforged s tok ->
  Token.Verify (b_pub (s_b s)) tok r = Ok tt ->
  exists m, m ∈ s_minted s
    /\ mint_covers (b_rules b0) m (Token.r_Caller r) (Token.Tool (Token.r_Capability r))
         (Token.Operation (Token.r_Capability r)) (fun k => Token.r_Params r !! k) (Token.r_Now r) (Token.r_MinEpoch r).
Proof.
  intros Hb Hr Hu (_ & _ & env & pl & Ep & Es & Ha)%Token.Verify_ok.
  destruct (Hu env pl Ep Es) as (m & Hm & Hs). exists m. split; [done|].
  destruct (reachable_inv b0 s Hb Hr) as [_ _ Hall].
  rewrite Forall_forall in Hall. destruct (Hall m Hm) as (Hmay & Hux & Hwf).
  destruct (Token.payload_round _ Hwf) as (pb & E1 & E2).
  unfold signed_bytes in Hs. rewrite E1 in Hs. injection Hs as ->.
  assert (pl = Token.mint_payload (m_idb m) (m_grant m)) as ->.
  { unfold Token.parse in Ep. repeat case_match; simplify_eq. done. }
  destruct Ha as (Hc & Ht & Ho & Hcs & Hx & Hm'). simpl in *.
  rewrite UnixTime_UnixNano in Hx by done.
  unfold mint_covers. rewrite Ht, Ho, Hc. destruct (Token.g_Capability (m_grant m)) eqn:Eg.
  split_and!; try done.
Qed.

(** * Revocation over time *)

(** The disk holds the revocation state in memory. *)
Definition in_sync (b : Broker) : Prop :=
  MinEpoch (b_disk b) = b_minEpoch b /\ list_to_set (Revoked (b_disk b)) = b_revoked b.

(** A run whose events are well formed and whose revocation changes reach the
    disk. *)
Fixpoint run_ok (s : sys) (es : list event) : Prop :=
  match es with
  | [] => True
  | e :: es' => event_ok s e /\ durable s e /\ run_ok (exec s e) es'
  end.

Lemma persist_sync b :
  b_persist b = true -> in_sync (persistLocked true b) /\ revs (persistLocked true b)
    = (b_minEpoch b, b_revoked b, MkRevocationState (b_minEpoch b) (elements (b_revoked b))).
Proof.
  intros Hp. unfold persistLocked. rewrite Hp. simpl. split; [|done].
  split; simpl; [done | apply list_to_set_elements_L].
Qed.

Lemma exec_mono s e :
  event_ok s e -> durable s e -> int64_range (b_minEpoch (s_b s)) -> in_sync (s_b s) ->
  in_sync (s_b (exec s e)) /\ b_revoked (s_b s) ⊆ b_revoked (s_b (exec s e))
  /\ b_minEpoch (s_b s) <= b_minEpoch (s_b (exec s e))
  /\ (forall w, e = EvBump w -> b_minEpoch (s_b s) < b_minEpoch (s_b (exec s e))).
Proof.
  intros Hok Hd Hr Hs. pose proof (exec_frame s e) as [_ Hf].
  destruct e as [| | | | |w|body w|];
    try (destruct (revs_eq _ _ Hf) as (E1 & E2 & E3); unfold in_sync; rewrite E1, E2, E3;
         destruct Hs; split_and!; done || lia).
  - destruct Hd as [-> Hp]. simpl in *. unfold BumpEpoch.
    set (b1 := set_rev _ _ _ _). destruct (persist_sync b1 Hp) as [Hsy Hre].
    apply (revs_eq _ (set_rev (b_minEpoch b1) (b_revoked b1) (MkRevocationState _ _) b1)) in Hre
      as (Ee & Er & _). simpl in Ee, Er.
    assert (b_minEpoch (persistLocked true b1) = b_minEpoch (s_b s) + 1) as Ee'.
    { rewrite Ee. apply wrap64_id. unfold int64_range, max_int64 in *. lia. }
    split; [exact Hsy|]. simpl. rewrite Er, Ee'. split_and!; [done | lia | intros; lia].
  - destruct Hd as [-> Hp]. simpl. unfold handleRevoke.
    repeat case_match; try (destruct Hs; split_and!; done || lia). simpl. unfold Revoke.
    set (b1 := set_rev _ _ _ _). destruct (persist_sync b1 Hp) as [Hsy Hre].
    apply (revs_eq _ (set_rev (b_minEpoch b1) (b_revoked b1) (MkRevocationState _ _) b1)) in Hre
      as (Ee & Er & _). simpl in Ee, Er.
    split; [exact Hsy|]. rewrite Er, Ee. split_and!; [set_solver | lia | done].
  - destruct Hs as [Hs1 Hs2]. simpl. unfold in_sync. simpl. rewrite Hs1, Hs2.
    split_and!; [done | done | done | lia | done].
Qed.

Lemma run_mono es : forall s,
  run_ok s es -> int64_range (b_minEpoch (s_b s)) /\ int64_range (MinEpoch (b_disk (s_b s))) ->
  in_sync (s_b s) ->
  in_sync (s_b (run s es)) /\ b_revoked (s_b s) ⊆ b_revoked (s_b (run s es))
  /\ b_minEpoch (s_b s) <= b_minEpoch (s_b (run s es)).
Proof.
  induction es as [|e es IH]; intros s Hok Hr Hs; simpl; [split_and!; [done.. | lia]|].
  destruct Hok as (Hok & Hd & Hrest).
  destruct (exec_mono s e Hok Hd (proj1 Hr) Hs) as (Hs' & Hrev & Hep & _).
  destruct (IH (exec s e) Hrest (exec_epochs s e Hr) Hs') as (H1' & H2' & H3').
  split_and!; [done | set_solver | lia].
Qed.

Lemma run_reachable b0 es : forall s, reachable b0 s -> run_ok s es -> reachable b0 (run s es).
Proof.
  induction es as [|e es IH]; intros s Hr Hok; simpl; [done|].
  destruct Hok as (Hok & _ & Hrest). apply IH; [by apply reach_step | done].
Qed.

(** Mints never carry an epoch above the floor they were made under. *)
Lemma minted_epochs es : forall s,
  run_ok s es -> int64_range (b_minEpoch (s_b s)) /\ int64_range (MinEpoch (b_disk (s_b s))) ->
  in_sync (s_b s) ->
  Forall (fun r => Token.g_Epoch (m_grant r) <= b_minEpoch (s_b s)) (s_minted s) ->
  Forall (fun r => Token.g_Epoch (m_grant r) <= b_minEpoch (s_b (run s es))) (s_minted (run s es)).
Proof.
  induction es as [|e es IH]; intros s Hok Hr Hs Hall; simpl; [done|].
  destruct Hok as (Hok & Hd & Hrest).
  destruct (exec_mono s e Hok Hd (proj1 Hr) Hs) as (Hs' & _ & Hep & _).
  apply IH; [done | by apply exec_epochs | done |].
  assert (Hold : Forall (fun r => Token.g_Epoch (m_grant r) <= b_minEpoch (s_b (exec s e))) (s_minted s)).
  { eapply Forall_impl; [done | simpl; lia]. }
  destruct e; try done. simpl in *. apply Forall_app. split; [|done].
  unfold mint_of. repeat case_match; try done. constructor; [|done]. exact Hep.
Qed.

(** A revoked agent's requests, as the broker answers them. *)
Lemma revoked_refused b agent :
  agent ∈ b_revoked b ->
  (forall body now idb, (handleRequest (Cert agent) body now idb b).2 = forbidden)
  /\ (handleTools (Cert agent) b).2 = forbidden
  /\ (forall up q now b' o, q_peer q = Cert agent -> llmProxy up q now b <> (b', Forward o))
  /\ (forall name t target q now b' o m, q_peer q = Cert agent ->
        q_body q ≫= Mcp.Parse = Some ("tools/call", m) ->
        gateway name t target q now b <> (b', Forward o)).
Proof.
  intros Hrev.
  assert (Hl : forall op, (requireLiveAgent (Cert agent) op "" b).2 = None).
  { intros op. unfold requireLiveAgent, isRevoked. case_match; [|done].
    assert (a = agent) as -> by (unfold RequireAgent in *; by case_match; simplify_eq).
    by rewrite bool_decide_eq_true_2. }
  split_and!.
  - intros. unfold handleRequest. specialize (Hl "request").
    by destruct (requireLiveAgent _ _ _ _) as [b1 [c|]].
  - unfold handleTools. specialize (Hl "tools"). by destruct (requireLiveAgent _ _ _ _) as [b1 [c|]].
  - intros up q now b' o Hq E. unfold llmProxy in E. rewrite Hq in E.
    unfold RequireAgent in E. destruct (is_empty agent); [done|].
    destruct (bearerToken _); [|done]. unfold isRevoked in E. by rewrite bool_decide_eq_true_2 in E.
  - intros name t target q now b' o m Hq Hb
      (caller & body & h' & body' & Hp & _ & _ & _ & Ebody & _ & Ha & _)%gateway_forward_inv.
    rewrite Hq in Hp. injection Hp as <-. rewrite Ebody in Hb. simpl in Hb.
    apply authorize_pass in Ha as [(m' & method & Ep & Hf & _)|[[] _]]; [|done].
    rewrite Hb in Ep. injection Ep as <- _. unfold free_method in Hf. set_solver.
Qed.

(** * Presented tokens *)

(** The token a gateway request presents. *)
Definition presented (q : HttpReq) : option bytes :=
  body ← q_body q; '(_, m) ← Mcp.Parse body; '(_, _, cap) ← Mcp.ToolsCall m; b64_decode cap.

(** The message of a gateway request and its method. *)
Definition message (q : HttpReq) : option (string * gmap string any) :=
  body ← q_body q; Mcp.Parse body.

(** What a forwarded [tools/call] rests on. *)
Definition call_backed (p : Rules.Policy) (s : sys) (t : Registry.Tool) (m : gmap string any) (caller : string)
    (now : Time) : Prop :=
  exists op args cap rt ro mt,
    Mcp.ToolsCall m = Some (op, args, cap)
    /\ b_reg (s_b s) !! Registry.Name t = Some rt
    /\ Registry.Operations rt !! requiredOp t op = Some ro
    /\ (caller ∉ b_revoked (s_b s))
    /\ mt ∈ s_minted s
    /\ mint_covers p mt caller (Registry.Name t) (requiredOp t op)
         (Mcp.param_of args (Registry.CaveatParam ro)) now (b_minEpoch (s_b s)).

(** C1: in every reachable state, a request the gateway forwards to a tool is a
    capability-free MCP method or a [tools/call] by a live agent that is backed
    by a mint: an earlier request the policy allowed, bound to this caller, this
    tool and operation, whose constraints the arguments the tool reads satisfy,
    not expired and not below the epoch floor. *)
Theorem forwarded_call_is_backed b0 s name t target q now b' o :
  boot_ok b0 -> reachable b0 s ->
  (forall tok, presented q = Some tok -> unforged s tok) ->
  gateway name t target q now (s_b s) = (b', Forward o) ->
  exists caller method m, q_peer q = Cert caller /\ message q = Some (method, m)
    /\ (free_method method \/ (method = "tools/call" /\ call_backed (b_rules b0) s t m caller now)).
Proof.
  intros Hb Hr Hu (caller & body & h' & body' & Hp & _ & _ & _ & Eb & _ & Ha & _)%gateway_forward_inv.
  apply authorize_pass in Ha as [(m & method & Ep & Hf & _)|[c _]];
    exists caller; [exists method, m | exists "tools/call", (cg_msg _ _ _ _ _ c)]; unfold message; rewrite Eb; simpl.
  { by split_and!; [| |left]. }
  destruct c as [m op args cap tok params Epa Ec Ed Em Hl Hv]. simpl.
  split; [done|]. split; [done|]. right. split; [done|].
  apply Registry.MapParams_ok in Em as (rt & ro & Et & Eo & Epm).
  assert (Hpr : presented q = Some tok) by (unfold presented; by rewrite Eb; simpl; rewrite Epa; simpl; rewrite Ec).
  destruct (verified_mint b0 s tok _ Hb Hr (Hu tok Hpr) Hv) as (mt & Hm & H1' & H2' & H3' & H4' & H5' & H6').
  exists op, args, cap, rt, ro, mt. unfold mint_covers. split_and!; try done.
  eapply Forall_impl; [exact H4'|]. simpl. intros x. by rewrite Epm.
Qed.

(** A request the LLM proxy forwards comes from a live agent and rests on a
    policy-allowed [llm.generate] mint bound to it; it names an allowlisted
    method and path, and upstream sees the broker's own API key and no
    Authorization header. *)
Theorem forwarded_llm_is_backed b0 s up q now b' o :
  boot_ok b0 -> reachable b0 s ->
  (forall tok, bearerToken (q_header q) = Some tok -> unforged s tok) ->
  llmProxy up q now (s_b s) = (b', Forward o) ->
  exists caller mt, q_peer q = Cert caller /\ (caller ∉ b_revoked (s_b s)) /\ mt ∈ s_minted s
    /\ mint_covers (b_rules b0) mt caller Registry.ReservedLLMTool Registry.ReservedLLMOp
         (fun _ => None) now (b_minEpoch (s_b s))
    /\ llmPathAllowed (q_method q) (q_escaped q) = true
    /\ o_header o !! "Authorization" = None
    /\ o_header o !! "X-Api-Key" = Some [b_apiKey (s_b s)].
Proof.
  intros Hb Hr Hu E. unfold llmProxy in E.
  destruct (RequireAgent _) as [caller|] eqn:Ea; [|done].
  destruct (bearerToken _) as [raw|] eqn:Et; [|done].
  destruct (isRevoked _ _) eqn:Er; [done|]. destruct (Token.Verify _ _ _) as [[]|] eqn:Ev; [|done].
  destruct (negb _) eqn:Epa; [done|]. injection E as _ <-. unfold isRevoked in Er. guards.
  destruct (verified_mint b0 s raw _ Hb Hr (Hu raw eq_refl) Ev) as (mt & Hm & Hc).
  assert (q_peer q = Cert caller) as ->.
  { unfold RequireAgent in Ea. destruct (q_peer q); try done. destruct (is_empty cn); [done|]. by injection Ea as ->. }
  exists caller, mt. split_and!; try done.
  - simpl. unfold llm_rewrite, hset. case_match; rewrite ?lookup_insert_ne by done;
      rewrite lookup_delete_ne, lookup_delete_eq by done; done.
  - simpl. unfold llm_rewrite, hset. case_match; rewrite ?lookup_insert_ne by done; by rewrite lookup_insert_eq.
Qed.

(** ** Runs from boot *)

(** The broker at boot: nothing minted, the revocation state as loaded. *)
Definition boot (b0 : Broker) : sys := MkSys b0 [].

Lemma run_app s es1 es2 : run s (es1 ++ es2) = run (run s es1) es2.
Proof. apply foldl_app. Qed.

Lemma run_ok_app es1 es2 : forall s, run_ok s (es1 ++ es2) <-> run_ok s es1 /\ run_ok (run s es1) es2.
Proof. induction es1 as [|e es1 IH]; intros s; simpl; [naive_solver|]. rewrite IH. naive_solver. Qed.

(** What holds of a state on the way of a run. *)
Record steady (s : sys) : Prop := MkSteady {
  st_epochs : int64_range (b_minEpoch (s_b s)) /\ int64_range (MinEpoch (b_disk (s_b s)));
  st_sync : in_sync (s_b s);
  st_minted : Forall (fun r => Token.g_Epoch (m_grant r) <= b_minEpoch (s_b s)) (s_minted s)
}.

Lemma run_steady s es : steady s -> run_ok s es -> steady (run s es).
Proof.
  intros [He Hs Hm] Hok. split.
  - clear Hs Hm. revert s He Hok. induction es as [|e es IH]; intros s He Hok; simpl; [done|].
    destruct Hok as (_ & _ & Hok). apply IH; [by apply exec_epochs | done].
  - by apply run_mono.
  - by apply minted_epochs.
Qed.

Lemma boot_steady b0 : boot_ok b0 -> in_sync b0 -> steady (boot b0).
Proof. intros (_ & H1' & H2') Hs. by split. Qed.

(** ** What a revocation and a bump leave for good

    A change made at an event holds as long as its own write reached the disk,
    whatever later writes do, or as long as no restart reads the disk again. *)
Definition is_restart (e : event) : bool := match e with EvRestart _ => true | _ => false end.
Definition lasting (b0 : Broker) (wrote : bool) (es : list event) : Prop :=
  (wrote = true /\ b_persist b0 = true) \/ Forall (fun e => is_restart e = false) es.

Lemma run_persist s es : b_persist (s_b (run s es)) = b_persist (s_b s).
Proof.
  revert s. induction es as [|e es IH]; intros s; [done|]. simpl. rewrite IH.
  destruct (exec_frame s e) as [Hc _]. by destruct (core_rules _ _ Hc) as (_ & _ & _ & _ & ->).
Qed.

(** An event changes the revocation state as a bump, a revocation or a restart
    does, or not at all. *)
Lemma exec_revs s e :
  revs (s_b (exec s e)) = revs (s_b s)
  \/ (exists wrote, e = EvBump wrote /\ revs (s_b (exec s e)) = revs (BumpEpoch wrote (s_b s)))
  \/ (exists agent wrote, revs (s_b (exec s e)) = revs (Revoke agent wrote (s_b s)))
  \/ (is_restart e = true /\ revs (s_b (exec s e)) = (MinEpoch (b_disk (s_b s)), list_to_set (Revoked (b_disk (s_b s))), b_disk (s_b s))).
Proof.
  pose proof (exec_frame s e) as [_ Hf]. destruct e as [| | | | |w|body w|]; try by left.
  - right; left. by exists w.
  - simpl. unfold handleRevoke. destruct body as [agent|]; [|by left]. destruct (is_empty agent); [by left|].
    right; right; left. by exists agent, w.
  - right; right; right. done.
Qed.

Lemma persist_revs wrote b : revs (persistLocked wrote b)
  = (b_minEpoch b, b_revoked b, if b_persist b && wrote then MkRevocationState (b_minEpoch b) (elements (b_revoked b)) else b_disk b).
Proof. unfold persistLocked. by destruct (_ && _). Qed.

Lemma revs_parts b x y z : revs b = (x, y, z) -> b_minEpoch b = x /\ b_revoked b = y /\ b_disk b = z.
Proof. unfold revs. intros E. by simplify_eq. Qed.

Definition revoked_for_good (agent : string) (disk : bool) (b : Broker) : Prop :=
  agent ∈ b_revoked b /\ (disk = true -> agent ∈ Revoked (b_disk b)).

Lemma revoked_step agent disk s e : disk = true \/ is_restart e = false ->
  revoked_for_good agent disk (s_b s) -> revoked_for_good agent disk (s_b (exec s e)).
Proof.
  intros Hd [Hm Hs]. unfold revoked_for_good. destruct (exec_revs s e) as [E|[(w & _ & E)|[(a & w & E)|[Er E]]]].
  - destruct (revs_eq _ _ E) as (_ & -> & ->). done.
  - unfold BumpEpoch in E. rewrite persist_revs in E. apply revs_parts in E as (_ & E2 & E3). rewrite E2, E3. simpl.
    split; [done|]. intros Hd'. destruct (_ && _); simpl; [by apply elem_of_elements|by apply Hs].
  - unfold Revoke in E. rewrite persist_revs in E. apply revs_parts in E as (_ & E2 & E3). rewrite E2, E3. simpl.
    split; [set_solver|]. intros Hd'. destruct (_ && _); simpl; [apply elem_of_elements; set_solver|by apply Hs].
  - apply revs_parts in E as (_ & E2 & E3). rewrite E2, E3. destruct Hd as [Hd|Hd]; [|congruence].
    split; [apply elem_of_list_to_set|]; auto.
Qed.

(** The floor is above [n], and so is the one on the disk. *)
Definition cut_for_good (n : Z) (disk : bool) (b : Broker) : Prop :=
  n < b_minEpoch b /\ (disk = true -> n < MinEpoch (b_disk b)).

Lemma cut_step n disk s e : disk = true \/ is_restart e = false -> event_ok s e ->
  int64_range (b_minEpoch (s_b s)) -> cut_for_good n disk (s_b s) -> cut_for_good n disk (s_b (exec s e)).
Proof.
  intros Hd Hok Hr [Hm Hs]. unfold cut_for_good. destruct (exec_revs s e) as [E|[(w & -> & E)|[(a & w & E)|[Er E]]]].
  - destruct (revs_eq _ _ E) as (-> & _ & ->). done.
  - assert (Ew : wrap64 (b_minEpoch (s_b s) + 1) = b_minEpoch (s_b s) + 1) by (apply wrap64_id; simpl in Hok; unfold int64_range, max_int64 in *; lia).
    unfold BumpEpoch in E. rewrite persist_revs in E. apply revs_parts in E as (E1 & _ & E3). rewrite E1, E3. simpl. rewrite Ew.
    split; [lia|]. intros Hd'. destruct (_ && _); simpl; [lia|by apply Hs].
  - unfold Revoke in E. rewrite persist_revs in E. apply revs_parts in E as (E1 & _ & E3). rewrite E1, E3. simpl.
    split; [lia|]. intros Hd'. destruct (_ && _); simpl; [lia|by apply Hs].
  - apply revs_parts in E as (E1 & _ & E3). rewrite E1, E3. destruct Hd as [Hd|Hd]; [|congruence]. auto.
Qed.

(** Each event of the run meets what it meets: the floor has room for a bump. *)
Fixpoint run_fits (s : sys) (es : list event) : Prop :=
  match es with [] => True | e :: es' => event_ok s e /\ run_fits (exec s e) es' end.

Lemma revoked_run agent disk es : forall s, disk = true \/ Forall (fun e => is_restart e = false) es ->
  revoked_for_good agent disk (s_b s) -> revoked_for_good agent disk (s_b (run s es)).
Proof.
  induction es as [|e es IH]; intros s Hd Hs; [done|]. simpl. rewrite Forall_cons in Hd. apply IH; [naive_solver|].
  apply revoked_step; naive_solver.
Qed.
Lemma cut_run n disk es : forall s, disk = true \/ Forall (fun e => is_restart e = false) es -> run_fits s es ->
  int64_range (b_minEpoch (s_b s)) /\ int64_range (MinEpoch (b_disk (s_b s))) ->
  cut_for_good n disk (s_b s) -> cut_for_good n disk (s_b (run s es)).
Proof.
  induction es as [|e es IH]; intros s Hd Hf Hr Hs; [done|]. destruct Hf as [Hok Hf]. simpl. rewrite Forall_cons in Hd.
  apply IH; [naive_solver|done|by apply exec_epochs|]. apply cut_step; [naive_solver|done|apply Hr|done].
Qed.

Lemma revoke_sets b0 s agent wrote es : agent <> "" -> b_persist (s_b s) = b_persist b0 -> lasting b0 wrote es ->
  exists disk, (disk = true \/ Forall (fun e => is_restart e = false) es) /\ revoked_for_good agent disk (s_b (exec s (EvRevoke (Some agent) wrote))).
Proof.
  intros Hne Ep Hl. exists (b_persist b0 && wrote). split; [destruct Hl as [[-> ->]|]; auto|].
  simpl. rewrite (proj2 (is_empty_false _) Hne). unfold revoked_for_good, Revoke. simpl.
  destruct (revs_parts _ _ _ _ (persist_revs wrote (set_rev (b_minEpoch (s_b s)) ({[agent]} ∪ b_revoked (s_b s)) (b_disk (s_b s)) (s_b s)))) as (_ & -> & ->).
  simpl. rewrite Ep. split; [set_solver|]. intros ->. simpl. apply elem_of_elements. set_solver.
Qed.

Lemma bump_sets b0 s n wrote es : event_ok s (EvBump wrote) -> int64_range (b_minEpoch (s_b s)) -> n <= b_minEpoch (s_b s) ->
  b_persist (s_b s) = b_persist b0 -> lasting b0 wrote es ->
  exists disk, (disk = true \/ Forall (fun e => is_restart e = false) es) /\ cut_for_good n disk (s_b (exec s (EvBump wrote))).
Proof.
  intros Hok Hr Hn Ep Hl. exists (b_persist b0 && wrote). split; [destruct Hl as [[-> ->]|]; auto|].
  assert (Ew : wrap64 (b_minEpoch (s_b s) + 1) = b_minEpoch (s_b s) + 1) by (apply wrap64_id; simpl in Hok; unfold int64_range, max_int64 in *; lia).
  unfold cut_for_good. simpl. unfold BumpEpoch.
  destruct (revs_parts _ _ _ _ (persist_revs wrote (set_rev (wrap64 (b_minEpoch (s_b s) + 1)) (b_revoked (s_b s)) (b_disk (s_b s)) (s_b s)))) as (-> & _ & ->).
  simpl. rewrite Ep, Ew. split; [lia|]. intros ->. simpl. lia.
Qed.

(** C4: revocation is terminal. However the broker goes on after it revoked an
    agent, every mint request, catalog request, LLM request and [tools/call] of
    that agent is refused, whatever tokens it holds: across restarts when the
    revocation's own write reached the disk, whatever becomes of later writes;
    and until the next restart when it did not, for the broker only logs that. *)
Theorem revocation_is_terminal b0 es1 agent wrote es2 :
  agent <> "" -> lasting b0 wrote es2 ->
  let b := s_b (run (boot b0) (es1 ++ EvRevoke (Some agent) wrote :: es2)) in
  (forall body now idb, (handleRequest (Cert agent) body now idb b).2 = forbidden)
  /\ (handleTools (Cert agent) b).2 = forbidden
  /\ (forall up q now b' o, q_peer q = Cert agent -> llmProxy up q now b <> (b', Forward o))
  /\ (forall name t target q now b' o m, q_peer q = Cert agent ->
        message q = Some ("tools/call", m) -> gateway name t target q now b <> (b', Forward o)).
Proof.
  intros Hne Hl b. apply revoked_refused. subst b. rewrite run_app. simpl.
  destruct (revoke_sets b0 (run (boot b0) es1) agent wrote es2 Hne (run_persist (boot b0) es1) Hl) as (disk & Hd & Hs).
  exact (proj1 (revoked_run agent disk es2 _ Hd Hs)).
Qed.

(** A token below the floor does not verify. *)
Lemma stale_refused pub tok env idb g r :
  Token.parse tok = Ok (env, Token.mint_payload idb g) -> Token.g_Epoch g < Token.r_MinEpoch r ->
  Token.Verify pub tok r <> Ok tt.
Proof.
  intros Ep Hlt (_ & _ & env' & pl & Ep' & _ & _ & _ & _ & _ & _ & Hm)%Token.Verify_ok.
  rewrite Ep in Ep'. simplify_eq/=. lia.
Qed.

(** C5: an epoch bump cuts every token minted before it. However the broker goes
    on, a token carrying an earlier mint's claims opens neither the gateway nor
    the LLM proxy again: across restarts when the bump's own write reached the
    disk, and until the next restart when it did not. Before the bump, the changes
    of the revocation state had reached the disk, so that no restart had set the
    floor back; and the floor has room in an [int] for every bump. *)
Theorem bump_cuts_earlier_tokens b0 es1 wrote es2 mt tok env :
  boot_ok b0 -> in_sync b0 -> run_ok (boot b0) es1 -> lasting b0 wrote es2 ->
  run_fits (run (boot b0) es1) (EvBump wrote :: es2) ->
  mt ∈ s_minted (run (boot b0) es1) ->
  Token.parse tok = Ok (env, Token.mint_payload (m_idb mt) (m_grant mt)) ->
  let b := s_b (run (boot b0) (es1 ++ EvBump wrote :: es2)) in
  (forall name t target q now b' o m, message q = Some ("tools/call", m) -> presented q = Some tok ->
     gateway name t target q now b <> (b', Forward o))
  /\ (forall up q now b' o, bearerToken (q_header q) = Some tok -> llmProxy up q now b <> (b', Forward o)).
Proof.
  intros Hb Hs Hok Hl [Hoe Hfit] Hm Ep b.
  assert (Hst : steady (run (boot b0) es1)) by (apply run_steady; [by apply boot_steady|done]).
  pose proof (st_minted _ Hst) as Hall. rewrite Forall_forall in Hall. specialize (Hall mt Hm). simpl in Hall.
  destruct (bump_sets b0 (run (boot b0) es1) _ wrote es2 Hoe (proj1 (st_epochs _ Hst)) Hall (run_persist (boot b0) es1) Hl) as (disk & Hd & Hc).
  pose proof (proj1 (cut_run _ disk es2 _ Hd Hfit (exec_epochs _ _ (st_epochs _ Hst)) Hc)) as Hlt.
  assert (Er : b = s_b (run (exec (run (boot b0) es1) (EvBump wrote)) es2)) by (subst b; by rewrite run_app). rewrite <- Er in Hlt.
  split.
  - intros name t target q now b' o m Hmsg Hpr
      (caller & body & h' & body' & _ & _ & _ & _ & Eb & _ & Ha & _)%gateway_forward_inv.
    unfold message, presented in *. rewrite Eb in Hmsg, Hpr. simpl in *.
    apply authorize_pass in Ha as [(m' & method & Epa & Hf & _)|[c _]].
    { rewrite Hmsg in Epa. injection Epa as <- _. unfold free_method in Hf. set_solver. }
    destruct c as [m' op args cap tok' params Epa Ec Ed _ _ Hv].
    rewrite Epa in Hpr. simpl in Hpr. rewrite Ec in Hpr. simpl in Hpr. rewrite Ed in Hpr. injection Hpr as ->.
    by apply (stale_refused _ _ _ _ _ _ Ep) in Hv.
  - intros up q now b' o Ht E. unfold llmProxy in E. rewrite Ht in E.
    destruct (RequireAgent _); [|done]. destruct (isRevoked _ _); [done|].
    destruct (Token.Verify _ _ _) as [[]|] eqn:Hv; [|done].
    by apply (stale_refused _ _ _ _ _ _ Ep) in Hv.
Qed.

(** * Minting, exactly *)

(** What a mint request needs to be answered with a token. *)
Definition mintable (b : Broker) (req : CapRequest) (caller : string) : Prop :=
  let op := coerced_op b (cr_Tool req) (cr_Op req) in
  caller <> "" /\ (caller ∉ b_revoked b) /\ cr_Tool req <> "" /\ op <> ""
  /\ is_Some (Rules.MayObtainRule (b_rules b) caller (request_bound req caller) (cr_Tool req) op)
  /\ (exists t o, b_reg b !! cr_Tool req = Some t /\ Registry.Operations t !! op = Some o
       /\ Registry.constraints_ok t o (cr_Constraints req))
  /\ (cr_Constraints req = ∅ \/ is_Some (marshal_constraints (cr_Constraints req))).

Lemma request_grant_wf b req caller now :
  mintable b req caller -> Token.grant_wf (request_grant b req caller now).
Proof.
  intros (Hc & _ & Ht & Ho & _ & (t & o & _ & _ & Hcs) & _). unfold Token.grant_wf. simpl. split_and!; try done.
  - unfold request_bound. case_match eqn:E; by guards.
  - apply Forall_fmap, Forall_forall. intros [k v] Hin%elem_of_map_to_list. simpl. by apply (Hcs k v).
Qed.

Lemma live_agent caller op pre b :
  caller <> "" -> caller ∉ b_revoked b -> requireLiveAgent (Cert caller) op pre b = (b, Some caller).
Proof.
  intros Hc Hr. unfold requireLiveAgent, RequireAgent. rewrite (proj2 (is_empty_false _) Hc).
  unfold isRevoked. by rewrite bool_decide_eq_false_2.
Qed.

Lemma minted_mintable b req caller now idb b' t64 :
  handleRequest (Cert caller) (Some req) now (Some idb) b = (b', ROk t64) -> mintable b req caller.
Proof.
  intros Eh. pose proof Eh as Eh'.
  apply handleRequest_ok in Eh as (c & rq & i & tok & [= <-] & Hc & Hl & [= <-] & [= <-] & Hm & Hv & Ht & _).
  apply Token.Mint_ok in Ht as [(_ & Ht & Ho & _) _]. apply Registry.ValidateConstraints_ok in Hv.
  unfold mintable. split_and!; try done.
  destruct (decide (cr_Constraints req = ∅)) as [|Hne]; [by left|]. right.
  unfold handleRequest in Eh'. rewrite live_agent in Eh' by done.
  repeat case_match; simplify_eq; guards; try done.
Qed.

(** C6: a certificate holder's mint request is answered with a token exactly
    when the caller is live, the policy lets it obtain or delegate the (coerced)
    operation, the operation is registered and the constraints are within its
    declared parameters and allowed values; every other request gets no token.
    The identity, the request and the clock are within what JSON and [UnixNano]
    carry. *)
Theorem mint_exactly b req caller now idb :
  Token.utf8 caller -> request_utf8 req -> int64_range (b_minEpoch b) ->
  (exists t64, (handleRequest (Cert caller) (Some req) now (Some idb) b).2 = ROk t64)
  <-> mintable b req caller.
Proof.
  intros Hu Hq He. split.
  - intros [t64 E]. destruct (handleRequest _ _ _ _ _) as [b' r] eqn:Eh. simpl in E. subst r.
    by eapply minted_mintable.
  - intros Hm. pose proof (request_grant_wf b req caller now Hm) as Hg.
    destruct Hm as (Hc & Hl & Ht & Ho & [rule Hr] & Hv & Hcs).
    apply Registry.ValidateConstraints_ok in Hv. pose proof (Registry.ValidateConstraints_has _ _ _ _ Hv) as Hh.
    destruct (Token.Mint_total (b_priv b) _ idb Hg (request_payload_wf b req caller now idb Hu Hq He))
      as (tok & Em & _).
    unfold handleRequest. rewrite live_agent, Hr, Hh, Hv, Em by done. simpl negb. cbv iota.
    case_bool_decide; [by eauto|]. destruct Hcs as [?|[cj ->]]; [done | by eauto].
Qed.

(** * A minted token works *)

(** A gateway request that uses a token as it was granted: the bound agent calls
    the tool and operation, its arguments meet the constraints, before the
    expiry, and without an epoch bump or a revocation in between. *)
Record fits (b : Broker) (g : Token.Grant) (t64 : string) (name : string) (t : Registry.Tool) (q : HttpReq)
    (now : Time) (body : bytes) (m : gmap string any) : Prop := MkFits {
  fit_peer : q_peer q = Cert (Token.g_Agent g);
  fit_path : q_path q = "/mcp/" +:+ name +:+ "/";
  fit_post : q_method q = "POST";
  fit_body : q_body q = Some body;
  fit_fold : FoldKeys.FoldedKeyCollision body = false;
  fit_parse : Mcp.Parse body = Some ("tools/call", m);
  fit_call : exists op args params,
    Mcp.ToolsCall m = Some (op, args, t64)
    /\ Token.g_Capability g = Token.MkCapability (Registry.Name t) (requiredOp t op)
    /\ Registry.MapParams (b_reg b) (Registry.Name t) (requiredOp t op) args = Ok params
    /\ Forall (fun c => params !! Token.Key c = Some (Token.Value c)) (Token.g_Constraints g);
  fit_live : Token.g_Agent g ∉ b_revoked b;
  fit_clock : now <> zeroTime /\ now < Token.g_Expiry g;
  fit_epoch : b_minEpoch b <= Token.g_Epoch g
}.

Lemma authorize_granted t caller body h now b m op args cap tok params :
  Mcp.Parse body = Some ("tools/call", m) -> Mcp.ToolsCall m = Some (op, args, cap) -> cap <> "" ->
  b64_decode cap = Some tok ->
  Registry.MapParams (b_reg b) (Registry.Name t) (requiredOp t op) args = Ok params ->
  caller ∉ b_revoked b ->
  Token.Verify (b_pub b) tok (Token.MkRequest caller (Token.MkCapability (Registry.Name t) (requiredOp t op))
    params now (b_minEpoch b)) = Ok tt ->
  exists b' h', authorizeToolCall t caller body h now b
    = (b', inr (h', if Registry.FirstParty t then body else Mcp.StripCapability m)).
Proof.
  intros Ep Ec Hc Ed Em Hl Hv. unfold authorizeToolCall. rewrite Ep, str_eqb_refl, Ec, Ed, Em, Hv.
  rewrite (proj2 (is_empty_false _) Hc). unfold isRevoked. rewrite bool_decide_eq_false_2 by done.
  destruct (Registry.FirstParty t); by eauto.
Qed.

Lemma gateway_pass name t target q now b caller body b' h' body' :
  q_peer q = Cert caller -> caller <> "" -> q_path q = "/mcp/" +:+ name +:+ "/" -> q_method q = "POST" ->
  q_body q = Some body -> FoldKeys.FoldedKeyCollision body = false ->
  authorizeToolCall t caller body (scrub (q_header q)) now b = (b', inr (h', body')) ->
  exists o, gateway name t target q now b = (b', Forward o) /\ o_body o = body'.
Proof.
  intros Hp Hc Hpa Hm Hb Hf Ha. unfold gateway. rewrite Hp. unfold RequireAgent.
  rewrite (proj2 (is_empty_false _) Hc), Hpa, Hm, !str_eqb_refl, Hb, Hf, Ha. simpl. by eauto.
Qed.

(** C7: a token the broker minted opens the gateway for the call it was granted
    for. When the bound agent uses it as granted, the request is forwarded; a
    first-party tool gets the body as sent, another one without the token. *)
Theorem minted_token_works b req caller now idb b1 t64 b2 name t target q now2 body m :
  b_pub b2 = Token.PublicOf (b_priv b) ->
  handleRequest (Cert caller) (Some req) now (Some idb) b = (b1, ROk t64) ->
  Token.utf8 caller -> request_utf8 req -> int64_range (b_minEpoch b) ->
  unix_range (Add now (b_grantTTL b)) -> t64 <> "" ->
  fits b2 (request_grant b req caller now) t64 name t q now2 body m ->
  exists b' o, gateway name t target q now2 b2 = (b', Forward o)
    /\ o_body o = if Registry.FirstParty t then body else Mcp.StripCapability m.
Proof.
  intros Hpub Eh Hu Hq He Hx Ht64 [Hp Hpa Hm Hb Hf Epa (op & args & params & Ec & Ecap & Em & Hcs) Hl [Hn Hn'] Hep].
  pose proof (request_grant_wf b req caller now (minted_mintable _ _ _ _ _ _ _ Eh)) as Hg.
  destruct (Token.Mint_total (b_priv b) _ idb Hg (request_payload_wf b req caller now idb Hu Hq He))
    as (tok & Emt & env & Epar & Hsig).
  apply handleRequest_ok in Eh as (c & rq & i & tok' & [= <-] & _ & _ & [= <-] & [= <-] & _ & _ & Emt' & ->).
  rewrite Emt in Emt'. injection Emt' as <-.
  set (g := request_grant b req caller now) in *. destruct Hg as (Hg0 & Hg1 & Hg2 & _).
  destruct (authorize_granted t (Token.g_Agent g) body (scrub (q_header q)) now2 b2 m op args
    (b64_encode tok) tok params) as (b' & h' & Ha); try done; [apply b64_round | |].
  - rewrite <- Ecap. apply Token.Verify_ok. rewrite Hpub. split_and!; [done | apply Token.public_size |].
    exists env, (Token.mint_payload idb g). split_and!; [done..|].
    unfold Token.payload_admits. cbn [Token.r_Caller Token.r_Capability Token.r_Params Token.r_Now Token.r_MinEpoch
      Token.mint_payload Token.p_Agent Token.p_Tool Token.p_Op Token.p_Constraints Token.p_ExpiryNanos Token.p_Epoch].
    split_and!; try done. by rewrite UnixTime_UnixNano.
  - destruct (gateway_pass name t target q now2 b2 _ body b' h' _ Hp Hg0 Hpa Hm Hb Hf Ha) as (o & Eg & Eo).
    by eauto.
Qed.

End System.

End Authority.
