(* ===== verification/Captool.v ===== *)
(** The host-side SDK of a first-party tool ([captool/]): the server that gets
    the gateway's requests, checks that they came through the broker, verifies
    the token again against its own operation table and epoch cache, and only
    then runs the tool's handler. Handlers and backstops are the tool author's
    functions and stay abstract. *)

From S2P Require Import Prelude Go Mcp FoldKeys Rules Registry Token Broker Gateway Authority.

Module Captool.
Import Broker Gateway Authority.

Definition defaultEpochTTL : Duration := 5 * Second.

Record ParamSpec := MkParamSpec { ps_Name : string; ps_Type : string; ps_Description : string }.

Record ValidatedContext := MkValidated {
  vc_Caller : string;
  vc_Tool : string;
  vc_Operation : string;
  vc_Constraints : gmap string string
}.

(** [Backstop] answers an error text to deny; [Handler] a JSON value or an error
    text. *)
Record Operation := MkOp {
  o_Name : string;
  o_Description : string;
  o_Params : list ParamSpec;
  o_CaveatParam : gmap string string;
  Backstop : option (ValidatedContext -> gmap string string -> option string);
  Handler : option (ValidatedContext -> gmap string string -> result any string)
}.

Record Config := MkConfig {
  c_Name : string;
  c_Version : string;
  c_Backend : string;
  c_Operations : list Operation;
  c_EpochTTL : Duration;
  c_Secret : string
}.

Record Server := MkServer {
  s_name : string;
  s_version : string;
  s_ops : gmap string Operation;
  s_epochTTL : Duration;
  s_secret : string;
  s_pubKey : option bytes;
  s_epoch : Z;
  s_epochAt : Time;
  s_audit : list AuditLine
}.

Definition s_set_key (pub : option bytes) (e : Z) (at_ : Time) (s : Server) : Server :=
  MkServer (s_name s) (s_version s) (s_ops s) (s_epochTTL s) (s_secret s) pub e at_ (s_audit s).
(** [s.audit]. *)
Definition s_log (op caller decision detail : string) (s : Server) : Server :=
  MkServer (s_name s) (s_version s) (s_ops s) (s_epochTTL s) (s_secret s) (s_pubKey s) (s_epoch s) (s_epochAt s)
    (s_audit s ++ [MkAudit op caller decision detail [("tool", s_name s)]]).

(** The operation loop of [New]: a later operation replaces one of its name. *)
Fixpoint build_ops (ops : list Operation) (acc : gmap string Operation) : result (gmap string Operation) string :=
  match ops with
  | [] => Ok acc
  | o :: ops' =>
    if is_empty (o_Name o) || bool_decide (~ is_Some (Handler o))
    then Err "captool: operation needs a Name and Handler"
    else build_ops ops' (<[o_Name o := o]> acc)
  end.

(** [New]; [env] is the value of [LEVER_TOOL_SECRET]. *)
Definition New (env : string) (c : Config) : result Server string :=
  if is_empty (c_Name c) || is_empty (c_Backend c) then Err "captool: Name and Backend are required"
  else if bool_decide (c_Operations c = []) then Err "captool: at least one operation is required"
  else
    let ttl := if c_EpochTTL c <=? 0 then defaultEpochTTL else c_EpochTTL c in
    match build_ops (c_Operations c) ∅ with
    | Err e => Err e
    | Ok ops =>
      let secret := if is_empty (c_Secret c) then env else c_Secret c in
      Ok (MkServer (c_Name c) (c_Version c) ops ttl secret None 0 zeroTime [])
    end.

(** [secretOK]: the comparison is constant-time equality. *)
Definition secretOK (s : Server) (presented : string) : bool :=
  (0 <? len (s_secret s)) && str_eqb presented (s_secret s).

(** [Register]: [rr] is the broker's decoded answer (the hexadecimal key and the
    epoch), [None] when the post failed. *)
Definition Register (rr : option (string * Z)) (now : Time) (s : Server) : result Server string :=
  match rr with
  | None => Err "captool: register"
  | Some (key, epoch) =>
    match Token.DecodePublicKey key with
    | Err _ => Err "captool: register pubkey"
    | Ok pub => Ok (s_set_key (Some pub) epoch now s)
    end
  end.

(** [freshEpoch]: [now] is the clock at the cache check, [er] the epoch a refresh
    fetched and the clock after it, [None] when it failed. *)
Definition freshEpoch (now : Time) (er : option (Z * Time)) (s : Server) : Server * Z :=
  if Sub now (s_epochAt s) <? s_epochTTL s then (s, s_epoch s)
  else match er with
  | Some (e, at_) => (s_set_key (s_pubKey s) e at_ s, e)
  | None => (s, s_epoch s)
  end.

(** What one call reads of the world: the clock for the token, the clock at the
    epoch cache check, and the epoch refresh. *)
Record World := MkWorld { w_now : Time; w_since : Time; w_refresh : option (Z * Time) }.

Section Serve.
Context `{Token.SigScheme, Token.TokenWire, Base64, GoJson, Unicode, Rendering, NetLib}.

(** The handler call a request led to, if any. *)
Abbreviation ran := (option (ValidatedContext * gmap string string)) (only parsing).

Definition handleToolsCall (id : any) (m : gmap string any) (caller : string) (w : World) (s : Server)
    : Server * Mcp.reply * ran :=
  let refuse op detail code msg := (s_log op caller "deny" detail s, Mcp.Error id code msg, None) in
  if is_empty caller then refuse "" "missing X-Lever-Caller" Mcp.CodeServerError "forbidden"
  else match s_pubKey s with
  | None => refuse "" "not registered" Mcp.CodeServerError "forbidden"
  | Some pubKey =>
    match Mcp.ToolsCall m with
    | None => refuse "" "missing capability or bad shape" Mcp.CodeServerError "forbidden"
    | Some (op, args, capB64) =>
      if is_empty capB64 then refuse op "missing capability or bad shape" Mcp.CodeServerError "forbidden"
      else match s_ops s !! op with
      | None => refuse op "unknown operation" Mcp.CodeMethodNotFound "method not found"
      | Some o =>
        match b64_decode capB64 with
        | None => refuse op "bad capability encoding" Mcp.CodeServerError "forbidden"
        | Some rawTok =>
          let cp := map_to_list (o_CaveatParam o) in
          if negb (is_empty (Mcp.RenamedKeyArg EqualFold cp (map_to_list args).*1))
          then refuse op "an argument is named like a renamed constraint key" Mcp.CodeInvalidParams "invalid params"
          else
            let params := Mcp.MapConstraintParams cp args in
            let '(s, floor) := freshEpoch (w_since w) (w_refresh w) s in
            match Token.Verify pubKey rawTok
                    (Token.MkRequest caller (Token.MkCapability (s_name s) op) params (w_now w) floor) with
            | Err e => (s_log op caller "deny" ("verify: " +:+ tokText e) s,
                        Mcp.Error id Mcp.CodeServerError "forbidden", None)
            | Ok _ =>
              let vc := MkValidated caller (s_name s) op params in
              match (f ← Backstop o; f vc args) with
              | Some e => (s_log op caller "deny" ("backstop: " +:+ e) s,
                           Mcp.Error id Mcp.CodeServerError "forbidden", None)
              | None =>
                match (match Handler o with Some f => f vc args | None => Err "nil handler" end) with
                | Err e => (s_log op caller "error" e s,
                            Mcp.Error id Mcp.CodeInternalError "tool error", Some (vc, args))
                | Ok v => (s_log op caller "allow" "" s,
                           Mcp.TextResult id (default "" (Marshal v)), Some (vc, args))
                end
              end
            end
        end
      end
    end
  end.

(** [toolSchemas], over the operations in map order. *)
Definition param_schema (p : ParamSpec) : string * any :=
  (ps_Name p, AObj (<["type" := AStr (if is_empty (ps_Type p) then "string" else ps_Type p)]>
                    {["description" := AStr (ps_Description p)]})).
Definition tool_schema (o : Operation) : any :=
  let props := foldl (fun m kv => <[kv.1 := kv.2]> m)
                 ({[Mcp.CapabilityArg := Mcp.CapabilityProperty]} : gmap string any) (param_schema <$> o_Params o) in
  AObj (<["name" := AStr (o_Name o)]> (<["description" := AStr (o_Description o)]>
    {["inputSchema" := AObj (<["type" := AStr "object"]> {["properties" := AObj props]})]})).
Definition toolSchemas (s : Server) : list any := (fun kv => tool_schema kv.2) <$> map_to_list (s_ops s).

(** The method a body asks for, and the message of a call. *)
Definition call_message (body : bytes) : option (gmap string any) :=
  match Mcp.Parse body with
  | Some (method, m) => if str_eqb method "tools/call" then Some m else None
  | None => None
  end.

(** [serveHTTP]: [inr reply] is the JSON-RPC answer. A body [mcp.ServeHTTP]
    cannot read within its limit is [None]. [mcp.Dispatch] runs the handler, and
    with it the server's state change, for [tools/call] only. *)
Definition serveHTTP (h : Header) (body : option bytes) (w : World) (s : Server)
    : Server * (response unit + Mcp.reply) * ran :=
  if negb (secretOK s (hget h toolSecretHeader))
  then (s_log "" "" "deny" "missing or wrong tool secret (request did not come through the broker)" s,
        inl (HttpError StatusUnauthorized "unauthorized"), None)
  else
    let caller := hget h callerHeader in
    match body with
    | None => (s, inr (Mcp.Error ANull Mcp.CodeParseError "read error"), None)
    | Some body =>
      let call id m := handleToolsCall id m caller w s in
      let reply := Mcp.Dispatch body (s_name s) (s_version s) (toolSchemas s) (fun id m => (call id m).1.2) in
      match call_message body with
      | Some m => ((call (Mcp.msg_id m) m).1.1, inr reply, (call (Mcp.msg_id m) m).2)
      | None => (s, inr reply, None)
      end
    end.

(** * What running the handler implies *)

(** A handler call, step by step. *)
Record executed (caller : string) (m : gmap string any) (w : World) (s : Server)
    (vc : ValidatedContext) (args : gmap string string) := MkExecuted {
  ex_op : Operation;
  ex_cap : string;
  ex_tok : bytes;
  ex_pub : bytes;
  ex_caller : caller <> "";
  ex_key : s_pubKey s = Some ex_pub;
  ex_call : Mcp.ToolsCall m = Some (vc_Operation vc, args, ex_cap);
  ex_known : s_ops s !! vc_Operation vc = Some ex_op;
  ex_dec : b64_decode ex_cap = Some ex_tok;
  ex_vc : vc = MkValidated caller (s_name s) (vc_Operation vc)
            (Mcp.MapConstraintParams (map_to_list (o_CaveatParam ex_op)) args);
  ex_verify : Token.Verify ex_pub ex_tok (Token.MkRequest caller (Token.MkCapability (s_name s) (vc_Operation vc))
    (vc_Constraints vc) (w_now w) (freshEpoch (w_since w) (w_refresh w) s).2) = Ok tt;
  ex_backstop : (f ← Backstop ex_op; f vc args) = None
}.

Lemma freshEpoch_frame now er s :
  let s' := (freshEpoch now er s).1 in
  s_name s' = s_name s /\ s_ops s' = s_ops s /\ s_secret s' = s_secret s /\ s_pubKey s' = s_pubKey s
  /\ s_epochTTL s' = s_epochTTL s.
Proof. unfold freshEpoch. repeat case_match; done. Qed.

Lemma handleToolsCall_ran id m caller w s s' r vc args :
  handleToolsCall id m caller w s = (s', r, Some (vc, args)) ->
  exists _ : executed caller m w s vc args, s_pubKey s' = s_pubKey s.
Proof.
  unfold handleToolsCall. intros E.
  destruct (is_empty caller) eqn:Ec; [done|]. guards.
  destruct (s_pubKey s) as [pub|] eqn:Ek; [|done].
  destruct (Mcp.ToolsCall m) as [[[op args'] cap]|] eqn:Et; [|done].
  destruct (is_empty cap); [done|]. destruct (s_ops s !! op) as [o|] eqn:Eo; [|done].
  destruct (b64_decode cap) as [tok|] eqn:Ed; [|done]. destruct (negb _); [done|].
  pose proof (freshEpoch_frame (w_since w) (w_refresh w) s) as (En & _ & _ & Ep & _).
  destruct (freshEpoch _ _ s) as [s1 floor] eqn:Ef. simpl in *. rewrite En in E.
  destruct (Token.Verify _ _ _) as [[]|] eqn:Ev; [|done].
  destruct (f ← Backstop o; f _ _) eqn:Eb; [done|].
  assert (s_pubKey s' = Some pub /\ vc = MkValidated caller (s_name s) op
    (Mcp.MapConstraintParams (map_to_list (o_CaveatParam o)) args') /\ args = args') as (Hk & -> & ->).
  { rewrite Ek in Ep. by destruct (match Handler o with Some _ => _ | None => _ end); simplify_eq/=. }
  unshelve eexists; [econstructor; simpl; try done | done].
  simpl. by rewrite Ef.
Qed.

Lemma serveHTTP_ran h body w s s' r vc args :
  serveHTTP h body w s = (s', r, Some (vc, args)) ->
  s_secret s <> "" /\ hget h toolSecretHeader = s_secret s
  /\ exists b m, body = Some b /\ call_message b = Some m
     /\ exists _ : executed (hget h callerHeader) m w s vc args, True.
Proof.
  unfold serveHTTP. intros E.
  destruct (negb (secretOK _ _)) eqn:Es; [done|]. unfold secretOK in Es. guards.
  destruct body as [b|]; [|done]. destruct (call_message b) as [m|] eqn:Em; [|done].
  split; [intros E0; by rewrite E0 in *|]. split; [done|]. exists b, m. split_and!; [done..|].
  destruct (handleToolsCall _ _ _ _ _) as [[s1 r1] ran1] eqn:Eh. simpl in E. simplify_eq.
  by destruct (handleToolsCall_ran _ _ _ _ _ _ _ _ _ Eh) as [ex _]; exists ex.
Qed.

(** The token a tool request presents. *)
Definition tool_presented (body : option bytes) : option bytes :=
  b ← body; m ← call_message b; '(_, _, cap) ← Mcp.ToolsCall m; b64_decode cap.

(** C2: a first-party tool's handler runs only for a request that presented the
    broker's tool secret, with a token bound to the caller the broker named, for
    this tool and operation, that the policy allowed to be minted, whose every
    constraint holds of the very arguments the handler is given, unexpired and
    at or above the tool's epoch floor, and only after the backstop passed. *)
Theorem handler_runs_backed b0 sy h body w s s' r vc args :
  boot_ok b0 -> reachable b0 sy -> s_pubKey s = Some (b_pub (s_b sy)) ->
  (forall tok, tool_presented body = Some tok -> unforged sy tok) ->
  serveHTTP h body w s = (s', r, Some (vc, args)) ->
  s_secret s <> "" /\ hget h toolSecretHeader = s_secret s /\ vc_Caller vc = hget h callerHeader
  /\ exists o mt, s_ops s !! vc_Operation vc = Some o /\ mt ∈ s_minted sy
     /\ mint_covers (b_rules b0) mt (vc_Caller vc) (s_name s) (vc_Operation vc)
          (Mcp.param_of args (o_CaveatParam o)) (w_now w) (freshEpoch (w_since w) (w_refresh w) s).2
     /\ (forall k, vc_Constraints vc !! k = Mcp.param_of args (o_CaveatParam o) k)
     /\ (f ← Backstop o; f vc args) = None.
Proof.
  intros Hb Hr Hk Hu (Hs & Hh & bd & m & -> & Em & ex & _)%serveHTTP_ran.
  destruct ex as [o cap tok pub Hc Ek Ec Eo Ed Evc Ev Eb]. rewrite Hk in Ek. injection Ek as <-.
  assert (Hpm : forall k, vc_Constraints vc !! k = Mcp.param_of args (o_CaveatParam o) k).
  { intros k. rewrite Evc. simpl. by apply Mcp.MapConstraintParams_lookup. }
  assert (Hpr : tool_presented (Some bd) = Some tok) by (unfold tool_presented; simpl; rewrite Em; simpl; by rewrite Ec).
  destruct (verified_mint b0 sy tok _ Hb Hr (Hu tok Hpr) Ev) as (mt & Hm & H1' & H2' & H3' & H4' & H5' & H6').
  simpl in *. assert (Hca : vc_Caller vc = hget h callerHeader) by by rewrite Evc.
  split_and!; [done..|]. exists o, mt. unfold mint_covers. rewrite Hca. split_and!; try done.
  eapply Forall_impl; [exact H4'|]. simpl. intros x. by rewrite Hpm.
Qed.

(** * Agreement with the gateway *)

Lemma hdel_all_kept ks (h : Header) k : k ∉ ks -> hdel_all ks h !! k = h !! k.
Proof.
  induction ks as [|k' ks IH]; simpl; [done|]. intros [Hne Hn]%not_elem_of_cons.
  rewrite lookup_delete_ne by done. by apply IH.
Qed.

Lemma proxy_keeps target svc caller q h body k :
  HasPrefix k "X-Lever-" = true -> k ∉ hop_by_hop (delete "Upgrade" h) ->
  (svc = true -> h !! callerHeader = Some [caller]) ->
  o_header (proxy_tool target svc caller q (delete "Upgrade" h) body) !! k = h !! k.
Proof.
  intros Hk Hop Hsvc.
  assert (Hne : forall k', HasPrefix k' "X-Lever-" = false -> k' <> k) by (intros k' Hk' ->; by rewrite Hk in Hk').
  assert (Hpre : HasPrefix k "X-Forwarded-" = false).
  { unfold HasPrefix in *. clear Hop Hne. destruct k as [|c0 [|c1 [|c2 k]]]; cbn in Hk |- *;
      repeat (case_match; try done); subst; done. }
  assert (Hr : tool_rewrite (q_remoteIP q) (rp_strip (delete "Upgrade" h)) !! k = h !! k).
  { unfold tool_rewrite. rewrite map_lookup_filter. rewrite hdel_all_kept.
    2:{ unfold routingHeaders. intros Hin. repeat (apply elem_of_cons in Hin as [->|Hin]; [done|]). by apply elem_of_nil in Hin. }
    unfold rewriteUpstream.
    assert (E : delete "Cookie" (rp_strip (delete "Upgrade" h)) !! k = h !! k).
    { rewrite lookup_delete_ne by by apply Hne. unfold rp_strip.
      rewrite hdel_all_kept, hdel_all_kept, lookup_delete_ne; [done | by apply Hne | done |].
      intros Hin. repeat (apply elem_of_cons in Hin as [->|Hin]; [done|]). by apply elem_of_nil in Hin. }
    destruct (q_remoteIP q) as [ip|].
    - unfold hset. rewrite lookup_insert_ne by by apply Hne. rewrite E.
      destruct (h !! k); simpl; [|done]. by rewrite option_guard_True by by left.
    - rewrite E. destruct (h !! k); simpl; [|done]. by rewrite option_guard_True by by left. }
  simpl. destruct svc; [|done]. unfold hset. rewrite lookup_insert. case_decide; [|done]. subst k. by rewrite Hsvc.
Qed.

(** The tool was registered with this broker: same name, key and secret, and its
    operations have the argument mapping the registry has. *)
Record paired (b : Broker) (t : Registry.Tool) (s : Server) : Prop := MkPaired {
  pa_name : s_name s = Registry.Name t;
  pa_key : s_pubKey s = Some (b_pub b);
  pa_secret : s_secret s = b_toolSecret b /\ b_toolSecret b <> "";
  pa_fine : Registry.Coarse t = false;
  pa_ops : forall rt op ro, b_reg b !! Registry.Name t = Some rt -> Registry.Operations rt !! op = Some ro ->
    exists o, s_ops s !! op = Some o /\ o_CaveatParam o = Registry.CaveatParam ro
}.

(** The inbound [Connection] header names no [X-Lever-*] header. *)
Definition connection_clean (q : HttpReq) : Prop :=
  forall h : Header, h !! "Connection" = q_header q !! "Connection" ->
    forall k, HasPrefix k "X-Lever-" = true -> k ∉ hop_by_hop h.

(** The tool sees the token no later than it expires, against a floor no higher
    than the gateway's. *)
Definition timely (b : Broker) (w : World) (s : Server) (tok : bytes) : Prop :=
  w_now w <> zeroTime
  /\ (freshEpoch (w_since w) (w_refresh w) s).2 <= b_minEpoch b
  /\ forall env pl, Token.parse tok = Ok (env, pl) -> w_now w < UnixTime (Token.p_ExpiryNanos pl).

Lemma Verify_later pub tok r now floor :
  Token.Verify pub tok r = Ok tt -> now <> zeroTime -> floor <= Token.r_MinEpoch r ->
  (forall env pl, Token.parse tok = Ok (env, pl) -> now < UnixTime (Token.p_ExpiryNanos pl)) ->
  Token.Verify pub tok (Token.MkRequest (Token.r_Caller r) (Token.r_Capability r) (Token.r_Params r) now floor) = Ok tt.
Proof.
  rewrite !Token.Verify_ok. unfold Token.request_wf, Token.payload_admits. cbn.
  intros ((_ & Ht & Ho) & Hp & env & pl & Ep & Es & Ha1 & Ha2 & Ha3 & Ha4 & Ha5 & Ha6) Hn Hf Hx.
  split_and!; [done..|]. exists env, pl. split_and!; try done; [by eapply Hx | lia].
Qed.

Lemma handleToolsCall_runs id m caller w s pub op args cap o tok :
  caller <> "" -> s_pubKey s = Some pub -> Mcp.ToolsCall m = Some (op, args, cap) -> cap <> "" ->
  s_ops s !! op = Some o -> b64_decode cap = Some tok ->
  is_empty (Mcp.RenamedKeyArg EqualFold (map_to_list (o_CaveatParam o)) (map_to_list args).*1) = true ->
  let vc := MkValidated caller (s_name s) op (Mcp.MapConstraintParams (map_to_list (o_CaveatParam o)) args) in
  Token.Verify pub tok (Token.MkRequest caller (Token.MkCapability (s_name s) op) (vc_Constraints vc)
    (w_now w) (freshEpoch (w_since w) (w_refresh w) s).2) = Ok tt ->
  (handleToolsCall id m caller w s).2
  = match (f ← Backstop o; f vc args) with Some _ => None | None => Some (vc, args) end.
Proof.
  intros Hc Hk Ec Hcap Eo Ed Er vc Ev. unfold handleToolsCall.
  rewrite (proj2 (is_empty_false _) Hc), Hk, Ec, (proj2 (is_empty_false _) Hcap), Eo, Ed, Er. simpl negb. cbv iota.
  pose proof (freshEpoch_frame (w_since w) (w_refresh w) s) as (En & _).
  destruct (freshEpoch _ _ s) as [s1 floor]. simpl in *. rewrite En. rewrite Ev. fold vc.
  destruct (f ← Backstop o; f vc args); [done|]. by destruct (match Handler o with Some _ => _ | None => _ end).
Qed.

Lemma MapParams_not_renamed r tool op args params rt ro :
  Registry.MapParams r tool op args = Ok params -> r !! tool = Some rt -> Registry.Operations rt !! op = Some ro ->
  is_empty (Mcp.RenamedKeyArg EqualFold (map_to_list (Registry.CaveatParam ro)) (map_to_list args).*1) = true
  /\ params = Mcp.MapConstraintParams (map_to_list (Registry.CaveatParam ro)) args.
Proof. unfold Registry.MapParams. intros E E1 E2. rewrite E1, E2 in E. destruct (is_empty _); simpl in *; by simplify_eq. Qed.

Lemma first_party_headers t caller q secret b' target now b body body' h' svc :
  Registry.FirstParty t = true -> secret <> "" -> connection_clean q ->
  authorizeToolCall t caller body (scrub (q_header q)) now b = (b', inr (h', body')) ->
  (forall method m, Mcp.Parse body = Some (method, m) -> method = "tools/call") ->
  let o := proxy_tool target svc caller q (delete "Upgrade" (if Registry.FirstParty t && negb (is_empty secret)
             then hset toolSecretHeader secret h' else h')) body' in
  hget (o_header o) toolSecretHeader = secret /\ hget (o_header o) callerHeader = caller.
Proof.
  intros Hfp Hsec Hcl Ha Hcall o. subst o. rewrite Hfp, (proj2 (is_empty_false _) Hsec). simpl andb. cbv iota.
  apply authorize_pass in Ha as [(m & method & Ep & Hf & _)|[c (_ & -> & _)]].
  { apply Hcall in Ep. subst. unfold free_method in Hf. set_solver. }
  rewrite Hfp. set (h0 := hset toolSecretHeader secret _).
  assert (Hkeep : forall k, HasPrefix k "X-Lever-" = true -> o_header (proxy_tool target svc caller q
    (delete "Upgrade" h0) body') !! k = h0 !! k).
  { intros k Hk. apply proxy_keeps; [done | |].
    2:{ intros _. subst h0. unfold hset. by rewrite !lookup_insert_ne, lookup_insert_eq by done. }
    apply Hcl; [|done]. subst h0. unfold hset, scrub.
    rewrite lookup_delete_ne, !lookup_insert_ne by done. rewrite map_lookup_filter.
    by destruct (q_header q !! "Connection"). }
  unfold hget. rewrite !Hkeep by done. subst h0. unfold hset.
  by rewrite lookup_insert_eq, !lookup_insert_ne, lookup_insert_eq by done.
Qed.

(** C3: the gateway and a first-party tool agree. A [tools/call] the gateway
    forwards to a tool registered with it ([paired]) passes the tool's own secret,
    caller and token checks on the same parameters: its handler runs, unless its
    backstop refuses. The client's [Connection] header names no [X-Lever-*] header,
    or the proxy would drop what the gateway sets, and the tool sees the token
    before it expires, against a floor no higher than the gateway's. *)
Theorem gateway_and_tool_agree name t target q now b b' o m w s tok :
  Registry.FirstParty t = true -> paired b t s -> connection_clean q ->
  message q = Some ("tools/call", m) -> presented q = Some tok -> timely b w s tok ->
  gateway name t target q now b = (b', Forward o) ->
  exists caller op args so, q_peer q = Cert caller /\ s_ops s !! op = Some so
    /\ let vc := MkValidated caller (Registry.Name t) op
                   (Mcp.MapConstraintParams (map_to_list (o_CaveatParam so)) args) in
       (serveHTTP (o_header o) (Some (o_body o)) w s).2
       = match (f ← Backstop so; f vc args) with Some _ => None | None => Some (vc, args) end.
Proof.
  intros Hfp [Hn Hk [Hsec Hs] Hco Hops] Hcl Hm Hpr (Ht1 & Ht2 & Ht3)
    (caller & body & h' & body' & Hp & Hc & _ & _ & Eb & _ & Ha & Eo)%gateway_forward_inv.
  unfold message, presented in Hm, Hpr. rewrite Eb in Hm, Hpr. simpl in Hm, Hpr. rewrite Hm in Hpr. simpl in Hpr.
  destruct (first_party_headers t caller q (b_toolSecret b) b' target now b body body' h'
    (bool_decide (is_Some (b_serviceHosts b !! name))) Hfp Hs Hcl Ha) as [Eh1 Eh2].
  { intros method m0 E. rewrite Hm in E. by simplify_eq. }
  rewrite <- Eo in Eh1, Eh2.
  pose proof Ha as Ha'. apply authorize_pass in Ha' as [(m' & method & Ep & Hf & _)|[c (_ & _ & Ebody)]].
  { rewrite Hm in Ep. injection Ep as <- _. unfold free_method in Hf. set_solver. }
  destruct c as [m' op args cap tok' params Ep Ec Ed Em Hl Hv]. rewrite Hfp in Ebody.
  rewrite Hm in Ep. injection Ep as <-. rewrite Ec in Hpr. simpl in Hpr. rewrite Ed in Hpr. injection Hpr as ->.
  unfold requiredOp in Em, Hv. rewrite Hco in Em, Hv.
  destruct (Registry.MapParams_ok _ _ _ _ _ Em) as (rt & ro & Er1 & Er2 & _).
  destruct (MapParams_not_renamed _ _ _ _ _ _ _ Em Er1 Er2) as [Eren Epar].
  destruct (Hops rt op ro Er1 Er2) as (so & Eso & Ecp).
  exists caller, op, args, so. split_and!; [done..|]. intros vc.
  assert (o_body o = body) as -> by by subst o body'.
  unfold serveHTTP, secretOK. rewrite Eh1, Eh2, Hsec, str_eqb_refl.
  replace (0 <? len (b_toolSecret b)) with true by (pose proof (len_pos _ Hs); lia).
  simpl negb. cbv iota. unfold call_message. rewrite Hm, str_eqb_refl. cbn [snd].
  assert (Hcap : cap <> "").
  { intros ->. unfold authorizeToolCall in Ha. rewrite Hm, str_eqb_refl, Ec in Ha. done. }
  rewrite (handleToolsCall_runs _ m caller w s (b_pub b) op args cap so tok); try done.
  - by rewrite Hn.
  - by rewrite Ecp.
  - simpl. rewrite Hn, Ecp, <- Epar. by apply (Verify_later _ _ _ (w_now w) _ Hv).
Qed.

(** The epoch floor a tool verifies against is never staler than its cache
    allows while refreshes succeed: it is the cached one, fetched less than
    [epochTTL] before, or the one just fetched; and a failed refresh leaves the
    server's key, floor and fetch time as they were. *)
Theorem tool_epoch_freshness now er s s' e :
  0 < s_epochTTL s <= max_int64 ->
  freshEpoch now er s = (s', e) ->
  match er with
  | Some (fetched, at_) =>
    (e = s_epoch s /\ s' = s /\ now - s_epochAt s < s_epochTTL s)
    \/ (e = fetched /\ s_epoch s' = fetched /\ s_epochAt s' = at_)
  | None => e = s_epoch s /\ s' = s
  end.
Proof.
  intros Ht E. unfold freshEpoch in E. destruct (Z.ltb_spec (Sub now (s_epochAt s)) (s_epochTTL s)) as [Hl|Hl].
  - apply Sub_lt_iff in Hl; [|unfold min_int64; lia]. destruct er as [[??]|]; simplify_eq; auto.
  - destruct er as [[??]|]; simplify_eq; auto.
Qed.

End Serve.

End Captool.
