(* ===== verification/Opsig.v ===== *)
(** Operator signatures ([internal/opsig/opsig.go]): the strict parsing of the
    signed directive statements and admin envelopes. Signing and verifying run
    [ssh-keygen]; the verifier is the interface [OpVerifier]. The typed decoding
    of the two documents ([json.Decoder] with [DisallowUnknownFields]) is the
    interface [OpsigWire]. *)

From S2P Require Import Prelude Go FoldKeys.

Module Opsig.
Import FoldKeys.

Definition NamespaceDirective : string := "lever-operator-directive@lever.dev".
Definition NamespaceAdmin : string := "lever-operator-admin@lever.dev".
Definition MaxExpiry : Duration := 24 * Hour.
Definition maxStatementBytes : Z := 64 * 2 ^ 10.
Definition maxInstructionLen : Z := 4 * 2 ^ 10.
Definition ClockLeeway : Duration := 2 * Minute.
Definition maxJSONDepth : nat := 200.

Definition KindToolCall : string := "tool_call".
Definition KindApproval : string := "approval".
Definition KindInstruction : string := "instruction".

(** [Args] is the raw JSON, [None] when the field is absent. *)
Record Action := MkAction {
  a_Kind : string;
  a_Tool : string;
  a_Op : string;
  a_Args : option bytes;
  a_ArgBinding : string;
  a_Uses : Z;
  a_Text : string
}.

Record Target := MkTarget { t_CN : string; t_Generation : Z }.

Record Statement := MkStatement {
  st_V : Z;
  st_Instance : string;
  st_DirectiveID : string;
  st_TargetAgent : Target;
  st_IssuedAt : string;
  st_NotBefore : string;
  st_ExpiresAt : string;
  st_Action : Action
}.

Record Envelope := MkEnvelope {
  en_V : Z;
  en_Instance : string;
  en_Op : string;
  en_Params : gmap string string;
  en_IssuedAt : string
}.

(** The strict typed decoders. *)
Class OpsigWire := {
  decode_statement : bytes -> option Statement;
  decode_envelope : bytes -> option Envelope
}.

(** [Verifier.Verify]: namespace, message, signature. *)
Class OpVerifier := { op_verify : string -> bytes -> bytes -> bool }.

Inductive opError :=
| TooLarge | DuplicateKeys | Malformed | Version (v : Z) | InstanceMismatch | BadDirectiveID | BadTarget
| BadTime (field : string) | NotYetValid | ExpiredStatement | ExpiryCap
| NeedsToolOp | BadArgBinding | BadUses | CarriesText | BadInstructionText | CarriesAction | UnknownKind (k : string)
| BadOp | NotFresh.

(** * Duplicate keys *)

(** [walkDupes] on the rest of the token stream: [None] is an error, [Some rest]
    the stream after one value. [dec.More] is false at a closing delimiter. The
    calls that read no token are the ones into a value, so twice the stream's
    length is fuel enough. *)
Fixpoint walkDupes (fuel depth : nat) (toks : list jtok) : option (list jtok) :=
  match fuel with
  | O => None
  | S n =>
    if (maxJSONDepth <? depth)%nat then None
    else match toks with
    | [] => None
    | TObjOpen :: ts => walk_members n depth ∅ ts
    | TArrOpen :: ts => walk_elems n depth ts
    | _ :: ts => Some ts
    end
  end
with walk_members (fuel depth : nat) (seen : gset string) (toks : list jtok) : option (list jtok) :=
  match fuel with
  | O => None
  | S n =>
    match toks with
    | TObjClose :: ts | TArrClose :: ts => Some ts
    | TStr key :: ts =>
      if bool_decide (key ∈ seen) then None
      else match walkDupes n (S depth) ts with
      | Some ts => walk_members n depth ({[key]} ∪ seen) ts
      | None => None
      end
    | _ => None
    end
  end
with walk_elems (fuel depth : nat) (toks : list jtok) : option (list jtok) :=
  match fuel with
  | O => None
  | S n =>
    match toks with
    | [] => None
    | TObjClose :: ts | TArrClose :: ts => Some ts
    | _ =>
      match walkDupes n (S depth) toks with
      | Some ts => walk_elems n depth ts
      | None => None
      end
    end
  end.

Definition walk_fuel (toks : list jtok) : nat := S (2 * length toks).

(** [RejectDuplicateKeys]: [true] when it returns nil. *)
Definition RejectDuplicateKeys `{GoJson} (raw : bytes) : bool :=
  let toks := (Tokens raw).1 in
  match walkDupes (walk_fuel toks) 0 toks with Some _ => true | None => false end.

Section Parse.
Context `{GoJson, OpsigWire, TimeFormat}.

Definition parseTime (field v : string) : result Time opError :=
  match ParseRFC3339 v with Some t => Ok t | None => Err (BadTime field) end.

Definition decodeStrict {A} (decode : bytes -> option A) (raw : bytes) : result A opError :=
  if maxStatementBytes <? len raw then Err TooLarge
  else if negb (RejectDuplicateKeys raw) then Err DuplicateKeys
  else match decode raw with None => Err Malformed | Some a => Ok a end.

Definition validateAction (a : Action) : result unit opError :=
  if str_eqb (a_Kind a) KindToolCall || str_eqb (a_Kind a) KindApproval then
    if is_empty (a_Tool a) || is_empty (a_Op a) then Err NeedsToolOp
    else if negb (str_eqb (a_ArgBinding a) "exact") then Err BadArgBinding
    else if negb (a_Uses a =? 1) then Err BadUses
    else if negb (is_empty (a_Text a)) then Err CarriesText
    else Ok tt
  else if str_eqb (a_Kind a) KindInstruction then
    if is_empty (a_Text a) || (maxInstructionLen <? len (a_Text a)) then Err BadInstructionText
    else if negb (is_empty (a_Tool a)) || negb (is_empty (a_Op a)) || bool_decide (is_Some (a_Args a))
         then Err CarriesAction
    else Ok tt
  else Err (UnknownKind (a_Kind a)).

Definition ParseStatement (raw : bytes) (instance : string) (now : Time) : result Statement opError :=
  try st := decodeStrict decode_statement raw in
  if negb (st_V st =? 1) then Err (Version (st_V st))
  else if negb (str_eqb (st_Instance st) instance) then Err InstanceMismatch
  else if is_empty (st_DirectiveID st) || (64 <? len (st_DirectiveID st)) then Err BadDirectiveID
  else if is_empty (t_CN (st_TargetAgent st)) || (t_Generation (st_TargetAgent st) <? 1) then Err BadTarget
  else
    try nbf := parseTime "not_before" (st_NotBefore st) in
    try exp := parseTime "expires_at" (st_ExpiresAt st) in
    try _ := parseTime "issued_at" (st_IssuedAt st) in
    if Before (Add now ClockLeeway) nbf then Err NotYetValid
    else if negb (Before now exp) then Err ExpiredStatement
    else if MaxExpiry <? Sub exp now then Err ExpiryCap
    else try _ := validateAction (st_Action st) in Ok st.

Definition ParseEnvelope (raw : bytes) (instance : string) (now : Time) (maxSkew : Duration)
    : result Envelope opError :=
  try e := decodeStrict decode_envelope raw in
  if negb (en_V e =? 1) then Err (Version (en_V e))
  else if negb (str_eqb (en_Instance e) instance) then Err InstanceMismatch
  else if is_empty (en_Op e) then Err BadOp
  else
    try ts := parseTime "issued_at" (en_IssuedAt e) in
    let d := Sub now ts in
    if (maxSkew <? d) || (d <? - maxSkew) then Err NotFresh else Ok e.

End Parse.

(** * What the walk decides *)

(** No object has the same key twice, and no value lies deeper than
    [maxJSONDepth]. *)
Fixpoint unique_keys (d : nat) (t : jtree) : bool :=
  (d <=? maxJSONDepth)%nat &&
  match t with
  | JScalar | JString _ => true
  | JArray l => forallb (unique_keys (S d)) l
  | JObject l => bool_decide (NoDup l.*1) && forallb (fun kv => unique_keys (S d) kv.2) l
  end.

Definition walk_value (t : jtree) : Prop := forall fuel d rest,
  (2 * length (flatten t) <= fuel)%nat ->
  walkDupes fuel d (flatten t ++ rest) = if unique_keys d t then Some rest else None.

Lemma flatten_nonempty t : (1 <= length (flatten t))%nat.
Proof. destruct t; simpl; lia. Qed.

Lemma walk_elems_spec l : Forall walk_value l -> forall fuel d rest,
  (2 * length (foldr (fun t acc => flatten t ++ acc) [TArrClose] l) <= fuel)%nat ->
  walk_elems fuel d (foldr (fun t acc => flatten t ++ acc) [TArrClose] l ++ rest)
  = if forallb (unique_keys (S d)) l then Some rest else None.
Proof.
  induction 1 as [|t l Ht _ IH]; intros fuel d rest Hf.
  { destruct fuel; [simpl in Hf; lia | done]. }
  cbn [foldr] in *. rewrite length_app in Hf. pose proof (flatten_nonempty t) as Hne.
  destruct fuel as [|n]; [lia|]. rewrite <- app_assoc.
  assert (Htl : (1 <= length (foldr (fun t acc => flatten t ++ acc) [TArrClose] l))%nat).
  { destruct l as [|u l]; simpl; [lia|]. rewrite length_app. pose proof (flatten_nonempty u). lia. }
  set (tail := foldr _ _ l) in *.
  assert (E : walk_elems (S n) d (flatten t ++ tail ++ rest)
    = match walkDupes n (S d) (flatten t ++ tail ++ rest) with Some ts => walk_elems n d ts | None => None end)
    by by destruct t.
  rewrite E, Ht by lia. cbn [forallb]. destruct (unique_keys (S d) t); [|done]. apply IH. lia.
Qed.

Lemma walk_members_spec l : Forall (fun kv : string * jtree => walk_value kv.2) l -> forall fuel d seen rest,
  (2 * length (foldr (fun kv acc => TStr kv.1 :: flatten kv.2 ++ acc) [TObjClose] l) <= fuel)%nat ->
  walk_members fuel d seen (foldr (fun kv acc => TStr kv.1 :: flatten kv.2 ++ acc) [TObjClose] l ++ rest)
  = if bool_decide (NoDup l.*1) && bool_decide (Forall (fun kv => kv.1 ∉ seen) l)
       && forallb (fun kv => unique_keys (S d) kv.2) l
    then Some rest else None.
Proof.
  induction 1 as [|[k t] l Ht _ IH]; intros fuel d seen rest Hf.
  { destruct fuel; [simpl in Hf; lia | done]. }
  cbn [foldr fst snd app length] in *. rewrite length_app in Hf.
  destruct fuel as [|n]; [lia|]. cbn [walk_members].
  destruct (bool_decide (k ∈ seen)) eqn:Ek; guards.
  { rewrite (bool_decide_eq_false_2 (Forall _ _)); [by rewrite andb_false_r|].
    rewrite Forall_cons. naive_solver. }
  rewrite <- app_assoc, Ht by lia. cbn [forallb snd].
  destruct (unique_keys (S d) t); [|by rewrite andb_false_r].
  rewrite IH by lia. cbn [andb]. rewrite <- !bool_decide_and. erewrite bool_decide_ext; [reflexivity|].
  rewrite fmap_cons, NoDup_cons, Forall_cons, list_elem_of_fmap. cbn [fst].
  setoid_rewrite Forall_forall. set_solver.
Qed.

Lemma walk_value_all t : walk_value t.
Proof.
  induction t as [|s|l IH|l IH] using jtree_nested_ind; intros fuel d rest Hf;
    (destruct fuel as [|n]; [simpl in Hf; lia|]); cbn [walkDupes flatten app unique_keys];
    (destruct (Nat.ltb_spec maxJSONDepth d);
     [by replace (d <=? maxJSONDepth)%nat with false by (symmetry; apply Nat.leb_gt; lia)
     |replace (d <=? maxJSONDepth)%nat with true by (symmetry; apply Nat.leb_le; lia)]); cbn [andb]; try done.
  - simpl in Hf. rewrite walk_elems_spec; [done | done | lia].
  - simpl in Hf. rewrite walk_members_spec; [|done|lia].
    rewrite (bool_decide_eq_true_2 (Forall _ l)); [by rewrite andb_true_r|].
    apply Forall_forall. set_solver.
Qed.

(** The duplicate-key check is exact. On a document whose token stream is a
    JSON value, whatever follows it, it passes exactly when no object at any
    level has the same key twice and nothing nests deeper than 200 levels; the
    walk never runs out of fuel. *)
Theorem duplicate_keys_exact `{GoJson} raw t rest :
  (Tokens raw).1 = flatten t ++ rest ->
  RejectDuplicateKeys raw = unique_keys 0 t.
Proof.
  intros E. unfold RejectDuplicateKeys, walk_fuel. rewrite E, walk_value_all.
  - by destruct (unique_keys 0 t).
  - rewrite length_app. lia.
Qed.

(** * What a parsed document guarantees *)

Section Parsed.
Context `{GoJson, OpsigWire, TimeFormat}.

(** A bound action names a tool and operation, binds the arguments exactly, for
    one use and without free text; an instruction is bounded text only. *)
Definition action_ok (a : Action) : Prop :=
  ((a_Kind a = KindToolCall \/ a_Kind a = KindApproval)
   /\ a_Tool a <> "" /\ a_Op a <> "" /\ a_ArgBinding a = "exact" /\ a_Uses a = 1 /\ a_Text a = "")
  \/ (a_Kind a = KindInstruction /\ a_Text a <> "" /\ len (a_Text a) <= maxInstructionLen
      /\ a_Tool a = "" /\ a_Op a = "" /\ a_Args a = None).

Lemma validateAction_ok a : validateAction a = Ok tt <-> action_ok a.
Proof.
  unfold validateAction, action_ok. split.
  - intros E. repeat case_match; try done; guards.
    + left. repeat match goal with H : _ || _ = true |- _ => apply orb_prop in H as [?|?] end; guards;
        split_and!; auto; lia.
    + right. destruct (a_Args a) eqn:Ea; [exfalso; by eauto|]. split_and!; auto. lia.
  - intros [([Hk|Hk] & Ht & Ho & Hb & Hu & Hx)|(Hk & Hx & Hl & Ht & Ho & Ha)]; rewrite Hk; simpl.
    1,2: by rewrite (proj2 (is_empty_false _) Ht), (proj2 (is_empty_false _) Ho), Hb, Hu, Hx.
    rewrite (proj2 (is_empty_false _) Hx), Ht, Ho, Ha.
    by replace (maxInstructionLen <? len (a_Text a)) with false by lia.
Qed.

Definition strict (raw : bytes) : Prop := len raw <= maxStatementBytes /\ RejectDuplicateKeys raw = true.

Lemma decodeStrict_ok {A} (decode : bytes -> option A) raw a :
  decodeStrict decode raw = Ok a <-> strict raw /\ decode raw = Some a.
Proof.
  unfold decodeStrict, strict. destruct (Z.ltb_spec maxStatementBytes (len raw)); [split; [done | lia]|].
  destruct (RejectDuplicateKeys raw); simpl; [|naive_solver].
  destruct (decode raw); naive_solver lia.
Qed.

Lemma parseTime_ok f v t : parseTime f v = Ok t <-> ParseRFC3339 v = Some t.
Proof. unfold parseTime. destruct (ParseRFC3339 v); naive_solver. Qed.

(** The validity window of a statement. *)
Definition in_window (st : Statement) (now : Time) : Prop :=
  exists nbf exp, ParseRFC3339 (st_NotBefore st) = Some nbf /\ ParseRFC3339 (st_ExpiresAt st) = Some exp
    /\ is_Some (ParseRFC3339 (st_IssuedAt st))
    /\ nbf <= now + ClockLeeway /\ now < exp /\ exp - now <= MaxExpiry.

(** A parsed statement is one the bytes decode to, with an expiry ahead of the
    clock. *)
Lemma parsed_statement raw instance now st :
  ParseStatement raw instance now = Ok st ->
  decode_statement raw = Some st /\ exists exp, ParseRFC3339 (st_ExpiresAt st) = Some exp /\ now < exp.
Proof.
  unfold ParseStatement, Before. intros E. destruct (decodeStrict decode_statement raw) as [st'|] eqn:Ed; [|done].
  apply decodeStrict_ok in Ed as [_ Ed]. cbn [res_bind] in E.
  do 4 (case_match; [done|]).
  destruct (parseTime _ (st_NotBefore st')) as [nbf|]; [|done]. cbn [res_bind] in E.
  destruct (parseTime _ (st_ExpiresAt st')) as [exp|] eqn:Te; [|done]. cbn [res_bind] in E.
  destruct (parseTime _ (st_IssuedAt st')) as [iss|]; [|done]. cbn [res_bind] in E. apply parseTime_ok in Te.
  case_match; [done|]. destruct (Z.ltb_spec now exp); [|done]. simpl in E. case_match; [done|].
  destruct (validateAction _) as [[]|]; [|done]. cbn [res_bind] in E. injection E as <-. split; [done|]. by exists exp.
Qed.

(** A directive statement is accepted exactly when its bytes are within the
    size cap and free of duplicate keys, it decodes to version 1 for this
    instance, with a directive id of 1 to 64 bytes, an enrolled target, a
    well-formed action, and the clock inside its window: at most the leeway
    before [not_before], strictly before [expires_at], which lies at most 24
    hours ahead. *)
Theorem statement_accepted_exactly raw instance now st :
  ParseStatement raw instance now = Ok st
  <-> strict raw /\ decode_statement raw = Some st
      /\ st_V st = 1 /\ st_Instance st = instance
      /\ (st_DirectiveID st <> "" /\ len (st_DirectiveID st) <= 64)
      /\ (t_CN (st_TargetAgent st) <> "" /\ 1 <= t_Generation (st_TargetAgent st))
      /\ in_window st now /\ action_ok (st_Action st).
Proof.
  unfold ParseStatement, in_window, Before, Add. rewrite <- validateAction_ok.
  assert (Hs : forall exp, Sub exp now <= MaxExpiry <-> exp - now <= MaxExpiry)
    by (intros; apply Sub_le_iff; done).
  split.
  - intros E. destruct (decodeStrict decode_statement raw) as [st'|] eqn:Ed; [|done].
    apply decodeStrict_ok in Ed as [Hst Ed]. cbn [res_bind] in E.
    destruct (negb (st_V st' =? 1)) eqn:E1; [done|]. destruct (negb _) eqn:E2 in E; [done|].
    destruct (_ || _) eqn:E3 in E; [done|]. destruct (_ || _) eqn:E4 in E; [done|]. guards.
    destruct (parseTime _ (st_NotBefore st')) as [nbf|] eqn:Tn; [|done]. cbn [res_bind] in E.
    destruct (parseTime _ (st_ExpiresAt st')) as [exp|] eqn:Te; [|done]. cbn [res_bind] in E.
    destruct (parseTime _ (st_IssuedAt st')) as [iss|] eqn:Ti; [|done]. cbn [res_bind] in E.
    apply parseTime_ok in Tn, Te, Ti.
    destruct (Z.ltb_spec (now + ClockLeeway) nbf); [done|]. destruct (Z.ltb_spec now exp); [|done].
    simpl negb in E. cbv iota in E. destruct (Z.ltb_spec MaxExpiry (Sub exp now)) as [|Hx]; [done|].
    destruct (validateAction _) as [[]|] eqn:Ea; [|done]. cbn [res_bind] in E. injection E as <-.
    apply Hs in Hx. split_and!; try done; [lia | lia | lia |]. exists nbf, exp. split_and!; eauto; lia.
  - intros (Hst & Ed & Hv & Hi & (Hd1 & Hd2) & (Ht1 & Ht2) & (nbf & exp & Tn & Te & [iss Ti] & Hn & He & Hx) & Ha).
    rewrite (proj2 (decodeStrict_ok decode_statement raw st)) by done. cbn [res_bind].
    unfold parseTime. rewrite Hv, Hi, str_eqb_refl, Tn, Te, Ti, Ha. simpl negb. cbv iota.
    rewrite (proj2 (is_empty_false _) Hd1), (proj2 (is_empty_false _) Ht1).
    replace (64 <? len (st_DirectiveID st)) with false by lia.
    replace (t_Generation (st_TargetAgent st) <? 1) with false by lia. cbn [orb res_bind].
    replace (now + ClockLeeway <? nbf) with false by lia. replace (now <? exp) with true by lia. cbn [negb].
    apply Hs in Hx. by replace (MaxExpiry <? Sub exp now) with false by lia.
Qed.

(** An envelope is accepted exactly when its bytes pass the same checks, it is
    version 1 for this instance with an operation, and it was issued within the
    skew of now, either way. *)
Lemma ParseEnvelope_ok raw instance now skew e :
  0 <= skew < max_int64 ->
  ParseEnvelope raw instance now skew = Ok e
  <-> strict raw /\ decode_envelope raw = Some e /\ en_V e = 1 /\ en_Instance e = instance /\ en_Op e <> ""
      /\ exists ts, ParseRFC3339 (en_IssuedAt e) = Some ts /\ - skew <= now - ts <= skew.
Proof.
  intros Hk. unfold ParseEnvelope.
  assert (Hs : forall ts, (- skew <= Sub now ts <= skew) <-> - skew <= now - ts <= skew)
    by (intros; unfold Sub, sat64, min_int64, max_int64 in *; lia).
  split.
  - intros E. destruct (decodeStrict decode_envelope raw) as [e'|] eqn:Ed; [|done].
    apply decodeStrict_ok in Ed as [Hst Ed]. cbn [res_bind] in E.
    destruct (negb (en_V e' =? 1)) eqn:E1; [done|]. destruct (negb _) eqn:E2 in E; [done|].
    destruct (is_empty _) eqn:E3 in E; [done|]. guards.
    destruct (parseTime _ _) as [ts|] eqn:Tn; [|done]. apply parseTime_ok in Tn. cbn [res_bind] in E.
    destruct (_ || _) eqn:Ex in E; [done|]. injection E as <-. guards.
    split_and!; try done; [lia|]. exists ts. split; [done|]. apply Hs. lia.
  - intros (Hst & Ed & Hv & Hi & Ho & ts & Tn & Hx). apply Hs in Hx.
    rewrite (proj2 (decodeStrict_ok decode_envelope raw e)) by done. cbn [res_bind].
    unfold parseTime. rewrite Hv, Hi, str_eqb_refl, (proj2 (is_empty_false _) Ho), Tn. simpl negb. cbn [res_bind].
    replace (skew <? Sub now ts) with false by lia. by replace (Sub now ts <? - skew) with false by lia.
Qed.

End Parsed.

End Opsig.
