(* ===== verification/Rate.v ===== *)
(** The per-agent rate windows of [internal/broker/directive_agent.go]
    ([rateWindow]), used by the directive routes and by message verification. The
    mutex makes each call atomic; a counter stays far below the width of [int]
    within one minute, so it is a plain integer. *)

From S2P Require Import Prelude.

Module Rate.

(** [winCount]: the start of the window and the calls counted in it. *)
Record winCount := MkWin { w_start : Time; w_n : Z }.
Record rateWindow := MkRate { rw_limit : Z; rw_win : gmap string winCount }.

Definition newRateWindow (limit : Z) : rateWindow := MkRate limit ∅.

(** The windows still open at [now]. *)
Definition live_windows (now : Time) (win : gmap string winCount) : gmap string winCount :=
  filter (fun kv => Sub now (w_start kv.2) < Minute) win.

Definition take (cn : string) (now : Time) (rw : rateWindow) : rateWindow * (bool * Duration) :=
  let win := live_windows now (rw_win rw) in
  match win !! cn with
  | None => (MkRate (rw_limit rw) (<[cn := MkWin now 1]> win), (1 <=? rw_limit rw, 0))
  | Some w =>
    let w' := MkWin (w_start w) (w_n w + 1) in
    (MkRate (rw_limit rw) (<[cn := w']> win),
     if w_n w' <=? rw_limit rw then (true, 0) else (false, Sub (Add (w_start w) Minute) now))
  end.

Definition allow (cn : string) (now : Time) (rw : rateWindow) : rateWindow * bool :=
  let '(rw, (ok, _)) := take cn now rw in (rw, ok).

Definition refund (cn : string) (at_ : Time) (rw : rateWindow) : rateWindow :=
  match rw_win rw !! cn with
  | Some w =>
    if (0 <? w_n w) && negb (After (w_start w) at_) && (Sub at_ (w_start w) <? Minute)
    then MkRate (rw_limit rw) (<[cn := MkWin (w_start w) (w_n w - 1)]> (rw_win rw))
    else rw
  | None => rw
  end.

(** * How many calls get through *)

(** A sequence of calls, each with its caller and the clock it read, and how many
    of [cn]'s are allowed. *)
Fixpoint allowed (cn : string) (calls : list (string * Time)) (rw : rateWindow) : Z :=
  match calls with
  | [] => 0
  | (c, now) :: rest =>
    let '(rw', ok) := allow c now rw in
    (if str_eqb c cn && ok then 1 else 0) + allowed cn rest rw'
  end.

(** The clock does not go back, and stays below [hi]. *)
Fixpoint clocked (lo hi : Time) (calls : list (string * Time)) : Prop :=
  match calls with
  | [] => True
  | (_, now) :: rest => lo <= now < hi /\ clocked now hi rest
  end.

Lemma live_lookup now win cn :
  live_windows now win !! cn
  = match win !! cn with
    | Some w => if now - w_start w <? Minute then Some w else None
    | None => None
    end.
Proof.
  unfold live_windows. rewrite map_lookup_filter. destruct (win !! cn) as [w|]; simpl; [|done].
  assert (Hs : Sub now (w_start w) < Minute <-> now - w_start w < Minute) by (apply Sub_lt_iff; done).
  destruct (Z.ltb_spec (now - w_start w) Minute).
  - by rewrite option_guard_True by by apply Hs.
  - rewrite option_guard_False; [done|]. rewrite Hs. lia.
Qed.

(** What a call does to [cn]'s window: nothing if another caller's, except that a
    window that is over is dropped. *)
Lemma allow_window cn c now rw rw' ok :
  allow c now rw = (rw', ok) ->
  rw_limit rw' = rw_limit rw
  /\ rw_win rw' !! cn =
     (if str_eqb c cn
      then match live_windows now (rw_win rw) !! cn with
           | Some w => Some (MkWin (w_start w) (w_n w + 1))
           | None => Some (MkWin now 1)
           end
      else live_windows now (rw_win rw) !! cn)
  /\ (c = cn -> ok = match live_windows now (rw_win rw) !! cn with
                     | Some w => w_n w + 1 <=? rw_limit rw
                     | None => 1 <=? rw_limit rw
                     end).
Proof.
  unfold allow, take. intros E. destruct (str_eqb c cn) eqn:Ec; guards.
  - subst c. destruct (live_windows now (rw_win rw) !! cn) as [w|] eqn:El; simpl in E.
    + assert (rw' = MkRate (rw_limit rw) (<[cn := MkWin (w_start w) (w_n w + 1)]> (live_windows now (rw_win rw)))
        /\ ok = (w_n w + 1 <=? rw_limit rw)) as [-> ->] by (by destruct (_ <=? _); simplify_eq).
      simpl. by rewrite lookup_insert_eq.
    + simplify_eq. simpl. by rewrite lookup_insert_eq.
  - assert (rw' = MkRate (rw_limit rw) (<[c := match live_windows now (rw_win rw) !! c with
      | Some w => MkWin (w_start w) (w_n w + 1) | None => MkWin now 1 end]> (live_windows now (rw_win rw)))) as ->.
    { destruct (live_windows now (rw_win rw) !! c); simpl in E; [by destruct (_ <=? _); simplify_eq | by simplify_eq]. }
    simpl. by rewrite lookup_insert_ne.
Qed.

(** Within one window, at most what is left of it. *)
Lemma allowed_in_window cn calls : forall rw w lo hi,
  rw_win rw !! cn = Some w -> 0 <= w_n w -> hi <= w_start w + Minute ->
  clocked lo hi calls -> allowed cn calls rw <= Z.max 0 (rw_limit rw - w_n w).
Proof.
  induction calls as [|[c now] calls IH]; intros rw w lo hi Hw Hn Hhi Hc; simpl; [lia|].
  destruct Hc as [Hnow Hc]. destruct (allow c now rw) as [rw' ok] eqn:Ea.
  destruct (allow_window cn c now rw rw' ok Ea) as (El & Ew & Ho).
  rewrite live_lookup, Hw in Ew, Ho. replace (now - w_start w <? Minute) with true in Ew, Ho by lia.
  destruct (str_eqb c cn) eqn:Ec; guards; simpl.
  - specialize (Ho Ec). pose proof (IH rw' _ now hi Ew) as Hi. simpl in Hi. rewrite El in Hi.
    specialize (Hi ltac:(lia) ltac:(lia) Hc). subst ok. destruct (Z.leb_spec (w_n w + 1) (rw_limit rw)); lia.
  - pose proof (IH rw' w now hi Ew Hn Hhi Hc) as Hi. rewrite El in Hi. lia.
Qed.

(** With no open window, at most the limit within a minute. *)
Lemma allowed_fresh cn calls : forall rw lo hi,
  rw_win rw !! cn = None -> 0 <= rw_limit rw -> hi <= lo + Minute ->
  clocked lo hi calls -> allowed cn calls rw <= rw_limit rw.
Proof.
  induction calls as [|[c now] calls IH]; intros rw lo hi Hw Hl Hhi Hc; simpl; [lia|].
  destruct Hc as [Hnow Hc]. destruct (allow c now rw) as [rw' ok] eqn:Ea.
  destruct (allow_window cn c now rw rw' ok Ea) as (El & Ew & Ho).
  rewrite live_lookup, Hw in Ew, Ho. destruct (str_eqb c cn) eqn:Ec; guards; simpl.
  - specialize (Ho Ec). pose proof (allowed_in_window cn calls rw' _ now hi Ew) as Hi. simpl in Hi.
    rewrite El in Hi. specialize (Hi ltac:(lia) ltac:(lia) Hc). subst ok.
    destruct (Z.leb_spec 1 (rw_limit rw)); lia.
  - pose proof (IH rw' now hi Ew) as Hi. rewrite El in Hi. specialize (Hi Hl ltac:(lia) Hc). lia.
Qed.

Definition counts_nonneg (rw : rateWindow) : Prop := forall cn w, rw_win rw !! cn = Some w -> 0 <= w_n w.

Lemma counts_kept c now rw rw' ok :
  allow c now rw = (rw', ok) -> counts_nonneg rw -> counts_nonneg rw'.
Proof.
  intros Ea Hn cn w Hw. destruct (allow_window cn c now rw rw' ok Ea) as (_ & Ew & _).
  rewrite Hw in Ew. rewrite live_lookup in Ew. destruct (rw_win rw !! cn) as [w0|] eqn:E0.
  - specialize (Hn cn w0 E0). destruct (str_eqb c cn), (_ <? _); simplify_eq/=; lia.
  - destruct (str_eqb c cn); simplify_eq/=. lia.
Qed.

(** From any state: what is left of an open window, and one more. *)
Lemma allowed_general cn t calls : forall rw lo,
  0 <= rw_limit rw -> counts_nonneg rw -> t <= lo -> clocked lo (t + Minute) calls ->
  allowed cn calls rw <= match rw_win rw !! cn with
                         | Some w => Z.max 0 (rw_limit rw - w_n w) + rw_limit rw
                         | None => rw_limit rw
                         end.
Proof.
  induction calls as [|[c now] calls IH]; intros rw lo Hl Hn Hlo Hc; simpl; [case_match; lia|].
  destruct Hc as [Hnow Hc]. destruct (allow c now rw) as [rw' ok] eqn:Ea.
  destruct (allow_window cn c now rw rw' ok Ea) as (El & Ew & Ho). rewrite live_lookup in Ew, Ho.
  pose proof (counts_kept _ _ _ _ _ Ea Hn) as Hn'.
  pose proof (IH rw' now ltac:(lia) Hn' ltac:(lia) Hc) as Hi. rewrite El in Hi.
  destruct (rw_win rw !! cn) as [w|] eqn:Hw.
  - specialize (Hn cn w Hw). destruct (Z.ltb_spec (now - w_start w) Minute).
    + destruct (str_eqb c cn) eqn:Ec; guards; rewrite Ew in Hi; simpl in *; [|lia].
      specialize (Ho Ec). subst ok. destruct (Z.leb_spec (w_n w + 1) (rw_limit rw)); lia.
    + destruct (str_eqb c cn) eqn:Ec; guards; simpl in *.
      * pose proof (allowed_in_window cn calls rw' _ now (t + Minute) Ew) as Hj. simpl in Hj. rewrite El in Hj.
        specialize (Hj ltac:(lia) ltac:(lia) Hc). specialize (Ho Ec). subst ok.
        destruct (Z.leb_spec 1 (rw_limit rw)); lia.
      * rewrite Ew in Hi. lia.
  - destruct (str_eqb c cn) eqn:Ec; guards; simpl in *.
    + pose proof (allowed_in_window cn calls rw' _ now (t + Minute) Ew) as Hj. simpl in Hj. rewrite El in Hj.
      specialize (Hj ltac:(lia) ltac:(lia) Hc). specialize (Ho Ec). subst ok.
      destruct (Z.leb_spec 1 (rw_limit rw)); lia.
    + rewrite Ew in Hi. lia.
Qed.

(** The rate limit holds. While the clock does not go back, in any minute at
    most twice the limit of one agent's calls get through, and at most the limit
    when its window starts within that minute, whatever other agents call. *)
Theorem rate_limit_holds cn rw t calls :
  0 <= rw_limit rw -> counts_nonneg rw -> clocked t (t + Minute) calls ->
  allowed cn calls rw <= 2 * rw_limit rw
  /\ (rw_win rw !! cn = None -> allowed cn calls rw <= rw_limit rw).
Proof.
  intros Hl Hn Hc. split; [|intros Hw; eapply allowed_fresh; eauto; lia].
  pose proof (allowed_general cn t calls rw t Hl Hn ltac:(lia) Hc) as Hi.
  destruct (rw_win rw !! cn) as [w|] eqn:Hw; [|lia]. specialize (Hn cn w Hw). lia.
Qed.

(** A refund gives back only what was counted. It lowers only the named
    agent's window, by one, never below zero, and only a window that was open at
    the refunded call's time; a call and its refund leave the agent's budget as
    it was. *)
Theorem refund_undoes_take cn now rw rw' ok d :
  take cn now rw = (rw', (ok, d)) -> counts_nonneg rw ->
  counts_nonneg (refund cn now rw')
  /\ (forall cn', cn' <> cn -> rw_win (refund cn now rw') !! cn' = rw_win rw' !! cn')
  /\ rw_win (refund cn now rw') !! cn
     = Some (match live_windows now (rw_win rw) !! cn with
             | Some w => if now <? w_start w then MkWin (w_start w) (w_n w + 1) else w
             | None => MkWin now 0
             end).
Proof.
  intros E Hn.
  assert (Hl : forall cn w, live_windows now (rw_win rw) !! cn = Some w -> 0 <= w_n w).
  { intros c w Hw. rewrite live_lookup in Hw. destruct (rw_win rw !! c) as [w0|] eqn:E0; [|done].
    case_match; simplify_eq. by eapply Hn. }
  unfold take in E. assert (Hlive : forall w, live_windows now (rw_win rw) !! cn = Some w -> now - w_start w < Minute).
  { intros w Hw. rewrite live_lookup in Hw. destruct (rw_win rw !! cn); [|done]. case_match; simplify_eq. lia. }
  set (win := live_windows now (rw_win rw)) in *.
  assert (Hsub : forall x, Sub now x < Minute <-> now - x < Minute) by (intros; apply Sub_lt_iff; done).
  destruct (win !! cn) as [[st n]|] eqn:Ew; simpl in E.
  - assert (rw' = MkRate (rw_limit rw) (<[cn := MkWin st (n + 1)]> win)) as -> by (by destruct (_ <=? _); simplify_eq).
    specialize (Hl cn _ Ew) as Hn0. specialize (Hlive _ eq_refl). simpl in *.
    unfold refund. simpl. rewrite lookup_insert_eq. simpl. unfold After.
    replace (0 <? n + 1) with true by lia. replace (Sub now st <? Minute) with true by (symmetry; apply Z.ltb_lt, Hsub; lia).
    rewrite andb_true_r. simpl. destruct (Z.ltb_spec now st); simpl; split_and!.
    + intros c w. simpl. rewrite lookup_insert. case_decide; [intros [= <-]; simpl; lia | apply Hl].
    + done.
    + by rewrite lookup_insert_eq.
    + intros c w. simpl. rewrite lookup_insert. case_decide; [intros [= <-]; simpl; lia|].
      rewrite lookup_insert_ne by done. apply Hl.
    + intros c Hc. by rewrite lookup_insert_ne.
    + rewrite lookup_insert_eq. by replace (n + 1 - 1) with n by lia.
  - simplify_eq. unfold refund. simpl. rewrite lookup_insert_eq. simpl. unfold After.
    replace (now <? now) with false by lia.
    replace (Sub now now <? Minute) with true by (symmetry; apply Z.ltb_lt, Hsub; unfold Minute, Second; lia).
    simpl. split_and!.
    + intros c w. simpl. rewrite lookup_insert. case_decide; [intros [= <-]; simpl; lia|].
      rewrite lookup_insert_ne by done. apply Hl.
    + intros c Hc. by rewrite lookup_insert_ne.
    + by rewrite lookup_insert_eq.
Qed.

End Rate.
