(* ===== verification/Directive.v ===== *)
(** The directive store ([internal/broker/directive.go]): one-shot operator
    directives with replay tombstones, per-agent enrolment generations, and
    write-through persistence. Each method runs under the store's mutex, so each
    is a function of the store; [wrote] says whether a write it makes reached
    the disk. Records are only reachable through the store (every one handed in
    or out is copied), so a list of values stands for the slice of pointers. *)

From S2P Require Import Prelude.

Module Directive.

Definition tombstoneMargin : Duration := 48 * Hour.

Inductive DirectiveStatus := DirectiveActive | DirectiveConsumed | DirectiveRevoked | DirectiveInvalidated | DirectiveExpired.

#[export] Instance DirectiveStatus_eq_dec : EqDecision DirectiveStatus.
Proof. solve_decision. Defined.

Record DirectiveRecord := MkRecord {
  d_ID : string;
  d_State : DirectiveStatus;
  d_Statement : bytes;
  d_Signature : bytes;
  d_TargetCN : string;
  d_TargetGen : Z;
  d_Kind : string;
  d_NotBefore : Time;
  d_ExpiresAt : Time;
  d_ConsumedAt : Time;
  d_Previews : Z
}.

Record DirectiveState := MkState { Generations : gmap string Z; Directives : list DirectiveRecord }.

(** [ds_persist] is whether there is a persister, [ds_disk] what it last wrote. *)
Record DirectiveStore := MkStore {
  ds_gens : gmap string Z;
  ds_recs : list DirectiveRecord;
  ds_persist : bool;
  ds_disk : DirectiveState
}.

Definition set_state (st : DirectiveStatus) (at_ : Time) (r : DirectiveRecord) : DirectiveRecord :=
  MkRecord (d_ID r) st (d_Statement r) (d_Signature r) (d_TargetCN r) (d_TargetGen r) (d_Kind r)
    (d_NotBefore r) (d_ExpiresAt r) at_ (d_Previews r).
Definition set_previews (n : Z) (r : DirectiveRecord) : DirectiveRecord :=
  MkRecord (d_ID r) (d_State r) (d_Statement r) (d_Signature r) (d_TargetCN r) (d_TargetGen r) (d_Kind r)
    (d_NotBefore r) (d_ExpiresAt r) (d_ConsumedAt r) n.
Definition set_recs (recs : list DirectiveRecord) (s : DirectiveStore) : DirectiveStore :=
  MkStore (ds_gens s) recs (ds_persist s) (ds_disk s).
Definition set_gens (g : gmap string Z) (s : DirectiveStore) : DirectiveStore :=
  MkStore g (ds_recs s) (ds_persist s) (ds_disk s).

Definition newDirectiveStore (st : DirectiveState) (persist : bool) : DirectiveStore :=
  MkStore (Generations st) (Directives st) persist st.

Definition snapshotLocked (s : DirectiveStore) : DirectiveState := MkState (ds_gens s) (ds_recs s).

(** [persistLocked]: [true] is a nil error. *)
Definition persistLocked (wrote : bool) (s : DirectiveStore) : DirectiveStore * bool :=
  if negb (ds_persist s) then (s, true)
  else if wrote then (MkStore (ds_gens s) (ds_recs s) true (snapshotLocked s), true)
  else (s, false).

(** [s.gens[cn]], 0 when absent. *)
Definition Generation (cn : string) (s : DirectiveStore) : Z := default 0 (ds_gens s !! cn).

Definition prune (now : Time) (recs : list DirectiveRecord) : list DirectiveRecord :=
  List.filter (fun r => negb (After now (Add (d_ExpiresAt r) tombstoneMargin))) recs.

Definition pruneLocked (now : Time) (s : DirectiveStore) : DirectiveStore := set_recs (prune now (ds_recs s)) s.

(** The first record with an id, and a write through the pointer to it. *)
Definition find_rec (id : string) (recs : list DirectiveRecord) : option DirectiveRecord :=
  List.find (fun r => str_eqb (d_ID r) id) recs.
Fixpoint write_rec (id : string) (f : DirectiveRecord -> DirectiveRecord) (recs : list DirectiveRecord)
    : list DirectiveRecord :=
  match recs with
  | [] => []
  | r :: rs => if str_eqb (d_ID r) id then f r :: rs else r :: write_rec id f rs
  end.

Definition findLocked (id : string) (s : DirectiveStore) : option DirectiveRecord := find_rec id (ds_recs s).
Definition writeLocked (id : string) (f : DirectiveRecord -> DirectiveRecord) (s : DirectiveStore) : DirectiveStore :=
  set_recs (write_rec id f (ds_recs s)) s.

Inductive submitError := AlreadySeen (id : string) | PersistFailed (id : string).

Definition Submit (rec : DirectiveRecord) (now : Time) (wrote : bool) (s : DirectiveStore)
    : DirectiveStore * result unit submitError :=
  let s := pruneLocked now s in
  match findLocked (d_ID rec) s with
  | Some _ => (s, Err (AlreadySeen (d_ID rec)))
  | None =>
    let rec := set_state DirectiveActive (d_ConsumedAt rec) rec in
    let '(s', ok) := persistLocked wrote (set_recs (ds_recs s ++ [rec]) s) in
    if ok then (s', Ok tt)
    else (set_recs (take (length (ds_recs s') - 1) (ds_recs s')) s', Err (PersistFailed (d_ID rec)))
  end.

(** The gate [Consume] and [Preview] share. *)
Definition entitled (r : DirectiveRecord) (callerCN : string) (now : Time) (s : DirectiveStore) : bool :=
  negb (bool_decide (d_State r <> DirectiveActive) || negb (str_eqb (d_TargetCN r) callerCN)
        || negb (d_TargetGen r =? Generation callerCN s)
        || Before now (d_NotBefore r) || negb (Before now (d_ExpiresAt r))).

Definition Consume (id callerCN : string) (now : Time) (wrote : bool) (s : DirectiveStore)
    : DirectiveStore * option DirectiveRecord :=
  match findLocked id s with
  | None => (s, None)
  | Some r =>
    if negb (entitled r callerCN now s) then (s, None)
    else
      let '(s', ok) := persistLocked wrote (writeLocked id (set_state DirectiveConsumed now) s) in
      if ok then (s', findLocked id s')
      else (writeLocked id (set_state DirectiveActive zeroTime) s', None)
  end.

Inductive PreviewOutcome := PreviewMiss | PreviewOK | PreviewCapped.

Definition Preview (id callerCN : string) (now : Time) (limit : Z) (wrote : bool) (s : DirectiveStore)
    : DirectiveStore * option DirectiveRecord * PreviewOutcome :=
  match findLocked id s with
  | None => (s, None, PreviewMiss)
  | Some r =>
    if negb (entitled r callerCN now s) then (s, None, PreviewMiss)
    else if limit <=? d_Previews r then (s, None, PreviewCapped)
    else
      let '(s', ok) := persistLocked wrote (writeLocked id (fun r => set_previews (d_Previews r + 1) r) s) in
      if ok then (s', findLocked id s', PreviewOK)
      else (writeLocked id (fun r => set_previews (d_Previews r - 1) r) s', None, PreviewMiss)
  end.

Definition effectiveStatus (r : DirectiveRecord) (now : Time) : DirectiveStatus :=
  if bool_decide (d_State r = DirectiveActive) && negb (Before now (d_ExpiresAt r))
  then DirectiveExpired else d_State r.

Definition Check_ (id callerCN : string) (now : Time) (s : DirectiveStore) : option DirectiveStatus :=
  match findLocked id s with
  | Some r =>
    if str_eqb (d_TargetCN r) callerCN && (d_TargetGen r =? Generation callerCN s)
    then Some (effectiveStatus r now) else None
  | None => None
  end.

(** [RevokeDirective]: whether it is revoked, and whether the write succeeded. *)
Definition RevokeDirective (id : string) (wrote : bool) (s : DirectiveStore) : DirectiveStore * (bool * bool) :=
  match findLocked id s with
  | None => (s, (false, true))
  | Some r =>
    match d_State r with
    | DirectiveRevoked => let '(s', ok) := persistLocked wrote s in (s', (true, ok))
    | DirectiveActive =>
      let '(s', ok) := persistLocked wrote (writeLocked id (fun r => set_state DirectiveRevoked (d_ConsumedAt r) r) s) in
      (s', (true, ok))
    | _ => (s, (false, true))
    end
  end.

Definition List_ (now : Time) (s : DirectiveStore) : list DirectiveRecord :=
  (fun r => MkRecord (d_ID r) (effectiveStatus r now) "" "" (d_TargetCN r) (d_TargetGen r) (d_Kind r)
              (d_NotBefore r) (d_ExpiresAt r) (d_ConsumedAt r) (d_Previews r)) <$> ds_recs s.

Definition invalidate (cn : string) (r : DirectiveRecord) : DirectiveRecord :=
  if str_eqb (d_TargetCN r) cn && bool_decide (d_State r = DirectiveActive)
  then set_state DirectiveInvalidated (d_ConsumedAt r) r else r.

Definition BumpGeneration (cn : string) (wrote : bool) (s : DirectiveStore) : DirectiveStore :=
  let s := set_gens (<[cn := wrap64 (Generation cn s + 1)]> (ds_gens s)) s in
  (persistLocked wrote (set_recs (invalidate cn <$> ds_recs s) s)).1.

Definition EnsureGeneration (cn : string) (wrote : bool) (s : DirectiveStore) : DirectiveStore :=
  if negb (Generation cn s =? 0) then s
  else (persistLocked wrote (set_gens (<[cn := 1]> (ds_gens s)) s)).1.

(** * Records under the operations *)

Definition keeps_id (f : DirectiveRecord -> DirectiveRecord) : Prop := forall r, d_ID (f r) = d_ID r.

Lemma find_write id id' f recs : keeps_id f ->
  find_rec id (write_rec id' f recs) = if str_eqb id id' then f <$> find_rec id recs else find_rec id recs.
Proof.
  intros Hf. unfold find_rec. induction recs as [|r recs IH]; simpl; [by case_match|].
  destruct (str_eqb (d_ID r) id') eqn:E1; simpl; guards.
  - subst id'. rewrite Hf. destruct (str_eqb (d_ID r) id) eqn:E2; guards.
    + subst id. by rewrite str_eqb_refl.
    + destruct (str_eqb id (d_ID r)) eqn:E3; guards; [by subst | done].
  - destruct (str_eqb (d_ID r) id) eqn:E2; guards.
    + subst id. destruct (str_eqb (d_ID r) id') eqn:E3; guards; done.
    + apply IH.
Qed.

Lemma find_map id f recs : keeps_id f -> find_rec id (f <$> recs) = f <$> find_rec id recs.
Proof.
  intros Hf. unfold find_rec. induction recs as [|r recs IH]; simpl; [done|].
  rewrite Hf. by destruct (str_eqb (d_ID r) id).
Qed.

Lemma find_app id recs recs' :
  find_rec id (recs ++ recs') = match find_rec id recs with Some r => Some r | None => find_rec id recs' end.
Proof. unfold find_rec. induction recs as [|r recs IH]; simpl; [done|]. by destruct (str_eqb (d_ID r) id). Qed.

Lemma find_prune id now recs r :
  find_rec id recs = Some r -> now <= d_ExpiresAt r + tombstoneMargin -> find_rec id (prune now recs) = Some r.
Proof.
  unfold find_rec, prune, After, Add. intros E Hn. induction recs as [|r' recs IH]; simpl in *; [done|].
  destruct (str_eqb (d_ID r') id) eqn:E2.
  - injection E as ->. replace (d_ExpiresAt r + tombstoneMargin <? now) with false by lia. simpl. by rewrite E2.
  - case_match; [simpl; rewrite E2|]; by apply IH.
Qed.

Lemma find_id id recs r : find_rec id recs = Some r -> d_ID r = id.
Proof. intros E. apply List.find_some in E as [_ E]. by guards. Qed.

#[export] Hint Extern 1 (keeps_id _) => (intros ?; reflexivity) : lever.
Lemma invalidate_id cn : keeps_id (invalidate cn).
Proof. intros r. unfold invalidate. by case_match. Qed.
#[export] Hint Resolve invalidate_id : lever.

(** What a write leaves: the records and the persister flag; the disk is the old
    one or the new records. *)
Lemma persist_inv wrote s s' ok :
  persistLocked wrote s = (s', ok) ->
  ds_recs s' = ds_recs s /\ ds_gens s' = ds_gens s /\ ds_persist s' = ds_persist s
  /\ ok = (negb (ds_persist s) || wrote)
  /\ ds_disk s' = if ds_persist s && wrote then snapshotLocked s else ds_disk s.
Proof.
  unfold persistLocked. intros E. destruct (ds_persist s) eqn:Ep; simpl in E; [|by simplify_eq].
  destruct wrote; simplify_eq; done.
Qed.

(** * Sequences of operations *)

Inductive devent :=
| DSubmit (rec : DirectiveRecord) (now : Time) (wrote : bool)
| DConsume (id cn : string) (now : Time) (wrote : bool)
| DPreview (id cn : string) (now : Time) (limit : Z) (wrote : bool)
| DRevoke (id : string) (wrote : bool)
| DBump (cn : string) (wrote : bool)
| DEnsure (cn : string) (wrote : bool)
| DRestart.

Definition dexec (s : DirectiveStore) (e : devent) : DirectiveStore :=
  match e with
  | DSubmit rec now wrote => (Submit rec now wrote s).1
  | DConsume id cn now wrote => (Consume id cn now wrote s).1
  | DPreview id cn now limit wrote => (Preview id cn now limit wrote s).1.1
  | DRevoke id wrote => (RevokeDirective id wrote s).1
  | DBump cn wrote => BumpGeneration cn wrote s
  | DEnsure cn wrote => EnsureGeneration cn wrote s
  | DRestart => newDirectiveStore (ds_disk s) (ds_persist s)
  end.

Definition drun (s : DirectiveStore) (es : list devent) : DirectiveStore := foldl dexec s es.

(** No submission in the sequence reads a clock past an expiry by more than the
    tombstone margin. *)
Definition before_pruning (exp : Time) (e : devent) : Prop :=
  match e with DSubmit _ now _ => now <= exp + tombstoneMargin | _ => True end.

(** A property of the record of an id that every operation keeps. *)
Record stable (P : DirectiveRecord -> Prop) (exp : Time) : Prop := MkStable {
  sb_exp : forall r, P r -> d_ExpiresAt r = exp;
  sb_revoke : forall r, P r -> d_State r = DirectiveActive -> P (set_state DirectiveRevoked (d_ConsumedAt r) r);
  sb_bump : forall r cn, P r -> P (invalidate cn r);
  sb_consume : forall r now, P r -> d_State r = DirectiveActive -> P (set_state DirectiveConsumed now r);
  sb_rollback : forall r now, P r -> d_State r = DirectiveActive ->
    P (set_state DirectiveActive zeroTime (set_state DirectiveConsumed now r));
  sb_unpreview : forall r, P r -> d_State r = DirectiveActive ->
    P (set_previews (d_Previews r + 1 - 1) (set_previews (d_Previews r + 1) r))
}.

(** A preview keeps it too. *)
Definition preview_stable (P : DirectiveRecord -> Prop) : Prop :=
  forall r, P r -> d_State r = DirectiveActive -> P (set_previews (d_Previews r + 1) r).

(** The property holds of the id's record in memory and on disk. *)
Definition tracked (P : DirectiveRecord -> Prop) (id : string) (s : DirectiveStore) : Prop :=
  (exists r, find_rec id (ds_recs s) = Some r /\ P r)
  /\ (exists r, find_rec id (Directives (ds_disk s)) = Some r /\ P r)
  /\ ds_persist s = true.

Lemma tracked_persist P id wrote s s' ok :
  persistLocked wrote s = (s', ok) ->
  (exists r, find_rec id (ds_recs s) = Some r /\ P r) ->
  (exists r, find_rec id (Directives (ds_disk s)) = Some r /\ P r) -> ds_persist s = true ->
  tracked P id s'.
Proof.
  intros (Er & _ & Ep & _ & Ed)%persist_inv Hm Hd Hp. unfold tracked. rewrite Er, Ep, Hp, Ed, Hp. simpl.
  split_and!; [done | | done]. by destruct wrote.
Qed.

Lemma entitled_active r cn now s : entitled r cn now s = true -> d_State r = DirectiveActive.
Proof. unfold entitled. intros Hg. guards. by apply dec_stable. Qed.

(** A write to another id's record. *)
Lemma find_write_ne id id' f recs : keeps_id f -> id <> id' -> find_rec id (write_rec id' f recs) = find_rec id recs.
Proof. intros Hf Hne. rewrite find_write by done. by rewrite (proj2 (str_eqb_neq _ _) Hne). Qed.

Lemma find_write_eq id f recs : keeps_id f -> find_rec id (write_rec id f recs) = f <$> find_rec id recs.
Proof. intros Hf. rewrite find_write by done. by rewrite str_eqb_refl. Qed.

(** The record of [id] after a write to some id's record. *)
Lemma written_holds (P : DirectiveRecord -> Prop) id id' f recs r0 :
  keeps_id f -> find_rec id' recs = Some r0 -> (id = id' -> P r0 -> P (f r0)) ->
  (exists r, find_rec id recs = Some r /\ P r) -> exists r, find_rec id (write_rec id' f recs) = Some r /\ P r.
Proof.
  intros Hf E0 Hp (r & Er & Hr). rewrite find_write by done. destruct (str_eqb id id') eqn:E; guards; [|by eauto].
  subst id'. rewrite E0. rewrite E0 in Er. simplify_eq. simpl. by eauto.
Qed.

Lemma write_write id f g recs : keeps_id f -> write_rec id g (write_rec id f recs) = write_rec id (fun r => g (f r)) recs.
Proof.
  intros Hf. induction recs as [|r recs IH]; simpl; [done|].
  destruct (str_eqb (d_ID r) id) eqn:E; simpl; rewrite ?Hf, E; [done | by f_equal].
Qed.

Lemma take_submitted (recs : list DirectiveRecord) r : take (length (recs ++ [r]) - 1) (recs ++ [r]) = recs.
Proof.
  rewrite length_app. simpl. replace (length recs + 1 - 1)%nat with (length recs) by lia.
  by rewrite take_app_length.
Qed.

Lemma submit_tracked P exp id rec now wrote s :
  stable P exp -> now <= exp + tombstoneMargin -> tracked P id s -> tracked P id (Submit rec now wrote s).1.
Proof.
  intros Hst Hn ((r & Er & Hr) & Hd & Hp). unfold Submit.
  assert (Epr : find_rec id (ds_recs (pruneLocked now s)) = Some r).
  { apply find_prune; [done|]. by rewrite (sb_exp _ _ Hst r Hr). }
  destruct (findLocked _ _); [by split_and!; [exists r | |]|].
  set (rec' := set_state _ _ rec). destruct (persistLocked _ _) as [s' ok] eqn:Ew.
  pose proof (persist_inv _ _ _ _ Ew) as (Erecs & _ & Ep & Eok & Ed). simpl in *.
  destruct ok; simpl.
  - eapply tracked_persist; [exact Ew | | done | done]. exists r. simpl. by rewrite find_app, Epr.
  - rewrite Hp in Eok. simpl in Eok. subst wrote. rewrite andb_false_r in Ed.
    unfold tracked. simpl. rewrite Erecs, Ed, take_submitted. rewrite Ep. split_and!; [by exists r | done | done].
Qed.

Lemma consume_tracked P exp id id' cn now wrote s :
  stable P exp -> tracked P id s -> tracked P id (Consume id' cn now wrote s).1.
Proof.
  intros Hst (Hm & Hd & Hp). unfold Consume, findLocked. destruct (find_rec id' (ds_recs s)) as [r0|] eqn:E0; [|done].
  destruct (negb _) eqn:Eg; [done|]. guards. apply entitled_active in Eg.
  destruct (persistLocked _ _) as [s' ok] eqn:Ew. destruct ok; simpl.
  - eapply tracked_persist; [exact Ew | | done | done]. simpl.
    eapply written_holds; eauto with lever. intros _ Hr0. by apply (sb_consume _ _ Hst).
  - apply persist_inv in Ew as (Er & _ & Ep & Eok & Ed). simpl in *. rewrite Hp in Eok. simpl in Eok. subst wrote.
    rewrite andb_false_r in Ed. unfold tracked, writeLocked. simpl. rewrite Er, Ed, Ep, write_write by auto with lever.
    split_and!; [|done|done].
    eapply written_holds; [intros x; reflexivity | exact E0 | intros _ Hr0; by apply (sb_rollback _ _ Hst) | done].
Qed.

Lemma preview_tracked P exp id id' cn now limit wrote s :
  stable P exp -> (id = id' -> (Preview id' cn now limit wrote s).2 = PreviewOK -> preview_stable P) ->
  tracked P id s -> tracked P id (Preview id' cn now limit wrote s).1.1.
Proof.
  intros Hst Hps (Hm & Hd & Hp). unfold Preview, findLocked in *. destruct (find_rec id' (ds_recs s)) as [r0|] eqn:E0; [|done].
  destruct (negb _) eqn:Eg; [done|]. guards. apply entitled_active in Eg. destruct (limit <=? _); [done|].
  destruct (persistLocked _ _) as [s' ok] eqn:Ew. destruct ok; simpl in *.
  - eapply tracked_persist; [exact Ew | | done | done]. simpl.
    eapply written_holds; eauto with lever. intros Hid Hr0. by apply Hps.
  - apply persist_inv in Ew as (Er & _ & Ep & Eok & Ed). simpl in *. rewrite Hp in Eok. simpl in Eok. subst wrote.
    rewrite andb_false_r in Ed. unfold tracked, writeLocked. simpl. rewrite Er, Ed, Ep, write_write by auto with lever.
    split_and!; [|done|done].
    eapply written_holds; [intros x; reflexivity | exact E0 | intros _ Hr0; by apply (sb_unpreview _ _ Hst) | done].
Qed.

Lemma revoke_tracked P exp id id' wrote s :
  stable P exp -> tracked P id s -> tracked P id (RevokeDirective id' wrote s).1.
Proof.
  intros Hst (Hm & Hd & Hp). unfold RevokeDirective, findLocked. destruct (find_rec id' (ds_recs s)) as [r0|] eqn:E0; [|done].
  destruct (d_State r0) eqn:Es; try done; destruct (persistLocked _ _) as [s' ok] eqn:Ew; simpl;
    (eapply tracked_persist; [exact Ew | | done | done]); [|done]. simpl.
  eapply written_holds; eauto with lever. intros _ Hr0. by apply (sb_revoke _ _ Hst).
Qed.

(** [e] is a preview of [id] that returns it. *)
Definition previews_ok (id : string) (s : DirectiveStore) (e : devent) : bool :=
  match e with
  | DPreview id' cn now limit wrote =>
    str_eqb id id' && match (Preview id' cn now limit wrote s).2 with PreviewOK => true | _ => false end
  | _ => false
  end.

Lemma tracked_step P exp id s e :
  stable P exp -> (previews_ok id s e = true -> preview_stable P) -> before_pruning exp e -> tracked P id s -> tracked P id (dexec s e).
Proof.
  intros Hst Hps Hb Ht. destruct e; simpl.
  - by eapply submit_tracked.
  - by eapply consume_tracked.
  - eapply preview_tracked; [done | | done]. intros -> Ho. apply Hps. simpl. by rewrite str_eqb_refl, Ho.
  - by eapply revoke_tracked.
  - destruct Ht as ((r & Er & Hr) & Hd & Hp). unfold BumpGeneration. destruct (persistLocked _ _) as [s' ok] eqn:Ew. simpl.
    eapply tracked_persist; [exact Ew | | done | done]. exists (invalidate cn r). simpl.
    rewrite find_map by auto with lever. rewrite Er. split; [done | by apply (sb_bump _ _ Hst)].
  - destruct Ht as (Hm & Hd & Hp). unfold EnsureGeneration. case_match; [done|].
    destruct (persistLocked _ _) as [s' ok] eqn:Ew. simpl. by eapply tracked_persist.
  - destruct Ht as (_ & Hd & Hp). by split_and!.
Qed.

Lemma tracked_run P exp id es : forall s,
  stable P exp -> preview_stable P -> Forall (before_pruning exp) es -> tracked P id s -> tracked P id (drun s es).
Proof.
  induction es as [|e es IH]; intros s Hst Hps Hf Ht; [done|].
  apply Forall_cons in Hf as [Hb Hf]. apply IH; [done..|]. by eapply tracked_step.
Qed.

(** A finished directive: consumed, revoked or invalidated. *)
Definition finished (exp : Time) (r : DirectiveRecord) : Prop := d_State r <> DirectiveActive /\ d_ExpiresAt r = exp.

Lemma finished_stable exp : stable (finished exp) exp /\ preview_stable (finished exp).
Proof.
  unfold finished, preview_stable. split; [|naive_solver]. split; simpl; try naive_solver.
  intros r cn [Hs He]. unfold invalidate. case_match; by guards.
Qed.

(** Nothing can be read from a finished directive. *)
Lemma finished_refused exp id s :
  tracked (finished exp) id s ->
  (forall cn now wrote, Consume id cn now wrote s = (s, None))
  /\ (forall cn now limit wrote, Preview id cn now limit wrote s = (s, None, PreviewMiss)).
Proof.
  intros ((r & Er & Hs & _) & _).
  assert (He : forall cn now, entitled r cn now s = false).
  { intros. destruct (entitled r cn now s) eqn:E; [|done]. by apply entitled_active in E. }
  split; intros; unfold Consume, Preview, findLocked; by rewrite Er, He.
Qed.

(** ** Finishing *)

Lemma consume_finishes id cn now wrote s s' r :
  ds_persist s = true -> Consume id cn now wrote s = (s', Some r) ->
  tracked (finished (d_ExpiresAt r)) id s' /\ findLocked id s' = Some r.
Proof.
  intros Hp E. unfold Consume, findLocked in *. destruct (find_rec id (ds_recs s)) as [r0|] eqn:E0; [|done].
  destruct (negb _); [done|]. destruct (persistLocked _ _) as [s1 ok] eqn:Ew.
  destruct ok; [|done]. injection E as <- Er. pose proof (persist_inv _ _ _ _ Ew) as (Erecs & _ & Ep & Eok & Ed).
  simpl in *. rewrite Hp in Eok, Ed. simpl in Eok. subst wrote. simpl in Ed.
  assert (Hf : find_rec id (write_rec id (set_state DirectiveConsumed now) (ds_recs s)) = Some r)
    by by rewrite <- Erecs.
  assert (Hr : finished (d_ExpiresAt r) r).
  { rewrite find_write_eq, E0 in Hf by auto with lever. simpl in Hf. injection Hf as <-. done. }
  split; [|done]. unfold tracked. rewrite Erecs, Ed, Ep. simpl. by split_and!; [exists r | exists r |].
Qed.

(** C29: a directive is consumed at most once. After a consume that returned it,
    whatever operations follow, failed writes and broker restarts included, no
    consume or preview of that id returns anything again, as long as no
    submission reads a clock more than 48 hours past the directive's expiry. *)
Theorem consumed_at_most_once id cn now wrote s s' r es :
  ds_persist s = true -> Consume id cn now wrote s = (s', Some r) ->
  Forall (before_pruning (d_ExpiresAt r)) es ->
  let s2 := drun s' es in
  (forall cn2 now2 wrote2, Consume id cn2 now2 wrote2 s2 = (s2, None))
  /\ (forall cn2 now2 limit wrote2, Preview id cn2 now2 limit wrote2 s2 = (s2, None, PreviewMiss)).
Proof.
  intros Hp E Hes s2. destruct (consume_finishes _ _ _ _ _ _ _ Hp E) as [Ht _].
  destruct (finished_stable (d_ExpiresAt r)) as [Hst Hps].
  eapply finished_refused, tracked_run; eauto.
Qed.

Lemma finish_tracked id f wrote s s' ok r :
  ds_persist s = true -> wrote = true -> find_rec id (ds_recs s) = Some r ->
  persistLocked wrote (set_recs f s) = (s', ok) ->
  (exists r', find_rec id f = Some r' /\ finished (d_ExpiresAt r) r') ->
  tracked (finished (d_ExpiresAt r)) id s'.
Proof.
  intros Hp -> Er (Erecs & _ & Ep & _ & Ed)%persist_inv Hf. simpl in *. rewrite Hp in *.
  unfold tracked. rewrite Erecs, Ed, Ep. by split_and!.
Qed.

Lemma revoke_finishes id wrote s s' r :
  ds_persist s = true -> findLocked id s = Some r -> RevokeDirective id wrote s = (s', (true, true)) ->
  tracked (finished (d_ExpiresAt r)) id s'.
Proof.
  intros Hp Er E. unfold RevokeDirective in E. rewrite Er in E. unfold findLocked in Er.
  destruct (d_State r) eqn:Es; try done; destruct (persistLocked _ _) as [s1 ok] eqn:Ew; injection E as <- ->.
  - pose proof (persist_inv _ _ _ _ Ew) as (_ & _ & _ & Eok & _). simpl in Eok. rewrite Hp in Eok. simpl in Eok.
    eapply finish_tracked; [exact Hp | by symmetry | exact Er | exact Ew |]. rewrite find_write_eq, Er by auto with lever. eexists. split; [done | by split].
  - pose proof (persist_inv _ _ _ _ Ew) as (_ & _ & _ & Eok & _). rewrite Hp in Eok. simpl in Eok.
    apply (finish_tracked id (ds_recs s) wrote s s1 true); [done | done | done | by destruct s |].
    exists r. split; [done|]. split; [by rewrite Es | done].
Qed.

Lemma bump_finishes id s r :
  ds_persist s = true -> findLocked id s = Some r ->
  tracked (finished (d_ExpiresAt r)) id (BumpGeneration (d_TargetCN r) true s).
Proof.
  intros Hp Er. unfold BumpGeneration, findLocked in *. destruct (persistLocked _ _) as [s' ok] eqn:Ew. simpl.
  eapply finish_tracked; [| reflexivity | | exact Ew |]; [exact Hp | exact Er |]. simpl.
  rewrite find_map, Er by auto with lever. eexists. split; [done|]. unfold invalidate.
  rewrite str_eqb_refl. simpl. case_bool_decide; by split.
Qed.

(** Revoking a directive, or re-enrolling its target, ends it for good. Once
    the change is on disk, the directive is never returned again by a consume or
    a preview, under the same conditions on what follows. *)
Theorem revoke_or_reenrol_ends_it id s s' r es :
  ds_persist s = true -> findLocked id s = Some r -> Forall (before_pruning (d_ExpiresAt r)) es ->
  (exists wrote, RevokeDirective id wrote s = (s', (true, true))) \/ s' = BumpGeneration (d_TargetCN r) true s ->
  let s2 := drun s' es in
  (forall cn now wrote, (Consume id cn now wrote s2).2 = None)
  /\ (forall cn now limit wrote, (Preview id cn now limit wrote s2).1.2 = None).
Proof.
  intros Hp Er Hes He s2. destruct (finished_stable (d_ExpiresAt r)) as [Hst Hps].
  assert (Ht : tracked (finished (d_ExpiresAt r)) id s')
    by (destruct He as [[wrote E] | ->]; [by eapply revoke_finishes | by apply bump_finishes]).
  destruct (finished_refused _ _ _ (tracked_run _ _ _ es _ Hst Hps Hes Ht)) as [H1 H2].
  split; intros; [by rewrite H1 | by rewrite H2].
Qed.

(** ** Submitting *)

Definition expires (exp : Time) (r : DirectiveRecord) : Prop := d_ExpiresAt r = exp.

Lemma expires_stable exp : stable (expires exp) exp /\ preview_stable (expires exp).
Proof.
  unfold expires, preview_stable. split; [|naive_solver]. split; simpl; try naive_solver.
  intros r cn He. unfold invalidate. by case_match.
Qed.

Lemma submit_stores rec now wrote s s' :
  ds_persist s = true -> Submit rec now wrote s = (s', Ok tt) ->
  wrote = true /\ tracked (expires (d_ExpiresAt rec)) (d_ID rec) s'
  /\ findLocked (d_ID rec) s' = Some (set_state DirectiveActive (d_ConsumedAt rec) rec)
  /\ ds_disk s' = snapshotLocked s'.
Proof.
  intros Hp E. unfold Submit, findLocked in *. destruct (find_rec _ _) eqn:E0; [done|].
  destruct (persistLocked _ _) as [s1 ok] eqn:Ew. destruct ok; [|done]. injection E as <-.
  pose proof (persist_inv _ _ _ _ Ew) as (Erecs & Eg & Ep & Eok & Ed). simpl in *. rewrite Hp in *. simpl in Eok. subst wrote.
  assert (Hf : find_rec (d_ID rec) (prune now (ds_recs s) ++ [set_state DirectiveActive (d_ConsumedAt rec) rec])
               = Some (set_state DirectiveActive (d_ConsumedAt rec) rec)).
  { rewrite find_app. simpl in E0. rewrite E0. unfold find_rec. simpl. by rewrite str_eqb_refl. }
  unfold tracked. rewrite Erecs, Ed, Ep. simpl. rewrite Hf. unfold snapshotLocked. rewrite Eg, Erecs.
  split_and!; try done; by eexists.
Qed.

Lemma resubmit_refused rec now wrote s s' es rec' now' wrote' :
  ds_persist s = true -> Submit rec now wrote s = (s', Ok tt) ->
  Forall (before_pruning (d_ExpiresAt rec)) es ->
  d_ID rec' = d_ID rec -> now' <= d_ExpiresAt rec + tombstoneMargin ->
  (Submit rec' now' wrote' (drun s' es)).2 = Err (AlreadySeen (d_ID rec)).
Proof.
  intros Hp E Hes Hid Hn. destruct (submit_stores _ _ _ _ _ Hp E) as (_ & Ht & _).
  destruct (expires_stable (d_ExpiresAt rec)) as [Hst Hps].
  destruct (tracked_run _ _ _ es _ Hst Hps Hes Ht) as ((r & Er & Hr) & _).
  unfold Submit, findLocked. simpl. rewrite Hid. by rewrite (find_prune _ _ _ _ Er) by (rewrite Hr; done).
Qed.

(** A directive id is accepted once. After an accepted submission, which is
    on disk, every later submission of that id is refused as already seen, failed
    writes and restarts in between included, until more than 48 hours past the
    first one's expiry. *)
Theorem replay_refused rec now wrote s s' es rec' now' wrote' :
  ds_persist s = true -> Submit rec now wrote s = (s', Ok tt) ->
  Forall (before_pruning (d_ExpiresAt rec)) es ->
  d_ID rec' = d_ID rec -> now' <= d_ExpiresAt rec + tombstoneMargin ->
  (Submit rec' now' wrote' (drun s' es)).2 = Err (AlreadySeen (d_ID rec)).
Proof. apply resubmit_refused. Qed.

(** ** Previews *)

Definition previewed (exp : Time) (n : Z) (r : DirectiveRecord) : Prop := d_ExpiresAt r = exp /\ d_Previews r = n.

Lemma previewed_stable exp n : stable (previewed exp n) exp.
Proof.
  unfold previewed. split; simpl; try naive_solver; [|naive_solver lia].
  intros r cn He. unfold invalidate. by case_match.
Qed.

(** How many previews of [id] return it along a sequence. *)
Fixpoint previews_returned (id : string) (es : list devent) (s : DirectiveStore) : Z :=
  match es with
  | [] => 0
  | e :: es' => (if previews_ok id s e then 1 else 0) + previews_returned id es' (dexec s e)
  end.

Definition preview_limit (limit : Z) (e : devent) : Prop :=
  match e with DPreview _ _ _ l _ => l = limit | _ => True end.

Lemma preview_counts exp n id cn now limit wrote s s' r :
  tracked (previewed exp n) id s -> Preview id cn now limit wrote s = (s', r, PreviewOK) ->
  n < limit /\ tracked (previewed exp (n + 1)) id s'.
Proof.
  intros ((r0 & E0 & He & Hn) & Hd & Hp) E. unfold Preview, findLocked in E. rewrite E0 in E.
  destruct (negb _); [done|]. destruct (Z.leb_spec limit (d_Previews r0)); [done|].
  destruct (persistLocked _ _) as [s1 ok] eqn:Ew. destruct ok; [|done]. injection E as <- _.
  split; [lia|]. apply persist_inv in Ew as (Erecs & _ & Ep & Eok & Ed). simpl in *.
  rewrite Hp in *. simpl in Eok. subst wrote. simpl in Ed.
  assert (Hf : exists r, find_rec id (write_rec id (fun r => set_previews (d_Previews r + 1) r) (ds_recs s)) = Some r
    /\ previewed exp (n + 1) r).
  { rewrite find_write_eq, E0 by auto with lever. eexists. split; [done|]. split; simpl; [done | lia]. }
  unfold tracked. rewrite Erecs, Ed, Ep. by split_and!.
Qed.

(** Previews are bounded for good. Starting from a directive that was
    previewed [n] times, in memory and on disk alike, at most [limit - n] more
    previews return it, across failed writes and restarts. *)
Theorem previews_bounded exp n id limit es : forall s,
  tracked (previewed exp n) id s -> Forall (before_pruning exp) es -> Forall (preview_limit limit) es ->
  previews_returned id es s <= Z.max 0 (limit - n).
Proof.
  revert n. induction es as [|e es IH]; intros n s Ht Hb Hl; simpl; [lia|].
  apply Forall_cons in Hb as [Hb Hbs]. apply Forall_cons in Hl as [Hl Hls].
  destruct (previews_ok id s e) eqn:Eo.
  - destruct e as [| |id' cn now l wrote| | | |]; try done. simpl in Eo, Hl. subst l. guards. subst id'.
    destruct (Preview id cn now limit wrote s) as [[s' r] o] eqn:E. simpl in *.
    assert (o = PreviewOK) as -> by by destruct o.
    destruct (preview_counts _ _ _ _ _ _ _ _ _ _ Ht E) as [Hlt Ht'].
    rewrite E. simpl. specialize (IH (n + 1) s' Ht' Hbs Hls). lia.
  - pose proof (tracked_step _ _ id s e (previewed_stable exp n)) as Hstep.
    rewrite Eo in Hstep. specialize (Hstep ltac:(done) Hb Ht). specialize (IH n _ Hstep Hbs Hls). lia.
Qed.

(** ** What no operation changes *)

(** The fields of a record that are set once, at its submission. *)
Definition fixed (r : DirectiveRecord) :=
  (d_ID r, d_Statement r, d_Signature r, d_TargetCN r, d_TargetGen r, d_Kind r, d_NotBefore r, d_ExpiresAt r).

Section Fixed.
Context (Q : DirectiveRecord -> Prop) (HQ : forall r r', fixed r = fixed r' -> Q r -> Q r').

Definition all_hold (s : DirectiveStore) : Prop := Forall Q (ds_recs s) /\ Forall Q (Directives (ds_disk s)).

Lemma write_holds id f recs : (forall r, fixed r = fixed (f r)) -> Forall Q recs -> Forall Q (write_rec id f recs).
Proof. intros Hf. induction 1; simpl; [done|]. case_match; constructor; eauto. Qed.

Lemma persist_holds wrote s s' ok : persistLocked wrote s = (s', ok) -> all_hold s -> all_hold s'.
Proof.
  intros (Er & _ & _ & _ & Ed)%persist_inv [Hm Hd]. split; [by rewrite Er|]. rewrite Ed. by case_match.
Qed.

Lemma hold_step s e :
  (forall rec now wrote, e = DSubmit rec now wrote -> Q rec) -> all_hold s -> all_hold (dexec s e).
Proof.
  intros Hsub [Hm Hd]. destruct e as [rec now wrote|id cn now wrote|id cn now limit wrote|id wrote|cn wrote|cn wrote|]; simpl.
  - assert (Hpr : Forall Q (prune now (ds_recs s))).
    { apply Forall_forall. intros r Hin%list_elem_of_In. apply List.filter_In in Hin as [Hin _].
      rewrite Forall_forall in Hm. by apply Hm, list_elem_of_In. }
    unfold Submit. destruct (findLocked _ _); [done|]. destruct (persistLocked _ _) as [s2 ok] eqn:Ew.
    assert (H2 : all_hold s2).
    { eapply persist_holds; [exact Ew|]. split; [|done]. apply Forall_app. split; [done|]. constructor; [|done].
      eapply HQ; [|by eapply Hsub]. done. }
    destruct ok; [done|]. destruct H2 as [H2 H3]. split; [by apply Forall_take | exact H3].
  - unfold Consume. destruct (findLocked _ _); [|done]. case_match; [done|]. destruct (persistLocked _ _) as [s2 ok] eqn:Ew.
    assert (H2 : all_hold s2) by (eapply persist_holds; [exact Ew|]; split; [by apply write_holds | done]).
    destruct ok; [done|]. destruct H2. split; [by apply write_holds | done].
  - unfold Preview. destruct (findLocked _ _); [|done]. repeat (case_match; [done|]). destruct (persistLocked _ _) as [s2 ok] eqn:Ew.
    assert (H2 : all_hold s2) by (eapply persist_holds; [exact Ew|]; split; [by apply write_holds | done]).
    destruct ok; [done|]. destruct H2. split; [by apply write_holds | done].
  - unfold RevokeDirective. destruct (findLocked _ _) as [r|]; [|done].
    destruct (d_State r); try done; destruct (persistLocked _ _) as [s2 ok] eqn:Ew; (eapply persist_holds; [exact Ew|]); [|done].
    split; [by apply write_holds | done].
  - unfold BumpGeneration. destruct (persistLocked _ _) as [s2 ok] eqn:Ew. eapply persist_holds; [exact Ew|].
    split; [|done]. simpl. apply Forall_fmap. eapply Forall_impl; [exact Hm|]. intros r. simpl. apply HQ.
    unfold invalidate. by case_match.
  - unfold EnsureGeneration. case_match; [done|]. destruct (persistLocked _ _) as [s2 ok] eqn:Ew. by eapply persist_holds.
  - done.
Qed.

Lemma hold_run es : forall s,
  Forall (fun e => forall rec now wrote, e = DSubmit rec now wrote -> Q rec) es -> all_hold s -> all_hold (drun s es).
Proof.
  induction es as [|e es IH]; intros s Hf Hs; [done|]. apply Forall_cons in Hf as [He Hf]. apply IH; [done|]. by apply hold_step.
Qed.
End Fixed.

(** ** Consuming, exactly *)

Lemma consume_returns id cn now wrote s s' r' :
  Consume id cn now wrote s = (s', Some r') ->
  exists r, findLocked id s = Some r /\ entitled r cn now s = true /\ r' = set_state DirectiveConsumed now r.
Proof.
  unfold Consume, findLocked. intros E. destruct (find_rec id (ds_recs s)) as [r|] eqn:Er; [|done].
  destruct (entitled r cn now s) eqn:Eg; [|done]. simpl in E. destruct (persistLocked _ _) as [s1 ok] eqn:Ew.
  destruct ok; [|done]. injection E as <- E. apply persist_inv in Ew as (Erecs & _). simpl in Erecs.
  rewrite Erecs, find_write_eq, Er in E by auto with lever. simpl in E. injection E as <-. by exists r.
Qed.

(** An active record has not been consumed. *)
Definition kept (r : DirectiveRecord) : Prop := d_State r = DirectiveActive -> d_ConsumedAt r = zeroTime.
Definition well_kept (s : DirectiveStore) : Prop :=
  Forall kept (ds_recs s).

Lemma write_id id f recs r : find_rec id recs = Some r -> f r = r -> write_rec id f recs = recs.
Proof.
  intros E Hf. unfold find_rec in E. induction recs as [|r' recs IH]; simpl in *; [done|].
  destruct (str_eqb (d_ID r') id); [by simplify_eq; rewrite Hf | by rewrite IH].
Qed.

Lemma entitled_iff r cn now s :
  entitled r cn now s = true
  <-> d_State r = DirectiveActive /\ d_TargetCN r = cn /\ d_TargetGen r = Generation cn s
      /\ d_NotBefore r <= now < d_ExpiresAt r.
Proof.
  unfold entitled, Before. split.
  - intros Hg. guards. split_and!; [by apply dec_stable | done | lia..].
  - intros (Hs & Hc & Hg & Hn). rewrite Hs, Hc, Hg, str_eqb_refl, Z.eqb_refl.
    replace (now <? d_NotBefore r) with false by lia. replace (now <? d_ExpiresAt r) with true by lia. done.
Qed.

Lemma write_kept id f recs : (forall r, kept r -> kept (f r)) -> Forall kept recs -> Forall kept (write_rec id f recs).
Proof. intros Hf. induction 1; simpl; [done|]. case_match; constructor; auto. Qed.

Lemma persist_kept wrote s :
  Forall kept (ds_recs s) /\ Forall kept (Directives (ds_disk s)) ->
  Forall kept (ds_recs (persistLocked wrote s).1) /\ Forall kept (Directives (ds_disk (persistLocked wrote s).1)).
Proof. unfold persistLocked. intros [? ?]. by repeat case_match. Qed.

Ltac kept_write :=
  apply write_kept; [let r := fresh in let Hk := fresh in intros r Hk; unfold kept in *; simpl in *; (exact Hk || done) | assumption].

(** The store stays well kept when submissions come unconsumed, as the send
    route makes them. *)
Lemma well_kept_step s e :
  (forall rec now wrote, e = DSubmit rec now wrote -> d_ConsumedAt rec = zeroTime) ->
  Forall kept (ds_recs s) /\ Forall kept (Directives (ds_disk s)) ->
  Forall kept (ds_recs (dexec s e)) /\ Forall kept (Directives (ds_disk (dexec s e))).
Proof.
  intros Hsub [Hm Hd]. destruct e as [rec now wrote|id cn now wrote|id cn now limit wrote|id wrote|cn wrote|cn wrote|]; simpl.
  - assert (Hpr : Forall kept (prune now (ds_recs s))).
    { apply Forall_forall. intros r Hin%list_elem_of_In. apply List.filter_In in Hin as [Hin _].
      rewrite Forall_forall in Hm. by apply Hm, list_elem_of_In. }
    assert (Hn : kept (set_state DirectiveActive (d_ConsumedAt rec) rec)) by exact (fun _ => Hsub rec now wrote eq_refl).
    unfold Submit. destruct (findLocked _ _); [done|]. set (s1 := set_recs _ _).
    destruct (persist_kept wrote s1) as [H1 H2]; [split; [apply Forall_app; split; [exact Hpr | by constructor] | exact Hd]|].
    destruct (persistLocked wrote s1) as [s2 ok]. simpl in *. case_match; simpl; [done|].
    split; [by apply Forall_take | exact H2].
  - unfold Consume. destruct (findLocked _ _); [|done]. case_match; [done|]. set (s1 := writeLocked _ _ _).
    destruct (persist_kept wrote s1) as [H1 H2]; [split; [kept_write | done]|].
    destruct (persistLocked wrote s1) as [s2 ok]. simpl in *. case_match; simpl; [done|]. split; [kept_write | done].
  - unfold Preview. destruct (findLocked _ _); [|done]. repeat (case_match; [done|]). set (s1 := writeLocked _ _ _).
    destruct (persist_kept wrote s1) as [H1 H2]; [split; [kept_write | done]|].
    destruct (persistLocked wrote s1) as [s2 ok]. simpl in *. case_match; simpl; [done|]. split; [kept_write | done].
  - unfold RevokeDirective. destruct (findLocked _ _) as [r|]; [|done]. destruct (d_State r); try done.
    + set (s1 := writeLocked _ _ _). destruct (persist_kept wrote s1) as [H1 H2]; [split; [kept_write | done]|].
      by destruct (persistLocked wrote s1).
    + destruct (persist_kept wrote s) as [H1 H2]; [done|]. by destruct (persistLocked wrote s).
  - apply persist_kept. split; [|done]. simpl. apply Forall_fmap. eapply Forall_impl; [exact Hm|].
    intros r Hr. simpl. unfold invalidate. by case_match.
  - unfold EnsureGeneration. case_match; [done|]. by apply persist_kept.
  - done.
Qed.

(** Consuming is an atomic compare-and-swap. It returns a directive exactly
    when the id names an active one for the calling agent at its current
    enrolment generation, inside its window, and the flip reached the disk; what
    it returns is that record, now consumed. Every other outcome returns nothing
    and leaves the store as it was. *)
Theorem consume_is_compare_and_swap id cn now wrote s :
  well_kept s ->
  match Consume id cn now wrote s with
  | (s', Some r') =>
    exists r, findLocked id s = Some r /\ entitled r cn now s = true /\ (ds_persist s = true -> wrote = true)
      /\ r' = set_state DirectiveConsumed now r
      /\ findLocked id s' = Some r' /\ (forall id2, id2 <> id -> findLocked id2 s' = findLocked id2 s)
      /\ (ds_persist s = true -> ds_disk s' = snapshotLocked s')
  | (s', None) =>
    s' = s /\ (forall r, findLocked id s = Some r -> entitled r cn now s = true ->
                ds_persist s = true /\ wrote = false)
  end.
Proof.
  intros Hk. unfold Consume, findLocked. destruct (find_rec id (ds_recs s)) as [r|] eqn:Er; [|by split].
  destruct (entitled r cn now s) eqn:Eg; simpl; [|split; [done|]; intros r0 [= <-]; by rewrite Eg].
  destruct (persistLocked _ _) as [s' ok] eqn:Ew. pose proof (persist_inv _ _ _ _ Ew) as (Erecs & Egs & Ep & Eok & Ed).
  simpl in *. destruct ok.
  - rewrite Erecs, find_write_eq, Er by auto with lever. simpl. exists r. split_and!; try done.
    + intros Hp. by rewrite Hp in Eok.
    + intros id2 Hne. by rewrite find_write_ne by (done || auto with lever).
    + intros Hp. rewrite Hp in *. simpl in Eok. subst wrote. simpl in Ed. rewrite Ed.
      unfold snapshotLocked. by rewrite Egs, Erecs.
  - destruct (ds_persist s) eqn:Hp; [|done]. simpl in Eok. subst wrote. simpl in *. split; [|done].
    assert (Hz : d_ConsumedAt r = zeroTime).
    { unfold well_kept in Hk. rewrite Forall_forall in Hk. apply Hk; [|by eapply entitled_active].
      apply List.find_some in Er as [Hin _]. by apply list_elem_of_In. }
    unfold writeLocked, set_recs. rewrite Erecs, Egs, Ep, Ed, write_write by auto with lever.
    rewrite (write_id id _ _ r Er).
    { destruct s; simpl in *; by subst. }
    apply entitled_active in Eg. unfold set_state. destruct r; simpl in *. by subst.
Qed.

End Directive.
