(* ===== verification/SentLedger.v ===== *)
(** The sent ledger ([internal/sentledger/sentledger.go]) over the record files
    of [internal/hostledger]: every message lever sends, one file per (recipient,
    kind) with a rotated copy, and an index by send id that follows the files.

    A file is its lines, decoded: [None] is a line a reader skips (torn, too
    long, not JSON). What the file system answers (a safe directory, a lock, an
    append or a read that succeeds) is an input of each operation. *)

From S2P Require Import Prelude Token.

Module SentLedger.

(** * Kinds and ids *)

Definition KindManager : string := "manager".
Definition KindOperatorNote : string := "operator-note".
Definition KindDirectiveNotice : string := "directive-notice".
Definition KindWorkerPrefix : string := "worker:".

Definition slug_first (c : ascii) : bool := in_range "a"%char "z"%char c || in_range "0"%char "9"%char c.
Definition slug_rest (c : ascii) : bool := slug_first c || bool_decide (c ∈ ["."%char; "_"%char; "-"%char]).

(** [workerSlug]: [^[a-z0-9][a-z0-9._-]{0,127}$]. *)
Definition workerSlug (s : string) : bool :=
  match s with
  | EmptyString => false
  | String c s' => slug_first c && string_forallb slug_rest s' && (len s' <=? 127)
  end.

Definition WorkerKind (slug : string) : string := KindWorkerPrefix +:+ slug.

Definition ValidKind (k : string) : bool :=
  bool_decide (k ∈ [KindManager; KindOperatorNote; KindDirectiveNotice])
  || let '(slug, ok) := CutPrefix k KindWorkerPrefix in ok && workerSlug slug.

Definition RotateCap : Z := 2 ^ 20.
Definition Window : Duration := 24 * Hour.

(** [idPattern]: [^[0-9a-f]{32}$]. *)
Definition ValidID (id : string) : bool := (len id =? 32) && string_forallb is_lower_hex id.

(** [NewID]; [None] when the randomness fails. *)
Definition NewID (idb : option bytes) : option string := Token.hex_encode <$> idb.

(** * Records *)

Record Sent := MkSent {
  se_ID : string;
  se_Recipient : string;
  se_Slug : string;
  se_Kind : string;
  se_Body : string;
  se_Before : Time;
  se_After : Time;
  se_OK : bool
}.

Inductive lineOp := opSend | opDone | opOther.

Record line := MkLine {
  ln_V : Z;
  ln_Op : lineOp;
  ln_ID : string;
  ln_Recipient : string;
  ln_Slug : string;
  ln_Kind : string;
  ln_Body : string;
  ln_Before : option Time;
  ln_After : option Time;
  ln_OK : bool
}.

(** The file name's hashes ([short]), and the size of a line's JSON. *)
Class LedgerLib := { short : string -> string; line_size : line -> Z }.

(** A record file's name: the hashes of the recipient and of the kind. *)
Abbreviation fname := (string * string)%type (only parsing).

Record stamp := MkStamp { ino : Z; size : Z; mod_ : Time }.

#[export] Instance stamp_eq_dec : EqDecision stamp.
Proof. solve_decision. Defined.

(** A record file: its stamp, its lines, and the lines of its rotated copy. *)
Record file := MkFile { f_stamp : stamp; f_lines : list (option line); f_old : list (option line) }.

Record Ledger := MkLedger {
  l_disk : gmap fname file;
  l_index : gmap string Sent;
  l_where : gmap string fname;
  l_seen : gmap fname stamp
}.

Inductive ledgerError := BadID | BadKind | BadSend | UnsafeDir | AppendFailed | ReadFailed.

(** What the file system does in one operation: whether the directory is safe,
    whether an append succeeds and the stamp the file then has, and whether the
    record files can be read. *)
Record FS := MkFS { fs_dir : bool; fs_append : bool; fs_new : stamp; fs_read : bool }.

Section Ledger.
Context `{LedgerLib}.

Definition FileFor (recipient kind : string) : fname := (short recipient, short kind).

(** [hostledger.File.Append]: a file past its cap becomes the rotated copy first. *)
Definition append_line (fs : FS) (name : fname) (ln : line) (disk : gmap fname file) : option (gmap fname file) :=
  if negb (fs_append fs) then None
  else Some (<[name :=
    match disk !! name with
    | None => MkFile (fs_new fs) [Some ln] []
    | Some f =>
      if RotateCap <? size (f_stamp f) then MkFile (fs_new fs) [Some ln] (f_lines f)
      else MkFile (fs_new fs) (f_lines f ++ [Some ln]) (f_old f)
    end]> disk).

(** ** Reloading *)

(** One line of [reloadLocked]'s reader: the sends by id, and their order. *)
Definition read_line (name : fname) (acc : gmap string Sent * list string) (raw : option line)
    : gmap string Sent * list string :=
  let '(byID, order) := acc in
  match raw with
  | None => acc
  | Some ln =>
    if negb (ln_V ln =? 1) || negb (ValidID (ln_ID ln)) then acc
    else match ln_Op ln with
    | opSend =>
      match ln_Before ln with
      | None => acc
      | Some before =>
        if negb (ValidKind (ln_Kind ln)) || is_empty (ln_Recipient ln)
           || negb (bool_decide (FileFor (ln_Recipient ln) (ln_Kind ln) = name)) then acc
        else match byID !! ln_ID ln with
        | Some _ => acc
        | None =>
          (<[ln_ID ln := MkSent (ln_ID ln) (ln_Recipient ln) (ln_Slug ln) (ln_Kind ln) (ln_Body ln)
                           before zeroTime false]> byID,
           order ++ [ln_ID ln])
        end
      end
    | opDone =>
      match byID !! ln_ID ln, ln_After ln with
      | Some s, Some after =>
        if IsZero (se_After s)
        then (<[ln_ID ln := MkSent (se_ID s) (se_Recipient s) (se_Slug s) (se_Kind s) (se_Body s)
                              (se_Before s) after (ln_OK ln)]> byID, order)
        else acc
      | _, _ => acc
      end
    | opOther => acc
    end
  end.

Definition read_file (name : fname) (f : file) : gmap string Sent * list string :=
  foldl (read_line name) (∅, []) (f_old f ++ f_lines f).

(** The index without the entries [name] held. *)
Definition drop_name (name : fname) (l : Ledger) : Ledger :=
  MkLedger (l_disk l)
    (filter (fun kv => l_where l !! kv.1 <> Some name) (l_index l))
    (filter (fun kv => kv.2 <> name) (l_where l)) (l_seen l).

(** [put]. *)
Definition put (name : fname) (s : Sent) (l : Ledger) : Ledger :=
  MkLedger (l_disk l) (<[se_ID s := s]> (l_index l)) (<[se_ID s := name]> (l_where l)) (l_seen l).

(** The loop over [order]: an id another file holds is kept. *)
Definition put_read (name : fname) (byID : gmap string Sent) (l : Ledger) (id : string) : Ledger :=
  match l_index l !! id, byID !! id with
  | None, Some s => put name s l
  | _, _ => l
  end.

Definition set_seen (seen : gmap fname stamp) (l : Ledger) : Ledger :=
  MkLedger (l_disk l) (l_index l) (l_where l) seen.

(** [reloadLocked]; [None] is a read or lock error, which changes nothing. A
    missing file reads as no lines. *)
Definition reloadLocked (fs : FS) (name : fname) (l : Ledger) : option Ledger :=
  if negb (fs_read fs) then None
  else
    let '(byID, order) := match l_disk l !! name with Some f => read_file name f | None => (∅, []) end in
    let l := foldl (put_read name byID) (drop_name name l) order in
    Some (match l_disk l !! name with
          | Some f => set_seen (<[name := f_stamp f]> (l_seen l)) l
          | None => set_seen (delete name (l_seen l)) l
          end).

(** [afterAppend]: only the stamp moves when the file is what the index saw plus
    this line, else the file is reloaded. *)
Definition afterAppend (fs : FS) (name : fname) (ln : line) (l : Ledger) : Ledger :=
  match l_disk l !! name with
  | None => set_seen (delete name (l_seen l)) l
  | Some f =>
    let now := f_stamp f in
    match l_seen l !! name with
    | Some prev =>
      if (ino prev =? ino now) && (size now =? size prev + line_size ln + 1)
      then set_seen (<[name := now]> (l_seen l)) l
      else default (set_seen (delete name (l_seen l)) l) (reloadLocked fs name l)
    | None => default (set_seen (delete name (l_seen l)) l) (reloadLocked fs name l)
    end
  end.

Definition set_disk (d : gmap fname file) (l : Ledger) : Ledger := MkLedger d (l_index l) (l_where l) (l_seen l).

(** ** Operations *)

Definition send_line (e : Sent) : line :=
  MkLine 1 opSend (se_ID e) (se_Recipient e) (se_Slug e) (se_Kind e) (se_Body e) (Some (se_Before e)) None false.

(** What the index holds of a send that just began. *)
Definition begun (e : Sent) : Sent :=
  MkSent (se_ID e) (se_Recipient e) (se_Slug e) (se_Kind e) (se_Body e) (se_Before e) zeroTime false.

Definition Begin (fs : FS) (e : Sent) (l : Ledger) : Ledger * result unit ledgerError :=
  if negb (ValidID (se_ID e)) then (l, Err BadID)
  else if negb (ValidKind (se_Kind e)) then (l, Err BadKind)
  else if is_empty (se_Recipient e) || IsZero (se_Before e) then (l, Err BadSend)
  else if negb (fs_dir fs) then (l, Err UnsafeDir)
  else
    let name := FileFor (se_Recipient e) (se_Kind e) in
    match append_line fs name (send_line e) (l_disk l) with
    | None => (l, Err AppendFailed)
    | Some disk => (afterAppend fs name (send_line e) (put name (begun e) (set_disk disk l)), Ok tt)
    end.

Definition done_line (e : Sent) (after : Time) (ok : bool) : line :=
  MkLine 1 opDone (se_ID e) "" "" "" "" None (Some after) ok.

Definition ended (s : Sent) (after : Time) (ok : bool) : Sent :=
  MkSent (se_ID s) (se_Recipient s) (se_Slug s) (se_Kind s) (se_Body s) (se_Before s) after ok.

Definition Done (fs : FS) (e : Sent) (after : Time) (ok : bool) (l : Ledger) : Ledger * result unit ledgerError :=
  if negb (fs_dir fs) then (l, Err UnsafeDir)
  else
    let name := FileFor (se_Recipient e) (se_Kind e) in
    match append_line fs name (done_line e after ok) (l_disk l) with
    | None => (l, Err AppendFailed)
    | Some disk =>
      let l := set_disk disk l in
      let l := match l_index l !! se_ID e with
               | Some s => if IsZero (se_After s)
                           then MkLedger (l_disk l) (<[se_ID e := ended s after ok]> (l_index l)) (l_where l) (l_seen l)
                           else l
               | None => l
               end in
      (afterAppend fs name (done_line e after ok) l, Ok tt)
    end.

(** The loop of [refresh] over the recipient's files; [false] is an error. *)
Fixpoint refresh_files (fs : FS) (names : list fname) (l : Ledger) : Ledger * bool :=
  match names with
  | [] => (l, true)
  | n :: names' =>
    match l_disk l !! n with
    | None => refresh_files fs names' l
    | Some f =>
      if bool_decide (l_seen l !! n = Some (f_stamp f)) then refresh_files fs names' l
      else match reloadLocked fs n l with Some l => refresh_files fs names' l | None => (l, false) end
    end
  end.

Definition names_of (recipient : string) (l : Ledger) : list fname :=
  List.filter (fun n => str_eqb n.1 (short recipient)) (map_to_list (l_disk l)).*1.

(** [refresh]; [false] is an error. *)
Definition refresh (fs : FS) (recipient : string) (l : Ledger) : Ledger * bool :=
  if negb (fs_dir fs) then (l, false) else refresh_files fs (names_of recipient l) l.

Definition held (recipient id : string) (l : Ledger) : option Sent :=
  match l_index l !! id with
  | Some s => if str_eqb (se_Recipient s) recipient then Some s else None
  | None => None
  end.

Definition ByRef (fs : FS) (recipient id : string) (l : Ledger) : Ledger * result (option Sent) ledgerError :=
  if negb (ValidID id) then (l, Ok None)
  else if negb (fs_dir fs) then (l, Err UnsafeDir)
  else match held recipient id l with
  | Some s => (l, Ok (Some s))
  | None =>
    match refresh fs recipient l with
    | (l, false) => (l, Err ReadFailed)
    | (l, true) => (l, Ok (held recipient id l))
    end
  end.

(** [Open]: the index of the files there are, each reloaded (the removal of old
    files aside); a file that cannot be read is left out, without a stamp. *)
Definition Open (fs : FS) (disk : gmap fname file) : option Ledger :=
  if negb (fs_dir fs) then None
  else Some (foldl (fun l n => default l (reloadLocked fs n l)) (MkLedger disk ∅ ∅ ∅) (map_to_list disk).*1).

(** * The index *)

(** Every entry is under its own id. *)
Definition index_wf (m : gmap string Sent) : Prop := forall id s, m !! id = Some s -> se_ID s = id.

Lemma read_line_wf name acc raw : index_wf acc.1 -> index_wf (read_line name acc raw).1.
Proof.
  intros Hw. destruct acc as [byID order]. simpl in Hw. unfold read_line.
  destruct raw as [ln|]; [|done]. case_match; [done|]. destruct (ln_Op ln); [| |done].
  - repeat (case_match; try done). intros id s. simpl. rewrite lookup_insert. destruct (decide _) as [Hd|Hd] in |- *; [intros ?; by simplify_eq | apply Hw].
  - destruct (byID !! ln_ID ln) as [s0|] eqn:E0; [|done]. destruct (ln_After ln); [|done]. case_match; [|done].
    intros id s. simpl. rewrite lookup_insert. destruct (decide _) as [Hd|Hd] in |- *; [intros ?; simplify_eq/=; by apply Hw | apply Hw].
Qed.

Lemma read_lines_wf name ls : forall acc, index_wf acc.1 -> index_wf (foldl (read_line name) acc ls).1.
Proof. induction ls as [|l ls IH]; intros acc Hw; [done|]. apply IH. by apply read_line_wf. Qed.

Lemma put_read_wf name byID ids : forall l,
  index_wf byID -> index_wf (l_index l) -> index_wf (l_index (foldl (put_read name byID) l ids)).
Proof.
  induction ids as [|id ids IH]; intros l Hb Hl; [done|]. apply IH; [done|]. unfold put_read.
  destruct (l_index l !! id); [done|]. destruct (byID !! id) as [s|]; [|done]. simpl.
  intros id' s'. rewrite lookup_insert. destruct (decide _) as [Hd|Hd] in |- *; [intros ?; by simplify_eq | apply Hl].
Qed.

Lemma reload_wf fs name l l' : reloadLocked fs name l = Some l' -> index_wf (l_index l) -> index_wf (l_index l').
Proof.
  unfold reloadLocked. intros E Hw. case_match; [done|].
  destruct (match l_disk l !! name with Some f => _ | None => _ end) as [byID order] eqn:Er.
  assert (Hb : index_wf byID).
  { destruct (l_disk l !! name) as [f|]; [|by simplify_eq].
    assert (byID = (read_file name f).1) as -> by by rewrite Er.
    apply read_lines_wf. by intros id s ?. }
  injection E as <-. assert (Hd : index_wf (l_index (drop_name name l))).
  { intros id s Hs. simpl in Hs. apply map_lookup_filter_Some in Hs as [Hs _]. by apply Hw. }
  pose proof (put_read_wf name byID order _ Hb Hd) as Hx. by destruct (l_disk (foldl _ _ _) !! name) in |- *.
Qed.

Lemma refresh_wf fs names : forall l, index_wf (l_index l) -> index_wf (l_index (refresh_files fs names l).1).
Proof.
  induction names as [|n names IH]; intros l Hw; simpl; [done|].
  destruct (l_disk l !! n); [|by apply IH]. case_match; [by apply IH|].
  destruct (reloadLocked fs n l) as [l'|] eqn:E; [|done]. apply IH. by eapply reload_wf.
Qed.

(** A lookup answers only with a send recorded for the asking agent under
    exactly the id asked for; any other recipient's record is a miss. *)
Theorem lookup_bound_to_caller fs recipient id l l' s :
  index_wf (l_index l) -> ByRef fs recipient id l = (l', Ok (Some s)) ->
  se_ID s = id /\ se_Recipient s = recipient /\ ValidID id = true /\ index_wf (l_index l').
Proof.
  intros Hw E. unfold ByRef in E. destruct (ValidID id) eqn:Ev; [|done]. simpl in E.
  destruct (negb _) eqn:Ed; [done|].
  assert (Hh : forall l, index_wf (l_index l) -> forall s, held recipient id l = Some s ->
    se_ID s = id /\ se_Recipient s = recipient).
  { intros l0 Hl0 s0 E0. unfold held in E0. destruct (l_index l0 !! id) as [s1|] eqn:Ei; [|done].
    case_match; [|done]. guards. injection E0 as <-. split; [by apply Hl0 | done]. }
  destruct (held recipient id l) as [s0|] eqn:Eh.
  - injection E as <- <-. destruct (Hh l Hw s0 Eh). done.
  - destruct (refresh fs recipient l) as [l1 ok] eqn:Er. destruct ok; [|done]. injection E as <- E.
    assert (Hw1 : index_wf (l_index l1)).
    { unfold refresh in Er. destruct (negb (fs_dir fs)); [done|].
      assert (l1 = (refresh_files fs (names_of recipient l) l).1) as -> by by rewrite Er. by apply refresh_wf. }
    destruct (Hh l1 Hw1 s E). done.
Qed.

(** ** What the lines say *)

(** Two records of one send: they may differ in how it ended. *)
Definition same_send (s s' : Sent) : Prop :=
  (se_ID s, se_Recipient s, se_Slug s, se_Kind s, se_Body s, se_Before s)
  = (se_ID s', se_Recipient s', se_Slug s', se_Kind s', se_Body s', se_Before s').

Lemma read_line_keeps name acc raw id s :
  acc.1 !! id = Some s -> exists s', (read_line name acc raw).1 !! id = Some s' /\ same_send s s'.
Proof.
  intros E. destruct acc as [byID order]. simpl in E. unfold read_line.
  destruct raw as [ln|]; [|by exists s]. destruct (_ || _); [by exists s|]. destruct (ln_Op ln); [| |by exists s].
  - destruct (ln_Before ln); [|by exists s]. destruct (_ || _); [by exists s|].
    destruct (byID !! ln_ID ln) eqn:E1; [by exists s|]. simpl. exists s. split; [|done].
    rewrite lookup_insert_ne; [done | congruence].
  - destruct (byID !! ln_ID ln) as [s0|] eqn:E1; [|by exists s]. destruct (ln_After ln); [|by exists s].
    destruct (IsZero _); [|by exists s]. simpl. rewrite lookup_insert. destruct (decide _) as [Hd|Hd] in |- *; [|by exists s].
    eexists. split; [done|]. subst. rewrite E in E1. by simplify_eq.
Qed.

Lemma read_more name ls ls' id s :
  (foldl (read_line name) (∅, []) ls).1 !! id = Some s ->
  exists s', (foldl (read_line name) (∅, []) (ls ++ ls')).1 !! id = Some s' /\ same_send s s'.
Proof.
  rewrite foldl_app. generalize (foldl (read_line name) (∅, []) ls). clear ls.
  revert s. induction ls' as [|l ls' IH]; intros s acc E; simpl; [by exists s|].
  destruct (read_line_keeps name acc l id s E) as (s1 & E1 & H1).
  destruct (IH s1 _ E1) as (s2 & E2 & H2). exists s2. split; [done|]. unfold same_send in *. congruence.
Qed.

(** A record cannot be rewritten. Whatever lines follow in a record file, the
    first send line for an id fixes the sender kind, recipient, text and start
    time a lookup returns; later lines can at most add how the send ended. *)
Theorem first_send_line_wins name ls ls' id s :
  (foldl (read_line name) (∅, []) ls).1 !! id = Some s ->
  exists s', (foldl (read_line name) (∅, []) (ls ++ ls')).1 !! id = Some s' /\ same_send s s'.
Proof. apply read_more. Qed.

(** ** Where an answer comes from *)

(** The send line [s] was read of. *)
Definition send_of (ln : line) (s : Sent) : Prop :=
  ln_V ln = 1 /\ ln_Op ln = opSend /\ ln_ID ln = se_ID s /\ ln_Recipient ln = se_Recipient s /\ ln_Slug ln = se_Slug s
  /\ ln_Kind ln = se_Kind s /\ ln_Body ln = se_Body s /\ ln_Before ln = Some (se_Before s).
(** A record file has the line, as the file of its recipient and kind. *)
Definition on_disk (disk : gmap fname file) (s : Sent) : Prop :=
  exists f ln, disk !! FileFor (se_Recipient s) (se_Kind s) = Some f /\ Some ln ∈ f_old f ++ f_lines f /\ send_of ln s.

(** Every send read so far was read of a line of the file. *)
Definition read_of (name : fname) (ls : list (option line)) (m : gmap string Sent) : Prop :=
  forall id s, m !! id = Some s -> se_ID s = id /\ FileFor (se_Recipient s) (se_Kind s) = name /\ exists ln, Some ln ∈ ls /\ send_of ln s.

Lemma read_line_of name ls acc raw : raw ∈ ls -> read_of name ls acc.1 -> read_of name ls (read_line name acc raw).1.
Proof.
  intros Hin Hr. destruct acc as [byID order]. simpl in Hr. unfold read_line. destruct raw as [ln|]; [|done].
  destruct (negb (ln_V ln =? 1) || negb (ValidID (ln_ID ln))) eqn:Ev; [done|]. apply orb_false_elim in Ev as [Ev _]. guards.
  destruct (ln_Op ln) eqn:Eo; [| |done].
  - destruct (ln_Before ln) as [before|] eqn:Eb; [|done]. destruct (_ || _) eqn:Ec; [done|]. apply orb_false_elim in Ec as [_ Ef]. guards.
    destruct (byID !! ln_ID ln); [done|]. intros id s. simpl. rewrite lookup_insert_Some. intros [[<- <-]|[_ Hs]]; [|by apply Hr].
    simpl. split_and!; [done|done|]. exists ln. split; [done|]. unfold send_of. simpl. split_and!; try done. lia.
  - destruct (byID !! ln_ID ln) as [s0|] eqn:E0; [|done]. destruct (ln_After ln); [|done]. destruct (IsZero _); [|done].
    intros id s. simpl. rewrite lookup_insert_Some. intros [[<- <-]|[_ Hs]]; [|by apply Hr]. exact (Hr _ _ E0).
Qed.
Lemma read_file_of name f : read_of name (f_old f ++ f_lines f) (read_file name f).1.
Proof.
  unfold read_file. set (ls := f_old f ++ f_lines f).
  enough (Hgo : forall l acc, l ⊆ ls -> read_of name ls acc.1 -> read_of name ls (foldl (read_line name) acc l).1) by (by apply Hgo).
  induction l as [|raw l IH]; intros acc Hl Ha; [done|]. apply IH; [set_solver|]. apply read_line_of; [set_solver|done].
Qed.

(** Every entry of the index was there before, or is a line's on the disk. *)
Definition sourced (disk : gmap fname file) (old new : gmap string Sent) : Prop :=
  forall id s, new !! id = Some s -> old !! id = Some s \/ se_ID s = id /\ on_disk disk s.

Lemma reload_sourced fs name l l' : reloadLocked fs name l = Some l' -> sourced (l_disk l) (l_index l) (l_index l').
Proof.
  unfold reloadLocked. intros E. destruct (negb _); [done|].
  destruct (match l_disk l !! name with Some f => _ | None => _ end) as [byID order] eqn:Er.
  assert (Hby : forall id s, byID !! id = Some s -> se_ID s = id /\ on_disk (l_disk l) s).
  { intros id s Hs. destruct (l_disk l !! name) as [f|] eqn:Ef; [|by simplify_eq]. pose proof (read_file_of name f) as Hr. rewrite Er in Hr.
    destruct (Hr id s Hs) as (Hid & Hn & ln & Hln & Hso). split; [done|]. exists f, ln. by rewrite Hn. }
  assert (Hgo : forall ids l0, sourced (l_disk l) (l_index l) (l_index l0) -> sourced (l_disk l) (l_index l) (l_index (foldl (put_read name byID) l0 ids))).
  { induction ids as [|id' ids IH]; intros l0 Hl; [done|]. apply IH. unfold put_read. destruct (l_index l0 !! id'); [done|]. destruct (byID !! id') as [s'|] eqn:Eb; [|done].
    simpl. intros id s. rewrite lookup_insert_Some. intros [[<- <-]|[_ Hs]]; [right; split; [done|by apply (Hby id')]|by apply Hl]. }
  injection E as <-. assert (Hd : sourced (l_disk l) (l_index l) (l_index (drop_name name l))).
  { intros id s Hs. simpl in Hs. apply map_lookup_filter_Some in Hs as [Hs _]. by left. }
  specialize (Hgo order _ Hd). by destruct (l_disk (foldl _ _ _) !! name) in |- *.
Qed.

Lemma reload_disk fs name l l' : reloadLocked fs name l = Some l' -> l_disk l' = l_disk l.
Proof.
  unfold reloadLocked. intros E. case_match; [done|].
  destruct (match l_disk l !! name with Some f => _ | None => _ end) as [byID order].
  assert (Hd : forall ids l0, l_disk (foldl (put_read name byID) l0 ids) = l_disk l0).
  { induction ids as [|id ids IH]; intros l0; simpl; [done|]. rewrite IH. unfold put_read. by repeat case_match. }
  injection E as <-. by destruct (l_disk (foldl _ _ _) !! name); simpl; rewrite Hd.
Qed.

Lemma refresh_sourced fs names : forall l, let l' := (refresh_files fs names l).1 in l_disk l' = l_disk l /\ sourced (l_disk l) (l_index l) (l_index l').
Proof.
  induction names as [|n names IH]; intros l; simpl; [by split; [|left]|].
  destruct (l_disk l !! n); [|by apply IH]. case_match; [by apply IH|].
  destruct (reloadLocked fs n l) as [l1|] eqn:E; [|by split; [|left]].
  pose proof (reload_disk _ _ _ _ E) as Ed.
  apply reload_sourced in E. destruct (IH l1) as [Hd Hs]. rewrite Ed in Hd, Hs. split; [done|].
  intros id s Hi. destruct (Hs id s Hi) as [Ho|?]; [|by right]. by apply E.
Qed.

(** A lookup answers with what the index already held for this recipient under
    this id, or with what a line of a record file says of this very send. *)
Lemma ByRef_source fs recipient id l l' s : ByRef fs recipient id l = (l', Ok (Some s)) ->
  ValidID id = true /\ se_Recipient s = recipient /\ (l_index l !! id = Some s \/ se_ID s = id /\ on_disk (l_disk l) s).
Proof.
  intros E. unfold ByRef in E. destruct (ValidID id); [|done]. simpl in E. destruct (negb _); [done|]. split; [done|].
  assert (Hh : forall l, held recipient id l = Some s -> se_Recipient s = recipient /\ l_index l !! id = Some s).
  { intros l0 E0. unfold held in E0. destruct (l_index l0 !! id) as [s1|]; [|done]. case_match; [|done]. guards. by injection E0 as <-. }
  destruct (held recipient id l) as [s0|] eqn:Eh.
  - injection E as _ <-. destruct (Hh l Eh) as [? ?]. split; [done|by left].
  - destruct (refresh fs recipient l) as [l1 ok] eqn:Er. destruct ok; [|done]. injection E as _ E. destruct (Hh l1 E) as [? Hi]. split; [done|].
    unfold refresh in Er. destruct (negb (fs_dir fs)); [done|]. pose proof (refresh_sourced fs (names_of recipient l) l) as [_ Hs].
    rewrite Er in Hs. by apply Hs.
Qed.

(** ** A recorded send is found *)

(** No line of the file names the id. *)
Definition unnamed (id : string) (raw : option line) : Prop :=
  match raw with Some ln => ln_ID ln <> id | None => True end.

Lemma read_unnamed name ls id : forall acc,
  Forall (unnamed id) ls -> acc.1 !! id = None -> (foldl (read_line name) acc ls).1 !! id = None.
Proof.
  induction ls as [|raw ls IH]; intros acc Hf E; [done|]. apply Forall_cons in Hf as [Hu Hf]. apply IH; [done|].
  destruct acc as [byID order]. unfold read_line. destruct raw as [ln|]; [|done]. simpl in *.
  repeat (case_match; try done); simpl; by rewrite lookup_insert_ne.
Qed.

Lemma read_order name ls id : forall acc,
  (is_Some (acc.1 !! id) <-> id ∈ acc.2) ->
  is_Some ((foldl (read_line name) acc ls).1 !! id) <-> id ∈ (foldl (read_line name) acc ls).2.
Proof.
  induction ls as [|raw ls IH]; intros acc Ho; [done|]. apply IH. destruct acc as [byID order]. simpl in Ho.
  unfold read_line. destruct raw as [ln|]; [|done]. repeat (case_match; try done); simpl; rewrite lookup_insert.
  - destruct (decide _) as [Hd|Hd] in |- *; [subst; split; [set_solver | by eauto]|]. rewrite Ho. set_solver.
  - destruct (decide _) as [Hd|Hd] in |- *; [subst; rewrite <- Ho; split; by eauto | done].
Qed.

(** Reading a new send after lines that do not name it. *)
Lemma read_new name ls e :
  ValidID (se_ID e) = true -> ValidKind (se_Kind e) = true -> se_Recipient e <> "" ->
  name = FileFor (se_Recipient e) (se_Kind e) -> Forall (unnamed (se_ID e)) ls ->
  (foldl (read_line name) (∅, []) (ls ++ [Some (send_line e)])).1 !! se_ID e = Some (begun e).
Proof.
  intros Hi Hk Hr -> Hf. rewrite foldl_app. simpl.
  pose proof (read_unnamed (FileFor (se_Recipient e) (se_Kind e)) ls (se_ID e) (∅, []) Hf ltac:(done)) as Hn.
  destruct (foldl _ _ ls) as [byID order]. simpl in *. unfold read_line. simpl.
  rewrite Hi, Hk, (proj2 (is_empty_false _) Hr), bool_decide_eq_true_2 by done. simpl. rewrite Hn. simpl.
  by rewrite lookup_insert_eq.
Qed.

Lemma put_read_held name byID ids id s : forall l,
  byID !! id = Some s -> index_wf byID -> (l_index l !! id = Some s \/ (l_index l !! id = None /\ id ∈ ids)) ->
  l_index (foldl (put_read name byID) l ids) !! id = Some s.
Proof.
  induction ids as [|id' ids IH]; intros l Hb Hw Hl; [destruct Hl as [?|[_ ?]]; [done | set_solver]|].
  apply IH; [done..|]. unfold put_read. destruct (l_index l !! id') as [s'|] eqn:E1.
  - destruct Hl as [?|[Hn Hin]]; [by left|]. right. split; [done|]. apply elem_of_cons in Hin as [->|?]; [congruence | done].
  - destruct (byID !! id') as [s'|] eqn:E2.
    + simpl. rewrite lookup_insert. rewrite (Hw id' s' E2). destruct (decide _) as [Hd|Hd] in |- *; [left; congruence|].
      destruct Hl as [?|[Hn Hin]]; [by left | right; set_solver].
    + destruct Hl as [?|[Hn Hin]]; [by left|]. right. split; [done|]. apply elem_of_cons in Hin as [->|?]; [congruence | done].
Qed.

(** The ledger after a send was recorded: the file ends with its line, which is
    the only one with its id, and the index holds it from there. *)
Record recorded (e s : Sent) (l : Ledger) : Prop := MkRecorded {
  rc_index : l_index l !! se_ID e = Some s;
  rc_where : l_where l !! se_ID e = Some (FileFor (se_Recipient e) (se_Kind e));
  rc_file : exists f ls, l_disk l !! FileFor (se_Recipient e) (se_Kind e) = Some f
    /\ f_lines f = ls ++ [Some (send_line e)] /\ Forall (unnamed (se_ID e)) (f_old f ++ ls)
}.

Lemma afterAppend_disk fs name ln l : l_disk (afterAppend fs name ln l) = l_disk l.
Proof.
  unfold afterAppend. destruct (l_disk l !! name); [|done].
  assert (Hd : l_disk (default (set_seen (delete name (l_seen l)) l) (reloadLocked fs name l)) = l_disk l)
    by (destruct (reloadLocked fs name l) eqn:E; [by apply reload_disk in E | done]).
  destruct (l_seen l !! name); [by case_match | done].
Qed.

Lemma put_read_where name byID ids id s : forall l,
  byID !! id = Some s -> index_wf byID -> l_index l !! id = None -> id ∈ ids ->
  l_where (foldl (put_read name byID) l ids) !! id = Some name.
Proof.
  assert (Hkeep : forall ids l, index_wf byID -> l_where l !! id = Some name ->
    l_where (foldl (put_read name byID) l ids) !! id = Some name).
  { clear. induction ids as [|id' ids IH]; intros l Hw E; [done|]. apply IH; [done|]. unfold put_read.
    repeat case_match; try done. simpl. rewrite lookup_insert. by destruct (decide _) in |- *. }
  induction ids as [|id' ids IH]; intros l Hb Hw Hn Hin; [set_solver|]. simpl.
  destruct (decide (id' = id)) as [->|Hne].
  - apply Hkeep; [done|]. unfold put_read. rewrite Hn, Hb. simpl. by rewrite (Hw id s Hb), lookup_insert_eq.
  - apply IH; [done..| |set_solver]. unfold put_read. destruct (l_index l !! id') eqn:E1; [done|].
    destruct (byID !! id') as [s'|] eqn:E2; [|done]. simpl. rewrite (Hw id' s' E2). by rewrite lookup_insert_ne.
Qed.

Lemma read_ids name f id s :
  (read_file name f).1 !! id = Some s -> index_wf (read_file name f).1 /\ id ∈ (read_file name f).2.
Proof.
  intros Er. split; [apply read_lines_wf; by intros ? ? ?|].
  apply (read_order name (f_old f ++ f_lines f) id (∅, [])); [|unfold read_file in Er; by rewrite Er].
  simpl. rewrite lookup_empty. split; [by intros [??] | set_solver].
Qed.

Lemma dropped name l id : l_where l !! id = Some name -> l_index (drop_name name l) !! id = None.
Proof. intros Ew. simpl. apply map_lookup_filter_None_2. right. intros s0 _ Hne. by apply Hne. Qed.

(** What a reload leaves of an id the file holds. *)
Lemma reload_entry fs name l l' f id s :
  reloadLocked fs name l = Some l' -> l_disk l !! name = Some f -> l_where l !! id = Some name ->
  (read_file name f).1 !! id = Some s -> l_index l' !! id = Some s /\ l_where l' !! id = Some name.
Proof.
  unfold reloadLocked. intros E Ef Ew Er. case_match; [done|]. rewrite Ef in E.
  destruct (read_ids _ _ _ _ Er) as [Hb Ho]. destruct (read_file name f) as [byID order]. simpl in *.
  injection E as <-. pose proof (dropped name l id Ew) as Hd.
  pose proof (put_read_held name byID order id s (drop_name name l) Er Hb (or_intror (conj Hd Ho))) as H1'.
  pose proof (put_read_where name byID order id s (drop_name name l) Er Hb Hd Ho) as H2'.
  by destruct (l_disk (foldl _ _ _) !! name) in |- *.
Qed.

(** After an append, the index keeps an entry or takes it from the file. *)
Lemma afterAppend_entry fs name ln l f id s s' :
  l_disk l !! name = Some f -> l_index l !! id = Some s -> l_where l !! id = Some name ->
  (read_file name f).1 !! id = Some s' ->
  exists s2, (s2 = s \/ s2 = s') /\ l_index (afterAppend fs name ln l) !! id = Some s2
    /\ l_where (afterAppend fs name ln l) !! id = Some name.
Proof.
  intros Ef Ei Ew Er. unfold afterAppend. rewrite Ef.
  assert (Hdef : exists s2, (s2 = s \/ s2 = s')
    /\ l_index (default (set_seen (delete name (l_seen l)) l) (reloadLocked fs name l)) !! id = Some s2
    /\ l_where (default (set_seen (delete name (l_seen l)) l) (reloadLocked fs name l)) !! id = Some name).
  { destruct (reloadLocked fs name l) as [l2|] eqn:E2; [|by exists s; split; [left|]].
    destruct (reload_entry _ _ _ _ _ _ _ E2 Ef Ew Er). exists s'. by split; [right|]. }
  destruct (l_seen l !! name); [|exact Hdef]. case_match; [by exists s; split; [left|] | exact Hdef].
Qed.

Lemma begin_checks fs e l l' :
  Begin fs e l = (l', Ok tt) ->
  ValidID (se_ID e) = true /\ ValidKind (se_Kind e) = true /\ se_Recipient e <> "" /\ se_Before e <> zeroTime.
Proof.
  intros E. unfold Begin in E. destruct (ValidID (se_ID e)); [|done].
  destruct (ValidKind (se_Kind e)); [|done]. simpl in E. destruct (_ || _) eqn:Er; [done|]. guards.
  unfold IsZero in *. split_and!; [done..|lia].
Qed.

Lemma begin_recorded fs e l l' :
  Begin fs e l = (l', Ok tt) ->
  (forall f, l_disk l !! FileFor (se_Recipient e) (se_Kind e) = Some f ->
     Forall (unnamed (se_ID e)) (f_old f ++ f_lines f)) ->
  ValidID (se_ID e) = true /\ recorded e (begun e) l'.
Proof.
  intros E Hfr. unfold Begin in E. destruct (ValidID (se_ID e)) eqn:Ei; [|done].
  destruct (ValidKind (se_Kind e)) eqn:Ek; [|done]. simpl in E. destruct (_ || _) eqn:Er; [done|]. guards.
  destruct (negb (fs_dir fs)); [done|]. set (name := FileFor _ _) in *.
  unfold append_line in E. destruct (negb (fs_append fs)); [done|]. injection E as <-.
  set (f' := match l_disk l !! name with Some _ => _ | None => _ end).
  assert (Hf' : exists ls, f_lines f' = ls ++ [Some (send_line e)] /\ Forall (unnamed (se_ID e)) (f_old f' ++ ls)).
  { unfold f'. destruct (l_disk l !! name) as [f|] eqn:Ef; [|by exists []].
    specialize (Hfr f eq_refl). case_match; simpl; [exists [] | by exists (f_lines f)].
    split; [done|]. rewrite app_nil_r. by apply Forall_app in Hfr as [_ Hl]. }
  destruct Hf' as (ls & El & Hu).
  assert (Hread : (read_file name f').1 !! se_ID e = Some (begun e)).
  { unfold read_file. rewrite El, app_assoc. by apply read_new. }
  set (l1 := put name (begun e) _).
  destruct (afterAppend_entry fs name (send_line e) l1 f' (se_ID e) (begun e) (begun e)) as (s2 & Hs2 & Hi2 & Hw2);
    [simpl; by rewrite lookup_insert_eq.. | done |].
  assert (s2 = begun e) as -> by by destruct Hs2.
  split; [done|]. split; [done | done |]. exists f', ls. rewrite afterAppend_disk. simpl. by rewrite lookup_insert_eq.
Qed.

Lemma done_recorded fs e after ok l l' r :
  Done fs e after ok l = (l', r) -> ValidID (se_ID e) = true -> ValidKind (se_Kind e) = true -> se_Recipient e <> "" ->
  recorded e (begun e) l ->
  exists s, same_send (begun e) s /\ l_index l' !! se_ID e = Some s.
Proof.
  intros E Hi Hk Hr [Ei Ew (f & ls & Ef & El & Hu)]. unfold Done in E. set (name := FileFor _ _) in *.
  destruct (negb (fs_dir fs)); [simplify_eq; by exists (begun e)|].
  unfold append_line in E. destruct (negb (fs_append fs)); [simplify_eq; by exists (begun e)|]. rewrite Ef in E.
  simpl in E. rewrite Ei in E. simpl in E. injection E as <- <-.
  set (f' := if RotateCap <? size (f_stamp f) then _ else _).
  assert (Hread : exists s, (read_file name f').1 !! se_ID e = Some s /\ same_send (begun e) s).
  { apply Forall_app in Hu as [Huo Hul]. unfold read_file, f'.
    destruct (RotateCap <? size (f_stamp f)); simpl; rewrite El; [|rewrite (app_assoc (f_old f)), (app_assoc (f_old f))];
      apply read_more, read_new; try done; by apply Forall_app. }
  destruct Hread as (s & Es & Hs).
  match goal with |- context [afterAppend _ _ _ ?l1] =>
    destruct (afterAppend_entry fs name (done_line e after ok) l1 f' (se_ID e) (ended (begun e) after ok) s) as (s2 & Hs2 & Hi2 & _)
  end; [simpl; by rewrite ?lookup_insert_eq.. | done |].
  exists s2. split; [by destruct Hs2 as [-> | ->] | exact Hi2].
Qed.

(** What lever records before it sends is what a lookup returns. After a
    recorded send with a fresh id, its recipient finds it by that id with the
    exact text, kind and start time, whether the index was extended in place or
    the file was rotated or reloaded. *)
Theorem recorded_send_is_found fs fs' e l l' :
  Begin fs e l = (l', Ok tt) -> fs_dir fs' = true ->
  (forall f, l_disk l !! FileFor (se_Recipient e) (se_Kind e) = Some f ->
     Forall (unnamed (se_ID e)) (f_old f ++ f_lines f)) ->
  ByRef fs' (se_Recipient e) (se_ID e) l' = (l', Ok (Some (begun e))).
Proof.
  intros E Hd Hfr. destruct (begin_recorded _ _ _ _ E Hfr) as [Hi [Hin _ _]].
  unfold ByRef. rewrite Hi, Hd. simpl. unfold held. rewrite Hin. simpl. by rewrite str_eqb_refl.
Qed.

End Ledger.

End SentLedger.
