(* ===== verification/Messaging.v ===== *)
(** Messages between agents ([internal/broker/msg.go], [sent.go], and [identity]
    of [worker.go]): who may message whom, and the recorded sends every lever
    message goes through. The broker's part of the state that messaging and
    directives share is [Node]; what the hub, the clock and the disk answer is an
    input of each operation. *)

From S2P Require Import Prelude Go Rules Registry Token Broker Directive Rate SentLedger.

Module Messaging.
Import Broker.

(** * State *)

(** The parts of the configuration the routes read. *)
Record NodeConfig := MkNodeConfig {
  nc_managerSlug : string;
  nc_workers : gset string;
  nc_workerToWorker : bool;
  nc_instanceProject : string;
  nc_instanceID : string;
  nc_directiveExpiryMax : Duration;
  nc_directives : bool;  (** a directive verifier is configured *)
  nc_runtime : bool      (** a scion runtime is wired *)
}.

(** [scion.MsgOpts]. *)
Record MsgOpts := MkMsgOpts { mo_To : string; mo_Project : string; mo_Body : string; mo_Interrupt : bool }.

(** [sentRecord]: off without a directory, else the ledger once opened. *)
Inductive sentRecord := SentOff | SentDir (ledger : option SentLedger.Ledger).

(** [n_outbox] is what was handed to the hub, [n_dirlog] the directive audit. *)
Record Node := MkNode {
  n_b : Broker;
  n_cfg : NodeConfig;
  n_store : Directive.DirectiveStore;
  n_dirRate : Rate.rateWindow;
  n_sent : sentRecord;
  n_dirlog : list (string * list (string * string));
  n_outbox : list MsgOpts
}.

Definition on_b (f : Broker -> Broker) (n : Node) : Node :=
  MkNode (f (n_b n)) (n_cfg n) (n_store n) (n_dirRate n) (n_sent n) (n_dirlog n) (n_outbox n).
Definition set_store (s : Directive.DirectiveStore) (n : Node) : Node :=
  MkNode (n_b n) (n_cfg n) s (n_dirRate n) (n_sent n) (n_dirlog n) (n_outbox n).
Definition set_rate (r : Rate.rateWindow) (n : Node) : Node :=
  MkNode (n_b n) (n_cfg n) (n_store n) r (n_sent n) (n_dirlog n) (n_outbox n).
Definition set_sent (s : sentRecord) (n : Node) : Node :=
  MkNode (n_b n) (n_cfg n) (n_store n) (n_dirRate n) s (n_dirlog n) (n_outbox n).
Definition dir_log (event : string) (kvs : list (string * string)) (n : Node) : Node :=
  MkNode (n_b n) (n_cfg n) (n_store n) (n_dirRate n) (n_sent n) (n_dirlog n ++ [(event, kvs)]) (n_outbox n).
Definition hand_out (o : MsgOpts) (n : Node) : Node :=
  MkNode (n_b n) (n_cfg n) (n_store n) (n_dirRate n) (n_sent n) (n_dirlog n) (n_outbox n ++ [o]).
Definition n_audit (op caller decision detail : string) (kvs : list (string * string)) : Node -> Node :=
  on_b (audit op caller decision detail kvs).

(** * Identities *)

(** [identity]: the certificate name, the hub slug and whether it is the
    manager. *)
Definition identity (name : string) (n : Node) : option (string * string * bool) :=
  let m := b_manager (n_b n) in
  let ms := nc_managerSlug (n_cfg n) in
  if str_eqb name m || str_eqb name ms then Some (m, ms, true)
  else if bool_decide (name ∈ nc_workers (n_cfg n)) then Some (name, name, false)
  else None.

Record msgTarget := MkTarget {
  mt_scionTo : string;
  mt_project : string;
  mt_recipientCN : string;
  mt_relayFrom : string
}.

Definition directiveNoticeMarker : string := "[lever: operator directive notice]".
Definition managerMarker : string := "[lever: from the manager]".

(** [%q] quoting, [neutraliseMarkers] (a regular-expression substitution), the text
    of a ledger error and the ledger's library calls. *)
Class MsgLib := {
  quote : string -> string;
  neutraliseMarkers : string -> string;
  ledgerText : SentLedger.ledgerError -> string;
  msg_ledger :: SentLedger.LedgerLib
}.

Section Messaging.
Context `{Token.SigScheme, Token.TokenWire, Rendering, MsgLib}.

Definition refLine (marker ref : string) : string :=
  if is_empty ref then marker else marker +:+ " ref=" +:+ ref.

(** A newline. *)
Definition nl : string := String (ascii_of_nat 10) "".

Definition markedBody (marker ref text : string) : string := refLine marker ref +:+ nl +:+ neutraliseMarkers text.

Definition relayedWorkerBody (slug ref body : string) : string :=
  markedBody ("[lever: relayed from worker " +:+ slug +:+ "]") ref body.

(** * Recorded sends *)

(** What one send meets: the ledger as [Open] gives it when it is not open yet,
    the id's randomness, the clock before and after, the file system, and the
    hub's error. *)
Record SendWorld := MkSendWorld {
  sw_open : result SentLedger.Ledger string;
  sw_idb : option bytes;
  sw_before : Time;
  sw_after : Time;
  sw_begin : SentLedger.FS;
  sw_done : SentLedger.FS;
  sw_hub : option string
}.

Inductive sendError := NotRecorded | HubError (text : string).

(** [sentRecord.get]. *)
Inductive got_ledger := GotOff | GotError (text : string) | GotLedger (l : SentLedger.Ledger).
Definition errSentOff : string := "the sent ledger is off: the state directory is inside the tree".
Definition sent_get (opened : result SentLedger.Ledger string) (s : sentRecord) : sentRecord * got_ledger :=
  match s with
  | SentOff => (s, GotOff)
  | SentDir (Some l) => (s, GotLedger l)
  | SentDir None => match opened with Ok l => (SentDir (Some l), GotLedger l) | Err e => (s, GotError e) end
  end.

Definition hub_error (w : SendWorld) : option sendError := HubError <$> sw_hub w.

(** [sendRecorded]: the ref and the error. *)
Definition sendRecorded (recipientCN slug kind : string) (compose : string -> string) (to project : string)
    (interrupt : bool) (w : SendWorld) (n : Node) : Node * (string * option sendError) :=
  match sent_get (sw_open w) (n_sent n) with
  | (st, GotOff) =>
    let n := n_audit "msg" recipientCN "error" ("send " +:+ kind +:+ " unrecorded: " +:+ errSentOff) [] (set_sent st n) in
    (hand_out (MkMsgOpts to project (compose "") interrupt) n, ("", hub_error w))
  | (st, GotError e) =>
    (n_audit "msg" recipientCN "error" ("send " +:+ kind +:+ ": " +:+ e) [] (set_sent st n), ("", Some NotRecorded))
  | (st, GotLedger led) =>
    let n := set_sent st n in
    match SentLedger.NewID (sw_idb w) with
    | None => (n_audit "msg" recipientCN "error" ("send " +:+ kind +:+ ": sent ledger: id") [] n, ("", Some NotRecorded))
    | Some id =>
      let body := compose id in
      let e := SentLedger.MkSent id recipientCN slug kind body (sw_before w) zeroTime false in
      match SentLedger.Begin (sw_begin w) e led with
      | (led, Err e) =>
        (n_audit "msg" recipientCN "error" ("send " +:+ kind +:+ ": " +:+ ledgerText e) [] (set_sent (SentDir (Some led)) n), ("", Some NotRecorded))
      | (led, Ok _) =>
        let n := hand_out (MkMsgOpts to project body interrupt) n in
        let ok := negb (bool_decide (is_Some (sw_hub w))) in
        match SentLedger.Done (sw_done w) e (sw_after w) ok led with
        | (led, Err e) =>
          (n_audit "msg" recipientCN "error" ("send " +:+ kind +:+ " " +:+ id +:+ ": recording the end: " +:+ ledgerText e) []
             (set_sent (SentDir (Some led)) n), (id, hub_error w))
        | (led, Ok _) => (set_sent (SentDir (Some led)) n, (id, hub_error w))
        end
      end
    end
  end.

(** * Policy *)

(** [resolveMsgTarget]: the error is the text of the refusal. *)
Definition resolveMsgTarget (caller to : string) (n : Node) : result msgTarget string :=
  let cfg := n_cfg n in
  match identity caller n with
  | Some (callerCN, callerSlug, isManager) =>
    if negb (str_eqb callerCN caller) then Err ("caller " +:+ quote caller +:+ " is not the manager or a declared worker")
    else
      let relayFrom := if isManager then "" else callerSlug in
      let managerTarget := MkTarget ("agent:" +:+ nc_managerSlug cfg) (nc_instanceProject cfg) (b_manager (n_b n)) relayFrom in
      let '(who, isUser) := CutPrefix to "user:" in
      if isUser && negb (is_empty who) then
        if str_eqb who "manager" || match identity who n with Some (_, _, m) => m | None => false end
        then Ok managerTarget
        else Err ("user-addressed recipient " +:+ quote to +:+ " is not broker-routable (scion supports user messaging only inside agent containers); message the manager agent instead")
      else
        let '(rest, isAgent) := CutPrefix to "agent:" in
        let name := if isAgent && negb (is_empty rest) then rest else to in
        match identity name n with
        | Some (_, _, true) => Ok managerTarget
        | known =>
          if negb isManager && negb (str_eqb caller name) && negb (nc_workerToWorker cfg)
          then Err ("recipient " +:+ quote to +:+ " is not the manager or this worker (worker→worker messaging is disabled)")
          else match known with
          | None => Err ("unknown recipient " +:+ quote to)
          | Some (cn, slug, _) => Ok (MkTarget ("agent:" +:+ slug) (nc_instanceProject cfg) cn relayFrom)
          end
        end
  | None => Err ("caller " +:+ quote caller +:+ " is not the manager or a declared worker")
  end.

Definition managerAlias : string := "user:manager".
Definition msgRecipientCap : nat := 16.

(** [slices.Sort] on addresses: insertion into byte order. *)
Fixpoint insert_sorted (s : string) (l : list string) : list string :=
  match l with
  | [] => [s]
  | t :: l' => if String.leb s t then s :: l else t :: insert_sorted s l'
  end.
Definition sort_strings (l : list string) : list string := foldr insert_sorted [] l.

(** [msgRecipients]; [None] is nil. *)
Definition msgRecipients (caller : string) (n : Node) : option (list string) :=
  match identity caller n with
  | Some (callerCN, _, isManager) =>
    if negb (str_eqb callerCN caller) then None
    else
      let workers := if isManager || nc_workerToWorker (n_cfg n)
                     then sort_strings ((fun w => "agent:" +:+ w) <$> elements (nc_workers (n_cfg n)))
                     else ["agent:" +:+ caller] in
      Some (if isManager then ("agent:" +:+ nc_managerSlug (n_cfg n)) :: workers else managerAlias :: workers)
  | None => None
  end.

Definition recipientsHint (addrs : list string) : string :=
  match addrs with
  | [] => ""
  | _ =>
    let extra := (length addrs - msgRecipientCap)%nat in
    "; you may send to: " +:+ String.concat ", " (take msgRecipientCap addrs)
    +:+ (if (0 <? extra)%nat then " and " +:+ itoa (Z.of_nat extra) +:+ " more (`lever-manager msg recipients` lists them all)" else "")
  end.

(** [resolveListSubject]. *)
Definition resolveListSubject (caller worker : string) (n : Node) : result string string :=
  let known w := bool_decide (w ∈ nc_workers (n_cfg n)) in
  if str_eqb caller (b_manager (n_b n)) then
    if is_empty worker then Ok (nc_managerSlug (n_cfg n))
    else if negb (known worker) then Err ("unknown worker " +:+ quote worker)
    else Ok worker
  else if negb (known caller) then Err ("caller " +:+ quote caller +:+ " is not the manager or a declared worker")
  else if negb (is_empty worker) then Err "a worker may only read its own inbox"
  else Ok caller.

(** [eventsForAgent], on events with their [agentId]. *)
Definition eventsForAgent {A} (agent_of : A -> string) (events : list A) (agentID : string) : list A :=
  List.filter (fun e => negb (is_empty (agent_of e)) && str_eqb (agent_of e) agentID) events.

(** * Recipients that run *)

Definition operatorActor : string := "operator".
Definition PhaseRunning : string := "running".

(** [notRunningRefusal]: [phase] is what [phaseOf] answered, an error text or a
    known phase label. *)
Definition notRunningRefusal (actor slug : string) (toManager : bool) (phase : result string string) (n : Node)
    : Node * string :=
  match phase with
  | Err e => (n_audit "msg" actor "error" ("send->agent:" +:+ slug +:+ ": phase: " +:+ e +:+ " (sending without the check)") [] n, "")
  | Ok ph =>
    (n,
     if str_eqb ph PhaseRunning then ""
     else if toManager && is_empty ph then "the manager has no record on the hub; the operator starts it with `lever up`"
     else if toManager then "the manager is not running (phase " +:+ ph +:+ "); the operator resumes it with `lever up`"
     else if is_empty ph && str_eqb actor operatorActor
          then "worker " +:+ slug +:+ " has no record on the hub (never started, or purged); start it with `lever worker start " +:+ slug +:+ "`"
     else if is_empty ph
          then "worker " +:+ slug +:+ " has no record on the hub (never started, or purged); start it first: `lever-manager agent start " +:+ slug +:+ " --task " +:+ quote "…" +:+ "`"
     else if str_eqb actor operatorActor
          then "worker " +:+ slug +:+ " is not running (phase " +:+ ph +:+ "); resume it with `lever worker resume " +:+ slug +:+ "`"
     else "worker " +:+ slug +:+ " is not running (phase " +:+ ph +:+ "); resume it first: `lever-manager agent resume " +:+ slug +:+ "`")
  end.

Definition maxMsgRecipientLen : Z := 128.

(** [wire.MsgSendRequest]. *)
Record MsgSendRequest := MkMsgSend { ms_To : string; ms_Body : string; ms_Interrupt : bool }.

(** [runtimeReady]. *)
Definition runtimeReady (n : Node) : Node * bool :=
  if negb (nc_runtime (n_cfg n)) then (n_audit "worker" (b_manager (n_b n)) "error" "runtime not wired" [] n, false)
  else (n, true).

(** The gate of a route, on the node. *)
Definition requireLive (p : peer) (op pre : string) (n : Node) : Node * option string :=
  let '(b, r) := requireLiveAgent p op pre (n_b n) in (on_b (fun _ => b) n, r).

(** The kind of a send and its text, from the sender's identity. *)
Definition send_kind (tgt : msgTarget) : string :=
  if is_empty (mt_relayFrom tgt) then SentLedger.KindManager else SentLedger.WorkerKind (mt_relayFrom tgt).
Definition send_compose (tgt : msgTarget) (body ref : string) : string :=
  if is_empty (mt_relayFrom tgt) then markedBody managerMarker ref body
  else relayedWorkerBody (mt_relayFrom tgt) ref body.

Definition handleMsgSend (p : peer) (body : option MsgSendRequest) (phase : result string string) (w : SendWorld) (n : Node)
    : Node * response unit :=
  match requireLive p "msg" "" n with
  | (n, None) => (n, forbidden)
  | (n, Some caller) =>
    match body with
    | None => (n_audit "msg" caller "deny" "bad body" [] n, HttpError StatusBadRequest "bad request")
    | Some req =>
      if maxMsgRecipientLen <? len (ms_To req)
      then (n_audit "msg" caller "deny" "send: recipient longer than the limit" [] n,
            HttpError StatusBadRequest "recipient is too long")
      else match resolveMsgTarget caller (ms_To req) n with
      | Err e =>
        (n_audit "msg" caller "deny" ("send->" +:+ ms_To req +:+ ": " +:+ e) [] n,
         HttpError StatusForbidden (e +:+ recipientsHint (default [] (msgRecipients caller n))))
      | Ok tgt =>
        match runtimeReady n with
        | (n, false) => (n, Refuse "runtime-unavailable" "worker dispatch unavailable" StatusBadGateway)
        | (n, true) =>
          let '(slug, _) := CutPrefix (mt_scionTo tgt) "agent:" in
          let '(n, refusal) := notRunningRefusal caller slug (str_eqb (mt_recipientCN tgt) (b_manager (n_b n))) phase n in
          if negb (is_empty refusal)
          then (n_audit "msg" caller "deny" ("send->" +:+ mt_scionTo tgt +:+ ": " +:+ refusal) [] n, HttpError StatusConflict refusal)
          else
            match sendRecorded (mt_recipientCN tgt) slug (send_kind tgt) (send_compose tgt (ms_Body req))
                    (mt_scionTo tgt) (mt_project tgt) (ms_Interrupt req) w n with
            | (n, (_, Some NotRecorded)) => (n, HttpError StatusBadGateway "message not sent: cannot record the message")
            | (n, (ref, Some (HubError e))) =>
              (n_audit "msg" caller "error" ("send->" +:+ ms_To req +:+ " " +:+ ref +:+ ": " +:+ e) [] n,
               HttpError StatusBadGateway "runtime error")
            | (n, (ref, None)) =>
              (n_audit "msg" caller "allow" ("send->" +:+ mt_scionTo tgt) [("kind", send_kind tgt); ("ref", ref)] n, ROk tt)
            end
        end
      end
    end
  end.

Definition handleMsgRecipients (p : peer) (n : Node) : Node * response (list string) :=
  match requireLive p "msg" "" n with
  | (n, None) => (n, forbidden)
  | (n, Some caller) =>
    match msgRecipients caller n with
    | None => (n_audit "msg" caller "deny" "recipients: not the manager or a declared worker" [] n,
               HttpError StatusForbidden ("caller " +:+ quote caller +:+ " is not the manager or a declared worker"))
    | Some addrs => (n_audit "msg" caller "allow" "recipients" [] n, ROk addrs)
    end
  end.

(** [handleMsgList]: [resolver] is whether the agent-id resolver is wired and what
    it answered, [inbox] the hub's feed, [report] the marking of an event. *)
Definition handleMsgList {A} (agent_of : A -> string) (report : A -> A) (p : peer) (body : option string)
    (resolver : option (result string string)) (inbox : result (list A) string) (n : Node) : Node * response (list A) :=
  match requireLive p "msg" "" n with
  | (n, None) => (n, forbidden)
  | (n, Some caller) =>
    match body with
    | None => (n_audit "msg" caller "deny" "bad body" [] n, HttpError StatusBadRequest "bad request")
    | Some worker =>
      if maxMsgRecipientLen <? len worker
      then (n_audit "msg" caller "deny" "list: worker name longer than the limit" [] n,
            HttpError StatusBadRequest "worker name is too long")
      else match resolveListSubject caller worker n with
      | Err e => (n_audit "msg" caller "deny" ("list " +:+ worker +:+ ": " +:+ e) [] n, HttpError StatusForbidden e)
      | Ok subject =>
        match runtimeReady n with
        | (n, false) => (n, Refuse "runtime-unavailable" "worker dispatch unavailable" StatusBadGateway)
        | (n, true) =>
          match resolver with
          | None => (n_audit "msg" caller "error" "list: agent id resolver not wired" [] n,
                     HttpError StatusBadGateway "inbox unavailable")
          | Some r =>
            let bad e := (n_audit "msg" caller "error" ("list: resolving agent id for " +:+ subject +:+ ": " +:+ e) [] n,
                          HttpError StatusBadGateway "inbox unavailable") in
            match r with
            | Err e => bad e
            | Ok subjectID =>
              if is_empty subjectID then bad "hub returned no id for it"
              else match inbox with
              | Err e => (n_audit "msg" caller "error" ("list: " +:+ e) [] n, HttpError StatusBadGateway "runtime error")
              | Ok events =>
                (n_audit "msg" caller "allow" ("list " +:+ subject) [] n,
                 ROk (report <$> eventsForAgent agent_of events subjectID))
              end
            end
          end
        end
      end
    end
  end.

(** * What is sent *)

(** The id's file has no line with it yet. *)
Definition fresh_id (id recipient kind : string) (l : SentLedger.Ledger) : Prop :=
  forall f, SentLedger.l_disk l !! SentLedger.FileFor recipient kind = Some f ->
    Forall (SentLedger.unnamed id) (SentLedger.f_old f ++ SentLedger.f_lines f).

(** Lever sends nothing it has not recorded. With the ledger on, a send that
    reaches the hub is in the ledger under its ref, for its recipient, with the
    text and kind that went out, whatever the hub or the disk answered
    afterwards; and a send that could not be recorded is not made. *)
Theorem sends_are_recorded recipientCN slug kind compose to project intr w n n' ref err :
  n_sent n <> SentOff ->
  (forall l id, sent_get (sw_open w) (n_sent n) = (SentDir (Some l), GotLedger l) ->
     SentLedger.NewID (sw_idb w) = Some id -> fresh_id id recipientCN kind l) ->
  sendRecorded recipientCN slug kind compose to project intr w n = (n', (ref, err)) ->
  (n_outbox n' = n_outbox n /\ err = Some NotRecorded)
  \/ (n_outbox n' = n_outbox n ++ [MkMsgOpts to project (compose ref) intr] /\ err <> Some NotRecorded
      /\ exists led s, n_sent n' = SentDir (Some led) /\ SentLedger.held recipientCN ref led = Some s
         /\ SentLedger.se_Body s = compose ref /\ SentLedger.se_Kind s = kind /\ SentLedger.se_Before s = sw_before w).
Proof.
  intros Hon Hfr E. unfold sendRecorded in E.
  destruct (sent_get (sw_open w) (n_sent n)) as [st [|e|led]] eqn:Eg.
  - unfold sent_get in Eg. repeat case_match; simplify_eq; done.
  - simplify_eq. by left.
  - destruct (SentLedger.NewID (sw_idb w)) as [id|] eqn:Eid; [|simplify_eq; by left].
    assert (st = SentDir (Some led)) as -> by (unfold sent_get in Eg; repeat case_match; simplify_eq; done).
    set (e := SentLedger.MkSent _ _ _ _ _ _ _ _) in E.
    destruct (SentLedger.Begin _ _ _) as [led1 [[]|be]] eqn:Eb; [|simplify_eq; by left].
    right. destruct (SentLedger.begin_recorded _ _ _ _ Eb (Hfr led id eq_refl eq_refl)) as [Hv Hrec].
    destruct (SentLedger.begin_checks _ _ _ _ Eb) as (_ & Hk & Hr & _).
    destruct (SentLedger.Done _ _ _ _ _) as [led2 r] eqn:Ed.
    destruct (SentLedger.done_recorded _ _ _ _ _ _ _ Ed Hv Hk Hr Hrec) as (s & Hs & Hi).
    unfold SentLedger.same_send in Hs. simpl in Hs. injection Hs as Hs1 Hs2 _ Hs4 Hs5 Hs6.
    assert (Hnot : hub_error w <> Some NotRecorded) by (unfold hub_error; by destruct (sw_hub w)).
    assert (Hh : SentLedger.held recipientCN id led2 = Some s).
    { unfold SentLedger.held. simpl in Hi. rewrite Hi, <- Hs2. by rewrite str_eqb_refl. }
    destruct r; simplify_eq; split_and!; try done; by exists led2, s.
Qed.

(** * Who may message whom *)

(** A known agent's certificate name. *)
Definition agent_cn (cn : string) (n : Node) : Prop := cn = b_manager (n_b n) \/ cn ∈ nc_workers (n_cfg n).

Lemma identity_cn name n cn slug m :
  identity name n = Some (cn, slug, m) ->
  (m = true /\ cn = b_manager (n_b n) /\ slug = nc_managerSlug (n_cfg n))
  \/ (m = false /\ cn = name /\ slug = name /\ name ∈ nc_workers (n_cfg n) /\ name <> b_manager (n_b n)
      /\ name <> nc_managerSlug (n_cfg n)).
Proof.
  unfold identity. intros E. destruct (_ || _) eqn:Em; [simplify_eq; by left|].
  case_bool_decide; [|done]. simplify_eq. guards. by right.
Qed.

(** Messaging is default-deny and cannot be spoofed. A resolved send comes
    from the manager or a declared worker, goes to the manager or a declared
    worker, and names the sender by its certificate identity; with worker to
    worker messaging off, a worker reaches only the manager and itself. *)
Theorem message_policy caller to n tgt :
  resolveMsgTarget caller to n = Ok tgt ->
  agent_cn caller n /\ agent_cn (mt_recipientCN tgt) n
  /\ (if decide (caller = b_manager (n_b n)) then mt_relayFrom tgt = "" /\ send_kind tgt = SentLedger.KindManager
      else mt_relayFrom tgt = caller)
  /\ (caller <> b_manager (n_b n) -> nc_workerToWorker (n_cfg n) = false ->
       mt_recipientCN tgt = b_manager (n_b n) \/ mt_recipientCN tgt = caller).
Proof.
  intros E. unfold resolveMsgTarget in E.
  destruct (identity caller n) as [[[callerCN callerSlug] isM]|] eqn:Ei; [|done].
  destruct (negb (str_eqb callerCN caller)) eqn:Ec; [done|]. guards. subst callerCN.
  assert (Hcall : (isM = true /\ caller = b_manager (n_b n))
    \/ (isM = false /\ callerSlug = caller /\ caller ∈ nc_workers (n_cfg n) /\ caller <> b_manager (n_b n)))
    by (apply identity_cn in Ei; naive_solver).
  assert (Hman : forall tgt, tgt = MkTarget ("agent:" +:+ nc_managerSlug (n_cfg n)) (nc_instanceProject (n_cfg n))
      (b_manager (n_b n)) (if isM then "" else callerSlug) ->
    agent_cn caller n /\ agent_cn (mt_recipientCN tgt) n
    /\ (if decide (caller = b_manager (n_b n)) then mt_relayFrom tgt = "" /\ send_kind tgt = SentLedger.KindManager
        else mt_relayFrom tgt = caller)
    /\ (caller <> b_manager (n_b n) -> nc_workerToWorker (n_cfg n) = false ->
       mt_recipientCN tgt = b_manager (n_b n) \/ mt_recipientCN tgt = caller)).
  { intros t ->. unfold agent_cn, send_kind. simpl.
    destruct Hcall as [(-> & ->)|(-> & -> & Hw & Hne)]; [by rewrite decide_True by done; auto 10|].
    rewrite decide_False by done. auto. }
  destruct (CutPrefix to "user:") as [who isUser]. destruct (isUser && negb (is_empty who)) eqn:Eu.
  { destruct (_ || _) in E; [|done]. injection E as <-. by apply Hman. }
  destruct (CutPrefix to "agent:") as [rest isAgent]. set (name := if isAgent && negb (is_empty rest) then rest else to) in E.
  destruct (identity name n) as [[[cn slug] m]|] eqn:Ek.
  2:{ by destruct (negb isM && negb (str_eqb caller name) && negb (nc_workerToWorker (n_cfg n))). }
  destruct m; [injection E as <-; by apply Hman|].
  destruct (negb isM && negb (str_eqb caller name) && negb (nc_workerToWorker (n_cfg n))) eqn:Ed; [done|].
  injection E as <-. apply identity_cn in Ek as [[? _]|(_ & -> & -> & Hw & Hn1 & Hn2)]; [done|].
  unfold agent_cn, send_kind. simpl. destruct Hcall as [(-> & ->)|(-> & -> & Hcw & Hne)].
  - rewrite decide_True by done. split_and!; auto. done.
  - rewrite decide_False by done. split_and!; auto. intros _ Hww. right. rewrite Hww in Ed. simpl in Ed.
    destruct (str_eqb caller name) eqn:Es; [by guards | done].
Qed.

(** The name an address stands for. *)
Definition address_name (to : string) : string :=
  let '(rest, isAgent) := CutPrefix to "agent:" in if isAgent && negb (is_empty rest) then rest else to.

(** A worker cannot probe for its peers. With worker to worker messaging off,
    what a worker is told about an address that is neither the manager nor itself
    does not depend on which workers exist. *)
Theorem no_peer_oracle caller to n n' :
  b_manager (n_b n') = b_manager (n_b n) ->
  nc_managerSlug (n_cfg n') = nc_managerSlug (n_cfg n) ->
  nc_instanceProject (n_cfg n') = nc_instanceProject (n_cfg n) ->
  nc_workerToWorker (n_cfg n) = false -> nc_workerToWorker (n_cfg n') = false ->
  caller ∈ nc_workers (n_cfg n) -> caller ∈ nc_workers (n_cfg n') -> caller <> b_manager (n_b n) ->
  caller <> nc_managerSlug (n_cfg n) -> address_name to <> caller ->
  resolveMsgTarget caller to n' = resolveMsgTarget caller to n.
Proof.
  intros Em Es Ep W1 W2 C1 C2 Hne Hns Ha.
  assert (Hid : forall k, b_manager (n_b k) = b_manager (n_b n) -> nc_managerSlug (n_cfg k) = nc_managerSlug (n_cfg n) ->
    caller ∈ nc_workers (n_cfg k) -> identity caller k = Some (caller, caller, false)).
  { intros k E1 E2 Hw. unfold identity. rewrite E1, E2, (proj2 (str_eqb_neq _ _) Hne), (proj2 (str_eqb_neq _ _) Hns).
    simpl. by rewrite bool_decide_eq_true_2. }
  assert (Hm : forall name, match identity name n' with Some (_, _, m) => m | None => false end
                          = match identity name n with Some (_, _, m) => m | None => false end).
  { intros name. unfold identity. rewrite Em, Es. destruct (_ || _); [done|].
    by destruct (bool_decide (name ∈ nc_workers (n_cfg n'))), (bool_decide (name ∈ nc_workers (n_cfg n))). }
  unfold resolveMsgTarget. rewrite (Hid n' Em Es C2), (Hid n eq_refl eq_refl C1), str_eqb_refl, Em, Es, Ep, W1, W2. simpl negb. cbv iota.
  destruct (CutPrefix to "user:") as [who isUser]. rewrite Hm. destruct (isUser && negb (is_empty who)); [done|].
  unfold address_name in Ha. destruct (CutPrefix to "agent:") as [rest isAgent].
  set (name := if isAgent && negb (is_empty rest) then rest else to) in *.
  rewrite (proj2 (str_eqb_neq caller name)) by done. simpl.
  specialize (Hm name). destruct (identity name n') as [[[??] []]|], (identity name n) as [[[??] []]|]; done.
Qed.

End Messaging.

End Messaging.
