(* ===== verification/Enrol.v ===== *)
(** Agent identities: single-use enrolment tickets ([internal/cap/ca/ticket.go]),
    leaf certificates ([ca/issue.go], [ca/rotate.go], [ca/tls.go]), and the
    broker's enrol, renew and bootstrap routes ([internal/broker/enrol.go],
    [renew.go], [bootstrap.go], [csr.go]) with the admission of automatic
    re-enrolments ([reenrol.go]). X.509 encoding, signing and chain verification
    are the interface [X509]. *)

From S2P Require Import Prelude Go Rules Registry Token Broker Directive Rate SentLedger Messaging.

Module Enrol.
Import Broker Messaging.

(** * Tickets *)

Record ticket := MkTicket { tk_worker : string; tk_expires : Time }.
Abbreviation TicketStore := (gmap string ticket) (only parsing).

Definition NewTicketStore : TicketStore := ∅.

Inductive ticketError := EmptyWorker | NoRandomness | UnknownTicket | TicketExpired | WorkerMismatch.

(** [issue]: [buf] is what [rand.Read] fills the 32 bytes with. *)
Definition issue (worker : string) (ttl : Duration) (sole : bool) (buf : option bytes) (now : Time) (s : TicketStore)
    : TicketStore * result string ticketError :=
  if is_empty worker then (s, Err EmptyWorker)
  else match buf with
  | None => (s, Err NoRandomness)
  | Some buf =>
    let tk := Token.hex_encode buf in
    let s := filter (fun kv => ~ (After now (tk_expires kv.2) = true \/ (sole = true /\ tk_worker kv.2 = worker))) s in
    (<[tk := MkTicket worker (Add now ttl)]> s, Ok tk)
  end.

Definition Issue (worker : string) (ttl : Duration) := issue worker ttl false.
Definition IssueSole (worker : string) (ttl : Duration) := issue worker ttl true.

Definition Redeem (tk worker : string) (now : Time) (s : TicketStore) : TicketStore * result unit ticketError :=
  match s !! tk with
  | None => (s, Err UnknownTicket)
  | Some t =>
    if After now (tk_expires t) then (delete tk s, Err TicketExpired)
    else if negb (str_eqb (tk_worker t) worker) then (s, Err WorkerMismatch)
    else (delete tk s, Ok tt)
  end.

(** * Certificates *)

Inductive ExtKeyUsage := ClientAuth | ServerAuth.

(** The leaf a certificate carries: [leafTemplate]'s fields and the key. *)
Record leaf := MkLeaf {
  lf_Serial : Z;
  lf_CN : string;
  lf_NotBefore : Time;
  lf_NotAfter : Time;
  lf_EKU : ExtKeyUsage;
  lf_DNS : list string;
  lf_IPs : list string;
  lf_Key : bytes
}.

(** A parsed certificate request: its subject's common name and its key. *)
Record csr := MkCSR { csr_CN : string; csr_Key : bytes }.

Definition certTTL : Duration := 24 * Hour.
Definition rotateMargin : Duration := certTTL / 4.

(** [crypto/x509] and [encoding/pem]: decoding a request and checking its
    self-signature, and signing a leaf with the CA's key into PEM ([None] when
    signing fails). *)
Class X509 := {
  pem_decode : bytes -> option bytes;
  parse_request : bytes -> option csr;
  check_signature : bytes -> bool;
  create_cert : leaf -> option bytes;
  parse_ip : string -> option string
}.

Section Certs.
Context `{X509}.

(** [leafTemplate] and the key: the two clock readings, and the serial number,
    [None] when the randomness fails. *)
Definition leafTemplate (cn : string) (eku : ExtKeyUsage) (dns ips : list string) (key : bytes) (serial : option Z)
    (now now' : Time) : option leaf :=
  sn ← serial; Some (MkLeaf sn cn (Add now (- Minute)) (Add now' certTTL) eku dns ips key).

Definition SignPublicKey (pub : bytes) (cn : string) (serial : option Z) (now now' : Time) : result (leaf * bytes) string :=
  if is_empty cn then Err "ca: empty common name"
  else match leafTemplate cn ClientAuth [] [] pub serial now now' with
  | None => Err "ca: serial"
  | Some l => match create_cert l with None => Err "ca: sign public key" | Some pem => Ok (l, pem) end
  end.

(** [parseCSR]: the request decoded, with its proof of possession checked. *)
Definition parseCSR (csrPEM : bytes) : result csr string :=
  match pem_decode csrPEM with
  | None => Err "broker: invalid CSR PEM"
  | Some blk =>
    match parse_request blk with
    | None => Err "broker: parse CSR"
    | Some c => if negb (check_signature blk) then Err "broker: CSR signature" else Ok c
    end
  end.

Definition parseEnrolCSR (csrPEM : bytes) : result csr string :=
  match parseCSR csrPEM with
  | Err e => Err e
  | Ok c => if is_empty (csr_CN c) then Err "broker: CSR has empty common name" else Ok c
  end.

Definition csrPublicKey (csrPEM : bytes) : result bytes string :=
  match parseCSR csrPEM with Err e => Err e | Ok c => Ok (csr_Key c) end.

(** The SAN loop of [IssueServerCertSANs]. *)
Fixpoint parse_ips (ips : list string) : result (list string) string :=
  match ips with
  | [] => Ok []
  | s :: ips' =>
    if is_empty s then parse_ips ips'
    else match parse_ip s with
    | None => Err "ca: invalid IP SAN"
    | Some ip => match parse_ips ips' with Err e => Err e | Ok l => Ok (ip :: l) end
    end
  end.

(** [IssueServerCertSANs] with [issue]: [key] is the generated leaf key. *)
Definition IssueServerCertSANs (cn : string) (dns ips : list string) (key : option bytes) (serial : option Z)
    (now now' : Time) : result (leaf * bytes) string :=
  let dns := List.filter (fun d => negb (is_empty d)) dns in
  match parse_ips ips with
  | Err e => Err e
  | Ok parsed =>
    if is_empty cn then Err "ca: empty common name"
    else match key with
    | None => Err "ca: generate leaf key"
    | Some key =>
      match leafTemplate cn ServerAuth dns parsed key serial now now' with
      | None => Err "ca: serial"
      | Some l => match create_cert l with None => Err "ca: create leaf" | Some pem => Ok (l, pem) end
      end
    end
  end.

(** [ServerCertSource]: what it serves, and the names it mints for. *)
Record ServerCertSource := MkSource { sc_cn : string; sc_dns : list string; sc_ips : list string; sc_leaf : leaf }.

(** [mintLocked]: [key], [serial] and the clock are the minting's inputs. *)
Definition mintLocked (key : option bytes) (serial : option Z) (now now' : Time) (s : ServerCertSource)
    : ServerCertSource * bool :=
  match IssueServerCertSANs (sc_cn s) (sc_dns s) (sc_ips s) key serial now now' with
  | Err _ => (s, false)
  | Ok (l, _) => (MkSource (sc_cn s) (sc_dns s) (sc_ips s) l, true)
  end.

(** [GetCertificate]; [None] is the error. *)
Definition GetCertificate (now : Time) (key : option bytes) (serial : option Z) (t t' : Time) (s : ServerCertSource)
    : ServerCertSource * option leaf :=
  if After now (Add (lf_NotAfter (sc_leaf s)) (- rotateMargin)) then
    match mintLocked key serial t t' s with
    | (s, true) => (s, Some (sc_leaf s))
    | (s, false) => if After now (lf_NotAfter (sc_leaf s)) then (s, None) else (s, Some (sc_leaf s))
    end
  else (s, Some (sc_leaf s)).

(** * Client certificates of a connection *)

Inductive verifyResult := VerifyOK | VerifyExpired | VerifyInvalid.

(** [verifyClientCert]: [verify] is [leaf.Verify] with the presented
    intermediates, at a time ([None]: now). The outcome is whether the handshake
    goes on, and the common name handed to the lapse observer, if any. *)
Definition verifyClientCert (caNotBefore caNotAfter : Time) (onLapse : bool) (peer : option leaf)
    (verify : leaf -> option Time -> verifyResult) (now : Time) : bool * option string :=
  match peer with
  | None => (true, None)
  | Some l =>
    match verify l None with
    | VerifyOK => (true, None)
    | VerifyInvalid => (false, None)
    | VerifyExpired =>
      if onLapse && negb (is_empty (lf_CN l)) && After now (lf_NotAfter l) then
        let lo := if After caNotBefore (lf_NotBefore l) then caNotBefore else lf_NotBefore l in
        let hi := if Before caNotAfter (lf_NotAfter l) then caNotAfter else lf_NotAfter l in
        if Before lo hi then
          match verify l (Some (Add lo (Z.quot (Sub hi lo) 2))) with
          | VerifyOK => (false, Some (lf_CN l))
          | _ => (false, None)
          end
        else (false, None)
      else (false, None)
    end
  end.

End Certs.

(** * The broker's routes *)

(** The broker's state for enrolment: the node, the tickets, whether it was
    bootstrapped, the healer's attempts and their times, and its settings. *)
Record Host := MkHost {
  h_node : Node;
  h_tickets : TicketStore;
  h_bootstrapped : bool;
  h_tries : gmap string Z;
  h_last : gmap string Time;
  h_ticketTTL : Duration
}.

Definition set_node (n : Node) (h : Host) : Host :=
  MkHost n (h_tickets h) (h_bootstrapped h) (h_tries h) (h_last h) (h_ticketTTL h).
Definition set_tickets (t : TicketStore) (h : Host) : Host :=
  MkHost (h_node h) t (h_bootstrapped h) (h_tries h) (h_last h) (h_ticketTTL h).
Definition set_boot (b : bool) (h : Host) : Host :=
  MkHost (h_node h) (h_tickets h) b (h_tries h) (h_last h) (h_ticketTTL h).
Definition set_heal (tries : gmap string Z) (last : gmap string Time) (h : Host) : Host :=
  MkHost (h_node h) (h_tickets h) (h_bootstrapped h) tries last (h_ticketTTL h).
Definition h_audit (op caller decision detail : string) (h : Host) : Host :=
  set_node (n_audit op caller decision detail [] (h_node h)) h.

Definition ticketText (e : ticketError) : string :=
  match e with
  | EmptyWorker => "ca: ticket for empty worker"
  | NoRandomness => "ca: ticket randomness"
  | UnknownTicket => "ca: unknown ticket"
  | TicketExpired => "ca: ticket expired"
  | WorkerMismatch => "ca: ticket worker mismatch"
  end.

Section Routes.
Context `{X509, Token.SigScheme, Token.TokenWire, Rendering, MsgLib}.

(** The clock and randomness of a signing. *)
Record SignWorld := MkSignWorld { gw_serial : option Z; gw_now : Time; gw_now' : Time }.

(** [handleEnrol]: the body is the ticket and the request; the answer the
    certificate. [wrote] is the generation's write. *)
Definition handleEnrol (body : option (string * bytes)) (now : Time) (g : SignWorld) (wrote : bool) (h : Host)
    : Host * response (leaf * bytes) :=
  match body with
  | None => (h_audit "enrol" "" "deny" "bad body" h, HttpError StatusBadRequest "bad request")
  | Some (tk, csrPEM) =>
    match parseEnrolCSR csrPEM with
    | Err e => (h_audit "enrol" "" "deny" e h, forbidden)
    | Ok c =>
      let cn := csr_CN c in
      match Redeem tk cn now (h_tickets h) with
      | (t, Err e) => (h_audit "enrol" cn "deny" (ticketText e) (set_tickets t h), forbidden)
      | (t, Ok _) =>
        let h := set_tickets t h in
        match SignPublicKey (csr_Key c) cn (gw_serial g) (gw_now g) (gw_now' g) with
        | Err e => (h_audit "enrol" cn "error" e h, HttpError StatusInternalServerError "internal error")
        | Ok cert =>
          let n := h_node h in
          (h_audit "enrol" cn "allow" ""
             (set_node (set_store (Directive.BumpGeneration cn wrote (n_store n)) n) h), ROk cert)
        end
      end
    end
  end.

(** [handleRenew]. *)
Definition handleRenew (p : peer) (body : option bytes) (g : SignWorld) (wrote : bool) (h : Host)
    : Host * response (leaf * bytes) :=
  match requireLive p "renew" "" (h_node h) with
  | (n, None) => (set_node n h, forbidden)
  | (n, Some caller) =>
    let h := set_node n h in
    match body with
    | None => (h_audit "renew" caller "deny" "bad body" h, HttpError StatusBadRequest "bad request")
    | Some csrPEM =>
      match csrPublicKey csrPEM with
      | Err e => (h_audit "renew" caller "deny" e h, forbidden)
      | Ok pub =>
        match SignPublicKey pub caller (gw_serial g) (gw_now g) (gw_now' g) with
        | Err e => (h_audit "renew" caller "error" e h, HttpError StatusInternalServerError "internal error")
        | Ok cert =>
          let n := h_node h in
          (h_audit "renew" caller "allow" ""
             (set_node (set_store (Directive.EnsureGeneration caller wrote (n_store n)) n) h), ROk cert)
        end
      end
    end
  end.

(** [handleBootstrap]: the answer is the manager's ticket. *)
Definition handleBootstrap (buf : option bytes) (now : Time) (h : Host) : Host * response string :=
  let manager := b_manager (n_b (h_node h)) in
  if h_bootstrapped h
  then (h_audit "bootstrap" manager "deny" "already bootstrapped" h, HttpError StatusForbidden "already bootstrapped")
  else
    let h := set_boot true h in
    match IssueSole manager (h_ticketTTL h) buf now (h_tickets h) with
    | (t, Err e) => (h_audit "bootstrap" manager "error" (ticketText e) (set_tickets t h),
                     HttpError StatusInternalServerError "mint failed")
    | (t, Ok tk) => (h_audit "bootstrap" manager "allow" "" (set_tickets t h), ROk tk)
    end.

(** [bootstrapFor]: the ticket of a staged envelope. *)
Definition bootstrapFor (cn : string) (buf : option bytes) (now : Time) (h : Host) : Host * result string string :=
  match Issue cn (h_ticketTTL h) buf now (h_tickets h) with
  | (t, Err e) => (set_tickets t h, Err ("ticket: " +:+ ticketText e))
  | (t, Ok tk) => (set_tickets t h, Ok tk)
  end.

End Routes.

(** * Automatic re-enrolment *)

Definition reenrolCooldown : Duration := 10 * Minute.
Definition reenrolMaxAttempts : Z := 3.
Definition reenrolResetAfter : Duration := Hour.

Inductive autoReenrol := ReenrolAll | ReenrolManager | ReenrolOff.

(** [healTarget]: the slug to bounce, and whether it is a worker's. *)
Definition healTarget (mode : autoReenrol) (cn : string) (n : Node) : option (string * bool) :=
  let isWorker := bool_decide (cn ∈ nc_workers (n_cfg n)) in
  let manager := b_manager (n_b n) in
  match mode with
  | ReenrolOff => None
  | ReenrolManager => if negb (str_eqb cn manager) then None
                      else if isWorker then Some (cn, true) else Some (nc_managerSlug (n_cfg n), false)
  | ReenrolAll => if negb (str_eqb cn manager) && negb isWorker then None
                  else if isWorker then Some (cn, true) else Some (nc_managerSlug (n_cfg n), false)
  end.

Definition tries_of (cn : string) (h : Host) : Z := default 0 (h_tries h !! cn).

Definition admitReenrol (cn : string) (now : Time) (h : Host) : Host * bool :=
  let attempt h :=
    if reenrolMaxAttempts <=? tries_of cn h then (h, false)
    else (set_heal (<[cn := tries_of cn h + 1]> (h_tries h)) (<[cn := now]> (h_last h)) h, true) in
  match h_last h !! cn with
  | Some last =>
    if Sub now last <? reenrolCooldown then (h, false)
    else if reenrolResetAfter <=? Sub now last
         then attempt (set_heal (<[cn := 0]> (h_tries h)) (h_last h) h)
         else attempt h
  | None => attempt h
  end.

Definition uncountReenrol (cn : string) (h : Host) : Host :=
  set_heal (<[cn := Z.max 0 (tries_of cn h - 1)]> (h_tries h)) (h_last h) h.

Definition resetReenrolTries (cn : string) (h : Host) : Host :=
  set_heal (<[cn := 0]> (h_tries h)) (h_last h) h.

(** * Tickets are single use *)

Inductive tevent :=
| TIssue (worker : string) (ttl : Duration) (sole : bool) (buf : option bytes) (now : Time)
| TRedeem (tk worker : string) (now : Time).

Definition texec (s : TicketStore) (e : tevent) : TicketStore :=
  match e with
  | TIssue worker ttl sole buf now => (issue worker ttl sole buf now s).1
  | TRedeem tk worker now => (Redeem tk worker now s).1
  end.

Definition trun (s : TicketStore) (es : list tevent) : TicketStore := foldl texec s es.

(** [e] issues the ticket [tk]. *)
Definition issues (tk : string) (e : tevent) : Prop :=
  match e with TIssue _ _ _ (Some buf) _ => Token.hex_encode buf = tk | _ => False end.

(** Every ticket of the store was issued for its worker, with its expiry. *)
Definition issued_by (es : list tevent) (s : TicketStore) : Prop :=
  forall tk t, s !! tk = Some t -> exists ttl sole buf now,
    TIssue (tk_worker t) ttl sole (Some buf) now ∈ es /\ Token.hex_encode buf = tk /\ tk_expires t = now + ttl.

Lemma redeem_sub tk worker now s k t : (Redeem tk worker now s).1 !! k = Some t -> s !! k = Some t.
Proof.
  unfold Redeem. destruct (s !! tk) as [t0|]; [|done].
  repeat case_match; simpl; try done; intros E; by apply lookup_delete_Some in E as [_ E].
Qed.

Lemma issue_lookup worker ttl sole buf now s k t :
  (issue worker ttl sole buf now s).1 !! k = Some t ->
  s !! k = Some t \/ (exists b, buf = Some b /\ k = Token.hex_encode b /\ t = MkTicket worker (Add now ttl)).
Proof.
  unfold issue. case_match; [by left|]. destruct buf as [b|]; [|by left]. simpl. rewrite lookup_insert.
  destruct (decide _) as [<-|Hne] in |- *; [intros [= <-]; by right; eauto|]. intros E%map_lookup_filter_Some. by left; destruct E.
Qed.

Lemma issued_run es : forall pre s, issued_by pre s -> issued_by (pre ++ es) (trun s es).
Proof.
  induction es as [|e es IH]; intros pre s Hs; simpl; [by rewrite app_nil_r|].
  rewrite (cons_middle e pre es), app_assoc. apply IH. intros k t E.
  assert (Hold : s !! k = Some t -> exists ttl sole buf now,
    TIssue (tk_worker t) ttl sole (Some buf) now ∈ pre ++ [e] /\ Token.hex_encode buf = k /\ tk_expires t = now + ttl).
  { intros Hk. destruct (Hs k t Hk) as (ttl & sole & buf & now & Hin & Hr). exists ttl, sole, buf, now.
    split; [set_solver | done]. }
  destruct e as [worker ttl sole buf now|tk worker now]; simpl in E.
  - apply issue_lookup in E as [E|(b & -> & -> & ->)]; [by apply Hold|].
    exists ttl, sole, b, now. split_and!; [simpl; set_solver | done..].
  - apply redeem_sub in E. by apply Hold.
Qed.

Lemma absent_run tk es : forall s, s !! tk = None -> Forall (fun e => ~ issues tk e) es -> trun s es !! tk = None.
Proof.
  induction es as [|e es IH]; intros s Hs Hf; [done|]. apply Forall_cons in Hf as [He Hf]. apply IH; [|done].
  destruct (texec s e !! tk) as [t|] eqn:E; [|done]. exfalso. destruct e as [worker ttl sole buf now|tk' worker now]; simpl in E.
  - apply issue_lookup in E as [E|(b & -> & -> & _)]; [congruence | by apply He].
  - apply redeem_sub in E. congruence.
Qed.

Lemma redeem_ok tk worker now s s' :
  Redeem tk worker now s = (s', Ok tt) ->
  s' = delete tk s /\ exists t, s !! tk = Some t /\ tk_worker t = worker /\ now <= tk_expires t.
Proof.
  unfold Redeem, After. intros E. destruct (s !! tk) as [t|]; [|done].
  destruct (Z.ltb_spec (tk_expires t) now); [done|]. destruct (negb _) eqn:Ew; [done|]. guards.
  injection E as <-. split; [done|]. by exists t.
Qed.

(** C33: an enrolment ticket works once, for the worker it was issued to. In any
    sequence of issues and redemptions from an empty store, a redemption that
    succeeds presents a ticket issued for exactly that worker that has not
    expired; and after it, unless the same 32 random bytes are drawn again, no
    redemption of that ticket succeeds. A wrong worker's attempt on an unexpired
    ticket fails and leaves it usable. *)
Theorem ticket_single_use es tk worker now s' :
  Redeem tk worker now (trun NewTicketStore es) = (s', Ok tt) ->
  (exists ttl sole buf t0, TIssue worker ttl sole (Some buf) t0 ∈ es /\ Token.hex_encode buf = tk /\ now <= t0 + ttl)
  /\ (forall es' worker' now', Forall (fun e => ~ issues tk e) es' ->
        (Redeem tk worker' now' (trun s' es')).2 = Err UnknownTicket)
  /\ (forall worker', worker' <> worker ->
        Redeem tk worker' now (trun NewTicketStore es) = (trun NewTicketStore es, Err WorkerMismatch)).
Proof.
  intros E. destruct (redeem_ok _ _ _ _ _ E) as (-> & t & Et & <- & Hx).
  split_and!.
  - destruct (issued_run es [] NewTicketStore) with (tk := tk) (t := t) as (ttl & sole & buf & t0 & Hin & Hb & He); [by intros ? ?|done|].
    exists ttl, sole, buf, t0. split_and!; [done..|lia].
  - intros es' worker' now' Hf. unfold Redeem. by rewrite absent_run by (done || apply lookup_delete_eq).
  - intros worker' Hne. unfold Redeem, After. rewrite Et. replace (tk_expires t <? now) with false by lia.
    by rewrite (proj2 (str_eqb_neq (tk_worker t) worker')) by done.
Qed.

(** A sole ticket is the only way in. Right after the manager's bootstrap
    issues its ticket, no other ticket redeems as the manager, this one does until
    it expires, and a second bootstrap of the same broker is refused. *)
Theorem bootstrap_ticket_is_sole buf now h h' tk `{X509, Token.SigScheme, Token.TokenWire, Rendering, MsgLib} :
  handleBootstrap buf now h = (h', ROk tk) ->
  let manager := b_manager (n_b (h_node h)) in
  (forall tk' now' s, tk' <> tk -> Redeem tk' manager now' (h_tickets h') <> (s, Ok tt))
  /\ (0 <= h_ticketTTL h -> forall now', now <= now' <= now + h_ticketTTL h ->
       (Redeem tk manager now' (h_tickets h')).2 = Ok tt)
  /\ (forall buf' now' tk', (handleBootstrap buf' now' h').2 <> ROk tk').
Proof.
  unfold handleBootstrap, IssueSole, issue. intros E.
  destruct (h_bootstrapped h) eqn:Eb; [done|]. simpl in E.
  destruct (is_empty (b_manager (n_b (h_node h)))); [done|]. destruct buf as [b|]; [|done]. simplify_eq/=.
  split_and!; [| |done].
  - intros tk' now' s Hne Er. apply redeem_ok in Er as (_ & t & Et & Hw & _).
    rewrite lookup_insert_ne in Et by done. apply map_lookup_filter_Some in Et as [_ Hf]. apply Hf. by right.
  - intros Htt now' Hn. unfold Redeem, After, Add. rewrite lookup_insert_eq. simpl.
    replace (now + h_ticketTTL h <? now') with false by lia. by rewrite str_eqb_refl.
Qed.

(** * Certificates carry proven identities *)

Section Proven.
Context `{X509, Token.SigScheme, Token.TokenWire, Rendering, MsgLib}.

Lemma sign_ok pub cn serial now now' l pem :
  SignPublicKey pub cn serial now now' = Ok (l, pem) ->
  cn <> "" /\ lf_CN l = cn /\ lf_Key l = pub /\ lf_EKU l = ClientAuth
  /\ lf_NotBefore l = now - Minute /\ lf_NotAfter l = now' + certTTL /\ create_cert l = Some pem.
Proof.
  unfold SignPublicKey, leafTemplate. intros E. destruct (is_empty cn) eqn:Ec; [done|]. guards.
  destruct serial; simpl in E; [|done]. destruct (create_cert _) eqn:Ek; [|done]. by simplify_eq/=.
Qed.

Lemma parseCSR_ok raw c : parseCSR raw = Ok c ->
  exists blk, pem_decode raw = Some blk /\ parse_request blk = Some c /\ check_signature blk = true.
Proof.
  unfold parseCSR. intros E. destruct (pem_decode raw) as [blk|]; [|done]. destruct (parse_request blk) as [c'|] eqn:Ep; [|done].
  destruct (check_signature blk) eqn:Es; [|done]. injection E as <-. exists blk. by split_and!.
Qed.

(** C32: a certificate the broker hands out carries an identity its holder proved.
    Enrolment signs the key of a request that proved possession of it, under the
    name of the unexpired ticket it redeemed, and ends the name's earlier
    enrolment generation; renewal signs under the name of the live client
    certificate on the connection, whatever name the request carries. Both are
    client certificates, valid for 24 hours. *)
Theorem certificates_carry_proven_names h h' l pem :
  (forall tk csrPEM now g wrote,
    handleEnrol (Some (tk, csrPEM)) now g wrote h = (h', ROk (l, pem)) ->
    exists c t blk, pem_decode csrPEM = Some blk /\ parse_request blk = Some c /\ check_signature blk = true
      /\ h_tickets h !! tk = Some t /\ tk_worker t = csr_CN c /\ now <= tk_expires t
      /\ lf_CN l = tk_worker t /\ lf_Key l = csr_Key c /\ lf_EKU l = ClientAuth
      /\ lf_NotAfter l = gw_now' g + certTTL /\ h_tickets h' !! tk = None
      /\ Directive.Generation (lf_CN l) (n_store (h_node h'))
         = wrap64 (Directive.Generation (lf_CN l) (n_store (h_node h)) + 1))
  /\ (forall p csrPEM g wrote,
    handleRenew p (Some csrPEM) g wrote h = (h', ROk (l, pem)) ->
    exists caller c blk, p = Cert caller /\ (caller ∉ b_revoked (n_b (h_node h)))
      /\ pem_decode csrPEM = Some blk /\ parse_request blk = Some c /\ check_signature blk = true
      /\ lf_CN l = caller /\ lf_Key l = csr_Key c /\ lf_EKU l = ClientAuth /\ lf_NotAfter l = gw_now' g + certTTL).
Proof.
  split.
  - intros tk csrPEM now g wrote E. unfold handleEnrol, parseEnrolCSR in E.
    destruct (parseCSR csrPEM) as [c|] eqn:Ep; [|done]. destruct (is_empty (csr_CN c)); [done|].
    destruct (parseCSR_ok _ _ Ep) as (blk & H1' & H2' & H3').
    destruct (Redeem _ _ _ _) as [t [[]|]] eqn:Er; [|done]. apply redeem_ok in Er as (-> & t0 & Et & Hw & Hx).
    destruct (SignPublicKey _ _ _ _ _) as [[l' pem']|] eqn:Es; [|done].
    apply sign_ok in Es as (_ & Hcn & Hk & Hu & _ & Hna & _). injection E as <- <- <-.
    exists c, t0, blk. rewrite Hcn, Hw. split_and!; try done.
    + simpl. apply lookup_delete_eq.
    + simpl. unfold Directive.BumpGeneration. destruct (Directive.persistLocked _ _) as [s' ok] eqn:Ew.
      apply Directive.persist_inv in Ew as (_ & Eg & _). simpl in *. unfold Directive.Generation. rewrite Eg.
      by rewrite lookup_insert_eq.
  - intros p csrPEM g wrote E. unfold handleRenew, requireLive, csrPublicKey in E.
    destruct (requireLiveAgent p "renew" "" (n_b (h_node h))) as [b1 [caller|]] eqn:El; [|done].
    destruct (parseCSR csrPEM) as [c|] eqn:Ep; [|done]. destruct (parseCSR_ok _ _ Ep) as (blk & H1' & H2' & H3').
    destruct (SignPublicKey _ _ _ _ _) as [[l' pem']|] eqn:Es; [|done].
    apply sign_ok in Es as (_ & Hcn & Hk & Hu & _ & Hna & _). injection E as <- <- <-.
    assert (p = Cert caller /\ caller ∉ b_revoked (n_b (h_node h))) as [-> Hlive].
    { unfold requireLiveAgent, RequireAgent, isRevoked in El. destruct p as [| |cn]; simpl in El; try done.
      destruct (is_empty cn); [done|]. destruct (bool_decide (cn ∈ b_revoked _)) eqn:Er; [done|]. guards. by simplify_eq. }
    exists caller, c, blk. by split_and!.
Qed.
End Proven.

(** * Heals are bounded *)

Inductive hevent := HAdmit (now : Time) | HUncount | HReset.

Definition hexec (cn : string) (h : Host) (e : hevent) : Host :=
  match e with
  | HAdmit now => (admitReenrol cn now h).1
  | HUncount => uncountReenrol cn h
  | HReset => resetReenrolTries cn h
  end.

(** The admissions of a sequence, newest last. *)
Fixpoint admissions (cn : string) (es : list hevent) (h : Host) : list Time :=
  match es with
  | [] => []
  | e :: es' =>
    match e with
    | HAdmit now => if (admitReenrol cn now h).2 then [now] else []
    | _ => []
    end ++ admissions cn es' (hexec cn h e)
  end.

(** Each entry is a cooldown after the one before it. *)
Fixpoint spaced (prev : option Time) (ts : list Time) : Prop :=
  match ts with
  | [] => True
  | t :: ts' => match prev with Some p => reenrolCooldown <= t - p | None => True end /\ spaced (Some t) ts'
  end.

(** The healer's counts are between zero and the cap. *)
Definition counts_ok (cn : string) (h : Host) : Prop := 0 <= tries_of cn h <= reenrolMaxAttempts.

Lemma tries_set cn z last h : tries_of cn (set_heal (<[cn := z]> (h_tries h)) last h) = z.
Proof. unfold tries_of. simpl. by rewrite lookup_insert_eq. Qed.

(** The attempt after the cooldown check. *)
Lemma attempt_inv cn now h h' ok :
  (if reenrolMaxAttempts <=? tries_of cn h then (h, false)
   else (set_heal (<[cn := tries_of cn h + 1]> (h_tries h)) (<[cn := now]> (h_last h)) h, true)) = (h', ok) ->
  counts_ok cn h ->
  counts_ok cn h' /\ h_last h' !! cn = (if ok then Some now else h_last h !! cn).
Proof.
  unfold counts_ok. intros E Hc. destruct (Z.leb_spec reenrolMaxAttempts (tries_of cn h)); simplify_eq; [done|].
  rewrite tries_set. simpl. rewrite lookup_insert_eq. split; [lia | done].
Qed.

Lemma admit_inv cn now h h' ok :
  admitReenrol cn now h = (h', ok) -> counts_ok cn h ->
  counts_ok cn h' /\ h_last h' !! cn = (if ok then Some now else h_last h !! cn)
  /\ (ok = true -> match h_last h !! cn with Some last => reenrolCooldown <= now - last | None => True end).
Proof.
  unfold admitReenrol. intros E Hc.
  destruct (h_last h !! cn) as [last|] eqn:El.
  - destruct (Z.ltb_spec (Sub now last) reenrolCooldown) as [|Hge]; [simplify_eq; by rewrite El|].
    assert (Hsp : reenrolCooldown <= now - last).
    { apply Z.nlt_ge. rewrite <- (Sub_lt_iff now last reenrolCooldown) by done. lia. }
    destruct (reenrolResetAfter <=? Sub now last).
    + apply attempt_inv in E as [H1 H2]; [|unfold counts_ok; by rewrite tries_set]. simpl in H2. rewrite El in H2. done.
    + apply attempt_inv in E as [H1 H2]; [|done]. rewrite El in H2. done.
  - apply attempt_inv in E as [H1 H2]; [|done]. rewrite El in H2. done.
Qed.

Lemma admissions_spaced cn es : forall h, counts_ok cn h -> spaced (h_last h !! cn) (admissions cn es h).
Proof.
  induction es as [|e es IH]; intros h Hc; simpl; [done|].
  destruct e as [now| |]; simpl.
  - destruct (admitReenrol cn now h) as [h' ok] eqn:Ea. simpl.
    destruct (admit_inv _ _ _ _ _ Ea Hc) as (Hc' & Hl & Hsp). specialize (IH h' Hc'). rewrite Hl in IH.
    destruct ok; simpl; [|done]. split; [by apply Hsp | done].
  - apply (IH (uncountReenrol cn h)). unfold counts_ok, uncountReenrol in *. rewrite tries_set. lia.
  - apply (IH (resetReenrolTries cn h)). unfold counts_ok, resetReenrolTries. rewrite tries_set. done.
Qed.

(** Heals cannot storm. Whatever lapses, skipped heals and successful
    restarts happen, the admitted heals of one identity are at least ten minutes
    apart, and its attempt count never passes the cap of three. *)
Theorem heals_are_spaced cn es h :
  counts_ok cn h ->
  spaced (h_last h !! cn) (admissions cn es h) /\ counts_ok cn (foldl (hexec cn) h es).
Proof.
  intros Hc. split; [by apply admissions_spaced|]. revert h Hc. induction es as [|e es IH]; intros h Hc; [done|].
  simpl. apply IH. destruct e as [now| |]; simpl.
  - destruct (admitReenrol cn now h) as [h' ok] eqn:Ea. by destruct (admit_inv _ _ _ _ _ Ea Hc).
  - unfold counts_ok, uncountReenrol in *. rewrite tries_set. lia.
  - unfold counts_ok, resetReenrolTries. rewrite tries_set. done.
Qed.

End Enrol.
