(* ===== verification/ChatLedger.v ===== *)
(** The chat ledger ([internal/chatledger/ledger.go]): the remote proxy's record
    of web chat posts, one file per login with a rotated copy. A file is its
    lines, decoded: [None] is a line a reader skips (torn, too long, not JSON).
    What the file system answers is an input of each operation. *)

From S2P Require Import Prelude.

Module ChatLedger.

Definition TierOperator : string := "operator".
Definition TierContact : string := "contact".
Definition RotateCap : Z := 2 ^ 20.

Record Entry := MkEntry {
  e_Recorded : Time;
  e_Login : string;
  e_Tier : string;
  e_Conversation : string;
  e_AgentID : string;
  e_MessageID : string;
  e_Sender : string;
  e_CreatedAt : string;
  e_Text : string
}.

(** [hostledger.CheckDir] on the directory of the records. *)
Inductive DirState := DirMissing | DirUnsafe | DirOK.

Record chatFile := MkChatFile { cf_lines : list (option Entry); cf_old : list (option Entry); cf_size : Z }.

(** The ledger directory, by file name. *)
Abbreviation ChatDir := (gmap string chatFile) (only parsing).

(** A file's name for a login: a hash of it. *)
Class ChatLib := { FileFor : string -> string }.

Inductive chatError := ErrUnsafe | ErrIO.

(** What reading meets: the directory, and how reading the files fails, if it
    does. *)
Record ReadFS := MkReadFS { rf_dir : DirState; rf_files : option chatError }.

Definition entries_of (f : chatFile) : list Entry := omap id (cf_old f ++ cf_lines f).

(** The deduplication by message id of [lookupFile] and [Lookup]; entries
    without an id are kept. *)
Fixpoint dedup (seen : gset string) (es : list Entry) : list Entry :=
  match es with
  | [] => []
  | e :: es' =>
    if is_empty (e_MessageID e) then e :: dedup seen es'
    else if bool_decide (e_MessageID e ∈ seen) then dedup seen es'
    else e :: dedup ({[e_MessageID e]} ∪ seen) es'
  end.

Definition matches (agentID sender createdAt : string) (e : Entry) : bool :=
  str_eqb (e_AgentID e) agentID && str_eqb (e_Sender e) sender && str_eqb (e_CreatedAt e) createdAt.

Definition lookupFile (f : chatFile) (agentID sender createdAt : string) : list Entry :=
  dedup ∅ (List.filter (matches agentID sender createdAt) (entries_of f)).

(** [Lookup], over the files in map order. *)
Definition Lookup (fs : ReadFS) (d : ChatDir) (agentID sender createdAt : string) : result (list Entry) chatError :=
  match rf_dir fs, rf_files fs with
  | DirMissing, _ => Ok []
  | DirUnsafe, _ => Err ErrUnsafe
  | DirOK, Some e => Err e
  | DirOK, None => Ok (dedup ∅ (concat ((fun kv => lookupFile kv.2 agentID sender createdAt) <$> map_to_list d)))
  end.

Section Chat.
Context `{ChatLib}.

(** [Writer.Append]: [made] is whether the directory is there and safe, [wrote]
    whether the append succeeds, [size] the file's size after it. *)
Definition Append (made wrote : bool) (size : Z) (e : Entry) (d : ChatDir) : ChatDir * result unit chatError :=
  if negb made then (d, Err ErrUnsafe)
  else if negb wrote then (d, Err ErrIO)
  else
    (<[FileFor (e_Login e) :=
      match d !! FileFor (e_Login e) with
      | None => MkChatFile [Some e] [] size
      | Some f => if RotateCap <? cf_size f then MkChatFile [Some e] (cf_lines f) size
                  else MkChatFile (cf_lines f ++ [Some e]) (cf_old f) size
      end]> d, Ok tt).

Definition loginEntries (fs : ReadFS) (d : ChatDir) (login : string) : result (list Entry) chatError :=
  match rf_dir fs, rf_files fs with
  | DirMissing, _ => Ok []
  | DirUnsafe, _ => Err ErrUnsafe
  | DirOK, Some e => Err e
  | DirOK, None => Ok (match d !! FileFor login with Some f => entries_of f | None => [] end)
  end.

Definition LastPost (fs : ReadFS) (d : ChatDir) (login agentID : string) : result Time chatError :=
  try es := loginEntries fs d login in
  Ok (foldl (fun last e =>
    if str_eqb (e_Login e) login && str_eqb (e_Tier e) TierContact && str_eqb (e_AgentID e) agentID
       && After (e_Recorded e) last then e_Recorded e else last) zeroTime es).

Definition ByMessageID (fs : ReadFS) (d : ChatDir) (login messageID : string) : result (option Entry) chatError :=
  try es := loginEntries fs d login in
  if is_empty messageID then Ok None
  else Ok (List.find (fun e => str_eqb (e_Login e) login && str_eqb (e_MessageID e) messageID) es).
End Chat.

(** * What a lookup finds *)

Lemma dedup_sub es : forall seen e, e ∈ dedup seen es -> e ∈ es.
Proof.
  induction es as [|x es IH]; intros seen e; simpl; [done|].
  repeat case_match; rewrite ?elem_of_cons; naive_solver.
Qed.

(** What is dropped has the id of something kept or seen. *)
Lemma dedup_id es : forall seen e, e ∈ es -> e_MessageID e <> "" ->
  e_MessageID e ∈ seen \/ exists e', e' ∈ dedup seen es /\ e_MessageID e' = e_MessageID e.
Proof.
  induction es as [|x es IH]; intros seen e Hin Hne; [by apply elem_of_nil in Hin|].
  apply elem_of_cons in Hin as [<-|Hin]; simpl.
  - rewrite (proj2 (is_empty_false _) Hne). case_bool_decide; [by left|]. right. exists e. split; [by left | done].
  - destruct (is_empty (e_MessageID x)).
    { destruct (IH seen e Hin Hne) as [?|(e' & ? & ?)]; [by left | right; exists e'; split; [by right | done]]. }
    case_bool_decide; [by apply IH|].
    destruct (IH ({[e_MessageID x]} ∪ seen) e Hin Hne) as [Hs|(e' & ? & ?)].
    + apply elem_of_union in Hs as [Hs%elem_of_singleton|Hs]; [|by left].
      right. exists x. split; [by left | done].
    + right. exists e'. split; [by right | done].
Qed.

Lemma lookup_sound fs d agentID sender createdAt es e :
  Lookup fs d agentID sender createdAt = Ok es -> e ∈ es ->
  e_AgentID e = agentID /\ e_Sender e = sender /\ e_CreatedAt e = createdAt
  /\ exists name f, d !! name = Some f /\ Some e ∈ cf_old f ++ cf_lines f.
Proof.
  unfold Lookup. intros E Hin. repeat case_match; simplify_eq; [by apply elem_of_nil in Hin|].
  apply dedup_sub in Hin. rewrite list_elem_of_In in Hin. apply in_concat in Hin as (l & Hl & Hin).
  apply list_elem_of_In, list_elem_of_fmap in Hl as ([name f] & -> & Hf%elem_of_map_to_list).
  apply list_elem_of_In, dedup_sub, list_elem_of_In, List.filter_In in Hin as [Hin Hm].
  unfold matches in Hm. guards. split_and!; [done..|]. exists name, f. split; [done|].
  apply list_elem_of_In, list_elem_of_omap in Hin as (x & Hx & Ex). unfold id in Ex. by subst x.
Qed.

Lemma lookup_complete fs d agentID sender createdAt es name f e :
  Lookup fs d agentID sender createdAt = Ok es -> rf_dir fs = DirOK ->
  d !! name = Some f -> Some e ∈ cf_old f ++ cf_lines f -> matches agentID sender createdAt e = true ->
  e_MessageID e <> "" -> exists e', e' ∈ es /\ e_MessageID e' = e_MessageID e.
Proof.
  unfold Lookup. intros E Hd Hf Hin Hm Hne. rewrite Hd in E. case_match; simplify_eq.
  assert (Hl : e ∈ List.filter (matches agentID sender createdAt) (entries_of f)).
  { apply list_elem_of_In, List.filter_In. split; [|done]. apply list_elem_of_In, list_elem_of_omap. by exists (Some e). }
  destruct (dedup_id _ ∅ _ Hl Hne) as [?|(e1 & Hin1 & E1)]; [set_solver|].
  assert (Hc : e1 ∈ concat ((fun kv : string * chatFile => lookupFile kv.2 agentID sender createdAt) <$> map_to_list d)).
  { apply list_elem_of_In, in_concat. exists (lookupFile f agentID sender createdAt). split; [|by apply list_elem_of_In].
    apply list_elem_of_In, list_elem_of_fmap. exists (name, f). split; [done | by apply elem_of_map_to_list]. }
  destruct (dedup_id _ ∅ _ Hc) as [?|(e2 & Hin2 & E2)]; [by rewrite E1 | set_solver|]. exists e2. by rewrite E2, E1.
Qed.

End ChatLedger.
