(* ===== verification/Uses.v ===== *)
(** The record of verified messages ([chatUses] of [internal/broker/chat.go]):
    which messages each agent has verified, in memory and in an append-only file
    with a rotated copy that several broker processes may write. A file is its
    lines, decoded: [None] is a line that does not parse. What the file system
    answers is an input of each operation. *)

From S2P Require Import Prelude SentLedger ChatLedger.

Module Uses.
Import ChatLedger.

Definition chatVerifyWindow : Duration := Hour.
Definition chatRepeatGrace : Duration := 10 * Minute.
Definition useRetention : Duration := 2 * SentLedger.Window.
Definition usesRotateAt : Z := 4 * 2 ^ 20.

Record UseLine := MkUse { u_Caller : string; u_ID : string; u_At : Time }.

(** A file of the record, with its size and modification time. *)
Record usesFile := MkUsesFile { uf_lines : list (option UseLine); uf_size : Z; uf_mod : Time }.

(** The record on disk: the file and its rotated copy. *)
Record usesDisk := MkUsesDisk { ud_cur : option usesFile; ud_old : option usesFile }.

(** [chatUses]; [cu_path] is whether it is kept on disk. *)
Record chatUses := MkUses {
  cu_path : bool;
  cu_used : gmap string Time;
  cu_notBefore : Time;
  cu_degraded : Time
}.

Definition set_used (m : gmap string Time) (u : chatUses) : chatUses :=
  MkUses (cu_path u) m (cu_notBefore u) (cu_degraded u).

(** [useKey]: a NUL byte between the two. *)
Definition useKey (caller id : string) : string := caller +:+ String (ascii_of_nat 0) id.
Definition line_key (l : UseLine) : string := useKey (u_Caller l) (u_ID l).

(** What one operation meets: the directory, whether the files can be read,
    whether a rotation's rename works; whether the file opens for the append,
    how many whole lines of it are written, whether a torn one follows, whether
    the write, the chmod and the close succeed; and the file's size and time
    after it. *)
Record UseWorld := MkUseWorld {
  uw_dir : DirState;
  uw_read : bool;
  uw_rename : bool;
  uw_open : bool;
  uw_written : nat;
  uw_torn : bool;
  uw_ok : bool;
  uw_size : Z;
  uw_mod : Time
}.

Definition file_lines (f : option usesFile) : list UseLine :=
  match f with Some f => omap id (uf_lines f) | None => [] end.

(** [readUses]; [None] is an error. *)
Definition readUses (w : UseWorld) (d : usesDisk) (now : Time) : option (list UseLine) :=
  match uw_dir w with
  | DirMissing => Some []
  | DirUnsafe => None
  | DirOK =>
    if negb (uw_read w) then None
    else Some (List.filter (fun l => negb (is_empty (u_ID l)) && (Sub now (u_At l) <=? useRetention))
                 (file_lines (ud_old d) ++ file_lines (ud_cur d)))
  end.

Definition rotateUses (w : UseWorld) (now : Time) (d : usesDisk) : usesDisk :=
  match uw_dir w, ud_cur d with
  | DirOK, Some f =>
    if uf_size f <=? usesRotateAt then d
    else if (match ud_old d with Some old => Sub now (uf_mod old) <=? useRetention | None => false end) then d
    else if uw_rename w then MkUsesDisk None (Some f) else d
  | _, _ => d
  end.

(** [newChatUses]. *)
Definition newChatUses (path : bool) (w : UseWorld) (now : Time) (d : usesDisk) : chatUses :=
  if negb path then MkUses false ∅ zeroTime zeroTime
  else match readUses w d now with
  | None => MkUses true ∅ now (Add now SentLedger.Window)
  | Some keep => MkUses true (foldl (fun m l => <[line_key l := u_At l]> m) ∅ keep) zeroTime zeroTime
  end.

Record useWant := MkWant { w_id : string; w_recorded : Time }.
Record useGot := MkGot { g_at : Time; g_fresh : bool }.

(** The loop over [want]: what each one gets, the keys used for the first time
    and their lines. *)
Fixpoint grant (caller : string) (now : Time) (used : gmap string Time) (want : list useWant) (fresh : list string)
    : list useGot * list string * list UseLine :=
  match want with
  | [] => ([], fresh, [])
  | w :: want' =>
    let k := useKey caller (w_id w) in
    match used !! k with
    | Some t => let '(got, fr, ls) := grant caller now used want' fresh in (MkGot t false :: got, fr, ls)
    | None =>
      if bool_decide (k ∈ fresh)
      then let '(got, fr, ls) := grant caller now used want' fresh in (MkGot now false :: got, fr, ls)
      else let '(got, fr, ls) := grant caller now used want' (fresh ++ [k]) in
           (MkGot now true :: got, fr, MkUse caller (w_id w) now :: ls)
    end
  end.

(** Merging the lines another broker may have written: the earliest use counts. *)
Definition merge_line (m : gmap string Time) (l : UseLine) : gmap string Time :=
  match m !! line_key l with
  | Some t => if Before (u_At l) t then <[line_key l := u_At l]> m else m
  | None => <[line_key l := u_At l]> m
  end.

(** The append: on a failure some lines may have reached the file. *)
Definition append_lines (w : UseWorld) (ls : list UseLine) (d : usesDisk) : usesDisk :=
  let old := match ud_cur d with Some f => uf_lines f | None => [] end in
  MkUsesDisk (Some (MkUsesFile (old ++ (Some <$> take (if uw_ok w then length ls else uw_written w) ls)
                                    ++ (if negb (uw_ok w) && uw_torn w then [None] else []))
                      (uw_size w) (uw_mod w))) (ud_old d).

Inductive useError := errDegraded | errUseNotRecorded.

(** [takeAll]. *)
Definition takeAll (w : UseWorld) (caller : string) (want : list useWant) (now : Time) (ud : chatUses * usesDisk)
    : chatUses * usesDisk * result (list useGot) useError :=
  let '(u, d) := ud in
  if existsb (fun x => negb (IsZero (cu_notBefore u)) && Before now (cu_degraded u) && Before (w_recorded x) (cu_notBefore u)) want
  then (u, d, Err errDegraded)
  else
    let u := set_used (filter (fun kv => ~ useRetention < Sub now kv.2) (cu_used u)) u in
    match (if cu_path u then readUses w d now else Some []) with
    | None => (u, d, Err errUseNotRecorded)
    | Some lines =>
      let u := set_used (foldl merge_line (cu_used u) lines) u in
      let '(got, fresh, ls) := grant caller now (cu_used u) want [] in
      let mark u := set_used (foldl (fun m k => <[k := now]> m) (cu_used u) fresh) u in
      if cu_path u && negb (bool_decide (ls = [])) then
        let d := rotateUses w now d in
        if negb (uw_open w) then (u, d, Err errUseNotRecorded)
        else
          let d := append_lines w ls d in
          if uw_ok w then (mark u, d, Ok got) else (u, d, Err errUseNotRecorded)
      else (mark u, d, Ok got)
    end.

(** [take]. *)
Definition take (w : UseWorld) (caller id : string) (recorded now : Time) (ud : chatUses * usesDisk)
    : chatUses * usesDisk * result (Time * bool) useError :=
  match takeAll w caller [MkWant id recorded] now ud with
  | (u, d, Ok (g :: _)) => (u, d, Ok (g_at g, g_fresh g))
  | (u, d, Ok []) => (u, d, Err errUseNotRecorded)
  | (u, d, Err e) => (u, d, Err e)
  end.

(** [verifiedBy]. *)
Definition verifiedBy (w : UseWorld) (caller id : string) (now : Time) (u : chatUses) (d : usesDisk) : bool :=
  if bool_decide (is_Some (cu_used u !! useKey caller id)) then true
  else if negb (cu_path u) then false
  else match readUses w d now with
  | None => false
  | Some lines => existsb (fun l => str_eqb (u_Caller l) caller && str_eqb (u_ID l) id) lines
  end.

(** * A message verifies once *)

(** The lines of a file were written before its modification time. *)
Definition file_dated (f : option usesFile) : Prop :=
  match f with Some f => Forall (fun l => match l with Some l => u_At l <= uf_mod f | None => True end) (uf_lines f) | None => True end.
Definition disk_dated (d : usesDisk) : Prop := file_dated (ud_cur d) /\ file_dated (ud_old d).

(** A use of key [k], at [t] or later, is remembered. *)
Definition on_disk (k : string) (t : Time) (d : usesDisk) : Prop :=
  exists l, l ∈ file_lines (ud_old d) ++ file_lines (ud_cur d) /\ line_key l = k /\ u_ID l <> "" /\ t <= u_At l.
Definition remembered (k : string) (t : Time) (ud : chatUses * usesDisk) : Prop :=
  if cu_path ud.1 then disk_dated ud.2 /\ on_disk k t ud.2
  else exists t', t <= t' /\ cu_used ud.1 !! k = Some t'.

(** What happens to the record: verifications of this broker, lines another
    broker appends, and restarts. *)
Inductive uevent :=
| UTake (w : UseWorld) (caller : string) (want : list useWant) (now : Time)
| UOther (ls : list UseLine) (size : Z) (mod_ : Time)
| URestart (w : UseWorld) (now : Time).

Definition uexec (ud : chatUses * usesDisk) (e : uevent) : chatUses * usesDisk :=
  match e with
  | UTake w caller want now => (takeAll w caller want now ud).1
  | UOther ls size mod_ =>
    (ud.1, MkUsesDisk (Some (MkUsesFile (match ud_cur ud.2 with Some f => uf_lines f | None => [] end ++ (Some <$> ls)) size mod_))
             (ud_old ud.2))
  | URestart w now => (newChatUses (cu_path ud.1) w now ud.2, ud.2)
  end.

Definition urun (ud : chatUses * usesDisk) (es : list uevent) : chatUses * usesDisk := foldl uexec ud es.

(** An event before [last]: its clock is not past it, and an append's file time
    is neither before the clock it was made at nor before the file's last one.
    A record kept in memory only does not survive a restart. *)
Definition stamped (now mod_ : Time) (d : usesDisk) : Prop :=
  now <= mod_ /\ match ud_cur d with Some f => uf_mod f <= mod_ | None => True end.
(** A missing directory holds no record. *)
Definition present (w : UseWorld) (d : usesDisk) : Prop :=
  uw_dir w = DirMissing -> file_lines (ud_old d) ++ file_lines (ud_cur d) = [].
Definition uevent_ok (last : Time) (ud : chatUses * usesDisk) (e : uevent) : Prop :=
  match e with
  | UTake w _ _ now => now <= last /\ stamped now (uw_mod w) ud.2
  | UOther ls _ mod_ => Forall (fun l => stamped (u_At l) mod_ ud.2) ls /\ stamped mod_ mod_ ud.2
  | URestart _ now => now <= last /\ cu_path ud.1 = true
  end.
Fixpoint uevents_ok (last : Time) (ud : chatUses * usesDisk) (es : list uevent) : Prop :=
  match es with
  | [] => True
  | e :: es' => uevent_ok last ud e /\ uevents_ok last (uexec ud e) es'
  end.

Lemma retention_le now at_ : Sub now at_ <= useRetention <-> now - at_ <= useRetention.
Proof. apply Sub_le_iff. done. Qed.

(** ** Granting *)

Lemma grant_spec caller now used want : forall fresh got fr ls,
  grant caller now used want fresh = (got, fr, ls) ->
  length got = length want /\ fr = fresh ++ (line_key <$> ls) /\ Forall (fun l => u_Caller l = caller /\ u_At l = now) ls
  /\ (forall i g, got !! i = Some g -> exists x, want !! i = Some x
        /\ (g_fresh g = true -> used !! useKey caller (w_id x) = None /\ g_at g = now
              /\ exists l, l ∈ ls /\ line_key l = useKey caller (w_id x) /\ u_ID l = w_id x /\ u_At l = now)
        /\ (forall t, used !! useKey caller (w_id x) = Some t -> g = MkGot t false)).
Proof.
  induction want as [|x want IH]; intros fresh got fr ls E; simpl in E.
  { simplify_eq. split_and!; [done | by rewrite fmap_nil, app_nil_r | done | done]. }
  destruct (used !! useKey caller (w_id x)) as [t|] eqn:Eu.
  - destruct (grant _ _ _ want fresh) as [[got' fr'] ls'] eqn:Eg. simplify_eq.
    destruct (IH _ _ _ _ Eg) as (Hl & Hf & Hc & Hi). split_and!; [by simpl; rewrite Hl | done | done |].
    intros [|i] g Hg; simpl in Hg; [|by apply Hi]. simplify_eq. exists x. split_and!; [done | done |]. intros t' Et. by simplify_eq.
  - case_bool_decide.
    + destruct (grant _ _ _ want fresh) as [[got' fr'] ls'] eqn:Eg. simplify_eq.
      destruct (IH _ _ _ _ Eg) as (Hl & Hf & Hc & Hi). split_and!; [by simpl; rewrite Hl | done | done |].
      intros [|i] g Hg; simpl in Hg; [|by apply Hi]. simplify_eq. exists x. split_and!; [done | done |]. intros t' Et. by simplify_eq.
    + destruct (grant _ _ _ want _) as [[got' fr'] ls'] eqn:Eg. simplify_eq.
      destruct (IH _ _ _ _ Eg) as (Hl & Hf & Hc & Hi). split_and!.
      * by simpl; rewrite Hl.
      * rewrite Hf, fmap_cons, <- app_assoc. done.
      * by constructor.
      * intros [|i] g Hg; simpl in Hg.
        -- simplify_eq. exists x. split; [done|]. split; [|intros t' Et; by simplify_eq].
           intros _. split_and!; [done..|]. exists (MkUse caller (w_id x) now). split_and!; [by left | done..].
        -- destruct (Hi i g Hg) as (y & Hy & H1 & H2). exists y. split_and!; [done | | done].
           intros Hfr. destruct (H1 Hfr) as (Hn & Ha & l & Hin & Hk). split_and!; [done..|]. exists l. split; [by right | done].
Qed.

Lemma merge_keeps ls : forall m k t, m !! k = Some t -> is_Some (foldl merge_line m ls !! k).
Proof.
  induction ls as [|l ls IH]; intros m k t E; simpl; [by eauto|].
  assert (Hs : is_Some (merge_line m l !! k)).
  { unfold merge_line. destruct (m !! line_key l) eqn:El; [case_match|]; rewrite ?lookup_insert; try case_decide; subst; eauto. }
  destruct Hs as [t' Et]. by apply (IH _ _ t').
Qed.

Lemma merge_in ls : forall m l, l ∈ ls -> is_Some (foldl merge_line m ls !! line_key l).
Proof.
  induction ls as [|l' ls IH]; intros m l Hin; [by apply elem_of_nil in Hin|].
  apply elem_of_cons in Hin as [->|Hin]; simpl; [|by apply IH].
  assert (Hs : is_Some (merge_line m l' !! line_key l')).
  { unfold merge_line. destruct (m !! line_key l') eqn:El; [case_match|]; rewrite ?lookup_insert_eq; eauto. }
  destruct Hs as [t Et]. by eapply merge_keeps.
Qed.

(** A use on disk is read while it is within the retention. *)
Lemma on_disk_read w d now lines k t m :
  readUses w d now = Some lines -> present w d -> on_disk k t d -> now - t <= useRetention ->
  is_Some (foldl merge_line m lines !! k).
Proof.
  intros Er Hp (l & Hin & <- & Hne & Ht) Hn. apply merge_in. unfold readUses in Er.
  destruct (uw_dir w) eqn:Ew; [| done |].
  - rewrite (Hp Ew) in Hin. by apply elem_of_nil in Hin.
  - case_match; [done|]. simplify_eq.
    apply list_elem_of_In, List.filter_In. split; [by apply list_elem_of_In|].
    rewrite (proj2 (is_empty_false _) Hne). simpl. apply Z.leb_le, retention_le. lia.
Qed.

(** ** The disk under the operations *)

Lemma file_lines_elem f l : l ∈ file_lines (Some f) <-> Some l ∈ uf_lines f.
Proof.
  unfold file_lines. rewrite list_elem_of_omap. unfold id. split; [intros (x & Hx & ->); done | by eauto].
Qed.

Lemma rotate_keeps w now d k t :
  disk_dated d -> on_disk k t d -> now - t <= useRetention ->
  disk_dated (rotateUses w now d) /\ on_disk k t (rotateUses w now d).
Proof.
  intros Hd Hk Hn. pose proof Hd as [Hc Ho]. unfold rotateUses. destruct (uw_dir w); try done.
  destruct (ud_cur d) as [f|] eqn:Ef; [|done].
  destruct (uf_size f <=? usesRotateAt); [done|].
  destruct (match ud_old d with Some old => _ | None => false end) eqn:Eold; [done|]. destruct (uw_rename w); [|done].
  split; [by split|]. destruct Hk as (l & Hin & El & Hne & Ht). exists l. split_and!; try done. simpl. rewrite app_nil_r.
  apply elem_of_app in Hin as [Hin|Hin]; [|by rewrite Ef in Hin]. exfalso.
  destruct (ud_old d) as [old|]; [|by apply elem_of_nil in Hin].
  apply Z.leb_gt in Eold. assert (Hm : useRetention < now - uf_mod old).
  { apply Z.nle_gt. rewrite <- retention_le. lia. }
  apply file_lines_elem in Hin. unfold file_dated in Ho. rewrite Forall_forall in Ho. specialize (Ho _ Hin). simpl in Ho. lia.
Qed.

Lemma append_dated w ls now d :
  disk_dated d -> Forall (fun l => u_At l = now) ls -> stamped now (uw_mod w) d -> disk_dated (append_lines w ls d).
Proof.
  intros [Hc Ho] Hls [Hn Hm]. split; [|done]. simpl. apply Forall_app. split; [|apply Forall_app; split].
  - destruct (ud_cur d) as [f|]; [|done]. eapply Forall_impl; [exact Hc|]. intros [l|]; simpl; [lia | done].
  - apply Forall_fmap. apply Forall_take. eapply Forall_impl; [exact Hls|]. simpl. intros l ->. done.
  - destruct (_ && _); by repeat constructor.
Qed.

Lemma append_cur_lines w ls d l :
  l ∈ file_lines (ud_cur d) \/ (uw_ok w = true /\ l ∈ ls) -> l ∈ file_lines (ud_cur (append_lines w ls d)).
Proof.
  intros Hin. apply file_lines_elem. simpl. rewrite !elem_of_app. destruct Hin as [Hin|[-> Hin]].
  - left. destruct (ud_cur d) as [f|]; [by apply file_lines_elem | by apply elem_of_nil in Hin].
  - right. left. rewrite firstn_all. apply list_elem_of_fmap. by exists l.
Qed.

Lemma append_keeps w ls d k t : on_disk k t d -> on_disk k t (append_lines w ls d).
Proof.
  intros (l & Hin & H1 & H2 & H3). exists l. split_and!; try done. apply elem_of_app in Hin as [Hin|Hin];
    apply elem_of_app; [by left | right; apply append_cur_lines; by left].
Qed.

Lemma rotate_stamped w now mod_ d : stamped now mod_ d -> stamped now mod_ (rotateUses w now d).
Proof. intros [H1 H2]. split; [done|]. unfold rotateUses. repeat case_match; try done; simplify_eq/=; done. Qed.

Lemma rotate_dated w now d : disk_dated d -> disk_dated (rotateUses w now d).
Proof.
  intros Hd. pose proof Hd as [Hc Ho]. unfold rotateUses. destruct (uw_dir w); try done.
  destruct (ud_cur d) as [f|] eqn:Ef; [|done].
  destruct (uf_size f <=? usesRotateAt); [done|].
  destruct (match ud_old d with Some old => _ | None => false end); [done|]. destruct (uw_rename w); [by split | done].
Qed.

(** ** One verification *)

(** The memory after the deletions and the merge. *)
Definition merged (now : Time) (lines : list UseLine) (u : chatUses) : gmap string Time :=
  foldl merge_line (filter (fun kv => ~ useRetention < Sub now kv.2) (cu_used u)) lines.

(** What a call of [takeAll] does, by how far it gets. *)
Inductive take_outcome (w : UseWorld) (caller : string) (want : list useWant) (now : Time) (u : chatUses) (d : usesDisk)
    : chatUses -> usesDisk -> result (list useGot) useError -> Prop :=
| out_degraded : take_outcome w caller want now u d u d (Err errDegraded)
| out_unread m : (forall k t, cu_used u !! k = Some t -> now - t <= useRetention -> m !! k = Some t) ->
    cu_path u = true ->
    take_outcome w caller want now u d (set_used m u) d (Err errUseNotRecorded)
| out_unwritten d' lines ls : cu_path u = true ->
    Forall (fun l => u_At l = now) ls -> d' = rotateUses w now d \/ d' = append_lines w ls (rotateUses w now d) ->
    take_outcome w caller want now u d (set_used (merged now lines u) u) d' (Err errUseNotRecorded)
| out_ok lines got fresh ls d' :
    (if cu_path u then readUses w d now = Some lines else lines = []) ->
    grant caller now (merged now lines u) want [] = (got, fresh, ls) ->
    d' = (if cu_path u && negb (bool_decide (ls = [])) then append_lines w ls (rotateUses w now d) else d) ->
    (cu_path u = true -> ls <> [] -> uw_ok w = true) ->
    take_outcome w caller want now u d (set_used (foldl (fun m k => <[k := now]> m) (merged now lines u) fresh) u) d' (Ok got).

Lemma takeAll_outcome w caller want now u d u' d' r :
  takeAll w caller want now (u, d) = (u', d', r) -> take_outcome w caller want now u d u' d' r.
Proof.
  unfold takeAll. intros E. destruct (existsb _ want); [simplify_eq; constructor|].
  destruct (if cu_path (set_used _ u) then _ else _) as [lines|] eqn:Er; simpl in Er.
  2:{ simplify_eq. destruct (cu_path u) eqn:Ep; [|done]. apply out_unread; [|done].
      intros k t Ek Ht. apply map_lookup_filter_Some. split; [done|]. simpl.
      intros Hlt. apply Z.lt_nge in Hlt. apply Hlt. by apply retention_le. }
  simpl in E. fold (merged now lines u) in E.
  destruct (grant caller now (merged now lines u) want []) as [[got fresh] ls] eqn:Eg.
  assert (Hls : Forall (fun l => u_At l = now) ls).
  { destruct (grant_spec _ _ _ _ _ _ _ _ Eg) as (_ & _ & Hf & _). eapply Forall_impl; [exact Hf|]. by intros l [_ ?]. }
  destruct (cu_path u && negb (bool_decide (ls = []))) eqn:Ec.
  - guards. destruct (negb (uw_open w)); [simplify_eq; eapply (out_unwritten w caller want now u d _ lines ls); eauto|].
    destruct (uw_ok w) eqn:Eo; simplify_eq; [|eapply (out_unwritten w caller want now u d _ lines ls); eauto].
    eapply (out_ok w caller want now u d lines got fresh ls); [by case_match; simplify_eq | done | | done].
    match goal with Hp : cu_path u = true |- _ => rewrite Hp end. by rewrite bool_decide_eq_false_2 by done.
  - injection E as <- <- <-. eapply (out_ok w caller want now u d lines got fresh ls); [by case_match; simplify_eq | done | by rewrite Ec |].
    intros Hp Hne. rewrite Hp in Ec. simpl in Ec. guards. done.
Qed.

Lemma set_fresh_kept now fresh k : forall m : gmap string Time,
  k ∉ fresh -> foldl (fun m k => <[k := now]> m) m fresh !! k = m !! k.
Proof.
  induction fresh as [|f fresh IH]; intros m Hn; simpl; [done|]. apply not_elem_of_cons in Hn as [Hne Hn].
  rewrite IH by done. by rewrite lookup_insert_ne.
Qed.

Lemma set_fresh_in now fresh k : forall m : gmap string Time,
  k ∈ fresh -> foldl (fun m k => <[k := now]> m) m fresh !! k = Some now.
Proof.
  induction fresh as [|f fresh IH]; intros m Hin; [by apply elem_of_nil in Hin|]. simpl.
  destruct (decide (k ∈ fresh)) as [H|H]; [by apply IH|]. rewrite set_fresh_kept by done.
  apply elem_of_cons in Hin as [->|?]; [by rewrite lookup_insert_eq | done].
Qed.

(** Fresh keys were not in memory. *)
Lemma grant_fresh caller now used want : forall fresh got fr ls,
  grant caller now used want fresh = (got, fr, ls) -> Forall (fun k => used !! k = None) fresh ->
  Forall (fun k => used !! k = None) fr.
Proof.
  induction want as [|x want IH]; intros fresh got fr ls E Hf; simpl in E; [by simplify_eq|].
  destruct (used !! _) as [t|] eqn:Eu; [|case_bool_decide].
  1,2: destruct (grant _ _ _ want fresh) as [[got' fr'] ls'] eqn:Eg; simplify_eq; by eapply IH.
  destruct (grant _ _ _ want _) as [[got' fr'] ls'] eqn:Eg. simplify_eq. eapply IH; [exact Eg|].
  apply Forall_app. split; [done | by constructor].
Qed.

Lemma merged_memory now u k t :
  cu_used u !! k = Some t -> now - t <= useRetention -> merged now [] u !! k = Some t.
Proof.
  intros E Ht. unfold merged. simpl. apply map_lookup_filter_Some. split; [done|]. simpl.
  intros Hlt. apply Z.lt_nge in Hlt. apply Hlt. by apply retention_le.
Qed.

Lemma take_remembered w caller want now u d u' d' r k t :
  take_outcome w caller want now u d u' d' r -> now - t <= useRetention -> stamped now (uw_mod w) d ->
  remembered k t (u, d) -> remembered k t (u', d').
Proof.
  unfold remembered. simpl. intros Ho Hn Hst Hr. destruct Ho as [|m Hm Hp|d' lines ls Hp Hls Hd|lines got fresh ls d' Hl Hg Hd Hok];
    simpl.
  - done.
  - rewrite Hp in *. done.
  - rewrite Hp in *. destruct Hr as [Hr1 Hr2]. destruct (rotate_keeps w now d k t Hr1 Hr2 Hn) as [H1 H2].
    destruct Hd as [->| ->]; [done|]. split; [|by apply append_keeps].
    eapply append_dated; [done | done | by apply rotate_stamped].
  - destruct (cu_path u) eqn:Hp; simpl in *.
    + destruct Hr as [Hr1 Hr2]. destruct (rotate_keeps w now d k t Hr1 Hr2 Hn) as [H1 H2].
      assert (Hls : Forall (fun l => u_At l = now) ls).
      { destruct (grant_spec _ _ _ _ _ _ _ _ Hg) as (_ & _ & Hf & _). eapply Forall_impl; [exact Hf|]. by intros l [_ ?]. }
      subst d'. case_match; [|done]. split; [|by apply append_keeps].
      eapply append_dated; [done | done | by apply rotate_stamped].
    + subst lines. destruct Hr as (t' & Ht' & Ek). exists t'. split; [done|].
      assert (Em : merged now [] u !! k = Some t') by (apply merged_memory; [done | lia]).
      rewrite set_fresh_kept; [done|]. intros Hin.
      apply grant_fresh in Hg; [|done]. rewrite Forall_forall in Hg. rewrite (Hg k Hin) in Em. done.
Qed.

Lemma uexec_remembered last k t ud e :
  last - t <= useRetention -> uevent_ok last ud e -> remembered k t ud -> remembered k t (uexec ud e).
Proof.
  intros Hn Hok Hr. destruct ud as [u d], e as [w caller want now|ls sz md|w now]; cbn [uexec uevent_ok fst snd] in *.
  - destruct Hok as [Hl Hst]. destruct (takeAll w caller want now (u, d)) as [[u' d'] r] eqn:E.
    eapply take_remembered; [by apply takeAll_outcome | | done | done]. lia.
  - destruct Hok as [Hls [_ Hmd]]. unfold remembered in *. simpl in *. destruct (cu_path u); [|done].
    destruct Hr as [[Hc Ho] (l & Hin & H1 & H2 & H3)]. split.
    + split; [|done]. simpl. apply Forall_app. split.
      * destruct (ud_cur d) as [f|]; [|done]. eapply Forall_impl; [exact Hc|]. intros [x|]; simpl; [lia | done].
      * apply Forall_fmap. eapply Forall_impl; [exact Hls|]. by intros x [? _].
    + exists l. split_and!; try done. apply elem_of_app in Hin as [Hin|Hin]; apply elem_of_app; [by left | right].
      apply file_lines_elem. simpl. apply elem_of_app. left. destruct (ud_cur d); [by apply file_lines_elem | by apply elem_of_nil in Hin].
  - destruct Hok as [_ Hp]. unfold remembered in *. simpl in *. rewrite Hp in *.
    unfold newChatUses. simpl. by destruct (readUses w d now).
Qed.

Lemma urun_remembered last k t es : forall ud,
  last - t <= useRetention -> uevents_ok last ud es -> remembered k t ud -> remembered k t (urun ud es).
Proof.
  induction es as [|e es IH]; intros ud Hn Hok Hr; simpl; [done|]. destruct Hok as [He Hok].
  apply IH; [done | done | by apply (uexec_remembered last)].
Qed.

(** A fresh use is remembered. *)
Lemma fresh_remembered w caller want now u d u' d' got i g x :
  takeAll w caller want now (u, d) = (u', d', Ok got) -> got !! i = Some g -> want !! i = Some x -> g_fresh g = true ->
  w_id x <> "" -> disk_dated d -> stamped now (uw_mod w) d -> remembered (useKey caller (w_id x)) now (u', d').
Proof.
  intros E%takeAll_outcome Eg Ex Hf Hne Hd Hst. inversion E as [| | |lines got' fresh ls d'' Hl Hg Hd' Hok]; subst.
  destruct (grant_spec _ _ _ _ _ _ _ _ Hg) as (_ & Hfr & Hls & Hi). destruct (Hi i g Eg) as (x' & Ex' & H1 & _).
  rewrite Ex in Ex'. injection Ex' as <-. destruct (H1 Hf) as (_ & _ & l & Hin & Hk & Hid & Hat).
  assert (Hnil : ls <> []) by (intros ->; by apply elem_of_nil in Hin).
  unfold remembered. simpl. destruct (cu_path u) eqn:Hp; simpl.
  - rewrite bool_decide_eq_false_2 by done. simpl. split.
    + eapply append_dated; [by apply rotate_dated | | by apply rotate_stamped].
      eapply Forall_impl; [exact Hls|]. by intros y [_ ?].
    + exists l. split_and!; [|done | by rewrite Hid | lia]. apply elem_of_app. right. apply append_cur_lines. right. by rewrite Hok.
  - exists now. split; [lia|]. apply set_fresh_in. rewrite Hfr. simpl. apply list_elem_of_fmap. by exists l.
Qed.

(** A remembered use is not fresh again. *)
Lemma remembered_not_fresh w caller want now u d u' d' got i g x t :
  takeAll w caller want now (u, d) = (u', d', Ok got) -> got !! i = Some g -> want !! i = Some x ->
  remembered (useKey caller (w_id x)) t (u, d) -> present w d -> now - t <= useRetention -> g_fresh g = false.
Proof.
  intros E%takeAll_outcome Eg Ex Hr Hp Hn. inversion E as [| | |lines got' fresh ls d'' Hl Hg Hd' Hok]; subst.
  destruct (grant_spec _ _ _ _ _ _ _ _ Hg) as (_ & _ & _ & Hi). destruct (Hi i g Eg) as (x' & Ex' & _ & H2).
  rewrite Ex in Ex'. injection Ex' as <-.
  assert (Hs : is_Some (merged now lines u !! useKey caller (w_id x))).
  { unfold remembered in Hr. simpl in Hr. destruct (cu_path u); [by eapply on_disk_read; [| |apply Hr|]|].
    subst lines. destruct Hr as (t' & Ht' & Ek). exists t'. apply merged_memory; [done | lia]. }
  destruct Hs as [t' Et]. by rewrite (H2 t' Et).
Qed.

(** C31: a message is new to an agent once. After a verification handed it out as
    new, no later one does within the retention of 48 hours, whatever happens in
    between: other verifications, appends of another broker, rotations, torn or
    failed writes, and restarts of a record kept on disk. *)
Theorem message_verifies_once w caller want now u d u' d' got i g x es w2 want2 now2 u2 d2 got2 j g2 x2 :
  takeAll w caller want now (u, d) = (u', d', Ok got) -> got !! i = Some g -> want !! i = Some x -> g_fresh g = true ->
  w_id x <> "" -> disk_dated d -> stamped now (uw_mod w) d ->
  uevents_ok now2 (u', d') es -> now2 - now <= useRetention ->
  takeAll w2 caller want2 now2 (urun (u', d') es) = (u2, d2, Ok got2) -> present w2 (urun (u', d') es).2 ->
  got2 !! j = Some g2 -> want2 !! j = Some x2 -> w_id x2 = w_id x -> g_fresh g2 = false.
Proof.
  intros E Eg Ex Hf Hne Hd Hst Hes Hn E2 Hp Eg2 Ex2 Eid.
  pose proof (fresh_remembered _ _ _ _ _ _ _ _ _ _ _ _ E Eg Ex Hf Hne Hd Hst) as Hr.
  pose proof (urun_remembered now2 _ now es _ Hn Hes Hr) as Hr2.
  destruct (urun (u', d') es) as [u3 d3]. rewrite <- Eid in Hr2.
  by eapply remembered_not_fresh.
Qed.

End Uses.
