(* ===== verification/Wait.v ===== *)
(** Waiting for a condition ([internal/wait/wait.go]): a probe polled with
    backoff until it is ready or fails for good, the context ends, or both the
    time budget and the attempts are spent. *)

From S2P Require Import Prelude.

Module Wait.

Inductive kind := notYet | ready | fatal.

(** One probe's answer; errors are their messages. The count of attempts is not
    wrapped: no run makes 2^63 of them. *)
Record Result := MkResult { r_kind : kind; r_obs : string; r_err : option string; r_again : bool }.

Definition Ready : Result := MkResult ready "" None false.
Definition NotYet (obs : string) : Result := MkResult notYet obs None false.
Definition NotYetErr (err : option string) : Result := MkResult notYet "" err false.
Definition Fatal (err : option string) : Result :=
  MkResult fatal "" (Some (default "wait: fatal probe result without an error" err)) false.
Definition Now (r : Result) : Result := MkResult (r_kind r) (r_obs r) (r_err r) true.

Record Progress := MkProgress {
  p_Budget : Duration;
  p_Elapsed : Duration;
  p_Attempts : Z;
  p_Last : string;
  p_LastErr : option string
}.

Record Spec := MkSpec {
  s_Budget : Duration;
  s_MinAttempts : Z;
  s_Interval : Duration;
  s_MaxInterval : Duration;
  s_NoticeAfter : Duration;
  s_NoticeEvery : Duration;
  s_Notice : bool
}.

Definition Attempts (n : Z) (interval : Duration) : Spec :=
  let n := Z.max n 1 in MkSpec (wrap64 ((n - 1) * interval)) n interval 0 0 0 false.

Definition minPause : Duration := 10 ^ 7.

(** The next pause: it doubles up to [MaxInterval]. *)
Definition backoff (s : Spec) (interval : Duration) : Duration :=
  if interval <? s_MaxInterval s then Z.min (wrap64 (interval * 2)) (s_MaxInterval s) else interval.

(** The loop of [Total]. *)
Fixpoint sum_pauses (n : nat) (s : Spec) (total interval : Duration) : Duration :=
  match n with
  | O => total
  | S n => sum_pauses n s (wrap64 (total + interval)) (Z.min (wrap64 (interval * 2)) (s_MaxInterval s))
  end.

Definition Total (s : Spec) : Duration :=
  if (s_MinAttempts s <=? 1) || (s_MaxInterval s <=? s_Interval s)
  then Z.max (s_Budget s) (wrap64 (Z.max (s_MinAttempts s - 1) 0 * s_Interval s))
  else Z.max (s_Budget s) (sum_pauses (Z.to_nat (s_MinAttempts s - 1)) s 0 (s_Interval s)).

(** What the world answers: the [k]-th probe and how long it took, the error of
    the context after it, how much longer than asked the pause after it took,
    and the error of a context that ended during it. *)
Record World := MkWorld {
  probe : nat -> Result;
  took : nat -> Duration;
  ctxErr : nat -> option string;
  late : nat -> Duration;
  ctxDone : nat -> option string
}.

Inductive outcome := Done | Failed (err : option string) | CtxEnded (err : string) | TimedOut (p : Progress).

(** The variables of [For]: [now] counts from [start], [notices] what [Notice]
    was called with. *)
Record Loop := MkLoop {
  l_p : Progress;
  l_now : Duration;
  l_nextNotice : Duration;
  l_interval : Duration;
  l_notices : list Progress
}.

Definition start (s : Spec) : Loop := MkLoop (MkProgress (s_Budget s) 0 0 "" None) 0 (s_NoticeAfter s) (s_Interval s) [].

(** The progress after a probe that did not end the wait. *)
Definition saw (r : Result) (p : Progress) : Progress :=
  match r_err r with
  | Some e => MkProgress (p_Budget p) (p_Elapsed p) (p_Attempts p + 1) (p_Last p) (Some e)
  | None => MkProgress (p_Budget p) (p_Elapsed p) (p_Attempts p + 1) (r_obs r) None
  end.
Definition at_time (now : Duration) (p : Progress) : Progress :=
  MkProgress (p_Budget p) (sat64 now) (p_Attempts p) (p_Last p) (p_LastErr p).

Definition notice (s : Spec) (p : Progress) (l : Loop) : Loop :=
  if s_Notice s && (0 <? s_NoticeAfter s) && (0 <=? l_nextNotice l) && (l_nextNotice l <=? p_Elapsed p)
  then MkLoop p (l_now l) (if 0 <? s_NoticeEvery s then wrap64 (p_Elapsed p + s_NoticeEvery s) else -1) (l_interval l) (l_notices l ++ [p])
  else MkLoop p (l_now l) (l_nextNotice l) (l_interval l) (l_notices l).

(** The pause after a probe. *)
Definition pause (s : Spec) (p : Progress) (interval : Duration) : Duration :=
  Z.max (if s_MinAttempts s <=? p_Attempts p then Z.min (Z.max interval minPause) (wrap64 (s_Budget s - p_Elapsed p)) else interval) 0.

(** One turn of the loop, the [k]-th. *)
Definition turn (w : World) (s : Spec) (k : nat) (l : Loop) : outcome + Loop :=
  let r := probe w k in
  let now := l_now l + took w k in
  match r_kind r with
  | ready => inl Done
  | fatal => inl (Failed (r_err r))
  | notYet =>
    let p := saw r (l_p l) in
    match ctxErr w k with
    | Some err => inl (CtxEnded err)
    | None =>
      let p := at_time now p in
      if (s_MinAttempts s <=? p_Attempts p) && (s_Budget s <=? p_Elapsed p) then inl (TimedOut p)
      else
        let l := notice s p (MkLoop p now (l_nextNotice l) (l_interval l) (l_notices l)) in
        if r_again r then inr l
        else
          match ctxDone w k with
          | Some err => inl (CtxEnded err)
          | None => inr (MkLoop p (now + pause s p (l_interval l) + late w k) (l_nextNotice l) (backoff s (l_interval l)) (l_notices l))
          end
    end
  end.

(** [For], for at most [fuel] turns. *)
Fixpoint loop (fuel : nat) (w : World) (s : Spec) (k : nat) (l : Loop) : option (outcome * nat) :=
  match fuel with
  | O => None
  | S fuel => match turn w s k l with inl o => Some (o, S k) | inr l => loop fuel w s (S k) l end
  end.
(** The outcome, with the number of probes that ran. *)
Definition For (fuel : nat) (w : World) (s : Spec) : option (outcome * nat) := loop fuel w s 0 (start s).

(** * What a turn does *)

Lemma turn_next w s k l l' : turn w s k l = inr l' ->
  r_kind (probe w k) = notYet /\ ctxErr w k = None
  /\ l_p l' = at_time (l_now l + took w k) (saw (probe w k) (l_p l))
  /\ (p_Attempts (l_p l') < s_MinAttempts s \/ sat64 (l_now l + took w k) < s_Budget s)
  /\ (r_again (probe w k) = true /\ l_now l' = l_now l + took w k /\ l_interval l' = l_interval l
      \/ r_again (probe w k) = false /\ l_now l' = l_now l + took w k + pause s (l_p l') (l_interval l) + late w k /\ l_interval l' = backoff s (l_interval l)).
Proof.
  unfold turn. destruct (r_kind (probe w k)); [|done..]. destruct (ctxErr w k); [done|]. cbv zeta. set (p := at_time _ _).
  destruct ((s_MinAttempts s <=? p_Attempts p) && (s_Budget s <=? p_Elapsed p)) eqn:Eb; [done|].
  assert (Hgo : p_Attempts p < s_MinAttempts s \/ sat64 (l_now l + took w k) < s_Budget s).
  { apply andb_false_iff in Eb as [Eb|Eb]; apply Z.leb_gt in Eb; [by left|by right]. }
  assert (Hn : forall b, l_p (notice s p b) = p /\ l_now (notice s p b) = l_now b /\ l_interval (notice s p b) = l_interval b) by (intros b; unfold notice; case_match; by split_and!).
  destruct (Hn (MkLoop p (l_now l + took w k) (l_nextNotice l) (l_interval l) (l_notices l))) as (E1 & E2 & E3).
  destruct (r_again (probe w k)); [intros [= <-]|destruct (ctxDone w k); [done|]; intros [= <-]; cbn [l_p l_now l_interval]]; rewrite ?E1, ?E2, ?E3; cbn [l_now l_interval].
  - split_and!; [done..|by left].
  - split_and!; [done..|by right].
Qed.

(** A turn that ends the wait says why. *)
Definition ends_with (w : World) (s : Spec) (k : nat) (l : Loop) (o : outcome) : Prop :=
  match o with
  | Done => r_kind (probe w k) = ready
  | Failed e => r_kind (probe w k) = fatal /\ r_err (probe w k) = e
  | CtxEnded e => r_kind (probe w k) = notYet /\ (ctxErr w k = Some e \/ ctxDone w k = Some e)
  | TimedOut p => r_kind (probe w k) = notYet /\ ctxErr w k = None /\ p = at_time (l_now l + took w k) (saw (probe w k) (l_p l))
                  /\ s_MinAttempts s <= p_Attempts p /\ s_Budget s <= p_Elapsed p
  end.

Lemma turn_ends w s k l o : turn w s k l = inl o -> ends_with w s k l o.
Proof.
  unfold turn, ends_with. destruct (r_kind (probe w k)) eqn:Ek; [|by intros [= <-]|by intros [= <-]].
  destruct (ctxErr w k) as [e|] eqn:Ec; [intros [= <-]; split; [done|by left]|]. cbv zeta. set (p := at_time _ _).
  destruct ((s_MinAttempts s <=? p_Attempts p) && (s_Budget s <=? p_Elapsed p)) eqn:Eb.
  - intros [= <-]. apply andb_prop in Eb as [E1%Z.leb_le E2%Z.leb_le]. by split_and!.
  - destruct (r_again _); [done|]. destruct (ctxDone w k); [|done]. intros [= <-]. split; [done|by right].
Qed.

(** ** What the evidence is *)

(** What the first [n] probes showed: the last observation, the error of the
    last of them and their number. *)
Record evidence (w : World) (n : nat) (p : Progress) : Prop := MkEvidence {
  ev_attempts : p_Attempts p = Z.of_nat n;
  ev_err : match n with O => p_LastErr p = None | S m => p_LastErr p = r_err (probe w m) end;
  ev_last : (exists k, (k < n)%nat /\ r_err (probe w k) = None /\ p_Last p = r_obs (probe w k) /\ forall j, (k < j < n)%nat -> r_err (probe w j) <> None)
            \/ (p_Last p = "" /\ forall j, (j < n)%nat -> r_err (probe w j) <> None)
}.

Lemma evidence_step w n p now : evidence w n p -> evidence w (S n) (at_time now (saw (probe w n) p)).
Proof.
  intros [Ha He Hl]. unfold at_time, saw. destruct (r_err (probe w n)) as [e|] eqn:Ee; (constructor; cbn [p_Attempts p_LastErr p_Last]; [lia|done|]).
  - destruct Hl as [(k & Hk & H1 & H2 & H3)|[H1 H2]]; [left; exists k|right]; (split_and!; [lia || done..|]); intros j Hj;
      (destruct (decide (j = n)) as [->|]; [by rewrite Ee|]); [apply H3|apply H2]; lia.
  - left. exists n. split_and!; [lia|done..|intros; lia].
Qed.

(** A run of the loop: no probe before the last ended the wait, and the last one
    or its turn did. *)
Lemma loop_answer w s fuel : forall k l o n, evidence w k (l_p l) -> p_Budget (l_p l) = s_Budget s -> loop fuel w s k l = Some (o, n) ->
  exists m l', n = S m /\ (k <= m)%nat /\ evidence w m (l_p l') /\ p_Budget (l_p l') = s_Budget s /\ ends_with w s m l' o
    /\ forall j, (k <= j < m)%nat -> r_kind (probe w j) = notYet /\ ctxErr w j = None.
Proof.
  induction fuel as [|fuel IH]; intros k l o n Hev Hb; [done|]. cbn [loop]. destruct (turn w s k l) as [o'|l'] eqn:Et.
  - intros [= <- <-]. exists k, l. split_and!; [done|lia|done|done|by apply turn_ends|intros; lia].
  - intros Hl. destruct (turn_next _ _ _ _ _ Et) as (Hk & Hc & Hp & _). apply IH in Hl as (m & l2 & -> & Hm & Hev2 & Hb2 & He & Hall);
      [|rewrite Hp; by apply evidence_step|rewrite Hp; unfold at_time, saw; by destruct (r_err _)].
    exists m, l2. split_and!; [done|lia|done|done|done|]. intros j Hj. destruct (decide (j = k)) as [->|]; [done|]. apply Hall. lia.
Qed.

Lemma start_evidence w s : evidence w 0 (l_p (start s)).
Proof. constructor; [done|done|]. right. split; [done|]. intros; lia. Qed.

(** A wait answers for what it saw. It succeeds only on a ready probe, fails
    only with the error of a fatal one, and gives the context's error only when
    the context ended; it times out only once its budget has elapsed and its
    attempts have been made, with every probe not yet ready, and the timeout
    carries the number of probes, the last observation and the error of the last
    probe. *)
Theorem wait_answers_for_what_it_saw fuel w s o n : For fuel w s = Some (o, n) ->
  exists m, n = S m /\ (forall j, (j < m)%nat -> r_kind (probe w j) = notYet /\ ctxErr w j = None) /\
  match o with
  | Done => r_kind (probe w m) = ready
  | Failed e => r_kind (probe w m) = fatal /\ r_err (probe w m) = e
  | CtxEnded e => r_kind (probe w m) = notYet /\ (ctxErr w m = Some e \/ ctxDone w m = Some e)
  | TimedOut p => r_kind (probe w m) = notYet /\ evidence w n p /\ s_MinAttempts s <= Z.of_nat n /\ s_Budget s <= p_Elapsed p
  end.
Proof.
  intros Hf. apply loop_answer in Hf as (m & l' & -> & _ & Hev & _ & He & Hall); [|apply start_evidence|done].
  exists m. split_and!; [done|intros j Hj; apply Hall; lia|]. destruct o as [|e|e|p]; [done..|].
  destruct He as (Hk & _ & -> & Hmin & Hel). pose proof (evidence_step _ _ _ (l_now l' + took w m) Hev) as Hev'.
  split_and!; [done|done| |done]. by rewrite <- (ev_attempts _ _ _ Hev').
Qed.

(** * Ending *)

(** Pauses of at least [delta] that still fit. *)
Definition steps (delta x : Z) : Z := (Z.max 0 x + delta - 1) / delta.

Lemma steps_nonneg delta x : 0 < delta -> 0 <= steps delta x.
Proof. intros Hd. unfold steps. apply Z.div_pos; lia. Qed.

Lemma steps_mono delta x y : 0 < delta -> y <= x -> steps delta y <= steps delta x.
Proof. intros Hd Hy. unfold steps. apply Z.div_le_mono; lia. Qed.

Lemma steps_less delta x y : 0 < delta -> 0 < x -> y <= x - delta \/ y <= 0 -> steps delta y + 1 <= steps delta x.
Proof.
  intros Hd Hx Hy. unfold steps. destruct (Z.le_gt_cases y 0) as [Hn|Hn].
  - replace (Z.max 0 y) with 0 by lia. rewrite (Z.div_small (0 + delta - 1)) by lia. apply Z.div_le_lower_bound; lia.
  - rewrite <- (Z.div_add _ 1 delta) by lia. apply Z.div_le_mono; lia.
Qed.

(** A world in which time passes: a probe that asks for no pause has taken a
    while. *)
Record passing (delta : Duration) (w : World) : Prop := MkPassing {
  pa_delta : 0 < delta <= minPause;
  pa_took : forall k, 0 <= took w k;
  pa_late : forall k, 0 <= late w k;
  pa_again : forall k, r_again (probe w k) = true -> delta <= took w k
}.

(** The turns left at most. *)
Definition turns_left (delta : Duration) (s : Spec) (k : nat) (l : Loop) : Z :=
  Z.max 0 (s_MinAttempts s - Z.of_nat k) + steps delta (s_Budget s - l_now l) + 1.

Lemma pause_long s p interval : int64_range (s_Budget s) -> 0 <= p_Elapsed p < s_Budget s -> s_MinAttempts s <= p_Attempts p ->
  pause s p interval >= Z.min minPause (s_Budget s - p_Elapsed p).
Proof.
  intros Hb He Hm. unfold pause. rewrite (proj2 (Z.leb_le _ _) Hm). rewrite wrap64_id by (unfold int64_range, min_int64, max_int64 in *; lia). lia.
Qed.

Lemma turn_progress delta w s k l l' : passing delta w -> int64_range (s_Budget s) -> p_Attempts (l_p l) = Z.of_nat k -> 0 <= l_now l ->
  turn w s k l = inr l' -> p_Attempts (l_p l') = Z.of_nat (S k) /\ 0 <= l_now l' /\ turns_left delta s (S k) l' + 1 <= turns_left delta s k l.
Proof.
  intros [Hd Ht Hl Ha] Hb Hk Hnow E. apply turn_next in E as (_ & _ & Hp & Hgo & Hnext).
  assert (Hk' : p_Attempts (l_p l') = Z.of_nat (S k)) by (rewrite Hp; unfold at_time, saw; destruct (r_err _); cbn [p_Attempts]; lia).
  assert (Hel : p_Elapsed (l_p l') = sat64 (l_now l + took w k)) by (by rewrite Hp).
  assert (Hpause : 0 <= pause s (l_p l') (l_interval l)) by (unfold pause; lia).
  specialize (Ht k). specialize (Hl k). specialize (Ha k).
  assert (Hge : l_now l + took w k <= l_now l') by (destruct Hnext as [(_ & -> & _)|(_ & -> & _)]; lia).
  split_and!; [done|lia|]. unfold turns_left. destruct (Z.lt_ge_cases (p_Attempts (l_p l')) (s_MinAttempts s)) as [Hlt|Hmin].
  - assert (Hm : steps delta (s_Budget s - l_now l') <= steps delta (s_Budget s - l_now l)) by (apply steps_mono; lia). lia.
  - destruct Hgo as [?|Hgo]; [lia|].
    assert (Hlt : l_now l + took w k < s_Budget s) by (unfold sat64, int64_range, min_int64, max_int64 in *; lia).
    assert (Hsat : sat64 (l_now l + took w k) = l_now l + took w k) by (unfold sat64, int64_range, min_int64, max_int64 in *; lia).
    enough (steps delta (s_Budget s - l_now l') + 1 <= steps delta (s_Budget s - l_now l)) by lia. apply steps_less; [lia|lia|].
    destruct Hnext as [(Hag & -> & _)|(_ & -> & _)]; [specialize (Ha Hag); lia|].
    pose proof (pause_long s (l_p l') (l_interval l) Hb ltac:(lia) Hmin). lia.
Qed.

Lemma loop_ends delta w s : passing delta w -> int64_range (s_Budget s) -> forall fuel k l,
  p_Attempts (l_p l) = Z.of_nat k -> 0 <= l_now l -> turns_left delta s k l <= Z.of_nat fuel ->
  exists o n, loop fuel w s k l = Some (o, n) /\ Z.of_nat n <= Z.of_nat k + turns_left delta s k l.
Proof.
  intros Hp Hb. induction fuel as [|fuel IH]; intros k l Hk Hnow Hf.
  { exfalso. unfold turns_left in Hf. pose proof (steps_nonneg delta (s_Budget s - l_now l) ltac:(apply Hp)). lia. }
  cbn [loop]. assert (Hpos : 1 <= turns_left delta s k l) by (unfold turns_left; pose proof (steps_nonneg delta (s_Budget s - l_now l) ltac:(apply Hp)); lia).
  destruct (turn w s k l) as [o|l'] eqn:Et; [exists o, (S k); split; [done|lia]|].
  destruct (turn_progress _ _ _ _ _ _ Hp Hb Hk Hnow Et) as (Hk' & Hnow' & Hless).
  destruct (IH (S k) l' Hk' Hnow' ltac:(lia)) as (o & n & E & Hn). exists o, n. split; [done|lia].
Qed.

(** Every wait ends, and one whose condition comes true in time succeeds.
    Where time passes (a probe that asks for no pause has itself taken some),
    [For] returns after at most the required attempts and the least pauses that
    fill the budget; and when a probe within the required attempts is ready, none
    before it is fatal and the context is alive until then, it returns success at
    that probe. *)
Theorem wait_ends delta w s : passing delta w -> int64_range (s_Budget s) ->
  exists fuel o n, For fuel w s = Some (o, n) /\ Z.of_nat n <= Z.max 0 (s_MinAttempts s) + steps delta (s_Budget s) + 1
    /\ forall k, Z.of_nat k < s_MinAttempts s -> r_kind (probe w k) = ready ->
         (forall j, (j < k)%nat -> r_kind (probe w j) = notYet /\ ctxErr w j = None /\ ctxDone w j = None) -> o = Done /\ n = S k.
Proof.
  intros Hp Hb. destruct (loop_ends delta w s Hp Hb (Z.to_nat (turns_left delta s 0 (start s))) 0 (start s)) as (o & n & E & Hn); [done|done|lia|].
  exists (Z.to_nat (turns_left delta s 0 (start s))), o, n. split_and!; [done| |].
  { unfold turns_left, start in Hn. cbn [l_now] in Hn. rewrite !Z.sub_0_r in Hn. lia. }
  intros k Hk Hready Hbefore. apply loop_answer in E as (m & l' & -> & _ & Hev & _ & He & Hall); [|apply start_evidence|done].
  destruct (lt_eq_lt_dec m k) as [[Hlt| ->]|Hgt].
  - exfalso. destruct (Hbefore m Hlt) as (H1 & H2 & H3). destruct o as [|e|e|p]; cbn in He; [congruence|destruct He; congruence|destruct He as [_ [?|?]]; congruence|].
    destruct He as (_ & _ & -> & Hmin & _). pose proof (ev_attempts _ _ _ (evidence_step _ _ _ (l_now l' + took w m) Hev)). lia.
  - split; [|done]. destruct o; cbn in He; [done|destruct He; congruence..].
  - exfalso. destruct (Hall k ltac:(lia)). congruence.
Qed.

(** * What a wait takes by itself *)

(** A world whose probes take no time and never end the wait. *)
Record idle (w : World) : Prop := MkIdle {
  id_probe : forall k, r_kind (probe w k) = notYet /\ r_again (probe w k) = false;
  id_time : forall k, took w k = 0 /\ late w k = 0;
  id_ctx : forall k, ctxErr w k = None /\ ctxDone w k = None
}.

(** The pauses of a spec add up without wrapping. *)
Record fits (s : Spec) : Prop := MkFits {
  fi_budget : int64_range (s_Budget s);
  fi_interval : 0 <= s_Interval s;
  fi_sum : Z.max 1 (s_MinAttempts s) * (2 * Z.max (s_Interval s) (s_MaxInterval s)) <= max_int64
}.

Lemma idle_turn w s k l : idle w -> p_Attempts (l_p l) = Z.of_nat k -> int64_range (l_now l) ->
  match turn w s k l with
  | inl (TimedOut p) => s_MinAttempts s <= Z.of_nat (S k) /\ s_Budget s <= l_now l /\ p_Elapsed p = l_now l
  | inl _ => False
  | inr l' => p_Attempts (l_p l') = Z.of_nat (S k) /\ p_Elapsed (l_p l') = l_now l
              /\ (Z.of_nat (S k) < s_MinAttempts s \/ l_now l < s_Budget s)
              /\ l_now l' = l_now l + pause s (l_p l') (l_interval l) /\ l_interval l' = backoff s (l_interval l)
  end.
Proof.
  intros [Hp Ht Hc] Hk Hn. destruct (Hp k) as [H1 H2], (Ht k) as [H3 H4], (Hc k) as [H5 H6].
  assert (Ha : forall now, p_Attempts (at_time now (saw (probe w k) (l_p l))) = Z.of_nat (S k)) by (intros now; unfold at_time, saw; destruct (r_err _); cbn [p_Attempts]; lia).
  destruct (turn w s k l) as [o|l'] eqn:Et.
  - apply turn_ends in Et. destruct o as [|e|e|p]; cbn in Et; [congruence|destruct Et; congruence|destruct Et as [_ [?|?]]; congruence|].
    destruct Et as (_ & _ & -> & Hmin & Hel). rewrite Ha in Hmin. cbn [p_Elapsed at_time] in *. rewrite H3, Z.add_0_r, sat64_id in * by done. done.
  - apply turn_next in Et as (_ & _ & Hpe & Hgo & Hnext). rewrite H3, Z.add_0_r in *. rewrite sat64_id in Hgo by done.
    destruct Hnext as [(E & _)|(_ & Hnow & Hi)]; [congruence|]. rewrite Hpe, Ha in Hgo. split_and!; [by rewrite Hpe|rewrite Hpe; cbn [p_Elapsed at_time]; by apply sat64_id|done|lia|done].
Qed.

(** The pauses of [n] turns. *)
Fixpoint paused (n : nat) (s : Spec) (interval : Duration) : Duration :=
  match n with O => 0 | S n => interval + paused n s (backoff s interval) end.

Lemma backoff_bound s i : fits s -> 0 <= i <= Z.max (s_Interval s) (s_MaxInterval s) ->
  0 <= backoff s i <= Z.max (s_Interval s) (s_MaxInterval s) /\ (i < s_MaxInterval s -> backoff s i = Z.min (i * 2) (s_MaxInterval s)) /\ (s_MaxInterval s <= i -> backoff s i = i).
Proof.
  intros [_ Hi Hs] Hb. unfold backoff. assert (Hw : wrap64 (i * 2) = i * 2) by (apply wrap64_id; unfold int64_range, min_int64, max_int64 in *; nia).
  rewrite Hw. destruct (Z.ltb_spec i (s_MaxInterval s)); lia.
Qed.

Lemma paused_bound s n : fits s -> forall i, 0 <= i <= Z.max (s_Interval s) (s_MaxInterval s) ->
  0 <= paused n s i <= Z.of_nat n * Z.max (s_Interval s) (s_MaxInterval s).
Proof.
  intros Hf. induction n as [|n IH]; intros i Hi; cbn [paused]; [lia|]. destruct (IH (backoff s i)) as [H1 H2]; [by apply backoff_bound|]. lia.
Qed.

(** The turns before the last required attempt pause as the backoff says. *)
Lemma idle_early w s n : idle w -> fits s -> forall k l, p_Attempts (l_p l) = Z.of_nat k -> Z.of_nat k + Z.of_nat n + 1 = s_MinAttempts s ->
  0 <= l_interval l <= Z.max (s_Interval s) (s_MaxInterval s) -> 0 <= l_now l <= Z.of_nat k * Z.max (s_Interval s) (s_MaxInterval s) ->
  exists l', (forall fuel, loop (n + fuel) w s k l = loop fuel w s (k + n) l') /\ p_Attempts (l_p l') = Z.of_nat (k + n)
    /\ l_now l' = l_now l + paused n s (l_interval l).
Proof.
  intros Hi Hf. induction n as [|n IH]; intros k l Hk Hmin Hint Hnow; cbn [paused].
  { exists l. rewrite Nat.add_0_r, Z.add_0_r. done. }
  assert (Hr : int64_range (l_now l)) by (pose proof (fi_sum s Hf); unfold int64_range, min_int64, max_int64 in *; nia).
  pose proof (idle_turn w s k l Hi Hk Hr) as Ht. cbn [Nat.add loop]. destruct (turn w s k l) as [[| | |p]|l1]; [done..|destruct Ht; lia|].
  destruct Ht as (Ha & He & _ & Hn & Hl). assert (Hp : pause s (l_p l1) (l_interval l) = l_interval l).
  { unfold pause. rewrite Ha. destruct (Z.leb_spec (s_MinAttempts s) (Z.of_nat (S k))); lia. }
  rewrite Hp in Hn. destruct (IH (S k) l1 Ha) as (l' & H1' & H2' & H3'); [lia|rewrite Hl; by apply backoff_bound|lia|].
  exists l'. rewrite <- Nat.add_succ_comm. split_and!; [exact H1'|exact H2'|rewrite H3', Hn, Hl; lia].
Qed.

(** From the last required attempt on, the wait ends when the budget does. *)
Lemma idle_late w s fuel : idle w -> int64_range (s_Budget s) -> forall k l o n, p_Attempts (l_p l) = Z.of_nat k -> s_MinAttempts s <= Z.of_nat (S k) ->
  int64_range (l_now l) -> 0 <= l_now l -> loop fuel w s k l = Some (o, n) ->
  exists p, o = TimedOut p /\ p_Elapsed p = Z.max (s_Budget s) (l_now l) /\ (s_Budget s <= l_now l -> n = S k).
Proof.
  intros Hi Hb. induction fuel as [|fuel IH]; intros k l o n Hk Hmin Hr Hnow; [done|]. cbn [loop].
  pose proof (idle_turn w s k l Hi Hk Hr) as Ht. destruct (turn w s k l) as [[| | |p]|l1]; [done..| |].
  { intros [= <- <-]. exists p. destruct Ht as (_ & Hle & ->). split_and!; [done|lia|done]. }
  destruct Ht as (Ha & He & Hgo & Hn & Hl). assert (Hlt : l_now l < s_Budget s) by lia.
  assert (Hp : 0 <= pause s (l_p l1) (l_interval l) <= s_Budget s - l_now l).
  { unfold pause. rewrite Ha, (proj2 (Z.leb_le _ _) Hmin), He, wrap64_id by (unfold int64_range, min_int64, max_int64 in *; lia). unfold minPause. lia. }
  intros E. destruct (IH (S k) l1 o n Ha) as (p & -> & Hel & _); [lia|unfold int64_range, min_int64, max_int64 in *; lia|lia|done|].
  exists p. split_and!; [done|lia|lia].
Qed.

(** [Total] is the sum of the pauses, or the budget. *)
Lemma sum_pauses_paused s n : fits s -> s_Interval s < s_MaxInterval s -> forall i total, 0 <= i <= s_MaxInterval s -> 0 <= total ->
  total + Z.of_nat n * s_MaxInterval s <= max_int64 -> sum_pauses n s total i = total + paused n s i.
Proof.
  intros Hf Hlt. induction n as [|n IH]; intros i total Hi Ht Hs; cbn [sum_pauses paused]; [lia|].
  destruct (backoff_bound s i Hf) as (H1' & H2' & H3'); [lia|].
  assert (Hw : wrap64 (total + i) = total + i) by (apply wrap64_id; unfold int64_range, min_int64, max_int64 in *; nia).
  assert (Hb : Z.min (wrap64 (i * 2)) (s_MaxInterval s) = backoff s i).
  { rewrite wrap64_id by (pose proof (fi_sum s Hf); pose proof (fi_interval s Hf); unfold int64_range, min_int64, max_int64 in *; nia). lia. }
  rewrite Hw, Hb, IH; [lia|lia|lia|lia].
Qed.

Lemma paused_constant s n : s_MaxInterval s <= s_Interval s -> paused n s (s_Interval s) = Z.of_nat n * s_Interval s.
Proof.
  intros Hm. induction n as [|n IH]; cbn [paused]; [lia|]. unfold backoff at 1. rewrite (proj2 (Z.ltb_ge _ _) Hm). lia.
Qed.

Lemma Total_value s : fits s -> Total s = Z.max (s_Budget s) (paused (Z.to_nat (s_MinAttempts s - 1)) s (s_Interval s)).
Proof.
  intros Hf. pose proof (fi_sum s Hf) as Hs. pose proof (fi_interval s Hf) as Hi. unfold Total. destruct (Z.leb_spec (s_MinAttempts s) 1) as [Hm|Hm]; cbn [orb].
  - replace (Z.to_nat (s_MinAttempts s - 1)) with 0%nat by lia. replace (Z.max (s_MinAttempts s - 1) 0) with 0 by lia. done.
  - destruct (Z.leb_spec (s_MaxInterval s) (s_Interval s)) as [Hc|Hc].
    + rewrite paused_constant, wrap64_id by (done || (unfold int64_range, min_int64, max_int64 in *; nia)). lia.
    + rewrite sum_pauses_paused; [done|done|done|lia|lia|nia].
Qed.

(** [Total] is what a wait takes at the least: when its probes take no time
    and none ends it, [For] times out after exactly [Total], whatever the backoff
    (and with [Attempts n interval] after exactly [n] probes, one when [n] is
    less). *)
Theorem total_is_exact w s : idle w -> fits s ->
  exists fuel p n, For fuel w s = Some (TimedOut p, n) /\ p_Elapsed p = Total s
    /\ forall m iv, s = Attempts m iv -> 0 < iv -> Z.max m 1 * iv <= max_int64 -> Z.of_nat n = Z.max m 1.
Proof.
  intros Hi Hf. assert (Hpass : passing minPause w).
  { constructor; [by unfold minPause|intros k; by rewrite (proj1 (id_time w Hi k))|intros k; by rewrite (proj2 (id_time w Hi k))|].
    intros k. by rewrite (proj2 (id_probe w Hi k)). }
  pose proof (fi_interval s Hf) as Hint. pose proof (fi_sum s Hf) as Hsum. set (q := Z.to_nat (s_MinAttempts s - 1)).
  assert (exists l', (forall fuel, loop (q + fuel) w s 0 (start s) = loop fuel w s q l') /\ p_Attempts (l_p l') = Z.of_nat q /\ l_now l' = paused q s (s_Interval s))
    as (l' & Hloop & Ha & Hnow).
  { destruct (Z.le_gt_cases (s_MinAttempts s) 1) as [Hm|Hm]; [exists (start s); by replace q with 0%nat by lia|].
    apply (idle_early w s q Hi Hf 0 (start s)); cbn [start l_interval l_now]; [done|lia|lia|lia]. }
  pose proof (paused_bound s q Hf (s_Interval s) ltac:(lia)) as Hq.
  destruct (loop_ends minPause w s Hpass (fi_budget s Hf) (Z.to_nat (turns_left minPause s q l')) q l' Ha ltac:(lia) ltac:(lia)) as (o & n & E & _).
  assert (Hr : int64_range (l_now l')) by (unfold int64_range, min_int64, max_int64 in *; nia).
  destruct (idle_late w s _ Hi (fi_budget s Hf) q l' o n Ha ltac:(lia) Hr ltac:(lia) E) as (p & -> & Hel & Hn).
  exists (q + Z.to_nat (turns_left minPause s q l'))%nat, p, n. split_and!; [unfold For; by rewrite Hloop|by rewrite Hel, Hnow, (Total_value s Hf)|].
  intros m iv -> Hiv Hb. cbn [Attempts s_Budget s_MinAttempts s_Interval s_MaxInterval] in *. rewrite Hn; [lia|]. rewrite Hnow, paused_constant by (cbn; lia). cbn [Attempts s_Interval].
  rewrite wrap64_id by (unfold int64_range, min_int64, max_int64 in *; nia). unfold q. cbn. rewrite Z2Nat.id by lia. done.
Qed.

End Wait.
