(* ===== verification/LineDiff.v ===== *)
(** The line diff of tree backups ([internal/treebackup/linediff.go]): an
    anchored diff whose anchors are the lines that occur once on both sides,
    chosen as a longest common subsequence. The theorems say that patching the
    old text with the hunks gives the new one, and that the anchors are a longest
    common subsequence. *)

From Stdlib Require Import Sorted.
From S2P Require Import Prelude.

Module LineDiff.

Abbreviation pair := (nat * nat)%type (only parsing).

(** * Lines *)

Definition NL : ascii := "010"%char.

(** [strings.SplitAfter(s, "\n")]: every piece with its newline, and the rest. *)
Fixpoint SplitAfter (s : string) : list string :=
  match s with
  | EmptyString => [""]
  | String c s' =>
    if bool_decide (c = NL) then String c "" :: SplitAfter s'
    else match SplitAfter s' with
         | l :: ls => String c l :: ls
         | [] => [String c ""]
         end
  end.

Definition lines (x : bytes) : list string :=
  let l := SplitAfter x in
  if bool_decide (last l = Some "") then take (length l - 1) l else l.

(** * Anchors *)

(** The three states a count can be in: 0, -1, -2 for the x side and 0, -4, -8
    for the y side. *)
Definition count_x (m : gmap string Z) (s : string) : gmap string Z :=
  let c := default 0 (m !! s) in if -2 <? c then <[s := c - 1]> m else m.
Definition count_y (m : gmap string Z) (s : string) : gmap string Z :=
  let c := default 0 (m !! s) in if -8 <? c then <[s := c - 4]> m else m.

(** The loop over [y] that numbers the unique lines. *)
Fixpoint number_y (y : list string) (i : nat) (m : gmap string Z) (yi : list nat) : gmap string Z * list nat :=
  match y with
  | [] => (m, yi)
  | s :: y' =>
    if default 0 (m !! s) =? -1 + -4
    then number_y y' (S i) (<[s := Z.of_nat (length yi)]> m) (yi ++ [i])
    else number_y y' (S i) m yi
  end.

(** The loop over [x] that gathers [xi] and [inv]. *)
Fixpoint number_x (x : list string) (i : nat) (m : gmap string Z) : list nat * list nat :=
  match x with
  | [] => ([], [])
  | s :: x' =>
    let '(xi, inv) := number_x x' (S i) m in
    match m !! s with
    | Some j => if 0 <=? j then (i :: xi, Z.to_nat j :: inv) else (xi, inv)
    | None => (xi, inv)
    end
  end.

(** [sort.Search(n, f)]: the binary search over [i, j), which halves. *)
Fixpoint search (fuel : nat) (i j : nat) (f : nat -> bool) : nat :=
  match fuel with
  | O => i
  | S fuel =>
    if (i <? j)%nat then
      let h := Nat.div2 (i + j) in
      if f h then search fuel i h f else search fuel (S h) j f
    else i
  end.
Definition Search (n : nat) (f : nat -> bool) : nat := search n 0 n f.

(** The loop of Algorithm A over the elements of [J], with [T] and [L]. *)
Fixpoint algorithmA (n : nat) (J T L : list nat) : list nat :=
  match J with
  | [] => L
  | j :: J' =>
    let k := Search n (fun k => j <=? T !!! k)%nat in
    algorithmA n J' (<[k := j]> T) (L ++ [S k])
  end.

(** The loop that fills [seq] from the end: [idxs] are the remaining indexes,
    highest first, [k] the length still to find. *)
Fixpoint collect (lastj : nat) (xi yi J L : list nat) (idxs : list nat) (k : nat) (acc : list pair) : list pair :=
  match idxs with
  | [] => acc
  | i :: idxs' =>
    if ((L !!! i =? k) && (J !!! i <? lastj))%nat
    then collect lastj xi yi J L idxs' (k - 1) ((xi !!! i, yi !!! (J !!! i)) :: acc)
    else collect lastj xi yi J L idxs' k acc
  end.

Definition tgs (x y : list string) : list pair :=
  let m := foldl count_y (foldl count_x ∅ x) y in
  let '(m, yi) := number_y y 0 m [] in
  let '(xi, J) := number_x x 0 m in
  let n := length xi in
  let L := algorithmA n J (replicate n (n + 1)%nat) [] in
  let k := foldl (fun k v => if (k <? v)%nat then v else k) 0%nat L in
  ((0, 0) :: collect n xi yi J L (reverse (seq 0 n)) k [] ++ [(length x, length y)])%nat.

(** * Hunks *)

Record diffLine := MkLine { Op : ascii; Text : string }.

Record hunk := MkHunk {
  OldStart : nat; OldCount : nat;
  NewStart : nat; NewCount : nat;
  Lines : list diffLine
}.

(** [l[a:b]]; [None] is the run-time panic of a slice out of range. *)
Definition slice {A} (a b : nat) (l : list A) : option (list A) :=
  if ((a <=? b) && (b <=? length l))%nat then Some (take (b - a) (drop a l)) else None.

(** The loop that expands a match backwards, no further than [done]. *)
Fixpoint back (x y : list string) (done : pair) (sx sy : nat) : pair :=
  match sx, sy with
  | S sx', S sy' =>
    match x !! sx', y !! sy' with
    | Some a, Some b =>
      if ((done.1 <? sx) && (done.2 <? sy))%nat && str_eqb a b then back x y done sx' sy' else (sx, sy)
    | _, _ => (sx, sy)
    end
  | _, _ => (sx, sy)
  end.

(** The loop that expands a match forwards: how many lines agree. *)
Fixpoint common (xs ys : list string) : nat :=
  match xs, ys with
  | a :: xs, b :: ys => if str_eqb a b then S (common xs ys) else 0%nat
  | _, _ => 0%nat
  end.

(** The variables of the loop. *)
Record state := MkState {
  done : pair;
  chunk : pair;
  count : pair;
  ctext : list diffLine;
  hunks : list hunk
}.

Definition context_lines : nat := 3.

Definition tag (op : ascii) (ls : list string) : list diffLine := MkLine op <$> ls.

(** The end of a chunk, with common lines for context: the hunk is emitted when
    the chunk has lines. *)
Definition close (x : list string) (start : pair) (width : nat) (s : state) : option state :=
  if (0 <? length (ctext s))%nat then
    let w := Nat.min width context_lines in
    common ← slice start.1 (start.1 + w) x;
    let count := (((count s).1 + length common)%nat, ((count s).2 + length common)%nat) in
    let cx := if (0 <? count.1)%nat then S (chunk s).1 else (chunk s).1 in
    let cy := if (0 <? count.2)%nat then S (chunk s).2 else (chunk s).2 in
    Some (MkState ((start.1 + w)%nat, (start.2 + w)%nat) (cx, cy) (0, 0)%nat []
            (hunks s ++ [MkHunk cx count.1 cy count.2 (ctext s ++ tag " " common)]))
  else Some s.

(** What a match expanded to [start, end_) does once the lines before it are in
    the chunk: the next state, and whether the loop goes on. *)
Definition settle (x y : list string) (start end_ : pair) (s : state) : option (state * bool) :=
  let width := (end_.1 - start.1)%nat in
  let more := ((end_.1 <? length x) || (end_.2 <? length y))%nat in
  if more && ((width <? context_lines) || ((0 <? length (ctext s)) && (width <? 2 * context_lines)))%nat then
    common ← slice start.1 end_.1 x;
    Some (MkState end_ (chunk s) ((count s).1 + length common, (count s).2 + length common)%nat
            (ctext s ++ tag " " common) (hunks s), true)
  else
    s ← close x start width s;
    if negb more then Some (s, false)
    else
      let chunk := (end_.1 - context_lines, end_.2 - context_lines)%nat in
      common ← slice chunk.1 end_.1 x;
      Some (MkState end_ chunk ((count s).1 + length common, (count s).2 + length common)%nat
              (ctext s ++ tag " " common) (hunks s), true).

(** What one match does. *)
Definition step (x y : list string) (m : pair) (s : state) : option (state * bool) :=
  if (m.1 <? (done s).1)%nat then Some (s, true)
  else
    let start := back x y (done s) m.1 m.2 in
    let n := common (drop m.1 x) (drop m.2 y) in
    dx ← slice (done s).1 start.1 x;
    dy ← slice (done s).2 start.2 y;
    settle x y start (m.1 + n, m.2 + n)%nat
      (MkState (done s) (chunk s) ((count s).1 + length dx, (count s).2 + length dy)%nat
         (ctext s ++ tag "-" dx ++ tag "+" dy) (hunks s)).

Fixpoint steps (x y : list string) (ms : list pair) (s : state) : option state :=
  match ms with
  | [] => Some s
  | m :: ms' =>
    r ← step x y m s;
    if r.2 : bool then steps x y ms' r.1 else Some r.1
  end.

Definition lineDiff (old new : bytes) : option (list hunk) :=
  if str_eqb old new then Some []
  else
    let x := lines old in
    let y := lines new in
    hunks <$> steps x y (tgs x y) (MkState (0, 0) (0, 0) (0, 0) [] [])%nat.

(** * Patching

    What the hunks mean, as a strict [patch]: a hunk's header gives the place
    and size of both sides (the line before, for an empty side), its unchanged
    and removed lines must be the old text there. *)

Definition old_of (ls : list diffLine) : list string := Text <$> filter (fun l => Op l <> "+"%char) ls.
Definition new_of (ls : list diffLine) : list string := Text <$> filter (fun l => Op l <> "-"%char) ls.

(** The 0-based index a header's start and count stand for. *)
Definition origin (start count : nat) : nat := if (count =? 0)%nat then start else (start - 1)%nat.

(** [px] and [py] lines of the two sides are done; [x] is the rest of the old
    one. *)
Fixpoint patch (px py : nat) (x : list string) (hs : list hunk) : option (list string) :=
  match hs with
  | [] => Some x
  | h :: hs' =>
    let skip := (origin (OldStart h) (OldCount h) - px)%nat in
    if bool_decide ((px + skip)%nat = origin (OldStart h) (OldCount h)
                    /\ (py + skip)%nat = origin (NewStart h) (NewCount h)
                    /\ OldCount h = length (old_of (Lines h)) /\ NewCount h = length (new_of (Lines h))
                    /\ (skip <= length x)%nat /\ take (OldCount h) (drop skip x) = old_of (Lines h))
    then (fun r => take skip x ++ new_of (Lines h) ++ r)
         <$> patch (px + skip + OldCount h) (py + skip + NewCount h) (drop (skip + OldCount h) x) hs'
    else None
  end.

(** * Slices *)

Definition sl {A} (a b : nat) (l : list A) : list A := take (b - a) (drop a l).

Section Slices.
Context {A : Type}.
Implicit Types (l : list A) (a b c : nat).

Lemma slice_sl a b l : (a <= b <= length l)%nat -> slice a b l = Some (sl a b l).
Proof. intros H. unfold slice. destruct (Nat.leb_spec a b), (Nat.leb_spec b (length l)); [done|lia..]. Qed.

Lemma length_sl a b l : (a <= b <= length l)%nat -> length (sl a b l) = (b - a)%nat.
Proof. intros H. unfold sl. rewrite length_take, length_drop. lia. Qed.

Lemma sl_app a b c l : (a <= b <= c)%nat -> sl a b l ++ sl b c l = sl a c l.
Proof.
  intros H. unfold sl. replace (c - a)%nat with (b - a + (c - b))%nat by lia.
  rewrite <- take_take_drop. f_equal. rewrite drop_drop. do 2 f_equal. lia.
Qed.

Lemma sl_nil a l : sl a a l = [].
Proof. unfold sl. by rewrite Nat.sub_diag. Qed.

Lemma sl_drop a b l : (a <= b)%nat -> drop a l = sl a b l ++ drop b l.
Proof.
  intros H. unfold sl. rewrite <- (take_drop (b - a) (drop a l)) at 1. f_equal.
  rewrite drop_drop. f_equal. lia.
Qed.

Lemma sl_empty a b l : (a <= b <= length l)%nat -> sl a b l = [] -> a = b.
Proof. intros H E. apply (f_equal length) in E. rewrite length_sl in E by done. simpl in E. lia. Qed.
End Slices.

Lemma old_of_app ls ls' : old_of (ls ++ ls') = old_of ls ++ old_of ls'.
Proof. unfold old_of. by rewrite filter_app, fmap_app. Qed.
Lemma new_of_app ls ls' : new_of (ls ++ ls') = new_of ls ++ new_of ls'.
Proof. unfold new_of. by rewrite filter_app, fmap_app. Qed.

Lemma tag_sides (op : ascii) (ls : list string) :
  old_of (tag op ls) = (if decide (op <> "+"%char) then ls else [])
  /\ new_of (tag op ls) = (if decide (op <> "-"%char) then ls else []).
Proof.
  unfold old_of, new_of, tag. induction ls as [|l ls [IH1 IH2]]; [by repeat case_decide|].
  rewrite fmap_cons, !filter_cons. cbn [Op].
  destruct (decide (op <> "+"%char)), (decide (op <> "-"%char)); rewrite ?fmap_cons, ?IH1, ?IH2; done.
Qed.

Lemma tag_minus ls : old_of (tag "-" ls) = ls /\ new_of (tag "-" ls) = [].
Proof. destruct (tag_sides "-" ls) as [-> ->]. by repeat case_decide. Qed.
Lemma tag_plus ls : old_of (tag "+" ls) = [] /\ new_of (tag "+" ls) = ls.
Proof. destruct (tag_sides "+" ls) as [-> ->]. by repeat case_decide. Qed.
Lemma tag_same ls : old_of (tag " " ls) = ls /\ new_of (tag " " ls) = ls.
Proof. destruct (tag_sides " " ls) as [-> ->]. by repeat case_decide. Qed.

(** * Expanding a match *)

Section Expand.
Context (x y : list string).

Definition in_text (p : pair) : Prop := (p.1 <= length x)%nat /\ (p.2 <= length y)%nat.

Lemma back_spec d sx sy :
  (d.1 <= sx <= length x)%nat -> (d.2 <= sy <= length y)%nat ->
  exists w, let s := back x y d sx sy in
    sx = (s.1 + w)%nat /\ sy = (s.2 + w)%nat /\ (d.1 <= s.1)%nat /\ (d.2 <= s.2)%nat
    /\ sl s.1 sx x = sl s.2 sy y.
Proof.
  revert sy. induction sx as [|sx IH]; intros sy Hx Hy; simpl.
  { exists 0%nat. simpl. rewrite !sl_nil. split_and!; lia || done. }
  assert (Hstop : exists w, let s := (S sx, sy) in
    S sx = (s.1 + w)%nat /\ sy = (s.2 + w)%nat /\ (d.1 <= s.1)%nat /\ (d.2 <= s.2)%nat
    /\ sl s.1 (S sx) x = sl s.2 sy y).
  { exists 0%nat. simpl. rewrite !sl_nil. split_and!; lia || done. }
  destruct sy as [|sy]; [done|].
  destruct (x !! sx) as [a|] eqn:Ea; [|done]. destruct (y !! sy) as [b|] eqn:Eb; [|done].
  destruct (_ && str_eqb a b) eqn:E; [|done]. apply andb_prop in E as [E1 E2]. guards. subst b.
  apply Nat.ltb_lt in H, H0.
  destruct (IH sy) as (w & Hw1 & Hw2 & Hw3 & Hw4 & Hw); [lia..|].
  assert (Hone : forall (l : list string) i, l !! i = Some a -> sl i (S i) l = [a]).
  { intros l i El. unfold sl. replace (S i - i)%nat with 1%nat by lia.
    by rewrite (drop_S _ _ _ El). }
  exists (S w). split_and!; [lia..|].
  rewrite <- (sl_app _ sx (S sx)), <- (sl_app _ sy (S sy)), Hw, (Hone x), (Hone y) by (done || lia). done.
Qed.

Lemma common_spec xs ys :
  take (common xs ys) xs = take (common xs ys) ys
  /\ (common xs ys <= length xs)%nat /\ (common xs ys <= length ys)%nat.
Proof.
  revert ys. induction xs as [|a xs IH]; intros ys; [by destruct ys; simpl; split_and!; try lia|].
  destruct ys as [|b ys]; simpl; [split_and!; lia || done|].
  destruct (str_eqb a b) eqn:E; guards; [|split_and!; lia || done].
  destruct (IH ys) as (Ht & H1 & H2). subst. simpl. rewrite Ht. split_and!; lia || done.
Qed.

Lemma forward_spec m : in_text m ->
  let n := common (drop m.1 x) (drop m.2 y) in
  sl m.1 (m.1 + n) x = sl m.2 (m.2 + n) y /\ in_text (m.1 + n, m.2 + n)%nat.
Proof.
  intros [H1 H2] n. destruct (common_spec (drop m.1 x) (drop m.2 y)) as (Ht & Hx & Hy).
  fold n in Ht, Hx, Hy. rewrite length_drop in Hx, Hy.
  unfold sl, in_text; simpl. replace (m.1 + n - m.1)%nat with n by lia. replace (m.2 + n - m.2)%nat with n by lia.
  split; [done | lia].
Qed.

(** What [done] up to [p], then a gap of equal lines, means. *)
Definition same (p q : pair) : Prop :=
  (p.1 <= q.1 <= length x)%nat /\ (p.2 <= q.2 <= length y)%nat /\ sl p.1 q.1 x = sl p.2 q.2 y.

Lemma same_width p q : same p q -> (q.1 - p.1 = q.2 - p.2)%nat.
Proof.
  intros (H1 & H2 & E). apply (f_equal length) in E. by rewrite !length_sl in E by done.
Qed.

Lemma same_trans p q r : same p q -> same q r -> same p r.
Proof.
  intros (H1 & H2 & E) (H3 & H4 & E'). split_and!; try lia.
  by rewrite <- (sl_app _ q.1 r.1), <- (sl_app _ q.2 r.2), E, E' by lia.
Qed.

Lemma same_refl p : in_text p -> same p p.
Proof. intros []. unfold same. rewrite !sl_nil. split_and!; done || lia. Qed.

(** A part of an equal stretch is one. *)
Lemma same_sub p q a b : same p q -> (a <= b <= q.1 - p.1)%nat ->
  same (p.1 + a, p.2 + a)%nat (p.1 + b, p.2 + b)%nat.
Proof.
  intros Hs Hab. pose proof (same_width _ _ Hs). destruct Hs as (H1 & H2 & E). unfold same. simpl.
  split_and!; try lia. unfold sl in *.
  replace (p.1 + b - (p.1 + a))%nat with (b - a)%nat by lia.
  replace (p.2 + b - (p.2 + a))%nat with (b - a)%nat by lia.
  rewrite <- !drop_drop. apply (f_equal (take b)) in E. rewrite !take_take, !Nat.min_l in E by lia.
  apply (f_equal (drop a)) in E. by rewrite !skipn_firstn_comm in E.
Qed.

(** * The loop *)

(** The hunks so far turn the old text up to [p] into the new one up to [p]. *)
Inductive covers : list hunk -> pair -> Prop :=
| covers_nil : covers [] (0, 0)%nat
| covers_snoc hs p c h d :
    covers hs p -> same p c ->
    origin (OldStart h) (OldCount h) = c.1 -> origin (NewStart h) (NewCount h) = c.2 ->
    OldCount h = length (old_of (Lines h)) -> NewCount h = length (new_of (Lines h)) ->
    (c.1 <= d.1 <= length x)%nat -> (c.2 <= d.2 <= length y)%nat ->
    old_of (Lines h) = sl c.1 d.1 x -> new_of (Lines h) = sl c.2 d.2 y ->
    covers (hs ++ [h]) d.

Lemma patch_covers hs p : covers hs p -> forall hs',
  patch 0 0 x (hs ++ hs') = app (take p.2 y) <$> patch p.1 p.2 (drop p.1 x) hs'.
Proof.
  induction 1 as [|hs p c h d _ IH Hs Ho Hn Hco Hcn Hx Hy Eo En]; intros hs'.
  { rewrite !drop_0. simpl. by destruct (patch 0 0 x hs'). }
  rewrite <- app_assoc, IH. simpl app. cbn [patch]. pose proof (same_width _ _ Hs) as Hw.
  destruct Hs as (H1 & H2 & E). rewrite Ho, Hn, Hco, Hcn, Eo, En, !length_sl by done.
  rewrite bool_decide_eq_true_2.
  - rewrite drop_drop. replace (p.1 + (c.1 - p.1))%nat with c.1 by lia.
    replace (p.2 + (c.1 - p.1))%nat with c.2 by lia.
    replace (p.1 + (c.1 - p.1 + (d.1 - c.1)))%nat with d.1 by lia.
    replace (c.1 + (d.1 - c.1))%nat with d.1 by lia. replace (c.2 + (d.2 - c.2))%nat with d.2 by lia.
    rewrite <- option_fmap_compose. apply option_fmap_ext. intros r. simpl.
    change (take (c.1 - p.1) (drop p.1 x)) with (sl p.1 c.1 x). rewrite E.
    assert (H0 : forall n, take n y = sl 0 n y) by (intros n; unfold sl; by rewrite Nat.sub_0_r).
    rewrite !app_assoc, !H0, !sl_app by lia. done.
  - split_and!; try done; try lia.
    + rewrite length_drop. lia.
    + rewrite drop_drop. unfold sl. by replace (p.1 + (c.1 - p.1))%nat with c.1 by lia.
Qed.

Record Inv (s : state) : Prop := MkInv {
  inv_hunks : exists p, covers (hunks s) p /\ same p (chunk s);
  inv_x : ((chunk s).1 <= (done s).1 <= length x)%nat;
  inv_y : ((chunk s).2 <= (done s).2 <= length y)%nat;
  inv_old : old_of (ctext s) = sl (chunk s).1 (done s).1 x;
  inv_new : new_of (ctext s) = sl (chunk s).2 (done s).2 y;
  inv_count : count s = (length (old_of (ctext s)), length (new_of (ctext s)))
}.

Definition at_end : pair := (length x, length y).

(** The hunks are complete. *)
Definition finished (s : state) : Prop := exists p, covers (hunks s) p /\ same p at_end.


Lemma same_of_sub s e k : same s e -> (k <= e.1 - s.1)%nat -> same s (s.1 + k, s.2 + k)%nat.
Proof.
  intros Hs Hk. pose proof (same_sub s e 0 k Hs ltac:(lia)) as H. rewrite !Nat.add_0_r in H. by destruct s.
Qed.

(** The lines of a chunk grow by an equal stretch. *)
Lemma grow_same ls c s e :
  old_of ls = sl c.1 s.1 x -> new_of ls = sl c.2 s.2 y -> (c.1 <= s.1)%nat -> (c.2 <= s.2)%nat -> same s e ->
  let ls' := ls ++ tag " " (sl s.1 e.1 x) in
  old_of ls' = sl c.1 e.1 x /\ new_of ls' = sl c.2 e.2 y
  /\ length (old_of ls') = (length (old_of ls) + (e.1 - s.1))%nat
  /\ length (new_of ls') = (length (new_of ls) + (e.1 - s.1))%nat.
Proof.
  intros Eo En Hc1 Hc2 Hs ls'. pose proof (same_width _ _ Hs) as Hw. destruct Hs as (H1 & H2 & E). subst ls'.
  rewrite old_of_app, new_of_app. destruct (tag_same (sl s.1 e.1 x)) as [-> ->].
  rewrite !length_app, Eo, En. rewrite E at 2. rewrite !sl_app by lia.
  rewrite (length_sl s.1 e.1 x) by done. split_and!; try done; lia.
Qed.

Lemma origin_header (c n : nat) : origin (if (0 <? n)%nat then S c else c) n = c.
Proof. unfold origin. destruct n; simpl; lia. Qed.

(** Closing a chunk. *)
Lemma emit hs p c s e ls k :
  covers hs p -> same p c -> old_of ls = sl c.1 s.1 x -> new_of ls = sl c.2 s.2 y ->
  (c.1 <= s.1)%nat -> (c.2 <= s.2)%nat -> same s e -> (k <= e.1 - s.1)%nat ->
  let cx := (length (old_of ls) + k)%nat in
  let cy := (length (new_of ls) + k)%nat in
  covers (hs ++ [MkHunk (if (0 <? cx)%nat then S c.1 else c.1) cx (if (0 <? cy)%nat then S c.2 else c.2) cy
                   (ls ++ tag " " (sl s.1 (s.1 + k) x))]) (s.1 + k, s.2 + k)%nat.
Proof.
  intros Hc Hpc Eo En H1 H2 Hse Hk cx cy. pose proof (same_of_sub s e k Hse Hk) as Hs.
  destruct (grow_same ls c s (s.1 + k, s.2 + k)%nat Eo En H1 H2 Hs) as (E1 & E2 & E3 & E4).
  destruct Hs as (Hs1 & Hs2 & _). simpl in *. replace (s.1 + k - s.1)%nat with k in E3, E4 by lia.
  apply (covers_snoc hs p c); simpl; rewrite ?origin_header, ?E3, ?E4; done || lia.
Qed.

(** The state in which a match expanded to [st, _) is settled. *)
Record Pending (st : pair) (s : state) : Prop := MkPending {
  pend_hunks : exists p, covers (hunks s) p /\ same p (chunk s);
  pend_le : ((chunk s).1 <= st.1)%nat /\ ((chunk s).2 <= st.2)%nat;
  pend_old : old_of (ctext s) = sl (chunk s).1 st.1 x;
  pend_new : new_of (ctext s) = sl (chunk s).2 st.2 y;
  pend_count : count s = (length (old_of (ctext s)), length (new_of (ctext s)))
}.

(** With no lines in the chunk, it starts where the match does. *)
Lemma pending_empty st e s : Pending st s -> same st e -> ctext s = [] -> chunk s = st /\ count s = (0, 0)%nat.
Proof.
  intros [_ [H1 H2] Eo En Ec] (Hs1 & Hs2 & _) E. rewrite E in Eo, En, Ec. split; [|done].
  symmetry in Eo, En. apply sl_empty in Eo, En; [|lia..]. destruct (chunk s), st. simpl in *. by subst.
Qed.

(** Closing leaves nothing pending, and the hunks reach at most the context
    into the common stretch. *)
Lemma close_spec st e s :
  Pending st s -> same st e ->
  exists s' p, close x st (e.1 - st.1) s = Some s' /\ covers (hunks s') p /\ same p e
    /\ count s' = (0, 0)%nat /\ ctext s' = []
    /\ (((0 < length (ctext s))%nat -> 2 * context_lines <= e.1 - st.1)%nat ->
        (context_lines <= e.1 - st.1)%nat -> (p.1 + context_lines <= e.1)%nat).
Proof.
  intros Hp Hse. unfold close. destruct (Nat.ltb_spec 0 (length (ctext s))) as [Hl|Hl].
  - destruct Hp as [(p & Hc & Hpc) [H1 H2] Eo En Ec]. pose proof Hse as (Hs1 & Hs2 & _).
    set (w := Nat.min (e.1 - st.1) context_lines).
    assert (Hw : (w <= e.1 - st.1 /\ w <= context_lines)%nat) by (subst w; lia).
    rewrite slice_sl by lia. cbn [mbind option_bind]. rewrite length_sl by lia.
    replace (st.1 + w - st.1)%nat with w by lia. rewrite Ec. cbn [fst snd].
    eexists _, (st.1 + w, st.2 + w)%nat. split; [reflexivity|]. cbn [hunks count ctext].
    split; [apply (emit _ p _ _ e); done || lia|]. split; [|split_and!; [done..|cbn [fst]; unfold context_lines in *; lia]].
    pose proof (same_width _ _ Hse) as Hwd.
    pose proof (same_sub st e w (e.1 - st.1) Hse ltac:(lia)) as Hs.
    destruct e as [e1 e2], st as [s1 s2]. cbn [fst snd] in *.
    replace (s1 + (e1 - s1))%nat with e1 in Hs by lia. by replace (s2 + (e1 - s1))%nat with e2 in Hs by lia.
  - assert (E : ctext s = []) by (apply nil_length_inv; lia).
    destruct (pending_empty _ _ _ Hp Hse E) as [Hch Hco]. destruct Hp as [(p & Hc & Hpc) _ _ _ _].
    rewrite Hch in Hpc. exists s, p. split_and!; try done; [by apply (same_trans _ st)|].
    destruct Hpc. unfold context_lines. lia.
Qed.

Lemma back_same p e k : same p e -> (p.1 + k <= e.1)%nat -> same p (e.1 - k, e.2 - k)%nat /\ same (e.1 - k, e.2 - k)%nat e.
Proof.
  intros Hs Hk. pose proof (same_width _ _ Hs) as Hw. pose proof Hs as (H1 & H2 & _).
  pose proof (same_of_sub p e (e.1 - k - p.1) Hs ltac:(lia)) as Ha.
  pose proof (same_sub p e (e.1 - k - p.1) (e.1 - p.1) Hs ltac:(lia)) as Hb.
  destruct p as [p1 p2], e as [e1 e2]. cbn [fst snd] in *.
  replace (p1 + (e1 - k - p1))%nat with (e1 - k)%nat in * by lia.
  replace (p2 + (e1 - k - p1))%nat with (e2 - k)%nat in * by lia.
  replace (p1 + (e1 - p1))%nat with e1 in Hb by lia. by replace (p2 + (e1 - p1))%nat with e2 in Hb by lia.
Qed.

Lemma settle_spec st e s :
  Pending st s -> same st e ->
  exists r, settle x y st e s = Some r
    /\ if r.2 : bool then Inv r.1 /\ done r.1 = e /\ e <> at_end else finished r.1.
Proof.
  intros Hp Hse. unfold settle. pose proof Hse as (Hs1 & Hs2 & _).
  assert (Heof : ((e.1 <? length x) || (e.2 <? length y))%nat = false <-> e = at_end).
  { rewrite orb_false_iff, !Nat.ltb_ge. unfold at_end. destruct e. simpl in *.
    split; [intros []; f_equal; lia | intros [= -> ->]; lia]. }
  destruct ((e.1 <? length x) || _)%nat eqn:Eeof; cbn [andb negb].
  - assert (Hne : e <> at_end) by (intros ?%Heof; done). clear Heof.
    destruct ((_ <? context_lines) || _)%nat eqn:Econd.
    + destruct Hp as [Hh [H1 H2] Eo En Ec]. rewrite slice_sl by done. cbn [mbind option_bind].
      eexists. split; [reflexivity|]. cbn [fst snd].
      destruct (grow_same _ _ _ _ Eo En H1 H2 Hse) as (E1 & E2 & E3 & E4).
      split; [constructor; cbn [hunks chunk done ctext count] | done]; [done | lia | lia | done | done |].
      by rewrite E3, E4, Ec, length_sl by done.
    + apply orb_false_elim in Econd as [E1 E2]. apply Nat.ltb_ge in E1.
      assert (E3 : ((0 < length (ctext s)) -> 2 * context_lines <= e.1 - st.1)%nat).
      { intros Hl. apply andb_false_iff in E2 as [E2|E2]; apply Nat.ltb_ge in E2; lia. }
      destruct (close_spec st e s Hp Hse) as (s' & p & -> & Hc & Hpe & Eco & Ect & Hle).
      cbn [mbind option_bind]. specialize (Hle E3 E1). destruct (back_same p e _ Hpe Hle) as [Ha Hb].
      pose proof (same_width _ _ Hb) as Hw. pose proof Hb as (Hb1 & Hb2 & Hb3). cbn [fst snd] in *.
      rewrite slice_sl by lia. cbn [mbind option_bind]. eexists. split; [reflexivity|]. cbn [fst snd].
      split; [|done]. rewrite Ect, Eco, app_nil_l. destruct (tag_same (sl (e.1 - context_lines) e.1 x)) as [Et1 Et2].
      constructor; cbn [hunks chunk done ctext count fst snd]; rewrite ?Et1, ?Et2; [by exists p | lia | lia | done | done | done].
  - assert (He : e = at_end) by (by apply Heof). clear Heof.
    destruct (close_spec st e s Hp Hse) as (s' & p & -> & Hc & Hpe & _). cbn [mbind option_bind].
    eexists. split; [reflexivity|]. cbn [fst snd]. exists p. by rewrite <- He.
Qed.

(** What a match that goes on leaves behind: [done] is where its expansion
    ended, short of the end. *)
Definition advanced (m : pair) (s s' : state) : Prop :=
  ((m.1 < (done s).1)%nat /\ s' = s) \/ (same m (done s') /\ done s' <> at_end).

Lemma step_spec s m :
  Inv s -> in_text m -> ((done s).1 <= m.1 -> (done s).2 <= m.2)%nat ->
  exists r, step x y m s = Some r /\ if r.2 : bool then Inv r.1 /\ advanced m s r.1 else finished r.1.
Proof.
  intros Hinv Hm Hmon. unfold step. destruct (Nat.ltb_spec m.1 (done s).1) as [Hlt|Hge].
  { eexists. split; [done|]. split; [done | by left]. }
  specialize (Hmon Hge). destruct Hinv as [Hh Hcx Hcy Eo En Ec].
  destruct (back_spec (done s) m.1 m.2) as (w & Hw1 & Hw2 & Hd1 & Hd2 & Hb); [destruct Hm; lia..|].
  destruct (forward_spec m Hm) as [Hf [Hin1 Hin2]]. destruct Hm as [Hm1 Hm2]. cbn [fst snd] in *.
  set (st := back x y (done s) m.1 m.2) in *. set (n := common (drop m.1 x) (drop m.2 y)) in *.
  assert (Hme : same m (m.1 + n, m.2 + n)%nat) by (unfold same; cbn [fst snd]; split_and!; try done; lia).
  assert (Hse : same st (m.1 + n, m.2 + n)%nat).
  { apply (same_trans _ m); [unfold same; split_and!; try done; lia | done]. }
  rewrite (slice_sl (done s).1 st.1 x), (slice_sl (done s).2 st.2 y) by lia. cbn [mbind option_bind].
  destruct (settle_spec st (m.1 + n, m.2 + n)%nat (MkState (done s) (chunk s)
     ((count s).1 + length (sl (done s).1 st.1 x), (count s).2 + length (sl (done s).2 st.2 y))%nat
     (ctext s ++ tag "-" (sl (done s).1 st.1 x) ++ tag "+" (sl (done s).2 st.2 y)) (hunks s))) as (r & -> & Hr); [|done|].
  - constructor; cbn [hunks chunk ctext count]; [done | lia | | |]; rewrite ?old_of_app, ?new_of_app,
      ?(proj1 (tag_minus _)), ?(proj1 (tag_plus _)), ?(proj2 (tag_minus _)), ?(proj2 (tag_plus _)), ?app_nil_r, ?app_nil_l.
    + rewrite Eo. apply sl_app. lia.
    + rewrite En. apply sl_app. lia.
    + by rewrite !length_app, Ec.
  - exists r. split; [done|]. destruct r as [s' []]; cbn [fst snd] in *; [|done].
    destruct Hr as (Hi & Hd & He). split; [done|]. right. by rewrite Hd.
Qed.

(** * From anchors to hunks *)

(** An anchor pairs a line of [y] with the only equal line of [x]. *)
Definition anchor (m : pair) : Prop :=
  (m.2 < length y)%nat /\ forall i, x !! i = y !! m.2 -> i = m.1.

Definition anchored (m : pair) : Prop :=
  in_text m /\ (m = (0, 0)%nat \/ m = at_end \/ anchor m).

Definition pair_le (p q : pair) : Prop := (p.1 <= q.1)%nat /\ (p.2 <= q.2)%nat.

(** The lines already handled never overtake an anchor on one side only. *)
Lemma anchor_ahead m d m' :
  same m d -> pair_le m m' -> anchored m' -> (d.1 <= m'.1)%nat -> (d.2 <= m'.2)%nat.
Proof.
  intros Hs [Hm1 Hm2] [Ht Ha] Hd. pose proof (same_width _ _ Hs) as Hw. destruct Hs as (H1 & H2 & E).
  destruct Ha as [->|[->|[Hlt Hu]]]; cbn [fst snd at_end] in *; [lia..|].
  destruct (Nat.le_gt_cases d.2 m'.2) as [|Hgt]; [done|]. exfalso.
  assert (Hx : x !! (m.1 + (m'.2 - m.2))%nat = y !! m'.2).
  { apply (f_equal (fun l => l !! (m'.2 - m.2)%nat)) in E. unfold sl in E.
    rewrite !lookup_take_lt, !lookup_drop in E by lia. by replace (m.2 + (m'.2 - m.2))%nat with m'.2 in E by lia. }
  apply Hu in Hx. lia.
Qed.

Lemma steps_spec ms s :
  Inv s -> Forall anchored ms -> StronglySorted pair_le ms -> last ms = Some at_end ->
  Forall (fun m => ((done s).1 <= m.1 -> (done s).2 <= m.2)%nat) ms ->
  exists s', steps x y ms s = Some s' /\ finished s'.
Proof.
  revert s. induction ms as [|m ms IH]; intros s Hi Ha Hso Hl Hr; [done|].
  apply Forall_cons in Ha as [Hm Ha]. apply Forall_cons in Hr as [Hmr Hr]. apply StronglySorted_inv in Hso as [Hso Hle].
  destruct (step_spec s m Hi (proj1 Hm) Hmr) as ([s' b] & Es & Hb). simpl. rewrite Es. cbn [mbind option_bind snd fst].
  cbn [snd fst] in Hb. destruct b; [|by eexists]. destruct Hb as [Hi' Hadv].
  destruct ms as [|m2 ms].
  { exfalso. injection Hl as ->. unfold at_end in Hadv. destruct Hadv as [[Hlt _]|[Hs Hne]].
    - destruct Hi as [_ Hx _ _ _ _]. cbn [fst] in Hlt. lia.
    - apply Hne. destruct Hs as (H1 & H2 & _). cbn [fst snd] in *. destruct (done s'). cbn [fst snd] in *.
      unfold at_end. f_equal; lia. }
  apply IH; try done. destruct Hadv as [[_ ->]|[Hs _]]; [done|].
  rewrite !Forall_forall in *. intros m' Hin. apply (anchor_ahead m); auto.
Qed.

Lemma finished_patch s : finished s -> patch 0 0 x (hunks s) = Some y.
Proof.
  intros (p & Hc & Hs). pose proof (patch_covers _ _ Hc []) as E. rewrite app_nil_r in E. rewrite E. simpl.
  f_equal. destruct Hs as (H1 & H2 & Es). unfold at_end in *. cbn [fst snd] in *.
  rewrite (sl_drop p.1 (length x)), Es, drop_all, app_nil_r by lia.
  unfold sl. rewrite (take_ge (drop p.2 y)) by (rewrite length_drop; lia). apply take_drop.
Qed.
End Expand.

(** * Searching *)

(** [sort.Search] answers [k] with [f (k - 1)] false and [f k] true (or [n]). *)
Lemma search_bounds fuel f : forall i j n,
  (j - i <= fuel)%nat -> (i <= j <= n)%nat -> (0 < i -> f (i - 1) = false)%nat -> (j < n -> f j = true)%nat ->
  let k := search fuel i j f in
  (k <= n)%nat /\ (0 < k -> f (k - 1) = false)%nat /\ (k < n -> f k = true)%nat.
Proof.
  induction fuel as [|fuel IH]; intros i j n Hf Hij Hi Hj; simpl.
  { assert (i = j) as -> by lia. split_and!; auto; lia. }
  destruct (Nat.ltb_spec i j) as [Hlt|Hge]; [|assert (i = j) as -> by lia; split_and!; auto; lia].
  assert (Hh : (i <= Nat.div2 (i + j) < j)%nat).
  { rewrite Nat.div2_div. split; [apply Nat.div_le_lower_bound | apply Nat.Div0.div_lt_upper_bound]; lia. }
  destruct (f (Nat.div2 (i + j))) eqn:E.
  - apply IH; auto; lia.
  - apply IH; auto; try lia. intros _. simpl. by rewrite Nat.sub_0_r.
Qed.

Lemma Search_spec n f :
  let k := Search n f in (k <= n)%nat /\ (0 < k -> f (k - 1) = false)%nat /\ (k < n -> f k = true)%nat.
Proof. apply (search_bounds n f 0 n n); lia. Qed.

(** * Algorithm A *)

(** [i] is the last index before [p] with [L[i] = k]. *)
Definition last_of (L : list nat) (p k i : nat) : Prop :=
  (i < p)%nat /\ L !!! i = k /\ forall i2, (i < i2 < p)%nat -> L !!! i2 <> k.

Lemma last_exists L k : forall p i, (i < p)%nat -> L !!! i = k -> exists i', last_of L p k i' /\ (i <= i')%nat.
Proof.
  induction p as [|p IH]; intros i Hi E; [lia|].
  destruct (decide (L !!! p = k)) as [Ep|Ep].
  - exists p. split; [split_and!; [lia | done | lia] | lia].
  - destruct (IH i) as (i' & (H1 & H2 & H3) & H4); [|done|].
    { destruct (decide (i = p)); [congruence | lia]. }
    exists i'. split; [|done]. split_and!; [lia | done|]. intros i2 Hi2.
    destruct (decide (i2 = p)) as [->|]; [done | apply H3; lia].
Qed.

Section AlgorithmA.
Context (n : nat) (J : list nat) (HJ : length J = n) (HJn : forall i, (J !!! i <= n)%nat).

(** After [p] elements: [T[k]] is the value of the last one whose [L] is
    [k + 1], or [n + 1]; a longer run extends one that ends lower. *)
Record AInv (p : nat) (T L : list nat) : Prop := MkAInv {
  a_lenT : length T = n;
  a_lenL : length L = p;
  a_T : forall k, (k < n)%nat ->
    (T !!! k = (n + 1)%nat /\ forall i, (i < p)%nat -> L !!! i <> S k)
    \/ (exists i, last_of L p (S k) i /\ T !!! k = J !!! i);
  a_chain : forall i k, (i < p)%nat -> L !!! i = S (S k) ->
    exists i', last_of L i (S k) i' /\ (J !!! i' < J !!! i)%nat;
  a_bound : forall i, (i < p)%nat -> (1 <= L !!! i <= S i)%nat;
  a_mono : forall k k', (k <= k' < n)%nat -> (T !!! k <= T !!! k')%nat;
  a_low : forall i, (i < p)%nat -> (T !!! (L !!! i - 1) <= J !!! i)%nat;
  a_grow : forall i i', (i < i' < p)%nat -> (J !!! i < J !!! i')%nat -> (L !!! i < L !!! i')%nat
}.

Lemma ainv_init : AInv 0 (replicate n (n + 1)%nat) [].
Proof.
  assert (Hr : forall k, (k < n)%nat -> replicate n (n + 1)%nat !!! k = (n + 1)%nat).
  { intros k Hk. by apply lookup_total_replicate_2. }
  constructor; try (intros; lia); [apply length_replicate | done | |].
  - intros k Hk. left. split; [by apply Hr | intros; lia].
  - intros k k' H. rewrite !Hr by lia. done.
Qed.

Lemma total_app_l (L : list nat) k i : (i < length L)%nat -> (L ++ [k]) !!! i = L !!! i.
Proof. intros H. by rewrite lookup_total_app_l. Qed.

Lemma total_app_r (L : list nat) k : (L ++ [k]) !!! length L = k.
Proof. rewrite lookup_total_app_r by lia. by rewrite Nat.sub_diag. Qed.

Lemma last_app L p k i v : length L = p -> v <> k -> last_of L p k i -> last_of (L ++ [v]) (S p) k i.
Proof.
  intros Hl Hv (H1 & H2 & H3). split_and!; [lia | rewrite total_app_l by lia; done|].
  intros i2 Hi2. destruct (decide (i2 = p)) as [->|]; [by rewrite <- Hl, total_app_r|].
  rewrite total_app_l by lia. apply H3. lia.
Qed.

(** The place of the next element. *)
Lemma place p T L :
  AInv p T L -> (p < n)%nat ->
  let k := Search n (fun k => J !!! p <=? T !!! k)%nat in
  (k < n)%nat /\ (J !!! p <= T !!! k)%nat /\ (k <= p)%nat
  /\ (forall k', (k' < k)%nat -> T !!! k' < J !!! p)%nat.
Proof.
  intros [Hl1 Hl2 HT Hch Hb Hm Hlo _] Hp k.
  destruct (Search_spec n (fun k => J !!! p <=? T !!! k)%nat) as (Hk & Hlt & Hge). fold k in Hk, Hlt, Hge.
  assert (Hpred : (0 < k)%nat -> (T !!! (k - 1) < J !!! p)%nat) by (intros H; by apply Nat.leb_gt, Hlt).
  assert (Hkp : (k <= p)%nat).
  { destruct (decide (k = 0)%nat) as [->|]; [lia|]. specialize (Hpred ltac:(lia)).
    destruct (HT (k - 1)%nat) as [[E _]|(i & (H1 & H2 & _) & _)]; [lia|specialize (HJn p); lia|].
    specialize (Hb i H1). lia. }
  assert (Hkn : (k < n)%nat) by lia. specialize (Hge Hkn). apply Nat.leb_le in Hge. split_and!; try done.
  intros k' Hk'. specialize (Hpred ltac:(lia)). specialize (Hm k' (k - 1)%nat ltac:(lia)). lia.
Qed.

Lemma ainv_step p T L :
  AInv p T L -> (p < n)%nat ->
  let k := Search n (fun k => J !!! p <=? T !!! k)%nat in
  AInv (S p) (<[k := J !!! p]> T) (L ++ [S k]).
Proof.
  intros Hinv Hp k. destruct (place p T L Hinv Hp) as (Hkn & HJk & Hkp & Hlow). fold k in Hkn, HJk, Hkp, Hlow.
  destruct Hinv as [Hl1 Hl2 HT Hch Hb Hm Hlo Hgr].
  assert (Hself : last_of (L ++ [S k]) (S p) (S k) p).
  { split_and!; [lia | by rewrite <- Hl2, total_app_r | intros; lia]. }
  assert (HTk : <[k := J !!! p]> T !!! k = J !!! p) by (apply list_lookup_total_insert_eq; lia).
  assert (HTo : forall k', k' <> k -> <[k := J !!! p]> T !!! k' = T !!! k')
    by (intros; by apply list_lookup_total_insert_ne).
  constructor.
  - by rewrite length_insert.
  - rewrite length_app, Hl2. simpl. lia.
  - intros k' Hk'. destruct (decide (k' = k)) as [->|Hne].
    { right. exists p. split; [done|]. by rewrite HTk. }
    rewrite HTo by done. destruct (HT k' Hk') as [[E H]|(i & H & E)].
    + left. split; [done|]. intros i Hi. destruct (decide (i = p)) as [->|].
      * rewrite <- Hl2, total_app_r. congruence.
      * rewrite total_app_l by lia. apply H. lia.
    + right. exists i. split; [|done]. apply last_app; congruence.
  - intros i k' Hi E. destruct (decide (i = p)) as [->|].
    + rewrite <- Hl2, total_app_r in E. injection E as E.
      destruct (HT k') as [[E' _]|(i' & H & E')]; [lia|specialize (Hlow k' ltac:(lia)); specialize (HJn p); lia|].
      exists i'. specialize (Hlow k' ltac:(lia)). split; [|lia]. rewrite <- Hl2 in H |- *.
      destruct H as (H1 & H2 & H3). split_and!; [done | by rewrite total_app_l|].
      intros i2 Hi2. rewrite total_app_l by lia. auto.
    + rewrite total_app_l in E by lia. destruct (Hch i k') as (i' & (H1 & H2 & H3) & HJ'); [lia | done|].
      exists i'. split; [|done]. split_and!; [done | rewrite total_app_l by lia; done|].
      intros i2 Hi2. rewrite total_app_l by lia. auto.
  - intros i Hi. destruct (decide (i = p)) as [->|].
    + rewrite <- Hl2, total_app_r. lia.
    + rewrite total_app_l by lia. apply Hb. lia.
  - intros k1 k2 Hk. destruct (decide (k1 = k)) as [->|]; [|destruct (decide (k2 = k)) as [->|]].
    + rewrite HTk. destruct (decide (k2 = k)) as [->|]; [by rewrite HTk|]. rewrite HTo by done.
      specialize (Hm k k2 ltac:(lia)). lia.
    + rewrite HTk, HTo by done. specialize (Hlow k1 ltac:(lia)). lia.
    + rewrite !HTo by done. by apply Hm.
  - intros i Hi. destruct (decide (i = p)) as [->|].
    + rewrite <- Hl2 at 1. rewrite total_app_r. simpl. rewrite Nat.sub_0_r, HTk. done.
    + rewrite total_app_l by lia. specialize (Hlo i ltac:(lia)).
      destruct (decide (L !!! i - 1 = k)%nat) as [E|]; [|by rewrite HTo].
      rewrite E in *. rewrite HTk. lia.
  - intros i i' Hi HJi. destruct (decide (i' = p)) as [->|]; [|rewrite !total_app_l by lia; apply Hgr; lia || done].
    rewrite <- Hl2, total_app_r, total_app_l by lia.
    specialize (Hlo i ltac:(lia)). specialize (Hb i ltac:(lia)).
    destruct (Nat.le_gt_cases (L !!! i) k) as [|Hgt]; [lia|].
    specialize (Hm k (L !!! i - 1)%nat ltac:(lia)). lia.
Qed.

Lemma algorithmA_inv J2 : forall p T L,
  AInv p T L -> (p <= n)%nat -> J2 = drop p J -> exists T', AInv n T' (algorithmA n J2 T L).
Proof.
  induction J2 as [|j J2 IH]; intros p T L Hi Hp E; simpl.
  { exists T. assert (p = n) as <-; [|done]. apply (f_equal length) in E. rewrite length_drop, HJ in E. simpl in E. lia. }
  assert (Hlt : (p < n)%nat) by (apply (f_equal length) in E; rewrite length_drop, HJ in E; simpl in E; lia).
  assert (Hj : J !! p = Some j) by (rewrite <- (Nat.add_0_r p), <- lookup_drop, <- E; done).
  apply list_lookup_total_correct in Hj as Ej. subst j. apply (IH (S p)); [by apply ainv_step | lia|].
  rewrite (drop_S _ _ _ Hj) in E. by injection E.
Qed.

Lemma algorithmA_spec : exists T, AInv n T (algorithmA n J (replicate n (n + 1)%nat) []).
Proof. apply (algorithmA_inv J 0); [apply ainv_init | lia | done]. Qed.

(** A run: positions and values that both increase. *)
Definition run_lt (i i' : nat) : Prop := (i < i')%nat /\ (J !!! i < J !!! i')%nat.

(** No run is longer than the greatest [L]. *)
Lemma run_bounded T L cs k :
  AInv n T L -> StronglySorted run_lt cs -> Forall (fun i => i < n)%nat cs ->
  (forall i, (i < n)%nat -> L !!! i <= k)%nat -> (length cs <= k)%nat.
Proof.
  intros Hinv Hs Hn Hk.
  assert (H : forall i cs, StronglySorted run_lt (i :: cs) -> Forall (fun i => i < n)%nat (i :: cs) ->
            (L !!! i + length cs <= k)%nat).
  { intros i l. revert i. induction l as [|i2 l IH]; intros i Hs' Hn'.
    - apply Forall_inv in Hn'. simpl. specialize (Hk i Hn'). lia.
    - apply StronglySorted_inv in Hs' as [Hs2 [H12 HJ12]%Forall_inv]. apply Forall_inv_tail in Hn' as Hn2.
      specialize (IH i2 Hs2 Hn2). apply Forall_inv in Hn2.
      pose proof (a_grow _ _ _ Hinv i i2 ltac:(lia) HJ12). simpl. lia. }
  destruct cs as [|i cs]; [simpl; lia|]. specialize (H i cs Hs Hn). apply Forall_inv in Hn.
  pose proof (a_bound _ _ _ Hinv i Hn). simpl. lia.
Qed.

Lemma last_of_unique L p k i i' : last_of L p k i -> last_of L p k i' -> i = i'.
Proof.
  intros (H1 & H2 & H3) (H4 & H5 & H6). destruct (Nat.lt_trichotomy i i') as [H|[H|H]]; [|done|].
  - by destruct (H3 i' ltac:(lia)).
  - by destruct (H6 i ltac:(lia)).
Qed.

Lemma last_of_S L p k i : L !!! p <> k -> last_of L (S p) k i <-> last_of L p k i.
Proof.
  intros Hp. split; intros (H1 & H2 & H3); split_and!; try done.
  - destruct (decide (i = p)); [congruence | lia].
  - intros i2 Hi2. apply H3. lia.
  - lia.
  - intros i2 Hi2. destruct (decide (i2 = p)) as [->|]; [done | apply H3; lia].
Qed.

Lemma run_snoc cs i :
  StronglySorted run_lt cs -> (forall c, last cs = Some c -> run_lt c i) -> StronglySorted run_lt (cs ++ [i]).
Proof.
  intros Hs Hl. induction Hs as [|c cs Hs IH Hc]; simpl; [by repeat constructor|].
  destruct cs as [|c2 cs]; [repeat constructor; by apply Hl|].
  assert (Hl2 : forall c', last (c2 :: cs) = Some c' -> run_lt c' i) by (intros c' E; by apply Hl).
  constructor; [by apply IH|]. apply Forall_app. split; [done|]. constructor; [|done].
  destruct (last (c2 :: cs)) as [z|] eqn:Ez; [|by apply last_None in Ez].
  specialize (Hl2 z eq_refl). apply last_Some_elem_of in Ez. rewrite Forall_forall in Hc. specialize (Hc z Ez).
  unfold run_lt in *. lia.
Qed.

(** The run [collect] walks down. *)
Lemma collect_spec T L xi yi p : AInv n T L -> (forall i, (i < n)%nat -> (J !!! i < n)%nat) -> (p <= n)%nat ->
  forall k acc, (k = 0%nat \/ exists i, last_of L p k i) ->
  exists cs, collect n xi yi J L (reverse (seq 0 p)) k acc
             = ((fun i => (xi !!! i, yi !!! (J !!! i))) <$> cs) ++ acc
    /\ length cs = k /\ StronglySorted run_lt cs
    /\ Forall (fun i => i < p)%nat cs /\ (forall i, last cs = Some i -> last_of L p k i).
Proof.
  intros Hinv HJlt. induction p as [|p IH]; intros Hp k acc Hk.
  { destruct Hk as [->|(i & Hi & _)]; [|lia]. exists []. split_and!; done || constructor. }
  rewrite seq_S, reverse_app. simpl. specialize (HJlt p ltac:(lia)) as HJp.
  rewrite (proj2 (Nat.ltb_lt (J !!! p) n) HJp), andb_true_r.
  pose proof (a_bound _ _ _ Hinv p ltac:(lia)) as Hb.
  destruct (Nat.eqb_spec (L !!! p) k) as [E|E].
  - assert (Hpred : (k - 1 = 0)%nat \/ exists i, last_of L p (k - 1) i /\ (J !!! i < J !!! p)%nat).
    { destruct k as [|[|k]]; [by left | by left|]. right.
      destruct (a_chain _ _ _ Hinv p k ltac:(lia) E) as (i & H & HJi). exists i. simpl. done. }
    destruct (IH ltac:(lia) (k - 1)%nat ((xi !!! p, yi !!! (J !!! p)) :: acc)) as (cs & -> & Hlen & Hs & Hf & Hlast).
    { destruct Hpred as [|(i & H & _)]; [by left | right; by exists i]. }
    exists (cs ++ [p]). split_and!.
    + by rewrite fmap_app, <- app_assoc.
    + rewrite length_app, Hlen. simpl. lia.
    + apply run_snoc; [done|]. intros c Ec. specialize (Hlast c Ec).
      destruct Hpred as [H0|(i & H & HJi)].
      * destruct cs; [done|]. simpl in Hlen. lia.
      * rewrite (last_of_unique _ _ _ _ _ Hlast H). split; [apply H | done].
    + apply Forall_app. split; [eapply Forall_impl; [exact Hf | simpl; lia] | repeat constructor].
    + intros i. rewrite last_snoc. intros [= <-]. split_and!; [lia | done | intros; lia].
  - destruct (IH ltac:(lia) k acc) as (cs & -> & Hlen & Hs & Hf & Hlast).
    { destruct Hk as [->|(i & H)]; [by left|]. right. exists i. by apply last_of_S. }
    exists cs. split_and!; try done; [eapply Forall_impl; [exact Hf | simpl; lia]|].
    intros i Ei. apply last_of_S; auto.
Qed.
End AlgorithmA.

(** * Unique lines *)

(** How often a line occurs. *)
Definition occ (s : string) (l : list string) : nat := length (filter (fun t => t = s) l).

Lemma occ_cons s t l : occ s (t :: l) = ((if decide (t = s) then 1 else 0) + occ s l)%nat.
Proof. unfold occ. rewrite filter_cons. by case_decide. Qed.

Lemma count_x_spec x s : forall m,
  -2 <= default 0 (m !! s) <= 0 ->
  default 0 (foldl count_x m x !! s) = Z.max (-2) (default 0 (m !! s) - Z.of_nat (occ s x)).
Proof.
  induction x as [|t x IH]; intros m Hm; [unfold occ; simpl; lia|]. rewrite occ_cons. simpl.
  assert (E : default 0 (count_x m t !! s) = Z.max (-2) (default 0 (m !! s) - if decide (t = s) then 1 else 0)).
  { unfold count_x. case_decide as Et.
    - subst. destruct (Z.ltb_spec (-2) (default 0 (m !! s))); [rewrite lookup_insert_eq; simpl; lia | lia].
    - destruct (-2 <? _); [rewrite lookup_insert_ne by done|]; lia. }
  rewrite IH; rewrite E; case_decide; lia.
Qed.

Lemma count_y_spec y s c : forall (k : nat) m, (k <= 2)%nat ->
  -2 <= c <= 0 -> default 0 (m !! s) = c - 4 * Z.of_nat k ->
  default 0 (foldl count_y m y !! s) = c - 4 * Z.of_nat (Nat.min 2 (k + occ s y)).
Proof.
  induction y as [|t y IH]; intros k m Hk Hc Hm; [cbn [foldl]; rewrite Hm; change (occ s []) with 0%nat; lia|]. rewrite occ_cons. cbn [foldl].
  case_decide as Et.
  - subst t. unfold count_y at 2. rewrite Hm. destruct (Z.ltb_spec (-8) (c - 4 * Z.of_nat k)).
    + rewrite (IH (S k)); [f_equal; f_equal; lia | lia | lia | rewrite lookup_insert_eq; simpl; lia].
    + rewrite (IH k) by done. f_equal. f_equal. lia.
  - rewrite (IH k); [f_equal; f_equal; lia | done | done |].
    unfold count_y. destruct (-8 <? _); [by rewrite lookup_insert_ne | done].
Qed.

Lemma counts_negative x y s j : foldl count_y (foldl count_x ∅ x) y !! s = Some j -> j < 0.
Proof.
  assert (Hx : forall l m, (forall s j, m !! s = Some j -> j < 0) -> forall s j, foldl count_x m l !! s = Some j -> j < 0).
  { induction l as [|t l IH]; intros m Hm; [done|]. simpl. apply IH. intros s' j'. unfold count_x.
    destruct (_ <? _) eqn:E; [|apply Hm]. rewrite lookup_insert_Some. intros [[_ <-]|[_ H]]; [|by eapply Hm].
    destruct (m !! t) eqn:Et; simpl; [specialize (Hm _ _ Et)|]; lia. }
  assert (Hy : forall l m, (forall s j, m !! s = Some j -> j < 0) -> forall s j, foldl count_y m l !! s = Some j -> j < 0).
  { induction l as [|t l IH]; intros m Hm; [done|]. simpl. apply IH. intros s' j'. unfold count_y.
    destruct (_ <? _) eqn:E; [|apply Hm]. rewrite lookup_insert_Some. intros [[_ <-]|[_ H]]; [|by eapply Hm].
    destruct (m !! t) eqn:Et; simpl; [specialize (Hm _ _ Et)|]; lia. }
  revert s j. apply Hy, Hx. intros s' j'. by rewrite lookup_empty.
Qed.

(** A line that occurs once on each side. *)
Definition unique (x y : list string) (s : string) : Prop := occ s x = 1%nat /\ occ s y = 1%nat.

Lemma counts_unique x y s :
  default 0 (foldl count_y (foldl count_x ∅ x) y !! s) = -1 + -4 <-> unique x y s.
Proof.
  pose proof (count_x_spec x s ∅) as Hx. rewrite lookup_empty in Hx. simpl in Hx. specialize (Hx ltac:(lia)).
  rewrite (count_y_spec y s (default 0 (foldl count_x ∅ x !! s)) 0); [|lia|lia|lia].
  rewrite Hx. unfold unique. lia.
Qed.

Lemma occ_lookup s l : (1 <= occ s l)%nat -> exists i, l !! i = Some s.
Proof.
  unfold occ. intros H. destruct (filter _ l) as [|t l'] eqn:E; [simpl in H; lia|].
  assert (Hin : t ∈ filter (fun t => t = s) l) by (rewrite E; left).
  apply list_elem_of_filter in Hin as [-> Hin]. by apply list_elem_of_lookup.
Qed.

Lemma occ_once s l i i' : occ s l = 1%nat -> l !! i = Some s -> l !! i' = Some s -> i = i'.
Proof.
  revert i i'. induction l as [|t l IH]; intros i i' Ho Hi Hi'; [done|]. rewrite occ_cons in Ho.
  assert (Hz : forall n, occ s l = 0%nat -> l !! n = Some s -> False).
  { intros n Hn E%list_elem_of_lookup_2. unfold occ in Hn. apply nil_length_inv in Hn.
    assert (Hin : s ∈ filter (fun t => t = s) l) by (by apply list_elem_of_filter). rewrite Hn in Hin. by apply not_elem_of_nil in Hin. }
  destruct i, i'; simpl in *; simplify_eq; [done | | | f_equal; apply IH; try done; case_decide; [|done]].
  - rewrite decide_True in Ho by done. exfalso. eapply Hz; [lia | done].
  - rewrite decide_True in Ho by done. exfalso. eapply Hz; [lia | done].
  - exfalso. eapply Hz; [lia | done].
Qed.

(** * Numbering *)

Section Number.
Context (y : list string) (U : string -> Prop).

(** After the first [i] lines of [y]: [yi] are the indexes of the unique ones,
    and the map holds their places in it. *)
Record Numbered (i : nat) (m : gmap string Z) (yi : list nat) : Prop := MkNumbered {
  n_yi : forall pos idx, yi !! pos = Some idx ->
    exists s, y !! idx = Some s /\ m !! s = Some (Z.of_nat pos) /\ U s;
  n_m : forall s j, m !! s = Some j -> 0 <= j -> exists idx, yi !! Z.to_nat j = Some idx /\ y !! idx = Some s;
  n_seen : forall s idx, (idx < i)%nat -> y !! idx = Some s -> U s -> exists j, m !! s = Some j /\ 0 <= j;
  n_todo : forall s, U s -> default 0 (m !! s) = -1 + -4 \/ exists j, m !! s = Some j /\ 0 <= j;
  n_only : forall s, default 0 (m !! s) = -1 + -4 -> U s;
  n_sort : StronglySorted lt yi;
  n_lt : Forall (fun idx => idx < i)%nat yi
}.

Lemma sorted_snoc (l : list nat) i : StronglySorted lt l -> Forall (fun j => j < i)%nat l -> StronglySorted lt (l ++ [i]).
Proof.
  induction 1 as [|j l Hs IH Hj]; intros Hf; simpl; [by repeat constructor|].
  apply Forall_cons in Hf as [Hji Hf]. constructor; [by apply IH|]. apply Forall_app. by repeat constructor.
Qed.

Lemma number_y_spec l : forall i m yi, l = drop i y -> (i <= length y)%nat -> Numbered i m yi ->
  let '(m', yi') := number_y l i m yi in Numbered (length y) m' yi'.
Proof.
  induction l as [|s l IH]; intros i m yi El Hi HN; simpl.
  { apply (f_equal length) in El. rewrite length_drop in El. simpl in El. by replace (length y) with i by lia. }
  assert (Hs : y !! i = Some s) by (rewrite <- (Nat.add_0_r i), <- lookup_drop, <- El; done).
  apply lookup_lt_Some in Hs as Hlt. rewrite (drop_S _ _ _ Hs) in El. injection El as El.
  destruct HN as [Hyi Hm Hseen Htodo Honly Hsort Hlts].
  destruct (Z.eqb_spec (default 0 (m !! s)) (-1 + -4)) as [E|E]; apply IH; try done; constructor.
  - intros pos idx. rewrite lookup_app_Some. intros [Hp|[Hle Hp]].
    + destruct (Hyi pos idx Hp) as (s' & H1 & H2 & H3). exists s'. split_and!; try done.
      rewrite lookup_insert_ne; [done|]. intros <-. rewrite H2 in E. simpl in E. lia.
    + apply list_lookup_singleton_Some in Hp as [Hp <-]. exists s. split_and!; [done| |by apply Honly].
      rewrite lookup_insert_eq. do 2 f_equal. lia.
  - intros s' j. rewrite lookup_insert_Some. intros [[<- <-]|[Hne Hj]] Hj0.
    + exists i. split; [|done]. rewrite Nat2Z.id, lookup_app_r, Nat.sub_diag by lia. done.
    + destruct (Hm s' j Hj Hj0) as (idx & H1 & H2). exists idx. split; [|done]. by apply lookup_app_l_Some.
  - intros s' idx Hidx Hs' HU. destruct (decide (s' = s)) as [->|Hne].
    + exists (Z.of_nat (length yi)). rewrite lookup_insert_eq. split; [done | lia].
    + rewrite lookup_insert_ne by done. apply (Hseen s' idx); try done.
      destruct (decide (idx = i)) as [->|]; [congruence | lia].
  - intros s' HU. destruct (decide (s' = s)) as [->|Hne].
    + right. exists (Z.of_nat (length yi)). rewrite lookup_insert_eq. split; [done | lia].
    + rewrite lookup_insert_ne by done. by apply Htodo.
  - intros s'. destruct (decide (s' = s)) as [->|Hne]; [rewrite lookup_insert_eq; simpl; lia|].
    rewrite lookup_insert_ne by done. apply Honly.
  - by apply sorted_snoc.
  - apply Forall_app. split; [eapply Forall_impl; [exact Hlts | simpl; lia] | repeat constructor].
  - done.
  - done.
  - intros s' idx Hidx Hs' HU. destruct (decide (idx = i)) as [->|]; [|apply (Hseen s' idx); try done; lia].
    assert (s' = s) as -> by congruence. destruct (Htodo s HU) as [|]; [done | done].
  - done.
  - done.
  - done.
  - eapply Forall_impl; [exact Hlts | simpl; lia].
Qed.
End Number.

(** What the loop over [x] gathers. *)
Lemma number_x_spec x m : forall i,
  let '(xi, J) := number_x x i m in
  length xi = length J /\ StronglySorted lt xi /\ Forall (fun u => i <= u)%nat xi
  /\ (forall a u, xi !! a = Some u -> exists s j,
        x !! (u - i)%nat = Some s /\ m !! s = Some j /\ 0 <= j /\ J !! a = Some (Z.to_nat j))
  /\ (forall b s j, x !! b = Some s -> m !! s = Some j -> 0 <= j ->
        exists a, xi !! a = Some (i + b)%nat /\ J !! a = Some (Z.to_nat j)).
Proof.
  induction x as [|s x IH]; intros i; simpl.
  { split_and!; [done | constructor | constructor | done | done]. }
  specialize (IH (S i)). destruct (number_x x (S i) m) as [xi J]. destruct IH as (Hl & Hs & Hf & Ha & Hb).
  assert (Hskip : (forall j, m !! s = Some j -> j < 0) ->
    length xi = length J /\ StronglySorted lt xi /\ Forall (fun u => i <= u)%nat xi
    /\ (forall a u, xi !! a = Some u -> exists s' j,
          (s :: x) !! (u - i)%nat = Some s' /\ m !! s' = Some j /\ 0 <= j /\ J !! a = Some (Z.to_nat j))
    /\ (forall b s' j, (s :: x) !! b = Some s' -> m !! s' = Some j -> 0 <= j ->
          exists a, xi !! a = Some (i + b)%nat /\ J !! a = Some (Z.to_nat j))).
  { intros Hneg. split_and!; try done.
    - eapply Forall_impl; [exact Hf | simpl; lia].
    - intros a u Hu. destruct (Ha a u Hu) as (s' & j & H). exists s', j.
      apply (Forall_lookup_1 _ _ _ _ Hf) in Hu. by replace (u - i)%nat with (S (u - S i)) by lia.
    - intros [|b] s' j Hb' Hj Hj0; [simplify_eq/=; apply Hneg in Hj; lia|]. simpl in Hb'.
      replace (i + S b)%nat with (S i + b)%nat by lia. by apply (Hb b s'). }
  destruct (m !! s) as [j|] eqn:Ej; [destruct (Z.leb_spec 0 j) as [Hj|Hj]|]; [|by apply Hskip; intros ? [= <-]|by apply Hskip].
  clear Hskip. split_and!.
  - simpl. by f_equal.
  - constructor; [done|]. eapply Forall_impl; [exact Hf | simpl; lia].
  - constructor; [lia|]. eapply Forall_impl; [exact Hf | simpl; lia].
  - intros [|a] u; simpl.
    + intros [= <-]. exists s, j. by rewrite Nat.sub_diag.
    + intros Hu. destruct (Ha a u Hu) as (s' & j' & H). exists s', j'.
      apply (Forall_lookup_1 _ _ _ _ Hf) in Hu. by replace (u - i)%nat with (S (u - S i)) by lia.
  - intros [|b] s' j' Hb' Hj' Hj0'; simpl in Hb'.
    + simplify_eq. exists 0%nat. simpl. by rewrite Nat.add_0_r.
    + destruct (Hb b s' j' Hb' Hj' Hj0') as (a & H1 & H2). exists (S a). simpl.
      by replace (i + S b)%nat with (S i + b)%nat by lia.
Qed.

(** * The anchors are a longest common subsequence *)

Lemma max_spec (l : list nat) : forall k0,
  let k := foldl (fun k v => if (k <? v)%nat then v else k) k0 l in
  (k0 <= k)%nat /\ Forall (fun v => v <= k)%nat l /\ (k = k0 \/ k ∈ l).
Proof.
  induction l as [|v l IH]; intros k0; simpl; [split_and!; [done | constructor | by left]|].
  destruct (IH (if (k0 <? v)%nat then v else k0)) as (H1 & H2 & H3). revert H1 H2 H3.
  generalize (foldl (fun k v => if (k <? v)%nat then v else k) (if (k0 <? v)%nat then v else k0) l). intros k H1 H2 H3.
  destruct (Nat.ltb_spec k0 v); split_and!; try lia; try (constructor; [lia | done]); rewrite elem_of_cons; naive_solver.
Qed.

Lemma sorted_lookup {A} (R : relation A) l a b u v :
  StronglySorted R l -> l !! a = Some u -> l !! b = Some v -> (a < b)%nat -> R u v.
Proof.
  intros Hs. revert a b. induction Hs as [|w l Hs IH Hw]; intros a b Ha Hb Hab; [done|].
  destruct b as [|b]; [lia|]. destruct a as [|a]; simpl in *; [|by eapply IH; eauto; lia].
  simplify_eq. by eapply Forall_lookup_1.
Qed.

Lemma sorted_index (l : list nat) a b u v :
  StronglySorted lt l -> l !! a = Some u -> l !! b = Some v -> (u < v)%nat -> (a < b)%nat.
Proof.
  intros Hs Ha Hb Huv. destruct (Nat.lt_trichotomy a b) as [|[->|H]]; [done | simplify_eq; lia|].
  pose proof (sorted_lookup _ _ _ _ _ _ Hs Hb Ha H). lia.
Qed.

Lemma sorted_transfer {A B} (R : relation A) (S : relation B) (Q : A -> B -> Prop) l k :
  Forall2 Q l k -> StronglySorted S k ->
  (forall a a' b b', Q a b -> Q a' b' -> S b b' -> R a a') -> StronglySorted R l.
Proof.
  intros HF Hs HR. induction HF as [|a b l k Hab HF IH]; [constructor|].
  apply StronglySorted_inv in Hs as [Hs Hb]. constructor; [by apply IH|].
  apply Forall_forall. intros a' [i Ha']%list_elem_of_lookup.
  destruct (Forall2_lookup_l _ _ _ _ _ HF Ha') as (b' & Hb' & Hq). apply list_elem_of_lookup_2 in Hb'.
  apply (HR a a' b b'); [done..|]. exact (proj1 (Forall_forall _ _) Hb b' Hb').
Qed.

Section Anchors.
Context (x y : list string).

Definition pair_lt (p q : pair) : Prop := (p.1 < q.1)%nat /\ (p.2 < q.2)%nat.

(** A common subsequence of unique lines, as pairs of indexes. *)
Definition common_run (ms : list pair) : Prop :=
  StronglySorted pair_lt ms
  /\ Forall (fun p => exists s, x !! p.1 = Some s /\ y !! p.2 = Some s /\ unique x y s) ms.

(** The numbering [tgs] works on. *)
Record Indexed (m : gmap string Z) (xi yi J : list nat) : Prop := MkIndexed {
  i_num : Numbered y (unique x y) (length y) m yi;
  i_len : length xi = length J;
  i_xi : StronglySorted lt xi;
  i_pair : forall a u, xi !! a = Some u -> exists s pos idx,
    x !! u = Some s /\ J !! a = Some pos /\ yi !! pos = Some idx /\ y !! idx = Some s /\ unique x y s;
  i_all : forall u idx s, x !! u = Some s -> y !! idx = Some s -> unique x y s -> exists a pos,
    xi !! a = Some u /\ J !! a = Some pos /\ yi !! pos = Some idx
}.

Lemma indexed :
  let '(m, yi) := number_y y 0 (foldl count_y (foldl count_x ∅ x) y) [] in
  let '(xi, J) := number_x x 0 m in Indexed m xi yi J.
Proof.
  set (m0 := foldl count_y (foldl count_x ∅ x) y).
  pose proof (number_y_spec y (unique x y) y 0 m0 [] eq_refl ltac:(lia)) as HN.
  assert (H0 : Numbered y (unique x y) 0 m0 []).
  { constructor; try done; try (intros; lia).
    - intros s j Hj Hj0. apply counts_negative in Hj. lia.
    - intros s HU. left. by apply counts_unique.
    - intros s E. by apply counts_unique.
    - constructor. }
  specialize (HN H0). destruct (number_y y 0 m0 []) as [m yi].
  pose proof (number_x_spec x m 0) as HX. destruct (number_x x 0 m) as [xi J].
  destruct HX as (Hl & Hs & _ & Ha & Hb). constructor; try done.
  - intros a u Hu. destruct (Ha a u Hu) as (s & j & Hx & Hm & Hj & HJ). rewrite Nat.sub_0_r in Hx.
    destruct (n_m _ _ _ _ _ HN s j Hm Hj) as (idx & Hyi & Hy).
    destruct (n_yi _ _ _ _ _ HN _ _ Hyi) as (s' & Hy' & _ & HU). exists s, (Z.to_nat j), idx.
    rewrite Hy in Hy'. injection Hy' as <-. done.
  - intros u idx s Hx Hy HU.
    destruct (n_seen _ _ _ _ _ HN s idx) as (j & Hm & Hj); [by apply lookup_lt_Some in Hy | done | done|].
    destruct (Hb u s j Hx Hm Hj) as (a & Hxi & HJ). exists a, (Z.to_nat j). split_and!; [done|done|].
    destruct (n_m _ _ _ _ _ HN s j Hm Hj) as (idx' & Hyi & Hy').
    by rewrite (occ_once s y idx idx') by (apply HU || done).
Qed.

Lemma indexed_lt m xi yi J : Indexed m xi yi J ->
  (forall i, (i < length xi)%nat -> (J !!! i < length xi)%nat) /\ forall i, (J !!! i <= length xi)%nat.
Proof.
  intros [HN Hl Hxi Hp Hall].
  assert (Hle : (length yi <= length J)%nat).
  { rewrite <- (length_seq (length yi) 0). apply submseteq_length, NoDup_submseteq; [apply NoDup_seq|].
    intros pos [_ Hpos]%elem_of_seq. simpl in Hpos. apply lookup_lt_is_Some in Hpos as [idx Hidx].
    destruct (n_yi _ _ _ _ _ HN pos idx Hidx) as (s & Hy & _ & HU).
    destruct (occ_lookup s x) as [u Hu]; [destruct HU; lia|].
    destruct (Hall u idx s Hu Hy HU) as (a & pos' & _ & HJ & Hyi).
    apply list_elem_of_lookup. exists a. rewrite HJ. f_equal.
    pose proof (n_sort _ _ _ _ _ HN) as Hso. destruct (Nat.lt_trichotomy pos' pos) as [H|[H|H]]; [|done|].
    - pose proof (sorted_lookup _ _ _ _ _ _ Hso Hyi Hidx H). lia.
    - pose proof (sorted_lookup _ _ _ _ _ _ Hso Hidx Hyi H). lia. }
  assert (Hlt : forall i, (i < length xi)%nat -> (J !!! i < length xi)%nat).
  { intros i Hi. apply lookup_lt_is_Some in Hi as [u Hu]. destruct (Hp i u Hu) as (s & pos & idx & _ & HJ & Hyi & _).
    rewrite (list_lookup_total_correct _ _ _ HJ). apply lookup_lt_Some in Hyi. lia. }
  split; [done|]. intros i. destruct (decide (i < length xi)%nat) as [H|H]; [apply Hlt in H; lia|].
  rewrite list_lookup_total_alt, lookup_ge_None_2 by lia. simpl. lia.
Qed.

Lemma pairs_run m xi yi J cs : Indexed m xi yi J ->
  StronglySorted (run_lt J) cs -> Forall (fun i => i < length xi)%nat cs ->
  common_run ((fun i => (xi !!! i, yi !!! (J !!! i))) <$> cs).
Proof.
  intros [HN Hl Hxi Hp _] Hs Hn.
  assert (Hi : forall i, (i < length xi)%nat -> exists s, xi !! i = Some (xi !!! i)
     /\ yi !! (J !!! i) = Some (yi !!! (J !!! i)) /\ x !! (xi !!! i) = Some s
     /\ y !! (yi !!! (J !!! i)) = Some s /\ unique x y s).
  { intros i [u Hu]%lookup_lt_is_Some. destruct (Hp i u Hu) as (s & pos & idx & Hx & HJ & Hyi & Hy & HU).
    exists s. rewrite (list_lookup_total_correct _ _ _ Hu), (list_lookup_total_correct _ _ _ HJ),
      (list_lookup_total_correct _ _ _ Hyi). done. }
  split.
  - apply (sorted_transfer _ (run_lt J) (fun p i => p = (xi !!! i, yi !!! (J !!! i)) /\ (i < length xi)%nat) _ cs); [|done|].
    + apply Forall2_fmap_l, Forall_Forall2_diag. eapply Forall_impl; [exact Hn | done].
    + intros p p' i i' [-> Hi1] [-> Hi2] [H1 H2].
      destruct (Hi i Hi1) as (_ & Ha & Hb & _). destruct (Hi i' Hi2) as (_ & Ha' & Hb' & _). split; cbn [fst snd].
      * exact (sorted_lookup _ _ _ _ _ _ Hxi Ha Ha' H1).
      * exact (sorted_lookup _ _ _ _ _ _ (n_sort _ _ _ _ _ HN) Hb Hb' H2).
  - apply Forall_fmap. eapply Forall_impl; [exact Hn|]. intros i Hi1. destruct (Hi i Hi1) as (s & _ & _ & H). by exists s.
Qed.

(** A common subsequence is a run of the numbering. *)
Lemma run_pairs m xi yi J ms : Indexed m xi yi J -> common_run ms ->
  exists cs, length cs = length ms /\ StronglySorted (run_lt J) cs /\ Forall (fun i => i < length xi)%nat cs.
Proof.
  intros [HN Hl Hxi _ Hall] [Hs Hf].
  pose (Q := fun a (p : pair) => exists pos, xi !! a = Some p.1 /\ J !! a = Some pos /\ yi !! pos = Some p.2).
  assert (HQ : exists cs, Forall2 Q cs ms).
  { clear Hs. induction Hf as [|p ms (s & Hx & Hy & HU) _ [cs IH]]; [by exists []|].
    destruct (Hall _ _ _ Hx Hy HU) as (a & pos & H). exists (a :: cs). constructor; [by exists pos | done]. }
  destruct HQ as [cs HQ]. exists cs. split_and!.
  - by eapply Forall2_length.
  - apply (sorted_transfer _ pair_lt Q _ ms); [done|done|].
    intros a a' p p' (pos & H1 & H2 & H3) (pos' & H4 & H5 & H6) [Hp1 Hp2]. split.
    + exact (sorted_index _ _ _ _ _ Hxi H1 H4 Hp1).
    + rewrite (list_lookup_total_correct _ _ _ H2), (list_lookup_total_correct _ _ _ H5).
      exact (sorted_index _ _ _ _ _ (n_sort _ _ _ _ _ HN) H3 H6 Hp2).
  - apply Forall_forall. intros a [i Ha]%list_elem_of_lookup.
    destruct (Forall2_lookup_l _ _ _ _ _ HQ Ha) as (p & _ & pos & H & _). by apply lookup_lt_Some in H.
Qed.

(** The anchors, without what the two sentinels add. *)
Lemma tgs_spec :
  exists ms, tgs x y = (0, 0)%nat :: ms ++ [(length x, length y)] /\ common_run ms
    /\ forall ms', common_run ms' -> (length ms' <= length ms)%nat.
Proof.
  unfold tgs. pose proof indexed as HI. destruct (number_y y 0 _ []) as [m yi].
  destruct (number_x x 0 m) as [xi J]. destruct (indexed_lt _ _ _ _ HI) as [HJlt HJle].
  pose proof (eq_sym (i_len _ _ _ _ HI)) as HJ. set (n := length xi) in *.
  destruct (algorithmA_spec n J HJ HJle) as [T Hinv]. set (L := algorithmA n J _ []) in *.
  destruct (max_spec L 0) as (_ & Hmax & Hk). set (k := foldl _ 0%nat L) in *.
  assert (HL : forall i, (i < n)%nat -> L !!! i ∈ L).
  { intros i Hi. apply list_elem_of_lookup_total_2. by rewrite (a_lenL _ _ _ _ _ Hinv). }
  destruct (collect_spec n J HJ T L xi yi n Hinv HJlt ltac:(lia) k []) as (cs & -> & Hlen & Hs & Hf & _).
  { destruct Hk as [|Hk]; [by left|]. right. apply list_elem_of_lookup in Hk as [i Hi].
    apply lookup_lt_Some in Hi as Hlt. rewrite (a_lenL _ _ _ _ _ Hinv) in Hlt.
    apply list_lookup_total_correct in Hi. destruct (last_exists L k n i Hlt Hi) as (i' & H & _). by exists i'. }
  rewrite app_nil_r. eexists. split; [reflexivity|]. split; [by eapply pairs_run|].
  intros ms' Hms'. destruct (run_pairs _ _ _ _ _ HI Hms') as (cs' & Hl' & Hs' & Hf').
  rewrite length_fmap, Hlen, <- Hl'. apply (run_bounded n J HJ T L); try done.
  intros i Hi. rewrite Forall_forall in Hmax. by apply Hmax, HL.
Qed.

(** The anchors are what the loop over them needs. *)
Lemma tgs_anchored :
  Forall (anchored x y) (tgs x y) /\ StronglySorted pair_le (tgs x y) /\ last (tgs x y) = Some (at_end x y).
Proof.
  destruct tgs_spec as (ms & -> & [Hs Hf] & _).
  assert (Hin : Forall (fun p => (p.1 <= length x)%nat /\ (p.2 <= length y)%nat) ms).
  { eapply Forall_impl; [exact Hf|]. intros p (s & Hx & Hy & _). apply lookup_lt_Some in Hx, Hy. lia. }
  split_and!.
  - constructor; [|apply Forall_app; split].
    + split; [split; simpl; lia | by left].
    + rewrite Forall_forall in *. intros p Hp. split; [by apply Hin|]. right. right.
      destruct (Hf p Hp) as (s & Hx & Hy & HU1 & _). split; [by apply lookup_lt_Some in Hy|].
      intros i Hi. rewrite Hy in Hi. by apply (occ_once s x).
    + apply Forall_singleton. split; [split; simpl; lia | right; by left].
  - constructor.
    + clear Hf. induction Hs as [|p ms Hs IH Hp]; [repeat constructor|]. apply Forall_cons in Hin as [Hp' Hin].
      simpl. constructor; [by apply IH|]. apply Forall_app. split; [|apply Forall_singleton; split; simpl; lia].
      eapply Forall_impl; [exact Hp|]. unfold pair_lt, pair_le. intros. lia.
    + apply Forall_forall. intros p _. split; simpl; lia.
  - by rewrite app_comm_cons, last_snoc.
Qed.
End Anchors.

(** * The theorems *)

Lemma SplitAfter_concat s : foldr String.append "" (SplitAfter s) = s.
Proof.
  induction s as [|c s IH]; [done|]. simpl. case_bool_decide; simpl; [by rewrite IH|].
  destruct (SplitAfter s) as [|l ls]; simpl in *; [by rewrite <- IH|]. by rewrite <- IH.
Qed.

(** The lines of a text spell it. *)
Lemma lines_concat s : foldr String.append "" (lines s) = s.
Proof.
  unfold lines. case_bool_decide as E; [|apply SplitAfter_concat].
  apply last_Some in E as [l El]. transitivity (foldr String.append "" (SplitAfter s)); [|apply SplitAfter_concat].
  rewrite El, length_app. simpl. by rewrite Nat.add_sub, take_app_length, foldr_app.
Qed.

Lemma lines_inj s t : lines s = lines t -> s = t.
Proof. intros E. by rewrite <- (lines_concat s), E, lines_concat. Qed.

(** The hunks of a diff are a patch. The diff never fails, and patching the
    old text's lines with it strictly, every header and every unchanged or
    removed line checked, gives exactly the new text's lines; it is empty exactly
    when the two texts are equal. *)
Theorem diff_is_a_patch old new :
  exists hs, lineDiff old new = Some hs /\ patch 0 0 (lines old) hs = Some (lines new) /\ (hs = [] <-> old = new).
Proof.
  unfold lineDiff. destruct (str_eqb old new) eqn:E; guards; [subst; by exists []|].
  destruct (tgs_anchored (lines old) (lines new)) as (Ha & Hs & Hl).
  destruct (steps_spec (lines old) (lines new) (tgs (lines old) (lines new)) (MkState (0, 0) (0, 0) (0, 0) [] [])%nat) with (2 := Ha) as (s & -> & Hf); try done.
  - constructor; simpl; rewrite ?sl_nil; try done; try lia. exists (0, 0)%nat. split; [constructor | apply same_refl]. split; simpl; lia.
  - apply Forall_forall. intros m _ _. simpl. lia.
  - apply finished_patch in Hf. exists (hunks s). split_and!; [done | done|]. split; [|done].
    intros E0. rewrite E0 in Hf. simpl in Hf. injection Hf as Hf. by apply lines_inj in Hf.
Qed.

(** The diff's anchors are a longest common subsequence of the lines that
    occur once on each side: between its two sentinels, [tgs] returns pairs of
    equal unique lines that go forward on both sides, and no such sequence is
    longer. *)
Theorem anchors_are_longest x y :
  exists ms, tgs x y = (0, 0)%nat :: ms ++ [(length x, length y)] /\ common_run x y ms
    /\ forall ms', common_run x y ms' -> (length ms' <= length ms)%nat.
Proof. apply tgs_spec. Qed.

End LineDiff.
