(* ===== verification/TreePath.v ===== *)
(** Paths inside a backed-up tree ([internal/treebackup/types.go], and the path
    rules of [manifest.go]): the order of manifests, which compares component by
    component so that a directory sorts directly before its contents, and the
    relations between a path and its directories. *)

From Stdlib Require Import Sorted.
From S2P Require Import Prelude Go.

Module TreePath.

(** * Bytes *)

Definition Slash : ascii := "/"%char.

(** The bytes before the first [c] and the bytes after it: [bytes.IndexByte]
    with the two slices around the index. *)
Fixpoint cut (c : ascii) (s : string) : string * option string :=
  match s with
  | EmptyString => ("", None)
  | String d s' =>
    if bool_decide (d = c) then ("", Some s')
    else let '(a, r) := cut c s' in (String d a, r)
  end.

(** [bytes.SplitSeq(p, "/")]. *)
Fixpoint split_fuel (fuel : nat) (c : ascii) (s : string) : list string :=
  match fuel with
  | O => [s]
  | S fuel =>
    match cut c s with
    | (a, Some r) => a :: split_fuel fuel c r
    | (a, None) => [a]
    end
  end.
Definition components (p : bytes) : list string := split_fuel (String.length p) Slash p.

(** [bytes.Compare]. *)
Fixpoint Compare (a b : string) : comparison :=
  match a, b with
  | EmptyString, EmptyString => Eq
  | EmptyString, _ => Lt
  | _, EmptyString => Gt
  | String x a', String y b' =>
    match Nat.compare (nat_of_ascii x) (nat_of_ascii y) with
    | Eq => Compare a' b'
    | c => c
    end
  end.

(** * The functions of [types.go] *)

(** [ComparePaths]: the loop takes a component off both paths each time. *)
Fixpoint compare_loop (fuel : nat) (a b : bytes) : comparison :=
  match fuel with
  | O => Eq
  | S fuel =>
    let '(ca, ra) := cut Slash a in
    let '(cb, rb) := cut Slash b in
    match Compare ca cb with
    | Eq =>
      match ra, rb with
      | None, None => Eq
      | None, Some _ => Lt
      | Some _, None => Gt
      | Some a, Some b => compare_loop fuel a b
      end
    | c => c
    end
  end.
Definition ComparePaths (a b : bytes) : comparison := compare_loop (S (String.length a)) a b.

Definition IsUnder (p dir : bytes) : bool :=
  if is_empty dir then negb (is_empty p)
  else (len dir <? len p)
       && bool_decide (String.get (String.length dir) p = Some Slash)
       && str_eqb (String.substring 0 (String.length dir) p) dir.

(** The path up to its last slash, and what follows it ([bytes.LastIndexByte]). *)
Fixpoint cut_last (s : string) : option (string * string) :=
  match s with
  | EmptyString => None
  | String c s' =>
    match cut_last s' with
    | Some (d, b) => Some (String c d, b)
    | None => if bool_decide (c = Slash) then Some ("", s') else None
    end
  end.

Definition ParentOf (p : bytes) : bytes := match cut_last p with Some (d, _) => d | None => "" end.
Definition BaseName (p : bytes) : bytes := match cut_last p with Some (_, b) => b | None => p end.

Fixpoint count_byte (c : ascii) (s : string) : Z :=
  match s with
  | EmptyString => 0
  | String d s' => (if bool_decide (d = c) then 1 else 0) + count_byte c s'
  end.

Definition Depth (p : bytes) : Z := if is_empty p then 0 else count_byte Slash p + 1.

(** * The rules of [manifest.go] *)

Definition MaxPathCap : Z := 4096.
Definition MaxComponentCap : Z := 1024.
Definition NUL : ascii := "000"%char.

Definition has_byte (c : ascii) (s : string) : bool := match cut c s with (_, Some _) => true | _ => false end.

Definition check_component (c : string) : result unit string :=
  require (negb (is_empty c)) else Err "empty path component" in
  require (negb (str_eqb c "." || str_eqb c "..")) else Err "dot component in path" in
  require (len c <=? MaxComponentCap) else Err "path component longer than 1024 bytes" in
  Ok tt.

Fixpoint check_components (cs : list string) : result unit string :=
  match cs with
  | [] => Ok tt
  | c :: cs' => try _ := check_component c in check_components cs'
  end.

Definition checkPath (p : bytes) (maxLen : Z) : result unit string :=
  require (negb (is_empty p)) else Err "empty path" in
  require (len p <=? maxLen) else Err "path longer than the limit" in
  require (negb (has_byte NUL p)) else Err "NUL in path" in
  check_components (components p).

(** * Lexicographic orders *)

Section Lex.
Context {A : Type} (cmp : A -> A -> comparison).
Context (cmp_eq : forall x y, cmp x y = Eq <-> x = y) (cmp_sym : forall x y, cmp y x = CompOpp (cmp x y))
        (cmp_trans : forall x y z, cmp x y = Lt -> cmp y z = Lt -> cmp x z = Lt).

Fixpoint lex (l k : list A) : comparison :=
  match l, k with
  | [], [] => Eq
  | [], _ => Lt
  | _, [] => Gt
  | x :: l, y :: k => match cmp x y with Eq => lex l k | c => c end
  end.

Lemma cmp_refl x : cmp x x = Eq.
Proof using cmp_eq. by apply cmp_eq. Qed.

Lemma lex_eq l k : lex l k = Eq <-> l = k.
Proof using cmp_eq.
  revert k. induction l as [|x l IH]; intros [|y k]; simpl; try done.
  destruct (cmp x y) eqn:E; [apply cmp_eq in E; subst; rewrite IH; naive_solver | |];
    (split; [done | intros [= -> _]; by rewrite cmp_refl in E]).
Qed.

Lemma lex_sym l k : lex k l = CompOpp (lex l k).
Proof using cmp_sym.
  revert k. induction l as [|x l IH]; intros [|y k]; simpl; try done.
  rewrite (cmp_sym x y). destruct (cmp x y); simpl; auto.
Qed.

Lemma lex_trans l k j : lex l k = Lt -> lex k j = Lt -> lex l j = Lt.
Proof using cmp_eq cmp_trans.
  revert k j. induction l as [|x l IH]; intros [|y k] [|z j]; simpl; try done.
  destruct (cmp x y) eqn:E1; [|destruct (cmp y z) eqn:E2|]; try done.
  - apply cmp_eq in E1 as ->. destruct (cmp y z) eqn:E2; [|done|done]. apply IH.
  - apply cmp_eq in E2 as ->. by rewrite E1.
  - by rewrite (cmp_trans x y z).
Qed.

(** A list comes before its extensions, and what lies between is one too. *)
Lemma lex_extension d c l : lex d (d ++ c :: l) = Lt.
Proof using cmp_eq. induction d as [|x d IH]; simpl; [done|]. by rewrite cmp_refl. Qed.

Lemma lex_between d q r : lex d q <> Gt -> lex q r <> Gt -> d `prefix_of` r -> d `prefix_of` q.
Proof using cmp_eq cmp_sym.
  revert q r. induction d as [|x d IH]; intros q r Hdq Hqr Hp; [apply prefix_nil|].
  destruct Hp as [r' ->]. destruct q as [|y q]; [done|]. simpl in Hdq, Hqr. rewrite (cmp_sym x y) in Hqr.
  destruct (cmp x y) eqn:E; simpl in Hqr; try done. apply cmp_eq in E as ->. apply prefix_cons.
  apply (IH q (d ++ r')); [done | done | by apply prefix_app_r].
Qed.
End Lex.

(** * Byte strings *)

Fixpoint codes (s : string) : list nat :=
  match s with EmptyString => [] | String c s' => nat_of_ascii c :: codes s' end.

Lemma codes_inj s t : codes s = codes t -> s = t.
Proof.
  revert t. induction s as [|c s IH]; intros [|d t]; simpl; try done. intros [= E1 E2].
  apply (f_equal ascii_of_nat) in E1. rewrite !ascii_nat_embedding in E1. by rewrite E1, (IH t).
Qed.

Lemma Compare_lex a b : Compare a b = lex Nat.compare (codes a) (codes b).
Proof. revert b. induction a as [|c a IH]; intros [|d b]; simpl; try done. by case_match. Qed.

Lemma Compare_eq a b : Compare a b = Eq <-> a = b.
Proof.
  rewrite Compare_lex, (lex_eq _ Nat.compare_eq_iff). split; [apply codes_inj | by intros ->].
Qed.

Lemma Compare_sym a b : Compare b a = CompOpp (Compare a b).
Proof. rewrite !Compare_lex. apply lex_sym. intros x y. by rewrite Nat.compare_antisym. Qed.

Lemma Compare_trans a b c : Compare a b = Lt -> Compare b c = Lt -> Compare a c = Lt.
Proof.
  rewrite !Compare_lex. apply lex_trans; [apply Nat.compare_eq_iff|].
  intros x y z. rewrite !Nat.compare_lt_iff. lia.
Qed.

(** * Components *)

Definition free (c : ascii) (s : string) : bool := string_forallb (fun d => negb (bool_decide (d = c))) s.

Lemma free_cons c d s : free c (String d s) = true <-> d <> c /\ free c s = true.
Proof. unfold free. simpl. rewrite andb_true_iff, negb_true_iff, bool_decide_eq_false. done. Qed.

Lemma cut_Some c s a r : cut c s = (a, Some r) <-> s = a +:+ String c r /\ free c a = true.
Proof.
  revert a. induction s as [|d s IH]; intros a; simpl; [split; [done|]; intros [H _]; by destruct a|].
  case_bool_decide as E.
  - subst. split; [by intros [= <- <-]|]. intros [H1 H2].
    destruct a as [|e a]; strs; [by injection H1 as <-|]. injection H1 as <- _. by apply free_cons in H2 as [? _].
  - destruct (cut c s) as [a' r'] eqn:Ec. split.
    + intros [= <- ->]. destruct (proj1 (IH a') eq_refl) as [-> Hf]. by rewrite free_cons.
    + destruct a as [|e a]; intros [H1 H2]; strs; [by injection H1|]. injection H1 as -> ->.
      apply free_cons in H2 as [_ H2]. assert (Hc : (a', r') = (a, Some r)) by (by apply IH). by injection Hc as -> ->.
Qed.

Lemma cut_None c s a : cut c s = (a, None) <-> s = a /\ free c s = true.
Proof.
  revert a. induction s as [|d s IH]; intros a; simpl; [split; [by intros [= <-] | by intros [<- _]]|].
  rewrite free_cons. case_bool_decide as E; [split; [done | naive_solver]|].
  destruct (cut c s) as [a' r'] eqn:Ec. split.
  - intros [= <- ->]. destruct (proj1 (IH a') eq_refl) as [-> Hf]. done.
  - intros (<- & _ & Hf). assert (Hc : (a', r') = (s, None)) by (by apply IH). by injection Hc as -> ->.
Qed.

Lemma split_fuel_enough c : forall n m s, (String.length s <= n)%nat -> (String.length s <= m)%nat ->
  split_fuel n c s = split_fuel m c s.
Proof.
  induction n as [|n IH]; intros m s Hn Hm.
  - destruct s; [|simpl in Hn; lia]. by destruct m.
  - destruct m as [|m]; [destruct s; [done | simpl in Hm; lia]|]. simpl.
    destruct (cut c s) as [a [r|]] eqn:E; [|done]. f_equal.
    apply cut_Some in E as [-> _]. rewrite str_length_app in Hn, Hm. simpl in Hn, Hm. apply IH; lia.
Qed.

Lemma components_one p : free Slash p = true -> components p = [p].
Proof.
  intros Hf. unfold components. destruct (String.length p) eqn:El; [done|]. simpl.
  by rewrite (proj2 (cut_None _ _ p)).
Qed.

Lemma components_cons a r : free Slash a = true -> components (a +:+ String Slash r) = a :: components r.
Proof.
  intros Hf. unfold components at 1. rewrite str_length_app. simpl. rewrite Nat.add_succ_r. simpl.
  rewrite (proj2 (cut_Some _ _ a r)) by done. f_equal. apply split_fuel_enough; lia.
Qed.

Ltac comps := repeat match goal with
  | H : free Slash ?z = true |- _ => first [rewrite (components_cons z) by done | rewrite (components_one z) by done]
  end.

(** Every path is its first component, alone or followed by the rest. *)
Lemma path_cases p :
  free Slash p = true \/ exists a r, p = a +:+ String Slash r /\ free Slash a = true /\ (String.length r < String.length p)%nat.
Proof.
  destruct (cut Slash p) as [a [r|]] eqn:E.
  - apply cut_Some in E as [-> Hf]. right. exists a, r. split_and!; try done. rewrite str_length_app. simpl. lia.
  - apply cut_None in E as [_ Hf]. by left.
Qed.

Lemma path_ind (P : string -> Prop) :
  (forall p, free Slash p = true -> P p) ->
  (forall a r, free Slash a = true -> P r -> P (a +:+ String Slash r)) -> forall p, P p.
Proof.
  intros H1 H2 p. induction p as [p IH] using (induction_ltof1 _ String.length). unfold ltof in IH.
  destruct (path_cases p) as [|(a & r & -> & Hf & Hl)]; auto.
Qed.

Lemma components_app a r : components (a +:+ String Slash r) = components a ++ components r.
Proof.
  revert a. apply path_ind; intros a.
  - intros Hf. by rewrite components_cons, (components_one a).
  - intros b Hf IH. by rewrite str_app_assoc, string_app_cons, !(components_cons a), IH by done.
Qed.

Definition join (cs : list string) : string :=
  match cs with
  | [] => ""
  | c :: cs => foldl (fun s c => s +:+ String Slash c) c cs
  end.

Lemma components_nonempty p : components p <> [].
Proof. revert p. apply path_ind; intros; [by rewrite components_one | by rewrite components_cons]. Qed.

Lemma join_components p : join (components p) = p.
Proof.
  revert p. apply path_ind; intros a.
  - intros Hf. by rewrite components_one.
  - intros r Hf IH. rewrite components_cons by done. simpl. revert IH.
    destruct (components r) as [|c cs] eqn:E; [by apply components_nonempty in E|]. simpl. intros <-.
    clear. revert c. induction cs as [|d cs IH]; intros c; [done|]. simpl. rewrite <- IH. f_equal. by rewrite str_app_assoc, string_app_cons.
Qed.

Lemma components_inj p q : components p = components q -> p = q.
Proof. intros E. by rewrite <- (join_components p), E, join_components. Qed.

Lemma join_app c cs k : k <> [] -> join ((c :: cs) ++ k) = join (c :: cs) +:+ String Slash (join k).
Proof.
  intros Hk. simpl. revert c. induction cs as [|d cs IH]; intros c; simpl; [|apply IH].
  destruct k as [|e k]; [done|]. simpl. clear Hk. revert e. induction k as [|f k IH]; intros e; [done|]. simpl.
  rewrite <- IH. f_equal. by rewrite str_app_assoc, string_app_cons.
Qed.

(** * The order of paths *)

Abbreviation path_lex := (lex Compare) (only parsing).

Lemma compare_loop_lex n : forall a b, (String.length a < n)%nat ->
  compare_loop n a b = path_lex (components a) (components b).
Proof.
  induction n as [|n IH]; intros a b Hn; [lia|]. simpl.
  destruct (cut Slash a) as [ca [ra|]] eqn:Ea; [apply cut_Some in Ea as [-> Ha] | apply cut_None in Ea as [<- Ha]];
  (destruct (cut Slash b) as [cb [rb|]] eqn:Eb; [apply cut_Some in Eb as [-> Hb] | apply cut_None in Eb as [<- Hb]]);
    comps; simpl; destruct (Compare _ _); try done.
  - apply IH. rewrite str_length_app in Hn. simpl in Hn. lia.
  - by destruct (components ra) eqn:E; [apply components_nonempty in E|].
  - by destruct (components rb) eqn:E; [apply components_nonempty in E|].
Qed.

(** [ComparePaths] is the lexicographic order of the components. *)
Lemma ComparePaths_lex a b : ComparePaths a b = path_lex (components a) (components b).
Proof. apply compare_loop_lex. lia. Qed.

Lemma ComparePaths_eq a b : ComparePaths a b = Eq <-> a = b.
Proof. rewrite ComparePaths_lex, (lex_eq _ Compare_eq). split; [apply components_inj | by intros ->]. Qed.

Lemma ComparePaths_sym a b : ComparePaths b a = CompOpp (ComparePaths a b).
Proof. rewrite !ComparePaths_lex. apply lex_sym, Compare_sym. Qed.

Lemma ComparePaths_trans a b c : ComparePaths a b = Lt -> ComparePaths b c = Lt -> ComparePaths a c = Lt.
Proof. rewrite !ComparePaths_lex. apply lex_trans; [apply Compare_eq | apply Compare_trans]. Qed.

(** * Directories and their contents *)

Lemma get_app d c r : String.get (String.length d) (d +:+ String c r) = Some c.
Proof. induction d as [|e d IH]; [done|]. rewrite string_app_cons. simpl. done. Qed.

Lemma IsUnder_spec p d : d <> "" -> IsUnder p d = true <-> exists r, p = d +:+ String Slash r.
Proof.
  intros Hd. unfold IsUnder. rewrite (proj2 (is_empty_false d) Hd), !andb_true_iff. split.
  - intros [[Hl Hg] Hs]. guards. apply substring_prefix in Hs as [r ->]. unfold len in Hl. apply Z.ltb_lt in Hl.
    rewrite str_length_app in Hl. destruct r as [|c r]; [simpl in Hl; lia|].
    rewrite get_app in Hg. injection Hg as ->. by exists r.
  - intros [r ->]. rewrite get_app, bool_decide_eq_true_2 by done. split_and!; [|done|].
    + apply Z.ltb_lt. unfold len. rewrite str_length_app. cbn [String.length]. lia.
    + apply str_eqb_eq, substring_prefix. by eexists.
Qed.

Lemma IsUnder_components p d : d <> "" ->
  IsUnder p d = true <-> exists c cs, components p = components d ++ c :: cs.
Proof.
  intros Hd. rewrite IsUnder_spec by done. split.
  - intros [r ->]. rewrite components_app. destruct (components r) as [|c cs] eqn:E; [by apply components_nonempty in E|].
    by exists c, cs.
  - intros (c & cs & E). exists (join (c :: cs)). rewrite <- (join_components p), E.
    destruct (components d) as [|e es] eqn:Ed; [by apply components_nonempty in Ed|].
    rewrite join_app by done. by rewrite <- Ed, join_components.
Qed.

Lemma cut_last_spec p d b : cut_last p = Some (d, b) <-> p = d +:+ String Slash b /\ free Slash b = true.
Proof.
  assert (HN : forall s, cut_last s = None -> free Slash s = true).
  { induction s as [|c s IH]; simpl; [done|]. destruct (cut_last s) as [[]|]; [done|].
    case_bool_decide; [done|]. intros _. apply free_cons. auto. }
  assert (HF : forall s, free Slash s = true -> cut_last s = None).
  { induction s as [|c s IH]; simpl; [done|]. rewrite free_cons. intros [Hc Hs]. rewrite IH by done. by case_bool_decide. }
  revert d. induction p as [|c p IH]; intros d; simpl; [split; [done|]; intros [H _]; by destruct d|].
  destruct (cut_last p) as [[d' b']|] eqn:E; split.
  - intros [= <- <-]. destruct (proj1 (IH d') eq_refl) as [-> Hf]. done.
  - intros [H Hf]. destruct d as [|e d]; strs; injection H as -> Hp.
    + subst. by rewrite HF in E.
    + assert (Hc : Some (d', b') = Some (d, b)) by (by apply IH). by injection Hc as -> ->.
  - case_bool_decide; [|done]. intros [= <- <-]. subst. split; [done | by apply HN].
  - intros [H Hf]. destruct d as [|e d]; strs; injection H as -> Hp.
    + subst. by rewrite bool_decide_eq_true_2.
    + assert (Hc : None = Some (d, b)) by (by apply IH). done.
Qed.

(** A path is its directory's with one more component. *)
Lemma ParentOf_components p :
  (ParentOf p = "" /\ BaseName p = p /\ free Slash p = true)
  \/ (p = ParentOf p +:+ String Slash (BaseName p) /\ free Slash (BaseName p) = true
     /\ components p = components (ParentOf p) ++ [BaseName p]).
Proof.
  unfold ParentOf, BaseName. destruct (cut_last p) as [[d b]|] eqn:E.
  - apply cut_last_spec in E as [-> Hf]. right. split_and!; [done|done|]. by rewrite components_app, (components_one b).
  - left. split_and!; [done|done|]. destruct (path_cases p) as [|(a & r & Hp & _)]; [done|]. exfalso.
    revert E Hp. clear. revert a r. induction p as [|c p IH]; intros a r E Hp; [by destruct a|]. simpl in E.
    destruct (cut_last p) as [[]|] eqn:Ep; [done|]. case_bool_decide; [done|].
    destruct a; strs; injection Hp as -> Hp; [done|]. by eapply IH.
Qed.

Lemma components_free p : Forall (fun c => free Slash c = true) (components p).
Proof. revert p. apply path_ind; intros; [rewrite components_one by done; by constructor | rewrite components_cons by done; by constructor]. Qed.

(** What lies between a directory and something below it is below it. *)
Lemma between_under d q p : d <> "" ->
  IsUnder p d = true -> ComparePaths d q = Lt -> ComparePaths q p <> Gt -> IsUnder q d = true.
Proof.
  intros Hd (c & cs & E)%IsUnder_components Hdq Hqp; [|done]. rewrite ComparePaths_lex in Hdq, Hqp.
  destruct (lex_between _ Compare_eq Compare_sym (components d) (components q) (components p)) as [k Ek];
    [by rewrite Hdq | done | rewrite E; by apply prefix_app_r|].
  apply IsUnder_components; [done|]. rewrite Ek in Hdq |- *. destruct k as [|c' k]; [|by eexists _, _].
  rewrite app_nil_r in Hdq. by rewrite (proj2 (lex_eq _ Compare_eq _ _) eq_refl) in Hdq.
Qed.

(** Manifests are in pre-order. [ComparePaths] is a strict total order in
    which a directory comes before everything below it and nothing that is not
    below it comes between. *)
Theorem paths_in_preorder :
  (forall a b, ComparePaths a b = Eq <-> a = b)
  /\ (forall a b, ComparePaths b a = CompOpp (ComparePaths a b))
  /\ (forall a b c, ComparePaths a b = Lt -> ComparePaths b c = Lt -> ComparePaths a c = Lt)
  /\ (forall d p, d <> "" -> IsUnder p d = true -> ComparePaths d p = Lt
        /\ forall q, ComparePaths d q = Lt -> ComparePaths q p = Lt -> IsUnder q d = true).
Proof.
  split_and!; [apply ComparePaths_eq | apply ComparePaths_sym | apply ComparePaths_trans|].
  intros d p Hd Hu. split.
  - apply IsUnder_components in Hu as (c & cs & E); [|done]. rewrite ComparePaths_lex, E.
    apply lex_extension, Compare_eq.
  - intros q H1 H2. apply (between_under d q p); try done. by rewrite H2.
Qed.

End TreePath.
