(* ===== verification/ManifestCodec.v ===== *)
(** The JSON lines of tree-backup manifests
    ([internal/treebackup/manifest.go]): the encoder's strings and numbers, the
    strict scanner that reads them back, and the entry line. A scanner is the
    rest of its line; the offset its errors carry is left out of their text. *)

From S2P Require Import Prelude Go TreePath.

Module ManifestCodec.

(** [base64.StdEncoding]: decoding undoes encoding, and the encoding is plain
    ASCII without quotes or backslashes, of at most four bytes for every two. *)
Class StdBase64 := {
  std_encode : bytes -> string;
  std_decode : string -> option bytes;
  std_round : forall b, std_decode (std_encode b) = Some b;
  std_size : forall b, (String.length (std_encode b) <= 2 * String.length b + 4)%nat;
  std_plain : forall b, string_forallb (fun c => (32 <=? byte_val c) && (byte_val c <? 127)
                          && negb (bool_decide (c = "034"%char)) && negb (bool_decide (c = "\"%char))) (std_encode b) = true
}.

(** * Encoding *)

Definition quote : ascii := "034"%char.
Definition backslash : ascii := "\"%char.

(** [hexdig[i]]. *)
Definition hexdig (i : Z) : ascii :=
  ascii_of_nat (Z.to_nat (if i <? 10 then 48 + i else 87 + i)).

(** The bytes of [b] as the loop of [appendJSONString] writes them. *)
Fixpoint escape (b : string) : string :=
  match b with
  | EmptyString => ""
  | String c b' =>
    if bool_decide (c = quote) || bool_decide (c = backslash) then String backslash (String c (escape b'))
    else if byte_val c <? 32 then
      "\u00" +:+ String (hexdig (byte_val c / 16)) (String (hexdig (byte_val c mod 16)) (escape b'))
    else
      match b' with
      | String c1 (String c2 b2) =>
        if (byte_val c =? 226) && (byte_val c1 =? 128) && ((byte_val c2 =? 168) || (byte_val c2 =? 169))
        then "\u202" +:+ String (hexdig (byte_val c2 mod 16)) (escape b2)
        else String c (escape b')
      | _ => String c (escape b')
      end
  end.

Definition appendJSONString (buf b : bytes) : bytes :=
  buf +:+ String quote (escape b) +:+ String quote "".

(** [utf8.Valid]: no step of the decoder is the one-byte error. *)
Definition utf8_Valid (b : bytes) : bool :=
  forallb (fun rb => negb ((rb.1 =? RuneError) && (String.length rb.2 =? 1)%nat)) (chunks b).

Section Encode.
Context `{StdBase64}.

Definition appendBytesField (buf : bytes) (key : string) (b : bytes) : bytes :=
  if utf8_Valid b then appendJSONString (buf +:+ String quote key +:+ String quote ":") b
  else buf +:+ String quote key +:+ "_b64" +:+ String quote ":" +:+ String quote (std_encode b) +:+ String quote "".
End Encode.

Definition appendKey (buf : bytes) (comma : bool) (key : string) : bytes :=
  (if comma then buf +:+ "," else buf) +:+ String quote key +:+ String quote ":".

Definition digit (d : Z) : ascii := ascii_of_nat (Z.to_nat (48 + d)).

(** [strconv.AppendUint(_, v, 10)]; 20 digits hold a [uint64]. *)
Fixpoint uint_digits (fuel : nat) (v : Z) (acc : string) : string :=
  match fuel with
  | O => acc
  | S fuel =>
    let acc := String (digit (v mod 10)) acc in
    if v <? 10 then acc else uint_digits fuel (v / 10) acc
  end.
Definition format_uint (v : Z) : string := uint_digits 20 v "".
Definition format_int (v : Z) : string := if v <? 0 then String "-" (format_uint (- v)) else format_uint v.

Definition appendUintField (buf : bytes) (key : string) (v : Z) : bytes := appendKey buf true key +:+ format_uint v.
Definition appendIntField (buf : bytes) (key : string) (v : Z) : bytes := appendKey buf true key +:+ format_int v.
Definition appendStrField (buf : bytes) (key v : string) : bytes := appendJSONString (appendKey buf true key) v.
Definition appendBoolField (buf : bytes) (key : string) (v : bool) : bytes :=
  appendKey buf true key +:+ (if v then "true" else "false").

(** * Scanning *)

Definition scan (A : Type) : Type := string -> result (A * string) string.

Definition consume (c : ascii) (s : string) : bool * string :=
  match s with
  | String d s' => if bool_decide (d = c) then (true, s') else (false, s)
  | EmptyString => (false, s)
  end.

Definition expect (c : ascii) : scan unit := fun s =>
  match consume c s with (true, s) => Ok (tt, s) | _ => Err ("want " +:+ String c "") end.

Definition literal (lit s : string) : bool * string :=
  if HasPrefix s lit then (true, drop_bytes (String.length lit) s) else (false, s).

Definition scan_end (s : string) : result unit string := if is_empty s then Ok tt else Err "trailing data".

(** One hexadecimal digit of [strconv.ParseUint(_, 16, 32)]. *)
Definition hex_val (c : ascii) : option Z :=
  let b := byte_val c in
  if (48 <=? b) && (b <=? 57) then Some (b - 48)
  else if (97 <=? b) && (b <=? 102) then Some (b - 87)
  else if (65 <=? b) && (b <=? 70) then Some (b - 55)
  else None.

Definition hex4 : scan Z := fun s =>
  match s with
  | String a (String b (String c (String d s'))) =>
    match hex_val a, hex_val b, hex_val c, hex_val d with
    | Some a, Some b, Some c, Some d => Ok (((a * 16 + b) * 16 + c) * 16 + d, s')
    | _, _, _, _ => Err "bad \u escape"
    end
  | _ => Err "short \u escape"
  end.

(** The escape after a backslash: the bytes it stands for. *)
Definition unescape (c : ascii) : scan string := fun s =>
  let one (z : nat) := Ok (String (ascii_of_nat z) "", s) in
  if bool_decide (c ∈ [quote; backslash; "/"%char]) then Ok (String c "", s)
  else if bool_decide (c = "b"%char) then one 8%nat
  else if bool_decide (c = "f"%char) then one 12%nat
  else if bool_decide (c = "n"%char) then one 10%nat
  else if bool_decide (c = "r"%char) then one 13%nat
  else if bool_decide (c = "t"%char) then one 9%nat
  else if bool_decide (c = "u"%char) then
    try (r, s) := hex4 s in
    if (55296 <=? r) && (r <? 56320) then
      match literal "\u" s with
      | (false, _) => Err "lone surrogate"
      | (true, s) =>
        try (lo, s) := hex4 s in
        require (negb ((lo <? 56320) || (57344 <=? lo))) else Err "lone surrogate" in
        Ok (encode_rune (65536 + (r - 55296) * 1024 + (lo - 56320)), s)
      end
    else if (56320 <=? r) && (r <? 57344) then Err "lone surrogate"
    else Ok (encode_rune r, s)
  else Err "bad escape".

(** The loop of [str], up to the closing quote; every turn takes a byte. *)
Fixpoint str_loop (fuel : nat) (out s : string) : result (string * string) string :=
  match fuel, s with
  | S fuel, String c s' =>
    if bool_decide (c = quote) then
      (if utf8_Valid out then Ok (out, s') else Err "string is not valid UTF-8")
    else if byte_val c <? 32 then Err "control byte in string"
    else if negb (bool_decide (c = backslash)) then str_loop fuel (out +:+ String c "") s'
    else
      match s' with
      | EmptyString => Err "unterminated escape"
      | String c s' =>
        try (b, s') := unescape c s' in
        str_loop fuel (out +:+ b) s'
      end
  | _, _ => Err "unterminated string"
  end.

Definition str : scan string := fun s =>
  try (_, s) := expect quote s in
  str_loop (String.length s) "" s.

Definition is_digit (c : ascii) : bool := (48 <=? byte_val c) && (byte_val c <=? 57).

(** The longest run of digits. *)
Fixpoint span_digits (s : string) : string * string :=
  match s with
  | String c s' => if is_digit c then let '(d, r) := span_digits s' in (String c d, r) else ("", s)
  | EmptyString => ("", "")
  end.

Definition digits : scan string := fun s =>
  let '(d, s) := span_digits s in
  require (negb (is_empty d)) else Err "want a number" in
  require (negb ((1 <? len d) && HasPrefix d "0")) else Err "leading zero" in
  Ok (d, s).

(** The value of a run of digits, before the range check of [strconv]. *)
Fixpoint dec_val (d : string) (acc : Z) : Z :=
  match d with EmptyString => acc | String c d' => dec_val d' (acc * 10 + (byte_val c - 48)) end.

Definition scan_uint : scan Z := fun s =>
  try (d, s) := digits s in
  require (dec_val d 0 <? 2 ^ 64) else Err "number out of range" in
  Ok (dec_val d 0, s).

Definition scan_int : scan Z := fun s =>
  let '(neg, s) := consume "-" s in
  try (d, s) := digits s in
  require (negb (neg && str_eqb d "0")) else Err "negative zero" in
  let v := if neg then - dec_val d 0 else dec_val d 0 in
  require ((min_int64 <=? v) && (v <=? max_int64)) else Err "number out of range" in
  Ok (v, s).

Definition nonneg : scan Z := fun s =>
  try (v, s) := scan_int s in
  require (0 <=? v) else Err "negative number" in
  Ok (v, s).

Definition boolean : scan bool := fun s =>
  match literal "true" s with
  | (true, s) => Ok (true, s)
  | _ => match literal "false" s with
         | (true, s) => Ok (false, s)
         | _ => Err "want a boolean"
         end
  end.

(** The first index of a name. *)
Fixpoint index_of (k : string) (keys : list string) : option nat :=
  match keys with
  | [] => None
  | name :: keys => if str_eqb k name then Some O else S <$> index_of k keys
  end.

(** The loop of [object]: [field k st] scans the value of key [k] into [st]. Every
    turn takes at least the comma. *)
Fixpoint object_loop {S : Type} (fuel : nat) (keys : list string) (field : nat -> S -> scan S)
    (st : S) (seen : Z) (s : string) : result (S * Z * string) string :=
  match fuel with
  | O => Err "unterminated object"
  | Datatypes.S fuel =>
    try (kb, s) := str s in
    match index_of kb keys with
    | None => Err "unknown field"
    | Some k =>
      require (negb (Z.testbit seen (Z.of_nat k))) else Err "duplicate field" in
      let seen := Z.lor seen (Z.shiftl 1 (Z.of_nat k)) in
      try (_, s) := expect ":" s in
      try (st, s) := field k st s in
      match consume "," s with
      | (true, s) => object_loop fuel keys field st seen s
      | (false, s) => try (_, s) := expect "}" s in Ok (st, seen, s)
      end
    end
  end.

Definition object {S : Type} (keys : list string) (field : nat -> S -> scan S) (st : S) (s : string)
    : result (S * Z * string) string :=
  try (_, s) := expect "{" s in
  match consume "}" s with
  | (true, s) => Ok (st, 0, s)
  | (false, s) => object_loop (Datatypes.S (String.length s)) keys field st 0 s
  end.

(** The loop of [array]. *)
Fixpoint array_loop {A : Type} (fuel : nat) (elem : scan A) (acc : list A) (s : string) : result (list A * string) string :=
  match fuel with
  | O => Err "unterminated array"
  | S fuel =>
    try (a, s) := elem s in
    match consume "," s with
    | (true, s) => array_loop fuel elem (acc ++ [a]) s
    | (false, s) => try (_, s) := expect "]" s in Ok (acc ++ [a], s)
    end
  end.

Definition array {A : Type} (elem : scan A) : scan (list A) := fun s =>
  try (_, s) := expect "[" s in
  match consume "]" s with
  | (true, s) => Ok ([], s)
  | (false, s) => array_loop (S (String.length s)) elem [] s
  end.

Section Base64.
Context `{StdBase64}.

Definition scan_b64 : scan bytes := fun s =>
  try (enc, s) := str s in
  match std_decode enc with
  | None => Err "bad base64"
  | Some b =>
    require (str_eqb (std_encode b) enc) else Err "bad base64" in
    require (negb (utf8_Valid b)) else Err "base64 of valid UTF-8 bytes" in
    Ok (b, s)
  end.
End Base64.

Definition has (seen : Z) (k : nat) : bool := Z.testbit seen (Z.of_nat k).

Fixpoint require_from (seen : Z) (keys : list string) (k n : nat) : result unit string :=
  match n, keys with
  | S n, key :: keys => if has seen k then require_from seen keys (S k) n else Err ("missing field " +:+ key)
  | _, _ => Ok tt
  end.
Definition requireAll (seen : Z) (keys : list string) (n : nat) : result unit string := require_from seen keys 0 n.

(** * Strings come back *)

Lemma byte_val_inj c d : byte_val c = byte_val d -> c = d.
Proof. unfold byte_val. intros E%Nat2Z.inj. apply (f_equal ascii_of_nat) in E. by rewrite !ascii_nat_embedding in E. Qed.

Lemma hex_val_hexdig i : 0 <= i < 16 -> hex_val (hexdig i) = Some i.
Proof.
  intros Hi. unfold hexdig, hex_val. rewrite byte_val_of_nat by (destruct (i <? 10); lia).
  destruct (Z.ltb_spec i 10); zcases; cbn [andb]; f_equal; lia.
Qed.

Lemma encode_rune_byte c : byte_val c < 128 -> encode_rune (byte_val c) = String c "".
Proof.
  intros Hc. pose proof (byte_val_range c). unfold encode_rune.
  replace ((byte_val c <? 0) || (1114111 <? byte_val c) || ((55296 <=? byte_val c) && (byte_val c <=? 57343))) with false by lia.
  replace (byte_val c <? 128) with true by lia. unfold byte_val. by rewrite Nat2Z.id, ascii_nat_embedding.
Qed.

(** [\u] and four digits. *)
Lemma unescape_u a b c d s (va vb vc vd : Z) :
  hex_val a = Some va -> hex_val b = Some vb -> hex_val c = Some vc -> hex_val d = Some vd ->
  let r := ((va * 16 + vb) * 16 + vc) * 16 + vd in
  r < 55296 -> unescape "u" (String a (String b (String c (String d s)))) = Ok (encode_rune r, s).
Proof.
  intros Ha Hb Hc Hd r Hr. unfold unescape. rewrite bool_decide_eq_false_2 by (vm_compute; set_solver).
  simpl. rewrite Ha, Hb, Hc, Hd. fold r. simpl.
  replace (55296 <=? r) with false by lia. by replace (56320 <=? r) with false by lia.
Qed.

Lemma str_loop_plain fuel out c s :
  c <> quote -> 32 <= byte_val c -> c <> backslash ->
  str_loop (S fuel) out (String c s) = str_loop fuel (out +:+ String c "") s.
Proof.
  intros Hq H32 Hb. simpl. rewrite !bool_decide_eq_false_2 by done. by replace (byte_val c <? 32) with false by lia.
Qed.

Lemma str_loop_unescape fuel out c s b s' :
  unescape c s = Ok (b, s') ->
  str_loop (S fuel) out (String backslash (String c s)) = str_loop fuel (out +:+ b) s'.
Proof. intros E. simpl. by rewrite E. Qed.

(** The closing quote is found after any escaped text, which comes back. *)
Lemma str_loop_escape b : forall fuel out rest,
  (String.length (escape b +:+ String quote rest) <= fuel)%nat -> utf8_Valid (out +:+ b) = true ->
  str_loop fuel out (escape b +:+ String quote rest) = Ok (out +:+ b, rest).
Proof.
  induction b as [b IH] using (induction_ltof1 _ String.length). unfold ltof in IH.
  intros fuel out rest Hf Hv. destruct b as [|c b'].
  { cbn [escape] in *. strs. simpl in Hf. destruct fuel as [|fuel]; [lia|]. simpl. by rewrite Hv. }
  assert (Hnext : forall x b2 fuel, String c b' = x +:+ b2 -> (String.length b2 <= String.length b')%nat ->
    (String.length (escape b2 +:+ String quote rest) <= fuel)%nat ->
    str_loop fuel (out +:+ x) (escape b2 +:+ String quote rest) = Ok (out +:+ String c b', rest)).
  { intros x b2 fuel' Ex Hl Hf'. rewrite Ex in Hv |- *. rewrite IH; rewrite ?str_app_assoc; simpl; done || lia. }
  pose proof (byte_val_range c) as Hr. cbn [escape] in *.
  destruct (bool_decide (c = quote) || bool_decide (c = backslash)) eqn:E1.
  { strs. destruct fuel as [|fuel]; [simpl in Hf; lia|].
    rewrite (str_loop_unescape _ _ c _ (String c "") (escape b' +:+ String quote rest)).
    - apply Hnext; [done | done | simpl in Hf; lia].
    - unfold unescape. rewrite bool_decide_eq_true_2; [done|].
      apply orb_true_iff in E1 as [->%bool_decide_eq_true| ->%bool_decide_eq_true]; set_solver. }
  apply orb_false_iff in E1 as [Hq%bool_decide_eq_false Hb%bool_decide_eq_false].
  destruct (Z.ltb_spec (byte_val c) 32) as [Hc|Hc].
  { strs. destruct fuel as [|fuel]; [simpl in Hf; lia|].
    rewrite (str_loop_unescape _ _ "u"%char _ (String c "") (escape b' +:+ String quote rest)).
    - apply Hnext; [done | done | simpl in Hf; lia].
    - rewrite (unescape_u _ _ _ _ _ 0 0 (byte_val c / 16) (byte_val c mod 16)).
      + replace (((0 * 16 + 0) * 16 + byte_val c / 16) * 16 + byte_val c mod 16) with (byte_val c)
          by (pose proof (Z.div_mod (byte_val c) 16); lia). by rewrite encode_rune_byte by lia.
      + done.
      + done.
      + apply hex_val_hexdig. split; [apply Z.div_pos | apply Z.div_lt_upper_bound]; lia.
      + apply hex_val_hexdig, Z.mod_pos_bound. lia.
      + pose proof (Z.div_mod (byte_val c) 16). lia. }
  assert (Hplain : (String.length (String c (escape b') +:+ String quote rest) <= fuel)%nat ->
    str_loop fuel out (String c (escape b') +:+ String quote rest) = Ok (out +:+ String c b', rest)).
  { intros Hf'. strs. destruct fuel as [|fuel]; [simpl in Hf'; lia|]. rewrite str_loop_plain by done.
    apply Hnext; [done | done | simpl in Hf'; lia]. }
  destruct b' as [|c1 [|c2 b2]]; [by apply Hplain..|].
  destruct ((byte_val c =? 226) && _ && _) eqn:E3; [|by apply Hplain].
  apply andb_prop in E3 as [[E0%Z.eqb_eq E1%Z.eqb_eq]%andb_prop E2]. strs.
  destruct fuel as [|fuel]; [simpl in Hf; lia|].
  assert (Hc0 : c = ascii_of_nat 226) by (apply byte_val_inj; by rewrite E0).
  assert (Hc1 : c1 = ascii_of_nat 128) by (apply byte_val_inj; by rewrite E1).
  assert (Hc2 : c2 = ascii_of_nat 168 \/ c2 = ascii_of_nat 169).
  { apply orb_true_iff in E2 as [E2%Z.eqb_eq|E2%Z.eqb_eq]; [left|right]; apply byte_val_inj; by rewrite E2. }
  rewrite (str_loop_unescape _ _ "u"%char _ (String c (String c1 (String c2 ""))) (escape b2 +:+ String quote rest)).
  - apply Hnext; [done | simpl; lia | simpl in Hf; lia].
  - subst c c1. destruct Hc2 as [-> | ->]; reflexivity.
Qed.

(** An encoded string is scanned back, whatever follows it. *)
Lemma str_round b rest : utf8_Valid b = true -> str (String quote (escape b +:+ String quote rest)) = Ok (b, rest).
Proof. intros Hv. unfold str, expect. simpl. by rewrite str_loop_escape. Qed.

(** * Numbers come back *)

(** What may follow a value: nothing a number could go on with. *)
Definition stops (rest : string) : Prop :=
  match rest with String c _ => is_digit c = false | EmptyString => True end.

Definition uint64_range (v : Z) : Prop := 0 <= v < 2 ^ 64.

Lemma digit_val d : 0 <= d < 10 -> byte_val (digit d) = 48 + d.
Proof. intros Hd. unfold digit. by rewrite byte_val_of_nat by lia. Qed.

Lemma digit_is d : 0 <= d < 10 -> is_digit (digit d) = true.
Proof. intros Hd. unfold is_digit. rewrite digit_val by done. lia. Qed.

Lemma forallb_app f (a b : string) : string_forallb f (a +:+ b) = string_forallb f a && string_forallb f b.
Proof. induction a as [|c a IH]; [done|]. strs. simpl. by rewrite IH, andb_assoc. Qed.

Lemma dec_val_snoc d c a : dec_val (d +:+ String c "") a = dec_val d a * 10 + (byte_val c - 48).
Proof. revert a. induction d as [|e d IH]; intros a; [done|]. strs. simpl. apply IH. Qed.

(** The digits of a number: they spell it and have no leading zero. *)
Record spells (d : string) (v : Z) : Prop := MkSpells {
  sp_digits : string_forallb is_digit d = true;
  sp_nonempty : d <> "";
  sp_val : dec_val d 0 = v;
  sp_zero : forall r, d = String "0" r -> r = ""
}.

Lemma uint_digits_spells fuel : forall v acc, 0 <= v < 10 ^ Z.of_nat fuel -> (0 < fuel)%nat ->
  exists d, uint_digits fuel v acc = d +:+ acc /\ spells d v.
Proof.
  induction fuel as [|fuel IH]; intros v acc Hv Hf; [lia|]. cbn [uint_digits].
  destruct (Z.ltb_spec v 10) as [Hs|Hb].
  - rewrite Z.mod_small by lia. exists (String (digit v) ""). split; [done|]. constructor; [| done | |].
    + simpl. by rewrite digit_is by lia.
    + simpl. rewrite digit_val by lia. lia.
    + by intros r [= _ <-].
  - assert (Hq : 1 <= v / 10 < 10 ^ Z.of_nat fuel).
    { split; [apply Z.div_le_lower_bound; lia|]. apply Z.div_lt_upper_bound; [lia|].
      rewrite Nat2Z.inj_succ, Z.pow_succ_r in Hv by lia. lia. }
    assert (Hpos : (0 < fuel)%nat) by (destruct fuel; [simpl in Hq; lia | lia]).
    destruct (IH (v / 10) (String (digit (v mod 10)) acc) ltac:(lia) Hpos) as (d & -> & [H1 H2 H3 H4]).
    exists (d +:+ String (digit (v mod 10)) ""). rewrite str_app_assoc. split; [done|].
    pose proof (Z.mod_pos_bound v 10 ltac:(lia)). constructor.
    + rewrite forallb_app, H1. simpl. by rewrite digit_is.
    + by destruct d.
    + rewrite dec_val_snoc, H3, digit_val by done. pose proof (Z.div_mod v 10). lia.
    + destruct d as [|c d]; [done|]. strs. intros r [= -> <-].
      rewrite (H4 d eq_refl) in H3. vm_compute (dec_val _ _) in H3. lia.
Qed.

Lemma format_uint_spells v : uint64_range v -> spells (format_uint v) v.
Proof.
  intros Hv. destruct (uint_digits_spells 20 v "") as (d & E & H); [unfold uint64_range in Hv; lia | lia|].
  unfold format_uint. by rewrite E, str_app_nil.
Qed.

Lemma span_digits_app d rest : string_forallb is_digit d = true -> stops rest -> span_digits (d +:+ rest) = (d, rest).
Proof.
  intros Hd Hs. induction d as [|c d IH]; strs.
  - destruct rest as [|c rest]; [done|]. simpl in *. by rewrite Hs.
  - simpl in *. apply andb_prop in Hd as [-> Hd]. by rewrite IH.
Qed.

Lemma digits_spells d v rest : spells d v -> stops rest -> digits (d +:+ rest) = Ok (d, rest).
Proof.
  intros [H1 H2 H3 H4] Hs. unfold digits. rewrite span_digits_app by done.
  rewrite (proj2 (is_empty_false d) H2). cbn [negb]. destruct (HasPrefix d "0") eqn:E; [|by rewrite andb_false_r].
  apply HasPrefix_spec in E as [r Er]. rewrite string_app_cons, string_app_nil in Er. by rewrite (H4 r Er) in Er; subst.
Qed.

Lemma uint_round v rest : uint64_range v -> stops rest -> scan_uint (format_uint v +:+ rest) = Ok (v, rest).
Proof.
  intros Hv Hs. pose proof (format_uint_spells v Hv) as Hd. unfold scan_uint.
  rewrite (digits_spells _ _ _ Hd Hs). simpl. rewrite (sp_val _ _ Hd). unfold uint64_range in Hv.
  by replace (v <? 2 ^ 64) with true by lia.
Qed.

Lemma consume_digit d rest c : string_forallb is_digit d = true -> d <> "" -> is_digit c = false ->
  consume c (d +:+ rest) = (false, d +:+ rest).
Proof.
  intros Hd Hne Hc. destruct d as [|e d]; [done|]. strs. simpl in *. apply andb_prop in Hd as [He _].
  rewrite bool_decide_eq_false_2; [done|]. intros ->. congruence.
Qed.

Lemma int_round v rest : int64_range v -> stops rest -> scan_int (format_int v +:+ rest) = Ok (v, rest).
Proof.
  unfold int64_range, min_int64, max_int64. intros Hv Hs. unfold scan_int, format_int.
  destruct (Z.ltb_spec v 0) as [Hn|Hn].
  - pose proof (format_uint_spells (- v) ltac:(unfold uint64_range; lia)) as Hd. strs. simpl.
    rewrite (digits_spells _ _ _ Hd Hs). cbn [res_bind]. rewrite (sp_val _ _ Hd).
    destruct (str_eqb _ "0") eqn:E; guards.
    + pose proof (sp_val _ _ Hd) as E'. rewrite E in E'. vm_compute (dec_val _ _) in E'. lia.
    + cbn [negb andb]. unfold min_int64, max_int64. replace ((- 2 ^ 63 <=? - - v) && (- - v <=? 2 ^ 63 - 1)) with true by lia.
      by rewrite Z.opp_involutive.
  - pose proof (format_uint_spells v ltac:(unfold uint64_range; lia)) as Hd.
    rewrite consume_digit; [|apply Hd|apply Hd|done]. rewrite (digits_spells _ _ _ Hd Hs). cbn [res_bind andb negb].
    rewrite (sp_val _ _ Hd). unfold min_int64, max_int64. by replace ((- 2 ^ 63 <=? v) && (v <=? 2 ^ 63 - 1)) with true by lia.
Qed.

Lemma nonneg_round v rest : 0 <= v <= max_int64 -> stops rest -> nonneg (format_int v +:+ rest) = Ok (v, rest).
Proof.
  intros Hv Hs. unfold nonneg. rewrite int_round; [|unfold int64_range, min_int64 in *; lia | done]. simpl.
  by replace (0 <=? v) with true by lia.
Qed.

Lemma literal_app lit rest : literal lit (lit +:+ rest) = (true, rest).
Proof. unfold literal. by rewrite HasPrefix_app, drop_bytes_app. Qed.

Lemma boolean_round b rest : boolean ((if b : bool then "true" else "false") +:+ rest) = Ok (b, rest).
Proof. destruct b; unfold boolean; [by rewrite literal_app|]. by rewrite (literal_app "false"). Qed.

(** * Objects and arrays come back *)

(** What may follow a value inside an object or an array. *)
Definition closes (rest : string) : Prop :=
  match rest with String c _ => c = ","%char \/ c = "}"%char \/ c = "]"%char | EmptyString => False end.

Lemma closes_stops rest : closes rest -> stops rest.
Proof. destruct rest as [|c rest]; [done|]. by intros [->|[-> | ->]]. Qed.

(** One member: its key and the bytes of its value. *)
Definition member (keys : list string) (kv : nat * string) : string :=
  String quote (default "" (keys !! kv.1)) +:+ String quote ":" +:+ kv.2.

Lemma member_app keys k name v r : keys !! k = Some name ->
  member keys (k, v) +:+ r = String quote (name +:+ String quote (String ":" (v +:+ r))).
Proof. intros E. unfold member. cbn [fst snd]. rewrite E. simpl default. by rewrite !string_app_cons, !str_app_assoc, !string_app_cons, string_app_nil. Qed.

(** The members after the first one, each with its comma. *)
Definition members_tail (keys : list string) (fs : list (nat * string)) : string :=
  foldr (fun kv s => String "," (member keys kv) +:+ s) "" fs.
Definition members (keys : list string) (fs : list (nat * string)) : string :=
  match fs with [] => "" | kv :: fs => member keys kv +:+ members_tail keys fs end.

(** A key that is found at its place and scanned as it is. *)
Definition plain_key (keys : list string) (k : nat) : Prop :=
  match keys !! k with
  | Some name => index_of name keys = Some k /\ escape name = name /\ utf8_Valid name = true
  | None => False
  end.

Section Run.
Context {S : Type} (keys : list string) (field : nat -> S -> scan S).

(** The members, scanned one after the other from [st]. *)
Inductive run : S -> list (nat * string) -> S -> Prop :=
| run_nil st : run st [] st
| run_cons st k v st1 fs st2 :
    plain_key keys k -> (forall rest, closes rest -> field k st (v +:+ rest) = Ok (st1, rest)) ->
    run st1 fs st2 -> run st ((k, v) :: fs) st2.

Lemma members_run_app st fs st1 gs st2 : run st fs st1 -> run st1 gs st2 -> run st (fs ++ gs) st2.
Proof. induction 1; [done|]. intros Hg. simpl. econstructor; eauto. Qed.

Lemma run_one st k v st1 :
  plain_key keys k -> (forall rest, closes rest -> field k st (v +:+ rest) = Ok (st1, rest)) -> run st [(k, v)] st1.
Proof. intros H1 H2. econstructor; [done|done|constructor]. Qed.

Definition mask (seen : Z) (fs : list (nat * string)) : Z :=
  foldl (fun m kv => Z.lor m (Z.shiftl 1 (Z.of_nat kv.1))) seen fs.

Lemma has_lor seen k j : has (Z.lor seen (Z.shiftl 1 (Z.of_nat k))) j = has seen j || bool_decide (k = j).
Proof.
  unfold has. rewrite Z.lor_spec. f_equal. rewrite Z.shiftl_spec by lia.
  destruct (bool_decide (k = j)) eqn:E; guards.
  - subst. by rewrite Z.sub_diag.
  - destruct (Z.of_nat j - Z.of_nat k) eqn:Ed; [lia | by destruct p | done].
Qed.

Lemma object_loop_run fs : forall st st2 seen fuel rest, fs <> [] ->
  run st fs st2 -> NoDup fs.*1 -> Forall (fun kv => has seen kv.1 = false) fs -> (length fs <= fuel)%nat ->
  object_loop fuel keys field st seen (members keys fs +:+ String "}" rest) = Ok (st2, mask seen fs, rest).
Proof.
  induction fs as [|[k v] fs IH]; intros st st2 seen fuel rest Hne Hr Hnd Hseen Hf; [done|]. clear Hne.
  inversion Hr as [|? ? ? st1 ? ? Hk Hfield Hr']; subst. rewrite fmap_cons in Hnd. apply NoDup_cons in Hnd as [Hnk Hnd].
  apply Forall_cons in Hseen as [Hs Hseen]. destruct fuel as [|fuel]; [simpl in Hf; lia|]. cbn [members object_loop].
  unfold plain_key in Hk. cbn [fst snd] in *. destruct (keys !! k) as [name|] eqn:Ek; [|done].
  destruct Hk as (Hi & He & Hu). rewrite str_app_assoc, (member_app _ _ name) by done. rewrite <- He at 1.
  rewrite str_round by done. cbn [res_bind]. rewrite Hi. unfold has in Hs. rewrite Hs. cbn [negb].
  unfold expect at 1. cbn [consume]. rewrite bool_decide_eq_true_2 by done. cbn [res_bind].
  destruct fs as [|[k2 v2] fs].
  - cbn [members_tail foldr]. strs. inversion Hr'; subst. rewrite Hfield by (simpl; auto). cbn [res_bind consume].
    rewrite bool_decide_eq_false_2 by done. unfold expect. cbn [consume]. by rewrite bool_decide_eq_true_2.
  - assert (Htail : members_tail keys ((k2, v2) :: fs) +:+ String "}" rest
        = String "," (members keys ((k2, v2) :: fs) +:+ String "}" rest)).
    { cbn [members_tail members foldr]. by rewrite !string_app_cons, !str_app_assoc. }
    rewrite Htail, Hfield by (simpl; auto). cbn [res_bind consume]. rewrite bool_decide_eq_true_2 by done.
    apply IH; [done | done | done | | simpl in *; lia].
    rewrite Forall_forall in Hseen. apply Forall_forall. intros kv Hin. rewrite has_lor, (Hseen kv Hin). simpl.
    apply bool_decide_eq_false_2. intros ->. apply Hnk. by apply list_elem_of_fmap_2.
Qed.

Lemma members_length fs : (length fs <= String.length (members keys fs))%nat.
Proof.
  assert (H : forall fs, (length fs <= String.length (members_tail keys fs))%nat).
  { intros l. induction l as [|kv fs' IH]; [simpl; lia|]. cbn [members_tail foldr length]. rewrite string_app_cons. cbn [String.length].
    rewrite str_length_app. fold (members_tail keys fs'). lia. }
  destruct fs as [|kv fs]; [simpl; lia|]. cbn [members length]. rewrite str_length_app. specialize (H fs).
  unfold member. rewrite string_app_cons. cbn [String.length]. lia.
Qed.

Lemma object_run st fs st2 rest : run st fs st2 -> NoDup fs.*1 ->
  object keys field st (String "{" (members keys fs +:+ String "}" rest)) = Ok (st2, mask 0 fs, rest).
Proof.
  intros Hr Hnd. unfold object, expect. cbn [consume]. rewrite bool_decide_eq_true_2 by done. cbn [res_bind].
  destruct fs as [|[k v] fs].
  - cbn [members]. strs. cbn [consume]. rewrite bool_decide_eq_true_2 by done. by inversion Hr.
  - assert (Hc : forall x, consume "}" (members keys ((k, v) :: fs) +:+ x) = (false, members keys ((k, v) :: fs) +:+ x)) by done.
    rewrite Hc. apply object_loop_run; [done | done | done | |].
    + apply Forall_forall. intros kv _. unfold has. apply Z.testbit_0_l.
    + rewrite str_length_app. pose proof (members_length ((k, v) :: fs)). lia.
Qed.
End Run.

Lemma run_if {S} keys (field : nat -> S -> scan S) (c : bool) st fs st' :
  (c = true -> run keys field st fs st') -> (c = false -> st = st') -> run keys field st (if c then fs else []) st'.
Proof. destruct c; intros H1 H2; [auto|]. rewrite H2 by done. constructor. Qed.

(** The mask depends on the keys only. *)
Definition key_mask (ks : list nat) : Z := foldl (fun m k => Z.lor m (Z.shiftl 1 (Z.of_nat k))) 0 ks.

Lemma mask_keys fs : mask 0 fs = key_mask fs.*1.
Proof.
  unfold mask, key_mask. generalize 0. induction fs as [|kv fs IH]; intros m; [done|]. simpl. apply IH.
Qed.

(** * The encoder's members *)

(** A JSON string, and a base64 one. *)
Definition jstr (b : bytes) : string := String quote (escape b +:+ String quote "").

Lemma str_jstr b rest : utf8_Valid b = true -> str (jstr b +:+ rest) = Ok (b, rest).
Proof. intros Hv. unfold jstr. rewrite string_app_cons, str_app_assoc, string_app_cons, string_app_nil. by apply str_round. Qed.

(** Appending members after the first one. *)
Definition app_members (keys : list string) (buf : bytes) (fs : list (nat * string)) : bytes :=
  buf +:+ members_tail keys fs.

Lemma app_members_app keys buf fs gs : app_members keys (app_members keys buf fs) gs = app_members keys buf (fs ++ gs).
Proof.
  unfold app_members. rewrite str_app_assoc. f_equal. induction fs as [|kv fs IH]; [done|]. simpl members_tail.
  by rewrite !string_app_cons, !str_app_assoc, IH.
Qed.

Lemma app_members_if keys buf (c : bool) fs :
  (if c then app_members keys buf fs else buf) = app_members keys buf (if c then fs else []).
Proof. destruct c; [done|]. unfold app_members. simpl. by rewrite str_app_nil. Qed.

Lemma app_member keys k name buf v : keys !! k = Some name ->
  app_members keys buf [(k, v)] = ((buf +:+ ",") +:+ String quote name +:+ String quote ":") +:+ v.
Proof.
  intros E. unfold app_members. cbn [members_tail foldr]. unfold member. cbn [fst snd]. rewrite E. simpl default.
  by rewrite ?str_app_nil, ?str_app_assoc, ?string_app_cons, ?string_app_nil, ?str_app_assoc, ?string_app_cons, ?string_app_nil.
Qed.

Lemma appendStrField_member keys k name buf v : keys !! k = Some name ->
  appendStrField buf name v = app_members keys buf [(k, jstr v)].
Proof. intros E. rewrite (app_member _ _ name) by done. reflexivity. Qed.

Lemma appendUintField_member keys k name buf v : keys !! k = Some name ->
  appendUintField buf name v = app_members keys buf [(k, format_uint v)].
Proof. intros E. by rewrite (app_member _ _ name) by done. Qed.

Lemma appendIntField_member keys k name buf v : keys !! k = Some name ->
  appendIntField buf name v = app_members keys buf [(k, format_int v)].
Proof. intros E. by rewrite (app_member _ _ name) by done. Qed.

Lemma appendBoolField_member keys k name buf v : keys !! k = Some name ->
  appendBoolField buf name v = app_members keys buf [(k, if v then "true" else "false")].
Proof. intros E. by rewrite (app_member _ _ name) by done. Qed.

(** Strings of plain ASCII are encoded as they are. *)
Definition plain (s : string) : bool :=
  string_forallb (fun c => (32 <=? byte_val c) && (byte_val c <? 127)
    && negb (bool_decide (c = quote)) && negb (bool_decide (c = backslash))) s.

Lemma plain_escape s : plain s = true -> escape s = s.
Proof.
  induction s as [|c s IH]; [done|]. unfold plain. cbn [string_forallb escape]. intros [H Hs]%andb_prop. guards.
  rewrite !bool_decide_eq_false_2 by done. cbn [orb]. replace (byte_val c <? 32) with false by lia.
  rewrite (IH Hs). destruct s as [|c1 [|c2 s]]; try done. by replace (byte_val c =? 226) with false by lia.
Qed.

Lemma plain_utf8 s : plain s = true -> utf8_Valid s = true.
Proof.
  intros Hp. unfold utf8_Valid. induction s as [|c s IH]; [done|]. unfold plain in Hp. cbn [string_forallb] in Hp.
  apply andb_prop in Hp as [H Hs]. guards. rewrite chunks_cons. unfold decode_rune.
  replace (byte_val c <? 128) with true by lia. cbn [forallb fst snd]. rewrite (IH Hs).
  replace (byte_val c =? RuneError) with false by (unfold RuneError; lia). done.
Qed.

Section Base64Members.
Context `{StdBase64}.

Definition b64str (b : bytes) : string := String quote (std_encode b +:+ String quote "").

Lemma scan_b64_round b rest : utf8_Valid b = false -> scan_b64 (b64str b +:+ rest) = Ok (b, rest).
Proof.
  intros Hv. assert (Hp : plain (std_encode b) = true) by apply std_plain.
  unfold scan_b64. replace (b64str b) with (jstr (std_encode b)) by (unfold jstr, b64str; by rewrite plain_escape).
  rewrite str_jstr by (by apply plain_utf8). cbn [res_bind]. by rewrite std_round, str_eqb_refl, Hv.
Qed.

(** [appendBytesField]: under the key, or under the [_b64] key that follows it. *)
Definition bytes_member (k : nat) (b : bytes) : nat * string :=
  if utf8_Valid b then (k, jstr b) else (S k, b64str b).

Lemma appendBytesField_member keys k name buf b : keys !! k = Some name -> keys !! S k = Some (name +:+ "_b64") ->
  appendBytesField (buf +:+ ",") name b = app_members keys buf [bytes_member k b].
Proof.
  intros E1 E2. unfold appendBytesField, bytes_member. destruct (utf8_Valid b).
  - rewrite (app_member _ _ name) by done. reflexivity.
  - rewrite (app_member _ _ (name +:+ "_b64")) by done. unfold b64str.
    by rewrite ?str_app_assoc, ?string_app_cons, ?str_app_assoc, ?string_app_cons, ?string_app_nil, ?str_app_assoc, ?string_app_cons.
Qed.

Lemma appendBytesField_first keys k name b : keys !! k = Some name -> keys !! S k = Some (name +:+ "_b64") ->
  appendBytesField "" name b = members keys [bytes_member k b].
Proof.
  intros E1 E2. unfold appendBytesField, bytes_member, members, member. destruct (utf8_Valid b); cbn [fst snd members_tail foldr].
  - rewrite E1. simpl default. unfold appendJSONString, jstr. by rewrite ?string_app_nil, ?str_app_nil, ?str_app_assoc.
  - rewrite E2. simpl default. unfold b64str.
    by rewrite ?string_app_nil, ?str_app_nil, ?string_app_cons, ?str_app_assoc, ?string_app_cons.
Qed.
End Base64Members.

End ManifestCodec.
