(* ===== verification/ManifestEntry.v ===== *)
(** One entry line of a tree-backup manifest ([internal/treebackup/types.go],
    [manifest.go]): its encoding, its strict decoding, and the rules its fields
    obey. *)

From S2P Require Import Prelude Go TreePath ManifestCodec.

Module ManifestEntry.
Import TreePath ManifestCodec.

(** * Entries *)

Definition TypeDir : string := "dir".
Definition TypeFile : string := "file".
Definition TypeLink : string := "link".
Definition TypeUnknown : string := "unknown".
Definition AllTypes : list string := [TypeDir; TypeFile; TypeLink; "fifo"; "socket"; "char"; "block"; TypeUnknown].

Definition StateOK : string := "".
Definition StateUnreadable : string := "unreadable".
Definition StateUnstable : string := "unstable".
Definition StateListingUnstable : string := "listing-unstable".
Definition StateTooBig : string := "too-big".
Definition StateSkipped : string := "skipped".
Definition StateMount : string := "mount".
Definition StateExcluded : string := "excluded".
Definition StateSecret : string := "secret".
Definition StateTruncated : string := "truncated".
Definition AllStates : list string :=
  [StateUnreadable; "changed"; StateUnstable; StateListingUnstable; StateTooBig; StateSkipped; "dataless";
   StateMount; StateExcluded; StateSecret; StateTruncated].

Definition SkippedReasons : list string := ["read"; "time"; "disk"; "interrupted"; "new"].
Definition TruncatedReasons : list string :=
  ["entries"; "manifest"; "dir-entries"; "depth"; "path"; "time"; "interrupted"; "disk"].

Definition ListingUnreadable : string := "unreadable".

Record Entry := MkEntry {
  e_Path : bytes;
  e_Type_ : string;
  e_HasMeta : bool;
  e_Mode : Z;
  e_Size : Z;
  e_Mtime : Z;
  e_Ctime : Z;
  e_Dev : Z;
  e_Ino : Z;
  e_Nlink : Z;
  e_SHA256 : string;
  e_Verified : Z;
  e_Target : bytes;
  e_HasTarget : bool;
  e_State : string;
  e_Reason : string;
  e_Listing : string
}.

Definition zeroEntry : Entry := MkEntry "" "" false 0 0 0 0 0 0 0 "" 0 "" false "" "" "".

(** The assignments [e.Field = v]. *)
Definition set_Path (path_ : bytes) (e : Entry) : Entry :=
  MkEntry path_ (e_Type_ e) (e_HasMeta e) (e_Mode e) (e_Size e) (e_Mtime e) (e_Ctime e) (e_Dev e) (e_Ino e) (e_Nlink e) (e_SHA256 e) (e_Verified e) (e_Target e) (e_HasTarget e) (e_State e) (e_Reason e) (e_Listing e).
Definition set_Type_ (type__ : string) (e : Entry) : Entry :=
  MkEntry (e_Path e) type__ (e_HasMeta e) (e_Mode e) (e_Size e) (e_Mtime e) (e_Ctime e) (e_Dev e) (e_Ino e) (e_Nlink e) (e_SHA256 e) (e_Verified e) (e_Target e) (e_HasTarget e) (e_State e) (e_Reason e) (e_Listing e).
Definition set_HasMeta (hasmeta_ : bool) (e : Entry) : Entry :=
  MkEntry (e_Path e) (e_Type_ e) hasmeta_ (e_Mode e) (e_Size e) (e_Mtime e) (e_Ctime e) (e_Dev e) (e_Ino e) (e_Nlink e) (e_SHA256 e) (e_Verified e) (e_Target e) (e_HasTarget e) (e_State e) (e_Reason e) (e_Listing e).
Definition set_Mode (mode_ : Z) (e : Entry) : Entry :=
  MkEntry (e_Path e) (e_Type_ e) (e_HasMeta e) mode_ (e_Size e) (e_Mtime e) (e_Ctime e) (e_Dev e) (e_Ino e) (e_Nlink e) (e_SHA256 e) (e_Verified e) (e_Target e) (e_HasTarget e) (e_State e) (e_Reason e) (e_Listing e).
Definition set_Size (size_ : Z) (e : Entry) : Entry :=
  MkEntry (e_Path e) (e_Type_ e) (e_HasMeta e) (e_Mode e) size_ (e_Mtime e) (e_Ctime e) (e_Dev e) (e_Ino e) (e_Nlink e) (e_SHA256 e) (e_Verified e) (e_Target e) (e_HasTarget e) (e_State e) (e_Reason e) (e_Listing e).
Definition set_Mtime (mtime_ : Z) (e : Entry) : Entry :=
  MkEntry (e_Path e) (e_Type_ e) (e_HasMeta e) (e_Mode e) (e_Size e) mtime_ (e_Ctime e) (e_Dev e) (e_Ino e) (e_Nlink e) (e_SHA256 e) (e_Verified e) (e_Target e) (e_HasTarget e) (e_State e) (e_Reason e) (e_Listing e).
Definition set_Ctime (ctime_ : Z) (e : Entry) : Entry :=
  MkEntry (e_Path e) (e_Type_ e) (e_HasMeta e) (e_Mode e) (e_Size e) (e_Mtime e) ctime_ (e_Dev e) (e_Ino e) (e_Nlink e) (e_SHA256 e) (e_Verified e) (e_Target e) (e_HasTarget e) (e_State e) (e_Reason e) (e_Listing e).
Definition set_Dev (dev_ : Z) (e : Entry) : Entry :=
  MkEntry (e_Path e) (e_Type_ e) (e_HasMeta e) (e_Mode e) (e_Size e) (e_Mtime e) (e_Ctime e) dev_ (e_Ino e) (e_Nlink e) (e_SHA256 e) (e_Verified e) (e_Target e) (e_HasTarget e) (e_State e) (e_Reason e) (e_Listing e).
Definition set_Ino (ino_ : Z) (e : Entry) : Entry :=
  MkEntry (e_Path e) (e_Type_ e) (e_HasMeta e) (e_Mode e) (e_Size e) (e_Mtime e) (e_Ctime e) (e_Dev e) ino_ (e_Nlink e) (e_SHA256 e) (e_Verified e) (e_Target e) (e_HasTarget e) (e_State e) (e_Reason e) (e_Listing e).
Definition set_Nlink (nlink_ : Z) (e : Entry) : Entry :=
  MkEntry (e_Path e) (e_Type_ e) (e_HasMeta e) (e_Mode e) (e_Size e) (e_Mtime e) (e_Ctime e) (e_Dev e) (e_Ino e) nlink_ (e_SHA256 e) (e_Verified e) (e_Target e) (e_HasTarget e) (e_State e) (e_Reason e) (e_Listing e).
Definition set_SHA256 (sha256_ : string) (e : Entry) : Entry :=
  MkEntry (e_Path e) (e_Type_ e) (e_HasMeta e) (e_Mode e) (e_Size e) (e_Mtime e) (e_Ctime e) (e_Dev e) (e_Ino e) (e_Nlink e) sha256_ (e_Verified e) (e_Target e) (e_HasTarget e) (e_State e) (e_Reason e) (e_Listing e).
Definition set_Verified (verified_ : Z) (e : Entry) : Entry :=
  MkEntry (e_Path e) (e_Type_ e) (e_HasMeta e) (e_Mode e) (e_Size e) (e_Mtime e) (e_Ctime e) (e_Dev e) (e_Ino e) (e_Nlink e) (e_SHA256 e) verified_ (e_Target e) (e_HasTarget e) (e_State e) (e_Reason e) (e_Listing e).
Definition set_Target (target_ : bytes) (hastarget_ : bool) (e : Entry) : Entry :=
  MkEntry (e_Path e) (e_Type_ e) (e_HasMeta e) (e_Mode e) (e_Size e) (e_Mtime e) (e_Ctime e) (e_Dev e) (e_Ino e) (e_Nlink e) (e_SHA256 e) (e_Verified e) target_ hastarget_ (e_State e) (e_Reason e) (e_Listing e).
Definition set_State (state_ : string) (e : Entry) : Entry :=
  MkEntry (e_Path e) (e_Type_ e) (e_HasMeta e) (e_Mode e) (e_Size e) (e_Mtime e) (e_Ctime e) (e_Dev e) (e_Ino e) (e_Nlink e) (e_SHA256 e) (e_Verified e) (e_Target e) (e_HasTarget e) state_ (e_Reason e) (e_Listing e).
Definition set_Reason (reason_ : string) (e : Entry) : Entry :=
  MkEntry (e_Path e) (e_Type_ e) (e_HasMeta e) (e_Mode e) (e_Size e) (e_Mtime e) (e_Ctime e) (e_Dev e) (e_Ino e) (e_Nlink e) (e_SHA256 e) (e_Verified e) (e_Target e) (e_HasTarget e) (e_State e) reason_ (e_Listing e).
Definition set_Listing (listing_ : string) (e : Entry) : Entry :=
  MkEntry (e_Path e) (e_Type_ e) (e_HasMeta e) (e_Mode e) (e_Size e) (e_Mtime e) (e_Ctime e) (e_Dev e) (e_Ino e) (e_Nlink e) (e_SHA256 e) (e_Verified e) (e_Target e) (e_HasTarget e) (e_State e) (e_Reason e) listing_.

(** * Encoding *)

Section Codec.
Context `{StdBase64}.

Definition EncodeEntry (buf : bytes) (e : Entry) : bytes :=
  let buf := buf +:+ "{" in
  let buf := appendBytesField buf "path" (e_Path e) in
  let buf := appendStrField buf "type" (e_Type_ e) in
  let buf := if e_HasMeta e then
      let buf := appendUintField buf "mode" (e_Mode e) in
      let buf := appendIntField buf "size" (e_Size e) in
      let buf := appendIntField buf "mtime" (e_Mtime e) in
      let buf := appendIntField buf "ctime" (e_Ctime e) in
      let buf := appendUintField buf "dev" (e_Dev e) in
      let buf := appendUintField buf "ino" (e_Ino e) in
      appendUintField buf "nlink" (e_Nlink e)
    else buf in
  let buf := if negb (is_empty (e_SHA256 e)) then
      appendIntField (appendStrField buf "sha256" (e_SHA256 e)) "verified" (e_Verified e)
    else buf in
  let buf := if e_HasTarget e then appendBytesField (buf +:+ ",") "target" (e_Target e) else buf in
  let buf := if negb (str_eqb (e_State e) StateOK) then appendStrField buf "state" (e_State e) else buf in
  let buf := if negb (is_empty (e_Reason e)) then appendStrField buf "reason" (e_Reason e) else buf in
  let buf := if negb (is_empty (e_Listing e)) then appendStrField buf "listing" (e_Listing e) else buf in
  buf +:+ "}" +:+ String "010" "".

(** * Decoding *)

Definition entryKeys : list string :=
  ["path"; "path_b64"; "type"; "mode"; "size"; "mtime"; "ctime"; "dev"; "ino"; "nlink";
   "sha256"; "verified"; "target"; "target_b64"; "state"; "reason"; "listing"].

(** [validSum]: 64 lowercase hexadecimal digits. *)
Definition validSum (s : string) : bool := (len s =? 64) && string_forallb is_lower_hex s.

(** The closure [decodeEntry] gives to [object]. *)
Definition entry_field (k : nat) (e : Entry) : scan Entry := fun s =>
  match k with
  | 0%nat => try (v, s) := str s in Ok (set_Path v e, s)
  | 1%nat => try (v, s) := scan_b64 s in Ok (set_Path v e, s)
  | 2%nat => try (v, s) := str s in Ok (set_Type_ v e, s)
  | 3%nat => try (v, s) := scan_uint s in
         require (v <=? 4095) else Err "mode has more than 12 bits" in
         Ok (set_Mode v e, s)
  | 4%nat => try (v, s) := nonneg s in Ok (set_Size v e, s)
  | 5%nat => try (v, s) := scan_int s in Ok (set_Mtime v e, s)
  | 6%nat => try (v, s) := scan_int s in Ok (set_Ctime v e, s)
  | 7%nat => try (v, s) := scan_uint s in Ok (set_Dev v e, s)
  | 8%nat => try (v, s) := scan_uint s in Ok (set_Ino v e, s)
  | 9%nat => try (v, s) := scan_uint s in Ok (set_Nlink v e, s)
  | 10%nat => try (v, s) := str s in
          require (validSum v) else Err "bad sha256" in
          Ok (set_SHA256 v e, s)
  | 11%nat => try (v, s) := nonneg s in Ok (set_Verified v e, s)
  | 12%nat => try (v, s) := str s in Ok (set_Target v true e, s)
  | 13%nat => try (v, s) := scan_b64 s in Ok (set_Target v true e, s)
  | 14%nat => try (v, s) := str s in
          require (negb (str_eqb v StateOK)) else Err "empty state" in
          Ok (set_State v e, s)
  | 15%nat => try (v, s) := str s in
          require (negb (is_empty v)) else Err "empty reason" in
          Ok (set_Reason v e, s)
  | 16%nat => try (v, s) := str s in
          require (negb (is_empty v)) else Err "empty listing" in
          Ok (set_Listing v e, s)
  | _ => Ok (e, s)
  end.

Definition metaKeys : Z := Z.lor (Z.shiftl 1 3) (Z.lor (Z.shiftl 1 4) (Z.lor (Z.shiftl 1 5) (Z.lor (Z.shiftl 1 6)
  (Z.lor (Z.shiftl 1 7) (Z.lor (Z.shiftl 1 8) (Z.shiftl 1 9)))))).

Definition decodeEntry (line : bytes) : result Entry string :=
  try (r, s) := object entryKeys entry_field zeroEntry line in
  let '(e, seen) := r in
  try _ := scan_end s in
  require (negb (Bool.eqb (has seen 0) (has seen 1))) else Err "want exactly one of path and path_b64" in
  require (has seen 2) else Err "missing field type" in
  try e := (let m := Z.land seen metaKeys in
            if m =? metaKeys then Ok (set_HasMeta true e)
            else if m =? 0 then Ok e else Err "incomplete metadata") in
  require (Bool.eqb (has seen 10) (has seen 11)) else Err "sha256 and verified must appear together" in
  require (negb (has seen 12 && has seen 13)) else Err "both target and target_b64" in
  Ok e.

(** * The rules of an entry *)

Definition clearsComplete (s : string) : bool := str_eqb s StateTruncated || str_eqb s StateSkipped.

Definition validType (t : string) : bool := bool_decide (t ∈ AllTypes).
Definition validState (s : string) : bool := bool_decide (s ∈ AllStates).

Definition reasonAllowed (s r : string) : bool :=
  bool_decide (r ∈ (if str_eqb s StateSkipped then SkippedReasons
                    else if str_eqb s StateTruncated then TruncatedReasons else [])).

(** The only type a state can have, where there is one. *)
Definition stateTypes : list (string * string) :=
  [(StateUnstable, TypeFile); (StateTooBig, TypeFile); (StateSkipped, TypeFile); (StateSecret, TypeFile);
   (StateListingUnstable, TypeDir); (StateTruncated, TypeDir)].

Definition state_type_ok (s t : string) : bool :=
  forallb (fun st => negb (str_eqb st.1 s) || str_eqb st.2 t) stateTypes.

Definition MaxTargetCap : Z := 4096.

Definition checkEntryFields (e : Entry) : result unit string :=
  let st := e_State e in
  require (validType (e_Type_ e)) else Err "unknown type" in
  require (str_eqb st StateOK || validState st) else Err "unknown state" in
  require (state_type_ok st (e_Type_ e)) else Err "state on a wrong type" in
  require (negb (str_eqb (e_Type_ e) TypeFile && str_eqb st StateOK && (negb (e_HasMeta e) || is_empty (e_SHA256 e))))
    else Err "file with no state and no content" in
  require (negb (str_eqb st StateSecret && is_empty (e_SHA256 e))) else Err "secret without sha256" in
  require (negb (str_eqb (e_Type_ e) TypeUnknown && negb (str_eqb st StateUnreadable)))
    else Err "type unknown without state unreadable" in
  try _ := (if clearsComplete st then
              require (reasonAllowed st (e_Reason e)) else Err "state with a reason it does not allow" in Ok tt
            else require (is_empty (e_Reason e)) else Err "reason without state skipped or truncated" in Ok tt) in
  require (negb (e_HasMeta e && negb (Z.land (e_Mode e) (Z.lnot 4095) =? 0))) else Err "mode has more than 12 bits" in
  require (negb (e_HasMeta e && (e_Size e <? 0))) else Err "negative size" in
  try _ := (if negb (is_empty (e_SHA256 e)) then
              require (str_eqb (e_Type_ e) TypeFile) else Err "sha256 on a non-file" in
              require (validSum (e_SHA256 e)) else Err "bad sha256" in
              require (str_eqb st StateOK || str_eqb st StateUnstable || str_eqb st StateSecret)
                else Err "sha256 with a state that has none" in
              require (0 <=? e_Verified e) else Err "negative verified time" in Ok tt
            else Ok tt) in
  try _ := (if e_HasTarget e then
              require (str_eqb (e_Type_ e) TypeLink) else Err "target on a non-link" in
              require (len (e_Target e) <=? MaxTargetCap) else Err "link target longer than 4096 bytes" in
              require (negb (has_byte NUL (e_Target e))) else Err "NUL in link target" in Ok tt
            else require (negb (str_eqb (e_Type_ e) TypeLink && str_eqb st StateOK))
              else Err "link without a target or a state" in Ok tt) in
  if negb (is_empty (e_Listing e)) then
    require (str_eqb (e_Listing e) ListingUnreadable) else Err "unknown listing" in
    require (str_eqb (e_Type_ e) TypeDir) else Err "listing on a non-directory" in Ok tt
  else Ok tt.

(** * Entries come back *)

(** The members of an entry's line. *)
Definition entry_members (e : Entry) : list (nat * string) :=
  bytes_member 0 (e_Path e) ::
  [(2%nat, jstr (e_Type_ e))]
  ++ (if e_HasMeta e then
        [(3%nat, format_uint (e_Mode e)); (4%nat, format_int (e_Size e)); (5%nat, format_int (e_Mtime e));
         (6%nat, format_int (e_Ctime e)); (7%nat, format_uint (e_Dev e)); (8%nat, format_uint (e_Ino e));
         (9%nat, format_uint (e_Nlink e))] else [])
  ++ (if negb (is_empty (e_SHA256 e)) then [(10%nat, jstr (e_SHA256 e)); (11%nat, format_int (e_Verified e))] else [])
  ++ (if e_HasTarget e then [bytes_member 12 (e_Target e)] else [])
  ++ (if negb (str_eqb (e_State e) StateOK) then [(14%nat, jstr (e_State e))] else [])
  ++ (if negb (is_empty (e_Reason e)) then [(15%nat, jstr (e_Reason e))] else [])
  ++ (if negb (is_empty (e_Listing e)) then [(16%nat, jstr (e_Listing e))] else []).

Definition newline : string := String "010" "".

Lemma meta_members buf e :
  appendUintField (appendUintField (appendUintField (appendIntField (appendIntField (appendIntField
    (appendUintField buf "mode" (e_Mode e)) "size" (e_Size e)) "mtime" (e_Mtime e)) "ctime" (e_Ctime e))
    "dev" (e_Dev e)) "ino" (e_Ino e)) "nlink" (e_Nlink e)
  = app_members entryKeys buf
      [(3%nat, format_uint (e_Mode e)); (4%nat, format_int (e_Size e)); (5%nat, format_int (e_Mtime e));
       (6%nat, format_int (e_Ctime e)); (7%nat, format_uint (e_Dev e)); (8%nat, format_uint (e_Ino e));
       (9%nat, format_uint (e_Nlink e))].
Proof.
  by rewrite (appendUintField_member entryKeys 3 "mode"), (appendIntField_member entryKeys 4 "size"),
    (appendIntField_member entryKeys 5 "mtime"), (appendIntField_member entryKeys 6 "ctime"),
    (appendUintField_member entryKeys 7 "dev"), (appendUintField_member entryKeys 8 "ino"),
    (appendUintField_member entryKeys 9 "nlink"), !app_members_app by done.
Qed.

Lemma sum_members buf e :
  appendIntField (appendStrField buf "sha256" (e_SHA256 e)) "verified" (e_Verified e)
  = app_members entryKeys buf [(10%nat, jstr (e_SHA256 e)); (11%nat, format_int (e_Verified e))].
Proof. by rewrite (appendStrField_member entryKeys 10 "sha256"), (appendIntField_member entryKeys 11 "verified"), app_members_app by done. Qed.

Lemma EncodeEntry_members buf e :
  EncodeEntry buf e = buf +:+ String "{" (members entryKeys (entry_members e) +:+ String "}" newline).
Proof.
  assert (H0 : appendBytesField (buf +:+ "{") "path" (e_Path e)
               = buf +:+ String "{" (members entryKeys [bytes_member 0 (e_Path e)])).
  { rewrite <- (appendBytesField_first _ _ "path") by done. unfold appendBytesField.
    destruct (utf8_Valid _); unfold appendJSONString; by rewrite ?str_app_assoc, ?string_app_nil. }
  unfold EncodeEntry. rewrite H0. cbv zeta.
  rewrite (appendStrField_member entryKeys 2 "type") by done.
  rewrite meta_members, app_members_if, sum_members, app_members_if by done.
  rewrite (appendBytesField_member entryKeys 12 "target"), app_members_if by done.
  rewrite (appendStrField_member entryKeys 14 "state"), app_members_if by done.
  rewrite (appendStrField_member entryKeys 15 "reason"), app_members_if by done.
  rewrite (appendStrField_member entryKeys 16 "listing"), app_members_if by done.
  rewrite !app_members_app. unfold app_members, entry_members. cbn [members].
  change (members_tail entryKeys []) with "". rewrite str_app_nil, !str_app_assoc, string_app_cons. done.
Qed.

(** What the encoder may be given: fields within their width, absent fields
    zero, texts that are UTF-8. *)
Record codec_wf (e : Entry) : Prop := MkCodecWf {
  wf_mode : 0 <= e_Mode e <= 4095;
  wf_size : 0 <= e_Size e <= max_int64;
  wf_times : int64_range (e_Mtime e) /\ int64_range (e_Ctime e);
  wf_dev : uint64_range (e_Dev e) /\ uint64_range (e_Ino e) /\ uint64_range (e_Nlink e);
  wf_nometa : e_HasMeta e = false ->
    (e_Mode e, e_Size e, e_Mtime e, e_Ctime e, e_Dev e, e_Ino e, e_Nlink e) = (0, 0, 0, 0, 0, 0, 0);
  wf_sum : e_SHA256 e <> "" -> validSum (e_SHA256 e) = true;
  wf_verified : 0 <= e_Verified e <= max_int64 /\ (e_SHA256 e = "" -> e_Verified e = 0);
  wf_target : e_HasTarget e = false -> e_Target e = "";
  wf_texts : utf8_Valid (e_Type_ e) = true /\ utf8_Valid (e_State e) = true /\ utf8_Valid (e_Reason e) = true
    /\ utf8_Valid (e_Listing e) = true
}.

Lemma hex_plain s : string_forallb is_lower_hex s = true -> plain s = true.
Proof.
  unfold plain. induction s as [|c s IH]; [done|]. cbn [string_forallb]. intros [Hc Hs]%andb_prop. rewrite (IH Hs), andb_true_r.
  clear -Hc. unfold is_lower_hex, in_range in Hc.
  assert (Hv : 48 <= byte_val c <= 57 \/ 97 <= byte_val c <= 102).
  { unfold byte_val. change (nat_of_ascii "0") with 48%nat in Hc. change (nat_of_ascii "9") with 57%nat in Hc.
    change (nat_of_ascii "a") with 97%nat in Hc. change (nat_of_ascii "f") with 102%nat in Hc.
    apply orb_prop in Hc as [[H1%Nat.leb_le H2%Nat.leb_le]%andb_prop|[H1%Nat.leb_le H2%Nat.leb_le]%andb_prop]; lia. }
  rewrite !andb_true_iff, !negb_true_iff, !bool_decide_eq_false. split_and!; try lia;
    intros E; apply (f_equal byte_val) in E; change (byte_val quote) with 34 in E; change (byte_val backslash) with 92 in E; lia.
Qed.

Lemma validSum_utf8 s : validSum s = true -> utf8_Valid s = true.
Proof. unfold validSum. intros [_ Hs]%andb_prop. by apply plain_utf8, hex_plain. Qed.

Ltac entry_step := intros rest Hr; cbn [entry_field];
  first [ rewrite str_jstr by done | rewrite scan_b64_round by done | rewrite uint_round by (done || by apply closes_stops)
        | rewrite int_round by (done || by apply closes_stops) | rewrite nonneg_round by (done || by apply closes_stops) ];
  cbn [res_bind].

Ltac one := apply run_one; [by vm_compute | entry_step].

Lemma run_entry e : codec_wf e ->
  run entryKeys entry_field zeroEntry (entry_members e) (set_HasMeta false e).
Proof.
  intros [Hmo Hsz [Hmt Hct] (Hde & Hin & Hnl) Hnm Hsu [Hve Hve0] Hta (Hty & Hst & Hre & Hli)].
  destruct e as [path type hm mode size mtime ctime dev ino nlink sum ver target ht state reason listing].
  cbn [e_Path e_Type_ e_HasMeta e_Mode e_Size e_Mtime e_Ctime e_Dev e_Ino e_Nlink e_SHA256 e_Verified e_Target
    e_HasTarget e_State e_Reason e_Listing] in *.
  unfold entry_members, set_HasMeta. cbn [e_Path e_Type_ e_HasMeta e_Mode e_Size e_Mtime e_Ctime e_Dev e_Ino e_Nlink
    e_SHA256 e_Verified e_Target e_HasTarget e_State e_Reason e_Listing].
  pose (E := MkEntry path type false mode size mtime ctime dev ino nlink).
  change (bytes_member 0 path :: ?l) with ([bytes_member 0 path] ++ l).
  apply (members_run_app _ _ _ _ (MkEntry path "" false 0 0 0 0 0 0 0 "" 0 "" false "" "" "")).
  { unfold bytes_member. destruct (utf8_Valid path) eqn:Ev; one; done. }
  apply (members_run_app _ _ _ _ (MkEntry path type false 0 0 0 0 0 0 0 "" 0 "" false "" "" "")); [one; done|].
  apply (members_run_app _ _ _ _ (E "" 0 "" false "" "" "")).
  { apply run_if; intros Hh; [|by injection (Hnm Hh) as -> -> -> -> -> -> ->].
    assert (Hmo' : uint64_range mode) by (unfold uint64_range; lia).
    do 7 (econstructor; [by vm_compute | entry_step; try replace (mode <=? 4095) with true by lia; reflexivity |]).
    unfold E. constructor. }
  apply (members_run_app _ _ _ _ (E sum ver "" false "" "" "")).
  { apply run_if; intros Hs%negb_true_iff || intros Hs%negb_false_iff; guards; [|by rewrite Hs, Hve0].
    specialize (Hsu Hs). pose proof (validSum_utf8 _ Hsu) as Hu.
    do 2 (econstructor; [by vm_compute | entry_step; rewrite ?Hsu; reflexivity |]). unfold E. constructor. }
  apply (members_run_app _ _ _ _ (E sum ver target ht "" "" "")).
  { apply run_if; intros Hh; [|by rewrite Hh, Hta].
    unfold bytes_member. destruct (utf8_Valid target) eqn:Ev; one; by rewrite Hh. }
  apply (members_run_app _ _ _ _ (E sum ver target ht state "" "")).
  { apply run_if; intros Hh; [one; by rewrite Hh | by guards; rewrite Hh]. }
  apply (members_run_app _ _ _ _ (E sum ver target ht state reason "")).
  { apply run_if; intros Hh; [one; by rewrite Hh | by guards; rewrite Hh]. }
  apply run_if; intros Hh; [one; by rewrite Hh | by guards; rewrite Hh].
Qed.

(** The keys of a line, and what [decodeEntry] asks of them. *)
Definition entry_ks (up hm hs ht ut st re li : bool) : list nat :=
  [(if up then 0 else 1); 2]%nat ++ (if hm then [3; 4; 5; 6; 7; 8; 9] else [])%nat ++ (if hs then [10; 11] else [])%nat
  ++ (if ht then [(if ut then 12 else 13)] else [])%nat ++ (if st then [14] else [])%nat
  ++ (if re then [15] else [])%nat ++ (if li then [16] else [])%nat.

Lemma entry_members_keys e :
  (entry_members e).*1 = entry_ks (utf8_Valid (e_Path e)) (e_HasMeta e) (negb (is_empty (e_SHA256 e))) (e_HasTarget e)
    (utf8_Valid (e_Target e)) (negb (str_eqb (e_State e) StateOK)) (negb (is_empty (e_Reason e)))
    (negb (is_empty (e_Listing e))).
Proof.
  unfold entry_members, entry_ks. rewrite fmap_cons, !fmap_app. unfold bytes_member.
  destruct (utf8_Valid (e_Path e)), (utf8_Valid (e_Target e)), (e_HasMeta e), (e_HasTarget e);
    destruct (negb (is_empty (e_SHA256 e))), (negb (str_eqb (e_State e) StateOK)), (negb (is_empty (e_Reason e))),
      (negb (is_empty (e_Listing e))); reflexivity.
Qed.

Definition seen_ok (up hm hs ht ut st re li : bool) : bool :=
  let ks := entry_ks up hm hs ht ut st re li in
  let seen := key_mask ks in
  bool_decide (NoDup ks)
  && negb (Bool.eqb (has seen 0) (has seen 1)) && has seen 2
  && (if hm then Z.land seen metaKeys =? metaKeys
      else negb (Z.land seen metaKeys =? metaKeys) && (Z.land seen metaKeys =? 0))
  && Bool.eqb (has seen 10) (has seen 11) && negb (has seen 12 && has seen 13).

Lemma seen_all_ok up hm hs ht ut st re li : seen_ok up hm hs ht ut st re li = true.
Proof. destruct up, hm, hs, ht, ut, st, re, li; vm_compute; reflexivity. Qed.

(** An entry's line decodes to the entry. *)
Lemma entry_round e : codec_wf e ->
  decodeEntry (String "{" (members entryKeys (entry_members e) +:+ "}")) = Ok e.
Proof.
  intros Hwf. pose proof (run_entry e Hwf) as Hr.
  pose proof (seen_all_ok (utf8_Valid (e_Path e)) (e_HasMeta e) (negb (is_empty (e_SHA256 e))) (e_HasTarget e)
    (utf8_Valid (e_Target e)) (negb (str_eqb (e_State e) StateOK)) (negb (is_empty (e_Reason e)))
    (negb (is_empty (e_Listing e)))) as Hs.
  unfold seen_ok in Hs. rewrite <- entry_members_keys, <- mask_keys in Hs.
  apply andb_prop in Hs as [[[[[Hnd H1]%andb_prop H2]%andb_prop H3]%andb_prop H4]%andb_prop H5].
  apply bool_decide_eq_true in Hnd.
  unfold decodeEntry. rewrite (object_run _ _ _ _ _ "" Hr Hnd). cbn [res_bind scan_end is_empty].
  change (scan_end "") with (@Ok unit string tt). cbn [res_bind]. rewrite H1, H2, H4, H5.
  destruct (e_HasMeta e) eqn:Ehm.
  - rewrite H3. cbn [res_bind]. destruct e. unfold set_HasMeta. simpl in *. by subst.
  - apply andb_prop in H3 as [H3 H3']. apply negb_true_iff in H3. rewrite H3, H3'. cbn [res_bind].
    destruct e. unfold set_HasMeta. simpl in *. by subst.
Qed.

End Codec.

End ManifestEntry.
