(* ===== verification/ManifestHeader.v ===== *)
(** The header line of a tree-backup manifest
    ([internal/treebackup/types.go], [manifest.go]): its encoding, its strict
    decoding and the rules that need no entries. RFC 3339 times are the interface
    [NanoTime]. *)

From S2P Require Import Prelude Go TreePath ManifestCodec ManifestEntry.

Module ManifestHeader.
Import TreePath ManifestCodec ManifestEntry.

Record RootInfo := MkRoot {
  r_HasMeta : bool;
  r_Mode : Z;
  r_Mtime : Z;
  r_State : string;
  r_Reason : string;
  r_Listing : string
}.

Record Limits := MkLimits {
  l_File : Z;
  l_Read : Z;
  l_New : Z;
  l_Entries : Z;
  l_Manifest : Z;
  l_DirEntries : Z;
  l_Depth : Z;
  l_Path : Z;
  l_Time : Duration
}.

Record Partial := MkPartial {
  p_State : string;
  p_Reason : string;
  p_At : bytes;
  p_HasAt : bool;
  p_Count : Z
}.

Record Flood := MkFlood {
  f_At : bytes;
  f_HasAt : bool;
  f_Count : Z
}.

Record Counts := MkCounts {
  c_ByType : gmap string Z;
  c_ByState : gmap string Z;
  c_UnreadableNew : Z;
  c_Badname : Z
}.

Record ByteCounts := MkByteCounts {
  b_Total : Z;
  b_Read : Z;
  b_New : Z
}.

Record BlobCounts := MkBlobCounts {
  bl_New : Z;
  bl_Repaired : Z
}.

Record Header := MkHeader {
  h_Version : Z;
  h_ID : string;
  h_Seq : Z;
  h_Created : Time;
  h_Finished : Time;
  h_Trigger : string;
  h_Quiescent : string;
  h_Pinned : bool;
  h_LeverVersion : string;
  h_Tree : bytes;
  h_TreeDev : Z;
  h_TreeIno : Z;
  h_Root : RootInfo;
  h_CacheBase : string;
  h_KnownBase : string;
  h_Limits_ : Limits;
  h_Complete : bool;
  h_Partial_ : list Partial;
  h_Flood_ : list Flood;
  h_Counts_ : Counts;
  h_Bytes : ByteCounts;
  h_Blobs : BlobCounts
}.

(** The zero values the decoders start from. *)
Definition zeroRoot : RootInfo := MkRoot false 0 0 "" "" "".
Definition zeroLimits : Limits := MkLimits 0 0 0 0 0 0 0 0 0.
Definition zeroPartial : Partial := MkPartial "" "" "" false 0.
Definition zeroFlood : Flood := MkFlood "" false 0.
Definition zeroCounts : Counts := MkCounts ∅ ∅ 0 0.
Definition zeroHeader : Header := MkHeader 0 "" 0 zeroTime zeroTime "" "" false "" "" 0 0 zeroRoot "" "" zeroLimits false [] [] zeroCounts (MkByteCounts 0 0 0) (MkBlobCounts 0 0).

(** The assignments to their fields. *)
Definition r_set_HasMeta (v0 : bool) (x : RootInfo) : RootInfo :=
  MkRoot v0 (r_Mode x) (r_Mtime x) (r_State x) (r_Reason x) (r_Listing x).
Definition r_set_Mode (v0 : Z) (x : RootInfo) : RootInfo :=
  MkRoot (r_HasMeta x) v0 (r_Mtime x) (r_State x) (r_Reason x) (r_Listing x).
Definition r_set_Mtime (v0 : Z) (x : RootInfo) : RootInfo :=
  MkRoot (r_HasMeta x) (r_Mode x) v0 (r_State x) (r_Reason x) (r_Listing x).
Definition r_set_State (v0 : string) (x : RootInfo) : RootInfo :=
  MkRoot (r_HasMeta x) (r_Mode x) (r_Mtime x) v0 (r_Reason x) (r_Listing x).
Definition r_set_Reason (v0 : string) (x : RootInfo) : RootInfo :=
  MkRoot (r_HasMeta x) (r_Mode x) (r_Mtime x) (r_State x) v0 (r_Listing x).
Definition r_set_Listing (v0 : string) (x : RootInfo) : RootInfo :=
  MkRoot (r_HasMeta x) (r_Mode x) (r_Mtime x) (r_State x) (r_Reason x) v0.
Definition l_set_File (v0 : Z) (x : Limits) : Limits :=
  MkLimits v0 (l_Read x) (l_New x) (l_Entries x) (l_Manifest x) (l_DirEntries x) (l_Depth x) (l_Path x) (l_Time x).
Definition l_set_Read (v0 : Z) (x : Limits) : Limits :=
  MkLimits (l_File x) v0 (l_New x) (l_Entries x) (l_Manifest x) (l_DirEntries x) (l_Depth x) (l_Path x) (l_Time x).
Definition l_set_New (v0 : Z) (x : Limits) : Limits :=
  MkLimits (l_File x) (l_Read x) v0 (l_Entries x) (l_Manifest x) (l_DirEntries x) (l_Depth x) (l_Path x) (l_Time x).
Definition l_set_Entries (v0 : Z) (x : Limits) : Limits :=
  MkLimits (l_File x) (l_Read x) (l_New x) v0 (l_Manifest x) (l_DirEntries x) (l_Depth x) (l_Path x) (l_Time x).
Definition l_set_Manifest (v0 : Z) (x : Limits) : Limits :=
  MkLimits (l_File x) (l_Read x) (l_New x) (l_Entries x) v0 (l_DirEntries x) (l_Depth x) (l_Path x) (l_Time x).
Definition l_set_DirEntries (v0 : Z) (x : Limits) : Limits :=
  MkLimits (l_File x) (l_Read x) (l_New x) (l_Entries x) (l_Manifest x) v0 (l_Depth x) (l_Path x) (l_Time x).
Definition l_set_Depth (v0 : Z) (x : Limits) : Limits :=
  MkLimits (l_File x) (l_Read x) (l_New x) (l_Entries x) (l_Manifest x) (l_DirEntries x) v0 (l_Path x) (l_Time x).
Definition l_set_Path (v0 : Z) (x : Limits) : Limits :=
  MkLimits (l_File x) (l_Read x) (l_New x) (l_Entries x) (l_Manifest x) (l_DirEntries x) (l_Depth x) v0 (l_Time x).
Definition l_set_Time (v0 : Duration) (x : Limits) : Limits :=
  MkLimits (l_File x) (l_Read x) (l_New x) (l_Entries x) (l_Manifest x) (l_DirEntries x) (l_Depth x) (l_Path x) v0.
Definition p_set_State (v0 : string) (x : Partial) : Partial :=
  MkPartial v0 (p_Reason x) (p_At x) (p_HasAt x) (p_Count x).
Definition p_set_Reason (v0 : string) (x : Partial) : Partial :=
  MkPartial (p_State x) v0 (p_At x) (p_HasAt x) (p_Count x).
Definition p_set_At (v0 : bytes) (v1 : bool) (x : Partial) : Partial :=
  MkPartial (p_State x) (p_Reason x) v0 v1 (p_Count x).
Definition p_set_Count (v0 : Z) (x : Partial) : Partial :=
  MkPartial (p_State x) (p_Reason x) (p_At x) (p_HasAt x) v0.
Definition f_set_At (v0 : bytes) (v1 : bool) (x : Flood) : Flood :=
  MkFlood v0 v1 (f_Count x).
Definition f_set_Count (v0 : Z) (x : Flood) : Flood :=
  MkFlood (f_At x) (f_HasAt x) v0.
Definition c_set_ByType (v0 : gmap string Z) (x : Counts) : Counts :=
  MkCounts v0 (c_ByState x) (c_UnreadableNew x) (c_Badname x).
Definition c_set_ByState (v0 : gmap string Z) (x : Counts) : Counts :=
  MkCounts (c_ByType x) v0 (c_UnreadableNew x) (c_Badname x).
Definition c_set_UnreadableNew (v0 : Z) (x : Counts) : Counts :=
  MkCounts (c_ByType x) (c_ByState x) v0 (c_Badname x).
Definition c_set_Badname (v0 : Z) (x : Counts) : Counts :=
  MkCounts (c_ByType x) (c_ByState x) (c_UnreadableNew x) v0.
Definition b_set_Total (v0 : Z) (x : ByteCounts) : ByteCounts :=
  MkByteCounts v0 (b_Read x) (b_New x).
Definition b_set_Read (v0 : Z) (x : ByteCounts) : ByteCounts :=
  MkByteCounts (b_Total x) v0 (b_New x).
Definition b_set_New (v0 : Z) (x : ByteCounts) : ByteCounts :=
  MkByteCounts (b_Total x) (b_Read x) v0.
Definition bl_set_New (v0 : Z) (x : BlobCounts) : BlobCounts :=
  MkBlobCounts v0 (bl_Repaired x).
Definition bl_set_Repaired (v0 : Z) (x : BlobCounts) : BlobCounts :=
  MkBlobCounts (bl_New x) v0.
Definition h_set_Version (v0 : Z) (x : Header) : Header :=
  MkHeader v0 (h_ID x) (h_Seq x) (h_Created x) (h_Finished x) (h_Trigger x) (h_Quiescent x) (h_Pinned x) (h_LeverVersion x) (h_Tree x) (h_TreeDev x) (h_TreeIno x) (h_Root x) (h_CacheBase x) (h_KnownBase x) (h_Limits_ x) (h_Complete x) (h_Partial_ x) (h_Flood_ x) (h_Counts_ x) (h_Bytes x) (h_Blobs x).
Definition h_set_ID (v0 : string) (x : Header) : Header :=
  MkHeader (h_Version x) v0 (h_Seq x) (h_Created x) (h_Finished x) (h_Trigger x) (h_Quiescent x) (h_Pinned x) (h_LeverVersion x) (h_Tree x) (h_TreeDev x) (h_TreeIno x) (h_Root x) (h_CacheBase x) (h_KnownBase x) (h_Limits_ x) (h_Complete x) (h_Partial_ x) (h_Flood_ x) (h_Counts_ x) (h_Bytes x) (h_Blobs x).
Definition h_set_Seq (v0 : Z) (x : Header) : Header :=
  MkHeader (h_Version x) (h_ID x) v0 (h_Created x) (h_Finished x) (h_Trigger x) (h_Quiescent x) (h_Pinned x) (h_LeverVersion x) (h_Tree x) (h_TreeDev x) (h_TreeIno x) (h_Root x) (h_CacheBase x) (h_KnownBase x) (h_Limits_ x) (h_Complete x) (h_Partial_ x) (h_Flood_ x) (h_Counts_ x) (h_Bytes x) (h_Blobs x).
Definition h_set_Created (v0 : Time) (x : Header) : Header :=
  MkHeader (h_Version x) (h_ID x) (h_Seq x) v0 (h_Finished x) (h_Trigger x) (h_Quiescent x) (h_Pinned x) (h_LeverVersion x) (h_Tree x) (h_TreeDev x) (h_TreeIno x) (h_Root x) (h_CacheBase x) (h_KnownBase x) (h_Limits_ x) (h_Complete x) (h_Partial_ x) (h_Flood_ x) (h_Counts_ x) (h_Bytes x) (h_Blobs x).
Definition h_set_Finished (v0 : Time) (x : Header) : Header :=
  MkHeader (h_Version x) (h_ID x) (h_Seq x) (h_Created x) v0 (h_Trigger x) (h_Quiescent x) (h_Pinned x) (h_LeverVersion x) (h_Tree x) (h_TreeDev x) (h_TreeIno x) (h_Root x) (h_CacheBase x) (h_KnownBase x) (h_Limits_ x) (h_Complete x) (h_Partial_ x) (h_Flood_ x) (h_Counts_ x) (h_Bytes x) (h_Blobs x).
Definition h_set_Trigger (v0 : string) (x : Header) : Header :=
  MkHeader (h_Version x) (h_ID x) (h_Seq x) (h_Created x) (h_Finished x) v0 (h_Quiescent x) (h_Pinned x) (h_LeverVersion x) (h_Tree x) (h_TreeDev x) (h_TreeIno x) (h_Root x) (h_CacheBase x) (h_KnownBase x) (h_Limits_ x) (h_Complete x) (h_Partial_ x) (h_Flood_ x) (h_Counts_ x) (h_Bytes x) (h_Blobs x).
Definition h_set_Quiescent (v0 : string) (x : Header) : Header :=
  MkHeader (h_Version x) (h_ID x) (h_Seq x) (h_Created x) (h_Finished x) (h_Trigger x) v0 (h_Pinned x) (h_LeverVersion x) (h_Tree x) (h_TreeDev x) (h_TreeIno x) (h_Root x) (h_CacheBase x) (h_KnownBase x) (h_Limits_ x) (h_Complete x) (h_Partial_ x) (h_Flood_ x) (h_Counts_ x) (h_Bytes x) (h_Blobs x).
Definition h_set_Pinned (v0 : bool) (x : Header) : Header :=
  MkHeader (h_Version x) (h_ID x) (h_Seq x) (h_Created x) (h_Finished x) (h_Trigger x) (h_Quiescent x) v0 (h_LeverVersion x) (h_Tree x) (h_TreeDev x) (h_TreeIno x) (h_Root x) (h_CacheBase x) (h_KnownBase x) (h_Limits_ x) (h_Complete x) (h_Partial_ x) (h_Flood_ x) (h_Counts_ x) (h_Bytes x) (h_Blobs x).
Definition h_set_LeverVersion (v0 : string) (x : Header) : Header :=
  MkHeader (h_Version x) (h_ID x) (h_Seq x) (h_Created x) (h_Finished x) (h_Trigger x) (h_Quiescent x) (h_Pinned x) v0 (h_Tree x) (h_TreeDev x) (h_TreeIno x) (h_Root x) (h_CacheBase x) (h_KnownBase x) (h_Limits_ x) (h_Complete x) (h_Partial_ x) (h_Flood_ x) (h_Counts_ x) (h_Bytes x) (h_Blobs x).
Definition h_set_Tree (v0 : bytes) (x : Header) : Header :=
  MkHeader (h_Version x) (h_ID x) (h_Seq x) (h_Created x) (h_Finished x) (h_Trigger x) (h_Quiescent x) (h_Pinned x) (h_LeverVersion x) v0 (h_TreeDev x) (h_TreeIno x) (h_Root x) (h_CacheBase x) (h_KnownBase x) (h_Limits_ x) (h_Complete x) (h_Partial_ x) (h_Flood_ x) (h_Counts_ x) (h_Bytes x) (h_Blobs x).
Definition h_set_TreeDev (v0 : Z) (x : Header) : Header :=
  MkHeader (h_Version x) (h_ID x) (h_Seq x) (h_Created x) (h_Finished x) (h_Trigger x) (h_Quiescent x) (h_Pinned x) (h_LeverVersion x) (h_Tree x) v0 (h_TreeIno x) (h_Root x) (h_CacheBase x) (h_KnownBase x) (h_Limits_ x) (h_Complete x) (h_Partial_ x) (h_Flood_ x) (h_Counts_ x) (h_Bytes x) (h_Blobs x).
Definition h_set_TreeIno (v0 : Z) (x : Header) : Header :=
  MkHeader (h_Version x) (h_ID x) (h_Seq x) (h_Created x) (h_Finished x) (h_Trigger x) (h_Quiescent x) (h_Pinned x) (h_LeverVersion x) (h_Tree x) (h_TreeDev x) v0 (h_Root x) (h_CacheBase x) (h_KnownBase x) (h_Limits_ x) (h_Complete x) (h_Partial_ x) (h_Flood_ x) (h_Counts_ x) (h_Bytes x) (h_Blobs x).
Definition h_set_Root (v0 : RootInfo) (x : Header) : Header :=
  MkHeader (h_Version x) (h_ID x) (h_Seq x) (h_Created x) (h_Finished x) (h_Trigger x) (h_Quiescent x) (h_Pinned x) (h_LeverVersion x) (h_Tree x) (h_TreeDev x) (h_TreeIno x) v0 (h_CacheBase x) (h_KnownBase x) (h_Limits_ x) (h_Complete x) (h_Partial_ x) (h_Flood_ x) (h_Counts_ x) (h_Bytes x) (h_Blobs x).
Definition h_set_CacheBase (v0 : string) (x : Header) : Header :=
  MkHeader (h_Version x) (h_ID x) (h_Seq x) (h_Created x) (h_Finished x) (h_Trigger x) (h_Quiescent x) (h_Pinned x) (h_LeverVersion x) (h_Tree x) (h_TreeDev x) (h_TreeIno x) (h_Root x) v0 (h_KnownBase x) (h_Limits_ x) (h_Complete x) (h_Partial_ x) (h_Flood_ x) (h_Counts_ x) (h_Bytes x) (h_Blobs x).
Definition h_set_KnownBase (v0 : string) (x : Header) : Header :=
  MkHeader (h_Version x) (h_ID x) (h_Seq x) (h_Created x) (h_Finished x) (h_Trigger x) (h_Quiescent x) (h_Pinned x) (h_LeverVersion x) (h_Tree x) (h_TreeDev x) (h_TreeIno x) (h_Root x) (h_CacheBase x) v0 (h_Limits_ x) (h_Complete x) (h_Partial_ x) (h_Flood_ x) (h_Counts_ x) (h_Bytes x) (h_Blobs x).
Definition h_set_Limits_ (v0 : Limits) (x : Header) : Header :=
  MkHeader (h_Version x) (h_ID x) (h_Seq x) (h_Created x) (h_Finished x) (h_Trigger x) (h_Quiescent x) (h_Pinned x) (h_LeverVersion x) (h_Tree x) (h_TreeDev x) (h_TreeIno x) (h_Root x) (h_CacheBase x) (h_KnownBase x) v0 (h_Complete x) (h_Partial_ x) (h_Flood_ x) (h_Counts_ x) (h_Bytes x) (h_Blobs x).
Definition h_set_Complete (v0 : bool) (x : Header) : Header :=
  MkHeader (h_Version x) (h_ID x) (h_Seq x) (h_Created x) (h_Finished x) (h_Trigger x) (h_Quiescent x) (h_Pinned x) (h_LeverVersion x) (h_Tree x) (h_TreeDev x) (h_TreeIno x) (h_Root x) (h_CacheBase x) (h_KnownBase x) (h_Limits_ x) v0 (h_Partial_ x) (h_Flood_ x) (h_Counts_ x) (h_Bytes x) (h_Blobs x).
Definition h_set_Partial_ (v0 : list Partial) (x : Header) : Header :=
  MkHeader (h_Version x) (h_ID x) (h_Seq x) (h_Created x) (h_Finished x) (h_Trigger x) (h_Quiescent x) (h_Pinned x) (h_LeverVersion x) (h_Tree x) (h_TreeDev x) (h_TreeIno x) (h_Root x) (h_CacheBase x) (h_KnownBase x) (h_Limits_ x) (h_Complete x) v0 (h_Flood_ x) (h_Counts_ x) (h_Bytes x) (h_Blobs x).
Definition h_set_Flood_ (v0 : list Flood) (x : Header) : Header :=
  MkHeader (h_Version x) (h_ID x) (h_Seq x) (h_Created x) (h_Finished x) (h_Trigger x) (h_Quiescent x) (h_Pinned x) (h_LeverVersion x) (h_Tree x) (h_TreeDev x) (h_TreeIno x) (h_Root x) (h_CacheBase x) (h_KnownBase x) (h_Limits_ x) (h_Complete x) (h_Partial_ x) v0 (h_Counts_ x) (h_Bytes x) (h_Blobs x).
Definition h_set_Counts_ (v0 : Counts) (x : Header) : Header :=
  MkHeader (h_Version x) (h_ID x) (h_Seq x) (h_Created x) (h_Finished x) (h_Trigger x) (h_Quiescent x) (h_Pinned x) (h_LeverVersion x) (h_Tree x) (h_TreeDev x) (h_TreeIno x) (h_Root x) (h_CacheBase x) (h_KnownBase x) (h_Limits_ x) (h_Complete x) (h_Partial_ x) (h_Flood_ x) v0 (h_Bytes x) (h_Blobs x).
Definition h_set_Bytes (v0 : ByteCounts) (x : Header) : Header :=
  MkHeader (h_Version x) (h_ID x) (h_Seq x) (h_Created x) (h_Finished x) (h_Trigger x) (h_Quiescent x) (h_Pinned x) (h_LeverVersion x) (h_Tree x) (h_TreeDev x) (h_TreeIno x) (h_Root x) (h_CacheBase x) (h_KnownBase x) (h_Limits_ x) (h_Complete x) (h_Partial_ x) (h_Flood_ x) (h_Counts_ x) v0 (h_Blobs x).
Definition h_set_Blobs (v0 : BlobCounts) (x : Header) : Header :=
  MkHeader (h_Version x) (h_ID x) (h_Seq x) (h_Created x) (h_Finished x) (h_Trigger x) (h_Quiescent x) (h_Pinned x) (h_LeverVersion x) (h_Tree x) (h_TreeDev x) (h_TreeIno x) (h_Root x) (h_CacheBase x) (h_KnownBase x) (h_Limits_ x) (h_Complete x) (h_Partial_ x) (h_Flood_ x) (h_Counts_ x) (h_Bytes x) v0.

(** [idRE]: eight digits, [T], six digits, [Z], and a counter of one to three
    digits. *)
Fixpoint digits_then (n : nat) (k : string -> bool) (s : string) : bool :=
  match n, s with
  | O, _ => k s
  | S n, String c s => is_digit c && digits_then n k s
  | S _, EmptyString => false
  end.
Definition byte_then (b : ascii) (k : string -> bool) (s : string) : bool :=
  match s with String c s => bool_decide (c = b) && k s | EmptyString => false end.
Definition ValidID (id : string) : bool :=
  digits_then 8 (byte_then "T" (digits_then 6 (byte_then "Z" (fun s =>
    is_empty s || byte_then "-" (fun s => digits_then 1 is_empty s || digits_then 2 is_empty s || digits_then 3 is_empty s) s)))) id.

(** [formatTime] and [time.Parse(time.RFC3339Nano, _)]: an instant RFC 3339 can
    write parses back from what it is written as, which is plain ASCII. *)
Class NanoTime := {
  formatTime : Time -> string;
  parseNano : string -> option Time;
  nano_range : Time -> Prop;
  nano_round : forall t, nano_range t -> parseNano (formatTime t) = Some t;
  nano_plain : forall t, plain (formatTime t) = true
}.

Section Header.
Context `{StdBase64, NanoTime}.

(** * Encoding *)

Definition appendNullableID (buf : bytes) (key id : string) : bytes :=
  let buf := appendKey buf true key in
  if is_empty id then buf +:+ "null" else appendJSONString buf id.

Definition encode_root (buf : bytes) (r : RootInfo) : bytes :=
  let buf := buf +:+ "{" in
  let '(buf, comma) :=
    if r_HasMeta r
    then (appendIntField (appendKey buf false "mode" +:+ format_uint (r_Mode r)) "mtime" (r_Mtime r), true)
    else (buf, false) in
  let '(buf, comma) :=
    if negb (str_eqb (r_State r) StateOK) then (appendJSONString (appendKey buf comma "state") (r_State r), true)
    else (buf, comma) in
  let '(buf, comma) :=
    if negb (is_empty (r_Reason r)) then (appendJSONString (appendKey buf comma "reason") (r_Reason r), true)
    else (buf, comma) in
  let buf :=
    if negb (is_empty (r_Listing r)) then appendJSONString (appendKey buf comma "listing") (r_Listing r) else buf in
  buf +:+ "}".

Definition encode_limits (buf : bytes) (l : Limits) : bytes :=
  let buf := appendKey (buf +:+ "{") false "file" +:+ format_int (l_File l) in
  let buf := appendIntField buf "read" (l_Read l) in
  let buf := appendIntField buf "new" (l_New l) in
  let buf := appendIntField buf "entries" (l_Entries l) in
  let buf := appendIntField buf "manifest" (l_Manifest l) in
  let buf := appendIntField buf "dir_entries" (l_DirEntries l) in
  let buf := appendIntField buf "depth" (l_Depth l) in
  let buf := appendIntField buf "path" (l_Path l) in
  let buf := appendIntField buf "time" (l_Time l) in
  buf +:+ "}".

Definition encode_partial (buf : bytes) (p : Partial) : bytes :=
  let buf := appendJSONString (appendKey (buf +:+ "{") false "state") (p_State p) in
  let buf := appendStrField buf "reason" (p_Reason p) in
  let buf := if p_HasAt p then appendBytesField (buf +:+ ",") "at" (p_At p) else buf in
  appendIntField buf "count" (p_Count p) +:+ "}".

Definition encode_flood (buf : bytes) (f : Flood) : bytes :=
  let buf := buf +:+ "{" in
  let buf := if f_HasAt f then appendBytesField buf "at" (f_At f) +:+ "," else buf in
  appendKey buf false "count" +:+ format_int (f_Count f) +:+ "}".

(** The loops over [h.Partial] and [h.Flood], with the commas between. *)
Fixpoint encode_list {A : Type} (enc : bytes -> A -> bytes) (first : bool) (buf : bytes) (l : list A) : bytes :=
  match l with
  | [] => buf
  | a :: l => encode_list enc false (enc (if first then buf else buf +:+ ",") a) l
  end.

(** The loops over [AllTypes] and [AllStates]. *)
Fixpoint encode_tally (m : gmap string Z) (first : bool) (buf : bytes) (keys : list string) : bytes :=
  match keys with
  | [] => buf
  | k :: keys => encode_tally m false (appendKey buf (negb first) k +:+ format_int (default 0 (m !! k))) keys
  end.

Definition encode_counts (buf : bytes) (c : Counts) : bytes :=
  let buf := encode_tally (c_ByType c) true (appendKey (buf +:+ "{") false "by_type" +:+ "{") AllTypes +:+ "}" in
  let buf := encode_tally (c_ByState c) true (appendKey buf true "by_state" +:+ "{") AllStates +:+ "}" in
  let buf := appendIntField buf "unreadable_new" (c_UnreadableNew c) in
  appendIntField buf "badname" (c_Badname c) +:+ "}".

Definition encode_bytes (buf : bytes) (b : ByteCounts) : bytes :=
  let buf := appendKey (buf +:+ "{") false "total" +:+ format_int (b_Total b) in
  let buf := appendIntField buf "read" (b_Read b) in
  appendIntField buf "new" (b_New b) +:+ "}".

Definition encode_blobs (buf : bytes) (b : BlobCounts) : bytes :=
  appendIntField (appendKey (buf +:+ "{") false "new" +:+ format_int (bl_New b)) "repaired" (bl_Repaired b) +:+ "}".

Definition EncodeHeader (buf : bytes) (h : Header) : bytes :=
  let buf := appendKey (buf +:+ "{") false "version" +:+ format_int (h_Version h) in
  let buf := appendStrField buf "id" (h_ID h) in
  let buf := appendUintField buf "seq" (h_Seq h) in
  let buf := appendStrField buf "created" (formatTime (h_Created h)) in
  let buf := appendStrField buf "finished" (formatTime (h_Finished h)) in
  let buf := appendStrField buf "trigger" (h_Trigger h) in
  let buf := appendStrField buf "quiescent" (h_Quiescent h) in
  let buf := appendBoolField buf "pinned" (h_Pinned h) in
  let buf := appendStrField buf "lever_version" (h_LeverVersion h) in
  let buf := appendBytesField (buf +:+ ",") "tree" (h_Tree h) in
  let buf := appendUintField buf "tree_dev" (h_TreeDev h) in
  let buf := appendUintField buf "tree_ino" (h_TreeIno h) in
  let buf := encode_root (appendKey buf true "root") (h_Root h) in
  let buf := appendNullableID buf "cache_base" (h_CacheBase h) in
  let buf := appendNullableID buf "known_base" (h_KnownBase h) in
  let buf := encode_limits (appendKey buf true "limits") (h_Limits_ h) in
  let buf := appendBoolField buf "complete" (h_Complete h) in
  let buf := encode_list encode_partial true (appendKey buf true "partial" +:+ "[") (h_Partial_ h) +:+ "]" in
  let buf := encode_list encode_flood true (appendKey buf true "flood" +:+ "[") (h_Flood_ h) +:+ "]" in
  let buf := encode_counts (appendKey buf true "counts") (h_Counts_ h) in
  let buf := encode_bytes (appendKey buf true "bytes") (h_Bytes h) in
  let buf := encode_blobs (appendKey buf true "blobs") (h_Blobs h) in
  buf +:+ "}" +:+ newline.

(** * Decoding *)

Definition rootKeys : list string := ["mode"; "mtime"; "state"; "reason"; "listing"].
Definition limitKeys : list string := ["file"; "read"; "entries"; "manifest"; "dir_entries"; "depth"; "path"; "time"; "new"].
Definition partialKeys : list string := ["state"; "reason"; "count"; "at"; "at_b64"].
Definition floodKeys : list string := ["count"; "at"; "at_b64"].
Definition countKeys : list string := ["by_type"; "by_state"; "unreadable_new"; "badname"].
Definition bytesKeys : list string := ["total"; "read"; "new"].
Definition blobsKeys : list string := ["new"; "repaired"].
Definition headerKeys : list string :=
  ["version"; "id"; "seq"; "created"; "finished"; "trigger"; "quiescent"; "pinned"; "lever_version"; "tree_dev";
   "tree_ino"; "root"; "cache_base"; "known_base"; "limits"; "complete"; "partial"; "flood"; "counts"; "bytes";
   "blobs"; "tree"; "tree_b64"].

Definition timeField : scan Time := fun s =>
  try (v, s) := str s in
  match parseNano v with
  | Some t => require (str_eqb (formatTime t) v) else Err "bad time" in Ok (t, s)
  | None => Err "bad time"
  end.

Definition nullableID : scan string := fun s =>
  match literal "null" s with
  | (true, s) => Ok ("", s)
  | _ => try (v, s) := str s in
         require (ValidID v) else Err "bad snapshot id" in
         Ok (v, s)
  end.

(** A string that may not be empty. *)
Definition nonempty (what : string) : scan string := fun s =>
  try (v, s) := str s in
  require (negb (is_empty v)) else Err ("empty " +:+ what) in
  Ok (v, s).

Definition root_field (k : nat) (r : RootInfo) : scan RootInfo := fun s =>
  match k with
  | 0%nat => try (v, s) := scan_uint s in
             require (v <=? 4095) else Err "mode has more than 12 bits" in
             Ok (r_set_Mode v r, s)
  | 1%nat => try (v, s) := scan_int s in Ok (r_set_Mtime v r, s)
  | 2%nat => try (v, s) := nonempty "state" s in Ok (r_set_State v r, s)
  | 3%nat => try (v, s) := nonempty "reason" s in Ok (r_set_Reason v r, s)
  | 4%nat => try (v, s) := nonempty "listing" s in Ok (r_set_Listing v r, s)
  | _ => Ok (r, s)
  end.

Definition scan_root : scan RootInfo := fun s =>
  try (rs, s) := object rootKeys root_field zeroRoot s in
  let '(r, seen) := rs in
  require (Bool.eqb (has seen 0) (has seen 1)) else Err "root: mode and mtime must appear together" in
  Ok (r_set_HasMeta (has seen 0) r, s).

Definition limit_field (k : nat) (l : Limits) : scan Limits := fun s =>
  try (v, s) := nonneg s in
  Ok (match k with
      | 0%nat => l_set_File v l
      | 1%nat => l_set_Read v l
      | 2%nat => l_set_Entries v l
      | 3%nat => l_set_Manifest v l
      | 4%nat => l_set_DirEntries v l
      | 5%nat => l_set_Depth v l
      | 6%nat => l_set_Path v l
      | 7%nat => l_set_Time v l
      | 8%nat => l_set_New v l
      | _ => l
      end, s).

(** An object all of whose first [n] keys must be there. *)
Definition full_object {S : Type} (keys : list string) (n : nat) (field : nat -> S -> scan S) (st : S) : scan S := fun s =>
  try (rs, s) := object keys field st s in
  let '(r, seen) := rs in
  try _ := requireAll seen keys n in
  Ok (r, s).

Definition scan_limits : scan Limits := full_object limitKeys (length limitKeys) limit_field zeroLimits.

Definition partial_field (k : nat) (p : Partial) : scan Partial := fun s =>
  match k with
  | 0%nat => try (v, s) := str s in Ok (p_set_State v p, s)
  | 1%nat => try (v, s) := str s in Ok (p_set_Reason v p, s)
  | 2%nat => try (v, s) := nonneg s in Ok (p_set_Count v p, s)
  | 3%nat => require (negb (p_HasAt p)) else Err "both at and at_b64" in
             try (v, s) := str s in Ok (p_set_At v true p, s)
  | 4%nat => require (negb (p_HasAt p)) else Err "both at and at_b64" in
             try (v, s) := scan_b64 s in Ok (p_set_At v true p, s)
  | _ => Ok (p, s)
  end.
Definition scan_partial : scan Partial := full_object partialKeys 3 partial_field zeroPartial.

Definition flood_field (k : nat) (f : Flood) : scan Flood := fun s =>
  match k with
  | 0%nat => try (v, s) := nonneg s in Ok (f_set_Count v f, s)
  | 1%nat => require (negb (f_HasAt f)) else Err "both at and at_b64" in
             try (v, s) := str s in Ok (f_set_At v true f, s)
  | 2%nat => require (negb (f_HasAt f)) else Err "both at and at_b64" in
             try (v, s) := scan_b64 s in Ok (f_set_At v true f, s)
  | _ => Ok (f, s)
  end.
Definition scan_flood : scan Flood := full_object floodKeys 1 flood_field zeroFlood.

(** [tally]: every key, with a count that is not negative. *)
Definition tally {S : Type} (keys : list string) (set : nat -> Z -> S -> S) (st : S) : scan S :=
  full_object keys (length keys) (fun k st s => try (v, s) := nonneg s in Ok (set k v st, s)) st.

Definition set_count (keys : list string) (k : nat) (v : Z) (m : gmap string Z) : gmap string Z :=
  <[default "" (keys !! k) := v]> m.

Definition count_field (k : nat) (c : Counts) : scan Counts := fun s =>
  match k with
  | 0%nat => try (m, s) := tally AllTypes (set_count AllTypes) (c_ByType c) s in Ok (c_set_ByType m c, s)
  | 1%nat => try (m, s) := tally AllStates (set_count AllStates) (c_ByState c) s in Ok (c_set_ByState m c, s)
  | 2%nat => try (v, s) := nonneg s in Ok (c_set_UnreadableNew v c, s)
  | 3%nat => try (v, s) := nonneg s in Ok (c_set_Badname v c, s)
  | _ => Ok (c, s)
  end.
Definition scan_counts : scan Counts := full_object countKeys (length countKeys) count_field zeroCounts.

Definition byteCounts : scan ByteCounts :=
  tally bytesKeys (fun k v b => match k with 0%nat => b_set_Total v b | 1%nat => b_set_Read v b | _ => b_set_New v b end)
    (MkByteCounts 0 0 0).
Definition blobCounts : scan BlobCounts :=
  tally blobsKeys (fun k v b => match k with 0%nat => bl_set_New v b | _ => bl_set_Repaired v b end) (MkBlobCounts 0 0).

(** The closure [decodeHeader] gives to [object]. *)
Definition header_field (k : nat) (h : Header) : scan Header := fun s =>
  match k with
  | 0%nat => try (v, s) := scan_int s in Ok (h_set_Version v h, s)
  | 1%nat => try (v, s) := str s in Ok (h_set_ID v h, s)
  | 2%nat => try (v, s) := scan_uint s in Ok (h_set_Seq v h, s)
  | 3%nat => try (v, s) := timeField s in Ok (h_set_Created v h, s)
  | 4%nat => try (v, s) := timeField s in Ok (h_set_Finished v h, s)
  | 5%nat => try (v, s) := str s in Ok (h_set_Trigger v h, s)
  | 6%nat => try (v, s) := str s in Ok (h_set_Quiescent v h, s)
  | 7%nat => try (v, s) := boolean s in Ok (h_set_Pinned v h, s)
  | 8%nat => try (v, s) := str s in Ok (h_set_LeverVersion v h, s)
  | 9%nat => try (v, s) := scan_uint s in Ok (h_set_TreeDev v h, s)
  | 10%nat => try (v, s) := scan_uint s in Ok (h_set_TreeIno v h, s)
  | 11%nat => try (v, s) := scan_root s in Ok (h_set_Root v h, s)
  | 12%nat => try (v, s) := nullableID s in Ok (h_set_CacheBase v h, s)
  | 13%nat => try (v, s) := nullableID s in Ok (h_set_KnownBase v h, s)
  | 14%nat => try (v, s) := scan_limits s in Ok (h_set_Limits_ v h, s)
  | 15%nat => try (v, s) := boolean s in Ok (h_set_Complete v h, s)
  | 16%nat => try (v, s) := array scan_partial s in Ok (h_set_Partial_ (h_Partial_ h ++ v) h, s)
  | 17%nat => try (v, s) := array scan_flood s in Ok (h_set_Flood_ (h_Flood_ h ++ v) h, s)
  | 18%nat => try (v, s) := scan_counts s in Ok (h_set_Counts_ v h, s)
  | 19%nat => try (v, s) := byteCounts s in Ok (h_set_Bytes v h, s)
  | 20%nat => try (v, s) := blobCounts s in Ok (h_set_Blobs v h, s)
  | 21%nat => try (v, s) := str s in Ok (h_set_Tree v h, s)
  | 22%nat => try (v, s) := scan_b64 s in Ok (h_set_Tree v h, s)
  | _ => Ok (h, s)
  end.

Definition MaxManifestCap : Z := 4 * 2 ^ 30.
Definition MaxEntriesCap : Z := 10000000.
Definition ManifestVersion : Z := 1.

Definition limits_ok (l : Limits) : bool :=
  negb ((l_File l <=? 0) || (l_Read l <=? 0) || (l_New l <=? 0) || (l_Entries l <=? 0) || (MaxEntriesCap <? l_Entries l)
        || (l_Manifest l <=? 0) || (MaxManifestCap <? l_Manifest l) || (l_DirEntries l <=? 0) || (l_Depth l <=? 0)
        || (l_Path l <=? 0) || (MaxPathCap <? l_Path l) || (l_Time l <? 0)).

Definition check_root (r : RootInfo) : result unit string :=
  try _ := (if bool_decide (r_State r ∈ [StateOK; StateUnreadable; StateListingUnstable]) then
              require (is_empty (r_Reason r)) else Err "root reason without state truncated" in Ok tt
            else if str_eqb (r_State r) StateTruncated then
              require (reasonAllowed StateTruncated (r_Reason r)) else Err "root truncated with a reason it does not allow" in Ok tt
            else Err "root state") in
  require (is_empty (r_Listing r) || str_eqb (r_Listing r) ListingUnreadable) else Err "root listing" in
  Ok tt.

Fixpoint check_partials (maxPath : Z) (ps : list Partial) : result unit string :=
  match ps with
  | [] => Ok tt
  | p :: ps =>
    require (clearsComplete (p_State p) && reasonAllowed (p_State p) (p_Reason p) && (1 <=? p_Count p)) else Err "bad partial element" in
    try _ := (if p_HasAt p then checkPath (p_At p) maxPath else Ok tt) in
    check_partials maxPath ps
  end.

Fixpoint check_floods (maxPath : Z) (fs : list Flood) : result unit string :=
  match fs with
  | [] => Ok tt
  | f :: fs =>
    try _ := (if f_HasAt f then checkPath (f_At f) maxPath else Ok tt) in
    check_floods maxPath fs
  end.

Definition checkHeader (h : Header) : result unit string :=
  require (h_Version h =? ManifestVersion) else Err "unsupported version" in
  require (ValidID (h_ID h)) else Err "bad id" in
  require (1 <=? h_Seq h) else Err "seq must be at least 1" in
  require (bool_decide (h_Trigger h ∈ ["stop"; "destroy"; "keep-vm"; "manual"])) else Err "unknown trigger" in
  require (bool_decide (h_Quiescent h ∈ ["vm-off"; "suspended"; "none"])) else Err "unknown quiescent" in
  require (limits_ok (h_Limits_ h)) else Err "limits out of range" in
  try _ := check_root (h_Root h) in
  let maxPath := Z.min (l_Path (h_Limits_ h)) MaxPathCap in
  try _ := check_partials maxPath (h_Partial_ h) in
  require (Z.of_nat (length (h_Flood_ h)) <=? 3) else Err "more than 3 flood elements" in
  check_floods maxPath (h_Flood_ h).

Definition decodeHeader (line : bytes) : result Header string :=
  try (r, s) := object headerKeys header_field zeroHeader line in
  let '(h, seen) := r in
  try _ := scan_end s in
  try _ := requireAll seen headerKeys 21 in
  require (negb (Bool.eqb (has seen 21) (has seen 22))) else Err "want exactly one of tree and tree_b64" in
  try _ := checkHeader h in
  Ok h.

End Header.

End ManifestHeader.
