(* ===== verification/HeaderRound.v ===== *)
(** The header line of a manifest comes back: what [EncodeHeader] writes,
    [decodeHeader] reads as the same header. *)

From S2P Require Import Prelude Go TreePath ManifestCodec ManifestEntry ManifestHeader.

Module HeaderRound.
Import TreePath ManifestCodec ManifestEntry ManifestHeader.

(** * Objects that are still open *)

Definition opened (keys : list string) (buf : bytes) (fs : list (nat * string)) : bytes :=
  buf +:+ String "{" (members keys fs).

Definition is_nil {A} (l : list A) : bool := match l with [] => true | _ => false end.

Lemma opened_nil keys buf : buf +:+ "{" = opened keys buf [].
Proof. done. Qed.

Lemma members_snoc keys fs kv :
  members keys (fs ++ [kv]) = members keys fs +:+ (if is_nil fs then "" else ",") +:+ member keys kv.
Proof.
  assert (H : forall l, members_tail keys (l ++ [kv]) = members_tail keys l +:+ "," +:+ member keys kv).
  { induction l as [|x l IH].
    - unfold members_tail. cbn [app foldr]. by rewrite str_app_nil.
    - cbn [app members_tail foldr]. fold (members_tail keys (l ++ [kv])) (members_tail keys l).
      by rewrite IH, !string_app_cons, !str_app_assoc. }
  destruct fs as [|x fs]; cbn [app members is_nil].
  - cbn [members_tail foldr]. by rewrite str_app_nil.
  - by rewrite H, str_app_assoc.
Qed.

Lemma opened_key keys k name buf fs v : keys !! k = Some name ->
  appendKey (opened keys buf fs) (negb (is_nil fs)) name +:+ v = opened keys buf (fs ++ [(k, v)]).
Proof.
  intros E. unfold opened. rewrite members_snoc. unfold appendKey, member. cbn [fst snd]. rewrite E. simpl default.
  destruct fs; cbn [is_nil negb];
    by rewrite ?str_app_assoc, ?string_app_cons, ?str_app_assoc, ?string_app_cons, ?string_app_nil.
Qed.

Lemma opened_int keys k name buf f fs v : keys !! k = Some name ->
  appendIntField (opened keys buf (f :: fs)) name v = opened keys buf (f :: fs ++ [(k, format_int v)]).
Proof. intros E. by apply (opened_key keys k name buf (f :: fs)). Qed.

Lemma opened_jstr keys k name buf fs v : keys !! k = Some name ->
  appendJSONString (appendKey (opened keys buf fs) (negb (is_nil fs)) name) v = opened keys buf (fs ++ [(k, jstr v)]).
Proof. intros E. by rewrite <- (opened_key keys k name). Qed.

Lemma opened_bytes keys k name buf f fs v : keys !! k = Some name -> keys !! S k = Some (name +:+ "_b64") ->
  forall `{StdBase64}, appendBytesField (opened keys buf (f :: fs) +:+ ",") name v
    = opened keys buf (f :: fs ++ [bytes_member k v]).
Proof.
  intros E1 E2 HB. rewrite (appendBytesField_member keys k) by done. unfold app_members, opened. cbn [members app].
  rewrite str_app_assoc. do 2 f_equal. rewrite string_app_cons. f_equal.
  rewrite str_app_assoc. f_equal. clear. induction fs as [|x fs IH].
  - done.
  - cbn [app members_tail foldr]. fold (members_tail keys (fs ++ [bytes_member k v])) (members_tail keys fs).
    rewrite <- IH. by rewrite !string_app_cons, !str_app_assoc.
Qed.

Lemma opened_close keys buf fs : opened keys buf fs +:+ "}" = buf +:+ String "{" (members keys fs +:+ "}").
Proof. unfold opened. by rewrite str_app_assoc, string_app_cons. Qed.

(** The text of an object. *)
Definition obj (keys : list string) (fs : list (nat * string)) : string := String "{" (members keys fs +:+ "}").

Lemma obj_run {S} keys (field : nat -> S -> scan S) st fs st2 rest :
  run keys field st fs st2 -> NoDup fs.*1 -> object keys field st (obj keys fs +:+ rest) = Ok (st2, mask 0 fs, rest).
Proof.
  intros Hr Hnd. unfold obj. rewrite string_app_cons, str_app_assoc. by apply object_run.
Qed.

Lemma full_object_run {S} keys n (field : nat -> S -> scan S) st fs st2 rest :
  run keys field st fs st2 -> NoDup fs.*1 -> requireAll (key_mask fs.*1) keys n = Ok tt ->
  full_object keys n field st (obj keys fs +:+ rest) = Ok (st2, rest).
Proof.
  intros Hr Hnd Hreq. unfold full_object. rewrite (obj_run _ _ _ _ _ _ Hr Hnd). cbn [res_bind].
  by rewrite mask_keys, Hreq.
Qed.

(** * Arrays *)

Fixpoint join_elems {A} (text : A -> string) (first : bool) (l : list A) : string :=
  match l with
  | [] => ""
  | a :: l => (if first then "" else ",") +:+ text a +:+ join_elems text false l
  end.

Lemma encode_list_join {A} (enc : bytes -> A -> bytes) text l :
  (forall buf a, enc buf a = buf +:+ text a) ->
  forall first buf, encode_list enc first buf l = buf +:+ join_elems text first l.
Proof.
  intros He. induction l as [|a l IH]; intros first buf; cbn [encode_list join_elems].
  - by rewrite str_app_nil.
  - rewrite IH, He. destruct first; by rewrite ?str_app_assoc, ?string_app_nil.
Qed.

Lemma array_loop_round {A} (elem : scan A) text l : forall a fuel acc rest,
  Forall (fun a => forall r, elem (text a +:+ r) = Ok (a, r)) (a :: l) -> (length l < fuel)%nat ->
  array_loop fuel elem acc (text a +:+ join_elems text false l +:+ String "]" rest) = Ok (acc ++ a :: l, rest).
Proof.
  induction l as [|b l IH]; intros a fuel acc rest Hel Hf; (destruct fuel as [|fuel]; [simpl in Hf; lia|]);
    apply Forall_cons in Hel as [Ha Hel]; cbn [array_loop join_elems]; rewrite Ha; cbn [res_bind].
  - strs. cbn [consume]. rewrite bool_decide_eq_false_2 by done. unfold expect. cbn [consume].
    by rewrite bool_decide_eq_true_2.
  - rewrite !str_app_assoc, string_app_cons, string_app_nil. cbn [consume].
    rewrite bool_decide_eq_true_2, IH by (done || simpl in Hf; lia). by rewrite <- app_assoc.
Qed.

Lemma array_round {A} (elem : scan A) text l rest :
  Forall (fun a => forall r, elem (text a +:+ r) = Ok (a, r)) l -> (forall a r, consume "]" (text a +:+ r) = (false, text a +:+ r)) ->
  array elem ("[" +:+ join_elems text true l +:+ "]" +:+ rest) = Ok (l, rest).
Proof.
  intros Hel Hc. unfold array, expect. strs. cbn [consume]. rewrite bool_decide_eq_true_2 by done. cbn [res_bind].
  destruct l as [|a l]; cbn [join_elems]; strs.
  - cbn [consume]. by rewrite bool_decide_eq_true_2.
  - rewrite str_app_assoc, Hc. apply (array_loop_round _ text _ _ _ []); [done|].
    rewrite !str_length_app.
    assert (length l <= String.length (join_elems text false l))%nat; [|lia].
    clear. induction l as [|b l IH]; [simpl; lia|]. cbn [join_elems length]. rewrite !str_length_app. simpl. lia.
Qed.

(** * The parts of the header *)

(** A closed decidable fact. *)
Ltac decided := match goal with |- ?P => exact (bool_decide_eq_true_1 P eq_refl) end.

Ltac flat := repeat first [ rewrite str_app_assoc | rewrite string_app_cons | rewrite string_app_nil | rewrite str_app_nil ].

Section Parts.
Context `{StdBase64, NanoTime}.

Ltac scanned := first
  [ rewrite str_jstr by done | rewrite scan_b64_round by done
  | rewrite uint_round by (done || by apply closes_stops) | rewrite int_round by (done || by apply closes_stops)
  | rewrite nonneg_round by (done || by apply closes_stops) ]; cbn [res_bind].

Definition root_members (r : RootInfo) : list (nat * string) :=
  (if r_HasMeta r then [(0%nat, format_uint (r_Mode r)); (1%nat, format_int (r_Mtime r))] else [])
  ++ (if negb (str_eqb (r_State r) StateOK) then [(2%nat, jstr (r_State r))] else [])
  ++ (if negb (is_empty (r_Reason r)) then [(3%nat, jstr (r_Reason r))] else [])
  ++ (if negb (is_empty (r_Listing r)) then [(4%nat, jstr (r_Listing r))] else []).

Lemma encode_root_obj buf r : encode_root buf r = buf +:+ obj rootKeys (root_members r).
Proof.
  unfold encode_root, obj. rewrite (opened_nil rootKeys). rewrite <- (opened_close rootKeys).
  destruct r as [hm mode mtime st re li]. unfold root_members. cbn [r_HasMeta r_Mode r_Mtime r_State r_Reason r_Listing].
  destruct hm, (negb (str_eqb st StateOK)), (negb (is_empty re)), (negb (is_empty li)); cbn [app];
  repeat (first [ rewrite (opened_key rootKeys 0 "mode" _ []) by done | rewrite (opened_int rootKeys 1 "mtime") by done
    | rewrite (opened_jstr rootKeys 2 "state" _ []) by done | rewrite (opened_jstr rootKeys 3 "reason" _ []) by done
    | rewrite (opened_jstr rootKeys 4 "listing" _ []) by done
    | rewrite (opened_jstr rootKeys 2 "state" _ (_ :: _)) by done | rewrite (opened_jstr rootKeys 3 "reason" _ (_ :: _)) by done
    | rewrite (opened_jstr rootKeys 4 "listing" _ (_ :: _)) by done ]; cbn [app]); reflexivity.
Qed.

Record root_wf (r : RootInfo) : Prop := MkRootWf {
  rw_mode : 0 <= r_Mode r <= 4095;
  rw_mtime : int64_range (r_Mtime r);
  rw_nometa : r_HasMeta r = false -> (r_Mode r, r_Mtime r) = (0, 0);
  rw_texts : utf8_Valid (r_State r) = true /\ utf8_Valid (r_Reason r) = true /\ utf8_Valid (r_Listing r) = true
}.

Lemma root_round r rest : root_wf r -> scan_root (obj rootKeys (root_members r) +:+ rest) = Ok (r, rest).
Proof.
  intros [Hmo Hmt Hnm (Hst & Hre & Hli)]. destruct r as [hm mode mtime st re li].
  cbn [r_HasMeta r_Mode r_Mtime r_State r_Reason r_Listing] in *.
  assert (Hr : run rootKeys root_field zeroRoot (root_members (MkRoot hm mode mtime st re li)) (MkRoot false mode mtime st re li)).
  { unfold root_members. cbn [r_HasMeta r_Mode r_Mtime r_State r_Reason r_Listing].
    apply (members_run_app _ _ _ _ (MkRoot false mode mtime "" "" "")).
    { apply run_if; intros Hh; [|by injection (Hnm Hh) as -> ->]. assert (uint64_range mode) by (unfold uint64_range; lia).
      do 2 (econstructor; [by vm_compute | intros rest' Hr; cbn [root_field]; scanned;
        try replace (mode <=? 4095) with true by lia; reflexivity|]). constructor. }
    apply (members_run_app _ _ _ _ (MkRoot false mode mtime st "" "")).
    { apply run_if; intros Hh; [|by guards; rewrite Hh]. apply run_one; [by vm_compute|]. intros rest' Hr. cbn [root_field].
      unfold nonempty. scanned. unfold StateOK, str_eqb in Hh. guards. by rewrite (proj2 (is_empty_false st) Hh). }
    apply (members_run_app _ _ _ _ (MkRoot false mode mtime st re "")).
    { apply run_if; intros Hh; [|by guards; rewrite Hh]. apply run_one; [by vm_compute|]. intros rest' Hr. cbn [root_field].
      unfold nonempty. scanned. by rewrite Hh. }
    apply run_if; intros Hh; [|by guards; rewrite Hh]. apply run_one; [by vm_compute|]. intros rest' Hr. cbn [root_field].
    unfold nonempty. scanned. by rewrite Hh. }
  assert (Hk : exists a b c, (root_members (MkRoot hm mode mtime st re li)).*1
    = (if hm then [0; 1] else [])%nat ++ (if a : bool then [2] else [])%nat ++ (if b : bool then [3] else [])%nat ++ (if c : bool then [4] else [])%nat).
  { exists (negb (str_eqb st StateOK)), (negb (is_empty re)), (negb (is_empty li)). unfold root_members. rewrite !fmap_app.
    cbn [r_HasMeta r_State r_Reason r_Listing]. by destruct hm, (negb (str_eqb st StateOK)), (negb (is_empty re)), (negb (is_empty li)). }
  destruct Hk as (a & b & c & Hk). unfold scan_root. rewrite (obj_run _ _ _ _ _ _ Hr).
  - cbn [res_bind]. rewrite mask_keys, Hk. by destruct hm, a, b, c.
  - rewrite Hk. destruct hm, a, b, c; decided.
Qed.

(** Limits. *)
Definition limit_members (l : Limits) : list (nat * string) :=
  [(0, format_int (l_File l)); (1, format_int (l_Read l)); (8, format_int (l_New l)); (2, format_int (l_Entries l));
   (3, format_int (l_Manifest l)); (4, format_int (l_DirEntries l)); (5, format_int (l_Depth l)); (6, format_int (l_Path l));
   (7, format_int (l_Time l))]%nat.

Lemma encode_limits_obj buf l : encode_limits buf l = buf +:+ obj limitKeys (limit_members l).
Proof.
  unfold encode_limits, obj. rewrite (opened_nil limitKeys), <- (opened_close limitKeys). cbv zeta.
  rewrite (opened_key limitKeys 0 "file" _ []) by done. cbn [app].
  rewrite (opened_int limitKeys 1 "read"), (opened_int limitKeys 8 "new"), (opened_int limitKeys 2 "entries"),
    (opened_int limitKeys 3 "manifest"), (opened_int limitKeys 4 "dir_entries"), (opened_int limitKeys 5 "depth"),
    (opened_int limitKeys 6 "path"), (opened_int limitKeys 7 "time") by done. reflexivity.
Qed.

Definition count_ok (v : Z) : Prop := 0 <= v <= max_int64.

Record limits_wf (l : Limits) : Prop := MkLimitsWf {
  lw_file : count_ok (l_File l);
  lw_read : count_ok (l_Read l);
  lw_new : count_ok (l_New l);
  lw_entries : count_ok (l_Entries l);
  lw_manifest : count_ok (l_Manifest l);
  lw_dirs : count_ok (l_DirEntries l);
  lw_depth : count_ok (l_Depth l);
  lw_path : count_ok (l_Path l);
  lw_time : count_ok (l_Time l)
}.

Ltac num_step := econstructor; [by vm_compute | intros ? ?; cbn beta iota; scanned; reflexivity|].

Lemma limits_round l rest : limits_wf l -> scan_limits (obj limitKeys (limit_members l) +:+ rest) = Ok (l, rest).
Proof.
  intros []. unfold scan_limits. apply full_object_run; [| decided | by vm_compute].
  destruct l. unfold limit_members. cbn in *. do 9 (econstructor; [by vm_compute | intros ? ?; unfold limit_field; scanned; reflexivity|]).
  constructor.
Qed.

(** Elements of [partial] and [flood]. *)
Definition partial_members (p : Partial) : list (nat * string) :=
  [(0%nat, jstr (p_State p)); (1%nat, jstr (p_Reason p))]
  ++ (if p_HasAt p then [bytes_member 3 (p_At p)] else []) ++ [(2%nat, format_int (p_Count p))].
Definition flood_members (f : Flood) : list (nat * string) :=
  (if f_HasAt f then [bytes_member 1 (f_At f)] else []) ++ [(0%nat, format_int (f_Count f))].

Lemma encode_partial_obj buf p : encode_partial buf p = buf +:+ obj partialKeys (partial_members p).
Proof.
  unfold encode_partial, obj. rewrite (opened_nil partialKeys), <- (opened_close partialKeys). cbv zeta.
  rewrite (opened_jstr partialKeys 0 "state" _ []) by done. cbn [app]. unfold appendStrField.
  rewrite (opened_jstr partialKeys 1 "reason" _ (_ :: _)) by done. unfold partial_members. cbn [app]. destruct (p_HasAt p); cbn [app].
  - rewrite (opened_bytes partialKeys 3 "at"), (opened_int partialKeys 2 "count") by done. reflexivity.
  - rewrite (opened_int partialKeys 2 "count") by done. reflexivity.
Qed.

Lemma encode_flood_obj buf f : encode_flood buf f = buf +:+ obj floodKeys (flood_members f).
Proof.
  unfold encode_flood, obj, flood_members. rewrite (opened_nil floodKeys), <- (opened_close floodKeys). cbv zeta. destruct (f_HasAt f).
  - unfold appendBytesField, bytes_member, opened, appendKey, appendJSONString, jstr, b64str.
    destruct (utf8_Valid _); simpl; unfold member; simpl; flat; reflexivity.
  - rewrite <- str_app_assoc. by rewrite (opened_key floodKeys 0 "count" _ []) by done.
Qed.

Definition partial_wf (p : Partial) : Prop :=
  utf8_Valid (p_State p) = true /\ utf8_Valid (p_Reason p) = true /\ count_ok (p_Count p) /\ (p_HasAt p = false -> p_At p = "").
Definition flood_wf (f : Flood) : Prop := count_ok (f_Count f) /\ (f_HasAt f = false -> f_At f = "").

Ltac field_step := econstructor; [by vm_compute | intros ? ?; cbn [partial_field flood_field p_HasAt f_HasAt p_set_State p_set_Reason p_set_Count f_set_Count
  zeroPartial zeroFlood negb]; scanned; reflexivity|].

Lemma partial_round p rest : partial_wf p -> scan_partial (obj partialKeys (partial_members p) +:+ rest) = Ok (p, rest).
Proof.
  intros (Hs & Hr & Hc & Ha). unfold scan_partial. destruct p as [st re at_ ha c]. cbn in *.
  unfold count_ok, partial_members, bytes_member in *. cbn [p_State p_Reason p_HasAt p_At p_Count app].
  apply full_object_run.
  - destruct ha; [|rewrite Ha by done]; [destruct (utf8_Valid at_) eqn:Ev|]; repeat field_step; constructor.
  - destruct ha; [destruct (utf8_Valid at_)|]; decided.
  - by destruct ha; [destruct (utf8_Valid at_)|].
Qed.

Lemma flood_round f rest : flood_wf f -> scan_flood (obj floodKeys (flood_members f) +:+ rest) = Ok (f, rest).
Proof.
  intros (Hc & Ha). unfold scan_flood. destruct f as [at_ ha c]. cbn in *.
  unfold count_ok, flood_members, bytes_member in *. cbn [f_HasAt f_At f_Count app].
  apply full_object_run.
  - destruct ha; [|rewrite Ha by done]; [destruct (utf8_Valid at_) eqn:Ev|]; repeat field_step; constructor.
  - destruct ha; [destruct (utf8_Valid at_)|]; decided.
  - by destruct ha; [destruct (utf8_Valid at_)|].
Qed.

(** Tallies. *)
Fixpoint tally_members (m : gmap string Z) (k : nat) (keys : list string) : list (nat * string) :=
  match keys with
  | [] => []
  | key :: keys => (k, format_int (default 0 (m !! key))) :: tally_members m (S k) keys
  end.

Lemma encode_tally_obj all m buf : encode_tally m true (buf +:+ "{") all +:+ "}" = buf +:+ obj all (tally_members m 0 all).
Proof.
  unfold obj. rewrite (opened_nil all), <- (opened_close all). f_equal.
  enough (Hgen : forall keys pre fs, all = pre ++ keys ->
    encode_tally m (is_nil fs) (opened all buf fs) keys = opened all buf (fs ++ tally_members m (length pre) keys))
    by apply (Hgen all [] [] eq_refl).
  induction keys as [|key keys IH]; intros pre fs Ea; cbn [encode_tally tally_members]; [by rewrite app_nil_r|].
  rewrite (opened_key all (length pre) key) by (subst; by rewrite lookup_app_r, Nat.sub_diag by lia).
  replace false with (is_nil (fs ++ [(length pre, format_int (default 0 (m !! key)))])) by (by destruct fs).
  rewrite (IH (pre ++ [key])) by (subst; by rewrite <- app_assoc).
  rewrite length_app, <- app_assoc. cbn [length app]. by rewrite Nat.add_1_r.
Qed.

(** A map of counts has the listed keys and no others. *)
Definition tally_wf (all : list string) (m : gmap string Z) : Prop :=
  dom m = list_to_set all /\ map_Forall (fun _ v => count_ok v) m.

Lemma tally_run all m : (forall k, (k < length all)%nat -> plain_key all k) -> tally_wf all m ->
  forall keys pre m0, all = pre ++ keys -> m0 ⊆ m -> dom m0 = list_to_set pre ->
  run all (fun k st s => try (v, s) := nonneg s in Ok (set_count all k v st, s)) m0 (tally_members m (length pre) keys) m.
Proof.
  intros Hk [Hdom Hc]. induction keys as [|key keys IH]; intros pre m0 Ea Hsub Hd.
  - rewrite app_nil_r in Ea. subst. cbn [tally_members]. replace m with m0; [constructor|].
    apply map_eq. intros i. destruct (m0 !! i) as [v|] eqn:E0; [by rewrite (lookup_weaken _ _ _ _ E0 Hsub)|].
    symmetry. apply not_elem_of_dom. rewrite Hdom, <- Hd. by apply not_elem_of_dom.
  - assert (El : all !! length pre = Some key) by (subst; by rewrite lookup_app_r, Nat.sub_diag by lia).
    assert (is_Some (m !! key)) as [v Ev].
    { apply elem_of_dom. rewrite Hdom, Ea. apply elem_of_list_to_set, elem_of_app. right. by left. }
    cbn [tally_members]. rewrite Ev. simpl default. pose proof (Hc _ _ Ev) as Hv. cbn beta in Hv.
    econstructor; [apply Hk; subst; rewrite length_app; simpl; lia | |].
    { intros rest Hr. rewrite nonneg_round by (done || by apply closes_stops). reflexivity. }
    unfold set_count. rewrite El. simpl default. replace (S (length pre)) with (length (pre ++ [key])) by (rewrite length_app; simpl; lia).
    apply IH; [subst; by rewrite <- app_assoc | by apply insert_subseteq_l |].
    rewrite dom_insert_L, Hd, list_to_set_app_L. simpl. set_solver.
Qed.

Lemma tally_members_keys m : forall keys k, (tally_members m k keys).*1 = seq k (length keys).
Proof. induction keys as [|key keys IH]; intros k; [done|]. cbn [tally_members fmap list_fmap length seq]. by rewrite <- IH. Qed.

Lemma tally_round all m rest : (forall k, (k < length all)%nat -> plain_key all k) ->
  requireAll (key_mask (seq 0 (length all))) all (length all) = Ok tt -> tally_wf all m ->
  tally all (set_count all) ∅ (obj all (tally_members m 0 all) +:+ rest) = Ok (m, rest).
Proof.
  intros Hk Hreq Hwf. apply full_object_run.
  - apply (tally_run all m Hk Hwf all []); [done | apply map_empty_subseteq | by rewrite dom_empty_L].
  - rewrite tally_members_keys. apply NoDup_ListNoDup, seq_NoDup.
  - by rewrite tally_members_keys.
Qed.

(** Counts, bytes and blobs. *)
Definition count_members (c : Counts) : list (nat * string) :=
  [(0%nat, obj AllTypes (tally_members (c_ByType c) 0 AllTypes)); (1%nat, obj AllStates (tally_members (c_ByState c) 0 AllStates));
   (2%nat, format_int (c_UnreadableNew c)); (3%nat, format_int (c_Badname c))].
Definition byte_members (b : ByteCounts) : list (nat * string) :=
  [(0%nat, format_int (b_Total b)); (1%nat, format_int (b_Read b)); (2%nat, format_int (b_New b))].
Definition blob_members (b : BlobCounts) : list (nat * string) :=
  [(0%nat, format_int (bl_New b)); (1%nat, format_int (bl_Repaired b))].

Lemma encode_counts_obj buf c : encode_counts buf c = buf +:+ obj countKeys (count_members c).
Proof.
  unfold encode_counts, obj. rewrite (opened_nil countKeys buf), <- (opened_close countKeys). cbv zeta.
  rewrite !encode_tally_obj, (opened_key countKeys 0 "by_type" _ []) by done. cbn [app].
  rewrite (opened_key countKeys 1 "by_state" _ (_ :: _)) by done. cbn [app].
  by rewrite (opened_int countKeys 2 "unreadable_new"), (opened_int countKeys 3 "badname") by done.
Qed.

Lemma encode_bytes_obj buf b : encode_bytes buf b = buf +:+ obj bytesKeys (byte_members b).
Proof.
  unfold encode_bytes, obj. rewrite (opened_nil bytesKeys), <- (opened_close bytesKeys). cbv zeta.
  rewrite (opened_key bytesKeys 0 "total" _ []) by done. cbn [app].
  by rewrite (opened_int bytesKeys 1 "read"), (opened_int bytesKeys 2 "new") by done.
Qed.

Lemma encode_blobs_obj buf b : encode_blobs buf b = buf +:+ obj blobsKeys (blob_members b).
Proof.
  unfold encode_blobs, obj. rewrite (opened_nil blobsKeys), <- (opened_close blobsKeys). cbv zeta.
  rewrite (opened_key blobsKeys 0 "new" _ []) by done. cbn [app].
  by rewrite (opened_int blobsKeys 1 "repaired") by done.
Qed.

Record counts_wf (c : Counts) : Prop := MkCountsWf {
  cw_type : tally_wf AllTypes (c_ByType c);
  cw_state : tally_wf AllStates (c_ByState c);
  cw_unreadable : count_ok (c_UnreadableNew c);
  cw_badname : count_ok (c_Badname c)
}.

Lemma plain_keys_all all : forallb (fun k => match all !! k with
    | Some name => bool_decide (index_of name all = Some k) && str_eqb (escape name) name && utf8_Valid name
    | None => false end) (seq 0 (length all)) = true ->
  forall k, (k < length all)%nat -> plain_key all k.
Proof.
  intros Hall k Hk. rewrite forallb_forall in Hall. specialize (Hall k ltac:(apply in_seq; lia)). unfold plain_key.
  destruct (all !! k); [|done]. guards. done.
Qed.

Lemma counts_round c rest : counts_wf c -> scan_counts (obj countKeys (count_members c) +:+ rest) = Ok (c, rest).
Proof.
  intros [Ht Hs Hu Hb]. unfold scan_counts. apply full_object_run; [| decided | by vm_compute].
  destruct c as [bt bs un bn]. unfold count_members, count_ok in *. cbn [c_ByType c_ByState c_UnreadableNew c_Badname] in *.
  econstructor; [by vm_compute | intros ? ?; cbn [count_field c_ByType zeroCounts];
    rewrite (tally_round AllTypes) by (done || by apply plain_keys_all || by vm_compute); reflexivity|].
  econstructor; [by vm_compute | intros ? ?; cbn [count_field c_ByState c_set_ByType zeroCounts];
    rewrite (tally_round AllStates) by (done || by apply plain_keys_all || by vm_compute); reflexivity|].
  do 2 (econstructor; [by vm_compute | intros ? ?; cbn [count_field]; scanned; reflexivity|]). constructor.
Qed.

Lemma bytes_round b rest : count_ok (b_Total b) -> count_ok (b_Read b) -> count_ok (b_New b) ->
  byteCounts (obj bytesKeys (byte_members b) +:+ rest) = Ok (b, rest).
Proof.
  intros H1 H2 H3. unfold count_ok in *. unfold byteCounts, tally. apply full_object_run; [| decided | by vm_compute].
  destruct b. unfold byte_members. cbn [b_Total b_Read b_New] in *.
  do 3 (econstructor; [by vm_compute | intros ? ?; scanned; reflexivity|]). constructor.
Qed.

Lemma blobs_round b rest : count_ok (bl_New b) -> count_ok (bl_Repaired b) ->
  blobCounts (obj blobsKeys (blob_members b) +:+ rest) = Ok (b, rest).
Proof.
  intros H1 H2. unfold count_ok in *. unfold blobCounts, tally. apply full_object_run; [| decided | by vm_compute].
  destruct b. unfold blob_members. cbn [bl_New bl_Repaired] in *.
  do 2 (econstructor; [by vm_compute | intros ? ?; scanned; reflexivity|]). constructor.
Qed.

(** * Single fields *)

Lemma timeField_round t rest : nano_range t -> timeField (jstr (formatTime t) +:+ rest) = Ok (t, rest).
Proof.
  intros Ht. unfold timeField. rewrite str_jstr by (apply plain_utf8, nano_plain). cbn [res_bind].
  by rewrite nano_round, str_eqb_refl.
Qed.

Definition nullable (id : string) : string := if is_empty id then "null" else jstr id.

Lemma literal_quote lit c r s : lit = String c r -> c <> quote -> literal lit (String quote s) = (false, String quote s).
Proof.
  intros -> Hc. unfold literal. destruct (HasPrefix _ _) eqn:E; [|done].
  apply HasPrefix_spec in E as [x Ex]. rewrite string_app_cons in Ex. by injection Ex as <-.
Qed.

Definition id_byte (c : ascii) : bool := is_digit c || bool_decide (c ∈ ["T"; "Z"; "-"]%char).

Lemma ValidID_bytes id : ValidID id = true -> string_forallb id_byte id = true.
Proof.
  assert (Hd : forall n k s, (forall s, k s = true -> string_forallb id_byte s = true) ->
    digits_then n k s = true -> string_forallb id_byte s = true).
  { induction n as [|n IH]; intros k s Hk; cbn [digits_then]; [apply Hk|]. destruct s as [|c s]; [done|].
    intros [Hc Hs]%andb_prop. cbn [string_forallb]. unfold id_byte at 1. rewrite Hc. by apply (IH k). }
  assert (Hb : forall b k s, id_byte b = true -> (forall s, k s = true -> string_forallb id_byte s = true) ->
    byte_then b k s = true -> string_forallb id_byte s = true).
  { intros b k s Hib Hk. destruct s as [|c s]; [done|]. cbn [byte_then string_forallb].
    intros [->%bool_decide_eq_true Hs]%andb_prop. by rewrite Hib, (Hk s Hs). }
  assert (He : forall s, is_empty s = true -> string_forallb id_byte s = true) by (by intros []).
  apply Hd. intros s. apply Hb; [done|]. clear s. intros s. apply Hd. clear s. intros s. apply Hb; [done|]. clear s. intros s.
  intros [Hs|Hs]%orb_prop; [by apply He|]. revert Hs. apply Hb; [done|]. clear s. intros s.
  intros [[Hs|Hs]%orb_prop|Hs]%orb_prop; revert Hs; by apply Hd.
Qed.

Lemma ValidID_utf8 id : ValidID id = true -> utf8_Valid id = true.
Proof.
  intros Hid%ValidID_bytes. apply plain_utf8. unfold plain. induction id as [|c id IH]; [done|]. cbn [string_forallb] in *.
  apply andb_prop in Hid as [Hc Hid]. rewrite IH, andb_true_r by done. clear -Hc. unfold id_byte, is_digit in Hc.
  rewrite !andb_true_iff, !negb_true_iff, !bool_decide_eq_false.
  apply orb_prop in Hc as [Hc%andb_prop|Hc%bool_decide_eq_true].
  - split_and!; try lia; intros E; apply (f_equal byte_val) in E; change (byte_val quote) with 34 in E; change (byte_val backslash) with 92 in E; lia.
  - rewrite !elem_of_cons, elem_of_nil in Hc. destruct Hc as [->|[->|[->|[]]]]; by vm_compute.
Qed.

Lemma nullable_round id rest : id = "" \/ ValidID id = true -> nullableID (nullable id +:+ rest) = Ok (id, rest).
Proof.
  unfold nullableID, nullable. intros [->|Hv].
  - simpl is_empty. cbn iota. by rewrite (literal_app "null").
  - destruct (is_empty id) eqn:Ee; [by destruct id|]. unfold jstr at 1. rewrite string_app_cons, (literal_quote _ "n" "ull") by done.
    rewrite str_jstr by (by apply ValidID_utf8). cbn [res_bind]. by rewrite Hv.
Qed.

Lemma appendNullableID_member keys k name buf id : keys !! k = Some name ->
  appendNullableID buf name id = app_members keys buf [(k, nullable id)].
Proof. intros E. rewrite (app_member _ _ name) by done. unfold appendNullableID, nullable. by destruct (is_empty id). Qed.

(** * The header *)

Definition partials_text (ps : list Partial) : string :=
  "[" +:+ join_elems (fun p => obj partialKeys (partial_members p)) true ps +:+ "]".
Definition floods_text (fs : list Flood) : string :=
  "[" +:+ join_elems (fun f => obj floodKeys (flood_members f)) true fs +:+ "]".
Definition bool_text (b : bool) : string := if b then "true" else "false".

Definition header_members (h : Header) : list (nat * string) :=
  [(0, format_int (h_Version h)); (1, jstr (h_ID h)); (2, format_uint (h_Seq h));
   (3, jstr (formatTime (h_Created h))); (4, jstr (formatTime (h_Finished h)));
   (5, jstr (h_Trigger h)); (6, jstr (h_Quiescent h)); (7, bool_text (h_Pinned h)); (8, jstr (h_LeverVersion h));
   bytes_member 21 (h_Tree h); (9, format_uint (h_TreeDev h)); (10, format_uint (h_TreeIno h));
   (11, obj rootKeys (root_members (h_Root h))); (12, nullable (h_CacheBase h)); (13, nullable (h_KnownBase h));
   (14, obj limitKeys (limit_members (h_Limits_ h))); (15, bool_text (h_Complete h));
   (16, partials_text (h_Partial_ h)); (17, floods_text (h_Flood_ h)); (18, obj countKeys (count_members (h_Counts_ h)));
   (19, obj bytesKeys (byte_members (h_Bytes h))); (20, obj blobsKeys (blob_members (h_Blobs h)))]%nat.

Lemma opened_app keys buf f fs gs : app_members keys (opened keys buf (f :: fs)) gs = opened keys buf (f :: fs ++ gs).
Proof.
  unfold app_members, opened. rewrite str_app_assoc, string_app_cons. cbn [members]. do 2 f_equal.
  rewrite str_app_assoc. f_equal. induction fs as [|g fs IH]; [done|]. cbn [app members_tail foldr].
  fold (members_tail keys fs) (members_tail keys (fs ++ gs)). by rewrite <- IH, !str_app_assoc.
Qed.

Lemma opened_value keys k name buf f fs v : keys !! k = Some name ->
  appendKey (opened keys buf (f :: fs)) true name +:+ v = opened keys buf (f :: fs ++ [(k, v)]).
Proof. apply (opened_key keys k name buf (f :: fs)). Qed.

Lemma opened_text keys k name buf f fs v : keys !! k = Some name ->
  appendJSONString (appendKey (opened keys buf (f :: fs)) true name) v = opened keys buf (f :: fs ++ [(k, jstr v)]).
Proof. apply (opened_jstr keys k name buf (f :: fs)). Qed.

Lemma EncodeHeader_members buf h :
  EncodeHeader buf h = buf +:+ obj headerKeys (header_members h) +:+ newline.
Proof.
  unfold EncodeHeader. cbv zeta.
  rewrite encode_blobs_obj, encode_bytes_obj, encode_counts_obj, encode_limits_obj, encode_root_obj,
    (encode_list_join _ _ _ encode_partial_obj), (encode_list_join _ _ _ encode_flood_obj).
  rewrite (opened_nil headerKeys buf), (opened_key headerKeys 0 "version" _ []) by done. cbn [app].
  unfold appendStrField, appendBoolField. fold (bool_text (h_Pinned h)) (bool_text (h_Complete h)).
  rewrite (opened_text headerKeys 1 "id") by done. cbn [app]. unfold appendUintField.
  rewrite (opened_value headerKeys 2 "seq") by done. cbn [app].
  rewrite (opened_text headerKeys 3 "created"), (opened_text headerKeys 4 "finished") by done. cbn [app].
  rewrite (opened_text headerKeys 5 "trigger"), (opened_text headerKeys 6 "quiescent") by done. cbn [app].
  rewrite (opened_value headerKeys 7 "pinned") by done. cbn [app].
  rewrite (opened_text headerKeys 8 "lever_version") by done. cbn [app].
  rewrite (opened_bytes headerKeys 21 "tree"), (opened_value headerKeys 9 "tree_dev"), (opened_value headerKeys 10 "tree_ino"),
    (opened_value headerKeys 11 "root") by done. cbn [app].
  rewrite (appendNullableID_member headerKeys 12 "cache_base"), (appendNullableID_member headerKeys 13 "known_base"), !opened_app by done.
  cbn [app]. rewrite (opened_value headerKeys 14 "limits"), (opened_value headerKeys 15 "complete") by done. cbn [app].
  rewrite !str_app_assoc.
  rewrite (opened_value headerKeys 16 "partial"), (opened_value headerKeys 17 "flood"), (opened_value headerKeys 18 "counts"),
    (opened_value headerKeys 19 "bytes"), <- (str_app_assoc (appendKey _ _ "blobs")), (opened_value headerKeys 20 "blobs") by done.
  cbn [app]. rewrite <- (str_app_assoc (opened _ _ _)), opened_close, str_app_assoc. reflexivity.
Qed.

(** What the encoder may be given: fields within their width, absent fields
    zero, texts that are UTF-8, and what [checkHeader] asks. *)
Record header_wf (h : Header) : Prop := MkHeaderWf {
  hw_version : int64_range (h_Version h);
  hw_seq : uint64_range (h_Seq h);
  hw_times : nano_range (h_Created h) /\ nano_range (h_Finished h);
  hw_texts : utf8_Valid (h_Trigger h) = true /\ utf8_Valid (h_Quiescent h) = true /\ utf8_Valid (h_LeverVersion h) = true;
  hw_tree : uint64_range (h_TreeDev h) /\ uint64_range (h_TreeIno h);
  hw_root : root_wf (h_Root h);
  hw_bases : (h_CacheBase h = "" \/ ValidID (h_CacheBase h) = true) /\ (h_KnownBase h = "" \/ ValidID (h_KnownBase h) = true);
  hw_limits : limits_wf (h_Limits_ h);
  hw_partial : Forall partial_wf (h_Partial_ h);
  hw_flood : Forall flood_wf (h_Flood_ h);
  hw_counts : counts_wf (h_Counts_ h);
  hw_bytes : count_ok (b_Total (h_Bytes h)) /\ count_ok (b_Read (h_Bytes h)) /\ count_ok (b_New (h_Bytes h));
  hw_blobs : count_ok (bl_New (h_Blobs h)) /\ count_ok (bl_Repaired (h_Blobs h));
  hw_check : checkHeader h = Ok tt
}.

Lemma partials_round ps rest : Forall partial_wf ps -> array scan_partial (partials_text ps +:+ rest) = Ok (ps, rest).
Proof.
  intros Hwf. unfold partials_text. rewrite !str_app_assoc. apply array_round; [|done].
  eapply Forall_impl; [exact Hwf|]. intros p Hp r. by apply partial_round.
Qed.

Lemma floods_round fs rest : Forall flood_wf fs -> array scan_flood (floods_text fs +:+ rest) = Ok (fs, rest).
Proof.
  intros Hwf. unfold floods_text. rewrite !str_app_assoc. apply array_round; [|done].
  eapply Forall_impl; [exact Hwf|]. intros f Hf r. by apply flood_round.
Qed.

Lemma checkHeader_id h : checkHeader h = Ok tt -> ValidID (h_ID h) = true.
Proof. unfold checkHeader. intros Hc. by destruct (h_Version h =? ManifestVersion), (ValidID (h_ID h)). Qed.

Ltac header_step := econstructor; [by vm_compute | intros ? ?; cbn [header_field];
  first [ scanned | rewrite timeField_round by done; cbn [res_bind] | rewrite boolean_round; cbn [res_bind]
        | rewrite root_round by done; cbn [res_bind] | rewrite nullable_round by done; cbn [res_bind]
        | rewrite limits_round by done; cbn [res_bind] | rewrite partials_round by done; cbn [res_bind]
        | rewrite floods_round by done; cbn [res_bind] | rewrite counts_round by done; cbn [res_bind]
        | rewrite bytes_round by done; cbn [res_bind] | rewrite blobs_round by done; cbn [res_bind] ]; reflexivity|].

Lemma run_header h : header_wf h -> run headerKeys header_field zeroHeader (header_members h) h.
Proof.
  intros [Hv Hs [Hc Hf] (Ht & Hq & Hl) [Hd Hi] Hr [Hcb Hkb] Hli Hp Hfl Hco (Hb1 & Hb2 & Hb3) [Hl1 Hl2] Hck].
  apply checkHeader_id, ValidID_utf8 in Hck.
  destruct h. cbn [h_Version h_ID h_Seq h_Created h_Finished h_Trigger h_Quiescent h_Pinned h_LeverVersion h_Tree h_TreeDev
    h_TreeIno h_Root h_CacheBase h_KnownBase h_Limits_ h_Complete h_Partial_ h_Flood_ h_Counts_ h_Bytes h_Blobs] in *.
  unfold header_members, bool_text, bytes_member.
  cbn [h_Version h_ID h_Seq h_Created h_Finished h_Trigger h_Quiescent h_Pinned h_LeverVersion h_Tree h_TreeDev
    h_TreeIno h_Root h_CacheBase h_KnownBase h_Limits_ h_Complete h_Partial_ h_Flood_ h_Counts_ h_Bytes h_Blobs].
  do 9 header_step. destruct (utf8_Valid _) eqn:Eu in |- *; do 13 header_step; constructor.
Qed.

(** The keys of a header's line, and what [decodeHeader] asks of them. *)
Definition header_ks (ut : bool) : list nat :=
  ([0; 1; 2; 3; 4; 5; 6; 7; 8] ++ [if ut then 21 else 22] ++ [9; 10; 11; 12; 13; 14; 15; 16; 17; 18; 19; 20])%nat.

Lemma header_members_keys h : (header_members h).*1 = header_ks (utf8_Valid (h_Tree h)).
Proof. unfold header_members, bytes_member, header_ks. by destruct (utf8_Valid (h_Tree h)). Qed.

Lemma header_ks_ok ut : NoDup (header_ks ut) /\ requireAll (key_mask (header_ks ut)) headerKeys 21 = Ok tt
  /\ negb (Bool.eqb (has (key_mask (header_ks ut)) 21) (has (key_mask (header_ks ut)) 22)) = true.
Proof. destruct ut; (split; [decided | split; vm_compute; reflexivity]). Qed.

(** A header's line decodes to the header. *)
Lemma header_round h : header_wf h -> decodeHeader (obj headerKeys (header_members h)) = Ok h.
Proof.
  intros Hwf. pose proof (run_header h Hwf) as Hr. pose proof (header_members_keys h) as Hk.
  destruct (header_ks_ok (utf8_Valid (h_Tree h))) as (Hnd & Hreq & Hone). rewrite <- Hk in *. rewrite <- mask_keys in *.
  unfold decodeHeader. rewrite <- (str_app_nil (obj headerKeys (header_members h))), (obj_run _ _ _ _ _ "" Hr Hnd).
  cbn [res_bind]. change (scan_end "") with (@Ok unit string tt). cbn [res_bind]. rewrite Hreq. cbn [res_bind].
  by rewrite Hone, (hw_check h Hwf).
Qed.

End Parts.

End HeaderRound.
