(* ===== verification/Manifest.v ===== *)
(** Tree-backup manifests ([internal/treebackup/manifest.go]): the summary the
    writer and the reader share, the writer, and the streaming, validating
    reader. A file is its bytes; failures of the reader or writer it stands on
    are left out, and so are the line numbers and quoted values of messages. *)

From S2P Require Import Prelude Go Token TreePath ManifestCodec ManifestEntry ManifestHeader.

Module Manifest.
Import TreePath ManifestCodec ManifestEntry ManifestHeader.

(** [crypto/sha256]. *)
Class SHA256 := {
  sha256_sum : bytes -> bytes;
  sha256_size : forall b, String.length (sha256_sum b) = 32%nat
}.

(** * Summaries *)

Record summary := MkSummary {
  s_byType : gmap string Z;
  s_byState : gmap string Z;
  s_partial : list Partial;
  s_complete : bool
}.

Definition zeros (keys : list string) : gmap string Z := foldl (fun m k => <[k := 0]> m) ∅ keys.

Definition newSummary (root : RootInfo) : summary := {|
  s_byType := zeros AllTypes;
  s_byState := zeros AllStates;
  s_partial := if str_eqb (r_State root) StateTruncated then [MkPartial StateTruncated (r_Reason root) "" false 1] else [];
  s_complete := negb (str_eqb (r_State root) StateUnreadable) && negb (str_eqb (r_State root) StateTruncated)
                && is_empty (r_Listing root)
|}.

Definition increment (k : string) (m : gmap string Z) : gmap string Z := <[k := default 0 (m !! k) + 1]> m.

(** The first element of the same state and reason counts one more; there is
    none in the last case. *)
Fixpoint bump (e : Entry) (ps : list Partial) : list Partial :=
  match ps with
  | [] => [MkPartial (e_State e) (e_Reason e) (e_Path e) true 1]
  | p :: ps =>
    if str_eqb (p_State p) (e_State e) && str_eqb (p_Reason p) (e_Reason e) then p_set_Count (p_Count p + 1) p :: ps
    else p :: bump e ps
  end.

Definition add (s : summary) (e : Entry) : summary :=
  let byType := increment (e_Type_ e) (s_byType s) in
  let byState := if str_eqb (e_State e) StateOK then s_byState s else increment (e_State e) (s_byState s) in
  if clearsComplete (e_State e) then MkSummary byType byState (bump e (s_partial s)) false
  else MkSummary byType byState (s_partial s) (s_complete s).

Definition Summarize (h : Header) (entries : list Entry) : Header :=
  let s := foldl add (newSummary (h_Root h)) entries in
  let h := h_set_Counts_ (c_set_ByType (s_byType s) (h_Counts_ h)) h in
  let h := h_set_Counts_ (c_set_ByState (s_byState s) (h_Counts_ h)) h in
  h_set_Complete (s_complete s) (h_set_Partial_ (s_partial s) h).

Definition trailerPrefix : string := "{" +:+ String quote "sha256" +:+ String quote ":" +:+ String quote "".
Definition trailerSuffix : string := String quote "}" +:+ newline.

Definition ManifestSlack : Z := 64 * 2 ^ 20.
Definition MaxLineBytes : Z := 128 * 2 ^ 10.
Definition maxHeaderBytes : Z := 512 * 2 ^ 10.

Definition manifestCap (l : Limits) : Z :=
  let c := MaxManifestCap in
  if l_Manifest l <? c - ManifestSlack then l_Manifest l + ManifestSlack else c.

(** What a reader reports besides entries. *)
Inductive rerr := EOF | Invalid (msg : string).

(** [ReadSlice]: up to the newline, and what follows it. *)
Fixpoint read_slice (s : string) : string * option string :=
  match s with
  | EmptyString => ("", None)
  | String c s' =>
    if bool_decide (c = "010"%char) then (String c "", Some s')
    else let '(l, r) := read_slice s' in (String c l, r)
  end.

(** The line without its last byte. *)
Fixpoint chop (s : string) : string :=
  match s with
  | String c (String d s' as r) => String c (chop r)
  | _ => ""
  end.

(** [reader], without the buffers; [br] is what is left of the file, [sum] the
    bytes hashed so far, and the stack has its top first. *)
Record reader := MkReader {
  r_br : string;
  r_id : string;
  r_h : Header;
  r_read : Z;
  r_limit : Z;
  r_sum : bytes;
  r_sm : summary;
  r_prev : option bytes;
  r_stack : list bytes;
  r_sealed : list bool;
  r_maxPath : Z;
  r_err : option rerr;
  r_done : bool
}.

Definition readLine (max limit read : Z) (br : string) : result (string * Z * string) rerr :=
  let '(line, rest) := read_slice br in
  require (len line <=? max) else Err (Invalid "line too long") in
  match rest with
  | Some rest =>
    let read := read + len line in
    require (read <=? limit) else Err (Invalid "manifest too large") in
    Ok (line, read, rest)
  | None => if is_empty line then Err EOF else Err (Invalid "last line has no newline")
  end.

(** The loop that leaves the directories the path is not under. *)
Fixpoint pop (path : bytes) (stack : list bytes) (sealed : list bool) : list bytes * list bool :=
  match stack with
  | d :: stack' => if IsUnder path d then (stack, sealed) else pop path stack' (tail sealed)
  | [] => (stack, sealed)
  end.

Definition check (r : reader) (e : Entry) : result reader string :=
  try _ := checkPath (e_Path e) (r_maxPath r) in
  require (negb (str_eqb (r_State (h_Root (r_h r))) StateUnreadable)) else Err "entry under an unreadable root" in
  require (match r_prev r with
           | Some prev => match ComparePaths prev (e_Path e) with Lt => true | _ => false end
           | None => true end) else Err "out of order or duplicate" in
  let '(stack, sealed) := pop (e_Path e) (r_stack r) (r_sealed r) in
  let top := default "" (hd_error stack) in
  require (str_eqb top (ParentOf (e_Path e))) else Err "parent is not a directory entry" in
  require (negb (negb (match stack with [] => true | _ => false end) && hd false sealed))
    else Err "entry under a directory that was never opened" in
  try _ := checkEntryFields e in
  let '(stack, sealed) :=
    if str_eqb (e_Type_ e) TypeDir
    then (e_Path e :: stack, (str_eqb (e_State e) StateMount || str_eqb (e_State e) StateExcluded) :: sealed)
    else (stack, sealed) in
  Ok (MkReader (r_br r) (r_id r) (r_h r) (r_read r) (r_limit r) (r_sum r) (r_sm r) (Some (e_Path e)) stack sealed
        (r_maxPath r) (r_err r) (r_done r)).

Definition partial_eqb (p q : Partial) : bool :=
  str_eqb (p_State p) (p_State q) && str_eqb (p_Reason p) (p_Reason q) && Bool.eqb (p_HasAt p) (p_HasAt q)
  && str_eqb (p_At p) (p_At q) && (p_Count p =? p_Count q).

Definition counts_agree (keys : list string) (a b : gmap string Z) : bool :=
  forallb (fun k => default 0 (a !! k) =? default 0 (b !! k)) keys.

Section Manifest.
Context `{StdBase64, NanoTime, SHA256}.

(** The line [finish] wants: the hash of what was written before it. *)
Definition trailer (sum : bytes) : string := trailerPrefix +:+ Token.hex_encode (sha256_sum sum) +:+ trailerSuffix.

(** The bytes [WriteManifest] writes. *)
Definition WriteManifest (h : Header) (entries : list Entry) : bytes :=
  let w := EncodeHeader "" h in
  let w := foldl (fun w e => w +:+ EncodeEntry "" e) w entries in
  w +:+ trailer w.

Definition finish (r : reader) (line : string) : rerr :=
  require (str_eqb line (trailer (r_sum r))) else Invalid "trailer does not match" in
  require (is_empty (r_br r)) else Invalid "data after the trailer" in
  let h := r_h r in
  let s := r_sm r in
  require (counts_agree AllTypes (c_ByType (h_Counts_ h)) (s_byType s)) else Invalid "header type counts" in
  require (counts_agree AllStates (c_ByState (h_Counts_ h)) (s_byState s)) else Invalid "header state counts" in
  require (Bool.eqb (h_Complete h) (s_complete s)) else Invalid "header complete" in
  require (Nat.eqb (length (h_Partial_ h)) (length (s_partial s))) else Invalid "header partial does not match the entries" in
  require (forallb (fun pq => partial_eqb pq.1 pq.2) (combine (h_Partial_ h) (s_partial s)))
    else Invalid "header partial does not match the entries" in
  EOF.

(** [next]; after an error only the error is kept, so the reader is not. *)
Definition next (r : reader) : result (Entry * reader) rerr :=
  match readLine MaxLineBytes (r_limit r) (r_read r) (r_br r) with
  | Err EOF => Err (Invalid "no trailer")
  | Err e => Err e
  | Ok (line, read, br) =>
    let r := MkReader br (r_id r) (r_h r) read (r_limit r) (r_sum r) (r_sm r) (r_prev r) (r_stack r) (r_sealed r)
               (r_maxPath r) (r_err r) (r_done r) in
    if HasPrefix line trailerPrefix then Err (finish r line)
    else
      match decodeEntry (chop line) with
      | Err m => Err (Invalid m)
      | Ok e =>
        match check r e with
        | Err m => Err (Invalid m)
        | Ok r =>
          Ok (e, MkReader (r_br r) (r_id r) (r_h r) (r_read r) (r_limit r) (r_sum r +:+ line) (add (r_sm r) e) (r_prev r)
                   (r_stack r) (r_sealed r) (r_maxPath r) (r_err r) (r_done r))
        end
      end
  end.

Definition stopped (r : reader) (err : option rerr) (done : bool) : reader :=
  MkReader (r_br r) (r_id r) (r_h r) (r_read r) (r_limit r) (r_sum r) (r_sm r) (r_prev r) (r_stack r) (r_sealed r)
    (r_maxPath r) err done.

Definition Next (r : reader) : result Entry rerr * reader :=
  match r_err r with
  | Some e => (Err e, r)
  | None =>
    if r_done r then (Err EOF, r)
    else
      match next r with
      | Ok (e, r') => (Ok e, r')
      | Err EOF => (Err EOF, stopped r None true)
      | Err e => (Err e, stopped r (Some e) false)
      end
  end.

(** [NewReader], with [open]. *)
Definition NewReader (br : string) (size : Z) (wantID : string) : result reader rerr :=
  require (ValidID wantID) else Err (Invalid "not a snapshot id") in
  require (size <=? MaxManifestCap) else Err (Invalid "manifest too large") in
  match readLine maxHeaderBytes MaxManifestCap 0 br with
  | Err EOF => Err (Invalid "empty manifest")
  | Err e => Err e
  | Ok (line, read, br) =>
    match decodeHeader (chop line) with
    | Err m => Err (Invalid ("header: " +:+ m))
    | Ok h =>
      require (str_eqb (h_ID h) wantID) else Err (Invalid "header id does not match the file name") in
      let limit := manifestCap (h_Limits_ h) in
      require (negb ((limit <? size) || (limit <? read))) else Err (Invalid "manifest too large") in
      Ok (MkReader br wantID h read limit line (newSummary (h_Root h)) None [] []
            (Z.min (l_Path (h_Limits_ h)) MaxPathCap) None false)
    end
  end.

(** The loop of [ValidateAll]; [None] is out of fuel. *)
Fixpoint validate_loop (fuel : nat) (r : reader) : option (result Header rerr) :=
  match fuel with
  | O => None
  | S fuel =>
    match Next r with
    | (Ok _, r) => validate_loop fuel r
    | (Err EOF, r) => Some (Ok (r_h r))
    | (Err e, _) => Some (Err e)
    end
  end.

Definition ValidateAll (fuel : nat) (open : result reader rerr) : option (result Header rerr) :=
  match open with
  | Err e => Some (Err e)
  | Ok r => validate_loop fuel r
  end.

End Manifest.

End Manifest.
