(* ===== verification/Listing.v ===== *)
(** The streaming checks of the manifest reader ([check]) accept exactly the
    listings of a tree: entries in order, each after the directory that holds
    it, none below a directory the walk never enters. *)

From Stdlib Require Import Sorting.Sorted.
From S2P Require Import Prelude Go TreePath ManifestEntry ManifestHeader Manifest.

Module Listing.
Import TreePath ManifestEntry ManifestHeader Manifest.

(** * Ancestors *)

Lemma under_nonempty p d : d <> "" -> IsUnder p d = true -> p <> "".
Proof. intros Hd [r ->]%IsUnder_spec; [by destruct d | done]. Qed.

Lemma under_lt p d : d <> "" -> IsUnder p d = true -> ComparePaths d p = Lt.
Proof.
  intros Hd (c & cs & E)%IsUnder_components; [|done]. rewrite ComparePaths_lex, E. apply lex_extension, Compare_eq.
Qed.

Lemma under_trans p q d : d <> "" -> IsUnder p q = true -> IsUnder q d = true -> IsUnder p d = true.
Proof.
  intros Hd Hpq Hqd. pose proof (under_nonempty _ _ Hd Hqd) as Hq.
  apply IsUnder_components in Hpq as (c & cs & E); [|done]. apply IsUnder_components in Hqd as (c' & cs' & E'); [|done].
  apply IsUnder_components; [done|]. exists c', (cs' ++ c :: cs). by rewrite E, E', <- app_assoc.
Qed.

Lemma parent_under p : ParentOf p <> "" -> IsUnder p (ParentOf p) = true.
Proof.
  intros Hp. destruct (ParentOf_components p) as [(E & _)|(E & _)]; [done|]. apply IsUnder_spec; [done|]. eauto.
Qed.

Lemma under_parent p d : d <> "" -> IsUnder p d = true -> d = ParentOf p \/ IsUnder (ParentOf p) d = true.
Proof.
  intros Hd Hu. pose proof Hu as (c & cs & E)%IsUnder_components; [|done].
  destruct (ParentOf_components p) as [(_ & _ & Hf)|(_ & _ & E2)].
  - rewrite components_one in E by done. pose proof (components_nonempty d). destruct (components d) as [|? [|]]; done.
  - rewrite E in E2. destruct (exists_last (l := c :: cs) ltac:(done)) as (k & b & Ek). rewrite Ek, app_assoc in E2.
    apply app_inj_tail in E2 as [E2 _]. destruct k as [|x k].
    + left. rewrite app_nil_r in E2. by apply components_inj.
    + right. apply IsUnder_components; [done|]. by exists x, k.
Qed.

Lemma lt_not_eq p : ComparePaths p p <> Lt.
Proof. by rewrite (proj2 (ComparePaths_eq p p) eq_refl). Qed.

Lemma lt_asym p q : ComparePaths p q = Lt -> ComparePaths q p <> Lt.
Proof. intros E. by rewrite ComparePaths_sym, E. Qed.

(** * Listings *)

Definition is_dir (e : Entry) : bool := str_eqb (e_Type_ e) TypeDir.
(** A directory the walk does not enter. *)
Definition sealed_dir (e : Entry) : bool := str_eqb (e_State e) StateMount || str_eqb (e_State e) StateExcluded.

(** The entry's directory is the root, or an entry before it that was opened. *)
Definition parent_in (es : list Entry) (e : Entry) : Prop :=
  ParentOf (e_Path e) = "" \/
  exists d, d ∈ es /\ e_Path d = ParentOf (e_Path e) /\ is_dir d = true /\ sealed_dir d = false.

Inductive listing (maxPath : Z) : list Entry -> Prop :=
| listing_nil : listing maxPath []
| listing_snoc es e :
    listing maxPath es -> checkPath (e_Path e) maxPath = Ok tt -> checkEntryFields e = Ok tt ->
    Forall (fun a => ComparePaths (e_Path a) (e_Path e) = Lt) es -> parent_in es e ->
    listing maxPath (es ++ [e]).

Lemma checkPath_nonempty p n : checkPath p n = Ok tt -> p <> "".
Proof. by intros Hc ->. Qed.

Definition check_all (r : reader) (es : list Entry) : result reader string :=
  foldl (fun acc e => try r := acc in check r e) (Ok r) es.

(** The directories above [q], or equal to it where [self]; deepest first. *)
Definition above (self : bool) (q : bytes) (es : list Entry) : list Entry :=
  rev (List.filter (fun d => is_dir d && (IsUnder q (e_Path d) || (self && str_eqb (e_Path d) q))) es).

Lemma in_above self q es d :
  In d (above self q es) <-> In d es /\ is_dir d = true /\ (IsUnder q (e_Path d) = true \/ (self = true /\ e_Path d = q)).
Proof.
  unfold above. rewrite <- in_rev, filter_In, andb_true_iff, orb_true_iff, andb_true_iff. unfold str_eqb.
  by rewrite bool_decide_eq_true.
Qed.

(** What the reader remembers after the entries [es]. *)
Record remembers (maxPath : Z) (r0 r : reader) (es : list Entry) : Prop := MkRemembers {
  rem_prev : r_prev r = e_Path <$> last es;
  rem_stack : r_stack r = map e_Path (above true (default "" (e_Path <$> last es)) es);
  rem_sealed : r_sealed r = map sealed_dir (above true (default "" (e_Path <$> last es)) es);
  rem_max : r_maxPath r = maxPath;
  rem_root : r_h r = r_h r0
}.

Definition chain (l : list Entry) : Prop := StronglySorted (fun a b => IsUnder (e_Path a) (e_Path b) = true) l.

Lemma pop_filter q l : chain l -> Forall (fun e => e_Path e <> "") l ->
  pop q (map e_Path l) (map sealed_dir l)
  = (map e_Path (List.filter (fun d => IsUnder q (e_Path d)) l), map sealed_dir (List.filter (fun d => IsUnder q (e_Path d)) l)).
Proof.
  induction 1 as [|d l Hc IH Hd]; intros Hne; [done|]. apply Forall_cons in Hne as [Hnd Hne]. cbn [pop map List.filter].
  destruct (IsUnder q (e_Path d)) eqn:Eu; [|by apply IH].
  enough (List.filter (fun d => IsUnder q (e_Path d)) l = l) as -> by done.
  clear IH Hc. induction l as [|a l IH]; [done|]. apply Forall_cons in Hne as [Hna Hne]. inversion Hd; subst.
  cbn [List.filter]. rewrite (under_trans q (e_Path d) (e_Path a)) by done. by rewrite IH.
Qed.

(** Entries in order, with paths. *)
Definition ordered (es : list Entry) : Prop :=
  StronglySorted (fun a b => ComparePaths (e_Path a) (e_Path b) = Lt) es /\ Forall (fun e => e_Path e <> "") es.

Lemma ordered_snoc es e : ordered (es ++ [e]) <->
  ordered es /\ Forall (fun a => ComparePaths (e_Path a) (e_Path e) = Lt) es /\ e_Path e <> "".
Proof.
  unfold ordered. rewrite Forall_app, Forall_singleton. induction es as [|a es IH]; cbn [app].
  - split; intros; destruct_and?; split_and!; try done; repeat constructor.
  - rewrite !Forall_cons. split.
    + intros (Hs & (Ha & Hn) & He). inversion Hs as [|? ? Hs' Hf]; subst. apply Forall_app in Hf as [Hf Hfe].
      apply Forall_cons in Hfe as [Hfe _]. apply proj1 in IH. specialize (IH (conj Hs' (conj Hn He))) as ((? & ?) & ? & ?).
      split_and!; try done; by constructor.
    + intros ((Hs & Ha & Hn) & (Hae & Hf) & He). inversion Hs as [|? ? Hs' Hf']; subst.
      split_and!; try done. constructor; [by apply IH|]. apply Forall_app. by rewrite Forall_singleton.
Qed.

Lemma above_snoc self q es e :
  above self q (es ++ [e])
  = (if is_dir e && (IsUnder q (e_Path e) || (self && str_eqb (e_Path e) q)) then [e] else []) ++ above self q es.
Proof. unfold above. rewrite List.filter_app, rev_app_distr. cbn [List.filter]. by destruct (is_dir e && _). Qed.

Lemma above_chain self q es : ordered es -> Forall (fun e => ComparePaths (e_Path e) q <> Gt) es -> chain (above self q es).
Proof.
  induction es as [|e es IH] using rev_ind; intros Ho Hq; [constructor|]. rewrite above_snoc.
  apply ordered_snoc in Ho as (Ho & Hlt & Hne). apply Forall_app in Hq as [Hq Heq]. apply Forall_cons in Heq as [Heq _].
  destruct (is_dir e && _) eqn:Ee; [|by apply IH]. cbn [app]. constructor; [by apply IH|]. apply Forall_forall.
  intros d Hd%list_elem_of_In%in_above. destruct Hd as (Hin & Hdd & Hd). apply list_elem_of_In in Hin.
  rewrite Forall_forall in Hlt. specialize (Hlt d Hin). destruct Ho as [_ Hpaths]. rewrite Forall_forall in Hpaths.
  specialize (Hpaths d Hin). destruct Hd as [Hd|[_ <-]].
  - by apply (between_under (e_Path d) (e_Path e) q).
  - exfalso. apply Heq. by rewrite ComparePaths_sym, Hlt.
Qed.

Lemma above_nonempty self q es : ordered es -> Forall (fun e => e_Path e <> "") (above self q es).
Proof.
  intros [_ Hp]. rewrite Forall_forall in *. intros d Hd%list_elem_of_In%in_above. destruct Hd as (Hin & _).
  by apply Hp, list_elem_of_In.
Qed.

(** The last path comes at or after every other one. *)
Lemma last_greatest es e : ordered (es ++ [e]) -> Forall (fun a => ComparePaths (e_Path a) (e_Path e) <> Gt) (es ++ [e]).
Proof.
  intros (_ & Hlt & _)%ordered_snoc. apply Forall_app. split.
  - eapply Forall_impl; [exact Hlt|]. cbn. congruence.
  - apply Forall_singleton. by rewrite (proj2 (ComparePaths_eq _ _) eq_refl).
Qed.

(** What is left of the stack when the reader comes to [e]. *)
Lemma above_narrow es e : ordered es -> Forall (fun a => ComparePaths (e_Path a) (e_Path e) = Lt) es ->
  List.filter (fun d => IsUnder (e_Path e) (e_Path d)) (above true (default "" (e_Path <$> last es)) es)
  = above false (e_Path e) es.
Proof.
  intros Ho Hlt. unfold above. rewrite List.filter_rev. f_equal. destruct es as [|l es _] using rev_ind; [done|].
  rewrite last_snoc. simpl default. pose proof (last_greatest _ _ Ho) as Hle. pose proof Ho as [_ Hne].
  apply Forall_app in Hlt as [_ Hl]. apply Forall_cons in Hl as [Hl _].
  rewrite Forall_forall in Hle, Hne. revert Hle Hne. generalize (es ++ [l]). intros ds Hle Hne.
  induction ds as [|d ds IH]; [done|]. cbn [List.filter].
  assert (Hd : IsUnder (e_Path e) (e_Path d) = true -> IsUnder (e_Path l) (e_Path d) || str_eqb (e_Path d) (e_Path l) = true).
  { intros Hu. assert (Hdl : ComparePaths (e_Path d) (e_Path l) <> Gt) by (apply Hle; left).
    assert (Hdn : e_Path d <> "") by (apply Hne; left).
    destruct (ComparePaths (e_Path d) (e_Path l)) eqn:Ec; [| |done].
    - apply ComparePaths_eq in Ec. by rewrite Ec, str_eqb_refl, orb_true_r.
    - rewrite (between_under (e_Path d) (e_Path l) (e_Path e)); try done. by rewrite Hl. }
  specialize (IH ltac:(intros; apply Hle; by right) ltac:(intros; apply Hne; by right)).
  cbn [andb] in *. destruct (is_dir d), (IsUnder (e_Path e) (e_Path d)) eqn:Eu; cbn [andb orb].
  - rewrite (Hd eq_refl). cbn [List.filter]. by rewrite Eu, IH.
  - destruct (IsUnder (e_Path l) (e_Path d) || _); cbn [List.filter]; [by rewrite Eu | done].
  - done.
  - done.
Qed.

Lemma above_self es e : Forall (fun a => ComparePaths (e_Path a) (e_Path e) = Lt) es ->
  above true (e_Path e) es = above false (e_Path e) es.
Proof.
  intros Hlt. unfold above. f_equal. apply List.filter_ext_in. intros d Hd%list_elem_of_In. f_equal. cbn [andb]. f_equal.
  rewrite Forall_forall in Hlt. specialize (Hlt d Hd). unfold str_eqb. apply bool_decide_eq_false. intros E.
  rewrite E in Hlt. by apply (lt_not_eq (e_Path e)).
Qed.

Lemma not_under_self p : p <> "" -> IsUnder p p = false.
Proof. intros Hp. destruct (IsUnder p p) eqn:E; [|done]. by apply under_lt, lt_not_eq in E. Qed.

(** The deepest directory above [e] is its parent, when the parent was listed. *)
Lemma above_parent es e : ordered es -> Forall (fun a => ComparePaths (e_Path a) (e_Path e) = Lt) es ->
  match above false (e_Path e) es with
  | [] => forall d, d ∈ es -> is_dir d = true -> e_Path d = ParentOf (e_Path e) -> ParentOf (e_Path e) = ""
  | d :: _ => d ∈ es /\ is_dir d = true /\ e_Path d <> "" /\ ParentOf (e_Path e) <> ""
      /\ forall d', d' ∈ es -> is_dir d' = true -> e_Path d' = ParentOf (e_Path e) -> d' = d
  end.
Proof.
  intros Ho Hlt. assert (Hc : chain (above false (e_Path e) es)).
  { apply above_chain; [done|]. eapply Forall_impl; [exact Hlt|]. cbn. congruence. }
  assert (Hin : forall d, d ∈ es -> is_dir d = true -> e_Path d = ParentOf (e_Path e) -> ParentOf (e_Path e) <> "" ->
    In d (above false (e_Path e) es)).
  { intros d Hd Hdd Ed Hp. apply in_above. split_and!; [by apply list_elem_of_In | done | left]. rewrite Ed. by apply parent_under. }
  destruct (above false (e_Path e) es) as [|d ds] eqn:Ea.
  - intros d Hd Hdd Ed. destruct (decide (ParentOf (e_Path e) = "")) as [|Hp]; [done|]. by destruct (Hin d Hd Hdd Ed Hp).
  - assert (Hd : In d (above false (e_Path e) es)) by (rewrite Ea; by left).
    pose proof (above_nonempty false (e_Path e) es Ho) as Hne. rewrite Ea in Hne. apply Forall_cons in Hne as [Hne _].
    apply in_above in Hd as (Hd & Hdd & [Hu|[? _]]); [|done].
    assert (Hp : ParentOf (e_Path e) <> "").
    { intros Ep. destruct (under_parent _ _ Hne Hu) as [E|E]; [congruence|]. rewrite Ep in E. by apply under_nonempty in E. }
    split_and!; [by apply list_elem_of_In | done | done | done |].
    intros d' Hd' Hdd' Ed'. destruct (Hin d' Hd' Hdd' Ed' Hp) as [|Hin']; [done|]. exfalso.
    inversion Hc as [|? ? _ Hf]; subst. rewrite Forall_forall in Hf. specialize (Hf d' ltac:(by apply list_elem_of_In)).
    rewrite Ed' in Hf. destruct (under_parent _ _ Hne Hu) as [E|E].
    + rewrite E in Hf. by rewrite not_under_self in Hf.
    + apply under_lt in Hf, E; [|done..]. by apply (lt_asym _ _ Hf).
Qed.

(** * The checks *)

Definition admissible (maxPath : Z) (es : list Entry) (e : Entry) : Prop :=
  checkPath (e_Path e) maxPath = Ok tt /\ checkEntryFields e = Ok tt
  /\ Forall (fun a => ComparePaths (e_Path a) (e_Path e) = Lt) es /\ parent_in es e.

(** [check] changes nothing but what it remembers of the path. *)
Definition same_stream (r r' : reader) : Prop :=
  r_br r' = r_br r /\ r_id r' = r_id r /\ r_h r' = r_h r /\ r_read r' = r_read r /\ r_limit r' = r_limit r
  /\ r_sum r' = r_sum r /\ r_sm r' = r_sm r /\ r_err r' = r_err r /\ r_done r' = r_done r.

Lemma after_last es e : ordered es ->
  match e_Path <$> last es with Some prev => match ComparePaths prev (e_Path e) with Lt => true | _ => false end | None => true end = true
  <-> Forall (fun a => ComparePaths (e_Path a) (e_Path e) = Lt) es.
Proof.
  intros Ho. destruct es as [|l es _] using rev_ind; [by split|]. rewrite last_snoc. cbn [fmap option_fmap option_map].
  split.
  - intros Hl. pose proof (last_greatest _ _ Ho) as Hle. eapply Forall_impl; [exact Hle|]. cbn. intros a Ha.
    destruct (ComparePaths (e_Path l) (e_Path e)) eqn:E; try done.
    destruct (ComparePaths (e_Path a) (e_Path l)) eqn:Ea; [|by eapply ComparePaths_trans|done].
    apply ComparePaths_eq in Ea. by rewrite Ea.
  - intros [_ Hl]%Forall_app. apply Forall_cons in Hl as [-> _]. done.
Qed.

(** The test on the top of the stack finds the parent, and that it was opened. *)
Lemma top_is_parent es e : ordered es -> Forall (fun a => ComparePaths (e_Path a) (e_Path e) = Lt) es ->
  let ds := above false (e_Path e) es in
  str_eqb (default "" (hd_error (map e_Path ds))) (ParentOf (e_Path e))
    && negb (negb (match map e_Path ds with [] => true | _ => false end) && hd false (map sealed_dir ds)) = true
  <-> parent_in es e.
Proof.
  intros Ho Hlt ds. pose proof (above_parent es e Ho Hlt) as Hp. fold ds in Hp. unfold parent_in.
  destruct ds as [|d ds']; cbn [map hd_error hd]; simpl default.
  - rewrite andb_true_r. split.
    + intros E%str_eqb_eq. by left.
    + intros [->|(d & Hd & Ed & Hdd & _)]; [done|]. by rewrite (Hp d Hd Hdd Ed).
  - destruct Hp as (Hd & Hdd & Hne & Hpne & Huniq). cbn [negb andb]. rewrite andb_true_iff, negb_true_iff. split.
    + intros [Ed%str_eqb_eq Hs]. right. by exists d.
    + intros [|(d' & Hd' & Ed' & Hdd' & Hs')]; [done|]. pose proof (Huniq d' Hd' Hdd' Ed') as ->. by rewrite Ed', str_eqb_refl.
Qed.

Lemma check_step maxPath r0 r es e : remembers maxPath r0 r es -> ordered es -> r_State (h_Root (r_h r0)) <> StateUnreadable ->
  match check r e with
  | Ok r' => admissible maxPath es e /\ remembers maxPath r0 r' (es ++ [e]) /\ same_stream r r'
  | Err _ => ~ admissible maxPath es e
  end.
Proof.
  intros [Hprev Hst Hse Hmax Hroot] Ho Hun. unfold check, admissible. rewrite Hprev, Hst, Hse, Hmax, Hroot.
  destruct (checkPath (e_Path e) maxPath) as [[]|] eqn:Ecp; cbn [res_bind]; [|by intros (? & _)].
  assert (str_eqb (r_State (h_Root (r_h r0))) StateUnreadable = false) as -> by (unfold str_eqb; by apply bool_decide_eq_false).
  cbn [negb]. destruct (match e_Path <$> last es with Some _ => _ | None => _ end) eqn:Eo; cycle 1.
  { intros (_ & _ & Hlt & _). apply (after_last es e Ho) in Hlt. congruence. }
  apply (after_last es e Ho) in Eo. rewrite pop_filter; [|apply above_chain; [done|] | by apply above_nonempty]; cycle 1.
  { destruct es as [|l es _] using rev_ind; [constructor|]. rewrite last_snoc. by apply last_greatest. }
  rewrite (above_narrow es e Ho Eo). pose proof (top_is_parent es e Ho Eo) as Htop. cbn zeta in Htop.
  destruct (str_eqb (default "" (hd_error _)) _); cbn [andb] in Htop; cycle 1.
  { intros (_ & _ & _ & Hp). apply Htop in Hp. done. }
  destruct (negb (_ && _)); cycle 1.
  { intros (_ & _ & _ & Hp). apply Htop in Hp. done. }
  destruct (checkEntryFields e) as [[]|]; cbn [res_bind]; [|by intros (_ & ? & _)].
  fold (is_dir e) (sealed_dir e).
  assert (Ha : above true (default "" (e_Path <$> last (es ++ [e]))) (es ++ [e])
             = (if is_dir e then [e] else []) ++ above false (e_Path e) es).
  { rewrite last_snoc. simpl default. rewrite above_snoc, above_self by done. by rewrite str_eqb_refl, orb_true_r, andb_true_r. }
  assert (Hadm : parent_in es e) by (by apply Htop).
  destruct (is_dir e); (split; [done|]; split; [|done]); constructor; cbn [r_prev r_stack r_sealed r_maxPath r_h]; try done;
    rewrite ?last_snoc in *; simpl default in *; by rewrite ?Ha.
Qed.

Lemma admissible_snoc maxPath es e : listing maxPath es -> admissible maxPath es e <-> listing maxPath (es ++ [e]).
Proof.
  intros Hl. split; [intros (? & ? & ? & ?); by constructor|]. intros Hs. inversion Hs as [E|es' e' ? ? ? ? ? E]; [by destruct es|].
  apply app_inj_tail in E as [-> ->]. done.
Qed.

Lemma listing_ordered maxPath es : listing maxPath es -> ordered es.
Proof.
  induction 1; [split; constructor|]. apply ordered_snoc. split_and!; [done..|]. by eapply checkPath_nonempty.
Qed.

(** A reader before its first entry. *)
Definition fresh (r : reader) : Prop := r_prev r = None /\ r_stack r = [] /\ r_sealed r = [].

Lemma fresh_remembers r : fresh r -> remembers (r_maxPath r) r r [].
Proof. intros (H1 & H2 & H3). by constructor. Qed.

Lemma check_all_snoc r es e : check_all r (es ++ [e]) = (try r' := check_all r es in check r' e).
Proof. unfold check_all. by rewrite foldl_app. Qed.

Lemma check_all_spec r es : fresh r -> r_State (h_Root (r_h r)) <> StateUnreadable ->
  match check_all r es with
  | Ok r' => listing (r_maxPath r) es /\ remembers (r_maxPath r) r r' es
  | Err _ => ~ listing (r_maxPath r) es
  end.
Proof.
  intros Hf Hun. induction es as [|e es IH] using rev_ind.
  { split; [constructor | by apply fresh_remembers]. }
  rewrite check_all_snoc. destruct (check_all r es) as [r'|m]; cbn [res_bind].
  - destruct IH as [Hl Hrem]. pose proof (check_step _ _ _ _ e Hrem (listing_ordered _ _ Hl) Hun) as Hs.
    destruct (check r' e) as [r''|]; [|by rewrite <- admissible_snoc].
    destruct Hs as (Ha & Hr & _). split; [by apply admissible_snoc | done].
  - intros Hl. apply IH. inversion Hl as [E|es' e' ? ? ? ? ? E]; [by destruct es|]. by apply app_inj_tail in E as [-> ->].
Qed.

Lemma check_all_iff r es : fresh r ->
  (exists r', check_all r es = Ok r')
  <-> listing (r_maxPath r) es /\ (r_State (h_Root (r_h r)) = StateUnreadable -> es = []).
Proof.
  intros Hf. destruct (decide (r_State (h_Root (r_h r)) = StateUnreadable)) as [Hun|Hun].
  - split.
    + intros [r' Hr]. enough (es = []) as -> by (split; [constructor | done]). destruct es as [|e es]; [done|]. exfalso.
      unfold check_all in Hr. cbn [foldl] in Hr.
      assert (Hc : exists m, (try r := Ok r in check r e) = Err m).
      { cbn [res_bind]. unfold check. destruct (checkPath _ _); cbn [res_bind]; [|by eexists]. rewrite Hun. by eexists. }
      destruct Hc as [m Hc]. rewrite Hc in Hr. clear -Hr. induction es as [|a es IH]; [done|]. cbn [foldl res_bind] in Hr. auto.
    + intros [_ ->]; [|done]. by exists r.
  - pose proof (check_all_spec r es Hf Hun) as Hs. destruct (check_all r es).
    + split; [|by eexists]. intros _. by destruct Hs.
    + split; [by intros [r' ?] | by intros [? _]].
Qed.

(** The reader's streaming checks implement the specification of a tree
    listing: from a fresh reader they accept a sequence of entries exactly when
    the root could be read (or there are none), every path and every entry's
    fields obey the rules, each path comes strictly after all those before it,
    and its directory is the root or a directory listed before it that the walk
    entered. *)
Theorem check_accepts_listings r es : fresh r ->
  (exists r', check_all r es = Ok r')
  <-> listing (r_maxPath r) es /\ (r_State (h_Root (r_h r)) = StateUnreadable -> es = []).
Proof. apply check_all_iff. Qed.

End Listing.
