(* ===== verification/ManifestRound.v ===== *)
(** A manifest file as a whole: lines hold no newline and fit their caps, a
    written manifest is read back, and an accepted one is what it says. *)

From S2P Require Import Prelude Go Token TreePath ManifestCodec ManifestEntry ManifestHeader HeaderRound Manifest Listing.

Module ManifestRound.
Import TreePath ManifestCodec ManifestEntry ManifestHeader HeaderRound Manifest Listing.

(** * Lines *)

(** No control byte, so no newline. *)
Definition clean (s : string) : bool := string_forallb (fun c => 32 <=? byte_val c) s.

Lemma clean_app a b : clean (a +:+ b) = clean a && clean b.
Proof. apply forallb_app. Qed.

Lemma clean_cons c s : clean (String c s) = (32 <=? byte_val c) && clean s.
Proof. done. Qed.

Lemma plain_clean s : plain s = true -> clean s = true.
Proof.
  unfold plain, clean. induction s as [|c s IH]; [done|]. cbn [string_forallb]. intros [H Hs]%andb_prop. guards.
  rewrite (IH Hs), andb_true_r. lia.
Qed.

Lemma digits_clean s : string_forallb is_digit s = true -> clean s = true.
Proof.
  unfold clean. induction s as [|c s IH]; [done|]. cbn [string_forallb]. intros [H Hs]%andb_prop. rewrite (IH Hs), andb_true_r.
  unfold is_digit in H. lia.
Qed.

Lemma hexdig_clean i : 0 <= i < 16 -> (32 <=? byte_val (hexdig i)) = true.
Proof. intros Hi. unfold hexdig. rewrite byte_val_of_nat by (destruct (i <? 10); lia). destruct (Z.ltb_spec i 10); lia. Qed.

Lemma escape_clean b : clean (escape b) = true.
Proof.
  induction b as [b IH] using (induction_ltof1 _ String.length). unfold ltof in IH. destruct b as [|c b]; [done|].
  cbn [escape]. pose proof (byte_val_range c) as Hc.
  assert (Hb : clean (escape b) = true) by (apply IH; simpl; lia).
  destruct (bool_decide (c = quote) || bool_decide (c = backslash)) eqn:E.
  { rewrite !clean_cons, Hb, andb_true_r. apply orb_prop in E as [->%bool_decide_eq_true| ->%bool_decide_eq_true]; done. }
  destruct (Z.ltb_spec (byte_val c) 32) as [Hlt|Hge].
  { rewrite clean_app, !clean_cons, Hb, !hexdig_clean; [done | by apply Z.mod_pos_bound |].
    split; [apply Z.div_pos | apply Z.div_lt_upper_bound]; lia. }
  assert (Hd : clean (String c (escape b)) = true) by (rewrite clean_cons, Hb; lia).
  destruct b as [|c1 [|c2 b2]]; [done..|]. destruct (_ && _); [|done].
  rewrite clean_app, !clean_cons, hexdig_clean, IH by (by apply Z.mod_pos_bound || (simpl; lia)). done.
Qed.

Lemma jstr_clean b : clean (jstr b) = true.
Proof. unfold jstr. by rewrite clean_cons, clean_app, escape_clean. Qed.

Lemma format_uint_clean v : uint64_range v -> clean (format_uint v) = true.
Proof. intros Hv. apply digits_clean, (sp_digits _ v), format_uint_spells, Hv. Qed.

Lemma format_int_clean v : int64_range v -> clean (format_int v) = true.
Proof.
  unfold int64_range, min_int64, max_int64, format_int. intros Hv. destruct (Z.ltb_spec v 0); [rewrite clean_cons|];
    apply format_uint_clean; unfold uint64_range; lia.
Qed.

Lemma count_clean v : 0 <= v <= max_int64 -> clean (format_int v) = true.
Proof. intros Hv. apply format_int_clean. unfold int64_range, min_int64. lia. Qed.

Lemma obj_clean keys fs : forallb clean keys = true -> Forall (fun kv => clean kv.2 = true) fs -> clean (obj keys fs) = true.
Proof.
  intros Hk Hf. unfold obj. rewrite clean_cons, clean_app, andb_true_r.
  assert (Hm : forall kv, clean kv.2 = true -> clean (member keys kv) = true).
  { intros kv Hv. unfold member. rewrite !clean_app, !clean_cons, Hv.
    destruct (keys !! kv.1) as [name|] eqn:E; [|done]. simpl default. rewrite forallb_forall in Hk.
    by rewrite (Hk name) by (apply list_elem_of_In; by eapply list_elem_of_lookup_2). }
  assert (Ht : forall l, Forall (fun kv => clean kv.2 = true) l -> clean (members_tail keys l) = true).
  { induction 1 as [|kv l Hkv _ IH]; [done|]. cbn [members_tail foldr]. fold (members_tail keys l).
    by rewrite !clean_app, clean_cons, (Hm kv Hkv), IH. }
  destruct Hf as [|kv fs Hkv Hf]; [done|]. cbn [members]. by rewrite clean_app, (Hm kv Hkv), Ht.
Qed.

Lemma read_line body rest : clean body = true ->
  read_slice (body +:+ newline +:+ rest) = (body +:+ newline, Some rest).
Proof.
  induction body as [|c body IH]; [done|]. rewrite clean_cons. intros [Hc Hb]%andb_prop.
  rewrite !string_app_cons. cbn [read_slice]. rewrite bool_decide_eq_false_2 by (intros ->; by vm_compute in Hc).
  by rewrite IH.
Qed.

Lemma chop_line body : chop (body +:+ newline) = body.
Proof.
  induction body as [|c body IH]; [done|]. rewrite string_app_cons.
  assert (E : exists d s, body +:+ newline = String d s) by (destruct body; rewrite ?string_app_cons; eauto).
  destruct E as (d & s & E). rewrite E in *. cbn [chop] in *. by rewrite IH.
Qed.

Lemma read_slice_spec s : match read_slice s with (l, Some r) => s = l +:+ r /\ exists b, l = b +:+ newline | (l, None) => s = l end.
Proof.
  induction s as [|c s IH]; [done|]. cbn [read_slice]. case_bool_decide as E.
  - subst. split; [done|]. by exists "".
  - destruct (read_slice s) as [l [r|]]; [|by subst]. destruct IH as [-> (b & ->)]. split; [done|]. by exists (String c b).
Qed.

Section Lines.
Context `{StdBase64, NanoTime}.

Lemma b64str_clean b : clean (b64str b) = true.
Proof. unfold b64str. rewrite clean_cons, clean_app. by rewrite (plain_clean (std_encode b)) by apply std_plain. Qed.

Lemma bytes_member_clean k b : clean (bytes_member k b).2 = true.
Proof. unfold bytes_member. destruct (utf8_Valid b); [apply jstr_clean | apply b64str_clean]. Qed.

Lemma Forall_if {A} (P : A -> Prop) (c : bool) l : (c = true -> Forall P l) -> Forall P (if c then l else []).
Proof. destruct c; auto. Qed.

#[local] Hint Resolve jstr_clean format_uint_clean format_int_clean count_clean bytes_member_clean : core.

Lemma entry_clean e : codec_wf e -> clean (obj entryKeys (entry_members e)) = true.
Proof.
  intros [Hmo Hsz [Hmt Hct] (Hde & Hin & Hnl) _ _ [Hve _] _ _]. apply obj_clean; [done|].
  assert (uint64_range (e_Mode e)) by (unfold uint64_range; lia). unfold entry_members.
  repeat first [ apply Forall_cons_2; [cbn [snd]; auto; fail|] | apply Forall_app_2 | apply Forall_if; intros _ | apply Forall_nil_2 ].
Qed.

Lemma join_clean {A} (text : A -> string) l first : Forall (fun a => clean (text a) = true) l -> clean (join_elems text first l) = true.
Proof.
  intros Hl. revert first. induction Hl as [|a l Ha _ IH]; intros first; [done|]. cbn [join_elems].
  rewrite !clean_app, Ha, IH. by destruct first.
Qed.

Lemma tally_clean all m : tally_wf all m -> forall keys k, (forall key, key ∈ keys -> key ∈ all) ->
  Forall (fun kv => clean kv.2 = true) (tally_members m k keys).
Proof.
  intros [Hd Hc]. induction keys as [|key keys IH]; intros k Hin; [constructor|]. cbn [tally_members]. constructor; [|apply IH; set_solver].
  cbn [snd]. assert (is_Some (m !! key)) as [v Ev] by (apply elem_of_dom; rewrite Hd; apply elem_of_list_to_set, Hin; left).
  rewrite Ev. simpl default. apply count_clean. exact (Hc _ _ Ev).
Qed.

Lemma header_clean h : header_wf h -> clean (obj headerKeys (header_members h)) = true.
Proof.
  intros [Hv Hs _ _ [Hd Hi] [Hrm Hrt _ _] _ [] Hp Hfl [Hct Hcs Hcu Hcb] (Hb1 & Hb2 & Hb3) [Hl1 Hl2] _]. apply obj_clean; [done|].
  assert (uint64_range (r_Mode (h_Root h))) by (unfold uint64_range; lia). unfold count_ok in *.
  assert (Hbool : forall b, clean (bool_text b) = true) by (by intros []).
  assert (Hnull : forall id, clean (nullable id) = true) by (intros id; unfold nullable; destruct (is_empty id); auto).
  assert (Hroot : clean (obj rootKeys (root_members (h_Root h))) = true).
  { apply obj_clean; [done|]. unfold root_members.
    repeat first [ apply Forall_cons_2; [cbn [snd]; auto; fail|] | apply Forall_app_2 | apply Forall_if; intros _ | apply Forall_nil_2 ]. }
  assert (Hlim : clean (obj limitKeys (limit_members (h_Limits_ h))) = true).
  { apply obj_clean; [done|]. unfold limit_members. repeat (apply Forall_cons_2; [cbn [snd]; auto; fail|]). constructor. }
  assert (Hpar : clean (partials_text (h_Partial_ h)) = true).
  { unfold partials_text. rewrite !clean_app, join_clean; [done|]. eapply Forall_impl; [exact Hp|]. intros p (_ & _ & Hc & _).
    apply obj_clean; [done|]. unfold partial_members, count_ok in *.
    repeat first [ apply Forall_cons_2; [cbn [snd]; auto; fail|] | apply Forall_app_2 | apply Forall_if; intros _ | apply Forall_nil_2 ]. }
  assert (Hflo : clean (floods_text (h_Flood_ h)) = true).
  { unfold floods_text. rewrite !clean_app, join_clean; [done|]. eapply Forall_impl; [exact Hfl|]. intros f (Hc & _).
    apply obj_clean; [done|]. unfold flood_members, count_ok in *.
    repeat first [ apply Forall_cons_2; [cbn [snd]; auto; fail|] | apply Forall_app_2 | apply Forall_if; intros _ | apply Forall_nil_2 ]. }
  assert (Hcnt : clean (obj countKeys (count_members (h_Counts_ h))) = true).
  { apply obj_clean; [done|]. unfold count_members. constructor; [apply obj_clean; [done|]; by eapply tally_clean|].
    constructor; [apply obj_clean; [done|]; by eapply tally_clean|]. repeat (apply Forall_cons_2; [cbn [snd]; auto; fail|]). constructor. }
  assert (Hbyt : clean (obj bytesKeys (byte_members (h_Bytes h))) = true).
  { apply obj_clean; [done|]. unfold byte_members. repeat (apply Forall_cons_2; [cbn [snd]; auto; fail|]). constructor. }
  assert (Hblo : clean (obj blobsKeys (blob_members (h_Blobs h))) = true).
  { apply obj_clean; [done|]. unfold blob_members. repeat (apply Forall_cons_2; [cbn [snd]; auto; fail|]). constructor. }
  unfold header_members. repeat (apply Forall_cons_2; [cbn [snd]; auto; fail|]). constructor.
Qed.

(** * Lengths *)

Lemma escape_length b : (String.length (escape b) <= 6 * String.length b)%nat.
Proof.
  induction b as [b IH] using (induction_ltof1 _ String.length). unfold ltof in IH. destruct b as [|c b]; [simpl; lia|].
  cbn [escape]. pose proof (IH b ltac:(simpl; lia)) as Hb.
  destruct (_ || _); [simpl in *; lia|]. destruct (_ <? _); [rewrite str_length_app; simpl in *; lia|].
  destruct b as [|c1 [|c2 b2]]; [simpl in *; lia..|]. pose proof (IH b2 ltac:(simpl; lia)). destruct (_ && _).
  - rewrite str_length_app. simpl in *. lia.
  - simpl in *. lia.
Qed.

Lemma uint_digits_length fuel v acc : (String.length (uint_digits fuel v acc) <= fuel + String.length acc)%nat.
Proof.
  revert v acc. induction fuel as [|fuel IH]; intros v acc; cbn [uint_digits]; [lia|].
  destruct (v <? 10); [simpl; lia|]. specialize (IH (v / 10) (String (digit (v mod 10)) acc)). simpl in IH. lia.
Qed.

Lemma format_uint_length v : (String.length (format_uint v) <= 20)%nat.
Proof. unfold format_uint. exact (uint_digits_length 20 v ""). Qed.

Lemma format_int_length v : (String.length (format_int v) <= 21)%nat.
Proof. unfold format_int. pose proof (format_uint_length v). pose proof (format_uint_length (- v)). destruct (v <? 0); simpl; lia. Qed.

Lemma jstr_length b : (String.length (jstr b) <= 6 * String.length b + 2)%nat.
Proof. unfold jstr. cbn [String.length]. rewrite str_length_app. pose proof (escape_length b). simpl. lia. Qed.

Lemma bytes_member_length k b : (String.length (bytes_member k b).2 <= 6 * String.length b + 6)%nat.
Proof.
  unfold bytes_member. destruct (utf8_Valid b); cbn [snd].
  - pose proof (jstr_length b). lia.
  - unfold b64str. cbn [String.length]. rewrite str_length_app. pose proof (std_size b). simpl. lia.
Qed.

(** The bytes of members, keys and punctuation included. *)
Definition cost (keys : list string) (fs : list (nat * string)) : Z :=
  foldr (fun kv n => len (default "" (keys !! kv.1)) + 4 + len kv.2 + n) 0 fs.

Lemma cost_app keys fs gs a b : cost keys fs <= a -> cost keys gs <= b -> cost keys (fs ++ gs) <= a + b.
Proof.
  intros Hf Hg. enough (cost keys (fs ++ gs) = cost keys fs + cost keys gs) by lia. clear.
  induction fs as [|kv fs IH]; [done|]. cbn [app cost foldr]. fold (cost keys (fs ++ gs)) (cost keys fs). lia.
Qed.

Lemma cost_if keys (c : bool) fs a : 0 <= a -> (c = true -> cost keys fs <= a) -> cost keys (if c then fs else []) <= a.
Proof. destruct c; simpl; auto. Qed.

Lemma member_length keys kv : len (member keys kv) = len (default "" (keys !! kv.1)) + 3 + len kv.2.
Proof. unfold member, len. rewrite !string_app_cons, string_app_nil. cbn [String.length]. rewrite str_length_app. simpl String.length. lia. Qed.

Lemma len_app a b : len (a +:+ b) = len a + len b.
Proof. unfold len. rewrite str_length_app. lia. Qed.

Lemma obj_length keys fs : len (obj keys fs) <= cost keys fs + 2.
Proof.
  assert (Ht : forall l, len (members_tail keys l) = cost keys l).
  { induction l as [|kv l IH]; [done|]. cbn [members_tail foldr cost]. fold (members_tail keys l) (cost keys l).
    change (String "," (member keys kv)) with ("," +:+ member keys kv). rewrite !len_app, member_length, IH.
    change (len ",") with 1. lia. }
  unfold obj. change (String "{" ?x) with ("{" +:+ x). rewrite !len_app. change (len "{") with 1. change (len "}") with 1.
  destruct fs as [|kv fs]; [by vm_compute|]. cbn [members cost foldr].
  fold (cost keys fs). rewrite len_app, member_length, Ht. lia.
Qed.

(** Texts of a closed set are short. *)
Lemma in_length (l : list string) n s : forallb (fun x => (String.length x <=? n)%nat) l = true -> s ∈ l -> (String.length s <= n)%nat.
Proof. rewrite forallb_forall. intros Hl Hs%list_elem_of_In. by apply Nat.leb_le, Hl. Qed.

Lemma entry_texts e : checkEntryFields e = Ok tt ->
  (String.length (e_Type_ e) <= 16)%nat /\ (String.length (e_State e) <= 16)%nat /\ (String.length (e_Reason e) <= 16)%nat
  /\ (String.length (e_Listing e) <= 16)%nat /\ (String.length (e_SHA256 e) <= 64)%nat
  /\ (e_HasTarget e = true -> (String.length (e_Target e) <= 4096)%nat).
Proof.
  unfold checkEntryFields. intros Hc.
  repeat match type of Hc with
  | (if ?b then _ else Err _) = _ => let E := fresh "E" in destruct b eqn:E; [|discriminate Hc]
  | res_bind ?m _ = _ => let E := fresh "E" in destruct m as [[]|] eqn:E; [|discriminate Hc]; cbn [res_bind] in Hc
  end.
  split_and!.
  - unfold validType in *. guards. by eapply in_length; [|eassumption].
  - apply orb_prop in E0 as [E0|E0]; unfold validState in *; guards; [rewrite E0; simpl; lia | by eapply in_length; [|eassumption]].
  - destruct (clearsComplete _).
    + unfold reasonAllowed in E5. destruct (bool_decide _) eqn:Er in E5; [|done]. guards.
      destruct (str_eqb (e_State e) StateSkipped); [by eapply in_length; [|eassumption]|].
      destruct (str_eqb (e_State e) StateTruncated); [by eapply in_length; [|eassumption] | by apply elem_of_nil in Er].
    + destruct (is_empty (e_Reason e)) eqn:Er; [|done]. destruct (e_Reason e); [simpl; lia | done].
  - destruct (e_Listing e) as [|c l] eqn:El; [simpl; lia|]. cbn [is_empty negb] in Hc.
    destruct (str_eqb _ ListingUnreadable) eqn:Eq; [|done]. guards. rewrite Eq. simpl. lia.
  - destruct (e_SHA256 e) as [|c l] eqn:El; [simpl; lia|]. cbn [is_empty negb] in E8.
    destruct (str_eqb (e_Type_ e) TypeFile) in E8; [|done]. destruct (validSum _) eqn:Ev in E8; [|done].
    unfold validSum in Ev. guards. unfold len in *. lia.
  - intros Ht. rewrite Ht in E9. destruct (str_eqb (e_Type_ e) TypeLink) in E9; [|done].
    destruct (len _ <=? _) eqn:El in E9; [|done]. unfold len, MaxTargetCap in El. lia.
Qed.

Lemma checkPath_length p n : checkPath p n = Ok tt -> len p <= n.
Proof. unfold checkPath. destruct (is_empty p); [done|]. cbn [negb]. destruct (Z.leb_spec (len p) n); done. Qed.

(** The length of an entry's line, newline included. *)
Definition line_length (e : Entry) : Z := len (EncodeEntry "" e).

(** An entry the checks accept fits in a line: whatever its path and target
    escape to, with its newline it is no longer than [MaxLineBytes]. *)
Theorem entry_line_fits e maxPath : maxPath <= MaxPathCap ->
  checkPath (e_Path e) maxPath = Ok tt -> checkEntryFields e = Ok tt -> line_length e <= MaxLineBytes.
Proof.
  unfold line_length. intros Hm Hp%checkPath_length Hf. apply entry_texts in Hf as (Hty & Hst & Hre & Hli & Hsu & Hta).
  assert (Hpath : (String.length (e_Path e) <= 4096)%nat) by (unfold len, MaxPathCap in *; lia).
  assert (He : len (EncodeEntry "" e) = len (obj entryKeys (entry_members e)) + 1).
  { rewrite EncodeEntry_members, string_app_nil. unfold obj.
    change (String "{" ?x) with ("{" +:+ x). change (String "}" newline) with ("}" +:+ newline). rewrite !len_app.
    change (len newline) with 1. lia. }
  rewrite He. pose proof (obj_length entryKeys (entry_members e)) as Hl.
  enough (cost entryKeys (entry_members e) <= 24602 + (118 + (287 + (447 + (24602 + (118 + (118 + 118))))))) by (unfold MaxLineBytes; lia).
  assert (Hkey : forall k, len (default "" (entryKeys !! k)) <= 16)
    by (intros k; do 17 (destruct k as [|k]; [vm_compute; congruence|]); vm_compute; congruence).
  assert (Hb : forall k b, (String.length b <= 4096)%nat -> cost entryKeys [bytes_member k b] <= 24602).
  { intros k b Hlb. cbn [cost foldr]. pose proof (Hkey (bytes_member k b).1). pose proof (bytes_member_length k b). unfold len in *. lia. }
  assert (Hs : forall k b, (String.length b <= 16)%nat -> cost entryKeys [(k, jstr b)] <= 118).
  { intros k b Hlb. cbn [cost foldr fst snd]. pose proof (Hkey k). pose proof (jstr_length b). unfold len in *. lia. }
  assert (Hfi : forall v, len (format_int v) <= 21) by (intros v; pose proof (format_int_length v); unfold len; lia).
  assert (Hfu : forall v, len (format_uint v) <= 20) by (intros v; pose proof (format_uint_length v); unfold len; lia).
  unfold entry_members. change (bytes_member 0 (e_Path e) :: ?l) with ([bytes_member 0 (e_Path e)] ++ l).
  repeat (apply cost_app; [first [by apply Hb | by apply Hs | apply cost_if; [lia|intros Hc]; auto]|]).
  - cbn [cost foldr fst snd]. 
    pose proof (Hfu (e_Mode e)). pose proof (Hfi (e_Size e)). pose proof (Hfi (e_Mtime e)). pose proof (Hfi (e_Ctime e)).
    pose proof (Hfu (e_Dev e)). pose proof (Hfu (e_Ino e)). pose proof (Hfu (e_Nlink e)).
    pose proof (Hkey 3%nat). pose proof (Hkey 4%nat). pose proof (Hkey 5%nat). pose proof (Hkey 6%nat). pose proof (Hkey 7%nat).
    pose proof (Hkey 8%nat). pose proof (Hkey 9%nat). lia.
  - cbn [cost foldr fst snd]. pose proof (Hkey 10%nat). pose proof (Hkey 11%nat). pose proof (Hfi (e_Verified e)).
    pose proof (jstr_length (e_SHA256 e)). unfold len in *. lia.
  - apply cost_if; [lia|]. auto.
Qed.

End Lines.

End ManifestRound.
