(* ===== verification/ManifestFile.v ===== *)
(** Whole manifest files: an accepted one is what it says, a written one is read
    back, and reading always ends. *)

From S2P Require Import Prelude Go Token TreePath ManifestCodec ManifestEntry ManifestHeader HeaderRound Manifest Listing ManifestRound.

Module ManifestFile.
Import TreePath ManifestCodec ManifestEntry ManifestHeader HeaderRound Manifest Listing ManifestRound.

Section File.
Context `{StdBase64, NanoTime, SHA256}.

(** The entries a reader returns before it stops with [err]. *)
Inductive yields : reader -> list Entry -> rerr -> Prop :=
| yields_end r err r' : Next r = (Err err, r') -> yields r [] err
| yields_entry r e r' es err : Next r = (Ok e, r') -> yields r' es err -> yields r (e :: es) err.

(** * One line *)

Lemma readLine_spec max limit read br line read' rest : readLine max limit read br = Ok (line, read', rest) ->
  br = line +:+ rest /\ (exists b, line = b +:+ newline) /\ len line <= max /\ read' = read + len line /\ read' <= limit.
Proof.
  unfold readLine. pose proof (read_slice_spec br) as Hr. destruct (read_slice br) as [l [r|]]; [destruct Hr as [-> Hb]|];
    destruct (Z.leb_spec (len l) max); try done.
  - destruct (Z.leb_spec (read + len l) limit); [|done]. by intros [= -> <- ->].
  - by destruct (is_empty l).
Qed.

Lemma readLine_line max limit read body rest : clean body = true -> len body + 1 <= max -> read + len body + 1 <= limit ->
  readLine max limit read (body +:+ newline +:+ rest) = Ok (body +:+ newline, read + len body + 1, rest).
Proof.
  intros Hc Hm Hl. unfold readLine. rewrite read_line, len_app by done. change (len newline) with 1.
  replace (len body + 1 <=? max) with true by lia. rewrite Z.add_assoc. by replace (read + len body + 1 <=? limit) with true by lia.
Qed.

(** What a reader has consumed and what is left make up its file. *)
Record reading (file : string) (r0 r : reader) (es : list Entry) : Prop := MkReading {
  rd_file : file = r_sum r +:+ r_br r;
  rd_len : r_read r = len (r_sum r);
  rd_limit : r_limit r = r_limit r0 /\ len (r_sum r) <= r_limit r;
  rd_header : r_h r = r_h r0;
  rd_max : r_maxPath r = r_maxPath r0;
  rd_sm : r_sm r = foldl add (newSummary (h_Root (r_h r0))) es;
  rd_check : exists rc, check_all r0 es = Ok rc
    /\ (r_prev rc, r_stack rc, r_sealed rc) = (r_prev r, r_stack r, r_sealed r);
  rd_alive : r_err r = None /\ r_done r = false
}.

(** [check] looks at the header, the path cap and what it remembers. *)
Lemma check_core r rc e :
  (r_h rc, r_maxPath rc, r_prev rc, r_stack rc, r_sealed rc) = (r_h r, r_maxPath r, r_prev r, r_stack r, r_sealed r) ->
  match check r e, check rc e with
  | Ok r', Ok rc' => same_stream r r' /\ r_maxPath r' = r_maxPath r
      /\ (r_prev rc', r_stack rc', r_sealed rc') = (r_prev r', r_stack r', r_sealed r')
  | Err m, Err m' => m = m'
  | _, _ => False
  end.
Proof.
  intros [= E1 E2 E3 E4 E5]. unfold check. rewrite E1, E2, E3, E4, E5.
  destruct (checkPath _ _); cbn [res_bind]; [|done]. destruct (negb _); [|done].
  destruct (match r_prev r with Some _ => _ | None => _ end); [|done]. destruct (pop _ _ _) as [st se].
  destruct (str_eqb (default _ _) _); [|done]. destruct (negb (_ && _)); [|done].
  destruct (checkEntryFields e); cbn [res_bind]; [|done]. destruct (str_eqb _ TypeDir); by repeat split.
Qed.

Lemma check_all_core r es rc : check_all r es = Ok rc -> r_h rc = r_h r /\ r_maxPath rc = r_maxPath r.
Proof.
  revert rc. induction es as [|e es IH] using rev_ind; intros rc; [by intros [= ->]|]. rewrite check_all_snoc.
  destruct (check_all r es) as [r1|]; cbn [res_bind]; [|done]. destruct (IH r1 eq_refl) as [<- <-]. intros Hc.
  pose proof (check_core r1 r1 e eq_refl) as Hs. rewrite Hc in Hs. by destruct Hs as [(_ & _ & -> & _) [-> _]].
Qed.

(** What the reader does with a line that holds an entry. *)
Lemma next_ok file r0 r es e r' : reading file r0 r es -> next r = Ok (e, r') ->
  exists line, r_br r = line +:+ r_br r' /\ r_sum r' = r_sum r +:+ line /\ decodeEntry (chop line) = Ok e
    /\ len line <= MaxLineBytes /\ reading file r0 r' (es ++ [e]).
Proof.
  intros [Hfile Hlen [Hlim Hle] Hh Hmp Hsm (rc & Hrc & Erc) [Herr Hdone]]. unfold next.
  destruct (readLine _ _ _ _) as [[[line read'] rest]|[|m]] eqn:El; [|done|done].
  apply readLine_spec in El as (Ebr & _ & Hll & Erd & Hlim'). destruct (HasPrefix line trailerPrefix); [done|].
  destruct (decodeEntry (chop line)) as [e'|] eqn:Ed; [|done]. set (r1 := MkReader _ _ _ _ _ _ _ _ _ _ _ _ _).
  pose proof (check_all_core _ _ _ Hrc) as [Hrch Hrcm]. injection Erc as Ep Es Ese.
  pose proof (check_core r1 rc e') as Hc. cbn [r1 r_h r_maxPath r_prev r_stack r_sealed] in Hc.
  specialize (Hc ltac:(by rewrite Hrch, Hrcm, Hh, Hmp, Ep, Es, Ese)).
  destruct (check r1 e') as [r2|]; [|done]. destruct (check rc e') as [rc2|] eqn:Ec2; [|done].
  destruct Hc as ((F1 & F2 & F3 & F4 & F5 & F6 & F7 & F8 & F9) & Fm & Fr).
  cbn [r1 r_br r_id r_h r_read r_limit r_sum r_sm r_err r_done r_maxPath] in *. intros [= <- <-]. exists line.
  cbn [r_br r_id r_h r_read r_limit r_sum r_sm r_err r_done r_maxPath r_prev r_stack r_sealed]. rewrite F1, F6.
  split_and!; [done..|]. constructor; cbn [r_br r_id r_h r_read r_limit r_sum r_sm r_err r_done r_maxPath r_prev r_stack r_sealed].
  - by rewrite ?F1, ?F6, Hfile, Ebr, str_app_assoc.
  - by rewrite ?F4, ?F6, Erd, len_app, Hlen.
  - rewrite ?F5, ?F6, len_app, <- Hlen, <- Erd. done.
  - by rewrite ?F3.
  - by rewrite ?Fm.
  - by rewrite ?F7, Hsm, foldl_app.
  - exists rc2. by rewrite check_all_snoc, Hrc.
  - by rewrite F8, F9.
Qed.

(** How a file ends, for the reader that accepts it. *)
Record accepted (file : string) (r0 : reader) (es : list Entry) : Prop := MkAccepted {
  ac_trailer : exists w, file = w +:+ trailer w /\ len file <= r_limit r0;
  ac_types : counts_agree AllTypes (c_ByType (h_Counts_ (r_h r0))) (s_byType (foldl add (newSummary (h_Root (r_h r0))) es)) = true;
  ac_states : counts_agree AllStates (c_ByState (h_Counts_ (r_h r0))) (s_byState (foldl add (newSummary (h_Root (r_h r0))) es)) = true;
  ac_complete : h_Complete (r_h r0) = s_complete (foldl add (newSummary (h_Root (r_h r0))) es);
  ac_partial : h_Partial_ (r_h r0) = s_partial (foldl add (newSummary (h_Root (r_h r0))) es)
}.

Lemma partial_eqb_eq p q : partial_eqb p q = true -> p = q.
Proof.
  unfold partial_eqb. destruct p, q. cbn. intros [[[[E1%str_eqb_eq E2%str_eqb_eq]%andb_prop E3]%andb_prop E4%str_eqb_eq]%andb_prop E5%Z.eqb_eq]%andb_prop.
  apply Bool.eqb_prop in E3. by subst.
Qed.

Lemma partials_eqb_eq ps : forall qs, length ps = length qs -> forallb (fun pq => partial_eqb pq.1 pq.2) (combine ps qs) = true -> ps = qs.
Proof.
  induction ps as [|p ps IH]; intros [|q qs]; try done. intros [= El]. cbn [combine forallb fst snd].
  intros [->%partial_eqb_eq Hf]%andb_prop. f_equal. by apply IH.
Qed.

Lemma finish_EOF file r0 r es line read rest :
  reading file r0 r es -> readLine MaxLineBytes (r_limit r) (r_read r) (r_br r) = Ok (line, read, rest) ->
  finish (MkReader rest (r_id r) (r_h r) read (r_limit r) (r_sum r) (r_sm r) (r_prev r) (r_stack r) (r_sealed r)
            (r_maxPath r) (r_err r) (r_done r)) line = EOF ->
  accepted file r0 es.
Proof.
  intros [Hfile Hlen [Hlim Hle] Hh Hmp Hsm _ _] (Ebr & _ & _ & Erd & Hrl)%readLine_spec. unfold finish.
  cbn [r_br r_h r_sm r_sum]. destruct (str_eqb line _) eqn:El; [|done]. destruct (is_empty rest) eqn:Er; [|done].
  rewrite Hh, Hsm. destruct (counts_agree AllTypes _ _) eqn:Et; [|done]. destruct (counts_agree AllStates _ _) eqn:Es; [|done].
  destruct (Bool.eqb _ _) eqn:Ec; [|done]. destruct (Nat.eqb _ _) eqn:En; [|done]. destruct (forallb _ _) eqn:Ep; [|done]. intros _.
  apply str_eqb_eq in El. apply Bool.eqb_prop in Ec. apply Nat.eqb_eq in En. destruct rest; [|done]. rewrite str_app_nil in Ebr.
  constructor; [|done|done|done|by apply partials_eqb_eq].
  exists (r_sum r). rewrite <- El, <- Ebr. split; [done|]. rewrite Hfile, Ebr, len_app, <- Hlim, <- Hlen, <- Erd. done.
Qed.

(** * Accepted files *)

Lemma NewReader_reading file size id r0 : NewReader file size id = Ok r0 ->
  reading file r0 r0 [] /\ fresh r0 /\ h_ID (r_h r0) = id /\ r_limit r0 = manifestCap (h_Limits_ (r_h r0)) /\ size <= r_limit r0
  /\ r_maxPath r0 = Z.min (l_Path (h_Limits_ (r_h r0))) MaxPathCap
  /\ exists line rest, file = line +:+ rest /\ decodeHeader (chop line) = Ok (r_h r0).
Proof.
  unfold NewReader. destruct (ValidID id); [|done]. destruct (size <=? MaxManifestCap); [|done].
  destruct (readLine _ _ _ _) as [[[line read] rest]|[|]] eqn:El; [|done..].
  apply readLine_spec in El as (Ef & _ & _ & Erd & _). destruct (decodeHeader (chop line)) as [h|] eqn:Ed; [|done].
  destruct (str_eqb (h_ID h) id) eqn:Ei; [|done]. apply str_eqb_eq in Ei.
  destruct ((_ <? size) || _) eqn:Es; [done|]. apply orb_false_iff in Es as [Es1 Es2].
  cbn [negb]. intros [= <-]. cbn [r_h r_limit r_maxPath]. split_and!; [|done|done|done|lia|done|by eexists _, _].
  constructor; cbn [r_br r_id r_h r_read r_limit r_sum r_sm r_err r_done r_maxPath]; try done.
  - split; [done|]. lia.
  - eexists. split; [reflexivity|]. done.
Qed.

Lemma alive_Next r : r_err r = None -> r_done r = false ->
  Next r = match next r with
           | Ok (e, r') => (Ok e, r')
           | Err EOF => (Err EOF, stopped r None true)
           | Err e => (Err e, stopped r (Some e) false)
           end.
Proof. intros E1 E2. unfold Next. by rewrite E1, E2. Qed.

Lemma next_EOF file r0 r es : reading file r0 r es -> next r = Err EOF -> accepted file r0 es.
Proof.
  intros Hr. unfold next. destruct (readLine _ _ _ _) as [[[line read'] rest]|[|m]] eqn:El; [|done|done].
  destruct (HasPrefix line trailerPrefix).
  - intros [= Hf]. by eapply finish_EOF.
  - destruct (decodeEntry _); [|done]. by destruct (check _ _).
Qed.

Lemma yields_accepted file r0 r es : yields r es EOF -> forall pre, reading file r0 r pre ->
  accepted file r0 (pre ++ es) /\ exists rc, check_all r0 (pre ++ es) = Ok rc.
Proof.
  intros Hy. remember EOF as err eqn:Eerr. induction Hy as [r err r' Hn|r e r' es err Hn _ IH]; intros pre Hr; subst.
  - pose proof (rd_alive _ _ _ _ Hr) as [Ha Hd]. rewrite alive_Next in Hn by done. rewrite app_nil_r. split.
    + apply (next_EOF _ _ _ _ Hr). destruct (next r) as [[]|[|]]; by injection Hn.
    + destruct (rd_check _ _ _ _ Hr) as (rc & ? & _). by exists rc.
  - pose proof (rd_alive _ _ _ _ Hr) as [Ha Hd]. rewrite alive_Next in Hn by done.
    destruct (next r) as [[e' r1]|[|]] eqn:En; [|done..]. injection Hn as -> ->.
    destruct (next_ok _ _ _ _ _ _ Hr En) as (line & _ & _ & _ & _ & Hr'). specialize (IH eq_refl _ Hr').
    by rewrite <- app_assoc in IH.
Qed.

(** C34: an accepted manifest is what it says. If a reader opened on [file]
    returns the entries [es] and then end of file, the file is its own trailer's
    hash of all that precedes the trailer and nothing follows; its header has the
    expected id and obeys the rules of headers; the entries are a tree listing
    under the header's path limit, none of them below an unreadable root; and the
    header's counts, partial list and completeness are those of the entries. *)
Theorem accepted_manifest file size id r0 es : NewReader file size id = Ok r0 -> yields r0 es EOF ->
  accepted file r0 es /\ listing (Z.min (l_Path (h_Limits_ (r_h r0))) MaxPathCap) es
  /\ (r_State (h_Root (r_h r0)) = StateUnreadable -> es = []) /\ h_ID (r_h r0) = id /\ checkHeader (r_h r0) = Ok tt
  /\ r_limit r0 = manifestCap (h_Limits_ (r_h r0)).
Proof.
  intros (Hr & Hf & Hid & Hlim & _ & Hmax & line & rest & _ & Hh)%NewReader_reading Hy.
  destruct (yields_accepted _ _ _ _ Hy [] Hr) as [Ha Hc]. apply (check_all_iff r0 es Hf) in Hc as [Hl Hu]. rewrite Hmax in Hl.
  split_and!; try done. unfold decodeHeader in Hh. destruct (object _ _ _ _) as [[[h seen] s]|]; cbn [res_bind] in Hh; [|done].
  destruct (scan_end s); cbn [res_bind] in Hh; [|done]. destruct (requireAll _ _ _); cbn [res_bind] in Hh; [|done].
  destruct (negb _); [|done]. destruct (checkHeader h) as [[]|] eqn:Ec; cbn [res_bind] in Hh; [|done]. by injection Hh as <-.
Qed.

(** * Reading ends *)

Lemma next_shrinks r e r' : next r = Ok (e, r') -> (String.length (r_br r') < String.length (r_br r))%nat /\ r_h r' = r_h r.
Proof.
  unfold next. destruct (readLine _ _ _ _) as [[[line read'] rest]|[|m]] eqn:El; [|done|done].
  apply readLine_spec in El as (-> & (b & ->) & _). destruct (HasPrefix _ trailerPrefix); [done|].
  destruct (decodeEntry _) as [e'|]; [|done]. set (r1 := MkReader _ _ _ _ _ _ _ _ _ _ _ _ _).
  pose proof (check_core r1 r1 e' eq_refl) as Hc. destruct (check r1 e') as [r2|]; [|done]. intros [= <- <-].
  destruct Hc as ((E1 & _ & E3 & _) & _). cbn [r1 r_br r_h] in *. rewrite E1, E3. split; [|done].
  rewrite !str_length_app. simpl. lia.
Qed.

Lemma Next_Ok r e r' : Next r = (Ok e, r') -> next r = Ok (e, r').
Proof.
  unfold Next. destruct (r_err r); [done|]. destruct (r_done r); [done|]. destruct (next r) as [[]|[|]]; [|done..].
  by intros [= -> ->].
Qed.

Lemma validate_loop_spec fuel : forall r, (String.length (r_br r) < fuel)%nat ->
  exists es err, yields r es err
    /\ validate_loop fuel r = Some (match err with EOF => Ok (r_h r) | Invalid m => Err (Invalid m) end).
Proof.
  induction fuel as [|fuel IH]; intros r Hf; [lia|]. cbn [validate_loop]. destruct (Next r) as [[e|err] r'] eqn:En.
  - pose proof (next_shrinks _ _ _ (Next_Ok _ _ _ En)) as [Hs Hh]. destruct (IH r' ltac:(lia)) as (es & err & Hy & Hv).
    exists (e :: es), err. split; [by econstructor|]. by rewrite Hv, Hh.
  - exists [], err. split; [by econstructor|]. destruct err; [|done].
    unfold Next in En. destruct (r_err r); [by injection En as _ <-|]. destruct (r_done r); [by injection En as <-|].
    destruct (next r) as [[]|[|]]; [done| by injection En as <- | done].
Qed.

(** Validation terminates and its answer is the reader's. Whatever the bytes
    of the file, one turn per byte and one more are enough for [ValidateAll]: it
    returns the error of opening, or the header when the entries end with end of
    file, or the error the reader stopped with. *)
Theorem validation_terminates file size id :
  match NewReader file size id with
  | Err e => ValidateAll (S (String.length file)) (NewReader file size id) = Some (Err e)
  | Ok r => exists es err, yields r es err
      /\ ValidateAll (S (String.length file)) (NewReader file size id)
         = Some (match err with EOF => Ok (r_h r) | Invalid m => Err (Invalid m) end)
  end.
Proof.
  destruct (NewReader file size id) as [r|e] eqn:En; [|done]. cbn [ValidateAll]. apply validate_loop_spec.
  destruct (NewReader_reading _ _ _ _ En) as ([-> _ _ _ _ _ _ _] & _). rewrite str_length_app. lia.
Qed.

(** A reader that has stopped stays stopped, with the same error. *)
Lemma Next_sticky r err r' : Next r = (Err err, r') -> Next r' = (Err err, r').
Proof.
  unfold Next at 1. destruct (r_err r) as [e|] eqn:E1.
  { intros [= -> <-]. unfold Next. by rewrite E1. }
  destruct (r_done r) eqn:E2; [intros [= <- <-]; unfold Next; by rewrite E1, E2|].
  destruct (next r) as [[]|[|]]; [done | by intros [= <- <-] | by intros [= <- <-]].
Qed.

(** * Written files *)

Definition entry_text (e : Entry) : string := obj entryKeys (entry_members e) +:+ newline.
Definition entries_text (es : list Entry) : string := foldr (fun e s => entry_text e +:+ s) "" es.

Lemma EncodeEntry_text e : EncodeEntry "" e = entry_text e.
Proof. rewrite EncodeEntry_members, string_app_nil. unfold entry_text, obj. by rewrite string_app_cons, str_app_assoc. Qed.

Lemma EncodeHeader_text h : EncodeHeader "" h = obj headerKeys (header_members h) +:+ newline.
Proof. by rewrite EncodeHeader_members, string_app_nil. Qed.

Lemma WriteManifest_text h es : let w := EncodeHeader "" h +:+ entries_text es in WriteManifest h es = w +:+ trailer w.
Proof.
  unfold WriteManifest. cbv zeta. enough (Hw : forall w, foldl (fun w e => w +:+ EncodeEntry "" e) w es = w +:+ entries_text es) by (by rewrite Hw).
  induction es as [|e es IH]; intros w; cbn [foldl entries_text foldr]; [by rewrite str_app_nil|].
  fold (entries_text es). by rewrite IH, str_app_assoc, EncodeEntry_text.
Qed.

Lemma entries_text_snoc es e : entries_text (es ++ [e]) = entries_text es +:+ entry_text e.
Proof.
  induction es as [|a es IH]; cbn [app entries_text foldr]; [by rewrite str_app_nil, string_app_nil|].
  fold (entries_text (es ++ [e])) (entries_text es). by rewrite IH, str_app_assoc.
Qed.

Lemma len_nonneg s : 0 <= len s.
Proof. unfold len. lia. Qed.

Lemma entry_not_trailer e : HasPrefix (entry_text e) trailerPrefix = false.
Proof.
  destruct (HasPrefix _ _) eqn:E; [|done]. exfalso. apply HasPrefix_spec in E as [r E]. revert E.
  unfold entry_text, obj, entry_members, bytes_member. by destruct (utf8_Valid (e_Path e)).
Qed.

Lemma trailer_line sum : exists body, trailer sum = body +:+ newline /\ clean body = true /\ len body <= 200.
Proof.
  exists (trailerPrefix +:+ Token.hex_encode (sha256_sum sum) +:+ String quote "}"). unfold trailer, trailerSuffix.
  destruct (Token.hex_encode_shape (sha256_sum sum)) as (Hlen & _ & Hhex). split_and!.
  - by rewrite !str_app_assoc.
  - rewrite !clean_app. assert (clean (Token.hex_encode (sha256_sum sum)) = true) as ->; [|done].
    revert Hhex. generalize (Token.hex_encode (sha256_sum sum)). clear. induction s as [|c s IH]; [done|].
    cbn [byte_list forallb]. intros [Hc Hs]%andb_prop. rewrite clean_cons, IH by done. unfold Token.hex_rune in Hc. lia.
  - rewrite !len_app. unfold len at 2. rewrite Hlen, sha256_size. by vm_compute.
Qed.

Lemma trailer_prefix sum : HasPrefix (trailer sum) trailerPrefix = true.
Proof. apply HasPrefix_app. Qed.

Lemma listing_app maxPath pre post : listing maxPath (pre ++ post) -> listing maxPath pre.
Proof.
  induction post as [|e post IH] using rev_ind; [by rewrite app_nil_r|]. rewrite app_assoc. intros Hl. apply IH.
  inversion Hl as [E|es' e' ? ? ? ? ? E]; [by destruct (pre ++ post)|]. by apply app_inj_tail in E as [-> _].
Qed.

(** What a walk may write: fields the encoder can carry, a listing whose header
    was summarized from it, within the caps. *)
Record writable (h : Header) (es : list Entry) : Prop := MkWritable {
  wr_header : header_wf h;
  wr_entries : Forall codec_wf es;
  wr_listing : listing (Z.min (l_Path (h_Limits_ h)) MaxPathCap) es;
  wr_root : r_State (h_Root h) = StateUnreadable -> es = [];
  wr_summary : Summarize h es = h;
  wr_hline : len (EncodeHeader "" h) <= maxHeaderBytes;
  wr_size : len (WriteManifest h es) <= manifestCap (h_Limits_ h)
}.

Lemma summary_fields h es : Summarize h es = h ->
  let s := foldl add (newSummary (h_Root h)) es in
  c_ByType (h_Counts_ h) = s_byType s /\ c_ByState (h_Counts_ h) = s_byState s /\ h_Partial_ h = s_partial s /\ h_Complete h = s_complete s.
Proof.
  intros E s.
  pose proof (f_equal (fun h => c_ByType (h_Counts_ h)) E) as E1. pose proof (f_equal (fun h => c_ByState (h_Counts_ h)) E) as E2.
  pose proof (f_equal h_Partial_ E) as E3. pose proof (f_equal h_Complete E) as E4.
  split_and!; symmetry; [exact E1 | exact E2 | exact E3 | exact E4].
Qed.

Lemma counts_agree_refl keys m : counts_agree keys m m = true.
Proof. unfold counts_agree. apply forallb_forall. intros k _. lia. Qed.

Lemma partials_eqb_refl ps : forallb (fun pq => partial_eqb pq.1 pq.2) (combine ps ps) = true.
Proof.
  induction ps as [|p ps IH]; [done|]. cbn [combine forallb fst snd]. rewrite IH, andb_true_r. unfold partial_eqb.
  rewrite !str_eqb_refl, Z.eqb_refl, Bool.eqb_reflx. done.
Qed.

(** The reader at the trailer of a written file. *)
Lemma next_trailer file r0 r es : reading file r0 r es -> Summarize (r_h r0) es = r_h r0 -> len file <= r_limit r0 ->
  r_br r = trailer (r_sum r) -> next r = Err EOF.
Proof.
  intros [Hfile Hlen [Hlim Hle] Hh Hmp Hsm _ _] (E1 & E2 & E3 & E4)%summary_fields Hsz Hbr.
  destruct (trailer_line (r_sum r)) as (body & Et & Hc & Hlb). unfold next. rewrite Hbr.
  assert (Hlt : len file = r_read r + len body + 1).
  { rewrite Hfile, Hbr, Et, !len_app, Hlen. change (len newline) with 1. lia. }
  rewrite Et. rewrite <- (str_app_nil newline) at 1. rewrite readLine_line; [| done | unfold MaxLineBytes; lia | lia].
  rewrite <- Et, trailer_prefix. f_equal. unfold finish. cbn [r_br r_h r_sm r_sum is_empty].
  by rewrite str_eqb_refl, Hh, Hsm, <- E1, <- E2, <- E3, <- E4, !counts_agree_refl, Bool.eqb_reflx, Nat.eqb_refl, partials_eqb_refl.
Qed.

(** The reader at an entry of a written file. *)
Lemma next_entry file r0 r pre e rest : reading file r0 r pre -> fresh r0 -> r_State (h_Root (r_h r0)) <> StateUnreadable ->
  listing (r_maxPath r0) (pre ++ [e]) -> codec_wf e -> r_maxPath r0 <= MaxPathCap -> len file <= r_limit r0 ->
  r_br r = entry_text e +:+ rest ->
  exists r', next r = Ok (e, r') /\ r_br r' = rest /\ r_sum r' = r_sum r +:+ entry_text e.
Proof.
  intros Hrd Hfr Hun Hls Hwf Hmc Hsz Hbr. destruct (rd_check _ _ _ _ Hrd) as (rc & Hrc & Erc).
  pose proof (rd_limit _ _ _ _ Hrd) as [Hlim Hle]. pose proof (check_all_core _ _ _ Hrc) as [Hrch Hrcm].
  injection Erc as Ep Es Ese.
  assert (Hadm : admissible (r_maxPath r0) pre e) by (apply admissible_snoc; [by eapply listing_app | done]).
  destruct Hadm as (Hp & Hf & _). pose proof (entry_line_fits e (r_maxPath r0) Hmc Hp Hf) as Hfit.
  unfold line_length in Hfit. rewrite EncodeEntry_text in Hfit. unfold entry_text in Hfit. rewrite len_app in Hfit. change (len newline) with 1 in Hfit.
  assert (Hlt : r_read r + len (obj entryKeys (entry_members e)) + 1 <= r_limit r).
  { rewrite (rd_file _ _ _ _ Hrd), Hbr in Hsz. unfold entry_text in Hsz. rewrite !len_app in Hsz. change (len newline) with 1 in Hsz.
    rewrite (rd_len _ _ _ _ Hrd), Hlim. pose proof (len_nonneg rest). lia. }
  assert (exists rc', check_all r0 (pre ++ [e]) = Ok rc') as [rc' Hrc'] by (by apply check_all_iff).
  rewrite check_all_snoc, Hrc in Hrc'. cbn [res_bind] in Hrc'.
  unfold next. rewrite Hbr. unfold entry_text at 1. rewrite str_app_assoc, readLine_line by (done || by apply entry_clean).
  fold (entry_text e). rewrite entry_not_trailer. unfold entry_text at 1. rewrite chop_line. unfold obj.
  rewrite entry_round by done. set (r1 := MkReader _ _ _ _ _ _ _ _ _ _ _ _ _).
  pose proof (check_core r1 rc e) as Hc. cbn [r1 r_h r_maxPath r_prev r_stack r_sealed] in Hc.
  specialize (Hc ltac:(by rewrite Hrch, Hrcm, (rd_header _ _ _ _ Hrd), (rd_max _ _ _ _ Hrd), Ep, Es, Ese)). rewrite Hrc' in Hc.
  destruct (check r1 e) as [r2|]; [|done]. destruct Hc as ((F1 & _ & _ & _ & _ & F6 & _) & _). eexists. split; [reflexivity|].
  cbn [r_br r_sum]. by rewrite F1, F6.
Qed.

Lemma yields_written file r0 w : fresh r0 -> file = w +:+ trailer w -> len file <= r_limit r0 -> r_maxPath r0 <= MaxPathCap ->
  forall post pre r, reading file r0 r pre -> Forall codec_wf post -> listing (r_maxPath r0) (pre ++ post) ->
  (r_State (h_Root (r_h r0)) = StateUnreadable -> post = []) -> Summarize (r_h r0) (pre ++ post) = r_h r0 ->
  r_br r = entries_text post +:+ trailer w -> r_sum r +:+ entries_text post = w -> yields r post EOF.
Proof.
  intros Hfr Hfile Hsz Hmc. induction post as [|e post IH]; intros pre r Hrd Hwf Hl Hun Hsum Hbr Hw.
  - cbn [entries_text foldr] in *. rewrite app_nil_r in *. rewrite str_app_nil in Hw. rewrite string_app_nil, <- Hw in Hbr.
    pose proof (next_trailer _ _ _ _ Hrd Hsum Hsz Hbr) as Hn. destruct (rd_alive _ _ _ _ Hrd) as [Ha Hd].
    apply (yields_end _ _ (stopped r None true)). by rewrite alive_Next, Hn.
  - apply Forall_cons in Hwf as [Hwe Hwf]. cbn [entries_text foldr] in *. fold (entries_text post) in *. rewrite str_app_assoc in Hbr.
    rewrite (app_assoc pre [e] post : pre ++ e :: post = (pre ++ [e]) ++ post) in Hl, Hsum.
    destruct (next_entry _ _ _ _ e _ Hrd Hfr ltac:(by intros Hx; specialize (Hun Hx)) ltac:(by eapply listing_app) Hwe Hmc Hsz Hbr) as (r' & Hn & Hb & Hs).
    destruct (rd_alive _ _ _ _ Hrd) as [Ha Hd]. apply (yields_entry _ _ r'); [by rewrite alive_Next, Hn|].
    destruct (next_ok _ _ _ _ _ _ Hrd Hn) as (_ & _ & _ & _ & _ & Hrd'). apply (IH (pre ++ [e])); try done.
    + intros Hx. by specialize (Hun Hx).
    + by rewrite Hs, str_app_assoc.
Qed.

Lemma manifestCap_max l : manifestCap l <= MaxManifestCap.
Proof. unfold manifestCap, MaxManifestCap, ManifestSlack. destruct (Z.ltb_spec (l_Manifest l) (4 * 2 ^ 30 - 64 * 2 ^ 20)); lia. Qed.

(** C35: a written manifest is read back. What [WriteManifest] writes for a header
    and the entries it was summarized from, within the limits, opens under the
    header's id with that header and yields exactly those entries, then end of
    file. *)
Theorem written_manifest_reads_back h es : writable h es ->
  exists r0, NewReader (WriteManifest h es) (len (WriteManifest h es)) (h_ID h) = Ok r0 /\ r_h r0 = h /\ yields r0 es EOF.
Proof.
  intros [Hh He Hl Hu Hs Hhl Hsz]. pose proof (WriteManifest_text h es) as Hw. cbv zeta in Hw.
  pose proof (manifestCap_max (h_Limits_ h)) as Hmax. set (file := WriteManifest h es) in *.
  assert (Hlf : len (obj headerKeys (header_members h)) + 1 <= len file).
  { rewrite Hw, EncodeHeader_text, !len_app. change (len newline) with 1.
    pose proof (len_nonneg (entries_text es)). pose proof (len_nonneg (trailer ((obj headerKeys (header_members h) +:+ newline) +:+ entries_text es))). lia. }
  rewrite EncodeHeader_text in *. rewrite len_app in Hhl. change (len newline) with 1 in Hhl.
  assert (Hopen : NewReader file (len file) (h_ID h) = Ok (MkReader (entries_text es +:+ trailer ((obj headerKeys (header_members h) +:+ newline) +:+ entries_text es))
    (h_ID h) h (0 + len (obj headerKeys (header_members h)) + 1) (manifestCap (h_Limits_ h)) (obj headerKeys (header_members h) +:+ newline)
    (newSummary (h_Root h)) None [] [] (Z.min (l_Path (h_Limits_ h)) MaxPathCap) None false)).
  { unfold NewReader. rewrite (checkHeader_id h (hw_check h Hh)). replace (len file <=? MaxManifestCap) with true by lia.
    rewrite Hw at 1. rewrite !str_app_assoc, readLine_line; [| by apply header_clean | lia | lia].
    rewrite chop_line, header_round, str_eqb_refl by done.
    replace ((manifestCap (h_Limits_ h) <? len file) || (manifestCap (h_Limits_ h) <? 0 + len (obj headerKeys (header_members h)) + 1)) with false by lia.
    reflexivity. }
  eexists. split; [exact Hopen|]. split; [done|]. destruct (NewReader_reading _ _ _ _ Hopen) as (Hrd & Hfr & _).
  apply (yields_written file _ ((obj headerKeys (header_members h) +:+ newline) +:+ entries_text es) Hfr Hw Hsz (Z.le_min_r _ _) es [] _ Hrd);
    try done.
Qed.

End File.

End ManifestFile.
