(* ===== verification/EntryTypes.v ===== *)
(** What decoding an entry line guarantees: the fields are within their types,
    and the entry is one the encoder writes back losslessly. *)

From S2P Require Import Prelude Go TreePath ManifestCodec ManifestEntry HeaderRound Manifest ManifestRound ManifestFile.

Module EntryTypes.
Import TreePath ManifestCodec ManifestEntry HeaderRound Manifest ManifestRound ManifestFile.

(** * What the scanners return *)

Lemma str_utf8 s v s' : str s = Ok (v, s') -> utf8_Valid v = true.
Proof.
  unfold str, expect. destruct (consume quote s) as [[] s1]; cbn [res_bind]; [|done]. generalize "".
  generalize (String.length s1) at 1. intros fuel. revert s1. induction fuel as [|fuel IH]; intros s1 out; [by destruct s1|].
  destruct s1 as [|c s1]; [done|]. cbn [str_loop]. destruct (bool_decide (c = quote)).
  { destruct (utf8_Valid out) eqn:Eu; [|done]. by intros [= <- _]. }
  destruct (byte_val c <? 32); [done|]. destruct (negb _); [apply IH|]. destruct s1 as [|c' s1]; [done|].
  destruct (unescape c' s1) as [[b s2]|]; cbn [res_bind]; [apply IH|done].
Qed.

Lemma dec_val_nonneg d : string_forallb is_digit d = true -> forall acc, 0 <= acc -> 0 <= dec_val d acc.
Proof.
  induction d as [|c d IH]; [done|]. cbn [string_forallb dec_val]. intros [Hc Hd]%andb_prop acc Ha. apply IH; [done|].
  unfold is_digit in Hc. lia.
Qed.

Lemma digits_value s d s' : digits s = Ok (d, s') -> 0 <= dec_val d 0.
Proof.
  unfold digits. destruct (span_digits s) as [d0 s0] eqn:E. destruct (negb _); [|done]. destruct (negb _); [|done]. intros [= <- _].
  apply dec_val_nonneg; [|done]. revert d0 s0 E. induction s as [|c s IH]; intros d0 s0; [by intros [= <- _]|]. cbn [span_digits].
  destruct (is_digit c) eqn:Ec; [|by intros [= <- _]]. destruct (span_digits s) as [d1 s1]. intros [= <- _]. cbn [string_forallb].
  by rewrite Ec, (IH _ _ eq_refl).
Qed.

Lemma uint_typed s v s' : scan_uint s = Ok (v, s') -> uint64_range v.
Proof.
  unfold scan_uint. destruct (digits s) as [[d s1]|] eqn:E; cbn [res_bind]; [|done]. destruct (Z.ltb_spec (dec_val d 0) (2 ^ 64)); [|done].
  intros [= <- _]. apply digits_value in E. by unfold uint64_range.
Qed.

Lemma int_typed s v s' : scan_int s = Ok (v, s') -> int64_range v.
Proof.
  unfold scan_int. destruct (consume "-" s) as [neg s1]. destruct (digits s1) as [[d s2]|]; cbn [res_bind]; [|done].
  destruct (negb _); [|done]. cbv zeta. generalize (if neg then - dec_val d 0 else dec_val d 0). intros w.
  destruct (_ && _) eqn:E; [|done]. intros [= <- _]. unfold int64_range. lia.
Qed.

Lemma nonneg_typed s v s' : nonneg s = Ok (v, s') -> 0 <= v <= max_int64.
Proof.
  unfold nonneg. destruct (scan_int s) as [[w s1]|] eqn:E; cbn [res_bind]; [|done]. destruct (Z.leb_spec 0 w); [|done].
  intros [= <- _]. apply int_typed in E. unfold int64_range in E. lia.
Qed.

Lemma index_of_lt k keys i : index_of k keys = Some i -> (i < length keys)%nat.
Proof.
  revert i. induction keys as [|x keys IH]; intros i; cbn [index_of length]; [done|]. destruct (str_eqb k x); [intros [= <-]; lia|].
  destruct (index_of k keys) as [j|]; [|done]. intros [= <-]. specialize (IH j eq_refl). lia.
Qed.

(** An invariant of the state and of the keys seen. *)
Lemma object_inv {S} keys (field : nat -> S -> scan S) (I : S -> Z -> Prop) st s st' seen' s' :
  object keys field st s = Ok (st', seen', s') -> I st 0 ->
  (forall k st seen s st' s', (k < length keys)%nat -> has seen k = false -> I st seen -> field k st s = Ok (st', s') ->
    I st' (Z.lor seen (Z.shiftl 1 (Z.of_nat k)))) ->
  I st' seen'.
Proof.
  intros Ho Hi Hstep. unfold object, expect in Ho. destruct (consume "{" s) as [[] s0]; cbn [res_bind] in Ho; [|done].
  destruct (consume "}" s0) as [[] s1]; [by injection Ho as <- <- _|]. revert Ho Hi. generalize (Datatypes.S (String.length s1)).
  intros fuel. generalize 0. clear s s0. revert st s1. induction fuel as [|fuel IH]; intros st s seen; cbn [object_loop]; [done|].
  destruct (str s) as [[kb s2]|]; cbn [res_bind]; [|done]. destruct (index_of kb keys) as [k|] eqn:Ek; [|done].
  destruct (Z.testbit seen (Z.of_nat k)) eqn:Es; cbn [negb]; [done|]. unfold expect. destruct (consume ":" s2) as [[] s3]; cbn [res_bind]; [|done].
  destruct (field k st s3) as [[st1 s4]|] eqn:Ef; cbn [res_bind]; [|done]. intros Ho Hi.
  pose proof (Hstep _ _ _ _ _ _ (index_of_lt _ _ _ Ek) Es Hi Ef) as Hi1. destruct (consume "," s4) as [[] s5]; [by eapply IH|].
  destruct (consume "}" s5) as [[] s6]; cbn [res_bind] in Ho; [|done]. by injection Ho as <- <- _.
Qed.

Section Types.
Context `{StdBase64}.

(** The entry half-way through a line, and the keys seen. *)
Record partway (e : Entry) (seen : Z) : Prop := MkPartway {
  pw_mode : 0 <= e_Mode e <= 4095 /\ (has seen 3 = false -> e_Mode e = 0);
  pw_size : 0 <= e_Size e <= max_int64 /\ (has seen 4 = false -> e_Size e = 0);
  pw_mtime : int64_range (e_Mtime e) /\ (has seen 5 = false -> e_Mtime e = 0);
  pw_ctime : int64_range (e_Ctime e) /\ (has seen 6 = false -> e_Ctime e = 0);
  pw_dev : uint64_range (e_Dev e) /\ (has seen 7 = false -> e_Dev e = 0);
  pw_ino : uint64_range (e_Ino e) /\ (has seen 8 = false -> e_Ino e = 0);
  pw_nlink : uint64_range (e_Nlink e) /\ (has seen 9 = false -> e_Nlink e = 0);
  pw_sum : if has seen 10 then validSum (e_SHA256 e) = true else e_SHA256 e = "";
  pw_verified : 0 <= e_Verified e <= max_int64 /\ (has seen 11 = false -> e_Verified e = 0);
  pw_target : e_HasTarget e = false -> e_Target e = "";
  pw_texts : utf8_Valid (e_Type_ e) = true /\ utf8_Valid (e_State e) = true /\ utf8_Valid (e_Reason e) = true
    /\ utf8_Valid (e_Listing e) = true;
  pw_meta : e_HasMeta e = false
}.

Lemma partway_zero : partway zeroEntry 0.
Proof. constructor; try done; (split; [unfold int64_range, uint64_range, min_int64, max_int64; simpl; lia | done]). Qed.

(** A key more: the other fields keep what they had. *)
Lemma seen_more (P : Prop) seen k j : (has seen j = false -> P) -> has (Z.lor seen (Z.shiftl 1 (Z.of_nat k))) j = false -> P.
Proof. rewrite has_lor. intros HP [Hs _]%orb_false_iff. auto. Qed.

Lemma partway_step k e seen s e' s' : (k < 17)%nat -> has seen k = false -> partway e seen -> entry_field k e s = Ok (e', s') ->
  partway e' (Z.lor seen (Z.shiftl 1 (Z.of_nat k))).
Proof.
  intros Hk Hseen [[M1 M2] [S1 S2] [T1 T2] [C1 C2] [D1 D2] [I1 I2] [N1 N2] Hsum [V1 V2] Ht (U1 & U2 & U3 & U4) Hm].
  pose proof (has_lor seen k) as Hl.
  do 17 (destruct k as [|k];
    [ cbn [entry_field]; match goal with |- context [res_bind ?m _] => destruct m as [[v s1]|] eqn:Ev; cbn [res_bind]; [|done] end;
      first [ apply str_utf8 in Ev | apply uint_typed in Ev | apply int_typed in Ev | apply nonneg_typed in Ev | idtac ];
      try (match goal with |- context [if ?b then _ else Err _] => destruct b eqn:Eb; [|done] end);
      intros [= <- _]; constructor; cbn;
      try (first [ done | split; [first [done | unfold uint64_range in *; lia] | first [by apply seen_more | by rewrite Hl, orb_true_r] ] | split_and!; done
           | rewrite Hl; by rewrite orb_false_r | by rewrite Hl, Hseen ])
    |]).
  lia.
Qed.

Lemma unseen_meta seen k : Z.land seen metaKeys = 0 -> has metaKeys k = true -> has seen k = false.
Proof.
  unfold has. intros E Hk. apply (f_equal (fun m => Z.testbit m (Z.of_nat k))) in E. rewrite Z.land_spec, Z.testbit_0_l, Hk in E.
  by rewrite andb_true_r in E.
Qed.

Lemma partway_wf e seen hm : partway e seen -> Bool.eqb (has seen 10) (has seen 11) = true ->
  (hm = false -> Z.land seen metaKeys = 0) -> codec_wf (set_HasMeta hm e).
Proof.
  intros [[M1 M2] [S1 S2] [T1 T2] [C1 C2] [D1 D2] [I1 I2] [N1 N2] Hsum [V1 V2] Ht Hu Hm] H10%Bool.eqb_prop Hhm.
  constructor; cbn; try done.
  - intros ->. assert (Hk : forall k, has metaKeys k = true -> has seen k = false) by (intros k; by apply unseen_meta, Hhm).
    by rewrite M2, S2, T2, C2, D2, I2, N2 by (by apply Hk).
  - destruct (has seen 10); [done|]. by rewrite Hsum.
  - split; [done|]. intros E. apply V2. rewrite <- H10. destruct (has seen 10); [|done]. by rewrite E in Hsum.
Qed.

Lemma decodeEntry_wf line e : decodeEntry line = Ok e -> codec_wf e.
Proof.
  unfold decodeEntry. destruct (object _ _ _ _) as [[[e0 seen] s]|] eqn:Eo; cbn [res_bind]; [|done].
  assert (Hp : partway e0 seen).
  { apply (object_inv entryKeys entry_field partway _ _ _ _ _ Eo partway_zero). intros. eapply partway_step; eauto. }
  destruct (scan_end s); cbn [res_bind]; [|done]. destruct (negb _); [|done]. destruct (has seen 2); [|done].
  destruct (Z.eqb_spec (Z.land seen metaKeys) metaKeys); cbn [res_bind].
  - destruct (Bool.eqb _ _) eqn:Eb; [|done]. destruct (negb _); [|done]. intros [= <-]. by apply (partway_wf _ _ true Hp Eb).
  - destruct (Z.eqb_spec (Z.land seen metaKeys) 0); cbn [res_bind]; [|done].
    destruct (Bool.eqb _ _) eqn:Eb; [|done]. destruct (negb _); [|done]. intros [= <-].
    replace e0 with (set_HasMeta false e0) by (destruct e0; unfold set_HasMeta; cbn; f_equal; by destruct Hp).
    by apply (partway_wf _ _ false Hp Eb).
Qed.

Lemma chop_entry e : chop (EncodeEntry "" e) = String "{" (members entryKeys (entry_members e) +:+ "}").
Proof. rewrite EncodeEntry_text. unfold entry_text. by rewrite chop_line. Qed.

(** The line the encoder writes decodes to the entry. *)
Definition encodes_back (e : Entry) : Prop := decodeEntry (chop (EncodeEntry "" e)) = Ok e.

(** C36: decoding an entry line is typed. An entry that [decodeEntry] accepts has
    every number within the width of its field, no metadata, target, sum or
    verification time it did not read, only valid UTF-8 in its texts and sums of
    64 hexadecimal digits; and the line the encoder writes for it decodes to the
    same entry again. *)
Theorem decoded_entries_are_typed line e : decodeEntry line = Ok e ->
  codec_wf e /\ encodes_back e.
Proof.
  intros Hw%decodeEntry_wf. split; [done|].
  unfold encodes_back. rewrite chop_entry. by apply entry_round.
Qed.

End Types.
End EntryTypes.
