(* ===== verification/Render.v ===== *)
(** Rendering hostile bytes for a terminal ([internal/treebackup/render.go]):
    the injective quoting of paths and its exact inverse, path arguments, content
    lines of a diff, and rows that no terminal wraps. *)

From S2P Require Import Prelude Go TreePath ManifestCodec.

Module Render.
Import TreePath ManifestCodec.

(** The tables of package [unicode] the code asks: [Cf], and the union of [L],
    [M], [N], [P], [S] and [Zs]; none of these holds a C1 control, and the arrow
    and the ellipsis lever prints are in the second and not in the first. *)
Class UnicodeTables := {
  in_Cf : Z -> bool;
  in_visible : Z -> bool;
  controls_hidden : forall r, 128 <= r <= 159 -> in_visible r = false;
  marks_visible : forall r, r = 8594 \/ r = 8230 -> in_visible r = true /\ in_Cf r = false
}.

Definition TAB : ascii := "009"%char.
Definition LF : ascii := "010"%char.
Definition CR : ascii := "013"%char.

(** * Quoting *)

Definition plainByte (b : ascii) : bool :=
  (33 <=? byte_val b) && (byte_val b <=? 126) && negb (bool_decide (b = quote)) && negb (bool_decide (b = backslash)).

(** [\xNN]. *)
Definition writeHexByte (c : ascii) : string :=
  String backslash (String "x" (String (hexdig (byte_val c / 16)) (String (hexdig (byte_val c mod 16)) ""))).

(** One turn of the loop of [Q]. *)
Definition q_byte (c : ascii) : string :=
  if bool_decide (c = quote) then String backslash (String quote "")
  else if bool_decide (c = backslash) then String backslash (String backslash "")
  else if bool_decide (c = TAB) then String backslash "t"
  else if bool_decide (c = LF) then String backslash "n"
  else if bool_decide (c = CR) then String backslash "r"
  else if (32 <=? byte_val c) && (byte_val c <=? 126) then String c ""
  else writeHexByte c.
Fixpoint q_body (b : bytes) : string := match b with EmptyString => "" | String c b => q_byte c +:+ q_body b end.

Definition Q (b : bytes) : string :=
  if negb (is_empty b) && string_forallb plainByte b then b else String quote (q_body b +:+ String quote "").

Definition unhex (c : ascii) : Z :=
  let v := byte_val c in
  if (48 <=? v) && (v <=? 57) then v - 48 else if (97 <=? v) && (v <=? 102) then v - 97 + 10 else -1.

(** The loop of [ParseQ] between the quotes. *)
Fixpoint unquote (s : string) : result bytes string :=
  match s with
  | EmptyString => Ok ""
  | String c s =>
    if bool_decide (c = quote) then Err "unescaped quote"
    else if negb (bool_decide (c = backslash)) then try b := unquote s in Ok (String c b)
    else match s with
    | EmptyString => Err "quoted path ends in a lone backslash"
    | String e s =>
      let out c := try b := unquote s in Ok (String c b) in
      if bool_decide (e = quote) || bool_decide (e = backslash) then out e
      else if bool_decide (e = "t"%char) then out TAB
      else if bool_decide (e = "n"%char) then out LF
      else if bool_decide (e = "r"%char) then out CR
      else if bool_decide (e = "x"%char) then
        match s with
        | String h (String l s) =>
          require (negb ((unhex h <? 0) || (unhex l <? 0))) else Err "bad \x escape" in
          try b := unquote s in Ok (String (ascii_of_nat (Z.to_nat (Z.lor (Z.shiftl (unhex h) 4) (unhex l)))) b)
        | _ => Err "truncated \x escape"
        end
      else Err "unknown escape"
    end
  end.

(** [s[1:len(s)-1]] of a string that ends in a quote. *)
Fixpoint cut_quote (s : string) : option string :=
  match s with
  | EmptyString => None
  | String c EmptyString => if bool_decide (c = quote) then Some "" else None
  | String c s => String c <$> cut_quote s
  end.

Definition ParseQ (s : string) : result bytes string :=
  match s with
  | String q rest =>
    if bool_decide (q = quote) then
      match cut_quote rest with
      | None => Err "quoted path has no closing quote"
      | Some body =>
        try out := unquote body in
        require (str_eqb (Q out) s) else Err "not in the form lever prints" in
        Ok out
      end
    else
      require (string_forallb plainByte s) else Err "unquoted path has a byte lever quotes" in
      Ok s
  | EmptyString => Err "empty path"
  end.

Definition QPrefix : string := "q:".

Definition checkRelPath (p : bytes) : result unit string :=
  require (negb (is_empty p)) else Err "empty" in
  require (len p <=? MaxPathCap) else Err "longer than the cap" in
  require (negb (HasPrefix p "/")) else Err "absolute: paths are relative to the tree" in
  require (negb (has_byte NUL p)) else Err "contains a NUL byte" in
  require (forallb (fun c => negb (is_empty c)) (components p) && forallb (fun c => negb (str_eqb c "." || str_eqb c "..")) (components p))
    else Err "has an empty or dot component" in
  Ok tt.

Definition ParsePathArg (arg : string) : result bytes string :=
  match CutPrefix arg QPrefix with
  | (rest, true) => try p := ParseQ rest in try _ := checkRelPath p in Ok p
  | (_, false) => try _ := checkRelPath arg in Ok arg
  end.

(** * Content lines *)

Definition maxRawLine : Z := 1000.

Section Text.
Context `{UnicodeTables}.

Definition blankLooking (r : Z) : bool :=
  bool_decide (r ∈ [847; 4447; 4448; 6068; 6069; 10240; 12644; 65440]) || ((6155 <=? r) && (r <=? 6159)).

Definition rawSafe (r : Z) : bool :=
  if r =? 9 then true
  else if (r <? 32) || (r =? 127) then false
  else if r <? 127 then true
  else if ((65024 <=? r) && (r <=? 65039)) || ((917760 <=? r) && (r <=? 917999)) || ((917504 <=? r) && (r <=? 917631)) then false
  else if (r =? 8232) || (r =? 8233) then false
  else if in_Cf r || blankLooking r then false
  else in_visible r.

Definition upper (d : Z) : ascii := ascii_of_nat (Z.to_nat (if d <? 10 then 48 + d else 55 + d)).
Fixpoint hex_digits (n : nat) (v : Z) (acc : string) : string :=
  match n with O => acc | S n => hex_digits n (v / 16) (String (upper (v mod 16)) acc) end.
(** [%04X] of a rune. *)
Definition format_04X (r : Z) : string := hex_digits (if r <? 65536 then 4 else if r <? 1048576 then 5 else 6) r "".

(** A rune and its bytes in an escaped line. *)
Definition escape_chunk (rb : Z * string) : string :=
  let '(r, b) := rb in
  if (r =? RuneError) && (String.length b <=? 1)%nat then match b with String c _ => writeHexByte c | EmptyString => "" end
  else if r =? 92 then String backslash (String backslash "")
  else if negb (rawSafe r) && (r <? 128) then writeHexByte (ascii_of_nat (Z.to_nat r))
  else if negb (rawSafe r) then String backslash "u{" +:+ format_04X r +:+ "}"
  else b.
Definition concat (l : list string) : string := foldr (fun a b => a +:+ b) "" l.

(** The cut keeps runes whole. *)
Fixpoint cut_at (n : nat) (line : string) : nat :=
  match n with
  | O => O
  | S m => match String.get n line with Some c => if is_cont c then cut_at m line else n | None => n end
  end.

Definition cut_mark (cut : Z) : string :=
  if 0 <? cut then String backslash "u{2026}(+" +:+ format_int cut +:+ " bytes)" else "".

Definition is_raw (line : bytes) : bool := (len line <=? maxRawLine) && utf8_Valid line && forallb rawSafe (runes line).

Definition contentLine (op : ascii) (line : bytes) : string :=
  if is_raw line then String op (String " " line)
  else
    let n := if maxRawLine <? len line then cut_at (Z.to_nat maxRawLine) line else String.length line in
    let body := String.substring 0 n line in
    String op (String backslash (concat (escape_chunk <$> chunks body) +:+ cut_mark (len line - Z.of_nat n))).

Definition safeText (s : string) : string :=
  if utf8_Valid s && forallb (fun r => negb (r =? 9) && rawSafe r) (runes s) then s else Q s.

End Text.

(** * Rows *)

Definition rowWidth : Z := 80.
Definition rowCont : string := "| ".

Definition runeColumns (r : Z) : Z := if r =? 9 then 8 else if (32 <=? r) && (r <? 127) then 1 else 2.

(** The loop of [rows]: [cur] is what the row has of the line so far. *)
Fixpoint rows_loop (cs : list (Z * string)) (width limit : Z) (prefix cur : string) : list string :=
  match cs with
  | [] => [prefix +:+ cur]
  | (r, b) :: cs =>
    let c := runeColumns r in
    if limit <? width + c then (prefix +:+ cur) :: rows_loop cs c (rowWidth - len rowCont) rowCont b
    else rows_loop cs (width + c) limit prefix (cur +:+ b)
  end.
Definition rows (s : string) : list string := rows_loop (chunks s) 0 rowWidth "" "".

(** * Quoting is exact *)

Lemma unhex_byte c : let h := hexdig (byte_val c / 16) in let l := hexdig (byte_val c mod 16) in
  (unhex h <? 0) || (unhex l <? 0) = false /\ ascii_of_nat (Z.to_nat (Z.lor (Z.shiftl (unhex h) 4) (unhex l))) = c.
Proof. destruct c as [[] [] [] [] [] [] [] []]; vm_compute; split; reflexivity. Qed.

Lemma unquote_byte c rest : unquote (q_byte c +:+ rest) = (try b := unquote rest in Ok (String c b)).
Proof.
  unfold q_byte. destruct (bool_decide (c = quote)) eqn:E1; [apply bool_decide_eq_true in E1 as ->; reflexivity|].
  destruct (bool_decide (c = backslash)) eqn:E2; [apply bool_decide_eq_true in E2 as ->; reflexivity|].
  destruct (bool_decide (c = TAB)) eqn:E3; [apply bool_decide_eq_true in E3 as ->; reflexivity|].
  destruct (bool_decide (c = LF)) eqn:E4; [apply bool_decide_eq_true in E4 as ->; reflexivity|].
  destruct (bool_decide (c = CR)) eqn:E5; [apply bool_decide_eq_true in E5 as ->; reflexivity|].
  destruct ((32 <=? byte_val c) && (byte_val c <=? 126)); [rewrite string_app_cons; cbn [unquote]; by rewrite E1, E2|].
  unfold writeHexByte. rewrite !string_app_cons. change ("" +:+ rest) with rest. cbn [unquote].
  change (bool_decide (backslash = quote)) with false. change (bool_decide (backslash = backslash)) with true.
  change (bool_decide ("x"%char = quote) || bool_decide ("x"%char = backslash)) with false.
  change (bool_decide ("x"%char = "t"%char)) with false. change (bool_decide ("x"%char = "n"%char)) with false. change (bool_decide ("x"%char = "r"%char)) with false.
  change (bool_decide ("x"%char = "x"%char)) with true. cbn [negb]. by destruct (unhex_byte c) as [-> ->].
Qed.

Lemma unquote_body b : unquote (q_body b) = Ok b.
Proof. induction b as [|c b IH]; [done|]. cbn [q_body]. by rewrite unquote_byte, IH. Qed.

Lemma cut_quote_app s : cut_quote (s +:+ String quote "") = Some s.
Proof.
  induction s as [|c s IH]; [done|]. rewrite string_app_cons. cbn [cut_quote]. rewrite IH. by destruct s.
Qed.

Lemma plain_first c : plainByte c = true -> bool_decide (c = quote) = false.
Proof. unfold plainByte. intros [[_ Hq]%andb_prop _]%andb_prop. by apply negb_true_iff in Hq. Qed.

Lemma parse_quoted b : ParseQ (Q b) = Ok b.
Proof.
  unfold Q at 1. destruct (negb (is_empty b) && string_forallb plainByte b) eqn:E.
  - apply andb_prop in E as [He Hp]. destruct b as [|c b]; [done|]. unfold ParseQ. pose proof Hp as Hp'. cbn [string_forallb] in Hp'.
    apply andb_prop in Hp' as [Hc _]. rewrite (plain_first c Hc). by rewrite Hp.
  - unfold ParseQ. rewrite bool_decide_eq_true_2, cut_quote_app, unquote_body by done. cbn [res_bind].
    assert (HQ : Q b = String quote (q_body b +:+ String quote "")) by (unfold Q; by rewrite E). by rewrite HQ, str_eqb_refl.
Qed.

Lemma parsed_is_quoted s b : ParseQ s = Ok b -> s = Q b.
Proof.
  unfold ParseQ. destruct s as [|q s]; [done|]. destruct (bool_decide (q = quote)) eqn:Eq.
  - destruct (cut_quote s) as [body|]; [|done]. destruct (unquote body) as [out|]; [|done]. cbn [res_bind].
    destruct (str_eqb (Q out) (String q s)) eqn:E; [|done]. intros [= <-]. by apply str_eqb_eq in E.
  - destruct (string_forallb plainByte (String q s)) eqn:E; [|done]. intros [= <-]. unfold Q. by rewrite E.
Qed.

(** A byte that is printed as it is, or a space. *)
Definition printable (c : ascii) : bool := (32 <=? byte_val c) && (byte_val c <=? 126).

Lemma str_forallb_app f a b : string_forallb f (a +:+ b) = string_forallb f a && string_forallb f b.
Proof. induction a as [|c a IH]; [done|]. rewrite string_app_cons. cbn [string_forallb]. by rewrite IH, andb_assoc. Qed.

Lemma q_byte_printable c : string_forallb printable (q_byte c) = true.
Proof. destruct c as [[] [] [] [] [] [] [] []]; vm_compute; reflexivity. Qed.

Lemma q_body_printable b : string_forallb printable (q_body b) = true.
Proof. induction b as [|c b IH]; [done|]. cbn [q_body]. by rewrite str_forallb_app, q_byte_printable, IH. Qed.

Lemma Q_printable b : string_forallb printable (Q b) = true.
Proof.
  unfold Q. destruct (negb _ && string_forallb plainByte b) eqn:E.
  - apply andb_prop in E as [_ E]. revert E. clear. induction b as [|c b IH]; [done|]. cbn [string_forallb]. intros [Hc Hb]%andb_prop. rewrite (IH Hb), andb_true_r.
    unfold plainByte, printable in *. lia.
  - cbn [string_forallb]. by rewrite str_forallb_app, q_body_printable.
Qed.

(** What lever prints for a path names exactly that path. [ParseQ] accepts
    [Q]'s form of any bytes and gives them back, accepts nothing else, and what
    is printed holds printable ASCII only. *)
Theorem quoting_is_exact s b : (ParseQ s = Ok b <-> s = Q b) /\ string_forallb printable (Q b) = true.
Proof. split; [|apply Q_printable]. split; [apply parsed_is_quoted|intros ->; apply parse_quoted]. Qed.

(** * Content lines are exact *)

(** A rune whose bytes are UTF-8 and decode to it whatever follows. *)
Definition solid (rb : Z * string) : Prop :=
  exists c tl, rb.2 = String c tl /\ (tl = "" -> byte_val c < 128) /\ forall rest, decode_rune c (tl +:+ rest) = (rb.1, rb.2, rest).
(** A byte that is no UTF-8. *)
Definition broken (rb : Z * string) : Prop := exists c, rb = (RuneError, String c "") /\ 128 <= byte_val c.

Lemma decoded_chunk c rest r b rest' : decode_rune c rest = (r, b, rest') -> solid (r, b) \/ broken (r, b).
Proof.
  unfold decode_rune. destruct (Z.ltb_spec (byte_val c) 128) as [Hc|Hc].
  { intros [= <- <- <-]. left. exists c, "". split_and!; [done|done|]. intros r. unfold decode_rune. by rewrite (proj2 (Z.ltb_lt _ _) Hc). }
  assert (Hbad : broken (RuneError, String c "")) by (by exists c).
  assert (Hlt : (byte_val c <? 128) = false) by (by apply Z.ltb_ge).
  destruct rest as [|c1 r1]; [intros [= <- <- <-]; by right|]. destruct ((194 <=? byte_val c) && (byte_val c <=? 223)) eqn:E2.
  { destruct (is_cont c1) eqn:Ec; intros [= <- <- <-]; [left|by right]. exists c, (String c1 ""). split_and!; [done..|]. intros rs. unfold decode_rune.
    rewrite Hlt, string_app_cons. by rewrite E2, Ec. }
  destruct r1 as [|c2 r2]; [intros [= <- <- <-]; by right|]. destruct ((224 <=? byte_val c) && (byte_val c <=? 239)) eqn:E3.
  { cbv zeta. destruct (is_cont c1 && is_cont c2 && _ && _) eqn:Ec; intros [= <- <- <-]; [left|by right]. exists c, (String c1 (String c2 "")). split_and!; [done..|].
    intros rs. unfold decode_rune. rewrite Hlt, !string_app_cons. cbv zeta. by rewrite E2, E3, Ec. }
  destruct r2 as [|c3 r3]; [intros [= <- <- <-]; by right|]. cbv zeta.
  destruct ((240 <=? byte_val c) && _ && _ && _ && _ && _ && _) eqn:E4; intros [= <- <- <-]; [left|by right]. exists c, (String c1 (String c2 (String c3 ""))). split_and!; [done..|].
  intros rs. unfold decode_rune. rewrite Hlt, !string_app_cons. cbv zeta. by rewrite E2, E3, E4.
Qed.

Lemma chunks_shape s : Forall (fun rb => solid rb \/ broken rb) (chunks s).
Proof.
  induction s as [s IH] using (induction_ltof1 _ String.length). unfold ltof in IH. destruct s as [|c rest]; [constructor|]. rewrite chunks_cons.
  destruct (decode_rune c rest) as [[r b] rest'] eqn:E. constructor; [by eapply decoded_chunk|]. apply IH.
  destruct (decode_rune_split _ _ _ _ _ E) as (_ & Hl & _). cbn [String.length]. lia.
Qed.

(** Text whose runes are whole decodes on its own. *)
Lemma chunks_app a b : Forall solid (chunks a) -> chunks (a +:+ b) = chunks a ++ chunks b.
Proof.
  induction a as [a IH] using (induction_ltof1 _ String.length). unfold ltof in IH. destruct a as [|c rest]; [done|]. rewrite chunks_cons.
  destruct (decode_rune c rest) as [[r bs] rest'] eqn:E. intros [(c' & tl & Hb & _ & Hs) Hf]%Forall_cons. cbn [fst snd] in *.
  destruct (decode_rune_split _ _ _ _ _ E) as (Hsplit & Hl & _). rewrite Hb, string_app_cons in Hsplit. injection Hsplit as <- ->.
  rewrite string_app_cons, chunks_cons, str_app_assoc, Hs. cbn [app]. f_equal. apply IH; [cbn [String.length]; lia|done].
Qed.

Section Lines.
Context `{UnicodeTables}.

Lemma solid_valid rb : solid rb -> valid_rune rb.1 = true.
Proof. intros (c & tl & _ & _ & Hs). specialize (Hs ""). by apply decode_rune_split in Hs as (_ & _ & ?). Qed.

Lemma solid_small rb : solid rb -> rb.1 < 128 \/ (String.length rb.2 <= 1)%nat -> exists c, rb.2 = String c "" /\ byte_val c = rb.1 /\ byte_val c < 128.
Proof.
  destruct rb as [r b]. intros (c & tl & Hb & Ht & Hs) Hr. cbn [fst snd] in *. subst b. specialize (Hs ""). exists c. revert Hs. rewrite str_app_nil. unfold decode_rune.
  pose proof (byte_val_range c) as Hc. destruct (Z.ltb_spec (byte_val c) 128) as [Hlt|Hge]; [intros E; simplify_eq; done|]. intros E. exfalso.
  destruct Hr as [Hr|Hr]; cbn [String.length] in Hr; [|destruct tl as [|x tl]; [specialize (Ht eq_refl); lia|cbn [String.length] in Hr; lia]].
  repeat (case_match; simplify_eq/=); unfold RuneError, is_cont in *; try lia.
Qed.

(** The four ways of writing a rune; the escapes begin with a backslash and the
    rune's own bytes do not. *)
Inductive cell : Z * string -> string -> Prop :=
| cell_hex rb c : rb.2 = String c "" -> broken rb \/ (solid rb /\ byte_val c < 128) -> cell rb (writeHexByte c)
| cell_backslash rb : rb = (92, String backslash "") -> cell rb (String backslash (String backslash ""))
| cell_rune rb : solid rb -> rawSafe rb.1 = false -> cell rb (String backslash "u{" +:+ format_04X rb.1 +:+ "}")
| cell_raw rb : solid rb -> rb.1 <> 92 -> rawSafe rb.1 = true -> cell rb rb.2.

Lemma escape_cell rb : solid rb \/ broken rb -> cell rb (escape_chunk rb).
Proof.
  intros [Hs|Hb].
  - destruct rb as [r b]. unfold escape_chunk. pose proof (solid_small _ Hs) as Hsm. cbn [fst snd] in *.
    destruct ((r =? RuneError) && (String.length b <=? 1)%nat) eqn:E1.
    { exfalso. apply andb_prop in E1 as [->%Z.eqb_eq Hl%Nat.leb_le]. destruct Hsm as (c & _ & E & Hc); [by right|]. rewrite E in Hc. unfold RuneError in Hc. lia. }
    destruct (Z.eqb_spec r 92) as [->|Hne].
    { apply cell_backslash. destruct Hsm as (c & -> & E & _); [left; lia|]. f_equal. f_equal. unfold byte_val in E. rewrite <- (ascii_nat_embedding c).
      by replace (nat_of_ascii c) with 92%nat by lia. }
    destruct (rawSafe r) eqn:Er; cbn [negb andb]; [by apply (cell_raw (r, b))|]. destruct (Z.ltb_spec r 128) as [Hlt|Hge]; [|by apply (cell_rune (r, b))].
    destruct Hsm as (c & -> & <- & Hc); [by left|]. unfold byte_val. rewrite Nat2Z.id, ascii_nat_embedding. apply cell_hex; [done|right; done].
  - destruct Hb as (c & -> & Hc). unfold escape_chunk. cbn [RuneError Z.eqb andb]. apply cell_hex; [done|left; by exists c].
Qed.

(** A raw cell does not begin with a backslash. *)
Lemma raw_first rb c tl : solid rb -> rb.1 <> 92 -> rb.2 = String c tl -> c <> backslash.
Proof.
  intros (c' & tl' & Hb & _ & Hs) Hne E ->. rewrite E in Hb. injection Hb as <- <-. specialize (Hs ""). revert Hs. unfold decode_rune.
  change (byte_val backslash <? 128) with true. cbn iota. intros [= E1 _ _]. by apply Hne.
Qed.

(** A whole rune is spelled one way. *)
Lemma byte_back d z : z = byte_val d -> ascii_of_nat (Z.to_nat z) = d.
Proof. intros ->. unfold byte_val. by rewrite Nat2Z.id, ascii_nat_embedding. Qed.

Lemma low6 x m : 0 <= m < 64 -> (x * 64 + m) / 64 = x /\ (x * 64 + m) mod 64 = m.
Proof. intros Hm. split; [symmetry; apply (Z.div_unique _ 64 x m); lia|symmetry; apply (Z.mod_unique _ 64 x m); lia]. Qed.

Lemma encode_1 c : byte_val c < 128 -> encode_rune (byte_val c) = String c "".
Proof.
  intros Hc. pose proof (byte_val_range c). unfold encode_rune. cbv zeta. rewrite (proj2 (Z.ltb_ge (byte_val c) 0)), (proj2 (Z.ltb_ge 1114111 _)), (proj2 (Z.leb_gt 55296 _)) by lia.
  cbn [orb andb]. rewrite (proj2 (Z.ltb_lt (byte_val c) 128)) by lia. by rewrite (byte_back c).
Qed.

Lemma encode_2 c c1 : 194 <= byte_val c <= 223 -> is_cont c1 = true -> encode_rune ((byte_val c - 192) * 64 + (byte_val c1 - 128)) = String c (String c1 "").
Proof.
  unfold is_cont. intros Hc H1. destruct (low6 (byte_val c - 192) (byte_val c1 - 128)) as [E1 E2]; [lia|]. set (r := (byte_val c - 192) * 64 + (byte_val c1 - 128)) in *.
  assert (Hr : 128 <= r < 2048) by (unfold r; lia). unfold encode_rune. cbv zeta.
  rewrite (proj2 (Z.ltb_ge r 0)), (proj2 (Z.ltb_ge 1114111 _)), (proj2 (Z.leb_gt 55296 _)) by lia. cbn [orb andb].
  rewrite (proj2 (Z.ltb_ge r 128)), (proj2 (Z.ltb_lt r 2048)), E1, E2 by lia. by rewrite (byte_back c), (byte_back c1) by lia.
Qed.

Lemma encode_3 c c1 c2 : let r := ((byte_val c - 224) * 64 + (byte_val c1 - 128)) * 64 + (byte_val c2 - 128) in
  224 <= byte_val c <= 239 -> is_cont c1 = true -> is_cont c2 = true -> 2048 <= r -> negb ((55296 <=? r) && (r <=? 57343)) = true ->
  encode_rune r = String c (String c1 (String c2 "")).
Proof.
  intros r. unfold is_cont. intros Hc H1 H2 Hr Hs. destruct (low6 (byte_val c - 224) (byte_val c1 - 128)) as [E1 E2]; [lia|].
  destruct (low6 ((byte_val c - 224) * 64 + (byte_val c1 - 128)) (byte_val c2 - 128)) as [E3 E4]; [lia|]. fold r in E3, E4. assert (Hu : r < 65536) by (unfold r; lia).
  assert (E5 : r / 4096 = byte_val c - 224) by (change 4096 with (64 * 64); rewrite <- Z.div_div by lia; by rewrite E3).
  apply negb_true_iff in Hs. unfold encode_rune. cbv zeta. rewrite Hs. rewrite (proj2 (Z.ltb_ge r 0)), (proj2 (Z.ltb_ge 1114111 _)) by lia. cbn [orb].
  rewrite (proj2 (Z.ltb_ge r 128)), (proj2 (Z.ltb_ge r 2048)), (proj2 (Z.ltb_lt r 65536)), E5, E3, E2, E4 by lia. by rewrite (byte_back c), (byte_back c1), (byte_back c2) by lia.
Qed.

Lemma encode_4 c c1 c2 c3 : let r := (((byte_val c - 240) * 64 + (byte_val c1 - 128)) * 64 + (byte_val c2 - 128)) * 64 + (byte_val c3 - 128) in
  is_cont c1 = true -> is_cont c2 = true -> is_cont c3 = true -> 65536 <= r <= 1114111 -> encode_rune r = String c (String c1 (String c2 (String c3 ""))).
Proof.
  intros r. unfold is_cont. intros H1 H2 H3 Hr. destruct (low6 (byte_val c - 240) (byte_val c1 - 128)) as [E1 E2]; [lia|].
  destruct (low6 ((byte_val c - 240) * 64 + (byte_val c1 - 128)) (byte_val c2 - 128)) as [E3 E4]; [lia|].
  destruct (low6 (((byte_val c - 240) * 64 + (byte_val c1 - 128)) * 64 + (byte_val c2 - 128)) (byte_val c3 - 128)) as [E5 E6]; [lia|]. fold r in E5, E6.
  assert (E7 : r / 4096 = (byte_val c - 240) * 64 + (byte_val c1 - 128)) by (change 4096 with (64 * 64); rewrite <- Z.div_div by lia; by rewrite E5).
  assert (E8 : r / 262144 = byte_val c - 240) by (change 262144 with (4096 * 64); rewrite <- Z.div_div by lia; by rewrite E7).
  unfold encode_rune. cbv zeta. rewrite (proj2 (Z.ltb_ge r 0)), (proj2 (Z.ltb_ge 1114111 _)), (proj2 (Z.leb_gt r 57343)), andb_false_r by lia. cbn [orb].
  rewrite (proj2 (Z.ltb_ge r 128)), (proj2 (Z.ltb_ge r 2048)), (proj2 (Z.ltb_ge r 65536)), E8, E7, E5, E2, E4, E6 by lia.
  by rewrite (byte_back c), (byte_back c1), (byte_back c2), (byte_back c3) by lia.
Qed.

Lemma decoded_encodes c rest r b rest' : decode_rune c rest = (r, b, rest') -> b = encode_rune r \/ b = String c "" /\ 128 <= byte_val c.
Proof.
  unfold decode_rune. destruct (Z.ltb_spec (byte_val c) 128) as [Hlt|Hge]; [intros [= <- <- <-]; left; by rewrite encode_1|].
  destruct rest as [|c1 r1]; [intros [= <- <- <-]; by right|]. destruct ((194 <=? byte_val c) && (byte_val c <=? 223)) eqn:E2.
  { destruct (is_cont c1) eqn:Ec; intros [= <- <- <-]; [left|by right]. rewrite encode_2; [done|lia|done]. }
  destruct r1 as [|c2 r2]; [intros [= <- <- <-]; by right|]. destruct ((224 <=? byte_val c) && (byte_val c <=? 239)) eqn:E3.
  { cbv zeta. destruct (is_cont c1 && is_cont c2 && _ && _) eqn:Ec; intros [= <- <- <-]; [left|by right]. apply andb_prop in Ec as [[[H1 H2]%andb_prop H3%Z.leb_le]%andb_prop H4].
    rewrite encode_3; [done|lia|done..]. }
  destruct r2 as [|c3 r3]; [intros [= <- <- <-]; by right|]. cbv zeta.
  destruct ((240 <=? byte_val c) && _ && _ && _ && _ && _ && _) eqn:E4; intros [= <- <- <-]; [left|by right].
  apply andb_prop in E4 as [[[[[_ H1]%andb_prop H2]%andb_prop H3]%andb_prop H4%Z.leb_le]%andb_prop H5%Z.leb_le]. by rewrite encode_4.
Qed.

Lemma solid_encodes rb : solid rb -> rb.2 = encode_rune rb.1.
Proof.
  intros (c & tl & Hb & Ht & Hs). specialize (Hs ""). destruct (decoded_encodes _ _ _ _ _ Hs) as [?|[E Hge]]; [done|].
  rewrite Hb in E. injection E as ->. specialize (Ht eq_refl). lia.
Qed.

Lemma solid_same rb rb' X X' : solid rb -> solid rb' -> rb.2 +:+ X = rb'.2 +:+ X' -> rb = rb' /\ X = X'.
Proof.
  destruct rb as [r b], rb' as [r' b']. intros (c & tl & Hb & _ & Hs) (c' & tl' & Hb' & _ & Hs') E. cbn [fst snd] in *. subst b b'. rewrite !string_app_cons in E.
  injection E as <- E. specialize (Hs X). rewrite E, Hs' in Hs. injection Hs. intros; by subst.
Qed.

Lemma hex_pair c c' X X' : writeHexByte c +:+ X = writeHexByte c' +:+ X' -> c = c' /\ X = X'.
Proof.
  unfold writeHexByte. rewrite !string_app_cons. intros E. injection E as E1 E2 E3. split; [|exact E3].
  destruct (unhex_byte c) as [_ H1'], (unhex_byte c') as [_ H2']. rewrite <- H1', <- H2', E1, E2. done.
Qed.

Lemma upper_val d : 0 <= d < 16 -> byte_val (upper d) = if d <? 10 then 48 + d else 55 + d.
Proof. intros Hd. unfold upper. apply byte_val_of_nat. destruct (Z.ltb_spec d 10); lia. Qed.

Lemma hex_digits_inj n : forall v v' acc acc', hex_digits n v acc = hex_digits n v' acc' -> String.length acc = String.length acc' ->
  v mod 16 ^ Z.of_nat n = v' mod 16 ^ Z.of_nat n /\ acc = acc'.
Proof.
  assert (Hup : forall x y, upper (x mod 16) = upper (y mod 16) -> x mod 16 = y mod 16).
  { intros x y E. apply (f_equal byte_val) in E. pose proof (Z.mod_pos_bound x 16 ltac:(lia)). pose proof (Z.mod_pos_bound y 16 ltac:(lia)).
    rewrite !upper_val in E by done. revert E. destruct (Z.ltb_spec (x mod 16) 10), (Z.ltb_spec (y mod 16) 10); lia. }
  induction n as [|n IH]; intros v v' acc acc'; cbn [hex_digits]; [intros -> _; split; [by rewrite !Z.mod_1_r|done]|].
  intros E Hl. destruct (IH _ _ _ _ E) as [Hq Ha]; [by cbn [String.length]; f_equal|]. injection Ha as Hd ->. split; [|done]. apply Hup in Hd.
  rewrite Nat2Z.inj_succ, Z.pow_succ_r by lia. pose proof (Z.pow_pos_nonneg 16 (Z.of_nat n) ltac:(lia) ltac:(lia)) as Hp.
  rewrite !(Z.rem_mul_r _ 16 (16 ^ Z.of_nat n)) by lia. congruence.
Qed.

Lemma hex_digits_length n : forall v acc, String.length (hex_digits n v acc) = (n + String.length acc)%nat.
Proof. induction n as [|n IH]; intros v acc; cbn [hex_digits]; [done|]. rewrite IH. cbn [String.length]. lia. Qed.

Lemma hex_digits_free n : forall v acc, free "}"%char acc = true -> free "}"%char (hex_digits n v acc) = true.
Proof.
  induction n as [|n IH]; intros v acc Ha; cbn [hex_digits]; [done|]. apply IH. apply free_cons. split; [|done]. intros E. apply (f_equal byte_val) in E.
  rewrite upper_val in E by (apply Z.mod_pos_bound; lia). change (byte_val "}") with 125 in E. revert E.
  pose proof (Z.mod_pos_bound v 16 ltac:(lia)). destruct (Z.ltb_spec (v mod 16) 10); lia.
Qed.

Lemma format_inj r r' : valid_rune r = true -> valid_rune r' = true -> format_04X r = format_04X r' -> r = r'.
Proof.
  unfold valid_rune, format_04X. intros Hr Hr' E. assert (Hb : 0 <= r <= 1114111 /\ 0 <= r' <= 1114111) by lia. pose proof (f_equal String.length E) as El. rewrite !hex_digits_length in El. change (String.length "") with 0%nat in El. rewrite !Nat.add_0_r in El.
  rewrite <- El in E.
  destruct (hex_digits_inj _ _ _ _ _ E eq_refl) as [Hm _]. revert Hm El.
  destruct (Z.ltb_spec r 65536), (Z.ltb_spec r 1048576), (Z.ltb_spec r' 65536), (Z.ltb_spec r' 1048576); intros Hm El; try lia; rewrite !Z.mod_small in Hm; lia.
Qed.

Lemma rune_cell_same r r' X X' : valid_rune r = true -> valid_rune r' = true ->
  (String backslash "u{" +:+ format_04X r +:+ "}") +:+ X = (String backslash "u{" +:+ format_04X r' +:+ "}") +:+ X' -> r = r' /\ X = X'.
Proof.
  intros Hr Hr' E. rewrite !str_app_assoc, !string_app_cons in E. injection E as E.
  assert (Hf : forall v Y, cut "}" (format_04X v +:+ String "}" Y) = (format_04X v, Some Y)).
  { intros v Y. apply cut_Some. split; [done|]. unfold format_04X. by apply hex_digits_free. }
  apply (f_equal (cut "}")) in E. rewrite !string_app_nil, !Hf in E. injection E as E1 ->.
  split; [by apply format_inj|done].
Qed.

Lemma cell_same rb rb' e e' X X' : cell rb e -> cell rb' e' -> e +:+ X = e' +:+ X' -> rb = rb' /\ X = X'.
Proof.
  intros Hc Hc' E. destruct Hc as [[r b] c Hb Hrb|rb Hrb|rb Hs Hr|rb Hs H92 Hr], Hc' as [[r' b'] c' Hb' Hrb'|rb' Hrb'|rb' Hs' Hr'|rb' Hs' H92' Hr'].
  all: try (exfalso; match goal with
    | Hraw : solid ?x, Hne : ?x.1 <> 92, Hsafe : rawSafe ?x.1 = true |- False =>
      let c := fresh "c" in let tl := fresh "tl" in let Eb := fresh "Eb" in
      pose proof Hraw as (c & tl & Eb & _); apply (raw_first _ _ _ Hraw Hne Eb); rewrite Eb in E; unfold writeHexByte in E; rewrite ?string_app_cons in E; by injection E
    end).
  all: try (exfalso; unfold writeHexByte in E; rewrite ?string_app_cons in E; discriminate E).
  - apply hex_pair in E as [<- ->]. split; [|done]. cbn [fst snd] in *. subst b b'. f_equal.
    assert (Hv : forall v, broken (v, String c "") \/ solid (v, String c "") /\ byte_val c < 128 -> v = if byte_val c <? 128 then byte_val c else RuneError).
    { intros v [(c' & [= -> <-] & Hc)|[Hs Hc]]; [by rewrite (proj2 (Z.ltb_ge _ _) Hc)|]. rewrite (proj2 (Z.ltb_lt _ _) Hc).
      destruct (solid_small _ Hs) as (c' & [= <-] & E & _); [right; cbn; lia|by rewrite E]. }
    by rewrite (Hv r Hrb), (Hv r' Hrb').
  - subst rb rb'. rewrite !string_app_cons in E. injection E as E. by split.
  - destruct rb as [r b], rb' as [r' b']. cbn [fst snd] in *. destruct (rune_cell_same r r' X X') as [-> ->]; [by apply (solid_valid (r, b))|by apply (solid_valid (r', b'))|done|].
    split; [|done]. f_equal.
    pose proof (solid_encodes _ Hs) as E1. pose proof (solid_encodes _ Hs') as E2. cbn [fst snd] in *. congruence.
  - by apply solid_same.
Qed.

Lemma cell_not_mark rb e X k : cell rb e -> 0 < k -> e +:+ X <> cut_mark k.
Proof.
  unfold cut_mark. intros Hc Hk. rewrite (proj2 (Z.ltb_lt _ _) Hk). intros E.
  change (String backslash "u{2026}(+" +:+ format_int k +:+ " bytes)") with ((String backslash "u{" +:+ format_04X 8230 +:+ "}") +:+ ("(+" +:+ format_int k +:+ " bytes)")) in E.
  destruct Hc as [rb c Hb Hrb|rb Hrb|rb Hs Hr|rb Hs H92 Hr]; [unfold writeHexByte in E; rewrite ?string_app_cons in E; discriminate E..| |].
  - apply rune_cell_same in E as [E _]; [|by apply solid_valid|done]. unfold rawSafe in Hr. destruct (marks_visible 8230) as [Hv Hcf]; [by right|]. rewrite E, Hv, Hcf in Hr. done.
  - pose proof Hs as (c & tl & Eb & _). apply (raw_first _ _ _ Hs H92 Eb). rewrite Eb, ?string_app_cons in E. by injection E.
Qed.

Lemma cell_nonempty rb e : cell rb e -> e <> "".
Proof. intros [ | | |? (c & tl & Eb & _)]; [done..|]. by rewrite Eb. Qed.

Lemma cut_mark_empty k : cut_mark k = "" -> k <= 0.
Proof. unfold cut_mark. destruct (Z.ltb_spec 0 k); [done|lia]. Qed.

(** An escaped body tells its runes and whether it was cut. *)
Lemma escaped_same cs : forall cs' k k', Forall (fun rb => solid rb \/ broken rb) cs -> Forall (fun rb => solid rb \/ broken rb) cs' ->
  concat (escape_chunk <$> cs) +:+ cut_mark k = concat (escape_chunk <$> cs') +:+ cut_mark k' -> cs = cs' /\ cut_mark k = cut_mark k'.
Proof.
  assert (Hhead : forall rb cs k k', solid rb \/ broken rb -> cut_mark k = concat (escape_chunk <$> (rb :: cs)) +:+ cut_mark k' -> False).
  { intros rb cs' k k' Hrb E. apply escape_cell in Hrb. cbn [fmap list_fmap concat foldr] in E. rewrite str_app_assoc in E. symmetry in E.
    destruct (Z.le_gt_cases k 0) as [Hk|Hk]; [|exact (cell_not_mark _ _ _ _ Hrb Hk E)].
    unfold cut_mark in E at 2. rewrite (proj2 (Z.ltb_ge _ _) Hk) in E. apply (cell_nonempty _ _ Hrb). by destruct (escape_chunk rb). }
  induction cs as [|rb cs IH]; intros [|rb' cs'] k k' Hf Hf' E.
  - done.
  - apply Forall_cons in Hf' as [Hrb _]. by apply Hhead in E.
  - apply Forall_cons in Hf as [Hrb _]. symmetry in E. by apply Hhead in E.
  - apply Forall_cons in Hf as [Hrb Hf]. apply Forall_cons in Hf' as [Hrb' Hf']. cbn [fmap list_fmap concat foldr] in E. rewrite !str_app_assoc in E.
    apply (cell_same rb rb') in E as [-> E]; [|by apply escape_cell..]. by destruct (IH _ _ _ Hf Hf' E) as [-> ->].
Qed.

Lemma whole_substring s : String.substring 0 (String.length s) s = s.
Proof. induction s as [|c s IH]; [done|]. cbn [String.length String.substring]. by rewrite IH. Qed.

Lemma cut_at_le n line : (cut_at n line <= n)%nat.
Proof. induction n as [|n IH]; cbn [cut_at]; [lia|]. destruct (String.get (S n) line) as [c|]; [|lia]. destruct (is_cont c); lia. Qed.

(** A content line of a diff tells the line it was made from. Two lines
    printed alike after the same operation are the same line, unless both are
    longer than the longest line printed; in particular no line of content prints
    as a cut one. *)
Theorem content_line_is_exact op op' line line' : contentLine op line = contentLine op' line' ->
  op = op' /\ (line = line' \/ maxRawLine < len line /\ maxRawLine < len line').
Proof.
  unfold contentLine. destruct (is_raw line) eqn:Er, (is_raw line') eqn:Er'; [intros [= -> ->]; auto|done|done|]. cbv zeta.
  set (n := if maxRawLine <? len line then _ else _). set (n' := if maxRawLine <? len line' then _ else _). intros E. injection E as -> E. split; [done|].
  apply escaped_same in E as [Ec Em]; [|apply chunks_shape..]. pose proof (chunks_concat (String.substring 0 n line)) as Hl. rewrite Ec, chunks_concat in Hl.
  assert (Hn : forall l, maxRawLine < len l -> cut_at (Z.to_nat maxRawLine) l = if maxRawLine <? len l then cut_at (Z.to_nat maxRawLine) l else String.length l)
    by (intros l Hlt; by rewrite (proj2 (Z.ltb_lt _ _) Hlt)).
  assert (Hcut : forall l, maxRawLine < len l -> 0 < len l - Z.of_nat (cut_at (Z.to_nat maxRawLine) l)) by (intros l Hlt; pose proof (cut_at_le (Z.to_nat maxRawLine) l); unfold maxRawLine in *; lia).
  unfold n, n' in *. destruct (Z.ltb_spec maxRawLine (len line)) as [Hlt|Hle], (Z.ltb_spec maxRawLine (len line')) as [Hlt'|Hle']; [by right|..].
  - exfalso. specialize (Hcut line Hlt). unfold len in Em at 2. rewrite Z.sub_diag in Em. by apply cut_mark_empty in Em; lia.
  - exfalso. specialize (Hcut line' Hlt'). unfold len in Em at 1. rewrite Z.sub_diag in Em. symmetry in Em. by apply cut_mark_empty in Em; lia.
  - left. by rewrite !whole_substring in Hl.
Qed.

(** * Nothing raw reaches the terminal *)

(** Text of which every rune may be printed as it is. *)
Definition shown (s : string) : Prop := Forall (fun rb => solid rb /\ rawSafe rb.1 = true) (chunks s).

Lemma shown_app a b : shown a -> shown b -> shown (a +:+ b).
Proof.
  unfold shown. intros Ha Hb. rewrite chunks_app; [by apply Forall_app|]. eapply Forall_impl; [exact Ha|]. by intros rb [? _].
Qed.

Lemma shown_ascii s : string_forallb printable s = true -> shown s.
Proof.
  induction s as [|c s IH]; [constructor|]. cbn [string_forallb]. intros [Hc Hs]%andb_prop. change (String c s) with (String c "" +:+ s). apply shown_app; [|by apply IH].
  unfold printable in Hc. unfold shown. rewrite chunks_cons. unfold decode_rune. rewrite (proj2 (Z.ltb_lt (byte_val c) 128)) by lia. constructor; [|constructor]. split.
  - exists c, "". split_and!; [done|lia|]. intros rest. unfold decode_rune. by rewrite (proj2 (Z.ltb_lt (byte_val c) 128)) by lia.
  - cbn [fst]. unfold rawSafe. destruct (Z.eqb_spec (byte_val c) 9); [done|]. rewrite (proj2 (Z.ltb_ge (byte_val c) 32)) by lia.
    rewrite (proj2 (Z.eqb_neq (byte_val c) 127)) by lia. cbn [orb]. by rewrite (proj2 (Z.ltb_lt (byte_val c) 127)) by lia.
Qed.

Lemma shown_concat l : Forall shown l -> shown (concat l).
Proof. induction 1 as [|a l Ha _ IH]; [constructor|]. by apply shown_app. Qed.

Lemma solid_shown rb : solid rb -> rawSafe rb.1 = true -> shown rb.2.
Proof.
  destruct rb as [r b]. intros Hs Hr. pose proof Hs as (c & tl & Hb & _ & Hd). cbn [fst snd] in *. unfold shown. rewrite Hb, chunks_cons.
  specialize (Hd ""). rewrite str_app_nil in Hd. rewrite Hd. constructor; [by split|constructor].
Qed.

Lemma hex_byte_printable c : string_forallb printable (writeHexByte c) = true.
Proof. destruct c as [[] [] [] [] [] [] [] []]; vm_compute; reflexivity. Qed.

Lemma hex_digits_printable n : forall v acc, string_forallb printable acc = true -> string_forallb printable (hex_digits n v acc) = true.
Proof.
  induction n as [|n IH]; intros v acc Ha; cbn [hex_digits]; [done|]. apply IH. cbn [string_forallb]. rewrite Ha, andb_true_r. unfold printable.
  rewrite upper_val by (apply Z.mod_pos_bound; lia). pose proof (Z.mod_pos_bound v 16 ltac:(lia)). destruct (Z.ltb_spec (v mod 16) 10); lia.
Qed.

Lemma cell_shown rb e : cell rb e -> shown e.
Proof.
  intros [ ? c _ _|? _|? _ _|? Hs _ Hr]; [apply shown_ascii, hex_byte_printable|by apply shown_ascii| |by apply solid_shown].
  apply shown_ascii. rewrite str_forallb_app. unfold format_04X. rewrite str_forallb_app, hex_digits_printable; done.
Qed.

Lemma digits_printable n : forall v acc, string_forallb printable acc = true -> string_forallb printable (uint_digits n v acc) = true.
Proof.
  induction n as [|n IH]; intros v acc Ha; cbn [uint_digits]; [done|].
  assert (Hd : string_forallb printable (String (digit (v mod 10)) acc) = true).
  { cbn [string_forallb]. rewrite Ha, andb_true_r. pose proof (Z.mod_pos_bound v 10 ltac:(lia)). unfold printable, digit. rewrite byte_val_of_nat by lia. lia. }
  destruct (v <? 10); [done|by apply IH].
Qed.

Lemma format_int_printable v : string_forallb printable (format_int v) = true.
Proof. unfold format_int, format_uint. destruct (v <? 0); cbn [string_forallb andb]; by rewrite digits_printable. Qed.

Lemma Q_shown b : shown (Q b).
Proof. apply shown_ascii, Q_printable. Qed.

Lemma raw_shown s : utf8_Valid s = true -> forallb rawSafe (runes s) = true -> shown s.
Proof.
  unfold utf8_Valid, runes, shown. intros Hv Hr. rewrite forallb_forall in Hv, Hr. apply Forall_forall. intros rb Hin%list_elem_of_In.
  pose proof (Hv rb Hin) as Hb. split.
  - destruct (proj1 (Forall_forall _ _) (chunks_shape s) rb) as [?|(c & -> & Hc)]; [by apply list_elem_of_In|done|]. done.
  - apply Hr, in_map_iff. by exists rb.
Qed.

(** A content line holds nothing that is not safe to print. Whatever the
    bytes of the line, what [contentLine] writes for it is UTF-8 and every rune of
    it may reach the terminal as it is. *)
Lemma contentLine_shown op line : printable op = true -> shown (contentLine op line).
Proof.
  intros Hop. assert (Ho : forall s, shown s -> shown (String op s)).
  { intros s Hs. change (String op s) with (String op "" +:+ s). apply shown_app; [|done]. apply shown_ascii. cbn [string_forallb]. by rewrite Hop. }
  unfold contentLine. destruct (is_raw line) eqn:Er.
  - unfold is_raw in Er. apply andb_prop in Er as [[_ Hv]%andb_prop Hr]. apply Ho. apply (shown_app " "); [by apply shown_ascii|by apply raw_shown].
  - cbv zeta. apply Ho. apply (shown_app (String backslash "")); [by apply shown_ascii|]. apply shown_app.
    + apply shown_concat. apply Forall_fmap, (Forall_impl _ _ _ (chunks_shape _)). intros rb Hrb. cbn. by eapply cell_shown, escape_cell.
    + apply shown_ascii. unfold cut_mark. destruct (0 <? _); [|done]. by rewrite !str_forallb_app, format_int_printable.
Qed.

Lemma safeText_shown s : shown (safeText s).
Proof.
  unfold safeText. destruct (utf8_Valid s && _) eqn:E; [|apply Q_shown]. apply andb_prop in E as [Hv Hr]. apply raw_shown; [done|].
  rewrite forallb_forall in Hr |- *. intros r Hin. specialize (Hr r Hin). by apply andb_prop in Hr as [_ ?].
Qed.

End Lines.

(** * Rows *)

(** The columns a row takes at the most. *)
Definition columns (s : string) : Z := foldr (fun r n => runeColumns r + n) 0 (runes s).

Lemma columns_app a b : Forall solid (chunks a) -> columns (a +:+ b) = columns a + columns b.
Proof.
  intros Ha. unfold columns, runes. rewrite chunks_app, fmap_app by done. generalize (chunks b). clear. intros cb. induction (chunks a) as [|rb l IH]; cbn [fmap list_fmap app foldr]; [lia|].
  rewrite IH. lia.
Qed.

Section RowsSpec.
Context `{UnicodeTables}.

Lemma shown_solid s : shown s -> Forall solid (chunks s).
Proof. intros Hs. eapply Forall_impl; [exact Hs|]. by intros rb [? _]. Qed.

(** The rows of what is left, [cur] being the text of the open row. *)
Lemma rows_loop_spec cs : forall width limit prefix cur, Forall (fun rb => solid rb /\ rawSafe rb.1 = true) cs -> shown prefix -> shown cur ->
  width = columns cur -> limit = rowWidth - columns prefix -> width <= limit -> 8 <= limit ->
  exists row rest, rows_loop cs width limit prefix cur = (prefix +:+ row) :: ((fun r => rowCont +:+ r) <$> rest)
    /\ row +:+ concat rest = cur +:+ concat cs.*2
    /\ Forall (fun r => columns r <= rowWidth /\ shown r) (rows_loop cs width limit prefix cur).
Proof.
  induction cs as [|[r b] cs IH]; intros width limit prefix cur Hcs Hp Hc Hw Hl Hfit H8; cbn [rows_loop].
  { exists cur, []. split_and!; [done|done|]. constructor; [|constructor]. split; [|by apply shown_app].
    rewrite columns_app by (by apply shown_solid). lia. }
  apply Forall_cons in Hcs as [[Hs Hr] Hcs]. pose proof (solid_shown _ Hs Hr) as Hb. cbn [fst snd] in Hb.
  assert (Hcol : columns b = runeColumns r).
  { unfold columns, runes. pose proof Hs as (c & tl & Hbe & _ & Hd). cbn [fst snd] in *. specialize (Hd ""). rewrite str_app_nil in Hd.
    assert (E : chunks b = [(r, b)]) by (rewrite Hbe at 1; rewrite chunks_cons, Hd; done). rewrite E. cbn. lia. }
  assert (Hle : 1 <= runeColumns r <= 8) by (unfold runeColumns; repeat case_match; lia).
  destruct (Z.ltb_spec limit (width + runeColumns r)) as [Hlt|Hge].
  - destruct (IH (runeColumns r) (rowWidth - len rowCont) rowCont b Hcs) as (row & rest & E & Ec & Hf);
      [by apply shown_ascii|done|done|done|change (rowWidth - len rowCont) with 78; lia|by vm_compute|].
    exists cur, (row :: rest). cbv zeta. split_and!; [by rewrite E|cbn [concat foldr fmap list_fmap snd]; fold (concat rest) (concat cs.*2); by rewrite Ec|].
    constructor; [|done]. split; [|by apply shown_app]. rewrite columns_app by (by apply shown_solid). lia.
  - cbv zeta. destruct (IH (width + runeColumns r) limit prefix (cur +:+ b) Hcs Hp) as (row & rest & E & Ec & Hf); [by apply shown_app| |done|lia|done|].
    { rewrite columns_app by (by apply shown_solid). lia. }
    exists row, rest. split_and!; [done|cbn [concat foldr fmap list_fmap snd]; fold (concat cs.*2); by rewrite Ec, str_app_assoc|done].
Qed.

(** A printed line never wraps and never starts like another. Of a line whose
    runes may all be printed, every row takes at most the columns of the narrowest
    terminal, the first row is the line's own beginning, every later one starts
    with the continuation mark, and without the marks they are the line. *)
Theorem rows_fit s : shown s -> exists row rest, rows s = row :: ((fun r => rowCont +:+ r) <$> rest) /\ row +:+ concat rest = s
  /\ Forall (fun r => columns r <= rowWidth /\ shown r) (rows s).
Proof.
  intros Hs. unfold rows. destruct (rows_loop_spec (chunks s) 0 rowWidth "" "" Hs) as (row & rest & E & Ec & Hf); [constructor|constructor|done|unfold rowWidth; cbn; lia|by unfold rowWidth|by unfold rowWidth|].
  exists row, rest. split_and!; [exact E| |exact Hf]. rewrite Ec, string_app_nil. pose proof (chunks_concat s) as Hc. rewrite <- Hc at 2. unfold concat. generalize (chunks s). clear.
  induction l as [|c l IH]; [done|]. cbn. by rewrite IH.
Qed.

End RowsSpec.

End Render.
