(* ===== verification/Merge.v ===== *)
(** The ordered merge of two manifests ([internal/treebackup/diff.go]): entries
    compared path by path, names one side did not list kept apart from names it
    does not have, whole subtrees folded under one line, and the counts. *)

From S2P Require Import Prelude Go TreePath ManifestCodec ManifestEntry ManifestHeader Render.

Module Merge.
Import TreePath ManifestCodec ManifestEntry ManifestHeader Render.

Definition StatusAdded : ascii := "A".
Definition StatusDeleted : ascii := "D".
Definition StatusModified : ascii := "M".
Definition StatusType : ascii := "T".
Definition StatusLink : ascii := "L".
Definition StatusMode : ascii := "P".
Definition StatusUnknown : ascii := "?".
Definition StatusMeta : ascii := "~".

Record DiffCounts := MkCounts { n_A : Z; n_D : Z; n_M : Z; n_T : Z; n_L : Z; n_P : Z; n_Unknown : Z; n_Meta : Z }.
Definition noCounts : DiffCounts := MkCounts 0 0 0 0 0 0 0 0.

Definition total (c : DiffCounts) : Z := n_A c + n_D c + n_M c + n_T c + n_L c + n_P c + n_Unknown c + n_Meta c.

Definition add (status : ascii) (c : DiffCounts) : DiffCounts :=
  let eqs s := bool_decide (status = s) in
  if eqs StatusAdded then MkCounts (n_A c + 1) (n_D c) (n_M c) (n_T c) (n_L c) (n_P c) (n_Unknown c) (n_Meta c)
  else if eqs StatusDeleted then MkCounts (n_A c) (n_D c + 1) (n_M c) (n_T c) (n_L c) (n_P c) (n_Unknown c) (n_Meta c)
  else if eqs StatusModified then MkCounts (n_A c) (n_D c) (n_M c + 1) (n_T c) (n_L c) (n_P c) (n_Unknown c) (n_Meta c)
  else if eqs StatusType then MkCounts (n_A c) (n_D c) (n_M c) (n_T c + 1) (n_L c) (n_P c) (n_Unknown c) (n_Meta c)
  else if eqs StatusLink then MkCounts (n_A c) (n_D c) (n_M c) (n_T c) (n_L c + 1) (n_P c) (n_Unknown c) (n_Meta c)
  else if eqs StatusMode then MkCounts (n_A c) (n_D c) (n_M c) (n_T c) (n_L c) (n_P c + 1) (n_Unknown c) (n_Meta c)
  else if eqs StatusUnknown then MkCounts (n_A c) (n_D c) (n_M c) (n_T c) (n_L c) (n_P c) (n_Unknown c + 1) (n_Meta c)
  else if eqs StatusMeta then MkCounts (n_A c) (n_D c) (n_M c) (n_T c) (n_L c) (n_P c) (n_Unknown c) (n_Meta c + 1)
  else c.

Record change := MkChange {
  c_Status : ascii;
  c_Path : bytes;
  c_Old : option Entry;
  c_New : option Entry;
  c_Note : string;
  c_Below : Z;
  c_Absent : bool
}.

(** The line later entries fold into, known by its path: no two lines of a merge
    have one path. *)
Record foldTop := MkFold { f_status : ascii; f_path : bytes; f_selected : bool; f_child : ascii }.

Record mergeFrame := MkFrame {
  m_path : bytes;
  m_oldFull : bool;
  m_newFull : bool;
  m_oldWhy : string;
  m_newWhy : string;
  m_fold : option foldTop
}.

(** What the sink is given, in order: entries and lines. *)
Inductive event := Item (p : bytes) (o n : option Entry) | Change (c : change).

Record merger := MkMerger {
  counts : DiffCounts;
  stack : list mergeFrame;    (* the top first *)
  pending : option change;
  events : list event
}.

(** * Words *)

Definition word (v : string) : string := Q v.

Fixpoint octal (fuel : nat) (v : Z) (acc : string) : string :=
  match fuel with
  | O => acc
  | S fuel => if v <? 8 then String (digit v) acc else octal fuel (v / 8) (String (digit (v mod 8)) acc)
  end.
Fixpoint pad_zeros (n : nat) (s : string) : string := match n with O => s | S n => String "0" (pad_zeros n s) end.
(** [%04o] of a [uint32]. *)
Definition format_04o (v : Z) : string := let s := octal 11 v "" in pad_zeros (4 - String.length s) s.

(** The arrow of the notes, U+2192, with the spaces around it. *)
Definition arrow : string := " " +:+ encode_rune 8594 +:+ " ".
Definition ellipsis : string := encode_rune 8230.

Definition strings_join (sep : string) (l : list string) : string :=
  match l with [] => "" | a :: l => foldl (fun acc s => acc +:+ sep +:+ s) a l end.

Definition typeWord (e : Entry) : string :=
  if str_eqb (e_Type_ e) TypeUnknown && negb (str_eqb (e_State e) StateOK) then "unknown (" +:+ word (e_State e) +:+ ")"
  else word (e_Type_ e).

Definition hidingState (s : string) : bool := negb (str_eqb s StateOK || str_eqb s StateUnstable || str_eqb s StateSecret).

Definition stateWord (e : Entry) : string :=
  if str_eqb (e_State e) StateOK && negb (is_empty (e_Listing e)) then "listing " +:+ word (e_Listing e)
  else if str_eqb (e_State e) StateOK then "ok"
  else if negb (is_empty (e_Reason e)) then word (e_State e) +:+ " (" +:+ word (e_Reason e) +:+ ")"
  else word (e_State e).

Definition becameWord (o n : Entry) : string :=
  if str_eqb (e_State n) StateUnreadable && negb (str_eqb (e_State o) StateUnreadable) then "became unreadable"
  else if negb (is_empty (e_Listing n)) && is_empty (e_Listing o) && str_eqb (e_State n) StateOK then "listing became " +:+ word (e_Listing n)
  else if str_eqb (e_State o) StateUnreadable && negb (str_eqb (e_State n) StateUnreadable) then "was unreadable in old, now " +:+ stateWord n
  else "state " +:+ stateWord o +:+ arrow +:+ stateWord n.

Definition take_12 (s : string) : string := if 12 <? len s then String.substring 0 12 s else s.
Definition shortHash (sum : string) : string := if is_empty sum then "-" else Q (take_12 sum) +:+ ellipsis.

Definition sizeHashNote (o n : Entry) : string :=
  "size " +:+ format_int (e_Size o) +:+ arrow +:+ format_int (e_Size n) +:+ ", sha256 " +:+ shortHash (e_SHA256 o) +:+ arrow +:+ shortHash (e_SHA256 n).

Definition entrySummary (e : Entry) : string :=
  let file := str_eqb (e_Type_ e) TypeFile in
  let parts := [typeWord e]
    ++ (if file && e_HasMeta e then ["size " +:+ format_int (e_Size e)] else [])
    ++ (if file && negb (is_empty (e_SHA256 e)) then ["sha256 " +:+ shortHash (e_SHA256 e)] else [])
    ++ (if str_eqb (e_Type_ e) TypeLink && e_HasTarget e then [encode_rune 8594 +:+ " " +:+ Q (e_Target e)] else [])
    ++ (if e_HasMeta e && negb (Z.land (e_Mode e) 3584 =? 0) then ["mode " +:+ format_04o (e_Mode e)] else [])
    ++ (if negb (str_eqb (e_Type_ e) TypeUnknown) && (negb (str_eqb (e_State e) StateOK) || negb (is_empty (e_Listing e))) then ["state " +:+ stateWord e] else []) in
  strings_join ", " parts.

(** * Comparing two entries *)

Section Compare.
Context `{NanoTime}.

Definition fmtTime (ns : Z) : string := formatTime (UnixTime ns).

(** The status and notes before the mode and the time are looked at; [notes] is
    what the mode has put there. *)
Definition compare_content (o n : Entry) (notes : list string) : option ascii * list string :=
  let ot := e_Type_ o in
  let nt := e_Type_ n in
  let states := "state " +:+ stateWord o +:+ arrow +:+ stateWord n in
  if negb (str_eqb ot nt) && (str_eqb ot TypeUnknown || str_eqb nt TypeUnknown) then
    (Some StatusUnknown, ["type " +:+ typeWord o +:+ arrow +:+ typeWord n; becameWord o n] ++ notes)
  else if negb (str_eqb ot nt) then (Some StatusType, [word ot +:+ arrow +:+ word nt])
  else if str_eqb ot TypeFile then
    if negb (is_empty (e_SHA256 o)) && negb (is_empty (e_SHA256 n)) then
      if negb (str_eqb (e_SHA256 o) (e_SHA256 n)) then
        (Some StatusModified, [sizeHashNote o n] ++ notes
           ++ (if str_eqb (e_State o) StateUnstable || str_eqb (e_State n) StateUnstable then [states] else []))
      else (None, notes)
    else if negb (is_empty (e_SHA256 o)) || negb (is_empty (e_SHA256 n)) then (Some StatusUnknown, [becameWord o n] ++ notes)
    else if negb (str_eqb (e_State o) (e_State n)) || negb (str_eqb (e_Reason o) (e_Reason n)) || negb (Bool.eqb (e_HasMeta o) (e_HasMeta n))
         || (e_HasMeta o && (negb (e_Size o =? e_Size n) || negb (e_Mtime o =? e_Mtime n) || negb (e_Ctime o =? e_Ctime n))) then
      (Some StatusUnknown, ["content not captured: " +:+ becameWord o n] ++ notes
         ++ (if e_HasMeta o && e_HasMeta n && negb (e_Size o =? e_Size n) then ["size " +:+ format_int (e_Size o) +:+ arrow +:+ format_int (e_Size n)] else []))
    else (None, notes)
  else if str_eqb ot TypeLink then
    if negb (e_HasTarget o) || negb (e_HasTarget n) then
      let w := if negb (e_HasTarget n) then if e_HasTarget o then "link target became unreadable" else "link target unreadable in new"
               else "link target unreadable in old" in
      (Some StatusUnknown, [w] ++ notes)
    else if negb (str_eqb (e_Target o) (e_Target n)) then (Some StatusLink, [Q (e_Target o) +:+ arrow +:+ Q (e_Target n)] ++ notes)
    else (None, notes)
  else if str_eqb ot TypeDir then
    let oh := hidingState (e_State o) || negb (is_empty (e_Listing o)) in
    let nh := hidingState (e_State n) || negb (is_empty (e_Listing n)) in
    if nh && (negb oh || negb (str_eqb (e_State o) (e_State n)) || negb (str_eqb (e_Listing o) (e_Listing n))) then
      (Some StatusUnknown, ["listing not captured: " +:+ becameWord o n] ++ notes)
    else (None, notes)
  else (None, notes).

Definition compareEntries (p : bytes) (o n : Entry) (meta : bool) : option change :=
  let modeChanged := e_HasMeta o && e_HasMeta n && negb (e_Mode o =? e_Mode n) in
  let notes := if modeChanged then ["mode " +:+ format_04o (e_Mode o) +:+ arrow +:+ format_04o (e_Mode n)] else [] in
  let '(status, notes) := compare_content o n notes in
  let status := match status with Some s => Some s | None => if modeChanged then Some StatusMode else None end in
  let '(status, notes) :=
    match status with
    | Some s => (Some s, notes)
    | None => if meta && e_HasMeta o && e_HasMeta n && negb (e_Mtime o =? e_Mtime n)
              then (Some StatusMeta, notes ++ ["mtime " +:+ fmtTime (e_Mtime o) +:+ arrow +:+ fmtTime (e_Mtime n)])
              else (None, notes)
    end in
  match status with
  | None => None
  | Some s => Some (MkChange s p (Some o) (Some n) (strings_join ", " notes) 0 false)
  end.

(** * Names a side did not list *)

Definition rootFull (h : Header) : bool * string :=
  let r := h_Root h in
  if str_eqb (r_State r) StateTruncated then (false, "the tree root is truncated (" +:+ word (r_Reason r) +:+ ")")
  else if negb (str_eqb (r_State r) StateOK) then (false, "the tree root is " +:+ word (r_State r))
  else if negb (is_empty (r_Listing r)) then (false, "the tree root's listing is " +:+ word (r_Listing r))
  else (true, "").

Definition childFull (parentFull : bool) (parentWhy : string) (self other : option Entry) (isOld : bool) : bool * string :=
  match self with
  | None => (parentFull, parentWhy)
  | Some self =>
    if negb parentFull then (false, parentWhy)
    else if negb (str_eqb (e_Type_ self) TypeDir) then (false, Q (e_Path self) +:+ " is " +:+ typeWord self)
    else
      let other_is f := match other with Some e => f e | None => false end in
      if str_eqb (e_State self) StateTruncated then (false, Q (e_Path self) +:+ " truncated (" +:+ word (e_Reason self) +:+ ")")
      else if str_eqb (e_State self) StateUnreadable then
        (false, Q (e_Path self) +:+ " " +:+
           (if negb isOld && other_is (fun e => negb (str_eqb (e_State e) StateUnreadable)) then "became unreadable" else "unreadable"))
      else if negb (str_eqb (e_State self) StateOK) then (false, Q (e_Path self) +:+ " " +:+ word (e_State self))
      else if negb (is_empty (e_Listing self)) then
        (false, Q (e_Path self) +:+ " " +:+
           (if negb isOld && other_is (fun e => is_empty (e_Listing e)) then "listing became " +:+ word (e_Listing self) else "listing " +:+ word (e_Listing self)))
      else (true, "")
  end.

(** * The merge *)

Section Merger.
Context (paths : list bytes) (meta : bool).

Definition selected (p : bytes) : bool :=
  match paths with [] => true | _ => existsb (fun f => str_eqb p f || IsUnder p f) paths end.

Definition flush (m : merger) : merger :=
  match pending m with
  | None => m
  | Some c => MkMerger (counts m) (stack m) None (events m ++ [Change c])
  end.

Definition emit (c : change) (fold : bool) (m : merger) : merger :=
  let m := flush m in
  if fold then MkMerger (counts m) (stack m) (Some c) (events m)
  else MkMerger (counts m) (stack m) (pending m) (events m ++ [Change c]).

Definition count (status : ascii) (m : merger) : merger := MkMerger (add status (counts m)) (stack m) (pending m) (events m).
Definition push (f : mergeFrame) (m : merger) : merger := MkMerger (counts m) (f :: stack m) (pending m) (events m).

(** [f.c.Below++]. *)
Definition below (f : foldTop) (m : merger) : merger :=
  match pending m with
  | Some c => if str_eqb (c_Path c) (f_path f)
              then MkMerger (counts m) (stack m) (Some (MkChange (c_Status c) (c_Path c) (c_Old c) (c_New c) (c_Note c) (c_Below c + 1) (c_Absent c))) (events m)
              else m
  | None => m
  end.

(** The frames above the one that holds [p]; the last is the root's. *)
Fixpoint unwind (p : bytes) (st : list mergeFrame) : list mergeFrame :=
  match st with
  | f :: rest =>
    match rest with
    | [] => st
    | _ => if IsUnder p (m_path f) then st else unwind p rest
    end
  | [] => []
  end.

(** The line of an entry that folds under none. *)
Definition line_of (p : bytes) (o n : option Entry) (parent : mergeFrame) : option change * bool :=
  match o, n with
  | Some o, Some n => let c := compareEntries p o n meta in (c, match c with Some c => bool_decide (c_Status c = StatusType) | None => false end)
  | Some o, None =>
    if m_newFull parent then (Some (MkChange StatusDeleted p (Some o) None (entrySummary o) 0 false), true)
    else (Some (MkChange StatusUnknown p (Some o) None ("not seen in new: " +:+ m_newWhy parent) 0 true), false)
  | None, Some n =>
    if m_oldFull parent then (Some (MkChange StatusAdded p None (Some n) (entrySummary n) 0 false), true)
    else (Some (MkChange StatusUnknown p None (Some n) ("not seen in old: " +:+ m_oldWhy parent) 0 true), false)
  | None, None => (None, false)
  end.

Definition handle (p : bytes) (o n : option Entry) (m : merger) : merger :=
  let m := MkMerger (counts m) (unwind p (stack m)) (pending m) (events m) in
  match stack m with
  | [] => m
  | parent :: _ =>
    let sel := selected p in
    let '(oldFull, oldWhy) := childFull (m_oldFull parent) (m_oldWhy parent) o n true in
    let '(newFull, newWhy) := childFull (m_newFull parent) (m_newWhy parent) n o false in
    let frame := MkFrame p oldFull newFull oldWhy newWhy in
    let m := if sel then MkMerger (counts m) (stack m) (pending m) (events m ++ [Item p o n]) else m in
    match m_fold parent with
    | Some f =>
      let status := if bool_decide (f_status f = StatusType) then match o with Some _ => StatusDeleted | None => StatusAdded end else f_child f in
      if sel then
        let m := count status m in
        if f_selected f then push (frame (Some f)) (below f m)
        else
          let e := match n with Some e => Some e | None => o end in
          let note := match e with Some e => entrySummary e | None => "" end in
          let c := MkChange status p o n (note +:+ ", under " +:+ Q (f_path f) +:+ " (" +:+ String (f_status f) ")") 0 false in
          push (frame (Some (MkFold status p true status))) (emit c true m)
      else push (frame (Some f)) m
    | None =>
      let '(c, fold) := line_of p o n parent in
      let top := match c with Some c => if fold then Some (MkFold (c_Status c) p sel (c_Status c)) else None | None => None end in
      let m := push (frame top) m in
      match c with
      | Some c => if sel then emit c fold (count (c_Status c) m) else m
      | None => m
      end
    end
  end.

(** A manifest as its reader yields it: the header, the entries, and the error
    it ends in when not at its end. *)
Record source := MkSource { s_header : Header; s_entries : list Entry; s_end : option string }.

(** [next], with the entry before. *)
Definition next (es : list Entry) (fin : option string) (prev : option Entry) : result (option Entry * list Entry) string :=
  match es with
  | [] => match fin with None => Ok (None, []) | Some e => Err e end
  | e :: es =>
    let sorted := match prev with Some p => match ComparePaths (e_Path p) (e_Path e) with Lt => true | _ => false end | None => true end in
    if (sorted : bool) then Ok (Some e, es) else Err "entry out of order"
  end.

(** The loop of [mergeReaders]: the events and counts so far, with the error it
    stopped at. *)
Fixpoint merge_loop (fuel : nat) (endo endn : option string) (o : option Entry) (ro : list Entry) (n : option Entry) (rn : list Entry) (m : merger)
  : option (merger * option string) :=
  match fuel with
  | O => None
  | S fuel =>
    match o, n with
    | None, None => Some (flush m, None)
    | Some eo, None =>
      let m := handle (e_Path eo) (Some eo) None m in
      match next ro endo (Some eo) with Err e => Some (m, Some e) | Ok (o, ro) => merge_loop fuel endo endn o ro n rn m end
    | None, Some en =>
      let m := handle (e_Path en) None (Some en) m in
      match next rn endn (Some en) with Err e => Some (m, Some e) | Ok (n, rn) => merge_loop fuel endo endn o ro n rn m end
    | Some eo, Some en =>
      match ComparePaths (e_Path eo) (e_Path en) with
      | Lt =>
        let m := handle (e_Path eo) (Some eo) None m in
        match next ro endo (Some eo) with Err e => Some (m, Some e) | Ok (o, ro) => merge_loop fuel endo endn o ro n rn m end
      | Gt =>
        let m := handle (e_Path en) None (Some en) m in
        match next rn endn (Some en) with Err e => Some (m, Some e) | Ok (n, rn) => merge_loop fuel endo endn o ro n rn m end
      | Eq =>
        let m := handle (e_Path eo) (Some eo) (Some en) m in
        match next ro endo (Some eo) with
        | Err e => Some (m, Some e)
        | Ok (o, ro) => match next rn endn (Some en) with Err e => Some (m, Some e) | Ok (n, rn) => merge_loop fuel endo endn o ro n rn m end
        end
      end
    end
  end.

Definition new_merger (old new : source) : merger :=
  let '(oldFull, oldWhy) := rootFull (s_header old) in
  let '(newFull, newWhy) := rootFull (s_header new) in
  MkMerger noCounts [MkFrame "" oldFull newFull oldWhy newWhy None] None [].

Definition mergeReaders (old new : source) : option (merger * option string) :=
  let m := new_merger old new in
  match next (s_entries old) (s_end old) None with
  | Err e => Some (m, Some e)
  | Ok (o, ro) =>
    match next (s_entries new) (s_end new) None with
    | Err e => Some (m, Some e)
    | Ok (n, rn) => merge_loop (S (length (s_entries old) + length (s_entries new))) (s_end old) (s_end new) o ro n rn m
    end
  end.
End Merger.
End Compare.

End Merge.
