(* ===== verification/DiffExact.v ===== *)
(** The merge of two valid manifests is exact ([internal/treebackup/diff.go]):
    what it reports against what the two listings say, path by path. *)

From Stdlib Require Import Sorting.Sorted.
From stdpp Require Import sorting.
From S2P Require Import Prelude Go TreePath ManifestCodec ManifestEntry ManifestHeader Manifest Listing Render Merge.

Module DiffExact.
Import TreePath ManifestCodec ManifestEntry ManifestHeader Manifest Listing Render Merge.

(** * What the two listings say *)

(** The entry of a listing at a path. *)
Fixpoint entry_at (es : list Entry) (p : bytes) : option Entry :=
  match es with [] => None | e :: es => if str_eqb (e_Path e) p then Some e else entry_at es p end.

Definition full_dir (e : Entry) : bool := is_dir e && str_eqb (e_State e) StateOK && is_empty (e_Listing e).
Definition known_other (e : Entry) : bool := negb (is_dir e) && negb (str_eqb (e_Type_ e) TypeUnknown).

(** Every directory above the path was fully listed. *)
Definition listed_above (h : Header) (es : list Entry) (p : bytes) : bool :=
  (rootFull h).1 && forallb (fun q => implb (IsUnder p (e_Path q)) (full_dir q)) es.

(** A path a side has no entry for is not in its tree: all that could hold it
    was listed, or something above it holds nothing. *)
Definition really_absent (h : Header) (es : list Entry) (p : bytes) : bool :=
  existsb (fun q => IsUnder p (e_Path q) && known_other q) es || listed_above h es p.

(** A path with what each side has there. *)
Definition row : Type := bytes * option Entry * option Entry.
Definition row_lt (a b : row) : Prop := ComparePaths a.1.1 b.1.1 = Lt.

Section Verdict.
Context `{NanoTime} (meta : bool) (old new : source).

(** The status of a path: one side only, or how its entries differ. *)
Definition verdict (x : row) : option ascii :=
  match x with
  | (p, Some o, Some n) => c_Status <$> compareEntries p o n meta
  | (p, Some _, None) => Some (if really_absent (s_header new) (s_entries new) p then StatusDeleted else StatusUnknown)
  | (p, None, Some _) => Some (if really_absent (s_header old) (s_entries old) p then StatusAdded else StatusUnknown)
  | (_, None, None) => None
  end.

End Verdict.

(** ** Lookups in a listing *)

Lemma entry_at_Some es p e : ordered es -> entry_at es p = Some e <-> e ∈ es /\ e_Path e = p.
Proof.
  intros [Ho _]. induction Ho as [|a es Ho IH Ha]; cbn [entry_at]; [split; [done|]; by intros [?%elem_of_nil _]|].
  rewrite elem_of_cons. destruct (str_eqb (e_Path a) p) eqn:E.
  - apply str_eqb_eq in E. split; [intros [= ->]; auto|]. intros [[->|Hin] Hp]; [done|]. exfalso. rewrite Forall_forall in Ha. specialize (Ha e Hin).
    rewrite Hp, <- E in Ha. by apply lt_not_eq in Ha.
  - rewrite IH. split; [intros [? ?]; auto|]. intros [[->|Hin] Hp]; [|done]. exfalso. rewrite Hp in E. by rewrite str_eqb_refl in E.
Qed.

Lemma entry_at_None es p : ordered es -> entry_at es p = None <-> forall e, e ∈ es -> e_Path e <> p.
Proof.
  intros Ho. split.
  - intros E e Hin Hp. assert (entry_at es p = Some e) by (by apply entry_at_Some). congruence.
  - intros Hall. destruct (entry_at es p) as [e|] eqn:E; [|done]. apply entry_at_Some in E as [Hin Hp]; [|done]. by apply Hall in Hin.
Qed.

(** Whatever is above an entry is a directory of the listing. *)
Lemma above_is_dir maxPath es e d : listing maxPath es -> e ∈ es -> d <> "" -> IsUnder (e_Path e) d = true -> exists q, q ∈ es /\ e_Path q = d /\ is_dir q = true.
Proof.
  intros Hl. revert e d. induction Hl as [|es x Hl IH Hp Hf Hlt Hpar]; intros e d Hin Hd Hu; [by apply elem_of_nil in Hin|].
  apply elem_of_app in Hin as [Hin|Hin%list_elem_of_singleton]; [|subst e].
  - destruct (IH e d Hin Hd Hu) as (q & Hq & ?). exists q. split; [by apply elem_of_app; left|done].
  - destruct (under_parent _ _ Hd Hu) as [->|Hu'].
    + destruct Hpar as [?|(q & Hq & E & Hdir & _)]; [done|]. exists q. split; [by apply elem_of_app; left|done].
    + destruct Hpar as [E|(q & Hq & E & Hdir & _)].
      * rewrite E in Hu'. by apply under_nonempty in Hu'.
      * rewrite <- E in Hu'. destruct (IH q d Hq Hd Hu') as (q' & Hq' & ?). exists q'. split; [by apply elem_of_app; left|done].
Qed.

(** Two directories above one path are one above the other. *)
Lemma above_comparable p a b : a <> "" -> b <> "" -> IsUnder p a = true -> IsUnder p b = true -> a = b \/ IsUnder a b = true \/ IsUnder b a = true.
Proof.
  intros Ha Hb Hpa Hpb. pose proof (under_lt _ _ Ha Hpa) as Hla. pose proof (under_lt _ _ Hb Hpb) as Hlb.
  destruct (ComparePaths a b) eqn:E; [left; by apply ComparePaths_eq|right; right|right; left].
  - apply (between_under a b p); [done..|by rewrite Hlb].
  - apply (between_under b a p); [done|done| |by rewrite Hla]. rewrite ComparePaths_sym. by rewrite E.
Qed.

(** * The rows of a merge *)

(** The outer join of two ordered listings. *)
Fixpoint outer_join (fuel : nat) (eo en : list Entry) : list row :=
  match fuel with
  | O => []
  | S fuel =>
    match eo, en with
    | [], [] => []
    | o :: eo, [] => (e_Path o, Some o, None) :: outer_join fuel eo []
    | [], n :: en => (e_Path n, None, Some n) :: outer_join fuel [] en
    | o :: eo', n :: en' =>
      match ComparePaths (e_Path o) (e_Path n) with
      | Lt => (e_Path o, Some o, None) :: outer_join fuel eo' en
      | Gt => (e_Path n, None, Some n) :: outer_join fuel eo en'
      | Eq => (e_Path o, Some o, Some n) :: outer_join fuel eo' en'
      end
    end
  end.

(** What it is: each path of either side once, in order. *)
Record joins (eo en : list Entry) (rows : list row) : Prop := MkJoins {
  jo_order : StronglySorted row_lt rows;
  jo_rows : forall p o n, (p, o, n) ∈ rows <-> o = entry_at eo p /\ n = entry_at en p /\ (is_Some o \/ is_Some n)
}.

Definition after (p : bytes) (es : list Entry) : Prop := Forall (fun e => ComparePaths p (e_Path e) = Lt) es.

Lemma entry_at_after es p : after p es -> entry_at es p = None.
Proof.
  induction 1 as [|e es He _ IH]; [done|]. cbn [entry_at]. destruct (str_eqb (e_Path e) p) eqn:E; [|done]. apply str_eqb_eq in E. rewrite E in He. by apply lt_not_eq in He.
Qed.

Lemma ordered_inv e es : ordered (e :: es) -> ordered es /\ after (e_Path e) es /\ e_Path e <> "".
Proof. intros [Ho Hn]. inversion Ho; subst. apply Forall_cons in Hn as [He Hn]. by split_and!. Qed.

Lemma after_trans p q es : ComparePaths p q = Lt -> after q es -> after p es.
Proof. intros Hpq Hq. eapply Forall_impl; [exact Hq|]. intros e He. by eapply ComparePaths_trans. Qed.

Lemma joins_cons p o n eo en eo' en' rows : joins eo' en' rows -> after p eo' -> after p en' ->
  (forall q, entry_at eo q = if str_eqb p q then o else entry_at eo' q) -> (forall q, entry_at en q = if str_eqb p q then n else entry_at en' q) ->
  is_Some o \/ is_Some n -> joins eo en ((p, o, n) :: rows).
Proof.
  intros [Ho Hr] Hao Han Heo Hen Hs. constructor.
  - constructor; [done|]. apply Forall_forall. intros [[q o'] n'] Hin. apply Hr in Hin as (-> & -> & Hsome). unfold row_lt. cbn [fst].
    assert (Hat : forall es, after p es -> is_Some (entry_at es q) -> ComparePaths p q = Lt).
    { intros es Ha. induction Ha as [|e es He _ IH]; [by intros [? ?]|]. cbn [entry_at]. destruct (str_eqb (e_Path e) q) eqn:E; [|done]. apply str_eqb_eq in E. by rewrite <- E. }
    destruct Hsome; [by apply (Hat eo')|by apply (Hat en')].
  - intros q o' n'. rewrite elem_of_cons, Hr, Heo, Hen. destruct (str_eqb p q) eqn:E.
    + apply str_eqb_eq in E as <-. rewrite (entry_at_after _ _ Hao), (entry_at_after _ _ Han). split; [intros [[= -> ->]|(-> & -> & [[? ?]|[? ?]])]; done|].
      intros (-> & -> & _). by left.
    + split; [intros [[= <- _ _]|?]; [by rewrite str_eqb_refl in E|done]|auto].
Qed.

Lemma outer_join_joins fuel : forall eo en, ordered eo -> ordered en -> (length eo + length en < fuel)%nat -> joins eo en (outer_join fuel eo en).
Proof.
  assert (Hone : forall e es q, entry_at (e :: es) q = if str_eqb (e_Path e) q then Some e else entry_at es q) by done.
  assert (Hnone : forall es p q, after p es -> entry_at es q = if str_eqb p q then None else entry_at es q).
  { intros es p q Ha. destruct (str_eqb p q) eqn:E; [|done]. apply str_eqb_eq in E as <-. by apply entry_at_after. }
  induction fuel as [|fuel IH]; intros eo en Ho Hn Hf; [lia|]. cbn [outer_join]. destruct eo as [|o eo], en as [|n en]; cbn [length] in Hf.
  - constructor; [constructor|]. intros p o n. split; [by intros ?%elem_of_nil|]. by intros (-> & -> & [[? ?]|[? ?]]).
  - apply ordered_inv in Hn as (Hn & Ha & _). eapply (joins_cons _ _ _ [] (n :: en) [] en); [apply IH; [done|done|cbn; lia]|constructor|done| |by apply Hone|by right].
    intros q. by destruct (str_eqb _ q).
  - apply ordered_inv in Ho as (Ho & Ha & _). eapply (joins_cons _ _ _ (o :: eo) [] eo []); [apply IH; [done|done|cbn; lia]|done|constructor|by apply Hone| |by left].
    intros q. by destruct (str_eqb _ q).
  - pose proof (ordered_inv _ _ Ho) as (Ho' & Hao & _). pose proof (ordered_inv _ _ Hn) as (Hn' & Han & _). destruct (ComparePaths (e_Path o) (e_Path n)) eqn:Ec.
    + pose proof Ec as Epath. apply ComparePaths_eq in Epath. eapply (joins_cons _ _ _ (o :: eo) (n :: en) eo en); [apply IH; [done|done|lia]|done|by rewrite Epath|by apply Hone| |by left].
      rewrite Epath. by apply Hone.
    + assert (Ha : after (e_Path o) (n :: en)) by (constructor; [done|by eapply after_trans]).
      eapply (joins_cons _ _ _ (o :: eo) (n :: en) eo (n :: en)); [apply IH; [done|done|cbn [length]; lia]|done|done|by apply Hone|intros q; by apply Hnone|by left].
    + assert (Hlt : ComparePaths (e_Path n) (e_Path o) = Lt) by (by rewrite ComparePaths_sym, Ec).
      assert (Ha : after (e_Path n) (o :: eo)) by (constructor; [done|by eapply after_trans]).
      eapply (joins_cons _ _ _ (o :: eo) (n :: en) (o :: eo) en); [apply IH; [done|done|cbn [length]; lia]|done|done|intros q; by apply Hnone|by apply Hone|by right].
Qed.

Section Loop.
Context `{NanoTime} (paths : list bytes) (meta : bool).

Definition handle_row (m : merger) (x : row) : merger := handle paths meta x.1.1 x.1.2 x.2 m.

Lemma next_ordered es e : ordered (e :: es) -> next es None (Some e) = Ok (head es, tail es).
Proof. intros (_ & Ha & _)%ordered_inv. destruct es as [|f es]; [done|]. cbn [next]. apply Forall_cons in Ha as [-> _]. done. Qed.

(** The loop handles the rows of the join, one by one. *)
Lemma loop_handles fuel : forall eo en m, ordered eo -> ordered en -> (length eo + length en < fuel)%nat ->
  merge_loop paths meta fuel None None (head eo) (tail eo) (head en) (tail en) m = Some (flush (foldl handle_row m (outer_join fuel eo en)), None).
Proof.
  induction fuel as [|fuel IH]; intros eo en m Ho Hn Hf; [lia|]. cbn [merge_loop outer_join]. destruct eo as [|o eo], en as [|n en]; cbn [length head tail] in *; [done|..].
  - rewrite next_ordered by done. apply ordered_inv in Hn as (Hn & _). rewrite (IH [] en) by (done || cbn; lia). done.
  - rewrite next_ordered by done. apply ordered_inv in Ho as (Ho & _). rewrite (IH eo []) by (done || cbn; lia). done.
  - pose proof (ordered_inv _ _ Ho) as (Ho' & _). pose proof (ordered_inv _ _ Hn) as (Hn' & _). destruct (ComparePaths (e_Path o) (e_Path n)).
    + rewrite !next_ordered by done. rewrite (IH eo en) by (done || lia). done.
    + rewrite next_ordered by done. rewrite (IH eo (n :: en)) by (done || (cbn [length]; lia)). done.
    + rewrite next_ordered by done. rewrite (IH (o :: eo) en) by (done || (cbn [length]; lia)). done.
Qed.

End Loop.

(** * Statuses *)

(** The statuses whose line later entries fold into. *)
Definition folds (s : ascii) : Prop := s = StatusAdded \/ s = StatusDeleted \/ s = StatusType.
#[global] Instance folds_dec s : Decision (folds s).
Proof. unfold folds. apply _. Defined.

Lemma childFull_full pf why self other b : (childFull pf why self other b).1 = pf && match self with Some e => full_dir e | None => true end.
Proof.
  unfold childFull, full_dir, is_dir. destruct self as [e|]; [|by rewrite andb_true_r]. destruct pf; cbn [negb andb]; [|done].
  destruct (str_eqb (e_Type_ e) TypeDir); cbn [negb andb]; [|done].
  destruct (str_eqb (e_State e) StateTruncated) eqn:E1; [apply str_eqb_eq in E1 as ->; done|]. destruct (str_eqb (e_State e) StateUnreadable) eqn:E2; [apply str_eqb_eq in E2 as ->; done|].
  destruct (str_eqb (e_State e) StateOK); cbn [negb andb]; [|done]. by destruct (is_empty (e_Listing e)).
Qed.

Section Compare.
Context `{NanoTime}.

Lemma compare_content_type o n notes : (compare_content o n notes).1 = Some StatusType <->
  e_Type_ o <> e_Type_ n /\ e_Type_ o <> TypeUnknown /\ e_Type_ n <> TypeUnknown.
Proof.
  unfold compare_content. destruct (str_eqb (e_Type_ o) (e_Type_ n)) eqn:E; cbn [negb andb].
  - apply str_eqb_eq in E. split; [|naive_solver]. intros Hs. exfalso. revert Hs. repeat (case_match; cbn [fst]; try done).
  - assert (Hne : e_Type_ o <> e_Type_ n) by (intros E'; rewrite E', str_eqb_refl in E; done).
    assert (Hb : forall a b, str_eqb a b = false -> a <> b) by (intros a b Hab ->; by rewrite str_eqb_refl in Hab).
    destruct (str_eqb (e_Type_ o) TypeUnknown) eqn:E1, (str_eqb (e_Type_ n) TypeUnknown) eqn:E2; cbn [orb fst].
    1,2,3: split; [done|]; intros (_ & ? & ?); rewrite ?str_eqb_eq in *; done.
    split; [|done]. intros _. split_and!; [done|by apply Hb|by apply Hb].
Qed.

Definition content_status (s : ascii) : Prop := s ∈ [StatusModified; StatusType; StatusLink; StatusUnknown; StatusMode; StatusMeta].

Lemma compare_content_status o n notes s : (compare_content o n notes).1 = Some s -> content_status s.
Proof. unfold compare_content, content_status. repeat (case_match; cbn [fst]; try (intros [= <-]; set_solver)); done. Qed.

Lemma compareEntries_spec p o n meta :
  match compareEntries p o n meta with
  | Some c => c_Path c = p /\ c_Old c = Some o /\ c_New c = Some n /\ c_Below c = 0 /\ c_Absent c = false /\ content_status (c_Status c)
              /\ (c_Status c = StatusType <-> e_Type_ o <> e_Type_ n /\ e_Type_ o <> TypeUnknown /\ e_Type_ n <> TypeUnknown)
  | None => ~ (e_Type_ o <> e_Type_ n /\ e_Type_ o <> TypeUnknown /\ e_Type_ n <> TypeUnknown)
  end.
Proof.
  unfold compareEntries. cbv zeta. match goal with |- context [compare_content o n ?x] => set (notes := x) end. pose proof (compare_content_type o n notes) as Ht. pose proof (compare_content_status o n notes) as Hs.
  destruct (compare_content o n notes) as [st notes']. cbn [fst] in *. destruct st as [s|].
  - cbn. split_and!; [done..|by apply Hs|]. rewrite <- Ht. naive_solver.
  - destruct (e_HasMeta o && e_HasMeta n && negb (e_Mode o =? e_Mode n)).
    + cbn. split_and!; [done..|unfold content_status; set_solver|]. rewrite <- Ht. naive_solver.
    + destruct (meta && e_HasMeta o && e_HasMeta n && _).
      * cbn. split_and!; [done..|unfold content_status; set_solver|]. rewrite <- Ht. naive_solver.
      * cbn. rewrite <- Ht. done.
Qed.

End Compare.

Lemma add_total s c : folds s \/ content_status s -> total (add s c) = total c + 1.
Proof.
  intros Hs. assert (Hin : s ∈ [StatusAdded; StatusDeleted; StatusModified; StatusType; StatusLink; StatusMode; StatusUnknown; StatusMeta]).
  { destruct Hs as [[->|[->| ->]]|Hs]; [set_solver..|]. unfold content_status in Hs. set_solver. }
  rewrite !elem_of_cons, elem_of_nil in Hin. unfold total, add.
  destruct Hin as [->|[->|[->|[->|[->|[->|[->|[->|[]]]]]]]]]; repeat case_bool_decide; first [discriminate|congruence|cbn; lia].
Qed.

(** * What is reported *)

(** A line: a status, the path with what each side has there, how many paths
    were folded into it, and whether one side did not list the name. *)
Record report := MkReport { l_status : ascii; l_row : row; l_below : Z; l_absent : bool }.

Definition one_sided (x : row) : bool := match x with (_, Some _, Some _) => false | _ => true end.

Section Report.
Context `{NanoTime} (paths : list bytes) (meta : bool) (old new : source) (rows : list row).

Definition folding (x : row) : bool := match verdict meta old new x with Some s => bool_decide (folds s) | None => false end.
(** A selected row above this one folds. *)
Definition covered (x : row) : bool := existsb (fun y => IsUnder x.1.1 y.1.1 && selected paths y.1.1 && folding y) rows.
Definition rows_under (pre : list row) (x : row) : Z := Z.of_nat (length (filter (fun y => IsUnder y.1.1 x.1.1 = true) pre)).

Definition line_for (pre : list row) (x : row) (s : ascii) : report :=
  MkReport s x (if bool_decide (folds s) then rows_under pre x else 0) (bool_decide (s = StatusUnknown) && one_sided x).
(** The line of a row, when it has one of its own. *)
Definition report_of (pre : list row) (x : row) : option report :=
  if selected paths x.1.1 && negb (covered x) then line_for pre x <$> verdict meta old new x else None.

Definition tally (c : DiffCounts) (x : row) : DiffCounts :=
  if selected paths x.1.1 then match verdict meta old new x with Some s => add s c | None => c end else c.

End Report.

Definition reported (c : change) : report := MkReport (c_Status c) (c_Path c, c_Old c, c_New c) (c_Below c) (c_Absent c).
Definition item_of (e : event) : option row := match e with Item p o n => Some (p, o, n) | Change _ => None end.
Definition line_event (e : event) : option change := match e with Change c => Some c | Item _ _ _ => None end.
(** The lines so far, the one still open last. *)
Definition lines (m : merger) : list change := omap line_event (events m) ++ option_list (pending m).

(** * The state of the merge *)

Section Exact.
Context `{NanoTime} (paths : list bytes) (meta : bool) (old new : source) (maxo maxn : Z).
Context (Hlo : listing maxo (s_entries old)) (Hln : listing maxn (s_entries new)).
Context (rows : list row) (HJ : joins (s_entries old) (s_entries new) rows).

Abbreviation verdict := (verdict meta old new).
Abbreviation sel := (selected paths).
Abbreviation folding := (folding meta old new).
Abbreviation covered := (covered paths meta old new rows).
Abbreviation report_of := (report_of paths meta old new rows).
Abbreviation tally := (tally paths meta old new).

(** Every directory at or above the path was fully listed. *)
Definition listed_to (h : Header) (es : list Entry) (p : bytes) : bool :=
  (rootFull h).1 && forallb (fun q => implb (str_eqb (e_Path q) p || IsUnder p (e_Path q)) (full_dir q)) es.

(** At the path or above it. *)
Definition covers (p q : bytes) : Prop := p = q \/ IsUnder p q = true.

(** What a fold says of the rows whose paths satisfy [P], those at or above an
    entry: with none, no row folds; a selected one is the topmost selected row
    that folds; one that is not selected has no selected row that folds. *)
Definition fold_known (P : bytes -> Prop) (fold : option foldTop) : Prop :=
  match fold with
  | None => forall y, y ∈ rows -> P y.1.1 -> folding y = false
  | Some g =>
    f_child g = f_status g /\ folds (f_status g)
    /\ (exists y, y ∈ rows /\ y.1.1 = f_path g /\ P (f_path g) /\ verdict y = Some (f_status g) /\ (f_selected g = true -> sel (f_path g) = true /\ covered y = false))
    /\ (f_selected g = false -> forall y, y ∈ rows -> P y.1.1 -> sel y.1.1 = true -> folding y = false)
  end.

(** A frame of the stack stands for a row, and knows what was listed down to
    it. *)
Record frame_ok (f : mergeFrame) : Prop := MkFrameOk {
  fr_row : exists o n, (m_path f, o, n) ∈ rows;
  fr_old : m_oldFull f = listed_to (s_header old) (s_entries old) (m_path f);
  fr_new : m_newFull f = listed_to (s_header new) (s_entries new) (m_path f);
  fr_fold : fold_known (covers (m_path f)) (m_fold f)
}.

(** A frame above another in the stack. *)
Definition beneath (a b : mergeFrame) : Prop :=
  IsUnder (m_path a) (m_path b) = true /\ forall g, m_fold b = Some g -> f_selected g = true -> m_fold a = Some g.

Definition root_frame : mergeFrame :=
  MkFrame "" (rootFull (s_header old)).1 (rootFull (s_header new)).1 (rootFull (s_header old)).2 (rootFull (s_header new)).2 None.

(** The stack after the rows [pre]: the frames of the rows at or above the
    last. *)
Record stacked (pre : list row) (frames : list mergeFrame) : Prop := MkStacked {
  sk_ok : Forall frame_ok frames;
  sk_sorted : StronglySorted beneath frames;
  sk_rows : forall f, f ∈ frames -> exists x, x ∈ pre /\ x.1.1 = m_path f;
  sk_all : forall x l, x ∈ pre -> last pre = Some l -> covers l.1.1 x.1.1 -> exists f, f ∈ frames /\ m_path f = x.1.1
}.

Lemma row_path x : x ∈ rows -> x.1.1 <> "".
Proof.
  destruct x as [[p o] n]. intros (Ho & Hn & Hs)%(jo_rows _ _ _ HJ). cbn [fst]. pose proof (listing_ordered _ _ Hlo) as Oo. pose proof (listing_ordered _ _ Hln) as On.
  assert (Hne : forall es e, ordered es -> Some e = entry_at es p -> p <> "").
  { intros es e Hes E. symmetry in E. apply entry_at_Some in E as [Hin <-]; [|done]. destruct Hes as [_ Hes]. by eapply Forall_forall in Hes. }
  destruct Hs as [[e He]|[e He]]; rewrite He in *; eauto.
Qed.

(** What is above a row is a row, and a directory on the sides that have the
    row. *)
Lemma row_above p o n d : (p, o, n) ∈ rows -> d <> "" -> IsUnder p d = true ->
  exists o' n', (d, o', n') ∈ rows /\ (is_Some o -> exists e, o' = Some e /\ is_dir e = true) /\ (is_Some n -> exists e, n' = Some e /\ is_dir e = true).
Proof.
  intros (Ho & Hn & Hs)%(jo_rows _ _ _ HJ) Hd Hu. pose proof (listing_ordered _ _ Hlo) as Oo. pose proof (listing_ordered _ _ Hln) as On.
  assert (Hup : forall mx es e, listing mx es -> Some e = entry_at es p -> exists q, entry_at es d = Some q /\ is_dir q = true).
  { intros mx es e Hl E. symmetry in E. pose proof (listing_ordered _ _ Hl) as Hes. apply entry_at_Some in E as [Hin E]; [|done]. rewrite <- E in Hu.
    destruct (above_is_dir _ _ _ _ Hl Hin Hd Hu) as (q & Hq & Hqd & Hdir). exists q. split; [by apply entry_at_Some|done]. }
  exists (entry_at (s_entries old) d), (entry_at (s_entries new) d). split_and!.
  - apply (jo_rows _ _ _ HJ). split_and!; [done|done|]. destruct Hs as [[e He]|[e He]]; rewrite He in *; [left|right]; (edestruct Hup as (q & -> & _); [|done|]; done).
  - intros [e He]. rewrite He in Ho. by apply (Hup maxo _ e).
  - intros [e He]. rewrite He in Hn. by apply (Hup maxn _ e).
Qed.

Lemma pre_lt pre x post y : rows = pre ++ x :: post -> y ∈ pre -> row_lt y x.
Proof. intros E Hy. pose proof (jo_order _ _ _ HJ) as Ho. rewrite E in Ho. eapply StronglySorted_app_1_elem_of; [exact Ho|done|by left]. Qed.

Lemma lt_pre pre x post y : rows = pre ++ x :: post -> y ∈ rows -> row_lt y x -> y ∈ pre.
Proof.
  intros E Hy Hlt. rewrite E in Hy. apply elem_of_app in Hy as [?|[->|Hy]%elem_of_cons]; [done|by apply lt_not_eq in Hlt|]. exfalso.
  pose proof (jo_order _ _ _ HJ) as Ho. rewrite E in Ho. apply StronglySorted_app_1_r in Ho. inversion Ho as [|? ? _ Hall]; subst. rewrite Forall_forall in Hall.
  specialize (Hall y Hy). unfold row_lt in *. by apply lt_asym in Hall.
Qed.

(** What is on the stack once [unwind] made room for [p]. *)
Lemma unwind_spec p frames : Forall (fun f => m_path f <> "") frames -> StronglySorted beneath frames ->
  exists kept, unwind p (frames ++ [root_frame]) = kept ++ [root_frame] /\ StronglySorted beneath kept
    /\ (forall f, f ∈ kept <-> f ∈ frames /\ IsUnder p (m_path f) = true).
Proof.
  intros Hne. induction 1 as [|f frames Hs IH Hf]; cbn [unwind app].
  { exists []. split_and!; [done|constructor|]. intros f. rewrite elem_of_nil. naive_solver. }
  apply Forall_cons in Hne as [Hnf Hne]. assert (Hnn : exists g l, frames ++ [root_frame] = g :: l) by (destruct frames; by eexists _, _).
  destruct Hnn as (g & l & Eg). rewrite Eg. destruct (IsUnder p (m_path f)) eqn:Eu.
  - exists (f :: frames). rewrite <- Eg. split_and!; [done|by constructor|]. intros f'. rewrite elem_of_cons. split; [|by intros [? _]].
    intros [->|Hin]; [auto|]. split; [by right|]. rewrite Forall_forall in Hf. destruct (Hf f' Hin) as [Hb _]. rewrite Forall_forall in Hne. by apply (under_trans p (m_path f)); [apply Hne| |].
  - destruct (IH Hne) as (kept & E & Hsk & Hk). rewrite Eg in E. exists kept. split_and!; [exact E|done|]. intros f'. rewrite Hk, elem_of_cons.
    split; [intros [? ?]; auto|]. intros [[->|?] ?]; [congruence|done].
Qed.

(** The frames left are those of the rows above [x]. *)
Lemma kept_rows pre x post frames : rows = pre ++ x :: post -> stacked pre frames ->
  exists kept, unwind x.1.1 (frames ++ [root_frame]) = kept ++ [root_frame] /\ StronglySorted beneath kept
    /\ (forall f, f ∈ kept <-> f ∈ frames /\ IsUnder x.1.1 (m_path f) = true)
    /\ forall y, y ∈ rows -> IsUnder x.1.1 y.1.1 = true -> exists f, f ∈ kept /\ m_path f = y.1.1.
Proof.
  intros E [Hok Hs Hr Ha]. destruct (unwind_spec x.1.1 frames) as (kept & Eu & Hsk & Hk); [|done|].
  { eapply Forall_impl; [exact Hok|]. intros f [(o & n & Hin) _ _ _]. exact (row_path _ Hin). }
  exists kept. split_and!; [done..|]. intros y Hy Hu. pose proof (row_path _ Hy) as Hne. assert (Hlt : row_lt y x) by (unfold row_lt; by apply under_lt).
  pose proof (lt_pre _ _ _ _ E Hy Hlt) as Hyp. destruct (last pre) as [l|] eqn:El; [|apply last_None in El; subst pre; by apply elem_of_nil in Hyp].
  apply last_Some in El as [pre' ->]. assert (Hl : row_lt l x) by (apply (pre_lt _ _ _ _ E); apply elem_of_app; right; by left).
  destruct (Ha y l Hyp) as (f & Hf & Hfp); [done|..].
  - apply elem_of_app in Hyp as [Hyp|Hyp%list_elem_of_singleton]; [|subst; by left]. right. apply (between_under _ _ x.1.1 Hne Hu); [|by rewrite Hl].
    pose proof (jo_order _ _ _ HJ) as Ho. rewrite E in Ho. apply StronglySorted_app_1_l in Ho. eapply (StronglySorted_app_1_elem_of row_lt); [exact Ho|done|by left].
  - exists f. split; [|done]. apply Hk. split; [done|]. by rewrite Hfp.
Qed.

(** ** Listed down to the parent *)

Lemma forallb_same {A} (f g : A -> bool) l : (forall a, a ∈ l -> f a = g a) -> forallb f l = forallb g l.
Proof. induction l as [|a l IH]; intros Hall; [done|]. cbn [forallb]. rewrite (Hall a), IH; [done|intros b Hb; apply Hall; by right|by left]. Qed.

Lemma listed_parent h es (x : row) kept : (forall q, q ∈ es -> exists y, y ∈ rows /\ y.1.1 = e_Path q) ->
  StronglySorted beneath kept -> Forall (fun f => m_path f <> "") kept -> (forall f, f ∈ kept -> IsUnder x.1.1 (m_path f) = true) ->
  (forall y, y ∈ rows -> IsUnder x.1.1 y.1.1 = true -> exists f, f ∈ kept /\ m_path f = y.1.1) ->
  match kept with [] => (rootFull h).1 | f :: _ => listed_to h es (m_path f) end = listed_above h es x.1.1.
Proof.
  intros Hrow Hs Hne Hu Hall. unfold listed_to, listed_above. destruct kept as [|f kept].
  - rewrite (forallb_same _ (fun _ => true)); [|]. { rewrite (proj2 (forallb_forall (fun _ : Entry => true) es)) by done. by rewrite andb_true_r. }
    intros q Hq. destruct (Hrow q Hq) as (y & Hy & <-). destruct (IsUnder x.1.1 y.1.1) eqn:E; [|done]. destruct (Hall y Hy E) as (f & Hf & _). by apply elem_of_nil in Hf.
  - f_equal. apply forallb_same. intros q Hq. f_equal. destruct (Hrow q Hq) as (y & Hy & Eq). apply eq_true_iff_eq. rewrite orb_true_iff, str_eqb_eq. split.
    + intros [->|Hfq]; [apply Hu; by left|]. rewrite <- Eq in *. apply (under_trans x.1.1 (m_path f)); [by apply row_path|apply Hu; by left|done].
    + intros Hxq. rewrite <- Eq in *. destruct (Hall y Hy Hxq) as (f' & Hf' & E'). apply elem_of_cons in Hf' as [->|Hf']; [by left|]. right.
      inversion Hs as [|? ? _ Hb]; subst. rewrite Forall_forall in Hb. destruct (Hb f' Hf') as [Hb' _]. by rewrite <- E'.
Qed.

Lemma old_rows q : q ∈ s_entries old -> exists y, y ∈ rows /\ y.1.1 = e_Path q.
Proof.
  intros Hq. exists (e_Path q, Some q, entry_at (s_entries new) (e_Path q)). split; [|done]. apply (jo_rows _ _ _ HJ). split_and!; [|done|by left].
  symmetry. apply entry_at_Some; [by eapply listing_ordered|done].
Qed.
Lemma new_rows q : q ∈ s_entries new -> exists y, y ∈ rows /\ y.1.1 = e_Path q.
Proof.
  intros Hq. exists (e_Path q, entry_at (s_entries old) (e_Path q), Some q). split; [|done]. apply (jo_rows _ _ _ HJ). split_and!; [done| |by right].
  symmetry. apply entry_at_Some; [by eapply listing_ordered|done].
Qed.

(** Down to a row: down to its parent, and the row's own entry. *)
Lemma listed_to_row h es p self : ordered es -> entry_at es p = self ->
  listed_to h es p = listed_above h es p && match self with Some e => full_dir e | None => true end.
Proof.
  intros Hes <-. unfold listed_to, listed_above. rewrite <- andb_assoc. f_equal. apply eq_true_iff_eq. rewrite andb_true_iff, !forallb_forall. split.
  - intros Hall. split.
    + intros q Hq. specialize (Hall q Hq). destruct (IsUnder p (e_Path q)); [|done]. by rewrite orb_true_r in Hall.
    + destruct (entry_at es p) as [e|] eqn:E; [|done]. apply entry_at_Some in E as [Hin%list_elem_of_In Hp]; [|done]. specialize (Hall e Hin). by rewrite Hp, str_eqb_refl in Hall.
  - intros [Hall Hself] q Hq. specialize (Hall q Hq). destruct (str_eqb (e_Path q) p) eqn:E; [|done]. apply str_eqb_eq in E. cbn [orb implb].
    assert (Hat : entry_at es p = Some q) by (apply entry_at_Some; [done|]; split; [by apply list_elem_of_In|done]). by rewrite Hat in Hself.
Qed.

(** ** What a row's verdict takes from those above it *)

Lemma verdict_type d o n s : verdict (d, Some o, Some n) = Some s -> s = StatusType ->
  e_Type_ o <> e_Type_ n /\ e_Type_ o <> TypeUnknown /\ e_Type_ n <> TypeUnknown.
Proof.
  cbn [DiffExact.verdict]. pose proof (compareEntries_spec d o n meta) as Hc. destruct (compareEntries d o n meta) as [c|]; [|done]. cbn. intros [= <-] E. by apply Hc.
Qed.

Lemma verdict_type_of d o n : e_Type_ o <> e_Type_ n -> e_Type_ o <> TypeUnknown -> e_Type_ n <> TypeUnknown -> verdict (d, Some o, Some n) = Some StatusType.
Proof.
  intros H1' H2' H3'. cbn [DiffExact.verdict]. pose proof (compareEntries_spec d o n meta) as Hc. destruct (compareEntries d o n meta) as [c|]; [|by destruct Hc].
  cbn. f_equal. by apply Hc.
Qed.

Lemma both_no_one_side d o n s : verdict (d, Some o, Some n) = Some s -> folds s -> s = StatusType.
Proof.
  cbn [DiffExact.verdict]. pose proof (compareEntries_spec d o n meta) as Hc. destruct (compareEntries d o n meta) as [c|]; [|done]. cbn. intros [= <-] [E|[E|E]]; [..|done];
    destruct Hc as (_ & _ & _ & _ & _ & Hs & _); rewrite E in Hs; unfold content_status in Hs; rewrite !elem_of_cons, elem_of_nil in Hs; naive_solver.
Qed.

Lemma dir_known e : is_dir e = true -> e_Type_ e <> TypeUnknown.
Proof. unfold is_dir. by intros ->%str_eqb_eq. Qed.

Lemma known_other_spec e : known_other e = true <-> is_dir e = false /\ e_Type_ e <> TypeUnknown.
Proof.
  unfold known_other. rewrite andb_true_iff, !negb_true_iff. split; intros [H1' H2']; (split; [done|]); [intros E; by rewrite E in H2'|].
  destruct (str_eqb (e_Type_ e) TypeUnknown) eqn:E; [|done]. by apply str_eqb_eq in E.
Qed.

(** Nothing above the row folds: a name is absent where all was listed. *)
Lemma absent_unfolded p o n : (p, o, n) ∈ rows -> (forall y s, y ∈ rows -> IsUnder p y.1.1 = true -> verdict y = Some s -> ~ folds s) ->
  (is_Some o -> really_absent (s_header new) (s_entries new) p = listed_above (s_header new) (s_entries new) p)
  /\ (is_Some n -> really_absent (s_header old) (s_entries old) p = listed_above (s_header old) (s_entries old) p).
Proof.
  intros Hin Hno. pose proof (listing_ordered _ _ Hlo) as Oo. pose proof (listing_ordered _ _ Hln) as On. unfold really_absent.
  assert (Hor : forall (a b : bool), (a = true -> False) -> a || b = b) by (intros [] b Ha; [by destruct Ha|done]).
  split; intros Hs; apply Hor; intros (q & Hq%list_elem_of_In & [Hu Hk]%andb_prop)%existsb_exists; apply known_other_spec in Hk as [Hd Hk].
  - assert (Hne : e_Path q <> "") by (destruct (new_rows q Hq) as (y & Hy & <-); by apply row_path).
    destruct (row_above _ _ _ _ Hin Hne Hu) as (o' & n' & Hy & Ho' & _). destruct (Ho' Hs) as (e & -> & He). pose proof Hy as (_ & -> & _)%(jo_rows _ _ _ HJ).
    assert (Eq : entry_at (s_entries new) (e_Path q) = Some q) by (by apply entry_at_Some). rewrite Eq in Hy.
    apply (Hno _ StatusType Hy Hu); [|by right; right]. apply verdict_type_of; [|by apply dir_known|done]. intros E. unfold is_dir in *. rewrite E in He. congruence.
  - assert (Hne : e_Path q <> "") by (destruct (old_rows q Hq) as (y & Hy & <-); by apply row_path).
    destruct (row_above _ _ _ _ Hin Hne Hu) as (o' & n' & Hy & _ & Hn'). destruct (Hn' Hs) as (e & -> & He). pose proof Hy as (-> & _ & _)%(jo_rows _ _ _ HJ).
    assert (Eq : entry_at (s_entries old) (e_Path q) = Some q) by (by apply entry_at_Some). rewrite Eq in Hy.
    apply (Hno _ StatusType Hy Hu); [|by right; right]. apply verdict_type_of; [|done|by apply dir_known]. intros E. unfold is_dir in *. rewrite <- E in He. congruence.
Qed.

(** A side that has nothing at a directory has nothing below it, and what was
    listed above it is what was listed above what is below it. *)
Lemma really_absent_below mx es h p d : listing mx es -> d <> "" -> IsUnder p d = true -> entry_at es d = None -> really_absent h es p = really_absent h es d.
Proof.
  intros Hl Hd Hu Hnone. pose proof (listing_ordered _ _ Hl) as Hes. assert (Hsame : forall q, q ∈ es -> IsUnder p (e_Path q) = IsUnder d (e_Path q)).
  { intros q Hq. assert (Hne : e_Path q <> "") by (destruct Hes as [_ Hf]; by eapply Forall_forall in Hf). apply eq_true_iff_eq. split; [|intros Hdq; by apply (under_trans p d)].
    intros Hpq. destruct (above_comparable p d (e_Path q) Hd Hne Hu Hpq) as [E|[?|Hqd]]; [|done|]; exfalso.
    - by apply (proj1 (entry_at_None _ _ Hes) Hnone q).
    - destruct (above_is_dir _ _ _ _ Hl Hq Hd Hqd) as (q' & Hq' & E & _). by apply (proj1 (entry_at_None _ _ Hes) Hnone q'). }
  unfold really_absent, listed_above. f_equal; [|f_equal; apply forallb_same; intros q Hq; by rewrite Hsame].
  assert (Hex : forall (l : list Entry) (f g : Entry -> bool), (forall a, a ∈ l -> f a = g a) -> existsb f l = existsb g l).
  { intros l f g Hall. induction l as [|a l IH]; [done|]. cbn [existsb]. rewrite (Hall a), IH; [done|intros b Hb; apply Hall; by right|by left]. }
  apply Hex. intros q Hq. by rewrite Hsame.
Qed.

Lemma verdict_folded p o n y s : (p, o, n) ∈ rows -> y ∈ rows -> IsUnder p y.1.1 = true -> verdict y = Some s -> folds s ->
  verdict (p, o, n) = Some (if bool_decide (s = StatusType) then match o with Some _ => StatusDeleted | None => StatusAdded end else s).
Proof.
  intros Hin Hy Hu Hv Hs. pose proof (row_path _ Hy) as Hne. pose proof (listing_ordered _ _ Hlo) as Oo. pose proof (listing_ordered _ _ Hln) as On.
  destruct y as [[d od] nd]. cbn [fst] in Hu, Hne. destruct (row_above _ _ _ _ Hin Hne Hu) as (o' & n' & Hy' & Ho' & Hn').
  pose proof Hy as (Eod & End & _)%(jo_rows _ _ _ HJ). pose proof Hy' as (Eo' & En' & _)%(jo_rows _ _ _ HJ). rewrite <- Eod in Eo'. rewrite <- End in En'. subst o' n'. clear Hy'.
  pose proof Hin as (_ & _ & Hsome)%(jo_rows _ _ _ HJ). destruct od as [eo|], nd as [en|]; [..|done].
  - pose proof (both_no_one_side _ _ _ _ Hv Hs) as ->. rewrite bool_decide_eq_true_2 by done. destruct (verdict_type _ _ _ _ Hv eq_refl) as (Ht & Hto & Htn).
    assert (Hboth : is_dir eo = true -> is_dir en = true -> False) by (unfold is_dir; intros E1%str_eqb_eq E2%str_eqb_eq; congruence).
    assert (Habs : forall h es e, entry_at es d = Some e -> ordered es -> is_dir e = false -> e_Type_ e <> TypeUnknown -> really_absent h es p = true).
    { intros h es e Ee Hes Hd Hk. unfold really_absent. apply orb_true_iff. left. apply existsb_exists. apply entry_at_Some in Ee as [Hq Hqd]; [|done].
      exists e. split; [by apply list_elem_of_In|]. rewrite Hqd, Hu. by apply known_other_spec. }
    destruct o as [o|], n as [n|]; cbn [DiffExact.verdict].
    + exfalso. destruct (Ho' ltac:(by eexists)) as (? & [= <-] & Hd1), (Hn' ltac:(by eexists)) as (? & [= <-] & Hd2). auto.
    + destruct (Ho' ltac:(by eexists)) as (? & [= <-] & Hd1). by rewrite (Habs _ _ en (eq_sym End) On (not_true_is_false _ (Hboth Hd1)) Htn).
    + destruct (Hn' ltac:(by eexists)) as (? & [= <-] & Hd2). rewrite (Habs _ _ eo (eq_sym Eod) Oo); [done| |done]. destruct (is_dir eo) eqn:E; [by destruct Hboth|done].
    + destruct Hsome as [[? ?]|[? ?]]; done.
  - cbn [DiffExact.verdict] in Hv. destruct n as [n|]; [destruct (Hn' ltac:(by eexists)) as (? & ? & _); done|]. destruct o as [o|]; [|destruct Hsome as [[? ?]|[? ?]]; done].
    destruct (really_absent (s_header new) (s_entries new) d) eqn:Ea; injection Hv as <-; [|by destruct Hs as [?|[?|?]]].
    cbn [DiffExact.verdict]. by rewrite (really_absent_below maxn _ _ p d), Ea.
  - cbn [DiffExact.verdict] in Hv. destruct o as [o|]; [destruct (Ho' ltac:(by eexists)) as (? & ? & _); done|]. destruct n as [n|]; [|destruct Hsome as [[? ?]|[? ?]]; done].
    destruct (really_absent (s_header old) (s_entries old) d) eqn:Ea; injection Hv as <-; [|by destruct Hs as [?|[?|?]]].
    cbn [DiffExact.verdict]. by rewrite (really_absent_below maxo _ _ p d), Ea.
Qed.

(** ** One row *)

Lemma row_eq x y : x ∈ rows -> y ∈ rows -> x.1.1 = y.1.1 -> x = y.
Proof. destruct x as [[p o] n], y as [[q o'] n']. cbn [fst]. intros (-> & -> & _)%(jo_rows _ _ _ HJ) (-> & -> & _)%(jo_rows _ _ _ HJ) ->. done. Qed.

Lemma covered_true x : covered x = true <-> exists y, y ∈ rows /\ IsUnder x.1.1 y.1.1 = true /\ sel y.1.1 = true /\ folding y = true.
Proof.
  unfold DiffExact.covered. rewrite existsb_exists. split.
  - intros (y & Hy%list_elem_of_In & [[? ?]%andb_prop ?]%andb_prop). by exists y.
  - intros (y & Hy & Hu & Hs & Hf). exists y. split; [by apply list_elem_of_In|by rewrite Hu, Hs, Hf].
Qed.

Lemma covered_false x : covered x = false <-> forall y, y ∈ rows -> IsUnder x.1.1 y.1.1 = true -> sel y.1.1 = true -> folding y = false.
Proof.
  rewrite <- not_true_iff_false, covered_true. split.
  - intros Hno y Hy Hu Hs. destruct (folding y) eqn:E; [|done]. destruct Hno. by exists y.
  - intros Hall (y & Hy & Hu & Hs & Hf). rewrite (Hall y) in Hf; done.
Qed.

Lemma folding_spec y s : verdict y = Some s -> folding y = bool_decide (folds s).
Proof. unfold DiffExact.folding. by intros ->. Qed.

Definition above (p q : bytes) : Prop := IsUnder p q = true.

(** What the frame over a row knows. *)
Record parent_ok (x : row) (kept : list mergeFrame) (parent : mergeFrame) : Prop := MkParentOk {
  pa_old : m_oldFull parent = listed_above (s_header old) (s_entries old) x.1.1;
  pa_new : m_newFull parent = listed_above (s_header new) (s_entries new) x.1.1;
  pa_fold : fold_known (above x.1.1) (m_fold parent);
  pa_same : forall f g, f ∈ kept -> m_fold f = Some g -> f_selected g = true -> m_fold parent = Some g;
  pa_in : forall g, m_fold parent = Some g -> parent ∈ kept
}.

Lemma fold_up (x : row) kept f : fold_known (covers (m_path f)) (m_fold f) -> StronglySorted beneath (f :: kept) -> IsUnder x.1.1 (m_path f) = true -> m_path f <> "" ->
  (forall y, y ∈ rows -> IsUnder x.1.1 y.1.1 = true -> exists f', f' ∈ f :: kept /\ m_path f' = y.1.1) -> fold_known (above x.1.1) (m_fold f).
Proof.
  intros Hf Hs Hu Hne Hall. assert (Hup : forall y, y ∈ rows -> above x.1.1 y.1.1 -> covers (m_path f) y.1.1).
  { intros y Hy Ha. destruct (Hall y Hy Ha) as (f' & Hf' & <-). apply elem_of_cons in Hf' as [->|Hf']; [by left|right].
    inversion Hs as [|? ? _ Hb]; subst. rewrite Forall_forall in Hb. by destruct (Hb f' Hf'). }
  unfold fold_known in *. destruct (m_fold f) as [g|]; [|by eauto].
  destruct Hf as (Hc & Hfs & (y & Hy & Ey & Hcov & Hv & Hsel) & Huns). split_and!; [done|done| |by eauto].
  exists y. split_and!; [done|done| |done|done]. unfold above. destruct Hcov as [<-|Hcov]; [done|]. apply (under_trans x.1.1 (m_path f)); [|done|done]. rewrite <- Ey. by apply row_path.
Qed.

(** Making room for a row leaves the frame over it on top. *)
Lemma parent_known pre (x : row) post frames : rows = pre ++ x :: post -> stacked pre frames ->
  exists kept, unwind x.1.1 (frames ++ [root_frame]) = kept ++ [root_frame] /\ StronglySorted beneath kept
    /\ (forall f, f ∈ kept <-> f ∈ frames /\ IsUnder x.1.1 (m_path f) = true) /\ (forall y, y ∈ rows -> IsUnder x.1.1 y.1.1 = true -> exists f, f ∈ kept /\ m_path f = y.1.1)
    /\ parent_ok x kept (default root_frame (head kept)).
Proof.
  intros E Hst. destruct (kept_rows _ _ _ _ E Hst) as (kept & Eu & Hs & Hk & Hall). destruct Hst as [Hok _ _ _]. rewrite Forall_forall in Hok.
  assert (Hne : forall f, f ∈ kept -> m_path f <> "") by (intros f [Hf _]%Hk; destruct (Hok f Hf) as [(o & n & Hin) _ _ _]; exact (row_path _ Hin)).
  assert (Hu : forall f, f ∈ kept -> IsUnder x.1.1 (m_path f) = true) by (by intros f [_ ?]%Hk).
  exists kept. split_and!; [done..|]. assert (HneF : Forall (fun f => m_path f <> "") kept) by (by apply Forall_forall).
  pose proof (listed_parent (s_header old) (s_entries old) x kept old_rows Hs HneF Hu Hall) as Hold.
  pose proof (listed_parent (s_header new) (s_entries new) x kept new_rows Hs HneF Hu Hall) as Hnew.
  destruct kept as [|f kept]; cbn [head default].
  - constructor; [exact Hold|exact Hnew| |by intros ? ? ?%elem_of_nil|done]. intros y Hy Ha. destruct (Hall y Hy Ha) as (? & ?%elem_of_nil & _). done.
  - assert (Hin : f ∈ f :: kept) by left. pose proof (Hok f (proj1 (proj1 (Hk f) Hin))) as [_ Fo Fn Ff]. cbn [default id]. constructor.
    + by rewrite Fo.
    + by rewrite Fn.
    + by apply (fold_up x kept f Ff Hs (Hu f Hin) (Hne f Hin) Hall).
    + intros f' g Hf' Eg Hg. apply elem_of_cons in Hf' as [->|Hf']; [done|]. inversion Hs as [|? ? _ Hb]; subst. rewrite Forall_forall in Hb. destruct (Hb f' Hf') as [_ Hsame]. by apply Hsame.
    + by left.
Qed.

Definition unselected (fold : option foldTop) : Prop := forall g, fold = Some g -> f_selected g = false.

Lemma unselected_uncovered (x : row) fold : fold_known (above x.1.1) fold -> unselected fold -> covered x = false.
Proof.
  intros Hf Hu. apply covered_false. intros y Hy Ha Hs. destruct fold as [g|]; [|by apply Hf]. destruct Hf as (_ & _ & _ & Huns). by apply Huns; [apply Hu|..].
Qed.

Lemma sel_under p q : q <> "" -> IsUnder p q = true -> sel q = true -> sel p = true.
Proof.
  intros Hq Hu. unfold selected. destruct paths as [|f fs]; [done|]. rewrite !existsb_exists. intros (f' & Hf & Hs). exists f'. split; [done|]. apply orb_true_iff. right.
  destruct (str_eqb q f') eqn:E; cbn [orb] in Hs; [apply str_eqb_eq in E as <-; done|]. destruct (String.eqb_spec f' "") as [->|Hne]; [|by apply (under_trans p q)].
  pose proof (under_nonempty _ _ Hq Hu). unfold IsUnder. cbn [is_empty]. by destruct p.
Qed.

(** The fold of a row's own frame, from its parent's. *)
Lemma fold_kept (x : row) g : x ∈ rows -> fold_known (above x.1.1) (Some g) -> sel x.1.1 && negb (f_selected g) = false -> fold_known (covers x.1.1) (Some g).
Proof.
  intros Hx (Hc & Hfs & (y & Hy & Ey & Ha & Hv & Hsel) & Huns) Hs. split_and!; [done|done|exists y; split_and!; [done..|by right|done|done]|].
  intros Hg z Hz [Ez|Hz'] Hsz; [|by apply Huns]. rewrite Ez, Hsz, Hg in Hs. done.
Qed.

Lemma fold_new (x : row) s b : x ∈ rows -> folds s -> verdict x = Some s -> b = sel x.1.1 ->
  (forall y, y ∈ rows -> above x.1.1 y.1.1 -> sel y.1.1 = true -> folding y = false) -> fold_known (covers x.1.1) (Some (MkFold s x.1.1 b s)).
Proof.
  intros Hx Hs Hv -> Hno. split_and!; [done|done| |].
  - exists x. split_and!; [done|done|by left|done|]. intros Hsel. split; [done|]. by apply covered_false.
  - cbn [f_selected]. intros Hsel z Hz [Ez|Hz'] Hsz; [congruence|by apply Hno].
Qed.

Lemma fold_none (x : row) : x ∈ rows -> folding x = false -> fold_known (above x.1.1) None -> fold_known (covers x.1.1) None.
Proof. intros Hx Hf Hno y Hy [E|Ha]; [by rewrite <- (row_eq x y Hx Hy E)|by apply Hno]. Qed.

(** The line of a row below no fold is its verdict's. *)
Lemma line_of_spec (x : row) kept parent : x ∈ rows -> parent_ok x kept parent -> m_fold parent = None ->
  let '(c, fold) := line_of meta x.1.1 x.1.2 x.2 parent in
  verdict x = c_Status <$> c /\ forall cc, c = Some cc -> fold = bool_decide (folds (c_Status cc)) /\ (folds (c_Status cc) \/ content_status (c_Status cc))
    /\ reported cc = MkReport (c_Status cc) x 0 (bool_decide (c_Status cc = StatusUnknown) && one_sided x).
Proof.
  intros Hx [Hold Hnew Hfold _ _] Enone. rewrite Enone in Hfold. destruct x as [[p o] n]. cbn [fst snd] in *.
  destruct (absent_unfolded p o n Hx) as [Ha Hb]; [intros y s Hy Hu Hv Hs; specialize (Hfold y Hy Hu); rewrite (folding_spec y s Hv) in Hfold; by apply bool_decide_eq_false in Hfold|].
  pose proof Hx as (_ & _ & Hsome)%(jo_rows _ _ _ HJ). unfold line_of. cbn [DiffExact.verdict]. destruct o as [o|], n as [n|]; [..|by destruct Hsome as [[? ?]|[? ?]]].
  - pose proof (compareEntries_spec p o n meta) as Hc. destruct (compareEntries p o n meta) as [c|]; [|by split]. split; [done|]. intros cc [= <-].
    destruct Hc as (Ep & Eo & En & Eb & Ea & Hst & _). split_and!; [|by right|].
    + unfold content_status in Hst. rewrite !elem_of_cons, elem_of_nil in Hst. apply bool_decide_ext. unfold folds. split; [auto|]. intros [E|[E|E]]; [rewrite E in Hst..|done]; exfalso; clear -Hst; naive_solver.
    + unfold reported. rewrite Ep, Eo, En, Eb, Ea. by rewrite andb_false_r.
  - rewrite Hnew, Ha by done. destruct (listed_above (s_header new) (s_entries new) p); (split; [done|]); intros cc [= <-]; (split_and!; [done| |done]); [left; right; by left|right; unfold content_status; cbn; set_solver].
  - rewrite Hold, Hb by done. destruct (listed_above (s_header old) (s_entries old) p); (split; [done|]); intros cc [= <-]; (split_and!; [done| |done]); [left; by left|right; unfold content_status; cbn; set_solver].
Qed.

(** ** What handling a row does *)

Definition items (x : row) : list event := if sel x.1.1 then [Item x.1.1 x.1.2 x.2] else [].
Definition own_fold (x : row) (s : ascii) : option foldTop := if bool_decide (folds s) then Some (MkFold s x.1.1 true s) else None.

Inductive told (x : row) (m : merger) (up : option foldTop) : option foldTop -> merger -> Prop :=
| told_nothing fold st : (sel x.1.1 = true -> verdict x = None) -> covered x = false -> unselected up -> unselected fold ->
    told x m up fold (MkMerger (counts m) st (pending m) (events m ++ items x))
| told_below g s st : sel x.1.1 = true -> verdict x = Some s -> folds s -> up = Some g -> f_selected g = true ->
    told x m up (Some g) (below g (MkMerger (add s (counts m)) st (pending m) (events m ++ items x)))
| told_line c st : sel x.1.1 = true -> verdict x = Some (c_Status c) -> folds (c_Status c) \/ content_status (c_Status c) -> covered x = false -> unselected up ->
    reported c = MkReport (c_Status c) x 0 (bool_decide (c_Status c = StatusUnknown) && one_sided x) ->
    told x m up (own_fold x (c_Status c)) (emit c (bool_decide (folds (c_Status c))) (MkMerger (add (c_Status c) (counts m)) st (pending m) (events m ++ items x))).

Lemma push_emit f c b m : push f (emit c b m) = emit c b (push f m).
Proof. unfold emit, push, flush. destruct m as [k st [pd|] ev], b; done. Qed.
Lemma push_below f g m : push f (below g m) = below g (push f m).
Proof. unfold push, below. destruct m as [k st [pd|] ev]; cbn [pending counts stack events]; [|done]. by destruct (str_eqb _ _). Qed.
Lemma stack_emit c b m : stack (emit c b m) = stack m.
Proof. unfold emit, flush. destruct m as [k st [pd|] ev], b; done. Qed.
Lemma stack_below g m : stack (below g m) = stack m.
Proof. unfold below. destruct m as [k st [pd|] ev]; cbn [pending counts stack events]; [|done]. by destruct (str_eqb _ _). Qed.

Definition frame_of (x : row) (parent : mergeFrame) (fold : option foldTop) : mergeFrame :=
  let co := childFull (m_oldFull parent) (m_oldWhy parent) x.1.2 x.2 true in
  let cn := childFull (m_newFull parent) (m_newWhy parent) x.2 x.1.2 false in
  MkFrame x.1.1 co.1 cn.1 co.2 cn.2 fold.

Lemma frame_known (x : row) kept parent fold : x ∈ rows -> parent_ok x kept parent -> fold_known (covers x.1.1) fold -> frame_ok (frame_of x parent fold).
Proof.
  intros Hx [Hold Hnew _ _ _] Hf. destruct x as [[p o] n]. pose proof Hx as (-> & -> & _)%(jo_rows _ _ _ HJ). cbn [fst snd] in *. constructor; cbn [m_path m_oldFull m_newFull m_fold frame_of fst snd].
  - by eexists _, _.
  - by rewrite childFull_full, Hold, (listed_to_row _ _ _ _ (listing_ordered _ _ Hlo) eq_refl).
  - by rewrite childFull_full, Hnew, (listed_to_row _ _ _ _ (listing_ordered _ _ Hln) eq_refl).
  - done.
Qed.

(** The frame and the merge state a row leads to, under its parent's frame. *)
Definition leads (x : row) (m m' : merger) (rest : list mergeFrame) (parent : mergeFrame) : Prop :=
  exists fold, stack m' = frame_of x parent fold :: rest /\ fold_known (covers x.1.1) fold
    /\ (forall g, m_fold parent = Some g -> f_selected g = true -> fold = Some g) /\ told x m (m_fold parent) fold m'.

Lemma items_of (x : row) m st :
  (if sel x.1.1 then MkMerger (counts m) st (pending m) (events m ++ [Item x.1.1 x.1.2 x.2]) else MkMerger (counts m) st (pending m) (events m))
  = MkMerger (counts m) st (pending m) (events m ++ items x).
Proof. unfold items. destruct (sel x.1.1); [done|by rewrite app_nil_r]. Qed.

Lemma handle_folded (x : row) m rest kept parent g : x ∈ rows -> parent_ok x kept parent -> unwind x.1.1 (stack m) = parent :: rest -> m_fold parent = Some g ->
  leads x m (handle_row paths meta m x) (parent :: rest) parent.
Proof.
  intros Hx Hp Eu Eg. pose proof (pa_fold _ _ _ Hp) as Hf. rewrite Eg in Hf. pose proof Hf as (Hc & Hfs & (y & Hy & Ey & Ha & Hv & Hsel) & Huns).
  assert (Hvx : verdict x = Some (if bool_decide (f_status g = StatusType) then match x.1.2 with Some _ => StatusDeleted | None => StatusAdded end else f_child g)).
  { rewrite Hc. destruct x as [[p o] n]. apply (verdict_folded _ _ _ y); [done|done| |done|done]. by rewrite Ey. }
  unfold handle_row, handle. cbn [stack]. rewrite Eu. cbn beta iota. rewrite (surjective_pairing (childFull _ _ x.1.2 _ _)), (surjective_pairing (childFull _ _ x.2 _ _)), Eg.
  set (s := if bool_decide _ then _ else f_child g) in *.
  assert (Hs : folds s) by (subst s; rewrite Hc; case_bool_decide; [destruct x.1.2; [right; by left|by left]|done]).
  cbn [counts pending events]. rewrite items_of. destruct (sel x.1.1) eqn:Esel; [destruct (f_selected g) eqn:Eg'|].
  - exists (Some g). rewrite push_below, stack_below. split_and!; [done|by apply fold_kept; rewrite ?Eg', ?andb_false_r|congruence|]. rewrite Eg. unfold push, count. cbn [counts stack pending events]. by apply told_below.
  - assert (Hu : unselected (Some g)) by (by intros ? [= <-]). exists (own_fold x s). rewrite push_emit, stack_emit. unfold own_fold. rewrite bool_decide_eq_true_2 by done.
    split_and!; [done|by apply fold_new, Huns|congruence|]. rewrite Eg. unfold push, count. cbn [counts stack pending events]. pose proof (told_line x m (Some g)) as Ht. unfold own_fold in Ht.
    match goal with |- context [emit ?c true (MkMerger _ ?st _ _)] => specialize (Ht c st) end. cbn [c_Status] in Ht. rewrite (bool_decide_eq_true_2 (folds s)) in Ht by done.
    apply Ht; [done|done|by left|by apply (unselected_uncovered x (Some g))|done|]. unfold reported. cbn. destruct Hs as [E|[E|E]]; rewrite E; by destruct x as [[? ?] ?].
  - assert (Hgs : f_selected g = false). { destruct (f_selected g) eqn:Eg'; [|done]. destruct (Hsel eq_refl) as [Hsy _]. rewrite <- Ey in *. rewrite (sel_under x.1.1 y.1.1) in Esel; [done|by apply row_path|done|done]. }
    exists (Some g). split_and!; [done|by apply fold_kept; [..|by rewrite Esel]|congruence|]. rewrite Eg. assert (Hu : unselected (Some g)) by (by intros ? [= <-]).
    unfold push. cbn [counts stack pending events]. apply told_nothing; [congruence|by apply (unselected_uncovered x (Some g))|done|done].
Qed.

Lemma handle_open (x : row) m rest kept parent : x ∈ rows -> parent_ok x kept parent -> unwind x.1.1 (stack m) = parent :: rest -> m_fold parent = None ->
  leads x m (handle_row paths meta m x) (parent :: rest) parent.
Proof.
  intros Hx Hp Eu En. pose proof (pa_fold _ _ _ Hp) as Hf. rewrite En in Hf. pose proof (line_of_spec x kept parent Hx Hp En) as Hl.
  assert (Hno : forall y, y ∈ rows -> above x.1.1 y.1.1 -> sel y.1.1 = true -> folding y = false) by auto.
  assert (Hnone : unselected None) by done. pose proof (unselected_uncovered x None Hf Hnone) as Hcov.
  unfold handle_row, handle. cbn [stack]. rewrite Eu. cbn beta iota. rewrite (surjective_pairing (childFull _ _ x.1.2 _ _)), (surjective_pairing (childFull _ _ x.2 _ _)), En.
  cbn [counts pending events]. rewrite items_of. destruct (line_of meta x.1.1 x.1.2 x.2 parent) as [[c|] fold]; destruct Hl as [Hv Hc]; cbn [fmap option_fmap option_map] in Hv.
  - destruct (Hc c eq_refl) as (-> & Hst & Hr). set (s := c_Status c) in *. destruct (sel x.1.1) eqn:Esel.
    + exists (own_fold x s). rewrite stack_emit. unfold own_fold. split_and!; [by case_bool_decide| |congruence|].
      * destruct (bool_decide_reflect (folds s)) as [Hfs|Hfs]; [by apply fold_new|]. apply fold_none; [done| |done]. rewrite (folding_spec x s Hv). by rewrite bool_decide_eq_false_2.
      * rewrite En. unfold push, count. cbn [counts stack pending events]. by apply told_line.
    + exists (if bool_decide (folds s) then Some (MkFold s x.1.1 false s) else None). split_and!; [by case_bool_decide| |congruence|].
      * destruct (bool_decide_reflect (folds s)) as [Hfs|Hfs]; [by apply fold_new|]. apply fold_none; [done| |done]. rewrite (folding_spec x s Hv). by rewrite bool_decide_eq_false_2.
      * rewrite En. unfold push. cbn [counts stack pending events]. apply told_nothing; [congruence|done|done|]. intros g. destruct (bool_decide (folds s)); [by intros [= <-]|done].
  - exists None. split_and!; [done| |congruence|].
    + apply fold_none; [done|by unfold DiffExact.folding; rewrite Hv|done].
    + rewrite En. unfold push. cbn [counts stack pending events]. by apply told_nothing.
Qed.

(** ** The stack is kept *)

(** A selected fold on the stack is the line still open. *)
Definition open_ok (frames : list mergeFrame) (pend : option change) : Prop :=
  forall f g, f ∈ frames -> m_fold f = Some g -> f_selected g = true -> exists c, pend = Some c /\ c_Path c = f_path g.

Lemma told_open (x : row) m kept parent fold m' frame : parent_ok x kept parent -> told x m (m_fold parent) fold m' -> m_fold frame = fold ->
  open_ok kept (pending m) -> open_ok (frame :: kept) (pending m').
Proof.
  intros Hp Ht Ef Ho f g Hf Eg Hg. apply elem_of_cons in Hf as [->|Hf].
  - rewrite Ef in Eg. destruct Ht as [fold st Hv Hc Hu Hun|g' s st Hs Hv Hfs Eup Hg'|c st Hs Hv Hst Hc Hu Hr].
    + by rewrite (Hun g Eg) in Hg.
    + injection Eg as ->. destruct (Ho parent g) as (c & Ec & Ep); [by eapply pa_in|done|done|]. unfold below. cbn [pending]. rewrite Ec. rewrite Ep, str_eqb_refl. by eexists.
    + unfold own_fold in Eg. case_bool_decide; [|done]. injection Eg as <-. exists c. split; [done|]. unfold reported in Hr. by destruct x as [[? ?] ?]; injection Hr as ? ? ?.
  - pose proof (pa_same _ _ _ Hp f g Hf Eg Hg) as Hsame. destruct (Ho f g Hf Eg Hg) as (c & Ec & Ep). destruct Ht as [fold st Hv Hc Hu Hun|g' s st Hs Hv Hfs Eup Hg'|c' st Hs Hv Hst Hc Hu Hr].
    + by exists c.
    + rewrite Hsame in Eup. injection Eup as <-. unfold below. cbn [pending]. rewrite Ec. rewrite Ep, str_eqb_refl. by eexists.
    + by rewrite (Hu g Hsame) in Hg.
Qed.

Lemma stacked_step pre (x : row) post frames kept parent fold : rows = pre ++ x :: post -> stacked pre frames -> StronglySorted beneath kept ->
  (forall f, f ∈ kept <-> f ∈ frames /\ IsUnder x.1.1 (m_path f) = true) -> parent_ok x kept parent -> fold_known (covers x.1.1) fold ->
  (forall g, m_fold parent = Some g -> f_selected g = true -> fold = Some g) -> (forall y, y ∈ rows -> IsUnder x.1.1 y.1.1 = true -> exists f, f ∈ kept /\ m_path f = y.1.1) ->
  stacked (pre ++ [x]) (frame_of x parent fold :: kept).
Proof.
  intros E [Hok Hss Hrow _] Hs Hk Hp Hf Hsame Hall. assert (Hx : x ∈ rows) by (rewrite E; apply elem_of_app; right; by left). constructor.
  - constructor; [by eapply frame_known|]. apply Forall_forall. intros f [Hin _]%Hk. by eapply Forall_forall in Hok.
  - constructor; [done|]. apply Forall_forall. intros f Hin. pose proof (proj1 (Hk f) Hin) as [_ Hu]. split; [done|]. intros g Eg Hg. apply Hsame; [|done]. by eapply pa_same.
  - intros f [->|Hin]%elem_of_cons; [exists x; split; [apply elem_of_app; right; by left|done]|]. apply Hk in Hin as [Hin _]. destruct (Hrow f Hin) as (y & Hy & Ey). exists y. split; [by apply elem_of_app; left|done].
  - intros y l Hy El Hc. rewrite last_snoc in El. injection El as <-. destruct Hc as [Ec|Hc]; [exists (frame_of x parent fold); split; [by left|done]|].
    destruct (Hall y) as (f & Hin & Ef); [|done|exists f; split; [by right|done]]. rewrite E. apply elem_of_app in Hy as [Hy|Hy%list_elem_of_singleton]; apply elem_of_app; [by left|right; subst; by left].
Qed.

(** ** The lines are kept *)

Record told_so_far (pre : list row) (m : merger) : Prop := MkSoFar {
  sf_items : omap item_of (events m) = filter (fun x => sel x.1.1 = true) pre;
  sf_lines : reported <$> lines m = omap (report_of pre) pre;
  sf_counts : counts m = foldl tally noCounts pre;
  sf_total : total (counts m) = foldr (fun c t => 1 + c_Below c + t) 0 (lines m)
}.

Definition bump (r : report) : report := MkReport (l_status r) (l_row r) (l_below r + 1) (l_absent r).

Lemma rows_under_snoc pre (x y : row) : rows_under (pre ++ [x]) y = rows_under pre y + (if IsUnder x.1.1 y.1.1 then 1 else 0).
Proof. unfold rows_under. rewrite filter_app, length_app. destruct (IsUnder x.1.1 y.1.1) eqn:E; [rewrite filter_cons_True by done|rewrite filter_cons_False by (by rewrite E)]; by rewrite filter_nil, Nat2Z.inj_add. Qed.

(** One more row is one more below each line that folds above it. *)
Lemma report_snoc pre x y : report_of (pre ++ [x]) y = if folding y && IsUnder x.1.1 y.1.1 then bump <$> report_of pre y else report_of pre y.
Proof.
  unfold DiffExact.report_of, DiffExact.folding. destruct (sel y.1.1 && negb (covered y)); [|by destruct (_ && _)].
  destruct (verdict y) as [s|]; [|done]. cbn [fmap option_fmap option_map]. unfold line_for. rewrite rows_under_snoc. destruct (bool_decide (folds s)); cbn [andb]; [|done].
  destruct (IsUnder x.1.1 y.1.1); cbn; unfold bump; cbn; [done|]. by rewrite Z.add_0_r.
Qed.

Lemma omap_same {A B} (f g : A -> option B) (l : list A) : (forall a, a ∈ l -> f a = g a) -> omap f l = omap g l.
Proof. induction l as [|a l IH]; intros Hall; [done|]. cbn. rewrite (Hall a) by left. rewrite IH by (intros b Hb; apply Hall; by right). done. Qed.

Lemma row_not_above pre (x : row) post y : rows = pre ++ x :: post -> y ∈ pre -> IsUnder y.1.1 x.1.1 = false.
Proof.
  intros E Hy. destruct (IsUnder y.1.1 x.1.1) eqn:Eu; [|done]. exfalso. pose proof (pre_lt _ _ _ _ E Hy) as Hlt. apply under_lt in Eu; [|apply row_path; rewrite E; apply elem_of_app; right; by left].
  unfold row_lt in Hlt. by apply lt_asym in Hlt.
Qed.

Lemma rows_under_none pre (x : row) post : rows = pre ++ x :: post -> rows_under (pre ++ [x]) x = 0.
Proof.
  intros E. unfold rows_under. assert (Hx : IsUnder x.1.1 x.1.1 = false).
  { destruct (IsUnder x.1.1 x.1.1) eqn:Eu; [|done]. apply under_lt in Eu; [by apply lt_not_eq in Eu|]. apply row_path. rewrite E. apply elem_of_app. right. by left. }
  assert (Hall : forall l, (forall y, y ∈ l -> IsUnder y.1.1 x.1.1 = false) -> filter (fun y : row => IsUnder y.1.1 x.1.1 = true) l = []).
  { induction l as [|y l IH]; intros Hl; [done|]. rewrite filter_cons_False by (rewrite (Hl y); [done|by left]). apply IH. intros z Hz. apply Hl. by right. }
  rewrite Hall; [done|]. intros y [Hy|Hy%list_elem_of_singleton]%elem_of_app; [by apply (row_not_above pre x post)|by subst].
Qed.

(** A row under no fold leaves the lines before it alone. *)
Lemma reports_same pre (x : row) post : rows = pre ++ x :: post -> covered x = false -> omap (report_of (pre ++ [x])) pre = omap (report_of pre) pre.
Proof.
  intros E Hc. apply omap_same. intros y Hy. rewrite report_snoc. destruct (folding y && IsUnder x.1.1 y.1.1) eqn:Eb; [|done]. apply andb_prop in Eb as [Hf Hu].
  assert (Hyr : y ∈ rows) by (rewrite E; apply elem_of_app; by left). unfold DiffExact.report_of. destruct (sel y.1.1) eqn:Es; [|done].
  rewrite (proj1 (covered_false x) Hc y Hyr Hu Es) in Hf. done.
Qed.

(** A row under a fold is one more below the topmost. *)
Lemma reports_bump pre (x : row) post top : rows = pre ++ x :: post -> top ∈ rows -> IsUnder x.1.1 top.1.1 = true -> sel top.1.1 = true -> folding top = true -> covered top = false ->
  omap (report_of (pre ++ [x])) pre = (fun r => if str_eqb (l_row r).1.1 top.1.1 then bump r else r) <$> omap (report_of pre) pre.
Proof.
  intros E Ht Hu Hst Hft Hct. rewrite list_fmap_omap. apply omap_same. intros y Hy. rewrite report_snoc. assert (Hyr : y ∈ rows) by (rewrite E; apply elem_of_app; by left).
  destruct (report_of pre y) as [r|] eqn:Er; [|by destruct (_ && _)]. unfold DiffExact.report_of in Er. destruct (sel y.1.1 && negb (covered y)) eqn:Eb; [|done]. apply andb_prop in Eb as [Es Hc%negb_true_iff].
  assert (Elr : l_row r = y) by (destruct (verdict y); [by injection Er as <-|done]). cbn [fmap option_fmap option_map]. rewrite Elr. destruct (str_eqb y.1.1 top.1.1) eqn:Ey.
  - apply str_eqb_eq in Ey. rewrite (row_eq y top Hyr Ht Ey), Hft, Hu. done.
  - destruct (folding y && IsUnder x.1.1 y.1.1) eqn:Ef; [|done]. apply andb_prop in Ef as [Hf Huy]. exfalso.
    destruct (above_comparable x.1.1 y.1.1 top.1.1 (row_path _ Hyr) (row_path _ Ht) Huy Hu) as [Eq|[Hyt|Hty]].
    + by rewrite Eq, str_eqb_refl in Ey.
    + by rewrite (proj1 (covered_false y) Hc top Ht Hyt Hst) in Hft.
    + by rewrite (proj1 (covered_false top) Hct y Hyr Hty Es) in Hf.
Qed.

Lemma lines_items (x : row) m : omap line_event (events m ++ items x) = omap line_event (events m).
Proof. rewrite omap_app. unfold items. destruct (sel x.1.1); cbn; by rewrite app_nil_r. Qed.

Lemma items_filter (x : row) : omap item_of (items x) = filter (fun x => sel x.1.1 = true) [x].
Proof. unfold items. destruct (sel x.1.1) eqn:E; [rewrite filter_cons_True by done|rewrite filter_cons_False by (by rewrite E)]; [|done]. by destruct x as [[? ?] ?]. Qed.

Lemma lines_emit c b m : lines (emit c b m) = lines m ++ [c].
Proof.
  unfold lines, emit, flush. destruct m as [k st [pd|] ev], b; cbn [pending events counts stack option_list]; rewrite ?omap_app, ?app_nil_r, <- ?app_assoc; done.
Qed.
Lemma items_emit c b m : omap item_of (events (emit c b m)) = omap item_of (events m).
Proof. unfold emit, flush. destruct m as [k st [pd|] ev], b; cbn [pending events counts stack]; rewrite ?omap_app; cbn; by rewrite ?app_nil_r. Qed.
Lemma counts_emit c b m : counts (emit c b m) = counts m.
Proof. unfold emit, flush. by destruct m as [k st [pd|] ev], b. Qed.

Lemma paths_nodup pre post : rows = pre ++ post -> NoDup ((fun r => (l_row r).1.1) <$> omap (report_of pre) pre).
Proof.
  intros E. pose proof (jo_order _ _ _ HJ) as Ho. rewrite E in Ho. apply StronglySorted_app_1_l in Ho. generalize pre at 1. clear E.
  induction Ho as [|y l Hl IH Hy]; intros q; [constructor|]. cbn. destruct (report_of q y) as [r|] eqn:Er; [|by apply IH]. cbn. constructor; [|by apply IH].
  assert (Hrow : forall z r, report_of q z = Some r -> l_row r = z).
  { intros z r' Hz. unfold DiffExact.report_of in Hz. destruct (_ && _); [|done]. destruct (verdict z); [by injection Hz as <-|done]. }
  rewrite (Hrow y r Er). intros (r' & Eq & Hin)%list_elem_of_fmap. apply list_elem_of_omap in Hin as (z & Hz & Ez). rewrite (Hrow z r' Ez) in Eq.
  rewrite Forall_forall in Hy. specialize (Hy z Hz). unfold row_lt in Hy. rewrite Eq in Hy. by apply lt_not_eq in Hy.
Qed.

Lemma bump_last (l : list change) c : NoDup (c_Path <$> (l ++ [c])) ->
  (fun r => if str_eqb (l_row r).1.1 (c_Path c) then bump r else r) <$> (reported <$> (l ++ [c])) = (reported <$> l) ++ [bump (reported c)].
Proof.
  rewrite !fmap_app. cbn [fmap list_fmap reported l_row fst]. rewrite str_eqb_refl. intros Hnd. f_equal. rewrite NoDup_app in Hnd. destruct Hnd as (_ & Hno & _).
  assert (Hall : forall a, a ∈ l -> str_eqb (c_Path a) (c_Path c) = false).
  { intros a Ha. destruct (str_eqb (c_Path a) (c_Path c)) eqn:E; [|done]. apply str_eqb_eq in E. destruct (Hno (c_Path a)); [by apply list_elem_of_fmap_2|by rewrite E; left]. }
  clear Hno. induction l as [|a l IH]; [done|]. cbn. rewrite (Hall a) by left. f_equal. apply IH. intros b Hb. apply Hall. by right.
Qed.

Lemma total_bump l c k : foldr (fun c t => 1 + c_Below c + t) k (l ++ [MkChange (c_Status c) (c_Path c) (c_Old c) (c_New c) (c_Note c) (c_Below c + 1) (c_Absent c)])
  = foldr (fun c t => 1 + c_Below c + t) k (l ++ [c]) + 1.
Proof. rewrite !foldr_app. cbn. induction l as [|a l IH]; cbn; lia. Qed.
Lemma total_snoc l c : foldr (fun c t => 1 + c_Below c + t) 0 (l ++ [c]) = foldr (fun c t => 1 + c_Below c + t) 0 l + (1 + c_Below c).
Proof. rewrite foldr_app. cbn. induction l as [|a l IH]; cbn in *; lia. Qed.

Lemma told_lines pre (x : row) post m up fold m' : rows = pre ++ x :: post -> told_so_far pre m -> fold_known (above x.1.1) up ->
  (forall g, up = Some g -> f_selected g = true -> exists c, pending m = Some c /\ c_Path c = f_path g) -> told x m up fold m' -> told_so_far (pre ++ [x]) m'.
Proof.
  intros E [Hi Hl Hc Ht] Hup Hopen Htold. assert (Hitems : omap item_of (events m ++ items x) = filter (fun x => sel x.1.1 = true) (pre ++ [x])) by (by rewrite omap_app, Hi, items_filter, filter_app).
  destruct Htold as [fold st Hv Hcov Hu Hun|g s st Hs Hv Hfs -> Hg|c st Hs Hv Hst Hcov Hu Hr].
  - constructor; cbn [events counts]; [done|..].
    + unfold lines in *. cbn [events pending]. rewrite lines_items, Hl, omap_app, (reports_same _ _ _ E Hcov). cbn. unfold DiffExact.report_of at 3.
      rewrite Hcov. destruct (sel x.1.1); [rewrite (Hv eq_refl)|]; cbn; by rewrite app_nil_r.
    + rewrite foldl_app, <- Hc. cbn. unfold DiffExact.tally. destruct (sel x.1.1); [by rewrite (Hv eq_refl)|done].
    + unfold lines in *. cbn [events pending]. by rewrite lines_items.
  - destruct Hup as (_ & Hfg & (y & Hy & Ey & Ha & Hvy & Hsel) & _). destruct (Hsel Hg) as [Hsy Hcy]. destruct (Hopen g eq_refl Hg) as (c & Ep & Ec).
    unfold below. cbn [pending]. rewrite Ep, Ec, str_eqb_refl. cbn [counts stack events]. rewrite <- Ey in *. pose proof (folding_spec _ _ Hvy) as Hfy.
    rewrite (bool_decide_eq_true_2 _ Hfg) in Hfy. assert (Hlines : lines m = omap line_event (events m) ++ [c]) by (unfold lines; by rewrite Ep).
    assert (Hcx : covered x = true) by (apply covered_true; by exists y).
    constructor; cbn [events counts]; [done|..].
    + unfold lines. cbn [events pending option_list]. rewrite lines_items, omap_app, (reports_bump _ _ _ y E Hy Ha Hsy Hfy Hcy), <- Hl, Hlines, <- Ec, bump_last.
      * cbn. unfold DiffExact.report_of. rewrite Hcx, andb_false_r. by rewrite fmap_app, app_nil_r.
      * rewrite <- Hlines. pose proof (paths_nodup pre (x :: post) E) as Hnd. rewrite <- Hl, <- list_fmap_compose in Hnd. exact Hnd.
    + rewrite foldl_app, <- Hc. cbn. unfold DiffExact.tally. by rewrite Hs, Hv.
    + rewrite add_total by (by left). unfold lines at 1. cbn [events pending]. rewrite lines_items, <- Ec. transitivity (foldr (fun c t => 1 + c_Below c + t) 0 (lines m) + 1); [lia|].
      rewrite Hlines. symmetry. exact (total_bump (omap line_event (events m)) c 0).
  - constructor; [by rewrite items_emit|..].
    + rewrite lines_emit. unfold lines in *. cbn [events pending]. rewrite lines_items, fmap_app, Hl, omap_app, (reports_same _ _ _ E Hcov). cbn. unfold DiffExact.report_of at 3. rewrite Hs, Hcov, Hv. cbn.
      unfold line_for. rewrite (rows_under_none _ _ _ E), Hr. by destruct (bool_decide (folds _)).
    + rewrite counts_emit, foldl_app, <- Hc. cbn. unfold DiffExact.tally. by rewrite Hs, Hv.
    + rewrite counts_emit, lines_emit. unfold lines in *. cbn [events pending counts]. rewrite lines_items, total_snoc, add_total, Ht by done. assert (c_Below c = 0) by (unfold reported in Hr; by injection Hr). lia.
Qed.

(** ** All the rows *)

Record good (pre : list row) (m : merger) : Prop := MkGood {
  go_stack : exists frames, stack m = frames ++ [root_frame] /\ stacked pre frames /\ open_ok frames (pending m);
  go_told : told_so_far pre m
}.

Lemma handle_leads (x : row) m rest kept parent : x ∈ rows -> parent_ok x kept parent -> unwind x.1.1 (stack m) = parent :: rest ->
  leads x m (handle_row paths meta m x) (parent :: rest) parent.
Proof. intros Hx Hp Eu. destruct (m_fold parent) as [g|] eqn:E; [by eapply handle_folded|by eapply handle_open]. Qed.

Lemma good_step pre x post m : rows = pre ++ x :: post -> good pre m -> good (pre ++ [x]) (handle_row paths meta m x).
Proof.
  intros E [(frames & Es & Hst & Ho) Htold]. assert (Hx : x ∈ rows) by (rewrite E; apply elem_of_app; right; by left).
  destruct (parent_known _ _ _ _ E Hst) as (kept & Eu & Hs & Hk & Hall & Hp). rewrite <- Es in Eu. set (parent := default root_frame (head kept)) in *.
  assert (Hpar : exists rest, kept ++ [root_frame] = parent :: rest) by (subst parent; destruct kept; by eexists). destruct Hpar as [rest Er]. rewrite Er in Eu.
  destruct (handle_leads x m rest kept parent Hx Hp Eu) as (fold & Est & Hf & Hsame & Ht).
  assert (Hok : open_ok kept (pending m)) by (intros f g [Hin _]%Hk; by apply Ho). constructor.
  - exists (frame_of x parent fold :: kept). cbn [app]. split_and!; [by rewrite Est, Er|by eapply stacked_step|by eapply told_open].
  - eapply told_lines; [done|done|apply (pa_fold _ _ _ Hp)| |exact Ht]. intros g Eg Hg. apply (Hok parent g); [by eapply pa_in|done|done].
Qed.

Lemma good_all post : forall pre m, rows = pre ++ post -> good pre m -> good rows (foldl (handle_row paths meta) m post).
Proof.
  induction post as [|x post IH]; intros pre m E Hg; cbn [foldl]; [by rewrite app_nil_r in E; subst|].
  apply (IH (pre ++ [x])); [by rewrite <- app_assoc|by apply (good_step _ _ post)].
Qed.

Lemma new_merger_stack : new_merger old new = MkMerger noCounts [root_frame] None [].
Proof. unfold new_merger, root_frame. by destruct (rootFull (s_header old)), (rootFull (s_header new)). Qed.

Lemma good_start : good [] (new_merger old new).
Proof.
  rewrite new_merger_stack. constructor; [|by constructor]. exists []. split_and!; [done| |by intros ? ? ?%elem_of_nil].
  constructor; [constructor|constructor|by intros ? ?%elem_of_nil|by intros ? ? ?%elem_of_nil].
Qed.

End Exact.

Lemma lines_flush m : lines (flush m) = lines m /\ omap item_of (events (flush m)) = omap item_of (events m) /\ counts (flush m) = counts m /\ pending (flush m) = None.
Proof. unfold lines, flush. destruct m as [k st [pd|] ev]; cbn; [|by rewrite ?app_nil_r]. by rewrite !omap_app, !app_nil_r. Qed.

(** C40: The merge of two valid manifests reports exactly what their listings
    say. With the rows the paths of either side, each once and in order, with
    what each side has there: it ends, without an error; the items it yields
    are the selected rows; its lines are, in order, the selected rows with a
    verdict that no selected row above them folds in, each with its verdict
    (both sides: how the entries differ; one side: added or deleted when all
    that could hold the name was listed on the other side, unknown and marked
    so when it was not) and, when it is one that folds, the number of rows
    under it; the counts are those of the verdicts of all selected rows; and
    they are what the lines stand for, each line for itself and those below. *)
Theorem diff_is_exact `{NanoTime} paths meta old new maxo maxn :
  listing maxo (s_entries old) -> listing maxn (s_entries new) -> s_end old = None -> s_end new = None ->
  exists m rows, mergeReaders paths meta old new = Some (m, None) /\ joins (s_entries old) (s_entries new) rows
    /\ omap item_of (events m) = filter (fun x => selected paths x.1.1 = true) rows
    /\ reported <$> omap line_event (events m) = omap (report_of paths meta old new rows rows) rows
    /\ counts m = foldl (tally paths meta old new) noCounts rows
    /\ total (counts m) = foldr (fun c t => 1 + c_Below c + t) 0 (omap line_event (events m)).
Proof.
  intros Hlo Hln Eo En. pose proof (listing_ordered _ _ Hlo) as Oo. pose proof (listing_ordered _ _ Hln) as On.
  set (fuel := S (length (s_entries old) + length (s_entries new))). set (rows := outer_join fuel (s_entries old) (s_entries new)).
  assert (HJ : joins (s_entries old) (s_entries new) rows) by (apply outer_join_joins; [done|done|subst fuel; lia]).
  assert (Hfirst : forall es, next es None None = Ok (head es, tail es)) by (by intros []).
  exists (flush (foldl (handle_row paths meta) (new_merger old new) rows)), rows. unfold mergeReaders. rewrite Eo, En, !Hfirst, loop_handles by (done || lia).
  split; [done|]. split; [done|]. fold fuel rows.
  destruct (good_all paths meta old new maxo maxn Hlo Hln rows HJ rows [] (new_merger old new) eq_refl (good_start paths meta old new rows)) as [_ [Hi Hl Hc Ht]].
  set (m := foldl _ _ _) in *. destruct (lines_flush m) as (El & Ei & Ec & Ep). unfold lines at 1 in El. rewrite Ep, app_nil_r in El. by rewrite El, Ei, Ec.
Qed.

End DiffExact.
