(* ===== verification/Effects.v ===== *)
(** Programs that ask the world: a handler whose steps outside its own variables
    (calls of the hub, of the file system, of the broker's shared state) are
    questions with an answer each. A run of one is its history of questions and
    answers, whatever the answers, so other requests may act between any two of
    them; a monitor over histories says which questions may be asked when. *)

From S2P Require Import Prelude.

Module Effects.

Section Programs.
Context {action : Type} {answer : action -> Type}.

Inductive prog (A : Type) : Type :=
| Ret (a : A)
| Ask (q : action) (k : answer q -> prog A).
Arguments Ret {A} a.
Arguments Ask {A} q k.

Definition ask (q : action) : prog (answer q) := Ask q Ret.

Fixpoint bind {A B} (p : prog A) (f : A -> prog B) : prog B :=
  match p with
  | Ret a => f a
  | Ask q k => Ask q (fun r => bind (k r) f)
  end.

(** A question with the answer it got. *)
Record event := Ev { e_asked : action; e_answer : answer e_asked }.

Inductive runs {A} : prog A -> list event -> A -> Prop :=
| runs_ret a : runs (Ret a) [] a
| runs_ask q k r tr a : runs (k r) tr a -> runs (Ask q k) (Ev q r :: tr) a.

(** Running a program against a world that may remember what it was asked. *)
Fixpoint exec {A} (world : list event -> forall q, answer q) (h : list event) (p : prog A) : list event * A :=
  match p with
  | Ret a => ([], a)
  | Ask q k => let r := world h q in let '(tr, a) := exec world (h ++ [Ev q r]) (k r) in (Ev q r :: tr, a)
  end.

Lemma exec_runs {A} world (p : prog A) : forall h, runs p (exec world h p).1 (exec world h p).2.
Proof.
  induction p as [a|q k IH]; intros h; cbn [exec]; [constructor|]. specialize (IH (world h q) (h ++ [Ev q (world h q)])).
  destruct (exec world (h ++ [Ev q (world h q)]) (k (world h q))) as [tr a]. by constructor.
Qed.

(** Every answer of such a run is the world's. *)
Lemma exec_answers {A} world (p : prog A) : forall h e, e ∈ (exec world h p).1 -> exists h', e_answer e = world h' (e_asked e).
Proof.
  induction p as [a|q k IH]; intros h e; cbn [exec]; [by intros ?%elem_of_nil|]. specialize (IH (world h q) (h ++ [Ev q (world h q)]) e).
  destruct (exec world (h ++ [Ev q (world h q)]) (k (world h q))) as [tr a]. cbn [fst]. intros [->|He]%elem_of_cons; [by exists h|by apply IH].
Qed.

(** ** Monitors *)

Section Monitor.
Context {G : Type} (step : G -> event -> G) (ok : G -> action -> Prop).

(** From the state [g] of the monitor on, every question is allowed when it is
    asked, and the program ends as [Q] says. *)
Fixpoint safe {A} (p : prog A) (g : G) (Q : G -> A -> Prop) : Prop :=
  match p with
  | Ret a => Q g a
  | Ask q k => ok g q /\ forall r, safe (k r) (step g (Ev q r)) Q
  end.

Lemma safe_mono {A} (p : prog A) : forall g (Q Q' : G -> A -> Prop), safe p g Q -> (forall g a, Q g a -> Q' g a) -> safe p g Q'.
Proof. induction p as [a|q k IH]; intros g Q Q'; cbn [safe]; [auto|]. intros [Hok Hr] HQ. split; [done|]. intros r. by eapply IH. Qed.

Lemma safe_bind {A B} (p : prog A) (f : A -> prog B) : forall g (Q : G -> B -> Prop), safe p g (fun g a => safe (f a) g Q) -> safe (bind p f) g Q.
Proof. induction p as [a|q k IH]; intros g Q; cbn [safe bind]; [done|]. intros [Hok Hr]. split; [done|]. intros r. by apply IH. Qed.

Lemma safe_ask q g (Q : G -> answer q -> Prop) : ok g q -> (forall r, Q (step g (Ev q r)) r) -> safe (ask q) g Q.
Proof. intros. by split. Qed.

(** What is safe does right in every run of it. *)
Lemma safe_runs {A} (p : prog A) tr a : runs p tr a -> forall g Q, safe p g Q ->
  Q (foldl step g tr) a /\ forall pre e post, tr = pre ++ e :: post -> ok (foldl step g pre) (e_asked e).
Proof.
  induction 1 as [a|q k r tr a _ IH]; intros g Q; cbn [safe foldl].
  - intros HQ. split; [done|]. intros [|e0 pre] e post; done.
  - intros [Hok Hr]. destruct (IH _ _ (Hr r)) as [HQ Hall]. split; [done|]. intros [|e0 pre] e post E; cbn in E.
    + by injection E as <- _.
    + injection E as <- E. cbn [foldl]. by eapply Hall.
Qed.

End Monitor.

End Programs.

Arguments prog {action} answer A.
Arguments Ret {action answer A} a.
Arguments Ask {action answer A} q k.
Arguments event {action} answer.
Arguments Ev {action answer} e_asked e_answer.

End Effects.

Declare Scope prog_scope.
Delimit Scope prog_scope with prog.
Notation "'let*' x := p 'in' f" := (Effects.bind p (fun x => f)) (at level 10, x name, p at level 100, f at level 200) : prog_scope.
Notation "'let*' ' x := p 'in' f" := (Effects.bind p (fun r => match r with x => f end)) (at level 10, x strict pattern, p at level 100, f at level 200) : prog_scope.
Notation "'do*' p ; f" := (Effects.bind p (fun _ => f)) (at level 10, p at level 100, f at level 200) : prog_scope.
(** An early return: an [Err] is the answer, an [Ok] goes on. *)
Notation "'let?' x := p 'in' f" := (Effects.bind p (fun r => match r with Ok x => f | Err e => Effects.Ret e end)) (at level 10, x name, p at level 100, f at level 200) : prog_scope.
Notation "'do?' p ; f" := (Effects.bind p (fun r => match r with Ok _ => f | Err e => Effects.Ret e end)) (at level 10, p at level 100, f at level 200) : prog_scope.
