(* ===== verification/GoPath.v ===== *)
(** Strings and slash paths as the worker and workspace code uses them of Go's
    packages [strings] and [path/filepath], on a system whose separator is the
    slash. *)

From S2P Require Import Prelude Go TreePath.

Module GoPath.
Import TreePath.

(** * Strings *)

(** [strings.Contains]. *)
Fixpoint Contains (s sub : string) : bool :=
  HasPrefix s sub || match s with EmptyString => false | String _ s => Contains s sub end.

(** [strings.ContainsAny] of a set of bytes. *)
Definition ContainsAny (s : string) (cs : list ascii) : bool := existsb (fun c => has_byte c s) cs.

(** [strings.Lines], each line with its newline. *)
Fixpoint Lines_acc (acc s : string) : list string :=
  match s with
  | EmptyString => if is_empty acc then [] else [acc]
  | String c s => if bool_decide (c = "010"%char) then (acc +:+ String c "") :: Lines_acc "" s else Lines_acc (acc +:+ String c "") s
  end.
Definition Lines (s : string) : list string := Lines_acc "" s.

(** [strings.TrimLeft] of one byte. *)
Fixpoint TrimLeft (s : string) (c : ascii) : string :=
  match s with String d s' => if bool_decide (d = c) then TrimLeft s' c else s | EmptyString => "" end.

Definition join_slash (cs : list string) : string :=
  match cs with [] => "" | c :: cs => foldl (fun acc s => acc +:+ "/" +:+ s) c cs end.

(** * Paths *)

Definition IsAbs (p : string) : bool := HasPrefix p "/".

(** One component of a path being cleaned; the ones before it are kept the last
    first. *)
Definition clean_step (rooted : bool) (acc : list string) (c : string) : list string :=
  if is_empty c || str_eqb c "." then acc
  else if str_eqb c ".." then
    match acc with
    | top :: rest => if str_eqb top ".." then c :: acc else rest
    | [] => if rooted then [] else [c]
    end
  else c :: acc.
Definition clean_components (p : string) : list string := rev (foldl (clean_step (IsAbs p)) [] (components p)).

(** [filepath.Clean]. *)
Definition Clean (p : string) : string :=
  let s := join_slash (clean_components p) in
  if IsAbs p then "/" +:+ s else if is_empty s then "." else s.

(** [filepath.Join] of two elements. *)
Definition Join (a b : string) : string :=
  if is_empty a then if is_empty b then "" else Clean b
  else if is_empty b then Clean a else Clean (a +:+ "/" +:+ b).

(** [filepath.Dir] and [filepath.Base]. *)
Definition Dir (p : string) : string := match cut_last p with Some (d, _) => Clean (if is_empty d then "/" else d) | None => "." end.
Fixpoint trim_slashes (fuel : nat) (p : string) : string :=
  match fuel with
  | O => p
  | S fuel => match cut_last p with Some (d, b) => if is_empty b then trim_slashes fuel d else p | None => p end
  end.
Definition Base (p : string) : string :=
  if is_empty p then "."
  else let b := BaseName (trim_slashes (String.length p) p) in if is_empty b then "/" else b.

(** [filepath.Rel] of two absolute paths: what is left of both after their common components. *)
Fixpoint strip_common (a b : list string) : list string * list string :=
  match a, b with
  | x :: a', y :: b' => if str_eqb x y then strip_common a' b' else (a, b)
  | _, _ => (a, b)
  end.
Definition Rel (base targ : string) : result string string :=
  if negb (Bool.eqb (IsAbs base) (IsAbs targ)) then Err "can't make it relative"
  else
    let '(b, t) := strip_common (clean_components base) (clean_components targ) in
    if existsb (fun c => str_eqb c "..") (take 1 b) then Err "can't make it relative"
    else let s := join_slash (((fun _ => "..") <$> b) ++ t) in Ok (if is_empty s then "." else s).

(** [filepath.IsLocal]. *)
Definition IsLocal (p : string) : bool :=
  if is_empty p || IsAbs p then false
  else
    let p := if existsb (fun c => str_eqb c "." || str_eqb c "..") (components p) then Clean p else p in
    negb (str_eqb p ".." || HasPrefix p "../").

(** * The helpers of [internal/fsutil] *)

Definition relComponents (p : string) : list string :=
  let c := Clean p in if str_eqb c "." || is_empty c then [] else components c.

Section Fold.
Context `{Unicode}.

Definition RelOverlapFold (a b : string) : bool :=
  forallb (fun xy => EqualFold xy.1 xy.2) (zip (relComponents a) (relComponents b)).

End Fold.

Example clean_examples :
  Clean "" = "." /\ Clean "/" = "/" /\ Clean "a//b/./c/.." = "a/b" /\ Clean "../a/../.." = "../.." /\ Clean "/../a" = "/a" /\ Clean "a/.." = ".".
Proof. vm_compute. repeat split. Qed.
Example path_examples :
  Rel "/a/b" "/a/b/c" = Ok "c" /\ Rel "/a/b" "/a/c" = Ok "../c" /\ Rel "/a" "/a" = Ok "." /\ Dir "/a/b" = "/a" /\ Dir "/a" = "/" /\ Dir "a" = "." /\ Base "/a/b/" = "b"
  /\ IsLocal "a/../b" = true /\ IsLocal "a/../.." = false /\ IsLocal "/a" = false /\ Join "a" "../b" = "b".
Proof. vm_compute. repeat split. Qed.

End GoPath.
