(* ===== verification/GoText.v ===== *)
(** Text as the code takes it apart with Go's packages [strings], [strconv] and
    [net]: splitting on a byte or on white space, decimal integers, and
    [host:port] pairs; with what splitting does to a text put together from its
    pieces. *)

From S2P Require Import Prelude Go TreePath ManifestCodec.

Module GoText.
Import TreePath ManifestCodec.

Definition NL : ascii := "010".
Definition eol : string := String NL EmptyString.

(** [strings.Split] on one byte. *)
Fixpoint Split (s : string) (c : ascii) : list string :=
  match s with
  | EmptyString => [""]
  | String d s =>
    if bool_decide (d = c) then "" :: Split s c
    else match Split s c with x :: xs => String d x :: xs | [] => [String d ""] end
  end.

(** [strings.Join]. *)
Fixpoint JoinWith (l : list string) (sep : string) : string :=
  match l with [] => "" | [x] => x | x :: l => x +:+ sep +:+ JoinWith l sep end.

(** [strings.Fields]. *)
Fixpoint fields_of (acc : string) (cs : list (Z * string)) : list string :=
  match cs with
  | [] => if is_empty acc then [] else [acc]
  | (r, b) :: cs =>
    if IsSpace r then (if is_empty acc then fields_of "" cs else acc :: fields_of "" cs) else fields_of (acc +:+ b) cs
  end.
Definition Fields (s : string) : list string := fields_of "" (chunks s).

(** [strconv.Atoi], whose [int] has 64 bits. *)
Definition unsigned (s : string) : option Z := if negb (is_empty s) && string_forallb is_digit s then Some (dec_val s 0) else None.
Definition Atoi (s : string) : option Z :=
  let v := match s with
           | String c r => if bool_decide (c = "-"%char) then Z.opp <$> unsigned r else if bool_decide (c = "+"%char) then unsigned r else unsigned s
           | EmptyString => None
           end in
  match v with Some v => if (min_int64 <=? v) && (v <=? max_int64) then Some v else None | None => None end.

(** [strings.IndexByte] and [strings.LastIndexByte], [None] for -1. *)
Fixpoint IndexByte (s : string) (c : ascii) : option nat :=
  match s with EmptyString => None | String d s => if bool_decide (d = c) then Some 0%nat else S <$> IndexByte s c end.
Fixpoint LastIndexByte (s : string) (c : ascii) : option nat :=
  match s with
  | EmptyString => None
  | String d s => match LastIndexByte s c with Some i => Some (S i) | None => if bool_decide (d = c) then Some 0%nat else None end
  end.
Definition has (s : string) (c : ascii) : bool := bool_decide (is_Some (IndexByte s c)).

(** [net.SplitHostPort], [None] for each of its errors. *)
Definition SplitHostPort (hostport : string) : option (string * string) :=
  match LastIndexByte hostport ":" with
  | None => None
  | Some i =>
    let port := drop_bytes (S i) hostport in
    if HasPrefix hostport "[" then
      match IndexByte hostport "]" with
      | None => None
      | Some e =>
        if decide (S e = i) then
          if has (drop_bytes 1 hostport) "[" || has (drop_bytes (S e) hostport) "]" then None
          else Some (String.substring 1 (e - 1) hostport, port)
        else None
      end
    else
      let host := String.substring 0 i hostport in
      if has host ":" || has hostport "[" || has hostport "]" then None else Some (host, port)
  end.

(** * Putting together and taking apart *)

Lemma Split_nonempty s c : Split s c <> [].
Proof. destruct s as [|d s]; simpl; [done|]. case_bool_decide; [done|]. by destruct (Split s c). Qed.

Lemma Split_free s c : free c s = true -> Split s c = [s].
Proof.
  induction s as [|d s IH]; simpl; [done|]. intros [Hd Hs]%andb_prop. rewrite (IH Hs). by rewrite bool_decide_eq_false_2 by (intros ->; by rewrite bool_decide_true in Hd).
Qed.

Lemma Split_app a c r : free c a = true -> Split (a +:+ String c r) c = a :: Split r c.
Proof.
  induction a as [|d a IH]; simpl; [intros _; by rewrite bool_decide_true|]. intros [Hd Ha]%andb_prop. change (String d a +:+ ?t) with (String d (a +:+ t)). simpl.
  rewrite (IH Ha). by rewrite bool_decide_eq_false_2 by (intros ->; by rewrite bool_decide_true in Hd).
Qed.

Lemma Split_join l c : l <> [] -> Forall (fun s => free c s = true) l -> Split (JoinWith l (String c "")) c = l.
Proof.
  intros Hne Hl. induction Hl as [|x [|y l] Hx Hl IH]; [done|by apply Split_free|].
  change (JoinWith (x :: y :: l) (String c "")) with (x +:+ String c (JoinWith (y :: l) (String c ""))).
  rewrite Split_app by done. by rewrite IH.
Qed.

Lemma free_app c a b : free c (a +:+ b) = free c a && free c b.
Proof.
  unfold free. induction a as [|d a IH]; [done|]. change (String d a +:+ b) with (String d (a +:+ b)). simpl. by rewrite IH, andb_assoc.
Qed.

Lemma free_join c l sep : free c sep = true -> Forall (fun s => free c s = true) l -> free c (JoinWith l sep) = true.
Proof.
  intros Hs Hl. induction Hl as [|x [|y l] Hx Hl IH]; [done..|].
  change (JoinWith (x :: y :: l) sep) with (x +:+ sep +:+ JoinWith (y :: l) sep). by rewrite !free_app, Hx, Hs, IH.
Qed.

Lemma digits_free c s : string_forallb is_digit s = true -> is_digit c = false -> free c s = true.
Proof.
  intros Hs Hc. induction s as [|d s IH]; [done|]. simpl in Hs. apply andb_prop in Hs as [Hd Hs]. apply free_cons. split; [|by apply IH]. congruence.
Qed.

Lemma format_int_digits v : int64_range v -> exists s d, format_int v = s +:+ d /\ (s = "" \/ s = "-") /\ string_forallb is_digit d = true.
Proof.
  unfold int64_range, min_int64, max_int64. intros Hv. unfold format_int. destruct (Z.ltb_spec v 0).
  - exists "-", (format_uint (- v)). split; [done|]. split; [by right|]. apply (format_uint_spells (- v)). unfold uint64_range. lia.
  - exists "", (format_uint v). split; [done|]. split; [by left|]. apply (format_uint_spells v). unfold uint64_range. lia.
Qed.

Lemma format_int_inj v w : int64_range v -> int64_range w -> format_int v = format_int w -> v = w.
Proof.
  intros Hv Hw E. pose proof (int_round v "" Hv I) as Ev. pose proof (int_round w "" Hw I) as Ew. rewrite E, Ew in Ev. by injection Ev.
Qed.

Lemma Atoi_Itoa v : int64_range v -> Atoi (format_int v) = Some v.
Proof.
  intros Hv. assert (Hd : forall u, uint64_range u -> unsigned (format_uint u) = Some u /\ exists c r, format_uint u = String c r /\ is_digit c = true).
  { intros u Hu. destruct (format_uint_spells u Hu) as [H1 H2 H3 _]. unfold unsigned. rewrite (proj2 (is_empty_false _) H2), H1. cbn [negb andb].
    split; [by rewrite H3|]. destruct (format_uint u) as [|c r]; [done|]. exists c, r. split; [done|]. simpl in H1. by apply andb_prop in H1 as [? _]. }
  pose proof Hv as Hr. unfold int64_range, min_int64, max_int64 in Hr. unfold Atoi, format_int.
  assert (Hb : (min_int64 <=? v) && (v <=? max_int64) = true) by (unfold min_int64, max_int64; lia).
  destruct (Z.ltb_spec v 0).
  - rewrite bool_decide_true by done. destruct (Hd (- v)) as [-> _]; [unfold uint64_range; lia|]. cbn. rewrite Z.opp_involutive. by rewrite Hb.
  - destruct (Hd v) as [Eu (c & r & Ec & Hc)]; [unfold uint64_range; lia|]. rewrite Ec in *.
    rewrite !bool_decide_eq_false_2 by (intros ->; done). by rewrite Eu, Hb.
Qed.

Example SplitHostPort_lima : SplitHostPort "192.168.5.2:41234" = Some ("192.168.5.2", "41234").
Proof. reflexivity. Qed.
Example SplitHostPort_v6 : SplitHostPort "[fd00::1]:80" = Some ("fd00::1", "80").
Proof. reflexivity. Qed.
Example SplitHostPort_colons : SplitHostPort "fd00::1:80" = None.
Proof. reflexivity. Qed.

End GoText.
