(* ===== verification/GoHttp.v ===== *)
(** What the remote proxy uses of Go's packages [net/url], [net/http] and
    [net/http/httputil]: percent-encoding and the two spellings of a URL's path,
    query strings, header maps with their canonical keys, and the reverse proxy's
    own part of a request and an answer; with the facts about them the proxy's
    checks rest on. *)

From stdpp Require Import sorting.
From S2P Require Import Prelude Go TreePath GoPath GoText.

Module GoHttp.
Import TreePath GoPath GoText.

(** * Percent-encoding *)

Definition byte_of (z : Z) : ascii := ascii_of_nat (Z.to_nat z).
Definition between (lo hi : Z) (c : ascii) : bool := (lo <=? byte_val c) && (byte_val c <=? hi).
Definition is_upper (c : ascii) : bool := between 65 90 c.
Definition is_lower (c : ascii) : bool := between 97 122 c.
Definition is_dec (c : ascii) : bool := between 48 57 c.
Definition one_of (s : string) (c : ascii) : bool := has_byte c s.

Definition unhex (c : ascii) : option Z :=
  if is_dec c then Some (byte_val c - 48)
  else if between 97 102 c then Some (byte_val c - 87)
  else if between 65 70 c then Some (byte_val c - 55)
  else None.
Definition hexdigit (v : Z) : ascii := byte_of (if v <? 10 then 48 + v else 55 + v).

(** [url.unescape]; in a query a plus is a space. *)
Fixpoint unescape_as (query : bool) (s : string) : option string :=
  match s with
  | EmptyString => Some ""
  | String c r =>
    if bool_decide (c = "%"%char) then
      match r with
      | String a (String b r) =>
        match unhex a, unhex b with
        | Some x, Some y => String (byte_of (16 * x + y)) <$> unescape_as query r
        | _, _ => None
        end
      | _ => None
      end
    else String (if query && bool_decide (c = "+"%char) then " "%char else c) <$> unescape_as query r
  end.
Definition path_unescape : string -> option string := unescape_as false.
Definition QueryUnescape : string -> option string := unescape_as true.

Definition is_alphanum (c : ascii) : bool := is_upper c || is_lower c || is_dec c.
Definition unreserved (c : ascii) : bool := is_upper c || is_lower c || is_dec c || one_of "-_.~" c.
(** [url.shouldEscape] in a path and in a query component. *)
Definition shouldEscape (query : bool) (c : ascii) : bool := negb (unreserved c || (negb query && one_of "$&+,/:;=@" c)).

Fixpoint escape_as (query : bool) (s : string) : string :=
  match s with
  | EmptyString => ""
  | String c r =>
    if query && bool_decide (c = " "%char) then String "+" (escape_as query r)
    else if shouldEscape query c then String "%" (String (hexdigit (byte_val c / 16)) (String (hexdigit (byte_val c mod 16)) (escape_as query r)))
    else String c (escape_as query r)
  end.
Definition path_escape : string -> string := escape_as false.
Definition QueryEscape : string -> string := escape_as true.

Definition validEncoded (s : string) : bool := string_forallb (fun c => one_of "!$&'()*+,;=:@[]%" c || negb (shouldEscape false c)) s.

(** * URLs *)

Record URL := MkURL { u_Path : string; u_RawPath : string; u_RawQuery : string }.

Definition EscapedPath (u : URL) : string :=
  if negb (is_empty (u_RawPath u)) && validEncoded (u_RawPath u) && bool_decide (path_unescape (u_RawPath u) = Some (u_Path u)) then u_RawPath u
  else if str_eqb (u_Path u) "*" then "*"
  else path_escape (u_Path u).

(** [setPath], how a request target becomes a URL. *)
Definition setPath (p query : string) : option URL :=
  match path_unescape p with
  | None => None
  | Some path => Some (MkURL path (if str_eqb p (path_escape path) then "" else p) query)
  end.

Abbreviation Values := (gmap string (list string)) (only parsing).
Definition values_add (k v : string) (m : Values) : Values := <[k := default [] (m !! k) ++ [v]]> m.
Definition value (m : Values) (k : string) : string := match m !! k with Some (v :: _) => v | _ => "" end.

(** [url.ParseQuery], which leaves out what it cannot read. *)
Definition parse_pair (m : Values) (pair : string) : Values :=
  if has_byte ";" pair || is_empty pair then m
  else
    let '(k, v) := cut "=" pair in
    match QueryUnescape k, QueryUnescape (default "" v) with
    | Some k, Some v => values_add k v m
    | _, _ => m
    end.
Definition ParseQuery (s : string) : Values := foldl parse_pair ∅ (Split s "&").

(** [Values.Encode], keys in order. *)
Definition str_le (a b : string) : Prop := Compare a b <> Gt.
#[export] Instance str_le_dec : RelDecision str_le.
Proof. intros a b. unfold str_le. destruct (Compare a b); [left; discriminate|left; discriminate|right; intros H; exact (H eq_refl)]. Defined.
Definition encode_key (kvs : string * list string) : list string := (fun v => QueryEscape kvs.1 +:+ "=" +:+ QueryEscape v) <$> kvs.2.
Definition sorted_keys (m : Values) : list string := merge_sort str_le (elements (dom m)).
Definition Encode (m : Values) : string :=
  JoinWith (concat ((fun k => encode_key (k, default [] (m !! k))) <$> sorted_keys m)) "&".

(** What the reverse proxy keeps of a query. *)
Definition cleanQueryParams (s : string) : string :=
  if has_byte ";" s || bool_decide (path_unescape s = None) then Encode (ParseQuery s) else s.

(** * Headers *)

Abbreviation Header := (gmap string (list string)) (only parsing).

Definition token_byte (c : ascii) : bool := is_upper c || is_lower c || is_dec c || one_of "!#$%&'*+-.^_`|~" c.
Fixpoint canonical (upper : bool) (s : string) : string :=
  match s with
  | EmptyString => ""
  | String c r =>
    let c := if upper && is_lower c then byte_of (byte_val c - 32) else if negb upper && is_upper c then byte_of (byte_val c + 32) else c in
    String c (canonical (bool_decide (c = "-"%char)) r)
  end.
Definition CanonicalHeaderKey (s : string) : string := if string_forallb token_byte s then canonical true s else s.

Definition hdr_values (h : Header) (k : string) : list string := default [] (h !! CanonicalHeaderKey k).
Definition hdr_get (h : Header) (k : string) : string := match hdr_values h k with v :: _ => v | [] => "" end.
Definition hdr_del (k : string) (h : Header) : Header := delete (CanonicalHeaderKey k) h.
Definition hdr_set (k v : string) (h : Header) : Header := <[CanonicalHeaderKey k := [v]]> h.
Definition hdr_add (k v : string) (h : Header) : Header := <[CanonicalHeaderKey k := hdr_values h k ++ [v]]> h.

(** * Requests and answers *)

Record Request := MkRequest {
  rq_Method : string; rq_URL : URL; rq_Host : string; rq_Header : Header;
  (** Reading the body: [None] when it fails. *)
  rq_Body : option bytes;
  rq_RemoteAddr : string; rq_TLS : bool
}.
#[export] Instance URL_eq_dec : EqDecision URL. Proof. solve_decision. Defined.
#[export] Instance Request_eq_dec : EqDecision Request. Proof. solve_decision. Defined.
Definition rq_Path (r : Request) : string := u_Path (rq_URL r).
Definition set_url (u : URL) (r : Request) : Request := MkRequest (rq_Method r) u (rq_Host r) (rq_Header r) (rq_Body r) (rq_RemoteAddr r) (rq_TLS r).
Definition set_header (h : Header) (r : Request) : Request := MkRequest (rq_Method r) (rq_URL r) (rq_Host r) h (rq_Body r) (rq_RemoteAddr r) (rq_TLS r).
Definition set_body (b : option bytes) (r : Request) : Request := MkRequest (rq_Method r) (rq_URL r) (rq_Host r) (rq_Header r) b (rq_RemoteAddr r) (rq_TLS r).
Definition set_host (h : string) (r : Request) : Request := MkRequest (rq_Method r) (rq_URL r) h (rq_Header r) (rq_Body r) (rq_RemoteAddr r) (rq_TLS r).

Record Response := MkResponse { rs_Status : Z; rs_Header : Header; rs_Body : option bytes }.
Definition set_rs_header (h : Header) (r : Response) : Response := MkResponse (rs_Status r) h (rs_Body r).

Definition HasSuffix (s p : string) : bool :=
  (String.length p <=? String.length s)%nat && str_eqb (drop_bytes (String.length s - String.length p) s) p.
Definition TrimSuffix (s p : string) : string := if HasSuffix s p then String.substring 0 (String.length s - String.length p) s else s.

(** ** The reverse proxy *)

Section Proxy.
Context `{Unicode}.

Definition hopHeaders : list string :=
  ["Connection"; "Proxy-Connection"; "Keep-Alive"; "Proxy-Authenticate"; "Proxy-Authorization"; "Te"; "Trailer"; "Transfer-Encoding"; "Upgrade"].
Definition tokens_of (vs : list string) : list string := concat ((fun v => TrimSpace <$> Split v ",") <$> vs).
Definition contains_token (vs : list string) (t : string) : bool := existsb (fun s => EqualFold s t) (tokens_of vs).
Definition upgradeType (h : Header) : string := if contains_token (hdr_values h "Connection") "Upgrade" then hdr_get h "Upgrade" else "".
Definition removeHopByHopHeaders (h : Header) : Header :=
  let h := foldl (fun h t => if is_empty t then h else hdr_del t h) h (tokens_of (hdr_values h "Connection")) in
  foldl (fun h t => hdr_del t h) h hopHeaders.
Definition printable (s : string) : bool := string_forallb (between 32 126) s.

(** The request the proxy makes of the client's before [Rewrite]; [None] for a
    protocol switch it refuses. *)
Definition out_request (r : Request) : option Request :=
  let h := rq_Header r in
  let up := upgradeType h in
  if negb (printable up) then None
  else
    let h1 := removeHopByHopHeaders h in
    let h1 := if contains_token (hdr_values h "Te") "trailers" then hdr_set "Te" "trailers" h1 else h1 in
    let h1 := if is_empty up then h1 else hdr_set "Upgrade" up (hdr_set "Connection" "Upgrade" h1) in
    let h1 := hdr_del "X-Forwarded-Proto" (hdr_del "X-Forwarded-Host" (hdr_del "X-Forwarded-For" (hdr_del "Forwarded" h1))) in
    let u := rq_URL r in
    Some (set_header h1 (set_url (MkURL (u_Path u) (u_RawPath u) (cleanQueryParams (u_RawQuery u))) r)).

(** [ProxyRequest.SetURL], to a target given by its host and URL. *)
Definition singleJoiningSlash (a b : string) : string :=
  match HasSuffix a "/", HasPrefix b "/" with
  | true, true => a +:+ drop_bytes 1 b
  | false, false => a +:+ "/" +:+ b
  | _, _ => a +:+ b
  end.
Definition joinURLPath (a b : URL) : string * string :=
  if is_empty (u_RawPath a) && is_empty (u_RawPath b) then (singleJoiningSlash (u_Path a) (u_Path b), "")
  else
    let ap := EscapedPath a in let bp := EscapedPath b in
    match HasSuffix ap "/", HasPrefix bp "/" with
    | true, true => (u_Path a +:+ drop_bytes 1 (u_Path b), ap +:+ drop_bytes 1 bp)
    | false, false => (u_Path a +:+ "/" +:+ u_Path b, ap +:+ "/" +:+ bp)
    | _, _ => (u_Path a +:+ u_Path b, ap +:+ bp)
    end.
Definition join_query (a b : string) : string := if is_empty a || is_empty b then a +:+ b else a +:+ "&" +:+ b.
Definition SetURL (host : string) (target : URL) (out : Request) : Request :=
  let '(p, rp) := joinURLPath target (rq_URL out) in
  set_host host (set_url (MkURL p rp (join_query (u_RawQuery target) (u_RawQuery (rq_URL out)))) out).

(** [ProxyRequest.SetXForwarded]. *)
Definition SetXForwarded (inr out : Request) : Request :=
  let h := rq_Header out in
  let h := match SplitHostPort (rq_RemoteAddr inr) with
           | Some (ip, _) =>
             let prior := hdr_values h "X-Forwarded-For" in
             hdr_set "X-Forwarded-For" (match prior with [] => ip | _ => JoinWith prior ", " +:+ ", " +:+ ip end) h
           | None => hdr_del "X-Forwarded-For" h
           end in
  set_header (hdr_set "X-Forwarded-Proto" (if rq_TLS inr then "https" else "http") (hdr_set "X-Forwarded-Host" (rq_Host inr) h)) out.

Definition default_agent (h : Header) : Header := match h !! "User-Agent" with Some _ => h | None => hdr_set "User-Agent" "" h end.
End Proxy.

(** * Facts *)

(** The 256 bytes, for what is decided by looking at each. *)
Lemma all_bytes (P : ascii -> bool) : forallb (fun n => P (ascii_of_nat n)) (seq 0 256) = true -> forall c, P c = true.
Proof.
  rewrite forallb_forall. intros HP c. rewrite <- (ascii_nat_embedding c). apply HP, in_seq. pose proof (nat_ascii_bounded c). lia.
Qed.

Lemma every_byte (P : ascii -> Prop) `{forall c, Decision (P c)} : forallb (fun n => bool_decide (P (ascii_of_nat n))) (seq 0 256) = true -> forall c, P c.
Proof. intros HP c. apply (proj1 (bool_decide_eq_true (P c))). revert c. by apply (all_bytes (fun c => bool_decide (P c))). Qed.

Lemma hex_of_byte c : unhex (hexdigit (byte_val c / 16)) = Some (byte_val c / 16) /\ unhex (hexdigit (byte_val c mod 16)) = Some (byte_val c mod 16).
Proof.
  apply (every_byte (fun c => unhex (hexdigit (byte_val c / 16)) = Some (byte_val c / 16) /\ unhex (hexdigit (byte_val c mod 16)) = Some (byte_val c mod 16))).
  vm_compute. reflexivity.
Qed.
Lemma byte_joined c : byte_of (16 * (byte_val c / 16) + byte_val c mod 16) = c.
Proof. rewrite <- Z.div_mod by lia. unfold byte_of, byte_val. by rewrite Nat2Z.id, ascii_nat_embedding. Qed.

Lemma kept_byte query c : shouldEscape query c = false -> c <> "%"%char /\ (query = true -> c <> "+"%char).
Proof. intros Hc. split; [|intros ->]; intros ->; [by destruct query|done]. Qed.

Lemma unescape_escape query s : unescape_as query (escape_as query s) = Some s.
Proof.
  induction s as [|c s IH]; [done|]. cbn [escape_as]. destruct (query && bool_decide (c = " "%char)) eqn:Esp.
  - guards. subst. cbn. by rewrite IH.
  - destruct (shouldEscape query c) eqn:Esc.
    + cbn [unescape_as]. rewrite bool_decide_true by done. destruct (hex_of_byte c) as [-> ->]. rewrite IH. cbn. by rewrite byte_joined.
    + destruct (kept_byte _ _ Esc) as [H1 H2]. cbn [unescape_as]. rewrite bool_decide_eq_false_2 by done. rewrite IH. cbn.
      destruct query; cbn; [|done]. by rewrite bool_decide_eq_false_2 by auto.
Qed.

Lemma EscapedPath_decodes u : path_unescape (EscapedPath u) = Some (u_Path u).
Proof.
  unfold EscapedPath. destruct (negb _ && validEncoded _ && bool_decide _) eqn:E1; [by guards|].
  destruct (str_eqb _ _) eqn:E2; [|apply unescape_escape]. apply str_eqb_eq in E2. by rewrite E2.
Qed.

Lemma valid_ascii s : validEncoded s = true -> is_ascii s = true.
Proof.
  unfold validEncoded, is_ascii. induction s as [|c s IH]; [done|]. cbn [string_forallb]. intros [Hc Hs]%andb_prop. rewrite (IH Hs), andb_true_r.
  assert (Hb : implb (one_of "!$&'()*+,;=:@[]%" c || negb (shouldEscape false c)) (byte_val c <? 128) = true) by (apply (all_bytes (fun c => implb (one_of "!$&'()*+,;=:@[]%" c || negb (shouldEscape false c)) (byte_val c <? 128))); vm_compute; reflexivity).
  by rewrite Hc in Hb.
Qed.
Lemma escape_ascii query s : is_ascii (escape_as query s) = true.
Proof.
  unfold is_ascii. induction s as [|c s IH]; [done|]. cbn [escape_as]. destruct (_ && _); [done|].
  assert (Hb : (byte_val (hexdigit (byte_val c / 16)) <? 128) && (byte_val (hexdigit (byte_val c mod 16)) <? 128) && (shouldEscape query c || (byte_val c <? 128)) = true).
  { apply (all_bytes (fun c => (byte_val (hexdigit (byte_val c / 16)) <? 128) && (byte_val (hexdigit (byte_val c mod 16)) <? 128) && (shouldEscape query c || (byte_val c <? 128)))).
    destruct query; vm_compute; reflexivity. }
  apply andb_prop in Hb as [[H1 H2]%andb_prop H3]. destruct (shouldEscape query c); cbn [string_forallb]; [by rewrite H1, H2, IH|]. cbn in H3. by rewrite H3, IH.
Qed.
Lemma EscapedPath_ascii u : is_ascii (EscapedPath u) = true.
Proof.
  unfold EscapedPath. destruct (negb _ && validEncoded _ && _) eqn:E1; [guards; by apply valid_ascii|]. destruct (str_eqb _ _); [done|]. apply escape_ascii.
Qed.

Lemma escape_valid s : validEncoded (path_escape s) = true.
Proof.
  unfold path_escape, validEncoded. induction s as [|c s IH]; [done|]. cbn [escape_as andb].
  set (ok c := one_of "!$&'()*+,;=:@[]%" c || negb (shouldEscape false c)) in *.
  assert (Hb : ok (hexdigit (byte_val c / 16)) && ok (hexdigit (byte_val c mod 16)) = true) by
    (apply (all_bytes (fun c => ok (hexdigit (byte_val c / 16)) && ok (hexdigit (byte_val c mod 16)))); vm_compute; reflexivity).
  apply andb_prop in Hb as [H1 H2]. destruct (shouldEscape false c) eqn:E; cbn [string_forallb]; rewrite IH, andb_true_r.
  - by rewrite H1, H2.
  - unfold ok. by rewrite E, orb_true_r.
Qed.
Lemma EscapedPath_valid u : u_Path u <> "*" -> validEncoded (EscapedPath u) = true.
Proof.
  intros Hu. unfold EscapedPath. destruct (negb _ && validEncoded _ && _) eqn:E; [by apply andb_prop in E as [[_ E]%andb_prop _]|].
  rewrite (proj2 (str_eqb_neq _ _) Hu). apply escape_valid.
Qed.

(** ** Query strings *)

Lemma escaped_free c s : c = "&"%char \/ c = "="%char \/ c = ";"%char -> free c (QueryEscape s) = true.
Proof.
  intros Hc. unfold QueryEscape. induction s as [|d s IH]; [done|]. cbn [escape_as].
  assert (Hb : forall e, free e (String d "") = true \/ shouldEscape true d = true \/ (e <> "&"%char /\ e <> "="%char /\ e <> ";"%char)).
  { intros e. destruct (decide (d = e)) as [->|Hne]; [right|left; by rewrite free_cons]. destruct (shouldEscape true e) eqn:E; [by left|right].
    split_and!; intros ->; done. }
  assert (Hh : forall v, (v = byte_val d / 16 \/ v = byte_val d mod 16) -> hexdigit v <> c).
  { pose proof (byte_val_range d). assert (Hd : is_alphanum (hexdigit (byte_val d / 16)) && is_alphanum (hexdigit (byte_val d mod 16)) = true) by
    (apply (all_bytes (fun d => is_alphanum (hexdigit (byte_val d / 16)) && is_alphanum (hexdigit (byte_val d mod 16)))); vm_compute; reflexivity).
    apply andb_prop in Hd as [H1 H2]. intros v [-> | ->] E; rewrite E in *; destruct Hc as [-> | [-> | ->]]; done. }
  destruct (true && bool_decide (d = " "%char)); [apply free_cons; split; [by destruct Hc as [-> | [-> | ->]]|done]|].
  destruct (shouldEscape true d) eqn:E.
  - rewrite !free_cons. split_and!; [by destruct Hc as [-> | [-> | ->]]|by apply Hh; left|by apply Hh; right|done].
  - apply free_cons. split; [|done]. destruct (Hb c) as [H|[H|H]]; [by apply free_cons in H as [? _]|congruence|naive_solver].
Qed.

Definition pair_text (kv : string * string) : string := QueryEscape kv.1 +:+ "=" +:+ QueryEscape kv.2.
Definition pairs_of (m : Values) : list (string * string) := concat ((fun k => (k,.) <$> default [] (m !! k)) <$> sorted_keys m).

Lemma Encode_pairs m : Encode m = JoinWith (pair_text <$> pairs_of m) "&".
Proof.
  unfold Encode, pairs_of. f_equal. induction (sorted_keys m) as [|k ks IH]; [done|]. cbn [fmap list_fmap concat]. rewrite fmap_app. f_equal; [|exact IH].
  unfold encode_key. by rewrite <- list_fmap_compose.
Qed.

Lemma pair_free c kv : c = "&"%char \/ c = ";"%char -> free c (pair_text kv) = true.
Proof.
  intros Hc. unfold pair_text. rewrite !free_app, !escaped_free by naive_solver. rewrite andb_true_r. by destruct Hc as [-> | ->].
Qed.

Lemma parse_pair_text m kv : parse_pair m (pair_text kv) = values_add kv.1 kv.2 m.
Proof.
  unfold parse_pair. assert (Hs : has_byte ";" (pair_text kv) = false).
  { unfold has_byte. pose proof (pair_free ";" kv (or_intror eq_refl)) as Hf. by rewrite (proj2 (cut_None ";" (pair_text kv) (pair_text kv))). }
  assert (He : is_empty (pair_text kv) = false).
  { apply is_empty_false. unfold pair_text. intros E. apply (f_equal String.length) in E. rewrite !str_length_app in E. simpl in E. lia. }
  rewrite Hs, He. cbn [orb]. unfold pair_text. rewrite string_app_cons, string_app_nil.
  rewrite (proj2 (cut_Some "=" _ (QueryEscape kv.1) (QueryEscape kv.2))); [|split; [done|apply escaped_free; naive_solver]].
  cbn [default id]. unfold QueryUnescape, QueryEscape. by rewrite !unescape_escape.
Qed.

Lemma ParseQuery_pairs l : ParseQuery (JoinWith (pair_text <$> l) "&") = foldl (fun m kv => values_add kv.1 kv.2 m) ∅ l.
Proof.
  unfold ParseQuery. destruct l as [|kv l]; [done|]. rewrite Split_join; [|done|].
  - generalize (∅ : Values). induction (kv :: l) as [|x xs IH]; intros m; [done|]. cbn [fmap list_fmap foldl]. by rewrite parse_pair_text, IH.
  - apply Forall_fmap, Forall_true. intros x. apply pair_free. by left.
Qed.

Definition for_key (k : string) (l : list (string * string)) : list string := snd <$> List.filter (fun kv => str_eqb kv.1 k) l.
Lemma added_lookup l : forall m k, foldl (fun m kv => values_add kv.1 kv.2 m) m l !! k =
  match for_key k l with [] => m !! k | vs => Some (default [] (m !! k) ++ vs) end.
Proof.
  induction l as [|[k' v] l IH]; intros m k; [done|]. cbn [foldl]. rewrite IH. unfold for_key. cbn [List.filter fst snd]. unfold values_add.
  destruct (str_eqb k' k) eqn:E.
  - apply str_eqb_eq in E as ->. rewrite lookup_insert_eq. cbn [fmap list_fmap]. destruct (snd <$> _); [done|]. cbn. by rewrite <- app_assoc.
  - apply str_eqb_neq in E. by rewrite lookup_insert_ne.
Qed.

Lemma for_key_pairs m k : for_key k (pairs_of m) = default [] (m !! k).
Proof.
  unfold pairs_of, sorted_keys. assert (Hnd : NoDup (merge_sort str_le (elements (dom m)))) by (rewrite merge_sort_Permutation; apply NoDup_elements).
  assert (Hk : k ∈ merge_sort str_le (elements (dom m)) <-> is_Some (m !! k)) by (rewrite merge_sort_Permutation, elem_of_elements, elem_of_dom; done).
  assert (Hall : forall ks, NoDup ks -> for_key k (concat ((fun k => (k,.) <$> default [] (m !! k)) <$> ks)) = if decide (k ∈ ks) then default [] (m !! k) else []).
  { induction 1 as [|k' ks Hni Hnd' IH]; [done|]. cbn [fmap list_fmap concat]. unfold for_key in *. rewrite List.filter_app, fmap_app, IH.
    destruct (decide (k' = k)) as [->|Hne].
    - rewrite (decide_False (P := k ∈ ks)) by done. rewrite decide_True by set_solver. rewrite app_nil_r. clear.
      induction (default [] (m !! k)) as [|v vs IHv]; [done|]. cbn. rewrite str_eqb_refl. cbn. f_equal. exact IHv.
    - replace (List.filter _ _) with ([] : list (string * string)).
      2:{ clear -Hne. induction (default [] (m !! k')) as [|v vs IHv]; [done|]. cbn. by rewrite (proj2 (str_eqb_neq k' k) Hne). }
      cbn. destruct (decide (k ∈ ks)); [by rewrite decide_True by set_solver|by rewrite decide_False by set_solver]. }
  rewrite Hall by done. case_decide as Hin; [done|]. destruct (m !! k) eqn:E; [|done]. exfalso. apply Hin, Hk. eauto.
Qed.

(** A query written by [Encode] reads back. *)
Lemma ParseQuery_Encode m k v vs : m !! k = Some (v :: vs) -> ParseQuery (Encode m) !! k = Some (v :: vs).
Proof. intros E. rewrite Encode_pairs, ParseQuery_pairs, added_lookup, for_key_pairs, E. done. Qed.

(** ... and is one the reverse proxy leaves as it is. *)
Lemma decodes_app query a b : is_Some (unescape_as query a) -> is_Some (unescape_as query b) -> is_Some (unescape_as query (a +:+ b)).
Proof.
  revert b. induction a as [a IH] using (induction_ltof1 _ String.length). unfold ltof in IH. intros b. destruct a as [|c a]; [done|].
  rewrite string_app_cons. cbn [unescape_as]. destruct (bool_decide (c = "%"%char)).
  - destruct a as [|x [|y a]]; [by intros [? ?]..|]. rewrite !string_app_cons. destruct (unhex x), (unhex y); [|by intros [? ?]..].
    rewrite !fmap_is_Some. intros Ha Hb. apply IH; [simpl; lia|done|done].
  - rewrite !fmap_is_Some. intros Ha Hb. apply IH; [simpl; lia|done|done].
Qed.

Lemma clean_Encode m : cleanQueryParams (Encode m) = Encode m.
Proof.
  unfold cleanQueryParams. rewrite Encode_pairs. set (l := pairs_of m).
  assert (Hf : has_byte ";" (JoinWith (pair_text <$> l) "&") = false).
  { unfold has_byte. assert (Hj : free ";" (JoinWith (pair_text <$> l) "&") = true).
    { apply free_join; [done|]. apply Forall_fmap, Forall_true. intros x. apply pair_free. by right. }
    by rewrite (proj2 (cut_None ";" _ _) (conj eq_refl Hj)). }
  assert (He : forall s, is_Some (path_unescape (QueryEscape s))).
  { unfold path_unescape, QueryEscape. induction s as [|c s IH]; [done|]. cbn [escape_as]. destruct (true && _); [destruct IH as [x Hx]; cbn; rewrite Hx; by eexists|].
    destruct (shouldEscape true c) eqn:E.
    - cbn [unescape_as]. rewrite bool_decide_true by done. destruct (hex_of_byte c) as [-> ->]. by rewrite fmap_is_Some.
    - destruct (kept_byte _ _ E) as [Hc _]. cbn [unescape_as]. rewrite bool_decide_eq_false_2 by done. by rewrite fmap_is_Some. }
  assert (Hp : forall kv, is_Some (path_unescape (pair_text kv))) by (intros kv; unfold pair_text; repeat apply decodes_app; auto; done).
  assert (Hs : is_Some (path_unescape (JoinWith (pair_text <$> l) "&"))).
  { clear Hf. induction l as [|x [|y l] IH]; [done|apply Hp|]. cbn [fmap list_fmap] in *.
    change (JoinWith (pair_text x :: pair_text y :: ?t) "&") with (pair_text x +:+ "&" +:+ JoinWith (pair_text y :: t) "&"). apply decodes_app; [apply Hp|]. apply decodes_app; [done|exact IH]. }
  rewrite Hf. by rewrite bool_decide_eq_false_2 by (destruct Hs as [? ->]; done).
Qed.

(** ** Suffixes *)

Lemma substring_halves n s : (n <= String.length s)%nat -> String.substring 0 n s +:+ drop_bytes n s = s.
Proof.
  unfold drop_bytes. revert n. induction s as [|c s IH]; intros n Hn; destruct n as [|n]; [done|cbn in Hn; lia|apply (substring_all (String c s))|].
  cbn in Hn |- *. rewrite string_app_cons. f_equal. apply IH. lia.
Qed.
Lemma HasSuffix_spec s p : HasSuffix s p = true -> s = TrimSuffix s p +:+ p.
Proof.
  intros E. unfold TrimSuffix. rewrite E. unfold HasSuffix in E. apply andb_prop in E as [Hl E]. apply str_eqb_eq in E. apply Nat.leb_le in Hl.
  pose proof (substring_halves (String.length s - String.length p) s ltac:(lia)) as Hh. rewrite E in Hh. by symmetry.
Qed.

End GoHttp.
