(* ===== verification/Egress.v ===== *)
(** The jail's network egress rules ([internal/egress]): the ordered iptables
    rules of both postures, their text for [iptables-restore] and as [iptables
    -S] lists them, the jump into them, and what they let through. *)

From stdpp Require Import sorting.
From S2P Require Import Prelude Go TreePath ManifestCodec GoText.

Module Egress.
Import TreePath ManifestCodec GoText.

(** * Rules *)

Inductive Family := IPv4 | IPv6.
#[export] Instance Family_eq_dec : EqDecision Family.
Proof. solve_decision. Defined.

Record Rule := MkRule { r_Family : Family; r_Args : list string }.

Definition Chain : string := "LEVER_EGRESS".
Definition privateV4 : list string := ["10.0.0.0/8"; "172.16.0.0/12"; "192.168.0.0/16"; "169.254.0.0/16"; "100.64.0.0/10"].
Definition ipv6Local : list string := ["fe80::/10"; "fc00::/7"].
Definition MetadataV4 : string := "169.254.169.254".

Definition metadataReject : list string := ["-d"; MetadataV4 +:+ "/32"; "-j"; "REJECT"; "--reject-with"; "icmp-host-prohibited"].
Definition rejectReplyAccept : list string :=
  ["-o"; "lo"; "-p"; "icmp"; "--icmp-type"; "host-prohibited"; "-m"; "conntrack"; "--ctstate"; "RELATED"; "-j"; "ACCEPT"].

Record DNSForward := MkForward { f_Proto : string; f_Port : Z }.

Definition out (a : list string) : list string := ["-A"; Chain] ++ a.

(** [strconv.Itoa]. *)
Abbreviation Itoa := format_int.

(** The rules of one port, for each alias there is. *)
Definition port_rules (aliasV4 aliasV6 : string) (p : Z) : list Rule :=
  (if is_empty aliasV4 then [] else [MkRule IPv4 (out ["-d"; aliasV4; "-p"; "tcp"; "--dport"; Itoa p; "-j"; "ACCEPT"])])
  ++ (if is_empty aliasV6 then [] else [MkRule IPv6 (out ["-d"; aliasV6; "-p"; "tcp"; "--dport"; Itoa p; "-j"; "ACCEPT"])]).

Definition BuildRulesDNS (aliasV4 aliasV6 : string) (allowedPorts : list Z) (closedInternet : bool) (dns : list DNSForward) : list Rule :=
  let ports := merge_sort Z.le allowedPorts in
  (if closedInternet then [MkRule IPv4 (out ["-o"; "lo"; "-j"; "ACCEPT"]); MkRule IPv6 (out ["-o"; "lo"; "-j"; "ACCEPT"])] else [])
  ++ (ports ≫= port_rules aliasV4 aliasV6)
  ++ (if negb closedInternet && negb (is_empty aliasV4)
      then (fun d => MkRule IPv4 (out ["-d"; aliasV4; "-p"; f_Proto d; "--dport"; Itoa (f_Port d); "-j"; "ACCEPT"])) <$> dns else [])
  ++ (if is_empty aliasV4 then [] else [MkRule IPv4 (out ["-d"; aliasV4; "-m"; "conntrack"; "--ctstate"; "ESTABLISHED"; "-j"; "ACCEPT"])])
  ++ (if is_empty aliasV6 then [] else [MkRule IPv6 (out ["-d"; aliasV6; "-m"; "conntrack"; "--ctstate"; "ESTABLISHED"; "-j"; "ACCEPT"])])
  ++ (if is_empty aliasV4 then [] else [MkRule IPv4 (out ["-d"; aliasV4; "-j"; "DROP"])])
  ++ (if is_empty aliasV6 then [] else [MkRule IPv6 (out ["-d"; aliasV6; "-j"; "DROP"])])
  ++ [MkRule IPv4 (out rejectReplyAccept); MkRule IPv4 (out metadataReject)]
  ++ ((fun c => MkRule IPv4 (out ["-d"; c; "-j"; "DROP"])) <$> privateV4)
  ++ ((fun c => MkRule IPv6 (out ["-d"; c; "-j"; "DROP"])) <$> ipv6Local)
  ++ (if closedInternet then [MkRule IPv4 (out ["-j"; "DROP"]); MkRule IPv6 (out ["-j"; "DROP"])] else []).

Definition BuildRules (aliasV4 aliasV6 : string) (allowedPorts : list Z) (closedInternet : bool) : list Rule :=
  BuildRulesDNS aliasV4 aliasV6 allowedPorts closedInternet [].

Definition Binary (f : Family) : string := match f with IPv6 => "ip6tables" | IPv4 => "iptables" end.
Definition RestoreBinary (f : Family) : string := Binary f +:+ "-restore".

Definition of_family (f : Family) (rules : list Rule) : list Rule := filter (fun r => r_Family r = f) rules.
Definition declared : string := ":" +:+ Chain +:+ " - [0:0]".
Definition RestoreInput (rules : list Rule) (f : Family) : string :=
  "*filter" +:+ eol +:+ declared +:+ eol
  +:+ foldr (fun r b => JoinWith (r_Args r) " " +:+ eol +:+ b) ("COMMIT" +:+ eol) (of_family f rules).

Definition RenderRule (r : Rule) : string := Binary (r_Family r) +:+ " " +:+ JoinWith (r_Args r) " ".

(** * The resolver's targets *)

(** One pass over the words of a [-A] line: the protocol, whether the jump is to
    [DNAT], and the destination, the last of each. *)
Fixpoint dnat_words (f : list string) (acc : string * bool * string) : string * bool * string :=
  match f with
  | w :: ((v :: _) as f) =>
    let '(proto, dnat, dest) := acc in
    dnat_words f (if str_eqb w "-p" then (v, dnat, dest) else if str_eqb w "-j" then (proto, str_eqb v "DNAT", dest)
                  else if str_eqb w "--to-destination" then (proto, dnat, v) else acc)
  | _ => acc
  end.
Definition dnat_target (aliasV4 line : string) : list DNSForward :=
  let f := Fields line in
  match f with
  | w :: _ :: _ =>
    if negb (str_eqb w "-A") then [] else
    let '(proto, dnat, dest) := dnat_words f ("", false, "") in
    if negb dnat || (negb (str_eqb proto "udp") && negb (str_eqb proto "tcp")) then [] else
    match SplitHostPort dest with
    | None => []
    | Some (host, portStr) =>
      if negb (str_eqb host aliasV4) then [] else
      match Atoi portStr with
      | Some port => if (port <? 1) || (65535 <? port) then [] else [MkForward proto port]
      | None => []
      end
    end
  | _ => []
  end.
Definition ParseDNATTargets (out aliasV4 : string) : list DNSForward := Split out NL ≫= dnat_target aliasV4.

Definition names_alias (aliasV4 line : string) : bool :=
  match Fields line with w :: v :: _ => str_eqb w "nameserver" && str_eqb v aliasV4 | _ => false end.
Definition ParseResolverUpstreams (resolvConf aliasV4 : string) : list DNSForward :=
  if is_empty aliasV4 then []
  else if existsb (names_alias aliasV4) (Split resolvConf NL) then [MkForward "udp" 53; MkForward "tcp" 53] else [].

(** * Addresses

    Package [net], which the code calls: addresses and networks, how they are
    read and printed. *)

Class Net := {
  Address : Type;
  Network : Type;
  ParseIP : string -> option Address;
  ParseCIDR : string -> option Network;
  Contains : Network -> Address -> bool;
  SameIP : Address -> Address -> bool;
  To4 : Address -> option Address;
  ip_string : Address -> string;
  net_string : Network -> string
}.

Definition DroppedForJail `{Net} (ip : Address) : bool :=
  existsb (fun c => match ParseCIDR c with Some n => Contains n ip | None => false end)
          (match To4 ip with None => ipv6Local | Some _ => privateV4 end).

(** * The listing of a loaded chain *)

Definition listingAddr `{Net} (s : string) (f : Family) : string :=
  match ParseCIDR s with
  | Some n => net_string n
  | None =>
    match ParseIP s with
    | None => s
    | Some ip => match f, To4 ip with IPv4, Some v4 => ip_string v4 +:+ "/32" | _, _ => ip_string ip +:+ "/128" end
    end
  end.
Definition listingICMPType (s : string) : string := if str_eqb s "host-prohibited" then "3/10" else s.

Definition listing_words `{Net} (f : Family) : list string -> list string :=
  fix go args :=
    match args with
    | [] => []
    | a :: [] => [a]
    | a :: ((v :: rest) as tail) =>
      let next := match rest with w :: _ => w | [] => "" end in
      if str_eqb a "-d" || str_eqb a "-s" then a :: listingAddr v f :: go rest
      else if str_eqb a "-p" && (str_eqb next "--dport" || str_eqb next "--sport") then a :: v :: "-m" :: v :: go rest
      else if str_eqb a "-p" && str_eqb v "icmp" && str_eqb next "--icmp-type" then a :: "icmp" :: "-m" :: "icmp" :: go rest
      else if str_eqb a "--icmp-type" then a :: listingICMPType v :: go rest
      else a :: go tail
    end.
Definition listingLine `{Net} (args : list string) (f : Family) : string := JoinWith (listing_words f args) " ".
Definition Listing `{Net} (rules : list Rule) (f : Family) : list string :=
  ("-N " +:+ Chain) :: ((fun r => listingLine (r_Args r) f) <$> of_family f rules).
Definition nonblank (l : list string) : list string := filter (fun s => is_empty s = false) (TrimSpace <$> l).
Definition ListingMatches `{Net} (rules : list Rule) (f : Family) (live : string) : bool :=
  bool_decide (nonblank (Split live NL) = Listing rules f).

(** * The jump into the chain *)

Definition JumpRule : string := "-A OUTPUT -j " +:+ Chain.

Fixpoint jump_first (lines : list string) (first ok : bool) : bool :=
  match lines with
  | [] => ok
  | l :: lines =>
    let line := TrimSpace l in
    if negb (HasPrefix line "-A ") then jump_first lines first ok
    else if negb (HasPrefix line "-A OUTPUT ") then false
    else if first then jump_first lines false (str_eqb line JumpRule)
    else if str_eqb line JumpRule then false
    else jump_first lines false ok
  end.
Definition JumpFirst (listing : string) : bool := jump_first (Split listing NL) true false.

Definition JumpRestoreInput (listing : string) : string :=
  "*filter" +:+ eol
  +:+ foldr (fun line b => if str_eqb (TrimSpace line) JumpRule then "-D OUTPUT -j " +:+ Chain +:+ eol +:+ b else b)
        ("-I OUTPUT 1 -j " +:+ Chain +:+ eol +:+ "COMMIT" +:+ eol) (Split listing NL).

End Egress.
