(* ===== verification/EgressPolicy.v ===== *)
(** What the egress rules let through: the chain [iptables-restore] loads from
    their text, the verdict of its first matching rule, and the policy the rules
    are for; and the place of the jump into the chain. *)

From stdpp Require Import sorting.
From S2P Require Import Prelude Go TreePath ManifestCodec GoText Egress.

Module EgressPolicy.
Import TreePath ManifestCodec GoText Egress.

(** * iptables, as documented *)

Section Packets.
Context `{Net}.

(** A packet leaving the guest, as far as the rules ask. *)
Record packet := MkPacket { k_dst : Address; k_out : string; k_proto : string; k_dport : Z; k_icmp : string; k_state : string }.

(** [-d]: a network holds its addresses, an address is itself. *)
Definition addressed (v : string) (a : Address) : bool :=
  match ParseCIDR v with
  | Some n => Contains n a
  | None => match ParseIP v with Some ip => SameIP ip a | None => false end
  end.

(** The conditions of a rule's argv and its target; [None] for an option the
    rules do not use. [-m] loads a match and asks nothing by itself. *)
Definition asks (o v : string) (k : packet) : option bool :=
  if str_eqb o "-d" then Some (addressed v (k_dst k))
  else if str_eqb o "-o" then Some (str_eqb (k_out k) v)
  else if str_eqb o "-p" then Some (str_eqb (k_proto k) v)
  else if str_eqb o "--dport" then Some (bool_decide (Atoi v = Some (k_dport k)))
  else if str_eqb o "--icmp-type" then Some (str_eqb (k_icmp k) v)
  else if str_eqb o "--ctstate" then Some (str_eqb (k_state k) v)
  else if str_eqb o "-m" then Some true
  else None.
Fixpoint reads (args : list string) (k : packet) : option (bool * string) :=
  match args with
  | o :: v :: args =>
    if str_eqb o "-j" then
      match args with
      | [] => Some (true, v)
      | [w; _] => if str_eqb w "--reject-with" then Some (true, v) else None
      | _ => None
      end
    else match asks o v k, reads args k with Some b, Some (c, t) => Some (b && c, t) | _, _ => None end
  | _ => None
  end.

(** The target of the first rule that matches; a packet none matches goes back
    to [OUTPUT], whose policy is to accept. *)
Fixpoint verdict (chain : list (list string)) (k : packet) : option string :=
  match chain with
  | [] => None
  | args :: chain => match reads args k with Some (true, t) => Some t | _ => verdict chain k end
  end.
Definition leaves (chain : list (list string)) (k : packet) : bool :=
  match verdict chain k with None => true | Some t => str_eqb t "ACCEPT" end.
End Packets.
Arguments packet {_}.

(** What [iptables-restore --noflush] makes of the chain: the declaration
    empties it, each [-A] line appends its words, [COMMIT] applies. *)
Fixpoint appended (lines : list string) : option (list (list string)) :=
  match lines with
  | [] => None
  | l :: lines =>
    if str_eqb l "COMMIT" then Some []
    else match Split l " " with
         | a :: c :: args => if str_eqb a "-A" && str_eqb c Chain then cons args <$> appended lines else None
         | _ => None
         end
  end.
Definition loads (text : string) : option (list (list string)) :=
  match Split text NL with
  | t :: d :: lines => if str_eqb t "*filter" && str_eqb d declared then appended lines else None
  | _ => None
  end.

(** The [OUTPUT] chain: its rules after [-A OUTPUT], as [iptables -S OUTPUT]
    prints them, and what a commit of deletions and insertions leaves of them;
    a deletion that finds no such rule refuses the commit. *)
Definition output_listing (rules : list string) : string :=
  "-P OUTPUT ACCEPT" +:+ eol +:+ foldr (fun r b => "-A OUTPUT " +:+ r +:+ eol +:+ b) "" rules.
Fixpoint without_first (r : string) (rules : list string) : option (list string) :=
  match rules with [] => None | x :: rules => if str_eqb x r then Some rules else cons x <$> without_first r rules end.
Fixpoint committed (lines rules : list string) : option (list string) :=
  match lines with
  | [] => None
  | l :: lines =>
    if str_eqb l "COMMIT" then Some rules
    else match CutPrefix l "-D OUTPUT ", CutPrefix l "-I OUTPUT 1 " with
         | (r, true), _ => match without_first r rules with Some rules => committed lines rules | None => None end
         | _, (r, true) => committed lines (r :: rules)
         | _, _ => None
         end
  end.
Definition restored (text : string) (rules : list string) : option (list string) :=
  match Split text NL with t :: lines => if str_eqb t "*filter" then committed lines rules else None | [] => None end.

(** * The policy *)

Section Policy.
Context `{Net} (aliasV4 aliasV6 : string) (allowedPorts : list Z) (dns : list DNSForward) (closed : bool).

Definition alias (f : Family) : string := match f with IPv4 => aliasV4 | IPv6 => aliasV6 end.
Definition to_alias (f : Family) (k : packet) : bool := negb (is_empty (alias f)) && addressed (alias f) (k_dst k).
Definition allowed_port (k : packet) : bool := str_eqb (k_proto k) "tcp" && bool_decide (k_dport k ∈ allowedPorts).
Definition resolver (k : packet) : bool := existsb (fun d => str_eqb (k_proto k) (f_Proto d) && (k_dport k =? f_Port d)) dns.
Definition in_any (nets : list string) (k : packet) : bool := existsb (fun c => addressed c (k_dst k)) nets.
Definition reject_answer (k : packet) : bool :=
  str_eqb (k_out k) "lo" && str_eqb (k_proto k) "icmp" && str_eqb (k_icmp k) "host-prohibited" && str_eqb (k_state k) "RELATED".

(** Over loopback anything while the internet is closed; to the host only the
    allowed ports, the resolver while it is open, and answers; elsewhere, while
    it is open, whatever is not private, and the guest's own refusals. *)
Definition reaches (f : Family) (k : packet) : bool :=
  if closed && str_eqb (k_out k) "lo" then true
  else if to_alias f k then
    allowed_port k || (match f with IPv4 => negb closed && resolver k | IPv6 => false end) || str_eqb (k_state k) "ESTABLISHED"
  else
    negb closed &&
    match f with
    | IPv4 => reject_answer k || negb (in_any ((MetadataV4 +:+ "/32") :: privateV4) k)
    | IPv6 => negb (in_any ipv6Local k)
    end.
End Policy.

(** * The chain of the rules *)

Definition chain_of (rules : list Rule) (f : Family) : list (list string) := (fun r => drop 2 (r_Args r)) <$> of_family f rules.

(** A rule list whose lines keep their words. *)
Definition word (s : string) : bool := free " " s && free NL s.
Definition spelled (r : Rule) : Prop := exists args, r_Args r = out args /\ Forall (fun w => word w = true) args.

Lemma of_family_Forall (P : Rule -> Prop) f rules : Forall P rules -> Forall P (of_family f rules).
Proof. induction 1; unfold of_family; [done|]. rewrite filter_cons. case_decide; [by constructor|done]. Qed.

Lemma eol_app x : eol +:+ x = String NL x.
Proof. reflexivity. Qed.

Lemma join_out args : JoinWith (out args) " " = "-A" +:+ String " " (JoinWith (Chain :: args) " ").
Proof. by destruct args. Qed.

Lemma appended_rules rules f : Forall spelled rules ->
  appended (Split (foldr (fun r b => JoinWith (r_Args r) " " +:+ eol +:+ b) ("COMMIT" +:+ eol) (of_family f rules)) NL)
  = Some (chain_of rules f).
Proof.
  unfold chain_of. intros Hr.
  assert (Hf : Forall spelled (of_family f rules)) by by apply of_family_Forall.
  revert Hf. generalize (of_family f rules) as l. intros l Hl. induction Hl as [|r l (args & Er & Hw) Hl IH]; [reflexivity|].
  assert (Hs : Forall (fun s => free " " s = true) (out args)).
  { repeat constructor. eapply Forall_impl; [exact Hw|]. by intros x [? ?]%andb_prop. }
  assert (Hn : free NL (JoinWith (out args) " ") = true).
  { apply free_join; [done|]. repeat constructor. eapply Forall_impl; [exact Hw|]. by intros x [? ?]%andb_prop. }
  cbn [foldr fmap list_fmap]. rewrite Er. rewrite eol_app, Split_app by done. cbn [appended].
  rewrite join_out at 1. change (str_eqb ("-A" +:+ String " " (JoinWith (Chain :: args) " ")) "COMMIT") with false. cbn match.
  rewrite Split_join by done. cbn [out app]. change (str_eqb "-A" "-A" && str_eqb Chain Chain) with true. cbn match.
  rewrite IH. reflexivity.
Qed.

Lemma loads_rules rules f : Forall spelled rules -> loads (RestoreInput rules f) = Some (chain_of rules f).
Proof.
  intros Hr. unfold loads, RestoreInput. rewrite eol_app, Split_app by done. rewrite eol_app, Split_app by done.
  cbn -[appended]. by apply appended_rules.
Qed.

Lemma chain_app a b f : chain_of (a ++ b) f = chain_of a f ++ chain_of b f.
Proof. unfold chain_of, of_family. by rewrite filter_app, fmap_app. Qed.

Lemma chain_map {A} (l : list A) g (h : A -> list string) f :
  chain_of ((fun a => MkRule g (out (h a))) <$> l) f = if decide (g = f) then h <$> l else [].
Proof.
  induction l as [|a l IH]; [by case_decide|]. cbn [fmap list_fmap].
  change (MkRule g (out (h a)) :: ?t) with ([MkRule g (out (h a))] ++ t). rewrite chain_app, IH. by destruct g, f.
Qed.

Lemma chain_ports v4 v6 ports f :
  chain_of (ports ≫= port_rules v4 v6) f
  = if is_empty (alias v4 v6 f) then [] else (fun p => ["-d"; alias v4 v6 f; "-p"; "tcp"; "--dport"; Itoa p; "-j"; "ACCEPT"]) <$> ports.
Proof.
  induction ports as [|p ports IH]; [by destruct (is_empty _)|]. cbn [mbind list_bind fmap list_fmap]. rewrite chain_app, IH. unfold port_rules.
  rewrite chain_app. destruct f; cbn [alias]; destruct (is_empty v4), (is_empty v6); reflexivity.
Qed.

Lemma reads_cons `{Net} o v args k b c t :
  str_eqb o "-j" = false -> asks o v k = Some b -> reads args k = Some (c, t) -> reads (o :: v :: args) k = Some (b && c, t).
Proof. intros Ho Ha Hr. cbn [reads]. by rewrite Ho, Ha, Hr. Qed.

(** Reads a rule's argv off, condition by condition. *)
Ltac read_rule := repeat (eapply reads_cons; [reflexivity|reflexivity|]); reflexivity.

Section Verdicts.
Context `{Net}.

Lemma verdict_app a b k : verdict (a ++ b) k = match verdict a k with Some t => Some t | None => verdict b k end.
Proof. induction a as [|args a IH]; [done|]. cbn [verdict app]. by destruct (reads args k) as [[[] t]|]. Qed.

(** Rules of one target: it is reached when one of them matches. *)
Lemma verdict_same {A} (h : A -> list string) (q : A -> bool) t l k :
  Forall (fun a => reads (h a) k = Some (q a, t)) l -> verdict (h <$> l) k = if existsb q l then Some t else None.
Proof. induction 1 as [|a l Ha Hl IH]; [done|]. cbn [fmap list_fmap verdict existsb]. rewrite Ha, IH. by destruct (q a). Qed.

Lemma existsb_sorted (q : Z -> bool) l : existsb q (merge_sort Z.le l) = existsb q l.
Proof.
  apply eq_true_iff_eq. rewrite !existsb_exists. split; intros (x & Hx%list_elem_of_In & Hq); exists x; (split; [|done]); apply list_elem_of_In.
  - by rewrite <- (merge_sort_Permutation Z.le l).
  - by rewrite (merge_sort_Permutation Z.le l).
Qed.

Lemma existsb_and {A} a (q : A -> bool) l : existsb (fun p => a && q p) l = a && existsb q l.
Proof. induction l as [|p l IH]; cbn [existsb]; [by rewrite andb_false_r|]. rewrite IH. by destruct a. Qed.

Lemma existsb_member (x : Z) l : existsb (fun p => bool_decide (p = x)) l = bool_decide (x ∈ l).
Proof.
  apply eq_true_iff_eq. rewrite existsb_exists, bool_decide_eq_true, list_elem_of_In. split.
  - by intros (y & Hy & ->%bool_decide_eq_true).
  - intros Hx. exists x. split; [done|]. by apply bool_decide_eq_true.
Qed.
End Verdicts.

(** * The rules are the policy *)

Section Built.
Context `{Net} (v4 v6 : string) (ports : list Z) (dns : list DNSForward) (closed : bool).
Hypothesis Hports : Forall int64_range ports.
Hypothesis Hdns : Forall (fun d => int64_range (f_Port d)) dns.
Abbreviation rules := (BuildRulesDNS v4 v6 ports closed dns).
Abbreviation al f := (alias v4 v6 f).

Lemma ports_verdict f k :
  verdict (if is_empty (al f) then [] else (fun p => ["-d"; al f; "-p"; "tcp"; "--dport"; Itoa p; "-j"; "ACCEPT"]) <$> merge_sort Z.le ports) k
  = if to_alias v4 v6 f k && allowed_port ports k then Some "ACCEPT" else None.
Proof.
  unfold to_alias, allowed_port. destruct (is_empty (al f)); [done|]. cbn [negb andb].
  rewrite (verdict_same _ (fun p => addressed (al f) (k_dst k) && (str_eqb (k_proto k) "tcp" && bool_decide (p = k_dport k))) "ACCEPT").
  - by rewrite existsb_sorted, !existsb_and, existsb_member.
  - assert (Hs : Forall int64_range (merge_sort Z.le ports)) by by rewrite merge_sort_Permutation.
    eapply Forall_impl; [exact Hs|]. intros p Hp. simpl. rewrite Atoi_Itoa by done. rewrite !andb_true_r. do 4 f_equal.
    apply bool_decide_ext. naive_solver.
Qed.

Lemma dns_verdict k :
  verdict (if negb closed && negb (is_empty v4) then (fun d => ["-d"; v4; "-p"; f_Proto d; "--dport"; Itoa (f_Port d); "-j"; "ACCEPT"]) <$> dns else []) k
  = if negb closed && to_alias v4 v6 IPv4 k && resolver dns k then Some "ACCEPT" else None.
Proof.
  unfold to_alias, resolver. cbn [alias]. destruct closed; [done|]. destruct (is_empty v4); [done|]. cbn [negb andb].
  rewrite (verdict_same _ (fun d => addressed v4 (k_dst k) && (str_eqb (k_proto k) (f_Proto d) && (k_dport k =? f_Port d))) "ACCEPT").
  - by rewrite existsb_and.
  - eapply Forall_impl; [exact Hdns|]. intros d Hp. simpl. rewrite Atoi_Itoa by done. rewrite !andb_true_r. do 4 f_equal.
    apply eq_true_iff_eq. rewrite bool_decide_eq_true, Z.eqb_eq. split; [by intros [= ->]|by intros ->].
Qed.

(** The verdict of the rest, rule list by rule list. *)
Lemma drops_verdict nets k :
  verdict ((fun c => ["-d"; c; "-j"; "DROP"]) <$> nets) k = if in_any nets k then Some "DROP" else None.
Proof.
  unfold in_any. apply verdict_same. apply list.Forall_forall. intros c _. simpl. by rewrite andb_true_r.
Qed.

Lemma reject_verdict k rest :
  verdict (rejectReplyAccept :: metadataReject :: rest) k
  = if reject_answer k then Some "ACCEPT" else if addressed (MetadataV4 +:+ "/32") (k_dst k) then Some "REJECT" else verdict rest k.
Proof.
  assert (Ea : reads rejectReplyAccept k = Some (reject_answer k, "ACCEPT")).
  { transitivity (Some (str_eqb (k_out k) "lo" && (str_eqb (k_proto k) "icmp" && (str_eqb (k_icmp k) "host-prohibited"
      && (true && (str_eqb (k_state k) "RELATED" && true)))), "ACCEPT")); [read_rule|].
    unfold reject_answer. by rewrite <- !andb_assoc, andb_true_r. }
  assert (Em : reads metadataReject k = Some (addressed (MetadataV4 +:+ "/32") (k_dst k), "REJECT")).
  { rewrite <- (andb_true_r (addressed _ _)). read_rule. }
  cbn [verdict]. rewrite Ea, Em. by destruct (reject_answer k), (addressed _ _).
Qed.

Lemma rules_chain f :
  chain_of rules f =
  (if closed then [["-o"; "lo"; "-j"; "ACCEPT"]] else [])
  ++ (if is_empty (al f) then [] else (fun p => ["-d"; al f; "-p"; "tcp"; "--dport"; Itoa p; "-j"; "ACCEPT"]) <$> merge_sort Z.le ports)
  ++ match f with
     | IPv4 => if negb closed && negb (is_empty v4)
               then (fun d => ["-d"; v4; "-p"; f_Proto d; "--dport"; Itoa (f_Port d); "-j"; "ACCEPT"]) <$> dns else []
     | IPv6 => []
     end
  ++ (if is_empty (al f) then [] else [["-d"; al f; "-m"; "conntrack"; "--ctstate"; "ESTABLISHED"; "-j"; "ACCEPT"]; ["-d"; al f; "-j"; "DROP"]])
  ++ match f with
     | IPv4 => rejectReplyAccept :: metadataReject :: ((fun c => ["-d"; c; "-j"; "DROP"]) <$> privateV4)
     | IPv6 => (fun c => ["-d"; c; "-j"; "DROP"]) <$> ipv6Local
     end
  ++ (if closed then [["-j"; "DROP"]] else []).
Proof.
  unfold BuildRulesDNS. rewrite !chain_app, chain_ports. f_equal; [by destruct closed, f|]. f_equal.
  destruct f; cbn [alias]; destruct closed, (is_empty v4), (is_empty v6); cbn [negb andb]; rewrite ?chain_map; reflexivity.
Qed.

Lemma alias_verdict f k :
  verdict (if is_empty (al f) then [] else [["-d"; al f; "-m"; "conntrack"; "--ctstate"; "ESTABLISHED"; "-j"; "ACCEPT"]; ["-d"; al f; "-j"; "DROP"]]) k
  = if to_alias v4 v6 f k then Some (if str_eqb (k_state k) "ESTABLISHED" then "ACCEPT" else "DROP") else None.
Proof.
  unfold to_alias. destruct (is_empty (al f)); [done|]. cbn [verdict negb andb].
  assert (E1 : reads ["-d"; al f; "-m"; "conntrack"; "--ctstate"; "ESTABLISHED"; "-j"; "ACCEPT"] k
    = Some (addressed (al f) (k_dst k) && (true && (str_eqb (k_state k) "ESTABLISHED" && true)), "ACCEPT")) by read_rule.
  assert (E2 : reads ["-d"; al f; "-j"; "DROP"] k = Some (addressed (al f) (k_dst k) && true, "DROP")) by read_rule.
  rewrite E1, E2, !andb_true_r. by destruct (addressed _ _), (str_eqb _ _).
Qed.

Lemma loopback_verdict k :
  verdict (if closed then [["-o"; "lo"; "-j"; "ACCEPT"]] else []) k = if closed && str_eqb (k_out k) "lo" then Some "ACCEPT" else None.
Proof.
  destruct closed; [|done]. cbn [verdict]. assert (E : reads ["-o"; "lo"; "-j"; "ACCEPT"] k = Some (str_eqb (k_out k) "lo" && true, "ACCEPT")) by read_rule.
  rewrite E, andb_true_r. by destruct (str_eqb _ _).
Qed.

Lemma built_verdict f k : leaves (chain_of rules f) k = reaches v4 v6 ports dns closed f k.
Proof.
  unfold leaves, reaches. rewrite rules_chain, !verdict_app, ports_verdict, loopback_verdict, alias_verdict.
  assert (Ec : verdict (if closed then [["-j"; "DROP"]] else []) k = if closed then Some "DROP" else None) by by destruct closed.
  rewrite Ec. destruct (closed && str_eqb (k_out k) "lo") eqn:El; [done|]. destruct f.
  - rewrite dns_verdict, reject_verdict, drops_verdict. destruct (to_alias v4 v6 IPv4 k); cbn [andb].
    + destruct (allowed_port ports k); [done|]. rewrite andb_true_r. destruct (negb closed && resolver dns k); [done|]. by destruct (str_eqb (k_state k) "ESTABLISHED").
    + rewrite andb_false_r. cbn [andb]. destruct (reject_answer k) eqn:Er; cbn [orb].
      * unfold reject_answer in Er. rewrite <- !andb_assoc in Er. apply andb_prop in Er as [Eo _]. rewrite Eo in El. by destruct closed.
      * change (in_any ((MetadataV4 +:+ "/32") :: privateV4) k) with (addressed (MetadataV4 +:+ "/32") (k_dst k) || in_any privateV4 k).
        destruct (addressed _ _), (in_any privateV4 k), closed; reflexivity.
  - rewrite drops_verdict. destruct (to_alias v4 v6 IPv6 k); cbn [andb].
    + destruct (allowed_port ports k); [done|]. by destruct (str_eqb (k_state k) "ESTABLISHED").
    + by destruct (in_any ipv6Local k), closed.
Qed.

End Built.

(** * The text of the rules *)

Lemma spelled_out g args : Forall (fun w => word w = true) args -> spelled (MkRule g (out args)).
Proof. intros ?. by exists args. Qed.

Lemma word_Itoa v : int64_range v -> word (Itoa v) = true.
Proof.
  intros Hv. destruct (format_int_digits v Hv) as (s & d & -> & Hs & Hd). unfold word. rewrite !free_app, !(digits_free _ d) by done.
  by destruct Hs as [-> | ->].
Qed.

Lemma Forall_bind {A B} (P : B -> Prop) (g : A -> list B) l : Forall (fun a => Forall P (g a)) l -> Forall P (l ≫= g).
Proof. induction 1; [done|]. cbn. by apply Forall_app. Qed.

(** Rules written out: each word is one by hypothesis or by computation. *)
Ltac some_rules := repeat first [by apply List.Forall_nil | apply List.Forall_cons | apply spelled_out | assumption | reflexivity].

(** Every rule is spelled with words when the aliases and protocols are words. *)
Lemma built_spelled v4 v6 ports dns closed :
  word v4 = true -> word v6 = true -> Forall int64_range ports -> Forall (fun d => word (f_Proto d) = true /\ int64_range (f_Port d)) dns ->
  Forall spelled (BuildRulesDNS v4 v6 ports closed dns).
Proof.
  intros H4 H6 Hp Hd.
  assert (Hc : forall g nets, Forall (fun w => word w = true) nets -> Forall spelled ((fun c => MkRule g (out ["-d"; c; "-j"; "DROP"])) <$> nets)).
  { intros g nets. induction 1; constructor; [some_rules|done]. }
  unfold BuildRulesDNS. repeat (apply Forall_app; split).
  2: { assert (Hm : Forall int64_range (merge_sort Z.le ports)) by by rewrite merge_sort_Permutation. apply Forall_bind.
       eapply Forall_impl; [exact Hm|]. intros p Hi. pose proof (word_Itoa p Hi). apply Forall_app; split; destruct (is_empty _); some_rules. }
  2: { destruct (negb closed && negb (is_empty v4)); [|done]. induction Hd as [|d l [? Hi] ? IH]; [done|].
       pose proof (word_Itoa _ Hi). constructor; [some_rules|done]. }
  8: by apply Hc; repeat constructor.
  7: by apply Hc; repeat constructor.
  all: try destruct closed; try destruct (is_empty _); some_rules.
Qed.

(** ** The jump *)

Definition jump : string := "-j " +:+ Chain.
Definition listed (r : string) : Prop := free NL r = true /\ TrimSpace ("-A OUTPUT " +:+ r) = "-A OUTPUT " +:+ r.

Lemma output_lines rules : Forall listed rules ->
  Split (output_listing rules) NL = "-P OUTPUT ACCEPT" :: ((fun r => "-A OUTPUT " +:+ r) <$> rules) ++ [""].
Proof.
  intros Hr. unfold output_listing. rewrite eol_app, Split_app by done. f_equal. induction Hr as [|r rules [Hr _] _ IH]; [done|].
  cbn [foldr fmap list_fmap app]. rewrite eol_app. rewrite <- IH, <- (Split_app ("-A OUTPUT " +:+ r)) by by rewrite free_app, Hr. by rewrite str_app_assoc.
Qed.

Lemma app_left_inj (p a b : string) : p +:+ a = p +:+ b -> a = b.
Proof. induction p as [|c p IH]; [done|]. intros [= E]. by apply IH. Qed.

Lemma jump_line r : str_eqb ("-A OUTPUT " +:+ r) JumpRule = str_eqb r jump.
Proof.
  change JumpRule with ("-A OUTPUT " +:+ jump). apply eq_true_iff_eq. rewrite !str_eqb_eq. split; [apply app_left_inj|by intros ->].
Qed.

Lemma deletions rules : Forall listed rules ->
  foldr (fun line b => if str_eqb (TrimSpace line) JumpRule then "-D OUTPUT -j " +:+ Chain +:+ eol +:+ b else b)
    ("-I OUTPUT 1 -j " +:+ Chain +:+ eol +:+ "COMMIT" +:+ eol) (Split (output_listing rules) NL)
  = foldr (fun r b => if str_eqb r jump then "-D OUTPUT -j " +:+ Chain +:+ eol +:+ b else b)
    ("-I OUTPUT 1 -j " +:+ Chain +:+ eol +:+ "COMMIT" +:+ eol) rules.
Proof.
  intros Hr. rewrite output_lines by done. cbn [foldr].
  change (str_eqb (TrimSpace "-P OUTPUT ACCEPT") JumpRule) with false. cbn match.
  induction Hr as [|r rules [_ Ht] _ IH]; [reflexivity|]. cbn [fmap list_fmap app foldr]. by rewrite Ht, jump_line, IH.
Qed.

Lemma insertion_commits rules :
  committed (Split ("-I OUTPUT 1 -j " +:+ Chain +:+ eol +:+ "COMMIT" +:+ eol) NL) rules = Some (jump :: rules).
Proof. reflexivity. Qed.

(** Each listed jump asks for one deletion. *)
Lemma deletions_commit seen rules :
  committed (Split (foldr (fun r b => if str_eqb r jump then "-D OUTPUT -j " +:+ Chain +:+ eol +:+ b else b)
    ("-I OUTPUT 1 -j " +:+ Chain +:+ eol +:+ "COMMIT" +:+ eol) seen) NL) rules
  = cons jump <$> foldr (fun r acc => if str_eqb r jump then (acc ≫= without_first jump) else acc) (Some rules) (reverse seen).
Proof.
  revert rules. induction seen as [|r seen IH]; intros rules; [apply insertion_commits|]. cbn [foldr].
  rewrite reverse_cons, foldr_app. cbn [foldr]. destruct (str_eqb r jump); [|apply IH].
  change ("-D OUTPUT -j " +:+ Chain +:+ eol +:+ ?b) with (("-D OUTPUT -j " +:+ Chain) +:+ String NL b). rewrite Split_app by done. cbn [committed].
  change (str_eqb ("-D OUTPUT -j " +:+ Chain) "COMMIT") with false. cbn match.
  change (CutPrefix ("-D OUTPUT -j " +:+ Chain) "-D OUTPUT ") with (jump, true). cbn match. cbn [mbind option_bind].
  destruct (without_first jump rules) as [rules'|]; [apply IH|]. clear. induction (reverse seen) as [|r l IH]; [done|]. cbn [foldr].
  destruct (str_eqb r jump); [|done]. destruct (foldr _ None l); done.
Qed.

Definition jumps (rules : list string) : nat := length (filter (fun r => r = jump) rules).
Abbreviation drop_jump := (fun o : option (list string) => o ≫= without_first jump).

Lemma jumps_cons r rules : jumps (r :: rules) = if str_eqb r jump then S (jumps rules) else jumps rules.
Proof. unfold jumps, str_eqb. rewrite filter_cons. by repeat case_decide || case_bool_decide. Qed.

Lemma removals_iter l acc :
  foldr (fun r acc => if str_eqb r jump then (acc ≫= without_first jump) else acc) acc l = Nat.iter (jumps l) drop_jump acc.
Proof. induction l as [|r l IH]; [done|]. rewrite jumps_cons. cbn [foldr]. rewrite IH. by destruct (str_eqb r jump). Qed.

Lemma jumps_reverse l : jumps (reverse l) = jumps l.
Proof. unfold jumps. by rewrite (reverse_Permutation l). Qed.

Lemma iter_none n : Nat.iter n drop_jump None = None.
Proof. induction n as [|n IH]; [done|]. change (Nat.iter (S n) drop_jump None) with (Nat.iter n drop_jump None ≫= without_first jump). by rewrite IH. Qed.

Lemma iter_other n r rules : str_eqb r jump = false ->
  Nat.iter n drop_jump (Some (r :: rules)) = cons r <$> Nat.iter n drop_jump (Some rules).
Proof.
  intros Hr. induction n as [|n IH]; [done|]. change (Nat.iter (S n) drop_jump ?x) with (Nat.iter n drop_jump x ≫= without_first jump).
  rewrite IH. destruct (Nat.iter n drop_jump (Some rules)) as [l|]; [|done]. cbn. by rewrite Hr.
Qed.

Lemma iter_jump n rules : Nat.iter (S n) drop_jump (Some (jump :: rules)) = Nat.iter n drop_jump (Some rules).
Proof. by rewrite Nat.iter_succ_r. Qed.

Lemma iter_all rules : Nat.iter (jumps rules) drop_jump (Some rules) = Some (filter (fun r => r <> jump) rules).
Proof.
  induction rules as [|r rules IH]; [done|]. rewrite jumps_cons, filter_cons. destruct (str_eqb r jump) eqn:Er.
  - apply str_eqb_eq in Er as ->. by rewrite iter_jump, decide_False by auto.
  - rewrite iter_other, IH by done. apply str_eqb_neq in Er. by rewrite decide_True.
Qed.

Lemma iter_more n rules : (jumps rules < n)%nat -> Nat.iter n drop_jump (Some rules) = None.
Proof.
  revert n. induction rules as [|r rules IH]; intros n.
  - destruct n as [|n]; [unfold jumps; cbn; lia|]. intros _. rewrite Nat.iter_succ_r. apply iter_none.
  - rewrite jumps_cons. destruct (str_eqb r jump) eqn:Er.
    + apply str_eqb_eq in Er as ->. destruct n as [|n]; [lia|]. intros ?. rewrite iter_jump. apply IH. lia.
    + intros ?. rewrite iter_other by done. by rewrite IH.
Qed.

Lemma restore_jump seen rules : Forall listed seen ->
  restored (JumpRestoreInput (output_listing seen)) rules = cons jump <$> Nat.iter (jumps seen) drop_jump (Some rules).
Proof.
  intros Hs. unfold JumpRestoreInput. rewrite deletions by done. rewrite eol_app. unfold restored. rewrite Split_app by done.
  cbn match. rewrite deletions_commit, removals_iter. by rewrite jumps_reverse.
Qed.

Lemma jump_first_rest rules ok : Forall listed rules ->
  jump_first (((fun r => "-A OUTPUT " +:+ r) <$> rules) ++ [""]) false ok = ok && bool_decide (jump ∉ rules).
Proof.
  induction 1 as [|r rules [_ Ht] _ IH]; [by destruct ok|]. cbn [fmap list_fmap app jump_first]. rewrite Ht.
  change ("-A OUTPUT " +:+ r) with ("-A " +:+ ("OUTPUT " +:+ r)) at 1. rewrite !HasPrefix_app. cbn [negb]. rewrite jump_line, IH.
  destruct (str_eqb r jump) eqn:Er.
  - apply str_eqb_eq in Er as ->. rewrite bool_decide_eq_false_2; [by rewrite andb_false_r|]. set_solver.
  - apply str_eqb_neq in Er. f_equal. apply bool_decide_ext. set_solver.
Qed.

Lemma JumpFirst_listing rules : Forall listed rules ->
  JumpFirst (output_listing rules) = match rules with r :: rest => str_eqb r jump && bool_decide (jump ∉ rest) | [] => false end.
Proof.
  intros Hr. unfold JumpFirst. rewrite output_lines by done. cbn [jump_first].
  change (negb (HasPrefix (TrimSpace "-P OUTPUT ACCEPT") "-A ")) with true. cbn match.
  destruct Hr as [|r rules [_ Ht] Hr]; [done|]. cbn [fmap list_fmap app jump_first]. rewrite Ht.
  change ("-A OUTPUT " +:+ r) with ("-A " +:+ ("OUTPUT " +:+ r)) at 1. rewrite !HasPrefix_app. cbn [negb]. rewrite jump_line.
  by apply jump_first_rest.
Qed.

(** * What the rules do *)

(** C27: The text of the rules, once [iptables-restore] has read it, lets a packet
    leave exactly when the policy says it may reach its address: the allows come
    before the drops, and a closed jail falls into the last rule. *)
Theorem loaded_rules_are_the_policy `{Net} v4 v6 ports dns closed f :
  word v4 = true -> word v6 = true -> Forall int64_range ports ->
  Forall (fun d => word (f_Proto d) = true /\ int64_range (f_Port d)) dns ->
  exists chain, loads (RestoreInput (BuildRulesDNS v4 v6 ports closed dns) f) = Some chain
    /\ forall k, leaves chain k = reaches v4 v6 ports dns closed f k.
Proof.
  intros H4 H6 Hp Hd. eexists. split; [apply loads_rules; by apply built_spelled|].
  intros k. apply built_verdict; [done|]. eapply Forall_impl; [exact Hd|]. by intros d [_ ?].
Qed.

(** An address [DroppedForJail] accepts is out of the jail's reach in both
    postures: no packet leaves for it, save over loopback or to the host alias. *)
Theorem dropped_for_jail_is_dropped `{Net} v4 v6 ports dns closed k :
  Forall int64_range ports -> Forall (fun d => int64_range (f_Port d)) dns ->
  let f := match To4 (k_dst k) with None => IPv6 | Some _ => IPv4 end in
  DroppedForJail (k_dst k) = true -> k_out k <> "lo" -> to_alias v4 v6 f k = false ->
  leaves (chain_of (BuildRulesDNS v4 v6 ports closed dns) f) k = false.
Proof.
  intros Hp Hd f Hj Ho Ha. rewrite built_verdict by done. unfold reaches. rewrite Ha.
  apply str_eqb_neq in Ho. rewrite Ho, andb_false_r.
  assert (Hin : forall nets, existsb (fun c => match ParseCIDR c with Some n => Contains n (k_dst k) | None => false end) nets = true -> in_any nets k = true).
  { intros nets (c & Hc & E)%existsb_exists. apply existsb_exists. exists c. split; [done|]. unfold addressed. by destruct (ParseCIDR c). }
  unfold DroppedForJail in Hj. subst f. destruct (To4 (k_dst k)); apply Hin in Hj.
  - unfold reject_answer. rewrite Ho. cbn [andb orb].
    change (in_any ((MetadataV4 +:+ "/32") :: privateV4) k) with (addressed (MetadataV4 +:+ "/32") (k_dst k) || in_any privateV4 k).
    rewrite Hj, orb_true_r. apply andb_false_r.
  - rewrite Hj. apply andb_false_r.
Qed.

(** Restoring what [JumpRestoreInput] writes for a listing: when the listing is
    true of the chain, [OUTPUT] then jumps first, once, with its other rules as
    they were, and [JumpFirst] says so of the new listing; when the listing has
    more jumps than the chain, the commit is refused. *)
Theorem jump_is_placed seen rules : Forall listed seen ->
  (seen = rules ->
   let placed := jump :: filter (fun r => r <> jump) rules in
   restored (JumpRestoreInput (output_listing seen)) rules = Some placed /\ JumpFirst (output_listing placed) = true)
  /\ ((jumps rules < jumps seen)%nat -> restored (JumpRestoreInput (output_listing seen)) rules = None).
Proof.
  intros Hs. rewrite restore_jump by done. split.
  - intros -> placed. rewrite iter_all. split; [done|]. unfold placed. rewrite JumpFirst_listing.
    + rewrite str_eqb_refl. apply bool_decide_eq_true. by intros [? _]%list_elem_of_filter.
    + constructor; [by split|]. induction Hs as [|r l Hr _ IH]; [done|]. rewrite filter_cons. case_decide; [by constructor|done].
  - intros Hm. by rewrite iter_more.
Qed.

(** Every resolver target read from the nat table names its protocol and a port
    there is, on the alias. *)
Theorem dnat_targets_are_ports out aliasV4 :
  Forall (fun d => (f_Proto d = "tcp" \/ f_Proto d = "udp") /\ 1 <= f_Port d <= 65535) (ParseDNATTargets out aliasV4).
Proof.
  apply Forall_bind. apply list.Forall_forall. intros line _. unfold dnat_target. destruct (Fields line) as [|w [|w' ws]]; [done..|].
  destruct (negb (str_eqb w "-A")); [done|]. destruct (dnat_words _ _) as [[proto dnat] dest].
  destruct (negb dnat || _) eqn:Ep; [done|]. apply orb_false_iff in Ep as [_ Ep].
  destruct (SplitHostPort dest) as [[host portStr]|]; [|done]. destruct (negb (str_eqb host aliasV4)); [done|].
  destruct (Atoi portStr) as [port|]; [|done]. destruct ((port <? 1) || (65535 <? port)) eqn:Eb; [done|].
  apply orb_false_iff in Eb as [? ?]. constructor; [|done]. cbn. split; [|lia].
  apply andb_false_iff in Ep as [E|E]; apply negb_false_iff, str_eqb_eq in E; auto.
Qed.

(** A live listing matches the rules exactly when its lines, trimmed and without
    the blank ones, are the rules' listing. *)
Lemma ListingMatches_spec `{Net} rules f live :
  ListingMatches rules f live = true <-> nonblank (Split live NL) = Listing rules f.
Proof. apply bool_decide_eq_true. Qed.

Example dnat_lima :
  ParseDNATTargets ("-N LIMADNS" +:+ eol +:+ "-A LIMADNS -d 192.168.5.3/32 -p udp -m udp --dport 53 -j DNAT --to-destination 192.168.5.2:41234" +:+ eol) "192.168.5.2"
  = [MkForward "udp" 41234].
Proof. vm_compute. reflexivity. Qed.

Example jump_example :
  restored (JumpRestoreInput (output_listing ["-o eth1 -j ACCEPT"; jump])) ["-o eth1 -j ACCEPT"; jump] = Some [jump; "-o eth1 -j ACCEPT"].
Proof. vm_compute. reflexivity. Qed.

End EgressPolicy.
