(* ===== verification/AgentLedger.v ===== *)
(** The agent ledger ([internal/agentledger/agentledger.go]) over the record
    files of [internal/hostledger]: every message an agent was authorized to send
    to a contact, and the hub message each authorization was shown as.

    A file is its lines, decoded: [None] is a line a reader skips (torn, too
    long, not JSON). What the file system answers is an input of each operation.
    A ledger directory holds one file per contact with its rotated copy; they are
    in some order. *)

From stdpp Require Import sorting.
From S2P Require Import Prelude Go Token Manifest.

Module AgentLedger.
Import Manifest.

Definition KindInitiated : string := "initiated".
Definition KindReply : string := "reply".
Definition TTL : Duration := 10 * Minute.
Definition SkewBefore : Duration := 10 * Second.
Definition SkewAfter : Duration := 2 * Minute.
Definition RotateCap : Z := 4 * 2 ^ 20.

(** * Names *)

(** A word of [n] lower-case hex digits: [^[0-9a-f]{n}$]. *)
Definition hex_word (n : Z) (s : string) : bool := (len s =? n) && string_forallb is_lower_hex s.
Definition idRE : string -> bool := hex_word 32.
Definition shaRE : string -> bool := hex_word 64.
(** [^[A-Za-z0-9-]{1,64}$]. *)
Definition message_char (c : ascii) : bool :=
  in_range "A" "Z" c || in_range "a" "z" c || in_range "0" "9" c || bool_decide (c = "-"%char).
Definition messageRE (s : string) : bool := (1 <=? len s) && (len s <=? 64) && string_forallb message_char s.
(** [^c-[0-9a-f]{24}\.jsonl$]. *)
Definition fileRE (s : string) : bool :=
  HasPrefix s "c-" && hex_word 24 (String.substring 2 24 s) && str_eqb (drop_bytes 26 s) ".jsonl".

(** [strings.TrimSuffix]. *)
Definition TrimSuffix (s suffix : string) : string :=
  let n := (String.length s - String.length suffix)%nat in
  if str_eqb (drop_bytes n s) suffix then String.substring 0 n s else s.
Definition IsContactFile (name : string) : bool := fileRE (TrimSuffix name ".1").

Definition HashText `{SHA256} (text : string) : string := Token.hex_encode (sha256_sum text).
(** [NewID]; [None] when the randomness fails. *)
Definition NewID (b : option bytes) : option string := Token.hex_encode <$> b.
Definition FileFor `{SHA256, Unicode} (contact : string) : string :=
  "c-" +:+ Token.hex_encode (String.substring 0 12 (sha256_sum (ToLower contact))) +:+ ".jsonl".

(** * Records *)

Record Auth := MkAuth {
  a_ID : string; a_Agent : string; a_Contact : string; a_Kind : string; a_SHA256 : string; a_ReplyTo : string;
  a_Length : Z; a_Created : Time; a_Expires : Time
}.
Record View := MkView { v_ForContact : list Auth; v_LastHour : Z }.
Record Candidate := MkCand { c_MessageID : string; c_SHA256 : string; c_CreatedAt : Time }.

Record line := MkLine {
  ln_V : Z; ln_Op : string; ln_ID : string; ln_Agent : string; ln_Contact : string; ln_Kind : string; ln_SHA256 : string;
  ln_Length : Z; ln_ReplyTo : string; ln_Created : option Time; ln_Expires : option Time; ln_MessageID : string; ln_At : option Time
}.

Definition auth_line (a : Auth) : line :=
  MkLine 1 "auth" (a_ID a) (a_Agent a) (a_Contact a) (a_Kind a) (a_SHA256 a) (a_Length a) (a_ReplyTo a) (Some (a_Created a)) (Some (a_Expires a)) "" None.
Definition shown_line (a : Auth) (m : Candidate) (now : Time) : line :=
  MkLine 1 "shown" (a_ID a) "" "" "" (c_SHA256 m) 0 "" None None (c_MessageID m) (Some now).

(** A contact's record file: what [fileSig] reads of it and of its rotated copy,
    its size, its lines, and the lines of the rotated copy. *)
Record file := MkFile { f_sig : Z; f_size : Z; f_lines : list (option line); f_old : list (option line) }.
Abbreviation Dir := (gmap string file) (only parsing).

(** What is read back of a contact's file; [s_auths] is oldest first. *)
Record contactState := MkState {
  s_auths : list Auth;
  s_byID : gmap string nat;
  s_shown : gmap string line;
  s_used : gmap string string
}.
Definition no_state : contactState := MkState [] ∅ ∅ ∅.

Record stateEntry := MkStateEntry { se_sig : option Z; se_s : contactState }.
Record hourEntry := MkHour { h_sig : option Z; h_created : gmap string (list Time) }.
Record Ledger := MkLedger { l_hours : gmap string hourEntry; l_states : gmap string stateEntry }.
Definition fresh_ledger : Ledger := MkLedger ∅ ∅.

Inductive ledgerError := ErrUnsafe | ErrLock | ErrStat | ErrRead | ErrReadDir | ErrAppend | ErrMalformed.

(** What one append leaves of the file, and its signature and size then: the
    whole line, part of it, nothing, or a rotated file without its line. *)
Inductive wrote := Whole | Torn | Nothing | RotatedOnly.
Record appendFS := MkAppend { ap_wrote : wrote; ap_ok : bool; ap_sig : Z; ap_size : Z }.

(** What one operation meets: the directory check, the lock, listing the
    directory, the signature and the reading of each file, and its appends in
    turn. *)
Record FS := MkFS {
  fs_dir : bool; fs_lock : bool; fs_list : bool;
  fs_sig : string -> bool; fs_read : string -> option ledgerError;
  fs_append : nat -> appendFS
}.

(** * Reading a file *)

Definition read_auth (ln : line) (created expires : Time) : Auth :=
  MkAuth (ln_ID ln) (ln_Agent ln) (ln_Contact ln) (ln_Kind ln) (ln_SHA256 ln) (ln_ReplyTo ln) (ln_Length ln) created expires.
Definition kind_ok (k : string) : bool := str_eqb k KindInitiated || str_eqb k KindReply.

Definition read_line (s : contactState) (raw : option line) : contactState :=
  match raw with
  | None => s
  | Some ln =>
    if negb (ln_V ln =? 1) || negb (idRE (ln_ID ln)) || negb (shaRE (ln_SHA256 ln)) then s
    else if str_eqb (ln_Op ln) "auth" then
      match ln_Created ln, ln_Expires ln with
      | Some created, Some expires =>
        if negb (kind_ok (ln_Kind ln)) then s
        else match s_byID s !! ln_ID ln with
        | Some _ => s
        | None => MkState (s_auths s ++ [read_auth ln created expires]) (<[ln_ID ln := length (s_auths s)]> (s_byID s)) (s_shown s) (s_used s)
        end
      | _, _ => s
      end
    else if str_eqb (ln_Op ln) "shown" then
      if negb (messageRE (ln_MessageID ln)) then s
      else match s_used s !! ln_ID ln, s_shown s !! ln_MessageID ln with
      | None, None => MkState (s_auths s) (s_byID s) (<[ln_MessageID ln := ln]> (s_shown s)) (<[ln_ID ln := ln_MessageID ln]> (s_used s))
      | _, _ => s
      end
    else s
  end.
Definition read_lines (ls : list (option line)) : contactState := foldl read_line no_state ls.
Definition all_lines (f : file) : list (option line) := f_old f ++ f_lines f.
Definition lines_of (d : Dir) (name : string) : list (option line) := match d !! name with Some f => all_lines f | None => [] end.

Definition readContact (fs : FS) (d : Dir) (name : string) : result contactState ledgerError :=
  match fs_read fs name with Some e => Err e | None => Ok (read_lines (lines_of d name)) end.

(** [None] is the signature of a contact without files. *)
Definition fileSig (fs : FS) (d : Dir) (name : string) : result (option Z) ledgerError :=
  if fs_sig fs name then Ok (f_sig <$> d !! name) else Err ErrStat.

Definition stateOf (fs : FS) (d : Dir) (name : string) (l : Ledger) : Ledger * result contactState ledgerError :=
  match fileSig fs d name with
  | Err e => (l, Err e)
  | Ok sig =>
    let hit := match l_states l !! name with Some e => if decide (se_sig e = sig) then Some (se_s e) else None | None => None end in
    match hit with
    | Some s => (l, Ok s)
    | None =>
      match readContact fs d name with
      | Err e => (MkLedger (l_hours l) (delete name (l_states l)), Err e)
      | Ok s => (MkLedger (l_hours l) (<[name := MkStateEntry sig s]> (l_states l)), Ok s)
      end
    end
  end.

(** * The hourly rate *)

Definition add_created (m : gmap string (list Time)) (a : Auth) : gmap string (list Time) :=
  <[a_Agent a := default [] (m !! a_Agent a) ++ [a_Created a]]> m.
Definition created_of (auths : list Auth) : gmap string (list Time) := foldl add_created ∅ auths.
Definition recent (now : Time) (cs : list Time) : Z := Z.of_nat (length (List.filter (fun c => Sub now c <? Hour) cs)).

Fixpoint count_hours (fs : FS) (d : Dir) (agent : string) (now : Time) (names : list string) (l : Ledger) : Ledger * result Z ledgerError :=
  match names with
  | [] => (l, Ok 0)
  | name :: names =>
    match fileSig fs d name with
    | Err e => (l, Err e)
    | Ok sig =>
      let hit := match l_hours l !! name with Some h => if decide (h_sig h = sig) then Some h else None | None => None end in
      let got := match hit with
                 | Some h => (l, Ok h)
                 | None => match readContact fs d name with
                           | Err e => (l, Err e)
                           | Ok s => let h := MkHour sig (created_of (s_auths s)) in (MkLedger (<[name := h]> (l_hours l)) (l_states l), Ok h)
                           end
                 end in
      match got with
      | (l, Err e) => (l, Err e)
      | (l, Ok h) =>
        match count_hours fs d agent now names l with
        | (l, Err e) => (l, Err e)
        | (l, Ok n) => (l, Ok (recent now (default [] (h_created h !! agent)) + n))
        end
      end
    end
  end.
Definition contacts (d : Dir) : list string := List.filter fileRE (elements (dom d)).
Definition lastHour (fs : FS) (d : Dir) (agent : string) (now : Time) (l : Ledger) : Ledger * result Z ledgerError :=
  if negb (fs_list fs) then (l, Err ErrReadDir) else count_hours fs d agent now (contacts d) l.

Inductive authError (E : Type) := Ledger_ (e : ledgerError) | Refused (e : E).
Arguments Ledger_ {_}. Arguments Refused {_}.

Section Operations.
Context `{SHA256, Unicode}.

Definition for_contact (agent contact : string) (a : Auth) : bool := str_eqb (a_Agent a) agent && EqualFold (a_Contact a) contact.

Definition viewLocked (fs : FS) (d : Dir) (agent contact : string) (now : Time) (l : Ledger) : Ledger * result View ledgerError :=
  match stateOf fs d (FileFor contact) l with
  | (l, Err e) => (l, Err e)
  | (l, Ok s) =>
    match lastHour fs d agent now l with
    | (l, Err e) => (l, Err e)
    | (l, Ok n) => (l, Ok (MkView (List.filter (for_contact agent contact) (s_auths s)) n))
    end
  end.

(** [Ledger.lock]. *)
Definition lock (fs : FS) : option ledgerError :=
  if negb (fs_dir fs) then Some ErrUnsafe else if negb (fs_lock fs) then Some ErrLock else None.

Definition ViewOf (fs : FS) (d : Dir) (agent contact : string) (now : Time) (l : Ledger) : Ledger * result View ledgerError :=
  match lock fs with Some e => (l, Err e) | None => viewLocked fs d agent contact now l end.

(** * Appending *)

(** [hostledger.File.Append]: a file past its cap becomes the rotated copy
    first. A failed append may leave part of the line, the whole of it, or the
    rotated copy alone. *)
Definition rotated (f : option file) : list (option line) * list (option line) :=
  match f with
  | None => ([], [])
  | Some f => if RotateCap <? f_size f then ([], f_lines f) else (f_lines f, f_old f)
  end.
Definition append_line (ap : appendFS) (name : string) (ln : line) (d : Dir) : Dir * bool :=
  let '(cur, old) := rotated (d !! name) in
  let left_ cur := <[name := MkFile (ap_sig ap) (ap_size ap) cur old]> d in
  match ap_wrote ap with
  | Whole => (left_ (cur ++ [Some ln]), ap_ok ap)
  | Torn => (left_ (cur ++ [None]), false)
  | Nothing => (d, false)
  | RotatedOnly => match d !! name with None => (d, false) | Some _ => (left_ cur, false) end
  end.

(** [allow]'s own error is the answer. *)
Definition Authorize {E} (fs : FS) (a : Auth) (now : Time) (allow : View -> option E) (d : Dir) (l : Ledger)
    : Dir * Ledger * option (authError E) :=
  if negb (idRE (a_ID a)) || negb (shaRE (a_SHA256 a)) || negb (kind_ok (a_Kind a)) || is_empty (a_Agent a) || is_empty (a_Contact a)
  then (d, l, Some (Ledger_ ErrMalformed))
  else match lock fs with
  | Some e => (d, l, Some (Ledger_ e))
  | None =>
    match viewLocked fs d (a_Agent a) (a_Contact a) now l with
    | (l, Err e) => (d, l, Some (Ledger_ e))
    | (l, Ok v) =>
      match allow v with
      | Some e => (d, l, Some (Refused e))
      | None =>
        let '(d, ok) := append_line (fs_append fs 0) (FileFor (a_Contact a)) (auth_line a) d in
        (d, l, if ok then None else Some (Ledger_ ErrAppend))
      end
    end
  end.

(** * Which messages a contact is shown *)

(** [slices.SortFunc] by time and message id. *)
Definition cand_le (a b : Candidate) : Prop :=
  c_CreatedAt a < c_CreatedAt b \/ (c_CreatedAt a = c_CreatedAt b /\ String.leb (c_MessageID a) (c_MessageID b) = true).
#[export] Instance cand_le_dec : RelDecision cand_le.
Proof. intros a b. unfold cand_le. apply _. Defined.

(** This call's new bindings so far: the records used, the messages bound with
    their lines, and what is kept and pending. *)
Record matching := MkMatching {
  m_used : gset string; m_shown : gset string; m_lines : list line; m_bound : list string; m_keep : gset string; m_pending : gset string
}.
Definition no_matching : matching := MkMatching ∅ ∅ [] [] ∅ ∅.

(** Whether an unused record may be shown as this message. *)
Definition may_show (s : contactState) (used : gset string) (agent contact : string) (m : Candidate) (a : Auth) : bool :=
  str_eqb (a_Agent a) agent && EqualFold (a_Contact a) contact && str_eqb (a_SHA256 a) (c_SHA256 m)
  && bool_decide (s_used s !! a_ID a = None) && bool_decide (a_ID a ∉ used)
  && negb (Before (c_CreatedAt m) (Add (a_Created a) (- SkewBefore))) && negb (After (c_CreatedAt m) (Add (a_Expires a) SkewAfter)).

(** The oldest of the records that may, the first of equals. *)
Definition better (ok : Auth -> bool) (best : option Auth) (a : Auth) : option Auth :=
  if ok a then match best with Some b => if Before (a_Created a) (a_Created b) then Some a else best | None => Some a end else best.
Definition best_auth (ok : Auth -> bool) (auths : list Auth) : option Auth := foldl (better ok) None auths.

Definition match_one (s : contactState) (agent contact : string) (now : Time) (st : matching) (m : Candidate) : matching :=
  if negb (messageRE (c_MessageID m)) || negb (shaRE (c_SHA256 m)) then st
  else if bool_decide (c_MessageID m ∈ m_shown st) then st
  else match s_shown s !! c_MessageID m with
  | Some sh =>
    match s_byID s !! ln_ID sh with
    | Some i =>
      match s_auths s !! i with
      | Some a => if str_eqb (a_Agent a) agent && str_eqb (ln_SHA256 sh) (c_SHA256 m)
                  then MkMatching (m_used st) (m_shown st) (m_lines st) (m_bound st) ({[c_MessageID m]} ∪ m_keep st) (m_pending st) else st
      | None => st
      end
    | None => st
    end
  | None =>
    match best_auth (may_show s (m_used st) agent contact m) (s_auths s) with
    | None => st
    | Some a => MkMatching ({[a_ID a]} ∪ m_used st) ({[c_MessageID m]} ∪ m_shown st) (m_lines st ++ [shown_line a m now]) (m_bound st ++ [a_ID a])
                  ({[c_MessageID m]} ∪ m_keep st) ({[c_MessageID m]} ∪ m_pending st)
    end
  end.
Definition match_all (s : contactState) (agent contact : string) (now : Time) (msgs : list Candidate) : matching :=
  foldl (match_one s agent contact now) no_matching (merge_sort cand_le msgs).

(** The appends of the new bindings, in turn; the first that fails ends them. *)
Fixpoint append_lines (ap : nat -> appendFS) (name : string) (lines : list line) (d : Dir) : Dir * bool :=
  match lines with
  | [] => (d, true)
  | ln :: lines =>
    match append_line (ap 0%nat) name ln d with
    | (d, true) => append_lines (fun k => ap (S k)) name lines d
    | (d, false) => (d, false)
    end
  end.

(** [keep], [pending], [bound] and the error. *)
Record answer := MkAnswer { w_keep : gset string; w_pending : gset string; w_bound : list string; w_err : option ledgerError }.
Definition no_answer (e : ledgerError) : answer := MkAnswer ∅ ∅ [] (Some e).

Definition match_ (fs : FS) (agent contact : string) (msgs : list Candidate) (now : Time) (write : bool) (d : Dir) (l : Ledger)
    : Dir * Ledger * answer :=
  match lock fs with
  | Some e => (d, l, no_answer e)
  | None =>
    match stateOf fs d (FileFor contact) l with
    | (l, Err e) => (d, l, no_answer e)
    | (l, Ok s) =>
      let st := match_all s agent contact now msgs in
      if negb write then (d, l, MkAnswer (m_keep st) (m_pending st) [] None)
      else match append_lines (fs_append fs) (FileFor contact) (m_lines st) d with
      | (d, true) => (d, l, MkAnswer (m_keep st) (m_pending st) (m_bound st) None)
      | (d, false) => (d, l, MkAnswer (m_keep st ∖ list_to_set (ln_MessageID <$> m_lines st)) ∅ [] (Some ErrAppend))
      end
    end
  end.
Definition Match (fs : FS) (agent contact : string) (msgs : list Candidate) (now : Time) (d : Dir) (l : Ledger) : Dir * Ledger * answer :=
  match_ fs agent contact msgs now true d l.
Definition Peek (fs : FS) (agent contact : string) (msgs : list Candidate) (now : Time) (d : Dir) (l : Ledger) : Dir * Ledger * answer :=
  match_ fs agent contact msgs now false d l.

End Operations.
End AgentLedger.
