(* ===== verification/AgentShown.v ===== *)
(** What reading a contact's file gives, and the bindings of authorizations to
    messages: a ghost copy of every line ever written shows that an authorization
    is shown as one message only, through failed appends, rotations and
    restarts. *)

From stdpp Require Import sorting.
From S2P Require Import Prelude Go Token Manifest AgentLedger.

Module AgentShown.
Import Manifest AgentLedger.

(** * Lines that count *)

Definition accepted (ln : line) : bool := (ln_V ln =? 1) && idRE (ln_ID ln) && shaRE (ln_SHA256 ln).
Definition auth_of (raw : option line) : option Auth :=
  match raw with
  | Some ln =>
    if accepted ln && str_eqb (ln_Op ln) "auth" && kind_ok (ln_Kind ln) then
      match ln_Created ln, ln_Expires ln with Some c, Some e => Some (read_auth ln c e) | _, _ => None end
    else None
  | None => None
  end.
Definition shown_of (raw : option line) : option line :=
  match raw with
  | Some ln => if accepted ln && str_eqb (ln_Op ln) "shown" && messageRE (ln_MessageID ln) then Some ln else None
  | None => None
  end.
Definition auths_in (ls : list (option line)) : list Auth := omap auth_of ls.
Definition shown_in (ls : list (option line)) : list line := omap shown_of ls.

Definition add_auth (a : Auth) (s : contactState) : contactState :=
  match s_byID s !! a_ID a with
  | Some _ => s
  | None => MkState (s_auths s ++ [a]) (<[a_ID a := length (s_auths s)]> (s_byID s)) (s_shown s) (s_used s)
  end.
Definition add_shown (ln : line) (s : contactState) : contactState :=
  match s_used s !! ln_ID ln, s_shown s !! ln_MessageID ln with
  | None, None => MkState (s_auths s) (s_byID s) (<[ln_MessageID ln := ln]> (s_shown s)) (<[ln_ID ln := ln_MessageID ln]> (s_used s))
  | _, _ => s
  end.

Lemma read_line_cases s raw :
  read_line s raw = match auth_of raw, shown_of raw with Some a, _ => add_auth a s | None, Some ln => add_shown ln s | None, None => s end.
Proof.
  destruct raw as [ln|]; [|done]. unfold auth_of, shown_of, accepted, read_line.
  destruct (ln_V ln =? 1), (idRE (ln_ID ln)), (shaRE (ln_SHA256 ln)); cbn [negb andb orb]; try done.
  destruct (str_eqb (ln_Op ln) "auth") eqn:Ea; cbn [andb].
  - apply str_eqb_eq in Ea. rewrite Ea. change (str_eqb "auth" "shown") with false. cbn [andb].
    destruct (kind_ok (ln_Kind ln)); cbn [negb]; destruct (ln_Created ln), (ln_Expires ln); done.
  - destruct (str_eqb (ln_Op ln) "shown"); cbn [andb]; [|done]. by destruct (messageRE (ln_MessageID ln)).
Qed.

Lemma shown_of_Some raw ln : shown_of raw = Some ln -> raw = Some ln.
Proof. destruct raw; [|done]. unfold shown_of. destruct (_ && _); [|done]. by intros [= ->]. Qed.

(** * What is read *)

(** The state read of [ls]. *)
Record reads (ls : list (option line)) (s : contactState) : Prop := {
  rd_auths : forall a, a ∈ s_auths s -> a ∈ auths_in ls;
  rd_byID : forall id i, s_byID s !! id = Some i -> exists a, s_auths s !! i = Some a /\ a_ID a = id;
  rd_found : forall a, a ∈ auths_in ls -> is_Some (s_byID s !! a_ID a);
  rd_nodup : NoDup (a_ID <$> s_auths s);
  rd_shown : forall m ln, s_shown s !! m = Some ln -> ln ∈ shown_in ls /\ ln_MessageID ln = m /\ s_used s !! ln_ID ln = Some m;
  rd_used : forall id m, s_used s !! id = Some m -> exists ln, s_shown s !! m = Some ln /\ ln_ID ln = id
}.

Lemma reads_nil : reads [] no_state.
Proof. split; cbn; try (intros * H; set_solver); try done. constructor. Qed.

Lemma auths_snoc ls raw : auths_in (ls ++ [raw]) = auths_in ls ++ match auth_of raw with Some a => [a] | None => [] end.
Proof. unfold auths_in. rewrite omap_app. cbn. by destruct (auth_of raw). Qed.
Lemma shown_snoc ls raw : shown_in (ls ++ [raw]) = shown_in ls ++ match shown_of raw with Some ln => [ln] | None => [] end.
Proof. unfold shown_in. rewrite omap_app. cbn. by destruct (shown_of raw). Qed.
Lemma not_both raw a : auth_of raw = Some a -> shown_of raw = None.
Proof.
  destruct raw as [ln|]; [|done]. unfold auth_of, shown_of. destruct (str_eqb (ln_Op ln) "auth") eqn:E; [|by rewrite andb_false_r].
  apply str_eqb_eq in E. rewrite E. change (str_eqb "auth" "shown") with false. by rewrite andb_false_r.
Qed.

Lemma reads_add_auth ls s raw a : auth_of raw = Some a -> reads ls s -> reads (ls ++ [raw]) (add_auth a s).
Proof.
  intros Ea [Ha Hb Hf Hn Hs Hu]. assert (En := not_both _ _ Ea). unfold add_auth. destruct (s_byID s !! a_ID a) as [j|] eqn:Ej.
  - split; try done; rewrite ?auths_snoc, ?shown_snoc, ?Ea, ?En, ?app_nil_r; try done.
    + intros b Hb'. apply elem_of_app. by left; apply Ha.
    + intros b [?|Hb']%elem_of_app; [by apply Hf|]. apply list_elem_of_singleton in Hb' as ->. by rewrite Ej.
  - split; cbn; rewrite ?auths_snoc, ?shown_snoc, ?Ea, ?En, ?app_nil_r; try done.
    + intros b [?|?]%elem_of_app; apply elem_of_app; [left; by apply Ha|by right].
    + intros id i. destruct (decide (id = a_ID a)) as [->|Hne].
      * rewrite lookup_insert_eq. intros [= <-]. exists a. split; [|done]. by rewrite list_lookup_middle.
      * rewrite lookup_insert_ne by done. intros Hi. destruct (Hb _ _ Hi) as (b & Hl & E). exists b. split; [|done]. by apply lookup_app_l_Some.
    + intros b [Hin|Hin]%elem_of_app.
      * destruct (decide (a_ID b = a_ID a)) as [->|Hne]; [by rewrite lookup_insert_eq|]. rewrite lookup_insert_ne by done. by apply Hf.
      * apply list_elem_of_singleton in Hin as ->. by rewrite lookup_insert_eq.
    + rewrite fmap_app. apply NoDup_app. split_and!; [done| |cbn; apply NoDup_singleton].
      intros id (b & -> & Hb')%list_elem_of_fmap [= E]%list_elem_of_singleton. destruct (Hf b) as [k Hk]; [by apply Ha|]. rewrite E in Hk. by rewrite Hk in Ej.
Qed.

Lemma reads_add_shown ls s raw ln : shown_of raw = Some ln -> auth_of raw = None -> reads ls s -> reads (ls ++ [raw]) (add_shown ln s).
Proof.
  intros El Ea [Ha Hb Hf Hn Hs Hu]. unfold add_shown. destruct (s_used s !! ln_ID ln) eqn:Eu; [|destruct (s_shown s !! ln_MessageID ln) eqn:Em].
  1,2: split; try done; rewrite ?auths_snoc, ?shown_snoc, ?Ea, ?app_nil_r; try done;
    intros m ln' Hm; destruct (Hs _ _ Hm) as (? & ? & ?); (split; [by apply elem_of_app; left|done]).
  split; cbn; rewrite ?auths_snoc, ?shown_snoc, ?Ea, ?El, ?app_nil_r; try done.
  - intros m ln'. destruct (decide (m = ln_MessageID ln)) as [->|Hne].
    + rewrite lookup_insert_eq. intros [= <-]. split_and!; [set_solver|done|by rewrite lookup_insert_eq].
    + rewrite lookup_insert_ne by done. intros Hm. destruct (Hs _ _ Hm) as (? & ? & Hu'). split_and!; [set_solver|done|].
      rewrite lookup_insert_ne; [done|]. intros E. rewrite <- E in Hu'. by rewrite Hu' in Eu.
  - intros id m. destruct (decide (id = ln_ID ln)) as [->|Hne].
    + rewrite lookup_insert_eq. intros [= <-]. exists ln. by rewrite lookup_insert_eq.
    + rewrite lookup_insert_ne by done. intros Hi. destruct (Hu _ _ Hi) as (ln' & Hm & E). exists ln'. split; [|done].
      rewrite lookup_insert_ne; [done|]. intros E'. rewrite <- E' in Hm. by rewrite Hm in Em.
Qed.

Lemma reads_line ls s raw : reads ls s -> reads (ls ++ [raw]) (read_line s raw).
Proof.
  intros Hr. rewrite read_line_cases. destruct (auth_of raw) as [a|] eqn:Ea; [by apply reads_add_auth|].
  destruct (shown_of raw) as [ln|] eqn:El; [by apply reads_add_shown|].
  destruct Hr as [Ha Hb Hf Hn Hs Hu]. split; try done; by rewrite ?auths_snoc, ?shown_snoc, ?Ea, ?El, ?app_nil_r.
Qed.

Lemma read_lines_snoc ls raw : read_lines (ls ++ [raw]) = read_line (read_lines ls) raw.
Proof. unfold read_lines. by rewrite foldl_app. Qed.

Lemma read_lines_reads ls : reads ls (read_lines ls).
Proof. induction ls as [|raw ls IH] using rev_ind; [apply reads_nil|]. rewrite read_lines_snoc. by apply reads_line. Qed.

(** A file in which no id is taken twice is read as it is. *)
Record tidy (ls : list (option line)) : Prop := {
  ti_ids : NoDup (ln_ID <$> shown_in ls);
  ti_messages : NoDup (ln_MessageID <$> shown_in ls)
}.

Lemma tidy_app_inv ls ls' : tidy (ls ++ ls') -> tidy ls /\ tidy ls'.
Proof.
  intros [Hi Hm]. unfold shown_in in *. rewrite omap_app, fmap_app in Hi, Hm. apply NoDup_app in Hi as (? & _ & ?), Hm as (? & _ & ?). by repeat split.
Qed.

Lemma tidy_read ls ln : tidy ls -> ln ∈ shown_in ls ->
  s_used (read_lines ls) !! ln_ID ln = Some (ln_MessageID ln) /\ s_shown (read_lines ls) !! ln_MessageID ln = Some ln.
Proof.
  revert ln. induction ls as [|raw ls IH] using rev_ind; intros ln Ht Hin; [by apply elem_of_nil in Hin|].
  destruct (tidy_app_inv _ _ Ht) as [Ht' _]. pose proof (read_lines_reads ls) as Hr. rewrite read_lines_snoc, read_line_cases.
  rewrite shown_snoc in Hin. destruct (auth_of raw) as [a|] eqn:Ea.
  - rewrite (not_both _ _ Ea), app_nil_r in Hin. unfold add_auth. destruct (s_byID _ !! _); by apply IH.
  - destruct (shown_of raw) as [l0|] eqn:El; [|rewrite app_nil_r in Hin; by apply IH].
    destruct Ht as [Hi Hm]. rewrite shown_snoc, El, fmap_app in Hi, Hm. apply NoDup_app in Hi as (_ & Hi & _), Hm as (_ & Hm & _).
    assert (Eu : s_used (read_lines ls) !! ln_ID l0 = None).
    { destruct (s_used (read_lines ls) !! ln_ID l0) as [m|] eqn:E; [|done]. destruct (rd_used _ _ Hr _ _ E) as (l1 & Es & E1).
      destruct (rd_shown _ _ Hr _ _ Es) as (Hl1 & _). destruct (Hi (ln_ID l0)); [apply list_elem_of_fmap; by exists l1|by left]. }
    assert (Es : s_shown (read_lines ls) !! ln_MessageID l0 = None).
    { destruct (s_shown (read_lines ls) !! ln_MessageID l0) as [l1|] eqn:E; [|done]. destruct (rd_shown _ _ Hr _ _ E) as (Hl1 & E1 & _).
      destruct (Hm (ln_MessageID l0)); [apply list_elem_of_fmap; by exists l1|by left]. }
    unfold add_shown. rewrite Eu, Es. cbn. apply elem_of_app in Hin as [Hin|Hin].
    + destruct (IH ln Ht' Hin) as [Hu Hs]. split; rewrite lookup_insert_ne; try done; intros E; [rewrite <- E in Hu|rewrite <- E in Hs]; congruence.
    + apply list_elem_of_singleton in Hin as ->. by rewrite !lookup_insert_eq.
Qed.

(** * A file through its writes

    [P] is every line ever written to the file, [held] what it still holds with
    its rotated copy: the end of [P]. *)

Record sound (P held : list (option line)) : Prop := {
  so_held : held `suffix_of` P;
  so_tidy : tidy held;
  so_once : NoDup (ln_ID <$> shown_in P);
  so_order : forall P1 raw P2 a, P = P1 ++ raw :: P2 -> auth_of raw = Some a -> (a_ID a ∉ (ln_ID <$> shown_in P1)) /\ a_ID a ∉ (a_ID <$> auths_in P1);
  so_backed : forall ln, ln ∈ shown_in P -> exists a, a ∈ auths_in P /\ a_ID a = ln_ID ln /\ a_SHA256 a = ln_SHA256 ln
}.

Lemma sound_nil : sound [] [].
Proof. split; [by exists []|split; constructor|constructor|by intros []|by intros ln ?%elem_of_nil]. Qed.

Lemma tidy_suffix l l' : l `suffix_of` l' -> tidy l' -> tidy l.
Proof. intros [k ->] Ht. by apply tidy_app_inv in Ht as [_ ?]. Qed.

(** What may be written next. *)
Definition writable (P held : list (option line)) (raw : option line) : Prop :=
  match auth_of raw, shown_of raw with
  | Some a, _ => (a_ID a ∉ (ln_ID <$> shown_in P)) /\ a_ID a ∉ (a_ID <$> auths_in P)
  | None, Some ln => (ln_ID ln ∉ (ln_ID <$> shown_in P)) /\ (ln_MessageID ln ∉ (ln_MessageID <$> shown_in held))
      /\ exists a, a ∈ auths_in P /\ a_ID a = ln_ID ln /\ a_SHA256 a = ln_SHA256 ln
  | None, None => True
  end.

Lemma NoDup_snoc {A} (l : list A) x : NoDup l -> x ∉ l -> NoDup (l ++ [x]).
Proof. intros Hl Hx. apply NoDup_app. split_and!; [done| |apply NoDup_singleton]. intros y Hy ->%list_elem_of_singleton. done. Qed.

Lemma snoc_split {A} (P : list A) x P1 y P2 : P ++ [x] = P1 ++ y :: P2 -> (P2 = [] /\ P1 = P /\ y = x) \/ exists P3, P = P1 ++ y :: P3.
Proof.
  intros E. destruct P2 as [|z P2 _] using rev_ind.
  - left. apply app_inj_tail in E as [-> ->]. done.
  - right. exists P2. rewrite app_comm_cons, app_assoc in E. by apply app_inj_tail in E as [-> _].
Qed.

Lemma sound_write P held held' raw :
  sound P held -> writable P held raw -> held' `suffix_of` (held ++ [raw]) -> sound (P ++ [raw]) held'.
Proof.
  intros [[k Hk] Ht Ho Hor Hb] Hw Hs.
  assert (Hids : shown_of raw = None \/ (auth_of raw = None /\ exists ln, shown_of raw = Some ln)).
  { destruct (auth_of raw) as [a|] eqn:Ea; [left; by eapply not_both|]. destruct (shown_of raw); [right; eauto|by left]. }
  unfold writable in Hw. split.
  - destruct Hs as [k' Hk']. exists (k ++ k'). by rewrite Hk, <- !app_assoc, Hk'.
  - eapply tidy_suffix; [exact Hs|]. destruct Ht as [Hi Hm]. subst P.
    split; rewrite shown_snoc; destruct Hids as [->|(Ea & ln & El)]; rewrite ?app_nil_r; try done;
      rewrite Ea, El in Hw; rewrite El, fmap_app; apply NoDup_snoc; try done; [|apply Hw].
    destruct Hw as (Hw & _). intros Hin. apply Hw. unfold shown_in in *. rewrite omap_app, fmap_app. apply elem_of_app. by right.
  - rewrite shown_snoc. destruct Hids as [->|(Ea & ln & El)]; rewrite ?app_nil_r; [done|]. rewrite Ea, El in Hw.
    rewrite El, fmap_app. apply NoDup_snoc; [done|apply Hw].
  - intros P1 raw' P2 a E Ea. apply snoc_split in E as [(_ & -> & ->)|[P3 E]]; [by rewrite Ea in Hw|by eapply Hor].
  - intros ln Hin. rewrite auths_snoc. rewrite shown_snoc in Hin. apply elem_of_app in Hin as [Hin|Hin].
    + destruct (Hb _ Hin) as (a & Ha & ?). exists a. split; [apply elem_of_app; by left|done].
    + destruct Hids as [E|(Ea & l0 & El)]; [by rewrite E in Hin; apply elem_of_nil in Hin|]. rewrite Ea, El in Hw. rewrite El in Hin.
      apply list_elem_of_singleton in Hin as ->. destruct Hw as (_ & _ & a & Ha & ?). exists a. split; [apply elem_of_app; by left|done].
Qed.

Lemma auth_ids_once P held : sound P held -> NoDup (a_ID <$> auths_in P).
Proof.
  intros [_ _ _ Ho _]. assert (Hp : forall l k, P = l ++ k -> NoDup (a_ID <$> auths_in l)).
  { induction l as [|raw l IH] using rev_ind; intros k E; [constructor|]. rewrite <- app_assoc in E. specialize (IH _ E). rewrite auths_snoc.
    destruct (auth_of raw) as [a|] eqn:Ea; [|by rewrite app_nil_r]. rewrite fmap_app. apply NoDup_snoc; [done|]. by eapply Ho. }
  apply (Hp P []). by rewrite app_nil_r.
Qed.

(** Every record the file holds is read. *)
Lemma auths_all ls : NoDup (a_ID <$> auths_in ls) -> s_auths (read_lines ls) = auths_in ls.
Proof.
  induction ls as [|raw ls IH] using rev_ind; [done|]. rewrite auths_snoc, fmap_app. intros Hn. apply NoDup_app in Hn as (Hn & Hx & _).
  specialize (IH Hn). pose proof (read_lines_reads ls) as Hr. rewrite read_lines_snoc, read_line_cases. destruct (auth_of raw) as [a|] eqn:Ea.
  - unfold add_auth. destruct (s_byID (read_lines ls) !! a_ID a) as [i|] eqn:Ei; cbn; [|by rewrite IH]. exfalso.
    destruct (rd_byID _ _ Hr _ _ Ei) as (b & Hb & E). apply (Hx (a_ID a)); [|by left]. rewrite <- E, <- IH. apply list_elem_of_fmap_2. by eapply list_elem_of_lookup_2.
  - rewrite app_nil_r. destruct (shown_of raw); [|done]. unfold add_shown. by repeat case_match.
Qed.

Lemma auths_held P held : sound P held -> s_auths (read_lines held) = auths_in held.
Proof.
  intros Hs. apply auths_all. pose proof (auth_ids_once _ _ Hs) as Hn. destruct (so_held _ _ Hs) as [k ->].
  unfold auths_in in *. rewrite omap_app, fmap_app in Hn. by apply NoDup_app in Hn as (_ & _ & ?).
Qed.

(** A record held and not read as used was never shown. *)
Lemma unused_unbound P held a : sound P held -> a ∈ s_auths (read_lines held) -> s_used (read_lines held) !! a_ID a = None ->
  a_ID a ∉ (ln_ID <$> shown_in P).
Proof.
  intros [[k ->] Ht Ho Hor Hb] Ha Hu. apply (rd_auths _ _ (read_lines_reads held)) in Ha.
  unfold shown_in. rewrite omap_app, fmap_app. intros [Hin|Hin]%elem_of_app.
  - apply list_elem_of_omap in Ha as (raw & Hraw & Ea). apply list_elem_of_split in Hraw as (l1 & l2 & ->).
    destruct (Hor (k ++ l1) raw l2 a) as [Hn _]; [by rewrite <- app_assoc|done|]. apply Hn. unfold shown_in. rewrite omap_app, fmap_app. apply elem_of_app. by left.
  - apply list_elem_of_fmap in Hin as (ln & E & Hin). destruct (tidy_read held ln Ht Hin) as [Hr _]. rewrite <- E in Hr. congruence.
Qed.

Lemma unshown_free held m : tidy held -> s_shown (read_lines held) !! m = None -> m ∉ (ln_MessageID <$> shown_in held).
Proof. intros Ht Hm (ln & -> & Hin)%list_elem_of_fmap. destruct (tidy_read held ln Ht Hin) as [_ Hr]. congruence. Qed.

(** ** Appending *)

(** What an append puts on the disk. *)
Definition left_by (ap : appendFS) (ln : line) : list (option line) :=
  match ap_wrote ap with Whole => [Some ln] | Torn => [None] | Nothing | RotatedOnly => [] end.

Lemma append_line_lines ap name ln d d' ok : append_line ap name ln d = (d', ok) ->
  lines_of d' name `suffix_of` (lines_of d name ++ left_by ap ln)
  /\ (forall name', name' <> name -> lines_of d' name' = lines_of d name')
  /\ ok = match ap_wrote ap with Whole => ap_ok ap | _ => false end.
Proof.
  assert (Hr : ((rotated (d !! name)).2 ++ (rotated (d !! name)).1) `suffix_of` lines_of d name).
  { unfold rotated, lines_of, all_lines. destruct (d !! name) as [f|]; [|done]. destruct (RotateCap <? f_size f); [|done]. cbn. rewrite app_nil_r. by exists (f_old f). }
  unfold append_line, left_by. destruct (rotated (d !! name)) as [cur old]. cbn [fst snd] in Hr.
  assert (Hput : forall cur', lines_of (<[name := MkFile (ap_sig ap) (ap_size ap) cur' old]> d) name = old ++ cur') by (intros ?; unfold lines_of; by rewrite lookup_insert_eq).
  assert (Hother : forall f name', name' <> name -> lines_of (<[name := f]> d) name' = lines_of d name') by (intros f name' ?; unfold lines_of; by rewrite lookup_insert_ne).
  destruct (ap_wrote ap); [| | |destruct (d !! name)]; intros [= <- <-]; rewrite ?Hput, ?app_nil_r, ?app_assoc;
    (split_and!; [by (apply suffix_app, Hr || apply Hr || done)|by auto|done]).
Qed.

Lemma sound_held P held held' : sound P held -> held' `suffix_of` held -> sound P held'.
Proof.
  intros [Hh Ht Ho Hor Hb] Hs. split; try done; [by etransitivity|by eapply tidy_suffix].
Qed.

Lemma sound_left ap ln P held held' :
  sound P held -> writable P held (Some ln) -> held' `suffix_of` (held ++ left_by ap ln) -> sound (P ++ left_by ap ln) held'.
Proof.
  intros Hs Hw. unfold left_by. destruct (ap_wrote ap); rewrite ?app_nil_r; intros Hk.
  - by eapply sound_write.
  - by eapply sound_write.
  - by eapply sound_held.
  - by eapply sound_held.
Qed.

(** The bindings of one call, in turn. *)
Fixpoint left_by_all (ap : nat -> appendFS) (lines : list line) : list (option line) :=
  match lines with
  | [] => []
  | ln :: lines =>
    left_by (ap 0%nat) ln
    ++ match ap_wrote (ap 0%nat) with Whole => if ap_ok (ap 0%nat) then left_by_all (fun k => ap (S k)) lines else [] | _ => [] end
  end.

Definition bindable (P held : list (option line)) (ln : line) : Prop :=
  shown_of (Some ln) = Some ln /\ writable P held (Some ln).

Lemma bindable_after P held held' x ln :
  bindable P held ln -> bindable P held x -> ln_ID x <> ln_ID ln -> ln_MessageID x <> ln_MessageID ln ->
  held' `suffix_of` (held ++ [Some x]) -> bindable (P ++ [Some x]) held' ln.
Proof.
  unfold bindable, writable. intros [El Hw] [Ex _] Hi Hm [k Hk]. destruct (auth_of (Some ln)) as [a|] eqn:Ea; [by rewrite (not_both _ _ Ea) in El|].
  rewrite El in *. split; [done|]. destruct Hw as (Hid & Hmsg & a & Ha & Eid & Esha).
  rewrite shown_snoc, Ex. split_and!.
  - rewrite fmap_app. intros [?|E%list_elem_of_singleton]%elem_of_app; [done|]. by rewrite E in Hi.
  - intros Hin. apply (f_equal shown_in) in Hk. rewrite shown_snoc, Ex in Hk. unfold shown_in in Hk, Hin. rewrite omap_app in Hk.
    apply (f_equal (fmap ln_MessageID)) in Hk. rewrite !fmap_app in Hk.
    assert (Hin' : ln_MessageID ln ∈ (ln_MessageID <$> shown_in held) ++ (ln_MessageID <$> [x])) by (unfold shown_in; rewrite Hk; apply elem_of_app; by right).
    apply elem_of_app in Hin' as [?|E%list_elem_of_singleton]; [done|]. by rewrite E in Hm.
  - exists a. split; [|done]. rewrite auths_snoc. apply elem_of_app. by left.
Qed.

Lemma sound_appends lines ap name P d d' ok :
  Forall (bindable P (lines_of d name)) lines -> NoDup (ln_ID <$> lines) -> NoDup (ln_MessageID <$> lines) ->
  sound P (lines_of d name) -> append_lines ap name lines d = (d', ok) ->
  sound (P ++ left_by_all ap lines) (lines_of d' name) /\ (forall name', name' <> name -> lines_of d' name' = lines_of d name')
  /\ (ok = true -> left_by_all ap lines = Some <$> lines).
Proof.
  revert ap P d. induction lines as [|ln lines IH]; intros ap P d Hb Hi Hm Hs; cbn [append_lines left_by_all].
  { intros [= <- <-]. by rewrite app_nil_r. }
  inversion Hb as [|? ? Hln Hb']; subst. cbn [fmap list_fmap] in Hi, Hm. apply NoDup_cons in Hi as [Hni Hi], Hm as [Hnm Hm].
  destruct (append_line (ap 0%nat) name ln d) as [d1 ok1] eqn:Ea. apply append_line_lines in Ea as (Hsuf & Hoth & ->).
  assert (Hs1 : sound (P ++ left_by (ap 0%nat) ln) (lines_of d1 name)) by (eapply sound_left; [done|apply Hln|done]).
  unfold left_by in Hsuf, Hs1 |- *. destruct (ap_wrote (ap 0%nat)); [|intros [= <- <-]; by rewrite ?app_nil_r in *..].
  destruct (ap_ok (ap 0%nat)); [|intros [= <- <-]; by rewrite app_nil_r].
  assert (Hb1 : Forall (bindable (P ++ [Some ln]) (lines_of d1 name)) lines).
  { apply list.Forall_forall. intros x Hx. eapply bindable_after; [by eapply list.Forall_forall in Hb'|done| | |done].
    - intros E. apply Hni. rewrite E. by apply list_elem_of_fmap_2.
    - intros E. apply Hnm. rewrite E. by apply list_elem_of_fmap_2. }
  intros E. destruct (IH _ _ _ Hb1 Hi Hm Hs1 E) as (H1 & H2 & H3). rewrite <- app_assoc in H1.
  split_and!; [done|intros name' Hne; by rewrite H2, Hoth|intros ->; cbn; by rewrite H3].
Qed.

(** * The matching *)

Section Matching.
Context `{SHA256, Unicode} (s : contactState) (agent contact : string) (now : Time).

(** A record that may stand for a message: of the agent and the contact, with
    the text's hash, and around its time. *)
Definition stands_for (a : Auth) (m : Candidate) : Prop :=
  a_Agent a = agent /\ EqualFold (a_Contact a) contact = true /\ a_SHA256 a = c_SHA256 m
  /\ a_Created a - SkewBefore <= c_CreatedAt m <= a_Expires a + SkewAfter.

(** A new binding: of an unused record to a message not shown yet. *)
Definition binds (msgs : list Candidate) (ln : line) : Prop :=
  exists a m, ln = shown_line a m now /\ a ∈ s_auths s /\ m ∈ msgs /\ stands_for a m /\ s_used s !! a_ID a = None /\ s_shown s !! c_MessageID m = None
    /\ messageRE (c_MessageID m) = true /\ shaRE (c_SHA256 m) = true.

(** A message shown before, still with its hash. *)
Definition shown_before (m : Candidate) : Prop :=
  exists sh i a, s_shown s !! c_MessageID m = Some sh /\ s_byID s !! ln_ID sh = Some i /\ s_auths s !! i = Some a
    /\ a_Agent a = agent /\ ln_SHA256 sh = c_SHA256 m.

Record bindings (msgs : list Candidate) (st : matching) : Prop := {
  bi_lines : Forall (binds msgs) (m_lines st);
  bi_used : m_used st = list_to_set (ln_ID <$> m_lines st);
  bi_shown : m_shown st = list_to_set (ln_MessageID <$> m_lines st);
  bi_ids : NoDup (ln_ID <$> m_lines st);
  bi_messages : NoDup (ln_MessageID <$> m_lines st);
  bi_bound : m_bound st = ln_ID <$> m_lines st;
  bi_pending : m_pending st = m_shown st;
  bi_keep : forall id, id ∈ m_keep st <-> id ∈ m_shown st \/ exists m, m ∈ msgs /\ c_MessageID m = id /\ messageRE id = true /\ shaRE (c_SHA256 m) = true /\ shown_before m
}.

Lemma best_auth_ok ok auths a : best_auth ok auths = Some a -> a ∈ auths /\ ok a = true.
Proof.
  unfold best_auth. assert (Hb : forall l best, foldl (better ok) best l = Some a -> best = Some a \/ (a ∈ l /\ ok a = true)).
  { induction l as [|b l IH]; intros best; cbn; [by left|]. intros E. destruct (IH _ E) as [E'|[? ?]]; [|right; split; [by right|done]].
    unfold better in E'. destruct (ok b) eqn:Eb; [|by left]. destruct best as [c|]; [destruct (Before _ _)|]; simplify_eq; auto; right; split; [by left|done|by left|done]. }
  intros E. by destruct (Hb _ _ E).
Qed.

Lemma binds_mono msgs m ln : binds msgs ln -> binds (msgs ++ [m]) ln.
Proof. intros (a & m' & ? & ? & Hin & ?). exists a, m'. split_and!; try done; [|by destruct_and!..]. apply elem_of_app. by left. Qed.

Lemma bindings_nil : bindings [] no_matching.
Proof.
  split; try done; try constructor. - intros Hid. by apply not_elem_of_empty in Hid.
  - intros [Hid|(m & Hm & _)]; [by apply not_elem_of_empty in Hid|by apply elem_of_nil in Hm].
Qed.

Lemma bindings_same msgs st m : bindings msgs st ->
  (messageRE (c_MessageID m) = true -> shaRE (c_SHA256 m) = true -> shown_before m -> c_MessageID m ∈ m_shown st) -> bindings (msgs ++ [m]) st.
Proof.
  intros [H1 H2 H3 H4 H5 H6 H7 H8] Hm. split; try done; [eapply Forall_impl; [exact H1|]; intros ln; apply binds_mono|].
  intros id. rewrite H8. split; intros [?|(m' & Hin & E & ? & ? & ?)]; try by left.
  - right. exists m'. split_and!; try done. apply elem_of_app. by left.
  - apply elem_of_app in Hin as [Hin| ->%list_elem_of_singleton]; [right; by exists m'|]. left. subst id. by apply Hm.
Qed.

Lemma may_show_spec used m a : may_show s used agent contact m a = true ->
  stands_for a m /\ s_used s !! a_ID a = None /\ a_ID a ∉ used.
Proof.
  unfold may_show, stands_for, Before, After, Add. intros E. guards. repeat match goal with H : bool_decide _ = true |- _ => apply bool_decide_eq_true in H end.
  split_and!; try done; lia.
Qed.

(** A message shown before is kept, and binds nothing. *)
Lemma bindings_keep msgs st m : bindings msgs st -> messageRE (c_MessageID m) = true -> shaRE (c_SHA256 m) = true -> shown_before m ->
  bindings (msgs ++ [m]) (MkMatching (m_used st) (m_shown st) (m_lines st) (m_bound st) ({[c_MessageID m]} ∪ m_keep st) (m_pending st)).
Proof.
  intros [H1 H2 H3 H4 H5 H6 H7 H8] Hr Hh Hb. split; cbn; try done; [eapply Forall_impl; [exact H1|]; intros ln; apply binds_mono|].
  intros id. rewrite elem_of_union, elem_of_singleton, H8. split.
  - intros [->|[?|(m' & Hin & ? & ? & ? & ?)]]; [right; exists m|by left|right; exists m']; (split_and!; try done); apply elem_of_app; [right; by left|by left].
  - intros [?|(m' & Hin & <- & ? & ? & ?)]; [right; by left|]. apply elem_of_app in Hin as [Hin| ->%list_elem_of_singleton]; [|by left].
    right; right. by exists m'.
Qed.

Lemma bindings_bind msgs st m a : bindings msgs st -> messageRE (c_MessageID m) = true -> shaRE (c_SHA256 m) = true ->
  s_shown s !! c_MessageID m = None -> c_MessageID m ∉ m_shown st -> a ∈ s_auths s -> may_show s (m_used st) agent contact m a = true ->
  bindings (msgs ++ [m]) (MkMatching ({[a_ID a]} ∪ m_used st) ({[c_MessageID m]} ∪ m_shown st) (m_lines st ++ [shown_line a m now]) (m_bound st ++ [a_ID a])
    ({[c_MessageID m]} ∪ m_keep st) ({[c_MessageID m]} ∪ m_pending st)).
Proof.
  intros [H1 H2 H3 H4 H5 H6 H7 H8] Hr Hh Hs Hn Ha Hm. apply may_show_spec in Hm as (Hst & Hu & Hnu).
  rewrite H2 in Hnu. rewrite H3 in Hn. rewrite elem_of_list_to_set in Hnu, Hn.
  split; cbn [m_used m_shown m_lines m_bound m_keep m_pending]; rewrite ?fmap_app.
  - apply Forall_app. split; [eapply Forall_impl; [exact H1|]; intros ln; apply binds_mono|]. constructor; [|done].
    exists a, m. split_and!; try done. apply elem_of_app. right. by left.
  - rewrite H2, list_to_set_app_L. set_solver.
  - rewrite H3, list_to_set_app_L. set_solver.
  - by apply NoDup_snoc.
  - by apply NoDup_snoc.
  - by rewrite H6.
  - by rewrite H7.
  - intros id. rewrite !elem_of_union, !elem_of_singleton, H8. split.
    + intros [->|[?|(m' & Hin & ?)]]; [by left; left|by left; right|right; exists m'; split; [apply elem_of_app; by left|done]].
    + intros [[->|?]|(m' & Hin & <- & ? & ? & ?)]; [by left|right; by left|]. apply elem_of_app in Hin as [Hin| ->%list_elem_of_singleton]; [|by left].
      right; right. by exists m'.
Qed.

Lemma bindings_step msgs st m : bindings msgs st -> bindings (msgs ++ [m]) (match_one s agent contact now st m).
Proof.
  intros Hb. unfold match_one.
  destruct (messageRE (c_MessageID m)) eqn:Er; [|apply bindings_same; [done|congruence]].
  destruct (shaRE (c_SHA256 m)) eqn:Eh; [|apply bindings_same; [done|congruence]].
  cbn [negb orb]. case_bool_decide as Ein; [by apply bindings_same|].
  destruct (s_shown s !! c_MessageID m) as [sh|] eqn:Es.
  - assert (Hno : forall sh' i a, s_shown s !! c_MessageID m = Some sh' -> s_byID s !! ln_ID sh' = Some i -> s_auths s !! i = Some a ->
      str_eqb (a_Agent a) agent && str_eqb (ln_SHA256 sh') (c_SHA256 m) = true -> shown_before m).
    { intros sh' i a ? ? ? ?. guards. by exists sh', i, a. }
    assert (Hsame : (forall i a, s_byID s !! ln_ID sh = Some i -> s_auths s !! i = Some a -> str_eqb (a_Agent a) agent && str_eqb (ln_SHA256 sh) (c_SHA256 m) = false) ->
      bindings (msgs ++ [m]) st).
    { intros Hf. apply bindings_same; [done|]. intros _ _ (sh' & i & a & E1 & E2 & E3 & E4 & E5). rewrite E1 in Es. injection Es as ->.
      specialize (Hf i a E2 E3). by rewrite E4, E5, !str_eqb_refl in Hf. }
    destruct (s_byID s !! ln_ID sh) as [i|] eqn:Ei; [|by apply Hsame]. destruct (s_auths s !! i) as [a|] eqn:Ea; [|apply Hsame; by intros; simplify_eq].
    destruct (str_eqb (a_Agent a) agent && _) eqn:Eq; [|apply Hsame; by intros; simplify_eq]. apply bindings_keep; try done. by eapply Hno.
  - destruct (best_auth _ _) as [a|] eqn:Ea.
    + apply best_auth_ok in Ea as [Ha Hm]. by apply bindings_bind.
    + apply bindings_same; [done|]. intros _ _ (sh & i & a & E & _). by rewrite Es in E.
Qed.

Lemma match_all_bindings msgs : bindings (merge_sort cand_le msgs) (match_all s agent contact now msgs).
Proof.
  unfold match_all. generalize (merge_sort cand_le msgs). intros l. induction l as [|m l IH] using rev_ind; [apply bindings_nil|].
  rewrite foldl_app. by apply bindings_step.
Qed.

End Matching.

Lemma accepted_auth ls a : a ∈ auths_in ls -> idRE (a_ID a) = true /\ shaRE (a_SHA256 a) = true.
Proof.
  intros (raw & _ & E)%list_elem_of_omap. destruct raw as [ln|]; [|done]. unfold auth_of, accepted in E.
  destruct (_ && kind_ok _) eqn:Ek; [|done]. destruct (ln_Created ln), (ln_Expires ln); simplify_eq. guards. by split.
Qed.

(** The bindings a matching makes may be written. *)
Lemma bindings_writable `{SHA256, Unicode} agent contact now P held msgs st :
  sound P held -> bindings (read_lines held) agent contact now msgs st -> Forall (bindable P held) (m_lines st).
Proof.
  intros Hs Hb. eapply Forall_impl; [apply Hb|]. intros ln (a & m & -> & Ha & _ & (_ & _ & Esha & _) & Hu & Hn & Hr & Hh).
  pose proof (rd_auths _ _ (read_lines_reads held) _ Ha) as Hin. destruct (accepted_auth _ _ Hin) as [Hi _].
  assert (El : shown_of (Some (shown_line a m now)) = Some (shown_line a m now)).
  { unfold shown_of, accepted. cbn [shown_line ln_V ln_ID ln_SHA256 ln_Op ln_MessageID]. by rewrite Hi, Hh, Hr. }
  split; [done|]. unfold writable. destruct (auth_of (Some (shown_line a m now))) eqn:Ea; [by rewrite (not_both _ _ Ea) in El|]. rewrite El. cbn.
  split_and!.
  - by eapply unused_unbound.
  - apply unshown_free; [apply Hs|done].
  - exists a. split_and!; [|done|done]. destruct (so_held _ _ Hs) as [k ->]. unfold auths_in. rewrite omap_app. apply elem_of_app. by right.
Qed.

End AgentShown.
