(* ===== verification/AgentHistory.v ===== *)
(** The agent ledger through a history of authorizations, matches, peeks and
    restarts: the caches stay true of the files, an authorization is shown as one
    message only, and what is shown was authorized. *)

From stdpp Require Import sorting.
From S2P Require Import Prelude Go Token Manifest AgentLedger AgentShown.

Module AgentHistory.
Import Manifest AgentLedger AgentShown.

(** * The caches *)

(** A cached entry whose signature is the file's holds what the file holds. *)
Record cached (d : Dir) (l : Ledger) : Prop := {
  ca_states : forall name e, l_states l !! name = Some e -> se_sig e = f_sig <$> d !! name -> se_s e = read_lines (lines_of d name);
  ca_hours : forall name h, l_hours l !! name = Some h -> h_sig h = f_sig <$> d !! name -> h_created h = created_of (s_auths (read_lines (lines_of d name)))
}.

(** No cached entry of the file has this signature. *)
Definition no_hit (l : Ledger) (name : string) (sig : Z) : Prop :=
  (forall e, l_states l !! name = Some e -> se_sig e <> Some sig) /\ (forall h, l_hours l !! name = Some h -> h_sig h <> Some sig).

Lemma cached_fresh d : cached d fresh_ledger.
Proof. by split. Qed.

Lemma stateOf_cached fs d name l l' r : cached d l -> stateOf fs d name l = (l', r) ->
  cached d l' /\ (forall s, r = Ok s -> s = read_lines (lines_of d name))
  /\ (forall name' sig, f_sig <$> d !! name' <> Some sig -> no_hit l name' sig -> no_hit l' name' sig).
Proof.
  intros Hc. unfold stateOf, fileSig. destruct (fs_sig fs name); [|by intros [= <- <-]].
  set (hit := match l_states l !! name with Some e => _ | None => None end).
  assert (Hh : forall s, hit = Some s -> s = read_lines (lines_of d name)).
  { intros s. unfold hit. destruct (l_states l !! name) as [e|] eqn:Ee; [|done]. case_decide; [|done]. intros [= <-]. by apply (ca_states _ _ Hc). }
  destruct hit as [s|]; [intros [= <- <-]; split_and!; [done|intros ? [= <-]; by apply Hh|done]|].
  unfold readContact. destruct (fs_read fs name).
  - intros [= <- <-]. split_and!; [|done|].
    + split; cbn; [|apply Hc]. intros name' e [_ He]%lookup_delete_Some. by apply (ca_states _ _ Hc).
    + intros name' sig _ [H1 H2]. split; cbn; [|done]. intros e [_ He]%lookup_delete_Some. by apply H1.
  - intros [= <- <-]. split_and!; [|by intros ? [= <-]|].
    + split; cbn; [|apply Hc]. intros name' e. rewrite lookup_insert_Some. intros [[<- <-]|[_ He]]; [done|by apply (ca_states _ _ Hc)].
    + intros name' sig Hn [H1 H2]. split; cbn; [|done]. intros e. rewrite lookup_insert_Some. intros [[<- <-]|[_ He]]; [done|by apply H1].
Qed.

(** The count of the hourly rate is the files'. *)
Definition created_in (d : Dir) (agent name : string) : list Time := default [] (created_of (s_auths (read_lines (lines_of d name))) !! agent).
Definition hour_count (d : Dir) (agent : string) (now : Time) (names : list string) : Z :=
  foldr (fun name n => recent now (created_in d agent name) + n) 0 names.

Lemma count_hours_cached fs d agent now names l l' r : cached d l -> count_hours fs d agent now names l = (l', r) ->
  cached d l' /\ (forall n, r = Ok n -> n = hour_count d agent now names)
  /\ (forall name' sig, f_sig <$> d !! name' <> Some sig -> no_hit l name' sig -> no_hit l' name' sig).
Proof.
  revert l l' r. induction names as [|name names IH]; intros l l' r Hc; cbn [count_hours hour_count foldr].
  { intros [= <- <-]. split_and!; [done|by intros ? [= <-]|done]. }
  unfold fileSig. destruct (fs_sig fs name); [|by intros [= <- <-]].
  set (got := match match l_hours l !! name with Some h => _ | None => None end with Some h => _ | None => _ end).
  assert (Hg : cached d got.1 /\ (forall h, got.2 = Ok h -> h_created h = created_of (s_auths (read_lines (lines_of d name))))
    /\ (forall name' sig, f_sig <$> d !! name' <> Some sig -> no_hit l name' sig -> no_hit got.1 name' sig)).
  { unfold got. destruct (l_hours l !! name) as [h|] eqn:Eh; [case_decide as Es|].
    1: split_and!; [done|intros ? [= <-]; by apply (ca_hours _ _ Hc)|done].
    all: unfold readContact; destruct (fs_read fs name); [done|]; cbn; split_and!; [|by intros ? [= <-]|].
    all: try (split; cbn; [apply Hc|]; intros name' h'; rewrite lookup_insert_Some; intros [[<- <-]|[_ He]]; [done|by apply (ca_hours _ _ Hc)]).
    all: intros name' sig Hn [H1 H2]; split; cbn; [done|]; intros h'; rewrite lookup_insert_Some; intros [[<- <-]|[_ He]]; [done|by apply H2]. }
  destruct got as [l1 [h|e]]; cbn [fst snd] in Hg; destruct Hg as (Hc1 & Hh & Hn1); [|by intros [= <- <-]].
  destruct (count_hours fs d agent now names l1) as [l2 r2] eqn:Er. destruct (IH _ _ _ Hc1 Er) as (Hc2 & Hr & Hn2).
  assert (Hn : forall name' sig, f_sig <$> d !! name' <> Some sig -> no_hit l name' sig -> no_hit l2 name' sig) by auto.
  destruct r2 as [n|e]; intros [= <- <-]; (split_and!; [done| |done]); [|done]. intros ? [= <-]. unfold created_in. rewrite (Hh _ eq_refl). by rewrite (Hr _ eq_refl).
Qed.

Lemma lastHour_cached fs d agent now l l' r : cached d l -> lastHour fs d agent now l = (l', r) ->
  cached d l' /\ (forall n, r = Ok n -> n = hour_count d agent now (contacts d))
  /\ (forall name' sig, f_sig <$> d !! name' <> Some sig -> no_hit l name' sig -> no_hit l' name' sig).
Proof. intros Hc. unfold lastHour. destruct (fs_list fs); [by apply count_hours_cached|by intros [= <- <-]]. Qed.

Lemma append_line_disk ap name ln d d' ok : append_line ap name ln d = (d', ok) ->
  (d' = d \/ f_sig <$> d' !! name = Some (ap_sig ap)) /\ (forall name', name' <> name -> d' !! name' = d !! name').
Proof.
  unfold append_line. destruct (rotated (d !! name)) as [cur old].
  destruct (ap_wrote ap); [| | |destruct (d !! name)]; intros [= <- <-]; (split; [|intros name' ?; by rewrite ?lookup_insert_ne by done]);
    first [by left | right; by rewrite lookup_insert_eq].
Qed.

Lemma cached_append ap name ln d d' ok l : cached d l -> no_hit l name (ap_sig ap) -> append_line ap name ln d = (d', ok) -> cached d' l.
Proof.
  intros Hc [H1 H2] Ea. apply append_line_disk in Ea as ([-> |Es] & Ho); [done|].
  split; intros name' e He E; (destruct (decide (name' = name)) as [->|Hne];
    [rewrite Es in E; exfalso; first [by apply (H1 e)|by apply (H2 e)]|unfold lines_of; rewrite Ho in * by done; by apply Hc]).
Qed.

Lemma cached_appends lines : forall ap name d d' ok l, cached d l -> (forall k, no_hit l name (ap_sig (ap k))) ->
  append_lines ap name lines d = (d', ok) -> cached d' l.
Proof.
  induction lines as [|ln lines IH]; intros ap name d d' ok l Hc Hn; cbn [append_lines]; [by intros [= <- <-]|].
  destruct (append_line (ap 0%nat) name ln d) as [d1 ok1] eqn:Ea. pose proof (cached_append _ _ _ _ _ _ _ Hc (Hn 0%nat) Ea) as Hc1.
  destruct ok1; [|by intros [= <- <-]]. apply IH; [done|]. intros k. apply Hn.
Qed.

Lemma append_line_dom ap name ln d d' ok : append_line ap name ln d = (d', ok) -> dom d' ⊆ {[name]} ∪ dom d.
Proof.
  unfold append_line. destruct (rotated (d !! name)). destruct (ap_wrote ap); [| | |destruct (d !! name)]; intros [= <- <-]; set_solver.
Qed.
Lemma append_lines_dom lines : forall ap name d d' ok, append_lines ap name lines d = (d', ok) -> dom d' ⊆ {[name]} ∪ dom d.
Proof.
  induction lines as [|ln lines IH]; intros ap name d d' ok; cbn [append_lines]; [intros [= <- <-]; set_solver|].
  destruct (append_line (ap 0%nat) name ln d) as [d1 []] eqn:Ea; apply append_line_dom in Ea; [intros E; apply IH in E; set_solver|by intros [= <- <-]].
Qed.

(** * Histories *)

(** The disk, the ledger of the running broker, and every line ever written to
    each file. *)
Record world := MkWorld { w_dir : gmap string file; w_led : Ledger; w_past : string -> list (option line) }.

(** The signature of a file changes with what is written to it: no append gives
    it the signature it has, nor one a cache still holds. *)
Definition new_sigs (fs : FS) (w : world) (name : string) : Prop :=
  forall k, let sig := ap_sig (fs_append fs k) in f_sig <$> w_dir w !! name <> Some sig /\ no_hit (w_led w) name sig.

Definition wrote_to (name : string) (ls : list (option line)) (past : string -> list (option line)) (name' : string) : list (option line) :=
  if decide (name' = name) then past name' ++ ls else past name'.

Section Histories.
Context `{SHA256, Unicode}.

(** The authorization reaches its append. *)
Definition allowed {E} (fs : FS) (a : Auth) (now : Time) (allow : View -> option E) (w : world) : bool :=
  idRE (a_ID a) && shaRE (a_SHA256 a) && kind_ok (a_Kind a) && negb (is_empty (a_Agent a)) && negb (is_empty (a_Contact a))
  && match lock fs with
     | Some _ => false
     | None => match viewLocked fs (w_dir w) (a_Agent a) (a_Contact a) now (w_led w) with (_, Ok v) => match allow v with None => true | Some _ => false end | _ => false end
     end.
Definition do_authorize {E} (fs : FS) (a : Auth) (now : Time) (allow : View -> option E) (w : world) : world * option (authError E) :=
  let '(d, l, r) := Authorize fs a now allow (w_dir w) (w_led w) in
  (MkWorld d l (if allowed fs a now allow w then wrote_to (FileFor (a_Contact a)) (left_by (fs_append fs 0%nat) (auth_line a)) (w_past w) else w_past w), r).

(** The bindings a call appends. *)
Definition to_write (fs : FS) (agent contact : string) (msgs : list Candidate) (now : Time) (write : bool) (w : world) : list line :=
  match lock fs with
  | Some _ => []
  | None =>
    match stateOf fs (w_dir w) (FileFor contact) (w_led w) with
    | (_, Ok s) => if write then m_lines (match_all s agent contact now msgs) else []
    | _ => []
    end
  end.
Definition do_match (fs : FS) (agent contact : string) (msgs : list Candidate) (now : Time) (write : bool) (w : world) : world * answer :=
  let '(d, l, r) := match_ fs agent contact msgs now write (w_dir w) (w_led w) in
  (MkWorld d l (wrote_to (FileFor contact) (left_by_all (fs_append fs) (to_write fs agent contact msgs now write w)) (w_past w)), r).

Definition do_view (fs : FS) (agent contact : string) (now : Time) (w : world) : world * result View ledgerError :=
  let '(l, r) := ViewOf fs (w_dir w) agent contact now (w_led w) in (MkWorld (w_dir w) l (w_past w), r).

(** A new broker opens the ledger anew. *)
Definition do_restart (w : world) : world := MkWorld (w_dir w) fresh_ledger (w_past w).

(** A contact's file has the name the hourly rate looks for. *)
Lemma hex_lower s : string_forallb is_lower_hex (Token.hex_encode s) = true.
Proof.
  induction s as [|c s IH]; [done|]. cbn [Token.hex_encode string_forallb]. rewrite IH, andb_true_r.
  pose proof (nat_ascii_bounded c) as Hc. assert (Hd : forall n, (n < 16)%nat -> is_lower_hex (Token.hex_digit n) = true) by (intros n Hn; do 16 (destruct n as [|n]; [reflexivity|]); lia).
  rewrite !Hd; [done|apply Nat.mod_upper_bound; lia|apply Nat.Div0.div_lt_upper_bound; lia].
Qed.

Lemma substring_head (a b : string) n : n = String.length a -> String.substring 0 n (a +:+ b) = a.
Proof.
  intros ->. induction a as [|c a IH]; [by destruct b|]. change (String c a +:+ b) with (String c (a +:+ b)). cbn [String.length String.substring]. by rewrite IH.
Qed.
Lemma substring_exact n : forall s, (n <= String.length s)%nat -> String.length (String.substring 0 n s) = n.
Proof. induction n as [|n IH]; intros [|c s] Hl; cbn in *; try done; try lia. by rewrite IH by lia. Qed.

Lemma FileFor_fileRE contact : fileRE (FileFor contact) = true.
Proof.
  unfold FileFor, fileRE. set (h := Token.hex_encode _).
  assert (Hl : String.length h = 24%nat).
  { unfold h. destruct (Token.hex_encode_shape (String.substring 0 12 (sha256_sum (ToLower contact)))) as [-> _]. rewrite substring_exact; [done|]. rewrite sha256_size. lia. }
  assert (Hh : string_forallb is_lower_hex h = true) by apply hex_lower.
  rewrite (HasPrefix_app "c-" (h +:+ ".jsonl")). change ("c-" +:+ h +:+ ".jsonl") with (String "c" (String "-" (h +:+ ".jsonl"))).
  change (String.substring 2 24 (String "c" (String "-" (h +:+ ".jsonl")))) with (String.substring 0 24 (h +:+ ".jsonl")). rewrite substring_head by done.
  unfold hex_word, len. rewrite Hl, Hh. cbn [andb].
  change (String "c" (String "-" (h +:+ ".jsonl"))) with (("c-" +:+ h) +:+ ".jsonl"). replace 26%nat with (String.length ("c-" +:+ h)) by (rewrite str_length_app, Hl; done).
  by rewrite drop_bytes_app, str_eqb_refl.
Qed.

Record wf (w : world) : Prop := {
  wf_sound : forall name, sound (w_past w name) (lines_of (w_dir w) name);
  wf_cached : cached (w_dir w) (w_led w);
  wf_filed : forall name a, a ∈ auths_in (w_past w name) -> FileFor (a_Contact a) = name;
  wf_names : forall name, name ∈ dom (w_dir w) -> fileRE name = true
}.

Definition fresh_id (a : Auth) (w : world) : Prop :=
  let P := w_past w (FileFor (a_Contact a)) in (a_ID a ∉ (ln_ID <$> shown_in P)) /\ (a_ID a ∉ (a_ID <$> auths_in P)).

Lemma wf_empty : wf (MkWorld ∅ fresh_ledger (fun _ => [])).
Proof. split; [intros name; apply sound_nil|apply cached_fresh|by intros name a Ha%elem_of_nil|cbn; set_solver]. Qed.

Lemma wf_restart w : wf w -> wf (do_restart w).
Proof. intros []. by split. Qed.

Lemma viewLocked_cached fs d agent contact now l l' r : cached d l -> viewLocked fs d agent contact now l = (l', r) ->
  cached d l' /\ (forall v, r = Ok v -> v = MkView (List.filter (for_contact agent contact) (s_auths (read_lines (lines_of d (FileFor contact)))))
                                         (hour_count d agent now (contacts d)))
  /\ (forall name' sig, f_sig <$> d !! name' <> Some sig -> no_hit l name' sig -> no_hit l' name' sig).
Proof.
  intros Hc. unfold viewLocked. destruct (stateOf fs d (FileFor contact) l) as [l1 r1] eqn:Es. apply stateOf_cached in Es as (Hc1 & Hs & Hn1); [|done].
  destruct r1 as [s|e]; [|by intros [= <- <-]]. destruct (lastHour fs d agent now l1) as [l2 r2] eqn:El. apply lastHour_cached in El as (Hc2 & Hh & Hn2); [|done].
  destruct r2 as [n|e]; intros [= <- <-]; (split_and!; [done| |by auto]); [|done]. intros v [= <-]. by rewrite (Hs _ eq_refl), (Hh _ eq_refl).
Qed.

Lemma auth_of_line a : idRE (a_ID a) = true -> shaRE (a_SHA256 a) = true -> kind_ok (a_Kind a) = true -> auth_of (Some (auth_line a)) = Some a.
Proof. intros H1 H2 H3. unfold auth_of, accepted. cbn. rewrite H1, H2, H3. by destruct a. Qed.

Lemma do_authorize_cases {E} fs a now (allow : View -> option E) w w' r : wf w -> do_authorize fs a now allow w = (w', r) ->
  (w_dir w' = w_dir w /\ w_past w' = w_past w /\ is_Some r /\ cached (w_dir w) (w_led w'))
  \/ (exists ok, append_line (fs_append fs 0%nat) (FileFor (a_Contact a)) (auth_line a) (w_dir w) = (w_dir w', ok)
      /\ r = (if ok then None else Some (Ledger_ ErrAppend))
      /\ w_past w' = wrote_to (FileFor (a_Contact a)) (left_by (fs_append fs 0%nat) (auth_line a)) (w_past w)
      /\ auth_of (Some (auth_line a)) = Some a /\ cached (w_dir w) (w_led w')
      /\ (new_sigs fs w (FileFor (a_Contact a)) -> forall k, no_hit (w_led w') (FileFor (a_Contact a)) (ap_sig (fs_append fs k)))
      /\ allow (MkView (List.filter (for_contact (a_Agent a) (a_Contact a)) (s_auths (read_lines (lines_of (w_dir w) (FileFor (a_Contact a))))))
                       (hour_count (w_dir w) (a_Agent a) now (contacts (w_dir w)))) = None).
Proof.
  intros [_ Hc _ _]. unfold do_authorize, Authorize, allowed.
  destruct (idRE (a_ID a)) eqn:E1; [|by intros [= <- <-]; left]. destruct (shaRE (a_SHA256 a)) eqn:E2; [|by intros [= <- <-]; left].
  destruct (kind_ok (a_Kind a)) eqn:E3; [|by intros [= <- <-]; left]. cbn [negb orb andb].
  destruct (is_empty (a_Agent a)); [by intros [= <- <-]; left|]. destruct (is_empty (a_Contact a)); [by intros [= <- <-]; left|]. cbn [negb orb andb].
  destruct (lock fs); [by intros [= <- <-]; left|].
  destruct (viewLocked fs (w_dir w) (a_Agent a) (a_Contact a) now (w_led w)) as [l1 r1] eqn:Ev. apply viewLocked_cached in Ev as (Hc1 & Hv & Hn); [|done].
  destruct r1 as [v|e]; [|by intros [= <- <-]; left]. specialize (Hv v eq_refl) as ->. destruct (allow _) eqn:Eal; [by intros [= <- <-]; left|].
  destruct (append_line _ _ _ _) as [d' ok] eqn:Ea. intros [= <- <-]. right. exists ok. split_and!; try done.
  - by apply auth_of_line.
  - intros Hf k. destruct (Hf k). by apply Hn.
Qed.

Lemma wrote_same name ls past : wrote_to name ls past name = past name ++ ls.
Proof. unfold wrote_to. by rewrite decide_True. Qed.
Lemma wrote_other name ls past name' : name' <> name -> wrote_to name ls past name' = past name'.
Proof. intros ?. unfold wrote_to. by rewrite decide_False. Qed.

Lemma auths_left_by ap ln a : a ∈ auths_in (left_by ap ln) -> auth_of (Some ln) = Some a.
Proof.
  intros (raw & Hin & E)%list_elem_of_omap. unfold left_by in Hin. destruct (ap_wrote ap);
    first [by apply elem_of_nil in Hin | apply list_elem_of_singleton in Hin as ->]; done.
Qed.

Lemma wf_authorize {E} fs a now (allow : View -> option E) w w' r :
  wf w -> fresh_id a w -> new_sigs fs w (FileFor (a_Contact a)) -> do_authorize fs a now allow w = (w', r) -> wf w'.
Proof.
  intros Hw Hf Hn E'. pose proof Hw as [Hs Hc Hfl Hna]. apply do_authorize_cases in E' as [(Ed & Ep & _ & Hc')|(ok & Ea & _ & Ep & Eau & Hc' & Hn' & _)]; [| |done].
  { split; rewrite ?Ed, ?Ep; try done. }
  pose proof (append_line_lines _ _ _ _ _ _ Ea) as (Hsuf & Ho & _). set (name := FileFor (a_Contact a)) in *.
  split.
  - intros name'. rewrite Ep. destruct (decide (name' = name)) as [->|Hne].
    + rewrite wrote_same. apply (sound_left _ _ _ (lines_of (w_dir w) name)); [done| |done]. unfold writable. rewrite Eau. exact Hf.
    + rewrite wrote_other, Ho by done. apply Hs.
  - eapply cached_append; [done|by apply Hn'|done].
  - intros name' b. rewrite Ep. destruct (decide (name' = name)) as [->|Hne]; [|rewrite wrote_other by done; apply Hfl].
    rewrite wrote_same. unfold auths_in. rewrite omap_app. intros [Hb|Hb]%elem_of_app; [by apply Hfl|]. apply auths_left_by in Hb. rewrite Eau in Hb. by injection Hb as <-.
  - intros name' Hin. apply (append_line_dom _ _ _ _ _ _ Ea) in Hin. apply elem_of_union in Hin as [->%elem_of_singleton|Hin]; [apply FileFor_fileRE|by apply Hna].
Qed.

(** ** Matching *)

Lemma match_cases fs agent contact msgs now write w w' r : wf w -> do_match fs agent contact msgs now write w = (w', r) ->
  let name := FileFor contact in let s := read_lines (lines_of (w_dir w) name) in let st := match_all s agent contact now msgs in
  cached (w_dir w) (w_led w') /\ (new_sigs fs w name -> forall k, no_hit (w_led w') name (ap_sig (fs_append fs k)))
  /\ ((w_dir w' = w_dir w /\ (forall name', w_past w' name' = w_past w name') /\ ((w_keep r = ∅ /\ is_Some (w_err r)) \/ (write = false /\ r = MkAnswer (m_keep st) (m_pending st) [] None)))
      \/ (write = true /\ exists ok, append_lines (fs_append fs) name (m_lines st) (w_dir w) = (w_dir w', ok)
          /\ w_past w' = wrote_to name (left_by_all (fs_append fs) (m_lines st)) (w_past w)
          /\ r = if ok then MkAnswer (m_keep st) (m_pending st) (m_bound st) None
                 else MkAnswer (m_keep st ∖ list_to_set (ln_MessageID <$> m_lines st)) ∅ [] (Some ErrAppend))).
Proof.
  intros [_ Hc _ _]. unfold do_match, match_, to_write. cbv zeta.
  assert (Hsame : forall name', wrote_to (FileFor contact) [] (w_past w) name' = w_past w name') by (intros name'; unfold wrote_to; case_decide; by rewrite ?app_nil_r).
  assert (Hold : new_sigs fs w (FileFor contact) -> forall k, no_hit (w_led w) (FileFor contact) (ap_sig (fs_append fs k))) by (intros Hf k; by destruct (Hf k)).
  destruct (lock fs); [intros [= <- <-]; split_and!; [done|done|left; split_and!; [done|done|by left]]|].
  destruct (stateOf fs (w_dir w) (FileFor contact) (w_led w)) as [l1 r1] eqn:Es. apply stateOf_cached in Es as (Hc1 & Hs & Hn); [|done].
  assert (Hnew : new_sigs fs w (FileFor contact) -> forall k, no_hit l1 (FileFor contact) (ap_sig (fs_append fs k))) by (intros Hf k; destruct (Hf k); by apply Hn).
  destruct r1 as [s|e]; [|intros [= <- <-]; split_and!; [done|done|left; split_and!; [done|done|by left]]].
  specialize (Hs s eq_refl) as ->. destruct write; cbn [negb].
  - destruct (append_lines _ _ _ _) as [d' ok] eqn:Ea. destruct ok; intros [= <- <-]; (split_and!; [done|done|right; split; [done|by eexists]]).
  - intros [= <- <-]. split_and!; [done|done|left; split_and!; [done|done|by right]].
Qed.

Lemma shown_not_auth ls a : Forall (fun raw => auth_of raw = None) ls -> a ∉ auths_in ls.
Proof. intros Hl (raw & Hin & E)%list_elem_of_omap. eapply list.Forall_forall in Hl; [|done]. congruence. Qed.

Lemma left_by_all_shown P held lines : forall ap, Forall (bindable P held) lines -> Forall (fun raw => auth_of raw = None) (left_by_all ap lines).
Proof.
  induction lines as [|ln lines IH]; intros ap Hb; cbn [left_by_all]; [done|]. inversion Hb as [|? ? [El _] Hb']; subst.
  apply Forall_app. split.
  - unfold left_by. destruct (ap_wrote (ap 0%nat)); repeat constructor. destruct (auth_of (Some ln)) eqn:Ea; [by rewrite (not_both _ _ Ea) in El|done].
  - destruct (ap_wrote (ap 0%nat)); [|done..]. destruct (ap_ok (ap 0%nat)); [by apply IH|done].
Qed.

Lemma wf_match fs agent contact msgs now write w w' r :
  wf w -> new_sigs fs w (FileFor contact) -> do_match fs agent contact msgs now write w = (w', r) -> wf w'.
Proof.
  intros Hw Hf E. pose proof Hw as [Hs Hc Hfl Hna]. apply match_cases in E as (Hc' & Hn & Hcase); [|done]. specialize (Hn Hf).
  destruct Hcase as [(Ed & Ep & _)|(_ & ok & Ea & Ep & _)].
  { split; [intros name; rewrite Ep, Ed; apply Hs|by rewrite Ed|intros name a; rewrite Ep; apply Hfl|by rewrite Ed]. }
  set (name := FileFor contact) in *. pose proof (match_all_bindings (read_lines (lines_of (w_dir w) name)) agent contact now msgs) as Hb.
  pose proof (bindings_writable _ _ _ _ _ _ _ (Hs name) Hb) as Hbw.
  destruct (sound_appends _ _ _ _ _ _ _ Hbw (bi_ids _ _ _ _ _ _ Hb) (bi_messages _ _ _ _ _ _ Hb) (Hs name) Ea) as (Hs' & Ho & _).
  split.
  - intros name'. rewrite Ep. destruct (decide (name' = name)) as [->|Hne]; [by rewrite wrote_same|]. rewrite wrote_other, Ho by done. apply Hs.
  - by eapply cached_appends.
  - intros name' a. rewrite Ep. destruct (decide (name' = name)) as [->|Hne]; [|rewrite wrote_other by done; apply Hfl].
    rewrite wrote_same. unfold auths_in. rewrite omap_app. intros [Ha|Ha]%elem_of_app; [by apply Hfl|].
    exfalso. revert Ha. apply shown_not_auth. by eapply left_by_all_shown.
  - intros name' Hin. apply (append_lines_dom _ _ _ _ _ _ Ea) in Hin. apply elem_of_union in Hin as [->%elem_of_singleton|Hin]; [apply FileFor_fileRE|by apply Hna].
Qed.

Lemma wf_view fs agent contact now w w' r : wf w -> do_view fs agent contact now w = (w', r) -> wf w'.
Proof.
  intros [Hs Hc Hfl Hna]. unfold do_view, ViewOf. destruct (lock fs); [by intros [= <- <-]|].
  destruct (viewLocked _ _ _ _ _ _) as [l r'] eqn:Ev. apply viewLocked_cached in Ev as (Hc' & _); [|done]. by intros [= <- <-].
Qed.

(** What the ledger does in a history. *)
Inductive lstep : world -> world -> Prop :=
| ls_authorize {E} fs a now (allow : View -> option E) w w' r :
    fresh_id a w -> new_sigs fs w (FileFor (a_Contact a)) -> do_authorize fs a now allow w = (w', r) -> lstep w w'
| ls_match fs agent contact msgs now write w w' r :
    new_sigs fs w (FileFor contact) -> do_match fs agent contact msgs now write w = (w', r) -> lstep w w'
| ls_view fs agent contact now w w' r : do_view fs agent contact now w = (w', r) -> lstep w w'
| ls_restart w : lstep w (do_restart w).

Lemma wf_step w w' : lstep w w' -> wf w -> wf w'.
Proof.
  intros [] Hw; [by eapply wf_authorize|by eapply wf_match|by eapply wf_view|by apply wf_restart].
Qed.

Lemma wf_steps w w' : rtc lstep w w' -> wf w -> wf w'.
Proof. induction 1; [done|]. eauto using wf_step. Qed.

(** What was written stays written. *)
Lemma past_step w w' name : wf w -> lstep w w' -> w_past w name `prefix_of` w_past w' name.
Proof.
  intros Hw Hst. assert (Hwr : forall n ls, w_past w name `prefix_of` wrote_to n ls (w_past w) name).
  { intros n ls. unfold wrote_to. case_decide; [by apply prefix_app_r|done]. }
  destruct Hst as [E fs a now allow w w' r Hf Hn E'|fs agent contact msgs now write w w' r Hn E'|fs agent contact now w w' r E'|w]; [| | |done].
  - apply do_authorize_cases in E' as [(_ & -> & _)|(ok & _ & _ & -> & _)]; done.
  - apply match_cases in E' as (_ & _ & [(_ & -> & _)|(_ & ok & _ & -> & _)]); done.
  - unfold do_view in E'. destruct (ViewOf _ _ _ _ _ _). by injection E' as <- <-.
Qed.

Lemma past_steps w w' name : wf w -> rtc lstep w w' -> w_past w name `prefix_of` w_past w' name.
Proof. intros Hw. induction 1 as [|w w1 w' Hs _ IH]; [done|]. etrans; [by apply past_step|]. apply IH. by eapply wf_step. Qed.

Lemma NoDup_same {A B} (f : A -> B) l x y : NoDup (f <$> l) -> x ∈ l -> y ∈ l -> f x = f y -> x = y.
Proof.
  induction l as [|z l IH]; [by intros _ ?%elem_of_nil|]. cbn. intros [Hz Hl]%NoDup_cons. rewrite !elem_of_cons. intros [->|Hx] [->|Hy] E; [done| | |by apply IH].
  - destruct Hz. rewrite E. by apply list_elem_of_fmap_2.
  - destruct Hz. rewrite <- E. by apply list_elem_of_fmap_2.
Qed.

Lemma shown_in_prefix l l' ln : l `prefix_of` l' -> ln ∈ shown_in l -> ln ∈ shown_in l'.
Proof. intros [k ->] Hin. unfold shown_in. rewrite omap_app. apply elem_of_app. by left. Qed.

Lemma reads_back w name a : wf w -> a ∈ s_auths (read_lines (lines_of (w_dir w) name)) -> a ∈ auths_in (w_past w name).
Proof.
  intros Hw Ha. apply (rd_auths _ _ (read_lines_reads _)) in Ha. destruct (so_held _ _ (wf_sound _ Hw name)) as [k ->].
  unfold auths_in. rewrite omap_app. apply elem_of_app. by right.
Qed.

(** A new binding stands on a record of the file. *)
Lemma new_is_recorded w name agent contact now msgs id : wf w ->
  let st := match_all (read_lines (lines_of (w_dir w) name)) agent contact now msgs in
  id ∈ m_shown st -> exists ln a m, ln ∈ m_lines st /\ ln = shown_line a m now /\ a ∈ auths_in (w_past w name) /\ m ∈ msgs /\ c_MessageID m = id
    /\ a_Agent a = agent /\ a_SHA256 a = c_SHA256 m.
Proof.
  intros Hw st. pose proof (match_all_bindings (read_lines (lines_of (w_dir w) name)) agent contact now msgs) as Hb.
  fold st in Hb. rewrite (bi_shown _ _ _ _ _ _ Hb), elem_of_list_to_set. intros (ln & -> & Hln)%list_elem_of_fmap.
  destruct (proj1 (list.Forall_forall _ _) (bi_lines _ _ _ _ _ _ Hb) ln Hln) as (a & m & -> & Ha & Hm & (E1 & _ & E2 & _) & _).
  rewrite (merge_sort_Permutation cand_le) in Hm. exists (shown_line a m now), a, m. split_and!; try done. by apply reads_back.
Qed.

(** So does one that was shown before: its line is in the file already. *)
Lemma before_is_recorded w name agent m : wf w -> shown_before (read_lines (lines_of (w_dir w) name)) agent m ->
  exists ln a, ln ∈ shown_in (w_past w name) /\ ln_MessageID ln = c_MessageID m /\ ln_ID ln = a_ID a
    /\ a ∈ auths_in (w_past w name) /\ a_Agent a = agent /\ a_SHA256 a = c_SHA256 m.
Proof.
  intros Hw (sh & i & a & E1 & E2 & E3 & E4 & E5). pose proof (wf_sound _ Hw name) as Hs. pose proof (read_lines_reads (lines_of (w_dir w) name)) as Hr.
  destruct (rd_shown _ _ Hr _ _ E1) as (Hsh & Em & _). destruct (rd_byID _ _ Hr _ _ E2) as (a' & E3' & Eid). rewrite E3 in E3'. injection E3' as <-.
  assert (Hsh' : sh ∈ shown_in (w_past w name)) by (destruct (so_held _ _ Hs) as [k ->]; unfold shown_in; rewrite omap_app; apply elem_of_app; by right).
  assert (Ha : a ∈ auths_in (w_past w name)) by (apply reads_back; [done|by eapply list_elem_of_lookup_2]).
  exists sh, a. split_and!; try done. destruct (so_backed _ _ Hs _ Hsh') as (b & Hb' & Ebid & Ebsha). rewrite <- E5, <- Ebsha.
  f_equal. eapply (NoDup_same a_ID); [by eapply auth_ids_once|done|done|]. by rewrite Ebid.
Qed.

(** What a match keeps stands on a record of the agent with the message's hash,
    in the contact's file; a match that writes leaves the binding in the file. *)
Lemma kept_is_recorded fs agent contact msgs now write w w' r id :
  wf w -> do_match fs agent contact msgs now write w = (w', r) -> id ∈ w_keep r ->
  exists a m, a ∈ auths_in (w_past w (FileFor contact)) /\ m ∈ msgs /\ c_MessageID m = id
    /\ a_Agent a = agent /\ a_SHA256 a = c_SHA256 m
    /\ (write = true -> exists ln, ln ∈ shown_in (w_past w' (FileFor contact)) /\ ln_MessageID ln = id /\ ln_ID ln = a_ID a).
Proof.
  intros Hw E Hk. apply match_cases in E as (_ & _ & Hcase); [|done]. set (name := FileFor contact) in *.
  set (s := read_lines (lines_of (w_dir w) name)) in *. pose proof (match_all_bindings s agent contact now msgs) as Hb.
  set (st := match_all s agent contact now msgs) in *. pose proof (wf_sound _ Hw name) as Hs. assert (Hr : reads (lines_of (w_dir w) name) s) by apply read_lines_reads.
  assert (Hin : forall m, m ∈ merge_sort cand_le msgs -> m ∈ msgs) by (intros m; by rewrite (merge_sort_Permutation cand_le)).
  pose proof (fun id => new_is_recorded w name agent contact now msgs id Hw) as Hnew.
  pose proof (fun m => before_is_recorded w name agent m Hw) as Hbefore.
  assert (Hkeep : forall id, id ∈ m_keep st -> id ∉ m_shown st -> exists m, m ∈ msgs /\ c_MessageID m = id /\ shown_before s agent m).
  { intros id' Hid Hn. apply (bi_keep _ _ _ _ _ _ Hb) in Hid as [?|(m & Hm & ? & _ & _ & ?)]; [done|]. exists m. auto. }
  destruct Hcase as [(_ & Ep & [[Ek _]|[-> ->]])|(-> & ok & Ea & Ep & ->)].
  - rewrite Ek in Hk. by apply not_elem_of_empty in Hk.
  - cbn in Hk. destruct (decide (id ∈ m_shown st)) as [Hsh|Hsh].
    + destruct (Hnew _ Hsh) as (ln & a & m & _ & _ & ? & ? & ? & ? & ?). exists a, m. split_and!; done.
    + destruct (Hkeep _ Hk Hsh) as (m & Hm & <- & Hb'). destruct (Hbefore m Hb') as (ln & a & ? & ? & ? & ? & ? & ?). exists a, m. split_and!; done.
  - rewrite Ep, wrote_same. pose proof (bindings_writable _ _ _ _ _ _ _ Hs Hb) as Hbw.
    destruct (sound_appends _ _ _ _ _ _ _ Hbw (bi_ids _ _ _ _ _ _ Hb) (bi_messages _ _ _ _ _ _ Hb) Hs Ea) as (_ & _ & Hok).
    assert (Hold : forall ln, ln ∈ shown_in (w_past w name) -> ln ∈ shown_in (w_past w name ++ left_by_all (fs_append fs) (m_lines st))) by (intros ln; apply shown_in_prefix; by eexists).
    destruct (decide (id ∈ m_shown st)) as [Hsh|Hsh].
    + destruct ok.
      * destruct (Hnew _ Hsh) as (ln & a & m & Hln & -> & ? & ? & ? & ? & ?). exists a, m. split_and!; try done. intros _. exists (shown_line a m now).
        split_and!; try done. rewrite (Hok eq_refl). unfold shown_in. rewrite omap_app. apply elem_of_app. right. apply list_elem_of_omap.
        exists (Some (shown_line a m now)). split; [by apply list_elem_of_fmap_2|]. eapply list.Forall_forall in Hbw as [? _]; done.
      * cbn in Hk. apply elem_of_difference in Hk as [_ Hk]. by rewrite (bi_shown _ _ _ _ _ _ Hb) in Hsh.
    + assert (Hk' : id ∈ m_keep st) by (destruct ok; cbn in Hk; [done|by apply elem_of_difference in Hk as [? _]]).
      destruct (Hkeep _ Hk' Hsh) as (m & Hm & <- & Hb'). destruct (Hbefore m Hb') as (ln & a & ? & ? & ? & ? & ? & ?). exists a, m. split_and!; try done.
      intros _. exists ln. auto.
Qed.

Definition ledger0 : world := MkWorld ∅ fresh_ledger (fun _ => []).

(** C17: A message a contact's page keeps stands on one authorization of that agent
    with the sha256 of the message's text, recorded in the contact's file; and in
    whatever follows - authorizations, matches, failed and torn appends,
    rotations, restarts - no other message is ever bound to that authorization. *)
Theorem authorization_shows_once fs agent contact msgs now w w' r id :
  rtc lstep ledger0 w -> new_sigs fs w (FileFor contact) -> do_match fs agent contact msgs now true w = (w', r) -> id ∈ w_keep r ->
  exists a m, a ∈ auths_in (w_past w (FileFor contact)) /\ a_Agent a = agent /\ m ∈ msgs /\ c_MessageID m = id /\ a_SHA256 a = c_SHA256 m
    /\ forall w'' ln, rtc lstep w' w'' -> ln ∈ shown_in (w_past w'' (FileFor contact)) -> ln_ID ln = a_ID a -> ln_MessageID ln = id.
Proof.
  intros Hreach Hf E Hk. pose proof (wf_steps _ _ Hreach wf_empty) as Hw. destruct (kept_is_recorded _ _ _ _ _ _ _ _ _ _ Hw E Hk) as (a & m & Ha & Hm & Em & Eag & Esh & Hln).
  destruct (Hln eq_refl) as (l0 & Hl0 & El0 & Eid). exists a, m. split_and!; try done. intros w'' ln Hs Hin Ei.
  assert (Hw' : wf w') by by eapply wf_match. pose proof (wf_steps _ _ Hs Hw') as Hw''. rewrite <- El0. f_equal.
  eapply (NoDup_same ln_ID); [apply (so_once _ _ (wf_sound _ Hw'' (FileFor contact)))|done| |by rewrite Ei, Eid].
  eapply shown_in_prefix; [|exact Hl0]. by apply past_steps.
Qed.

(** What the operator's peek answers is what the contact's own read would keep,
    and it leaves the records alone. *)
Lemma peek_is_match fs agent contact msgs now w w1 r1 w2 r2 : wf w ->
  do_match fs agent contact msgs now false w = (w1, r1) -> do_match fs agent contact msgs now true w = (w2, r2) -> w_err r2 = None ->
  w_keep r1 = w_keep r2 /\ w_pending r1 = w_pending r2 /\ w_dir w1 = w_dir w /\ forall name, w_past w1 name = w_past w name.
Proof.
  intros Hw. unfold do_match, match_, to_write. destruct (lock fs); [by intros [= <- <-] [= <- <-]|].
  destruct (stateOf _ _ _ _) as [l [s|e]]; [|by intros [= <- <-] [= <- <-]]. cbn [negb]. intros [= <- <-].
  destruct (append_lines _ _ _ _) as [d' []]; intros [= <- <-]; [|done]. intros _. split_and!; [done..|].
  intros name. cbn. unfold wrote_to. case_decide; by rewrite ?app_nil_r.
Qed.

End Histories.

End AgentHistory.
