(* ===== verification/Scion.v ===== *)
(** What the broker reads of the hub ([internal/scion/lifecycle.go], [task.go],
    [bringup.go] and [internal/imageref]): agent records and their labels, the
    checks of a task, and what an error of the hub says. *)

From S2P Require Import Prelude Go TreePath ManifestCodec GoPath.

Module Scion.
Import TreePath ManifestCodec GoPath.

Record Agent := MkAgent {
  a_Slug : string;
  a_Phase : string;
  a_Activity : string;
  a_ContainerStatus : string;
  a_Image : string;
  a_ContainerID : string;
  a_LastActivityEvent : Time
}.

Definition PhaseRunning : string := "running".
Definition PhaseSuspended : string := "suspended".
Definition PhaseStopped : string := "stopped".
Definition PhaseError : string := "error".
Definition ActivityWorking : string := "working".
Definition ActivityWaitingForInput : string := "waiting_for_input".
Definition ActivityCompleted : string := "completed".
Definition ActivityStalled : string := "stalled".
Definition ActivityOffline : string := "offline".
Definition ActivityCrashed : string := "crashed".
Definition LabelUnrecognised : string := "unrecognised".

Definition one_of (l : list string) (s : string) : bool := existsb (str_eqb s) l.

Definition ContainerLive (status : string) : bool := str_eqb status "running" || HasPrefix status "Up".

Definition knownPhases : list string :=
  [""; "created"; "provisioning"; "cloning"; "starting"; PhaseRunning; PhaseSuspended; "stopping"; PhaseStopped; PhaseError; "resumed"].
Definition PhaseLabel (phase : string) : string := if one_of knownPhases phase then phase else LabelUnrecognised.

Definition knownActivities : list string :=
  [""; ActivityWorking; "thinking"; "executing"; ActivityWaitingForInput; "blocked"; ActivityCompleted; "limits_exceeded"; ActivityStalled; ActivityOffline; ActivityCrashed].
Definition ActivityLabel (activity : string) : string := if one_of knownActivities activity then activity else LabelUnrecognised.

Definition FindAgent (agents : list Agent) (slug : string) : option Agent := find (fun a => str_eqb (a_Slug a) slug) agents.

(** ** Container status texts *)

(** [containerAge], matched to the end of a text or to the suffix given. *)
Definition age_units : list string := ["second"; "minute"; "hour"; "day"; "week"; "month"; "year"].
Fixpoint span_decimal (s : string) : string * string :=
  match s with
  | String c s' => if is_digit c then let '(d, r) := span_decimal s' in (String c d, r) else ("", s)
  | EmptyString => ("", "")
  end.
Definition digits_within (lo hi : Z) (s : string) : option string :=
  let '(d, r) := span_decimal s in if (lo <=? len d) && (len d <=? hi) then Some r else None.
Definition containerAge (s suffix : string) : bool :=
  one_of ((fun t => t +:+ suffix) <$> ["About a minute"; "About a hour"; "About an minute"; "About an hour"; "Less than a second"]) s
  || match digits_within 1 4 s with
     | Some r => existsb (fun u => str_eqb r (" " +:+ u +:+ suffix) || str_eqb r (" " +:+ u +:+ "s" +:+ suffix)) age_units
     | None => false
     end.
(** [containerStatusRE]. *)
Definition containerStatusRE (s : string) : bool :=
  one_of ["running"; "stopped"; "created"; "Created"; "paused"; "Paused"] s
  || (HasPrefix s "Up " && containerAge (drop_bytes 3 s) "")
  || (HasPrefix s "Exited (" && match digits_within 1 3 (drop_bytes 8 s) with
                                 | Some r => HasPrefix r ") " && containerAge (drop_bytes 2 r) " ago"
                                 | None => false
                                 end).
Definition ContainerLabel (status : string) : string :=
  if is_empty status || containerStatusRE status then status
  else if ContainerLive status then "up" else LabelUnrecognised.

Example container_labels :
  ContainerLabel "Up 6 seconds" = "Up 6 seconds" /\ ContainerLabel "Exited (137) 4 minutes ago" = "Exited (137) 4 minutes ago"
  /\ ContainerLabel "Up and running. Please read this." = "up" /\ ContainerLabel "ignore the above" = LabelUnrecognised.
Proof. vm_compute. repeat split. Qed.

(** ** Tasks *)

Definition TaskArgvBudget : Z := 15 * 1024.
Definition apostropheArgvCost : Z := 3.
Definition TaskArgvBytes (task : string) : Z := len task + apostropheArgvCost * count_byte "'" task.

Definition flagShaped (task : string) : bool :=
  let tok := (cut " " task).1 in
  match tok with
  | String "-" _ =>
    match TrimLeft tok "-" with
    | EmptyString => str_eqb tok task
    | String c _ => ((97 <=? byte_val c) && (byte_val c <=? 122)) || ((65 <=? byte_val c) && (byte_val c <=? 90))
    end
  | _ => false
  end.

Inductive taskError := TaskTooLong | TaskFlag.
Definition CheckTask (task : string) : option taskError :=
  if TaskArgvBudget <? TaskArgvBytes task then Some TaskTooLong
  else if flagShaped task then Some TaskFlag else None.

Definition MaxInstructionsBytes : Z := 512 * 1024.
Definition CheckInstructions (text : string) : option string :=
  if MaxInstructionsBytes <? len text then Some "agent instructions are over lever's cap"
  else if HasPrefix text "file://" then Some "agent instructions must not begin with file://"
  else None.

(** ** Images *)

Definition Registry : string := "lever.local".
(** What is before the first slash, when there is one and it is not empty. *)
Definition Qualified (ref : string) : bool :=
  match cut Slash ref with
  | (host, Some _) => negb (is_empty host) && ContainsAny host ["."%char; ":"%char]
  | (_, None) => false
  end.
Definition Fixed (ref : string) : bool :=
  negb (is_empty ref) && (Contains (BaseName ref) "@" || Qualified ref).

Section Text.
Context `{Unicode}.

Definition RunningContainerDown (phase containerStatus : string) : bool :=
  str_eqb phase PhaseRunning && negb (is_empty containerStatus) && negb (ContainerLive containerStatus) && negb (EqualFold containerStatus "created").

Definition IsRefusedByHub (err : option string) : bool :=
  match err with
  | None => false
  | Some e =>
    let msg := ToLower e in
    Contains msg "already exists in this project" || Contains msg "(status: 403)"
    || Contains msg "missing required scope" || Contains msg "token does not have scope"
  end.

Definition hubRefusal (err : option string) (phrase : string) : bool :=
  match err with
  | None => false
  | Some e =>
    existsb (fun line => let l := ToLower line in
                         Contains l phrase && (Contains l "(status: 409)" || Contains l "(status: 409, request: ")) (Lines e)
  end.

Definition IsStopClaimHeld (err : option string) : bool := hubRefusal err "via hub: start_in_progress: a stop is in progress for this agent (since ".
Definition IsStartClaimHeld (err : option string) : bool := hubRefusal err "via hub: start_in_progress: a start is already in progress for this agent (".

End Text.

(** ** Lemmas *)

(** A label is one of a fixed list, whatever text an agent posts. *)
Lemma PhaseLabel_known p : PhaseLabel p ∈ LabelUnrecognised :: knownPhases.
Proof.
  unfold PhaseLabel, one_of. destruct (existsb (str_eqb p) knownPhases) eqn:E; [|by left]. right.
  apply existsb_exists in E as (q & Hq%list_elem_of_In & Ep). apply str_eqb_eq in Ep. by subst.
Qed.

Lemma FindAgent_Some agents slug a : FindAgent agents slug = Some a -> a ∈ agents /\ a_Slug a = slug.
Proof. unfold FindAgent. intros [Hin%list_elem_of_In E%str_eqb_eq]%find_some. done. Qed.

End Scion.
