(* ===== verification/Live.v ===== *)
(** An agent coming live, and staying so ([internal/scion/lifecycle.go]): the
    gate behind every start and resume, which trusts only the record the hub
    lists, never what scion says of its own success. *)

From S2P Require Import Prelude Go TreePath GoPath Scion Wait.

Module Live.
Import Scion Wait.

(** * The settle window *)

Inductive listErr := ErrAgentListTooLarge (text : string) | ListFailed (text : string).
Definition list_text (e : listErr) : string := match e with ErrAgentListTooLarge t | ListFailed t => t end.

(** One turn of the window's loop: the context's error when it ended before the
    wait did, the list, and the time since the window began, read after it. *)
Record tick := MkTick { t_done : option string; t_list : result (list Agent) listErr; t_elapsed : Duration }.

(** What became of the window. *)
Inductive holdEnd := Held | CtxDone (err : string) | TooLarge (err : string) | AgentDied (phase container : string) (after : Duration) | Unverified (lastErr : option string).

Record window := MkWindow { w_observed : bool; w_strikes : Z; w_graceLeft : Z; w_phase : string; w_container : string; w_lastErr : option string }.

Definition strikeGrace : Z := 3.
Definition opened : window := MkWindow false 0 strikeGrace "" "" None.

Definition phase_of (agents : list Agent) (slug : string) : string * string :=
  match FindAgent agents slug with Some a => (a_Phase a, a_ContainerStatus a) | None => ("", "") end.

(** The strikes a reading leaves. *)
Definition struck (phase container : string) (strikes : Z) : Z :=
  if str_eqb phase "running" && ContainerLive container then 0
  else if str_eqb phase "running" && is_empty container then strikes
  else strikes + 1.

(** The end of a turn: whether the window is over. *)
Definition over (settle elapsed : Duration) (w : window) : holdEnd + window :=
  if settle <=? elapsed then
    if w_strikes w =? 0 then inl (if w_observed w then Held else Unverified (w_lastErr w))
    else
      let w := MkWindow (w_observed w) (w_strikes w) (w_graceLeft w - 1) (w_phase w) (w_container w) (w_lastErr w) in
      if w_graceLeft w <=? 0 then inl (Unverified (w_lastErr w)) else inr w
  else inr w.

Definition hold_turn (slug : string) (settle : Duration) (t : tick) (w : window) : holdEnd + window :=
  match t_done t with
  | Some err => inl (CtxDone err)
  | None =>
    match t_list t with
    | Err (ErrAgentListTooLarge err) => inl (TooLarge err)
    | Err (ListFailed err) => over settle (t_elapsed t) (MkWindow (w_observed w) (w_strikes w) (w_graceLeft w) (w_phase w) (w_container w) (Some err))
    | Ok agents =>
      let '(phase, container) := phase_of agents slug in
      let strikes := struck phase container (w_strikes w) in
      if (w_strikes w <? strikes) && (2 <=? strikes) then inl (AgentDied phase container (t_elapsed t))
      else over settle (t_elapsed t) (MkWindow true strikes (w_graceLeft w) phase container None)
    end
  end.

Fixpoint hold_loop (fuel : nat) (slug : string) (settle : Duration) (ticks : nat -> tick) (k : nat) (w : window) : option (holdEnd * nat) :=
  match fuel with
  | O => None
  | S fuel => match hold_turn slug settle (ticks k) w with inl h => Some (h, S k) | inr w => hold_loop fuel slug settle ticks (S k) w end
  end.

(** What the loop waits for before each list. *)
Definition hold_interval (interval : Duration) : Duration := if interval <=? 0 then 10 ^ 9 else interval.

(** [holdLive], with the number of its turns. *)
Definition holdLive (fuel : nat) (slug : string) (settle : Duration) (ticks : nat -> tick) : option (holdEnd * nat) :=
  hold_loop fuel slug settle ticks 0 opened.

(** * What a window says *)

(** The readings that decide: live, or not live. A failed list and a blank
    container column say nothing. *)
Definition reading (slug : string) (t : tick) : option bool :=
  match t_list t with
  | Err _ => None
  | Ok agents =>
    let '(phase, container) := phase_of agents slug in
    if str_eqb phase "running" && ContainerLive container then Some true
    else if str_eqb phase "running" && is_empty container then None
    else Some false
  end.
Definition decisive (slug : string) (ticks : nat -> tick) (n : nat) : list bool := omap (fun k => reading slug (ticks k)) (seq 0 n).
Definition observed (ticks : nat -> tick) (n : nat) : Prop := exists k agents, (k < n)%nat /\ t_list (ticks k) = Ok agents.

(** No two readings in a row that were not live. *)
Definition never_twice (l : list bool) : Prop := forall a b, l <> a ++ [false; false] ++ b.

Lemma decisive_S slug ticks n : decisive slug ticks (S n) = decisive slug ticks n ++ match reading slug (ticks n) with Some b => [b] | None => [] end.
Proof. unfold decisive. rewrite seq_S, omap_app. cbn. by destruct (reading slug (ticks n)). Qed.

Lemma never_twice_snoc l b : never_twice l -> (last l = Some false -> b = true) -> never_twice (l ++ [b]).
Proof.
  intros Hl Hb a c E. destruct c as [|x c] using rev_ind.
  - rewrite app_nil_r in E. change [false; false] with ([false] ++ [false]) in E. rewrite app_assoc in E. apply app_inj_tail in E as [-> ->].
    rewrite last_snoc in Hb. by specialize (Hb eq_refl).
  - rewrite !app_assoc in E. apply app_inj_tail in E as [-> _]. by apply (Hl a c); rewrite <- app_assoc.
Qed.

(** The window's variables, and the readings they count. *)
Record counts (slug : string) (ticks : nat -> tick) (n : nat) (w : window) : Prop := MkCounts {
  ct_observed : w_observed w = true <-> observed ticks n;
  ct_strikes : w_strikes w = match last (decisive slug ticks n) with Some false => 1 | _ => 0 end;
  ct_twice : never_twice (decisive slug ticks n);
  ct_quiet : forall k, (k < n)%nat -> t_done (ticks k) = None /\ forall e, t_list (ticks k) <> Err (ErrAgentListTooLarge e)
}.

Lemma counts_opened slug ticks : counts slug ticks 0 opened.
Proof. constructor; [|done|by intros [|]|lia]. split; [done|]. intros (k & ? & ? & _). lia. Qed.

Lemma observed_S ticks n : observed ticks (S n) <-> observed ticks n \/ exists agents, t_list (ticks n) = Ok agents.
Proof.
  split.
  - intros (k & a & Hk & E). destruct (decide (k = n)) as [->|]; [right; eauto|]. left. exists k, a. split; [lia|done].
  - intros [(k & a & Hk & E)|(a & E)]; [exists k, a|exists n, a]; (split; [lia|done]).
Qed.

(** What a turn that goes on, or ends at its deadline, has counted. *)
Lemma counts_turn slug ticks n w : counts slug ticks n w -> t_done (ticks n) = None -> (forall e, t_list (ticks n) <> Err (ErrAgentListTooLarge e)) ->
  (last (decisive slug ticks n) = Some false -> reading slug (ticks n) <> Some false) ->
  forall w', w_observed w' = (match t_list (ticks n) with Ok _ => true | Err _ => w_observed w end) ->
  w_strikes w' = match reading slug (ticks n) with Some true => 0 | Some false => w_strikes w + 1 | None => w_strikes w end -> counts slug ticks (S n) w'.
Proof.
  intros [C1 C2 C3 C4] Hd Hl Hr w' Ho Hs. constructor.
  - rewrite Ho, observed_S. destruct (t_list (ticks n)) as [agents|e] eqn:E; [split; [right; eauto|done]|]. rewrite C1. split; [by left|]. intros [?|(a & [=])]; done.
  - rewrite Hs, decisive_S. destruct (reading slug (ticks n)) as [[|]|] eqn:E; rewrite ?last_snoc, ?app_nil_r; [done| |done].
    rewrite C2. destruct (last (decisive slug ticks n)) as [[|]|]; [done| |done]. by destruct Hr.
  - rewrite decisive_S. destruct (reading slug (ticks n)) as [b|] eqn:E; [|by rewrite app_nil_r]. apply never_twice_snoc; [done|]. intros El.
    destruct b; [done|]. by destruct Hr.
  - intros k Hk. destruct (decide (k = n)) as [->|]; [done|]. apply C4. lia.
Qed.

Lemma struck_reading slug t agents phase container strikes : t_list t = Ok agents -> phase_of agents slug = (phase, container) ->
  struck phase container strikes = match reading slug t with Some true => 0 | Some false => strikes + 1 | None => strikes end.
Proof. intros El Ep. unfold reading, struck. rewrite El, Ep. destruct (_ && _); [done|]. by destruct (_ && _). Qed.

(** What ended the window. *)
Definition verdict (slug : string) (settle : Duration) (ticks : nat -> tick) (n : nat) (h : holdEnd) : Prop :=
  match h with
  | Held => observed ticks (S n) /\ never_twice (decisive slug ticks (S n)) /\ last (decisive slug ticks (S n)) <> Some false /\ settle <= t_elapsed (ticks n)
  | CtxDone e => t_done (ticks n) = Some e
  | TooLarge e => t_list (ticks n) = Err (ErrAgentListTooLarge e)
  | AgentDied phase container after => (exists l, decisive slug ticks (S n) = l ++ [false; false])
      /\ (exists agents, t_list (ticks n) = Ok agents /\ phase_of agents slug = (phase, container)) /\ after = t_elapsed (ticks n)
  | Unverified _ => never_twice (decisive slug ticks (S n)) /\ settle <= t_elapsed (ticks n) /\ (~ observed ticks (S n) \/ last (decisive slug ticks (S n)) = Some false)
  end.

Lemma over_verdict slug settle ticks n w : counts slug ticks (S n) w ->
  match over settle (t_elapsed (ticks n)) w with
  | inl h => verdict slug settle ticks n h
  | inr w' => counts slug ticks (S n) w' /\ w_graceLeft w' = (if settle <=? t_elapsed (ticks n) then w_graceLeft w - 1 else w_graceLeft w) /\ 0 < w_graceLeft w' \/ (t_elapsed (ticks n) < settle /\ w' = w)
  end.
Proof.
  intros Hc. pose proof Hc as [C1 C2 C3 C4]. unfold over. destruct (Z.leb_spec settle (t_elapsed (ticks n))) as [Hs|Hs]; [|by right].
  destruct (Z.eqb_spec (w_strikes w) 0) as [E0|E0].
  - destruct (w_observed w) eqn:Eo; cbn [verdict]; split_and!; try done.
    + by apply C1.
    + rewrite C2 in E0. intros El. rewrite El in E0. done.
    + left. intros Hob. apply C1 in Hob. congruence.
  - cbv zeta. cbn [w_graceLeft w_lastErr]. destruct (Z.leb_spec (w_graceLeft w - 1) 0) as [Hg|Hg].
    + cbn [verdict]. split_and!; [done..|]. right. rewrite C2 in E0. by destruct (last _) as [[|]|].
    + left. split; [by constructor|]. done.
Qed.

Lemma hold_turn_counts slug settle ticks n w : counts slug ticks n w ->
  match hold_turn slug settle (ticks n) w with
  | inl h => verdict slug settle ticks n h
  | inr w' => counts slug ticks (S n) w'
      /\ ((settle <= t_elapsed (ticks n) /\ w_graceLeft w' = w_graceLeft w - 1 /\ 0 < w_graceLeft w') \/ (t_elapsed (ticks n) < settle /\ w_graceLeft w' = w_graceLeft w))
  end.
Proof.
  intros Hc. pose proof Hc as [C1 C2 C3 C4]. unfold hold_turn. destruct (t_done (ticks n)) as [e|] eqn:Ed; [exact Ed|].
  assert (Hover : forall w', counts slug ticks (S n) w' -> w_graceLeft w' = w_graceLeft w ->
    match over settle (t_elapsed (ticks n)) w' with
    | inl h => verdict slug settle ticks n h
    | inr w2 => counts slug ticks (S n) w2
        /\ ((settle <= t_elapsed (ticks n) /\ w_graceLeft w2 = w_graceLeft w - 1 /\ 0 < w_graceLeft w2) \/ (t_elapsed (ticks n) < settle /\ w_graceLeft w2 = w_graceLeft w))
    end).
  { intros w' Hc' Hg. pose proof (over_verdict slug settle ticks n w' Hc') as Ho. destruct (over _ _ _) as [h|w2]; [done|].
    destruct Ho as [(H1 & H2 & H3)|[H1 ->]]; [|split; [done|right; done]]. split; [done|]. destruct (Z.leb_spec settle (t_elapsed (ticks n))); [left|right]; split_and!; lia. }
  destruct (t_list (ticks n)) as [agents|[e|e]] eqn:El; [|exact El|].
  - destruct (phase_of agents slug) as [phase container] eqn:Ep. cbv zeta. pose proof (struck_reading slug (ticks n) agents phase container (w_strikes w) El Ep) as Hs.
    destruct ((w_strikes w <? struck phase container (w_strikes w)) && (2 <=? struck phase container (w_strikes w))) eqn:Edead.
    + apply andb_prop in Edead as [E1%Z.ltb_lt E2%Z.leb_le]. rewrite Hs in E1, E2. rewrite C2 in E1, E2. cbn [verdict].
      destruct (reading slug (ticks n)) as [[|]|] eqn:Er; [lia| |lia]. destruct (last (decisive slug ticks n)) as [[|]|] eqn:Elast; [lia| |lia].
      split_and!; [|by exists agents|done]. apply last_Some in Elast as [l Hl]. exists l. by rewrite decisive_S, Er, Hl, <- app_assoc.
    + apply Hover; [|done]. apply (counts_turn slug ticks n w Hc); [done|intros e; by rewrite El| |by rewrite El|exact Hs].
      intros Elast Er. rewrite Hs, C2, Elast, Er in Edead. done.
  - apply Hover; [|done]. assert (Er : reading slug (ticks n) = None) by (unfold reading; by rewrite El).
    apply (counts_turn slug ticks n w Hc); [done|intros e'; by rewrite El|by rewrite Er|by rewrite El|by rewrite Er].
Qed.

Lemma hold_loop_verdict slug settle ticks fuel : forall k w h n, counts slug ticks k w -> hold_loop fuel slug settle ticks k w = Some (h, n) ->
  exists m, n = S m /\ (forall j, (j < m)%nat -> t_done (ticks j) = None /\ forall e, t_list (ticks j) <> Err (ErrAgentListTooLarge e)) /\ verdict slug settle ticks m h.
Proof.
  induction fuel as [|fuel IH]; intros k w h n Hc; [done|]. cbn [hold_loop]. pose proof (hold_turn_counts slug settle ticks k w Hc) as Ht.
  destruct (hold_turn _ _ _ _) as [h'|w']; [|destruct Ht as [Ht _]; by apply IH]. intros [= <- <-]. exists k. split_and!; [done|apply Hc|done].
Qed.

(** What the settle window answers is what its readings show, where a reading is
    a successful list that says live or not live, and a failed list or a blank
    container column decides nothing. It passes only with a successful list, at
    or after the window's end, the last reading live and no two readings in a row
    that were not; it says the agent died exactly on the second such reading in a
    row; and it is unverified only past the window's end, with no successful list
    or a reading still unconfirmed. *)
Theorem window_says_what_it_saw slug settle ticks fuel h n : holdLive fuel slug settle ticks = Some (h, n) ->
  exists m, n = S m /\ (forall j, (j < m)%nat -> t_done (ticks j) = None /\ forall e, t_list (ticks j) <> Err (ErrAgentListTooLarge e)) /\ verdict slug settle ticks m h.
Proof. apply hold_loop_verdict, counts_opened. Qed.

(** ** The window ends *)

Lemma hold_loop_ends slug settle ticks interval : 0 < interval -> (forall k, Z.of_nat (S k) * interval <= t_elapsed (ticks k)) -> forall fuel k w,
  counts slug ticks k w -> 0 < w_graceLeft w ->
  Z.max 0 (settle - Z.of_nat k * interval + interval - 1) / interval + w_graceLeft w <= Z.of_nat fuel ->
  exists h n, hold_loop fuel slug settle ticks k w = Some (h, n) /\ Z.of_nat n <= Z.of_nat k + Z.max 0 (settle - Z.of_nat k * interval + interval - 1) / interval + w_graceLeft w.
Proof.
  intros Hi Hclock. induction fuel as [|fuel IH]; intros k w Hc Hg Hf.
  { exfalso. pose proof (Z.div_pos (Z.max 0 (settle - Z.of_nat k * interval + interval - 1)) interval ltac:(lia) Hi). lia. }
  cbn [hold_loop]. pose proof (hold_turn_counts slug settle ticks k w Hc) as Ht. pose proof (Z.div_pos (Z.max 0 (settle - Z.of_nat k * interval + interval - 1)) interval ltac:(lia) Hi) as Hpos.
  destruct (hold_turn _ _ _ _) as [h|w']; [exists h, (S k); split; [done|lia]|]. destruct Ht as [Hc' Hgrace].
  assert (Hstep : Z.max 0 (settle - Z.of_nat (S k) * interval + interval - 1) / interval + w_graceLeft w' + 1 <= Z.max 0 (settle - Z.of_nat k * interval + interval - 1) / interval + w_graceLeft w).
  { specialize (Hclock k). destruct Hgrace as [(H1 & -> & H3)|(H1 & ->)].
    - enough (Z.max 0 (settle - Z.of_nat (S k) * interval + interval - 1) / interval <= Z.max 0 (settle - Z.of_nat k * interval + interval - 1) / interval) by lia.
      apply Z.div_le_mono; lia.
    - set (y := settle - Z.of_nat (S k) * interval + interval - 1). assert (Hy : 0 < y) by (subst y; lia).
      replace (settle - Z.of_nat k * interval + interval - 1) with (y + 1 * interval) by (subst y; lia). rewrite !Z.max_r by lia. rewrite Z.div_add by lia. lia. }
  destruct (IH (S k) w' Hc') as (h & n & E & Hn); [|lia|]; [destruct Hgrace as [(_ & _ & ?)|(_ & ->)]; lia|]. exists h, n. split; [exact E|lia].
Qed.

(** C15: The settle window ends: where each turn waits at least the interval, it takes
    at most the turns that fill the window, and the grace past its end. *)
Theorem window_ends slug settle interval ticks : (forall k, Z.of_nat (S k) * hold_interval interval <= t_elapsed (ticks k)) ->
  exists fuel h n, holdLive fuel slug settle ticks = Some (h, n)
    /\ Z.of_nat n <= Z.max 0 (settle + hold_interval interval - 1) / hold_interval interval + strikeGrace.
Proof.
  intros Hclock. assert (Hi : 0 < hold_interval interval) by (unfold hold_interval; destruct (Z.leb_spec interval 0); lia).
  set (bound := Z.max 0 (settle + hold_interval interval - 1) / hold_interval interval + strikeGrace).
  destruct (hold_loop_ends slug settle ticks _ Hi Hclock (Z.to_nat bound) 0 opened (counts_opened slug ticks)) as (h & n & E & Hn); [done| |].
  - cbn [w_graceLeft opened]. rewrite Z.sub_0_r. fold bound. lia.
  - cbn [w_graceLeft opened] in Hn. rewrite Z.sub_0_r in Hn. fold bound in Hn. exists (Z.to_nat bound), h, n. split; [exact E|lia].
Qed.

(** * Becoming live *)

(** What the waits are given: the [k]-th list, how long it took, and the ends of
    the context. *)
Record listing := MkListing { li_list : nat -> result (list Agent) listErr; li_took : nat -> Duration; li_ctxErr : nat -> option string; li_late : nat -> Duration; li_ctxDone : nat -> option string }.

Definition live_now (slug : string) (agents : list Agent) : bool :=
  let '(phase, container) := phase_of agents slug in str_eqb phase "running" && ContainerLive container.

(** The probe of [waitLiveOnce]. *)
Definition live_probe (slug : string) (r : result (list Agent) listErr) : Result :=
  match r with
  | Err (ErrAgentListTooLarge e) => Fatal (Some e)
  | Err (ListFailed e) => NotYetErr (Some e)
  | Ok agents =>
    let '(phase, container) := phase_of agents slug in
    if str_eqb phase "running" && ContainerLive container then Ready else NotYet (PhaseLabel phase +:+ "/" +:+ ContainerLabel container)
  end.
Definition live_world (slug : string) (l : listing) : World := MkWorld (fun k => live_probe slug (li_list l k)) (li_took l) (li_ctxErr l) (li_late l) (li_ctxDone l).

(** The errors of [WaitAgentLive], by what they wrap. *)
Inductive liveErr := NotLiveError (phase container : string) | NotObserved (lastErr : string) | WaitFailed (err : option string) | NotHeld (h : holdEnd).

(** [waitLiveOnce], with the number of lists read. [lastErr] is that of the last. *)
Definition waitLiveOnce (fuel : nat) (slug : string) (attempts : Z) (interval : Duration) (l : listing) : option (option liveErr * nat) :=
  if attempts <=? 0 then Some (Some (NotLiveError "" ""), 0%nat)
  else
    match For fuel (live_world slug l) (Attempts attempts interval) with
    | None => None
    | Some (o, n) =>
      Some (match o with
            | Done => None
            | Failed e => Some (WaitFailed e)
            | CtxEnded e => Some (WaitFailed (Some e))
            | TimedOut _ =>
              Some match li_list l (pred n) with
                   | Err e => NotObserved (list_text e)
                   | Ok agents => let '(phase, container) := phase_of agents slug in NotLiveError phase container
                   end
            end, n)
    end.

(** [waitAgentLive]: the settle window reads its own lists. *)
Definition WaitAgentLive (fuel : nat) (slug : string) (attempts : Z) (interval settle : Duration) (l : listing) (ticks : nat -> tick) : option (option liveErr) :=
  match waitLiveOnce fuel slug attempts interval l with
  | None => None
  | Some (Some e, _) => Some (Some e)
  | Some (None, _) =>
    if settle <=? 0 then Some None
    else match holdLive fuel slug settle ticks with
         | None => None
         | Some (Held, _) => Some None
         | Some (h, _) => Some (Some (NotHeld h))
         end
  end.

(** C14: A start is taken for live only on the record: a list showed the agent running
    with a live container, and when a settle window is asked for, it passed, so a
    list read at or after its end had it live again (or said nothing after one that
    did), with no two readings in a row that were not. *)
Theorem live_means_seen_live fuel slug attempts interval settle l ticks : WaitAgentLive fuel slug attempts interval settle l ticks = Some None ->
  0 < attempts
  /\ (exists k agents, li_list l k = Ok agents /\ live_now slug agents = true /\ forall j, (j < k)%nat -> forall a, li_list l j = Ok a -> live_now slug a = false)
  /\ (0 < settle -> exists m, observed ticks (S m) /\ never_twice (decisive slug ticks (S m)) /\ last (decisive slug ticks (S m)) <> Some false /\ settle <= t_elapsed (ticks m)).
Proof.
  unfold WaitAgentLive, waitLiveOnce. destruct (Z.leb_spec attempts 0) as [Ha|Ha]; [done|].
  destruct (For fuel _ _) as [[o n]|] eqn:Ef; [|done]. assert (Hlive : o = Done -> exists k agents, li_list l k = Ok agents /\ live_now slug agents = true
    /\ forall j, (j < k)%nat -> forall a, li_list l j = Ok a -> live_now slug a = false).
  { intros ->. apply loop_answer in Ef as (m & l' & -> & _ & _ & _ & He & Hall); [|apply start_evidence|done]. cbn [ends_with live_world probe] in He.
    exists m. unfold live_probe in He. destruct (li_list l m) as [agents|[e|e]] eqn:El; [|done..]. exists agents. split; [done|]. unfold live_now.
    destruct (phase_of agents slug) as [phase container]. destruct (_ && _); [|done]. split; [done|]. intros j Hj a Ea. destruct (Hall j ltac:(lia)) as [Hk _].
    cbn [live_world probe] in Hk. unfold live_probe in Hk. rewrite Ea in Hk. destruct (phase_of a slug) as [p c]. by destruct (_ && _). }
  destruct o; [|done..]. specialize (Hlive eq_refl). destruct (Z.leb_spec settle 0) as [Hs|Hs]; [intros _; split_and!; [done|done|lia]|].
  destruct (holdLive fuel slug settle ticks) as [[h k]|] eqn:Eh; [|done]. destruct h; [|done..]. intros _. split_and!; [done|done|]. intros _.
  apply hold_loop_verdict in Eh as (m & -> & _ & Hv); [|apply counts_opened]. by exists m.
Qed.

End Live.
