(* ===== verification/Worker.v ===== *)
(** Workers as the broker starts and resumes them ([internal/broker/worker.go],
    [workercap.go], [shared.go]): their specs, the questions a handler asks of the
    hub, the host's files and the broker's shared state, and the steps the
    handlers of [Dispatch] are made of. The wording of refusals and of audit lines
    is left out: a refusal is its reason, phase and status. *)

From S2P Require Import Prelude Go TreePath GoPath Scion Effects.

Module Worker.
Import TreePath GoPath Scion Effects.
#[export] Set Warnings "-notation-overridden".
Open Scope prog_scope.

(** * Specs *)

Record VolumeMount := MkVolume { v_Source : string; v_Target : string; v_ReadOnly : bool }.
Record Resources := MkResources { rs_Memory : string; rs_CPU : string }.
Record SharedMount := MkShared { sm_Rel : string; sm_Volume : VolumeMount }.
Record Claude := MkClaude { cl_AutoCompactWindow : Z; cl_AfterCompactNote : string }.

Record WorkerSpec := MkSpec {
  w_Name : string;
  w_WorkspaceSubdir : string;
  w_HostWorkspace : string;
  w_TicketDir : string;
  w_Image : string;
  w_Model : string;
  w_InstructionsPath : string;
  w_TaskPath : string;
  w_APIKey : bool;
  w_Recyclable : bool;
  w_Claude : option Claude;
  w_Shared : list SharedMount;
  w_Resources : Resources
}.

Record Bootstrap := MkBootstrap { bs_Ticket : string; bs_BrokerCA : string; bs_BrokerURL : string; bs_AgentCN : string; bs_Claude : option Claude }.

Record StartOpts := MkStart {
  o_Worker : string;
  o_Task : string;
  o_Harness : string;
  o_Project : string;
  o_WorkspaceSubdir : string;
  o_Image : string;
  o_Model : string;
  o_APIKey : bool;
  o_Instructions : string;
  o_Volumes : list VolumeMount;
  o_Env : list (string * string);
  o_Resources : Resources
}.

(** What of [Broker] the dispatch reads and never changes; a hook that may be
    missing is whether it is wired. *)
Record Dispatch := MkDispatch {
  d_manager : string;
  d_managerSlug : string;
  d_workers : gmap string WorkerSpec;
  d_runtime : bool;
  d_project : string;
  d_tree : string;
  d_readOnlyDirs : list string;
  d_max : Z;
  d_brokerCAPEM : string;
  d_brokerURL : string;
  d_verifyRole : bool;
  d_sharedGuard : bool;
  d_recordVolumes : bool;
  d_leftoverShareVolumes : bool;
  d_beginSession : bool;
  d_ticketStager : bool;
  d_purger : bool;
  d_containerRunning : bool;
  d_containerStranded : bool;
  d_removeStranded : bool
}.

(** * Questions *)

Inductive fsErr := NotExist | FsOther (text : string).
Inductive fileKind := IsDirectory | IsSymlink | IsOther.
Inductive guardErr := GuardUnavailable | GuardFailed.

Inductive action :=
(* the broker's shared state *)
| Audit (op actor decision : string)
| RequireManager (op : string)
| IsRevoked (name : string)
| LockWorker (name : string) | TryLockWorker (name : string) | UnlockWorker (name : string)
| AdmitLock | AdmitUnlock | ReadAdmitting | IncAdmitting (name : string) | DecAdmitting (name : string)
| IssueTicket (cn : string)
| RecycleTake (name : string) | RecycleRefund (name : string)
| ResetReenrolTries (name : string)
(* the hub *)
| List
| Start (o : StartOpts)
| Resume (worker project : string) | ResumeTask (worker project task : string) | ResumeForce (worker project : string)
| Stop (worker project : string) | Suspend (worker project : string)
| EnvSet (project key value : string)
| WaitAgentLive (worker : string)
| VerifyRole (worker : string)
| RecordVolumes (worker : string) | LeftoverShareVolumes (worker : string)
| BeginSession (worker : string) | CommitSession (worker : string)
| PurgeWorker (worker : string)
(* the guest *)
| StageTicket (worker : string) (bs : Bootstrap)
| SharedGuard
| ContainerRunning (worker : string) | ContainerStranded (worker : string) | RemoveStranded (worker : string)
(* the host's files and clock *)
| ReadFile (path : string) | ReadRegularFile (path : string) (max : Z)
| EvalSymlinks (path : string) | Lstat (path : string) | Stat (path : string)
| OpenRoot (path : string) | MkdirAll (root rel : string)
| Pause.

(** An error is its text. *)
Definition answer (q : action) : Type :=
  match q with
  | Audit _ _ _ => unit
  | RequireManager _ => option string
  | IsRevoked _ => bool
  | LockWorker _ => option string
  | TryLockWorker _ => bool
  | UnlockWorker _ | AdmitLock | AdmitUnlock | IncAdmitting _ | DecAdmitting _ => unit
  | ReadAdmitting => gmap string Z
  | IssueTicket _ => result string string
  | RecycleTake _ => option Duration
  | RecycleRefund _ | ResetReenrolTries _ => unit
  | List => result (list Agent) string
  | Start _ | Resume _ _ | ResumeTask _ _ _ | ResumeForce _ _ | Stop _ _ | Suspend _ _ | EnvSet _ _ _ => option string
  | WaitAgentLive _ | VerifyRole _ => option string
  | RecordVolumes _ | LeftoverShareVolumes _ => result (list VolumeMount) string
  | BeginSession _ => unit
  | CommitSession _ => option string
  | PurgeWorker _ => result (option string) string
  | StageTicket _ _ => option string
  | SharedGuard => option guardErr
  | ContainerRunning _ | ContainerStranded _ | RemoveStranded _ => result bool string
  | ReadFile _ | ReadRegularFile _ _ => result string string
  | EvalSymlinks _ => result string fsErr
  | Lstat _ | Stat _ => result fileKind fsErr
  | OpenRoot _ | MkdirAll _ _ => option fsErr
  | Pause => option string
  end.

Abbreviation P := (prog answer).
Abbreviation ask := (@Effects.ask action answer).

(** * Answers *)

Definition ReasonBadRequest : string := "bad-request".
Definition ReasonNotAWorker : string := "not-a-worker".
Definition ReasonRevoked : string := "revoked".
Definition ReasonRuntimeUnavailable : string := "runtime-unavailable".
Definition ReasonBusy : string := "busy".
Definition ReasonWorkerCap : string := "worker-cap".
Definition ReasonRoleMismatch : string := "role-mismatch".
Definition ReasonNoRecord : string := "no-record".
Definition ReasonNotAsleep : string := "not-asleep".
Definition ReasonStoppedByOperator : string := "stopped-by-operator".
Definition ReasonWorkspaceUnsafe : string := "workspace-unsafe".
Definition ReasonWorkspaceMissing : string := "workspace-missing".
Definition ReasonSharedAccess : string := "shared-access".
Definition ReasonHubRefused : string := "hub-refused".
Definition ReasonNotLive : string := "not-live".
Definition ReasonRuntimeError : string := "runtime-error".
Definition ReasonBadTask : string := "bad-task".
Definition ReasonTaskTooLong : string := "task-too-long".
Definition ReasonTaskFixed : string := "task-fixed".
Definition ReasonConfigFile : string := "config-file".
Definition ReasonNotRecyclable : string := "not-recyclable".
Definition ReasonNotStopped : string := "not-stopped".
Definition ReasonRateLimited : string := "rate-limited".
Definition ReasonImageUnqualified : string := "image-unqualified".
Definition StatusRequestEntityTooLarge : Z := 413.

Definition phaseRunningContainerDown : string := "running, container down".
Definition PhaseRunningContainerDownToken : string := "running-container-down".

(** [WorkerListEntry]. *)
Record WorkerListEntry := MkListEntry {
  le_Name : string;
  le_Phase : string;
  le_Activity : string;
  le_ActivitySource : string;
  le_LastActivity : option Time;
  le_Container : string;
  le_IdleAtPrompt : option bool
}.

Inductive reply :=
| Answer (worker phase : string)                                   (* [wire.WorkerResponse] *)
| Agents (agents : list Agent)                                     (* [wire.WorkerListResponse] *)
| Workers (entries : list WorkerListEntry)                         (* [WorkerListResponse] *)
| TicketPath (worker path : string)                                (* [wire.WorkerTicketResponse] *)
| Refused (reason phase : string) (retryAfter : option Z) (code : Z)
| HttpErr (code : Z).

Definition refuse (reason : string) (code : Z) : reply := Refused reason "" None code.
Definition refusePhase (reason phase : string) (code : Z) : reply :=
  Refused reason (if str_eqb phase phaseRunningContainerDown then PhaseRunningContainerDownToken else phase) None code.

Definition operatorActor : string := "operator".

(** An early return from a step that yields a result. *)
Notation "'try*' x := p 'in' f" := (bind p (fun r => match r with Ok x => f | Err e => Ret (Err e) end)) (at level 10, x name, p at level 100, f at level 200) : prog_scope.

Section Steps.
Context `{Unicode} (d : Dispatch).

Definition audit (actor decision : string) : P unit := ask (Audit "worker" actor decision).
(** Audit, then refuse. *)
Definition denied {A} (actor decision : string) (r : reply) : P (result A reply) := do* audit actor decision; Ret (Err r).
Definition answered (actor decision : string) (r : reply) : P reply := do* audit actor decision; Ret r.

Definition workerSpec (name : string) : option WorkerSpec := d_workers d !! name.

(** [runtimeReady]: it answers 502 itself when it is not. *)
Definition runtimeReady : P (result unit reply) :=
  if d_runtime d then Ret (Ok tt) else denied (d_manager d) "error" (refuse ReasonRuntimeUnavailable StatusBadGateway).

Definition requireManagerWorker {R} (req : option R) (worker : R -> string) : P (result (R * WorkerSpec) reply) :=
  let* caller := ask (RequireManager "worker") in
  match caller with
  | None => Ret (Err (HttpErr StatusForbidden))
  | Some caller =>
    match req with
    | None => denied caller "deny" (HttpErr StatusBadRequest)
    | Some req =>
      match workerSpec (worker req) with
      | None => denied caller "deny" (HttpErr StatusForbidden)
      | Some spec => try* _ := runtimeReady in Ret (Ok (req, spec))
      end
    end
  end.

(** ** The lifecycle lock *)

Definition lockWorkerOrRefuse (actor name : string) : P (result unit reply) :=
  let* err := ask (LockWorker name) in
  match err with
  | None => Ret (Ok tt)
  | Some _ => denied actor "error" (refuse ReasonBusy StatusServiceUnavailable)
  end.
(** [defer unlock()]. *)
Definition unlocking (name : string) (body : P reply) : P reply := let* r := body in do* ask (UnlockWorker name); Ret r.

(** ** Records *)

Definition strandedCreated (worker : string) : P bool :=
  if d_containerStranded d then
    let* r := ask (ContainerStranded worker) in Ret (match r with Ok s => s | Err _ => false end)
  else Ret false.

Definition recordOf (spec : WorkerSpec) : P (result (string * string) string) :=
  try* agents := ask List in
  match FindAgent agents (w_Name spec) with
  | None => Ret (Ok ("", ""))
  | Some a =>
    let phase := PhaseLabel (a_Phase a) in
    let cs := a_ContainerStatus a in
    if RunningContainerDown phase cs then Ret (Ok (phaseRunningContainerDown, cs))
    else if str_eqb phase PhaseRunning && EqualFold cs "created" then
      let* stranded := strandedCreated (w_Name spec) in
      Ret (Ok (if stranded then phaseRunningContainerDown else phase, cs))
    else Ret (Ok (phase, cs))
  end.
Definition phaseOf (spec : WorkerSpec) : P (result string string) := try* r := recordOf spec in Ret (Ok r.1).

(** ** The running-worker cap *)

Definition countsAsRunning (phase containerStatus : string) : bool :=
  ContainerLive containerStatus || negb (one_of [""; PhaseSuspended; PhaseStopped; PhaseError] (PhaseLabel phase)).

(** The other workers that run, start or are admitted. *)
Definition counted (name : string) (agents : list Agent) (admitting : gmap string Z) : gset string :=
  list_to_set (a_Slug <$> filter (fun a => one_of [name; d_managerSlug d; d_manager d] (a_Slug a) = false
                                           /\ countsAsRunning (a_Phase a) (a_ContainerStatus a) = true) agents)
  ∪ (dom admitting ∖ {[name]}).

Inductive admitErr := ErrWorkerCap | AdmitReadFailed.

(** [admitWorker]: whether a slot was taken, for its release. *)
Definition admitWorker (name : string) : P (result bool admitErr) :=
  if d_max d <=? 0 then Ret (Ok false)
  else
    do* ask AdmitLock;
    let* agents := ask List in
    match agents with
    | Err _ => do* ask AdmitUnlock; Ret (Err AdmitReadFailed)
    | Ok agents =>
      let* admitting := ask ReadAdmitting in
      if d_max d <=? Z.of_nat (size (counted name agents admitting)) then do* ask AdmitUnlock; Ret (Err ErrWorkerCap)
      else do* ask (IncAdmitting name); do* ask AdmitUnlock; Ret (Ok true)
    end.
Definition release (name : string) (took : bool) : P unit :=
  if took then do* ask AdmitLock; do* ask (DecAdmitting name); ask AdmitUnlock else Ret tt.

Definition admitOrRefuse (actor name : string) : P (result bool reply) :=
  let* r := admitWorker name in
  match r with
  | Ok took => Ret (Ok took)
  | Err ErrWorkerCap => denied actor "deny" (refuse ReasonWorkerCap StatusConflict)
  | Err AdmitReadFailed => denied actor "error" (refuse ReasonRuntimeError StatusBadGateway)
  end.
(** [defer release()]. *)
Definition releasing (name : string) (took : bool) (body : P reply) : P reply := let* r := body in do* release name took; Ret r.

(** ** Tickets *)

Definition bootstrapFor (cn : string) (claude : option Claude) : P (result Bootstrap string) :=
  try* ticket := ask (IssueTicket cn) in
  Ret (Ok (MkBootstrap ticket (d_brokerCAPEM d) (d_brokerURL d) cn claude)).

Definition stageWorkerTicket (spec : WorkerSpec) : P (option string) :=
  if negb (d_ticketStager d) then Ret (Some "no worker ticket channel is wired")
  else if is_empty (w_TicketDir spec) then Ret (Some "worker has no ticket directory")
  else
    let* bs := bootstrapFor (w_Name spec) (w_Claude spec) in
    match bs with
    | Err e => Ret (Some e)
    | Ok bs => ask (StageTicket (w_Name spec) bs)
    end.

Definition workerTicketMount : string := "/run/lever".
Definition workerTicketPath : string := workerTicketMount +:+ "/bootstrap.json".
Definition workerTicketEnv : string := "LEVER_BOOTSTRAP".
Definition workerTicketVolumes (spec : WorkerSpec) : list VolumeMount * list (string * string) :=
  (MkVolume (w_TicketDir spec) workerTicketMount true :: (sm_Volume <$> w_Shared spec), [(workerTicketEnv, workerTicketPath)]).

(** ** Host files of a worker *)

Definition readWorkerInstructions (spec : WorkerSpec) : P (result string string) :=
  if is_empty (w_InstructionsPath spec) then Ret (Ok "")
  else
    try* b := ask (ReadFile (w_InstructionsPath spec)) in
    Ret (match CheckInstructions b with None => Ok b | Some e => Err e end).

Definition MaxTaskFileBytes : Z := 65536.
Definition readWorkerTask (spec : WorkerSpec) : P (result string string) :=
  if is_empty (w_TaskPath spec) then Ret (Ok "")
  else
    try* raw := ask (ReadRegularFile (w_TaskPath spec) MaxTaskFileBytes) in
    let task := TrimSpace raw in
    Ret (match CheckTask task with None => Ok task | Some _ => Err "task" end).

(** [taskOK]. *)
Definition taskOK (actor task : string) : P (result unit reply) :=
  match CheckTask task with
  | None => Ret (Ok tt)
  | Some TaskTooLong => denied actor "deny" (refuse ReasonTaskTooLong StatusRequestEntityTooLarge)
  | Some TaskFlag => denied actor "deny" (refuse ReasonBadTask StatusBadRequest)
  end.

(** ** Shared folders *)

Inductive sharedErr := ErrSharedCheckUnavailable | ErrManagerUnpinned | ErrStaleSharedMount.

Definition sharedMountRoot : string := "/shared".
Definition stale (spec : WorkerSpec) (v : VolumeMount) : bool :=
  let t := Clean (v_Target v) in
  (str_eqb t sharedMountRoot || HasPrefix t (sharedMountRoot +:+ "/"))
  && negb (existsb (fun m => str_eqb (Clean (v_Target (sm_Volume m))) t && str_eqb (Clean (v_Source (sm_Volume m))) (Clean (v_Source v))
                             && (v_ReadOnly v || negb (v_ReadOnly (sm_Volume m)))) (w_Shared spec)).
Definition staleShares (spec : WorkerSpec) (vols : list VolumeMount) : option sharedErr :=
  if existsb (stale spec) vols then Some ErrStaleSharedMount else None.

Definition refuseStaleShares (spec : WorkerSpec) : P (option sharedErr) :=
  if d_recordVolumes d then
    let* vols := ask (RecordVolumes (w_Name spec)) in
    Ret (match vols with Err _ => Some ErrSharedCheckUnavailable | Ok vols => staleShares spec vols end)
  else if d_leftoverShareVolumes d then
    let* vols := ask (LeftoverShareVolumes (w_Name spec)) in
    Ret (match vols with Err _ => None | Ok vols => staleShares spec vols end)
  else Ret None.

Definition checkSharedAccess (spec : WorkerSpec) (resume : bool) : P (option sharedErr) :=
  let* err := (if d_sharedGuard d then ask SharedGuard else Ret None) in
  match err with
  | Some GuardUnavailable => Ret (Some ErrSharedCheckUnavailable)
  | Some GuardFailed => Ret (Some ErrManagerUnpinned)
  | None => if resume then refuseStaleShares spec else Ret None
  end.

Definition checkAgentRole (agent : string) : P (option string) := if d_verifyRole d then ask (VerifyRole agent) else Ret None.

(** ** Coming live *)

Definition waitWorkerLive (spec : WorkerSpec) : P (option string) := ask (WaitAgentLive (w_Name spec)).

Definition comingUp (phase : string) : bool := one_of ["created"; "provisioning"; "cloning"; "starting"; "resumed"] phase.

Definition rewritableImage (a : Agent) : bool := negb (Fixed (a_Image a)).

(** [recordImageOK]. *)
Definition recordImageOK (spec : WorkerSpec) (actor : string) : P (result unit reply) :=
  let* agents := ask List in
  match agents with
  | Err _ => denied actor "error" (refuse ReasonRuntimeError StatusBadGateway)
  | Ok agents =>
    match FindAgent agents (w_Name spec) with
    | None => denied actor "deny" (refuse ReasonNoRecord StatusNotFound)
    | Some a => if rewritableImage a then denied actor "deny" (refuse ReasonImageUnqualified StatusConflict) else Ret (Ok tt)
    end
  end.

End Steps.

End Worker.
