(* ===== verification/Workspace.v ===== *)
(** The host directory a worker mounts ([internal/broker/worker.go], [shared.go]):
    it is below the instance tree, which agents can write, so every check walks it
    component by component and again after the directory is made. *)

From S2P Require Import Prelude Go TreePath GoPath Scion Effects Worker.

Module Workspace.
Import TreePath GoPath Effects Worker.
Open Scope prog_scope.

Inductive wsErr := ErrEscapesTree | ErrReadOnlyOverlap | ErrSharedFolder | WsNotExist | WsOther (text : string).

Definition ws_fs (e : fsErr) : wsErr := match e with NotExist => WsNotExist | FsOther t => WsOther t end.

Section Checks.
Context `{Unicode} (d : Dispatch).

(** [treePath]: the anchor and the path below it. *)
Definition treePath (dir : string) : result (string * string) wsErr :=
  if is_empty (d_tree d) then Ok (Dir dir, Base dir)
  else
    match Rel (d_tree d) dir with
    | Err e => Err (WsOther e)
    | Ok rel => if str_eqb rel ".." || HasPrefix rel "../" then Err (WsOther "escapes the instance tree") else Ok (d_tree d, rel)
    end.

(** A symbolic link on the way must lead to a directory inside the real root. *)
Definition follow_link (realRoot cur : string) : P (option wsErr) :=
  let* resolved := ask (EvalSymlinks cur) in
  match resolved with
  | Err NotExist => Ret (Some ErrEscapesTree)
  | Err (FsOther t) => Ret (Some (WsOther t))
  | Ok resolved =>
    if negb (str_eqb resolved realRoot) && negb (HasPrefix resolved (realRoot +:+ "/")) then Ret (Some ErrEscapesTree)
    else
      let* fi := ask (Stat cur) in
      Ret (match fi with Err e => Some (ws_fs e) | Ok IsDirectory => None | Ok _ => Some (WsOther "not a directory") end)
  end.

Fixpoint walk (realRoot cur : string) (noLinks : bool) (cs : list string) : P (option wsErr) :=
  match cs with
  | [] => Ret None
  | c :: cs =>
    let cur := Join cur c in
    let* fi := ask (Lstat cur) in
    match fi with
    | Err NotExist => Ret None
    | Err (FsOther t) => Ret (Some (WsOther t))
    | Ok IsDirectory => walk realRoot cur noLinks cs
    | Ok IsSymlink =>
      if noLinks then Ret (Some ErrEscapesTree)
      else
        let* err := follow_link realRoot cur in
        match err with Some e => Ret (Some e) | None => walk realRoot cur noLinks cs end
    | Ok IsOther => Ret (Some (WsOther "not a directory"))
    end
  end.

Definition refuseEscapingDir (root rel : string) (noLinks : bool) : P (option wsErr) :=
  if is_empty rel || str_eqb rel "." || negb (IsLocal rel) then Ret (Some ErrEscapesTree)
  else
    let* realRoot := ask (EvalSymlinks root) in
    match realRoot with
    | Err e => Ret (Some (ws_fs e))
    | Ok realRoot => walk realRoot root noLinks (components rel)
    end.

Definition refuseReadOnlyOverlap (rel : string) : option wsErr :=
  if existsb (RelOverlapFold rel) (d_readOnlyDirs d) then Some ErrReadOnlyOverlap else None.

Fixpoint verify_sources (shared : list SharedMount) : P (option wsErr) :=
  match shared with
  | [] => Ret None
  | m :: shared =>
    let* err := refuseEscapingDir (d_tree d) (sm_Rel m) true in
    match err with
    | Some _ => Ret (Some ErrSharedFolder)
    | None =>
      let* fi := ask (Lstat (Join (d_tree d) (sm_Rel m))) in
      match fi with Ok IsDirectory => verify_sources shared | _ => Ret (Some ErrSharedFolder) end
    end
  end.
Definition verifySharedSources (spec : WorkerSpec) : P (option wsErr) :=
  if is_empty (d_tree d) then Ret None else verify_sources (w_Shared spec).

Definition verifyStrictWorkspace (spec : WorkerSpec) : P (option wsErr) :=
  if match d_readOnlyDirs d with [] => true | _ => is_empty (d_tree d) end then Ret None
  else
    match treePath (w_HostWorkspace spec) with
    | Err e => Ret (Some e)
    | Ok (root, rel) =>
      let* err := refuseEscapingDir root rel true in
      match err with
      | Some e => Ret (Some e)
      | None =>
        let* realTree := ask (EvalSymlinks (d_tree d)) in
        match realTree with
        | Err e => Ret (Some (ws_fs e))
        | Ok realTree =>
          let* realWs := ask (EvalSymlinks (w_HostWorkspace spec)) in
          match realWs with
          | Err e => Ret (Some (ws_fs e))
          | Ok realWs =>
            match Rel realTree realWs with
            | Err _ => Ret (Some ErrEscapesTree)
            | Ok realRel =>
              if negb (IsLocal realRel) then Ret (Some ErrEscapesTree)
              else match refuseReadOnlyOverlap realRel with
                   | Some e => Ret (Some e)
                   | None => verifySharedSources spec
                   end
            end
          end
        end
      end
    end.

(** [existingAnchor]: the nearest existing proper ancestor; the fuel is the
    length of the path, each turn takes a component off it. *)
Fixpoint anchor (fuel : nat) (root : string) : P (result string wsErr) :=
  match fuel with
  | O => Ret (Err (WsOther "no existing ancestor"))
  | S fuel =>
    let* fi := ask (Stat root) in
    match fi with
    | Ok _ => Ret (Ok root)
    | Err (FsOther t) => Ret (Err (WsOther t))
    | Err NotExist => let parent := Dir root in if str_eqb parent root then Ret (Err (WsOther "no existing ancestor")) else anchor fuel parent
    end
  end.
Definition existingAnchor (dir : string) : P (result (string * string) wsErr) :=
  try* root := anchor (S (String.length dir)) (Dir dir) in
  Ret (match Rel root dir with Err e => Err (WsOther e) | Ok rel => Ok (root, rel) end).

Definition ensureWorkspaceDir (spec : WorkerSpec) : P (option wsErr) :=
  match treePath (w_HostWorkspace spec) with
  | Err e => Ret (Some e)
  | Ok rr =>
    let* anchored := (if is_empty (d_tree d) then existingAnchor (w_HostWorkspace spec) else Ret (Ok rr)) in
    match anchored with
    | Err e => Ret (Some e)
    | Ok (root, rel) =>
      let strict := match d_readOnlyDirs d with [] => false | _ => true end in
      match (if strict && negb (is_empty (d_tree d)) then refuseReadOnlyOverlap rel else None) with
      | Some e => Ret (Some e)
      | None =>
        let* err := refuseEscapingDir root rel strict in
        match err with
        | Some e => Ret (Some e)
        | None =>
          let* opened := ask (OpenRoot root) in
          match opened with
          | Some e => Ret (Some (ws_fs e))
          | None =>
            let* made := ask (MkdirAll root rel) in
            match made with
            | Some e => Ret (Some (ws_fs e))
            | None => if negb strict || is_empty (d_tree d) then Ret None else verifyStrictWorkspace spec
            end
          end
        end
      end
    end
  end.

End Checks.

End Workspace.
