(* ===== verification/Dispatch.v ===== *)
(** The worker routes ([internal/broker/worker.go], [recycle.go], [operator.go],
    [operator_workers.go], [operator_newsession.go], [workerticket.go]): start,
    resume, recycle, stop, suspend and new-session, for the manager on the jail
    listener, for the operator on his socket and for a chat login. *)

From stdpp Require Import sorting.
From S2P Require Import Prelude Go TreePath GoPath Render Scion Effects Worker Workspace.

Module Dispatch.
Import TreePath GoPath Render Scion Effects Worker Workspace.
Open Scope prog_scope.

(** How a record is resumed: the hub's verb. *)
Inductive how := Plain | Force | Task (task : string).

Section Routes.
Context `{Unicode, UnicodeTables} (d : Dispatch).

Definition ask_resume (h : how) (worker : string) : P (option string) :=
  match h with
  | Plain => ask (Resume worker (d_project d))
  | Force => ask (ResumeForce worker (d_project d))
  | Task t => ask (ResumeTask worker (d_project d) t)
  end.

(** [cancelStrandedStart]: whether the container was removed, and the error. *)
Definition cancelStrandedStart (spec : WorkerSpec) (actor : string) (err : option string) (h : how) : P (bool * option string) :=
  let* removed := ask (RemoveStranded (w_Name spec)) in
  match removed with
  | Err _ => do* audit actor "error"; Ret (false, err)
  | Ok false => Ret (false, err)
  | Ok true =>
    do* audit actor "allow";
    if IsStartClaimHeld err then
      let* serr := ask (Stop (w_Name spec) (d_project d)) in
      match serr with
      | Some _ => do* audit actor "error"; Ret (true, err)
      | None => do* audit actor "allow"; let* e := ask_resume h (w_Name spec) in Ret (true, e)
      end
    else let* e := ask_resume h (w_Name spec) in Ret (true, e)
  end.

(** [resumeChecks]. *)
Definition resumeChecks (spec : WorkerSpec) (actor : string) : P (result unit reply) :=
  let* err := verifyStrictWorkspace d spec in
  match err with
  | Some ErrSharedFolder | Some ErrEscapesTree | Some ErrReadOnlyOverlap => denied actor "deny" (refuse ReasonWorkspaceUnsafe StatusForbidden)
  | Some WsNotExist => denied actor "error" (refuse ReasonWorkspaceMissing StatusConflict)
  | Some (WsOther _) => denied actor "error" (refuse ReasonRuntimeError StatusInternalServerError)
  | None =>
    let* err := checkSharedAccess d spec true in
    match err with
    | Some _ => denied actor "deny" (refuse ReasonSharedAccess StatusForbidden)
    | None => Ret (Ok tt)
    end
  end.

(** The session record of a start that was begun. *)
Definition commit_session (spec : WorkerSpec) (actor : string) (begun : bool) : P unit :=
  if begun then
    let* err := ask (CommitSession (w_Name spec)) in
    match err with Some _ => audit actor "error" | None => Ret tt end
  else Ret tt.

Definition begin_session (spec : WorkerSpec) : P bool :=
  if d_beginSession d then do* ask (BeginSession (w_Name spec)); Ret true else Ret false.

(** The wait until live that ends a start and a resume. *)
Definition come_live (spec : WorkerSpec) (actor : string) : P reply :=
  let* err := waitWorkerLive spec in
  match err with
  | Some _ => answered actor "error" (refuse ReasonNotLive StatusBadGateway)
  | None => do* ask (ResetReenrolTries (w_Name spec)); answered actor "allow" (Answer (w_Name spec) PhaseRunning)
  end.

(** The resume proper, once all was checked and the ticket staged: [fresh] is the
    task of a new session. *)
Definition resume_now (spec : WorkerSpec) (phase actor : string) (h : how) (begun : bool) : P reply :=
  let* err := ask_resume h (w_Name spec) in
  let* r := (if (IsStartClaimHeld err || IsStopClaimHeld err) && d_removeStranded d
             then cancelStrandedStart spec actor err h else Ret (false, err)) in
  let err := r.2 in
  if IsStartClaimHeld err || IsStopClaimHeld err then answered actor "error" (refusePhase ReasonBusy phase StatusServiceUnavailable)
  else
    match err with
    | Some _ =>
      do* audit actor "error";
      Ret (if IsRefusedByHub err then refusePhase ReasonHubRefused phase StatusConflict else refusePhase ReasonRuntimeError phase StatusBadGateway)
    | None => do* commit_session spec actor begun; come_live spec actor
    end.

Definition resume_how (phase : string) : how :=
  if str_eqb phase PhaseError || str_eqb phase phaseRunningContainerDown then Force else Plain.

Definition resumeRecordAs (spec : WorkerSpec) (phase actor : string) (fresh : option string) : P reply :=
  do? recordImageOK spec actor;
  if comingUp phase then
    let* err := waitWorkerLive spec in
    match err with
    | Some _ => answered actor "error" (refuse ReasonNotLive StatusBadGateway)
    | None => answered actor "allow" (Answer (w_Name spec) PhaseRunning)
    end
  else
    let? took := admitOrRefuse d actor (w_Name spec) in
    releasing (w_Name spec) took
      (do? resumeChecks spec actor;
       let* revoked := ask (IsRevoked (w_Name spec)) in
       if revoked then answered actor "deny" (refuse ReasonRevoked StatusForbidden)
       else
         let* staged := stageWorkerTicket d spec in
         match staged with
         | Some _ => answered actor "error" (refuse ReasonRuntimeError StatusInternalServerError)
         | None =>
           match fresh with
           | None => resume_now spec phase actor (resume_how phase) false
           | Some task =>
             let* now := recordOf d spec in
             match now with
             | Ok (ph, cs) =>
               if negb (str_eqb ph PhaseStopped) || ContainerLive cs then answered actor "deny" (refuse ReasonRuntimeError StatusBadGateway)
               else
                 let* begun := begin_session spec in
                 resume_now spec phase actor (if is_empty task then resume_how phase else Task task) begun
             | Err _ => answered actor "deny" (refuse ReasonRuntimeError StatusBadGateway)
             end
           end
         end).
Definition resumeRecord (spec : WorkerSpec) (phase actor : string) : P reply := resumeRecordAs spec phase actor None.

(** * Start *)

(** What a fresh start sends the hub: the worker's configuration and a task. *)
Definition start_opts (spec : WorkerSpec) (task instructions : string) : StartOpts :=
  let '(volumes, env) := workerTicketVolumes spec in
  MkStart (w_Name spec) task "claude" (d_project d) (w_WorkspaceSubdir spec) (w_Image spec) (w_Model spec) (w_APIKey spec) instructions volumes env (w_Resources spec).

Definition start_now (spec : WorkerSpec) (task instructions actor : string) : P reply :=
  let* staged := stageWorkerTicket d spec in
  match staged with
  | Some _ => answered actor "error" (refuse ReasonRuntimeError StatusInternalServerError)
  | None =>
    let* env := (if w_APIKey spec then ask (EnvSet (d_project d) "LEVER_LLM_AUTH" "api-key") else Ret None) in
    match env with
    | Some _ => answered actor "error" (refuse ReasonRuntimeError StatusBadGateway)
    | None =>
      let* begun := begin_session spec in
      let* err := ask (Start (start_opts spec task instructions)) in
      match err with
      | Some _ => answered actor "error" (refuse ReasonRuntimeError StatusBadGateway)
      | None => do* commit_session spec actor begun; come_live spec actor
      end
    end
  end.

(** [strings.TrimSpace(task) == ""]. *)
Definition blank (task : string) : bool := is_empty (TrimSpace task).

Definition startFreshWorker (spec : WorkerSpec) (task : string) (configTask : bool) (actor : string) : P reply :=
  if is_empty (w_Image spec) then answered actor "deny" (refuse ReasonImageUnqualified StatusConflict)
  else
    let? took := admitOrRefuse d actor (w_Name spec) in
    releasing (w_Name spec) took
      (let* instructions := readWorkerInstructions spec in
       match instructions with
       | Err _ => answered actor "error" (refuse ReasonConfigFile StatusInternalServerError)
       | Ok instructions =>
         let* task := (if configTask && blank task then readWorkerTask spec else Ret (Ok task)) in
         match task with
         | Err _ => answered actor "error" (refuse ReasonConfigFile StatusInternalServerError)
         | Ok task =>
           let* err := ensureWorkspaceDir d spec in
           match err with
           | Some ErrSharedFolder | Some ErrEscapesTree | Some ErrReadOnlyOverlap => answered actor "deny" (refuse ReasonWorkspaceUnsafe StatusForbidden)
           | Some _ => answered actor "error" (refuse ReasonRuntimeError StatusInternalServerError)
           | None =>
             let* err := checkSharedAccess d spec false in
             match err with
             | Some _ => answered actor "deny" (refuse ReasonSharedAccess StatusForbidden)
             | None => start_now spec task instructions actor
             end
           end
         end
       end).

Definition resumeExistingWorker (spec : WorkerSpec) (phase task actor : string) : P reply :=
  if negb (blank task) then answered actor "deny" (refusePhase ReasonTaskFixed phase StatusConflict)
  else
    let* err := checkAgentRole d (w_Name spec) in
    match err with
    | Some _ => answered actor "deny" (refuse ReasonRoleMismatch StatusConflict)
    | None => resumeRecord spec phase actor
    end.

Definition startWorker (spec : WorkerSpec) (task : string) (configTask : bool) (actor : string) : P reply :=
  do? taskOK actor task;
  do? lockWorkerOrRefuse actor (w_Name spec);
  unlocking (w_Name spec)
    (let* revoked := ask (IsRevoked (w_Name spec)) in
     if revoked then answered actor "deny" (refuse ReasonRevoked StatusForbidden)
     else
       let* phase := phaseOf d spec in
       match phase with
       | Err _ => answered actor "error" (refuse ReasonRuntimeError StatusBadGateway)
       | Ok phase =>
         if str_eqb phase PhaseRunning then Ret (Answer (w_Name spec) PhaseRunning)
         else if negb (is_empty phase) then resumeExistingWorker spec phase task actor
         else startFreshWorker spec task configTask actor
       end).

(** * Resume *)

Definition resumeWorker (spec : WorkerSpec) (actor : string) : P reply :=
  do? lockWorkerOrRefuse actor (w_Name spec);
  unlocking (w_Name spec)
    (let* revoked := ask (IsRevoked (w_Name spec)) in
     if revoked then answered actor "deny" (refuse ReasonRevoked StatusForbidden)
     else
       let* err := checkAgentRole d (w_Name spec) in
       match err with
       | Some _ => answered actor "deny" (refuse ReasonRoleMismatch StatusConflict)
       | None =>
         let* phase := phaseOf d spec in
         match phase with
         | Err _ => answered actor "error" (refuse ReasonRuntimeError StatusBadGateway)
         | Ok phase =>
           if is_empty phase then answered actor "deny" (refuse ReasonNoRecord StatusNotFound)
           else if str_eqb phase PhaseRunning then answered actor "allow" (Answer (w_Name spec) PhaseRunning)
           else resumeRecord spec phase actor
         end
       end).

(** * Recycle *)

Definition recyclablePhase (phase : string) : bool := one_of [PhaseSuspended; PhaseStopped; PhaseError] phase.

(** The record's container is down, as the hub says and as podman does. *)
Definition container_down (spec : WorkerSpec) (phase cs actor : string) : P (result unit reply) :=
  let notStopped := refusePhase ReasonNotStopped phase StatusConflict in
  if is_empty phase then Ret (Ok tt)
  else if ContainerLive cs then denied actor "deny" notStopped
  else if d_containerRunning d then
    let* live := ask (ContainerRunning (w_Name spec)) in
    match live with
    | Err _ => denied actor "error" (refuse ReasonRuntimeError StatusBadGateway)
    | Ok true => denied actor "deny" notStopped
    | Ok false => Ret (Ok tt)
    end
  else Ret (Ok tt).

(** Whole seconds of a wait, rounded half up, and at least one. *)
Definition retry_secs (wait : Duration) : Z := Z.max 1 ((wait + Second / 2) / Second).

(** The end of a recycle, its guards passed: the record is deleted, when there is
    one, and the worker started fresh. *)
Definition recycle_now (spec : WorkerSpec) (phase task actor : string) : P reply :=
  if is_empty phase then do* audit actor "allow"; startFreshWorker spec task false actor
  else
    let* purged := ask (PurgeWorker (w_Name spec)) in
    match purged with
    | Err _ => do* ask (RecycleRefund (w_Name spec)); answered actor "error" (refuse ReasonRuntimeError StatusBadGateway)
    | Ok ticketErr =>
      do* (match ticketErr with Some _ => audit actor "error" | None => Ret tt end);
      do* audit actor "allow";
      startFreshWorker spec task false actor
    end.

Definition recycle_locked (spec : WorkerSpec) (task : string) (configTask : bool) (actor : string) : P reply :=
  let* revoked := ask (IsRevoked (w_Name spec)) in
  if revoked then answered actor "deny" (refuse ReasonRevoked StatusForbidden)
  else
    let* rec := recordOf d spec in
    match rec with
    | Err _ => answered actor "error" (refuse ReasonRuntimeError StatusBadGateway)
    | Ok (phase, cs) =>
      if negb (is_empty phase) && negb (recyclablePhase phase) then answered actor "deny" (refusePhase ReasonNotStopped phase StatusConflict)
      else
        do? container_down spec phase cs actor;
        let* instructions := readWorkerInstructions spec in
        match instructions with
        | Err _ => answered actor "error" (refuse ReasonConfigFile StatusInternalServerError)
        | Ok _ =>
          let* task := (if configTask && blank task then readWorkerTask spec else Ret (Ok task)) in
          match task with
          | Err _ => answered actor "error" (refuse ReasonConfigFile StatusInternalServerError)
          | Ok task =>
            let? took := admitOrRefuse d actor (w_Name spec) in
            releasing (w_Name spec) took
              (let* wait := ask (RecycleTake (w_Name spec)) in
               match wait with
               | Some w => answered actor "deny" (Refused ReasonRateLimited "" (Some (retry_secs w)) StatusTooManyRequests)
               | None =>
                 let* err := checkSharedAccess d spec false in
                 match err with
                 | Some _ => do* ask (RecycleRefund (w_Name spec)); answered actor "deny" (refuse ReasonSharedAccess StatusForbidden)
                 | None => recycle_now spec phase task actor
                 end
               end)
          end
        end
    end.

Definition recycleWorker (spec : WorkerSpec) (task : string) (configTask : bool) (actor : string) : P reply :=
  if str_eqb (w_Name spec) (d_manager d) || str_eqb (w_Name spec) (d_managerSlug d) then answered actor "deny" (refuse ReasonNotAWorker StatusForbidden)
  else if negb (str_eqb actor operatorActor) && negb (w_Recyclable spec) then answered actor "deny" (refuse ReasonNotRecyclable StatusForbidden)
  else
    do? taskOK actor task;
    if negb (d_purger d) then answered actor "error" (refuse ReasonRuntimeUnavailable StatusBadGateway)
    else
      let* locked := ask (TryLockWorker (w_Name spec)) in
      if negb locked then answered actor "deny" (refuse ReasonBusy StatusServiceUnavailable)
      else unlocking (w_Name spec) (recycle_locked spec task configTask actor).

(** * New session *)

Definition stopWaitAttempts : nat := 120.

(** [waitWorkerStopped]. *)
Fixpoint stopped_within (n : nat) (spec : WorkerSpec) : P (option string) :=
  match n with
  | O => Ret (Some "the stop was not confirmed")
  | S n =>
    let* rec := recordOf d spec in
    let* confirmed :=
      (match rec with
       | Err _ => Ret false
       | Ok (phase, cs) =>
         if str_eqb phase PhaseStopped && negb (ContainerLive cs) then
           if d_containerRunning d then
             let* live := ask (ContainerRunning (w_Name spec)) in Ret (match live with Ok l => negb l | Err _ => false end)
           else Ret true
         else Ret false
       end) in
    if (confirmed : bool) then Ret None
    else
      let* done := ask Pause in
      match done with Some e => Ret (Some e) | None => stopped_within n spec end
  end.
Definition waitWorkerStopped (spec : WorkerSpec) : P (option string) := stopped_within stopWaitAttempts spec.

(** From the stop on. *)
Definition stop_then_resume (spec : WorkerSpec) (phase task : string) : P reply :=
  let* err := ask (Stop (w_Name spec) (d_project d)) in
  match err with
  | Some _ => answered operatorActor "error" (refusePhase ReasonRuntimeError phase StatusBadGateway)
  | None =>
    let* err := waitWorkerStopped spec in
    match err with
    | Some _ => answered operatorActor "error" (refuse ReasonRuntimeError StatusBadGateway)
    | None =>
      let* revoked := ask (IsRevoked (w_Name spec)) in
      if revoked then answered operatorActor "deny" (refuse ReasonRevoked StatusForbidden)
      else do* audit operatorActor "allow"; resumeRecordAs spec PhaseStopped operatorActor (Some task)
    end
  end.

Definition new_session_locked (spec : WorkerSpec) (task : string) : P reply :=
  let* revoked := ask (IsRevoked (w_Name spec)) in
  if revoked then answered operatorActor "deny" (refuse ReasonRevoked StatusForbidden)
  else
    let* phase := phaseOf d spec in
    match phase with
    | Err _ => answered operatorActor "error" (refuse ReasonRuntimeError StatusBadGateway)
    | Ok phase =>
      if is_empty phase then answered operatorActor "deny" (refuse ReasonNoRecord StatusNotFound)
      else
        let* task := (if blank task then readWorkerTask spec else Ret (Ok task)) in
        match task with
        | Err _ => answered operatorActor "error" (refuse ReasonConfigFile StatusInternalServerError)
        | Ok task =>
          let* err := checkAgentRole d (w_Name spec) in
          match err with
          | Some _ => answered operatorActor "deny" (refuse ReasonRoleMismatch StatusConflict)
          | None =>
            do? recordImageOK spec operatorActor;
            let? took := admitOrRefuse d operatorActor (w_Name spec) in
            releasing (w_Name spec) took (do? resumeChecks spec operatorActor; stop_then_resume spec phase task)
          end
        end
    end.

(** * The routes *)

Record WorkerStartRequest := MkStartRequest { sr_Worker : string; sr_Task : string }.

Definition handleWorkerStart (body : option WorkerStartRequest) : P reply :=
  let? rs := requireManagerWorker d body sr_Worker in
  startWorker rs.2 (sr_Task rs.1) false (d_manager d).

Definition handleWorkerRecycle (body : option WorkerStartRequest) : P reply :=
  let? rs := requireManagerWorker d body sr_Worker in
  recycleWorker rs.2 (sr_Task rs.1) false (d_manager d).

Definition handleWorkerResume (body : option string) : P reply :=
  let? rs := requireManagerWorker d body (fun w => w) in
  resumeWorker rs.2 (d_manager d).

(** [workerVerb]: stop or suspend by the manager. *)
Inductive halt := Stopping | Suspending.
Definition ask_halt (v : halt) (worker : string) : P (option string) :=
  match v with Stopping => ask (Stop worker (d_project d)) | Suspending => ask (Suspend worker (d_project d)) end.

Definition workerVerb (body : option string) (v : halt) : P reply :=
  let? rs := requireManagerWorker d body (fun w => w) in
  let spec := rs.2 in
  do? lockWorkerOrRefuse (d_manager d) (w_Name spec);
  unlocking (w_Name spec)
    (let* err := ask_halt v (w_Name spec) in
     match err with
     | Some _ => answered (d_manager d) "error" (HttpErr StatusBadGateway)
     | None =>
       let* phase := phaseOf d spec in
       answered (d_manager d) "allow" (Answer (w_Name spec) (match phase with Ok p => p | Err _ => "unknown" end))
     end).
Definition handleWorkerStop (body : option string) : P reply := workerVerb body Stopping.
Definition handleWorkerSuspend (body : option string) : P reply := workerVerb body Suspending.

(** What the manager may read of the fleet. *)
Definition labelled_agent (a : Agent) : Agent :=
  MkAgent (a_Slug a) (PhaseLabel (a_Phase a)) (ActivityLabel (a_Activity a)) (ContainerLabel (a_ContainerStatus a)) (a_Image a) (a_ContainerID a) (a_LastActivityEvent a).

Definition handleWorkerList : P reply :=
  let* caller := ask (RequireManager "worker") in
  match caller with
  | None => Ret (HttpErr StatusForbidden)
  | Some _ =>
    do? runtimeReady d;
    let* agents := ask List in
    match agents with
    | Err _ => answered (d_manager d) "error" (HttpErr StatusBadGateway)
    | Ok agents => Ret (Agents (labelled_agent <$> agents))
    end
  end.

(** ** The operator's *)

Definition operatorWorker {R} (body : option R) (name : R -> string) : P (result (R * WorkerSpec) reply) :=
  match body with
  | None => denied operatorActor "deny" (refuse ReasonBadRequest StatusBadRequest)
  | Some req =>
    match workerSpec d (name req) with
    | None => denied operatorActor "deny" (refuse ReasonNotAWorker StatusForbidden)
    | Some spec => Ret (Ok (req, spec))
    end
  end.

(** The checks before the lock. *)
Definition unrevoked_ready (spec : WorkerSpec) (actor : string) : P (result unit reply) :=
  let* revoked := ask (IsRevoked (w_Name spec)) in
  if revoked then denied actor "deny" (refuse ReasonRevoked StatusForbidden) else runtimeReady d.

Definition handleOperatorWorkerStart (body : option WorkerStartRequest) : P reply :=
  let? rs := operatorWorker body sr_Worker in
  do? unrevoked_ready rs.2 operatorActor;
  startWorker rs.2 (sr_Task rs.1) true operatorActor.

Definition handleOperatorWorkerRecycle (body : option WorkerStartRequest) : P reply :=
  let? rs := operatorWorker body sr_Worker in
  do? unrevoked_ready rs.2 operatorActor;
  recycleWorker rs.2 (sr_Task rs.1) true operatorActor.

Definition handleOperatorWorkerNewSession (body : option WorkerStartRequest) : P reply :=
  let? rs := operatorWorker body sr_Worker in
  let spec := rs.2 in
  do? unrevoked_ready spec operatorActor;
  do? taskOK operatorActor (sr_Task rs.1);
  do? lockWorkerOrRefuse operatorActor (w_Name spec);
  unlocking (w_Name spec) (new_session_locked spec (sr_Task rs.1)).

Definition operatorWorkerHalt (body : option string) (v : halt) : P reply :=
  let? rs := operatorWorker body (fun w => w) in
  let spec := rs.2 in
  do? runtimeReady d;
  do? lockWorkerOrRefuse operatorActor (w_Name spec);
  unlocking (w_Name spec)
    (let* agents := ask List in
     match agents with
     | Err _ => answered operatorActor "error" (refuse ReasonRuntimeError StatusBadGateway)
     | Ok agents =>
       match FindAgent agents (w_Name spec) with
       | None => answered operatorActor "deny" (refuse ReasonNoRecord StatusNotFound)
       | Some _ =>
         let* err := ask_halt v (w_Name spec) in
         match err with
         | Some _ => answered operatorActor "error" (refuse ReasonRuntimeError StatusBadGateway)
         | None =>
           let* phase := phaseOf d spec in
           answered operatorActor "allow" (Answer (w_Name spec) (match phase with Ok p => if is_empty p then "unknown" else p | Err _ => "unknown" end))
         end
       end
     end).

(** The listing. *)
Definition WorkerActivitySource : string := "worker-reported".
Definition PhaseNone : string := "none".

Definition idleAtPrompt (phase activity : string) : option bool :=
  if negb (str_eqb phase PhaseRunning) then Some false
  else if one_of [ActivityWaitingForInput; ActivityCompleted] activity then Some true
  else if one_of [ActivityWorking; "thinking"; "executing"] activity then Some false
  else None.

(** The zero [scion.Agent], which a map without the name yields. *)
Definition zeroAgent : Agent := MkAgent "" "" "" "" "" "" 0.

Definition workerListEntry (name : string) (a : Agent) (found : bool) (stranded : P bool) : P WorkerListEntry :=
  if negb found then Ret (MkListEntry name PhaseNone "" WorkerActivitySource None "" (Some false))
  else
    let phase := PhaseLabel (a_Phase a) in
    let* down := (if RunningContainerDown phase (a_ContainerStatus a) then Ret true
                  else if str_eqb phase PhaseRunning && EqualFold (a_ContainerStatus a) "created" then stranded else Ret false) in
    let phase := if (down : bool) then PhaseRunningContainerDownToken else phase in
    let activity := ActivityLabel (a_Activity a) in
    Ret (MkListEntry name phase activity WorkerActivitySource (if a_LastActivityEvent a =? 0 then None else Some (a_LastActivityEvent a))
           (ContainerLabel (a_ContainerStatus a)) (idleAtPrompt phase activity)).

(** [bySlug]: the last record of a slug. *)
Definition bySlug (agents : list Agent) (name : string) : Agent := default zeroAgent (FindAgent (reverse agents) name).

Fixpoint list_entries (agents : list Agent) (names : list string) : P (list WorkerListEntry) :=
  match names with
  | [] => Ret []
  | name :: names =>
    let a := bySlug agents name in
    let* e := workerListEntry name a (str_eqb (a_Slug a) name) (strandedCreated d name) in
    let* es := list_entries agents names in Ret (e :: es)
  end.

Definition slug_le (a b : string) : Prop := Compare a b <> Gt.
#[local] Instance slug_le_dec : RelDecision slug_le.
Proof. intros a b. unfold slug_le. apply _. Defined.

Definition handleOperatorWorkerList : P reply :=
  do? runtimeReady d;
  let* agents := ask List in
  match agents with
  | Err _ => answered operatorActor "error" (refuse ReasonRuntimeError StatusBadGateway)
  | Ok agents => let* es := list_entries agents (merge_sort slug_le (map_to_list (d_workers d)).*1) in Ret (Workers es)
  end.

(** [WorkerResumeRequest]: a worker, or a resume for a chat login. *)
Record ResumeFor := MkResumeFor { rf_Worker : string; rf_Login : string; rf_Tier : string }.
Record WorkerResumeRequest := MkResumeRequest { rr_Worker : string; rr_For : option ResumeFor }.

(** [boundedLogin]. *)
Definition IsControl (r : Z) : bool := ((0 <=? r) && (r <? 32)) || ((127 <=? r) && (r <? 160)).
(** [strings.ToValidUTF8(s, repl)], from inside a run of invalid bytes or not. *)
Fixpoint to_valid (repl : string) (inside : bool) (cs : list (Z * string)) : string :=
  match cs with
  | [] => ""
  | (r, b) :: cs =>
    if (r =? RuneError) && (len b =? 1) then (if inside then "" else repl) +:+ to_valid repl true cs else b +:+ to_valid repl false cs
  end.
Definition ToValidUTF8 (s repl : string) : string := to_valid repl false (chunks s).
Definition boundedLogin (s : string) : string :=
  let s := ToValidUTF8 s "_" in
  let s := if 120 <? len s then ToValidUTF8 (String.substring 0 120 s) "_" else s in
  foldr (fun rb acc => (if IsControl rb.1 || IsSpace rb.1 || in_Cf rb.1 then "_" else rb.2) +:+ acc) "" (chunks s).

(** The rest of [wakeFor], for the audit actor it makes of the login. *)
Definition wakeFor (who : ResumeFor) (actor : string) : P reply :=
  match workerSpec d (rf_Worker who) with
  | None => answered actor "deny" (refuse ReasonNotAWorker StatusForbidden)
  | Some spec =>
    do? unrevoked_ready spec actor;
    do? lockWorkerOrRefuse actor (w_Name spec);
    unlocking (w_Name spec)
      (let* revoked := ask (IsRevoked (w_Name spec)) in
       if revoked then answered actor "deny" (refuse ReasonRevoked StatusForbidden)
       else
         let* err := checkAgentRole d (w_Name spec) in
         match err with
         | Some _ => answered actor "deny" (refuse ReasonRoleMismatch StatusConflict)
         | None =>
           let* phase := phaseOf d spec in
           match phase with
           | Err _ => answered actor "error" (refuse ReasonRuntimeError StatusBadGateway)
           | Ok phase =>
             if str_eqb phase PhaseRunning then answered actor "allow" (Answer (w_Name spec) PhaseRunning)
             else if str_eqb phase PhaseStopped && negb (str_eqb (rf_Tier who) "operator") then answered actor "deny" (refusePhase ReasonStoppedByOperator phase StatusConflict)
             else if negb (str_eqb phase PhaseSuspended) && negb (str_eqb phase PhaseStopped) then
               answered actor "deny" (refusePhase (if is_empty phase then ReasonNoRecord else ReasonNotAsleep) phase StatusConflict)
             else resumeRecord spec phase actor
           end
         end)
  end.

Definition handleOperatorWorkerResume (body : option WorkerResumeRequest) : P reply :=
  match body with
  | None => answered operatorActor "deny" (refuse ReasonBadRequest StatusBadRequest)
  | Some req =>
    match rr_For req with
    | Some who => if negb (is_empty (rr_Worker req)) then answered operatorActor "deny" (refuse ReasonBadRequest StatusBadRequest) else wakeFor who ("remote:" +:+ boundedLogin (rf_Login who))
    | None =>
      match workerSpec d (rr_Worker req) with
      | None => answered operatorActor "deny" (refuse ReasonNotAWorker StatusForbidden)
      | Some spec => do? unrevoked_ready spec operatorActor; resumeWorker spec operatorActor
      end
    end
  end.

(** [handleWorkerTicket], of the admin listener. *)
Definition handleWorkerTicket (body : option string) : P reply :=
  match body with
  | None => do* ask (Audit "worker-ticket" "" "deny"); Ret (HttpErr StatusBadRequest)
  | Some name =>
    if is_empty name then do* ask (Audit "worker-ticket" "" "deny"); Ret (HttpErr StatusBadRequest)
    else
      match workerSpec d name with
      | None => do* ask (Audit "worker-ticket" "" "deny"); Ret (HttpErr StatusNotFound)
      | Some spec =>
        let* err := stageWorkerTicket d spec in
        match err with
        | Some _ => do* ask (Audit "worker-ticket" (w_Name spec) "error"); Ret (HttpErr StatusInternalServerError)
        | None => do* ask (Audit "worker-ticket" (w_Name spec) "allow"); Ret (TicketPath (w_Name spec) (w_TicketDir spec +:+ "/bootstrap.json"))
        end
      end
  end.

End Routes.

End Dispatch.
