(* ===== verification/DispatchSafe.v ===== *)
(** What a worker route may do, and when: a monitor over the questions of a run,
    and that no run of any route ever asks one it may not. *)

From S2P Require Import Prelude Go TreePath GoPath Render Scion Effects Worker Workspace Dispatch.

Module DispatchSafe.
Import TreePath GoPath Render Scion Effects Worker Workspace Dispatch.
Open Scope prog_scope.

(** What a run has established since it took the lifecycle lock. *)
Record ghost := MkGhost {
  g_lock : option string;               (* the worker whose lifecycle lock it holds *)
  g_admit : bool;                       (* whether it holds the admission lock *)
  g_slots : nat;                        (* the running-worker slots it holds for that worker *)
  g_listed : option (list Agent);       (* the hub's list and the starts under way, *)
  g_counted : option (gmap string Z);   (* read since it took the admission lock *)
  g_alive : bool;                       (* the last answer to "is it revoked?" was no *)
  g_recent : bool;                      (* and came after the last admission and check of the manager's pins *)
  g_reads : list (option Agent);        (* its record, in each list the hub gave *)
  g_down : bool;                        (* podman has said its container does not run *)
  g_guarded : bool;                     (* the last check of the manager's pins passed *)
  g_roled : bool;                       (* the last check of its stored role passed *)
  g_issued : option string;             (* a ticket issued for it and not staged yet *)
  g_timely : bool;                      (* the last ticket was issued on a recent answer *)
  g_staged : bool;                      (* a ticket was staged for it *)
  g_purged : bool;                      (* its record was deleted *)
  g_paced : bool                        (* the recycle rate limit let it pass *)
}.
Definition idle : ghost := MkGhost None false 0 None None false false [] false false false None false false false false.
Definition locked (w : string) : ghost := MkGhost (Some w) false 0 None None false false [] false false false None false false false false.

Definition set_admit (b : bool) (g : ghost) : ghost :=
  MkGhost (g_lock g) b (g_slots g) None None (g_alive g) false (g_reads g) (g_down g) (g_guarded g) (g_roled g) (g_issued g) (g_timely g) (g_staged g) (g_purged g) (g_paced g).
Definition set_slots (n : nat) (g : ghost) : ghost :=
  MkGhost (g_lock g) (g_admit g) n None None (g_alive g) (g_recent g) (g_reads g) (g_down g) (g_guarded g) (g_roled g) (g_issued g) (g_timely g) (g_staged g) (g_purged g) (g_paced g).
Definition set_counted (m : gmap string Z) (g : ghost) : ghost :=
  MkGhost (g_lock g) (g_admit g) (g_slots g) (g_listed g) (Some m) (g_alive g) (g_recent g) (g_reads g) (g_down g) (g_guarded g) (g_roled g) (g_issued g) (g_timely g) (g_staged g) (g_purged g) (g_paced g).
Definition set_alive (b : bool) (g : ghost) : ghost :=
  MkGhost (g_lock g) (g_admit g) (g_slots g) (g_listed g) (g_counted g) b b (g_reads g) (g_down g) (g_guarded g) (g_roled g) (g_issued g) (g_timely g) (g_staged g) (g_purged g) (g_paced g).
Definition hear (agents : list Agent) (w : string) (g : ghost) : ghost :=
  MkGhost (g_lock g) (g_admit g) (g_slots g) (if g_admit g then Some agents else g_listed g) (g_counted g) (g_alive g) (g_recent g) (FindAgent agents w :: g_reads g) (g_down g) (g_guarded g) (g_roled g) (g_issued g) (g_timely g) (g_staged g) (g_purged g) (g_paced g).
Definition set_down (g : ghost) : ghost :=
  MkGhost (g_lock g) (g_admit g) (g_slots g) (g_listed g) (g_counted g) (g_alive g) (g_recent g) (g_reads g) true (g_guarded g) (g_roled g) (g_issued g) (g_timely g) (g_staged g) (g_purged g) (g_paced g).
Definition set_guarded (b : bool) (g : ghost) : ghost :=
  MkGhost (g_lock g) (g_admit g) (g_slots g) (g_listed g) (g_counted g) (g_alive g) false (g_reads g) (g_down g) b (g_roled g) (g_issued g) (g_timely g) (g_staged g) (g_purged g) (g_paced g).
Definition set_roled (b : bool) (g : ghost) : ghost :=
  MkGhost (g_lock g) (g_admit g) (g_slots g) (g_listed g) (g_counted g) (g_alive g) (g_recent g) (g_reads g) (g_down g) (g_guarded g) b (g_issued g) (g_timely g) (g_staged g) (g_purged g) (g_paced g).
Definition set_issued (t : string) (g : ghost) : ghost :=
  MkGhost (g_lock g) (g_admit g) (g_slots g) (g_listed g) (g_counted g) (g_alive g) (g_recent g) (g_reads g) (g_down g) (g_guarded g) (g_roled g) (Some t) (g_recent g) (g_staged g) (g_purged g) (g_paced g).
Definition set_staged (g : ghost) : ghost :=
  MkGhost (g_lock g) (g_admit g) (g_slots g) (g_listed g) (g_counted g) (g_alive g) (g_recent g) (g_reads g) (g_down g) (g_guarded g) (g_roled g) None (g_timely g) true (g_purged g) (g_paced g).
Definition set_purged (g : ghost) : ghost :=
  MkGhost (g_lock g) (g_admit g) (g_slots g) (g_listed g) (g_counted g) (g_alive g) (g_recent g) (g_reads g) (g_down g) (g_guarded g) (g_roled g) (g_issued g) (g_timely g) (g_staged g) true (g_paced g).
Definition set_paced (b : bool) (g : ghost) : ghost :=
  MkGhost (g_lock g) (g_admit g) (g_slots g) (g_listed g) (g_counted g) (g_alive g) (g_recent g) (g_reads g) (g_down g) (g_guarded g) (g_roled g) (g_issued g) (g_timely g) (g_staged g) (g_purged g) b.

(** Whether the lock is that worker's. *)
Definition holds (g : ghost) (w : string) : bool := bool_decide (g_lock g = Some w).

Definition observe (g : ghost) (e : event answer) : ghost :=
  match e_asked e as q return answer q -> ghost with
  | LockWorker w => fun err => match err with None => locked w | Some _ => g end
  | TryLockWorker w => fun got => if (got : bool) then locked w else g
  | UnlockWorker _ => fun _ => idle
  | AdmitLock => fun _ => set_admit true g
  | AdmitUnlock => fun _ => set_admit false g
  | ReadAdmitting => fun m => set_counted m g
  | IncAdmitting _ => fun _ => set_slots (S (g_slots g)) g
  | DecAdmitting _ => fun _ => set_slots (pred (g_slots g)) g
  | IsRevoked w => fun revoked => if holds g w then set_alive (negb revoked) g else g
  | List => fun r => match r, g_lock g with Ok agents, Some w => hear agents w g | _, _ => g end
  | ContainerRunning w => fun r => match r with Ok false => if holds g w then set_down g else g | _ => g end
  | SharedGuard => fun r => set_guarded (match r with None => true | Some _ => false end) g
  | VerifyRole w => fun err => if holds g w then set_roled (match err with None => true | Some _ => false end) g else g
  | IssueTicket w => fun r => match r with Ok t => if holds g w then set_issued t g else g | Err _ => g end
  | StageTicket w _ => fun err => match err with None => if holds g w then set_staged g else g | Some _ => g end
  | PurgeWorker w => fun r => match r with Ok _ => if holds g w then set_purged g else g | Err _ => g end
  | RecycleTake w => fun wait => if holds g w then set_paced (match wait with None => true | Some _ => false end) g else g
  | _ => fun _ => g
  end (e_answer e).

Section Rules.
Context (d : Dispatch).

(** A worker may be brought up: the run holds its lock, and under it has heard
    that it is not revoked, taken a running-worker slot where they are counted,
    and found the manager's pins in place where they are checked. *)
Record ready (g : ghost) (w : string) : Prop := MkReady {
  re_lock : g_lock g = Some w;
  re_alive : g_alive g = true;
  re_slot : 0 < d_max d -> (0 < g_slots g)%nat;
  re_guard : d_sharedGuard d = true -> g_guarded g = true
}.

(** The hub showed a record on an image name it never rewrites, and the role
    stored in it passed. *)
Definition resumable (g : ghost) : Prop :=
  (exists a, Some a ∈ g_reads g /\ Fixed (a_Image a) = true) /\ (d_verifyRole d = true -> g_roled g = true).
(** The hub showed no record, or none in any phase, or it was deleted. *)
Definition startable (g : ghost) : Prop :=
  (exists r, r ∈ g_reads g /\ match r with None => True | Some a => a_Phase a = "" end) \/ g_purged g = true.
(** The hub showed a record asleep or failed whose container is down, and podman,
    where it is asked, agreed. *)
Definition deletable (g : ghost) : Prop :=
  (exists a, Some a ∈ g_reads g /\ recyclablePhase (PhaseLabel (a_Phase a)) = true /\ ContainerLive (a_ContainerStatus a) = false)
  /\ (d_containerRunning d = true -> g_down g = true) /\ g_paced g = true.

(** Which question may be asked when; [adm] is whether by the admin listener's
    ticket route, which stages a ticket for an identity without a container. *)
Definition allowed (adm : bool) (g : ghost) (q : action) : Prop :=
  match q with
  | LockWorker _ | TryLockWorker _ => g_lock g = None /\ g_admit g = false
  | UnlockWorker w => g_lock g = Some w /\ g_admit g = false /\ g_slots g = 0%nat
  | AdmitLock => g_admit g = false
  | AdmitUnlock | ReadAdmitting => g_admit g = true
  | IncAdmitting w => g_lock g = Some w /\ g_admit g = true
      /\ exists agents admitting, g_listed g = Some agents /\ g_counted g = Some admitting /\ Z.of_nat (size (counted d w agents admitting)) < d_max d
  | DecAdmitting w => g_lock g = Some w /\ g_admit g = true /\ (0 < g_slots g)%nat
  | IssueTicket w => (ready g w \/ adm = true /\ g_lock g = None) /\ is_Some (d_workers d !! w)
  | StageTicket w bs => exists t spec, (ready g w /\ g_issued g = Some t \/ adm = true /\ g_lock g = None) /\ d_workers d !! w = Some spec
      /\ bs = MkBootstrap t (d_brokerCAPEM d) (d_brokerURL d) w (w_Claude spec)
  | Start o => ready g (o_Worker o) /\ g_staged g = true /\ startable g
      /\ exists spec task instructions, d_workers d !! o_Worker o = Some spec /\ o = start_opts d spec task instructions
         /\ CheckTask task = None /\ CheckInstructions instructions = None /\ o_Image o <> ""
  | Resume w p | ResumeForce w p => ready g w /\ g_staged g = true /\ g_timely g = true /\ resumable g /\ p = d_project d
  | ResumeTask w p t => ready g w /\ g_staged g = true /\ g_timely g = true /\ resumable g /\ p = d_project d /\ CheckTask t = None
  | Stop w p | Suspend w p => g_lock g = Some w /\ is_Some (d_workers d !! w) /\ p = d_project d
  | PurgeWorker w => ready g w /\ deletable g /\ w <> d_manager d /\ w <> d_managerSlug d
  | EnvSet _ _ _ => g_staged g = true
  | BeginSession w | CommitSession w => g_lock g = Some w /\ g_staged g = true
  | RecycleRefund w => g_lock g = Some w /\ g_paced g = true
  | _ => True
  end.

End Rules.

(** * Proving programs safe *)

Section Safe.
Context `{Unicode, UnicodeTables} (d : Dispatch) (adm : bool).

Abbreviation safe := (Effects.safe observe (allowed d adm)).

(** Questions that may always be asked and establish nothing. *)
Definition is_quiet (q : action) : bool :=
  match q with
  | Audit _ _ _ | RequireManager _ | ResetReenrolTries _ | WaitAgentLive _ | RecordVolumes _ | LeftoverShareVolumes _ | ContainerStranded _ | RemoveStranded _
  | ReadFile _ | ReadRegularFile _ _ | EvalSymlinks _ | Lstat _ | Stat _ | OpenRoot _ | MkdirAll _ _ | Pause => true
  | _ => false
  end.
(** Only such questions, and an answer that satisfies [R]. *)
Fixpoint brings {A} (R : A -> Prop) (p : P A) : Prop :=
  match p with Ret a => R a | Ask q k => is_quiet q = true /\ forall r, brings R (k r) end.
Definition quiet {A} : P A -> Prop := brings (fun _ => True).

Lemma brings_bind {A B} (p : P A) (f : A -> P B) (S : A -> Prop) (R : B -> Prop) : brings S p -> (forall a, S a -> brings R (f a)) -> brings R (bind p f).
Proof. induction p as [a|q k IH]; cbn [brings bind]; [auto|]. intros [Hq Hk] Hf. split; [done|]. intros r. by apply IH. Qed.

Lemma brings_ask {A} q (k : answer q -> P A) (R : A -> Prop) : is_quiet q = true -> (forall r, brings R (k r)) -> brings R (bind (ask q) k).
Proof. by split. Qed.

Lemma brings_safe {A} (p : P A) g (R : A -> Prop) (Q : ghost -> A -> Prop) : brings R p -> (forall a, R a -> Q g a) -> safe p g Q.
Proof.
  intros Hp HQ. induction p as [a|q k IH]; cbn [Effects.safe brings] in *; [auto|]. destruct Hp as [Hq Hk]. split; [by destruct q|].
  intros r. assert (E : observe g (Ev q r) = g) by (by destruct q). rewrite E. by apply IH.
Qed.

(** ** What an observation leaves *)

Record frame (g g' : ghost) : Prop := MkFrame { fr_lock : g_lock g' = g_lock g; fr_admit : g_admit g' = g_admit g; fr_slots : g_slots g' = g_slots g }.

(** Nothing established before is lost. *)
Record grown (g g' : ghost) : Prop := MkGrown {
  gr_frame : frame g g';
  gr_alive : g_alive g = true -> g_alive g' = true;
  gr_reads : forall r, r ∈ g_reads g -> r ∈ g_reads g';
  gr_down : g_down g = true -> g_down g' = true;
  gr_guarded : g_guarded g = true -> g_guarded g' = true;
  gr_roled : g_roled g = true -> g_roled g' = true;
  gr_staged : g_staged g = true -> g_staged g' = true;
  gr_purged : g_purged g = true -> g_purged g' = true;
  gr_paced : g_paced g = true -> g_paced g' = true
}.

#[export] Instance frame_preorder : PreOrder frame.
Proof. split; [done|]. intros g1 g2 g3 [H1 H2 H3] [H4 H5 H6]. constructor; congruence. Qed.
#[export] Instance grown_preorder : PreOrder grown.
Proof. split; [done|]. intros g1 g2 g3 [F1 ? ? ? ? ? ? ? ?] [F2 ? ? ? ? ? ? ? ?]. constructor; [by etrans|auto..]. Qed.

Lemma grown_ready g g' w : grown g g' -> ready d g w -> ready d g' w.
Proof. intros [[F1 F2 F3] ? ? ? ? ? ? ? ?] [? ? ? ?]. constructor; [congruence|auto|rewrite F3; auto|auto]. Qed.
Lemma grown_resumable g g' : grown g g' -> resumable d g -> resumable d g'.
Proof. intros [? ? Hr ? ? ? ? ? ?] [(a & Hin & Hf) ?]. split; [exists a; auto|auto]. Qed.
Lemma grown_startable g g' : grown g g' -> startable g -> startable g'.
Proof. intros [? ? Hr ? ? ? ? Hp ?] [(r & Hin & Hf)|?]; [left; exists r; auto|right; auto]. Qed.
Lemma grown_deletable g g' : grown g g' -> deletable d g -> deletable d g'.
Proof. intros [? ? Hr ? ? ? ? ? ?] [(a & Hin & Hf) [? ?]]. split; [exists a; auto|auto]. Qed.

(** The lock is held, and not the admission lock. *)
Definition under (w : string) (g : ghost) : Prop := g_lock g = Some w /\ g_admit g = false.
Lemma frame_under g g' w : frame g g' -> under w g -> under w g'.
Proof. intros [? ? ?] [? ?]. split; congruence. Qed.
Lemma grown_under g g' w : grown g g' -> under w g -> under w g'.
Proof. intros [? ? ? ? ? ? ? ? ?]. by apply frame_under. Qed.

Lemma holds_under g w : g_lock g = Some w -> holds g w = true.
Proof. intros E. by apply bool_decide_eq_true. Qed.

(** ** Steps *)

Lemma hear_grown agents w g : grown g (hear agents w g).
Proof. constructor; [done..| |done|done|done|done|done|done]. intros r' Hr. by right. Qed.

(** The hub's list, read under the lock. *)
Lemma safe_list g w (Q : ghost -> result (list Agent) string -> Prop) : g_lock g = Some w ->
  (forall e, Q g (Err e)) -> (forall agents, Q (hear agents w g) (Ok agents)) -> safe (ask List) g Q.
Proof. intros Hl He Ho. apply safe_ask; [exact I|]. intros [agents|e]; unfold observe; cbn; rewrite ?Hl; auto. Qed.

Lemma safe_step {A} q (k : answer q -> P A) g (Q : ghost -> A -> Prop) : allowed d adm g q -> (forall r, safe (k r) (observe g (Ev q r)) Q) -> safe (bind (ask q) k) g Q.
Proof. intros Ha Hk. cbn [bind ask Effects.ask Effects.safe]. by split. Qed.

Lemma safe_audit {A} actor dec (k : P A) g (Q : ghost -> A -> Prop) : safe k g Q -> safe (bind (audit actor dec) (fun _ => k)) g Q.
Proof. intros Hk. unfold audit. by apply safe_step. Qed.

Lemma safe_answered actor dec r g (Q : ghost -> reply -> Prop) : Q g r -> safe (answered actor dec r) g Q.
Proof. intros HQ. unfold answered. by apply safe_audit. Qed.
Lemma safe_denied {A} actor dec r g (Q : ghost -> result A reply -> Prop) : Q g (Err r) -> safe (denied actor dec r) g Q.
Proof. intros HQ. unfold denied. by apply safe_audit. Qed.

(** A part of a program by what it is known to do. *)
Lemma safe_part {A B} (p : P A) (k : A -> P B) g (Q : ghost -> B -> Prop) (S : ghost -> A -> Prop) :
  safe p g S -> (forall g' a, S g' a -> safe (k a) g' Q) -> safe (bind p k) g Q.
Proof. intros Hp Hk. apply safe_bind. by eapply safe_mono. Qed.

Lemma safe_brings {A B} (p : P A) (k : A -> P B) g (Q : ghost -> B -> Prop) (R : A -> Prop) : brings R p -> (forall a, R a -> safe (k a) g Q) -> safe (bind p k) g Q.
Proof. intros Hp Hk. apply safe_bind. by eapply brings_safe. Qed.
Lemma safe_quiet {A B} (p : P A) (k : A -> P B) g (Q : ghost -> B -> Prop) : quiet p -> (forall a, safe (k a) g Q) -> safe (bind p k) g Q.
Proof. intros Hp Hk. by eapply safe_brings. Qed.

(** ** Records *)

(** What a reading of the record says of the lists the hub gave. *)
Definition read_as (g : ghost) (phase cs : string) : Prop :=
  (phase = "" -> exists r, r ∈ g_reads g /\ match r with None => True | Some a => a_Phase a = "" end)
  /\ (phase <> "" -> phase <> phaseRunningContainerDown -> exists a, Some a ∈ g_reads g /\ PhaseLabel (a_Phase a) = phase /\ a_ContainerStatus a = cs).

Lemma PhaseLabel_empty p : PhaseLabel p = "" -> p = "".
Proof. unfold PhaseLabel. by destruct (one_of knownPhases p). Qed.

Lemma recordOf_safe spec g : g_lock g = Some (w_Name spec) ->
  safe (recordOf d spec) g (fun g' r => grown g g' /\ g_timely g' = g_timely g /\ match r with Ok (phase, cs) => read_as g' phase cs | Err _ => True end).
Proof.
  intros Hl. unfold recordOf. eapply (safe_part (ask List)).
  { apply (safe_list g (w_Name spec) (fun g' r => match r with Ok agents => g' = hear agents (w_Name spec) g | Err _ => g' = g end)); auto. }
  intros g' [agents|e]; [|by intros ->]. intros ->. set (g' := hear agents (w_Name spec) g).
  assert (Hin : FindAgent agents (w_Name spec) ∈ g_reads g') by left. pose proof (hear_grown agents (w_Name spec) g : grown g g') as Hg. destruct (FindAgent agents (w_Name spec)) as [a|] eqn:Er.
  - assert (Hread : read_as g' (PhaseLabel (a_Phase a)) (a_ContainerStatus a)).
    { split; [intros E; exists (Some a); split; [done|by apply PhaseLabel_empty]|]. intros _ _. by exists a. }
    assert (Hdown : read_as g' phaseRunningContainerDown (a_ContainerStatus a)) by (split; done).
    cbv zeta. destruct (RunningContainerDown _ _); [by split_and!|]. destruct (_ && _); [|by split_and!]. apply safe_quiet.
    { unfold strandedCreated. destruct (d_containerStranded d); cbn; auto. }
    intros []; by split_and!.
  - split; [done|]. split; [done|]. split; [|done]. intros _. by exists None.
Qed.

Lemma phaseOf_safe spec g : g_lock g = Some (w_Name spec) ->
  safe (phaseOf d spec) g (fun g' r => grown g g' /\ match r with Ok phase => exists cs, read_as g' phase cs | Err _ => True end).
Proof.
  intros Hl. unfold phaseOf. eapply safe_part; [by apply recordOf_safe|]. intros g' [[phase cs]|e] (Hg & _ & Hr); cbn; split; try done. by exists cs.
Qed.

Lemma checkAgentRole_safe w g : g_lock g = Some w ->
  safe (checkAgentRole d w) g (fun g' err => match err with None => grown g g' /\ (d_verifyRole d = true -> g_roled g' = true) | Some _ => frame g g' end).
Proof.
  intros Hl. unfold checkAgentRole. destruct (d_verifyRole d); [|by split]. unfold Effects.ask. cbn [Effects.safe]. split; [done|]. intros [e|]; unfold observe; cbn; rewrite (holds_under _ _ Hl); [done|].
  split; [by constructor|done].
Qed.

Lemma recordImageOK_safe spec actor g : g_lock g = Some (w_Name spec) ->
  safe (recordImageOK spec actor) g (fun g' r => grown g g' /\ match r with Ok _ => exists a, Some a ∈ g_reads g' /\ Fixed (a_Image a) = true | Err _ => True end).
Proof.
  intros Hl. unfold recordImageOK. eapply (safe_part (ask List)).
  { apply (safe_list g (w_Name spec) (fun g' r => match r with Ok agents => g' = hear agents (w_Name spec) g | Err _ => g' = g end)); auto. }
  intros g' [agents|e]; [|intros ->; by apply safe_denied]. intros ->. pose proof (hear_grown agents (w_Name spec) g) as Hg.
  destruct (FindAgent agents (w_Name spec)) as [a|] eqn:Er; [|by apply safe_denied]. unfold rewritableImage. destruct (Fixed (a_Image a)) eqn:Ef; cbn [negb]; [|by apply safe_denied].
  split; [done|]. exists a. split; [cbn; rewrite Er; by left|done].
Qed.

(** ** Slots *)

(** A slot was taken, where workers are counted. *)
Definition slot_taken (g g' : ghost) (took : bool) : Prop :=
  grown (if took then set_slots (S (g_slots g)) g else g) g' /\ (0 < d_max d -> took = true).

Lemma admitWorker_safe w g : under w g ->
  safe (admitWorker d w) g (fun g' r => match r with Ok took => slot_taken g g' took | Err _ => grown g g' end).
Proof.
  intros [Hl Ha]. unfold admitWorker. destruct (Z.leb_spec (d_max d) 0) as [Hm|Hm]; [split; [done|lia]|]. apply safe_step; [done|]. intros []. unfold observe at 1. cbn [e_asked e_answer].
  eapply (safe_part (ask List)).
  { apply (safe_list _ w (fun g' r => g' = match r with Ok agents => hear agents w (set_admit true g) | Err _ => set_admit true g end)); done. }
  intros g1 [agents|e] ->; [|apply safe_step; [done|]; intros []; by constructor].
  apply safe_step; [done|]. intros admitting. unfold observe at 1. cbn [e_asked e_answer].
  set (g2 := set_counted admitting (hear agents w (set_admit true g))). assert (Hgr : grown g (set_admit false g2)) by (constructor; try done; intros r Hr; by right).
  destruct (Z.leb_spec (d_max d) (Z.of_nat (size (counted d w agents admitting)))) as [Hfull|Hfree].
  - apply safe_step; [done|]. by intros [].
  - apply safe_step; [split; [done|]; split; [done|]; by exists agents, admitting|]. intros []. apply safe_step; [done|]. intros []. split; [|done].
    constructor; try done. intros r Hr. by right.
Qed.

Lemma admitOrRefuse_safe actor w g : under w g ->
  safe (admitOrRefuse d actor w) g (fun g' r => match r with Ok took => slot_taken g g' took | Err _ => grown g g' end).
Proof. intros Hu. unfold admitOrRefuse. eapply safe_part; [by apply admitWorker_safe|]. intros g' [took|[|]] HQ; [done|by apply safe_denied..]. Qed.

(** Given back. *)
Lemma release_safe w (took : bool) g g1 : under w g -> frame (if took then set_slots (S (g_slots g)) g else g) g1 ->
  safe (release w took) g1 (fun g' _ => frame g g').
Proof.
  intros [Hl Ha] [F1 F2 F3]. unfold release. destruct took; cbn in F1, F2, F3; [|by constructor].
  apply safe_step; [cbn; congruence|]. intros []. apply safe_step; [split; [cbn; congruence|split; [done|cbn in *; lia]]|]. intros []. apply (safe_ask observe (allowed d adm) AdmitUnlock); [done|]. intros [].
  constructor; cbn; congruence || (rewrite F3; done).
Qed.

Lemma releasing_safe w (took : bool) body g g1 : under w g -> frame (if took then set_slots (S (g_slots g)) g else g) g1 ->
  safe body g1 (fun g' _ => frame g1 g') -> safe (releasing w took body) g1 (fun g' _ => frame g g').
Proof.
  intros Hu Hf Hb. unfold releasing. eapply safe_part; [exact Hb|]. intros g2 r Hf2. eapply safe_part; [apply (release_safe w took g g2); [done|by etrans]|].
  by intros g3 [] Hf3.
Qed.

Lemma unlocking_safe w body g : under w g -> g_slots g = 0%nat -> safe body g (fun g' _ => frame g g') -> safe (unlocking w body) g (fun g' _ => g' = idle).
Proof.
  intros [Hl Ha] Hs Hb. unfold unlocking. eapply safe_part; [exact Hb|]. intros g1 r [F1 F2 F3]. apply safe_step; [|done]. cbn. repeat split; congruence.
Qed.

(** A handler's part under the lifecycle lock. *)
Lemma lock_safe actor w body : safe body (locked w) (fun g' _ => frame (locked w) g') ->
  safe (do? lockWorkerOrRefuse actor w; unlocking w body) idle (fun g' _ => g' = idle).
Proof.
  intros Hb. unfold lockWorkerOrRefuse. apply safe_bind, safe_step; [done|]. intros [e|]; [by apply safe_denied|]. by apply unlocking_safe.
Qed.

(** ** What only reads the host *)

Lemma follow_link_quiet realRoot cur : quiet (follow_link realRoot cur).
Proof. apply brings_ask; [done|]. intros [r|[|t]]; cbn; [|done..]. destruct (_ && _); cbn; auto. Qed.

Lemma walk_quiet realRoot noLinks cs : forall cur, quiet (walk realRoot cur noLinks cs).
Proof.
  induction cs as [|c cs IH]; intros cur; [done|]. apply brings_ask; [done|]. intros [[| |]|[|t]]; [apply IH| |done..].
  destruct noLinks; [done|]. eapply brings_bind; [apply follow_link_quiet|]. intros [e|] _; [done|apply IH].
Qed.

Lemma refuseEscapingDir_quiet root rel noLinks : quiet (refuseEscapingDir root rel noLinks).
Proof. unfold refuseEscapingDir. destruct (_ || _); [done|]. apply brings_ask; [done|]. intros [r|e]; [apply walk_quiet|done]. Qed.

Lemma verify_sources_quiet shared : quiet (verify_sources d shared).
Proof.
  induction shared as [|m shared IH]; [done|]. eapply brings_bind; [apply refuseEscapingDir_quiet|]. intros [e|] _; [done|].
  apply brings_ask; [done|]. intros [[| |]|e]; [apply IH|done..].
Qed.

Lemma verifyStrictWorkspace_quiet spec : quiet (verifyStrictWorkspace d spec).
Proof.
  unfold verifyStrictWorkspace. destruct (match d_readOnlyDirs d with [] => _ | _ => _ end); [done|]. destruct (treePath _ _) as [[root rel]|e]; [|done].
  eapply brings_bind; [apply refuseEscapingDir_quiet|]. intros [e|] _; [done|]. apply brings_ask; [done|]. intros [tree|e]; [|done].
  apply brings_ask; [done|]. intros [ws|e]; [|done]. destruct (Rel tree ws); [|done]. destruct (negb _); [done|]. destruct (refuseReadOnlyOverlap _ _); [done|].
  unfold verifySharedSources. destruct (is_empty _); [done|apply verify_sources_quiet].
Qed.

Lemma anchor_quiet fuel : forall root, quiet (anchor fuel root).
Proof. induction fuel as [|fuel IH]; intros root; [done|]. apply brings_ask; [done|]. intros [k|[|t]]; [done| |done]. cbn. destruct (str_eqb _ _); [done|apply IH]. Qed.

Lemma ensureWorkspaceDir_quiet spec : quiet (ensureWorkspaceDir d spec).
Proof.
  unfold ensureWorkspaceDir. destruct (treePath _ _) as [rr|e]; [|done]. eapply (brings_bind _ _ (fun _ => True)).
  { destruct (is_empty _); [|done]. eapply brings_bind; [apply anchor_quiet|]. by intros [r|e] _. }
  intros [[root rel]|e] _; [|done]. cbv zeta. destruct (if _ && _ then _ else _); [done|]. eapply brings_bind; [apply refuseEscapingDir_quiet|]. intros [e|] _; [done|].
  apply brings_ask; [done|]. intros [e|]; [done|]. apply brings_ask; [done|]. intros [e|]; [done|]. destruct (_ || _); [done|apply verifyStrictWorkspace_quiet].
Qed.

Lemma readWorkerInstructions_brings spec : brings (fun r => match r with Ok s => CheckInstructions s = None | Err _ => True end) (readWorkerInstructions spec).
Proof.
  unfold readWorkerInstructions. destruct (is_empty _); [done|]. apply brings_ask; [done|]. intros [s|e]; [|done]. cbn.
  by destruct (CheckInstructions s) eqn:E.
Qed.

Definition task_read (r : result string string) : Prop := match r with Ok s => CheckTask s = None | Err _ => True end.
Lemma readWorkerTask_brings spec : brings task_read (readWorkerTask spec).
Proof.
  unfold readWorkerTask. destruct (is_empty _); [done|]. apply brings_ask; [done|]. intros [s|e]; [|done]. cbn. unfold task_read.
  by destruct (CheckTask _) eqn:E.
Qed.
(** The worker's configured task stands in for a blank one. *)
Lemma task_or_configured spec (b : bool) task : CheckTask task = None -> brings task_read (if b then readWorkerTask spec else Ret (Ok task)).
Proof. intros Ht. destruct b; [apply readWorkerTask_brings|done]. Qed.

Lemma waitWorkerLive_quiet spec : quiet (waitWorkerLive spec).
Proof. by split. Qed.

(** ** Checks *)

(** All that [ready] asks but the pins. *)
Record cleared (g : ghost) (w : string) : Prop := MkCleared { cl_lock : g_lock g = Some w; cl_alive : g_alive g = true; cl_slot : 0 < d_max d -> (0 < g_slots g)%nat }.
Lemma grown_cleared g g' w : grown g g' -> cleared g w -> cleared g' w.
Proof. intros [[F1 F2 F3] ? ? ? ? ? ? ? ?] [? ? ?]. constructor; [congruence|auto|rewrite F3; auto]. Qed.

Lemma refuseStaleShares_quiet spec : quiet (refuseStaleShares d spec).
Proof.
  unfold refuseStaleShares. destruct (d_recordVolumes d); [|destruct (d_leftoverShareVolumes d); [|done]];
    (apply brings_ask; [done|by intros [vols|e]]).
Qed.

Lemma checkSharedAccess_safe spec resume g w : cleared g w ->
  safe (checkSharedAccess d spec resume) g (fun g' r => match r with None => grown g g' /\ ready d g' w | Some _ => frame g g' /\ (g_paced g = true -> g_paced g' = true) end).
Proof.
  intros Hc. unfold checkSharedAccess.
  assert (Hrest : forall g', grown g g' -> (d_sharedGuard d = true -> g_guarded g' = true) ->
    safe (if resume then refuseStaleShares d spec else Ret None) g' (fun g' r => match r with None => grown g g' /\ ready d g' w | Some _ => frame g g' /\ (g_paced g = true -> g_paced g' = true) end)).
  { intros g' Hg Hp. assert (Hr : ready d g' w) by (destruct (grown_cleared _ _ _ Hg Hc); by constructor). destruct resume; [|done].
    eapply brings_safe; [apply refuseStaleShares_quiet|]. intros [e|] _; [split; apply Hg|done]. }
  destruct (d_sharedGuard d); [|by apply Hrest]. apply safe_step; [done|]. intros [[|]|]; unfold observe; cbn [e_asked e_answer]; [by constructor..|].
  apply Hrest; [|done]. by constructor.
Qed.

(** ** Staging a ticket *)

Definition known (spec : WorkerSpec) : Prop := d_workers d !! w_Name spec = Some spec.

Lemma stageWorkerTicket_safe spec g : known spec -> ready d g (w_Name spec) ->
  safe (stageWorkerTicket d spec) g (fun g' err => match err with None => grown g g' /\ g_staged g' = true /\ g_timely g' = g_recent g | Some _ => frame g g' end).
Proof.
  intros Hk Hr. unfold stageWorkerTicket. destruct (negb _); [by constructor|]. destruct (is_empty _); [by constructor|]. pose proof Hr as [Hl ? ? ?].
  unfold bootstrapFor. apply safe_bind, safe_step; [split; [by left|by exists spec]|]. intros [t|e]; [|by constructor]. unfold observe. cbn. rewrite (holds_under _ _ Hl).
  split.
  { exists t, spec. split; [|done]. left. split; [by destruct Hr|done]. }
  intros [e|]; cbn; [by constructor|]. unfold observe. cbn. rewrite (holds_under (set_issued t g) _ Hl). split; [|done]. by constructor.
Qed.

(** ** Sessions and coming live *)

(** Nothing the monitor follows changes. *)
Abbreviation still g := (fun g' _ => g' = g).

Lemma safe_still {A B} (p : P A) (k : A -> P B) g (Q : ghost -> B -> Prop) : safe p g (still g) -> (forall a, safe (k a) g Q) -> safe (bind p k) g Q.
Proof. intros Hp Hk. eapply safe_part; [exact Hp|]. by intros g' a ->. Qed.

Lemma begin_session_safe spec g : g_lock g = Some (w_Name spec) -> g_staged g = true -> safe (begin_session d spec) g (still g).
Proof. intros Hl Hs. unfold begin_session. destruct (d_beginSession d); [|done]. by apply safe_step. Qed.

Lemma commit_session_safe spec actor begun g : g_lock g = Some (w_Name spec) -> g_staged g = true -> safe (commit_session spec actor begun) g (still g).
Proof. intros Hl Hs. unfold commit_session. destruct begun; [|done]. apply safe_step; [done|]. intros [e|]; [by split|done]. Qed.

Lemma come_live_safe spec actor g : safe (come_live spec actor) g (still g).
Proof.
  unfold come_live. apply safe_quiet; [apply waitWorkerLive_quiet|]. intros [e|]; [by apply safe_answered|]. apply safe_step; [done|]. intros []. by apply safe_answered.
Qed.

(** ** Resuming *)

(** A resume by [h] may be asked for. *)
Definition may_resume (g : ghost) (w : string) (h : how) : Prop :=
  ready d g w /\ g_staged g = true /\ g_timely g = true /\ resumable d g /\ match h with Task t => CheckTask t = None | _ => True end.

Lemma ask_resume_safe h w g : may_resume g w h -> safe (ask_resume d h w) g (still g).
Proof. intros (Hr & Hs & Hf & Hm & Ht). unfold ask_resume, ask, Effects.ask. destruct h; (cbn [Effects.safe]; split; [by split_and!|done]). Qed.

Lemma cancelStrandedStart_safe spec actor err h g : known spec -> may_resume g (w_Name spec) h -> safe (cancelStrandedStart d spec actor err h) g (still g).
Proof.
  intros Hk Hm. unfold cancelStrandedStart. apply safe_step; [done|]. intros [[|]|e]; [|done|by apply safe_audit]. apply safe_audit.
  destruct (IsStartClaimHeld err); [|apply safe_still; [by apply ask_resume_safe|done]]. apply safe_step.
  { destruct Hm as ([] & _). split; [done|]. split; [by exists spec|done]. }
  intros [e|]; apply safe_audit; [done|]. apply safe_still; [by apply ask_resume_safe|done].
Qed.

Lemma resume_now_safe spec phase actor h begun g : known spec -> may_resume g (w_Name spec) h -> safe (resume_now d spec phase actor h begun) g (still g).
Proof.
  intros Hk Hm. unfold resume_now. apply safe_still; [by apply ask_resume_safe|]. intros err. apply safe_still.
  { destruct (_ && _); [by apply cancelStrandedStart_safe|done]. }
  intros r. destruct (_ || _); [by apply safe_answered|]. destruct r.2; [by apply safe_audit|]. pose proof Hm as ([] & ? & _).
  apply safe_still; [by apply commit_session_safe|]. intros _. apply come_live_safe.
Qed.

Lemma resumeChecks_safe spec actor g w : cleared g w ->
  safe (resumeChecks d spec actor) g (fun g' r => match r with Ok _ => grown g g' /\ ready d g' w | Err _ => frame g g' end).
Proof.
  intros Hc. unfold resumeChecks. apply safe_quiet; [apply verifyStrictWorkspace_quiet|]. intros [[]|]; try (by apply safe_denied).
  eapply safe_part; [by eapply checkSharedAccess_safe|]. intros g' [e|] Hg; [apply safe_denied, Hg|done].
Qed.

(** The slot and the lock, once the worker was admitted. *)
Lemma slot_cleared w g g' took : under w g -> slot_taken g g' took -> g_alive g' = true -> cleared g' w.
Proof. intros [Hl _] [[[F1 F2 F3] _ _ _ _ _ _ _ _] Ht] Ha. destruct took; cbn in *; (constructor; [congruence|done|]); intros Hm; [rewrite F3; lia|by specialize (Ht Hm)]. Qed.

Lemma slot_frame g g' took : slot_taken g g' took -> frame (if took then set_slots (S (g_slots g)) g else g) g'.
Proof. by intros [[] _]. Qed.
Lemma slot_under w g g' took : under w g -> slot_taken g g' took -> under w g'.
Proof. intros [Hl Ha] [[[F1 F2 F3] _ _ _ _ _ _ _ _] _]. destruct took; cbn in *; split; congruence. Qed.
Lemma slot_reads g g' took : slot_taken g g' took -> forall r, r ∈ g_reads g -> r ∈ g_reads g'.
Proof. intros [[_ _ Hr _ _ _ _ _ _] _]. by destruct took. Qed.
Lemma slot_alive g g' took : slot_taken g g' took -> g_alive g = true -> g_alive g' = true.
Proof. intros [[_ Hr _ _ _ _ _ _ _] _]. by destruct took. Qed.
Lemma slot_resumable g g' took : slot_taken g g' took -> resumable d g -> resumable d g'.
Proof. intros [Hg _] Hm. eapply grown_resumable; [exact Hg|]. by destruct took. Qed.
Lemma slot_startable g g' took : slot_taken g g' took -> startable g -> startable g'.
Proof. intros [Hg _] Hm. eapply grown_startable; [exact Hg|]. by destruct took. Qed.

Lemma resumeRecordAs_safe spec phase actor fresh g : known spec -> under (w_Name spec) g -> g_alive g = true -> (d_verifyRole d = true -> g_roled g = true) ->
  match fresh with Some t => CheckTask t = None | None => True end ->
  safe (resumeRecordAs d spec phase actor fresh) g (fun g' _ => frame g g').
Proof.
  intros Hk Hu Ha Hrole Hfresh. unfold resumeRecordAs. eapply safe_part; [apply recordImageOK_safe, Hu|]. intros g0 [u|r] [Hg0 Himg]; [|apply Hg0].
  assert (Hu0 : under (w_Name spec) g0) by by eapply grown_under. assert (Hm : resumable d g0) by (split; [done|intros Hv; apply Hg0; auto]).
  destruct (comingUp phase).
  { apply safe_quiet; [apply waitWorkerLive_quiet|]. intros [e|]; apply safe_answered, Hg0. }
  eapply safe_part; [by apply admitOrRefuse_safe|]. intros g1 [took|r] H1; [|exact (transitivity (gr_frame _ _ Hg0) (gr_frame _ _ H1))].
  eapply safe_mono; [|intros g' r F; trans g0; [apply Hg0|exact F]]. eapply releasing_safe; [exact Hu0|by apply slot_frame|].
  assert (Ha1 : g_alive g1 = true) by (eapply slot_alive; [done|by apply Hg0]).
  eapply safe_part; [eapply resumeChecks_safe, slot_cleared; done|]. intros g2 [[]|r] Hg2; [|done]. destruct Hg2 as [Hg2 Hr2].
  apply safe_step; [done|]. intros revoked. unfold observe. cbn [e_asked e_answer]. rewrite (holds_under _ _ (re_lock _ _ _ Hr2)). destruct revoked; [apply safe_answered; constructor; apply Hg2|].
  change (negb false) with true. assert (Hr3 : ready d (set_alive true g2) (w_Name spec)) by (destruct Hr2; constructor; done).
  assert (F3 : frame g1 (set_alive true g2)) by (constructor; apply Hg2).
  eapply safe_part; [by apply stageWorkerTicket_safe|]. intros g4 [e|] H4; [apply safe_answered; by etrans|]. destruct H4 as (Hg4 & Hs4 & Ht4).
  assert (Hm4 : resumable d g4) by (eapply grown_resumable, grown_resumable, slot_resumable; [exact Hg4|..]; [|exact H1|exact Hm]; destruct Hg2; by constructor).
  assert (Hr4 : ready d g4 (w_Name spec)) by by eapply grown_ready.
  destruct fresh as [task|].
  2:{ eapply safe_mono; [apply resume_now_safe; [done|split_and!; try done; by unfold resume_how; destruct (_ || _)]|]. intros g' r ->. etrans; [exact F3|apply Hg4]. }
  eapply safe_part; [apply recordOf_safe, Hr4|]. intros g5 [[ph cs]|e] (Hg5 & Ht5 & _); [|apply safe_answered; etrans; [exact F3|]; etrans; [apply Hg4|apply Hg5]].
  assert (F5 : frame g1 g5) by (etrans; [exact F3|]; etrans; [apply Hg4|apply Hg5]). destruct (_ || _); [by apply safe_answered|].
  assert (Hr5 : ready d g5 (w_Name spec)) by by eapply grown_ready. assert (Hs5 : g_staged g5 = true) by by apply Hg5.
  apply safe_still; [apply begin_session_safe; [apply Hr5|done]|]. intros begun.
  eapply safe_mono; [apply resume_now_safe; [done|]|by intros g' r ->]. split_and!; try done; [by rewrite Ht5|by eapply grown_resumable|].
  destruct (is_empty task); [by unfold resume_how; destruct (_ || _)|done].
Qed.

(** ** Starting *)

Lemma start_now_safe spec task instructions actor g : known spec -> ready d g (w_Name spec) -> startable g -> w_Image spec <> "" ->
  CheckTask task = None -> CheckInstructions instructions = None -> safe (start_now d spec task instructions actor) g (fun g' _ => frame g g').
Proof.
  intros Hk Hr Hs Hi Ht Hins. unfold start_now. eapply safe_part; [by apply stageWorkerTicket_safe|]. intros g1 [e|] HS; [by apply safe_answered|]. destruct HS as (Hg & Hs1 & _).
  assert (Hr1 : ready d g1 (w_Name spec)) by by eapply grown_ready. pose proof (re_lock _ _ _ Hr1) as Hl. apply safe_still.
  { destruct (w_APIKey spec); [|done]. by apply safe_ask. }
  intros [e|]; [apply safe_answered, Hg|]. apply safe_still; [by apply begin_session_safe|]. intros begun. apply safe_step.
  { split; [done|]. split; [done|]. split; [by eapply grown_startable|]. by exists spec, task, instructions. }
  intros [e|]; [apply safe_answered, Hg|]. apply safe_still; [by apply commit_session_safe|]. intros _. eapply safe_mono; [apply come_live_safe|]. intros g' r ->. apply Hg.
Qed.

Lemma nonempty_text s : is_empty s = false -> s <> "".
Proof. by intros E ->. Qed.

Lemma startFreshWorker_safe spec task configTask actor g : known spec -> under (w_Name spec) g -> g_alive g = true -> startable g -> CheckTask task = None ->
  safe (startFreshWorker d spec task configTask actor) g (fun g' _ => frame g g').
Proof.
  intros Hk Hu Ha Hs Ht. unfold startFreshWorker. destruct (is_empty (w_Image spec)) eqn:Ei; [by apply safe_answered|].
  eapply safe_part; [by apply admitOrRefuse_safe|]. intros g1 [took|r] H1; [|apply H1]. eapply releasing_safe; [exact Hu|by apply slot_frame|].
  assert (Hc : cleared g1 (w_Name spec)) by (eapply slot_cleared; [exact Hu|exact H1|by eapply slot_alive]). eapply slot_startable in Hs; [|exact H1].
  eapply safe_brings; [apply readWorkerInstructions_brings|]. intros [ins|e] Hins; [|by apply safe_answered].
  eapply safe_brings; [by apply task_or_configured|]. intros [t|e] Htask; [|by apply safe_answered].
  apply safe_quiet; [apply ensureWorkspaceDir_quiet|]. intros [[]|]; try (by apply safe_answered).
  eapply safe_part; [by eapply checkSharedAccess_safe|]. intros g2 [e|] HS; [apply safe_answered, HS|]. destruct HS as [Hg Hr].
  eapply safe_mono; [apply start_now_safe; try done; [by eapply grown_startable|by apply nonempty_text]|]. intros g' r F. etrans; [apply Hg|exact F].
Qed.

Lemma resumeExistingWorker_safe spec phase task actor g : known spec -> under (w_Name spec) g -> g_alive g = true ->
  safe (resumeExistingWorker d spec phase task actor) g (fun g' _ => frame g g').
Proof.
  intros Hk Hu Ha. unfold resumeExistingWorker. destruct (negb _); [by apply safe_answered|].
  eapply safe_part; [apply checkAgentRole_safe, Hu|]. intros g1 [e|] HS; [by apply safe_answered|]. destruct HS as [Hg Hrole].
  eapply safe_mono; [apply resumeRecordAs_safe; [done|by eapply grown_under|by apply Hg|done|done]|]. intros g' r F. etrans; [apply Hg|exact F].
Qed.

(** Not revoked, heard under the lock. *)
Lemma safe_unrevoked w g (p q : P reply) : g_lock g = Some w -> (forall g', frame g g' -> safe p g' (fun g'' _ => frame g g'')) ->
  safe q (set_alive true g) (fun g'' _ => frame g g'') -> safe (let* revoked := ask (IsRevoked w) in if revoked then p else q) g (fun g'' _ => frame g g'').
Proof.
  intros Hl Hp Hq. apply safe_step; [done|]. intros revoked. unfold observe. cbn [e_asked e_answer]. rewrite (holds_under _ _ Hl). destruct revoked; [|exact Hq].
  apply Hp. by constructor.
Qed.

Lemma phase_startable g phase cs : read_as g phase cs -> is_empty phase = true -> startable g.
Proof. intros [Hr _] E. left. apply Hr. by destruct phase. Qed.

(** From another state of the same frame. *)
Lemma safe_frame {A} (p : P A) g g' : frame g g' -> safe p g' (fun g'' _ => frame g' g'') -> safe p g' (fun g'' _ => frame g g'').
Proof. intros F Hp. eapply safe_mono; [exact Hp|]. intros g'' a F'. by etrans. Qed.

(** Checks that answer for themselves. *)
Lemma taskOK_safe actor task (k : P reply) g (Q : ghost -> reply -> Prop) : (CheckTask task = None -> safe k g Q) -> (forall r, Q g r) -> safe (do? taskOK actor task; k) g Q.
Proof. intros Hk HQ. unfold taskOK. destruct (CheckTask task) as [[|]|]; [apply safe_bind; apply safe_denied, HQ..|by apply Hk]. Qed.

Lemma startWorker_safe spec task configTask actor : known spec -> safe (startWorker d spec task configTask actor) idle (fun g' _ => g' = idle).
Proof.
  intros Hk. unfold startWorker. apply taskOK_safe; [|done]. intros Et. apply lock_safe.
  set (g0 := locked (w_Name spec)). apply safe_unrevoked; [done|intros; by apply safe_answered|]. set (g1 := set_alive true g0).
  assert (F1 : frame g0 g1) by by constructor. assert (Hu1 : under (w_Name spec) g1) by done.
  eapply safe_part; [by apply phaseOf_safe|]. intros g2 [phase|e] [Hg Hread]; [|apply safe_answered; etrans; [exact F1|apply Hg]].
  apply (fun F => safe_frame _ g0 g2 F); [etrans; [exact F1|apply Hg]|]. assert (Hu2 : under (w_Name spec) g2) by by eapply grown_under.
  assert (Ha2 : g_alive g2 = true) by by apply Hg.
  destruct (str_eqb _ _); [done|]. destruct (is_empty phase) eqn:Ee; cbn [negb]; [|by apply resumeExistingWorker_safe].
  destruct Hread as [cs Hread]. apply startFreshWorker_safe; try done. by eapply phase_startable.
Qed.

(** What a resume and a wake have in common, under the lock. *)
Lemma wake_locked_safe spec actor (k : string -> P reply) :
  known spec -> (forall phase g, under (w_Name spec) g -> g_alive g = true -> (d_verifyRole d = true -> g_roled g = true) -> safe (k phase) g (fun g' _ => frame g g')) ->
  safe (let* revoked := ask (IsRevoked (w_Name spec)) in
        if revoked then answered actor "deny" (refuse ReasonRevoked StatusForbidden)
        else
          let* err := checkAgentRole d (w_Name spec) in
          match err with
          | Some _ => answered actor "deny" (refuse ReasonRoleMismatch StatusConflict)
          | None =>
            let* phase := phaseOf d spec in
            match phase with
            | Err _ => answered actor "error" (refuse ReasonRuntimeError StatusBadGateway)
            | Ok phase => k phase
            end
          end) (locked (w_Name spec)) (fun g' _ => frame (locked (w_Name spec)) g').
Proof.
  intros Hk Hkk. set (g0 := locked (w_Name spec)). apply safe_unrevoked; [done|intros; by apply safe_answered|].
  set (g1 := set_alive true g0). apply (safe_frame _ g0 g1); [by constructor|]. assert (Hu1 : under (w_Name spec) g1) by done.
  eapply safe_part; [by apply checkAgentRole_safe|]. intros g2 [e|] H2; [by apply safe_answered|]. destruct H2 as [Hg2 Hrole].
  apply (safe_frame _ g1 g2); [apply Hg2|]. eapply safe_part; [apply phaseOf_safe; by apply (grown_under g1 g2)|].
  intros g3 [phase|e] [Hg3 _]; [|apply safe_answered, Hg3]. apply (safe_frame _ g2 g3); [apply Hg3|].
  apply Hkk; [eapply grown_under; [exact Hg3|by eapply grown_under]|by apply Hg3, Hg2|]. intros Hv. by apply Hg3, Hrole.
Qed.

Lemma resumeWorker_safe spec actor : known spec -> safe (resumeWorker d spec actor) idle (fun g' _ => g' = idle).
Proof.
  intros Hk. unfold resumeWorker. apply lock_safe, wake_locked_safe; [done|]. intros phase g Hu Ha Hrole.
  destruct (is_empty phase); [by apply safe_answered|]. destruct (str_eqb _ _); [by apply safe_answered|]. by apply resumeRecordAs_safe.
Qed.

(** ** Recycling *)

Lemma frame_set_paced b g : frame g (set_paced b g).
Proof. by constructor. Qed.

Definition container_seen_down (g : ghost) : Prop :=
  (exists a, Some a ∈ g_reads g /\ recyclablePhase (PhaseLabel (a_Phase a)) = true /\ ContainerLive (a_ContainerStatus a) = false) /\ (d_containerRunning d = true -> g_down g = true).
Lemma grown_seen_down g g' : grown g g' -> container_seen_down g -> container_seen_down g'.
Proof. intros [? ? Hr ? ? ? ? ? ?] [(a & Hin & Hf) ?]. split; [exists a; auto|auto]. Qed.

(** What the record said: none, or one whose container is down. *)
Definition gone_or_down (g : ghost) (phase : string) : Prop := if is_empty phase then startable g else container_seen_down g.
Lemma grown_gone_or_down g g' phase : grown g g' -> gone_or_down g phase -> gone_or_down g' phase.
Proof. unfold gone_or_down. destruct (is_empty phase); [apply grown_startable|apply grown_seen_down]. Qed.

Lemma container_down_safe spec phase cs actor g : g_lock g = Some (w_Name spec) -> read_as g phase cs -> is_empty phase || recyclablePhase phase = true ->
  safe (container_down d spec phase cs actor) g (fun g' r => grown g g' /\ match r with Ok _ => gone_or_down g' phase | Err _ => True end).
Proof.
  intros Hl Hread Hp. unfold container_down, gone_or_down. cbv zeta. destruct (is_empty phase) eqn:Ee; [split; [done|by eapply phase_startable]|]. cbn in Hp.
  destruct Hread as [_ Hread]. destruct (Hread (nonempty_text _ Ee)) as (a & Hin & Hpl & Hcs).
  { intros ->. vm_compute in Hp. discriminate Hp. }
  rewrite <- Hcs. destruct (ContainerLive (a_ContainerStatus a)) eqn:Elive; [by apply safe_denied|].
  assert (Ha : exists a, Some a ∈ g_reads g /\ recyclablePhase (PhaseLabel (a_Phase a)) = true /\ ContainerLive (a_ContainerStatus a) = false) by (exists a; by rewrite Hpl).
  destruct (d_containerRunning d) eqn:Ecr; [|split; [done|split; [done|congruence]]]. apply safe_step; [done|].
  intros [[|]|e]; unfold observe; cbn [e_asked e_answer]; [by apply safe_denied| |by apply safe_denied].
  rewrite (holds_under _ _ Hl). split; [by constructor|]. by split.
Qed.

Lemma recycle_now_safe spec phase task actor g : known spec -> under (w_Name spec) g -> ready d g (w_Name spec) -> gone_or_down g phase -> g_paced g = true ->
  w_Name spec <> d_manager d -> w_Name spec <> d_managerSlug d -> CheckTask task = None -> safe (recycle_now d spec phase task actor) g (fun g' _ => frame g g').
Proof.
  intros Hk Hu Hr Hd Hp Hm Hms Ht. unfold recycle_now, gone_or_down in *. pose proof (re_alive _ _ _ Hr) as Ha.
  destruct (is_empty phase); [apply safe_audit; by apply startFreshWorker_safe|].
  apply safe_step; [split; [done|]; split; [by destruct Hd|done]|]. intros [terr|e]; unfold observe; cbn [e_asked e_answer].
  - rewrite (holds_under g _ (proj1 Hu)). apply (safe_frame _ g (set_purged g)); [by constructor|]. apply safe_still; [destruct terr; [by split|done]|]. intros _.
    apply safe_audit, startFreshWorker_safe; try done. by right.
  - apply safe_step; [split; [apply Hu|done]|]. intros []. by apply safe_answered.
Qed.

Lemma recycle_locked_safe spec task configTask actor : known spec -> w_Name spec <> d_manager d -> w_Name spec <> d_managerSlug d -> CheckTask task = None ->
  safe (recycle_locked d spec task configTask actor) (locked (w_Name spec)) (fun g' _ => frame (locked (w_Name spec)) g').
Proof.
  intros Hk Hm Hms Ht. unfold recycle_locked. set (g0 := locked (w_Name spec)). apply safe_unrevoked; [done|intros; by apply safe_answered|].
  set (g1 := set_alive true g0). apply (safe_frame _ g0 g1); [by constructor|]. eapply safe_part; [by apply recordOf_safe|].
  intros g2 [[phase cs]|e] (Hg2 & _ & Hread); [|apply safe_answered, Hg2]. destruct (negb (is_empty phase) && negb (recyclablePhase phase)) eqn:Ep; [apply safe_answered, Hg2|].
  assert (Hu2 : under (w_Name spec) g2) by by eapply grown_under. eapply safe_part; [apply container_down_safe; [apply Hu2|done|]|].
  { destruct (is_empty phase); [done|]. by destruct (recyclablePhase phase). }
  intros g3 [u|r] [Hg3 Hd]; [|exact (transitivity (gr_frame _ _ Hg2) (gr_frame _ _ Hg3))]. assert (Hg : grown g1 g3) by by etrans. apply (safe_frame _ g1 g3); [apply Hg|].
  assert (Hu3 : under (w_Name spec) g3) by by eapply grown_under. assert (Ha3 : g_alive g3 = true) by by apply Hg.
  eapply safe_brings; [apply readWorkerInstructions_brings|]. intros [ins|e] Hins; [|by apply safe_answered].
  eapply safe_brings; [by apply task_or_configured|]. intros [t|e] Htask; [|by apply safe_answered].
  eapply safe_part; [by apply admitOrRefuse_safe|]. intros g4 [took|r] H4; [|apply H4]. eapply releasing_safe; [exact Hu3|by apply slot_frame|].
  assert (Hd4 : gone_or_down g4 phase) by (eapply grown_gone_or_down; [apply H4|]; by destruct took).
  assert (Hc4 : cleared g4 (w_Name spec)) by (eapply slot_cleared; [exact Hu3|exact H4|by eapply slot_alive]). pose proof (slot_under _ _ _ _ Hu3 H4) as Hu4.
  apply safe_step; [done|]. intros wait. unfold observe. cbn [e_asked e_answer]. rewrite (holds_under _ _ (proj1 Hu4)).
  destruct wait as [w|]; [apply safe_answered, frame_set_paced|]. apply (safe_frame _ g4 (set_paced true g4)); [apply frame_set_paced|].
  eapply safe_part; [apply (checkSharedAccess_safe _ _ _ (w_Name spec)); by destruct Hc4|]. intros g5 [e|] H5.
  - destruct H5 as [F5 P5]. apply safe_step; [split; [by rewrite (fr_lock _ _ F5); apply Hu4|by apply P5]|]. intros []. by apply safe_answered.
  - destruct H5 as [Hg5 Hr5]. apply (safe_frame _ _ g5); [apply Hg5|]. apply recycle_now_safe; try done; [by eapply grown_under|by eapply grown_gone_or_down|by apply Hg5].
Qed.

Lemma recycleWorker_safe spec task configTask actor : known spec -> safe (recycleWorker d spec task configTask actor) idle (fun g' _ => g' = idle).
Proof.
  intros Hk. unfold recycleWorker. destruct (str_eqb (w_Name spec) (d_manager d) || str_eqb (w_Name spec) (d_managerSlug d)) eqn:Em; [by apply safe_answered|].
  apply orb_false_iff in Em as [Em Ems]. apply str_eqb_neq in Em, Ems. destruct (_ && _); [by apply safe_answered|].
  apply taskOK_safe; [|done]. intros Ht. destruct (negb (d_purger d)); [by apply safe_answered|]. apply safe_step; [done|]. intros [|]; unfold observe; cbn [e_asked e_answer negb].
  - apply unlocking_safe; [done|done|]. by apply recycle_locked_safe.
  - by apply safe_answered.
Qed.

(** ** New sessions *)

Lemma stopped_within_safe n spec : forall g, g_lock g = Some (w_Name spec) -> safe (stopped_within d n spec) g (fun g' _ => grown g g').
Proof.
  induction n as [|n IH]; intros g Hl; [done|]. cbn [stopped_within]. eapply safe_part; [by apply recordOf_safe|]. intros g1 rec (Hg1 & _).
  assert (Hl1 : g_lock g1 = Some (w_Name spec)) by (destruct Hg1 as [[] ? ? ? ? ? ? ? ?]; congruence).
  apply (safe_part _ _ _ _ (fun g' _ => grown g1 g')).
  { destruct rec as [[phase cs]|e]; [|done]. destruct (_ && _); [|done]. destruct (d_containerRunning d); [|done]. apply safe_step; [done|].
    intros [[|]|e]; unfold observe; cbn [e_asked e_answer]; [done| |done]. rewrite (holds_under _ _ Hl1). by constructor. }
  intros g2 [|] Hg2; [exact (transitivity Hg1 Hg2)|]. apply safe_step; [done|]. intros [e|]; [exact (transitivity Hg1 Hg2)|].
  eapply safe_mono; [apply IH; destruct Hg2 as [[] ? ? ? ? ? ? ? ?]; unfold observe; cbn; congruence|]. intros g3 r Hg3. exact (transitivity Hg1 (transitivity Hg2 Hg3)).
Qed.

Lemma stop_then_resume_safe spec phase task g : known spec -> under (w_Name spec) g -> (d_verifyRole d = true -> g_roled g = true) -> CheckTask task = None ->
  safe (stop_then_resume d spec phase task) g (fun g' _ => frame g g').
Proof.
  intros Hk Hu Hrole Ht. unfold stop_then_resume. apply safe_step; [split; [apply Hu|]; split; [by exists spec|done]|]. intros [e|]; [by apply safe_answered|].
  eapply safe_part; [apply stopped_within_safe, Hu|]. intros g1 [e|] Hg1; [apply safe_answered, Hg1|]. apply (safe_frame _ g g1); [apply Hg1|].
  assert (Hu1 : under (w_Name spec) g1) by by eapply grown_under. apply safe_unrevoked; [apply Hu1|intros; by apply safe_answered|]. apply safe_audit.
  apply (safe_frame _ g1 (set_alive true g1)); [by constructor|]. apply resumeRecordAs_safe; try done. intros Hv. apply Hg1, Hrole, Hv.
Qed.

Lemma new_session_locked_safe spec task : known spec -> CheckTask task = None ->
  safe (new_session_locked d spec task) (locked (w_Name spec)) (fun g' _ => frame (locked (w_Name spec)) g').
Proof.
  intros Hk Ht. unfold new_session_locked. set (g0 := locked (w_Name spec)). apply safe_unrevoked; [done|intros; by apply safe_answered|].
  set (g1 := set_alive true g0). apply (safe_frame _ g0 g1); [by constructor|]. eapply safe_part; [by apply phaseOf_safe|].
  intros g2 [phase|e] [Hg2 _]; [|apply safe_answered, Hg2]. apply (safe_frame _ g1 g2); [apply Hg2|]. assert (Hu2 : under (w_Name spec) g2) by by apply (grown_under g1).
  assert (Ha2 : g_alive g2 = true) by by apply Hg2. destruct (is_empty phase); [by apply safe_answered|].
  eapply safe_brings; [by apply task_or_configured|]. intros [t|e] Htask; [|by apply safe_answered].
  eapply safe_part; [apply checkAgentRole_safe, Hu2|]. intros g3 [e|] H3; [by apply safe_answered|]. destruct H3 as [Hg3 Hrole]. apply (safe_frame _ g2 g3); [apply Hg3|].
  assert (Hu3 : under (w_Name spec) g3) by by eapply grown_under. eapply safe_part; [apply recordImageOK_safe, Hu3|]. intros g4 [u|r] [Hg4 _]; [|apply Hg4].
  apply (safe_frame _ g3 g4); [apply Hg4|]. assert (Hu4 : under (w_Name spec) g4) by by eapply grown_under.
  eapply safe_part; [by apply admitOrRefuse_safe|]. intros g5 [took|r] H5; [|apply H5]. eapply releasing_safe; [exact Hu4|by apply slot_frame|].
  assert (Hu5 : under (w_Name spec) g5) by by eapply slot_under. assert (Ha4 : g_alive g4 = true) by by apply Hg4, Hg3.
  eapply safe_part; [apply (resumeChecks_safe _ _ _ (w_Name spec)); eapply slot_cleared; [exact Hu4|exact H5|by eapply slot_alive]|].
  intros g6 [u6|r] H6; [|done]. destruct H6 as [Hg6 _]. apply (safe_frame _ g5 g6); [apply Hg6|]. apply stop_then_resume_safe; try done; [by eapply grown_under|].
  intros Hv. apply Hg6. assert (Hr4 : g_roled g4 = true) by (apply Hg4; auto). destruct H5 as [[_ _ _ _ _ Hr _ _ _] _]. apply Hr. by destruct took.
Qed.

(** ** Halts and wakes *)

Lemma ask_halt_safe v spec g : known spec -> g_lock g = Some (w_Name spec) -> safe (ask_halt d v (w_Name spec)) g (still g).
Proof. intros Hk Hl. unfold ask_halt, ask, Effects.ask. destruct v; (cbn [Effects.safe]; split; [split_and!; [done|by exists spec|done]|done]). Qed.

Lemma halted_safe v spec g (k : option string -> result string string -> P reply) (e : string -> P reply) :
  known spec -> under (w_Name spec) g -> (forall g' x p, frame g g' -> safe (k x p) g' (fun g'' _ => frame g g'')) -> (forall x, safe (e x) g (fun g'' _ => frame g g'')) ->
  safe (let* err := ask_halt d v (w_Name spec) in match err with Some x => e x | None => let* phase := phaseOf d spec in k err phase end) g (fun g' _ => frame g g').
Proof.
  intros Hk Hu Hkk He. apply safe_still; [apply ask_halt_safe; [done|apply Hu]|]. intros [x|]; [apply He|]. eapply safe_part; [apply phaseOf_safe, Hu|].
  intros g1 p [Hg1 _]. apply Hkk, Hg1.
Qed.

(** ** The routes *)

Abbreviation idles := (fun g' _ => g' = idle).

Hypothesis declared : forall name spec, d_workers d !! name = Some spec -> w_Name spec = name.

Lemma declared_known name spec : workerSpec d name = Some spec -> known spec.
Proof. unfold workerSpec, known. intros E. by rewrite (declared _ _ E). Qed.

Lemma runtimeReady_safe (k : P reply) g (Q : ghost -> reply -> Prop) : safe k g Q -> (forall r, Q g r) -> safe (do? runtimeReady d; k) g Q.
Proof. intros Hk HQ. unfold runtimeReady. destruct (d_runtime d); [done|]. apply safe_bind, safe_denied, HQ. Qed.

Lemma requireManagerWorker_safe {R} (body : option R) worker (k : R * WorkerSpec -> P reply) :
  (forall rs, known rs.2 -> safe (k rs) idle idles) -> safe (let? rs := requireManagerWorker d body worker in k rs) idle idles.
Proof.
  intros Hk. unfold requireManagerWorker. apply safe_bind, safe_step; [done|]. intros [caller|]; [|done]. destruct body as [req|]; [|by apply safe_denied].
  destruct (workerSpec d (worker req)) as [spec|] eqn:E; [|by apply safe_denied]. unfold runtimeReady. destruct (d_runtime d); cbn [bind Effects.safe].
  - apply Hk. by eapply declared_known.
  - apply safe_bind. by apply safe_denied.
Qed.

Lemma operatorWorker_safe {R} (body : option R) worker (k : R * WorkerSpec -> P reply) :
  (forall rs, known rs.2 -> safe (k rs) idle idles) -> safe (let? rs := operatorWorker d body worker in k rs) idle idles.
Proof.
  intros Hk. unfold operatorWorker. apply safe_bind. destruct body as [req|]; [|by apply safe_denied].
  destruct (workerSpec d (worker req)) as [spec|] eqn:E; [|by apply safe_denied]. apply Hk. by eapply declared_known.
Qed.

Lemma unrevoked_ready_safe spec actor (k : P reply) : safe k idle idles -> safe (do? unrevoked_ready d spec actor; k) idle idles.
Proof.
  intros Hk. unfold unrevoked_ready. apply safe_bind, safe_step; [done|]. intros [|]; change (observe idle _) with idle.
  - by apply safe_denied.
  - unfold runtimeReady. destruct (d_runtime d); [exact Hk|by apply safe_denied].
Qed.

Lemma workerVerb_safe body v : safe (workerVerb d body v) idle idles.
Proof.
  apply requireManagerWorker_safe. intros [name spec] Hk. apply lock_safe.
  eapply (halted_safe v _ _ (fun _ phase => answered (d_manager d) "allow" (Answer (w_Name spec) (match phase with Ok p => p | Err _ => "unknown" end)))); [done|done|..].
  - intros g' x p F. by apply safe_answered.
  - intros x. by apply safe_answered.
Qed.

Lemma operatorWorkerHalt_safe body v : safe (operatorWorkerHalt d body v) idle idles.
Proof.
  apply operatorWorker_safe. intros [name spec] Hk. apply runtimeReady_safe; [|done]. apply lock_safe. cbn [snd] in *. set (g0 := locked (w_Name spec)).
  eapply (safe_part (ask List)).
  { apply (safe_list g0 (w_Name spec) (fun g' _ => frame g0 g')); [done..|]. intros agents. by constructor. }
  intros g1 [agents|e] F; [|by apply safe_answered]. destruct (FindAgent agents (w_Name spec)); [|by apply safe_answered]. apply (safe_frame _ g0 g1 F).
  eapply (halted_safe v _ _ (fun _ phase => answered operatorActor "allow" (Answer (w_Name spec) (match phase with Ok p => if is_empty p then "unknown" else p | Err _ => "unknown" end)))); [done|by eapply frame_under|..].
  - intros g' x p F'. by apply safe_answered.
  - intros x. by apply safe_answered.
Qed.

Lemma handleOperatorWorkerNewSession_safe body : safe (handleOperatorWorkerNewSession d body) idle idles.
Proof.
  apply operatorWorker_safe. intros [req spec] Hk. apply unrevoked_ready_safe, taskOK_safe; [|done]. intros Ht. apply lock_safe. by apply new_session_locked_safe.
Qed.

Lemma wakeFor_safe who actor : safe (wakeFor d who actor) idle idles.
Proof.
  unfold wakeFor. destruct (workerSpec d (rf_Worker who)) as [spec|] eqn:E; [|by apply safe_answered]. apply declared_known in E.
  apply unrevoked_ready_safe, lock_safe, wake_locked_safe; [done|]. intros phase g Hu Ha Hrole.
  destruct (str_eqb _ _); [by apply safe_answered|]. destruct (_ && _); [by apply safe_answered|]. destruct (_ && _); [by apply safe_answered|]. by apply resumeRecordAs_safe.
Qed.

Lemma handleWorkerList_safe : safe (handleWorkerList d) idle idles.
Proof.
  unfold handleWorkerList. apply safe_step; [done|]. intros [c|]; [|done]. apply runtimeReady_safe; [|done]. apply safe_step; [done|].
  intros [agents|e]; [done|by apply safe_answered].
Qed.

Lemma list_entries_quiet agents names : quiet (list_entries d agents names).
Proof.
  induction names as [|name names IH]; [done|]. cbn [list_entries]. cbv zeta. apply (brings_bind _ _ (fun _ => True)); [|intros e _; by apply (brings_bind _ _ (fun _ => True))].
  unfold workerListEntry. destruct (negb _); [done|]. apply (brings_bind _ _ (fun _ => True)); [|done].
  destruct (RunningContainerDown _ _); [done|]. destruct (_ && _); [|done]. unfold strandedCreated. by destruct (d_containerStranded d).
Qed.

Lemma handleOperatorWorkerList_safe : safe (handleOperatorWorkerList d) idle idles.
Proof.
  unfold handleOperatorWorkerList. apply runtimeReady_safe; [|done]. apply safe_step; [done|]. intros [agents|e]; [|by apply safe_answered].
  apply safe_quiet; [apply list_entries_quiet|done].
Qed.

End Safe.

(** Every route that acts on workers, with its request body when it decoded: the
    manager's, the operator's, and the admin listener's ticket route. *)
Inductive request :=
| ManagerStart (body : option WorkerStartRequest) | ManagerRecycle (body : option WorkerStartRequest) | ManagerResume (body : option string)
| ManagerStop (body : option string) | ManagerSuspend (body : option string) | ManagerList
| OperatorStart (body : option WorkerStartRequest) | OperatorRecycle (body : option WorkerStartRequest) | OperatorNewSession (body : option WorkerStartRequest)
| OperatorList | OperatorResume (body : option WorkerResumeRequest) | OperatorStop (body : option string) | OperatorSuspend (body : option string)
| AdminTicket (body : option string).
Definition is_admin (q : request) : bool := match q with AdminTicket _ => true | _ => false end.

Definition serve `{Unicode, UnicodeTables} (d : Dispatch) (q : request) : P reply :=
  match q with
  | ManagerStart body => handleWorkerStart d body
  | ManagerRecycle body => handleWorkerRecycle d body
  | ManagerResume body => handleWorkerResume d body
  | ManagerStop body => handleWorkerStop d body
  | ManagerSuspend body => handleWorkerSuspend d body
  | ManagerList => handleWorkerList d
  | OperatorStart body => handleOperatorWorkerStart d body
  | OperatorRecycle body => handleOperatorWorkerRecycle d body
  | OperatorNewSession body => handleOperatorWorkerNewSession d body
  | OperatorList => handleOperatorWorkerList d
  | OperatorResume body => handleOperatorWorkerResume d body
  | OperatorStop body => operatorWorkerHalt d body Stopping
  | OperatorSuspend body => operatorWorkerHalt d body Suspending
  | AdminTicket body => handleWorkerTicket d body
  end.

(** The worker map [New] builds: the last spec of a name. *)
Definition workers_of (specs : list WorkerSpec) : gmap string WorkerSpec := foldl (fun m g => <[w_Name g := g]> m) ∅ specs.

Lemma workers_of_declared specs name spec : workers_of specs !! name = Some spec -> w_Name spec = name.
Proof.
  unfold workers_of. assert (Hgen : forall m : gmap string WorkerSpec, (forall n s, m !! n = Some s -> w_Name s = n) -> foldl (fun m g => <[w_Name g := g]> m) m specs !! name = Some spec -> w_Name spec = name).
  { induction specs as [|g specs IH]; intros m Hm; [apply Hm|]. apply IH. intros n s E. apply lookup_insert_Some in E as [[E <-]|[_ E]]; auto. }
  apply Hgen. done.
Qed.

Section Guarded.
Context `{Unicode, UnicodeTables} (d : Dispatch) (specs : list WorkerSpec).
Hypothesis configured : d_workers d = workers_of specs.

Lemma handleWorkerTicket_safe body : (forall name spec, d_workers d !! name = Some spec -> w_Name spec = name) ->
  Effects.safe observe (allowed d true) (handleWorkerTicket d body) idle (fun g' _ => g' = idle).
Proof.
  intros Hd. unfold handleWorkerTicket. destruct body as [name|]; [|by apply safe_step]. destruct (is_empty name); [by apply safe_step|].
  destruct (workerSpec d name) as [spec|] eqn:Es; [|by apply safe_step]. pose proof (Hd _ _ Es) as En.
  assert (Hend : forall err : option string, Effects.safe observe (allowed d true)
    match err with
    | Some _ => bind (ask (Audit "worker-ticket" (w_Name spec) "error")) (fun _ => Ret (HttpErr StatusInternalServerError))
    | None => bind (ask (Audit "worker-ticket" (w_Name spec) "allow")) (fun _ => Ret (TicketPath (w_Name spec) (w_TicketDir spec +:+ "/bootstrap.json")))
    end idle (fun g' _ => g' = idle)) by (intros [e|]; by apply safe_step).
  unfold stageWorkerTicket. destruct (negb _); [exact (Hend (Some ""))|]. destruct (is_empty _); [exact (Hend (Some ""))|].
  unfold bootstrapFor. apply safe_bind, safe_bind, safe_step; [split; [by right|rewrite En; by exists spec]|]. intros [t|e]; [|exact (Hend (Some ""))].
  apply safe_step; [exists t, spec; split; [by right|by rewrite En]|]. intros [e|]; [exact (Hend (Some e))|exact (Hend None)].
Qed.

Lemma serve_safe q adm : (is_admin q = true -> adm = true) -> Effects.safe observe (allowed d adm) (serve d q) idle (fun g' _ => g' = idle).
Proof.
  assert (Hd : forall name spec, d_workers d !! name = Some spec -> w_Name spec = name) by (rewrite configured; apply workers_of_declared).
  intros Had. destruct q; cbn [serve].
  1-3: apply requireManagerWorker_safe; [done|]; intros [? spec] Hk; by (apply startWorker_safe || apply recycleWorker_safe || apply resumeWorker_safe).
  1-2: by apply workerVerb_safe.
  - apply handleWorkerList_safe.
  - apply operatorWorker_safe; [done|]. intros [? spec] Hk. by apply unrevoked_ready_safe, startWorker_safe.
  - apply operatorWorker_safe; [done|]. intros [? spec] Hk. by apply unrevoked_ready_safe, recycleWorker_safe.
  - by apply handleOperatorWorkerNewSession_safe.
  - apply handleOperatorWorkerList_safe.
  - unfold handleOperatorWorkerResume. destruct body as [[w [who|]]|]; [| |by apply safe_answered]; cbn [rr_For rr_Worker].
    + destruct (negb _); [by apply safe_answered|by apply wakeFor_safe].
    + destruct (workerSpec d w) as [spec|] eqn:E; [|by apply safe_answered]. apply unrevoked_ready_safe, resumeWorker_safe. by eapply declared_known.
  - by apply operatorWorkerHalt_safe.
  - by apply operatorWorkerHalt_safe.
  - rewrite (Had eq_refl). by apply handleWorkerTicket_safe.
Qed.

Lemma guarded q tr r : runs (serve d q) tr r ->
  foldl observe idle tr = idle /\ forall pre e post, tr = pre ++ e :: post -> allowed d (is_admin q) (foldl observe idle pre) (e_asked e).
Proof. intros Hr. exact (safe_runs observe (allowed d (is_admin q)) _ _ _ Hr _ _ (serve_safe q _ (fun E => E))). Qed.

(** The ticket route asks for a ticket for the configured worker of its body only. *)
Lemma admin_ticket body tr r : runs (serve d (AdminTicket body)) tr r -> forall pre e post w, tr = pre ++ e :: post -> e_asked e = IssueTicket w -> body = Some w.
Proof.
  assert (Hd : forall name spec, d_workers d !! name = Some spec -> w_Name spec = name) by (rewrite configured; apply workers_of_declared).
  intros Hr pre e post w Htr Ee.
  refine (proj2 (safe_runs (fun (u : unit) (_ : event answer) => u) (fun _ q => forall w, q = IssueTicket w -> body = Some w) _ _ _ Hr tt (fun _ _ => True) _) pre e post Htr w Ee).
  clear -Hd. cbn [serve]. unfold handleWorkerTicket. destruct body as [name|]; [|done]. destruct (is_empty name); [done|].
  destruct (workerSpec d name) as [spec|] eqn:Es; [|done]. apply Hd in Es. unfold stageWorkerTicket. destruct (negb _); [done|]. destruct (is_empty _); [done|].
  unfold bootstrapFor. cbn. split; [intros w [= <-]; by rewrite Es|]. intros [t|e]; cbn; [|done]. split; [done|]. by intros [e|].
Qed.

(** C8: Whatever the hub, the host and other requests answer: a worker's container
    is started or resumed, and a ticket issued for it, only under its lifecycle
    lock, once the broker said it is not revoked, with a running-worker slot
    taken where they are counted and the manager's pins found in place where they
    are checked. Before a start the record was read as absent or deleted; before
    a resume it was read with an image the hub does not rewrite, its stored role
    passed where roles are verified, and its ticket was issued on a revocation answer later than the
    admission and the pins. The one exception is the ticket route of the admin
    listener: it issues and stages a ticket for the configured worker its request
    names, and starts nothing. *)
Theorem bring_ups_are_guarded q tr r pre e post : runs (serve d q) tr r -> tr = pre ++ e :: post ->
  let g := foldl observe idle pre in
  match e_asked e with
  | IssueTicket w => ready d g w \/ q = AdminTicket (Some w) /\ is_Some (d_workers d !! w)
  | Start o => ready d g (o_Worker o) /\ g_staged g = true /\ startable g
  | Resume w _ | ResumeForce w _ | ResumeTask w _ _ => ready d g w /\ g_staged g = true /\ g_timely g = true /\ resumable d g
  | _ => True
  end.
Proof.
  intros Hr Htr g. pose proof (proj2 (guarded _ _ _ Hr) _ _ _ Htr) as Ha. fold g in Ha. clearbody g.
  destruct (e_asked e) eqn:Ee; try done; cbn in Ha; try naive_solver.
  destruct Ha as [[Ha|[Hq _]] Hw]; [by left|right]. destruct q; try done. by rewrite (admin_ticket _ _ _ Hr _ _ _ _ Htr Ee).
Qed.

(** C10: A worker's record is deleted only by a recycle of a worker that is not the
    manager, that passed its rate limit, and that was read under the lock as
    asleep, stopped or failed with its container down, by the hub and by podman
    where it is asked. *)
Theorem deletions_are_guarded q tr r pre e post w : runs (serve d q) tr r -> tr = pre ++ e :: post -> e_asked e = PurgeWorker w ->
  let g := foldl observe idle pre in ready d g w /\ deletable d g /\ w <> d_manager d /\ w <> d_managerSlug d.
Proof. intros Hr Htr He g. pose proof (proj2 (guarded _ _ _ Hr) _ _ _ Htr) as Ha. by rewrite He in Ha. Qed.

(** C12: Every run gives back what it took: the worker's lifecycle lock, the admission
    lock and its running-worker slots. It never takes a second lifecycle lock,
    and it halts a worker only under that worker's. *)
Theorem locks_are_given_back q tr r : runs (serve d q) tr r ->
  foldl observe idle tr = idle
  /\ forall pre e post, tr = pre ++ e :: post ->
     let g := foldl observe idle pre in
     match e_asked e with
     | LockWorker _ | TryLockWorker _ => g_lock g = None /\ g_admit g = false
     | UnlockWorker w => g_lock g = Some w /\ g_admit g = false /\ g_slots g = 0%nat
     | AdmitLock => g_admit g = false
     | IncAdmitting w | DecAdmitting w => g_lock g = Some w /\ g_admit g = true
     | Stop w _ | Suspend w _ => g_lock g = Some w
     | _ => True
     end.
Proof.
  intros Hr. destruct (guarded _ _ _ Hr) as [Hidle Hall]. split; [done|]. intros pre e post Htr g. pose proof (Hall _ _ _ Htr) as Ha. fold g in Ha. clearbody g.
  destruct (e_asked e); try done; cbn in Ha; naive_solver.
Qed.

(** A container is started with its worker's configuration, a task and
    instructions that pass their checks, its ticket directory mounted read-only
    with its shared folders; the bootstrap staged for it names it and carries the
    ticket just issued for it under its lock, the admin listener's route apart,
    which holds none. *)
Theorem starts_are_as_configured q tr r pre e post : runs (serve d q) tr r -> tr = pre ++ e :: post ->
  let g := foldl observe idle pre in
  match e_asked e with
  | Start o => exists spec task instructions, d_workers d !! o_Worker o = Some spec /\ o = start_opts d spec task instructions
      /\ CheckTask task = None /\ CheckInstructions instructions = None /\ o_Image o <> ""
  | StageTicket w bs => exists t spec, (g_issued g = Some t \/ is_admin q = true) /\ d_workers d !! w = Some spec
      /\ bs = MkBootstrap t (d_brokerCAPEM d) (d_brokerURL d) w (w_Claude spec)
  | _ => True
  end.
Proof.
  intros Hr Htr g. pose proof (proj2 (guarded _ _ _ Hr) _ _ _ Htr) as Ha. fold g in Ha. clearbody g.
  destruct (e_asked e); try done; cbn in Ha; naive_solver.
Qed.

End Guarded.

End DispatchSafe.
