(* ===== verification/DispatchReply.v ===== *)
(** What a worker route says: the phase, activity and container status of a
    record are text its agent can set, and these fields of a reply hold none of it
    but the words lever knows. *)

From S2P Require Import Prelude Go TreePath GoPath Render Scion Effects Worker Workspace Dispatch DispatchSafe.

Module DispatchReply.
Import TreePath GoPath Render Scion Effects Worker Workspace Dispatch DispatchSafe.
Open Scope prog_scope.

(** The phases, activities and container states a reply may carry. *)
Definition reply_phases : list string := knownPhases ++ [LabelUnrecognised; phaseRunningContainerDown; PhaseRunningContainerDownToken; PhaseNone; "unknown"].
Definition known_phase (p : string) : Prop := one_of reply_phases p = true.
Definition known_activity (a : string) : Prop := one_of (LabelUnrecognised :: knownActivities) a = true.
Definition known_container (s : string) : Prop := containerStatusRE s || one_of [""; "up"; LabelUnrecognised] s = true.

Definition labels_only (r : reply) : Prop :=
  match r with
  | Answer _ phase => known_phase phase
  | Agents agents => Forall (fun a => known_phase (a_Phase a) /\ known_activity (a_Activity a) /\ known_container (a_ContainerStatus a)) agents
  | Workers entries => Forall (fun e => known_phase (le_Phase e) /\ known_activity (le_Activity e) /\ known_container (le_Container e)) entries
  | Refused _ phase _ _ => known_phase phase
  | TicketPath _ _ | HttpErr _ => True
  end.

(** * Every end of a program *)

(** Whatever is answered, what the program ends with satisfies [R]. *)
Fixpoint ends {A} (R : A -> Prop) (p : P A) : Prop := match p with Ret a => R a | Ask q k => forall r, ends R (k r) end.

Lemma ends_bind {A B} (S : A -> Prop) (R : B -> Prop) (p : P A) (f : A -> P B) : ends S p -> (forall a, S a -> ends R (f a)) -> ends R (bind p f).
Proof. induction p as [a|q k IH]; cbn [ends bind]; [auto|]. intros Hp Hf r. by apply IH. Qed.
Lemma ends_any {A} (p : P A) : ends (fun _ => True) p.
Proof. induction p as [a|q k IH]; cbn [ends]; auto. Qed.
Lemma ends_then {A B} (R : B -> Prop) (p : P A) (f : A -> P B) : (forall a, ends R (f a)) -> ends R (bind p f).
Proof. intros Hf. eapply ends_bind; [apply ends_any|auto]. Qed.
Lemma ends_runs {A} (R : A -> Prop) p tr a : runs p tr a -> ends R p -> R a.
Proof. induction 1 as [a|q k r tr a _ IH]; cbn [ends]; [done|]. intros Hk. apply IH, Hk. Qed.

(** An early answer of a step. *)
Definition or_else {A} (x : result A reply) : Prop := match x with Ok _ => True | Err r => labels_only r end.
Lemma ends_try {A} (p : P (result A reply)) (f : A -> P reply) : ends or_else p -> (forall a, ends labels_only (f a)) ->
  ends labels_only (bind p (fun r => match r with Ok x => f x | Err e => Ret e end)).
Proof. intros Hp Hf. eapply ends_bind; [exact Hp|]. intros [a|r] Hr; [apply Hf|exact Hr]. Qed.

Lemma answered_ends actor dec r : labels_only r -> ends labels_only (answered actor dec r).
Proof. intros Hr. by apply ends_then. Qed.
Lemma denied_ends {A} actor dec r : labels_only r -> ends (A := result A reply) or_else (denied actor dec r).
Proof. intros Hr. by apply ends_then. Qed.
Create HintDb replies.
#[export] Hint Resolve answered_ends denied_ends : replies.

Lemma one_of_app l l' s : one_of (l ++ l') s = one_of l s || one_of l' s.
Proof. apply existsb_app. Qed.
Lemma known_PhaseLabel p : known_phase (PhaseLabel p).
Proof. unfold known_phase, reply_phases, PhaseLabel. rewrite one_of_app. by destruct (one_of knownPhases p) eqn:E; rewrite ?E. Qed.
Lemma known_ActivityLabel a : known_activity (ActivityLabel a).
Proof. unfold known_activity, ActivityLabel. destruct (one_of knownActivities a) eqn:E; [|done]. unfold one_of in *. cbn [existsb]. by rewrite E, orb_true_r. Qed.
Lemma known_ContainerLabel s : known_container (ContainerLabel s).
Proof. unfold known_container, ContainerLabel. repeat case_match; try done. apply orb_true_iff. destruct (is_empty s) eqn:E; [|by left]. right. by apply str_eqb_eq in E as ->. Qed.
Lemma known_refusePhase reason phase code : known_phase phase -> labels_only (refusePhase reason phase code).
Proof. intros Hp. unfold refusePhase. cbn. by destruct (str_eqb phase _). Qed.
Lemma known_refuse reason code : labels_only (refuse reason code).
Proof. done. Qed.
#[export] Hint Resolve known_PhaseLabel known_ActivityLabel known_ContainerLabel known_refusePhase known_refuse : replies.
#[export] Hint Extern 1 (known_phase _) => reflexivity : replies.
#[export] Hint Extern 1 (labels_only (HttpErr _)) => exact I : replies.
#[export] Hint Extern 1 (labels_only (Refused _ _ _ _)) => cbn; reflexivity : replies.
#[export] Hint Extern 1 (labels_only (Answer _ _)) => cbn : replies.
#[export] Hint Extern 1 (or_else (Err _)) => cbn : replies.
#[export] Hint Extern 1 (or_else (Ok _)) => exact I : replies.

(** One turn: a question, a test or a final answer. *)
Ltac reply_turn :=
  match goal with
  | |- ends _ (let _ := _ in _) => cbv zeta
  | |- ends _ (Ret _) => cbn [ends]; auto with replies
  | |- ends _ (answered _ _ _) => auto with replies
  | |- ends _ (denied _ _ _) => auto with replies
  | |- ends _ (bind _ _) => apply ends_then; intros ?
  | |- ends _ (if ?b then _ else _) => destruct b
  | |- labels_only (if ?b then _ else _) => destruct b; auto with replies
  | |- ends _ (match ?x with _ => _ end) => destruct x
  end.
Ltac replies := repeat reply_turn.

Section Routes.
Context `{Unicode, UnicodeTables} (d : Dispatch).

Definition known_record (r : result (string * string) string) : Prop := match r with Ok (phase, _) => known_phase phase | Err _ => True end.
Definition known_reading (r : result string string) : Prop := match r with Ok phase => known_phase phase | Err _ => True end.

Lemma recordOf_ends spec : ends known_record (recordOf d spec).
Proof.
  unfold recordOf. apply ends_then. intros [agents|e]; [|done]. destruct (FindAgent agents (w_Name spec)) as [a|]; [|done]. cbv zeta.
  destruct (RunningContainerDown _ _); [done|]. destruct (_ && _); [|cbn; auto with replies]. apply ends_then. intros [|]; cbn; auto with replies.
Qed.
Lemma phaseOf_ends spec : ends known_reading (phaseOf d spec).
Proof. unfold phaseOf. eapply ends_bind; [apply recordOf_ends|]. by intros [[phase cs]|e] Hr. Qed.

Lemma releasing_ends name took body : ends labels_only body -> ends labels_only (releasing name took body).
Proof. intros Hb. unfold releasing. eapply ends_bind; [exact Hb|]. intros r Hr. by apply ends_then. Qed.
Lemma unlocking_ends name body : ends labels_only body -> ends labels_only (unlocking name body).
Proof. intros Hb. unfold unlocking. eapply ends_bind; [exact Hb|]. intros r Hr. by apply ends_then. Qed.

Lemma taskOK_ends actor task : ends or_else (taskOK actor task).
Proof. unfold taskOK. replies. Qed.
Lemma runtimeReady_ends : ends or_else (runtimeReady d).
Proof. unfold runtimeReady. replies. Qed.
Lemma lock_ends actor name : ends or_else (lockWorkerOrRefuse actor name).
Proof. unfold lockWorkerOrRefuse. replies. Qed.
Lemma admitOrRefuse_ends actor name : ends or_else (admitOrRefuse d actor name).
Proof. unfold admitOrRefuse. replies. Qed.
Lemma recordImageOK_ends spec actor : ends or_else (recordImageOK spec actor).
Proof. unfold recordImageOK. replies. Qed.
Lemma resumeChecks_ends spec actor : ends or_else (resumeChecks d spec actor).
Proof. unfold resumeChecks. replies. Qed.
Lemma requireManagerWorker_ends {R} (body : option R) worker : ends or_else (requireManagerWorker d body worker).
Proof.
  unfold requireManagerWorker. apply ends_then. intros [caller|]; [|done]. destruct body as [req|]; [|replies]. destruct (workerSpec d _); [|replies].
  eapply ends_bind; [apply runtimeReady_ends|]. by intros [u|r] Hr.
Qed.
Lemma operatorWorker_ends {R} (body : option R) worker : ends or_else (operatorWorker d body worker).
Proof. unfold operatorWorker. replies. Qed.
Lemma unrevoked_ready_ends spec actor : ends or_else (unrevoked_ready d spec actor).
Proof. unfold unrevoked_ready, runtimeReady. replies. Qed.
Lemma container_down_ends spec phase cs actor : known_phase phase -> ends or_else (container_down d spec phase cs actor).
Proof. intros Hp. unfold container_down. cbv zeta. replies. Qed.
Lemma come_live_ends spec actor : ends labels_only (come_live spec actor).
Proof. unfold come_live. replies. Qed.

Lemma resume_now_ends spec phase actor h begun : known_phase phase -> ends labels_only (resume_now d spec phase actor h begun).
Proof. intros Hp. unfold resume_now, come_live. replies. Qed.

Lemma resumeRecordAs_ends spec phase actor fresh : known_phase phase -> ends labels_only (resumeRecordAs d spec phase actor fresh).
Proof.
  intros Hp. unfold resumeRecordAs. apply ends_try; [apply recordImageOK_ends|]. intros _. destruct (comingUp phase); [replies|].
  apply ends_try; [apply admitOrRefuse_ends|]. intros took. apply releasing_ends, ends_try; [apply resumeChecks_ends|]. intros _.
  replies; apply resume_now_ends, Hp.
Qed.

Lemma start_now_ends spec task instructions actor : ends labels_only (start_now d spec task instructions actor).
Proof. unfold start_now. replies; apply come_live_ends. Qed.

Lemma startFreshWorker_ends spec task configTask actor : ends labels_only (startFreshWorker d spec task configTask actor).
Proof.
  unfold startFreshWorker. destruct (is_empty _); [replies|]. apply ends_try; [apply admitOrRefuse_ends|]. intros took. apply releasing_ends.
  replies; apply start_now_ends.
Qed.

Lemma startWorker_ends spec task configTask actor : ends labels_only (startWorker d spec task configTask actor).
Proof.
  unfold startWorker. apply ends_try; [apply taskOK_ends|]. intros _. apply ends_try; [apply lock_ends|]. intros _. apply unlocking_ends.
  apply ends_then. intros [|]; [replies|]. eapply ends_bind; [apply phaseOf_ends|]. intros [phase|e] Hp; [|replies].
  destruct (str_eqb phase PhaseRunning); [replies|]. destruct (negb _); [|apply startFreshWorker_ends]. unfold resumeExistingWorker. replies. apply resumeRecordAs_ends, Hp.
Qed.

Lemma wake_ends spec actor (k : string -> P reply) : (forall phase, known_phase phase -> ends labels_only (k phase)) ->
  ends labels_only (let* revoked := ask (IsRevoked (w_Name spec)) in
        if revoked then answered actor "deny" (refuse ReasonRevoked StatusForbidden)
        else
          let* err := checkAgentRole d (w_Name spec) in
          match err with
          | Some _ => answered actor "deny" (refuse ReasonRoleMismatch StatusConflict)
          | None =>
            let* phase := phaseOf d spec in
            match phase with
            | Err _ => answered actor "error" (refuse ReasonRuntimeError StatusBadGateway)
            | Ok phase => k phase
            end
          end).
Proof.
  intros Hk. apply ends_then. intros [|]; [replies|]. apply ends_then. intros [e|]; [replies|]. eapply ends_bind; [apply phaseOf_ends|].
  intros [phase|e] Hp; [by apply Hk|replies].
Qed.

Lemma resumeWorker_ends spec actor : ends labels_only (resumeWorker d spec actor).
Proof.
  unfold resumeWorker. apply ends_try; [apply lock_ends|]. intros _. apply unlocking_ends, wake_ends. intros phase Hp. replies. by apply resumeRecordAs_ends.
Qed.

Lemma recycleWorker_ends spec task configTask actor : ends labels_only (recycleWorker d spec task configTask actor).
Proof.
  unfold recycleWorker. destruct (_ || _); [replies|]. destruct (_ && _); [replies|]. apply ends_try; [apply taskOK_ends|]. intros _. destruct (negb _); [replies|]. apply ends_then. intros [|]; cbn [negb]; [|replies].
  apply unlocking_ends. unfold recycle_locked. apply ends_then. intros [|]; [replies|]. eapply ends_bind; [apply recordOf_ends|].
  intros [[phase cs]|e] Hp; [|replies]. destruct (_ && _); [replies|]. apply ends_try; [by apply container_down_ends|]. intros _.
  apply ends_then. intros [ins|e]; [|replies]. apply ends_then. intros [t|e]; [|replies]. apply ends_try; [apply admitOrRefuse_ends|]. intros took. apply releasing_ends.
  unfold recycle_now. replies; apply startFreshWorker_ends.
Qed.

Lemma new_session_ends spec task : ends labels_only (new_session_locked d spec task).
Proof.
  unfold new_session_locked. apply ends_then. intros [|]; [replies|]. eapply ends_bind; [apply phaseOf_ends|]. intros [phase|e] Hp; [|replies].
  destruct (is_empty phase); [replies|]. apply ends_then. intros [t|e]; [|replies]. apply ends_then. intros [e|]; [replies|].
  apply ends_try; [apply recordImageOK_ends|]. intros _. apply ends_try; [apply admitOrRefuse_ends|]. intros took. apply releasing_ends, ends_try; [apply resumeChecks_ends|]. intros _.
  unfold stop_then_resume. replies. by apply resumeRecordAs_ends.
Qed.

Lemma halted_ends v spec (k : result string string -> P reply) (e : P reply) : (forall p, known_reading p -> ends labels_only (k p)) -> ends labels_only e ->
  ends labels_only (let* err := ask_halt d v (w_Name spec) in match err with Some _ => e | None => let* phase := phaseOf d spec in k phase end).
Proof. intros Hk He. apply ends_then. intros [x|]; [exact He|]. eapply ends_bind; [apply phaseOf_ends|exact Hk]. Qed.

Lemma workerVerb_ends body v : ends labels_only (workerVerb d body v).
Proof.
  apply ends_try; [apply requireManagerWorker_ends|]. intros [name spec]. apply ends_try; [apply lock_ends|]. intros _. apply unlocking_ends.
  apply halted_ends; [|replies]. intros [p|e] Hp; replies.
Qed.

Lemma operatorWorkerHalt_ends body v : ends labels_only (operatorWorkerHalt d body v).
Proof.
  apply ends_try; [apply operatorWorker_ends|]. intros [name spec]. apply ends_try; [apply runtimeReady_ends|]. intros _. apply ends_try; [apply lock_ends|]. intros _.
  apply unlocking_ends, ends_then. intros [agents|e]; [|replies]. destruct (FindAgent _ _); [|replies]. apply halted_ends; [|replies].
  intros [p|e] Hp; [|replies]. destruct (is_empty p); replies.
Qed.

Lemma wakeFor_ends who actor : ends labels_only (wakeFor d who actor).
Proof.
  unfold wakeFor. destruct (workerSpec d _) as [spec|]; [|replies]. apply ends_try; [apply unrevoked_ready_ends|]. intros _. apply ends_try; [apply lock_ends|]. intros _.
  apply unlocking_ends, wake_ends. intros phase Hp. replies. by apply resumeRecordAs_ends.
Qed.

Lemma workerListEntry_ends name a found stranded :
  ends (fun e => known_phase (le_Phase e) /\ known_activity (le_Activity e) /\ known_container (le_Container e)) (workerListEntry name a found stranded).
Proof. unfold workerListEntry. destruct (negb found); [done|]. cbv zeta. apply ends_then. intros down. cbn. split_and!; [destruct down|..]; auto with replies. Qed.

Lemma list_entries_ends agents names :
  ends (Forall (fun e => known_phase (le_Phase e) /\ known_activity (le_Activity e) /\ known_container (le_Container e))) (list_entries d agents names).
Proof.
  induction names as [|name names IH]; [by constructor|]. cbn [list_entries]. cbv zeta. eapply ends_bind; [apply workerListEntry_ends|]. intros e He.
  eapply ends_bind; [exact IH|]. intros es Hes. by constructor.
Qed.

Lemma handleWorkerList_ends : ends labels_only (handleWorkerList d).
Proof.
  unfold handleWorkerList. apply ends_then. intros [c|]; [|done]. apply ends_try; [apply runtimeReady_ends|]. intros _. apply ends_then. intros [agents|e]; [|replies].
  cbn. apply Forall_fmap, Forall_true. intros a. cbn. auto with replies.
Qed.
Lemma handleOperatorWorkerList_ends : ends labels_only (handleOperatorWorkerList d).
Proof.
  unfold handleOperatorWorkerList. apply ends_try; [apply runtimeReady_ends|]. intros _. apply ends_then. intros [agents|e]; [|replies].
  eapply ends_bind; [apply list_entries_ends|]. by intros es Hes.
Qed.

Lemma serve_ends q : ends labels_only (serve d q).
Proof.
  destruct q; cbn [serve].
  1-3: apply ends_try; [apply requireManagerWorker_ends|]; intros [? spec]; (apply startWorker_ends || apply recycleWorker_ends || apply resumeWorker_ends).
  1-2: apply workerVerb_ends.
  - apply handleWorkerList_ends.
  - apply ends_try; [apply operatorWorker_ends|]. intros [? spec]. apply ends_try; [apply unrevoked_ready_ends|]. intros _. apply startWorker_ends.
  - apply ends_try; [apply operatorWorker_ends|]. intros [? spec]. apply ends_try; [apply unrevoked_ready_ends|]. intros _. apply recycleWorker_ends.
  - apply ends_try; [apply operatorWorker_ends|]. intros [? spec]. apply ends_try; [apply unrevoked_ready_ends|]. intros _. apply ends_try; [apply taskOK_ends|]. intros _.
    apply ends_try; [apply lock_ends|]. intros _. apply unlocking_ends, new_session_ends.
  - apply handleOperatorWorkerList_ends.
  - unfold handleOperatorWorkerResume. destruct body as [[w [who|]]|]; [| |replies]; cbn [rr_For rr_Worker].
    + destruct (negb _); [replies|apply wakeFor_ends].
    + destruct (workerSpec d w) as [spec|]; [|replies]. apply ends_try; [apply unrevoked_ready_ends|]. intros _. apply resumeWorker_ends.
  - apply operatorWorkerHalt_ends.
  - apply operatorWorkerHalt_ends.
  - unfold handleWorkerTicket. destruct body as [name|]; [|by apply ends_then]. destruct (is_empty name); [by apply ends_then|].
    destruct (workerSpec d name) as [spec|]; [|by apply ends_then]. eapply ends_bind; [by apply ends_any|]. intros [e|] _; by apply ends_then.
Qed.

(** The fields a modelled reply has for a worker's phase, activity and container
    state hold only words lever knows, whatever text the worker has set for itself
    on the hub. The texts of refusals and the image and container ids the hub
    reports are outside. *)
Theorem replies_carry_only_labels q tr r : runs (serve d q) tr r -> labels_only r.
Proof. intros Hr. eapply ends_runs; [exact Hr|apply serve_ends]. Qed.

End Routes.

(** ** The audit actor of a chat login *)

Section Login.
Context `{UnicodeTables}.

Lemma underscore_solid : solid (95, "_").
Proof. exists "_"%char, "". split_and!; [done|done|]. by intros rest. Qed.

Lemma chunks_one rb : solid rb -> chunks rb.2 = [rb].
Proof. intros (c & tl & Hb & _ & Hs). rewrite Hb, chunks_cons. specialize (Hs ""). rewrite str_app_nil in Hs. rewrite Hs. by destruct rb. Qed.

(** Whole cells written one after the other decode to themselves. *)
Lemma chunks_cells (cs : list (Z * string)) : Forall solid cs -> chunks (foldr (fun rb acc => rb.2 +:+ acc) "" cs) = cs.
Proof.
  induction 1 as [|rb cs Hrb _ IH]; [done|]. cbn [foldr]. rewrite chunks_app by (rewrite chunks_one by done; by constructor). rewrite chunks_one by done. by rewrite IH.
Qed.

(** What [strings.ToValidUTF8] writes: its whole cells, and the replacement. *)
Fixpoint valid_cells (inside : bool) (cs : list (Z * string)) : list (Z * string) :=
  match cs with
  | [] => []
  | (r, b) :: cs => if (r =? RuneError) && (len b =? 1) then (if inside then [] else [(95, "_")]) ++ valid_cells true cs else (r, b) :: valid_cells false cs
  end.
Lemma to_valid_cells cs : forall inside, to_valid "_" inside cs = foldr (fun rb acc => rb.2 +:+ acc) "" (valid_cells inside cs).
Proof. induction cs as [|[r b] cs IH]; intros inside; [done|]. cbn [to_valid valid_cells]. destruct (_ && _); [destruct inside|]; cbn [app foldr]; by rewrite IH. Qed.
Lemma valid_cells_solid cs : Forall (fun rb => solid rb \/ broken rb) cs -> forall inside, Forall solid (valid_cells inside cs).
Proof.
  induction 1 as [|[r b] cs Hrb _ IH]; intros inside; [constructor|]. cbn [valid_cells]. destruct ((r =? RuneError) && (len b =? 1)) eqn:E.
  - destruct inside; cbn [app]; [apply IH|]. constructor; [apply underscore_solid|apply IH].
  - constructor; [|apply IH]. destruct Hrb as [?|(c & [= -> ->] & _)]; [done|]. by vm_compute in E.
Qed.
Lemma chunks_valid s : exists cs, Forall solid cs /\ ToValidUTF8 s "_" = foldr (fun rb acc => rb.2 +:+ acc) "" cs.
Proof. eexists. split; [|apply to_valid_cells]. apply valid_cells_solid, chunks_shape. Qed.

(** What is left of a cell. *)
Definition masked (rb : Z * string) : Z * string := if IsControl rb.1 || IsSpace rb.1 || in_Cf rb.1 then (95, "_") else rb.

Lemma masked_solid cs : Forall solid cs -> Forall solid (masked <$> cs).
Proof. intros Hs. apply Forall_fmap. eapply Forall_impl; [exact Hs|]. intros rb Hrb. cbn. unfold masked. by destruct (_ || _); [apply underscore_solid|]. Qed.

Lemma boundedLogin_cells s : exists cs, Forall solid cs /\ boundedLogin s = foldr (fun rb acc => rb.2 +:+ acc) "" (masked <$> cs).
Proof.
  unfold boundedLogin. cbv zeta. set (s' := if 120 <? _ then _ else _). assert (Hs : exists cs, Forall solid cs /\ s' = foldr (fun rb acc => rb.2 +:+ acc) "" cs).
  { subst s'. destruct (120 <? _); apply chunks_valid. }
  destruct Hs as (cs & Hcs & ->). exists cs. split; [done|]. rewrite chunks_cells by done. clear. induction cs as [|rb cs IH]; [done|]. cbn. rewrite IH. f_equal.
  unfold masked. by destruct (_ || _).
Qed.

Lemma boundedLogin_runes s : Forall (fun r => r = 95 \/ IsControl r = false /\ IsSpace r = false /\ in_Cf r = false) (runes (boundedLogin s)).
Proof.
  destruct (boundedLogin_cells s) as (cs & Hcs & ->). unfold runes. rewrite chunks_cells by (by apply masked_solid). apply Forall_fmap, Forall_fmap, Forall_true.
  intros rb. cbn. unfold masked. destruct (IsControl rb.1 || IsSpace rb.1 || in_Cf rb.1) eqn:E; [by left|right]. by apply orb_false_iff in E as [[? ?]%orb_false_iff ?].
Qed.

Definition total (cs : list (Z * string)) : nat := String.length (foldr (fun rb acc => rb.2 +:+ acc) "" cs).
Lemma total_cons rb cs : total (rb :: cs) = (String.length rb.2 + total cs)%nat.
Proof. unfold total. cbn [foldr]. by rewrite str_length_app. Qed.
Lemma shape_pos rb : solid rb \/ broken rb -> (1 <= String.length rb.2)%nat.
Proof. intros [(c & tl & -> & _)|(c & -> & _)]; cbn; lia. Qed.

Lemma total_valid cs : Forall (fun rb => solid rb \/ broken rb) cs -> forall inside, (total (valid_cells inside cs) <= total cs)%nat.
Proof.
  induction 1 as [|[r b] cs Hrb _ IH]; intros inside; [done|]. apply shape_pos in Hrb. cbn [snd] in Hrb. cbn [valid_cells]. rewrite total_cons. cbn [snd].
  destruct (_ && _); [destruct inside; cbn [app]|]; rewrite ?total_cons; cbn [snd]; [specialize (IH true)|specialize (IH true); change (String.length "_") with 1%nat|specialize (IH false)]; lia.
Qed.
Lemma total_masked cs : Forall solid cs -> (total (masked <$> cs) <= total cs)%nat.
Proof.
  induction 1 as [|rb cs Hrb _ IH]; [done|]. rewrite fmap_cons, !total_cons. assert ((String.length (masked rb).2 <= String.length rb.2)%nat); [|lia].
  unfold masked. destruct (_ || _); [|done]. apply (or_introl (B := broken rb)), shape_pos in Hrb. cbn. lia.
Qed.

Lemma length_valid s : (String.length (ToValidUTF8 s "_") <= String.length s)%nat.
Proof. unfold ToValidUTF8. rewrite to_valid_cells. pose proof (total_valid _ (chunks_shape s) false) as Hl. unfold total in Hl at 2. by rewrite chunks_concat in Hl. Qed.

Lemma substring_length n s : (String.length (String.substring 0 n s) <= n)%nat.
Proof. revert n. induction s as [|c s IH]; intros [|n]; cbn; try lia. specialize (IH n). lia. Qed.

Lemma boundedLogin_length s : len (boundedLogin s) <= 120.
Proof.
  unfold boundedLogin. cbv zeta. set (s' := if 120 <? _ then _ else _).
  assert (Hs : (String.length s' <= 120)%nat /\ exists cs, Forall solid cs /\ s' = foldr (fun rb acc => rb.2 +:+ acc) "" cs).
  { subst s'. unfold len. destruct (Z.ltb_spec 120 (Z.of_nat (String.length (ToValidUTF8 s "_")))) as [Hl|Hl]; (split; [|apply chunks_valid]); [|lia].
    etrans; [apply length_valid|apply (substring_length 120)]. }
  destruct Hs as (Hl & cs & Hcs & ->). rewrite chunks_cells by done. pose proof (total_masked cs Hcs) as Hm. change (String.length _) with (total cs) in Hl.
  assert (Hcat : foldr (fun rb acc => (if IsControl rb.1 || IsSpace rb.1 || in_Cf rb.1 then "_" else rb.2) +:+ acc) "" cs = foldr (fun rb acc => rb.2 +:+ acc) "" (masked <$> cs)).
  { clear. induction cs as [|rb cs IH]; [done|]. cbn. rewrite IH. f_equal. unfold masked. by destruct (_ || _). }
  rewrite Hcat. unfold len. change (String.length _) with (total (masked <$> cs)). lia.
Qed.

(** The login a chat caller supplies becomes one short token of an audit line: at
    most 120 bytes, and no rune of it, but an underscore that stands for another,
    is a control, a space or a format character. *)
Theorem login_is_one_token s :
  len (boundedLogin s) <= 120
  /\ Forall (fun r => r = 95 \/ IsControl r = false /\ IsSpace r = false /\ in_Cf r = false) (runes (boundedLogin s)).
Proof. split; [apply boundedLogin_length|apply boundedLogin_runes]. Qed.

End Login.


End DispatchReply.
