(* ===== verification/Fleet.v ===== *)
(** The requests of a broker running together ([internal/broker/workercap.go]):
    any number of worker routes, their questions interleaved in any order, over
    the state they share, and that the running workers stay within
    [broker.max_running_workers]. *)

From S2P Require Import Prelude Go TreePath GoPath Render Scion Effects Worker Workspace Dispatch DispatchSafe.

Module Fleet.
Import TreePath GoPath Render Scion Effects Worker Workspace Dispatch DispatchSafe.

(** What the requests share: the hub's records, [admitting] with its mutex
    [admitMu], and the lifecycle locks [workerLocks] by their holders. *)
Record fleet := MkFleet {
  f_agents : list Agent;
  f_admitting : gmap string Z;
  f_admitMu : option nat;
  f_owner : gmap string nat
}.

Definition with_agents (a : list Agent) (s : fleet) : fleet := MkFleet a (f_admitting s) (f_admitMu s) (f_owner s).
Definition with_admitting (m : gmap string Z) (s : fleet) : fleet := MkFleet (f_agents s) m (f_admitMu s) (f_owner s).
Definition with_mu (o : option nat) (s : fleet) : fleet := MkFleet (f_agents s) (f_admitting s) o (f_owner s).
Definition with_owner (m : gmap string nat) (s : fleet) : fleet := MkFleet (f_agents s) (f_admitting s) (f_admitMu s) m.

(** [b.admitting[name]++] and the release's decrement and delete. *)
Definition inc (name : string) (m : gmap string Z) : gmap string Z := <[name := default 0 (m !! name) + 1]> m.
Definition dec (name : string) (m : gmap string Z) : gmap string Z :=
  let n := default 0 (m !! name) - 1 in if n <=? 0 then delete name m else <[name := n]> m.

Section Pool.
Context `{Unicode, UnicodeTables} (d : Dispatch) (specs : list WorkerSpec).

(** The records that count, the manager's apart. *)
Definition up (agents : list Agent) : gset string :=
  list_to_set (a_Slug <$> filter (fun a => one_of [d_managerSlug d; d_manager d] (a_Slug a) = false /\ countsAsRunning (a_Phase a) (a_ContainerStatus a) = true) agents).

(** The worker a question asks the hub to bring up. *)
Definition bring_up (q : action) : option string :=
  match q with Start o => Some (o_Worker o) | Resume w _ | ResumeTask w _ _ | ResumeForce w _ => Some w | _ => None end.

(** How the answer to request [i]'s question comes out of the shared state, and
    what it makes of it. A start or resume, whether it answers an error or not,
    may bring its worker up and no other. *)
Definition acts (i : nat) (s : fleet) (q : action) : answer q -> fleet -> Prop :=
  match q with
  | AdmitLock => fun _ s' => f_admitMu s = None /\ s' = with_mu (Some i) s
  | AdmitUnlock => fun _ s' => s' = with_mu None s
  | ReadAdmitting => fun m s' => m = f_admitting s /\ s' = s
  | IncAdmitting w => fun _ s' => s' = with_admitting (inc w (f_admitting s)) s
  | DecAdmitting w => fun _ s' => s' = with_admitting (dec w (f_admitting s)) s
  | LockWorker w => fun err s' => match err with None => f_owner s !! w = None /\ s' = with_owner (<[w := i]> (f_owner s)) s | Some _ => s' = s end
  | TryLockWorker w => fun got s' => if (got : bool) then f_owner s !! w = None /\ s' = with_owner (<[w := i]> (f_owner s)) s else s' = s
  | UnlockWorker w => fun _ s' => s' = with_owner (delete w (f_owner s)) s
  | List => fun r s' => s' = s /\ match r with Ok agents => agents = f_agents s | Err _ => True end
  | q => fun _ s' => match bring_up q with
                     | Some w => exists agents, up agents ⊆ up (f_agents s) ∪ {[w]} /\ s' = with_agents agents s
                     | None => s' = s
                     end
  end.

Abbreviation pool := (gmap nat (P reply)).

(** A request arrives, asks its next question, or ends; and a worker goes down
    on its own, or by a halt. *)
Inductive moves : fleet * pool -> fleet * pool -> Prop :=
| arrives s ts i q : ts !! i = None -> moves (s, ts) (s, <[i := serve d q]> ts)
| asks s ts i q k r s' : ts !! i = Some (Ask q k) -> acts i s q r s' -> moves (s, ts) (s', <[i := k r]> ts)
| ends s ts i a : ts !! i = Some (Ret a) -> moves (s, ts) (s, delete i ts)
| goes_down s ts agents : up agents ⊆ up (f_agents s) -> moves (s, ts) (with_agents agents s, ts).

(** Workers up or on their way. *)
Definition taken (s : fleet) : gset string := up (f_agents s) ∪ dom (f_admitting s).

(** ** The shared state and what each request has established *)

(** [n] slots, as [admitting] stores them. *)
Definition stored (n : nat) : option Z := if decide (n = 0%nat) then None else Some (Z.of_nat n).

Lemma inc_stored w m n : m !! w = stored n -> inc w m !! w = stored (S n).
Proof. intros E. unfold inc. rewrite lookup_insert_eq, E. unfold stored. destruct (decide (n = 0%nat)) as [->|]; [done|]. cbn [default]. rewrite decide_False by lia. f_equal. cbn. lia. Qed.
Lemma dec_stored w m n : m !! w = stored (S n) -> dec w m !! w = stored n.
Proof.
  intros E. unfold dec. cbv zeta. rewrite E. assert (Hn : default 0 (stored (S n)) - 1 = Z.of_nat n) by (unfold stored; rewrite decide_False by lia; cbn [default from_option]; unfold id; lia).
  rewrite Hn. unfold stored. destruct (Z.leb_spec (Z.of_nat n) 0); [rewrite lookup_delete_eq, decide_True by lia; done|rewrite lookup_insert_eq, decide_False by lia; done].
Qed.
Lemma inc_ne w v m : v <> w -> inc w m !! v = m !! v.
Proof. intros Hne. unfold inc. by rewrite lookup_insert_ne. Qed.
Lemma dec_ne w v m : v <> w -> dec w m !! v = m !! v.
Proof. intros Hne. unfold dec. cbv zeta. destruct (_ <=? _); [by rewrite lookup_delete_ne|by rewrite lookup_insert_ne]. Qed.
Lemma dom_inc w m : dom (inc w m) = {[w]} ∪ dom m.
Proof. apply leibniz_equiv, dom_insert. Qed.
Lemma dom_dec w m : dom (dec w m) ⊆ dom m ∪ {[w]}.
Proof. unfold dec. cbv zeta. destruct (_ <=? _); [rewrite dom_delete|rewrite dom_insert]; set_solver. Qed.

Abbreviation ghosts := (gmap nat ghost).

Record coherent (s : fleet) (gs : ghosts) : Prop := MkCoherent {
  co_owner : forall w i, f_owner s !! w = Some i <-> exists g, gs !! i = Some g /\ g_lock g = Some w;
  co_mu : forall i g, gs !! i = Some g -> (g_admit g = true <-> f_admitMu s = Some i);
  co_slots : forall i g w, gs !! i = Some g -> g_lock g = Some w -> f_admitting s !! w = stored (g_slots g);
  co_free : forall w, f_owner s !! w = None -> f_admitting s !! w = None;
  co_counted : forall i g m, gs !! i = Some g -> g_admit g = true -> g_counted g = Some m -> m = f_admitting s;
  co_listed : forall i g l, gs !! i = Some g -> g_admit g = true -> g_listed g = Some l -> up (f_agents s) ⊆ up l ∪ dom (f_admitting s);
  co_cap : Z.of_nat (size (taken s)) <= d_max d;
  co_holder : forall i, f_admitMu s = Some i -> is_Some (gs !! i)
}.

Lemma insert_some (gs : ghosts) i j g : is_Some (gs !! j) -> is_Some (<[i := g]> gs !! j).
Proof. intros Hj. rewrite lookup_insert. by destruct (decide (i = j)). Qed.

(** The part of a request's history the shared state depends on. *)
Definition same_core (g g' : ghost) : Prop :=
  g_lock g' = g_lock g /\ g_admit g' = g_admit g /\ g_slots g' = g_slots g /\ g_listed g' = g_listed g /\ g_counted g' = g_counted g.

Lemma coherent_core s gs i g g' : gs !! i = Some g -> same_core g g' -> coherent s gs -> coherent s (<[i := g']> gs).
Proof.
  intros Hi (E1 & E2 & E3 & E4 & E5) [C1 C2 C3 C4 C5 C6 C7 C8]. constructor.
  - intros w j. rewrite C1. split; intros (g0 & Hj & Hl); (destruct (decide (i = j)) as [<-|]; [rewrite lookup_insert_eq in *|rewrite lookup_insert_ne in * by done]); [..|eauto]; eexists; (split; [done|congruence]) || eauto.
  - intros j g0 [[<- <-]|[_ Hj]]%lookup_insert_Some; [rewrite E2; eauto|eauto].
  - intros j g0 w [[<- <-]|[_ Hj]]%lookup_insert_Some; [rewrite E1, E3; eauto|eauto].
  - done.
  - intros j g0 m [[<- <-]|[_ Hj]]%lookup_insert_Some; [rewrite E2, E5; eauto|eauto].
  - intros j g0 l [[<- <-]|[_ Hj]]%lookup_insert_Some; [rewrite E2, E4; eauto|eauto].
  - done.
  - intros j Hj. by apply insert_some, C8.
Qed.

Lemma one_lock s gs i j g g' w : coherent s gs -> gs !! i = Some g -> gs !! j = Some g' -> g_lock g = Some w -> g_lock g' = Some w -> i = j.
Proof. intros [C1 _ _ _ _ _ _ _] Hi Hj Hl Hl'. assert (Ei : f_owner s !! w = Some i) by (apply C1; eauto). assert (Ej : f_owner s !! w = Some j) by (apply C1; eauto). congruence. Qed.
Lemma one_mu s gs i j g g' : coherent s gs -> gs !! i = Some g -> gs !! j = Some g' -> g_admit g = true -> g_admit g' = true -> i = j.
Proof. intros [_ C2 _ _ _ _ _ _] Hi Hj Hl Hl'. apply (C2 _ _ Hi) in Hl. apply (C2 _ _ Hj) in Hl'. congruence. Qed.

Lemma coherent_lock s gs i g w : gs !! i = Some g -> g_lock g = None -> g_admit g = false -> f_owner s !! w = None -> coherent s gs ->
  coherent (with_owner (<[w := i]> (f_owner s)) s) (<[i := locked w]> gs).
Proof.
  intros Hi Hl Ha Hw [C1 C2 C3 C4 C5 C6 C7 C8]. constructor; cbn [f_owner f_admitMu f_admitting f_agents with_owner].
  - intros v j. rewrite !lookup_insert. split.
    + destruct (decide (w = v)) as [<-|]; [intros [= <-]; exists (locked w); by rewrite decide_True|]. intros Ho. apply C1 in Ho as (g0 & Hj & Hv).
      rewrite decide_False by congruence. eauto.
    + destruct (decide (i = j)) as [<-|]; [intros (g0 & [= <-] & [= <-]); by rewrite decide_True|]. intros Hex. apply C1 in Hex. rewrite decide_False by congruence. done.
  - intros j g0 [[<- <-]|[_ Hj]]%lookup_insert_Some; [|eauto]. cbn. rewrite <- (C2 _ _ Hi), Ha. done.
  - intros j g0 v [[<- <-]|[_ Hj]]%lookup_insert_Some; [|eauto]. intros [= <-]. by apply C4.
  - intros v [Hv _]%lookup_insert_None. eauto.
  - intros j g0 m [[<- <-]|[_ Hj]]%lookup_insert_Some; [done|eauto].
  - intros j g0 m [[<- <-]|[_ Hj]]%lookup_insert_Some; [done|eauto].
  - done.
  - intros j Hj. by apply insert_some, C8.
Qed.

Lemma coherent_unlock s gs i g w : gs !! i = Some g -> g_lock g = Some w -> g_admit g = false -> g_slots g = 0%nat -> coherent s gs ->
  coherent (with_owner (delete w (f_owner s)) s) (<[i := idle]> gs).
Proof.
  intros Hi Hl Ha Hs Hco. pose proof Hco as [C1 C2 C3 C4 C5 C6 C7 C8]. constructor; cbn [f_owner f_admitMu f_admitting f_agents with_owner].
  - intros v j. rewrite lookup_delete_Some, lookup_insert. split.
    + intros [Hne Ho]. apply C1 in Ho as (g0 & Hj & Hv). rewrite decide_False by congruence. eauto.
    + destruct (decide (i = j)) as [<-|Hij]; [intros (g0 & [= <-] & [=])|]. intros (g0 & Hj & Hv). split; [intros <-; exact (Hij (one_lock _ _ _ _ _ _ _ Hco Hi Hj Hl Hv))|apply C1; eauto].
  - intros j g0 [[<- <-]|[_ Hj]]%lookup_insert_Some; [|eauto]. cbn. rewrite <- (C2 _ _ Hi), Ha. done.
  - intros j g0 v [[<- <-]|[_ Hj]]%lookup_insert_Some; [done|eauto].
  - intros v [<-|Hv]%lookup_delete_None; [|eauto]. by rewrite (C3 _ _ _ Hi Hl), Hs.
  - intros j g0 m [[<- <-]|[_ Hj]]%lookup_insert_Some; [done|eauto].
  - intros j g0 m [[<- <-]|[_ Hj]]%lookup_insert_Some; [done|eauto].
  - done.
  - intros j Hj. by apply insert_some, C8.
Qed.

(** The lifecycle locks when only the rest of a ghost changes. *)
Lemma owner_kept s gs i g g' : coherent s gs -> gs !! i = Some g -> g_lock g' = g_lock g ->
  forall w j, f_owner s !! w = Some j <-> exists g0, <[i := g']> gs !! j = Some g0 /\ g_lock g0 = Some w.
Proof.
  intros Hco Hi E w j. rewrite (co_owner _ _ Hco), lookup_insert. destruct (decide (i = j)) as [<-|]; [|done].
  split; intros (g0 & Hj & Hl); eexists; (split; [done|congruence]).
Qed.

Lemma coherent_admit s gs i g (b : bool) : gs !! i = Some g -> g_admit g = negb b -> (b = true -> f_admitMu s = None) -> coherent s gs ->
  coherent (with_mu (if b then Some i else None) s) (<[i := set_admit b g]> gs).
Proof.
  intros Hi Ha Hb Hco. pose proof Hco as [C1 C2 C3 C4 C5 C6 C7 C8]. constructor; cbn [f_owner f_admitMu f_admitting f_agents with_mu].
  - by eapply owner_kept.
  - intros j g0 [[<- <-]|[Hij Hj]]%lookup_insert_Some; [by destruct b|]. rewrite (C2 _ _ Hj). destruct b.
    + rewrite Hb by done. split; congruence.
    + split; [|done]. intros E. apply (C2 _ _ Hj) in E. destruct Hij. by eapply one_mu.
  - intros j g0 v [[<- <-]|[_ Hj]]%lookup_insert_Some; [exact (C3 i g _ Hi)|eauto].
  - done.
  - intros j g0 m [[<- <-]|[_ Hj]]%lookup_insert_Some; [done|eauto].
  - intros j g0 m [[<- <-]|[_ Hj]]%lookup_insert_Some; [done|eauto].
  - done.
  - destruct b; [|done]. intros j [= <-]. by rewrite lookup_insert_eq.
Qed.

Lemma coherent_read s gs i g : gs !! i = Some g -> coherent s gs -> coherent s (<[i := set_counted (f_admitting s) g]> gs).
Proof.
  intros Hi Hco. pose proof Hco as [C1 C2 C3 C4 C5 C6 C7 C8]. constructor; [by eapply owner_kept|..|done|intros j Hj; by apply insert_some, C8].
  - intros j g0 [[<- <-]|[_ Hj]]%lookup_insert_Some; [exact (C2 i g Hi)|eauto].
  - intros j g0 w [[<- <-]|[_ Hj]]%lookup_insert_Some; [exact (C3 i g _ Hi)|eauto].
  - done.
  - intros j g0 m [[<- <-]|[_ Hj]]%lookup_insert_Some; [by intros _ [= ->]|eauto].
  - intros j g0 l [[<- <-]|[_ Hj]]%lookup_insert_Some; [exact (C6 i g _ Hi)|eauto].
Qed.

Lemma coherent_list s gs i g w : gs !! i = Some g -> coherent s gs -> coherent s (<[i := hear (f_agents s) w g]> gs).
Proof.
  intros Hi Hco. pose proof Hco as [C1 C2 C3 C4 C5 C6 C7 C8]. constructor; [by eapply owner_kept|..|done|intros j Hj; by apply insert_some, C8].
  - intros j g0 [[<- <-]|[_ Hj]]%lookup_insert_Some; [exact (C2 i g Hi)|eauto].
  - intros j g0 v [[<- <-]|[_ Hj]]%lookup_insert_Some; [exact (C3 i g _ Hi)|eauto].
  - done.
  - intros j g0 m [[<- <-]|[_ Hj]]%lookup_insert_Some; [exact (C5 i g _ Hi)|eauto].
  - intros j g0 l [[<- <-]|[_ Hj]]%lookup_insert_Some; [|eauto]. cbn. intros ->. intros [= <-]. set_solver.
Qed.

(** A slot taken, or given back, for the worker whose lock is stored. *)
Lemma coherent_slots s gs i g w m n : gs !! i = Some g -> g_lock g = Some w -> g_admit g = true -> coherent s gs ->
  m !! w = stored n -> (forall v, v <> w -> m !! v = f_admitting s !! v) -> Z.of_nat (size (up (f_agents s) ∪ dom m)) <= d_max d ->
  coherent (with_admitting m s) (<[i := set_slots n g]> gs).
Proof.
  intros Hi Hl Ha Hco Hw Hv Hcap. pose proof Hco as [C1 C2 C3 C4 C5 C6 C7 C8]. assert (Ho : f_owner s !! w = Some i) by (apply C1; eauto).
  constructor; cbn [f_owner f_admitMu f_admitting f_agents with_admitting]; [by eapply owner_kept|..|exact Hcap|intros j Hj; by apply insert_some, C8].
  - intros j g0 [[<- <-]|[_ Hj]]%lookup_insert_Some; [exact (C2 i g Hi)|eauto].
  - intros j g0 v [[<- <-]|[Hij Hj]]%lookup_insert_Some; cbn; [rewrite Hl; by intros [= <-]|]. intros Hl0.
    rewrite Hv; [eauto|]. intros ->. exact (Hij (one_lock _ _ _ _ _ _ _ Hco Hi Hj Hl Hl0)).
  - intros v Hf. rewrite Hv by congruence. by apply C4.
  - intros j g0 m0 [[<- <-]|[Hij Hj]]%lookup_insert_Some; [done|]. intros Ha0. destruct (Hij (one_mu _ _ _ _ _ _ Hco Hi Hj Ha Ha0)).
  - intros j g0 l [[<- <-]|[Hij Hj]]%lookup_insert_Some; [done|]. intros Ha0. destruct (Hij (one_mu _ _ _ _ _ _ Hco Hi Hj Ha Ha0)).
Qed.

Lemma up_counted w agents m : (up agents ∪ dom m) ∖ {[w]} = counted d w agents m.
Proof.
  apply set_eq. intros x. unfold up, counted. rewrite elem_of_difference, !elem_of_union, !elem_of_list_to_set, !list_elem_of_fmap, elem_of_difference, not_elem_of_singleton.
  setoid_rewrite list_elem_of_filter. split.
  - intros [[(a & -> & [Hm Hc] & Hin)|Hd] Hne]; [left|by right]. exists a. split; [done|]. split; [|done]. split; [|done].
    unfold one_of in *. cbn in *. destruct (str_eqb (a_Slug a) w) eqn:E; [by apply str_eqb_eq in E|]. done.
  - intros [(a & -> & [Hm Hc] & Hin)|[Hd Hne]]; [|split; [by right|done]]. unfold one_of in *. cbn in *. apply orb_false_iff in Hm as [Hw Hm].
    split; [left; by exists a|]. by apply str_eqb_neq in Hw.
Qed.

Lemma size_add (X Y : gset string) w : X ⊆ Y ∪ {[w]} -> (size X <= S (size (Y ∖ {[w]})))%nat.
Proof.
  intros HX. etrans; [apply (subseteq_size _ ((Y ∖ {[w]}) ∪ {[w]}))|].
  - intros x Hx. destruct (decide (x = w)); set_solver.
  - rewrite size_union by set_solver. rewrite size_singleton. lia.
Qed.

Lemma coherent_inc s gs i g w agents admitting : gs !! i = Some g -> g_lock g = Some w -> g_admit g = true -> coherent s gs ->
  g_listed g = Some agents -> g_counted g = Some admitting -> Z.of_nat (size (counted d w agents admitting)) < d_max d ->
  coherent (with_admitting (inc w (f_admitting s)) s) (<[i := set_slots (S (g_slots g)) g]> gs).
Proof.
  intros Hi Hl Ha Hco Hls Hct Hfree. apply (coherent_slots _ _ _ _ w); [done..|apply inc_stored; by eapply co_slots|intros v; apply inc_ne|].
  rewrite dom_inc. pose proof (co_counted _ _ Hco _ _ _ Hi Ha Hct) as ->. pose proof (co_listed _ _ Hco _ _ _ Hi Ha Hls) as Hup. rewrite <- up_counted in Hfree.
  assert (Hsub : up (f_agents s) ∪ ({[w]} ∪ dom (f_admitting s)) ⊆ up agents ∪ dom (f_admitting s) ∪ {[w]}) by set_solver.
  apply size_add in Hsub. lia.
Qed.

Lemma stored_dom s gs i g w : coherent s gs -> gs !! i = Some g -> g_lock g = Some w -> (0 < g_slots g)%nat -> w ∈ dom (f_admitting s).
Proof. intros Hco Hi Hl Hs. apply elem_of_dom. rewrite (co_slots _ _ Hco _ _ _ Hi Hl). unfold stored. rewrite decide_False by lia. done. Qed.

Lemma size_cap (X Y : gset string) n : X ⊆ Y -> Z.of_nat (size Y) <= n -> Z.of_nat (size X) <= n.
Proof. intros HX HY. apply subseteq_size in HX. lia. Qed.

Lemma coherent_dec s gs i g w : gs !! i = Some g -> g_lock g = Some w -> g_admit g = true -> (0 < g_slots g)%nat -> coherent s gs ->
  coherent (with_admitting (dec w (f_admitting s)) s) (<[i := set_slots (pred (g_slots g)) g]> gs).
Proof.
  intros Hi Hl Ha Hs Hco. pose proof (stored_dom _ _ _ _ _ Hco Hi Hl Hs) as Hd. apply (coherent_slots _ _ _ _ w); [done..|apply dec_stored|intros v; apply dec_ne|].
  - rewrite (co_slots _ _ Hco _ _ _ Hi Hl). f_equal. lia.
  - eapply size_cap; [|apply (co_cap _ _ Hco)]. unfold taken. pose proof (dom_dec w (f_admitting s)). set_solver.
Qed.

(** The hub's records change, no one comes up but a worker with a slot. *)
Lemma coherent_up s gs agents : coherent s gs -> up agents ⊆ up (f_agents s) ∪ dom (f_admitting s) -> coherent (with_agents agents s) gs.
Proof.
  intros Hco Hup. pose proof Hco as [C1 C2 C3 C4 C5 C6 C7 C8]. constructor; try done.
  - intros i g l Hi Ha Hls. specialize (C6 _ _ _ Hi Ha Hls). cbn. set_solver.
  - eapply size_cap; [|exact C7]. unfold taken. cbn. set_solver.
Qed.

Lemma coherent_bring_up s gs i g w agents : 0 < d_max d -> gs !! i = Some g -> ready d g w -> up agents ⊆ up (f_agents s) ∪ {[w]} -> coherent s gs -> coherent (with_agents agents s) gs.
Proof.
  intros Hb Hi [Hl _ Hs _] Hup Hco. apply coherent_up; [done|]. pose proof (stored_dom _ _ _ _ _ Hco Hi Hl (Hs Hb)). set_solver.
Qed.

Lemma acts_coherent i s q r s' g gs : 0 < d_max d -> gs !! i = Some g -> allowed d true g q -> acts i s q r s' -> coherent s gs -> coherent s' (<[i := observe g (Ev q r)]> gs).
Proof.
  intros Hb Hi Ha Hacts Hco.
  assert (Hother : s' = s -> same_core g (observe g (Ev q r)) -> coherent s' (<[i := observe g (Ev q r)]> gs)) by (intros -> Hsc; by eapply coherent_core).
  assert (Hup : forall w, ready d g w -> observe g (Ev q r) = g -> (exists agents, up agents ⊆ up (f_agents s) ∪ {[w]} /\ s' = with_agents agents s) -> coherent s' (<[i := observe g (Ev q r)]> gs)).
  { intros w Hr -> (agents & Hs & ->). rewrite insert_id by done. by eapply coherent_bring_up. }
  destruct q; cbn in Ha, Hacts; try (apply Hother; [exact Hacts|unfold observe; cbn; repeat case_match; done]).
  - destruct r; [by apply Hother|]. destruct Ha, Hacts as [? ->]. by apply (coherent_lock _ _ _ g).
  - destruct r; [|by apply Hother]. destruct Ha, Hacts as [? ->]. by apply (coherent_lock _ _ _ g).
  - destruct Ha as (? & ? & ?). subst s'. by apply (coherent_unlock _ _ _ g).
  - destruct Hacts as [? ->]. by apply (coherent_admit s gs i g true).
  - subst s'. by apply (coherent_admit s gs i g false).
  - destruct Hacts as [-> ->]. by apply coherent_read.
  - destruct Ha as (? & ? & ? & ? & ? & ? & ?). subst s'. by eapply coherent_inc.
  - destruct Ha as (? & ? & ?). subst s'. by apply coherent_dec.
  - destruct Hacts as [-> Hr]. destruct r as [agents|e]; [subst agents|by apply Hother]. unfold observe. cbn. destruct (g_lock g) as [w|]; [by apply coherent_list|].
    rewrite insert_id by done. done.
  - apply (Hup (o_Worker o)); [apply Ha|done|exact Hacts].
  - apply (Hup worker); [apply Ha|done|exact Hacts].
  - apply (Hup worker); [apply Ha|done|exact Hacts].
  - apply (Hup worker); [apply Ha|done|exact Hacts].
Qed.

(** ** Every reachable state *)

(** Each request keeps to the monitor from where it is. *)
Definition tracked (ts : pool) (gs : ghosts) : Prop :=
  forall i, match ts !! i, gs !! i with Some p, Some g => Effects.safe observe (allowed d true) p g (fun g' _ => g' = idle) | None, None => True | _, _ => False end.

Hypothesis configured : d_workers d = workers_of specs.

Lemma tracked_insert ts gs i p g : tracked ts gs -> Effects.safe observe (allowed d true) p g (fun g' _ => g' = idle) -> tracked (<[i := p]> ts) (<[i := g]> gs).
Proof. intros Ht Hp j. destruct (decide (i = j)) as [<-|Hne]; [by rewrite !lookup_insert_eq|]. rewrite !lookup_insert_ne by done. apply Ht. Qed.

Lemma coherent_fresh s gs i : gs !! i = None -> coherent s gs -> coherent s (<[i := idle]> gs).
Proof.
  intros Hi Hco. pose proof Hco as [C1 C2 C3 C4 C5 C6 C7 C8]. constructor; try done.
  - intros w j. rewrite C1, lookup_insert. destruct (decide (i = j)) as [<-|]; [|done]. rewrite Hi. split; intros (g & [= E] & Hl). by subst g.
  - intros j g [[<- <-]|[_ Hj]]%lookup_insert_Some; [|eauto]. split; [done|]. intros Hmu. apply C8 in Hmu as [g Hg]. congruence.
  - intros j g w [[<- <-]|[_ Hj]]%lookup_insert_Some; [done|eauto].
  - intros j g m [[<- <-]|[_ Hj]]%lookup_insert_Some; [done|eauto].
  - intros j g l [[<- <-]|[_ Hj]]%lookup_insert_Some; [done|eauto].
  - intros j Hj. by apply insert_some, C8.
Qed.

Lemma coherent_gone s gs i : gs !! i = Some idle -> coherent s gs -> coherent s (delete i gs).
Proof.
  intros Hi Hco. pose proof Hco as [C1 C2 C3 C4 C5 C6 C7 C8]. constructor; try done.
  - intros w j. rewrite C1. setoid_rewrite lookup_delete_Some. split; intros (g & Hj & Hl); [|naive_solver]. exists g. split; [|done]. split; [|done].
    intros <-. rewrite Hi in Hj. by injection Hj as <-.
  - intros j g [_ Hj]%lookup_delete_Some. eauto.
  - intros j g w [_ Hj]%lookup_delete_Some. eauto.
  - intros j g m [_ Hj]%lookup_delete_Some. eauto.
  - intros j g l [_ Hj]%lookup_delete_Some. eauto.
  - intros j Hj. rewrite lookup_delete_ne; [by apply C8|]. intros <-. by apply (C2 _ _ Hi) in Hj.
Qed.

Definition consistent (x : fleet * pool) : Prop := exists gs, tracked x.2 gs /\ coherent x.1 gs.

Lemma moves_consistent x y : 0 < d_max d -> moves x y -> consistent x -> consistent y.
Proof.
  intros Hb Hm (gs & Ht & Hco). destruct Hm as [s ts i q Hn|s ts i q k r s' Hi Hacts|s ts i a Hi|s ts agents Hup]; cbn [fst snd] in *; pose proof (fun j => Ht j) as Hat.
  - specialize (Hat i). rewrite Hn in Hat. destruct (gs !! i) eqn:Eg; [done|]. exists (<[i := idle]> gs). split; [|by apply coherent_fresh].
    apply tracked_insert; [done|by eapply serve_safe].
  - specialize (Hat i). rewrite Hi in Hat. destruct (gs !! i) as [g|] eqn:Eg; [|done]. destruct Hat as [Ha Hk]. exists (<[i := observe g (Ev q r)]> gs).
    split; [by apply tracked_insert|by eapply acts_coherent].
  - specialize (Hat i). rewrite Hi in Hat. destruct (gs !! i) as [g|] eqn:Eg; [|done]. cbn in Hat. subst g. exists (delete i gs). cbn [fst snd].
    split; [|by apply coherent_gone]. intros j. destruct (decide (i = j)) as [<-|Hne]; [by rewrite !lookup_delete_eq|]. rewrite !lookup_delete_ne by done. apply Ht.
  - exists gs. split; [done|]. apply coherent_up; [done|set_solver].
Qed.

(** A broker that has just started: no request, no lock stored, no start admitted. *)
Definition fresh_fleet (agents : list Agent) : fleet := MkFleet agents ∅ None ∅.

Lemma fresh_consistent agents : Z.of_nat (size (up agents)) <= d_max d -> consistent (fresh_fleet agents, ∅).
Proof.
  intros Hcap. exists ∅. split; [intros i; by rewrite !lookup_empty|]. constructor; cbn; try done; try (intros; rewrite lookup_empty in *; done).
  - intros w i. rewrite lookup_empty. split; [done|]. intros (g & Hg & _). by rewrite lookup_empty in Hg.
  - unfold taken. cbn. by rewrite dom_empty_L, union_empty_r_L.
Qed.

Lemma reach_consistent x y : 0 < d_max d -> rtc moves x y -> consistent x -> consistent y.
Proof. intros Hb. induction 1 as [|x y z Hxy _ IH]; [done|]. intros Hc. by eapply IH, moves_consistent. Qed.

(** C9: However the requests of a broker interleave, and whatever the hub, the host
    and the clock answer them, the workers that run, start or are admitted to
    start never outnumber [broker.max_running_workers], if those that ran when it
    started did not: two starts at once cannot both take the last slot. *)
Theorem running_workers_are_capped agents s ts : 0 < d_max d -> Z.of_nat (size (up agents)) <= d_max d ->
  rtc moves (fresh_fleet agents, ∅) (s, ts) -> Z.of_nat (size (up (f_agents s) ∪ dom (f_admitting s))) <= d_max d.
Proof.
  intros Hb Hcap Hreach. apply fresh_consistent in Hcap. eapply reach_consistent in Hcap; [|done..]. destruct Hcap as (gs & _ & Hco). apply (co_cap _ _ Hco).
Qed.

End Pool.

End Fleet.
