(* ===== verification/Healer.v ===== *)
(** The broker's automatic heals ([internal/broker/reenrol.go], [tokenwatch.go]): a
    lapsed certificate bounces its agent so its boot enrols again, an expired hub
    token is reset. Each is a program over the questions of [Worker] and its own;
    a monitor shows what a heal has checked before it acts. *)

From stdpp Require Import sorting.
From S2P Require Import Prelude Go TreePath GoPath GoHttp Render Scion Effects Worker Workspace Dispatch DispatchSafe.

Module Healer.
Import TreePath GoPath Render Scion Effects Worker Workspace Dispatch DispatchSafe.
Open Scope prog_scope.

Inductive autoReenrol := ReenrolAll | ReenrolManager | ReenrolOff.
Definition reenrolQueueDepth : nat := 16.
Definition tokenHealCooldown : Duration := 15 * Minute.

(** The wiring a heal reads beside [Dispatch]. *)
Record HealConfig := MkHeal { hc_mode : autoReenrol; hc_hubTokens : bool; hc_ensureManager : bool }.

(** [ManagerChangeKind]; the errors of [EnsureManager] a heal tells apart; [ManagerOutcome]. *)
Inductive ManagerChangeKind := ManagerReenrol | ManagerTokenReset.
Inductive ensureErr := ErrManagerBusy | ErrHealRevoked | ErrManagerRefused | EnsureOther.
Record ManagerOutcome := MkOutcome { mo_Verb : string; mo_MountsUnverified : bool }.

(** What a heal asks: the questions of the worker routes; under [reenrolMu] the
    certificate heals' admission and its taking back, and the token resets'; the
    manager's lifecycle, which runs [UnderLock] and the staging; the hub tokens. *)
Inductive heal_action :=
| Host (q : action)
| AdmitHeal (cn : string) | UncountHeal (cn : string)
| TakeTokenHeal (slug : string) | ForgetTokenHeal (slug : string)
| EnsureManager (k : ManagerChangeKind)
| TokenExpired (slug : string) | ResetAuth (slug : string).
Definition heal_answer (q : heal_action) : Type :=
  match q with
  | Host q => answer q
  | AdmitHeal _ | TakeTokenHeal _ => bool
  | UncountHeal _ | ForgetTokenHeal _ => unit
  | EnsureManager _ => result ManagerOutcome ensureErr
  | TokenExpired _ => result bool string
  | ResetAuth _ => option string
  end.
Abbreviation H := (prog heal_answer).
Abbreviation hask := (@Effects.ask heal_action heal_answer).

Fixpoint lift {A} (p : P A) : H A := match p with Ret a => Ret a | Ask q k => Ask (answer := heal_answer) (Host q) (fun r => lift (k r)) end.
Abbreviation host q := (hask (Host q)).

(** * The token heals' cooldown *)

(** [tokenHealLast], under [reenrolMu]. *)
Definition take_token_heal (slug : string) (now : Time) (last : gmap string Time) : gmap string Time * bool :=
  match last !! slug with
  | Some t => if Sub now t <? tokenHealCooldown then (last, false) else (<[slug := now]> last, true)
  | None => (<[slug := now]> last, true)
  end.
Definition forgetTokenHeal (slug : string) (last : gmap string Time) : gmap string Time := delete slug last.

(** * Lapsed certificates *)

(** [lapseFunc]: the hook on a failed handshake, over the queue. *)
Definition lapseFunc (m : autoReenrol) (runtime : bool) : option (string -> list string -> list string) :=
  match m with
  | ReenrolOff => None
  | _ => if runtime then Some (fun cn queue => if (length queue <? reenrolQueueDepth)%nat then queue ++ [cn] else queue) else None
  end.

Section Heal.
Context `{Unicode, UnicodeTables} (d : Dispatch) (c : HealConfig).

Definition heal_audit (cn decision : string) : H unit := host (Audit "reenrol" cn decision).
Definition token_audit (cn decision : string) : H unit := host (Audit "hub-token" cn decision).

Inductive target := HealWorker (spec : WorkerSpec) | HealManager.
Definition healTarget (cn : string) : option target :=
  match hc_mode c with
  | ReenrolOff => None
  | m =>
    if match m with ReenrolManager => negb (str_eqb cn (d_manager d)) | _ => false end then None
    else match workerSpec d cn with
         | Some spec => Some (HealWorker spec)
         | None => if str_eqb cn (d_manager d) then Some HealManager else None
         end
  end.

(** [rewritableImage] of a record that may be missing. *)
Definition rewritable (a : option Agent) : bool := match a with Some a => rewritableImage a | None => false end.

Definition asleep_phase (phase : string) : bool := str_eqb phase PhaseSuspended || str_eqb phase PhaseStopped || str_eqb phase PhaseError.

(** The bounce itself, by the phase. *)
Definition bounce (slug phase : string) : H (result string string) :=
  if str_eqb phase PhaseRunning then
    let* err := host (Suspend slug (d_project d)) in
    match err with
    | Some e => Ret (Err e)
    | None => let* err := host (Resume slug (d_project d)) in Ret (match err with Some e => Err e | None => Ok "suspend+resume" end)
    end
  else if str_eqb phase PhaseSuspended || str_eqb phase PhaseStopped then
    let* err := host (Resume slug (d_project d)) in Ret (match err with Some e => Err e | None => Ok "resume" end)
  else if str_eqb phase PhaseError then
    let* err := host (ResumeForce slug (d_project d)) in Ret (match err with Some e => Err e | None => Ok "resume --force" end)
  else Ret (Err "not bounceable").

(** The bounce and the release of the slot taken for it. *)
Definition bounced (cn slug phase : string) (took : bool) : H (option string) :=
  let* r := bounce slug phase in
  let* verb := match r with Ok verb => Ret (Some verb) | Err _ => do* heal_audit cn "error"; Ret None end in
  do* lift (release slug took); Ret verb.

Definition bounceForReenrol (cn : string) (spec : WorkerSpec) : H (option string) :=
  let slug := w_Name spec in
  let* agents := host List in
  match agents with
  | Err _ => do* heal_audit cn "error"; Ret None
  | Ok agents =>
    let rec := FindAgent agents slug in
    let phase := match rec with Some a => PhaseLabel (a_Phase a) | None => "" end in
    if rewritable rec then do* heal_audit cn "deny"; Ret None
    else
      let* err := lift (verifyStrictWorkspace d spec) in
      match err with
      | Some _ => do* heal_audit cn "deny"; Ret None
      | None =>
        let* err := lift (checkSharedAccess d spec true) in
        match err with
        | Some _ => do* heal_audit cn "deny"; Ret None
        | None =>
          let* admitted := (if asleep_phase phase then lift (admitWorker d slug) else Ret (Ok false)) in
          match admitted with
          | Err e => do* heal_audit cn (match e with ErrWorkerCap => "deny" | AdmitReadFailed => "error" end); Ret None
          | Ok took => bounced cn slug phase took
          end
        end
      end
  end.

(** The part under the worker's lifecycle lock. *)
Definition heal_locked (cn : string) (spec : WorkerSpec) : H unit :=
  let slug := w_Name spec in
  let* revoked := host (IsRevoked cn) in
  if revoked then heal_audit cn "deny"
  else
    let* err := lift (checkAgentRole d slug) in
    match err with
    | Some _ => heal_audit cn "deny"
    | None =>
      let* agents := host List in
      match agents with
      | Err _ => heal_audit cn "error"
      | Ok agents =>
        if rewritable (FindAgent agents slug) then heal_audit cn "deny"
        else
          let* err := lift (stageWorkerTicket d spec) in
          match err with
          | Some _ => heal_audit cn "error"
          | None =>
            let* verb := bounceForReenrol cn spec in
            match verb with
            | None => Ret tt
            | Some _ => do* host (ResetReenrolTries cn); heal_audit cn "allow"
            end
          end
      end
    end.

Definition healLapsedManager (cn : string) : H unit :=
  if negb (hc_ensureManager c) then heal_audit cn "deny"
  else
    let* out := hask (EnsureManager ManagerReenrol) in
    match out with
    | Err ErrManagerBusy => do* hask (UncountHeal cn); heal_audit cn "error"
    | Err ErrHealRevoked | Err ErrManagerRefused => heal_audit cn "deny"
    | Err EnsureOther => heal_audit cn "error"
    | Ok _ => do* host (ResetReenrolTries cn); heal_audit cn "allow"
    end.

Definition healLapse (cn : string) : H unit :=
  match healTarget cn with
  | None => Ret tt
  | Some t =>
    let* ok := hask (AdmitHeal cn) in
    if negb ok then Ret tt
    else
      let* revoked := host (IsRevoked cn) in
      if revoked then heal_audit cn "deny"
      else
        match t with
        | HealManager => healLapsedManager cn
        | HealWorker spec =>
          let* err := lift (verifyStrictWorkspace d spec) in
          match err with
          | Some _ => heal_audit cn "deny"
          | None =>
            let* err := lift (checkSharedAccess d spec true) in
            match err with
            | Some _ => heal_audit cn "deny"
            | None =>
              let* busy := host (LockWorker cn) in
              match busy with
              | Some _ => do* hask (UncountHeal cn); heal_audit cn "error"
              | None => do* heal_locked cn spec; host (UnlockWorker cn)
              end
            end
          end
        end
  end.

(** * Expired hub tokens *)

Definition tokenWatchAgents : list string :=
  match hc_mode c with
  | ReenrolOff => []
  | ReenrolManager => [d_managerSlug d]
  | ReenrolAll => d_managerSlug d :: merge_sort GoHttp.str_le (elements (dom (d_workers d)))
  end.
Definition tokenWatchEnabled : bool := hc_hubTokens c && d_runtime d && negb (bool_decide (tokenWatchAgents = [])).

Definition resetManagerToken (cn : string) : H unit :=
  if negb (hc_ensureManager c) then token_audit cn "deny"
  else
    let* out := hask (EnsureManager ManagerTokenReset) in
    match out with
    | Err ErrManagerBusy => hask (ForgetTokenHeal (d_managerSlug d))
    | Err ErrHealRevoked => Ret tt
    | Err ErrManagerRefused => token_audit cn "deny"
    | Err EnsureOther => token_audit cn "error"
    | Ok out => if negb (is_empty (mo_Verb out)) then token_audit cn "allow" else Ret tt
    end.

(** The reset of a worker's token, under its lock. *)
Definition reset_worker (cn slug : string) : H unit :=
  let* revoked := host (IsRevoked cn) in
  if revoked then Ret tt
  else if negb (d_verifyRole d) then token_audit cn "deny"
  else
    let* err := host (VerifyRole slug) in
    match err with
    | Some _ => token_audit cn "deny"
    | None =>
      let* err := hask (ResetAuth slug) in
      match err with Some _ => token_audit cn "error" | None => token_audit cn "allow" end
    end.

Definition healOneHubToken (cn slug : string) : H unit :=
  let* taken := hask (TakeTokenHeal slug) in
  if negb taken then Ret tt
  else if str_eqb slug (d_managerSlug d) then resetManagerToken cn
  else
    match workerSpec d slug with
    | Some _ =>
      let* busy := host (LockWorker slug) in
      match busy with
      | Some _ => hask (ForgetTokenHeal slug)
      | None => do* reset_worker cn slug; host (UnlockWorker slug)
      end
    | None => reset_worker cn slug
    end.

(** One agent of a pass over the hub's list. *)
Definition heal_agent (recs : list Agent) (slug : string) : H unit :=
  match FindAgent recs slug with
  | None => Ret tt
  | Some a =>
    if negb (str_eqb (PhaseLabel (a_Phase a)) PhaseRunning) || negb (ContainerLive (a_ContainerStatus a)) then Ret tt
    else
      let cn := if str_eqb slug (d_managerSlug d) then d_manager d else slug in
      let* revoked := host (IsRevoked cn) in
      if revoked then Ret tt
      else
        let* expired := hask (TokenExpired slug) in
        match expired with Ok true => healOneHubToken cn slug | _ => Ret tt end
  end.
Fixpoint heal_agents (recs : list Agent) (slugs : list string) : H unit :=
  match slugs with [] => Ret tt | slug :: slugs => do* heal_agent recs slug; heal_agents recs slugs end.

Definition healHubTokens : H unit :=
  if negb tokenWatchEnabled then Ret tt
  else
    let* recs := host List in
    match recs with Err _ => Ret tt | Ok recs => heal_agents recs tokenWatchAgents end.

End Heal.

(** * What a heal has checked before it acts *)

(** The monitor of the worker routes, and beside it: the certificate heal admitted,
    the agents of the hub's last list, whether the last answer on a revocation was
    no, the agent whose token was said to have expired, and the one whose cooldown
    was taken. *)
Record hghost := MkHGhost { h_host : ghost; h_admitted : bool; h_recs : option (list Agent); h_spared : bool; h_expired : option string; h_taken : option string }.
Definition hidle : hghost := MkHGhost idle false None false None None.

Definition hobserve (h : hghost) (e : event heal_answer) : hghost :=
  match e with
  | Ev q a =>
    match q return heal_answer q -> hghost with
    | Host q => fun a =>
      let g := observe (h_host h) (Ev q a) in
      match q return answer q -> hghost with
      | List => fun r => MkHGhost g (h_admitted h) (match r with Ok recs => Some recs | Err _ => h_recs h end) (h_spared h) (h_expired h) (h_taken h)
      | IsRevoked _ => fun revoked => MkHGhost g (h_admitted h) (h_recs h) (negb revoked) (h_expired h) (h_taken h)
      | _ => fun _ => MkHGhost g (h_admitted h) (h_recs h) (h_spared h) (h_expired h) (h_taken h)
      end a
    | AdmitHeal _ => fun ok => MkHGhost (h_host h) ok (h_recs h) (h_spared h) (h_expired h) (h_taken h)
    | UncountHeal _ => fun _ => MkHGhost (h_host h) false (h_recs h) (h_spared h) (h_expired h) (h_taken h)
    | TokenExpired slug => fun r => MkHGhost (h_host h) (h_admitted h) (h_recs h) (h_spared h) (match r with Ok true => Some slug | _ => None end) (h_taken h)
    | TakeTokenHeal slug => fun ok => MkHGhost (h_host h) (h_admitted h) (h_recs h) (h_spared h) (h_expired h) (if (ok : bool) then Some slug else None)
    | ForgetTokenHeal _ => fun _ => MkHGhost (h_host h) (h_admitted h) (h_recs h) (h_spared h) (h_expired h) None
    | EnsureManager _ | ResetAuth _ => fun _ => h
    end a
  end.

Section Rules.
Context (d : Dispatch).

(** The worker's lock is held, and under it the broker said that it is not revoked,
    and its stored role passed where it is checked. *)
Record vetted (g : ghost) (w : string) : Prop := MkVetted { ve_lock : g_lock g = Some w; ve_alive : g_alive g = true; ve_roled : d_verifyRole d = true -> g_roled g = true }.

(** The hub's last list showed no record of it on an image name the hub rewrites. *)
Definition pinned_record (g : ghost) : Prop := exists r, r ∈ g_reads g /\ rewritable r = false.

(** A bounce may resume it: vetted, with a ticket staged and the manager's pins found
    in place, its record read on a fixed image, and a running-worker slot taken
    where they are counted, or the record running, which holds its own. *)
Definition bounceable (g : ghost) (w : string) : Prop :=
  vetted g w /\ g_staged g = true /\ (d_sharedGuard d = true -> g_guarded g = true)
  /\ exists a, Some a ∈ g_reads g /\ Fixed (a_Image a) = true /\ (0 < d_max d -> (0 < g_slots g)%nat \/ PhaseLabel (a_Phase a) = PhaseRunning).

Definition runs_live (recs : option (list Agent)) (slug : string) : Prop :=
  exists l a, recs = Some l /\ FindAgent l slug = Some a /\ PhaseLabel (a_Phase a) = PhaseRunning /\ ContainerLive (a_ContainerStatus a) = true.

Definition heal_allowed (h : hghost) (q : heal_action) : Prop :=
  let g := h_host h in
  match q with
  | Host (IssueTicket w) => vetted g w /\ pinned_record g /\ h_admitted h = true /\ is_Some (d_workers d !! w)
  | Host (StageTicket w bs) => vetted g w /\ exists t spec, g_issued g = Some t /\ d_workers d !! w = Some spec
      /\ bs = MkBootstrap t (d_brokerCAPEM d) (d_brokerURL d) w (w_Claude spec)
  | Host (Resume w p) | Host (ResumeForce w p) => bounceable g w /\ h_admitted h = true /\ p = d_project d
  | Host (Start _) | Host (ResumeTask _ _ _) | Host (Stop _ _) | Host (PurgeWorker _) | Host (EnvSet _ _ _) | Host (BeginSession _) | Host (CommitSession _)
  | Host (RecycleRefund _) | Host (RecycleTake _) => False
  | Host q => allowed d false g q
  | AdmitHeal _ => frame idle g
  | UncountHeal _ => h_admitted h = true
  | TakeTokenHeal slug => frame idle g /\ h_expired h = Some slug
  | ForgetTokenHeal slug => h_taken h = Some slug
  | EnsureManager ManagerReenrol => frame idle g /\ h_admitted h = true /\ h_spared h = true
  | EnsureManager ManagerTokenReset => frame idle g /\ h_taken h = Some (d_managerSlug d) /\ h_expired h = Some (d_managerSlug d)
  | TokenExpired slug => runs_live (h_recs h) slug /\ h_spared h = true
  | ResetAuth w => vetted g w /\ d_verifyRole d = true /\ h_taken h = Some w /\ h_expired h = Some w /\ w <> d_managerSlug d
  end.
End Rules.

Section Safe.
Context `{Unicode, UnicodeTables} (d : Dispatch) (c : HealConfig).

Abbreviation hsafe := (Effects.safe hobserve (heal_allowed d)).

(** ** The worker routes' own steps *)

(** Questions whose rule is the worker routes'. *)
Definition shared_rule (q : action) : bool :=
  match q with
  | IssueTicket _ | StageTicket _ _ | Resume _ _ | ResumeForce _ _ | Start _ | ResumeTask _ _ _ | Stop _ _ | PurgeWorker _ | EnvSet _ _ _ | BeginSession _ | CommitSession _
  | RecycleRefund _ | RecycleTake _ | IsRevoked _ => false
  | _ => true
  end.
Fixpoint avoids {A} (p : P A) : Prop := match p with Ret _ => True | Ask q k => shared_rule q = true /\ forall r, avoids (k r) end.

Lemma avoids_bind {A B} (p : P A) (f : A -> P B) : avoids p -> (forall a, avoids (f a)) -> avoids (bind p f).
Proof. induction p as [a|q k IH]; cbn [avoids bind]; [auto|]. intros [Hq Hk] Hf. split; [done|]. intros r. by apply IH. Qed.
Lemma avoids_ask {A} q (k : answer q -> P A) : shared_rule q = true -> (forall r, avoids (k r)) -> avoids (bind (ask q) k).
Proof. by split. Qed.
Lemma avoids_quiet {A} (R : A -> Prop) (p : P A) : brings R p -> avoids p.
Proof. induction p as [a|q k IH]; cbn [avoids brings]; [done|]. intros [Hq Hk]. split; [by destruct q|]. intros r. by apply IH. Qed.

(** Beside the host's monitor nothing changes but the list heard. *)
Definition beside (h h' : hghost) : Prop := h_admitted h' = h_admitted h /\ h_spared h' = h_spared h /\ h_expired h' = h_expired h /\ h_taken h' = h_taken h.
#[export] Instance beside_preorder : PreOrder beside.
Proof. split; [done|]. intros h1 h2 h3 (? & ? & ? & ?) (? & ? & ? & ?). repeat split; congruence. Qed.

Lemma safe_lift {A} (p : P A) : avoids p -> forall h (Q : ghost -> A -> Prop), Effects.safe observe (allowed d false) p (h_host h) Q -> hsafe (lift p) h (fun h' a => Q (h_host h') a /\ beside h h').
Proof.
  induction p as [a|q k IH]; cbn [avoids lift Effects.safe]; [done|]. intros [Hq Hk] h Q [Hok Hr]. split; [by destruct q|]. intros r.
  assert (E : exists recs, hobserve h (Ev (answer := heal_answer) (Host q) r) = MkHGhost (observe (h_host h) (Ev q r)) (h_admitted h) recs (h_spared h) (h_expired h) (h_taken h)) by (destruct q; try done; by eexists).
  destruct E as [recs ->]. apply (IH r (Hk r) (MkHGhost _ _ _ _ _ _)). apply Hr.
Qed.

(** ** Steps *)

Lemma hsafe_step {A} q (k : heal_answer q -> H A) h (Q : hghost -> A -> Prop) : heal_allowed d h q -> (forall r, hsafe (k r) (hobserve h (Ev q r)) Q) -> hsafe (bind (hask q) k) h Q.
Proof. intros Ha Hk. cbn [bind Effects.ask Effects.safe]. by split. Qed.
Lemma hsafe_part {A B} (p : H A) (k : A -> H B) h (Q : hghost -> B -> Prop) (S : hghost -> A -> Prop) : hsafe p h S -> (forall h' a, S h' a -> hsafe (k a) h' Q) -> hsafe (bind p k) h Q.
Proof. intros Hp Hk. apply safe_bind. by eapply safe_mono. Qed.
Lemma hsafe_lift {A B} (p : P A) (k : A -> H B) h (Q : hghost -> B -> Prop) (S : ghost -> A -> Prop) : avoids p -> Effects.safe observe (allowed d false) p (h_host h) S ->
  (forall h' a, S (h_host h') a -> beside h h' -> hsafe (k a) h' Q) -> hsafe (bind (lift p) k) h Q.
Proof. intros Hp Hs Hk. eapply hsafe_part; [by apply safe_lift|]. intros h' a [HS Hb]. by apply Hk. Qed.
Lemma hsafe_quiet {A B} (p : P A) (k : A -> H B) h (Q : hghost -> B -> Prop) : quiet p -> (forall h' a, h_host h' = h_host h -> beside h h' -> hsafe (k a) h' Q) -> hsafe (bind (lift p) k) h Q.
Proof. intros Hp Hk. eapply hsafe_lift; [by eapply avoids_quiet|eapply (brings_safe d false _ _ _ (fun g _ => g = h_host h)); [exact Hp|done]|done]. Qed.

Lemma hsafe_audit op cn dec h (Q : hghost -> unit -> Prop) : Q h tt -> hsafe (host (Audit op cn dec)) h Q.
Proof. intros HQ. split; [done|]. intros []. by destruct h. Qed.
Lemma hsafe_audit_then {A} op cn dec (k : H A) h (Q : hghost -> A -> Prop) : hsafe k h Q -> hsafe (bind (host (Audit op cn dec)) (fun _ => k)) h Q.
Proof. intros Hk. apply hsafe_step; [done|]. intros []. by destruct h. Qed.

(** The hub's list, read under the lock. *)
Lemma hsafe_list {A} (k : result (list Agent) string -> H A) h w (Q : hghost -> A -> Prop) : g_lock (h_host h) = Some w ->
  (forall h' r, beside h h' -> h_host h' = match r with Ok agents => hear agents w (h_host h) | Err _ => h_host h end -> hsafe (k r) h' Q) -> hsafe (bind (host List) k) h Q.
Proof. intros Hl Hk. apply hsafe_step; [done|]. intros [agents|e]; apply Hk; try done; unfold hobserve, observe; cbn; by rewrite Hl. Qed.

Lemma checkAgentRole_avoids w : avoids (checkAgentRole d w).
Proof. unfold checkAgentRole. by destruct (d_verifyRole d). Qed.
Lemma checkSharedAccess_avoids spec : avoids (checkSharedAccess d spec true).
Proof.
  unfold checkSharedAccess. apply avoids_bind; [by destruct (d_sharedGuard d)|]. intros [[|]|]; [done..|]. eapply avoids_quiet, refuseStaleShares_quiet.
Qed.
Lemma admitWorker_avoids w : avoids (admitWorker d w).
Proof.
  unfold admitWorker. destruct (_ <=? _); [done|]. apply avoids_ask; [done|]. intros []. apply avoids_ask; [done|]. intros [agents|e]; [|by apply avoids_ask].
  apply avoids_ask; [done|]. intros m. destruct (_ <=? _); [by apply avoids_ask|]. apply avoids_ask; [done|]. intros []. by apply avoids_ask.
Qed.
Lemma release_avoids w took : avoids (release w took).
Proof. unfold release. destruct took; [|done]. apply avoids_ask; [done|]. intros []. by apply avoids_ask. Qed.

(** The manager's pins and the record's mounts. *)
Lemma pins_safe spec g : Effects.safe observe (allowed d false) (checkSharedAccess d spec true) g
  (fun g' r => frame g g' /\ (r = None -> grown g g' /\ (d_sharedGuard d = true -> g_guarded g' = true))).
Proof.
  unfold checkSharedAccess. destruct (d_sharedGuard d).
  - apply safe_step; [done|]. intros [[|]|]; unfold observe; cbn [e_asked e_answer]; [by split..|].
    eapply brings_safe; [apply refuseStaleShares_quiet|]. intros r _. split; [done|]. intros _. split; [by constructor|done].
  - eapply brings_safe; [apply refuseStaleShares_quiet|]. intros r _. by repeat split.
Qed.

Definition set_host (g : ghost) (h : hghost) : hghost := MkHGhost g (h_admitted h) (h_recs h) (h_spared h) (h_expired h) (h_taken h).
Lemma hobserve_issued h w t : g_lock (h_host h) = Some w -> hobserve h (Ev (answer := heal_answer) (Host (IssueTicket w)) (Ok t)) = set_host (set_issued t (h_host h)) h.
Proof. intros Hl. unfold hobserve, observe. cbn. by rewrite (holds_under _ _ Hl). Qed.
Lemma hobserve_staged h w bs : g_lock (h_host h) = Some w -> hobserve h (Ev (answer := heal_answer) (Host (StageTicket w bs)) None) = set_host (set_staged (h_host h)) h.
Proof. intros Hl. unfold hobserve, observe. cbn. by rewrite (holds_under _ _ Hl). Qed.

Lemma stage_safe spec h : known d spec -> vetted d (h_host h) (w_Name spec) -> pinned_record (h_host h) -> h_admitted h = true ->
  hsafe (lift (stageWorkerTicket d spec)) h (fun h' err => beside h h' /\ match err with None => grown (h_host h) (h_host h') /\ g_staged (h_host h') = true | Some _ => frame (h_host h) (h_host h') end).
Proof.
  intros Hk Hv Hp Ha. pose proof (ve_lock _ _ _ Hv) as Hl. unfold stageWorkerTicket. destruct (negb _); [done|]. destruct (is_empty _); [done|].
  unfold bootstrapFor. cbn [bind Effects.ask lift Effects.safe]. split; [split_and!; try done; by exists spec|]. intros [t|e]; cbn [bind lift Effects.safe]; [|by repeat constructor].
  rewrite hobserve_issued by done. split.
  { split; [by destruct Hv|]. by exists t, spec. }
  intros [e|]; cbn [lift Effects.safe]; [by repeat constructor|]. rewrite hobserve_staged by done. by repeat constructor.
Qed.

Lemma grown_vetted g g' w : grown g g' -> vetted d g w -> vetted d g' w.
Proof. intros Hg [Hl Ha Hr]. split; [rewrite (fr_lock _ _ (gr_frame _ _ Hg)); done|by apply Hg|intros Hv; by apply Hg, Hr]. Qed.

(** ** The bounce *)

Definition bounces (phase : string) : bool := str_eqb phase PhaseRunning || asleep_phase phase.
Lemma bounce_safe slug phase h : is_Some (d_workers d !! slug) -> h_admitted h = true -> (bounces phase = true -> bounceable d (h_host h) slug) ->
  hsafe (bounce d slug phase) h (fun h' _ => h_host h' = h_host h).
Proof.
  intros Hw Ha Hb. unfold bounce, bounces, asleep_phase in *.
  destruct (str_eqb phase PhaseRunning); cbn [orb] in Hb.
  { specialize (Hb eq_refl). pose proof (ve_lock _ _ _ (proj1 Hb)) as Hl. apply hsafe_step; [done|]. intros [e|]; [done|]. apply hsafe_step; [done|by intros [e|]]. }
  destruct (str_eqb phase PhaseSuspended || str_eqb phase PhaseStopped); cbn [orb] in Hb; [specialize (Hb eq_refl); apply hsafe_step; [done|by intros [e|]]|].
  destruct (str_eqb phase PhaseError); [specialize (Hb eq_refl); apply hsafe_step; [done|by intros [e|]]|done].
Qed.

Definition phase_of_record (rec : option Agent) : string := match rec with Some a => PhaseLabel (a_Phase a) | None => "" end.
(** The state the bounce starts in: [g] under the lock, and the slot taken if the record sleeps. *)
Definition slotted (g g' : ghost) (phase : string) (took : bool) : Prop :=
  grown (if took then set_slots (S (g_slots g)) g else g) g' /\ (0 < d_max d -> took = true \/ asleep_phase phase = false).

Lemma bounced_safe cn spec rec took h g : known d spec -> h_admitted h = true -> vetted d g (w_Name spec) -> under (w_Name spec) g -> g_staged g = true ->
  (d_sharedGuard d = true -> g_guarded g = true) -> rec ∈ g_reads g -> rewritable rec = false -> slotted g (h_host h) (phase_of_record rec) took ->
  hsafe (bounced d cn (w_Name spec) (phase_of_record rec) took) h (fun h' _ => frame g (h_host h')).
Proof.
  intros Hk Ha Hv Hu Hst Hgd Hin Er [G Hs]. unfold bounced.
  assert (Hrel : forall h5 (verb : option string), h_host h5 = h_host h -> hsafe (do* lift (release (w_Name spec) took); Ret verb) h5 (fun h' _ => frame g (h_host h'))).
  { intros h5 verb E5. eapply hsafe_lift; [apply release_avoids|apply (release_safe _ _ _ took g); [done|rewrite E5; apply G]|]. by intros h6 [] F6 _. }
  eapply hsafe_part; [apply bounce_safe; [by exists spec|done|]|].
  - intros Hbo. destruct rec as [a|]; [|done]. cbn [phase_of_record] in *. split_and!.
    + assert (Hv' : vetted d (if took then set_slots (S (g_slots g)) g else g) (w_Name spec)) by (destruct took; by destruct Hv). by eapply grown_vetted.
    + apply G. by destruct took.
    + intros E. apply G. destruct took; by apply Hgd.
    + exists a. split_and!; [apply G; by destruct took|unfold rewritable, rewritableImage in Er; by destruct (Fixed (a_Image a))|].
      intros Hm. destruct (Hs Hm) as [->|Has]; [left|right].
      * rewrite (fr_slots _ _ (gr_frame _ _ G)). cbn. lia.
      * unfold bounces in Hbo. rewrite Has, orb_false_r in Hbo. by apply str_eqb_eq in Hbo.
  - intros h5 [verb|e] E5; [by apply Hrel|]. apply safe_bind, hsafe_audit_then. by apply Hrel.
Qed.

Lemma bounceForReenrol_safe cn spec h : known d spec -> h_admitted h = true -> vetted d (h_host h) (w_Name spec) -> under (w_Name spec) (h_host h) -> g_staged (h_host h) = true ->
  hsafe (bounceForReenrol d cn spec) h (fun h' _ => frame (h_host h) (h_host h')).
Proof.
  intros Hk Ha Hv Hu Hst. unfold bounceForReenrol. apply (hsafe_list _ _ (w_Name spec)); [apply Hu|]. intros h1 [agents|e] Hb1 E1; [|apply hsafe_audit_then; cbn [Effects.safe]; by rewrite E1].
  assert (G1 : grown (h_host h) (h_host h1)) by (rewrite E1; apply hear_grown). assert (F1 := gr_frame _ _ G1).
  assert (Hin : FindAgent agents (w_Name spec) ∈ g_reads (h_host h1)) by (rewrite E1; by left). cbv zeta. fold (phase_of_record (FindAgent agents (w_Name spec))). set (rec := FindAgent agents (w_Name spec)) in *.
  destruct (rewritable rec) eqn:Er; [by apply hsafe_audit_then|]. apply hsafe_quiet; [apply verifyStrictWorkspace_quiet|]. intros h2 [e|] E2 Hb2; [apply hsafe_audit_then; cbn [Effects.safe]; by rewrite E2|].
  eapply hsafe_lift; [apply checkSharedAccess_avoids|apply pins_safe|]. intros h3 r [F3 Hr3] Hb3. rewrite E2 in F3, Hr3. destruct r as [e|]; [apply hsafe_audit_then; cbn [Effects.safe]; by etrans|].
  destruct (Hr3 eq_refl) as [G3 Hg3]. assert (G : grown (h_host h) (h_host h3)) by by etrans.
  assert (Hgo : forall h4 took, beside h3 h4 -> slotted (h_host h3) (h_host h4) (phase_of_record rec) took -> hsafe (bounced d cn (w_Name spec) (phase_of_record rec) took) h4 (fun h' _ => frame (h_host h) (h_host h'))).
  { intros h4 took Hb4 Hsl. eapply safe_mono; [apply (bounced_safe cn spec rec took h4 (h_host h3)); try done|].
    - destruct Hb1 as [A1 _], Hb2 as [A2 _], Hb3 as [A3 _], Hb4 as [A4 _]. congruence.
    - by eapply grown_vetted.
    - by eapply grown_under.
    - by apply G.
    - by apply G3.
    - intros h5 v F5. etrans; [apply G|exact F5]. }
  destruct (asleep_phase (phase_of_record rec)) eqn:Eas.
  - eapply hsafe_lift; [apply admitWorker_avoids|apply admitWorker_safe; by eapply grown_under|]. intros h4 [took|e] H4 Hb4; cbn in H4.
    + apply Hgo; [done|]. split; [apply H4|]. intros Hm. left. by apply H4.
    + apply hsafe_audit_then. cbn [Effects.safe]. etrans; [apply G|apply H4].
  - cbn [bind]. apply Hgo; [reflexivity|]. split; [reflexivity|by right].
Qed.

(** ** A lapsed certificate *)

Lemma heal_locked_safe spec h : known d spec -> h_host h = locked (w_Name spec) -> h_admitted h = true ->
  hsafe (heal_locked d (w_Name spec) spec) h (fun h' _ => frame (locked (w_Name spec)) (h_host h')).
Proof.
  intros Hk Eh Ha. unfold heal_locked. apply hsafe_step; [done|]. intros revoked.
  set (h0 := hobserve h _). assert (E0 : h_host h0 = set_alive (negb revoked) (locked (w_Name spec))).
  { unfold h0, hobserve, observe. cbn. rewrite Eh. unfold holds. cbn. by rewrite bool_decide_eq_true_2. }
  assert (A0 : h_admitted h0 = true) by done. clearbody h0. destruct revoked; [apply hsafe_audit; by rewrite E0|]. cbn [negb] in E0.
  eapply hsafe_lift; [apply checkAgentRole_avoids|apply checkAgentRole_safe; by rewrite E0|]. intros h1 [e|] K1 Hb1; rewrite E0 in K1; [apply hsafe_audit; by trans (set_alive true (locked (w_Name spec)))|].
  destruct K1 as [G1 Hrole]. assert (F1 : frame (locked (w_Name spec)) (h_host h1)) by (trans (set_alive true (locked (w_Name spec))); [done|apply G1]).
  assert (Hv1 : vetted d (h_host h1) (w_Name spec)) by (split; [apply F1|by apply G1|done]).
  apply (hsafe_list _ _ (w_Name spec)); [apply Hv1|]. intros h2 [agents|e] Hb2 E2; [|apply hsafe_audit; by rewrite E2].
  assert (G2 : grown (h_host h1) (h_host h2)) by (rewrite E2; apply hear_grown). assert (F2 : frame (locked (w_Name spec)) (h_host h2)) by (etrans; [exact F1|apply G2]).
  assert (A2 : h_admitted h2 = true) by (destruct Hb1 as [B1 _], Hb2 as [B2 _]; congruence).
  destruct (rewritable _) eqn:Er; [by apply hsafe_audit|]. eapply hsafe_part; [apply stage_safe; [done|by eapply grown_vetted| |done]|].
  { eexists. split; [|exact Er]. rewrite E2. by left. }
  intros h3 [e|] [Hb3 K3]; [apply hsafe_audit; by etrans|]. destruct K3 as [G3 Hst3]. assert (F3 : frame (locked (w_Name spec)) (h_host h3)) by (etrans; [exact F2|apply G3]).
  eapply hsafe_part; [apply bounceForReenrol_safe; [done|destruct Hb3 as [B3 _]; congruence|by eapply grown_vetted, grown_vetted|by eapply frame_under|done]|].
  intros h4 [verb|] F4; [|cbn; by etrans]. apply hsafe_step; [done|]. intros []. apply hsafe_audit. cbn. by etrans.
Qed.

Abbreviation hidles := (fun h' _ => frame idle (h_host h')).

Lemma unlock_safe w h : frame (locked w) (h_host h) -> hsafe (host (UnlockWorker w)) h hidles.
Proof. intros [F1 F2 F3]. split; [by repeat split|]. by intros []. Qed.

Hypothesis declared : forall name spec, d_workers d !! name = Some spec -> w_Name spec = name.

Lemma healLapsedManager_safe cn h : frame idle (h_host h) -> h_admitted h = true -> h_spared h = true -> hsafe (healLapsedManager c cn) h hidles.
Proof.
  intros Eh Ha Hs. unfold healLapsedManager. destruct (negb _); [by apply hsafe_audit|]. apply hsafe_step; [done|]. change (hobserve h _) with h.
  intros [out|[| | |]]; [apply hsafe_step; [done|]; intros []; by apply hsafe_audit| |by apply hsafe_audit..]. apply hsafe_step; [done|]. intros []. by apply hsafe_audit.
Qed.

Lemma heard_spared h w (revoked : bool) : frame idle (h_host h) -> hobserve h (Ev (answer := heal_answer) (Host (IsRevoked w)) revoked) = MkHGhost (h_host h) (h_admitted h) (h_recs h) (negb revoked) (h_expired h) (h_taken h).
Proof. intros [El _ _]. unfold hobserve, observe. cbn. unfold holds. by rewrite El. Qed.

Lemma healTarget_worker cn spec : healTarget d c cn = Some (HealWorker spec) -> known d spec /\ w_Name spec = cn.
Proof.
  unfold healTarget, workerSpec. intros Et. assert (Hw : d_workers d !! cn = Some spec).
  { destruct (hc_mode c); [| |done]; destruct (d_workers d !! cn); repeat (case_match; try done); congruence. }
  pose proof (declared _ _ Hw) as En. split; [by unfold known; rewrite En|done].
Qed.

Lemma healLapse_safe cn h : frame idle (h_host h) -> hsafe (healLapse d c cn) h hidles.
Proof.
  intros Eh. unfold healLapse. destruct (healTarget d c cn) as [t|] eqn:Et; [|done]. apply hsafe_step; [done|]. intros ok. destruct ok; [|done]. cbn [negb].
  apply hsafe_step; [done|]. intros revoked. rewrite heard_spared by done. destruct revoked; [by apply hsafe_audit|].
  destruct t as [spec|]; [|by apply healLapsedManager_safe]. destruct (healTarget_worker _ _ Et) as [Hk <-].
  apply hsafe_quiet; [apply verifyStrictWorkspace_quiet|]. intros h1 [e|] E1 Hb1; [apply hsafe_audit; by rewrite E1|].
  eapply hsafe_lift; [apply checkSharedAccess_avoids|apply pins_safe|]. intros h2 r [F2 _] Hb2. rewrite E1 in F2. assert (I2 : frame idle (h_host h2)) by (etrans; [exact Eh|exact F2]).
  assert (A2 : h_admitted h2 = true) by (destruct Hb1 as [B1 _], Hb2 as [B2 _]; cbn in B1; congruence). clear E1 F2.
  destruct r as [e|]; [by apply hsafe_audit|]. apply hsafe_step; [split; apply I2|]. intros [e|].
  - apply hsafe_step; [done|]. intros []. by apply hsafe_audit.
  - eapply hsafe_part; [apply heal_locked_safe; done|]. intros h3 [] F3. by apply unlock_safe.
Qed.

(** ** Expired hub tokens *)

Lemma resetManagerToken_safe cn h : frame idle (h_host h) -> h_taken h = Some (d_managerSlug d) -> h_expired h = Some (d_managerSlug d) -> hsafe (resetManagerToken d c cn) h hidles.
Proof.
  intros Eh Ht He. unfold resetManagerToken. destruct (negb _); [by apply hsafe_audit|]. apply hsafe_step; [done|]. change (hobserve h _) with h.
  intros [out|[| | |]]; [destruct (negb _); [by apply hsafe_audit|done]|by split|done|by apply hsafe_audit..].
Qed.

Lemma reset_worker_safe slug h : h_host h = locked slug -> slug <> d_managerSlug d -> h_taken h = Some slug -> h_expired h = Some slug ->
  hsafe (reset_worker d slug slug) h (fun h' _ => frame (locked slug) (h_host h')).
Proof.
  intros Eh Hne Ht He. unfold reset_worker. apply hsafe_step; [done|]. intros revoked.
  assert (E0 : hobserve h (Ev (answer := heal_answer) (Host (IsRevoked slug)) revoked) = MkHGhost (set_alive (negb revoked) (locked slug)) (h_admitted h) (h_recs h) (negb revoked) (h_expired h) (h_taken h)).
  { unfold hobserve, observe. cbn. rewrite Eh. unfold holds. cbn. by rewrite bool_decide_eq_true_2. }
  rewrite E0. destruct revoked; [done|]. destruct (d_verifyRole d) eqn:Ev; [|by apply hsafe_audit]. cbn [negb]. apply hsafe_step; [done|].
  intros err. set (h1 := hobserve _ _). assert (E1 : h_host h1 = set_roled (match err with None => true | Some _ => false end) (set_alive true (locked slug))).
  { unfold h1, hobserve, observe. cbn. unfold holds. cbn. by rewrite bool_decide_eq_true_2. }
  assert (T1 : h_taken h1 = Some slug) by done. assert (X1 : h_expired h1 = Some slug) by done. clearbody h1. destruct err as [e|]; [apply hsafe_audit; by rewrite E1|].
  apply hsafe_step; [split_and!; try done; rewrite E1; by split|]. change (hobserve h1 _) with h1. intros [e|]; apply hsafe_audit; by rewrite E1.
Qed.

Lemma healOneHubToken_safe cn slug h : frame idle (h_host h) -> h_expired h = Some slug -> (slug <> d_managerSlug d -> cn = slug /\ is_Some (d_workers d !! slug)) ->
  hsafe (healOneHubToken d c cn slug) h hidles.
Proof.
  intros Eh He Hcn. unfold healOneHubToken. apply hsafe_step; [done|]. intros ok. destruct ok; [|done]. cbn [negb].
  destruct (str_eqb slug (d_managerSlug d)) eqn:Em; [apply str_eqb_eq in Em as ->; by apply resetManagerToken_safe|]. apply str_eqb_neq in Em. destruct (Hcn Em) as [-> [spec Hs]].
  unfold workerSpec. rewrite Hs. apply hsafe_step; [split; apply Eh|]. intros [e|]; [by split|]. eapply hsafe_part; [by apply reset_worker_safe|]. intros h3 [] F3. by apply unlock_safe.
Qed.

(** A program that does not ask for the hub's list leaves the one heard. *)
Fixpoint lists_none {A} (p : H A) : Prop := match p with Ret _ => True | Ask q k => q <> Host List /\ forall r, lists_none (k r) end.
Lemma safe_keeps {A} (p : H A) : lists_none p -> forall h (Q : hghost -> A -> Prop), hsafe p h Q -> hsafe p h (fun h' a => Q h' a /\ h_recs h' = h_recs h).
Proof.
  induction p as [a|q k IH]; cbn [lists_none Effects.safe]; [done|]. intros [Hq Hk] h Q [Hok Hr]. split; [done|]. intros r.
  assert (E : h_recs (hobserve h (Ev q r)) = h_recs h) by (destruct q as [q| | | | | | |]; try done; by destruct q). rewrite <- E. by apply IH.
Qed.
Lemma lists_none_bind {A B} (p : H A) (f : A -> H B) : lists_none p -> (forall a, lists_none (f a)) -> lists_none (bind p f).
Proof. induction p as [a|q k IH]; cbn [lists_none bind]; [auto|]. intros [Hq Hk] Hf. split; [done|]. intros r. by apply IH. Qed.
Lemma heal_keeps cn slug : lists_none (healOneHubToken d c cn slug).
Proof.
  assert (Ha : forall dec, lists_none (token_audit cn dec)) by (intros dec; by split).
  assert (Hm : lists_none (resetManagerToken d c cn)).
  { unfold resetManagerToken. destruct (negb _); [done|]. split; [done|]. intros [out|[| | |]]; try done. cbn. by destruct (negb _). }
  assert (Hw : lists_none (reset_worker d cn slug)).
  { unfold reset_worker. split; [done|]. intros [|]; [done|]. cbn. destruct (negb _); [done|]. split; [done|]. intros [e|]; [done|]. split; [done|]. by intros [e|]. }
  unfold healOneHubToken. split; [done|]. intros [|]; [|done]. cbn. destruct (str_eqb _ _); [done|]. destruct (workerSpec d slug); [|done]. split; [done|].
  intros [e|]; [by split|]. change (lists_none (bind (reset_worker d cn slug) (fun _ => host (UnlockWorker slug)))). apply lists_none_bind; [done|]. intros []. by split.
Qed.

Lemma heal_agent_safe recs slug h : frame idle (h_host h) -> h_recs h = Some recs -> (slug <> d_managerSlug d -> is_Some (d_workers d !! slug)) ->
  hsafe (heal_agent d c recs slug) h (fun h' _ => frame idle (h_host h') /\ h_recs h' = Some recs).
Proof.
  intros Eh Er Hw. unfold heal_agent. destruct (FindAgent recs slug) as [a|] eqn:Ef; [|done]. destruct (_ || _) eqn:Ep; [done|]. apply orb_false_elim in Ep as [Ep Ec].
  apply negb_false_iff in Ep, Ec. apply str_eqb_eq in Ep. set (cn := if str_eqb slug _ then _ else _). apply hsafe_step; [done|]. intros revoked. rewrite heard_spared by done.
  destruct revoked; [done|]. apply hsafe_step; [split; [by exists recs, a|done]|]. intros [[|]|e]; [|done..]. set (h1 := hobserve _ _).
  assert (R1 : h_recs h1 = Some recs) by done. rewrite <- R1. eapply safe_keeps; [apply heal_keeps|]. apply healOneHubToken_safe; [done..|].
  intros Hne. split; [unfold cn; by rewrite (proj2 (str_eqb_neq _ _) Hne)|by apply Hw].
Qed.

Lemma healHubTokens_safe h : frame idle (h_host h) -> hsafe (healHubTokens d c) h hidles.
Proof.
  intros Eh. unfold healHubTokens. destruct (negb _); [done|]. apply hsafe_step; [done|]. intros [recs|e]; set (h1 := hobserve _ _).
  2:{ exact Eh. }
  assert (E1 : frame idle (h_host h1)) by (unfold h1, hobserve, observe; cbn; by rewrite (fr_lock _ _ Eh)). assert (R1 : h_recs h1 = Some recs) by done. clearbody h1.
  assert (Hall : Forall (fun slug => slug <> d_managerSlug d -> is_Some (d_workers d !! slug)) (tokenWatchAgents d c)).
  { unfold tokenWatchAgents. destruct (hc_mode c); [|by constructor|done]. constructor; [done|]. apply Forall_forall. intros slug Hs _.
    rewrite merge_sort_Permutation in Hs. by apply elem_of_elements, elem_of_dom in Hs. }
  revert h1 E1 R1. induction Hall as [|slug slugs Hs _ IH]; intros h1 E1 R1; [done|]. cbn [heal_agents]. eapply hsafe_part; [by apply heal_agent_safe|].
  intros h2 [] [E2 R2]. by apply IH.
Qed.

(** What the broker heals by itself: a certificate that lapsed, or one pass over the hub tokens. *)
Definition heal (lapsed : option string) : H unit := match lapsed with Some cn => healLapse d c cn | None => healHubTokens d c end.

Lemma heal_runs lapsed tr : runs (heal lapsed) tr tt -> frame idle (h_host (foldl hobserve hidle tr)) /\ forall pre e post, tr = pre ++ e :: post -> heal_allowed d (foldl hobserve hidle pre) (e_asked e).
Proof.
  intros Hr. assert (Hs : hsafe (heal lapsed) hidle hidles) by (destruct lapsed; [by apply healLapse_safe|by apply healHubTokens_safe]).
  exact (safe_runs hobserve (heal_allowed d) _ _ _ Hr _ _ Hs).
Qed.

End Safe.

(** * The property *)

Section Healed.
Context `{Unicode, UnicodeTables} (d : Dispatch) (c : HealConfig) (specs : list WorkerSpec).
Hypothesis configured : d_workers d = workers_of specs.

(** C13: Whatever the hub, the host, the container and other requests answer: an
    automatic heal issues a worker a ticket, and resumes its container, only for a
    lapse its pacing admitted, under the worker's lifecycle lock, after the broker
    said there that it is not revoked and its stored role passed; before the resume
    the ticket was staged, the manager's pins were found in place, its record was
    read on a fixed image, and a running-worker slot was taken unless it runs. It
    resets a hub token only under the same lock and answers, of a worker the hub
    showed running whose container said the token expired, once a cooldown; it
    reaches the manager only through its lifecycle, without a lock of its own. It
    starts, stops, purges nothing, and gives back every lock and slot it took. *)
Theorem heals_are_guarded lapsed tr : runs (heal d c lapsed) tr tt ->
  frame idle (h_host (foldl hobserve hidle tr))
  /\ forall pre e post, tr = pre ++ e :: post ->
     let h := foldl hobserve hidle pre in
     match e_asked e with
     | Host (IssueTicket w) => vetted d (h_host h) w /\ pinned_record (h_host h) /\ h_admitted h = true
     | Host (Resume w _) | Host (ResumeForce w _) => bounceable d (h_host h) w /\ h_admitted h = true
     | Host (Start _) | Host (ResumeTask _ _ _) | Host (Stop _ _) | Host (PurgeWorker _) => False
     | Host (Suspend w _) => g_lock (h_host h) = Some w
     | TokenExpired slug => runs_live (h_recs h) slug /\ h_spared h = true
     | ResetAuth w => vetted d (h_host h) w /\ d_verifyRole d = true /\ h_taken h = Some w /\ h_expired h = Some w /\ w <> d_managerSlug d
     | EnsureManager k => frame idle (h_host h) /\ match k with ManagerReenrol => h_admitted h = true /\ h_spared h = true | ManagerTokenReset => h_taken h = Some (d_managerSlug d) end
     | _ => True
     end.
Proof.
  intros Hr. destruct (heal_runs d c ltac:(rewrite configured; apply workers_of_declared) _ _ Hr) as [Hi Hall]. split; [done|]. intros pre e post Htr h.
  pose proof (Hall _ _ _ Htr) as Ha. fold h in Ha. clearbody h. destruct e as [[q| | | | |[|]| |] a]; cbn [e_asked] in *; try done; [destruct q; try done|..]; cbn in Ha; naive_solver.
Qed.

End Healed.

(** ** The cooldown of token resets *)

(** Two resets of one agent that nothing took back are a cooldown apart. *)
Lemma token_heals_spaced slug now last last' t : last !! slug = Some t -> take_token_heal slug now last = (last', true) -> tokenHealCooldown <= Sub now t.
Proof. unfold take_token_heal. intros ->. destruct (Z.ltb_spec (Sub now t) tokenHealCooldown); [done|]. lia. Qed.

End Healer.
