(* ===== verification/ContactMsg.v ===== *)
(** Messages an agent sends to a contact ([internal/broker/contactmsg.go],
    [contactmatch.go]): the routes that list an agent's contacts, authorize one
    message and record it, and tell the remote proxy which messages a contact may
    be shown. What the clock, the disk, the hub and the chat ledger answer is an
    input of each request. *)

From S2P Require Import Prelude Go Token Broker Rate SentLedger Messaging ChatLedger Uses Verify Render Manifest AgentLedger AgentHistory Dispatch.

Module ContactMsg.
Import Broker Messaging.
Import Manifest AgentLedger AgentHistory.

(** * Configuration *)

Record ContactEntry := MkContact { ce_Login : string; ce_Email : string; ce_Agents : list string }.
(** [LedgerDir] is whether there is one. *)
Record AgentMessagesConfig := MkMessages {
  am_Enabled : bool; am_FollowUpAfter : Duration; am_MaxChars : Z; am_LedgerDir : bool; am_Contacts : list ContactEntry
}.

Definition defaultFollowUpAfter : Duration := 24 * Hour.
Definition defaultMaxChars : Z := 4000.
Definition withDefaults (c : AgentMessagesConfig) : AgentMessagesConfig :=
  MkMessages (am_Enabled c) (if am_FollowUpAfter c <=? 0 then defaultFollowUpAfter else am_FollowUpAfter c)
    (if am_MaxChars c <=? 0 then defaultMaxChars else am_MaxChars c) (am_LedgerDir c) (am_Contacts c).

Definition contactCallLimit : Z := 60.
Definition contactAuthPerHour : Z := 30.
Definition contactReplyWindow : Duration := 24 * Hour.
Definition contactRepliesPerRef : Z := 3.
Definition maxMatchRows : Z := 200.

Definition refuseNotContact : string := "not-a-contact".
Definition refuseLimit : string := "limit".
Definition refuseTooLong : string := "too-long".
Definition refuseEmpty : string := "empty".
Definition refuseBadRef : string := "bad-ref".
Definition refuseRate : string := "rate".
Definition refuseBadText : string := "bad-text".
Definition refuseOff : string := "off".
Definition refuseUnavailable : string := "unavailable".

(** * The rules *)

Definition lists_agent (agent : string) (c : ContactEntry) : bool := bool_decide (agent ∈ ce_Agents c).
Definition contactFor (cfg : AgentMessagesConfig) (login agent : string) : option ContactEntry :=
  match List.find (fun c => str_eqb (ce_Login c) login && lists_agent agent c) (am_Contacts cfg) with
  | Some c => if is_empty (Verify.replyRef ("user:" +:+ ce_Email c)) then None else Some c
  | None => None
  end.

(** Whether an initiated message is allowed, and when the next is. *)
Definition initiateDecision (initiated : list Time) (lastFromContact : Time) (followUp : Duration) (now : Time) : bool * Time :=
  match List.filter (fun t => After t lastFromContact) initiated with
  | [] => (true, zeroTime)
  | [t] => let next := Add t followUp in if negb (Before now next) then (true, zeroTime) else (false, next)
  | _ => (false, zeroTime)
  end.

Definition wordRune (r : Z) : bool :=
  ((97 <=? r) && (r <=? 122)) || ((65 <=? r) && (r <=? 90)) || ((48 <=? r) && (r <=? 57)) || (r =? 95) || (r =? 45).

(** [utf8.ValidString]: no byte was replaced. *)
Definition ValidString (s : string) : bool := forallb (fun rb => negb ((rb.1 =? RuneError) && (len rb.2 =? 1))) (chunks s).

(** The runes of a text, each after the one before it (-1 at the start). *)
Fixpoint runes_ok (prev : Z) (rs : list Z) : bool :=
  match rs with
  | [] => true
  | r :: rs =>
    if (r =? 65312) || ((r =? 64) && ((prev <? 0) || negb (wordRune prev))) then false
    else if (r =? RuneError) || (negb (r =? 10) && negb (r =? 9) && Dispatch.IsControl r) then false
    else runes_ok r rs
  end.
Definition contactText (text : string) (max : Z) : string :=
  if negb (ValidString text) then refuseBadText
  else if negb (runes_ok (-1) (runes text)) then refuseBadText
  else if is_empty (TrimSpace text) then refuseEmpty
  else if max <? Z.of_nat (length (runes text)) then refuseTooLong
  else "".

(** * State *)

(** What the routes keep: the node, the limits, whether the ledger is open, the
    ledger, and the record of verified messages. *)
Record KState := MkK {
  k_node : Node;
  k_cfg : AgentMessagesConfig;
  k_rate : Rate.rateWindow;
  k_open : bool;
  k_led : world;
  k_chatLedger : bool;
  k_uses : Uses.chatUses * Uses.usesDisk
}.
Definition set_knode (n : Node) (k : KState) : KState := MkK n (k_cfg k) (k_rate k) (k_open k) (k_led k) (k_chatLedger k) (k_uses k).
Definition set_krate (r : Rate.rateWindow) (k : KState) : KState := MkK (k_node k) (k_cfg k) r (k_open k) (k_led k) (k_chatLedger k) (k_uses k).
Definition set_kled (o : bool) (w : world) (k : KState) : KState := MkK (k_node k) (k_cfg k) (k_rate k) o w (k_chatLedger k) (k_uses k).
Definition k_audit (op caller decision detail : string) (kvs : list (string * string)) (k : KState) : KState :=
  set_knode (n_audit op caller decision detail kvs (k_node k)) k.

(** What one request meets: the clock, whether the ledger opens, what the disk
    does in the ledger's operation, the hub's id of each agent ([None] without a
    resolver), the chat ledger and its reads, the random bytes, the record of
    uses. *)
Record KWorld := MkKWorld {
  kw_now : Time;
  kw_open : option string;
  kw_fs : FS;
  kw_agentID : option (string -> result string string);
  kw_chatfs : ChatLedger.ReadFS;
  kw_chat : gmap string ChatLedger.chatFile;
  kw_idb : option bytes;
  kw_uses : Uses.UseWorld
}.

(** The texts of the ledgers' errors and of a failed read of random bytes. *)
Class ContactLib := {
  ct_ledger : ledgerError -> string;
  ct_chat : ChatLedger.chatError -> string;
  ct_rand : string;
  ct_chatlib :: ChatLedger.ChatLib
}.

(** [agentRecord.get]. *)
Definition get_ledger (w : KWorld) (k : KState) : KState * option string :=
  if negb (am_LedgerDir (k_cfg k)) then (k, Some "the agent ledger is off: the state directory is inside the tree")
  else if k_open k then (k, None)
  else match kw_open w with
  | Some e => (k, Some e)
  | None => (set_kled true (do_restart (k_led k)) k, None)
  end.

Definition agentHubID (w : KWorld) (slug : string) : result string string :=
  match kw_agentID w with
  | None => Err "no agent id resolver"
  | Some resolveAgentID =>
    match resolveAgentID slug with Err e => Err e | Ok id => if is_empty id then Err "no agent id" else Ok id end
  end.

Definition slug_of (caller : string) (k : KState) : string := match identity caller (k_node k) with Some (_, slug, _) => slug | None => "" end.

Definition of_kind (kind : string) (l : list Auth) : list Auth := List.filter (fun a => str_eqb (a_Kind a) kind) l.
Definition initiated_of (v : View) : list Time := a_Created <$> of_kind KindInitiated (v_ForContact v).
Definition replies_to (ref : string) (v : View) : list Auth := List.filter (fun a => str_eqb (a_ReplyTo a) ref) (of_kind KindReply (v_ForContact v)).

(** Why an authorization is refused under the ledger's lock. *)
Inductive limits := errRate | errReplyCap | limitErr (next : Time).

(** The decision [handleContactMessage] hands to [Authorize]. *)
Definition decide_auth (cfg : AgentMessagesConfig) (kind replyTo : string) (last now : Time) (v : View) : option limits :=
  if contactAuthPerHour <=? v_LastHour v then Some errRate
  else if str_eqb kind KindReply then
    if contactRepliesPerRef <=? Z.of_nat (length (replies_to replyTo v)) then Some errReplyCap else None
  else match initiateDecision (initiated_of v) last (am_FollowUpAfter cfg) now with
       | (true, _) => None
       | (false, next) => Some (limitErr next)
       end.

(** * Routes *)

(** [wire.ContactMessageRequest] and its answer. *)
Record ContactMessageRequest := MkContactReq { cq_To : string; cq_Text : string; cq_ReplyToRef : string }.
Record ContactMessageResponse := MkContactResp {
  cr_OK : bool; cr_Reason : string; cr_Ref : string; cr_Kind : string; cr_To : string; cr_Expires : string; cr_NextAllowedAt : string; cr_Note : string
}.
Record ContactInfo := MkInfo {
  ci_Login : string; ci_To : string; ci_LastFromContact : string; ci_LastInitiated : string; ci_CanInitiate : bool; ci_NextAllowedAt : string
}.
Record ContactsResponse := MkContacts { cs_Enabled : bool; cs_Contacts : list ContactInfo; cs_Note : string }.

Section Routes.
Context `{Token.SigScheme, Token.TokenWire, Rendering, MsgLib, Unicode, Render.UnicodeTables, SHA256, ContactLib}.

Definition rfc (t : Time) : string := if IsZero t then "" else formatRFC3339 t.

Definition bounded (s : string) : string := Dispatch.boundedLogin s.

Definition refuseMessage (caller to word note detail : string) (next : Time) (k : KState) : KState * response ContactMessageResponse :=
  (k_audit "contact" caller "deny" ("message to=" +:+ bounded to +:+ ": " +:+ detail) [("reason", word)] k,
   ROk (MkContactResp false word "" "" "" "" (rfc next) note)).

(** The instants a contact's page shows. *)
Definition contact_info (w : KWorld) (fs : FS) (slug : string) (agentID : result string string) (ledger : option string) (c : ContactEntry) (k : KState)
    : KState * ContactInfo :=
  let bare := MkInfo (ce_Login c) (Verify.replyRef ("user:" +:+ ce_Email c)) "" "" false "" in
  match ledger, agentID with
  | None, Ok id =>
    if negb (k_chatLedger k) then (k, bare) else
    let last := ChatLedger.LastPost (kw_chatfs w) (kw_chat w) (ce_Login c) id in
    let '(led, view) := do_view fs slug (ce_Login c) (kw_now w) (k_led k) in
    let k := set_kled (k_open k) led k in
    match last, view with
    | Ok last, Ok v =>
      let initiated := initiated_of v in
      let '(can, next) := initiateDecision initiated last (am_FollowUpAfter (k_cfg k)) (kw_now w) in
      (k, MkInfo (ce_Login c) (ci_To bare) (rfc last) (match list.last initiated with Some t => rfc t | None => "" end) can (rfc next))
    | _, _ => (k, bare)
    end
  | _, _ => (k, bare)
  end.

(** The contacts one by one; [fss] is what the disk does in each view. *)
Fixpoint contact_infos (w : KWorld) (fss : nat -> FS) (slug : string) (agentID : result string string) (ledger : option string)
    (cs : list ContactEntry) (k : KState) : KState * list ContactInfo :=
  match cs with
  | [] => (k, [])
  | c :: cs =>
    match contactFor (k_cfg k) (ce_Login c) slug with
    | None => contact_infos w fss slug agentID ledger cs k
    | Some _ =>
      let '(k, info) := contact_info w (fss 0%nat) slug agentID ledger c k in
      let '(k, infos) := contact_infos w (fun i => fss (S i)) slug agentID ledger cs k in (k, info :: infos)
    end
  end.

Definition handleContacts (p : peer) (w : KWorld) (fss : nat -> FS) (k : KState) : KState * response ContactsResponse :=
  match requireLive p "contact" "" (k_node k) with
  | (n, None) => (set_knode n k, forbidden)
  | (n, Some caller) =>
    let k := set_knode n k in
    let '(rate, (ok, _)) := Rate.take caller (kw_now w) (k_rate k) in
    let k := set_krate rate k in
    if negb ok then (k, ROk (MkContacts (am_Enabled (k_cfg k)) [] refuseRate))
    else if negb (am_Enabled (k_cfg k))
    then (k, ROk (MkContacts false [] "agent messages are off on this instance: answer a contact only as your skill says"))
    else
      let slug := slug_of caller k in
      let '(k, ledger) := get_ledger w k in
      let '(k, infos) := contact_infos w fss slug (agentHubID w slug) ledger (am_Contacts (k_cfg k)) k in
      (k_audit "contact" caller "allow" "contacts" [("count", itoa (Z.of_nat (length infos)))] k, ROk (MkContacts true infos ""))
  end.

(** A post of the contact the caller may answer: recorded for this login, agent
    and id in the last day, and verified by the caller. *)
Definition answerable (caller ref agentID : string) (now : Time) (w : KWorld) (k : KState) (e : ChatLedger.Entry) : bool :=
  str_eqb (ChatLedger.e_Tier e) ChatLedger.TierContact && str_eqb (ChatLedger.e_AgentID e) agentID
  && negb (contactReplyWindow <? Sub now (ChatLedger.e_Recorded e))
  && Uses.verifiedBy (kw_uses w) caller ref now (k_uses k).1 (k_uses k).2.

(** Kind, post answered, and last post of the contact; or the refusal. *)
Definition classify (caller agentID : string) (c : ContactEntry) (req : ContactMessageRequest) (w : KWorld) (k : KState)
    : result (string * string * Time) (string * string * string) :=
  let ref := TrimSpace (cq_ReplyToRef req) in
  if negb (is_empty ref) then
    match ChatLedger.ByMessageID (kw_chatfs w) (kw_chat w) (ce_Login c) ref with
    | Ok (Some e) =>
      if answerable caller ref agentID (kw_now w) w k e then Ok (KindReply, ref, zeroTime)
      else Err (refuseBadRef, "reply_to_ref must be the message_id message_verify returned for this contact's post to you (within 24h)", "bad ref")
    | _ => Err (refuseBadRef, "reply_to_ref must be the message_id message_verify returned for this contact's post to you (within 24h)", "bad ref")
    end
  else
    match ChatLedger.LastPost (kw_chatfs w) (kw_chat w) (ce_Login c) agentID with
    | Err e => Err (refuseUnavailable, "the chat ledger cannot be read", "chat ledger: " +:+ ct_chat e)
    | Ok last => Ok (KindInitiated, "", last)
    end.

Definition new_auth (id slug : string) (c : ContactEntry) (kind replyTo text : string) (now : Time) : Auth :=
  MkAuth id slug (ce_Login c) kind (HashText text) replyTo (Z.of_nat (length (runes text))) now (Add now TTL).

(** What [Authorize]'s answer makes of the request. *)
Definition authorized (caller slug kind : string) (req : ContactMessageRequest) (c : ContactEntry) (a : Auth) (r : option (authError limits)) (k : KState)
    : KState * response ContactMessageResponse :=
  match r with
  | Some (Refused (limitErr next)) =>
    refuseMessage caller (cq_To req) refuseLimit "you have an unanswered message to this contact; wait for their answer or next_allowed_at" "limit" next k
  | Some (Refused errReplyCap) =>
    refuseMessage caller (cq_To req) refuseLimit "this contact message already has 3 replies; wait for the contact to write again" "reply cap" zeroTime k
  | Some (Refused errRate) => refuseMessage caller (cq_To req) refuseRate "too many messages this hour" "hourly rate" zeroTime k
  | Some (Ledger_ e) => refuseMessage caller (cq_To req) refuseUnavailable "the host record is unavailable" ("authorize: " +:+ ct_ledger e) zeroTime k
  | None =>
    (k_audit "contact" caller "allow" ("message to=" +:+ bounded (ce_Login c) +:+ " kind=" +:+ kind) [("ref", a_ID a); ("length", itoa (a_Length a))] k,
     ROk (MkContactResp true "" (a_ID a) kind (Verify.replyRef ("user:" +:+ ce_Email c)) (rfc (a_Expires a)) "" ""))
  end.

(** After the checks on the request itself. *)
Definition authorize_message (caller slug : string) (c : ContactEntry) (req : ContactMessageRequest) (w : KWorld) (k : KState)
    : KState * response ContactMessageResponse :=
  let refuse := refuseMessage caller (cq_To req) in
  let '(k, ledger) := get_ledger w k in
  match ledger, k_chatLedger k with
  | Some e, _ => refuse refuseUnavailable "the host record is unavailable" ("ledger: " +:+ e) zeroTime k
  | None, false => refuse refuseUnavailable "the host record is unavailable" "ledger: hub returned no id for it" zeroTime k
  | None, true =>
    match agentHubID w slug with
    | Err e => refuse refuseUnavailable "the broker cannot resolve your hub agent id" ("agent id: " +:+ e) zeroTime k
    | Ok agentID =>
      match classify caller agentID c req w k with
      | Err (word, note, detail) => refuse word note detail zeroTime k
      | Ok (kind, replyTo, last) =>
        match NewID (kw_idb w) with
        | None => refuse refuseUnavailable "the host record is unavailable" ("id: " +:+ ct_rand) zeroTime k
        | Some id =>
          let a := new_auth id slug c kind replyTo (cq_Text req) (kw_now w) in
          let '(led, r) := do_authorize (kw_fs w) a (kw_now w) (decide_auth (k_cfg k) kind replyTo last (kw_now w)) (k_led k) in
          authorized caller slug kind req c a r (set_kled (k_open k) led k)
        end
      end
    end
  end.

(** A body that does not decode is taken to have filled in no recipient. *)
Definition handleContactMessage (p : peer) (body : option ContactMessageRequest) (w : KWorld) (k : KState) : KState * response ContactMessageResponse :=
  match requireLive p "contact" "" (k_node k) with
  | (n, None) => (set_knode n k, forbidden)
  | (n, Some caller) =>
    let k := set_knode n k in
    let '(rate, (ok, _)) := Rate.take caller (kw_now w) (k_rate k) in
    let k := set_krate rate k in
    if negb ok then refuseMessage caller "" refuseRate "too many calls this minute" "call rate" zeroTime k
    else match body with
    | None => refuseMessage caller "" refuseBadText "the request was not valid JSON" "bad body" zeroTime k
    | Some req =>
      let refuse := refuseMessage caller (cq_To req) in
      if negb (am_Enabled (k_cfg k)) then refuse refuseOff "agent messages are off on this instance" "off" zeroTime k
      else
        let slug := slug_of caller k in
        match contactFor (k_cfg k) (cq_To req) slug with
        | None => refuse refuseNotContact "to must be a login from contacts()" ("not a contact of " +:+ slug) zeroTime k
        | Some c =>
          let word := contactText (cq_Text req) (am_MaxChars (k_cfg k)) in
          if negb (is_empty word) then refuse word "see the skill's text rules" "text" zeroTime k
          else authorize_message caller slug c req w k
        end
    end
  end.

(** [wire.AgentMessagesMatchRequest]. *)
Record MatchRequest := MkMatchReq { mq_Agent : string; mq_Contact : string; mq_Messages : list Candidate; mq_Peek : bool }.
Record MatchResponse := MkMatchResp { mr_Keep : list string; mr_Pending : list string }.

(** [Match] answers no pending ids, [Peek] does. *)
Definition match_answer (peek : bool) (msgs : list Candidate) (r : answer) : MatchResponse :=
  let pending := if peek then w_pending r else ∅ in
  let kept := List.filter (fun m => bool_decide (c_MessageID m ∈ w_keep r)) msgs in
  MkMatchResp (c_MessageID <$> kept) (c_MessageID <$> List.filter (fun m => bool_decide (c_MessageID m ∈ pending)) kept).

Definition handleAgentMessagesMatch (body : option MatchRequest) (w : KWorld) (k : KState) : KState * response MatchResponse :=
  match body with
  | None => (k, HttpError StatusBadRequest "bad request")
  | Some req =>
    if maxMatchRows <? Z.of_nat (length (mq_Messages req)) then (k, HttpError StatusBadRequest "bad request")
    else if negb (am_Enabled (k_cfg k)) then (k, HttpError StatusServiceUnavailable "off")
    else match contactFor (k_cfg k) (mq_Contact req) (mq_Agent req) with
    | None => (k, HttpError StatusForbidden "not a contact of that agent")
    | Some _ =>
      let '(k, ledger) := get_ledger w k in
      match ledger with
      | Some e => (k_audit "contact" "remote" "error" ("match: " +:+ e) [] k, HttpError StatusServiceUnavailable "unavailable")
      | None =>
        let '(led, r) := do_match (kw_fs w) (mq_Agent req) (mq_Contact req) (mq_Messages req) (kw_now w) (negb (mq_Peek req)) (k_led k) in
        let k := set_kled (k_open k) led k in
        match w_err r with
        | Some e => (k_audit "contact" "remote" "error" ("match: " +:+ ct_ledger e) [] k, HttpError StatusServiceUnavailable "unavailable")
        | None =>
          (foldl (fun k id => k_audit "contact" "remote" "allow" ("shown to=" +:+ bounded (mq_Contact req) +:+ " agent=" +:+ bounded (mq_Agent req)) [("ref", id)] k) k (w_bound r),
           ROk (match_answer (mq_Peek req) (mq_Messages req) r))
        end
      end
    end
  end.

End Routes.
End ContactMsg.
