(* ===== verification/ContactSafe.v ===== *)
(** What the contact routes keep through any history: the hourly rate, the cap
    on replies, the rule for messages an agent starts, and that a contact is
    shown only what the broker authorized. *)

From S2P Require Import Prelude Go Token Broker Rate SentLedger Messaging ChatLedger Uses Verify Render Manifest AgentLedger AgentShown AgentHistory ContactMsg.

Module ContactSafe.
Import Broker Messaging.
Import Manifest AgentLedger AgentShown AgentHistory ContactMsg.

(** * Counting what the ledger holds *)

Definition held (w : world) (name : string) : list Auth := auths_in (lines_of (w_dir w) name).

Fixpoint sum_over (f : string -> Z) (l : list string) : Z := match l with [] => 0 | n :: l => f n + sum_over f l end.

Lemma sum_perm f l k : l ≡ₚ k -> sum_over f l = sum_over f k.
Proof. induction 1; cbn; lia. Qed.

Lemma sum_sub f l k : (forall n, 0 <= f n) -> l ⊆+ k -> sum_over f l <= sum_over f k.
Proof. intros Hf. induction 1; cbn; try lia. specialize (Hf x). lia. Qed.

Lemma sum_nonneg f l : (forall n, 0 <= f n) -> 0 <= sum_over f l.
Proof. intros Hf. induction l as [|n l IH]; cbn; [lia|]. specialize (Hf n). lia. Qed.

Lemma sum_update f f' name δ l : NoDup l -> (forall n, n <> name -> f' n <= f n) -> f' name <= f name + δ -> 0 <= δ -> sum_over f' l <= sum_over f l + δ.
Proof.
  intros Hl Ho Hn Hd. induction Hl as [|n l Hni _ IH]; cbn; [lia|]. destruct (decide (n = name)) as [->|Hne]; [|specialize (Ho n Hne); lia].
  assert (sum_over f' l <= sum_over f l); [|lia]. clear IH. induction l as [|m l IH]; cbn; [lia|]. apply not_elem_of_cons in Hni as [Hm Hni].
  specialize (Ho m (not_eq_sym Hm)). specialize (IH Hni). lia.
Qed.

(** A file more, or more in one file, adds at most that much. *)
Lemma total_grows f f' name δ (d d' : gmap string file) :
  (forall n, 0 <= f' n) -> (forall n, n ∉ dom d -> f n = 0) -> (forall n, n <> name -> f' n <= f n) -> f' name <= f name + δ -> 0 <= δ ->
  dom d' ⊆ {[name]} ∪ dom d -> sum_over f' (elements (dom d')) <= sum_over f (elements (dom d)) + δ.
Proof.
  intros Hp Hz Ho Hn Hd Hdom. set (U := elements ({[name]} ∪ dom d)).
  assert (H1 : sum_over f' (elements (dom d')) <= sum_over f' U).
  { apply sum_sub; [done|]. apply NoDup_submseteq; [apply NoDup_elements|]. intros x. unfold U. rewrite !elem_of_elements. set_solver. }
  assert (H2 : sum_over f' U <= sum_over f U + δ) by (apply sum_update with name; try done; apply NoDup_elements).
  assert (H3 : sum_over f U = sum_over f (elements (dom d))); [|lia].
  unfold U. destruct (decide (name ∈ dom d)) as [Hin|Hni].
  - f_equal. f_equal. apply leibniz_equiv. set_solver.
  - rewrite (sum_perm f _ (name :: elements (dom d))) by by apply elements_union_singleton. cbn. rewrite (Hz name Hni). lia.
Qed.

(** The authorizations of an agent in the hour up to [t]. *)
Definition in_window (ag : string) (t : Time) (a : Auth) : bool := str_eqb (a_Agent a) ag && (t - Hour <? a_Created a) && (a_Created a <=? t).
Definition count (p : Auth -> bool) (l : list Auth) : Z := Z.of_nat (length (List.filter p l)).
Definition window_count (w : world) (ag : string) (t : Time) : Z := sum_over (fun n => count (in_window ag t) (held w n)) (elements (dom (w_dir w))).

Lemma count_nonneg p l : 0 <= count p l.
Proof. unfold count. lia. Qed.
Lemma count_app p l k : count p (l ++ k) = count p l + count p k.
Proof. unfold count. rewrite List.filter_app, length_app. lia. Qed.
Lemma count_suffix p l k : l `suffix_of` k -> count p l <= count p k.
Proof. intros [x ->]. rewrite count_app. pose proof (count_nonneg p x). lia. Qed.
Lemma count_le p q l : (forall a, p a = true -> q a = true) -> count p l <= count q l.
Proof.
  intros Hpq. induction l as [|a l IH]; [done|]. unfold count in *. cbn. destruct (p a) eqn:Ep.
  - rewrite (Hpq a Ep). cbn. lia.
  - destruct (q a); cbn; lia.
Qed.

Lemma created_of_lookup l ag : default [] (created_of l !! ag) = a_Created <$> List.filter (fun a => str_eqb (a_Agent a) ag) l.
Proof.
  unfold created_of. induction l as [|a l IH] using rev_ind; [done|]. rewrite foldl_app. cbn. unfold add_created at 1.
  rewrite List.filter_app, fmap_app, <- IH. cbn. destruct (str_eqb (a_Agent a) ag) eqn:E.
  - apply str_eqb_eq in E as <-. by rewrite lookup_insert_eq.
  - apply str_eqb_neq in E. rewrite lookup_insert_ne by done. cbn. by rewrite app_nil_r.
Qed.

(** The ledger's count is of the records it holds less than an hour older than
    the clock. *)
Definition within_hour (ag : string) (now : Time) (a : Auth) : bool := str_eqb (a_Agent a) ag && (now - a_Created a <? Hour).

Lemma recent_count now ag l : recent now (default [] (created_of l !! ag)) = count (within_hour ag now) l.
Proof.
  rewrite created_of_lookup. unfold recent, count. f_equal. induction l as [|a l IH]; [done|]. cbn. unfold within_hour at 1.
  assert (Es : (Sub now (a_Created a) <? Hour) = (now - a_Created a <? Hour)).
  { apply eq_true_iff_eq. rewrite !Z.ltb_lt. by apply Sub_lt_iff. }
  destruct (str_eqb (a_Agent a) ag); cbn; [|done]. rewrite Es. destruct (now - a_Created a <? Hour); cbn; by rewrite IH.
Qed.

Section Counts.
Context `{SHA256, Unicode}.

Lemma hour_count_held w ag now names : wf w -> hour_count (w_dir w) ag now names = sum_over (fun n => count (within_hour ag now) (held w n)) names.
Proof.
  intros Hw. induction names as [|n names IH]; [done|]. cbn. rewrite <- IH. f_equal. unfold created_in. rewrite recent_count.
  by rewrite (auths_held _ _ (wf_sound _ Hw n)).
Qed.

Lemma sum_le f g l : (forall n, f n <= g n) -> sum_over f l <= sum_over g l.
Proof. intros Hl. induction l as [|n l IH]; cbn; [lia|]. specialize (Hl n). lia. Qed.

(** The rate counts every file. *)
Lemma contacts_all w : wf w -> contacts (w_dir w) = elements (dom (w_dir w)).
Proof.
  intros Hw. unfold contacts. assert (Hn : forall n, n ∈ elements (dom (w_dir w)) -> fileRE n = true) by (intros n; rewrite elem_of_elements; apply (wf_names _ Hw)).
  revert Hn. generalize (elements (dom (w_dir w))). intros l. induction l as [|n l IH]; intros Hn; [done|]. cbn. rewrite (Hn n) by by left.
  f_equal. apply IH. intros m Hm. apply Hn. by right.
Qed.

Lemma window_below_rate w ag t now : wf w -> t - Hour < now <= t -> window_count w ag t <= hour_count (w_dir w) ag now (contacts (w_dir w)).
Proof.
  intros Hw Ht. rewrite hour_count_held, contacts_all by done. apply sum_le. intros n. apply count_le. intros a. unfold in_window, within_hour.
  intros [[-> Hb]%andb_prop Hc]%andb_prop. cbn. lia.
Qed.

(** ** What a step does to the count *)

Lemma append_lines_grow lines : forall ap name d d' ok, append_lines ap name lines d = (d', ok) ->
  dom d' ⊆ {[name]} ∪ dom d /\ lines_of d' name `suffix_of` (lines_of d name ++ left_by_all ap lines) /\ (forall n, n <> name -> lines_of d' n = lines_of d n).
Proof.
  induction lines as [|ln lines IH]; intros ap name d d' ok; cbn [append_lines left_by_all].
  { intros [= <- <-]. rewrite app_nil_r. split_and!; [set_solver|done|done]. }
  destruct (append_line (ap 0%nat) name ln d) as [d1 ok1] eqn:Ea. pose proof (append_line_dom _ _ _ _ _ _ Ea) as Hd. apply append_line_lines in Ea as (Hs & Ho & ->).
  destruct (ap_wrote (ap 0%nat)); [|intros [= <- <-]; by rewrite app_nil_r..]. destruct (ap_ok (ap 0%nat)); [|intros [= <- <-]; by rewrite app_nil_r].
  intros E. apply IH in E as (Hd' & Hs' & Ho'). split_and!; [set_solver| |intros n ?; by rewrite Ho', Ho].
  etrans; [exact Hs'|]. rewrite app_assoc. by apply suffix_app.
Qed.

Lemma window_grows w w' name ag t δ extra : dom (w_dir w') ⊆ {[name]} ∪ dom (w_dir w) ->
  lines_of (w_dir w') name `suffix_of` (lines_of (w_dir w) name ++ extra) -> (forall n, n <> name -> lines_of (w_dir w') n = lines_of (w_dir w) n) ->
  count (in_window ag t) (auths_in extra) <= δ -> window_count w' ag t <= window_count w ag t + δ.
Proof.
  intros Hd Hs Ho Hx. pose proof (count_nonneg (in_window ag t) (auths_in extra)). unfold window_count. apply total_grows with name; try done; try lia.
  - intros n. apply count_nonneg.
  - intros n Hn. unfold held, lines_of. apply not_elem_of_dom in Hn. by rewrite Hn.
  - intros n Hn. unfold held. rewrite Ho by done. lia.
  - unfold held. destruct Hs as [k Hk]. apply (f_equal auths_in) in Hk. unfold auths_in in *. rewrite !omap_app in Hk.
    apply (f_equal (count (in_window ag t))) in Hk. rewrite !count_app in Hk. pose proof (count_nonneg (in_window ag t) (omap auth_of k)). lia.
Qed.

End Counts.

(** * What the routes do to the ledger *)

Section Routes.
Context `{Token.SigScheme, Token.TokenWire, Rendering, MsgLib, Unicode, Render.UnicodeTables, SHA256, ContactLib}.

(** A request the broker's checks let through to the ledger, as the
    authorization [a]: of a live caller, to a contact that lists its agent, of a
    text the hub keeps as it is, started or in answer to a verified post. *)
Definition asks (k : KState) (p : peer) (req : ContactMessageRequest) (w : KWorld) (kind replyTo : string) (last : Time) (a : Auth) : Prop :=
  exists caller c agentID id,
    (requireLive p "contact" "" (k_node k)).2 = Some caller /\ am_Enabled (k_cfg k) = true
    /\ contactFor (k_cfg k) (cq_To req) (slug_of caller k) = Some c /\ contactText (cq_Text req) (am_MaxChars (k_cfg k)) = ""
    /\ agentHubID w (slug_of caller k) = Ok agentID /\ classify caller agentID c req w k = Ok (kind, replyTo, last) /\ NewID (kw_idb w) = Some id
    /\ a = new_auth id (slug_of caller k) c kind replyTo (cq_Text req) (kw_now w).

(** The ledger as it is, or opened anew. *)
Definition opened (k : KState) (led : world) : Prop := led = k_led k \/ led = do_restart (k_led k).

Lemma requireLive_node p n n' caller : requireLive p "contact" "" n = (n', Some caller) -> n' = n.
Proof.
  unfold requireLive, requireLiveAgent. destruct (RequireAgent p); [|done]. destruct (isRevoked _ _); [done|]. intros [= <- _]. by destruct n.
Qed.

Lemma get_ledger_effect w k k' e : get_ledger w k = (k', e) ->
  opened k (k_led k') /\ k_cfg k' = k_cfg k /\ k_uses k' = k_uses k /\ k_node k' = k_node k /\ k_chatLedger k' = k_chatLedger k.
Proof.
  unfold get_ledger, opened. destruct (am_LedgerDir (k_cfg k)); cbn; [|intros [= <- _]; auto]. destruct (k_open k); [intros [= <- _]; auto|].
  destruct (kw_open w); intros [= <- _]; cbn; auto.
Qed.

Lemma refuseMessage_led caller to word note detail next k : k_led (refuseMessage caller to word note detail next k).1 = k_led k.
Proof. reflexivity. Qed.

Lemma authorize_message_effect caller slug c req w k k' r : authorize_message caller slug c req w k = (k', r) ->
  opened k (k_led k') \/ exists agentID kind replyTo last id led, opened k led /\ agentHubID w slug = Ok agentID
    /\ classify caller agentID c req w k = Ok (kind, replyTo, last) /\ NewID (kw_idb w) = Some id
    /\ k_led k' = (do_authorize (kw_fs w) (new_auth id slug c kind replyTo (cq_Text req) (kw_now w)) (kw_now w)
                     (decide_auth (k_cfg k) kind replyTo last (kw_now w)) led).1.
Proof.
  unfold authorize_message. destruct (get_ledger w k) as [k1 e] eqn:Eg. apply get_ledger_effect in Eg as (Ho & Ec & Eu & _).
  assert (Hcl : forall id, classify caller id c req w k1 = classify caller id c req w k) by (intros id; unfold classify, answerable; by rewrite Eu).
  destruct e; [intros [= <- _]; by left|]. destruct (k_chatLedger k1); [|intros [= <- _]; by left].
  destruct (agentHubID w slug) as [agentID|]; [|intros [= <- _]; by left]. rewrite Hcl.
  destruct (classify _ _ _ _ _ _) as [[[kind replyTo] last]|[[? ?] ?]] eqn:Ecl; [|intros [= <- _]; by left].
  destruct (NewID (kw_idb w)) as [id|] eqn:Ei; [|intros [= <- _]; by left]. rewrite Ec.
  destruct (do_authorize _ _ _ _ _) as [led ar] eqn:Ed. intros E. right. exists agentID, kind, replyTo, last, id, (k_led k1).
  split_and!; try done. rewrite Ed. cbn. unfold authorized, refuseMessage in E. by repeat case_match; injection E as <- _.
Qed.

Lemma handleContactMessage_effect p body w k k' r : handleContactMessage p body w k = (k', r) ->
  opened k (k_led k') \/ exists req kind replyTo last a led, body = Some req /\ opened k led /\ asks k p req w kind replyTo last a
    /\ k_led k' = (do_authorize (kw_fs w) a (kw_now w) (decide_auth (k_cfg k) kind replyTo last (kw_now w)) led).1.
Proof.
  unfold handleContactMessage. destruct (requireLive p "contact" "" (k_node k)) as [n [caller|]] eqn:El; [|intros [= <- _]; by left; left].
  pose proof (requireLive_node _ _ _ _ El) as ->. destruct (Rate.take _ _ _) as [rate [ok ?]]. destruct ok; [|intros [= <- _]; by left; left]. cbn [negb].
  destruct body as [req|]; [|intros [= <- _]; by left; left]. cbn [k_cfg set_krate set_knode k_node].
  destruct (am_Enabled (k_cfg k)) eqn:Een; [|intros [= <- _]; by left; left]. cbn [negb].
  set (k1 := set_krate rate (set_knode (k_node k) k)). change (slug_of caller k1) with (slug_of caller k).
  destruct (contactFor _ _ _) as [c|] eqn:Ec; [|intros [= <- _]; by left; left].
  destruct (is_empty (contactText _ _)) eqn:Et; [|intros [= <- _]; by left; left]. cbn [negb]. apply is_empty_true in Et.
  intros E. apply authorize_message_effect in E as [Ho|(agentID & kind & replyTo & last & id & led & Ho & Eid & Ecl & Eni & E)]; [by left|].
  right. exists req, kind, replyTo, last, (new_auth id (slug_of caller k) c kind replyTo (cq_Text req) (kw_now w)), led. split_and!; try done.
  exists caller, c, agentID, id. by rewrite El.
Qed.

Definition views (w w' : world) : Prop := exists fs agent contact now r, do_view fs agent contact now w = (w', r).

Lemma contact_infos_effect w fss slug agentID ledger cs k k' infos : contact_infos w fss slug agentID ledger cs k = (k', infos) -> rtc views (k_led k) (k_led k').
Proof.
  revert fss k k' infos. induction cs as [|c cs IH]; intros fss k k' infos; cbn [contact_infos]; [by intros [= <- _]|].
  destruct (contactFor _ _ _); [|apply IH]. destruct (contact_info _ _ _ _ _ _ _) as [k1 info] eqn:E1. destruct (contact_infos _ _ _ _ _ cs k1) as [k2 infos2] eqn:E2.
  intros [= <- _]. apply IH in E2. etrans; [|exact E2]. unfold contact_info in E1. destruct ledger; [by injection E1 as <- _|].
  destruct agentID; [|by injection E1 as <- _]. destruct (k_chatLedger k); cbn [negb] in E1; [|by injection E1 as <- _].
  destruct (do_view _ _ _ _ _) as [led view] eqn:Ev. assert (Hl : k_led k1 = led) by (repeat case_match; by injection E1 as <- _).
  rewrite Hl. apply rtc_once. by eexists _, _, _, _, _.
Qed.

Lemma handleContacts_effect p w fss k k' r : handleContacts p w fss k = (k', r) -> exists led, opened k led /\ rtc views led (k_led k').
Proof.
  unfold handleContacts. destruct (requireLive p "contact" "" (k_node k)) as [n [caller|]]; [|intros [= <- _]; exists (k_led k); split; [by left|done]].
  destruct (Rate.take _ _ _) as [rate [ok ?]]. destruct ok; [|intros [= <- _]; exists (k_led k); split; [by left|done]]. cbn [negb].
  destruct (am_Enabled _); [|intros [= <- _]; exists (k_led k); split; [by left|done]]. cbn [negb].
  destruct (get_ledger w _) as [k1 e] eqn:Eg. apply get_ledger_effect in Eg as (Ho & _).
  destruct (contact_infos _ _ _ _ _ _ _) as [k2 infos] eqn:Ei. apply contact_infos_effect in Ei. intros [= <- _]. by exists (k_led k1).
Qed.

Lemma handleAgentMessagesMatch_effect body w k k' r : handleAgentMessagesMatch body w k = (k', r) ->
  (opened k (k_led k') /\ forall resp, r <> ROk resp)
  \/ exists req led led' ans, body = Some req /\ opened k led
      /\ do_match (kw_fs w) (mq_Agent req) (mq_Contact req) (mq_Messages req) (kw_now w) (negb (mq_Peek req)) led = (led', ans) /\ k_led k' = led'
      /\ forall resp, r = ROk resp -> resp = match_answer (mq_Peek req) (mq_Messages req) ans.
Proof.
  unfold handleAgentMessagesMatch. destruct body as [req|]; [|by intros [= <- <-]; left; split; [left|]].
  destruct (maxMatchRows <? _); [by intros [= <- <-]; left; split; [left|]|]. destruct (am_Enabled _); [|by intros [= <- <-]; left; split; [left|]]. cbn [negb].
  destruct (contactFor _ _ _); [|by intros [= <- <-]; left; split; [left|]]. destruct (get_ledger w k) as [k1 e] eqn:Eg. apply get_ledger_effect in Eg as (Ho & _).
  destruct e; [by intros [= <- <-]; left|]. destruct (do_match _ _ _ _ _ _ _) as [led ans] eqn:Em. intros E. right. exists req, (k_led k1), led, ans.
  split_and!; try done; destruct (w_err ans); injection E as <- <-; try done; [|by intros resp [= <-]].
  cbn. assert (Hf : forall ids k0, k_led (foldl (fun k id => k_audit "contact" "remote" "allow" ("shown to=" +:+ bounded (mq_Contact req) +:+ " agent=" +:+ bounded (mq_Agent req)) [("ref", id)] k) k0 ids) = k_led k0).
  { induction ids as [|id ids IH]; intros k0; [done|]. cbn [foldl]. by rewrite IH. }
  by rewrite Hf.
Qed.

(** ** Histories

    Record ids are fresh, and appends change a file's signature. *)
Definition ids_fresh (w : KWorld) (k : KState) : Prop :=
  forall id name, NewID (kw_idb w) = Some id -> (id ∉ (ln_ID <$> shown_in (w_past (k_led k) name))) /\ (id ∉ (a_ID <$> auths_in (w_past (k_led k) name))).
Definition all_new (w : KWorld) (k : KState) : Prop := forall name, new_sigs (kw_fs w) (k_led k) name.

(** What happens to the broker, in turn: its routes, each with what it meets; the
    rest of the broker, which changes who is live and what was verified; a new
    process, with a configuration of its own. *)
Inductive kevent :=
| EContacts (p : peer) (w : KWorld) (fss : nat -> FS)
| EMessage (p : peer) (body : option ContactMessageRequest) (w : KWorld)
| EMatch (body : option MatchRequest) (w : KWorld)
| EOther (n : Node) (uses : Uses.chatUses * Uses.usesDisk)
| ERestart (cfg : AgentMessagesConfig) (n : Node) (chat : bool) (uses : Uses.chatUses * Uses.usesDisk).

Definition kapply (k : KState) (e : kevent) : KState :=
  match e with
  | EContacts p w fss => (handleContacts p w fss k).1
  | EMessage p body w => (handleContactMessage p body w k).1
  | EMatch body w => (handleAgentMessagesMatch body w k).1
  | EOther n uses => MkK n (k_cfg k) (k_rate k) (k_open k) (k_led k) (k_chatLedger k) uses
  | ERestart cfg n chat uses => MkK n cfg (Rate.newRateWindow contactCallLimit) false (do_restart (k_led k)) chat uses
  end.
Definition krun (k0 : KState) (es : list kevent) : KState := foldl kapply k0 es.

Definition meets (e : kevent) (k : KState) : Prop :=
  match e with
  | EMessage p body w => ids_fresh w k /\ all_new w k
  | EMatch body w => all_new w k
  | _ => True
  end.
(** The broker got from [k0] to [k] by these events. *)
Inductive history (k0 : KState) : list kevent -> KState -> Prop :=
| h_start : history k0 [] k0
| h_step es k e : history k0 es k -> meets e k -> history k0 (es ++ [e]) (kapply k e).

Lemma history_run k0 es k : history k0 es k -> k = krun k0 es.
Proof. induction 1 as [|es k e _ IH _]; [done|]. unfold krun in *. by rewrite foldl_app, <- IH. Qed.

Lemma history_prefix k0 es es' k : history k0 (es ++ es') k -> history k0 es (krun k0 es).
Proof.
  revert k. induction es' as [|e es' IH] using rev_ind; intros k Hh; [rewrite app_nil_r in Hh; by rewrite <- (history_run _ _ _ Hh)|].
  rewrite app_assoc in Hh. inversion Hh as [E|es0 k1 e0 Hh1 _ E]; [by destruct (es ++ es')|]. apply app_inj_tail in E as [-> ->]. by apply (IH k1).
Qed.

(** A step of the ledger that authorizes nothing. *)
Record quiet (w w' : world) : Prop := {
  q_wf : wf w';
  q_past : forall name, auths_in (w_past w' name) = auths_in (w_past w name);
  q_held : forall name, held w' name `suffix_of` held w name;
  q_window : forall ag t, window_count w' ag t <= window_count w ag t
}.

Lemma quiet_refl w : wf w -> quiet w w.
Proof. by split. Qed.
Lemma quiet_trans w1 w2 w3 : quiet w1 w2 -> quiet w2 w3 -> quiet w1 w3.
Proof.
  intros [_ P1 S1 W1] [F P2 S2 W2]. split; [done|intros n; by rewrite P2, P1|intros n; etrans; [apply S2|apply S1]|].
  intros ag t. specialize (W1 ag t). specialize (W2 ag t). lia.
Qed.

Lemma quiet_opened k led : wf (k_led k) -> opened k led -> quiet (k_led k) led.
Proof. intros Hw [-> | ->]; [by apply quiet_refl|]. split; try done. by apply wf_restart. Qed.

Lemma quiet_view w w' : wf w -> wf w' -> w_dir w' = w_dir w -> w_past w' = w_past w -> quiet w w'.
Proof.
  intros Hw Hw' Ed Ep. split; [done|by rewrite Ep| |]; unfold window_count, held; rewrite Ed; [done|]. intros. lia.
Qed.

Lemma quiet_views w w' : wf w -> rtc views w w' -> quiet w w'.
Proof.
  intros Hw Hv. revert Hw. induction Hv as [w|w w1 w' (fs & agent & contact & now & r & E) _ IH]; intros Hw; [by apply quiet_refl|].
  pose proof (wf_view _ _ _ _ _ _ _ Hw E) as Hw1. eapply quiet_trans; [|by apply IH]. unfold do_view in E. destruct (ViewOf _ _ _ _ _ _).
  injection E as <- _. by apply quiet_view.
Qed.

Lemma auths_of_shown ls : Forall (fun raw => auth_of raw = None) ls -> auths_in ls = [].
Proof. induction 1 as [|raw ls E _ IH]; [done|]. unfold auths_in in *. cbn. by rewrite E. Qed.

Lemma quiet_match fs agent contact msgs now write w w' r : wf w -> new_sigs fs w (FileFor contact) ->
  do_match fs agent contact msgs now write w = (w', r) -> quiet w w'.
Proof.
  intros Hw Hn E. pose proof (wf_match _ _ _ _ _ _ _ _ _ Hw Hn E) as Hw'. apply match_cases in E as (_ & _ & Hcase); [|done].
  destruct Hcase as [(Ed & Ep & _)|(_ & ok & Ea & Ep & _)].
  { split; [done|intros name; by rewrite Ep| |]; unfold window_count, held; rewrite Ed; [done|]. intros. lia. }
  set (name := FileFor contact) in *.
  assert (Hx : auths_in (left_by_all (fs_append fs) (m_lines (match_all (read_lines (lines_of (w_dir w) name)) agent contact now msgs))) = []).
  { apply auths_of_shown. eapply left_by_all_shown. eapply bindings_writable; [apply (wf_sound _ Hw name)|apply match_all_bindings]. }
  apply append_lines_grow in Ea as (Hd & Hs & Ho). split; [done| | |].
  - intros n. rewrite Ep. destruct (decide (n = name)) as [->|Hne]; [|by rewrite wrote_other]. rewrite wrote_same.
    unfold auths_in in *. by rewrite omap_app, Hx, app_nil_r.
  - intros n. unfold held. destruct (decide (n = name)) as [->|Hne]; [|by rewrite Ho]. destruct Hs as [x Hx'].
    apply (f_equal auths_in) in Hx'. unfold auths_in in *. rewrite !omap_app, Hx, app_nil_r in Hx'. by exists (omap auth_of x).
  - intros ag t. pose proof (window_grows w w' name ag t 0 _ Hd Hs Ho) as Hg. rewrite Hx in Hg. change (count (in_window ag t) []) with 0 in Hg. lia.
Qed.

(** A step that authorizes: [a] joins what its contact's file holds, after [P]. *)
Record grants (led w' : world) (a : Auth) : Prop := {
  gr_wf : wf w';
  gr_past : forall name, auths_in (w_past w' name) = auths_in (w_past led name) \/ auths_in (w_past w' name) = auths_in (w_past led name) ++ [a];
  gr_held : forall name, held w' name `suffix_of` held led name \/ (name = FileFor (a_Contact a) /\ held w' name `suffix_of` (held led name ++ [a]));
  gr_window : forall ag t, window_count w' ag t <= window_count led ag t + (if in_window ag t a then 1 else 0)
}.

Lemma auths_left a ap : auth_of (Some (auth_line a)) = Some a ->
  auths_in (left_by ap (auth_line a)) = [] \/ auths_in (left_by ap (auth_line a)) = [a].
Proof. intros E. unfold auths_in, left_by. destruct (ap_wrote ap); cbn -[auth_of]; rewrite ?E; auto. Qed.

Lemma authorize_grants {E} fs a now (allow : View -> option E) led w' r : wf led -> fresh_id a led -> new_sigs fs led (FileFor (a_Contact a)) ->
  do_authorize fs a now allow led = (w', r) ->
  quiet led w' \/ (grants led w' a
    /\ allow (MkView (List.filter (for_contact (a_Agent a) (a_Contact a)) (held led (FileFor (a_Contact a)))) (hour_count (w_dir led) (a_Agent a) now (contacts (w_dir led)))) = None).
Proof.
  intros Hw Hf Hn Ed. pose proof (wf_authorize _ _ _ _ _ _ _ Hw Hf Hn Ed) as Hw'. apply do_authorize_cases in Ed as [(Ed & Ep & _)|(ok & Ea & _ & Ep & Eau & _ & _ & Hal)]; [| |done].
  { left. by apply quiet_view. }
  right. set (name := FileFor (a_Contact a)) in *. rewrite (auths_held _ _ (wf_sound _ Hw name)) in Hal. split; [|done].
  pose proof (append_line_dom _ _ _ _ _ _ Ea) as Hd. apply append_line_lines in Ea as (Hs & Ho & _).
  split; [done| | |].
  - intros n. rewrite Ep. destruct (decide (n = name)) as [->|Hne]; [|rewrite wrote_other by done; by left]. rewrite wrote_same. unfold auths_in at 1 3. rewrite omap_app.
    destruct (auths_left a (fs_append fs 0%nat) Eau) as [E1|E1]; unfold auths_in in E1; rewrite E1; [left; by rewrite app_nil_r|by right].
  - intros n. unfold held. destruct (decide (n = name)) as [->|Hne]; [|rewrite Ho by done; by left]. destruct Hs as [x Hx]. apply (f_equal auths_in) in Hx.
    unfold auths_in in *. rewrite !omap_app in Hx. destruct (auths_left a (fs_append fs 0%nat) Eau) as [E1|E1]; unfold auths_in in E1; rewrite E1 in Hx.
    + left. rewrite app_nil_r in Hx. by exists (omap auth_of x).
    + right. split; [done|]. by exists (omap auth_of x).
  - intros ag t. apply (window_grows _ _ name _ _ _ _ Hd Hs Ho). destruct (auths_left a (fs_append fs 0%nat) Eau) as [-> | ->]; unfold count; cbn; [by destruct (in_window _ _ _)|].
    destruct (in_window ag t a); cbn; lia.
Qed.

Lemma new_sigs_opened w k led : all_new w k -> opened k led -> forall name, new_sigs (kw_fs w) led name.
Proof. intros Hn [-> | ->] name; [apply Hn|]. intros i. destruct (Hn name i) as [? _]. split; [done|]. by split. Qed.

Lemma fresh_opened w k led p req kind replyTo last a : ids_fresh w k -> opened k led -> asks k p req w kind replyTo last a -> fresh_id a led.
Proof.
  intros Hf Ho (caller & c & agentID & id & _ & _ & _ & _ & _ & _ & Eid & ->). unfold fresh_id. cbn [new_auth a_ID a_Contact].
  destruct (Hf id (FileFor (ce_Login c)) Eid). by destruct Ho as [-> | ->].
Qed.

(** What the ledger answers the decision on [a]. *)
Definition view_for (k : KState) (w : KWorld) (a : Auth) : View :=
  MkView (List.filter (for_contact (a_Agent a) (a_Contact a)) (held (k_led k) (FileFor (a_Contact a))))
    (hour_count (w_dir (k_led k)) (a_Agent a) (kw_now w) (contacts (w_dir (k_led k)))).

(** The request is let through as [a], the ledger's decision included. *)
Record authorizes (k : KState) (p : peer) (req : ContactMessageRequest) (w : KWorld) (kind replyTo : string) (last : Time) (a : Auth) : Prop := {
  az_asks : asks k p req w kind replyTo last a;
  az_decision : decide_auth (k_cfg k) kind replyTo last (kw_now w) (view_for k w a) = None
}.

Lemma view_opened k led w a : opened k led ->
  MkView (List.filter (for_contact (a_Agent a) (a_Contact a)) (held led (FileFor (a_Contact a)))) (hour_count (w_dir led) (a_Agent a) (kw_now w) (contacts (w_dir led)))
  = view_for k w a.
Proof. by intros [-> | ->]. Qed.

(** Every event is quiet, or a request let through. *)
Lemma event_cases k e : wf (k_led k) -> meets e k ->
  quiet (k_led k) (k_led (kapply k e)) \/ exists led p req w kind replyTo last a, e = EMessage p (Some req) w /\ opened k led
    /\ authorizes k p req w kind replyTo last a /\ grants led (k_led (kapply k e)) a.
Proof.
  intros Hw Hm. assert (Hop : forall led, opened k led -> quiet (k_led k) led) by (intros led; by apply quiet_opened).
  destruct e as [p w fss|p body w|body w|n u|cfg n chat u]; cbn [kapply meets] in *.
  - left. destruct (handleContacts p w fss k) as [k' r] eqn:E. apply handleContacts_effect in E as (led & Ho & Hs). pose proof (Hop _ Ho) as Hq.
    eapply quiet_trans; [exact Hq|]. apply quiet_views; [apply Hq|done].
  - destruct Hm as [Hf Hn]. destruct (handleContactMessage p body w k) as [k' r] eqn:E.
    apply handleContactMessage_effect in E as [Ho|(req & kind & replyTo & last & a & led & -> & Ho & Ha & El)]; [left; by apply Hop|].
    destruct (do_authorize _ _ _ _ led) as [led' ar] eqn:Ed. cbn [fst] in *. rewrite El.
    pose proof (Hop _ Ho) as Hq. apply authorize_grants in Ed as [Hq'|[Hg Hal]];
      [left; by eapply quiet_trans| |apply Hq|by eapply fresh_opened|by eapply new_sigs_opened].
    right. exists led, p, req, w, kind, replyTo, last, a. split_and!; try done. split; [done|]. by rewrite <- (view_opened k led).
  - left. destruct (handleAgentMessagesMatch body w k) as [k' r] eqn:E.
    apply handleAgentMessagesMatch_effect in E as [[Ho _]|(req & led & led' & ans & -> & Ho & Em & El & _)]; [by apply Hop|]. cbn [fst]. rewrite El.
    pose proof (Hop _ Ho) as Hq. eapply quiet_trans; [exact Hq|]. eapply quiet_match; [apply Hq|by eapply new_sigs_opened|exact Em].
  - left. by apply quiet_refl.
  - left. apply Hop. by right.
Qed.

(** * The rules hold *)

(** What the authorization [a] needed of the records [P] its file held. *)
Definition initiate_rule (cfg : AgentMessagesConfig) (P : list Auth) (last : Time) (a : Auth) : Prop :=
  match List.filter (fun t => After t last) (a_Created <$> of_kind KindInitiated (List.filter (for_contact (a_Agent a) (a_Contact a)) P)) with
  | [] => True
  | [t] => t + am_FollowUpAfter cfg <= a_Created a
  | _ => False
  end.
Definition reply_rule (P : list Auth) (a : Auth) : Prop :=
  Z.of_nat (length (List.filter (fun b => str_eqb (a_ReplyTo b) (a_ReplyTo a)) (of_kind KindReply (List.filter (for_contact (a_Agent a) (a_Contact a)) P)))) < contactRepliesPerRef.

(** [a] is what a request of this history was let through as, by the rules on the
    records [P]. *)
Record licence (k0 : KState) (es : list kevent) (P : list Auth) (a : Auth) (pre : list kevent) (p : peer) (req : ContactMessageRequest) (w : KWorld)
    (kind replyTo : string) (last : Time) : Prop := {
  lc_event : exists post, es = pre ++ EMessage p (Some req) w :: post;
  lc_authorizes : authorizes (krun k0 pre) p req w kind replyTo last a;
  lc_initiated : a_Kind a = KindInitiated -> initiate_rule (k_cfg (krun k0 pre)) P last a;
  lc_reply : a_Kind a = KindReply -> reply_rule P a
}.
Definition licensed (k0 : KState) (es : list kevent) (P : list Auth) (a : Auth) : Prop :=
  exists pre p req w kind replyTo last, licence k0 es P a pre p req w kind replyTo last.

Lemma licensed_later k0 es e P a : licensed k0 es P a -> licensed k0 (es ++ [e]) P a.
Proof.
  intros (pre & p & req & w & kind & replyTo & last & [[post ->] Ha Hi Hp]). exists pre, p, req, w, kind, replyTo, last. split; [|done..].
  exists (post ++ [e]). by rewrite <- app_assoc.
Qed.

Lemma filter_suffix {A} (q : A -> bool) l k : l `suffix_of` k -> List.filter q l `suffix_of` List.filter q k.
Proof. intros [x ->]. rewrite List.filter_app. by eexists. Qed.

Lemma licensed_suffix k0 es P P' a : P' `suffix_of` P -> licensed k0 es P a -> licensed k0 es P' a.
Proof.
  intros Hs (pre & p & req & w & kind & replyTo & last & [Hr Ha Hi Hp]). exists pre, p, req, w, kind, replyTo, last. split; [done|done| |].
  - intros E. specialize (Hi E). unfold initiate_rule in *.
    assert (Hf : List.filter (fun t => After t last) (a_Created <$> of_kind KindInitiated (List.filter (for_contact (a_Agent a) (a_Contact a)) P'))
      `suffix_of` List.filter (fun t => After t last) (a_Created <$> of_kind KindInitiated (List.filter (for_contact (a_Agent a) (a_Contact a)) P))).
    { apply filter_suffix. destruct (filter_suffix (fun a => str_eqb (a_Kind a) KindInitiated) _ _ (filter_suffix (for_contact (a_Agent a) (a_Contact a)) _ _ Hs)) as [x Ex].
      unfold of_kind. rewrite Ex, fmap_app. by eexists. }
    revert Hf Hi. generalize (List.filter (fun t => After t last) (a_Created <$> of_kind KindInitiated (List.filter (for_contact (a_Agent a) (a_Contact a)) P))).
    generalize (List.filter (fun t => After t last) (a_Created <$> of_kind KindInitiated (List.filter (for_contact (a_Agent a) (a_Contact a)) P'))).
    intros l l' [x ->]. destruct x as [|t x]; [done|]. destruct x as [|t' x]; [|done]. by destruct l.
  - intros E. specialize (Hp E). unfold reply_rule, of_kind in *.
    pose proof (filter_suffix (fun b => str_eqb (a_ReplyTo b) (a_ReplyTo a)) _ _ (filter_suffix (fun a => str_eqb (a_Kind a) KindReply) _ _
      (filter_suffix (for_contact (a_Agent a) (a_Contact a)) _ _ Hs))) as [x Ex]. rewrite Ex, length_app in Hp. lia.
Qed.

(** What the ledger's decision leaves. *)
Lemma decided k p req w kind replyTo last a P n : asks k p req w kind replyTo last a ->
  decide_auth (k_cfg k) kind replyTo last (kw_now w) (MkView (List.filter (for_contact (a_Agent a) (a_Contact a)) P) n) = None ->
  n < contactAuthPerHour /\ (a_Kind a = KindInitiated -> initiate_rule (k_cfg k) P last a) /\ (a_Kind a = KindReply -> reply_rule P a).
Proof.
  intros (caller & c & agentID & id & _ & _ & _ & _ & _ & _ & _ & ->). unfold decide_auth. cbn [v_LastHour a_Kind a_Agent a_Contact new_auth].
  destruct (Z.leb_spec contactAuthPerHour n) as [|Hn]; [done|]. destruct (str_eqb kind KindReply) eqn:Ek.
  - apply str_eqb_eq in Ek as ->. destruct (Z.leb_spec contactRepliesPerRef (Z.of_nat (length (replies_to replyTo (MkView (List.filter (for_contact (slug_of caller k) (ce_Login c)) P) n))))) as [|Hr]; [done|].
    intros _. split_and!; [done|done|]. intros _. exact Hr.
  - apply str_eqb_neq in Ek. intros E. split_and!; [done| |done]. intros _. unfold initiate_rule. cbn [a_Agent a_Contact new_auth a_Created].
    unfold initiateDecision, initiated_of in E. cbn [v_ForContact] in E.
    destruct (List.filter _ _) as [|t [|t' l]]; [done| |done]. unfold Before, Add in E. destruct (Z.ltb_spec (kw_now w) (t + am_FollowUpAfter (k_cfg k))); [done|lia].
Qed.

(** What a history keeps. *)
Record kept (k0 : KState) (es : list kevent) (w : world) : Prop := {
  kp_wf : wf w;
  kp_window : forall ag t, window_count w ag t <= contactAuthPerHour;
  kp_past : forall name a, a ∈ auths_in (w_past w name) -> licensed k0 es [] a;
  kp_held : forall name P a Q, held w name = P ++ a :: Q -> licensed k0 es P a
}.

Lemma kept_quiet k0 es w w' : kept k0 es w -> quiet w w' -> kept k0 es w'.
Proof.
  intros [Hw Hwi Hp Hh] [Hw' Qp Qh Qw]. split; [done| | |].
  - intros ag t. specialize (Hwi ag t). specialize (Qw ag t). lia.
  - intros name a. rewrite Qp. apply Hp.
  - intros name P a Q E. destruct (Qh name) as [x Ex]. rewrite E in Ex. apply (licensed_suffix k0 es (x ++ P)); [by eexists|].
    apply (Hh name _ _ Q). by rewrite Ex, <- app_assoc.
Qed.

Lemma kept_later k0 es e w : kept k0 es w -> kept k0 (es ++ [e]) w.
Proof.
  intros [Hw Hwi Hp Hh]. split; [done|done| |].
  - intros name a Ha. by eapply licensed_later, Hp.
  - intros name P a Q E. by eapply licensed_later, Hh.
Qed.

Lemma kept_grants k0 es w w' a : kept k0 es w -> grants w w' a -> licensed k0 es (held w (FileFor (a_Contact a))) a ->
  (forall ag t, in_window ag t a = true -> window_count w ag t < contactAuthPerHour) -> kept k0 es w'.
Proof.
  intros [Lw Lwi Lp Lh] [Gw Gp Gh Gwi] Hlic Hrate. split; [done| | |].
  - intros ag t. specialize (Gwi ag t). specialize (Lwi ag t). specialize (Hrate ag t). destruct (in_window ag t a); [specialize (Hrate eq_refl)|]; lia.
  - intros name b. destruct (Gp name) as [-> | ->]; [apply Lp|]. intros [Hb| ->%list_elem_of_singleton]%elem_of_app; [by apply (Lp name)|].
    eapply licensed_suffix; [|exact Hlic]. apply suffix_nil.
  - intros name P b Q E. destruct (Gh name) as [[x Ex]|[-> [x Ex]]].
    + rewrite E in Ex. apply (licensed_suffix k0 es (x ++ P)); [by eexists|]. apply (Lh name _ _ Q). by rewrite Ex, <- app_assoc.
    + rewrite E, app_assoc in Ex. symmetry in Ex. destruct (snoc_split _ _ _ _ _ (eq_sym Ex)) as [(-> & Ex' & ->)|[P3 Ex']].
      * apply (licensed_suffix k0 es (x ++ P)); [by eexists|]. by rewrite Ex'.
      * apply (licensed_suffix k0 es (x ++ P)); [by eexists|]. by apply (Lh (FileFor (a_Contact a)) _ _ P3).
Qed.

Lemma kept_step k0 es k e : history k0 es k -> kept k0 es (k_led k) -> meets e k -> kept k0 (es ++ [e]) (k_led (kapply k e)).
Proof.
  intros Hh Hk Hm. apply event_cases in Hm as [Hq|(led & p & req & w & kind & replyTo & last & a & -> & Ho & Haz & Hg)]; [| |apply Hk].
  { apply kept_later. by eapply kept_quiet. }
  pose proof (quiet_opened _ _ (kp_wf _ _ _ Hk) Ho) as Hq. pose proof (kept_quiet _ _ _ _ Hk Hq) as Hl.
  assert (Eh : forall name, held led name = held (k_led k) name) by (intros name; by destruct Ho as [-> | ->]).
  destruct Haz as [Ha Hd]. pose proof (decided _ _ _ _ _ _ _ _ _ _ Ha Hd) as (Hrate & Hi & Hr).
  apply (kept_grants _ _ led _ a); [by apply kept_later|done| |].
  - rewrite Eh. exists es, p, req, w, kind, replyTo, last. rewrite (history_run _ _ _ Hh) in *. split; [by exists []|done..].
  - intros ag t Ew. assert (Hnow : a_Created a = kw_now w) by (by destruct Ha as (? & ? & ? & ? & _ & _ & _ & _ & _ & _ & _ & ->)).
    unfold in_window in Ew. apply andb_prop in Ew as [[E1%str_eqb_eq E2]%andb_prop E3]. subst ag. rewrite Hnow in E2, E3.
    pose proof (window_below_rate led (a_Agent a) t (kw_now w) (kp_wf _ _ _ Hl) ltac:(lia)) as Hb. enough (w_dir led = w_dir (k_led k)) as E by (rewrite E in Hb; lia). by destruct Ho as [-> | ->].
Qed.

Lemma kept_history k0 es k : k_led k0 = ledger0 -> history k0 es k -> kept k0 es (k_led k).
Proof.
  intros E0. induction 1 as [|es k e Hh IH Hm]; [|by apply kept_step]. rewrite E0.
  split; [apply wf_empty|intros ag t; unfold window_count, ledger0; cbn [w_dir]; rewrite dom_empty_L, elements_empty; cbn; unfold contactAuthPerHour; lia|by intros name a Ha%elem_of_nil|intros name [|? ?]; discriminate].
Qed.

(** C18: No agent ever has more than thirty authorizations of any one hour in the
    ledger: not through clocks that disagree, failed or torn appends, rotated
    files, revocations or restarts of the broker. *)
Theorem hourly_rate_is_bounded k0 es k ag t : k_led k0 = ledger0 -> history k0 es k -> window_count (k_led k) ag t <= contactAuthPerHour.
Proof. intros E Hr. apply (kp_window _ _ _ (kept_history _ _ _ E Hr)). Qed.

(** C19: Every authorization the ledger holds is of a message request among the
    broker's own past events, as [a] carries its fresh id and its instant: the
    caller was live then, its contact's entry listed it, and the text was one the
    hub keeps as it is. Of the records the file still holds from before it, one the
    agent started had at most one other, itself overdue for its reminder, since
    what the chat ledger then said was the contact's last post; one in answer named
    a post of the contact the agent had verified, with at most two other answers. *)
Theorem authorizations_follow_the_rules k0 es k name P a Q : k_led k0 = ledger0 -> history k0 es k -> held (k_led k) name = P ++ a :: Q ->
  exists pre p req w post caller c agentID, es = pre ++ EMessage p (Some req) w :: post
    /\ (requireLive p "contact" "" (k_node (krun k0 pre))).2 = Some caller /\ slug_of caller (krun k0 pre) = a_Agent a
    /\ contactFor (k_cfg (krun k0 pre)) (cq_To req) (a_Agent a) = Some c /\ a_Contact a = ce_Login c
    /\ contactText (cq_Text req) (am_MaxChars (k_cfg (krun k0 pre))) = "" /\ a_SHA256 a = HashText (cq_Text req)
    /\ NewID (kw_idb w) = Some (a_ID a) /\ a_Created a = kw_now w /\ agentHubID w (a_Agent a) = Ok agentID
    /\ ((a_Kind a = KindInitiated /\ TrimSpace (cq_ReplyToRef req) = ""
          /\ exists last, ChatLedger.LastPost (kw_chatfs w) (kw_chat w) (ce_Login c) agentID = Ok last /\ initiate_rule (k_cfg (krun k0 pre)) P last a)
        \/ (a_Kind a = KindReply /\ a_ReplyTo a = TrimSpace (cq_ReplyToRef req) /\ reply_rule P a
          /\ exists e, ChatLedger.ByMessageID (kw_chatfs w) (kw_chat w) (ce_Login c) (a_ReplyTo a) = Ok (Some e)
                /\ answerable caller (a_ReplyTo a) agentID (kw_now w) w (krun k0 pre) e = true)).
Proof.
  intros E Hr Hh. destruct (kp_held _ _ _ (kept_history _ _ _ E Hr) _ _ _ _ Hh) as (pre & p & req & w & kind & replyTo & last & [[post ->] [Ha _] Hi Hp]).
  destruct Ha as (caller & c & agentID & id & Hl & _ & Hc & Ht & Hid & Hcl & Hnew & Ea). rewrite Ea in Hi, Hp |- *.
  cbn [new_auth a_Agent a_Contact a_SHA256 a_Kind a_ReplyTo a_ID a_Created] in *.
  exists pre, p, req, w, post, caller, c, agentID. split_and!; try done. unfold classify in Hcl. destruct (is_empty (TrimSpace (cq_ReplyToRef req))) eqn:Er; cbn [negb] in Hcl.
  - destruct (ChatLedger.LastPost _ _ _ _) as [l|] eqn:El; [|done]. injection Hcl as <- <- <-. left. apply is_empty_true in Er. split_and!; [done|done|]. exists l. split; [done|by apply Hi].
  - destruct (ChatLedger.ByMessageID _ _ _ _) as [[e|]|] eqn:Ee; [|done..]. destruct (answerable _ _ _ _ _ _ _) eqn:Ean; [|done]. injection Hcl as <- <- <-.
    right. split_and!; [done|done|by apply Hp|]. by exists e.
Qed.

(** A request among the events [es] was let through as a message of this agent to
    the file of this contact, with this hash. *)
Definition authorized_hash (k0 : KState) (es : list kevent) (agent contact sha : string) : Prop :=
  exists pre p req w post kind replyTo last a, es = pre ++ EMessage p (Some req) w :: post
    /\ authorizes (krun k0 pre) p req w kind replyTo last a
    /\ a_Agent a = agent /\ FileFor (a_Contact a) = FileFor contact /\ HashText (cq_Text req) = sha.

Lemma kept_ids_authorized k0 es k body w k' resp id : k_led k0 = ledger0 -> history k0 es k ->
  handleAgentMessagesMatch body w k = (k', ROk resp) -> id ∈ mr_Keep resp ->
  exists req m, body = Some req /\ m ∈ mq_Messages req /\ c_MessageID m = id /\ authorized_hash k0 es (mq_Agent req) (mq_Contact req) (c_SHA256 m).
Proof.
  intros E0 Hr E Hid. pose proof (kept_history _ _ _ E0 Hr) as Hk. apply handleAgentMessagesMatch_effect in E as [[_ E]|(req & led & led' & ans & -> & Ho & Em & _ & E)]; [by destruct (E resp)|].
  specialize (E resp eq_refl) as ->. cbn in Hid. apply list_elem_of_fmap in Hid as (m0 & -> & Hm0). apply list_elem_of_In, List.filter_In in Hm0 as [_ Hm0].
  apply bool_decide_eq_true in Hm0. destruct (kept_quiet _ _ _ _ Hk (quiet_opened _ _ (kp_wf _ _ _ Hk) Ho)) as [Lw _ Lp _].
  destruct (kept_is_recorded _ _ _ _ _ _ _ _ _ _ Lw Em Hm0) as (a & m & Ha & Hm & Eid & Eag & Esh & _).
  destruct (Lp _ _ Ha) as (pre & p & mreq & mw & kind & replyTo & last & [[post ->] Haz _ _]). pose proof (wf_filed _ Lw _ _ Ha) as Hf.
  exists req, m. split_and!; [done|done|done|]. exists pre, p, mreq, mw, post, kind, replyTo, last, a. split_and!; [done|done|done|done|].
  destruct Haz as [(caller & c & agentID & aid & _ & _ & _ & _ & _ & _ & _ & ->) _]. by rewrite <- Esh.
Qed.

(** C16: What the remote proxy may show a contact stands on a message request among
    the broker's own past events, which the broker let through then, the rate and
    the limits of the ledger included: from the agent whose history it is, to a
    contact of the same ledger file, with a text of the hash that is shown. *)
Theorem shown_messages_were_authorized k0 es k body w k' resp id : k_led k0 = ledger0 -> history k0 es k ->
  handleAgentMessagesMatch body w k = (k', ROk resp) -> id ∈ mr_Keep resp ->
  exists req m, body = Some req /\ m ∈ mq_Messages req /\ c_MessageID m = id
    /\ exists pre p mreq w1 post caller c, es = pre ++ EMessage p (Some mreq) w1 :: post
       /\ (requireLive p "contact" "" (k_node (krun k0 pre))).2 = Some caller /\ slug_of caller (krun k0 pre) = mq_Agent req
       /\ contactFor (k_cfg (krun k0 pre)) (cq_To mreq) (mq_Agent req) = Some c /\ FileFor (ce_Login c) = FileFor (mq_Contact req)
       /\ contactText (cq_Text mreq) (am_MaxChars (k_cfg (krun k0 pre))) = "" /\ HashText (cq_Text mreq) = c_SHA256 m
       /\ exists kind replyTo last a, authorizes (krun k0 pre) p mreq w1 kind replyTo last a /\ a_Agent a = mq_Agent req /\ a_Contact a = ce_Login c.
Proof.
  intros E0 Hr E Hid. destruct (kept_ids_authorized _ _ _ _ _ _ _ _ E0 Hr E Hid) as (req & m & Eb & Hm & Ei & Ha). exists req, m. split_and!; [done..|].
  destruct Ha as (pre & p & mreq & w1 & post & kind & replyTo & last & a & Ees & Haz & Eag & Ef & Eh). pose proof (az_asks _ _ _ _ _ _ _ _ Haz) as Hasks.
  destruct Hasks as (caller & c & agentID & aid & Hl & _ & Hc & Ht & _ & _ & _ & Ea). subst a. cbn [new_auth a_Agent a_Contact] in *.
  exists pre, p, mreq, w1, post, caller, c. rewrite Eag in Hc. split_and!; try done. by exists kind, replyTo, last, (new_auth aid (slug_of caller (krun k0 pre)) c kind replyTo (cq_Text mreq) (kw_now w1)).
Qed.

End Routes.

End ContactSafe.
