(* ===== verification/RemotePath.v ===== *)
(** The remote proxy's decisions on a request's path
    ([internal/remoteproxy/pathcheck.go] and the route lists of [proxy.go]):
    which paths are refused outright, which routes hand out hub credentials or are
    not narrowed by the hub, and where a sign-in returns to; with the theorem that
    a path that passes reads one way, decoded or not. *)

From S2P Require Import Prelude Go TreePath GoPath GoText GoHttp.

Module RemotePath.
Import TreePath GoPath GoText GoHttp.

Definition get_or_head (method : string) : bool := str_eqb method "GET" || str_eqb method "HEAD".

(** [url.Parse], of which the code reads the scheme, the host, the path and the
    query. *)
Record ParsedURL := MkParsed { pu_Scheme : string; pu_Host : string; pu_Path : string; pu_RawQuery : string }.
Class UrlParse := { url_Parse : string -> option ParsedURL }.

(** [unicode.ToLower] of an ASCII letter. *)
Class AsciiLower `{Unicode} : Prop := lower_ascii : forall r, 0 <= r < 128 -> rune_lower r = if (65 <=? r) && (r <=? 90) then r + 32 else r.

Section Paths.
Context `{Unicode}.

Definition dot_segment (seg : string) : bool := str_eqb seg "." || str_eqb seg "..".
Definition encoded_bytes : list string := ["%2f"; "%5c"; "%2e"; "%00"].

Definition unsafePath (r : Request) : string :=
  let p := rq_Path r in
  if negb (HasPrefix p "/") then "path is not rooted"
  else if ContainsAny p ["\"%char; NUL] then "path holds a backslash or a NUL"
  else if existsb dot_segment (Split (drop_bytes 1 p) "/") then "path holds a dot segment"
  else if Contains p "//" then "path holds an empty segment"
  else
    let raw := ToLower (EscapedPath (rq_URL r)) in
    if existsb (Contains raw) encoded_bytes then "path holds an encoded slash, backslash, dot or NUL" else "".

Definition authAPIPrefix : string := "/api/v1/auth/".

(** [strings.Cut] at a slash. *)
Definition cut_slash (s : string) : string * string * bool := match cut "/" s with (a, Some b) => (a, b, true) | (a, None) => (a, "", false) end.

Definition mintsCredential (method p : string) : bool :=
  let p := ToLower p in
  if str_eqb p (TrimSuffix authAPIPrefix "/") then true
  else if negb (HasPrefix p authAPIPrefix) then false
  else
    let rest := drop_bytes (String.length authAPIPrefix) p in
    if str_eqb rest "me" || str_eqb rest "admin-status" || str_eqb rest "scopes" || str_eqb rest "providers" then negb (get_or_head method)
    else if str_eqb rest "logout" then negb (str_eqb method "POST")
    else if str_eqb rest "tokens" then negb (get_or_head method)
    else
      let '(id, ok) := CutPrefix rest "tokens/" in
      if ok && negb (is_empty id) then
        let '(tok, sub, found) := cut_slash id in
        if found then negb (negb (is_empty tok) && str_eqb sub "revoke" && str_eqb method "POST")
        else negb (get_or_head method) && negb (str_eqb method "DELETE")
      else true.

Definition callbackPath : string := "/auth/callback".
Definition refusedPrefixes : list string :=
  ["/api/v1/conduit"; "/api/v1/admin/conduit"; "/api/v1/artifacts"; "/api/v1/thread-groups"; "/api/v1/test-identit"; "/auth/test-identity"].
Definition brokerWritePrefixes : list string := ["/api/v1/brokers"; "/api/v1/runtime-brokers"].
Definition projectBases : list string := ["/api/v1/projects"; "/api/v1/groves"].

(** The loop over the spellings of a project route. *)
Fixpoint project_route (method p : string) (bases : list string) : bool :=
  match bases with
  | [] => false
  | base :: bases =>
    if str_eqb p base then negb (get_or_head method)
    else
      let '(rest, ok) := CutPrefix p (base +:+ "/") in
      if negb ok then project_route method p bases
      else
        let '(id, sub, _) := cut_slash rest in
        if str_eqb id "register" then true
        else if str_eqb sub "clone" || HasPrefix sub "clone/" then true
        else project_route method p bases
  end.

Definition agent_route (p : string) : bool :=
  let '(rest, ok) := CutPrefix p "/api/v1/agents/" in
  let '(_, sub, found) := cut_slash rest in
  ok && found && (HasPrefix sub "ports/tunnel" || HasPrefix sub "delegations").

Definition refusedRoute (method p : string) : bool :=
  let p := ToLower p in
  if existsb (HasPrefix p) refusedPrefixes then true
  else if HasPrefix p "/api/v1/admin/experiments" then negb (get_or_head method)
  else if existsb (fun prefix => HasPrefix p prefix && negb (get_or_head method)) brokerWritePrefixes then true
  else if agent_route p then true
  else if str_eqb p "/api/v1/system" || HasPrefix p "/api/v1/system/" then negb (str_eqb p "/api/v1/system/status" && get_or_head method)
  else if str_eqb p callbackPath || HasPrefix p (callbackPath +:+ "/") then true
  else project_route method p projectBases.

Definition loginPathPrefix : string := "/auth/login".
Definition isLoginPath (p : string) : bool := str_eqb p loginPathPrefix || HasPrefix p (loginPathPrefix +:+ "/").

Definition loginReturnTarget `{UrlParse} (v : string) : string :=
  if negb (HasPrefix v "/") || HasPrefix v "//" || HasPrefix v "/\" then "/"
  else
    match url_Parse v with
    | Some u => if negb (is_empty (pu_Scheme u)) || negb (is_empty (pu_Host u)) then "/" else v
    | None => "/"
    end.

(** * What passes reads one way *)

Definition lower_byte (c : ascii) : ascii := if is_upper c then byte_of (byte_val c + 32) else c.
Fixpoint lower_bytes (s : string) : string := match s with EmptyString => "" | String c s => String (lower_byte c) (lower_bytes s) end.

Lemma ToLower_bytes `{!AsciiLower} s : is_ascii s = true -> ToLower s = lower_bytes s.
Proof.
  intros Ha. unfold ToLower. rewrite runes_ascii by done. unfold is_ascii in Ha.
  induction s as [|c s IH]; [done|]. cbn [string_forallb] in Ha. apply andb_prop in Ha as [Hc Hs].
  cbn [byte_list fmap list_fmap encode_runes foldr lower_bytes]. fold (encode_runes (rune_lower <$> byte_list s)). rewrite IH by done.
  pose proof (byte_val_range c). rewrite lower_ascii by lia. change (String (lower_byte c) (lower_bytes s)) with (String (lower_byte c) "" +:+ lower_bytes s). f_equal.
  unfold lower_byte, is_upper, between. destruct ((65 <=? byte_val c) && (byte_val c <=? 90)) eqn:E.
  - unfold encode_rune. zcases. cbn. replace (byte_val c + 32 <? 128) with true by lia. done.
  - unfold encode_rune. zcases. cbn. rewrite Hc. unfold byte_val. by rewrite Nat2Z.id, ascii_nat_embedding.
Qed.

Lemma HasPrefix_cons c s d t : HasPrefix (String c s) (String d t) = bool_decide (c = d) && HasPrefix s t.
Proof. unfold HasPrefix. cbn [String.prefix]. destruct (ascii_dec d c) as [->|Hne]; [by rewrite bool_decide_true|]. by rewrite bool_decide_eq_false_2 by congruence. Qed.

Lemma slash_digits x y a b : unhex a = Some x -> unhex b = Some y -> byte_of (16 * x + y) = Slash -> lower_byte a = "2"%char /\ lower_byte b = "f"%char.
Proof.
  set (P c := match unhex c with
              | Some v => (0 <=? v) && (v <? 16) && (negb (v =? 2) || bool_decide (lower_byte c = "2"%char)) && (negb (v =? 15) || bool_decide (lower_byte c = "f"%char))
              | None => true
              end).
  assert (Hh : forall c v, unhex c = Some v -> 0 <= v < 16 /\ (v = 2 -> lower_byte c = "2"%char) /\ (v = 15 -> lower_byte c = "f"%char)).
  { intros c v Ec. assert (HP : P c = true) by (apply (all_bytes P); vm_compute; reflexivity). unfold P in HP. rewrite Ec in HP.
    apply andb_prop in HP as [[[H0 H1]%andb_prop H2]%andb_prop H3]. split; [lia|].
    split; intros ->; [apply orb_prop in H2 as [H2|H2]|apply orb_prop in H3 as [H3|H3]]; guards; done. }
  intros Ea Eb E. pose proof (Hh a x Ea) as Ha. pose proof (Hh b y Eb) as Hb.
  apply (f_equal byte_val) in E. unfold byte_of in E. rewrite byte_val_of_nat in E by lia. change (byte_val Slash) with 47 in E. split; [apply Ha|apply Hb]; lia.
Qed.

Definition hides_slash (e : string) : bool := Contains (lower_bytes e) "%2f".

Lemma hidden_tail c e : hides_slash (String c e) = false -> hides_slash e = false.
Proof. unfold hides_slash. cbn [lower_bytes Contains]. by intros [_ ?]%orb_false_elim. Qed.

Lemma Split_slash c s x xs : c <> Slash -> Split s Slash = x :: xs -> Split (String c s) Slash = String c x :: xs.
Proof. intros Hc E. cbn [Split]. by rewrite bool_decide_eq_false_2, E by done. Qed.

(** Without an encoded slash, decoding the segments and splitting the decoded
    path are the same. *)
Lemma split_decoded e : forall s, path_unescape e = Some s -> hides_slash e = false ->
  mapM path_unescape (Split e Slash) = Some (Split s Slash).
Proof.
  unfold path_unescape. induction e as [e IH] using (induction_ltof1 _ String.length). unfold ltof in IH. intros s. destruct e as [|c e]; [by intros [= <-]|].
  cbn [unescape_as]. destruct (bool_decide (c = "%"%char)) eqn:Ec.
  - guards. subst c. destruct e as [|a [|b e]]; [done..|]. destruct (unhex a) as [x|] eqn:Ea; [|done]. destruct (unhex b) as [y|] eqn:Eb; [|done].
    intros (s' & E & ->)%fmap_Some Hh. assert (Hne : byte_of (16 * x + y) <> Slash).
    { intros Hs. destruct (slash_digits x y a b Ea Eb Hs) as [Ha Hb]. unfold hides_slash in Hh. cbn [lower_bytes Contains] in Hh. rewrite Ha, Hb in Hh.
      change (lower_byte "%") with "%"%char in Hh. rewrite !HasPrefix_cons in Hh. by destruct (lower_bytes e). }
    pose proof (IH e ltac:(simpl; lia) s' E (hidden_tail _ _ (hidden_tail _ _ (hidden_tail _ _ Hh)))) as Hm.
    destruct (Split e Slash) as [|p ps] eqn:Ep; [by apply Split_nonempty in Ep|]. destruct (Split s' Slash) as [|q qs] eqn:Eq; [by apply Split_nonempty in Eq|].
    assert (Hab : a <> Slash /\ b <> Slash) by (split; intros ->; done).
    rewrite (Split_slash _ _ q qs Hne Eq).
    rewrite (Split_slash "%" _ (String a (String b p)) ps); [|done|apply Split_slash; [apply Hab|apply Split_slash; [apply Hab|done]]].
    apply mapM_Some_1 in Hm. apply Forall2_cons_1 in Hm as [Hp Hps]. apply mapM_Some_2. constructor; [|done].
    cbn [unescape_as]. rewrite bool_decide_true by done. by rewrite Ea, Eb, Hp.
  - guards. intros (s' & E & ->)%fmap_Some Hh. cbn [andb]. pose proof (IH e ltac:(simpl; lia) s' E (hidden_tail _ _ Hh)) as Hm.
    destruct (decide (c = Slash)) as [->|Hc].
    + cbn [Split]. rewrite bool_decide_true by done. apply mapM_Some_1 in Hm. apply mapM_Some_2. by constructor.
    + destruct (Split e Slash) as [|p ps] eqn:Ep; [by apply Split_nonempty in Ep|]. destruct (Split s' Slash) as [|q qs] eqn:Eq; [by apply Split_nonempty in Eq|].
      rewrite (Split_slash _ _ p ps Hc Ep), (Split_slash _ _ q qs Hc Eq). apply mapM_Some_1 in Hm. apply Forall2_cons_1 in Hm as [Hp Hps].
      apply mapM_Some_2. constructor; [|done]. cbn [unescape_as]. by rewrite bool_decide_eq_false_2, Hp.
Qed.

Lemma components_Split p : components p = Split p Slash.
Proof.
  revert p. apply path_ind; intros a; [intros Hf; by rewrite components_one, Split_free|].
  intros r Hf IH. by rewrite components_cons, Split_app, IH.
Qed.

Definition plain_segment (s : string) : Prop := dot_segment s = false.

Lemma clean_plain b l : Forall plain_segment l -> forall acc, foldl (clean_step b) acc l = rev (List.filter (fun s => negb (is_empty s)) l) ++ acc.
Proof.
  induction 1 as [|c l Hc _ IH]; intros acc; [done|]. unfold plain_segment, dot_segment in Hc. apply orb_false_elim in Hc as [H1 H2].
  cbn [foldl List.filter]. unfold clean_step at 2. rewrite H1, H2, orb_false_r. destruct (is_empty c); cbn [negb]; rewrite IH; [done|].
  cbn [rev]. by rewrite <- app_assoc.
Qed.

Lemma Contains_tail c s sub : Contains (String c s) sub = false -> Contains s sub = false.
Proof. cbn [Contains]. by intros [_ ?]%orb_false_elim. Qed.

(** Without two slashes in a row, only the last segment may be empty. *)
Lemma segments_full q : Contains (String Slash q) "//" = false -> exists init last, Split q Slash = init ++ [last] /\ Forall (fun s => s <> "") init.
Proof.
  revert q. apply (path_ind (fun q => Contains (String Slash q) "//" = false -> exists init last, Split q Slash = init ++ [last] /\ Forall (fun s => s <> "") init)).
  - intros q Hf _. exists [], q. by rewrite Split_free.
  - intros a r Hf IH Hc. assert (Hr : Contains (String Slash r) "//" = false).
    { apply Contains_tail in Hc. revert Hc. clear. induction a as [|c a IH]; [done|]. rewrite string_app_cons. intros Hc. by apply IH, (Contains_tail c). }
    destruct (IH Hr) as (init & last & E & Hi). exists (a :: init), last. rewrite Split_app, E by done. split; [done|].
    constructor; [|done]. intros ->. cbn in Hc. by destruct r.
Qed.

Lemma filter_full l : Forall (fun s => s <> "") l -> List.filter (fun s => negb (is_empty s)) l = l.
Proof. induction 1 as [|s l Hs _ IH]; [done|]. cbn. rewrite (proj2 (is_empty_false s) Hs). cbn. by rewrite IH. Qed.

Lemma clean_segments q init last : Split q Slash = init ++ [last] -> Forall (fun s => s <> "") init -> Forall plain_segment (init ++ [last]) ->
  Clean (String Slash q) = String Slash q \/ Clean (String Slash q) +:+ "/" = String Slash q.
Proof.
  intros Eq Hi Hp. unfold Clean, clean_components. change (IsAbs (String Slash q)) with (HasPrefix (String Slash q) "/").
  replace (HasPrefix (String Slash q) "/") with true by (by destruct q). rewrite components_Split. cbn [Split]. rewrite bool_decide_true, Eq by done.
  cbn [foldl]. rewrite clean_plain by done. unfold clean_step. cbn [is_empty orb]. rewrite app_nil_r, rev_involutive, List.filter_app, (filter_full _ Hi).
  assert (Ej : join (init ++ [last]) = q) by (by rewrite <- Eq, <- components_Split, join_components).
  change join_slash with join. change ("/" +:+ ?t) with (String Slash t). cbn [List.filter]. destruct (is_empty last) eqn:El; cbn [negb].
  - apply is_empty_true in El as ->. rewrite app_nil_r. destruct init as [|c cs]; [left; by rewrite <- Ej|right].
    rewrite join_app in Ej by done. rewrite <- Ej. done.
  - left. by rewrite Ej.
Qed.

Definition unescaped_segments (p : string) : option (list string) := mapM path_unescape (Split p Slash).

Lemma safe_facts r : unsafePath r = "" -> exists q, rq_Path r = String Slash q /\ existsb dot_segment (Split q Slash) = false /\ Contains (String Slash q) "//" = false
  /\ ContainsAny (String Slash q) ["\"%char; NUL] = false /\ existsb (Contains (ToLower (EscapedPath (rq_URL r)))) encoded_bytes = false.
Proof.
  unfold unsafePath. destruct (HasPrefix (rq_Path r) "/") eqn:Er; [|done]. cbn [negb]. apply HasPrefix_spec in Er as [q Eq]. rewrite Eq. change ("/" +:+ q) with (String Slash q).
  destruct (ContainsAny _ _) eqn:E1; [done|]. change (drop_bytes 1 (String Slash q)) with (drop_bytes (String.length "/") ("/" +:+ q)). rewrite drop_bytes_app.
  destruct (existsb dot_segment _) eqn:E2; [done|]. destruct (Contains _ "//") eqn:E3; [done|]. destruct (existsb (Contains _) _) eqn:E4; [done|].
  intros _. by exists q.
Qed.

(** C26: A path [unsafePath] lets through is made of the same segments whether it is
    split before it is decoded or after, no segment is a dot or two, and cleaning
    it changes at most a slash at its end: who reads it as it came, who reads it
    decoded and who cleans it first land on the same route. *)
Theorem safe_path_reads_one_way `{!AsciiLower} r : unsafePath r = "" ->
  exists segs, Split (rq_Path r) Slash = "" :: segs
  /\ unescaped_segments (EscapedPath (rq_URL r)) = Some ("" :: segs)
  /\ (forall s, s ∈ segs -> s <> "." /\ s <> "..")
  /\ (Clean (rq_Path r) = rq_Path r \/ Clean (rq_Path r) +:+ "/" = rq_Path r).
Proof.
  intros (q & Eq & Hd & Hc & _ & He)%safe_facts. destruct (segments_full q Hc) as (init & last & Es & Hi).
  assert (Hp : Forall plain_segment (init ++ [last])).
  { rewrite <- Es. apply Forall_forall. intros s Hs. unfold plain_segment. destruct (dot_segment s) eqn:E; [|done].
    rewrite (proj2 (existsb_exists _ _)) in Hd; [done|]. exists s. split; [by apply list_elem_of_In|done]. }
  exists (init ++ [last]). rewrite Eq. cbn [Split]. rewrite bool_decide_true by done. rewrite Es. split_and!; [done| | |by eapply clean_segments].
  - unfold unescaped_segments. rewrite (split_decoded _ (String Slash q)); [|by rewrite <- Eq; apply EscapedPath_decodes|].
    + cbn [Split]. by rewrite bool_decide_true, Es.
    + cbn in He. apply orb_false_elim in He as [He _]. unfold hides_slash. by rewrite <- ToLower_bytes by apply EscapedPath_ascii.
  - intros s Hs. rewrite Forall_forall in Hp. specialize (Hp s Hs). unfold plain_segment, dot_segment in Hp. apply orb_false_elim in Hp as [H1 H2]. by guards.
Qed.

(** The path as it travels starts with the slash the decoded one starts with. *)
Lemma safe_escaped `{!AsciiLower} r : unsafePath r = "" -> HasPrefix (EscapedPath (rq_URL r)) "/" = true /\ rq_Path r <> "*" /\ HasPrefix (rq_Path r) "/" = true.
Proof.
  intros (q & Eq & _ & _ & _ & He)%safe_facts. pose proof (EscapedPath_decodes (rq_URL r)) as Ed. fold (rq_Path r) in Ed.
  assert (Hh : hides_slash (EscapedPath (rq_URL r)) = false).
  { cbn in He. apply orb_false_elim in He as [He _]. unfold hides_slash. by rewrite <- ToLower_bytes by apply EscapedPath_ascii. }
  pose proof (split_decoded _ _ Ed Hh) as Hm. rewrite Eq in Hm |- *. split_and!; [|done|by destruct q].
  cbn [Split] in Hm. rewrite bool_decide_true in Hm by done. destruct (EscapedPath (rq_URL r)) as [|d e]; [by rewrite Eq in Ed|].
  rewrite HasPrefix_cons. assert (d = Slash) as ->; [|by destruct e]. destruct (decide (d = Slash)) as [|Hd]; [done|exfalso].
  destruct (Split e Slash) as [|x xs] eqn:Ex; [by apply Split_nonempty in Ex|]. rewrite (Split_slash _ _ x xs Hd Ex) in Hm. apply mapM_Some_1, Forall2_cons_1 in Hm as [Hm _].
  unfold path_unescape in Hm. cbn [unescape_as] in Hm. destruct (bool_decide _); [|destruct (unescape_as false x); done].
  destruct x as [|a [|b x]]; [done..|]. destruct (unhex a), (unhex b); try done. by destruct (unescape_as false x).
Qed.

End Paths.
End RemotePath.
