(* ===== verification/RemoteWorld.v ===== *)
(** What the remote proxy's handler is made of before any decision: its
    configuration, its audit line, the answers it writes itself, the questions it
    asks of the world (the hub, the session source, the broker, the clock, the
    caches its requests share), and JSON as the proxy reads and writes it
    ([internal/remoteproxy/proxy.go], [contact.go], [chatpage.go]). *)

From stdpp Require Import sorting.
From S2P Require Import Prelude Go TreePath GoPath GoText GoHttp RemotePath ChatLedger Effects.

Module RemoteWorld.
Import TreePath GoPath GoText GoHttp RemotePath Effects.

(** * Configuration *)

(** [Config]: a function that may be nil is here whether it is set; what it
    answers is a question below. *)
Record Config := MkConfig {
  c_TargetHost : string; c_Target : URL;
  c_ServeHost : string; c_ListenPort : Z; c_AllowedUsers : list string;
  c_LoginCurrent : bool;
  c_IdentityHeader : string; c_TrustForwardedHost : bool; c_BindHost : string;
  c_Session : bool; c_Audit : bool; c_ChatLedger : bool;
  c_Contacts : gmap string (list string);
  c_ResolveAgents : bool; c_ContactSession : bool;
  c_ChatAgent : string; c_MatchAgentMessages : bool;
  c_Files : option (list string);
  c_Voice : bool; c_Speech : bool; c_Push : bool;
  c_LogPath : string
}.
Definition DefaultIdentityHeader : string := "Tailscale-User-Login".
Definition identityHeader (c : Config) : string :=
  CanonicalHeaderKey (if is_empty (c_IdentityHeader c) then DefaultIdentityHeader else c_IdentityHeader c).
Definition DefaultLogPath : string := ".lever-state/remote.log".

(** What [NewHandler] turns on. *)
Definition chat_on (c : Config) : bool := negb (is_empty (c_ChatAgent c)).
Definition fence_on (c : Config) : bool := negb (bool_decide (c_Contacts c = ∅)) && c_ResolveAgents c.
Definition push_on (c : Config) : bool := chat_on c && c_Push c.
Definition voice_on (c : Config) : bool := chat_on c && c_Voice c.
Definition speak_on (c : Config) : bool := voice_on c && c_Speech c.

(** * Audit lines *)

Record AuditLine := MkLine {
  al_Time : Time; al_TSLogin : string; al_Method : string; al_Path : string;
  al_Decision : string; al_Status : Z; al_Reason : string; al_Error : string
}.
Definition decided (decision : string) (status : Z) (l : AuditLine) : AuditLine :=
  MkLine (al_Time l) (al_TSLogin l) (al_Method l) (al_Path l) decision status (al_Reason l) (al_Error l).
Definition with_reason (reason : string) (l : AuditLine) : AuditLine :=
  MkLine (al_Time l) (al_TSLogin l) (al_Method l) (al_Path l) (al_Decision l) (al_Status l) reason (al_Error l).
Definition failed (status : Z) (err : string) (l : AuditLine) : AuditLine :=
  MkLine (al_Time l) (al_TSLogin l) (al_Method l) (al_Path l) (al_Decision l) status (al_Reason l) err.

Definition maxAuditFieldLen : nat := 200.
Definition ellipsis : string := encode_rune 8230.
Definition truncateAudit (v : string) : string :=
  if (String.length v <=? maxAuditFieldLen)%nat then v else String.substring 0 maxAuditFieldLen v +:+ ellipsis.

Definition DecisionAllow : string := "allow".
Definition DecisionDenyPath : string := "deny-path".
Definition DecisionDenyHost : string := "deny-host".
Definition DecisionDenyOrigin : string := "deny-origin".
Definition DecisionDenyUser : string := "deny-user".
Definition DecisionDenyRevoked : string := "deny-revoked".
Definition DecisionDenyMint : string := "deny-credential-mint".
Definition DecisionDenyRoute : string := "deny-route".
Definition DecisionDenyNoSession : string := "deny-no-session".
Definition DecisionLoginRedirect : string := "login-redirect".
Definition DecisionDenyContact : string := "deny-contact".

(** * Answers *)

Definition StatusOK : Z := 200.
Definition StatusCreated : Z := 201.
Definition StatusFound : Z := 302.
Definition StatusNotModified : Z := 304.
Definition StatusSwitchingProtocols : Z := 101.

Definition headers (l : list (string * string)) : Header := foldl (fun h kv => hdr_set kv.1 kv.2 h) ∅ l.
Definition answer_with (status : Z) (h : list (string * string)) (body : bytes) : Response := MkResponse status (headers h) (Some body).
(** [http.Error]. *)
Definition http_Error (msg : string) (status : Z) : Response :=
  answer_with status [("Content-Type", "text/plain; charset=utf-8"); ("X-Content-Type-Options", "nosniff")] (msg +:+ eol).

(** [http.Redirect] to a relative or absolute URL. *)
Definition path_dir (p : string) : string := match cut_last p with Some (d, _) => d +:+ "/" | None => "" end.
Fixpoint hexEscapeNonASCII (s : string) : string :=
  match s with
  | EmptyString => ""
  | String c s =>
    if byte_val c <? 128 then String c (hexEscapeNonASCII s)
    else String "%" (String (lower_byte (hexdigit (byte_val c / 16))) (String (lower_byte (hexdigit (byte_val c mod 16))) (hexEscapeNonASCII s)))
  end.
Definition clean_location (url : string) : string :=
  let '(path, query) := match cut "?" url with (p, Some q) => (p, String "?" q) | (p, None) => (p, "") end in
  let cleaned := Clean path in
  (if HasSuffix path "/" && negb (HasSuffix cleaned "/") then cleaned +:+ "/" else cleaned) +:+ query.
Definition redirect_url `{UrlParse} (r : Request) (url : string) : string :=
  match url_Parse url with
  | Some u =>
    if is_empty (pu_Scheme u) && is_empty (pu_Host u) then clean_location (if HasPrefix url "/" then url else path_dir (rq_Path r) +:+ url)
    else url
  | None => url
  end.
Definition Location `{UrlParse} (r : Request) (url : string) : string := hexEscapeNonASCII (redirect_url r url).

(** * JSON *)

Set Warnings "-register-all".

(** A JSON value as the code keeps it in a [json.RawMessage]: numbers are their
    text, members stand in order. *)

Inductive json : Type :=
| JNull
| JBool (b : bool)
| JNum (text : string)
| JStr (s : string)
| JArr (l : list json)
| JObj (members : list (string * json)).

(** Package [encoding/json]: a whole text, the first value of a stream, and the
    text of a value; [time.Parse] in the layouts used; [net.ParseIP];
    [mime.ParseMediaType]; [html.EscapeString]; [strconv.Quote]. *)
Class RemoteLib := {
  json_parse : bytes -> option json;
  json_first : bytes -> option json;
  json_text : json -> bytes;
  parse_nano : string -> option Time;
  format_chat_time : Time -> string;
  Address : Type;
  ParseIP : string -> option Address;
  SameIP : Address -> Address -> bool;
  IsUnspecified : Address -> bool;
  media_type : string -> string;
  EscapeString : string -> string;
  Quote : string -> string
}.

Section Json.
Context `{Unicode, RemoteLib}.

(** A [map[string]json.RawMessage]: the last member of a name counts. *)
Definition obj_map (ms : list (string * json)) : gmap string json := foldl (fun m kv => <[kv.1 := kv.2]> m) ∅ ms.
(** [json.Unmarshal] into such a map, whose zero value is the nil map. *)
Definition as_map (v : json) : option (option (gmap string json)) := match v with JObj ms => Some (Some (obj_map ms)) | JNull => Some None | _ => None end.
Definition as_list (v : json) : option (list json) := match v with JArr l => Some l | JNull => Some [] | _ => None end.
(** [json.Marshal] of such a map: members in the order of their names. *)
Definition map_json (m : gmap string json) : json := JObj ((fun k => (k, default JNull (m !! k))) <$> merge_sort str_le (elements (dom m))).

(** The members of an object a struct's field takes: the one of its name, or else
    of its name under case folding. *)
Definition field_of (keys : list string) (k : string) : option string :=
  match List.find (str_eqb k) keys with Some f => Some f | None => List.find (fun f => EqualFold f k) keys end.
Definition bound_to (keys : list string) (f : string) (ms : list (string * json)) : list json :=
  snd <$> List.filter (fun kv => bool_decide (field_of keys kv.1 = Some f)) ms.
(** A field of type [string] given one value after another; a null changes nothing. *)
Definition take_string (acc : option string) (v : json) : option string :=
  match acc, v with Some _, JStr s => Some s | Some s, JNull => Some s | _, _ => None end.
Definition string_field (keys : list string) (f : string) (ms : list (string * json)) : option string :=
  foldl take_string (Some "") (bound_to keys f ms).
Definition take_time (acc : option Time) (v : json) : option Time :=
  match acc, v with Some _, JStr s => parse_nano s | Some t, JNull => Some t | _, _ => None end.
Definition time_field (keys : list string) (f : string) (ms : list (string * json)) : option Time :=
  foldl take_time (Some zeroTime) (bound_to keys f ms).
Definition members_of (v : json) : option (list (string * json)) := match v with JObj ms => Some ms | JNull => Some [] | _ => None end.
End Json.

(** * The world *)

(** The handlers of the chat page, each for the requests [serveChatPage] gives
    it; what they do is not modelled. *)
Inductive page :=
| PContacts | PNewConversation | PActivity (name : string) | PWake (name : string)
| PFiles (agent id : string) | PVoice | PSpeak | PPush | PAgents | PFile.

Record AgentMessage := MkMessage { am_ID : string; am_SHA256 : string; am_CreatedAt : Time }.

(** A question the handler asks. *)
Inductive question :=
| Now
(** [Config.LoginCurrent], and whether it admits the login. *)
| Current (login : string)
(** The session source: a login's cookie, and a cookie to drop. *)
| Cookie (login : string)
| Invalidate (login cookie : string)
(** A request over the transport of the reverse proxy, or of the fence's own client. *)
| RoundTrip (out : Request)
| Ask_hub (out : Request)
(** [Config.ResolveAgents], [Config.ContactSession] (the reason it refuses),
    [Config.MatchAgentMessages], [Config.ChatLedger]. *)
| Resolve
| Fresh (agent : string)
| Match (contact agent : string) (msgs : list AgentMessage)
| Record_ (e : ChatLedger.Entry)
(** The fence's caches, each under its mutex. *)
| CachedIDs
| StoreIDs (ids : gmap string string)
| CachedUser (login : string)
| StoreUser (login id : string)
| Page (h : page) (r : Request) (login cookie : string)
| Audit (l : AuditLine).

Definition reply (q : question) : Type :=
  match q with
  | Now => Time
  | Current _ => bool
  | Cookie _ => option string
  | RoundTrip _ | Ask_hub _ => result Response string
  | Resolve => option (gmap string string)
  | Fresh _ | Record_ _ => option string
  | Match _ _ _ => option (gset string)
  | CachedIDs => option (gmap string string * Time)
  | CachedUser _ => option (string * Time)
  | Page _ _ _ _ => Response
  | Invalidate _ _ | StoreIDs _ | StoreUser _ _ | Audit _ => unit
  end.
Definition act (A : Type) : Type := prog reply A.

(** The runs of a program by its first step. *)
Lemma runs_inv {action} {answer : action -> Type} {A} (p : prog answer A) tr a : runs p tr a ->
  match p with Ret b => tr = [] /\ a = b | Ask q k => exists r tr', tr = Ev q r :: tr' /\ runs (k r) tr' a end.
Proof. destruct 1; eauto. Qed.

Lemma runs_bind {action} {answer : action -> Type} {A B} (p : prog answer A) (f : A -> prog answer B) : forall tr b, runs (bind p f) tr b ->
  exists t1 a t2, tr = t1 ++ t2 /\ runs p t1 a /\ runs (f a) t2 b.
Proof.
  induction p as [a|q k IH]; intros tr b; cbn [bind]; [intros Hr; exists [], a, tr; split_and!; [done|constructor|done]|].
  intros (r & tr' & -> & (t1 & a & t2 & -> & H1 & H2)%IH)%runs_inv. exists (Ev q r :: t1), a, t2. split_and!; [done|by constructor|done].
Qed.

Ltac run_ret H := apply runs_inv in H as [-> ->].
Ltac run_ask H r tr := apply runs_inv in H as (r & tr & -> & H); cbn [bind] in H.

End RemoteWorld.
