(* ===== verification/ContactView.v ===== *)
(** What the remote proxy lets a contact read of the hub's answers
    ([internal/remoteproxy/agentmsgs.go], [events.go] and the list filter of
    [contact.go]): the history page cut down to the rows the agent ledger
    recorded, the conversation list, and the event stream reduced to subjects. *)

From stdpp Require Import sorting.
From S2P Require Import Prelude Go Token ChatLedger TreePath ManifestCodec Manifest Effects GoPath GoText GoHttp AgentLedger RemotePath RemoteWorld.

Module ContactView.
Import TreePath GoPath GoText GoHttp RemotePath Effects RemoteWorld.
Import Manifest.

Definition maxHistoryAnswer : Z := 32 * 2 ^ 20.
Definition maxMatchRows : nat := 200.
Definition maxListAnswer : nat := N.to_nat (8 * 2 ^ 20).

(** * Rows *)

Record historyRow := MkRow { hr_ID : string; hr_Sender : string; hr_SenderID : string; hr_Type : string; hr_Msg : string; hr_CreatedAt : string }.
Definition rowKeys : list string := ["id"; "sender"; "senderId"; "type"; "msg"; "createdAt"].
(** A row the proxy cannot read: an agent's, never kept. *)
Definition unreadable : historyRow := MkRow "" "agent:?" "" "" "" "".

Definition agentRow (m : historyRow) (uid agentID : string) : bool :=
  if str_eqb (hr_SenderID m) uid && negb (is_empty uid) && HasPrefix (hr_Sender m) "user:" then false
  else
    let hubLine := (str_eqb (hr_Type m) "system" || str_eqb (hr_Type m) "state-change") && negb (HasPrefix (hr_Sender m) "agent:")
                   && negb (str_eqb (hr_SenderID m) agentID) && negb (is_empty (hr_SenderID m)) in
    negb hubLine.

Definition agentTypes (t : string) : bool := str_eqb t "instruction" || str_eqb t "input-needed" || str_eqb t "assistant-reply".

Definition idCounts (rows : list historyRow) (id : string) : nat := length (List.filter (fun m => str_eqb (hr_ID m) id) rows).

Section View.
Context `{Unicode, RemoteLib, SHA256}.

Definition decode_row (v : json) : option historyRow :=
  match members_of v with
  | None => None
  | Some ms =>
    let f k := string_field rowKeys k ms in
    match f "id", f "sender", f "senderId", f "type", f "msg", f "createdAt" with
    | Some i, Some s, Some si, Some t, Some m, Some c => Some (MkRow i s si t m c)
    | _, _, _, _, _, _ => None
    end
  end.

(** The question about one row, if it is one to ask about. *)
Definition ask_row (rows : list historyRow) (agentID uid : string) (m : historyRow) : list AgentMessage :=
  if negb (agentRow m uid agentID) || negb (str_eqb (hr_SenderID m) agentID) || negb (agentTypes (hr_Type m)) || is_empty (hr_ID m) || is_empty (hr_Msg m)
     || negb (idCounts rows (hr_ID m) =? 1)%nat then []
  else match parse_nano (hr_CreatedAt m) with Some t => [MkMessage (hr_ID m) (AgentLedger.HashText (hr_Msg m)) t] | None => [] end.

Definition askAgentRows (c : Config) (contact agent agentID uid : string) (rows : list historyRow) : act (option (gset string)) :=
  if negb (c_MatchAgentMessages c) then Ret None
  else
    let asked := take maxMatchRows (rows ≫= ask_row rows agentID uid) in
    if bool_decide (asked = []) then Ret (Some ∅)
    else
      (let* got := ask (action := question) (answer := reply) (Match contact agent asked) in
       Ret match got with
           | Some got => Some (list_to_set (List.filter (fun id => bool_decide (id ∈ got)) (am_ID <$> asked)))
           | None => None
           end)%prog.

Definition contactShown (rows : list historyRow) (keep : gset string) (uid agentID id : string) : bool :=
  existsb (fun m => str_eqb (hr_ID m) id && (idCounts rows (hr_ID m) =? 1)%nat && (negb (agentRow m uid agentID) || bool_decide (hr_ID m ∈ keep))) rows.

(** * The history page *)

Definition historyFields : list string := ["messages"; "nextCursor"; "totalCount"; "messageAttachments"; "messageExtensions"].
Definition historyRowFields : list string :=
  ["id"; "projectId"; "sender"; "senderId"; "recipient"; "recipientId"; "msg"; "type"; "urgent"; "broadcasted"; "read"; "agentId"; "conversationId"; "createdAt";
   "senderProjectId"; "recipientProjectId"; "dispatchState"; "dispatchedAt"; "dispatchFailureReason"].
Definition extensionFields : list string := ["messageId"; "replyToId"; "editedAt"; "deletedAt"].
Definition attachmentFields : list string := ["id"; "name"; "mime"; "size"].

Definition pickFields (v : json) (fields : list string) : option (gmap string json) :=
  match as_map v with Some (Some m) => Some (filter (fun kv => kv.1 ∈ fields) m) | _ => None end.

Definition pickAttachments (v : json) : json :=
  JArr match as_list v with Some l => map_json <$> omap (fun a => pickFields a attachmentFields) l | None => [] end.

Definition dropHiddenReplyTo (v : json) (shown : string -> bool) : json :=
  match pickFields v extensionFields with
  | None => JObj []
  | Some e =>
    map_json match e !! "replyToId" with
             | Some (JStr to) => if shown to then e else delete "replyToId" e
             | Some JNull => if shown "" then e else delete "replyToId" e
             | Some _ => delete "replyToId" e
             | None => e
             end
  end.

Definition emptyHistory : bytes := "{" +:+ String "034" ("messages" +:+ String "034" (":[]," +:+ String "034" ("totalCount" +:+ String "034" ":0}"))).
Definition emptyDMs : bytes := "{" +:+ String "034" ("dms" +:+ String "034" ":[]}").
Definition itoa (n : nat) : string := ManifestCodec.format_int (Z.of_nat n).
Definition setBody (b : bytes) (r : Response) : Response :=
  MkResponse (rs_Status r) (hdr_del "Content-Encoding" (hdr_set "Content-Length" (itoa (String.length b)) (rs_Header r))) (Some b).

(** The rows of the answer that stay, each rebuilt from the listed fields; and the
    ids of those that do not. *)
Definition keep_row (shown : string -> bool) (mr : historyRow * json) : option (gmap string json) :=
  if shown (hr_ID mr.1) then pickFields mr.2 historyRowFields else None.
Definition removed_ids (shown : string -> bool) (rows : list (historyRow * json)) : list string :=
  hr_ID ∘ fst <$> List.filter (fun mr => negb (bool_decide (is_Some (keep_row shown mr)))) rows.

(** The entries kept beside the rows, by the id of theirs. *)
Definition side_entry (attachments : bool) (shown : string -> bool) (removed listed agentIDs : list string) (id : string) (v : json) : option json :=
  if bool_decide (id ∈ removed) || negb (bool_decide (id ∈ listed)) || attachments && bool_decide (id ∈ agentIDs) then None
  else Some (if attachments then pickAttachments v else dropHiddenReplyTo v shown).
Definition side_entries (attachments : bool) (shown : string -> bool) (removed listed agentIDs : list string) (k : string) (doc : gmap string json) : gmap string json :=
  match doc !! k with
  | None => doc
  | Some v =>
    match as_map v with
    | None => delete k doc
    | Some None => <[k := JNull]> doc
    | Some (Some m) => <[k := map_json (map_imap (side_entry attachments shown removed listed agentIDs) m)]> doc
    end
  end.

(** The answer once the rows to keep are known. *)
Definition history_doc (doc : gmap string json) (raws : list json) (rows : list historyRow) (keep : gset string) (uid agentID : string) : gmap string json :=
  let shown := contactShown rows keep uid agentID in
  let both := zip rows raws in
  let removed := removed_ids shown both in
  let listed := hr_ID <$> rows in
  let agentIDs := hr_ID <$> List.filter (fun m => agentRow m uid agentID) rows in
  let doc := <["messages" := JArr (map_json <$> omap (keep_row shown) both)]> doc in
  side_entries false shown removed listed agentIDs "messageExtensions" (side_entries true shown removed listed agentIDs "messageAttachments" doc).

(** What the page's rows are read from: the listed fields and the rows. *)
Definition history_rows (body : bytes) : option (gmap string json * list json) :=
  match json_parse body with
  | None => None
  | Some v =>
    match pickFields v historyFields with
    | None => None
    | Some doc => match doc !! "messages" with Some v => pair doc <$> as_list v | None => None end
    end
  end.

Definition filterHistory (c : Config) (contact agent agentID uid : string) (resp : Response) : act Response :=
  if negb (rs_Status resp =? StatusOK) then Ret resp
  else
    match rs_Body resp with
    | Some body =>
      if (maxHistoryAnswer <? len body) || negb (is_empty (hdr_get (rs_Header resp) "Content-Encoding")) then Ret (setBody emptyHistory resp)
      else
        match history_rows body with
        | None => Ret (setBody emptyHistory resp)
        | Some (doc, raws) =>
          let rows := (fun v => default unreadable (decode_row v)) <$> raws in
          (let* keep := askAgentRows c contact agent agentID uid rows in
           Ret (setBody (json_text (map_json (history_doc doc raws rows (default ∅ keep) uid agentID))) resp))%prog
        end
    | None => Ret (setBody emptyHistory resp)
    end.

(** * The conversation list *)

Definition dms_of (resp : Response) : option (gmap string json * list (option (gmap string json))) :=
  if negb (is_empty (hdr_get (rs_Header resp) "Content-Encoding")) then None
  else
    match rs_Body resp with
    | None => None
    | Some body =>
      match json_parse (String.substring 0 maxListAnswer body) with
      | Some v =>
        match as_map v with
        | Some (Some doc) => match doc !! "dms" with Some l => match as_list l with Some l => pair doc <$> mapM as_map l | None => None end | None => None end
        | _ => None
        end
      | None => None
      end
    end.
Definition dms_json (doc : gmap string json) (dms : list json) : bytes := json_text (map_json (<["dms" := JArr dms]> doc)).
Definition opt_json (d : option (gmap string json)) : json := match d with Some d => map_json d | None => JNull end.

Definition dm_kept (keep : string -> bool) (d : option (gmap string json)) : bool :=
  match d with
  | Some d => match d !! "conversationKey" with Some (JStr k) => keep k | Some JNull => keep "" | _ => false end
  | None => false
  end.
Definition filterDMList (keep : string -> bool) (resp : Response) : Response :=
  if negb (rs_Status resp =? StatusOK) then resp
  else setBody match dms_of resp with Some (doc, dms) => dms_json doc (opt_json <$> List.filter (dm_kept keep) dms) | None => emptyDMs end resp.

Definition dmEntryHidden : list string := ["lastMessagePreview"; "lastMessageSender"; "lastMessageId"; "lastActivityAt"; "hasUnread"].
Definition strip_entry (d : gmap string json) : gmap string json := foldl (fun d k => delete k d) d dmEntryHidden.
Definition stripDMPreviews (resp : Response) : Response :=
  if negb (rs_Status resp =? StatusOK) then resp
  else setBody match dms_of resp with Some (doc, dms) => dms_json doc ((fun d => opt_json (strip_entry <$> d)) <$> dms) | None => emptyDMs end resp.

End View.
End ContactView.

(** A contact's event stream ([internal/remoteproxy/events.go]): each event of the
    hub reduced to its subject and numeric id, with what a reduced stream can hold. *)

Module ContactEvents.
Import TreePath GoPath GoText GoHttp RemotePath RemoteWorld ContactView.

Definition maxEventLine : Z := 2 ^ 20.
Definition maxEventBytes : Z := 2 * 2 ^ 20.

Definition eventIDRE (s : string) : bool := (1 <=? len s) && (len s <=? 20) && string_forallb is_dec s.
Definition heartbeatRE (s : string) : bool := HasPrefix s ":heartbeat " && eventIDRE (drop_bytes 11 s).
Definition subject_char (c : ascii) : bool := is_alphanum c || one_of "._-" c.
Definition subjectRE (s : string) : bool := (1 <=? len s) && (len s <=? 200) && string_forallb subject_char s.

Section Events.
Context `{Unicode, RemoteLib}.

Definition blank : string := eol +:+ eol.
Definition TrimPrefix (s p : string) : string := fst (CutPrefix s p).

(** The loop over an event's lines: the fields read, or what is written at once. *)
Fixpoint event_fields (single : bool) (id event data : string) (lines : list string) : result (string * string * string) string :=
  match lines with
  | [] => Ok (id, event, data)
  | l :: lines =>
    if HasPrefix l ":" then Err (if single && heartbeatRE l then l +:+ blank else "")
    else if HasPrefix l "id: " then event_fields single (TrimPrefix l "id: ") event data lines
    else if HasPrefix l "event: " then event_fields single id (TrimPrefix l "event: ") data lines
    else if HasPrefix l "data: " then if negb (is_empty data) then Err "" else event_fields single id event (TrimPrefix l "data: ") lines
    else Err ""
  end.

Definition decode_subject (data : string) : option string :=
  match json_parse data with
  | Some v => match members_of v with Some ms => string_field ["subject"] "subject" ms | None => None end
  | None => None
  end.
Definition dq : string := String "034" "".
Definition subject_doc (subject : string) : string :=
  "{" +:+ dq +:+ "data" +:+ dq +:+ ":{}," +:+ dq +:+ "subject" +:+ dq +:+ ":" +:+ dq +:+ subject +:+ dq +:+ "}".

Definition reduce (prefix : string) (lines : list string) : string :=
  match event_fields (bool_decide (length lines = 1%nat)) "" "" "" lines with
  | Err out => out
  | Ok (id, event, data) =>
    if str_eqb event "reconnect" then "event: reconnect" +:+ eol +:+ "data: {}" +:+ blank
    else if str_eqb event "heartbeat" then
      if is_empty id && eventIDRE data then "event: heartbeat" +:+ eol +:+ "data: " +:+ data +:+ blank else ""
    else if negb (str_eqb event "update") then ""
    else
      match decode_subject data with
      | None => ""
      | Some subject =>
        if negb (subjectRE subject) || negb (HasPrefix subject prefix) then ""
        else (if eventIDRE id then "id: " +:+ id +:+ eol else "") +:+ "event: update" +:+ eol +:+ "data: " +:+ subject_doc subject +:+ blank
      end
  end.

Fixpoint trim_left_newlines (s : string) : string :=
  match s with String c s' => if bool_decide (c = "010"%char) || bool_decide (c = "013"%char) then trim_left_newlines s' else s | EmptyString => "" end.
Definition TrimRightNewlines (s : string) : string := String.rev (trim_left_newlines (String.rev s)).

(** One line of the stream as [readLine] gives it. *)
Definition read_line (raw : string) : string * bool := if maxEventLine <? len raw + 1 then ("", true) else (TrimRightNewlines raw, false).

(** Where [nextEvent] stands, and what was written. *)
Record reading := MkReading { r_lines : list string; r_size : Z; r_drop : bool; r_out : string }.
Definition next_line (prefix : string) (st : reading) (raw : string) : reading :=
  let '(line, tooLong) := read_line raw in
  if is_empty line && negb tooLong then
    MkReading [] 0 false (if r_drop st || bool_decide (r_lines st = []) then r_out st else r_out st +:+ reduce prefix (r_lines st))
  else
    let size := r_size st + len line in
    if tooLong || (maxEventBytes <? size) then MkReading [] size true (r_out st)
    else MkReading (if r_drop st then r_lines st else r_lines st ++ [line]) size (r_drop st) (r_out st).
(** The stream's whole lines; a partial one at the end is dropped. *)
Definition whole_lines (body : bytes) : list string := removelast (Split body NL).
Definition reduce_stream (prefix : string) (body : bytes) : bytes := r_out (foldl (next_line prefix) (MkReading [] 0 false "") (whole_lines body)).

Definition subject_prefix (uid : string) : string := "user." +:+ uid +:+ ".".
Definition reduceEvents (uid : string) (resp : Response) : Response :=
  if negb (rs_Status resp =? StatusOK) then resp
  else if negb (str_eqb (media_type (hdr_get (rs_Header resp) "Content-Type")) "text/event-stream") || negb (is_empty (hdr_get (rs_Header resp) "Content-Encoding"))
  then setBody "" resp
  else MkResponse (rs_Status resp) (hdr_del "Content-Length" (rs_Header resp)) (reduce_stream (subject_prefix uid) <$> rs_Body resp).

(** * What a reduced stream holds *)

Inductive own_frame (prefix : string) : string -> Prop :=
| of_none : own_frame prefix ""
| of_comment l : heartbeatRE l = true -> own_frame prefix (l +:+ blank)
| of_reconnect : own_frame prefix ("event: reconnect" +:+ eol +:+ "data: {}" +:+ blank)
| of_heartbeat n : eventIDRE n = true -> own_frame prefix ("event: heartbeat" +:+ eol +:+ "data: " +:+ n +:+ blank)
| of_update id s : id = "" \/ (exists n, eventIDRE n = true /\ id = "id: " +:+ n +:+ eol) -> subjectRE s = true -> HasPrefix s prefix = true ->
    own_frame prefix (id +:+ "event: update" +:+ eol +:+ "data: " +:+ subject_doc s +:+ blank).
#[local] Hint Constructors own_frame : lever.

Lemma fields_frame prefix single lines : forall id event data, match event_fields single id event data lines with Err out => own_frame prefix out | Ok _ => True end.
Proof.
  induction lines as [|l lines IH]; intros id event data; cbn [event_fields]; [done|].
  destruct (HasPrefix l ":"); [destruct (single && heartbeatRE l) eqn:E; [apply andb_prop in E as [_ E]|]; auto with lever|].
  destruct (HasPrefix l "id: "); [apply IH|]. destruct (HasPrefix l "event: "); [apply IH|].
  destruct (HasPrefix l "data: "); [|apply of_none]. destruct (negb (is_empty data)); [apply of_none|apply IH].
Qed.

Lemma reduce_frame prefix lines : own_frame prefix (reduce prefix lines).
Proof.
  unfold reduce. pose proof (fields_frame prefix (bool_decide (length lines = 1%nat)) lines "" "" "") as Hf.
  destruct (event_fields _ _ _ _ _) as [[[id event] data]|out]; [|done]. destruct (str_eqb event "reconnect"); [apply of_reconnect|].
  destruct (str_eqb event "heartbeat"). { destruct (is_empty id && eventIDRE data) eqn:E; [apply andb_prop in E as [_ E]|]; auto with lever. }
  destruct (negb _); [apply of_none|]. destruct (decode_subject data) as [s|]; [|apply of_none].
  destruct (_ || _) eqn:E; [apply of_none|]. apply orb_false_elim in E as [E1 E2]. guards. apply of_update; [|done..].
  destruct (eventIDRE id) eqn:Ei; [right; by exists id|by left].
Qed.

(** Whatever the hub streams, the contact receives frames of five forms: nothing,
    a heartbeat comment, the fixed reconnect hint, a heartbeat with a number, or an
    update with a number at most and a subject of the contact's own. *)
Theorem events_name_own_subjects uid resp b : rs_Status resp = StatusOK -> rs_Body (reduceEvents uid resp) = Some b ->
  exists frames, b = foldr String.append "" frames /\ Forall (own_frame (subject_prefix uid)) frames.
Proof.
  intros Es. unfold reduceEvents. rewrite Es, Z.eqb_refl. cbn [negb]. destruct (_ || _); [intros [= <-]; by exists []|].
  destruct (rs_Body resp) as [body|]; [|done]. intros [= <-]. unfold reduce_stream.
  assert (Hgo : forall lines st, (exists fs, r_out st = foldr String.append "" fs /\ Forall (own_frame (subject_prefix uid)) fs) ->
    exists fs, r_out (foldl (next_line (subject_prefix uid)) st lines) = foldr String.append "" fs /\ Forall (own_frame (subject_prefix uid)) fs).
  { induction lines as [|raw lines IH]; intros st (fs & Eo & Hf); [by exists fs|]. cbn [foldl]. apply IH. unfold next_line. destruct (read_line raw) as [line tooLong].
    destruct (is_empty line && negb tooLong); [|destruct (_ || _); by exists fs]. cbn [r_out]. destruct (_ || _); [by exists fs|].
    exists (fs ++ [reduce (subject_prefix uid) (r_lines st)]). split; [|apply Forall_app; split; [done|]; constructor; [apply reduce_frame|done]].
    rewrite Eo. clear. induction fs as [|f fs IH]; cbn; [by rewrite str_app_nil|]. rewrite str_app_assoc. f_equal. exact IH. }
  apply Hgo. by exists [].
Qed.

End Events.
End ContactEvents.
