(* ===== verification/ContactPage.v ===== *)
(** What a contact's history page can hold: rows rebuilt from the listed fields,
    each the contact's own or the hub's, or one of its agent's whose text the
    broker's ledger answered for; and, with the broker's routes behind the
    question ([internal/cli/host/remote.go]), a text the rules let through. *)

From S2P Require Import Prelude Go TreePath GoPath GoText GoHttp RemotePath ChatLedger Effects RemoteWorld Token Manifest Render Rate Broker SentLedger Uses Verify Messaging AgentLedger AgentShown AgentHistory ContactMsg ContactSafe ContactView.

Module ContactPage.
Import TreePath GoPath GoText GoHttp RemotePath Effects RemoteWorld.
Import Manifest ContactView.

(** * The question to the broker *)

Section Matcher.
Import AgentLedger ContactMsg.

Definition candidate (m : AgentMessage) : Candidate := MkCand (am_ID m) (am_SHA256 m) (am_CreatedAt m).
Definition match_request (peek : bool) (contact agent : string) (msgs : list AgentMessage) : MatchRequest :=
  MkMatchReq agent contact (candidate <$> msgs) peek.
(** What [remoteAgentMatcher] makes of the broker's answer: only ids the question
    named, and nothing of an answer that is not a 200. *)
Definition match_keep (msgs : list AgentMessage) (r : ContactMsg.MatchResponse) : gset string :=
  list_to_set (List.filter (fun id => bool_decide (id ∈ am_ID <$> msgs)) (mr_Keep r)).
(** What the operator's view is told is still pending, of what it is told is kept. *)
Definition match_pending (peek : bool) (msgs : list AgentMessage) (r : ContactMsg.MatchResponse) : gset string :=
  list_to_set (List.filter (fun id => peek && bool_decide (id ∈ match_keep msgs r)) (mr_Pending r)).
Definition remoteAgentMatcher (peek : bool) (msgs : list AgentMessage) (r : response ContactMsg.MatchResponse) : option (gset string * gset string) :=
  match r with ROk r => Some (match_keep msgs r, match_pending peek msgs r) | _ => None end.
(** The question of a contact's page. *)
Definition remoteAgentMessages (msgs : list AgentMessage) (r : response ContactMsg.MatchResponse) : option (gset string) := fst <$> remoteAgentMatcher false msgs r.
End Matcher.

Section Page.
Context `{Unicode, RemoteLib, SHA256}.

(** A row the contact may be shown, given what was asked and answered. *)
Inductive may_read (contact agent agentID uid : string) (tr : list (event reply)) (m : historyRow) : Prop :=
| not_agents : agentRow m uid agentID = false -> may_read contact agent agentID uid tr m
| answered_for asked (got : gset string) t :
    Ev (answer := reply) (Match contact agent asked) (Some got) ∈ tr -> MkMessage (hr_ID m) (AgentLedger.HashText (hr_Msg m)) t ∈ asked -> hr_ID m ∈ got ->
    (forall a, a ∈ asked -> am_ID a = hr_ID m -> am_SHA256 a = AgentLedger.HashText (hr_Msg m)) ->
    hr_SenderID m = agentID -> agentTypes (hr_Type m) = true -> hr_Msg m <> "" -> may_read contact agent agentID uid tr m.

(** The text of a row that spells each of its fields once, and as the struct does. *)
Definition spelled_once (v : json) : Prop :=
  match v with
  | JObj ms => NoDup ms.*1 /\ forall k, k ∈ ms.*1 -> forall f, field_of rowKeys k = Some f -> k = f
  | _ => True
  end.

Record row_of (raws : list json) (row : gmap string json) (m : historyRow) : Prop := {
  ro_fields : dom row ⊆ list_to_set historyRowFields;
  ro_text : hr_Msg m <> "" -> exists v, v ∈ raws /\ pickFields v historyRowFields = Some row /\ (spelled_once v -> row !! "msg" = Some (JStr (hr_Msg m)))
}.

(** What the answer holds. *)
Record page_of (contact agent agentID uid : string) (tr : list (event reply)) (raws : list json) (doc : gmap string json) : Prop := {
  po_fields : dom doc ⊆ list_to_set historyFields;
  po_rows : exists out : list (gmap string json), doc !! "messages" = Some (JArr (map_json <$> out))
    /\ forall row, row ∈ out -> exists m, row_of raws row m /\ may_read contact agent agentID uid tr m;
  po_side : forall k x, k = "messageAttachments" \/ k = "messageExtensions" -> doc !! k = Some x -> x = JNull \/ exists side, x = map_json side
    /\ forall id, id ∈ dom side -> exists m, hr_ID m = id /\ may_read contact agent agentID uid tr m /\ (k = "messageAttachments" -> agentRow m uid agentID = false)
}.

Lemma pickFields_dom v fields row : pickFields v fields = Some row -> dom row ⊆ list_to_set fields.
Proof.
  unfold pickFields. destruct (as_map v) as [[m|]|]; [|done..]. intros [= <-] k Hk. apply elem_of_dom in Hk as [x Hx].
  apply map_lookup_filter_Some in Hx as [_ Hk]. by apply elem_of_list_to_set.
Qed.

(** ** Counting rows by id *)

Lemma only_row rows m m' : m ∈ rows -> m' ∈ rows -> hr_ID m = hr_ID m' -> idCounts rows (hr_ID m) = 1%nat -> m = m'.
Proof.
  intros Hm Hm' E Hc. unfold idCounts in Hc. destruct (List.filter _ rows) as [|x [|y l]] eqn:Ef; [done| |done].
  assert (Hin : forall z, z ∈ rows -> hr_ID z = hr_ID m -> z = x).
  { intros z Hz Ez. assert (Hf : z ∈ List.filter (fun m0 => str_eqb (hr_ID m0) (hr_ID m)) rows) by (apply list_elem_of_In, List.filter_In; split; [by apply list_elem_of_In|by apply str_eqb_eq]).
    rewrite Ef in Hf. by apply list_elem_of_singleton in Hf. }
  by rewrite (Hin m), (Hin m').
Qed.

Lemma ask_row_spec rows agentID uid m a : a ∈ ask_row rows agentID uid m ->
  idCounts rows (hr_ID m) = 1%nat /\ hr_SenderID m = agentID /\ agentTypes (hr_Type m) = true /\ hr_Msg m <> ""
  /\ exists t, a = MkMessage (hr_ID m) (AgentLedger.HashText (hr_Msg m)) t.
Proof.
  unfold ask_row. destruct (_ || _) eqn:E; [by intros ?%elem_of_nil|]. repeat (apply orb_false_elim in E as [E ?]). guards.
  destruct (parse_nano _) as [t|]; [|by intros ?%elem_of_nil]. intros ->%list_elem_of_singleton. split_and!; try done; [|by exists t].
  by apply Nat.eqb_eq.
Qed.

(** The rows asked about that were answered for. *)
Lemma asked_rows c contact agent agentID uid rows tr keep : runs (askAgentRows c contact agent agentID uid rows) tr keep ->
  forall m, m ∈ rows -> idCounts rows (hr_ID m) = 1%nat -> hr_ID m ∈ default ∅ keep -> may_read contact agent agentID uid tr m.
Proof.
  unfold askAgentRows. destruct (negb _); [intros Hr; run_ret Hr; by intros m _ _ ?%elem_of_empty|].
  set (asked := take maxMatchRows _). destruct (bool_decide (asked = [])) eqn:En; [intros Hr; run_ret Hr; by intros m _ _ ?%elem_of_empty|].
  intros Hr m Hm Hc Hk. cbn in Hr. run_ask Hr got tr'. run_ret Hr. destruct got as [got|]; [|by apply elem_of_empty in Hk]. cbn in Hk.
  apply elem_of_list_to_set, list_elem_of_In, List.filter_In in Hk as [Hin Hg]. guards. apply list_elem_of_In, list_elem_of_fmap in Hin as (a & Ea & Ha).
  assert (Hof : forall a, a ∈ asked -> am_ID a = hr_ID m -> a ∈ ask_row rows agentID uid m).
  { intros b Hb Eb. apply elem_of_take in Hb as (i & Hi & _). apply list_elem_of_lookup_2, list_elem_of_bind in Hi as (m' & Hq & Hm').
    destruct (ask_row_spec _ _ _ _ _ Hq) as (_ & _ & _ & _ & t & ->). assert (m = m') as <- by (by eapply only_row). done. }
  destruct (ask_row_spec _ _ _ _ _ (Hof a Ha (eq_sym Ea))) as (_ & Hs & Ht & Hmsg & t & ->).
  eapply (answered_for _ _ _ _ _ _ asked got t); [by apply list_elem_of_singleton|done|done| |done..].
  intros b Hb Eb. by destruct (ask_row_spec _ _ _ _ _ (Hof b Hb Eb)) as (_ & _ & _ & _ & t' & ->).
Qed.

Lemma contactShown_spec rows keep uid agentID id : contactShown rows keep uid agentID id = true ->
  exists m, m ∈ rows /\ hr_ID m = id /\ idCounts rows (hr_ID m) = 1%nat /\ (agentRow m uid agentID = false \/ hr_ID m ∈ keep).
Proof.
  unfold contactShown. intros (m & Hm & Hs)%existsb_exists. exists m. apply andb_prop in Hs as [[Hi Hc]%andb_prop Hk]. apply str_eqb_eq in Hi. apply Nat.eqb_eq in Hc.
  split_and!; [by apply list_elem_of_In|done|done|]. apply orb_prop in Hk as [Hk|Hk]; guards; auto.
Qed.

(** ** The text of a row *)

Lemma obj_map_lookup ms k x : NoDup ms.*1 -> (k, x) ∈ ms -> obj_map ms !! k = Some x.
Proof.
  unfold obj_map. enough (Hgo : forall m0, NoDup ms.*1 -> (k, x) ∈ ms -> foldl (fun m kv => <[kv.1 := kv.2]> m) m0 ms !! k = Some x) by apply Hgo.
  assert (Hout : forall l m0, k ∉ l.*1 -> foldl (fun m kv => <[kv.1 := kv.2]> m) m0 l !! k = (m0 : gmap string json) !! k).
  { induction l as [|[k' y] l IH]; intros m0 Hk; [done|]. cbn in *. apply not_elem_of_cons in Hk as [Hne Hk]. rewrite IH by done. by rewrite lookup_insert_ne. }
  induction ms as [|[k' y] l IH]; intros m0 Hnd Hin; [by apply elem_of_nil in Hin|]. cbn in *. apply NoDup_cons in Hnd as [Hni Hnd].
  apply elem_of_cons in Hin as [[= -> ->]|Hin]; [|by apply IH]. rewrite Hout by done. apply lookup_insert_eq.
Qed.

Lemma take_string_last vs : forall acc s, foldl take_string acc vs = Some s -> s <> "" -> acc = Some s \/ JStr s ∈ vs.
Proof.
  induction vs as [|v vs IH]; intros acc s; [by left|]. cbn [foldl]. intros E Hs. destruct (IH _ _ E Hs) as [Ea|Hin]; [|right; by apply list_elem_of_further].
  destruct acc as [a|]; [|done]. destruct v; try done; cbn in Ea; [left; done|]. injection Ea as ->. right. apply list_elem_of_here.
Qed.

Lemma spelled_text ms s : spelled_once (JObj ms) -> string_field rowKeys "msg" ms = Some s -> s <> "" -> obj_map ms !! "msg" = Some (JStr s).
Proof.
  intros [Hnd Hsp] E Hs. unfold string_field in E. destruct (take_string_last _ _ _ E Hs) as [[= <-]|Hin]; [done|].
  unfold bound_to in Hin. apply list_elem_of_fmap in Hin as ([k x] & Ex & Hin). cbn in Ex. subst x.
  apply list_elem_of_In, List.filter_In in Hin as [Hin Hf]. cbn in Hf. apply bool_decide_eq_true in Hf. apply list_elem_of_In in Hin.
  assert (k = "msg") as ->. { apply (Hsp k); [|done]. apply list_elem_of_fmap. by exists (k, JStr s). } by apply obj_map_lookup.
Qed.

Lemma row_text v m row : decode_row v = Some m -> hr_Msg m <> "" -> pickFields v historyRowFields = Some row -> spelled_once v -> row !! "msg" = Some (JStr (hr_Msg m)).
Proof.
  unfold decode_row, pickFields. intros Ed Hm Ep Hsp. destruct v as [| | | | |ms]; try done. cbn in Ep. injection Ep as <-. cbn [members_of] in Ed.
  destruct (string_field rowKeys "id" ms), (string_field rowKeys "sender" ms), (string_field rowKeys "senderId" ms), (string_field rowKeys "type" ms),
    (string_field rowKeys "msg" ms) eqn:Et, (string_field rowKeys "createdAt" ms); try done. injection Ed as <-. cbn [hr_Msg] in *.
  apply map_lookup_filter_Some. split; [by apply spelled_text|]. cbn. set_solver.
Qed.

(** ** The answer *)

Lemma kept_rows_shown rows raws keep uid agentID contact agent tr :
  rows = (fun v => default unreadable (decode_row v)) <$> raws ->
  (forall m, m ∈ rows -> idCounts rows (hr_ID m) = 1%nat -> hr_ID m ∈ keep -> may_read contact agent agentID uid tr m) ->
  forall id, contactShown rows keep uid agentID id = true -> exists m, m ∈ rows /\ hr_ID m = id /\ idCounts rows (hr_ID m) = 1%nat /\ may_read contact agent agentID uid tr m.
Proof.
  intros -> Hk id (m & Hm & Ei & Hc & Hs)%contactShown_spec. exists m. split_and!; try done. destruct Hs as [Hs|Hs]; [by apply not_agents|by apply Hk].
Qed.

Lemma zip_fmap_elem {A B} (f : B -> A) l x : x ∈ zip (f <$> l) l -> x.1 = f x.2 /\ x.2 ∈ l.
Proof.
  induction l as [|y l IH]; cbn; [by intros ?%elem_of_nil|]. intros [->|Hx]%elem_of_cons; [split; [done|apply list_elem_of_here]|].
  destruct (IH Hx). split; [done|by apply list_elem_of_further].
Qed.

Lemma side_entries_other att shown rem lst ag k doc k' : k' <> k -> side_entries att shown rem lst ag k doc !! k' = doc !! k'.
Proof.
  intros Hne. unfold side_entries. destruct (doc !! k) as [v|]; [|done]. destruct (as_map v) as [[m|]|]; [by rewrite lookup_insert_ne|by rewrite lookup_insert_ne|by rewrite lookup_delete_ne].
Qed.
Lemma side_entries_at att shown rem lst ag k doc x : side_entries att shown rem lst ag k doc !! k = Some x ->
  x = JNull \/ exists m, x = map_json (map_imap (side_entry att shown rem lst ag) m).
Proof.
  unfold side_entries. destruct (doc !! k) as [v|] eqn:E; [|by rewrite E]. destruct (as_map v) as [[m|]|].
  - rewrite lookup_insert_eq. intros [= <-]. right. by exists m.
  - rewrite lookup_insert_eq. intros [= <-]. by left.
  - by rewrite lookup_delete_eq.
Qed.
Lemma side_entries_dom att shown rem lst ag k doc : dom (side_entries att shown rem lst ag k doc) ⊆ dom doc.
Proof.
  unfold side_entries. destruct (doc !! k) as [v|] eqn:E; [|done]. assert (k ∈ dom doc) by (by apply elem_of_dom_2 in E).
  destruct (as_map v) as [[m|]|]; rewrite ?dom_insert, ?dom_delete; set_solver.
Qed.

Section Answer.
Context (contact agent agentID uid : string) (tr : list (event reply)) (raws : list json) (keep : gset string).
Let rows := (fun v => default unreadable (decode_row v)) <$> raws.
Let shown := contactShown rows keep uid agentID.
Context (Hkeep : forall m, m ∈ rows -> idCounts rows (hr_ID m) = 1%nat -> hr_ID m ∈ keep -> may_read contact agent agentID uid tr m).

Lemma shown_row id : shown id = true -> exists m, m ∈ rows /\ hr_ID m = id /\ idCounts rows (hr_ID m) = 1%nat /\ may_read contact agent agentID uid tr m.
Proof. by apply (kept_rows_shown rows raws). Qed.

Lemma kept_row row : row ∈ omap (keep_row shown) (zip rows raws) -> exists m, row_of raws row m /\ may_read contact agent agentID uid tr m.
Proof.
  intros ([m v] & Hz & Ek)%list_elem_of_omap. destruct (zip_fmap_elem _ _ _ Hz) as [Em Hv]. cbn [fst snd] in *. unfold keep_row in Ek. cbn [fst snd] in Ek.
  destruct (shown (hr_ID m)) eqn:Es; [|done]. destruct (shown_row _ Es) as (m' & Hm' & Ei & Hc & Hr).
  assert (Hm : m ∈ rows) by (subst m; by apply (list_elem_of_fmap_2 (fun v => default unreadable (decode_row v)))).
  assert (m' = m) as -> by (by eapply only_row). exists m. split; [|done]. split; [by eapply pickFields_dom|].
  intros Hne. exists v. split_and!; [done|done|]. destruct (decode_row v) as [m0|] eqn:Ed; cbn in Em; subst m; [|done]. by apply row_text.
Qed.

Lemma side_row att id v x : side_entry att shown (removed_ids shown (zip rows raws)) (hr_ID <$> rows) (hr_ID <$> List.filter (fun m => agentRow m uid agentID) rows) id v = Some x ->
  exists m, hr_ID m = id /\ may_read contact agent agentID uid tr m /\ (att = true -> agentRow m uid agentID = false).
Proof.
  unfold side_entry. destruct (_ || _) eqn:E; [done|]. apply orb_false_elim in E as [[Er Hl]%orb_false_elim Ha]. guards. intros _.
  apply list_elem_of_fmap in Hl as (m0 & -> & Hm0).
  assert (Hs : shown (hr_ID m0) = true).
  { destruct (shown (hr_ID m0)) eqn:Es; [done|]. exfalso. apply Er. unfold removed_ids.
    apply list_elem_of_fmap in Hm0 as (v0 & -> & Hv0). apply list_elem_of_lookup_1 in Hv0 as [i Hi].
    apply list_elem_of_fmap. exists (default unreadable (decode_row v0), v0). split; [done|]. apply list_elem_of_In, List.filter_In. split.
    - apply list_elem_of_In, list_elem_of_lookup. exists i. rewrite lookup_zip_with. unfold rows. by rewrite list_lookup_fmap, Hi.
    - unfold keep_row. cbn [fst snd]. rewrite Es. by rewrite bool_decide_eq_false_2 by (intros [? [=]]). }
  destruct (shown_row _ Hs) as (m & Hm & Ei & _ & Hr). exists m. split_and!; [done|done|]. intros ->. cbn in Ha. guards.
  destruct (agentRow m uid agentID) eqn:Eg; [|done]. exfalso. apply Ha. rewrite <- Ei. apply list_elem_of_fmap. exists m. split; [done|].
  apply list_elem_of_In, List.filter_In. split; [by apply list_elem_of_In|done].
Qed.

Lemma history_doc_page doc : dom doc ⊆ list_to_set historyFields -> page_of contact agent agentID uid tr raws (history_doc doc raws rows keep uid agentID).
Proof.
  intros Hd. unfold history_doc. fold rows shown. split.
  - rewrite !side_entries_dom, dom_insert. set_solver.
  - eexists. rewrite !side_entries_other by done. split; [apply lookup_insert_eq|apply kept_row].
  - intros k x [-> | ->] E.
    + rewrite side_entries_other in E by done. apply side_entries_at in E as [-> | (m & ->)]; [by left|right]. eexists. split; [done|].
      intros id (y & Hy)%elem_of_dom. rewrite map_lookup_imap in Hy. destruct (m !! id) as [v|]; [|done]. cbn in Hy. destruct (side_row _ _ _ _ Hy) as (m1 & ? & ? & ?). exists m1. auto.
    + apply side_entries_at in E as [-> | (m & ->)]; [by left|right]. eexists. split; [done|].
      intros id (y & Hy)%elem_of_dom. rewrite map_lookup_imap in Hy. destruct (m !! id) as [v|]; [|done]. cbn in Hy. destruct (side_row _ _ _ _ Hy) as (m1 & ? & ? & ?). by exists m1.
Qed.
End Answer.

(** A filtered answer is the fixed empty page or holds what [page_of] says. *)
Lemma filtered_page c contact agent agentID uid resp tr resp' : rs_Status resp = StatusOK -> runs (filterHistory c contact agent agentID uid resp) tr resp' ->
  rs_Body resp' = Some emptyHistory \/ exists raws doc, rs_Body resp' = Some (json_text (map_json doc)) /\ page_of contact agent agentID uid tr raws doc.
Proof.
  intros Es. unfold filterHistory. rewrite Es, Z.eqb_refl. cbn [negb]. destruct (rs_Body resp) as [body|]; [|intros Hr; run_ret Hr; by left].
  destruct (_ || _); [intros Hr; run_ret Hr; by left|]. destruct (history_rows body) as [[doc raws]|] eqn:Eh; [|intros Hr; run_ret Hr; by left].
  intros (t1 & keep & t2 & -> & Ha & Hr)%runs_bind. run_ret Hr. right. exists raws. eexists. split; [done|]. rewrite app_nil_r. apply history_doc_page.
  - intros m Hm Hc Hk. by eapply asked_rows.
  - unfold history_rows in Eh. destruct (json_parse body) as [v|]; [|done]. destruct (pickFields v historyFields) as [d|] eqn:Ep; [|done].
    destruct (d !! "messages") as [l|]; [|done]. destruct (as_list l) as [l'|]; [|done]. injection Eh as <- <-. by eapply pickFields_dom.
Qed.

End Page.
(** * With the broker behind the question *)

Section Broker.
Import Broker Messaging AgentLedger AgentHistory ContactMsg ContactSafe.
Context `{Token.SigScheme, Token.TokenWire, Rendering, MsgLib, Unicode, Render.UnicodeTables, SHA256, ContactLib, RemoteLib}.

(** The question of a contact's page and the answer made of the broker's are an
    event of the broker's own history. *)
Definition broker_answers (k0 : KState) (es : list kevent) (contact agent : string) (tr : list (event reply)) : Prop :=
  forall asked got, Ev (answer := reply) (RemoteWorld.Match contact agent asked) got ∈ tr ->
  exists pre w post, es = pre ++ EMatch (Some (match_request false contact agent asked)) w :: post
    /\ got = remoteAgentMessages asked (handleAgentMessagesMatch (Some (match_request false contact agent asked)) w (krun k0 pre)).2.

Lemma authorized_hash_later k0 es es' agent contact sha : authorized_hash k0 es agent contact sha -> authorized_hash k0 (es ++ es') agent contact sha.
Proof.
  intros (pre & p & req & w & post & kind & replyTo & last & a & -> & H'). exists pre, p, req, w, (post ++ es'), kind, replyTo, last, a. split; [|done]. by rewrite <- app_assoc.
Qed.

Lemma may_read_authorized k0 es k contact agent agentID uid tr m : k_led k0 = ledger0 -> history k0 es k -> broker_answers k0 es contact agent tr ->
  may_read contact agent agentID uid tr m -> agentRow m uid agentID = false \/ authorized_hash k0 es agent contact (HashText (hr_Msg m)).
Proof.
  intros E0 Hh Hb [Ha|asked got t He Hin Hg Hu _ _ _]; [by left|right]. destruct (Hb _ _ He) as (pre & w & post & -> & Er). apply history_prefix in Hh.
  destruct (handleAgentMessagesMatch _ _ _) as [k' r] eqn:E in Er. cbn [snd] in Er.
  destruct r as [r| | |]; try done. cbn in Er. injection Er as ->. apply elem_of_list_to_set, list_elem_of_In, List.filter_In in Hg as [Hk _]. apply list_elem_of_In in Hk.
  destruct (kept_ids_authorized k0 pre _ _ w k' r _ E0 Hh E Hk) as (req & cm & [= <-] & Hcm & Eid & Hau). apply authorized_hash_later.
  cbn in *. apply list_elem_of_fmap in Hcm as (a & -> & Ha). rewrite <- (Hu a Ha Eid). exact Hau.
Qed.

End Broker.
End ContactPage.
