(* ===== verification/RemoteGate.v ===== *)
(** The remote proxy's gate ([internal/remoteproxy/proxy.go]): which requests the
    front may bring it, from where, for whom, and what the reverse proxy makes of
    the ones that pass. *)

From S2P Require Import Prelude Go TreePath GoPath GoText GoHttp RemotePath ChatLedger Effects RemoteWorld ManifestCodec.

Module RemoteGate.
Import TreePath GoPath GoText GoHttp RemotePath Effects RemoteWorld.

Section Gate.
Context `{Unicode, UrlParse, RemoteLib}.

(** * Where a request comes from *)

Definition secFetchSiteAllowed (v : string) : bool := let v := ToLower v in str_eqb v "same-origin" || str_eqb v "none".

Definition one_value (vs : list string) (want : string) : bool := match vs with [v] => EqualFold v want | _ => false end.
Definition topLevelNavigation (r : Request) : bool :=
  one_value (hdr_values (rq_Header r) "Sec-Fetch-Mode") "navigate" && one_value (hdr_values (rq_Header r) "Sec-Fetch-Dest") "document".

Definition chatPagePath : string := "/lever/chat".
Definition entryPage (p : string) (chatPage : bool) : bool := str_eqb p "/" || chatPage && str_eqb p chatPagePath.

Definition entryNavigation (r : Request) (site : string) (chatPage : bool) : bool :=
  let site := ToLower site in
  (str_eqb site "cross-site" || str_eqb site "same-site") && get_or_head (rq_Method r) && bool_decide (hdr_values (rq_Header r) "Origin" = [])
  && topLevelNavigation r && entryPage (rq_Path r) chatPage.

Definition ReasonCrossSiteNavigation : string := "cross-site-navigation".
Definition ReasonSameSiteNavigation : string := "same-site-navigation".
Definition navigationReason (r : Request) : string :=
  let site := ToLower (hdr_get (rq_Header r) "Sec-Fetch-Site") in
  if str_eqb site "cross-site" then ReasonCrossSiteNavigation else if str_eqb site "same-site" then ReasonSameSiteNavigation else "".

Definition isServeOrigin (origin serveHost : string) : bool := negb (is_empty serveHost) && EqualFold origin ("https://" +:+ serveHost).

(** The decision and the message of a refusal, or [None]. *)
Definition checkOrigin (r : Request) (serveHost : string) (chatPage : bool) : option (string * string) :=
  match
    match hdr_values (rq_Header r) "Origin" with
    | [] => None
    | [o] => if isServeOrigin o serveHost then None else Some (DecisionDenyOrigin, "cross-origin request refused")
    | _ => Some (DecisionDenyOrigin, "multiple Origin headers refused")
    end
  with
  | Some d => Some d
  | None =>
    match hdr_values (rq_Header r) "Sec-Fetch-Site" with
    | [] => None
    | [s] => if negb (secFetchSiteAllowed s) && negb (entryNavigation r s chatPage) then Some (DecisionDenyOrigin, "cross-site request refused") else None
    | _ => Some (DecisionDenyOrigin, "multiple Sec-Fetch-Site headers refused")
    end
  end.

(** [strings.Trim] of brackets. *)
Fixpoint trim_left_brackets (s : string) : string :=
  match s with String c s' => if one_of "[]" c then trim_left_brackets s' else s | EmptyString => "" end.
Definition str_rev (s : string) : string := String.rev s.
Definition trim_brackets (s : string) : string := str_rev (trim_left_brackets (str_rev (trim_left_brackets s))).

Definition isIPHost (host : string) : bool :=
  let h := trim_brackets (match SplitHostPort host with Some (h, _) => h | None => host end) in
  if has_byte "%" h then false else bool_decide (is_Some (ParseIP h)).

(** The name to judge, or why there is none. *)
Definition hostToCheck (r : Request) (trustForwarded : bool) : result string string :=
  if negb trustForwarded then Ok (rq_Host r)
  else
    match hdr_values (rq_Header r) "X-Forwarded-Host" with
    | [] => Ok (rq_Host r)
    | [x] =>
      if has_byte "," x then Err "a comma-joined X-Forwarded-Host value refused"
      else if negb (isIPHost (rq_Host r)) then Err "X-Forwarded-Host is trusted only on a request whose Host is an IP address"
      else Ok (TrimSpace x)
    | _ => Err "multiple X-Forwarded-Host headers refused"
    end.

Definition hostAllowed (host serveHost : string) (port : Z) (bindHost : string) : bool :=
  if is_empty host then false
  else if EqualFold host serveHost then true
  else
    match SplitHostPort host with
    | None => false
    | Some (h, p) =>
      if negb (str_eqb p (ManifestCodec.format_int port)) then false
      else
        let h := ToLower (trim_brackets h) in
        if str_eqb h "127.0.0.1" || str_eqb h "::1" || str_eqb h "localhost" then true
        else if negb (is_empty bindHost) then
          match ParseIP bindHost, ParseIP h with Some want, Some got => SameIP want got && negb (IsUnspecified want) | _, _ => false end
        else false
    end.

(** * Refusals *)

Definition audit (c : Config) (l : AuditLine) : act unit := if c_Audit c then ask (action := question) (Audit l) else Ret tt.
Definition deny (c : Config) (l : AuditLine) (status : Z) (decision msg : string) : act Response :=
  (do* audit c (decided decision status l); Ret (http_Error msg status))%prog.

Definition dq : string := String "034" "".
Definition refusalPage (msg : string) : bytes :=
  "<!doctype html><html lang=" +:+ dq +:+ "en" +:+ dq +:+ "><head><meta charset=" +:+ dq +:+ "utf-8" +:+ dq +:+ "><meta name=" +:+ dq +:+ "viewport" +:+ dq
  +:+ " content=" +:+ dq +:+ "width=device-width, initial-scale=1" +:+ dq +:+ "><title>Refused</title></head><body><p>" +:+ EscapeString msg
  +:+ "</p><p><a href=" +:+ dq +:+ "/" +:+ dq +:+ ">Open the chat</a></p></body></html>" +:+ eol.
Definition denyNavigation (c : Config) (r : Request) (l : AuditLine) (status : Z) (decision msg : string) : act Response :=
  (do* audit c (decided decision status l);
   Ret (answer_with status
     [("Content-Type", "text/html; charset=utf-8");
      ("Content-Security-Policy", "default-src 'none'; base-uri 'none'; form-action 'none'; frame-ancestors 'none'");
      ("X-Content-Type-Options", "nosniff"); ("X-Frame-Options", "DENY"); ("Referrer-Policy", "no-referrer"); ("Cache-Control", "no-store")]
     (if str_eqb (rq_Method r) "HEAD" then "" else refusalPage msg)))%prog.
Definition denyNoSession (c : Config) (l : AuditLine) : act Response :=
  deny c l StatusBadGateway DecisionDenyNoSession ("hub login failed " +:+ encode_rune 8212 +:+ " see " +:+ (if is_empty (c_LogPath c) then DefaultLogPath else c_LogPath c)).

(** * Who asks *)

Definition operatorFor (c : Config) (login : string) : string := if bool_decide (c_AllowedUsers c = []) then "" else login.
Definition loginCurrent (c : Config) (login : string) : act bool := if c_LoginCurrent c then ask (action := question) (Current login) else Ret true.

(** The checks of the identity header, when the configuration names the logins. *)
Definition checkUser (c : Config) (r : Request) (login : string) : option string :=
  if bool_decide (c_AllowedUsers c = []) then None
  else
    let hdr := identityHeader c in
    if (1 <? length (hdr_values (rq_Header r) hdr))%nat then Some ("multiple " +:+ hdr +:+ " headers refused")
    else if has_byte "," login then Some ("a comma-joined " +:+ hdr +:+ " value refused")
    else if negb (bool_decide (login ∈ c_AllowedUsers c)) then Some "identity not allowed"
    else None.

(** Every check that decides whether a request may reach the hub: the line to go on
    with, or the answer. *)
Definition authorize (c : Config) (r : Request) (l : AuditLine) (login : string) : act (result AuditLine Response) :=
  let refuse (p : act Response) : act (result AuditLine Response) := (let* a := p in Ret (Err a))%prog in
  if is_empty (c_ServeHost c) then refuse (deny c l StatusForbidden DecisionDenyOrigin "remote host not configured")
  else
    match hostToCheck r (c_TrustForwardedHost c) with
    | Err msg => refuse (deny c l StatusForbidden DecisionDenyHost msg)
    | Ok host =>
      if negb (hostAllowed host (c_ServeHost c) (c_ListenPort c) (c_BindHost c)) then refuse (deny c l StatusForbidden DecisionDenyHost "unexpected Host")
      else
        match checkOrigin r (c_ServeHost c) (chat_on c) with
        | Some (decision, msg) =>
          if topLevelNavigation r then refuse (denyNavigation c r l StatusForbidden decision msg) else refuse (deny c l StatusForbidden decision msg)
        | None =>
          match checkUser c r login with
          | Some msg => refuse (deny c l StatusForbidden DecisionDenyUser msg)
          | None =>
            (let* current := loginCurrent c (operatorFor c login) in
             if negb current then
               refuse (deny c l StatusForbidden DecisionDenyRevoked ("this login's access changed; it is refused until `lever apply` completes"))
             else if negb (c_Session c) then refuse (deny c l StatusServiceUnavailable DecisionDenyNoSession "remote login not configured")
             else if mintsCredential (rq_Method r) (rq_Path r) then
               refuse (deny c l StatusForbidden DecisionDenyMint "the remote proxy does not hand out hub credentials")
             else if refusedRoute (rq_Method r) (rq_Path r) then
               refuse (deny c l StatusForbidden DecisionDenyRoute "the remote proxy does not forward this route")
             else Ret (Ok (with_reason (navigationReason r) l)))%prog
          end
        end
    end.

(** * What the hub is sent *)

Definition hub_Header : string := "X-Lever-Hub-Assertion".
Definition clientIdentityHeader (k : string) : bool :=
  let k := ToLower k in
  HasPrefix k "tailscale-" || HasPrefix k "x-scion-" || HasPrefix k "x-forwarded-user-"
  || str_eqb k "x-goog-iap-jwt-assertion" || str_eqb k "x-api-key" || str_eqb k (ToLower hub_Header).

Definition sessionCookieName : string := "scion_sess".
Definition session_cookie (cookie : string) : string := sessionCookieName +:+ "=" +:+ cookie.

(** The request the reverse proxy sends for [inr], [out] being its own copy;
    [cookie] is the session of the state the request carries. *)
Definition rewriteUpstream (c : Config) (cookie : string) (inr out : Request) : Request :=
  let out := SetURL (c_TargetHost c) (c_Target c) out in
  let h := hdr_del (identityHeader c) (hdr_del "Cookie" (hdr_del "Authorization" (rq_Header out))) in
  let h := filter (fun kv => clientIdentityHeader kv.1 = false) h in
  let h := if is_empty cookie then h else hdr_set "Cookie" (session_cookie cookie) h in
  SetXForwarded inr (set_header h out).

(** * What comes back *)

Definition sandboxAPIDocument (out : Request) (resp : Response) : Response :=
  if HasPrefix (rq_Path out) "/api/" then
    set_rs_header (hdr_set "X-Content-Type-Options" "nosniff" (hdr_add "Content-Security-Policy" "sandbox" (rs_Header resp))) resp
  else resp.
Definition denyFraming (out : Request) (resp : Response) : Response :=
  if entryPage (rq_Path out) true then
    set_rs_header (hdr_set "X-Frame-Options" "DENY" (hdr_add "Content-Security-Policy" "frame-ancestors 'none'" (rs_Header resp))) resp
  else resp.
Definition set_body_of (b : bytes) (r : Response) : Response :=
  MkResponse (rs_Status r) (hdr_del "Content-Encoding" (hdr_set "Content-Length" (ManifestCodec.format_int (len b)) (rs_Header r))) (Some b).
Definition failOtherSuccess (resp : Response) : Response :=
  if (rs_Status resp =? StatusOK) || (rs_Status resp <? 200) || (299 <? rs_Status resp) then resp
  else set_body_of "" (MkResponse StatusBadGateway (hdr_del "Content-Type" (rs_Header resp)) (Some "")).

Definition sessionRejected (resp : Response) : bool :=
  if rs_Status resp =? StatusUnauthorized then true
  else if negb (rs_Status resp =? StatusFound) then false
  else
    match url_Parse (hdr_get (rs_Header resp) "Location") with
    | None => false
    | Some u =>
      if negb (is_empty (pu_Scheme u)) || negb (is_empty (pu_Host u)) then false
      else if negb (str_eqb (pu_Path u) "/login") && negb (isLoginPath (pu_Path u)) then false
      else bool_decide (ParseQuery (pu_RawQuery u) !! "error" = None)
    end.

Definition tierOf (contacts : gmap string (list string)) (login : string) : string :=
  match contacts !! login with Some _ => ChatLedger.TierContact | None => ChatLedger.TierOperator end.

(** ** The record of a chat post ([chat.go]) *)

Definition chatConversationsPrefix : string := "/api/v1/chat/conversations/".
Definition maxChatResponse : Z := 2 ^ 20.

(** The conversation and the agent of an agent DM's send route. *)
Definition chatDMAgent (method p : string) : option (string * string) :=
  if negb (str_eqb method "POST") || negb (HasPrefix p chatConversationsPrefix) then None
  else
    let rest := drop_bytes (String.length chatConversationsPrefix) p in
    if negb (HasSuffix rest "/messages") then None
    else
      let key := TrimSuffix rest "/messages" in
      if Contains key "/" then None
      else
        match Split key ":" with
        | [a; b; agent; d; user] =>
          if str_eqb a "dm" && str_eqb b "agent" && str_eqb d "user" && negb (is_empty agent) && negb (is_empty user) then Some (key, agent) else None
        | _ => None
        end.

Record chatSendResponse := MkSent { cs_ID : string; cs_Content : string; cs_Sender : string; cs_CreatedAt : Time }.
Definition sendKeys : list string := ["id"; "content"; "sender"; "createdAt"].
Definition decode_sent (body : bytes) : option chatSendResponse :=
  match json_parse body with
  | Some v =>
    match members_of v with
    | Some ms =>
      match string_field sendKeys "id" ms, string_field sendKeys "content" ms, string_field sendKeys "sender" ms, time_field sendKeys "createdAt" ms with
      | Some i, Some t, Some s, Some at_ => Some (MkSent i t s at_)
      | _, _, _, _ => None
      end
    | None => None
    end
  | None => None
  end.
Definition recordChat (c : Config) (out : Request) (login : string) (resp : Response) : act unit :=
  if negb (c_ChatLedger c) || is_empty login || negb (rs_Status resp =? StatusCreated) then Ret tt
  else
    match chatDMAgent (rq_Method out) (rq_Path out) with
    | None => Ret tt
    | Some (key, agentID) =>
      if negb (is_empty (hdr_get (rs_Header resp) "Content-Encoding")) then Ret tt
      else
        match rs_Body resp with
        | None => Ret tt
        | Some body =>
          if maxChatResponse <? len body then Ret tt
          else
            match decode_sent body with
            | None => Ret tt
            | Some sent =>
              if is_empty (cs_ID sent) || is_empty (cs_Sender sent) || IsZero (cs_CreatedAt sent) then Ret tt
              else
                (let* now := ask (action := question) (answer := reply) Now in
                 do* ask (action := question) (answer := reply)
                   (Record_ (ChatLedger.MkEntry now login (tierOf (c_Contacts c) login) key agentID (cs_ID sent) (cs_Sender sent)
                      (format_chat_time (cs_CreatedAt sent)) (cs_Content sent)));
                 Ret tt)%prog
            end
        end
    end.

End Gate.
End RemoteGate.
