(* ===== verification/RemoteFence.v ===== *)
(** The contact fence of the remote proxy ([internal/remoteproxy/contact.go]): what
    a contact-tier login may ask of the hub, and of which conversations. *)

From stdpp Require Import sorting.
From S2P Require Import Prelude Go TreePath GoPath GoText GoHttp RemotePath ChatLedger Effects RemoteWorld Token Manifest ManifestCodec ContactView RemoteGate.

Module RemoteFence.
Import TreePath GoPath GoText GoHttp RemotePath Effects RemoteWorld.
Import Manifest RemoteGate.

Definition contactCacheTTL : Duration := 30 * Second.
Definition maxContactMessage : Z := 2 ^ 20.

(** * The scope of a contact *)

Record contactScope := MkScope { sc_userID : string; sc_agents : gmap string string; sc_login : string }.

Definition key (s : contactScope) (agentID : string) : string := "dm:agent:" +:+ agentID +:+ ":user:" +:+ sc_userID s.
(** The agent of a conversation key of the form the hub uses. *)
Definition key_parts (k : string) : option (string * string) :=
  match Split k ":" with
  | [a; b; agent; d; user] => if str_eqb a "dm" && str_eqb b "agent" && str_eqb d "user" then Some (agent, user) else None
  | _ => None
  end.
Definition allows (s : contactScope) (k : string) : bool :=
  match key_parts k with
  | Some (agent, user) => bool_decide (is_Some (sc_agents s !! agent)) && str_eqb user (sc_userID s) && negb (is_empty (sc_userID s))
  | None => false
  end.
(** The agent of a key, as [strings.Split(key, ":")[2]] reads it. *)
Definition key_agent (k : string) : string := match Split k ":" with _ :: _ :: agent :: _ => agent | _ => "" end.
Definition agent_name (s : contactScope) (agentID : string) : string := default "" (sc_agents s !! agentID).

Section Fence.
Context `{Unicode, UrlParse, RemoteLib, SHA256}.

(** * The caches *)

(** The hub's request behind [whoAmI]. *)
Definition authMePath : string := "/api/v1/auth/me".
Definition join_path (u : URL) (elem : string) : URL :=
  let e := EscapedPath u in default u (setPath (Join (if HasPrefix e "/" then e else "/" +:+ e) elem) (u_RawQuery u)).
Definition hub_get (c : Config) (path : string) (h : list (string * string)) : Request :=
  MkRequest "GET" (join_path (c_Target c) path) (c_TargetHost c) (headers h) (Some "") "" false.

Inductive whoError := errSessionUnknown | errOther.
Definition maxMe : nat := N.to_nat (2 ^ 16).
Definition decode_me (body : bytes) : option string :=
  match json_first body with
  | Some v => match members_of v with Some ms => string_field ["id"] "id" ms | None => None end
  | None => None
  end.
Definition hubWhoAmI (c : Config) (cookie : string) : act (result string whoError) :=
  (let* r := ask (action := question) (answer := reply) (Ask_hub (hub_get c authMePath [("Cookie", session_cookie cookie)])) in
   Ret match r with
       | Err _ => Err errOther
       | Ok resp =>
         if (rs_Status resp =? StatusUnauthorized) || (300 <=? rs_Status resp) && (rs_Status resp <? 400) then Err errSessionUnknown
         else if negb (rs_Status resp =? StatusOK) then Err errOther
         else
           match rs_Body resp with
           | Some b => match decode_me (String.substring 0 maxMe b) with Some id => if is_empty id then Err errOther else Ok id | None => Err errOther end
           | None => Err errOther
           end
       end)%prog.

Definition fresh_at (at_ now : Time) : bool := Sub now at_ <? contactCacheTTL.

(** The names that resolve, by hub id. *)
Definition named_agents (ids : gmap string string) (names : list string) : gmap string string :=
  foldl (fun out n => match ids !! n with Some id => if is_empty id then out else <[id := n]> out | None => out end) ∅ names.
Definition agentIDs (names : list string) : act (option (gmap string string)) :=
  (let* cached := ask (action := question) (answer := reply) CachedIDs in
   let* usable := match cached with
                  | Some (ids, at_) => let* now := ask (action := question) (answer := reply) Now in Ret (if fresh_at at_ now then Some ids else None)
                  | None => Ret None
                  end in
   match usable with
   | Some ids => Ret (Some (named_agents ids names))
   | None =>
     let* got := ask (action := question) (answer := reply) Resolve in
     match got with
     | None => Ret None
     | Some ids => do* ask (action := question) (answer := reply) (StoreIDs ids); Ret (Some (named_agents ids names))
     end
   end)%prog.

Definition userID (c : Config) (login cookie : string) : act (result string whoError) :=
  (let* cached := ask (action := question) (answer := reply) (CachedUser login) in
   let* usable := match cached with
                  | Some (id, at_) => let* now := ask (action := question) (answer := reply) Now in Ret (if fresh_at at_ now then Some id else None)
                  | None => Ret None
                  end in
   match usable with
   | Some id => Ret (Ok id)
   | None =>
     let* got := hubWhoAmI c cookie in
     match got with
     | Err e => Ret (Err e)
     | Ok id => do* ask (action := question) (answer := reply) (StoreUser login id); Ret (Ok id)
     end
   end)%prog.

(** * What the fence makes of a request *)

(** What an answer is rewritten by on its way to the contact. *)
Inductive rewrite := ReduceEvents (uid : string) | StripPreviews | FilterHistory (login name agentID uid : string).

(** Answered by the fence, or to be forwarded with this cookie and these filters. *)
Inductive fenced := Answered (a : Response) | Pass (r : Request) (cookie : string) (keepDM : option contactScope) (rw : option rewrite).

Definition contactRootFiles : list string :=
  ["/favicon.svg"; "/scion-notification-icon.png"; "/favicon.ico"; "/manifest.webmanifest"; "/apple-touch-icon.png"; "/icon-192.png"; "/icon-512.png"; "/icon-maskable-512.png"].
Definition isStaticAsset (p : string) : bool := HasPrefix p "/assets/" || HasPrefix p "/shoelace/" || bool_decide (p ∈ contactRootFiles).

(** The fixed answers, written with single quotes for the JSON's double ones. *)
Fixpoint quoted (s : string) : string :=
  match s with EmptyString => "" | String c s => String (if bool_decide (c = "'"%char) then "034"%char else c) (quoted s) end.
Definition contactCanned : list (string * string) :=
  [("/api/v1/projects", quoted "{'projects':[],'totalCount':0}");
   ("/api/v1/chat/spaces", quoted "{'spaces':[]}");
   ("/api/v1/agents", quoted "{'agents':[],'totalCount':0}");
   ("/api/v1/users", quoted "{'users':[],'totalCount':0}");
   ("/api/v1/chat/unread-count", quoted "{'conversations':0,'threads':0,'dms':0}")].
Definition canned (p : string) : option string := snd <$> List.find (fun kv => str_eqb kv.1 p) contactCanned.
Definition contactForwardGET : list string :=
  ["/api/v1/auth/me"; "/auth/me"; "/api/v1/auth/admin-status"; "/api/v1/settings/public"; "/api/v1/system/status"; "/api/v1/chat/user-prefs"].

Definition answerContact (c : Config) (l : AuditLine) (contentType : string) (body : bytes) : act Response :=
  (do* audit c (decided DecisionAllow StatusOK l);
   Ret (answer_with StatusOK
     [("Content-Type", contentType); ("Content-Security-Policy", "default-src 'none'; style-src 'unsafe-inline'; frame-ancestors 'none'");
      ("X-Frame-Options", "DENY"); ("Cache-Control", "no-store"); ("X-Content-Type-Options", "nosniff")] body))%prog.

(** [url.PathEscape]. *)
Fixpoint PathEscape (s : string) : string :=
  match s with
  | EmptyString => ""
  | String c r =>
    if shouldEscape false c || one_of "/;,?" c then String "%" (String (hexdigit (byte_val c / 16)) (String (hexdigit (byte_val c mod 16)) (PathEscape r)))
    else String c (PathEscape r)
  end.
Definition name_le (s : contactScope) (a b : string) : Prop := str_le (agent_name s a) (agent_name s b).
#[export] Instance name_le_dec s : RelDecision (name_le s).
Proof. intros a b. apply str_le_dec. Defined.
Definition landing_ids (s : contactScope) : list string := merge_sort (name_le s) (elements (dom (sc_agents s))).
Definition landing_link (s : contactScope) (id : string) : string :=
  "<a href=" +:+ dq +:+ "/chat/dm/" +:+ PathEscape (key s id) +:+ dq +:+ ">" +:+ EscapeString (agent_name s id) +:+ "</a>".
Definition contactLanding (s : contactScope) : bytes :=
  quoted "<!doctype html><html><head><meta charset='utf-8'><meta name='viewport' content='width=device-width,initial-scale=1'>"
  +:+ "<title>Chat</title><style>body{font:16px system-ui,sans-serif;margin:2rem auto;max-width:36rem;padding:0 1rem}"
  +:+ "a{display:block;padding:.75rem 0}</style></head><body><h1>Chat</h1>"
  +:+ (if bool_decide (landing_ids s = []) then "<p>No agent is available to you right now. Try again later.</p>" else "")
  +:+ foldr (fun id t => landing_link s id +:+ t) "</body></html>" (landing_ids s).

(** * A message *)

Definition hasMention (s : string) : bool := existsb (fun w => HasPrefix w "@" || HasPrefix w (encode_rune 65312)) (Fields s).

Definition refused_field (kv : string * json) : option string :=
  let '(k, v) := kv in
  if str_eqb k "content" || str_eqb k "idempotency_key" then
    match v with JStr _ => None | _ => Some ("a contact's message field " +:+ Quote k +:+ " must be a string") end
  else if str_eqb k "offer_wake" then
    match v with JBool _ => None | _ => Some ("a contact's message field " +:+ dq +:+ "offer_wake" +:+ dq +:+ " must be true or false") end
  else if str_eqb k "wake" then Some "a contact's message may not wake the agent; use the chat page's wake"
  else Some ("a contact's message may carry only content (field " +:+ Quote k +:+ " refused)").
(** The loop over the message's fields, which Go takes in an order of its own. *)
Fixpoint first_refused (fields : list (string * json)) : option string :=
  match fields with [] => None | kv :: fields => match refused_field kv with Some msg => Some msg | None => first_refused fields end end.

(** The text of the message, or why it is refused. *)
Definition checkContactMessage (body : option bytes) : result (bytes * string) string :=
  match body with
  | None => Err "message too large or unreadable"
  | Some body =>
    if maxContactMessage <? len body then Err "message too large or unreadable"
    else
      match json_parse body with
      | None => Err "message is not valid JSON"
      | Some v =>
        match as_map v with
        | None => Err "message is not valid JSON"
        | Some fields =>
          match first_refused (map_to_list (default ∅ fields)) with
          | Some msg => Err msg
          | None =>
            match members_of v with
            | None => Err "message is not valid JSON"
            | Some ms =>
              match string_field ["content"] "content" ms with
              | None => Err "message is not valid JSON"
              | Some content =>
                if hasMention content then
                  Err ("a contact's message may not contain a word starting with " +:+ dq +:+ "@" +:+ dq +:+ " (it would route to another agent); write " +:+ dq +:+ "at" +:+ dq +:+ " or leave it out")
                else Ok (body, content)
              end
            end
          end
        end
      end
  end.

Definition withRewrite (r : Request) : Request := set_header (hdr_del "Accept-Encoding" (rq_Header r)) r.

Section Routes.
Context (c : Config) (l : AuditLine) (cookie : string).

Definition refuse_contact (status : Z) (msg : string) : act fenced := (let* a := deny c l status DecisionDenyContact msg in Ret (Answered a))%prog.
Definition deny_contact (msg : string) : act fenced := refuse_contact StatusForbidden msg.
Definition passes (r : Request) : act fenced := Ret (Pass r cookie None None).

Definition sessionAllows (s : contactScope) (k : string) : act (option string) :=
  if negb (c_ContactSession c) then Ret (Some "its session cannot be checked") else ask (action := question) (answer := reply) (Fresh (agent_name s (key_agent k))).

Definition fenceConversation (r : Request) (s : contactScope) : act fenced :=
  let rest := drop_bytes (String.length chatConversationsPrefix) (rq_Path r) in
  let '(k, sub, _) := cut_slash rest in
  let m := rq_Method r in
  if negb (allows s k) then deny_contact "not one of your conversations"
  else if str_eqb sub "messages" && str_eqb m "GET" then
    if negb (c_MatchAgentMessages c) then passes r
    else
      let agentID := key_agent k in
      Ret (Pass (withRewrite r) cookie None (Some (FilterHistory (sc_login s) (agent_name s agentID) agentID (sc_userID s))))
  else if str_eqb sub "messages" && str_eqb m "POST" then
    match checkContactMessage (rq_Body r) with
    | Err msg => deny_contact msg
    | Ok (body, _) =>
      (let* e := sessionAllows s k in
       match e with
       | Some e => deny_contact ("this agent cannot take your messages yet (" +:+ e +:+ "); ask the operator to start it fresh")
       | None => passes (set_body (Some body) r)
       end)%prog
    end
  else if str_eqb sub "read" && (str_eqb m "GET" || str_eqb m "POST") then passes r
  else if str_eqb sub "typing" && str_eqb m "POST" then passes r
  else if (str_eqb sub "mute" || str_eqb sub "pin") && str_eqb m "PUT" then passes r
  else deny_contact "a contact may not use this conversation route".

Definition own_subjects (uid : string) : list string := ["user." +:+ uid +:+ ".chat.>"; "user." +:+ uid +:+ ".notification"].
Definition own_events (uid : string) (r : Request) : Request :=
  let u := rq_URL r in set_url (MkURL (u_Path u) (u_RawPath u) (Encode (<["sub" := own_subjects uid]> (ParseQuery (u_RawQuery u))))) r.

(** The fence once the contact's id and agents are known. *)
Definition fenceScope (r : Request) (s : contactScope) : act fenced :=
  let p := rq_Path r in
  let m := rq_Method r in
  let get := get_or_head m in
  if HasPrefix p chatConversationsPrefix then fenceConversation r s
  else if str_eqb p "/events" && str_eqb m "GET" then
    let r := own_events (sc_userID s) r in
    if c_MatchAgentMessages c then Ret (Pass (withRewrite r) cookie None (Some (ReduceEvents (sc_userID s)))) else passes r
  else
    match (if str_eqb m "GET" then canned p else None) with
    | Some body => (let* a := answerContact c l "application/json" body in Ret (Answered a))%prog
    | None =>
      if str_eqb m "POST" && str_eqb p "/api/v1/chat/presence" then (let* a := answerContact c l "application/json" "{}" in Ret (Answered a))%prog
      else if get && str_eqb p "/api/v1/chat/dms" then
        if c_MatchAgentMessages c then Ret (Pass (withRewrite r) cookie (Some s) (Some StripPreviews)) else Ret (Pass r cookie (Some s) None)
      else if get && bool_decide (p ∈ contactForwardGET) then passes r
      else if str_eqb m "PUT" && str_eqb p "/api/v1/chat/user-prefs" || str_eqb m "POST" && str_eqb p "/auth/logout" then passes r
      else if get && negb (HasPrefix p "/api/") && negb (HasPrefix p "/auth/") then
        if chat_on c then
          (do* audit c (decided DecisionAllow StatusFound l);
           Ret (Answered (MkResponse StatusFound (headers [("Cache-Control", "no-store"); ("Location", chatPagePath)]) (Some ""))))%prog
        else
          let '(k, ok) := CutPrefix p "/chat/dm/" in
          if ok && allows s k then passes r
          else (let* a := answerContact c l "text/html; charset=utf-8" (contactLanding s) in Ret (Answered a))%prog
      else deny_contact "a contact may only chat with its agents"
    end.
End Routes.

(** The contact's user id, with a new session when the hub does not know the old one. *)
Definition contactUser (c : Config) (login cookie : string) : act (string * result string whoError) :=
  (let* uid := userID c login cookie in
   match uid with
   | Err errSessionUnknown =>
     do* ask (action := question) (answer := reply) (Invalidate login cookie);
     let* fresh := ask (action := question) (answer := reply) (Cookie login) in
     match fresh with
     | Some fresh => let* uid := userID c login fresh in Ret (fresh, uid)
     | None => Ret (cookie, uid)
     end
   | _ => Ret (cookie, uid)
   end)%prog.

Definition fenceContact (c : Config) (r : Request) (l : AuditLine) (login : string) (names : list string) (cookie : string) : act fenced :=
  if get_or_head (rq_Method r) && isStaticAsset (rq_Path r) then passes cookie r
  else if negb (fence_on c) then deny_contact c l "contact access is not configured"
  else
    (let* '(cookie, uid) := contactUser c login cookie in
     match uid with
     | Ok uid =>
       if is_empty uid then refuse_contact c l StatusBadGateway "cannot resolve your hub user"
       else
         let* ids := agentIDs names in
         match ids with
         | None => refuse_contact c l StatusBadGateway "cannot resolve your agents"
         | Some ids => fenceScope c l cookie r (MkScope uid ids login)
         end
     | Err _ => refuse_contact c l StatusBadGateway "cannot resolve your hub user"
     end)%prog.

End Fence.
End RemoteFence.
