(* ===== verification/RemoteServe.v ===== *)
(** The remote proxy's handler ([ServeHTTP], [forward], the reverse proxy's hooks
    of [internal/remoteproxy/proxy.go], and the routes of the chat page in
    [chatpage.go]): from a request to its answer, question by question. *)

From S2P Require Import Prelude Go TreePath GoPath GoText GoHttp RemotePath ChatLedger Effects RemoteWorld Token Manifest ManifestCodec ContactView RemoteGate RemoteFence.

Module RemoteServe.
Import TreePath GoPath GoText GoHttp RemotePath Effects RemoteWorld.
Import Manifest ContactView RemoteGate RemoteFence.

(** * The chat page's routes *)

Definition chatPrefix : string := "/lever/".
Definition chatContactsPath : string := "/lever/api/contacts".
Definition newConvPath : string := "/lever/api/new-conversation".
Definition newConvStatusPath : string := newConvPath +:+ "/status".
Definition chatAgentsPath : string := "/lever/api/agents".
Definition chatAgentsPrefix : string := chatAgentsPath +:+ "/".
Definition chatActivitySuffix : string := "/activity".
Definition chatWakeSuffix : string := "/wake".
Definition filesPrefix : string := "/lever/api/files/".
Definition voicePrefix : string := "/lever/api/voice/".
Definition voicePath : string := voicePrefix +:+ "transcribe".
Definition speakPath : string := voicePrefix +:+ "speak".
Definition pushKeyPath : string := "/lever/api/push/key".
Definition pushSubsPath : string := "/lever/api/push/subscriptions".

Definition agent_name_char (dash : bool) (c : ascii) : bool := is_lower c || is_dec c || dash && bool_decide (c = "-"%char).
Definition agentNameRE (s : string) : bool :=
  match s with String c r => agent_name_char false c && string_forallb (agent_name_char true) r && (len r <=? 62) | EmptyString => false end.
Definition fileIDRE (s : string) : bool := (len s =? 32) && string_forallb is_lower_hex s.

Definition CutSuffix (s p : string) : string * bool := (TrimSuffix s p, HasSuffix s p).
(** A path under the agents' prefix that ends in an action on one of them. *)
Definition agent_action (p suffix : string) : option string :=
  let '(rest, ok) := CutPrefix p chatAgentsPrefix in
  let '(n, sok) := CutSuffix rest suffix in
  if ok && sok && agentNameRE n then Some n else None.
Definition activityTarget (p : string) : option string := agent_action p chatActivitySuffix.
(** The agent, "" for any other path under the prefix; and whether it is under it. *)
Definition wakeTarget (p : string) : string * bool :=
  if HasPrefix p chatAgentsPrefix then (default "" (agent_action p chatWakeSuffix), true) else ("", false).
Definition filesTarget (p : string) : string * string * bool :=
  let '(rest, ok) := CutPrefix p filesPrefix in
  if negb ok then ("", "", str_eqb p (TrimSuffix filesPrefix "/"))
  else
    let '(a, i, hasID) := cut_slash rest in
    if negb (agentNameRE a) || hasID && negb (fileIDRE i) then ("", "", true) else (a, i, true).

Section Serve.
Context `{Unicode, UrlParse, RemoteLib, SHA256}.

Definition sameLogin (a b : string) : bool := str_eqb (ToLower a) (ToLower b).
Definition filesOnFor (c : Config) (login : string) : bool :=
  chat_on c && match c_Files c with Some excluded => negb (existsb (fun x => sameLogin x login) excluded) | None => false end.

(** A host that can be written into the page's policy. *)
Definition csp_char (c : ascii) : bool := is_alphanum c || one_of "-.:" c.
Definition cspHost (host : string) : bool :=
  if is_empty host || (255 <? len host) || negb (string_forallb csp_char host) then false
  else
    match cut ":" host with
    | (name, Some port) => negb (is_empty name) && negb (is_empty port) && negb (has_byte ":" port) && string_forallb is_dec port
    | (_, None) => true
    end.
Definition chatSWPolicy : string := "lever-sw".
Definition chatCSPFor (serveHost : string) (push : bool) : string :=
  let '(own, img) := if cspHost serveHost then (serveHost +:+ chatPrefix, serveHost +:+ "/favicon.svg " +:+ serveHost +:+ chatPrefix) else ("'self'", "'self'") in
  let '(worker, tt_) := if push then ("worker-src " +:+ own +:+ "; ", chatSWPolicy) else ("", "'none'") in
  "default-src 'none'; script-src " +:+ own +:+ "; style-src " +:+ own +:+ "; connect-src 'self'; img-src " +:+ img +:+ "; manifest-src " +:+ own +:+ "; " +:+ worker
  +:+ "base-uri 'none'; form-action 'none'; frame-ancestors 'none'; require-trusted-types-for 'script'; trusted-types " +:+ tt_.

Definition answerChat (c : Config) (r : Request) (l : AuditLine) (decision : string) (status : Z) (extra : list (string * string)) (body : bytes) : act Response :=
  (do* audit c (decided decision status l);
   Ret (answer_with status
     ([("Content-Type", "text/plain; charset=utf-8"); ("Content-Security-Policy", chatCSPFor (c_ServeHost c) (c_Push c)); ("X-Content-Type-Options", "nosniff");
       ("X-Frame-Options", "DENY"); ("Referrer-Policy", "no-referrer"); ("Cache-Control", "no-store")] ++ extra)
     (if str_eqb (rq_Method r) "HEAD" then "" else body)))%prog.

(** Where the chat page sends a request: not its own, answered here, or to one of
    its handlers. *)
Inductive chat_route := NotOurs | ToChat | ChatNotFound | ChatMethod | ToPage (h : page).
Definition chatRoute (c : Config) (r : Request) (login : string) : chat_route :=
  let p := rq_Path r in
  let read := get_or_head (rq_Method r) in
  if negb (chat_on c) || is_empty login then NotOurs
  else if str_eqb p "/" then if read then ToChat else NotOurs
  else if negb (str_eqb p (TrimSuffix chatPrefix "/")) && negb (HasPrefix p chatPrefix) then NotOurs
  else if str_eqb p chatContactsPath || HasPrefix p (chatContactsPath +:+ "/") then ToPage PContacts
  else if str_eqb p newConvPath || str_eqb p newConvStatusPath then ToPage PNewConversation
  else
    match activityTarget p with
    | Some name => ToPage (PActivity name)
    | None =>
      let '(name, under) := wakeTarget p in
      if under then if is_empty name then ChatNotFound else ToPage (PWake name)
      else
        let '(agent, id, under) := filesTarget p in
        if under then if negb (filesOnFor c login) || is_empty agent then ChatNotFound else ToPage (PFiles agent id)
        else if str_eqb p (TrimSuffix voicePrefix "/") || HasPrefix p voicePrefix then
          if voice_on c && str_eqb p voicePath then ToPage PVoice else if speak_on c && str_eqb p speakPath then ToPage PSpeak else ChatNotFound
        else if push_on c && (str_eqb p pushKeyPath || str_eqb p pushSubsPath) then ToPage PPush
        else if negb read then ChatMethod
        else if str_eqb p chatAgentsPath then ToPage PAgents
        else ToPage PFile
    end.

Definition serveChatPage (c : Config) (r : Request) (l : AuditLine) (login cookie : string) : act (option Response) :=
  match chatRoute c r login with
  | NotOurs => Ret None
  | ToChat => (let* a := answerChat c r l DecisionAllow StatusFound [("Location", chatPagePath)] "" in Ret (Some a))%prog
  | ChatNotFound => (let* a := answerChat c r l DecisionAllow StatusNotFound [] ("not found" +:+ eol) in Ret (Some a))%prog
  | ChatMethod =>
    (let* a := answerChat c r l DecisionAllow StatusMethodNotAllowed [("Allow", "GET, HEAD")] ("method not allowed" +:+ eol) in Ret (Some a))%prog
  | ToPage h => (let* a := ask (action := question) (answer := reply) (Page h r login cookie) in Ret (Some a))%prog
  end.

(** * The reverse proxy *)

(** [ctxState], as one attempt carries it. *)
Record ctxState := MkCtx {
  s_line : AuditLine; s_cookie : string; s_retryable : bool; s_retried : bool; s_login : string;
  s_keepDM : option contactScope; s_rewrite : option rewrite
}.
(** What an attempt leaves in it: whether to retry, or to drop the session. *)
Record attempt := MkAttempt { at_retry : bool; at_stale : bool }.

Definition apply_rewrite (c : Config) (rw : rewrite) (resp : Response) : act Response :=
  match rw with
  | ReduceEvents uid => Ret (ContactEvents.reduceEvents uid resp)
  | StripPreviews => Ret (stripDMPreviews resp)
  | FilterHistory login name agentID uid => filterHistory c login name agentID uid resp
  end.

Definition status_line (status : Z) (l : AuditLine) : AuditLine := decided (al_Decision l) status l.

Definition completeAudit (c : Config) (s : ctxState) (out : Request) (resp : Response) : act (Response * attempt) :=
  let resp := denyFraming out (sandboxAPIDocument out (set_rs_header (hdr_del "Set-Cookie" (rs_Header resp)) resp)) in
  let resp := if bool_decide (is_Some (s_keepDM s)) || bool_decide (is_Some (s_rewrite s)) then failOtherSuccess resp else resp in
  let resp := match s_keepDM s with Some sc => filterDMList (allows sc) resp | None => resp end in
  (let* resp := match s_rewrite s with
                | Some rw => if s_retryable s && sessionRejected resp then Ret resp else apply_rewrite c rw resp
                | None => Ret resp
                end in
   if s_retryable s && sessionRejected resp then Ret (resp, MkAttempt true false)
   else
     do* recordChat c out (s_login s) resp;
     do* audit c (status_line (rs_Status resp) (s_line s));
     Ret (resp, MkAttempt false (negb (s_retried s) && sessionRejected resp)))%prog.

Definition upstreamFailed (c : Config) (s : ctxState) (err : string) : act (Response * attempt) :=
  (do* audit c (failed StatusBadGateway err (s_line s)); Ret (http_Error "bad gateway" StatusBadGateway, MkAttempt false false))%prog.

(** [httputil.ReverseProxy.ServeHTTP] with the hooks above. *)
Definition proxy_request (c : Config) (cookie : string) (r out : Request) : Request :=
  let out := rewriteUpstream c cookie r out in set_header (default_agent (rq_Header out)) out.
Definition rp_ServeHTTP (c : Config) (s : ctxState) (r : Request) : act (Response * attempt) :=
  match out_request r with
  | None => upstreamFailed c s ("client tried to switch to invalid protocol " +:+ Quote (upgradeType (rq_Header r)))
  | Some out =>
    let out := proxy_request c (s_cookie s) r out in
    (let* res := ask (action := question) (answer := reply) (RoundTrip out) in
     match res with
     | Err e => upstreamFailed c s e
     | Ok resp =>
       completeAudit c s out
         (if rs_Status resp =? StatusSwitchingProtocols then resp else set_rs_header (removeHopByHopHeaders (rs_Header resp)) resp)
     end)%prog
  end.

(** A bodiless request is sent once more, with a new session, when the hub rejects
    the first; its answer is withheld. *)
Definition forward (c : Config) (r : Request) (s : ctxState) (operator : string) : act Response :=
  (let* '(resp, a) := rp_ServeHTTP c s r in
   if negb (s_retryable s) then
     if at_stale a then do* ask (action := question) (answer := reply) (Invalidate operator (s_cookie s)); Ret resp else Ret resp
   else if negb (at_retry a) then Ret resp
   else
     do* ask (action := question) (answer := reply) (Invalidate operator (s_cookie s));
     let* cookie := ask (action := question) (answer := reply) (Cookie operator) in
     match cookie with
     | None => denyNoSession c (s_line s)
     | Some cookie =>
       let* '(resp, _) := rp_ServeHTTP c (MkCtx (s_line s) cookie false true (s_login s) (s_keepDM s) (s_rewrite s)) r in Ret resp
     end)%prog.

(** * The handler *)

Definition serveLogin (c : Config) (r : Request) (l : AuditLine) (operator : string) : act Response :=
  (let* cookie := ask (action := question) (answer := reply) (Cookie operator) in
   match cookie with
   | None => denyNoSession c l
   | Some _ =>
     do* audit c (decided DecisionLoginRedirect StatusFound l);
     let url := loginReturnTarget (value (ParseQuery (u_RawQuery (rq_URL r))) "returnTo") in
     Ret (answer_with StatusFound [("Location", Location r url); ("Content-Type", "text/html; charset=utf-8")]
            (if str_eqb (rq_Method r) "GET" then "<a href=" +:+ dq +:+ EscapeString (redirect_url r url) +:+ dq +:+ ">Found</a>." +:+ eol +:+ eol else ""))
   end)%prog.

Definition new_line (c : Config) (now : Time) (r : Request) (login : string) : AuditLine :=
  MkLine now (truncateAudit login) (truncateAudit (rq_Method r)) (truncateAudit (rq_Path r)) "" 0 "" "".

(** A request past the gate, the session's cookie at hand. *)
Definition serveWith (c : Config) (r : Request) (l : AuditLine) (operator cookie : string) : act Response :=
  let retryable := get_or_head (rq_Method r) in
  (let* chat := serveChatPage c r l operator cookie in
   match chat with
   | Some a => Ret a
   | None =>
     match (if is_empty operator then None else c_Contacts c !! operator) with
     | Some names =>
       let* f := fenceContact c r l operator names cookie in
       match f with
       | Answered a => Ret a
       | Pass r' cookie keepDM rw => forward c r' (MkCtx l cookie retryable false operator keepDM rw) operator
       end
     | None => forward c r (MkCtx l cookie retryable false operator None None) operator
     end
   end)%prog.

Definition ServeHTTP (c : Config) (r : Request) : act Response :=
  let login := hdr_get (rq_Header r) (identityHeader c) in
  (let* now := ask (action := question) (answer := reply) Now in
   let l := new_line c now r login in
   if negb (is_empty (unsafePath r)) then deny c l StatusBadRequest DecisionDenyPath (unsafePath r)
   else
     let* ok := authorize c r l login in
     match ok with
     | Err a => Ret a
     | Ok l =>
       let operator := operatorFor c login in
       let l := decided DecisionAllow (al_Status l) l in
       if isLoginPath (rq_Path r) && get_or_head (rq_Method r) then serveLogin c r l operator
       else
         let* cookie := ask (action := question) (answer := reply) (Cookie operator) in
         match cookie with
         | None => denyNoSession c l
         | Some cookie => serveWith c r l operator cookie
         end
     end)%prog.

End Serve.
End RemoteServe.
