(* ===== verification/RemoteRuns.v ===== *)
(** The runs of the remote proxy's handler. Module [RemoteSafe]: what the hub is
    sent of a request, and where a sign-in may lead; Module [RemoteRuns]: a monitor
    over the handler's questions, and what it shows of every run. *)

From S2P Require Import Prelude Go Token ChatLedger TreePath ManifestCodec Manifest Effects GoPath GoText GoHttp RemotePath RemoteWorld ContactView RemoteGate RemoteFence RemoteServe.

(** What the remote proxy's handler guarantees in every run of it, whatever the
    hub, the session source and the other requests answer: what a request must be
    before the hub sees it, what the hub sees of it, what a contact can reach, and
    what no answer carries. *)

Module RemoteSafe.
Import TreePath GoPath GoText GoHttp RemotePath Effects RemoteWorld.
Import Manifest ContactView RemoteGate RemoteFence RemoteServe.

(** * Sign-in redirects *)

Section Redirect.
Context `{Unicode, UrlParse}.

Lemma hexEscape_ascii s : is_ascii s = true -> hexEscapeNonASCII s = s.
Proof. unfold is_ascii. induction s as [|c s IH]; [done|]. cbn. intros [-> Hs]%andb_prop. by rewrite IH. Qed.

(** The guard on a sign-in's return target looks at the text it was given, and the
    redirect cleans that text afterwards: a target that starts with a dot segment
    passes the guard and is sent as one that starts with a slash and a backslash,
    the very form the guard refuses. *)
Theorem signin_target_may_leave r host q : free Slash host = true -> free "?" host = true -> is_ascii host = true ->
  url_Parse ("/./\" +:+ host) = Some (MkParsed "" "" ("/./\" +:+ host) q) ->
  loginReturnTarget ("/\" +:+ host) = "/" /\ Location r (loginReturnTarget ("/./\" +:+ host)) = "/\" +:+ host.
Proof.
  intros Hs Hq Ha Ep. assert (E : loginReturnTarget ("/./\" +:+ host) = "/./\" +:+ host) by (unfold loginReturnTarget; rewrite Ep; by destruct host).
  split; [by unfold loginReturnTarget; destruct host|]. rewrite E. unfold Location, redirect_url. rewrite Ep. cbn [pu_Scheme pu_Host is_empty].
  change (HasPrefix ("/./\" +:+ host) "/") with (HasPrefix ("/" +:+ ("./\" +:+ host)) "/"). rewrite HasPrefix_app. cbn [andb is_empty str_eqb].
  replace (bool_decide ("" = "") && bool_decide ("" = "")) with true by done.
  unfold clean_location. rewrite (proj2 (cut_None "?" ("/./\" +:+ host) ("/./\" +:+ host))) by (split; [done|]; by rewrite free_app, Hq).
  assert (Hc : free Slash ("\" +:+ host) = true) by (by rewrite free_app, Hs).
  assert (Ec : Clean ("/./\" +:+ host) = "/\" +:+ host).
  { unfold Clean, clean_components. change (IsAbs ("/./\" +:+ host)) with (HasPrefix ("/" +:+ ("./\" +:+ host)) "/"). rewrite HasPrefix_app.
    change ("/./\" +:+ host) with ("" +:+ String Slash ("." +:+ String Slash ("\" +:+ host))). rewrite !components_cons, components_one by done. done. }
  assert (Ef : HasSuffix ("/./\" +:+ host) "/" = false).
  { destruct (HasSuffix _ _) eqn:Ef; [|done]. apply HasSuffix_spec, (f_equal components) in Ef. rewrite (components_app _ "") in Ef.
    change ("/./\" +:+ host) with ("" +:+ String Slash ("." +:+ String Slash ("\" +:+ host))) in Ef. rewrite !components_cons, components_one in Ef by done.
    change (components "") with [""] in Ef. apply (f_equal last) in Ef. rewrite last_snoc in Ef. done. }
  rewrite Ec. cbn [is_empty]. rewrite Ef. cbn. rewrite str_app_nil. apply hexEscape_ascii. unfold is_ascii. cbn. exact Ha.
Qed.
End Redirect.

(** * What the hub is sent of a request *)

Definition canonical_keys (h : Header) : Prop := forall k, k ∈ dom h -> CanonicalHeaderKey k = k.

Lemma canonical_del k h : canonical_keys h -> canonical_keys (hdr_del k h).
Proof. intros Hc x Hx. apply Hc. unfold hdr_del in Hx. rewrite dom_delete in Hx. set_solver. Qed.
Lemma canonical_set k v h : CanonicalHeaderKey k = k -> canonical_keys h -> canonical_keys (hdr_set k v h).
Proof. intros Hk Hc x Hx. unfold hdr_set in Hx. rewrite Hk, dom_insert in Hx. apply elem_of_union in Hx as [->%elem_of_singleton|Hx]; [done|by apply Hc]. Qed.
Lemma canonical_filter (P : string * list string -> Prop) `{forall kv, Decision (P kv)} h : canonical_keys h -> canonical_keys (filter P h).
Proof. intros Hc x (vs & Hx)%elem_of_dom. apply map_lookup_filter_Some in Hx as [Hx _]. apply Hc. by apply elem_of_dom_2 in Hx. Qed.
Lemma canonical_dels (f : string -> bool) ks : forall h, canonical_keys h -> canonical_keys (foldl (fun h t => if f t then h else hdr_del t h) h ks).
Proof. induction ks as [|k ks IH]; intros h Hc; [done|]. cbn. apply IH. destruct (f k); [done|by apply canonical_del]. Qed.

Ltac canon := repeat first
  [ assumption | apply canonical_del | apply canonical_filter | apply (canonical_dels (fun _ => false)) | apply canonical_dels
  | apply canonical_set; [vm_compute; reflexivity|] ].

Section Sent.
Context `{Unicode, !AsciiLower, UrlParse, RemoteLib, SHA256}.
Context (c : Config).

Definition own_headers : list string := ["Cookie"; "X-Forwarded-For"; "X-Forwarded-Host"; "X-Forwarded-Proto"; "User-Agent"].

Record carries (h0 : Header) (cookie : string) (out : Request) : Prop := {
  cr_auth : forall k, CanonicalHeaderKey k = "Authorization" -> canonical_keys h0 -> rq_Header out !! k = None;
  cr_cookie : rq_Header out !! "Cookie" = if is_empty cookie then None else Some [session_cookie cookie];
  cr_identity : CanonicalHeaderKey (identityHeader c) ∉ own_headers -> rq_Header out !! CanonicalHeaderKey (identityHeader c) = None;
  cr_client : forall k vs, rq_Header out !! k = Some vs -> clientIdentityHeader k = false
}.

Lemma own_not_client k : k ∈ own_headers -> clientIdentityHeader k = false.
Proof.
  unfold own_headers. rewrite !elem_of_cons, elem_of_nil. intros Hk. unfold clientIdentityHeader.
  destruct Hk as [->|[->|[->|[->|[->|[]]]]]]; rewrite !ToLower_bytes by done; vm_compute; reflexivity.
Qed.

(** The keys a later step of the proxy's own may set. *)
Lemma set_lookup k v h x : CanonicalHeaderKey k = k -> hdr_set k v h !! x = if bool_decide (x = k) then Some [v] else (h : Header) !! x.
Proof. intros Hk. unfold hdr_set. rewrite Hk. case_bool_decide; subst; [apply lookup_insert_eq|by rewrite lookup_insert_ne]. Qed.
Lemma del_lookup k h x : CanonicalHeaderKey k = k -> hdr_del k h !! x = if bool_decide (x = k) then None else (h : Header) !! x.
Proof. intros Hk. unfold hdr_del. rewrite Hk. case_bool_decide; subst; [apply lookup_delete_eq|by rewrite lookup_delete_ne]. Qed.

Lemma forwarded_lookup inr out x : x ∉ own_headers -> rq_Header (SetXForwarded inr out) !! x = rq_Header out !! x.
Proof.
  unfold own_headers. rewrite !not_elem_of_cons. intros (_ & Hn1 & Hn2 & Hn3 & _). unfold SetXForwarded. cbn [rq_Header set_header].
  rewrite !set_lookup by (vm_compute; reflexivity). rewrite !bool_decide_eq_false_2 by done.
  destruct (SplitHostPort _) as [[ip port]|]; [rewrite set_lookup by (vm_compute; reflexivity)|rewrite del_lookup by (vm_compute; reflexivity)];
    by rewrite bool_decide_eq_false_2.
Qed.
Lemma agent_lookup (h : Header) x : x <> "User-Agent" -> default_agent h !! x = h !! x.
Proof. intros Hx. unfold default_agent. destruct (h !! "User-Agent"); [done|]. rewrite set_lookup by (vm_compute; reflexivity). by rewrite bool_decide_eq_false_2. Qed.

Definition scrubbed (h : Header) : Header :=
  filter (fun kv => clientIdentityHeader kv.1 = false) (hdr_del (identityHeader c) (hdr_del "Cookie" (hdr_del "Authorization" h))).
Definition with_cookie (cookie : string) (h : Header) : Header := if is_empty cookie then h else hdr_set "Cookie" (session_cookie cookie) h.

Lemma proxy_header cookie r out : rq_Header (proxy_request c cookie r out)
  = default_agent (rq_Header (SetXForwarded r (set_header (with_cookie cookie (scrubbed (rq_Header out))) (SetURL (c_TargetHost c) (c_Target c) out)))).
Proof. unfold proxy_request, rewriteUpstream, SetURL. destruct (joinURLPath _ _) as [p rp]. done. Qed.

Lemma proxy_carries cookie r out : canonical_keys (rq_Header r) -> out_request r = Some out -> carries (rq_Header r) cookie (proxy_request c cookie r out).
Proof.
  intros Hcan Eo. assert (Hout : canonical_keys (rq_Header out)).
  { unfold out_request in Eo. destruct (negb _); [done|]. apply (inj Some) in Eo as <-. cbn [rq_Header set_header].
    destruct (is_empty _), (contains_token _ _); unfold removeHopByHopHeaders; canon. }
  assert (Hs : forall k, k ∉ own_headers -> rq_Header (proxy_request c cookie r out) !! k = scrubbed (rq_Header out) !! k).
  { intros k Hk. rewrite proxy_header, agent_lookup by (unfold own_headers in Hk; set_solver). rewrite forwarded_lookup by done. cbn [rq_Header set_header].
    unfold with_cookie. destruct (is_empty cookie); [done|]. rewrite set_lookup by (vm_compute; reflexivity). rewrite bool_decide_eq_false_2; [done|]. unfold own_headers in Hk; set_solver. }
  split.
  - intros k Hk _. destruct (decide (k ∈ own_headers)) as [Hin|Hni].
    { exfalso. revert Hk. unfold own_headers in Hin. rewrite !elem_of_cons, elem_of_nil in Hin. destruct Hin as [->|[->|[->|[->|[->|[]]]]]]; vm_compute; discriminate. }
    rewrite Hs by done. unfold scrubbed. apply map_lookup_filter_None. left.
    destruct (hdr_del (identityHeader c) (hdr_del "Cookie" (hdr_del "Authorization" (rq_Header out))) !! k) eqn:E; [|done]. exfalso.
    assert (Hk' : k = "Authorization") by (rewrite <- Hk; symmetry; apply (canonical_del (identityHeader c) (hdr_del "Cookie" (hdr_del "Authorization" (rq_Header out)))); [canon|by apply elem_of_dom_2 in E]).
    subst k. unfold hdr_del at 1 in E. apply lookup_delete_Some in E as [_ E]. rewrite !del_lookup in E by (vm_compute; reflexivity). done.
  - rewrite proxy_header, agent_lookup by done. unfold SetXForwarded. cbn [rq_Header set_header]. rewrite !set_lookup by (vm_compute; reflexivity).
    cbn. destruct (SplitHostPort _) as [[ip port]|]; [rewrite set_lookup by (vm_compute; reflexivity)|rewrite del_lookup by (vm_compute; reflexivity)]; cbn;
      unfold with_cookie; destruct (is_empty cookie); try (rewrite set_lookup by (vm_compute; reflexivity); done);
      unfold scrubbed; apply map_lookup_filter_None; left; unfold hdr_del at 1; apply lookup_delete_None; right; by rewrite !del_lookup by (vm_compute; reflexivity).
  - intros Hid. rewrite Hs by done. unfold scrubbed. apply map_lookup_filter_None. left. unfold hdr_del at 1. apply lookup_delete_eq.
  - intros k vs E. destruct (decide (k ∈ own_headers)) as [Hin|Hni]; [by apply own_not_client|]. rewrite Hs in E by done. by apply map_lookup_filter_Some in E as [_ E].
Qed.

(** ** The route *)

(** A target that is a scheme and a host. *)
Definition plain_target : Prop := u_Path (c_Target c) = "" /\ u_RawPath (c_Target c) = "" /\ u_RawQuery (c_Target c) = "".

Lemma joined_url u : plain_target -> HasPrefix (u_Path u) "/" = true -> HasPrefix (EscapedPath u) "/" = true -> u_Path u <> "*" ->
  exists rp, joinURLPath (c_Target c) u = (u_Path u, rp) /\ EscapedPath (MkURL (u_Path u) rp "") = EscapedPath u.
Proof.
  intros (Et & Er & _) Hp He Hs. unfold joinURLPath. rewrite Er. cbn [is_empty andb]. destruct (is_empty (u_RawPath u)) eqn:Eu.
  - exists "". apply is_empty_true in Eu. unfold singleJoiningSlash. rewrite Et, Hp. split; [done|]. unfold EscapedPath. by rewrite Eu.
  - exists (EscapedPath u). assert (Ea : EscapedPath (c_Target c) = "") by (unfold EscapedPath; by rewrite Er, Et). rewrite Ea, Et, He. cbn. split; [done|].
    unfold EscapedPath at 1. cbn [u_RawPath u_Path]. rewrite EscapedPath_valid by done. rewrite bool_decide_true by apply EscapedPath_decodes.
    destruct (EscapedPath u); [done|]. done.
Qed.

Record sent_as (r out : Request) : Prop := {
  sa_method : rq_Method out = rq_Method r;
  sa_path : rq_Path out = rq_Path r;
  sa_escaped : EscapedPath (rq_URL out) = EscapedPath (rq_URL r);
  sa_query : u_RawQuery (rq_URL out) = cleanQueryParams (u_RawQuery (rq_URL r));
  sa_body : rq_Body out = rq_Body r
}.

Lemma EscapedPath_query p rp q q' : EscapedPath (MkURL p rp q) = EscapedPath (MkURL p rp q').
Proof. done. Qed.

Lemma proxy_sent cookie r out : plain_target -> HasPrefix (rq_Path r) "/" = true -> HasPrefix (EscapedPath (rq_URL r)) "/" = true -> rq_Path r <> "*" ->
  out_request r = Some out -> sent_as r (proxy_request c cookie r out).
Proof.
  intros Ht Hp He Hs Eo. unfold out_request in Eo. destruct (negb _); [done|]. apply (inj Some) in Eo as <-.
  unfold proxy_request, rewriteUpstream, SetURL. cbn [rq_URL set_header set_url].
  destruct (joined_url (MkURL (u_Path (rq_URL r)) (u_RawPath (rq_URL r)) (cleanQueryParams (u_RawQuery (rq_URL r)))) Ht Hp) as (rp & Ej & Ee); [exact He|done|].
  rewrite Ej. destruct Ht as (_ & _ & Eq). split; try done. cbn. rewrite Eq. done.
Qed.

End Sent.

End RemoteSafe.

Module RemoteRuns.
Import TreePath GoPath GoText GoHttp RemotePath Effects RemoteWorld.
Import Manifest ContactView RemoteGate RemoteFence RemoteServe RemoteSafe.

(** * What a contact may ask the hub *)

Section Contact.
Context `{Unicode, UrlParse, RemoteLib, SHA256}.

(** The conversation of one of the contact's agents with the contact itself. *)
Definition own_key (s : contactScope) (k : string) : Prop := exists id, is_Some (sc_agents s !! id) /\ k = key s id /\ sc_userID s <> "".

Definition conversation_routes : list (string * string) :=
  [("messages", "GET"); ("messages", "POST"); ("read", "GET"); ("read", "POST"); ("typing", "POST"); ("mute", "PUT"); ("pin", "PUT")].
Definition message_fields : list string := ["content"; "idempotency_key"; "offer_wake"].

Record plain_message (body : bytes) : Prop := {
  pm_size : len body <= maxContactMessage;
  pm_text : exists v text, json_parse body = Some v
    /\ (forall m, as_map v = Some (Some m) -> dom m ⊆ list_to_set message_fields)
    /\ (forall ms, members_of v = Some ms -> string_field ["content"] "content" ms = Some text)
    /\ forall w, w ∈ Fields text -> HasPrefix w "@" = false /\ HasPrefix w (encode_rune 65312) = false
}.

Inductive may_ask (s : contactScope) (b : option bytes) (q : string) : string -> string -> Prop :=
| ma_conversation k sub m : own_key s k -> (sub, m) ∈ conversation_routes ->
    (sub = "messages" -> m = "POST" -> exists body, b = Some body /\ plain_message body) -> may_ask s b q m (chatConversationsPrefix +:+ k +:+ "/" +:+ sub)
| ma_events : ParseQuery q !! "sub" = Some (own_subjects (sc_userID s)) -> may_ask s b q "GET" "/events"
| ma_list m : get_or_head m = true -> may_ask s b q m "/api/v1/chat/dms"
| ma_fixed m p : get_or_head m = true -> p ∈ contactForwardGET -> may_ask s b q m p
| ma_prefs : may_ask s b q "PUT" "/api/v1/chat/user-prefs"
| ma_logout : may_ask s b q "POST" "/auth/logout"
| ma_page m k : get_or_head m = true -> own_key s k -> may_ask s b q m ("/chat/dm/" +:+ k).

Lemma Join_Split s d : JoinWith (Split s d) (String d "") = s.
Proof.
  induction s as [|e s IH]; [done|]. cbn [Split]. destruct (Split s d) as [|x xs] eqn:E; [by apply Split_nonempty in E|]. case_bool_decide as Hd.
  - rewrite Hd. change (JoinWith ("" :: x :: xs) (String d "")) with (String d (JoinWith (x :: xs) (String d ""))). by rewrite IH.
  - rewrite <- IH at 1. by destruct xs.
Qed.

Lemma allows_own s k : allows s k = true -> own_key s k.
Proof.
  unfold allows, key_parts. destruct (Split k ":") as [|a [|b [|agent [|d [|user [|]]]]]] eqn:E; try done.
  destruct (_ && _) eqn:Ep; [|done]. intros Ha. guards. subst. exists agent. split_and!; [done| |done].
  rewrite <- (Join_Split k ":"), E. unfold key. cbn. rewrite !string_app_cons. done.
Qed.

Lemma CutPrefix_true s p rest : CutPrefix s p = (rest, true) -> s = p +:+ rest.
Proof. unfold CutPrefix. destruct (HasPrefix s p) eqn:E; [|done]. intros [= <-]. apply HasPrefix_spec in E as [r ->]. by rewrite drop_bytes_app. Qed.
Lemma prefix_rest s p : HasPrefix s p = true -> s = p +:+ drop_bytes (String.length p) s.
Proof. intros E. apply HasPrefix_spec in E as [r ->]. by rewrite drop_bytes_app. Qed.

Lemma message_checked body body' text : checkContactMessage (Some body) = Ok (body', text) -> body' = body /\ plain_message body.
Proof.
  unfold checkContactMessage. destruct (Z.ltb_spec maxContactMessage (len body)) as [|Hl]; [done|]. destruct (json_parse body) as [v|] eqn:Ev; [|done].
  destruct (as_map v) as [fields|] eqn:Em; [|done]. destruct (first_refused _) eqn:Ef; [done|]. destruct (members_of v) as [ms|] eqn:Es; [|done].
  destruct (string_field _ _ ms) as [t|] eqn:Et; [|done]. destruct (hasMention t) eqn:Eh; [done|]. intros [= <- <-]. split; [done|]. split; [done|].
  exists v, t. split_and!; [done| |intros ms' E; congruence|].
  - intros m E k Hk. assert (fields = Some m) as -> by congruence. apply elem_of_dom in Hk as [x Hx]. change (default ∅ (Some m)) with m in Ef. apply elem_of_map_to_list in Hx.
    assert (Hr : refused_field (k, x) = None).
    { clear -Ef Hx. induction (map_to_list m) as [|kv l IH]; [by apply elem_of_nil in Hx|]. cbn [first_refused] in Ef. destruct (refused_field kv) eqn:E; [done|].
      apply elem_of_cons in Hx as [<-|Hx]; [done|by apply IH]. }
    unfold refused_field in Hr. apply elem_of_list_to_set. unfold message_fields. rewrite !elem_of_cons.
    destruct (str_eqb k "content" || str_eqb k "idempotency_key") eqn:E1; [apply orb_prop in E1 as [?|?]; guards; auto|].
    destruct (str_eqb k "offer_wake") eqn:E2; [guards; auto|]. by destruct (str_eqb k "wake").
  - intros w Hw. unfold hasMention in Eh. destruct (HasPrefix w "@" || HasPrefix w (encode_rune 65312)) eqn:E; [|by apply orb_false_elim].
    exfalso. rewrite (proj2 (existsb_exists _ _)) in Eh; [done|]. exists w. split; [by apply list_elem_of_In|done].
Qed.

(** ** The fence's answer *)

(** The request the fence passes on, beside the one it was given. *)
Record derived (r r' : Request) : Prop := {
  de_method : rq_Method r' = rq_Method r;
  de_path : rq_Path r' = rq_Path r;
  de_escaped : EscapedPath (rq_URL r') = EscapedPath (rq_URL r);
  de_header : canonical_keys (rq_Header r) -> canonical_keys (rq_Header r')
}.
Lemma derived_refl r : derived r r. Proof. by split. Qed.
Lemma derived_rewrite r r' : derived r r' -> derived r (withRewrite r').
Proof. intros [E1 E2 E3 Hc]. split; try done. intros Hr. cbn. by apply canonical_del, Hc. Qed.

Definition asks_hub (s : contactScope) (r : Request) : Prop := may_ask s (rq_Body r) (cleanQueryParams (u_RawQuery (rq_URL r))) (rq_Method r) (rq_Path r).
Definition no_cookie (a : Response) : Prop := rs_Header a !! "Set-Cookie" = None.

(** What the fence may end with, [cookie] being the session's. *)
Definition fence_end (s : contactScope) (r : Request) (cookie : string) (f : fenced) : Prop :=
  match f with Answered a => no_cookie a | Pass r' cookie' _ _ => cookie' = cookie /\ derived r r' /\ asks_hub s r' end.

End Contact.
(** * The monitor *)

Section Monitor.
Context `{Unicode, !AsciiLower, UrlParse, RemoteLib, SHA256}.
Context (c : Config) (r : Request).

Definition login : string := hdr_get (rq_Header r) (identityHeader c).
Definition operator : string := operatorFor c login.

(** What a request must be for the hub to see it. *)
Record admitted : Prop := {
  ad_path : unsafePath r = "";
  ad_host : exists host, hostToCheck r (c_TrustForwardedHost c) = Ok host /\ hostAllowed host (c_ServeHost c) (c_ListenPort c) (c_BindHost c) = true;
  ad_origin : hdr_values (rq_Header r) "Origin" = []
    \/ exists o, hdr_values (rq_Header r) "Origin" = [o] /\ c_ServeHost c <> "" /\ EqualFold o ("https://" +:+ c_ServeHost c) = true;
  ad_site : hdr_values (rq_Header r) "Sec-Fetch-Site" = []
    \/ exists s, hdr_values (rq_Header r) "Sec-Fetch-Site" = [s]
      /\ (ToLower s = "same-origin" \/ ToLower s = "none"
          \/ get_or_head (rq_Method r) = true /\ hdr_values (rq_Header r) "Origin" = [] /\ topLevelNavigation r = true /\ entryPage (rq_Path r) (chat_on c) = true);
  ad_user : c_AllowedUsers c = [] \/ login ∈ c_AllowedUsers c /\ (length (hdr_values (rq_Header r) (identityHeader c)) <= 1)%nat;
  ad_mint : mintsCredential (rq_Method r) (rq_Path r) = false;
  ad_route : refusedRoute (rq_Method r) (rq_Path r) = false
}.

(** What a cache last answered, until the clock tells whether it is still fresh. *)
Inductive cached := Unread | UserRead (id : string) (at_ : Time) | IDsRead (ids : gmap string string) (at_ : Time).

(** What the monitor remembers of the answers to questions about this request's
    login: whether it is admitted now, the session at hand, the hub's own word on
    whose session it is, the contact's id and the agents' ids, a cache's answer,
    the requests sent, and whether the chat page answered. *)
Record ghost := MkGhost {
  g_current : bool; g_cookie : option string; g_me : option string; g_uid : option string; g_ids : option (gmap string string);
  g_cached : cached; g_rounds : nat; g_paged : bool
}.
Definition start : ghost := MkGhost false None None None None Unread 0 false.
Definition set_current (b : bool) (g : ghost) := MkGhost b (g_cookie g) (g_me g) (g_uid g) (g_ids g) (g_cached g) (g_rounds g) (g_paged g).
Definition set_cookie (x : option string) (g : ghost) := MkGhost (g_current g) x (g_me g) (g_uid g) (g_ids g) (g_cached g) (g_rounds g) (g_paged g).
Definition set_me (x : option string) (g : ghost) := MkGhost (g_current g) (g_cookie g) x (g_uid g) (g_ids g) (g_cached g) (g_rounds g) (g_paged g).
Definition set_uid (x : option string) (g : ghost) := MkGhost (g_current g) (g_cookie g) (g_me g) x (g_ids g) (g_cached g) (g_rounds g) (g_paged g).
Definition set_ids (x : option (gmap string string)) (g : ghost) := MkGhost (g_current g) (g_cookie g) (g_me g) (g_uid g) x (g_cached g) (g_rounds g) (g_paged g).
Definition set_cached (x : cached) (g : ghost) := MkGhost (g_current g) (g_cookie g) (g_me g) (g_uid g) (g_ids g) x (g_rounds g) (g_paged g).
Definition bump (g : ghost) := MkGhost (g_current g) (g_cookie g) (g_me g) (g_uid g) (g_ids g) Unread (S (g_rounds g)) (g_paged g).
Definition set_paged (g : ghost) := MkGhost (g_current g) (g_cookie g) (g_me g) (g_uid g) (g_ids g) (g_cached g) (g_rounds g) true.

(** The user a hub's answer names. *)
Definition me_of (a : result Response string) : option string :=
  match a with
  | Ok resp => if rs_Status resp =? StatusOK then match rs_Body resp with Some b => decode_me (String.substring 0 maxMe b) | None => None end else None
  | Err _ => None
  end.

(** A cached answer counts when the clock finds it fresh. *)
Definition clock (now : Time) (g : ghost) : ghost :=
  match g_cached g with
  | Unread => g
  | UserRead id at_ => set_cached Unread (set_uid (if fresh_at at_ now then Some id else None) g)
  | IDsRead ids at_ => set_cached Unread (set_ids (if fresh_at at_ now then Some ids else None) g)
  end.

(** An answer about another login, about another session or under another name than
    the hub gave is remembered as none. *)
Definition mine (lg : string) : bool := bool_decide (lg = operator).
Definition asks_me (g : ghost) (out : Request) : bool :=
  match g_cookie g with Some cookie => bool_decide (out = hub_get c authMePath [("Cookie", session_cookie cookie)]) | None => false end.
Definition watch (g : ghost) (e : event reply) : ghost :=
  match e with
  | Ev q a =>
    match q return reply q -> ghost with
    | Now => fun now => clock now g
    | Current lg => fun b => set_current (mine lg && b) g
    | Cookie lg => fun x => set_cookie (if mine lg then x else None) g
    | Invalidate lg _ => fun _ => set_cookie None g
    | RoundTrip _ => fun _ => bump g
    | Ask_hub out => fun a => set_me (if asks_me g out then me_of a else None) g
    | CachedUser lg => fun a => set_cached (match a with Some (id, at_) => if mine lg then UserRead id at_ else Unread | None => Unread end) (set_uid None g)
    | StoreUser lg id => fun _ => set_uid (if mine lg && bool_decide (g_me g = Some id) then Some id else None) g
    | CachedIDs => fun a => set_cached (match a with Some (ids, at_) => IDsRead ids at_ | None => Unread end) (set_ids None g)
    | Resolve => fun a => set_ids a g
    | Page _ _ _ _ => fun _ => set_paged g
    | _ => fun _ => g
    end a
  end.

(** The scope the fence works with: the id the hub named, or a fresh cached one of
    this login; the agents of the contact's list that resolve. *)
Definition scope_of (g : ghost) (names : list string) (s : contactScope) : Prop :=
  g_uid g = Some (sc_userID s) /\ sc_userID s <> "" /\ exists ids, g_ids g = Some ids /\ sc_agents s = named_agents ids names.

Definition gated (g : ghost) : Prop := admitted /\ (c_LoginCurrent c = true -> g_current g = true).

Record forwarded (g : ghost) (out : Request) : Prop := {
  fw_gated : gated g;
  fw_session : exists cookie, g_cookie g = Some cookie /\ carries c (rq_Header r) cookie out;
  fw_method : rq_Method out = rq_Method r;
  fw_path : rq_Path out = rq_Path r;
  fw_escaped : EscapedPath (rq_URL out) = EscapedPath (rq_URL r);
  fw_once : g_rounds g = 0%nat \/ g_rounds g = 1%nat /\ get_or_head (rq_Method r) = true;
  fw_page : chat_on c = true -> operator <> "" -> HasPrefix (rq_Path r) chatPrefix = false;
  fw_contact : forall names, operator <> "" -> c_Contacts c !! operator = Some names ->
    get_or_head (rq_Method r) = true /\ isStaticAsset (rq_Path r) = true
    \/ exists s, scope_of g names s /\ may_ask s (rq_Body out) (u_RawQuery (rq_URL out)) (rq_Method out) (rq_Path out)
}.

Definition allowed (g : ghost) (q : question) : Prop :=
  match q with
  | RoundTrip out => forwarded g out
  | Page _ r' lg cookie => r' = r /\ lg = operator /\ lg <> "" /\ gated g /\ g_cookie g = Some cookie
  | Cookie lg | Invalidate lg _ => lg = operator /\ gated g
  | Ask_hub out => exists cookie, g_cookie g = Some cookie /\ rq_Header out = headers [("Cookie", session_cookie cookie)]
  | StoreUser lg id => lg = operator /\ g_me g = Some id
  | Record_ e => ChatLedger.e_Login e = operator /\ operator <> "" /\ (0 < g_rounds g)%nat
  | _ => True
  end.

Abbreviation safely := (safe watch allowed).
Definition ends (g : ghost) (a : Response) : Prop := g_paged g = true \/ no_cookie a.

(** ** Answers of the proxy's own *)

Lemma mine_operator : mine operator = true.
Proof. unfold mine. by apply bool_decide_eq_true. Qed.

Lemma audits_safe l g Q : Q g tt -> safely (audit c l) g Q.
Proof. intros HQ. unfold audit. destruct (c_Audit c); [split; [exact I|intros []; exact HQ]|exact HQ]. Qed.

Lemma hdr_set_other k v (h : Header) x : CanonicalHeaderKey k <> x -> hdr_set k v h !! x = h !! x.
Proof. intros Hk. unfold hdr_set. by rewrite lookup_insert_ne. Qed.
Lemma hdr_add_other k v (h : Header) x : CanonicalHeaderKey k <> x -> hdr_add k v h !! x = h !! x.
Proof. intros Hk. unfold hdr_add. by rewrite lookup_insert_ne. Qed.
Lemma hdr_del_none k (h : Header) x : h !! x = None -> hdr_del k h !! x = None.
Proof. intros Hx. unfold hdr_del. apply lookup_delete_None. by right. Qed.
Ltac no_key := repeat first [assumption | rewrite hdr_set_other by (vm_compute; discriminate) | rewrite hdr_add_other by (vm_compute; discriminate) | apply hdr_del_none]; try done.

Lemma headers_none l x : Forall (fun kv => CanonicalHeaderKey kv.1 <> x) l -> headers l !! x = None.
Proof.
  unfold headers. intros Hl. enough (Hgo : forall h : Header, h !! x = None -> foldl (fun h kv => hdr_set kv.1 kv.2 h) h l !! x = None) by by apply Hgo.
  induction Hl as [|kv l Hk _ IH]; intros h Hh; [done|]. cbn. apply IH. by rewrite hdr_set_other.
Qed.
Lemma answer_plain st l b : Forall (fun kv => CanonicalHeaderKey kv.1 <> "Set-Cookie") l -> no_cookie (answer_with st l b).
Proof. apply headers_none. Qed.
Ltac plain := apply answer_plain; repeat (apply Forall_cons; split; [vm_compute; discriminate|]); apply Forall_nil; done.
Lemma error_plain msg st : no_cookie (http_Error msg st). Proof. plain. Qed.

Lemma safe_deny l st d msg g (Q : ghost -> Response -> Prop) : Q g (http_Error msg st) -> safely (deny c l st d msg) g Q.
Proof. intros HQ. unfold deny. apply safe_bind, audits_safe. exact HQ. Qed.

Lemma safe_answer l decision st extra b g (Q : ghost -> Response -> Prop) : Forall (fun kv => CanonicalHeaderKey kv.1 <> "Set-Cookie") extra ->
  (forall a, no_cookie a -> Q g a) -> safely (answerChat c r l decision st extra b) g Q.
Proof.
  intros He HQ. unfold answerChat. apply safe_bind, audits_safe. apply HQ, answer_plain. apply Forall_app. split; [|done].
  repeat (apply Forall_cons; split; [vm_compute; discriminate|]); apply Forall_nil; done.
Qed.

(** ** The gate *)

Lemma checkOrigin_admits : checkOrigin r (c_ServeHost c) (chat_on c) = None ->
  (hdr_values (rq_Header r) "Origin" = [] \/ exists o, hdr_values (rq_Header r) "Origin" = [o] /\ c_ServeHost c <> "" /\ EqualFold o ("https://" +:+ c_ServeHost c) = true)
  /\ (hdr_values (rq_Header r) "Sec-Fetch-Site" = [] \/ exists s, hdr_values (rq_Header r) "Sec-Fetch-Site" = [s]
      /\ (ToLower s = "same-origin" \/ ToLower s = "none"
          \/ get_or_head (rq_Method r) = true /\ hdr_values (rq_Header r) "Origin" = [] /\ topLevelNavigation r = true /\ entryPage (rq_Path r) (chat_on c) = true)).
Proof.
  unfold checkOrigin. destruct (hdr_values (rq_Header r) "Origin") as [|o [|]] eqn:Eo; [| |done].
  - intros Hs. split; [by left|]. destruct (hdr_values (rq_Header r) "Sec-Fetch-Site") as [|s [|]]; [by left| |done]. right. exists s. split; [done|].
    destruct (negb (secFetchSiteAllowed s) && negb (entryNavigation r s (chat_on c))) eqn:E; [done|]. apply andb_false_iff in E as [E|E]; apply negb_false_iff in E.
    + unfold secFetchSiteAllowed in E. apply orb_prop in E as [E|E]; guards; auto.
    + unfold entryNavigation in E. rewrite Eo in E. repeat (apply andb_prop in E as [E ?]). right; right. by split_and!.
  - destruct (isServeOrigin o (c_ServeHost c)) eqn:Es; [|done]. unfold isServeOrigin in Es. apply andb_prop in Es as [Es1 Es2]. guards.
    intros Hs. split; [right; by exists o|]. destruct (hdr_values (rq_Header r) "Sec-Fetch-Site") as [|s [|]]; [by left| |done]. right. exists s. split; [done|].
    destruct (negb (secFetchSiteAllowed s) && negb (entryNavigation r s (chat_on c))) eqn:E; [done|]. apply andb_false_iff in E as [E|E]; apply negb_false_iff in E.
    + unfold secFetchSiteAllowed in E. apply orb_prop in E as [E|E]; guards; auto.
    + unfold entryNavigation in E. rewrite Eo in E. repeat (apply andb_prop in E as [E ?]). guards. done.
Qed.

Lemma checkUser_admits : checkUser c r login = None -> c_AllowedUsers c = [] \/ login ∈ c_AllowedUsers c /\ (length (hdr_values (rq_Header r) (identityHeader c)) <= 1)%nat.
Proof.
  unfold checkUser. case_bool_decide as E; [by left|]. destruct (Nat.ltb_spec 1 (length (hdr_values (rq_Header r) (identityHeader c)))); [done|].
  destruct (has_byte _ _); [done|]. case_bool_decide; [|done]. intros _. by right.
Qed.

Lemma safe_refused (p : act Response) g (Q : ghost -> result AuditLine Response -> Prop) :
  safely p g (fun g a => Q g (Err a)) -> safely (bind p (fun a => Ret (Err a))) g Q.
Proof. intros Hp. by apply safe_bind. Qed.

(** Past [authorize] the request is one the front may bring, and the login is
    admitted now. *)
Lemma safe_authorize l g : unsafePath r = "" -> g_paged g = false ->
  safely (authorize c r l login) g (fun g' res => exists b, g' = set_current b g /\ match res with Err a => no_cookie a | Ok _ => gated g' end).
Proof.
  intros Hp Hg. assert (Hself : g = set_current (g_current g) g) by (by destruct g).
  assert (Hd : forall g' st d msg, (exists b, g' = set_current b g) ->
    safely (bind (deny c l st d msg) (fun a => Ret (Err a))) g' (fun g' res => exists b, g' = set_current b g /\ match res : result AuditLine Response with Err a => no_cookie a | Ok _ => gated g' end)).
  { intros g' st d msg [b Hb]. apply safe_refused, safe_deny. exists b. split; [done|apply error_plain]. }
  assert (Hg0 : exists b, g = set_current b g) by eauto. unfold authorize. destruct (is_empty (c_ServeHost c)); [by apply Hd|].
  destruct (hostToCheck _ _) as [host|msg] eqn:Eh; [|by apply Hd]. destruct (hostAllowed _ _ _ _) eqn:Ea; [|by apply Hd]. cbn [negb].
  destruct (checkOrigin _ _ _) as [[d msg]|] eqn:Eo.
  { destruct (topLevelNavigation r); [|by apply Hd]. apply safe_refused. unfold denyNavigation. apply safe_bind, audits_safe. exists (g_current g). split; [done|plain]. }
  destruct (checkUser _ _ _) as [msg|] eqn:Eu; [by apply Hd|]. apply checkOrigin_admits in Eo as [Eo Es]. apply checkUser_admits in Eu.
  assert (Hrest : forall b b', (c_LoginCurrent c = true -> b = true -> b' = true) ->
    safely (if negb b then bind (deny c l StatusForbidden DecisionDenyRevoked "this login's access changed; it is refused until `lever apply` completes") (fun a => Ret (Err a))
            else if negb (c_Session c) then bind (deny c l StatusServiceUnavailable DecisionDenyNoSession "remote login not configured") (fun a => Ret (Err a))
            else if mintsCredential (rq_Method r) (rq_Path r) then bind (deny c l StatusForbidden DecisionDenyMint "the remote proxy does not hand out hub credentials") (fun a => Ret (Err a))
            else if refusedRoute (rq_Method r) (rq_Path r) then bind (deny c l StatusForbidden DecisionDenyRoute "the remote proxy does not forward this route") (fun a => Ret (Err a))
            else Ret (Ok (with_reason (navigationReason r) l))) (set_current b' g)
      (fun g' res => exists b, g' = set_current b g /\ match res : result AuditLine Response with Err a => no_cookie a | Ok _ => gated g' end)).
  { intros b b' Hb. destruct b; cbn [negb]; [|apply Hd; eauto]. destruct (c_Session c); [|apply Hd; eauto]. cbn [negb].
    destruct (mintsCredential _ _) eqn:Em; [apply Hd; eauto|]. destruct (refusedRoute _ _) eqn:Er; [apply Hd; eauto|].
    exists b'. split; [done|]. split; [|intros Hc; by apply Hb]. by split; [|exists host|..]. }
  unfold loginCurrent. destruct (c_LoginCurrent c) eqn:El.
  - cbn [bind ask]. split; [exact I|]. intros b. cbn [watch]. fold operator. rewrite mine_operator. by apply Hrest.
  - cbn [bind]. rewrite Hself at 1. by apply (Hrest true).
Qed.

(** ** The fence *)

Lemma safe_contact_answer (p : act Response) g (Q : ghost -> fenced -> Prop) : safely p g (fun g a => Q g (Answered a)) -> safely (bind p (fun a => Ret (Answered a))) g Q.
Proof. intros Hp. by apply safe_bind. Qed.

Lemma safe_refuse_contact l st msg g (Q : ghost -> fenced -> Prop) : (forall a, no_cookie a -> Q g (Answered a)) -> safely (refuse_contact c l st msg) g Q.
Proof. intros HQ. unfold refuse_contact. apply safe_contact_answer, safe_deny, HQ, error_plain. Qed.

Lemma safe_answerContact l ct b g (Q : ghost -> Response -> Prop) : (forall a, no_cookie a -> Q g a) -> safely (answerContact c l ct b) g Q.
Proof. intros HQ. unfold answerContact. apply safe_bind, audits_safe, HQ. plain. Qed.

Lemma cut_slash_found s a b : cut_slash s = (a, b, true) -> s = a +:+ "/" +:+ b.
Proof. unfold cut_slash. destruct (cut "/" s) as [x [y|]] eqn:E; [|done]. intros [= <- <-]. by apply cut_Some in E as [-> _]. Qed.
Lemma cut_slash_sub s a b found : cut_slash s = (a, b, found) -> b <> "" -> found = true.
Proof. unfold cut_slash. destruct (cut "/" s) as [x [y|]]; intros [= <- <- <-]; done. Qed.

Definition settled (s : contactScope) (cookie : string) (g g' : ghost) (f : fenced) : Prop := g' = g /\ fence_end s r cookie f.

Lemma settled_pass s cookie g r' keep rw : derived r r' -> asks_hub s r' -> settled s cookie g g (Pass r' cookie keep rw).
Proof. intros Hd Ha. by split. Qed.
Lemma settled_answer s cookie g a : no_cookie a -> settled s cookie g g (Answered a).
Proof. intros Ha. by split. Qed.

Lemma asks_conversation s k sub b : own_key s k -> rq_Path r = chatConversationsPrefix +:+ k +:+ "/" +:+ sub -> (sub, rq_Method r) ∈ conversation_routes ->
  (sub = "messages" -> rq_Method r = "POST" -> exists body, b = Some body /\ plain_message body) -> asks_hub s (set_body b r).
Proof. intros Hk Ep Hr Hb. unfold asks_hub. cbn. unfold rq_Path in *. cbn. rewrite Ep. by apply ma_conversation. Qed.

Lemma set_body_id (q : Request) : set_body (rq_Body q) q = q. Proof. by destruct q. Qed.
Lemma derived_body b : derived r (set_body b r). Proof. by split. Qed.

Lemma fenceConversation_settles l s cookie g : HasPrefix (rq_Path r) chatConversationsPrefix = true ->
  safely (fenceConversation c l cookie r s) g (settled s cookie g).
Proof.
  intros Hp. apply prefix_rest in Hp. unfold fenceConversation. set (rest := drop_bytes _ _) in *. clearbody rest. destruct (cut_slash rest) as [[k sub] found] eqn:Ec.
  destruct (allows s k) eqn:Ea; cbn [negb]; [|apply safe_refuse_contact, settled_answer]. apply allows_own in Ea.
  assert (Hroute : forall sub' m, sub = sub' -> rq_Method r = m -> sub' <> "" -> (sub', m) ∈ conversation_routes -> (sub' = "messages" -> m = "POST" -> False) -> asks_hub s r).
  { intros sub' m -> Em Hne Hin Hno. rewrite <- (set_body_id r). eapply asks_conversation; [exact Ea| |by rewrite Em|intros E1 E2; exfalso; apply Hno; [done|congruence]].
    rewrite Hp. f_equal. assert (found = true) as -> by (by eapply cut_slash_sub). by apply cut_slash_found. }
  destruct (str_eqb sub "messages" && str_eqb (rq_Method r) "GET") eqn:E1.
  { apply andb_prop in E1 as [E1 E1']. guards. assert (Ha : asks_hub s r) by (eapply (Hroute "messages" "GET"); try done; unfold conversation_routes; set_solver).
    destruct (negb _); [by apply settled_pass; [apply derived_refl|]|]. apply settled_pass; [apply derived_rewrite, derived_refl|done]. }
  destruct (str_eqb sub "messages" && str_eqb (rq_Method r) "POST") eqn:E2.
  { apply andb_prop in E2 as [E2 E2']. guards. destruct (checkContactMessage (rq_Body r)) as [[body text]|msg] eqn:Ek; [|apply safe_refuse_contact, settled_answer].
    destruct (rq_Body r) as [body0|] eqn:Eb; [|done]. apply message_checked in Ek as [-> Hm].
    assert (Ha : asks_hub s (set_body (Some body0) r)).
    { eapply (asks_conversation s k "messages"); [exact Ea| |rewrite E2'; unfold conversation_routes; set_solver|eauto]. rewrite Hp.
      f_equal. assert (found = true) as -> by (by eapply cut_slash_sub; [|rewrite E2]). apply cut_slash_found in Ec. by rewrite Ec, E2. }
    assert (Hend : forall e g', g' = g -> safely match e with Some e => deny_contact c l ("this agent cannot take your messages yet (" +:+ e +:+ "); ask the operator to start it fresh")
                                                | None => passes cookie (set_body (Some body0) r) end g' (settled s cookie g)).
    { intros [e|] g' ->; [apply safe_refuse_contact, settled_answer|]. apply settled_pass; [apply derived_body|done]. }
    apply safe_bind. unfold sessionAllows. destruct (negb _); [by apply Hend|]. split; [exact I|]. intros e. by apply Hend. }
  destruct (str_eqb sub "read" && _) eqn:E3.
  { apply andb_prop in E3 as [E3 E3']. apply settled_pass; [apply derived_refl|]. guards. apply orb_prop in E3' as [E|E]; guards;
      (eapply (Hroute "read"); [done|exact E|done|unfold conversation_routes; set_solver|done]). }
  destruct (str_eqb sub "typing" && _) eqn:E4.
  { apply andb_prop in E4 as [E4 E4']. guards. apply settled_pass; [apply derived_refl|]. eapply (Hroute "typing"); [done|exact E4'|done|unfold conversation_routes; set_solver|done]. }
  destruct ((str_eqb sub "mute" || _) && _) eqn:E5; [|apply safe_refuse_contact, settled_answer].
  apply andb_prop in E5 as [E5 E5']. guards. apply settled_pass; [apply derived_refl|].
  apply orb_prop in E5 as [E|E]; guards; (eapply Hroute; [exact E|exact E5'|done|unfold conversation_routes; set_solver|done]).
Qed.

Lemma own_events_asks s : rq_Method r = "GET" -> rq_Path r = "/events" -> derived r (own_events (sc_userID s) r) /\ asks_hub s (own_events (sc_userID s) r).
Proof.
  intros Em Ep. split; [by split|]. unfold asks_hub. cbn. unfold rq_Path in Ep. rewrite Em. unfold rq_Path. cbn. rewrite Ep, clean_Encode. apply ma_events.
  apply (ParseQuery_Encode _ _ _ ["user." +:+ sc_userID s +:+ ".notification"]). apply lookup_insert_eq.
Qed.

Lemma fenceScope_settles l s cookie g : safely (fenceScope c l cookie r s) g (settled s cookie g).
Proof.
  unfold fenceScope. destruct (HasPrefix (rq_Path r) chatConversationsPrefix) eqn:Ec; [by apply fenceConversation_settles|].
  assert (Hr : forall m p, rq_Method r = m -> rq_Path r = p -> may_ask s (rq_Body r) (cleanQueryParams (u_RawQuery (rq_URL r))) m p -> settled s cookie g g (Pass r cookie None None)).
  { intros m p <- <- Ha. apply settled_pass; [apply derived_refl|done]. }
  destruct (str_eqb (rq_Path r) "/events" && _) eqn:E1.
  { apply andb_prop in E1 as [E1 E1']. guards. destruct (own_events_asks s E1' E1) as [Hd Ha].
    destruct (c_MatchAgentMessages c); apply settled_pass; [by apply derived_rewrite|exact Ha|done|done]. }
  assert (Hans : forall ct b, safely (bind (answerContact c l ct b) (fun a => Ret (Answered a))) g (settled s cookie g)).
  { intros ct b. apply safe_contact_answer, safe_answerContact, settled_answer. }
  destruct (if str_eqb (rq_Method r) "GET" then canned (rq_Path r) else None) as [body|]; [apply Hans|].
  destruct (str_eqb (rq_Method r) "POST" && str_eqb (rq_Path r) "/api/v1/chat/presence"); [apply Hans|].
  destruct (get_or_head (rq_Method r) && str_eqb (rq_Path r) "/api/v1/chat/dms") eqn:E2.
  { apply andb_prop in E2 as [E2 E2']. guards.
    assert (Ha : asks_hub s r) by (unfold asks_hub; rewrite E2'; by apply ma_list).
    destruct (c_MatchAgentMessages c); apply settled_pass; [apply derived_rewrite, derived_refl|exact Ha|apply derived_refl|exact Ha]. }
  destruct (get_or_head (rq_Method r) && bool_decide (rq_Path r ∈ contactForwardGET)) eqn:E3.
  { apply andb_prop in E3 as [E3 E3']. apply bool_decide_eq_true in E3'. eapply Hr; [done..|by apply ma_fixed]. }
  destruct (_ || _) eqn:E4.
  { apply orb_prop in E4 as [E|E]; apply andb_prop in E as [Em Ep]; guards; (eapply Hr; [exact Em|exact Ep|first [apply ma_prefs|apply ma_logout]]). }
  destruct (_ && negb (HasPrefix (rq_Path r) "/auth/")) eqn:E5; [|apply safe_refuse_contact, settled_answer].
  apply andb_prop in E5 as [[Eg _]%andb_prop _]. destruct (chat_on c).
  { apply safe_bind, audits_safe, settled_answer. apply headers_none. repeat (apply Forall_cons; split; [vm_compute; discriminate|]); apply Forall_nil; done. }
  destruct (CutPrefix (rq_Path r) "/chat/dm/") as [k ok] eqn:Ek. destruct (ok && allows s k) eqn:E6; [|apply Hans].
  apply andb_prop in E6 as [-> Ea]. apply CutPrefix_true in Ek. eapply Hr; [done|exact Ek|]. apply ma_page; [done|by apply allows_own].
Qed.

(** The parts of the monitor's memory a step leaves alone. *)
Record frame (g g' : ghost) : Prop := {
  fr_current : g_current g' = g_current g; fr_rounds : g_rounds g' = g_rounds g; fr_paged : g_paged g' = g_paged g
}.
Lemma frame_refl g : frame g g. Proof. by split. Qed.
Lemma frame_trans g1 g2 g3 : frame g1 g2 -> frame g2 g3 -> frame g1 g3.
Proof. intros [] []. split; congruence. Qed.
Lemma frame_gated g g' : frame g g' -> gated g -> gated g'.
Proof. intros [Hc _ _] [Ha Hg]. split; [done|]. by rewrite Hc. Qed.

Lemma asks_me_own g cookie : g_cookie g = Some cookie -> asks_me g (hub_get c authMePath [("Cookie", session_cookie cookie)]) = true.
Proof. intros E. unfold asks_me. rewrite E. by apply bool_decide_eq_true. Qed.

Lemma safe_userID cookie g (Q : ghost -> result string whoError -> Prop) : g_cookie g = Some cookie ->
  (forall g' res, frame g g' -> g_cookie g' = Some cookie -> (forall uid, res = Ok uid -> g_uid g' = Some uid) -> Q g' res) ->
  safely (userID c operator cookie) g Q.
Proof.
  intros Hc HQ. unfold userID. cbn [bind ask]. split; [exact I|]. intros cached.
  assert (Hask : forall g1, frame g g1 -> g_cookie g1 = Some cookie ->
    safely (bind (hubWhoAmI c cookie) (fun got => match got with Err e => Ret (Err e)
      | Ok id => bind (ask (action := question) (answer := reply) (StoreUser operator id)) (fun _ => Ret (Ok id)) end)) g1 Q).
  { intros g1 Hf1 Hc1. unfold hubWhoAmI. cbn [bind ask]. split; [by exists cookie|]. intros a. cbn [watch].
    rewrite (asks_me_own _ _ Hc1). assert (Hf2 : frame g (set_me (me_of a) g1)) by (eapply frame_trans; [exact Hf1|by split]).
    destruct a as [resp|]; [|by apply HQ]. destruct ((rs_Status resp =? StatusUnauthorized) || _) eqn:E1; [by apply HQ|]. destruct (rs_Status resp =? StatusOK) eqn:E2; cbn [negb]; [|by apply HQ].
    destruct (rs_Body resp) as [b|] eqn:Eb; [|by apply HQ]. destruct (decode_me _) as [id|] eqn:Ed; [|by apply HQ]. destruct (is_empty id); [by apply HQ|].
    assert (Hme : me_of (Ok resp) = Some id) by (cbn; by rewrite E2, Eb).
    cbn [bind ask]. split; [split; [done|exact Hme]|]. intros []. cbn [watch]. rewrite mine_operator, bool_decide_eq_true_2 by exact Hme.
    apply HQ; [by destruct Hf1; split|done|]. by intros uid [= ->]. }
  cbn [watch]. rewrite mine_operator. destruct cached as [[id at_]|]; cbn [bind ask watch].
  - split; [exact I|]. intros now. cbn [watch clock g_cached set_cached]. destruct (fresh_at at_ now); cbn [bind]; [|by apply Hask]. apply HQ; [by split|done|]. by intros uid [= ->].
  - by apply Hask.
Qed.

Lemma safe_agentIDs names g (Q : ghost -> option (gmap string string) -> Prop) :
  (forall g' res, frame g g' -> g_cookie g' = g_cookie g -> g_uid g' = g_uid g -> (forall ids, res = Some ids -> exists raw, g_ids g' = Some raw /\ ids = named_agents raw names) -> Q g' res) ->
  safely (agentIDs names) g Q.
Proof.
  intros HQ. unfold agentIDs. cbn [bind ask]. split; [exact I|]. intros cached.
  assert (Hask : forall g1, frame g g1 -> g_cookie g1 = g_cookie g -> g_uid g1 = g_uid g ->
    safely (bind (ask (action := question) (answer := reply) Resolve) (fun got => match got with None => Ret None
      | Some ids => bind (ask (action := question) (answer := reply) (StoreIDs ids)) (fun _ => Ret (Some (named_agents ids names))) end)) g1 Q).
  { intros g1 Hf Hc Hu. cbn [bind ask]. split; [exact I|]. intros got. cbn [watch]. assert (Hf' : frame g (set_ids got g1)) by (eapply frame_trans; [exact Hf|by split]).
    destruct got as [ids|]; [|by apply HQ]. cbn [bind ask]. split; [exact I|]. intros []. apply HQ; try done. intros ids' [= <-]. by exists ids. }
  cbn [watch]. destruct cached as [[ids at_]|]; cbn [bind ask watch].
  - split; [exact I|]. intros now. cbn [watch clock g_cached set_cached]. destruct (fresh_at at_ now); cbn [bind]; [|by apply Hask]. apply HQ; [by split|done..|]. intros ids' [= <-]. by exists ids.
  - by apply Hask.
Qed.

Lemma safe_contactUser cookie g (Q : ghost -> string * result string whoError -> Prop) : gated g -> g_cookie g = Some cookie ->
  (forall g' cookie' res, frame g g' -> (forall uid, res = Ok uid -> g_cookie g' = Some cookie' /\ g_uid g' = Some uid) -> Q g' (cookie', res)) ->
  safely (contactUser c operator cookie) g Q.
Proof.
  intros Hg Hc HQ. unfold contactUser. apply safe_bind, (safe_userID cookie); [done|]. intros g1 res Hf Hc1 Hu.
  destruct res as [uid|[|]]; [apply HQ; [done|]; intros u [= <-]; by auto| |by apply HQ].
  cbn [bind ask]. assert (Hg1 : gated g1) by (by eapply frame_gated). split; [done|]. intros []. cbn [watch]. split; [done|]. intros got. cbn [watch]. rewrite mine_operator. destruct got as [fresh|]; [|apply HQ; [by destruct Hf; split|done]].
  apply safe_bind, (safe_userID fresh); [done|]. intros g2 res Hf2 Hc2 Hu2. apply HQ; [eapply frame_trans; [|exact Hf2]; by destruct Hf; split|].
  intros uid ->. split; [done|by apply Hu2].
Qed.

(** What the fence passes on, in the state it leaves. *)
Definition fence_passes (names : list string) (g : ghost) (f : fenced) : Prop :=
  match f with
  | Answered a => no_cookie a
  | Pass r' cookie _ _ => g_cookie g = Some cookie /\ derived r r'
    /\ (get_or_head (rq_Method r) = true /\ isStaticAsset (rq_Path r) = true \/ exists s, scope_of g names s /\ asks_hub s r')
  end.

Lemma safe_fenceContact l names cookie g (Q : ghost -> fenced -> Prop) : gated g -> g_cookie g = Some cookie ->
  (forall g' f, frame g g' -> fence_passes names g' f -> Q g' f) -> safely (fenceContact c r l operator names cookie) g Q.
Proof.
  intros Hg Hc HQ. unfold fenceContact. destruct (get_or_head (rq_Method r) && isStaticAsset (rq_Path r)) eqn:Es.
  { apply andb_prop in Es as [Eg Es]. apply HQ; [apply frame_refl|]. split_and!; [done|apply derived_refl|by left]. }
  assert (Hno : forall st msg g', frame g g' -> safely (refuse_contact c l st msg) g' Q) by (intros st msg g' Hf; apply safe_refuse_contact; intros a Ha; by apply HQ).
  destruct (negb (fence_on c)); [apply Hno, frame_refl|]. apply safe_bind, (safe_contactUser cookie); [done..|]. intros g1 cookie1 res Hf1 Hu.
  destruct res as [uid|e]; [|by apply Hno]. destruct (Hu uid eq_refl) as [Hc1 Hu1]. destruct (is_empty uid) eqn:Ee; [by apply Hno|]. guards.
  apply safe_bind, safe_agentIDs. intros g2 res Hf2 Hc2 Hu2 Hi. assert (Hf : frame g g2) by (by eapply frame_trans). destruct res as [ids|]; [|by apply Hno].
  destruct (Hi ids eq_refl) as (raw & Hraw & Eids). eapply safe_mono; [apply fenceScope_settles|]. intros g3 f [-> Hf3]. apply HQ; [done|].
  destruct f as [a|r' ck keep rw]; [done|]. destruct Hf3 as (-> & Hd & Ha). split_and!; [by rewrite Hc2|done|]. right. exists (MkScope uid ids operator). split; [|done].
  split_and!; [by rewrite Hu2|done|]. by exists raw.
Qed.

(** ** Answers of the hub *)

Lemma nc_setBody b a : no_cookie a -> no_cookie (setBody b a).
Proof. intros Ha. unfold no_cookie, setBody. cbn [rs_Header]. no_key. Qed.
Lemma nc_hooks out a : no_cookie (denyFraming out (sandboxAPIDocument out (set_rs_header (hdr_del "Set-Cookie" (rs_Header a)) a))).
Proof.
  assert (Hn0 : hdr_del "Set-Cookie" (rs_Header a) !! "Set-Cookie" = None) by (unfold hdr_del; apply lookup_delete_eq).
  unfold no_cookie, denyFraming, sandboxAPIDocument. destruct (HasPrefix _ _), (entryPage _ _); cbn [rs_Header set_rs_header]; no_key.
Qed.
Lemma nc_failOther a : no_cookie a -> no_cookie (failOtherSuccess a).
Proof. intros Ha. unfold no_cookie, failOtherSuccess. destruct (_ || _); [done|]. unfold set_body_of. cbn [rs_Header]. no_key. Qed.
Lemma nc_filterDM keep a : no_cookie a -> no_cookie (filterDMList keep a).
Proof. intros Ha. unfold filterDMList. destruct (negb _); [done|by apply nc_setBody]. Qed.

Lemma safe_rewrite rw a g : no_cookie a -> safely (apply_rewrite c rw a) g (fun g' a => g' = g /\ no_cookie a).
Proof.
  intros Ha. destruct rw as [uid| |lg name agentID uid]; cbn [apply_rewrite].
  - split; [done|]. unfold ContactEvents.reduceEvents. destruct (negb _); [done|]. destruct (_ || _); [by apply nc_setBody|]. unfold no_cookie. cbn [rs_Header]. no_key.
  - split; [done|]. unfold stripDMPreviews. destruct (negb _); [done|by apply nc_setBody].
  - unfold filterHistory. destruct (negb _); [done|]. destruct (rs_Body a) as [b|]; [|split; [done|by apply nc_setBody]].
    destruct (_ || _); [split; [done|by apply nc_setBody]|]. destruct (history_rows b) as [[doc raws]|]; [|split; [done|by apply nc_setBody]].
    apply safe_bind. unfold askAgentRows. destruct (negb _); [split; [done|by apply nc_setBody]|]. destruct (bool_decide _); [split; [done|by apply nc_setBody]|].
    cbn [bind ask]. split; [exact I|]. intros got. split; [done|by apply nc_setBody].
Qed.

Lemma safe_record out a g : (0 < g_rounds g)%nat -> g_cached g = Unread -> safely (recordChat c out operator a) g (fun g' _ => g' = g).
Proof.
  intros Hg Hu. unfold recordChat. destruct (_ || _) eqn:E; [done|]. apply orb_false_elim in E as [[_ E]%orb_false_elim _]. guards.
  destruct (chatDMAgent _ _) as [[k id]|]; [|done]. destruct (negb _); [done|]. destruct (rs_Body a) as [b|]; [|done]. destruct (_ <? _); [done|].
  destruct (decode_sent b) as [sent|]; [|done]. destruct (_ || _); [done|]. cbn [bind ask]. split; [exact I|]. intros now. cbn [watch]. unfold clock. rewrite Hu. by split.
Qed.

Lemma safe_complete s out a g : s_login s = operator -> (0 < g_rounds g)%nat -> g_cached g = Unread ->
  safely (completeAudit c s out a) g (fun g' res => g' = g /\ no_cookie res.1 /\ (at_retry res.2 = true -> s_retryable s = true)).
Proof.
  intros Hl Hg Hu. unfold completeAudit. pose proof (nc_hooks out a) as Hn0. set (a0 := denyFraming _ _) in *. clearbody a0.
  set (a1 := if _ || _ then failOtherSuccess a0 else a0). assert (H1' : no_cookie a1) by (subst a1; destruct (_ || _); [by apply nc_failOther|done]). clearbody a1.
  set (a2 := match s_keepDM s with Some sc => filterDMList (allows sc) a1 | None => a1 end).
  assert (H2' : no_cookie a2) by (subst a2; destruct (s_keepDM s); [by apply nc_filterDM|done]). clearbody a2.
  apply safe_bind. assert (Hrest : forall g' a3, g' = g /\ no_cookie a3 ->
    safely (if s_retryable s && sessionRejected a3 then Ret (a3, MkAttempt true false)
            else bind (recordChat c out (s_login s) a3) (fun _ => bind (audit c (status_line (rs_Status a3) (s_line s))) (fun _ => Ret (a3, MkAttempt false (negb (s_retried s) && sessionRejected a3)))))
      g' (fun g' res => g' = g /\ no_cookie res.1 /\ (at_retry res.2 = true -> s_retryable s = true))).
  { intros g' a3 [-> Hn3]. destruct (s_retryable s && sessionRejected a3) eqn:E; [apply andb_prop in E as [E _]; by split_and!|].
    rewrite Hl. apply safe_bind. eapply safe_mono; [by apply safe_record|]. intros g1 [] ->. by apply safe_bind, audits_safe. }
  destruct (s_rewrite s) as [rw|]; [|by apply Hrest]. destruct (_ && _); [by apply Hrest|]. eapply safe_mono; [by apply safe_rewrite|]. exact Hrest.
Qed.

(** ** Sending *)

Lemma safe_rp s r' g : s_login s = operator -> (forall out, out_request r' = Some out -> forwarded g (proxy_request c (s_cookie s) r' out)) ->
  safely (rp_ServeHTTP c s r') g (fun g' res => (g' = g \/ g' = bump g) /\ no_cookie res.1 /\ (at_retry res.2 = true -> s_retryable s = true)).
Proof.
  intros Hl Hf. assert (Hfail : forall e g', g' = g \/ g' = bump g ->
    safely (upstreamFailed c s e) g' (fun g' res => (g' = g \/ g' = bump g) /\ no_cookie res.1 /\ (at_retry res.2 = true -> s_retryable s = true))).
  { intros e g' Hg. unfold upstreamFailed. apply safe_bind, audits_safe. split_and!; [done|apply error_plain|done]. }
  unfold rp_ServeHTTP. destruct (out_request r') as [out|] eqn:Eo; [|apply Hfail; by left].
  cbn [bind ask]. split; [by apply Hf|]. intros [a|e]; cbn [watch]; [|apply Hfail; by right].
  eapply safe_mono; [apply safe_complete; [done|cbn; lia|done]|]. intros g' res (-> & Hn & Hr). split_and!; [by right|done|done].
Qed.

(** What a request to be forwarded must be, whichever session it is sent with. *)
Record ready (g : ghost) (r' : Request) : Prop := {
  rd_derived : derived r r';
  rd_page : chat_on c = true -> operator <> "" -> HasPrefix (rq_Path r) chatPrefix = false;
  rd_contact : forall names, operator <> "" -> c_Contacts c !! operator = Some names ->
    get_or_head (rq_Method r) = true /\ isStaticAsset (rq_Path r) = true \/ exists s, scope_of g names s /\ asks_hub s r'
}.
Lemma ready_mono g g' r' : g_uid g' = g_uid g -> g_ids g' = g_ids g -> ready g r' -> ready g' r'.
Proof.
  intros Eu Ei [Hd Hp Hc]. split; [done..|]. intros names Ho Hn. destruct (Hc names Ho Hn) as [?|(s & (Hu & Hne & ids & Hi & Ha) & Hs)]; [by left|right].
  exists s. split; [|done]. split_and!; [by rewrite Eu|done|]. exists ids. by rewrite Ei.
Qed.

Context (Htarget : plain_target c) (Hkeys : canonical_keys (rq_Header r)).

Lemma ready_forwarded g r' cookie out : gated g -> ready g r' -> g_cookie g = Some cookie -> (g_rounds g = 0%nat \/ g_rounds g = 1%nat /\ get_or_head (rq_Method r) = true) ->
  out_request r' = Some out -> forwarded g (proxy_request c cookie r' out).
Proof.
  intros Hg [Hd Hp Hc] Hck Hr Eo. destruct (safe_escaped r (ad_path (proj1 Hg))) as (He & Hs & Hh). destruct Hd as [Em Ep Ee Hk].
  destruct (proxy_sent c cookie r' out Htarget) as [S1 S2 S3 S4 S5]; [by rewrite Ep|by rewrite Ee|by rewrite Ep|done|].
  pose proof (proxy_carries c cookie r' out (Hk Hkeys) Eo) as [C1 C2 C3 C4].
  split; [done| |by rewrite S1|by rewrite S2|by rewrite S3|done|done|].
  - exists cookie. split; [done|]. split; [|done..]. intros k Hk' _. by apply C1, Hk.
  - intros names Ho Hn. destruct (Hc names Ho Hn) as [?|(s & Hsc & Ha)]; [by left|right]. exists s. split; [done|]. unfold asks_hub in Ha. by rewrite S1, S2, S4, S5.
Qed.

Lemma safe_forward r' s g : gated g -> ready g r' -> g_cookie g = Some (s_cookie s) -> g_rounds g = 0%nat -> s_login s = operator ->
  s_retryable s = get_or_head (rq_Method r) -> safely (forward c r' s operator) g (fun _ a => no_cookie a).
Proof.
  intros Hg Hr Hc Hn Hl Ht. unfold forward. apply safe_bind. eapply safe_mono; [apply safe_rp; [done|]|].
  { intros out Eo. eapply ready_forwarded; [done..|by left|done]. }
  intros g1 [a at_] (Hg1 & Ha & Hretry). cbn [fst snd] in *. assert (Hgate : gated g1) by (destruct Hg1 as [-> | ->]; [done|by destruct Hg; split]).
  assert (Hu : g_uid g1 = g_uid g /\ g_ids g1 = g_ids g) by (by destruct Hg1 as [-> | ->]).
  assert (Hn1 : g_rounds g1 = 0%nat \/ g_rounds g1 = 1%nat) by (destruct Hg1 as [-> | ->]; cbn; lia).
  destruct (s_retryable s) eqn:Es; cbn [negb].
  - destruct (at_retry at_); cbn [negb]; [|done]. cbn [bind ask]. split; [done|]. intros []. cbn [watch]. split; [done|]. intros got. cbn [watch]. rewrite mine_operator. destruct got as [cookie|].
    + apply safe_bind. eapply safe_mono; [apply safe_rp; [done|]|by intros g2 [a2 at2] (_ & Ha2 & _)].
      intros out Eo. destruct Hg1 as [-> | ->]; (eapply ready_forwarded; [done|by eapply ready_mono; [..|exact Hr]|done| |done]); cbn; [by left|right; split; [by rewrite Hn|done]].
    + unfold denyNoSession. apply safe_deny, error_plain.
  - destruct (at_stale at_); [|done]. cbn [bind ask]. split; [done|]. by intros [].
Qed.

(** ** The handler *)

Lemma not_ours : chatRoute c r operator = NotOurs -> chat_on c = true -> operator <> "" -> HasPrefix (rq_Path r) chatPrefix = false.
Proof.
  unfold chatRoute. intros E Hc Ho. rewrite Hc in E. rewrite (proj2 (is_empty_false operator) Ho) in E. cbn [negb orb] in E.
  destruct (str_eqb (rq_Path r) "/") eqn:Ep; [apply str_eqb_eq in Ep as ->; done|].
  destruct (HasPrefix (rq_Path r) chatPrefix); [|done]. rewrite andb_false_r in E. exfalso. revert E.
  repeat match goal with
  | |- context [match activityTarget ?p with _ => _ end] => destruct (activityTarget p)
  | |- context [match ?x with (_, _) => _ end] => destruct x as [? ?]
  | |- context [if ?b then _ else _] => destruct b
  end; discriminate.
Qed.

Lemma safe_chat l cookie g (Q : ghost -> option Response -> Prop) : gated g -> g_cookie g = Some cookie ->
  (forall g' a, ends g' a -> Q g' (Some a)) ->
  ((chat_on c = true -> operator <> "" -> HasPrefix (rq_Path r) chatPrefix = false) -> Q g None) ->
  safely (serveChatPage c r l operator cookie) g Q.
Proof.
  intros Hg Hc Ha Hn. unfold serveChatPage. destruct (chatRoute c r operator) eqn:E.
  - apply Hn. by apply not_ours.
  - apply safe_bind, safe_answer; [|intros a Hna; apply Ha; by right]. apply Forall_cons. split; [vm_compute; discriminate|by apply Forall_nil].
  - apply safe_bind, safe_answer; [by apply Forall_nil|intros a Hna; apply Ha; by right].
  - apply safe_bind, safe_answer; [|intros a Hna; apply Ha; by right]. apply Forall_cons. split; [vm_compute; discriminate|by apply Forall_nil].
  - cbn [bind ask]. split; [|intros a; apply Ha; by left]. split_and!; try done. unfold chatRoute in E. destruct (negb (chat_on c) || is_empty operator) eqn:Eo; [done|].
    apply orb_false_elim in Eo as [_ Eo]. by guards.
Qed.

Lemma safe_serveWith l cookie g : gated g -> g_cookie g = Some cookie -> g_rounds g = 0%nat -> safely (serveWith c r l operator cookie) g ends.
Proof.
  intros Hg Hc Hn. unfold serveWith. apply safe_bind, safe_chat; [done|done|auto|]. intros Hpage.
  assert (Hend : forall p g', safely p g' (fun _ a => no_cookie a) -> safely p g' ends) by (intros p g' Hp; eapply safe_mono; [exact Hp|]; intros; by right).
  destruct (if is_empty operator then None else c_Contacts c !! operator) as [names|] eqn:En.
  - apply safe_bind, (safe_fenceContact l names cookie); [done..|]. intros g1 f Hf Hp. destruct f as [a|r' ck keep rw]; [by right|]. destruct Hp as (Hck & Hd & Hcase).
    apply Hend, safe_forward; [by eapply frame_gated| |done|by rewrite (fr_rounds _ _ Hf)|done|done].
    split; [done|done|]. intros names' Ho Hn'. destruct (is_empty operator); [done|]. assert (names' = names) as -> by congruence. done.
  - apply Hend, safe_forward; [done| |done..]. split; [apply derived_refl|done|]. intros names Ho Hn'. rewrite (proj2 (is_empty_false operator) Ho) in En. congruence.
Qed.

Lemma safe_ServeHTTP : safely (ServeHTTP c r) start ends.
Proof.
  unfold ServeHTTP. fold login. fold operator. cbn [bind ask]. split; [exact I|]. intros now. cbn [watch].
  destruct (is_empty (unsafePath r)) eqn:Eu; cbn [negb]; [|apply safe_deny; right; apply error_plain]. apply is_empty_true in Eu.
  apply safe_bind. eapply safe_mono; [by apply safe_authorize|]. intros g res (b & -> & Hres). destruct res as [l|a]; [|by right].
  assert (Hcookie : forall (k : option string -> act Response), (forall x, safely (k x) (set_cookie x (set_current b start)) ends) ->
    safely (bind (ask (action := question) (answer := reply) (Cookie operator)) k) (set_current b start) ends).
  { intros k Hk. cbn [bind ask]. split; [done|]. intros x. cbn [watch]. rewrite mine_operator. apply Hk. }
  assert (Hno : forall l' g', safely (denyNoSession c l') g' ends) by (intros l' g'; unfold denyNoSession; apply safe_deny; right; apply error_plain).
  destruct (isLoginPath (rq_Path r) && get_or_head (rq_Method r)).
  - unfold serveLogin. apply Hcookie. intros [cookie|]; [|apply Hno]. apply safe_bind, audits_safe. right. plain.
  - apply Hcookie. intros [cookie|]; [|apply Hno]. apply safe_serveWith; [|done|done]. by destruct Hres; split.
Qed.

(** Every run of the handler keeps the monitor's rules and ends as it says. *)
Lemma runs_ServeHTTP tr a : runs (ServeHTTP c r) tr a ->
  ends (foldl watch start tr) a /\ forall pre e post, tr = pre ++ e :: post -> allowed (foldl watch start pre) (e_asked e).
Proof. intros Hr. exact (safe_runs watch allowed _ _ _ Hr _ _ safe_ServeHTTP). Qed.

End Monitor.

(** * The properties *)

Section Properties.
Context `{Unicode, !AsciiLower, UrlParse, RemoteLib, SHA256}.
Context (c : Config) (r : Request) (tr : list (event reply)) (a : Response).
Context (Htarget : plain_target c) (Hkeys : canonical_keys (rq_Header r)).

(** C20: The hub sees a request only when its path, its Host, its origin and site and
    the login the front vouches for passed every check, the session source's owner
    last said that this very login is current, and the route neither mints a
    credential nor is refused. It sees the same method and path; its only cookie is
    the session last given for this very login and not dropped since, and no other
    credential or client identity comes with it; and it sees it twice at most, the
    second time only for GET and HEAD. The hub's URL has no path or query of its
    own, and the header keys are canonical, as the server's are. *)
Theorem hub_sees_admitted_requests pre out res post : runs (ServeHTTP c r) tr a -> tr = pre ++ Ev (RoundTrip out) res :: post ->
  let g := foldl (watch c r) start pre in
  admitted c r /\ (c_LoginCurrent c = true -> g_current g = true)
  /\ (exists cookie, g_cookie g = Some cookie /\ carries c (rq_Header r) cookie out)
  /\ rq_Method out = rq_Method r /\ rq_Path out = rq_Path r /\ EscapedPath (rq_URL out) = EscapedPath (rq_URL r)
  /\ (g_rounds g = 0%nat \/ g_rounds g = 1%nat /\ get_or_head (rq_Method r) = true)
  /\ (chat_on c = true -> operator c r <> "" -> HasPrefix (rq_Path r) chatPrefix = false).
Proof.
  intros Hrun E. destruct (runs_ServeHTTP c r Htarget Hkeys tr a Hrun) as [_ Hall]. destruct (Hall _ _ _ E) as [[Had Hcur] Hs Hm Hp He Ho Hg _]. by split_and!.
Qed.

(** C21: Of what a contact asks, the hub sees only static assets and requests of the
    list [may_ask]: of the conversations, those between agents of the contact's list
    and the hub user that the hub itself, asked with the session at hand, said this
    login is, now or within the life of this login's cache entry; no message that
    names another agent; no event but its own. The hub's URL has no path or query of
    its own, and the header keys are canonical, as the server's are. *)
Theorem contact_reaches_its_agents pre out res post names : runs (ServeHTTP c r) tr a -> tr = pre ++ Ev (RoundTrip out) res :: post ->
  operator c r <> "" -> c_Contacts c !! operator c r = Some names ->
  get_or_head (rq_Method out) = true /\ isStaticAsset (rq_Path out) = true
  \/ exists s, g_uid (foldl (watch c r) start pre) = Some (sc_userID s) /\ sc_userID s <> ""
     /\ (exists ids, g_ids (foldl (watch c r) start pre) = Some ids /\ forall id n, sc_agents s !! id = Some n -> n ∈ names /\ ids !! n = Some id)
     /\ may_ask s (rq_Body out) (u_RawQuery (rq_URL out)) (rq_Method out) (rq_Path out).
Proof.
  intros Hrun E Ho Hn. destruct (runs_ServeHTTP c r Htarget Hkeys tr a Hrun) as [_ Hall]. destruct (Hall _ _ _ E) as [_ _ Hm Hp _ _ _ Hc].
  destruct (Hc names Ho Hn) as [Hs|(s & (Hu & Hne & ids & Hi & Ea) & Hs)]; [left; by rewrite Hm, Hp|right]. exists s. split_and!; [done|done| |done].
  exists ids. split; [done|]. rewrite Ea. clear. unfold named_agents. assert (Hgo : forall (l : list string) (m : gmap string string), l ⊆ names -> (forall id n, m !! id = Some n -> n ∈ names /\ ids !! n = Some id) ->
    forall id n, foldl (fun out n => match ids !! n with Some id => if is_empty id then out else <[id := n]> out | None => out end) m l !! id = Some n -> n ∈ names /\ ids !! n = Some id).
  { induction l as [|x l IH]; intros m Hl Hm; [done|]. cbn [foldl]. apply IH; [set_solver|]. destruct (ids !! x) as [i|] eqn:Ex; [|done]. destruct (is_empty i); [done|].
    intros id n. rewrite lookup_insert_Some. intros [[-> ->]|[_ Hx]]; [set_solver|by apply Hm]. }
  apply Hgo; [done|]. intros id n. by rewrite lookup_empty.
Qed.

(** C23: No answer of the proxy carries a cookie, unless a handler of the chat page gave
    it: the hub's own, with the session it mints, never leave the host. *)
Theorem no_session_leaves : runs (ServeHTTP c r) tr a -> (forall h r' lg cookie x, Ev (answer := reply) (Page h r' lg cookie) x ∉ tr) -> rs_Header a !! "Set-Cookie" = None.
Proof.
  intros Hrun Hno. destruct (runs_ServeHTTP c r Htarget Hkeys tr a Hrun) as [[Hp|Hn] _]; [exfalso|done].
  assert (Hgo : forall l g, g_paged g = false -> (forall h r' lg cookie x, Ev (answer := reply) (Page h r' lg cookie) x ∉ l) -> g_paged (foldl (watch c r) g l) = false).
  { induction l as [|[q x] l IH]; intros g Hg Hl; [done|]. cbn [foldl]. apply IH; [|intros h r' lg ck y; specialize (Hl h r' lg ck y); set_solver].
    destruct q as [ | | | | | | | | | | | | | |h r' lg ck|]; try done; [cbn [watch]; unfold clock; by destruct (g_cached g)|]. exfalso. apply (Hl h r' lg ck x). apply list_elem_of_here. }
  by rewrite (Hgo tr start eq_refl Hno) in Hp.
Qed.

End Properties.

End RemoteRuns.
