(* ===== verification/RemoteLogin.v ===== *)
(** The remote proxy's sign-in to the hub ([internal/remoteproxy/login.go]), and in
    Module [RemoteRevoke] the end of a revoked login's requests ([revoke.go]): one
    hub session per verified login, obtained host-side and shared by the requests
    that ask for it at once. The attempts of several requests interleave; what a
    caller is handed is the recorded user's session in every interleaving. *)

From S2P Require Import Prelude Go TreePath GoPath GoText GoHttp RemotePath ChatLedger Effects RemoteWorld Token Manifest ManifestCodec ContactView RemoteGate RemoteFence.

Module RemoteLogin.
Import TreePath GoPath GoText GoHttp RemotePath Effects RemoteWorld.
Import Manifest RemoteGate RemoteFence.

Definition hubLoginPath : string := "/".
Definition sessionMaxAge : Duration := 12 * Hour.
Definition maxAuthMeBody : nat := N.to_nat (64 * 2 ^ 10).
(** [config.ScionDevUserID]. *)
Definition ScionDevUserID : string := "be67fbc9-c869-5d43-b15d-c28ca3e8d355".
Definition unnamedOperator : string := "lever-operator".
Definition unnamedOperatorEmail : string := "lever-operator@lever.local".
Definition IDEmailDomain : string := "id.lever.local".

(** [config.HubEmailFor]. *)
Definition HubEmailFor (login : string) : string :=
  if is_empty login then unnamedOperatorEmail else if Contains login "@" then login else login +:+ "@" +:+ IDEmailDomain.
Record Identity := MkIdentity { id_Subject : string; id_Email : string; id_Name : string }.
Definition identityFor (login : string) : Identity :=
  if is_empty login then MkIdentity unnamedOperator unnamedOperatorEmail "Lever operator" else MkIdentity ("lever-remote:" +:+ login) (HubEmailFor login) login.

Inductive loginError :=
| errNoRecordedUser | errUserMismatch | errNoSession | errLoginStatus | errLoginPanicked | errNoSigner | errSign (e : string) | errTransport (e : string) | errNotMe.

(** [LoginConfig]: which of its functions are set. *)
Record LoginConfig := MkLogin { lc_Hub : string; lc_HubUserID : bool; lc_Sign : bool; lc_Audit : bool }.

(** What a sign-in asks: the record of hub users, the assertion signer, the hub, the clock. *)
Inductive asking :=
| UserOf (email : string)
| SignFor (email : string)
| Get (path : string) (h : list (string * string))
| LogTime
| Log (l : AuditLine).
Definition told (q : asking) : Type :=
  match q with
  | UserOf _ => option string
  | SignFor _ => result string string
  | Get _ _ => result Response string
  | LogTime => Time
  | Log _ => unit
  end.
Definition signin (A : Type) : Type := prog told A.

(** [Response.Cookies] of package [net/http]: names and values. *)
Class LoginLib := { Cookies : Header -> list (string * string); error_text : loginError -> string }.

Section Login.
Context `{Unicode, RemoteLib, LoginLib}.
Context (d : LoginConfig).

Definition query (q : asking) : signin (told q) := ask (action := asking) (answer := told) q.

Definition DecisionHubSession : string := "hub-session".
Definition DecisionHubSessionFailed : string := "hub-session-failed".
Definition DecisionHubSessionRefused : string := "hub-session-refused".

Definition log (l : Time -> AuditLine) : signin unit := if lc_Audit d then (let* now := query LogTime in query (Log (l now)))%prog else Ret tt.
Definition recordLogin (operator : string) (status : Z) (err : option loginError) : signin unit :=
  log (fun now =>
    match err with
    | None => MkLine now (truncateAudit operator) "GET" hubLoginPath DecisionHubSession status "" ""
    | Some e => MkLine now (truncateAudit operator) "GET" hubLoginPath DecisionHubSessionFailed status "" (error_text e)
    end).
Definition recordRefused (operator path : string) (err : loginError) : signin unit :=
  log (fun now => MkLine now (truncateAudit operator) "GET" path DecisionHubSessionRefused 0 "" (error_text err)).

Definition lookupUser (email : string) : signin (option string) :=
  if negb (lc_HubUserID d) then Ret None
  else (let* id := query (UserOf email) in
        Ret match id with Some id => if negb (is_empty id) && negb (str_eqb id ScionDevUserID) then Some id else None | None => None end)%prog.

Definition session_of (h : Header) : option string :=
  snd <$> List.find (fun kv => str_eqb kv.1 sessionCookieName && negb (is_empty kv.2)) (Cookies h).
Definition session (assertion : string) : signin (result string loginError) :=
  (let* r := query (Get hubLoginPath [(hub_Header, assertion)]) in
   Ret match r with
       | Err e => Err (errTransport e)
       | Ok resp =>
         if negb (rs_Status resp =? StatusOK) then Err errLoginStatus
         else match session_of (rs_Header resp) with Some v => Ok v | None => Err errNoSession end
       end)%prog.

Definition whoAmI (cookie : string) : signin (result string loginError) :=
  (let* r := query (Get authMePath [("Cookie", session_cookie cookie); ("Accept", "application/json")]) in
   Ret match r with
       | Err e => Err (errTransport e)
       | Ok resp =>
         if negb (rs_Status resp =? StatusOK) then Err errLoginStatus
         else
           match rs_Body resp with
           | Some b => match decode_me (String.substring 0 maxAuthMeBody b) with Some id => if is_empty id then Err errNotMe else Ok id | None => Err errNotMe end
           | None => Err errNotMe
           end
       end)%prog.

Definition login_email (operator : string) : string := ToLower (id_Email (identityFor operator)).
Definition failed_login (operator : string) (e : loginError) : signin (result string loginError) := (do* recordLogin operator 0 (Some e); Ret (Err e))%prog.
Definition login (operator : string) : signin (result string loginError) :=
  let email := login_email operator in
  (let* want := lookupUser email in
   match want with
   | None => do* recordRefused operator hubLoginPath errNoRecordedUser; Ret (Err errNoRecordedUser)
   | Some want =>
     if negb (lc_Sign d) then failed_login operator errNoSigner
     else
       let* assertion := query (SignFor email) in
       match assertion with
       | Err e => failed_login operator (errSign (truncateAudit e))
       | Ok assertion =>
         let* cookie := session assertion in
         match cookie with
         | Err e => failed_login operator e
         | Ok cookie =>
           let* got := whoAmI cookie in
           match got with
           | Err e => failed_login operator e
           | Ok got =>
             if negb (str_eqb got want) then do* recordRefused operator authMePath errUserMismatch; Ret (Err errUserMismatch)
             else do* recordLogin operator StatusOK None; Ret (Ok cookie)
           end
         end
       end
   end)%prog.

(** * The sessions the requests share *)

(** A [sessionEntry], behind the pointer the map and its waiters hold: its channel
    is open, or closed with what the attempt came to. *)
Inductive entry := Running | Closed (r : result string loginError) (at_ : Time).
Definition expired (now : Time) (e : entry) : bool := match e with Closed (Ok _) at_ => sessionMaxAge <=? Sub now at_ | _ => false end.

(** A request inside [Cookie]: waiting on an entry, making its attempt, or about to
    forget one that failed. *)
Inductive caller := Waits (e : nat) | Leads (e : nat) | Forgets (e : nat) (r : result string loginError).
(** The last field is the model's alone: what was asked and told in the attempts
    that ended. *)
Record driver := MkDriver { dr_sessions : gmap string nat; dr_entries : gmap nat entry; dr_callers : gmap nat (string * caller); dr_past : list (list (event told)) }.
Definition new_driver : driver := MkDriver ∅ ∅ ∅ [].

(** One step, and what it hands to a request if it does: its login and the answer
    of its [Cookie]. *)
Inductive dstep : driver -> option (string * result string loginError) -> driver -> Prop :=
(** [Cookie], the part under the mutex: an entry that is not expired is shared ... *)
| d_share s l n e en now : dr_callers s !! n = None -> dr_sessions s !! l = Some e -> dr_entries s !! e = Some en -> expired now en = false ->
    dstep s None (MkDriver (dr_sessions s) (dr_entries s) (<[n := (l, Waits e)]> (dr_callers s)) (dr_past s))
(** ... and otherwise a new one takes its place. *)
| d_lead s l n e now : dr_callers s !! n = None -> dr_entries s !! e = None ->
    (forall e' en, dr_sessions s !! l = Some e' -> dr_entries s !! e' = Some en -> expired now en = true) ->
    dstep s None (MkDriver (<[l := e]> (dr_sessions s)) (<[e := Running]> (dr_entries s)) (<[n := (l, Leads e)]> (dr_callers s)) (dr_past s))
(** The attempt ends, by itself ... *)
| d_ended s l n e tr r now : dr_callers s !! n = Some (l, Leads e) -> runs (login l) tr r ->
    dstep s None (MkDriver (dr_sessions s) (<[e := Closed r now]> (dr_entries s)) (<[n := (l, Forgets e r)]> (dr_callers s)) (dr_past s ++ [tr]))
(** ... or by a panic. *)
| d_panicked s l n e : dr_callers s !! n = Some (l, Leads e) ->
    dstep s None (MkDriver (dr_sessions s) (<[e := Closed (Err errLoginPanicked) zeroTime]> (dr_entries s)) (<[n := (l, Forgets e (Err errLoginPanicked))]> (dr_callers s)) (dr_past s))
(** A failed attempt leaves the map, if it is still there; the request is answered. *)
| d_answered s l n e r : dr_callers s !! n = Some (l, Forgets e r) ->
    dstep s (Some (l, r))
      (MkDriver (match r with Err _ => if bool_decide (dr_sessions s !! l = Some e) then delete l (dr_sessions s) else dr_sessions s | Ok _ => dr_sessions s end)
                (dr_entries s) (delete n (dr_callers s)) (dr_past s))
(** A waiter is answered once the channel is closed, or gives up. *)
| d_waited s l n e r at_ : dr_callers s !! n = Some (l, Waits e) -> dr_entries s !! e = Some (Closed r at_) ->
    dstep s (Some (l, r)) (MkDriver (dr_sessions s) (dr_entries s) (delete n (dr_callers s)) (dr_past s))
| d_gave_up s l n e : dr_callers s !! n = Some (l, Waits e) -> dstep s None (MkDriver (dr_sessions s) (dr_entries s) (delete n (dr_callers s)) (dr_past s))
(** [Invalidate]. *)
| d_invalidate s l cookie :
    dstep s None (MkDriver (match dr_sessions s !! l with
                            | Some e => match dr_entries s !! e with Some (Closed (Ok ck) _) => if str_eqb ck cookie then delete l (dr_sessions s) else dr_sessions s
                                                              | Some (Closed (Err _) _) => if is_empty cookie then delete l (dr_sessions s) else dr_sessions s
                                                              | _ => dr_sessions s end
                            | None => dr_sessions s
                            end) (dr_entries s) (dr_callers s) (dr_past s)).

Definition dsteps : driver -> driver -> Prop := rtc (fun s s' => exists o, dstep s o s').

(** * A session handed out *)

(** The hub answered an assertion for the login's email with this session, and
    said of it alone that it is the user recorded for that email. *)
Definition signed_in (past : list (list (event told))) (l cookie : string) : Prop :=
  exists (tr : list (event told)) id assertion welcome me b, tr ∈ past
    /\ Ev (answer := told) (UserOf (login_email l)) (Some id) ∈ tr /\ id <> "" /\ id <> ScionDevUserID
    /\ Ev (answer := told) (SignFor (login_email l)) (Ok assertion) ∈ tr
    /\ Ev (answer := told) (Get hubLoginPath [(hub_Header, assertion)]) (Ok welcome) ∈ tr /\ rs_Status welcome = StatusOK /\ session_of (rs_Header welcome) = Some cookie
    /\ Ev (answer := told) (Get authMePath [("Cookie", session_cookie cookie); ("Accept", "application/json")]) (Ok me) ∈ tr
    /\ rs_Status me = StatusOK /\ rs_Body me = Some b /\ decode_me (String.substring 0 maxAuthMeBody b) = Some id.

Lemma logged_no_ok (p : signin unit) e tr cookie : runs (bind p (fun _ => Ret (Err e))) tr (Ok cookie : result string loginError) -> False.
Proof. intros (t1 & [] & t2 & _ & _ & Hr)%runs_bind. by apply runs_inv in Hr as [_ ?]. Qed.

Lemma login_ok past l tr cookie : runs (login l) tr (Ok cookie) -> tr ∈ past -> signed_in past l cookie.
Proof.
  unfold login, lookupUser. destruct (negb (lc_HubUserID d)); [intros Hr; by apply logged_no_ok in Hr|]. intros Hr Hpast. unfold query in Hr. cbn [bind ask] in Hr.
  run_ask Hr uid t1. destruct uid as [uid|]; [|by apply logged_no_ok in Hr]. destruct (negb (is_empty uid) && negb (str_eqb uid ScionDevUserID)) eqn:Eid; [|by apply logged_no_ok in Hr].
  destruct (negb (lc_Sign d)); [by apply logged_no_ok in Hr|]. run_ask Hr assertion t2. destruct assertion as [assertion|e]; [|by apply logged_no_ok in Hr].
  unfold session, query in Hr. cbn [bind ask] in Hr. run_ask Hr welcome t3. destruct welcome as [welcome|e]; [|by apply logged_no_ok in Hr].
  destruct (rs_Status welcome =? StatusOK) eqn:E1; cbn [negb] in Hr; [|by apply logged_no_ok in Hr]. destruct (session_of (rs_Header welcome)) as [ck|] eqn:Es; [|by apply logged_no_ok in Hr].
  unfold whoAmI, query in Hr. cbn [bind ask] in Hr. run_ask Hr me t4. destruct me as [me|e]; [|by apply logged_no_ok in Hr].
  destruct (rs_Status me =? StatusOK) eqn:E2; cbn [negb] in Hr; [|by apply logged_no_ok in Hr]. destruct (rs_Body me) as [b|] eqn:Eb; [|by apply logged_no_ok in Hr].
  destruct (decode_me _) as [got|] eqn:Ed; [|by apply logged_no_ok in Hr]. destruct (is_empty got); [by apply logged_no_ok in Hr|].
  destruct (str_eqb got uid) eqn:Eg; cbn [negb] in Hr; [|by apply logged_no_ok in Hr]. apply str_eqb_eq in Eg as ->.
  apply runs_bind in Hr as (t5 & [] & t6 & -> & _ & Hr). apply runs_inv in Hr as [-> Hr]. injection Hr as [= ->]. apply andb_prop in Eid as [Eid1 Eid2]. guards.
  eexists _, uid, assertion, welcome, me, b. apply Z.eqb_eq in E1, E2. split_and!; [exact Hpast|..]; try done; set_solver.
Qed.

Lemma signed_in_mono past tr l ck : signed_in past l ck -> signed_in (past ++ [tr]) l ck.
Proof. intros (t & id & a & w & m & b & Hin & Hrest). exists t, id, a, w, m, b. split; [set_solver|done]. Qed.

(** ** The invariant *)

(** [own] says whose each entry is. *)
Record sound (own : gmap nat string) (s : driver) : Prop := {
  so_dom : dom own = dom (dr_entries s);
  so_map : forall l e, dr_sessions s !! l = Some e -> own !! e = Some l;
  so_who : forall n l k, dr_callers s !! n = Some (l, k) -> exists e, (k = Waits e \/ k = Leads e \/ exists r, k = Forgets e r) /\ own !! e = Some l;
  so_ok : forall e l ck at_, dr_entries s !! e = Some (Closed (Ok ck) at_) -> own !! e = Some l -> signed_in (dr_past s) l ck;
  so_told : forall n l e ck, dr_callers s !! n = Some (l, Forgets e (Ok ck)) -> signed_in (dr_past s) l ck;
  so_lead : forall n l e, dr_callers s !! n = Some (l, Leads e) -> dr_entries s !! e = Some Running;
  so_led : forall e, dr_entries s !! e = Some Running -> exists n l, dr_callers s !! n = Some (l, Leads e);
  so_one : forall n m l l' e, dr_callers s !! n = Some (l, Leads e) -> dr_callers s !! m = Some (l', Leads e) -> n = m
}.

Lemma sound_sessions own s ss : sound own s -> (forall l e, ss !! l = Some e -> dr_sessions s !! l = Some e) -> sound own (MkDriver ss (dr_entries s) (dr_callers s) (dr_past s)).
Proof. intros [] Hs. split; cbn; eauto. Qed.

Lemma sound_done own s n l k : sound own s -> dr_callers s !! n = Some (l, k) -> (forall e, k <> Leads e) -> sound own (MkDriver (dr_sessions s) (dr_entries s) (delete n (dr_callers s)) (dr_past s)).
Proof.
  intros [Hd Hm Hw Hk Ht Hl Hled Ho] En Hk'. split; cbn; try done.
  - intros m l' k' [_ E]%lookup_delete_Some. eauto.
  - intros m l' e ck [_ E]%lookup_delete_Some. eauto.
  - intros m l' e [_ E]%lookup_delete_Some. eauto.
  - intros e He. destruct (Hled e He) as (m & l' & Em). exists m, l'. rewrite lookup_delete_ne; [done|]. intros ->. rewrite En in Em. injection Em as _ ->. by apply (Hk' e).
  - intros m m' l1 l2 e [_ E1]%lookup_delete_Some [_ E2]%lookup_delete_Some. eauto.
Qed.

(** An attempt that ends closes its entry and is on its way to forget it. *)
Lemma sound_closed own s n l e r now past : sound own s -> dr_callers s !! n = Some (l, Leads e) -> (forall ck, r = Ok ck -> signed_in past l ck) ->
  (forall l ck, signed_in (dr_past s) l ck -> signed_in past l ck) ->
  sound own (MkDriver (dr_sessions s) (<[e := Closed r now]> (dr_entries s)) (<[n := (l, Forgets e r)]> (dr_callers s)) past).
Proof.
  intros [Hd Hm Hw Hk Ht Hl Hled Ho] En Hr Hp. pose proof (Hl _ _ _ En) as Ee. assert (Hin : e ∈ dom (dr_entries s)) by (by apply elem_of_dom_2 in Ee).
  assert (Hown : own !! e = Some l) by (destruct (Hw _ _ _ En) as (e' & [?|[[= ->]|[? ?]]] & Eo); done).
  split; cbn; try done.
  - rewrite dom_insert_L, Hd. set_solver.
  - intros m l' k. rewrite lookup_insert_Some. intros [[_ [= <- <-]]|[_ E]]; [exists e; split; [right; right; by exists r|done]|eauto].
  - intros e' l' ck at_. rewrite lookup_insert_Some. intros [[<- [= -> ->]]|[_ E]] Eo; [|eauto]. assert (l' = l) as -> by congruence. by apply Hr.
  - intros m l' e' ck. rewrite lookup_insert_Some. intros [[_ [= <- <- ->]]|[_ E]]; [by apply Hr|eauto].
  - intros m l' e'. rewrite lookup_insert_Some. intros [[_ [=]]|[Hne E]]. rewrite lookup_insert_ne; [eauto|]. intros <-. apply Hne. by eapply Ho.
  - intros e'. rewrite lookup_insert_Some. intros [[_ [=]]|[Hne E]]. destruct (Hled e' E) as (m & l' & Em). exists m, l'. rewrite lookup_insert_ne; [done|].
    intros <-. rewrite En in Em. by injection Em as _ ->.
  - intros m m' l1 l2 e'. rewrite !lookup_insert_Some. intros [[_ [=]]|[_ E1]] [[_ [=]]|[_ E2]]. eauto.
Qed.

Lemma sound_step own s o s' : sound own s -> dstep s o s' -> exists own', sound own' s'.
Proof.
  intros Hs Hst. destruct Hst as [s l n e en now En El Ee _|s l n e now En Ee _|s l n e tr r now En Hr|s l n e En|s l n e r En|s l n e r at_ En Ee|s l n e En|s l cookie].
  - exists own. destruct Hs as [Hd Hm Hw Hk Ht Hl Hled Ho]. split; cbn; try done.
    + intros m l' k. rewrite lookup_insert_Some. intros [[_ [= <- <-]]|[_ E]]; [exists e; auto|eauto].
    + intros m l' e' ck. rewrite lookup_insert_Some. intros [[_ [=]]|[_ E]]. eauto.
    + intros m l' e'. rewrite lookup_insert_Some. intros [[_ [=]]|[_ E]]. eauto.
    + intros e' He. destruct (Hled e' He) as (m & l' & Em). exists m, l'. rewrite lookup_insert_ne; [done|congruence].
    + intros m m' l1 l2 e'. rewrite !lookup_insert_Some. intros [[_ [=]]|[_ E1]] [[_ [=]]|[_ E2]]. eauto.
  - exists (<[e := l]> own). destruct Hs as [Hd Hm Hw Hk Ht Hl Hled Ho].
    assert (Hnew : own !! e = None) by (apply not_elem_of_dom; rewrite Hd; by apply not_elem_of_dom).
    assert (Hkeep : forall e' l', own !! e' = Some l' -> <[e := l]> own !! e' = Some l') by (intros e' l' E; rewrite lookup_insert_ne; [done|congruence]).
    split; cbn.
    + by rewrite !dom_insert_L, Hd.
    + intros l' e'. rewrite lookup_insert_Some. intros [[<- <-]|[_ E]]; [apply lookup_insert_eq|auto].
    + intros m l' k. rewrite lookup_insert_Some. intros [[_ [= <- <-]]|[_ E]]; [exists e; split; [auto|apply lookup_insert_eq]|]. destruct (Hw _ _ _ E) as (e' & Hc & Eo). exists e'. auto.
    + intros e' l' ck at_. rewrite !lookup_insert_Some. intros [[_ [=]]|[Hne E]] [[? _]|[_ Eo]]; [done|eauto].
    + intros m l' e' ck. rewrite lookup_insert_Some. intros [[_ [=]]|[_ E]]. eauto.
    + intros m l' e'. rewrite lookup_insert_Some. intros [[_ [= <- <-]]|[_ E]]; [apply lookup_insert_eq|]. pose proof (Hl _ _ _ E). rewrite lookup_insert_ne; [done|congruence].
    + intros e'. rewrite lookup_insert_Some. intros [[<- _]|[_ E]]; [exists n, l; apply lookup_insert_eq|]. destruct (Hled e' E) as (m & l' & Em). exists m, l'. rewrite lookup_insert_ne; [done|congruence].
    + intros m m' l1 l2 e'. rewrite !lookup_insert_Some. intros [[Hm1 F1]|[Hm1 E1]] [[Hm2 F2]|[Hm2 E2]]; [congruence| | |eauto].
      * injection F1 as _ <-. pose proof (Hl _ _ _ E2). congruence.
      * injection F2 as _ <-. pose proof (Hl _ _ _ E1). congruence.
  - exists own. eapply sound_closed; [done..| |intros; by apply signed_in_mono]. intros ck ->. eapply login_ok; [done|set_solver].
  - exists own. by eapply sound_closed.
  - exists own. eapply sound_done in Hs; [|exact En|done]. destruct r as [ck|err]; [done|]. apply (sound_sessions own _ _ Hs). intros l' e'. case_bool_decide; [|done]. by intros [_ ?]%lookup_delete_Some.
  - exists own. by eapply sound_done.
  - exists own. by eapply sound_done.
  - exists own. apply sound_sessions; [done|]. intros l' e'. destruct (dr_sessions s !! l) as [e|]; [|done].
    destruct (dr_entries s !! e) as [[|[ck|er] at_]|]; [done| | |done].
    + destruct (str_eqb ck cookie); [|done]. by intros [_ ?]%lookup_delete_Some.
    + destruct (is_empty cookie); [|done]. by intros [_ ?]%lookup_delete_Some.
Qed.

Lemma sound_history s : dsteps new_driver s -> exists own, sound own s.
Proof.
  intros Hr. assert (Hgo : forall s1 s2, rtc (fun s s' => exists o, dstep s o s') s1 s2 -> (exists own, sound own s1) -> exists own, sound own s2).
  { induction 1 as [|s1 s2 s3 [o Hst] _ IH]; [done|]. intros [own Hs]. apply IH. by eapply sound_step. }
  apply (Hgo _ _ Hr). exists ∅. split; cbn; try done; intros; by rewrite lookup_empty in *.
Qed.

(** C24: Whatever the order in which requests ask, attempts end, fail or panic, and
    sessions expire or are dropped, a session handed to a request for a login is
    one the hub gave for an assertion of that login's email, and one the hub says
    belongs to the user recorded for it. *)
Theorem session_is_the_recorded_users s l cookie s' : dsteps new_driver s -> dstep s (Some (l, Ok cookie)) s' -> signed_in (dr_past s) l cookie.
Proof.
  intros [own Hs]%sound_history Hst. inversion Hst as [| | | |s0 l0 n e r En|s0 l0 n e r at_ En Ee| |]; subst; [by eapply so_told|].
  eapply so_ok; [done|exact Ee|]. destruct (so_who _ _ Hs _ _ _ En) as (e' & [[= ->]|[?|[? ?]]] & Eo); done.
Qed.

(** No request waits for an attempt nobody makes: the entry it waits on is closed,
    and its answer is ready, or one request, and one only, is making the attempt
    for the same login. *)
Theorem waiters_are_answered s n l e : dsteps new_driver s -> dr_callers s !! n = Some (l, Waits e) ->
  (exists r at_ s', dr_entries s !! e = Some (Closed r at_) /\ dstep s (Some (l, r)) s')
  \/ exists m, dr_callers s !! m = Some (l, Leads e) /\ forall m' l', dr_callers s !! m' = Some (l', Leads e) -> m' = m.
Proof.
  intros [own Hs]%sound_history En. destruct (so_who _ _ Hs _ _ _ En) as (e' & [[= ->]|[?|[? ?]]] & Eo); try done.
  assert (He : is_Some (dr_entries s !! e')) by (apply elem_of_dom; rewrite <- (so_dom _ _ Hs); by apply elem_of_dom_2 in Eo). destruct He as [[|r at_] He].
  - right. destruct (so_led _ _ Hs _ He) as (m & l' & Em). destruct (so_who _ _ Hs _ _ _ Em) as (e2 & [?|[[= ->]|[? ?]]] & Eo2); try done.
    assert (l' = l) as -> by congruence. exists m. split; [done|]. intros m' l2 Em'. by eapply so_one.
  - left. exists r, at_. eexists. split; [done|]. by eapply d_waited.
Qed.

End Login.
End RemoteLogin.

(** The requests a revocation ends ([internal/remoteproxy/revoke.go]): every open
    request of a login is tracked, one poller asks whether the login is still
    admitted, and cancels what is open when it is not. Requests come and go between
    any two steps of the poller. *)

Module RemoteRevoke.

(** Where the polling goroutine is: none runs, at its ticker, with logins to ask
    about, or about to take the mutex for one that was refused. *)
Inductive poller := Off | AtTicker | Polling (logins : list string) | Refused (login : string) (logins : list string).

(** [liveRequests]: the open requests by login, each behind its [cancel]; and, the
    model's alone, the poller, the requests ever tracked and those cancelled. *)
Record liveRequests := MkLive { lr_open : gmap string (gset nat); lr_polling : bool; lr_poller : poller; lr_seen : gset nat; lr_cancelled : gset nat }.
Definition no_requests : liveRequests := MkLive ∅ false Off ∅ ∅.

Definition open_of (s : liveRequests) (login : string) : gset nat := default ∅ (lr_open s !! login).

Definition track (login : string) (n : nat) (s : liveRequests) : liveRequests :=
  MkLive (<[login := {[n]} ∪ open_of s login]> (lr_open s)) true (if lr_polling s then lr_poller s else AtTicker) ({[n]} ∪ lr_seen s) (lr_cancelled s).
(** What [track] returns. *)
Definition untrack (login : string) (n : nat) (s : liveRequests) : liveRequests :=
  let rest := open_of s login ∖ {[n]} in
  MkLive (if bool_decide (rest = ∅) then delete login (lr_open s) else <[login := rest]> (lr_open s)) (lr_polling s) (lr_poller s) (lr_seen s) (lr_cancelled s).
(** The first step of a turn of [pollRevocations], under the mutex. *)
Definition turn (s : liveRequests) : liveRequests :=
  if bool_decide (lr_open s = ∅) then MkLive (lr_open s) false Off (lr_seen s) (lr_cancelled s)
  else MkLive (lr_open s) (lr_polling s) (Polling (elements (dom (lr_open s)))) (lr_seen s) (lr_cancelled s).
Definition at_poller (p : poller) (s : liveRequests) : liveRequests := MkLive (lr_open s) (lr_polling s) p (lr_seen s) (lr_cancelled s).
(** The answer of [loginCurrent] on the next login. *)
Definition heard (login : string) (logins : list string) (current : bool) (s : liveRequests) : liveRequests :=
  at_poller (if current then Polling logins else Refused login logins) s.
Definition cancel_all (login : string) (logins : list string) (s : liveRequests) : liveRequests :=
  MkLive (lr_open s) (lr_polling s) (Polling logins) (lr_seen s) (open_of s login ∪ lr_cancelled s).

Inductive label := Tracked | Ended | Ticked | Asked (login : string) (current : bool) | Cancelled | PassOver.

Inductive rstep : liveRequests -> label -> liveRequests -> Prop :=
| r_track s login n : n ∉ lr_seen s -> rstep s Tracked (track login n s)
| r_end s login n : n ∈ open_of s login -> rstep s Ended (untrack login n s)
| r_tick s : lr_poller s = AtTicker -> rstep s Ticked (turn s)
| r_ask s login logins current : lr_poller s = Polling (login :: logins) -> rstep s (Asked login current) (heard login logins current s)
| r_cancel s login logins : lr_poller s = Refused login logins -> rstep s Cancelled (cancel_all login logins s)
| r_over s : lr_poller s = Polling [] -> rstep s PassOver (at_poller AtTicker s).

Inductive rsteps : liveRequests -> list label -> liveRequests -> Prop :=
| rs_nil s : rsteps s [] s
| rs_cons s a s1 tr s2 : rstep s a s1 -> rsteps s1 tr s2 -> rsteps s (a :: tr) s2.

Definition ticks (tr : list label) : nat := length (List.filter (fun a => match a with Ticked => true | _ => false end) tr).

(** ** The invariant *)

Record tracked (s : liveRequests) : Prop := {
  tk_poller : lr_polling s = true <-> lr_poller s <> Off;
  tk_open : lr_polling s = false -> lr_open s = ∅;
  tk_seen : forall l n, n ∈ open_of s l -> n ∈ lr_seen s
}.

Lemma open_untrack s l n l' : open_of (untrack l n s) l' = if bool_decide (l' = l) then open_of s l ∖ {[n]} else open_of s l'.
Proof.
  unfold untrack, open_of at 1. cbn [lr_open]. destruct (decide (l' = l)) as [->|Hl].
  - rewrite (bool_decide_eq_true_2 (l = l)) by done. case_bool_decide as He; [by rewrite lookup_delete_eq, He|by rewrite lookup_insert_eq].
  - rewrite (bool_decide_eq_false_2 (l' = l)) by done. case_bool_decide; [by rewrite lookup_delete_ne|by rewrite lookup_insert_ne].
Qed.
Lemma open_track s l n l' : open_of (track l n s) l' = if bool_decide (l' = l) then {[n]} ∪ open_of s l else open_of s l'.
Proof. unfold track, open_of at 1. cbn [lr_open]. case_bool_decide as Hl; [subst; by rewrite lookup_insert_eq|by rewrite lookup_insert_ne]. Qed.
Lemma open_turn s l : open_of (turn s) l = open_of s l.
Proof. unfold turn. by case_bool_decide. Qed.

Lemma relogged_step s a s' : tracked s -> rstep s a s' -> tracked s'.
Proof.
  intros [[Hp1 Hp2] Ho Hs] Hst. destruct Hst as [s l n Hn|s l n Hn|s Hp|s l ls b Hp|s l ls Hp|s Hp].
  - split; [|done|].
    + cbn. split; [intros _|done]. destruct (lr_polling s) eqn:E; [auto|done].
    + intros l' m. rewrite open_track. cbn [track lr_seen]. case_bool_decide; [|intros Hm; specialize (Hs _ _ Hm); set_solver].
      rewrite !elem_of_union. intros [?|Hm]; [auto|right; by eapply Hs].
  - split; [done| |].
    + intros E. cbn in E. specialize (Ho E). cbn [untrack lr_open]. unfold open_of in Hn. rewrite Ho, lookup_empty in Hn. by apply elem_of_empty in Hn.
    + intros l' m. rewrite open_untrack. cbn [untrack lr_seen]. case_bool_decide; [|by apply Hs]. intros [Hm _]%elem_of_difference. by eapply Hs.
  - split; [| |intros l m; rewrite open_turn; unfold turn; case_bool_decide; apply Hs]; unfold turn; case_bool_decide as He; cbn; try done.
    + split; [done|]. intros _. apply Hp2. congruence.
  - split; [|done|done]. cbn. split; [by destruct b|intros _; apply Hp2; congruence].
  - split; [|done|done]. cbn. split; [done|intros _; apply Hp2; congruence].
  - split; [|done|done]. cbn. split; [done|intros _; apply Hp2; congruence].
Qed.

Lemma tracked_steps s tr s' : rsteps s tr s' -> tracked s -> tracked s'.
Proof. induction 1 as [|s a s1 tr s2 Hst _ IH]; [done|]. intros Ht. by apply IH, (relogged_step s a). Qed.
Lemma tracked_start : tracked no_requests.
Proof. split; [done|done|]. intros l n Hn. unfold open_of, no_requests in Hn. cbn in Hn. rewrite lookup_empty in Hn. by apply elem_of_empty in Hn. Qed.

(** The poller is never stuck, and its pass over the logins ends. *)
Definition steps_left (p : poller) : nat := match p with Polling ls => S (2 * length ls) | Refused _ ls => S (S (2 * length ls)) | _ => 0 end.
Lemma pass_goes_on s : lr_poller s <> Off -> exists a s', rstep s a s' /\ (a = Ticked \/ (steps_left (lr_poller s') < steps_left (lr_poller s))%nat).
Proof.
  destruct (lr_poller s) as [| |[|l ls]|l ls] eqn:E; intros Hne; [done|..].
  - exists Ticked, (turn s). split; [by apply r_tick|by left].
  - eexists PassOver, _. split; [by apply r_over|right; cbn; lia].
  - eexists (Asked l true), _. split; [by apply r_ask|right; cbn; lia].
  - eexists Cancelled, _. split; [by apply r_cancel|right; cbn; lia].
Qed.

(** ** A request of a refused login *)

(** After a tick, the request has ended, or was cancelled, or its login is still to be asked about. *)
Definition due (l : string) (n : nat) (s : liveRequests) : Prop :=
  n ∈ lr_seen s /\ (n ∉ open_of s l \/ n ∈ lr_cancelled s
  \/ match lr_poller s with Polling ls => l ∈ ls | Refused l' ls => l' = l \/ l ∈ ls | _ => False end).

Lemma due_step l n s a s' : tracked s -> due l n s -> rstep s a s' -> (forall b, a = Asked l b -> b = false) -> due l n s'.
Proof.
  intros Ht [Hseen Hd] Hst Hf. destruct Hst as [s l1 m Hm|s l1 m Hm|s Hp|s l1 ls b Hp|s l1 ls Hp|s Hp].
  - split; [cbn; set_solver|]. rewrite open_track. cbn [track lr_cancelled lr_poller]. destruct Hd as [Hd|[Hd|Hd]]; [left|by right; left|right; right].
    + case_bool_decide; [subst|done]. rewrite elem_of_union, elem_of_singleton. intros [->|?]; [by apply Hm|done].
    + rewrite (proj2 (tk_poller _ Ht)); [done|]. by destruct (lr_poller s).
  - split; [done|]. rewrite open_untrack. cbn [untrack lr_cancelled lr_poller]. destruct Hd as [Hd|Hd]; [left; case_bool_decide; subst; set_solver|by right].
  - rewrite Hp in Hd. split; [by unfold turn; case_bool_decide|]. rewrite open_turn. unfold turn. destruct Hd as [Hd|[Hd|[]]]; [by left|right; left; by case_bool_decide].
  - split; [done|]. rewrite Hp in Hd. cbn [heard at_poller lr_cancelled lr_poller lr_open open_of]. destruct Hd as [Hd|[Hd|Hd]]; [by left|by right; left|right; right].
    apply elem_of_cons in Hd as [->|Hd]; [rewrite (Hf b eq_refl); by left|destruct b; [done|by right]].
  - split; [done|]. rewrite Hp in Hd. change (open_of (cancel_all l1 ls s) l) with (open_of s l). cbn [cancel_all lr_cancelled lr_poller].
    destruct Hd as [Hd|[Hd|[->|Hd]]]; [by left|right; left; set_solver| |by right; right].
    destruct (decide (n ∈ open_of s l)); [right; left; set_solver|by left].
  - split; [done|]. rewrite Hp in Hd. destruct Hd as [Hd|[Hd|Hd]]; [by left|by right; left|by apply elem_of_nil in Hd].
Qed.
Lemma due_steps l n s tr s' : rsteps s tr s' -> tracked s -> (forall b, Asked l b ∈ tr -> b = false) -> due l n s -> due l n s'.
Proof.
  induction 1 as [|s a s1 tr s2 Hst _ IH]; [done|]. intros Ht Hf Hd. apply IH; [by eapply relogged_step|intros b Hb; apply Hf; set_solver|]. eapply due_step; [done..|]. intros b ->. apply Hf. set_solver.
Qed.

(** A tick makes it due. *)
Lemma tick_due l n s : tracked s -> n ∈ lr_seen s -> due l n (turn s).
Proof.
  intros Ht Hn. split; [by unfold turn; case_bool_decide|]. rewrite open_turn. destruct (decide (n ∈ open_of s l)) as [Ho|Ho]; [right; right|by left].
  unfold open_of in Ho. destruct (lr_open s !! l) as [ns|] eqn:E; [|by apply elem_of_empty in Ho]. unfold turn. rewrite bool_decide_eq_false_2; [|intros He; by rewrite He, lookup_empty in E].
  cbn [lr_poller]. apply elem_of_elements. by apply elem_of_dom_2 in E.
Qed.

(** A run up to its next tick. *)
Lemma first_tick s tr s' : rsteps s tr s' -> (1 <= ticks tr)%nat ->
  exists t1 s1 t2, tr = t1 ++ Ticked :: t2 /\ rsteps s t1 s1 /\ lr_poller s1 = AtTicker /\ rsteps (turn s1) t2 s' /\ ticks t2 = pred (ticks tr).
Proof.
  induction 1 as [s|s a s1 tr s2 Hst Hr IH]; intros Hk; [cbn in Hk; lia|].
  assert (Hgo : ticks (a :: tr) = ticks tr -> exists t1 s1' t2, a :: tr = t1 ++ Ticked :: t2 /\ rsteps s t1 s1' /\ lr_poller s1' = AtTicker /\ rsteps (turn s1') t2 s2 /\ ticks t2 = pred (ticks (a :: tr))).
  { intros E. rewrite E in Hk |- *. destruct (IH Hk) as (t1 & s1' & t2 & -> & H1 & H2 & H3 & H4). exists (a :: t1), s1', t2. split_and!; [done|by econstructor|done..]. }
  destruct Hst; try by apply Hgo. exists [], s, tr. split_and!; [done|constructor|done|done|done].
Qed.

Lemma seen_steps s tr s' n : rsteps s tr s' -> n ∈ lr_seen s -> n ∈ lr_seen s'.
Proof.
  induction 1 as [|s a s1 tr s2 Hst _ IH]; [done|]. intros Hn. apply IH. destruct Hst; try done; [cbn; set_solver|unfold turn; by case_bool_decide].
Qed.

(** C25: While a request is open the poller runs; and once the login's access is refused
    whenever it is asked, a request of it that is still open at the second tick of
    the poller is cancelled, whatever requests come and go meanwhile: no stream
    outlives the revocation by more than a pass. *)
Theorem revoked_requests_end s0 s l n : rsteps no_requests s0 s -> n ∈ open_of s l ->
  lr_poller s <> Off
  /\ forall tr s', rsteps s tr s' -> (2 <= ticks tr)%nat -> (forall b, Asked l b ∈ tr -> b = false) -> n ∈ open_of s' l -> n ∈ lr_cancelled s'.
Proof.
  intros Hr Hn. pose proof (tracked_steps _ _ _ Hr tracked_start) as Ht. split.
  - apply (tk_poller _ Ht). destruct (lr_polling s) eqn:E; [done|]. exfalso. unfold open_of in Hn. rewrite (tk_open _ Ht E), lookup_empty in Hn. by apply elem_of_empty in Hn.
  - intros tr s' Hrun Hk Hf Hopen. destruct (first_tick _ _ _ Hrun ltac:(lia)) as (t1 & s1 & t2 & -> & H1 & Hp1 & H2 & E2).
    assert (Hk2 : (1 <= ticks t2)%nat) by lia. destruct (first_tick _ _ _ H2 Hk2) as (t3 & s2 & t4 & -> & H3 & Hp2 & H4 & _).
    assert (Hs1 : n ∈ lr_seen s1) by (eapply seen_steps; [done|by eapply tk_seen]).
    assert (Ht1 : tracked (turn s1)) by (eapply relogged_step; [eapply tracked_steps; [exact H1|exact Ht]|by apply r_tick]).
    assert (Hd : due l n s2) by (eapply due_steps; [exact H3|exact Ht1|intros b Hb; apply Hf; set_solver|apply tick_due; [by eapply tracked_steps|done]]).
    assert (Hd' : n ∉ open_of s2 l \/ n ∈ lr_cancelled s2) by (destruct Hd as [_ Hd]; rewrite Hp2 in Hd; naive_solver).
    assert (Hgo : forall a b tr, rsteps a tr b -> n ∈ lr_seen a -> n ∉ open_of a l \/ n ∈ lr_cancelled a -> n ∉ open_of b l \/ n ∈ lr_cancelled b).
    { clear. induction 1 as [|a x a1 tr b Hst Hr IH]; [done|]. intros Hs Hd. apply IH; [eapply seen_steps; [econstructor; [exact Hst|constructor]|done]|].
      destruct Hst as [s l1 m Hm|s l1 m Hm|s Hp|s l1 ls c Hp|s l1 ls Hp|s Hp].
      - rewrite open_track. cbn. destruct Hd as [Hd|?]; [left|by right]. case_bool_decide; [subst|done]. set_solver.
      - rewrite open_untrack. cbn. destruct Hd as [Hd|?]; [left|by right]. case_bool_decide; [subst; set_solver|done].
      - rewrite open_turn. unfold turn. destruct Hd; [by left|right; by case_bool_decide].
      - done.
      - destruct Hd; [by left|right; cbn; set_solver].
      - done. }
    assert (Hs2 : n ∈ lr_seen s2) by apply Hd.
    destruct (Hgo _ _ _ H4) as [Hno|?]; [by unfold turn; case_bool_decide| |done|done].
    rewrite open_turn. destruct Hd'; [by left|right; unfold turn; by case_bool_decide].
Qed.

End RemoteRevoke.
