(* ===== verification/Retention.v ===== *)
(** Which snapshots tree-backup retention keeps, and the Bloom filter the
    collector marks blobs in ([internal/treebackup/gc.go]). The calendar is
    Go's, written out, and shown to put days and weeks in their order; the two seeded hash functions and the size of a filter,
    a floating-point formula, are the interface [MapHash]. *)

From stdpp Require Import sorting.
From S2P Require Import Prelude Go TreePath ManifestEntry ManifestHeader.

Module Retention.
Import TreePath ManifestEntry ManifestHeader.

(** * Bloom filters *)

Class MapHash := {
  maphash : Z -> string -> Z;      (** [maphash.String(seed, s)]; seeds are numbers. *)
  bloom_bits : Z -> Z              (** [ceil(-n * ln(0.01) / ln(2)^2)]. *)
}.

Record bloom := MkBloom { bits : list Z; bm : Z; bk : Z; bs1 : Z; bs2 : Z }.

Section Bloom.
Context `{MapHash}.

Definition newBloom (n seed1 seed2 : Z) : bloom :=
  let m := Z.max (bloom_bits (Z.max n 1)) 64 in
  MkBloom (replicate (Z.to_nat ((m + 63) / 64)) 0) m 7 seed1 seed2.

(** The indices [positions] visits. *)
Definition positions (b : bloom) (sum : string) : list Z :=
  let h1 := maphash (bs1 b) sum in
  let h2 := Z.lor (maphash (bs2 b) sum) 1 in
  (fun i => ((h1 + Z.of_nat i * h2) mod 2 ^ 64) mod bm b) <$> seq 0 (Z.to_nat (bk b)).

Definition set_bit (i : Z) (ws : list Z) : list Z :=
  alter (fun w => Z.lor w (Z.shiftl 1 (i mod 64))) (Z.to_nat (i / 64)) ws.
Definition get_bit (i : Z) (ws : list Z) : bool :=
  negb (Z.land (default 0 (ws !! Z.to_nat (i / 64))) (Z.shiftl 1 (i mod 64)) =? 0).

Definition bloom_add (b : bloom) (sum : string) : bloom :=
  MkBloom (foldl (fun ws i => set_bit i ws) (bits b) (positions b sum)) (bm b) (bk b) (bs1 b) (bs2 b).
Definition bloom_has (b : bloom) (sum : string) : bool := forallb (fun i => get_bit i (bits b)) (positions b sum).

(** The filter has a word for every index. *)
Definition bloom_ok (b : bloom) : Prop := 64 <= bm b /\ bm b <= 64 * Z.of_nat (length (bits b)).

Lemma newBloom_ok n s1 s2 : bloom_ok (newBloom n s1 s2).
Proof.
  unfold bloom_ok, newBloom. cbn [bm bits]. rewrite length_replicate. set (m := Z.max _ 64).
  pose proof (Z.div_mod (m + 63) 64 ltac:(lia)). pose proof (Z.mod_pos_bound (m + 63) 64 ltac:(lia)).
  assert (64 <= m) by lia. rewrite Z2Nat.id by (apply Z.div_pos; lia). lia.
Qed.

Lemma positions_range b sum i : bloom_ok b -> i ∈ positions b sum -> 0 <= i < 64 * Z.of_nat (length (bits b)).
Proof.
  intros [Hm Hl] Hi. unfold positions in Hi. apply list_elem_of_fmap in Hi as (k & -> & _).
  pose proof (Z.mod_pos_bound ((maphash (bs1 b) sum + Z.of_nat k * Z.lor (maphash (bs2 b) sum) 1) mod 2 ^ 64) (bm b)). lia.
Qed.

Lemma set_bit_length i ws : length (set_bit i ws) = length ws.
Proof. apply length_alter. Qed.

Lemma get_bit_spec i ws : 0 <= i < 64 * Z.of_nat (length ws) ->
  get_bit i ws = Z.testbit (default 0 (ws !! Z.to_nat (i / 64))) (i mod 64).
Proof.
  intros Hi. unfold get_bit. generalize (default 0 (ws !! Z.to_nat (i / 64))). intros w.
  pose proof (Z.mod_pos_bound i 64 ltac:(lia)) as Hm. set (k := i mod 64) in *.
  destruct (Z.testbit w k) eqn:E.
  - apply negb_true_iff, Z.eqb_neq. intros E0. apply (f_equal (fun z => Z.testbit z k)) in E0.
    rewrite Z.land_spec, Z.shiftl_spec, Z.sub_diag, Z.testbit_0_l, E in E0 by lia. done.
  - apply negb_false_iff, Z.eqb_eq, Z.bits_inj. intros j. rewrite Z.testbit_0_l, Z.land_spec.
    destruct (decide (j = k)) as [->|Hj]; [by rewrite E|].
    destruct (Z.testbit (Z.shiftl 1 k) j) eqn:Es; [|by rewrite andb_false_r]. exfalso.
    destruct (Z.lt_ge_cases j 0) as [Hn|Hp]; [by rewrite Z.testbit_neg_r in Es|].
    rewrite Z.shiftl_spec in Es by lia. destruct (j - k) eqn:Ed; [lia|by destruct p|done].
Qed.

(** Setting a bit sets it and clears none. *)
Lemma get_set_bit i j ws : 0 <= i < 64 * Z.of_nat (length ws) -> 0 <= j < 64 * Z.of_nat (length ws) ->
  get_bit j (set_bit i ws) = get_bit j ws || (j =? i).
Proof.
  intros Hi Hj. rewrite !get_bit_spec by (by rewrite ?set_bit_length). unfold set_bit.
  pose proof (Z.mod_pos_bound i 64 ltac:(lia)). pose proof (Z.mod_pos_bound j 64 ltac:(lia)).
  pose proof (Z.div_mod i 64 ltac:(lia)). pose proof (Z.div_mod j 64 ltac:(lia)).
  assert (Hqi : 0 <= i / 64 < Z.of_nat (length ws)) by (split; [apply Z.div_pos | apply Z.div_lt_upper_bound]; lia).
  assert (Hqj : 0 <= j / 64 < Z.of_nat (length ws)) by (split; [apply Z.div_pos | apply Z.div_lt_upper_bound]; lia).
  destruct (decide (Z.to_nat (i / 64) = Z.to_nat (j / 64))) as [E|E].
  - rewrite E, list_lookup_alter_eq. destruct (lookup_lt_is_Some_2 ws (Z.to_nat (j / 64)) ltac:(lia)) as [w ->].
    simpl default. rewrite Z.lor_spec, Z.shiftl_spec by lia. f_equal.
    destruct (Z.eqb_spec j i) as [->|Hne]; [by rewrite Z.sub_diag|].
    destruct (j mod 64 - i mod 64) eqn:Ed; [lia | by destruct p | done].
  - rewrite list_lookup_alter_ne by done. destruct (Z.eqb_spec j i) as [->|]; [done | by rewrite orb_false_r].
Qed.

Lemma set_bits_get ixs ws j : Forall (fun i => 0 <= i < 64 * Z.of_nat (length ws)) ixs -> 0 <= j < 64 * Z.of_nat (length ws) ->
  get_bit j (foldl (fun ws i => set_bit i ws) ws ixs) = get_bit j ws || existsb (Z.eqb j) ixs.
Proof.
  revert ws. induction ixs as [|i ixs IH]; intros ws Hf Hj; cbn [foldl existsb]; [by rewrite orb_false_r|].
  apply Forall_cons in Hf as [Hi Hf]. rewrite IH by (by rewrite set_bit_length). by rewrite get_set_bit, orb_assoc.
Qed.

Lemma bloom_add_ok b sum : bloom_ok b -> bloom_ok (bloom_add b sum).
Proof.
  unfold bloom_ok, bloom_add. cbn [bm bits]. intros Hb. enough (forall ixs ws, length (foldl (fun ws i => set_bit i ws) ws ixs) = length ws) as -> by done.
  induction ixs as [|i ixs IH]; intros ws; cbn [foldl]; [done|]. by rewrite IH, set_bit_length.
Qed.

(** No digest that was added is ever missing. *)
Lemma bloom_has_add b sum sum' : bloom_ok b -> sum' = sum \/ bloom_has b sum' = true -> bloom_has (bloom_add b sum) sum' = true.
Proof.
  intros Hb Hs. unfold bloom_has. apply forallb_forall. intros j Hj%list_elem_of_In.
  change (positions (bloom_add b sum) sum') with (positions b sum') in Hj. unfold bloom_add. cbn [bits].
  rewrite set_bits_get; [| apply Forall_forall; intros i Hi; by eapply positions_range | by eapply positions_range].
  destruct Hs as [->|Hs].
  - apply orb_true_iff. right. apply existsb_exists. exists j. split; [by apply list_elem_of_In | apply Z.eqb_refl].
  - unfold bloom_has in Hs. rewrite forallb_forall in Hs. by rewrite Hs by (by apply list_elem_of_In).
Qed.
End Bloom.

(** * The calendar *)

Definition day_ns : Z := 86400 * 1000000000.

(** The UTC calendar day an instant falls on, counted from January 1, 1970. *)
Definition day_of (t : Time) : Z := (t - unixEpoch) / day_ns.

(** Years run from March, so that the leap day is the last of its year: the
    cycle of 400 years, its centuries, their cycles of four years, the year and
    the day in it. The last century and the last year of a cycle have a day
    more. *)
Definition march_year (days : Z) : Z * Z :=
  let z := days + 719468 in
  let doe := z mod 146097 in
  let c := Z.min (doe / 36524) 3 in
  let doc := doe - c * 36524 in
  let q := doc / 1461 in
  let doq := doc - q * 1461 in
  let y := Z.min (doq / 365) 3 in
  (z / 146097 * 400 + c * 100 + q * 4 + y, doq - y * 365).
Definition year_of (days : Z) : Z := let '(y, doy) := march_year days in if 306 <=? doy then y + 1 else y.
(** The days before the March that starts year [y], and before January 1. *)
Definition march1 (y : Z) : Z := 365 * y + y / 4 - y / 100 + y / 400 - 719468.
Definition january1 (year : Z) : Z := march1 (year - 1) + 306.
Definition year_day (days : Z) : Z := days - january1 (year_of days) + 1.
(** [ISOWeek]: the week belongs to the year of its Thursday. *)
Definition iso_week (days : Z) : Z * Z :=
  let thursday := days + 3 - (days + 3) mod 7 in
  (year_of thursday, (year_day thursday - 1) / 7 + 1).

Definition day_period (t : Time) : Z := let d := day_of t in year_of d * 1000 + year_day d.
Definition week_period (t : Time) : Z := let '(y, w) := iso_week (day_of t) in y * 100 + w.

(** The week of a day, weeks starting on Monday: the first day counted was a
    Thursday. *)
Definition monday_week (t : Time) : Z := (day_of t + 3) / 7.

Example new_year_2026 (t := UnixTime (20454 * day_ns)) : (day_period t, week_period t) = (2026001, 202601).
Proof. reflexivity. Qed.
Example leap_day_2024 (t := UnixTime (19782 * day_ns + 86399 * Second)) : (day_period t, week_period t) = (2024060, 202409).
Proof. reflexivity. Qed.
Example new_year_2023 (t := UnixTime (19358 * day_ns)) : (day_period t, week_period t) = (2023001, 202252).
Proof. reflexivity. Qed.
Example before_the_epoch (t := UnixTime (-1)) : (day_period t, week_period t) = (1969365, 197001).
Proof. reflexivity. Qed.
(** Sunday, January 4 and Monday, January 5, 2026. *)
Example weeks_start_on_monday (sunday := UnixTime (20457 * day_ns)) (monday := UnixTime (20458 * day_ns)) :
  (day_period sunday, week_period sunday, day_period monday, week_period monday) = (2026004, 202601, 2026005, 202602).
Proof. reflexivity. Qed.

(** ** The periods follow the calendar *)

Lemma march1_next y : march1 y + 365 <= march1 (y + 1) <= march1 y + 366.
Proof. unfold march1. Z.div_mod_to_equations. lia. Qed.

Lemma march1_le y z : y <= z -> march1 y <= march1 z.
Proof.
  intros H. replace z with (y + Z.of_nat (Z.to_nat (z - y))) by lia. induction (Z.to_nat (z - y)) as [|n IH]; [by rewrite Z.add_0_r|].
  rewrite Nat2Z.inj_succ, <- Z.add_1_r, Z.add_assoc. pose proof (march1_next (y + Z.of_nat n)). lia.
Qed.

(** A day is that day of the March year it is in. *)
Lemma march_year_spec d : let '(y, doy) := march_year d in d = march1 y + doy /\ 0 <= doy /\ d < march1 (y + 1).
Proof.
  unfold march_year. cbv zeta. set (e := (d + 719468) / 146097). pose proof (Z.mod_pos_bound (d + 719468) 146097 ltac:(lia)) as Hr.
  pose proof (Z.div_mod (d + 719468) 146097 ltac:(lia)) as Hd. fold e in Hd. set (doe := (d + 719468) mod 146097) in *.
  set (c := Z.min (doe / 36524) 3). assert (Hc : 0 <= c <= 3 /\ 0 <= doe - c * 36524 <= 36524 /\ (c < 3 -> doe - c * 36524 < 36524)).
  { unfold c. Z.div_mod_to_equations. lia. }
  set (doc := doe - c * 36524) in *. set (q := doc / 1461). assert (Hq : 0 <= q <= 24 /\ 0 <= doc - q * 1461 <= 1460) by (unfold q; Z.div_mod_to_equations; lia).
  set (doq := doc - q * 1461) in *. set (y := Z.min (doq / 365) 3).
  assert (Hy : 0 <= y <= 3 /\ 0 <= doq - y * 365 <= 365 /\ (y < 3 -> doq - y * 365 < 365)) by (unfold y; Z.div_mod_to_equations; lia).
  clearbody y c q doe e. unfold march1. subst doc doq.
  rewrite <- (Z.div_unique (e * 400 + c * 100 + q * 4 + y) 4 (e * 100 + c * 25 + q) y), <- (Z.div_unique (e * 400 + c * 100 + q * 4 + y) 100 (e * 4 + c) (q * 4 + y)),
    <- (Z.div_unique (e * 400 + c * 100 + q * 4 + y) 400 e (c * 100 + q * 4 + y)) by lia.
  split_and!; [lia..|]. Z.div_mod_to_equations. lia.
Qed.

(** [year_of] is the calendar year. *)
Lemma year_of_spec d : january1 (year_of d) <= d < january1 (year_of d + 1).
Proof.
  unfold year_of, january1. pose proof (march_year_spec d) as H. destruct (march_year d) as [y doy]. destruct H as (Hd & H1 & H2).
  destruct (Z.leb_spec 306 doy); [replace (y + 1 - 1) with y by lia; replace (y + 1 + 1 - 1) with (y + 1) by lia; lia|].
  replace (y + 1 - 1) with y by lia. pose proof (march1_next (y - 1)) as H3. replace (y - 1 + 1) with y in H3 by lia. lia.
Qed.

Lemma january1_lt y z : y < z -> january1 (y + 1) <= january1 z.
Proof. intros H. unfold january1. pose proof (march1_le (y + 1 - 1) (z - 1) ltac:(lia)). lia. Qed.

Lemma year_of_mono d e : d <= e -> year_of d <= year_of e.
Proof.
  intros H. pose proof (year_of_spec d). pose proof (year_of_spec e). destruct (Z.le_gt_cases (year_of d) (year_of e)) as [|Hlt]; [done|].
  pose proof (january1_lt _ _ Hlt). lia.
Qed.

Lemma year_day_range d : 1 <= year_day d <= 366.
Proof.
  unfold year_day. pose proof (year_of_spec d) as H. revert H. unfold january1. replace (year_of d + 1 - 1) with (year_of d - 1 + 1) by lia.
  pose proof (march1_next (year_of d - 1)). lia.
Qed.

(** A number that steps up with each year and grows within a year grows with
    the days. *)
Lemma mono_iff (f : Z -> Z) : (forall d e, d < e -> f d < f e) -> forall d e, f d < f e <-> d < e.
Proof. intros Hf d e. split; [|apply Hf]. intros H. destruct (Z.lt_trichotomy d e) as [|[->|Hgt]]; [done|lia|]. specialize (Hf e d Hgt). lia. Qed.

Lemma day_period_order t u : day_period t < day_period u <-> day_of t < day_of u.
Proof.
  unfold day_period. cbv zeta. apply (mono_iff (fun d => year_of d * 1000 + year_day d)). intros d e H.
  pose proof (year_of_mono d e ltac:(lia)). pose proof (year_day_range d). pose proof (year_day_range e).
  destruct (Z.eq_dec (year_of d) (year_of e)) as [E|]; [unfold year_day in *; rewrite E in *|]; lia.
Qed.

Lemma week_period_order t u : week_period t < week_period u <-> monday_week t < monday_week u.
Proof.
  assert (Hw : forall t, week_period t = year_of (7 * monday_week t) * 100 + ((year_day (7 * monday_week t) - 1) / 7 + 1)).
  { intros v. unfold week_period, iso_week, monday_week. rewrite Z.mod_eq by lia. by replace (day_of v + 3 - (day_of v + 3 - 7 * ((day_of v + 3) / 7))) with (7 * ((day_of v + 3) / 7)) by lia. }
  rewrite !Hw. apply (mono_iff (fun k => year_of (7 * k) * 100 + ((year_day (7 * k) - 1) / 7 + 1))). intros d e H.
  pose proof (year_of_mono (7 * d) (7 * e) ltac:(lia)). pose proof (year_day_range (7 * d)). pose proof (year_day_range (7 * e)).
  destruct (Z.eq_dec (year_of (7 * d)) (year_of (7 * e))) as [E|]; [unfold year_day in *; rewrite E in *|]; Z.div_mod_to_equations; lia.
Qed.

(** * Retention *)

Record Keep := MkKeep { Last : Z; Daily : Z; Weekly : Z }.
Record ManifestInfo := MkInfo { i_ID : string; i_Header : option Header; i_Err : string }.

Definition QuiescentVMOff : string := "vm-off".

Definition seq_of (i : ManifestInfo) : Z := match i_Header i with Some h => h_Seq h | None => 0 end.
Definition created_of (i : ManifestInfo) : Time := match i_Header i with Some h => h_Created h | None => 0 end.
Definition is_valid (i : ManifestInfo) : bool := match i_Header i with Some _ => true | None => false end.
Definition is_complete (i : ManifestInfo) : bool := match i_Header i with Some h => h_Complete h | None => false end.
Definition is_vm_off (i : ManifestInfo) : bool :=
  match i_Header i with Some h => str_eqb (h_Quiescent h) QuiescentVMOff | None => false end.
Definition is_pinned (i : ManifestInfo) : bool := match i_Header i with Some h => h_Pinned h | None => false end.

(** [slices.SortFunc] by descending seq. *)
Definition newer (a b : ManifestInfo) : Prop := seq_of b <= seq_of a.
#[export] Instance newer_dec : RelDecision newer.
Proof. intros a b. unfold newer. apply _. Defined.
#[export] Instance newer_trans : Transitive newer.
Proof. intros a b c. unfold newer. lia. Qed.
#[export] Instance newer_total : Total newer.
Proof. intros a b. unfold newer. lia. Qed.

Definition newest_first (infos : list ManifestInfo) : list ManifestInfo := merge_sort newer infos.

(** The map from each period to the newest snapshot in it. *)
Definition newest_in (period : ManifestInfo -> Z) (valid : list ManifestInfo) : gmap Z string :=
  foldl (fun m i => match m !! period i with Some _ => m | None => <[period i := i_ID i]> m end) ∅ valid.

Definition newestPer (n : Z) (period : ManifestInfo -> Z) (valid : list ManifestInfo) (keep : gset string) : gset string :=
  if n <=? 0 then keep
  else
    let newest := newest_in period valid in
    let periods := merge_sort Z.ge (elements (dom newest)) in
    foldl (fun keep p => match newest !! p with Some id => {[id]} ∪ keep | None => keep end) keep (take (Z.to_nat n) periods).

(** The loop that keeps the newest complete, the newest vm-off and every pinned
    snapshot. *)
Fixpoint keep_marked (valid : list ManifestInfo) (complete vmOff : bool) (keep : gset string) : gset string :=
  match valid with
  | [] => keep
  | i :: valid =>
    let '(keep, complete) := if is_complete i && negb complete then ({[i_ID i]} ∪ keep, true) else (keep, complete) in
    let '(keep, vmOff) := if is_vm_off i && negb vmOff then ({[i_ID i]} ∪ keep, true) else (keep, vmOff) in
    let keep := if is_pinned i then {[i_ID i]} ∪ keep else keep in
    keep_marked valid complete vmOff keep
  end.

Definition KeepSet (infos : list ManifestInfo) (k : Keep) : gset string :=
  let keep := list_to_set (i_ID <$> filter (fun i => is_valid i = false) infos) in
  let valid := newest_first (filter (fun i => is_valid i = true) infos) in
  let keep := list_to_set (i_ID <$> take (Z.to_nat (Retention.Last k)) valid) ∪ keep in
  let keep := newestPer (Daily k) (fun i => day_period (created_of i)) valid keep in
  let keep := newestPer (Weekly k) (fun i => week_period (created_of i)) valid keep in
  keep_marked valid false false keep.

(** * What is kept *)

(** The first element of a list with a property. *)
Definition first_with (P : ManifestInfo -> bool) (l : list ManifestInfo) (i : ManifestInfo) : Prop :=
  exists before after, l = before ++ i :: after /\ P i = true /\ forallb (fun j => negb (P j)) before = true.

(** The newest snapshot of its period, with fewer than [n] periods after it. *)
Definition newest_of_recent (n : Z) (period : ManifestInfo -> Z) (l : list ManifestInfo) (i : ManifestInfo) : Prop :=
  first_with (fun j => period j =? period i) l i
  /\ Z.of_nat (size (filter (fun p => period i < p) (list_to_set (period <$> l) : gset Z))) < n.

Inductive retained (infos : list ManifestInfo) (k : Keep) (i : ManifestInfo) : Prop :=
| kept_invalid : i ∈ infos -> is_valid i = false -> retained infos k i
| kept_last before after :
    newest_first (filter (fun i => is_valid i = true) infos) = before ++ i :: after -> Z.of_nat (length before) < Last k -> retained infos k i
| kept_daily : newest_of_recent (Daily k) (fun i => day_of (created_of i)) (newest_first (filter (fun i => is_valid i = true) infos)) i -> retained infos k i
| kept_weekly : newest_of_recent (Weekly k) (fun i => monday_week (created_of i)) (newest_first (filter (fun i => is_valid i = true) infos)) i -> retained infos k i
| kept_complete : first_with is_complete (newest_first (filter (fun i => is_valid i = true) infos)) i -> retained infos k i
| kept_vm_off : first_with is_vm_off (newest_first (filter (fun i => is_valid i = true) infos)) i -> retained infos k i
| kept_pinned : i ∈ infos -> is_valid i = true -> is_pinned i = true -> retained infos k i.

Lemma first_with_cons P j l i : first_with P (j :: l) i <-> (P j = true /\ i = j) \/ (P j = false /\ first_with P l i).
Proof.
  split.
  - intros ([|b before] & after & E & Hi & Hb); injection E as -> ->; [by left|]. right. cbn [forallb] in Hb.
    apply andb_prop in Hb as [Hb%negb_true_iff Hbs]. split; [done|]. by exists before, after.
  - intros [[Hj ->]|[Hj (before & after & -> & Hi & Hb)]].
    + by exists [], l.
    + exists (j :: before), after. split_and!; [done|done|]. cbn [forallb]. by rewrite Hj, Hb.
Qed.

Lemma first_with_nil P i : ~ first_with P [] i.
Proof. intros (before & after & E & _). by destruct before. Qed.

(** A flag that is set by the first element with the property. *)
Lemma flagged_first_cons P c j l i :
  c = false /\ first_with P (j :: l) i <-> (P j && negb c = true /\ i = j) \/ (c || P j = false /\ first_with P l i).
Proof. rewrite first_with_cons. destruct c, (P j); naive_solver. Qed.

Lemma keep_marked_cons j valid c v keep :
  keep_marked (j :: valid) c v keep = keep_marked valid (c || is_complete j) (v || is_vm_off j)
    (if (is_complete j && negb c) || (is_vm_off j && negb v) || is_pinned j then {[i_ID j]} ∪ keep else keep).
Proof.
  cbn [keep_marked]. destruct (is_complete j), c, (is_vm_off j), v, (is_pinned j); cbn [andb negb orb]; f_equal; set_solver.
Qed.

Lemma keep_marked_spec valid : forall c v keep id,
  id ∈ keep_marked valid c v keep <->
  id ∈ keep \/ exists i, i_ID i = id /\ ((c = false /\ first_with is_complete valid i) \/ (v = false /\ first_with is_vm_off valid i)
    \/ (i ∈ valid /\ is_pinned i = true)).
Proof.
  induction valid as [|j valid IH]; intros c v keep id.
  { split; [by left|]. intros [|(i & _ & [[_ H]|[[_ H]|[H _]]])]; [done | by apply first_with_nil in H.. | by apply elem_of_nil in H]. }
  rewrite keep_marked_cons, IH. clear IH. setoid_rewrite flagged_first_cons. setoid_rewrite elem_of_cons.
  assert (Hk : id ∈ (if (is_complete j && negb c) || (is_vm_off j && negb v) || is_pinned j then {[i_ID j]} ∪ keep else keep) <->
    id ∈ keep \/ (i_ID j = id /\ (is_complete j && negb c = true \/ is_vm_off j && negb v = true \/ is_pinned j = true))).
  { destruct (is_complete j && negb c), (is_vm_off j && negb v), (is_pinned j); cbn [orb]; set_solver. }
  rewrite Hk. clear Hk. split.
  - intros [[H|[Hid H]]|(i & Hid & H)]; [by left | right; exists j; tauto | right; exists i; tauto].
  - intros [H|(i & Hid & H)]; [by left; left|].
    destruct H as [[[H ->]|H]|[[[H ->]|H]|[[->|H] Hp]]]; first [left; right; tauto | right; exists i; tauto].
Qed.

Lemma newest_in_spec period valid p id :
  newest_in period valid !! p = Some id <-> exists i, i_ID i = id /\ period i = p /\ first_with (fun j => period j =? p) valid i.
Proof.
  unfold newest_in. enough (H : forall (m : gmap Z string), foldl (fun m i => match m !! period i with Some _ => m | None => <[period i := i_ID i]> m end) m valid !! p = Some id
    <-> m !! p = Some id \/ (m !! p = None /\ exists i, i_ID i = id /\ period i = p /\ first_with (fun j => period j =? p) valid i)).
  { rewrite H, lookup_empty. split; [by intros [?|[_ ?]] | by right]. }
  induction valid as [|j valid IH]; intros m; cbn [foldl].
  { split; [by left|]. intros [|(_ & i & _ & _ & H)]; [done | by apply first_with_nil in H]. }
  rewrite IH. clear IH. setoid_rewrite first_with_cons. destruct (Z.eqb_spec (period j) p) as [<-|Hne].
  - destruct (m !! period j) as [x|] eqn:Em.
    + rewrite Em. split; [intros [H|[? _]]; [by left|done] | by intros [?|[? _]]; [left|]].
    + rewrite lookup_insert_eq. split.
      * intros [[= <-]|[? _]]; [|done]. right. split; [done|]. exists j. split_and!; [done..|]. by left.
      * intros [?|(_ & i & <- & _ & [[_ ->]|[? _]])]; [done | by left | done].
  - assert (Hm : match m !! period j with Some _ => m | None => <[period j := i_ID j]> m end !! p = m !! p)
      by (destruct (m !! period j); [done | by rewrite lookup_insert_ne]).
    rewrite Hm. split; (intros [H|(H & i & Hi & Hp & Hf)]; [by left|right]; split; [done|]; exists i; split_and!; [done..|]).
    + by right.
    + destruct Hf as [[? _]|[_ Hf]]; done.
Qed.

Lemma newest_in_dom period valid : dom (newest_in period valid) = list_to_set (period <$> valid).
Proof.
  apply set_eq. intros p. rewrite elem_of_dom, elem_of_list_to_set, list_elem_of_fmap. split.
  - intros [id (i & _ & <- & before & after & -> & _)%newest_in_spec]. exists i. split; [done|]. set_solver.
  - intros (i & -> & Hi). revert Hi. induction valid as [|j valid IH]; intros Hi; [by apply elem_of_nil in Hi|].
    destruct (Z.eqb_spec (period j) (period i)) as [E|Hne].
    + exists (i_ID j). apply newest_in_spec. exists j. split_and!; [done..|]. apply first_with_cons. left. split; [by apply Z.eqb_eq | done].
    + apply elem_of_cons in Hi as [->|Hi]; [done|]. destruct (IH Hi) as [id (k & Hid & Hk & Hf)%newest_in_spec]. exists id.
      apply newest_in_spec. exists k. split_and!; [done..|]. apply first_with_cons. right. split; [by apply Z.eqb_neq | done].
Qed.

(** The elements of a duplicate-free descending list before position [n] are
    those with fewer than [n] greater ones. *)
Lemma take_descending (l : list Z) n p : StronglySorted Z.ge l -> NoDup l ->
  p ∈ take n l <-> p ∈ l /\ (size (filter (fun q => (p < q)%Z) (list_to_set l : gset Z)) < n)%nat.
Proof.
  revert n. induction l as [|x l IH]; intros n Hs Hd.
  { rewrite take_nil. split; [by intros ?%elem_of_nil | by intros [?%elem_of_nil _]]. }
  apply StronglySorted_inv in Hs as [Hs Hx]. apply NoDup_cons in Hd as [Hxl Hd]. rewrite Forall_forall in Hx.
  destruct n as [|n]; cbn [take]; [split; [by intros ?%elem_of_nil | lia]|].
  rewrite !elem_of_cons, IH by done. destruct (decide (p = x)) as [->|Hpx].
  - split; [intros _|by left]. split; [by left|]. rewrite list_to_set_cons, (proj2 (size_empty_iff _)); [lia|].
    apply elem_of_equiv_empty. intros q [Hq Hin]%elem_of_filter. apply elem_of_union in Hin as [->%elem_of_singleton|Hin%elem_of_list_to_set]; [lia|].
    specialize (Hx q Hin). lia.
  - enough (H : p ∈ l -> size (filter (fun q => (p < q)%Z) (list_to_set (x :: l) : gset Z)) = S (size (filter (fun q => (p < q)%Z) (list_to_set l : gset Z)))).
    { split.
      - intros [?|[Hl ?]]; [done|]. split; [by right|]. rewrite H by done. lia.
      - intros [[?|Hl] Hlt]; [done|]. right. rewrite H in Hlt by done. split; [done|lia]. }
    intros Hp. specialize (Hx p Hp). assert (Hlt : (p < x)%Z) by lia.
    assert (Hd' : {[x]} ## filter (fun q => (p < q)%Z) (list_to_set l : gset Z)).
    { apply disjoint_singleton_l. intros [_ Hin%elem_of_list_to_set]%elem_of_filter. done. }
    rewrite list_to_set_cons, filter_union_L, (filter_singleton_True_L (C:=gset Z) _ x Hlt); [|apply _].
    by rewrite size_union, size_singleton.
Qed.

Lemma newestPer_spec n period valid keep id :
  id ∈ newestPer n period valid keep <-> id ∈ keep \/ exists i, i_ID i = id /\ newest_of_recent n period valid i.
Proof.
  unfold newestPer. destruct (Z.leb_spec n 0) as [Hn|Hn].
  { split; [by left|]. intros [|(i & _ & _ & H)]; [done|lia]. }
  set (newest := newest_in period valid). set (ps := merge_sort Z.ge _).
  assert (Hperm : ps ≡ₚ elements (dom newest)) by apply merge_sort_Permutation.
  assert (Hset : list_to_set ps = dom newest) by (apply set_eq; intros q; by rewrite elem_of_list_to_set, Hperm, elem_of_elements).
  assert (Hfold : forall l (k : gset string), id ∈ foldl (fun keep p => match newest !! p with Some id => {[id]} ∪ keep | None => keep end) k l
    <-> id ∈ k \/ exists p, p ∈ l /\ newest !! p = Some id).
  { induction l as [|q l IH]; intros k; cbn [foldl]; [set_solver|]. rewrite IH. setoid_rewrite elem_of_cons.
    destruct (newest !! q) as [x|] eqn:Eq; [rewrite elem_of_union, elem_of_singleton|]; naive_solver congruence. }
  rewrite Hfold. clear Hfold. apply or_iff_compat_l.
  setoid_rewrite take_descending; [| apply StronglySorted_merge_sort; intros ?; lia | rewrite Hperm; apply NoDup_elements ].
  rewrite Hset. unfold newest. rewrite newest_in_dom. setoid_rewrite newest_in_spec. split.
  - intros (p & [_ Hlt] & i & Hid & <- & Hf). exists i. split; [done|]. split; [done|lia].
  - intros (i & Hid & Hf & Hlt). exists (period i). split; [|by exists i]. split; [|lia].
    rewrite Hperm, elem_of_elements, elem_of_dom. exists id. apply newest_in_spec. by exists i.
Qed.

Lemma take_position n (l : list ManifestInfo) id :
  id ∈ i_ID <$> take n l <-> exists i before after, i_ID i = id /\ l = before ++ i :: after /\ (length before < n)%nat.
Proof.
  rewrite list_elem_of_fmap. setoid_rewrite elem_of_take. split.
  - intros (i & -> & j & Hj & Hlt). exists i, (take j l), (drop (S j) l). split_and!; [done | by rewrite take_drop_middle |].
    rewrite length_take. lia.
  - intros (i & before & after & <- & -> & Hlt). exists i. split; [done|]. exists (length before). by rewrite list_lookup_middle.
Qed.

(** Counting later periods depends on their order only. *)
Lemma later_cons (p : ManifestInfo -> Z) i j l :
  size (filter (fun q => (p i < q)%Z) (list_to_set (p <$> j :: l) : gset Z))
  = (size (filter (fun q => (p i < q)%Z) (list_to_set (p <$> l) : gset Z)) + (if decide ((p i < p j)%Z /\ Forall (fun k => p k <> p j) l) then 1 else 0))%nat.
Proof.
  rewrite fmap_cons, list_to_set_cons, filter_union_L by apply _. destruct (decide _) as [[Hlt Hn]|Hd].
  - rewrite (filter_singleton_True_L (C:=gset Z) _ (p j) Hlt). rewrite size_union, size_singleton; [lia|]. apply disjoint_singleton_l.
    intros [_ (k & Hk & Hin)%elem_of_list_to_set%list_elem_of_fmap]%elem_of_filter. rewrite Forall_forall in Hn. by apply (Hn k).
  - rewrite Nat.add_0_r. f_equal. apply set_eq. intros q. rewrite elem_of_union, !elem_of_filter, elem_of_singleton. split; [|by right].
    intros [[Hlt ->]|]; [|done]. split; [done|]. apply elem_of_list_to_set, list_elem_of_fmap.
    destruct (decide (Exists (fun k => p k = p j) l)) as [(k & Hk & E)%Exists_exists|Hne]; [by exists k|]. destruct Hd. split; [done|].
    by apply Forall_Exists_neg.
Qed.

Lemma newest_of_recent_order n (p q : ManifestInfo -> Z) l i :
  (forall j k, p j < p k <-> q j < q k) -> newest_of_recent n p l i <-> newest_of_recent n q l i.
Proof.
  intros Ho. assert (He : forall j k, p j = p k <-> q j = q k).
  { intros j k. pose proof (Ho j k). pose proof (Ho k j). lia. }
  assert (Hb : forall j k, (p j =? p k) = (q j =? q k)) by (intros j k; apply eq_true_iff_eq; by rewrite !Z.eqb_eq).
  enough (Hs : forall l, size (filter (fun r => (p i < r)%Z) (list_to_set (p <$> l) : gset Z)) = size (filter (fun r => (q i < r)%Z) (list_to_set (q <$> l) : gset Z))).
  { unfold newest_of_recent. rewrite Hs. apply and_iff_compat_r. unfold first_with. rewrite Z.eqb_refl, Z.eqb_refl.
    assert (Hf : forall b, forallb (fun j => negb (p j =? p i)) b = forallb (fun j => negb (q j =? q i)) b) by (intros b; induction b as [|j b IH]; cbn [forallb]; [done | by rewrite IH, Hb]).
    by setoid_rewrite Hf. }
  clear l. induction l as [|j l IH]; [done|]. rewrite !later_cons, IH. f_equal. apply decide_ext. rewrite Ho. apply and_iff_compat_l.
  rewrite !Forall_forall. setoid_rewrite He. done.
Qed.

Lemma newest_days n l i : newest_of_recent n (fun i => day_period (created_of i)) l i <-> newest_of_recent n (fun i => day_of (created_of i)) l i.
Proof. apply newest_of_recent_order. intros j k. apply day_period_order. Qed.
Lemma newest_weeks n l i : newest_of_recent n (fun i => week_period (created_of i)) l i <-> newest_of_recent n (fun i => monday_week (created_of i)) l i.
Proof. apply newest_of_recent_order. intros j k. apply week_period_order. Qed.

(** ** Retention is exact *)

(** C39: The ids [KeepSet] returns are exactly those of the snapshots the
    policy names: those whose header does not decode, the [Last] newest, the
    newest of each of the [Daily] latest UTC days and of the [Weekly] latest
    weeks, Monday to Sunday, that have one, the newest complete one, the newest
    taken with the VM off, and the pinned ones. The days and weeks of the
    policy are counted from 1970; that the numbers the code makes of a year and
    its day, or of an ISO year and its week, come in the same order is part of
    the proof. *)
Theorem retention_exact (infos : list ManifestInfo) (k : Keep) (id : string) :
  id ∈ KeepSet infos k <-> exists i, i_ID i = id /\ retained infos k i.
Proof.
  unfold KeepSet. rewrite keep_marked_spec, !newestPer_spec, elem_of_union, !elem_of_list_to_set, take_position.
  setoid_rewrite newest_days. setoid_rewrite newest_weeks.
  assert (Hv : forall i, i ∈ newest_first (filter (fun i => is_valid i = true) infos) <-> i ∈ infos /\ is_valid i = true).
  { intros i. unfold newest_first. rewrite merge_sort_Permutation, list_elem_of_filter. tauto. }
  setoid_rewrite Hv. rewrite list_elem_of_fmap. setoid_rewrite list_elem_of_filter. split.
  - intros [[[[(i & before & after & Hid & E & Hlt)|(i & -> & Hi & Hin)]|(i & Hid & H)]|(i & Hid & H)]|(i & Hid & [[_ H]|[[_ H]|[[Hi Hv'] H]]])];
      exists i; (split; [done|]);
      [ eapply kept_last; [done|lia] | by apply kept_invalid | by apply kept_daily | by apply kept_weekly | by apply kept_complete
      | by apply kept_vm_off | by apply kept_pinned ].
  - intros (i & Hid & [Hin Hi|before after E Hlt|H|H|H|H|Hin Hv' Hp]);
      [ do 3 left; right; by exists i | do 4 left; exists i, before, after; split_and!; [done..|lia] | do 2 left; right; by exists i
      | left; right; by exists i | right; exists i; tauto.. ].
Qed.

End Retention.
