(* ===== verification/Store.v ===== *)
(** The tree-backup store on disk ([internal/treebackup/store.go], [lock.go],
    [status.go] and the walks of [gc.go]): what its directories and files hold,
    the operations over them in a state and error monad in which any call of the
    operating system may fail, and a weakest-precondition calculus for them. *)

From stdpp Require Import sorting.
From S2P Require Import Prelude Go Token TreePath ManifestCodec ManifestEntry ManifestHeader Manifest Listing ManifestFile Retention.

Module Store.
Import TreePath ManifestCodec ManifestEntry ManifestHeader Manifest Listing ManifestFile Retention.

(** * The disk *)

(** A name in a directory: a regular file with its bytes, the disk it takes and
    its modification time, or anything else. *)
Inductive Node := File (content : bytes) (allocated : Z) (modTime : Time) | Other.

Inductive Dir := NoDir | NotDir | IsDir (entries : gmap string Node).

Record GCStatus := MkGCStatus {
  st_Time : Time;
  st_Result : string;
  st_Blocked : string;
  st_StoreBytes : Z;
  st_BlobCount : Z;
  st_LastOK : Time;
  st_Evicted : Z;
  st_LastEvicted : Time
}.

(** [snapshots/] by file name, [blobs/sha256/] by the path below it (a directory
    there shows as the names in it, when its own name is that of one that holds
    blobs), [blobs/corrupt/] and [tmp/] by file name, and the files [seq], [dirty] (its modification time) and [status-gc.json] (what it decodes
    to, if it does). *)
Record Disk := MkDisk {
  d_snapshots : Dir;
  d_blobs : option (gmap string Node);
  d_corrupt : gmap string Node;
  d_tmp : gmap string Node;
  d_seq : option bytes;
  d_dirty : option Time;
  d_gc : option GCStatus
}.

Definition set_snapshots (x : Dir) (d : Disk) : Disk :=
  MkDisk x (d_blobs d) (d_corrupt d) (d_tmp d) (d_seq d) (d_dirty d) (d_gc d).
Definition set_blobs (x : option (gmap string Node)) (c : gmap string Node) (d : Disk) : Disk :=
  MkDisk (d_snapshots d) x c (d_tmp d) (d_seq d) (d_dirty d) (d_gc d).
Definition set_tmp (x : gmap string Node) (d : Disk) : Disk :=
  MkDisk (d_snapshots d) (d_blobs d) (d_corrupt d) x (d_seq d) (d_dirty d) (d_gc d).
Definition set_seq (x : option bytes) (d : Disk) : Disk :=
  MkDisk (d_snapshots d) (d_blobs d) (d_corrupt d) (d_tmp d) x (d_dirty d) (d_gc d).
Definition set_dirty (x : option Time) (d : Disk) : Disk :=
  MkDisk (d_snapshots d) (d_blobs d) (d_corrupt d) (d_tmp d) (d_seq d) x (d_gc d).
Definition set_gc (x : option GCStatus) (d : Disk) : Disk :=
  MkDisk (d_snapshots d) (d_blobs d) (d_corrupt d) (d_tmp d) (d_seq d) (d_dirty d) x.

(** * Operations that may fail *)

Inductive serr := NotExist | IOError | Failure (msg : string) | BlockedBy (id : string) (cause : string).

Definition message (e : serr) : string :=
  match e with
  | NotExist => "file does not exist"
  | IOError => "input/output error"
  | Failure m => m
  | BlockedBy id m => "GC blocked by " +:+ id +:+ ": " +:+ m
  end.

(** The next calls of the operating system that fail, the disk, and the report
    the running command fills in, which Go passes by pointer. *)
Record St (R : Type) := MkSt { faults : list bool; disk : Disk; report : R }.
Arguments MkSt {R} _ _ _.
Arguments faults {R} _.
Arguments disk {R} _.
Arguments report {R} _.

Definition M (R A : Type) : Type := St R -> result A serr * St R.

Section Monad.
Context {R : Type}.

Definition ret {A} (a : A) : M R A := fun s => (Ok a, s).
Definition fail {A} (e : serr) : M R A := fun s => (Err e, s).
Definition bind {A B} (m : M R A) (k : A -> M R B) : M R B := fun s =>
  match m s with (Ok a, s) => k a s | (Err e, s) => (Err e, s) end.
(** The error as a value, for the callers that look at it. *)
Definition attempt {A} (m : M R A) : M R (result A serr) := fun s => let '(r, s) := m s in (Ok r, s).
Definition get : M R Disk := fun s => (Ok (disk s), s).
Definition peek : M R R := fun s => (Ok (report s), s).
Definition update (f : Disk -> Disk) : M R unit := fun s => (Ok tt, MkSt (faults s) (f (disk s)) (report s)).
Definition log (f : R -> R) : M R unit := fun s => (Ok tt, MkSt (faults s) (disk s) (f (report s))).

(** A call of the operating system, which may fail. *)
Definition call : M R unit := fun s =>
  match faults s with
  | true :: fs => (Err IOError, MkSt fs (disk s) (report s))
  | false :: fs => (Ok tt, MkSt fs (disk s) (report s))
  | [] => (Ok tt, s)
  end.

End Monad.

Declare Scope store_scope.
Delimit Scope store_scope with store.
Open Scope store_scope.
Notation "'do' x ':=' m 'in' k" := (bind m (fun x => k))
  (at level 10, x pattern, m at level 100, k at level 200) : store_scope.
Notation "'perform' m 'in' k" := (bind m (fun _ => k)) (at level 10, m at level 100, k at level 200) : store_scope.

(** ** Weakest preconditions *)

(** The postconditions of success and of failure. *)
Definition wp {R A} (m : M R A) (Q : A -> St R -> Prop) (E : serr -> St R -> Prop) (s : St R) : Prop :=
  match m s with (Ok a, s') => Q a s' | (Err e, s') => E e s' end.

Section Wp.
Context {R : Type}.
Implicit Types (E : serr -> St R -> Prop) (s : St R).

Lemma wp_ret {A} (a : A) (Q : A -> St R -> Prop) E s : Q a s -> wp (ret a) Q E s.
Proof. done. Qed.

Lemma wp_fail {A} e (Q : A -> St R -> Prop) E s : E e s -> wp (fail e) Q E s.
Proof. done. Qed.

Lemma wp_bind {A B} (m : M R A) (k : A -> M R B) Q E s : wp m (fun a => wp (k a) Q E) E s -> wp (bind m k) Q E s.
Proof. unfold wp, bind. by destruct (m s) as [[a|e] s']. Qed.

Lemma wp_mono {A} (m : M R A) (Q Q' : A -> St R -> Prop) E E' s :
  wp m Q E s -> (forall a s', Q a s' -> Q' a s') -> (forall e s', E e s' -> E' e s') -> wp m Q' E' s.
Proof. unfold wp. destruct (m s) as [[a|e] s']; eauto. Qed.

Lemma wp_and {A} (m : M R A) (Q Q' : A -> St R -> Prop) E E' s :
  wp m Q E s -> wp m Q' E' s -> wp m (fun a s' => Q a s' /\ Q' a s') (fun e s' => E e s' /\ E' e s') s.
Proof. unfold wp. destruct (m s) as [[a|e] s']; auto. Qed.

Lemma wp_attempt {A} (m : M R A) (Q : result A serr -> St R -> Prop) E s :
  wp m (fun a => Q (Ok a)) (fun e => Q (Err e)) s -> wp (attempt m) Q E s.
Proof. unfold wp, attempt. by destruct (m s) as [[a|e] s']. Qed.

Lemma wp_get (Q : Disk -> St R -> Prop) E s : Q (disk s) s -> wp get Q E s.
Proof. done. Qed.

Lemma wp_peek (Q : R -> St R -> Prop) E s : Q (report s) s -> wp peek Q E s.
Proof. done. Qed.

Lemma wp_update f (Q : unit -> St R -> Prop) E s : Q tt (MkSt (faults s) (f (disk s)) (report s)) -> wp (update f) Q E s.
Proof. done. Qed.

Lemma wp_log f (Q : unit -> St R -> Prop) E s : Q tt (MkSt (faults s) (disk s) (f (report s))) -> wp (log f) Q E s.
Proof. done. Qed.

(** A call leaves disk and report as they are, and fails only when some call
    is to fail. *)
Lemma wp_call (Q : unit -> St R -> Prop) E s :
  (forall fs, (faults s = [] -> fs = []) -> Q tt (MkSt fs (disk s) (report s))) ->
  (forall fs, faults s <> [] -> E IOError (MkSt fs (disk s) (report s))) -> wp call Q E s.
Proof.
  intros HQ HE. unfold wp, call. destruct (faults s) as [|[] fs] eqn:Ef; [|by apply HE|by apply HQ].
  destruct s as [fs0 d r]. cbn [faults] in Ef. subst. by apply (HQ []).
Qed.

End Wp.

(** Take a computation apart; the calls leave disk and report as they were. *)
Ltac wp_step :=
  lazymatch goal with
  | |- wp (bind _ _) _ _ _ => apply wp_bind
  | |- wp (ret _) _ _ _ => apply wp_ret
  | |- wp (fail _) _ _ _ => apply wp_fail
  | |- wp get _ _ _ => apply wp_get
  | |- wp peek _ _ _ => apply wp_peek
  | |- wp (update _) _ _ _ => apply wp_update
  | |- wp (log _) _ _ _ => apply wp_log
  | |- wp call _ _ _ => apply wp_call; intros ? ?
  | |- wp (attempt _) _ _ _ => apply wp_attempt
  | |- wp (if ?b then _ else _) _ _ _ => destruct b eqn:?
  | |- wp (match ?x with _ => _ end) _ _ _ => destruct x eqn:?
  end; cbv beta; cbn [disk report faults].

(** * Snapshots on the disk *)

Definition snapshotsDir : string := "snapshots".
Definition manifestExt : string := ".jsonl".
(** [manifestName], without the directory. *)
Definition manifestName (id : string) : string := id +:+ manifestExt.

(** [strings.CutSuffix]. *)
Definition CutSuffix (s suffix : string) : option string :=
  let n := (String.length s - String.length suffix)%nat in
  if str_eqb (String.substring 0 n s +:+ suffix) s then Some (String.substring 0 n s) else None.

(** [slices.SortFunc] in [List]: by seq, those without a header last, then by
    id. *)
Definition info_leb (a b : ManifestInfo) : bool :=
  let by_id := match Compare (i_ID a) (i_ID b) with Gt => false | _ => true end in
  match i_Header a, i_Header b with
  | Some g, Some h => (h_Seq g <? h_Seq h) || ((h_Seq g =? h_Seq h) && by_id)
  | Some _, None => true
  | None, Some _ => false
  | None, None => by_id
  end.
Definition name_leb (a b : string) : bool := match Compare a b with Gt => false | _ => true end.
Definition info_le (a b : ManifestInfo) : Prop := info_leb a b = true.
Definition name_le (a b : string) : Prop := name_leb a b = true.
#[export] Instance info_le_dec : RelDecision info_le.
Proof. intros a b. unfold info_le. apply _. Defined.
#[export] Instance name_le_dec : RelDecision name_le.
Proof. intros a b. unfold name_le. apply _. Defined.

Section Snapshots.
Context `{StdBase64, NanoTime, SHA256} {R : Type}.

Definition rerr_message (e : rerr) : string := match e with EOF => "EOF" | Invalid m => m end.

Definition Open (id : string) : M R reader :=
  require (ValidID id) else fail (Failure "bad snapshot id") in
  perform call in
  do d := get in
  match d_snapshots d with
  | IsDir entries =>
    match entries !! manifestName id with
    | Some (File content _ _) =>
      perform call in
      match NewReader content (len content) id with
      | Ok r => ret r
      | Err e => fail (Failure (rerr_message e))
      end
    | Some Other => fail (Failure "not a regular file")
    | None => fail NotExist
    end
  | _ => fail NotExist
  end.

(** [s.root.Lstat(snapshotsDir)]: whether it is a directory. *)
Definition lstatSnapshots : M R bool :=
  perform call in
  do d := get in
  match d_snapshots d with NoDir => fail NotExist | NotDir => ret false | IsDir _ => ret true end.

Definition readHeader (id : string) : M R Header := do r := Open id in ret (r_h r).

(** The loop of [List] over the names of the directory. *)
Fixpoint list_names (ents : list (string * Node)) : M R (list ManifestInfo * list string) :=
  match ents with
  | [] => ret ([], [])
  | (name, node) :: ents =>
    let stray := do (infos, strays) := list_names ents in ret (infos, name :: strays) in
    match CutSuffix name manifestExt, node with
    | Some id, File _ _ _ =>
      require (ValidID id) else stray in
      do h := attempt (readHeader id) in
      do (infos, strays) := list_names ents in
      ret (match h with Ok h => MkInfo id (Some h) "" | Err e => MkInfo id None (message e) end :: infos, strays)
    | _, _ => stray
    end
  end.

Definition List : M R (list ManifestInfo * list string) :=
  perform call in
  do d := get in
  match d_snapshots d with
  | NoDir => ret ([], [])
  | NotDir => fail (Failure "not a directory")
  | IsDir entries =>
    perform call in
    do (infos, strays) := list_names (map_to_list entries) in
    ret (merge_sort info_le infos, merge_sort name_le strays)
  end.

(** [ValidateAll(s.Open(id))]. *)
Definition validate (id : string) : M R Header :=
  do r := Open id in
  perform call in
  match ValidateAll (S (String.length (r_br r))) (Ok r) with
  | Some (Ok h) => ret h
  | Some (Err e) => fail (Failure (rerr_message e))
  | None => fail (Failure "out of fuel")
  end.

Definition referencesBlob (e : Entry) : bool := negb (is_empty (e_SHA256 e)) && negb (str_eqb (e_State e) StateSecret).

Section Mark.
Context {A : Type} (each : A -> Entry -> M R A).

(** The loop of [markManifest]; what its callbacks change is the accumulator. *)
Fixpoint mark_loop (fuel : nat) (a : A) (r : reader) : M R A :=
  match fuel with
  | O => fail (Failure "out of fuel")
  | S fuel =>
    perform call in
    match Next r with
    | (Err EOF, _) => ret a
    | (Err (Invalid m), _) => fail (Failure m)
    | (Ok e, r) => do a := (if referencesBlob e then each a e else ret a) in mark_loop fuel a r
    end
  end.

Definition markManifest (id : string) (a : A) : M R A :=
  do r := Open id in mark_loop (S (String.length (r_br r))) a r.
End Mark.

(** ** What they find *)

(** Disk and report are as before. *)
Definition same (s s' : St R) : Prop := disk s' = disk s /\ report s' = report s /\ (faults s = [] -> faults s' = []).

Definition manifest (d : Disk) (id : string) : option bytes :=
  match d_snapshots d with
  | IsDir entries => match entries !! manifestName id with Some (File content _ _) => Some content | _ => None end
  | _ => None
  end.
Definition open_of (d : Disk) (id : string) : option reader :=
  match manifest d id with
  | Some content => match NewReader content (len content) id with Ok r => Some r | Err _ => None end
  | None => None
  end.
Definition header_of (d : Disk) (id : string) : option Header := r_h <$> open_of d id.
(** The manifest [id] is valid and holds the entries [es]. *)
Definition holds (d : Disk) (id : string) (h : Header) (es : list Entry) : Prop :=
  exists r, open_of d id = Some r /\ r_h r = h /\ yields r es EOF.

Lemma open_of_valid d id r : open_of d id = Some r -> ValidID id = true.
Proof. unfold open_of. destruct (manifest d id); [|done]. unfold NewReader. by destruct (ValidID id). Qed.

Lemma yields_fun r es err : yields r es err -> forall es' err', yields r es' err' -> es' = es /\ err' = err.
Proof.
  induction 1 as [r err r' Hn|r e r' es err Hn _ IH]; intros es' err'; inversion 1 as [? ? ? Hn'|? ? ? ? ? Hn' Hy']; subst;
    rewrite Hn in Hn'; simplify_eq; [done|]. by destruct (IH _ _ Hy') as [-> ->].
Qed.

Lemma wp_Open id (s : St R) :
  wp (Open id) (fun r s' => same s s' /\ open_of (disk s) id = Some r) (fun _ s' => same s s' /\ (faults s = [] -> open_of (disk s) id = None)) s.
Proof.
  unfold Open. destruct (ValidID id) eqn:Ev.
  2: { split; [done|]. intros _. destruct (open_of _ _) eqn:Eo; [|done]. apply open_of_valid in Eo. congruence. }
  unfold open_of, manifest. repeat wp_step; unfold same; cbn [disk report faults]; try (split_and!; [done..|]); tauto.
Qed.

Lemma wp_readHeader id (s : St R) :
  wp (readHeader id) (fun h s' => same s s' /\ header_of (disk s) id = Some h)
     (fun _ s' => same s s' /\ (faults s = [] -> header_of (disk s) id = None)) s.
Proof.
  unfold readHeader, header_of. wp_step. eapply wp_mono; [apply wp_Open|..].
  - intros r s' [Hs Ho]. by rewrite Ho.
  - intros e s' [Hs Ho]. split; [done|]. intros Hf. by rewrite Ho.
Qed.

Lemma wp_validate id (s : St R) :
  wp (validate id) (fun h s' => same s s' /\ exists es, holds (disk s) id h es)
     (fun _ s' => same s s' /\ (faults s = [] -> forall h es, ~ holds (disk s) id h es)) s.
Proof.
  unfold validate. wp_step. eapply wp_mono; [apply wp_Open|..].
  2: { intros e s' [Hs Ho]. split; [done|]. intros Hf h es (r & Hr & _). by rewrite Ho in Hr. }
  intros r s' [(Hd & Hr & Hf) Ho]. wp_step. wp_step.
  { cbn [ValidateAll]. destruct (validate_loop_spec (S (String.length (r_br r))) r) as (es & err & Hy & ->); [lia|].
    unfold same. destruct err; repeat wp_step; (split; [split_and!; [done|done|naive_solver]|]).
    - exists es, r. by rewrite Ho.
    - intros _ h es' (r' & Hr' & _ & Hy'). rewrite Ho in Hr'. injection Hr' as <-. by destruct (yields_fun _ _ _ Hy _ _ Hy'). }
  split; [split_and!; naive_solver|]. intros. naive_solver.
Qed.

(** The ids of the manifests among the names of a directory, and the other
    names. *)
Definition manifest_id (nn : string * Node) : option string :=
  match CutSuffix nn.1 manifestExt, nn.2 with
  | Some id, File _ _ _ => if ValidID id then Some id else None
  | _, _ => None
  end.

(** What a listing of the disk [d] says, with [quiet] when no call failed. *)
Definition told (quiet : Prop) (d : Disk) (i : ManifestInfo) : Prop :=
  i_Header i = header_of d (i_ID i) \/ (~ quiet /\ i_Header i = None).

Lemma wp_list_names ents : forall s : St R,
  wp (list_names ents) (fun p s' => same s s' /\ i_ID <$> p.1 = omap manifest_id ents /\ Forall (told (faults s = []) (disk s)) p.1)
     (fun _ _ => False) s.
Proof.
  induction ents as [|[name node] ents IH]; intros s; [done|]. cbn [list_names].
  assert (Hstray : manifest_id (name, node) = None -> wp (do (infos, strays) := list_names ents in ret (infos, name :: strays))
    (fun p s' => same s s' /\ i_ID <$> p.1 = omap manifest_id ((name, node) :: ents) /\ Forall (told (faults s = []) (disk s)) p.1) (fun _ _ => False) s).
  { intros Hn. wp_step. eapply wp_mono; [apply IH|..|done]. intros [infos strays] s' (Hs & Hi & Hf). cbn in *. by rewrite Hn. }
  cbn [omap list_omap] in *. revert Hstray. destruct (manifest_id (name, node)) as [id|] eqn:Em; intros Hstray.
  2: { specialize (Hstray eq_refl). unfold manifest_id in Em. cbn [fst snd] in Em. destruct (CutSuffix name manifestExt) as [id|]; [|exact Hstray].
       destruct node; [|exact Hstray]. destruct (ValidID id); [done | exact Hstray]. }
  clear Hstray. unfold manifest_id in Em. cbn [fst snd] in Em. destruct (CutSuffix name manifestExt) as [id'|]; [|done].
  destruct node; [|done]. destruct (ValidID id'); [|done]. injection Em as ->. wp_step. apply wp_attempt. eapply wp_mono; [apply wp_readHeader|..].
  - intros h s1 [(Hd & Hr & Hf) Hh]. wp_step. eapply wp_mono; [apply IH|..|done].
    intros [infos strays] s2 ((Hd2 & Hr2 & Hf2) & Hi & Hall). wp_step. unfold same. cbn [fst] in *.
    rewrite Hd2, Hd, Hr2, Hr. split_and!; [done..|naive_solver|by rewrite <- Hi|]. constructor.
    + left. cbn [i_ID i_Header]. by rewrite Hh.
    + eapply Forall_impl; [exact Hall|]. intros i. rewrite Hd. unfold told. naive_solver.
  - intros e s1 [(Hd & Hr & Hf) Hh]. wp_step. eapply wp_mono; [apply IH|..|done].
    intros [infos strays] s2 ((Hd2 & Hr2 & Hf2) & Hi & Hall). wp_step. unfold same. cbn [fst] in *.
    rewrite Hd2, Hd, Hr2, Hr. split_and!; [done..|naive_solver|by rewrite <- Hi|]. constructor.
    + unfold told. cbn [i_ID i_Header]. destruct (faults s) eqn:Efs; [left; by rewrite Hh | by right].
    + eapply Forall_impl; [exact Hall|]. intros i. rewrite Hd. unfold told. naive_solver.
Qed.

#[export] Instance info_le_total : Total info_le.
Proof.
  intros a b. unfold info_le, info_leb. pose proof (Compare_sym (i_ID a) (i_ID b)) as Hc. destruct (i_Header a) as [g|], (i_Header b) as [h|]; auto.
  - destruct (Z.lt_total (h_Seq g) (h_Seq h)) as [Hlt|[Heq|Hlt]].
    + left. by rewrite (proj2 (Z.ltb_lt _ _) Hlt).
    + rewrite Heq, Z.ltb_irrefl, Z.eqb_refl, Hc. destruct (Compare (i_ID a) (i_ID b)); auto.
    + right. by rewrite (proj2 (Z.ltb_lt _ _) Hlt).
  - rewrite Hc. destruct (Compare (i_ID a) (i_ID b)); auto.
Qed.
Lemma Compare_le_trans a b c : Compare a b <> Gt -> Compare b c <> Gt -> Compare a c <> Gt.
Proof.
  intros Hab Hbc. destruct (Compare a b) eqn:E1; [apply Compare_eq in E1 as ->; done| |done].
  destruct (Compare b c) eqn:E2; [apply Compare_eq in E2 as <-; by rewrite E1| |done]. by rewrite (Compare_trans a b c).
Qed.
#[export] Instance info_le_trans : Transitive info_le.
Proof.
  intros a b c. unfold info_le, info_leb. pose proof (Compare_le_trans (i_ID a) (i_ID b) (i_ID c)) as Ht.
  destruct (i_Header a) as [g|], (i_Header b) as [h|], (i_Header c) as [k|]; try done.
  - intros [Hg%Z.ltb_lt|[Hg%Z.eqb_eq Hg']%andb_prop]%orb_prop [Hh%Z.ltb_lt|[Hh%Z.eqb_eq Hh']%andb_prop]%orb_prop; apply orb_true_iff;
      first [left; apply Z.ltb_lt; lia | right; apply andb_true_iff; split; [apply Z.eqb_eq; lia|]].
    destruct (Compare (i_ID a) (i_ID c)); try done. by destruct Ht; [destruct (Compare (i_ID a) (i_ID b))|destruct (Compare (i_ID b) (i_ID c))|].
  - intros H1' H2'. destruct (Compare (i_ID a) (i_ID c)); try done. by destruct Ht; [destruct (Compare (i_ID a) (i_ID b))|destruct (Compare (i_ID b) (i_ID c))|].
Qed.

(** A listing names each manifest once, with its header, in order. *)
Record listed (quiet : Prop) (d : Disk) (infos : list ManifestInfo) : Prop := MkListed {
  li_once : NoDup (i_ID <$> infos);
  li_ids : forall id, id ∈ i_ID <$> infos <-> ValidID id = true /\ is_Some (manifest d id);
  li_told : Forall (told quiet d) infos;
  li_sorted : StronglySorted info_le infos
}.

Lemma substring_app a b : String.substring 0 (String.length a) (a +:+ b) = a.
Proof. induction a as [|c a IH]; [by destruct b|]. rewrite string_app_cons. cbn [String.length String.substring]. by rewrite IH. Qed.

Lemma CutSuffix_spec s suffix a : CutSuffix s suffix = Some a <-> s = a +:+ suffix.
Proof.
  unfold CutSuffix. split.
  - destruct (str_eqb _ _) eqn:E; [|done]. intros [= <-]. by apply str_eqb_eq in E.
  - intros ->. rewrite str_length_app, Nat.add_sub, substring_app. by rewrite str_eqb_refl.
Qed.

Lemma str_app_inj_r a b c : a +:+ c = b +:+ c -> a = b.
Proof. intros E. apply (f_equal (fun s => CutSuffix s c)) in E. rewrite !(proj2 (CutSuffix_spec _ _ _) eq_refl) in E. by injection E. Qed.

Lemma manifest_ids entries : NoDup (omap manifest_id (map_to_list entries)) /\
  forall d id, d_snapshots d = IsDir entries -> id ∈ omap manifest_id (map_to_list entries) <-> ValidID id = true /\ is_Some (manifest d id).
Proof.
  assert (Hid : forall nn id, manifest_id nn = Some id <-> nn.1 = manifestName id /\ ValidID id = true /\ exists c a t, nn.2 = File c a t).
  { intros [name node] id. unfold manifest_id. cbn [fst snd]. split.
    - destruct (CutSuffix name manifestExt) as [id'|] eqn:Ec; [|done]. apply CutSuffix_spec in Ec as ->. destruct node; [|done].
      destruct (ValidID id') eqn:Ev; [|done]. intros [= ->]. split_and!; [done..|by eexists _, _, _].
    - intros (-> & Hv & c & a & t & ->). by rewrite (proj2 (CutSuffix_spec (manifestName id) manifestExt id) eq_refl), Hv. }
  split.
  - pose proof (NoDup_fst_map_to_list entries) as Hn. induction (map_to_list entries) as [|nn l IH]; [constructor|].
    cbn [fmap list_fmap] in Hn. apply NoDup_cons in Hn as [Hnn Hn]. cbn [omap list_omap]. destruct (manifest_id nn) as [id|] eqn:Em; [|by apply IH].
    apply NoDup_cons. split; [|by apply IH]. rewrite list_elem_of_omap. intros (nn' & Hin & Em'). apply Hid in Em as (E & _). apply Hid in Em' as (E' & _).
    apply Hnn. rewrite E, <- E'. by apply list_elem_of_fmap_2.
  - intros d id Ed. rewrite list_elem_of_omap. unfold manifest. rewrite Ed. setoid_rewrite Hid. split.
    + intros ([name node] & Hin & E & Hv & c & a & t & E'). cbn in *. subst. apply elem_of_map_to_list in Hin. by rewrite Hin.
    + intros [Hv [c Hc]]. destruct (entries !! manifestName id) as [[c' a t|]|] eqn:El; [|done|done].
      exists (manifestName id, File c' a t). split; [by apply elem_of_map_to_list|]. split_and!; [done..|by eexists _, _, _].
Qed.

Lemma listed_sort quiet d infos : NoDup (i_ID <$> infos) -> (forall id, id ∈ i_ID <$> infos <-> ValidID id = true /\ is_Some (manifest d id)) ->
  Forall (told quiet d) infos -> listed quiet d (merge_sort info_le infos).
Proof.
  intros Ha Hb Hc. assert (Hp : merge_sort info_le infos ≡ₚ infos) by apply merge_sort_Permutation. constructor.
  - by rewrite Hp.
  - intros id. by rewrite Hp.
  - by rewrite Hp.
  - apply (StronglySorted_merge_sort info_le infos).
Qed.

Lemma wp_List (s : St R) :
  wp List (fun p s' => same s s' /\ listed (faults s = []) (disk s) p.1)
    (fun _ s' => same s s' /\ (faults s = [] -> d_snapshots (disk s) = NotDir)) s.
Proof.
  assert (Hempty : forall q d, match d_snapshots d with IsDir _ => False | _ => True end -> listed q d []).
  { intros q d Hd. constructor; [constructor| |constructor|constructor]. intros id. unfold manifest. destruct (d_snapshots d); [| |done];
      split; try (by intros ?%elem_of_nil); by intros [_ [? ?]]. }
  unfold List. wp_step. wp_step; [|split; [split_and!; done | done]]. wp_step. wp_step. destruct (d_snapshots (disk s)) as [| |entries] eqn:Ed.
  - wp_step. split; [done|]. apply Hempty. by rewrite Ed.
  - wp_step. split; [done|done].
  - wp_step. wp_step; [|split; [split_and!; [done|done|tauto] | tauto]]. wp_step. eapply wp_mono; [apply wp_list_names|..|done].
    intros [infos strays] s' ((Hd & Hr & Hf) & Hi & Hall). wp_step. unfold same. cbn [disk report faults fst] in *.
    split; [split_and!; [done|done|tauto]|].
    destruct (manifest_ids entries) as [Hnd Hids]. apply listed_sort; [by rewrite Hi | intros id; rewrite Hi; by apply Hids |].
    eapply Forall_impl; [exact Hall|]. intros i. unfold told. naive_solver.
Qed.

(** The strays of a listing are the names that are not a manifest's. *)
Definition stray_name (nn : string * Node) : option string := match manifest_id nn with Some _ => None | None => Some nn.1 end.

Lemma wp_list_names_strays ents : forall s : St R,
  wp (list_names ents) (fun p _ => p.2 = omap stray_name ents) (fun _ _ => False) s.
Proof.
  induction ents as [|[name node] ents IH]; intros s; [done|]. cbn [list_names omap list_omap]. unfold stray_name at 1. cbn [fst].
  assert (Hstray : wp (do (infos, strays) := list_names ents in ret (infos, name :: strays)) (fun p _ => p.2 = name :: omap stray_name ents) (fun _ _ => False) s).
  { wp_step. eapply wp_mono; [apply IH|..|done]. intros [infos strays] s' Hs. cbn in *. by rewrite Hs. }
  unfold manifest_id. cbn [fst snd]. destruct (CutSuffix name manifestExt) as [id|]; [|exact Hstray].
  destruct node; [|exact Hstray]. destruct (ValidID id); [|exact Hstray]. wp_step. apply wp_attempt.
  assert (Hgo : forall h s1, wp (do (infos, strays) := list_names ents in
      ret (match h with Ok h => MkInfo id (Some h) "" | Err e => MkInfo id None (message e) end :: infos, strays))
    (fun p _ => p.2 = omap stray_name ents) (fun _ _ => False) s1).
  { intros h s1. wp_step. eapply wp_mono; [apply IH|..|done]. by intros [infos strays] s2 Hs. }
  eapply wp_mono; [apply wp_readHeader|..]; [intros h s1 _; apply (Hgo (Ok h)) | intros e s1 _; apply (Hgo (Err e))].
Qed.

Lemma wp_List_strays (s : St R) :
  wp List (fun p _ => p.2 = [] -> forall entries name node, d_snapshots (disk s) = IsDir entries -> entries !! name = Some node ->
    is_Some (manifest_id (name, node))) (fun _ _ => True) s.
Proof.
  unfold List. wp_step. wp_step; [|done]. wp_step. wp_step. destruct (d_snapshots (disk s)) as [| |entries]; [by wp_step|by wp_step|]. wp_step. wp_step; [|done].
  wp_step. eapply wp_mono; [apply wp_list_names_strays|..|done]. intros [infos strays] s' Hs. cbn [snd] in Hs. wp_step. cbn [snd].
  intros He entries' name node [= <-] Hn. pose proof (merge_sort_Permutation name_le strays) as Hp. rewrite He in Hp. apply Permutation_nil in Hp as ->.
  destruct (manifest_id (name, node)) eqn:Em; [done|]. exfalso. apply (not_elem_of_nil name). rewrite Hs. apply list_elem_of_omap. exists (name, node).
  split; [by apply elem_of_map_to_list|]. unfold stray_name. by rewrite Em.
Qed.

(** Marking visits every entry of a valid manifest, in order; [I pre a] holds
    when [pre] has been visited. *)
Section MarkSpec.
Context {A : Type} (each : A -> Entry -> M R A) (I : list Entry -> A -> Disk -> R -> Prop).
Context (I_each : forall pre a e (s : St R), I pre a (disk s) (report s) -> referencesBlob e = true ->
  wp (each a e) (fun a' s' => I (pre ++ [e]) a' (disk s') (report s') /\ (faults s = [] -> faults s' = [])) (fun _ _ => False) s).
Context (I_skip : forall pre a e d r, I pre a d r -> referencesBlob e = false -> I (pre ++ [e]) a d r).

Lemma wp_mark_loop fuel : forall a r pre (s : St R), (String.length (r_br r) < fuel)%nat -> I pre a (disk s) (report s) ->
  wp (mark_loop each fuel a r)
     (fun a' s' => (exists es, yields r es EOF /\ I (pre ++ es) a' (disk s') (report s')) /\ (faults s = [] -> faults s' = []))
     (fun _ s' => (exists a' es, I es a' (disk s') (report s')) /\ (faults s = [] -> forall es, ~ yields r es EOF)) s.
Proof.
  induction fuel as [|fuel IH]; intros a r pre s Hf HI; [lia|]. cbn [mark_loop]. wp_step.
  wp_step; [|split; [by exists a, pre | done]]. destruct (Next r) as [[e|[|m]] r'] eqn:En.
  - pose proof (next_shrinks _ _ _ (Next_Ok _ _ _ En)) as [Hsh _]. wp_step.
    eapply (wp_mono _ (fun a' s' => I (pre ++ [e]) a' (disk s') (report s') /\ (fs = [] -> faults s' = [])) _ (fun _ _ => False)); [|..|done].
    { destruct (referencesBlob e) eqn:Er; [by apply (I_each _ _ _ (MkSt fs (disk s) (report s)))|]. split; [by apply I_skip|done]. }
    intros a' s' [HI' Hfs]. eapply wp_mono; [apply (IH a' r' (pre ++ [e]) s'); [lia|done]|..].
    + intros a2 s2 [(es & Hy & HI2) Hf2]. split; [|auto]. exists (e :: es). split; [by econstructor|]. by rewrite <- app_assoc in HI2.
    + intros _ s2 [He Hn]. split; [done|]. intros Hq es Hy. inversion Hy as [? ? ? Hn'|? ? ? es' ? Hn' Hy'];
        rewrite En in Hn'; simplify_eq. by apply (Hn ltac:(auto) es').
  - wp_step. split; [|auto]. exists []. split; [by econstructor|]. by rewrite app_nil_r.
  - wp_step. split; [by exists a, pre|]. intros _ es Hy. inversion Hy; congruence.
Qed.

Lemma wp_markManifest id a (s : St R) : I [] a (disk s) (report s) ->
  wp (markManifest each id a)
     (fun a' s' => (exists h es, holds (disk s) id h es /\ I es a' (disk s') (report s')) /\ (faults s = [] -> faults s' = []))
     (fun _ s' => (exists a' es, I es a' (disk s') (report s')) /\ (faults s = [] -> forall h es, ~ holds (disk s) id h es)) s.
Proof.
  intros HI. unfold markManifest. wp_step. eapply wp_mono; [apply wp_Open|..].
  - intros r s' [(Hd & Hr & Hf) Ho]. eapply wp_mono; [apply (wp_mark_loop _ a r [] s'); [lia | by rewrite Hd, Hr]|..].
    + intros a' s2 [(es & Hy & HI2) Hf2]. split; [|auto]. exists (r_h r), es. split; [by exists r | done].
    + intros _ s2 [He Hn]. split; [done|]. intros Hq h es (r' & Hr' & _ & Hy). rewrite Ho in Hr'. injection Hr' as <-. by apply (Hn (Hf Hq) es).
  - intros _ s' [(Hd & Hr & Hf) Ho]. split; [exists a, []; by rewrite Hd, Hr|]. intros Hq h es (r' & Hr' & _). by rewrite Ho in Hr'.
Qed.
End MarkSpec.

End Snapshots.

End Store.
