(* ===== verification/Blobs.v ===== *)
(** Blobs of the tree-backup store ([internal/treebackup/store.go], [gc.go],
    [verify.go]): the walk over them, hashing one, and moving a bad one to
    quarantine. *)

From S2P Require Import Prelude Go Token TreePath ManifestCodec ManifestEntry ManifestHeader Manifest Retention Store.

Module Blobs.
Import TreePath ManifestCodec ManifestEntry ManifestHeader Manifest Retention Store.
Open Scope store_scope.

(** [blobName], below [blobs/sha256]. Every caller has a digest of 64 digits. *)
Definition blobName (sum : string) : string :=
  match sum with String a (String b rest) => String a (String b (String Slash rest)) | _ => sum end.

(** The digest whose blob a name below [blobs/sha256] is: a 62-hex name in a
    2-hex directory. *)
Definition blob_sum (name : string) : option string :=
  match name with
  | String a (String b (String c rest)) =>
    if bool_decide (c = Slash) && is_lower_hex a && is_lower_hex b && (len rest =? 62) && string_forallb is_lower_hex rest
    then Some (String a (String b rest)) else None
  | _ => None
  end.

Definition blob (d : Disk) (sum : string) : option Node :=
  match d_blobs d with Some m => m !! blobName sum | None => None end.
Definition blob_entries (d : Disk) : gmap string Node := default ∅ (d_blobs d).

Definition remove_blob (sum : string) (d : Disk) : Disk := set_blobs (delete (blobName sum) <$> d_blobs d) (d_corrupt d) d.
Definition move_blob (sum dst : string) (n : Node) (d : Disk) : Disk :=
  set_blobs (delete (blobName sum) <$> d_blobs d) (<[dst := n]> (d_corrupt d)) d.

Section Blobs.
Context `{SHA256} {R : Type}.

(** [s.root.Lstat(blobName(sum))]. *)
Definition lstatBlob (sum : string) : M R Node :=
  perform call in
  do d := get in
  match blob d sum with Some n => ret n | None => fail NotExist end.

(** [lstatRegular]. *)
Definition lstatRegular (sum : string) : M R (bytes * Z * Time) :=
  do n := lstatBlob sum in
  match n with File c a t => ret (c, a, t) | Other => fail (Failure "not a regular file") end.

Definition hashFile (sum : string) : M R string :=
  perform call in
  do d := get in
  match blob d sum with
  | None => fail NotExist
  | Some Other => fail (Failure "not a regular file")
  | Some (File content _ _) => perform call in ret (Token.hex_encode (sha256_sum content))
  end.

Definition blobMatches (sum : string) : M R bool := do got := hashFile sum in ret (str_eqb got sum).

Definition Remove_blob (sum : string) : M R unit :=
  perform call in
  do d := get in
  match blob d sum with None => fail NotExist | Some _ => update (remove_blob sum) end.

(** [fmt.Sprintf] of the candidate number. *)
Definition corrupt_name (sum : string) (i : Z) : string := if i =? 0 then sum else sum +:+ "." +:+ format_int i.

(** [s.root.Lstat(dst)] in [quarantine]. *)
Definition lstatCorrupt (dst : string) : M R unit :=
  perform call in
  do d := get in
  match d_corrupt d !! dst with Some _ => ret tt | None => fail NotExist end.

Fixpoint quarantine_from (n : nat) (i : Z) (sum : string) : M R unit :=
  match n with
  | O => fail (Failure "no free name")
  | S n =>
    do free := attempt (lstatCorrupt (corrupt_name sum i)) in
    match free with
    | Err NotExist =>
      perform call in
      do d := get in
      match blob d sum with
      | None => fail (Failure "quarantine")
      | Some node => update (move_blob sum (corrupt_name sum i) node)
      end
    | _ => quarantine_from n (i + 1) sum
    end
  end.
Definition quarantine (sum : string) : M R unit := perform call in quarantine_from 1000 0 sum.

(** [walkBlobs]: [visit] gets each blob with the disk it takes, [stray] every
    other name; what the callbacks change is the accumulator and the state. A
    blob that is gone by the time its turn comes is passed over. *)
Section Walk.
Context {A : Type} (visit : A -> string -> Z -> M R A) (stray : A -> string -> M R A).

Fixpoint walk_names (names : list string) (a : A) : M R A :=
  match names with
  | [] => ret a
  | name :: names =>
    do d := get in
    match blob_sum name, blob_entries d !! name with
    | Some sum, Some (File _ disk _) => perform call in do a := visit a sum disk in walk_names names a
    | Some _, None => walk_names names a
    | _, _ => do a := stray a name in walk_names names a
    end
  end.

Definition walkBlobs (a : A) : M R A :=
  perform call in
  do d := get in
  match d_blobs d with
  | None => ret a
  | Some m => perform call in walk_names (map_to_list m).*1 a
  end.
End Walk.

(** ** What they do *)

Lemma blob_sum_name name sum : blob_sum name = Some sum <-> blobName sum = name /\ validSum sum = true.
Proof.
  unfold blob_sum, validSum. split.
  - destruct name as [|a [|b [|c rest]]]; try done.
    destruct (bool_decide (c = Slash)) eqn:Ec; [|done]. apply bool_decide_eq_true in Ec as ->. cbn [andb].
    destruct (is_lower_hex a) eqn:Ea, (is_lower_hex b) eqn:Eb, (Z.eqb_spec (len rest) 62) as [El|],
      (string_forallb is_lower_hex rest) eqn:Er; cbn [andb]; try done. intros [= <-]. split; [done|].
    unfold len in *. cbn [String.length string_forallb]. rewrite Ea, Eb, Er.
    apply andb_true_intro. split; [apply Z.eqb_eq; lia | done].
  - intros [<- [Hl Hh]%andb_prop]. destruct sum as [|a [|b rest]]; [by vm_compute in Hl|by vm_compute in Hl|].
    cbn [blobName string_forallb] in *. rewrite !andb_true_iff in Hh. destruct Hh as (-> & -> & ->).
    unfold len in *. cbn [String.length] in Hl. rewrite bool_decide_true by done. apply Z.eqb_eq in Hl.
    by rewrite (proj2 (Z.eqb_eq (Z.of_nat (String.length rest)) 62)) by lia.
Qed.

Lemma blobName_inj s t : blobName s = blobName t -> s = t.
Proof.
  destruct s as [|a [|b s]], t as [|a' [|b' t]]; cbn [blobName]; intros E; try done; injection E; intros; by subst.
Qed.

Lemma blob_remove d s t : blob (remove_blob s d) t = if decide (t = s) then None else blob d t.
Proof.
  unfold blob, remove_blob. cbn [d_blobs set_blobs]. destruct (d_blobs d) as [m|]; cbn; [|by destruct (decide _)].
  destruct (decide (t = s)) as [->|Hne]; [apply lookup_delete_eq|]. apply lookup_delete_ne. intros E. by apply Hne, blobName_inj.
Qed.

Lemma blob_move d s dst n t : blob (move_blob s dst n d) t = if decide (t = s) then None else blob d t.
Proof. apply blob_remove. Qed.

(** A walk visits the blobs there were at its start, each once. [I done a]
    holds when those of [done] have had their turn; a visit leaves the later
    ones as they were. *)
Section WalkSpec.
Context {A : Type} (visit : A -> string -> Z -> M R A) (stray : A -> string -> M R A).
Context (I : list string -> A -> Disk -> R -> Prop) (E : Disk -> R -> Prop) (blobs0 : gmap string Node).
Context (I_error : forall done a d r, I done a d r -> E d r).
Context (I_blobs : forall done a d r name, I done a d r -> name ∉ done -> blob_entries d !! name = blobs0 !! name).
Context (I_gone : forall done a d r name, I done a d r -> blobs0 !! name = None -> I (done ++ [name]) a d r).
Context (I_stray : forall done a (s : St R) name, I done a (Store.disk s) (report s) -> blob_sum name = None \/ blobs0 !! name = Some Other ->
  wp (stray a name) (fun a' s' => I (done ++ [name]) a' (Store.disk s') (report s') /\ (faults s = [] -> faults s' = []))
     (fun _ s' => E (Store.disk s') (report s')) s).
Context (I_visit : forall done a (s : St R) name sum c disk t, I done a (Store.disk s) (report s) -> name ∉ done ->
  blob_sum name = Some sum -> blobs0 !! name = Some (File c disk t) ->
  wp (visit a sum disk) (fun a' s' => I (done ++ [name]) a' (Store.disk s') (report s') /\ (faults s = [] -> faults s' = []))
     (fun _ s' => E (Store.disk s') (report s')) s).

Lemma wp_walk_names names : forall visited a (s : St R), NoDup (visited ++ names) -> I visited a (disk s) (report s) ->
  wp (walk_names visit stray names a) (fun a' s' => I (visited ++ names) a' (disk s') (report s') /\ (faults s = [] -> faults s' = []))
     (fun _ s' => E (disk s') (report s')) s.
Proof.
  induction names as [|name names IH]; intros visited a s Hnd HI; cbn [walk_names].
  { wp_step. by rewrite app_nil_r. }
  assert (Hnew : name ∉ visited) by (apply NoDup_app in Hnd as (_ & Hx & _); intros Hin; apply (Hx name Hin); set_solver).
  assert (Hnext : forall a' (s' : St R), I (visited ++ [name]) a' (disk s') (report s') ->
    wp (walk_names visit stray names a') (fun a2 s2 => I (visited ++ name :: names) a2 (disk s2) (report s2) /\ (faults s' = [] -> faults s2 = []))
      (fun _ s2 => E (disk s2) (report s2)) s').
  { intros a' s' HI'. specialize (IH (visited ++ [name]) a' s'). rewrite <- !app_assoc in IH. by apply IH. }
  wp_step. wp_step. rewrite (I_blobs _ _ _ _ name HI Hnew).
  assert (Hstray : blob_sum name = None \/ blobs0 !! name = Some Other -> wp (do a := stray a name in walk_names visit stray names a)
    (fun a' s' => I (visited ++ name :: names) a' (disk s') (report s') /\ (faults s = [] -> faults s' = [])) (fun _ s' => E (disk s') (report s')) s).
  { intros Hs. wp_step. eapply wp_mono; [by apply (I_stray visited a s name)|..|done]. intros a' s' [HI' Hf].
    eapply wp_mono; [by apply Hnext|..|done]. intros a2 s2 [? ?]. split; [done|auto]. }
  destruct (blob_sum name) as [sum|] eqn:Es; [|by apply Hstray; left].
  destruct (blobs0 !! name) as [[c dk t|]|] eqn:Eb.
  - wp_step. wp_step; [|by eapply I_error]. wp_step. eapply wp_mono; [eapply (I_visit visited a (MkSt fs (disk s) (report s))); done|..|done].
    intros a' s' [HI' Hf]. eapply wp_mono; [by apply Hnext|..|done]. cbn [faults] in Hf. intros a2 s2 [? ?]. split; [done|auto].
  - apply Hstray. by right.
  - apply Hnext. by apply I_gone.
Qed.

Lemma wp_walkBlobs a (s : St R) : blob_entries (disk s) = blobs0 -> I [] a (disk s) (report s) ->
  wp (walkBlobs visit stray a)
     (fun a' s' => (exists visited, I visited a' (disk s') (report s') /\ forall name, is_Some (blobs0 !! name) -> name ∈ visited)
        /\ (faults s = [] -> faults s' = []))
     (fun _ s' => E (disk s') (report s')) s.
Proof.
  intros Hb HI. unfold walkBlobs. wp_step. wp_step; [|by eapply I_error]. wp_step. wp_step.
  destruct (d_blobs (disk s)) as [m|] eqn:Ed.
  - wp_step. wp_step; [|by eapply I_error]. eapply wp_mono; [apply (wp_walk_names _ [])|..|done]; [apply NoDup_fst_map_to_list | done |].
    intros a' s' [HI' Hf]. split; [|auto]. exists (map_to_list m).*1. split; [done|]. intros name [n Hn].
    unfold blob_entries in Hb. rewrite Ed in Hb. cbn in Hb. subst m. apply list_elem_of_fmap. exists (name, n). split; [done|]. by apply elem_of_map_to_list.
  - wp_step. split; [|auto]. exists []. split; [done|]. unfold blob_entries in Hb. rewrite Ed in Hb. cbn in Hb. subst blobs0.
    intros name [n Hn]. by rewrite lookup_empty in Hn.
Qed.
End WalkSpec.

End Blobs.

End Blobs.
