(* ===== verification/Gc.v ===== *)
(** Collecting the tree-backup store ([internal/treebackup/gc.go]): planning
    under the shared lock, then deleting what retention no longer keeps and
    sweeping the unreferenced blobs under the exclusive one. What other
    processes do meanwhile is a change of the disk between the two phases:
    under the shared lock they can only add manifests and blobs, which the
    plan does not look at. *)

From stdpp Require Import sorting.
From S2P Require Import Prelude Go Token TreePath ManifestCodec ManifestEntry ManifestHeader Manifest ManifestFile Retention Store Blobs.

Module Gc.
Import TreePath ManifestCodec ManifestEntry ManifestHeader Manifest ManifestFile Retention Store Blobs.
Open Scope store_scope.

(** [GCOptions]; the clock is read once. The seeds of the two Bloom filters are
    drawn by [maphash.MakeSeed]. *)
Record GCOptions := MkOptions { o_Keep : Keep; o_MaxStore : Z; o_now : Time; o_seeds : Z * Z; o_cap_seeds : Z * Z }.

Record GCResult := MkResult {
  g_Deleted : list string;
  g_Blocked : string;
  g_Strays : list string;
  g_BlobsRemoved : Z;
  g_StoreBytes : Z;
  g_BlobCount : Z;
  g_Busy : bool;
  g_Quarantined : list string;
  g_Evicted : list string
}.
Definition emptyResult : GCResult := MkResult [] "" [] 0 0 0 false [] [].

Definition add_deleted (id : string) (g : GCResult) : GCResult :=
  MkResult (g_Deleted g ++ [id]) (g_Blocked g) (g_Strays g) (g_BlobsRemoved g) (g_StoreBytes g) (g_BlobCount g) (g_Busy g) (g_Quarantined g) (g_Evicted g).
Definition set_blocked (id : string) (g : GCResult) : GCResult :=
  MkResult (g_Deleted g) id (g_Strays g) (g_BlobsRemoved g) (g_StoreBytes g) (g_BlobCount g) (g_Busy g) (g_Quarantined g) (g_Evicted g).
Definition set_strays (strays : list string) (g : GCResult) : GCResult :=
  MkResult (g_Deleted g) (g_Blocked g) strays (g_BlobsRemoved g) (g_StoreBytes g) (g_BlobCount g) (g_Busy g) (g_Quarantined g) (g_Evicted g).
Definition add_removed (g : GCResult) : GCResult :=
  MkResult (g_Deleted g) (g_Blocked g) (g_Strays g) (g_BlobsRemoved g + 1) (g_StoreBytes g) (g_BlobCount g) (g_Busy g) (g_Quarantined g) (g_Evicted g).
Definition add_kept (size : Z) (g : GCResult) : GCResult :=
  MkResult (g_Deleted g) (g_Blocked g) (g_Strays g) (g_BlobsRemoved g) (g_StoreBytes g + size) (g_BlobCount g + 1) (g_Busy g) (g_Quarantined g) (g_Evicted g).
Definition set_busy (g : GCResult) : GCResult :=
  MkResult (g_Deleted g) (g_Blocked g) (g_Strays g) (g_BlobsRemoved g) (g_StoreBytes g) (g_BlobCount g) true (g_Quarantined g) (g_Evicted g).
Definition add_quarantined (sum : string) (g : GCResult) : GCResult :=
  MkResult (g_Deleted g) (g_Blocked g) (g_Strays g) (g_BlobsRemoved g) (g_StoreBytes g) (g_BlobCount g) (g_Busy g) (g_Quarantined g ++ [sum]) (g_Evicted g).
Definition add_evicted (id : string) (g : GCResult) : GCResult :=
  MkResult (g_Deleted g) (g_Blocked g) (g_Strays g) (g_BlobsRemoved g) (g_StoreBytes g) (g_BlobCount g) (g_Busy g) (g_Quarantined g) (g_Evicted g ++ [id]).

Record gcPlan := MkPlan { p_seen : gset string; p_marked : gset string; p_evict : gset string; p_bf : bloom }.

Definition GCOK : string := "ok".
Definition GCSkippedBusy : string := "skipped-busy".
Definition GCBlocked : string := "blocked".

Definition GM : Type -> Type := M GCResult.

(** * The status file *)

Definition ReadGCStatus : GM GCStatus :=
  perform call in
  do d := get in
  match d_gc d with Some st => ret st | None => fail NotExist end.
(** The rename of the new file, and the [fsync] of the directory. *)
Definition WriteGCStatus (st : GCStatus) : GM unit :=
  perform call in perform update (set_gc (Some st)) in call.

Definition writeGC (o : GCOptions) (st : GCStatus) (keepSizes : bool) : GM unit :=
  do prev := attempt ReadGCStatus in
  let st := match prev with
    | Ok p => MkGCStatus (st_Time st) (st_Result st) (st_Blocked st) (st_StoreBytes st) (st_BlobCount st) (st_LastOK p) (st_Evicted st)
                (if IsZero (st_LastEvicted st) then st_LastEvicted p else st_LastEvicted st)
    | Err _ => st
    end in
  let st := if str_eqb (st_Result st) GCOK
    then MkGCStatus (st_Time st) (st_Result st) (st_Blocked st) (st_StoreBytes st) (st_BlobCount st) (o_now o) (st_Evicted st) (st_LastEvicted st)
    else st in
  let st := match prev with
    | Ok p =>
      if keepSizes
      then MkGCStatus (st_Time st) (st_Result st) (if is_empty (st_Blocked st) then st_Blocked p else st_Blocked st)
             (st_StoreBytes p) (st_BlobCount p) (st_LastOK st) (st_Evicted st) (st_LastEvicted st)
      else st
    | Err _ => st
    end in
  WriteGCStatus (MkGCStatus (o_now o) (st_Result st) (st_Blocked st) (st_StoreBytes st) (st_BlobCount st) (st_LastOK st) (st_Evicted st) (st_LastEvicted st)).

Definition status (result blocked : string) : GCStatus := MkGCStatus zeroTime result blocked 0 0 zeroTime 0 zeroTime.

Definition block {A} (o : GCOptions) (id cause : string) : GM A :=
  perform log (set_blocked id) in
  perform writeGC o (status GCBlocked id) true in
  fail (BlockedBy id cause).

(** * The manifests *)

Definition remove_manifest (id : string) (d : Disk) : Disk :=
  match d_snapshots d with IsDir entries => set_snapshots (IsDir (delete (manifestName id) entries)) d | _ => d end.
(** [s.root.Remove(manifestName(id))]. *)
Definition Remove_manifest (id : string) : GM unit :=
  perform call in
  do d := get in
  match d_snapshots d with
  | IsDir entries => match entries !! manifestName id with Some _ => update (remove_manifest id) | None => fail NotExist end
  | _ => fail NotExist
  end.

(** [syncSubdir(snapshotsDir)]. *)
Definition syncSnapshots : GM unit :=
  perform call in
  do d := get in
  match d_snapshots d with NoDir => fail NotExist | _ => call end.

(** [lstatRegular(s.root, manifestName(id))], for the disk it takes. *)
Definition lstatManifest (id : string) : GM Z :=
  perform call in
  do d := get in
  match d_snapshots d with
  | IsDir entries => match entries !! manifestName id with Some (File _ a _) => ret a | Some Other => fail (Failure "not a regular file") | None => fail NotExist end
  | _ => fail NotExist
  end.

Fixpoint remove_all (names : list string) : GM unit :=
  match names with
  | [] => ret tt
  | n :: names => perform call in perform update (fun d => set_tmp (delete n (d_tmp d)) d) in remove_all names
  end.
Definition cleanTmp : GM unit :=
  perform call in
  do d := get in
  remove_all (map_to_list (d_tmp d)).*1.

Definition files_of (i : ManifestInfo) : Z :=
  match i_Header i with Some h => default 0 (c_ByType (h_Counts_ h) !! TypeFile) | None => 0 end.

Section Gc.
Context `{StdBase64, NanoTime, SHA256, MapHash}.

(** [markManifest] into a filter. *)
Definition mark_blobs (id : string) (bf : bloom) : GM bloom := markManifest (fun bf e => ret (bloom_add bf (e_SHA256 e))) id bf.

(** The loop of [plan] that validates; [skip] are the manifests it passes over,
    none in [plan], those the plan has seen in [apply]. *)
Fixpoint validate_infos (o : GCOptions) (skip : gset string) (infos : list ManifestInfo) (seen : gset string) : GM (gset string) :=
  match infos with
  | [] => ret seen
  | i :: infos =>
    if bool_decide (i_ID i ∈ skip) then validate_infos o skip infos seen
    else match i_Header i with
    | None => block o (i_ID i) (i_Err i)
    | Some _ =>
      do v := attempt (validate (i_ID i)) in
      match v with
      | Err e => block o (i_ID i) (message e)
      | Ok _ => validate_infos o skip infos ({[i_ID i]} ∪ seen)
      end
    end
  end.

(** ** The disk cap *)

(** The snapshots [capEvict] protects, over those kept, newest first. *)
Fixpoint protect (first complete vmOff : bool) (kept : list ManifestInfo) (protected : gset string) : gset string :=
  match kept with
  | [] => protected
  | i :: kept =>
    let protected := if first || is_pinned i || (is_complete i && negb complete) || (is_vm_off i && negb vmOff)
                     then {[i_ID i]} ∪ protected else protected in
    protect false (complete || is_complete i) (vmOff || is_vm_off i) kept protected
  end.

(** What a snapshot costs beyond the blobs seen before. *)
Definition cost_entry (acc : Z * bloom) (e : Entry) : GM (Z * bloom) :=
  let '(total, seen) := acc in
  if bloom_has seen (e_SHA256 e) then ret (total, seen)
  else
    let seen := bloom_add seen (e_SHA256 e) in
    do fi := attempt (lstatRegular (e_SHA256 e)) in
    match fi with Ok (_, a, _) => ret (total + a, seen) | Err _ => ret (total, seen) end.
Definition cost (id : string) (acc : Z * bloom) : GM (Z * bloom) :=
  do fi := attempt (lstatManifest id) in
  let acc := match fi with Ok a => (acc.1 + a, acc.2) | Err _ => acc end in
  markManifest cost_entry id acc.

Fixpoint cost_protected (protected : gset string) (kept : list ManifestInfo) (acc : Z * bloom) : GM (Z * bloom) :=
  match kept with
  | [] => ret acc
  | i :: kept =>
    do acc := (if bool_decide (i_ID i ∈ protected) then cost (i_ID i) acc else ret acc) in
    cost_protected protected kept acc
  end.

Fixpoint evict_loop (protected : gset string) (max : Z) (kept : list ManifestInfo) (acc : Z * bloom) (evict : gset string) : GM (gset string) :=
  match kept with
  | [] => ret evict
  | i :: kept =>
    if bool_decide (i_ID i ∈ protected) then evict_loop protected max kept acc evict
    else if bool_decide (evict = ∅) then
      do acc := cost (i_ID i) acc in
      if acc.1 <=? max then evict_loop protected max kept acc evict
      else evict_loop protected max kept acc ({[i_ID i]} ∪ evict)
    else evict_loop protected max kept acc ({[i_ID i]} ∪ evict)
  end.

Definition kept_infos (infos : list ManifestInfo) (keep : gset string) : list ManifestInfo :=
  newest_first (filter (fun i => is_valid i = true /\ i_ID i ∈ keep) infos).

Definition capEvict (o : GCOptions) (infos : list ManifestInfo) (keep : gset string) (max : Z) : GM (gset string) :=
  let kept := kept_infos infos keep in
  let protected := protect true false false kept ∅ in
  let refs := foldr (fun i n => files_of i + n) 0 kept in
  do acc := cost_protected protected kept (0, newBloom refs (o_cap_seeds o).1 (o_cap_seeds o).2) in
  evict_loop protected max kept acc ∅.

(** ** The two phases *)

(** The loop of [plan] that marks what is kept. *)
Fixpoint mark_infos (o : GCOptions) (keep : gset string) (infos : list ManifestInfo) (marked : gset string) (bf : bloom) : GM (gset string * bloom) :=
  match infos with
  | [] => ret (marked, bf)
  | i :: infos =>
    if bool_decide (i_ID i ∈ keep) then
      do m := attempt (mark_blobs (i_ID i) bf) in
      match m with
      | Err e => block o (i_ID i) (message e)
      | Ok bf => mark_infos o keep infos ({[i_ID i]} ∪ marked) bf
      end
    else mark_infos o keep infos marked bf
  end.

Definition plan (o : GCOptions) : GM gcPlan :=
  do fi := attempt lstatSnapshots in
  match fi with
  | Err e => block o snapshotsDir (message e)
  | Ok false => block o snapshotsDir "not a directory"
  | Ok true =>
    do (infos, _) := List in
    do seen := validate_infos o ∅ infos ∅ in
    let keep := KeepSet infos (o_Keep o) in
    do evict := (if 0 <? o_MaxStore o then capEvict o infos keep (o_MaxStore o) else ret ∅) in
    let keep := keep ∖ evict in
    let refs := foldr (fun i n => (if bool_decide (i_ID i ∈ keep) then files_of i else 0) + n) 0 infos in
    do (marked, bf) := mark_infos o keep infos ∅ (newBloom (refs + Z.quot refs 4 + 1024) (o_seeds o).1 (o_seeds o).2) in
    ret (MkPlan seen marked evict bf)
  end.

(** The loop of [apply] that deletes and marks. *)
Fixpoint apply_infos (o : GCOptions) (p : gcPlan) (keep : gset string) (infos : list ManifestInfo) (bf : bloom) : GM bloom :=
  match infos with
  | [] => ret bf
  | i :: infos =>
    let id := i_ID i in
    if bool_decide (id ∈ keep) && negb (bool_decide (id ∈ p_evict p)) then
      if bool_decide (id ∈ p_marked p) then apply_infos o p keep infos bf
      else
        do m := attempt (mark_blobs id bf) in
        match m with
        | Err e => block o id (message e)
        | Ok bf => apply_infos o p keep infos bf
        end
    else
      perform Remove_manifest id in
      perform log (add_deleted id) in
      perform (if bool_decide (id ∈ keep) then log (add_evicted id) else ret tt) in
      apply_infos o p keep infos bf
  end.

Definition sweep_blob (bf : bloom) (u : unit) (sum : string) (size : Z) : GM unit :=
  if bloom_has bf sum then log (add_kept size)
  else
    do r := attempt (Remove_blob sum) in
    match r with
    | Ok _ | Err NotExist => log add_removed
    | Err e => fail e
    end.

(** A blob changed since the crash whose bytes do not match its name. *)
Definition crash_blob (since : Time) (bad : list string) (sum : string) (size : Z) : GM (list string) :=
  do n := lstatBlob sum in
  let modTime := match n with File _ _ t => t | Other => 0 end in
  if Before modTime since then ret bad
  else
    do got := hashFile sum in
    ret (if str_eqb got sum then bad else bad ++ [sum]).

Fixpoint quarantine_all (bad : list string) : GM unit :=
  match bad with
  | [] => ret tt
  | sum :: bad => perform quarantine sum in perform log (add_quarantined sum) in quarantine_all bad
  end.

Definition clearCrash : GM unit :=
  perform call in
  do d := get in
  match d_dirty d with
  | None => ret tt
  | Some marker =>
    let since := Add marker (- (2 * Second)) in
    do bad := walkBlobs (crash_blob since) (fun bad _ => ret bad) [] in
    perform quarantine_all bad in
    perform call in
    update (set_dirty None)
  end.

Definition apply (o : GCOptions) (p : gcPlan) : GM unit :=
  do (infos, strays) := List in
  perform log (set_strays strays) in
  perform validate_infos o (p_seen p) infos ∅ in
  let keep := KeepSet infos (o_Keep o) in
  do bf := apply_infos o p keep infos (p_bf p) in
  do y := attempt syncSnapshots in
  match y with
  | Err IOError => fail IOError
  | _ =>
    perform walkBlobs (sweep_blob bf) (fun u _ => ret u) tt in
    perform clearCrash in
    do g := peek in
    let evicted := Z.of_nat (length (g_Evicted g)) in
    writeGC o (MkGCStatus zeroTime GCOK "" (g_StoreBytes g) (g_BlobCount g) zeroTime evicted
                 (if 0 <? evicted then o_now o else zeroTime)) false
  end.

(** How an attempt to take a lock ends. *)
Inductive lock_outcome := Locked | LockBusy | LockFailed.

Definition busy (o : GCOptions) : GM unit :=
  perform log set_busy in
  writeGC o (status GCSkippedBusy "") true.

Definition GC (o : GCOptions) (shared exclusive : lock_outcome) (between : Disk -> Disk) : GM unit :=
  require (1 <=? Retention.Last (o_Keep o)) else fail (Failure "keep.last must be at least 1") in
  match shared with
  | LockBusy => busy o
  | LockFailed => fail IOError
  | Locked =>
    do p := plan o in
    perform update between in
    match exclusive with
    | LockBusy => busy o
    | LockFailed => fail IOError
    | Locked => perform cleanTmp in apply o p
    end
  end.

(** * What the parts do *)

(** Nothing changes but the status file. *)
Definition idle (s s' : St GCResult) : Prop := exists x, disk s' = set_gc x (disk s).

Lemma idle_refl s s' : disk s' = disk s -> idle s s'.
Proof. intros E. exists (d_gc (disk s)). rewrite E. by destruct (disk s). Qed.

Lemma idle_trans s1 s2 s3 : idle s1 s2 -> idle s2 s3 -> idle s1 s3.
Proof. intros [x Hx] [y Hy]. exists y. by rewrite Hy, Hx. Qed.

Lemma wp_writeGC o st keepSizes s :
  wp (writeGC o st keepSizes) (fun _ s' => idle s s' /\ report s' = report s /\ (faults s = [] -> faults s' = []))
     (fun _ s' => idle s s' /\ report s' = report s /\ faults s <> []) s.
Proof.
  assert (Hw : forall st s1, disk s1 = disk s -> report s1 = report s -> (faults s = [] -> faults s1 = []) -> wp (WriteGCStatus st)
    (fun _ s' => idle s s' /\ report s' = report s /\ (faults s = [] -> faults s' = [])) (fun _ s' => idle s s' /\ report s' = report s /\ faults s <> []) s1).
  { intros st1 s1 Hd Hr Hf. unfold WriteGCStatus. wp_step. wp_step.
    - wp_step. wp_step. wp_step; split_and!; [by exists (Some st1); rewrite Hd | done | cbn [faults] in *; auto | by exists (Some st1); rewrite Hd | done | cbn [faults] in *; auto].
    - split_and!; [by apply idle_refl | done | auto]. }
  unfold writeGC, ReadGCStatus. wp_step. apply wp_attempt. wp_step. wp_step; [|by apply Hw]. wp_step. wp_step.
  destruct (d_gc (disk s)); wp_step; by apply Hw.
Qed.

Lemma wp_block {A} o id cause (Q : A -> St GCResult -> Prop) s :
  wp (block o id cause) Q (fun e s' => idle s s' /\ report s' = set_blocked id (report s) /\ (faults s = [] -> e = BlockedBy id cause)) s.
Proof.
  unfold block. wp_step. wp_step. wp_step. eapply wp_mono; [apply wp_writeGC|..].
  - intros _ s' (Hi & Hr & _). by wp_step.
  - intros e s' (Hi & Hr & Hf). by split_and!.
Qed.

(** An operation that changes nothing, and stops the collection when it fails. *)
Definition stopped_idle (s : St GCResult) (_ : serr) (s' : St GCResult) : Prop := idle s s'.

Lemma wp_block_idle {A} o id cause (Q : A -> St GCResult -> Prop) s0 s : idle s0 s -> wp (block o id cause) Q (stopped_idle s0) s.
Proof. intros Hi. eapply wp_mono; [apply (wp_block o id cause Q)|done|]. intros e s' (Hs & _). by eapply idle_trans. Qed.

Lemma same_store_trans (s1 s2 s3 : St GCResult) : same s1 s2 -> same s2 s3 -> same s1 s3.
Proof. intros (E1 & E2 & E3) (F1 & F2 & F3). split_and!; [congruence|congruence|auto]. Qed.

(** Every blob the entries refer to is in the filter. *)
Definition marks (bf : bloom) (es : list Entry) : Prop :=
  Forall (fun e => referencesBlob e = true -> bloom_has bf (e_SHA256 e) = true) es.

(** A filter only grows. *)
Definition grows (bf bf' : bloom) : Prop := bloom_ok bf' /\ forall sum, bloom_has bf sum = true -> bloom_has bf' sum = true.

Lemma grows_refl bf : bloom_ok bf -> grows bf bf.
Proof. by split. Qed.

Lemma grows_trans a b c : grows a b -> grows b c -> grows a c.
Proof. intros [_ Hm] [Hc Hm']. split; auto. Qed.

Lemma marks_grows bf bf' es : grows bf bf' -> marks bf es -> marks bf' es.
Proof. intros [_ Hg] Hm. eapply Forall_impl; [exact Hm|]. naive_solver. Qed.

Lemma wp_mark_blobs id bf s : bloom_ok bf ->
  wp (mark_blobs id bf) (fun bf' s' => same s s' /\ grows bf bf' /\ exists h es, holds (disk s) id h es /\ marks bf' es)
     (fun _ s' => disk s' = disk s /\ report s' = report s /\ (faults s = [] -> forall h es, ~ holds (disk s) id h es)) s.
Proof.
  intros Hok. unfold mark_blobs.
  eapply wp_mono; [apply (wp_markManifest _ (fun pre a d r => d = disk s /\ r = report s /\ grows bf a /\ marks a pre))|..].
  - intros pre a e s1 (Hd & Hr & Hg & Hm) He. wp_step. split; [|done]. split_and!; [done..| |].
    + destruct Hg as [Ha Hg]. split; [by apply bloom_add_ok|]. intros sum Hs. apply bloom_has_add; auto.
    + apply Forall_app. split.
      * eapply marks_grows; [|exact Hm]. destruct Hg as [Ha _]. split; [by apply bloom_add_ok|]. intros sum Hs. apply bloom_has_add; auto.
      * apply Forall_singleton. intros _. apply bloom_has_add; [apply Hg | auto].
  - intros pre a e d r (Hd & Hr & Hg & Hm) He. split_and!; [done..|]. apply Forall_app. split; [done|]. apply Forall_singleton. congruence.
  - split_and!; [done|done|by apply grows_refl|constructor].
  - intros bf' s' [(h & es & Hh & Hd & Hr & Hg & Hm) Hf]. split; [by split_and!|]. split; [done|]. by exists h, es.
  - intros e s' [(a & es & Hd & Hr & _) Hf]. by split_and!.
Qed.

Lemma wp_validate_infos o skip infos : forall seen s,
  wp (validate_infos o skip infos seen)
     (fun _ s' => same s s' /\ forall id, id ∈ i_ID <$> infos -> id ∉ skip -> exists h es, holds (disk s) id h es)
     (stopped_idle s) s.
Proof.
  induction infos as [|i infos IH]; intros seen s; cbn [validate_infos].
  { wp_step. split; [done|]. set_solver. }
  case_bool_decide as Hs.
  { eapply wp_mono; [apply IH|..|done]. intros seen' s' [Hsame Hin]. split; [done|]. intros id [->|Hid]%elem_of_cons Hsk; [done|by apply Hin]. }
  destruct (i_Header i); [|apply wp_block_idle, idle_refl; done]. wp_step. apply wp_attempt. eapply wp_mono; [apply wp_validate|..].
  - intros h' s1 [Hsame Hv]. eapply wp_mono; [apply IH|..].
    + intros seen' s' [Hsame' Hin]. split; [exact (same_store_trans _ _ _ Hsame Hsame')|]. rewrite (proj1 Hsame) in Hin.
      intros id [->|Hid]%elem_of_cons Hsk; [by exists h' | by apply Hin].
    + intros e s' Hi. eapply idle_trans; [apply idle_refl, Hsame | exact Hi].
  - intros e s1 [Hsame _]. apply wp_block_idle, idle_refl, Hsame.
Qed.

Lemma wp_mark_infos o keep infos : forall marked bf s, bloom_ok bf ->
  wp (mark_infos o keep infos marked bf)
     (fun p s' => same s s' /\ grows bf p.2 /\ forall id, id ∈ p.1 -> id ∈ marked \/ exists h es, holds (disk s) id h es /\ marks p.2 es)
     (stopped_idle s) s.
Proof.
  induction infos as [|i infos IH]; intros marked bf s Hok; cbn [mark_infos].
  { wp_step. split_and!; [done..|by apply grows_refl|auto]. }
  case_bool_decide as Hk; [|by apply IH]. wp_step. apply wp_attempt. eapply wp_mono; [by apply wp_mark_blobs|..].
  - intros bf1 s1 (Hsame & Hg & h & es & Hh & Hm). eapply wp_mono; [apply IH, Hg|..].
    + intros [marked' bf'] s' (Hsame' & Hg' & Hin). cbn [fst snd] in *. split_and!; [by eapply same_store_trans | by eapply grows_trans|].
      destruct Hsame as (Hd & _). rewrite Hd in Hin. intros id [Hid|Hid]%Hin; [|by right]. apply elem_of_union in Hid as [->%elem_of_singleton|Hid]; [|by left].
      right. exists h, es. split; [done|]. by eapply marks_grows.
    + intros e s' Hi. eapply idle_trans; [apply idle_refl, Hsame | exact Hi].
  - intros e s1 (Hd & _). by apply wp_block_idle, idle_refl.
Qed.

(** ** The disk cap *)

Lemma protect_spec kept : forall first complete vmOff acc id,
  id ∈ protect first complete vmOff kept acc <->
  id ∈ acc \/ exists i, i_ID i = id /\ ((first = true /\ head kept = Some i) \/ (complete = false /\ first_with is_complete kept i)
    \/ (vmOff = false /\ first_with is_vm_off kept i) \/ (i ∈ kept /\ is_pinned i = true)).
Proof.
  induction kept as [|j kept IH]; intros f c v acc id; cbn [protect].
  { split; [by left|]. intros [|(i & _ & [[_ H']|[[_ H']|[[_ H']|[H' _]]]])];
      [done | done | by apply first_with_nil in H'.. | by apply elem_of_nil in H']. }
  rewrite IH. clear IH. setoid_rewrite flagged_first_cons. setoid_rewrite elem_of_cons. cbn [head].
  assert (Hk : id ∈ (if f || is_pinned j || (is_complete j && negb c) || (is_vm_off j && negb v) then {[i_ID j]} ∪ acc else acc) <->
    id ∈ acc \/ (i_ID j = id /\ (f = true \/ is_complete j && negb c = true \/ is_vm_off j && negb v = true \/ is_pinned j = true))).
  { destruct f, (is_pinned j), (is_complete j && negb c), (is_vm_off j && negb v); cbn [orb]; set_solver. }
  rewrite Hk. clear Hk. split.
  - intros [[H'|[Hid H']]|(i & Hid & H')]; [by left | right; exists j; naive_solver | right; exists i].
    split; [done|]. destruct H' as [[? _]|H']; [done|tauto].
  - intros [H'|(i & Hid & H')]; [by left; left|].
    destruct H' as [[H' [= <-]]|[[[H' ->]|H']|[[[H' ->]|H']|[[->|H'] Hp]]]]; first [left; right; tauto | right; exists i; tauto].
Qed.

Lemma wp_cost id acc s : wp (cost id acc) (fun _ s' => same s s') (fun _ s' => disk s' = disk s) s.
Proof.
  unfold cost. wp_step. apply wp_attempt.
  assert (Hm : forall acc s1, same s s1 -> wp (markManifest cost_entry id acc) (fun _ s' => same s s') (fun _ s' => disk s' = disk s) s1).
  { intros acc1 s1 (Hd & Hr & Hf). eapply wp_mono; [apply (wp_markManifest _ (fun _ _ d r => d = disk s /\ r = report s))|..]; try done.
    - intros pre [total seen] e s2 (Hd2 & Hr2) _. unfold cost_entry. destruct (bloom_has seen _); [by wp_step|]. wp_step. apply wp_attempt.
      unfold lstatRegular, lstatBlob. repeat wp_step; cbn [Store.disk report faults]; tauto.
    - intros a s2 [(h & es & _ & Hd2 & Hr2) Hf2]. split_and!; auto.
    - intros e s2 [(a & es & Hd2 & _) _]. done. }
  unfold lstatManifest. repeat wp_step; apply Hm; unfold same; cbn [Store.disk report faults]; tauto.
Qed.

Lemma wp_cost_protected protected kept : forall acc s, wp (cost_protected protected kept acc) (fun _ s' => same s s') (fun _ s' => disk s' = disk s) s.
Proof.
  induction kept as [|i kept IH]; intros acc s; cbn [cost_protected]; [done|]. wp_step. case_bool_decide.
  - eapply wp_mono; [apply wp_cost|..|done]. intros acc' s1 Hs. eapply wp_mono; [apply IH|..].
    + intros a s2 Hs2. exact (same_store_trans _ _ _ Hs Hs2).
    + intros e2 s2 Hd. by rewrite Hd, (proj1 Hs).
  - wp_step. apply IH.
Qed.

Lemma wp_evict_loop protected max kept : forall acc evict s,
  wp (evict_loop protected max kept acc evict)
     (fun evict' s' => same s s' /\ forall id, id ∈ evict' -> id ∈ evict \/ (id ∈ i_ID <$> kept /\ id ∉ protected)) (fun _ s' => disk s' = disk s) s.
Proof.
  induction kept as [|i kept IH]; intros acc evict s; cbn [evict_loop]; [wp_step; split; [done|auto]|].
  assert (Hadd : i_ID i ∉ protected -> forall acc s1, same s s1 -> wp (evict_loop protected max kept acc ({[i_ID i]} ∪ evict))
     (fun evict' s' => same s s' /\ forall id, id ∈ evict' -> id ∈ evict \/ (id ∈ i_ID <$> i :: kept /\ id ∉ protected)) (fun _ s' => disk s' = disk s) s1).
  { intros Hp acc1 s1 Hs. eapply wp_mono; [apply IH|..]; [intros e s2 [Hs2 Hin]|intros e2 s2 Hd; by rewrite Hd, (proj1 Hs)].
    split; [eapply same_store_trans; eassumption|]. intros id Hid. specialize (Hin id Hid). set_solver. }
  assert (Hskip : forall acc s1, same s s1 -> wp (evict_loop protected max kept acc evict)
     (fun evict' s' => same s s' /\ forall id, id ∈ evict' -> id ∈ evict \/ (id ∈ i_ID <$> i :: kept /\ id ∉ protected)) (fun _ s' => disk s' = disk s) s1).
  { intros acc1 s1 Hs. eapply wp_mono; [apply IH|..]; [intros e s2 [Hs2 Hin]|intros e2 s2 Hd; by rewrite Hd, (proj1 Hs)].
    split; [eapply same_store_trans; eassumption|]. intros id Hid. specialize (Hin id Hid). set_solver. }
  case_bool_decide; [by apply Hskip|]. case_bool_decide; [|by apply Hadd]. wp_step. eapply wp_mono; [apply wp_cost|..|done].
  intros acc1 s1 Hs. destruct (acc1.1 <=? max); [by apply Hskip | by apply Hadd].
Qed.

(** The snapshots a cap never takes: the newest, the newest complete one, the
    newest taken with the VM off, and the pinned ones, of those kept. *)
Definition spared (kept : list ManifestInfo) (i : ManifestInfo) : Prop :=
  head kept = Some i \/ first_with is_complete kept i \/ first_with is_vm_off kept i \/ (i ∈ kept /\ is_pinned i = true).

Lemma wp_capEvict o infos keep max s :
  wp (capEvict o infos keep max)
     (fun evict s' => same s s' /\ forall id, id ∈ evict ->
        id ∈ i_ID <$> kept_infos infos keep /\ forall i, spared (kept_infos infos keep) i -> i_ID i <> id)
     (fun _ s' => disk s' = disk s) s.
Proof.
  unfold capEvict. wp_step. eapply wp_mono; [apply wp_cost_protected|..|done]. intros acc s1 Hs. eapply wp_mono; [apply wp_evict_loop|..].
  - intros evict s2 [Hs2 Hin]. split; [exact (same_store_trans _ _ _ Hs Hs2)|]. intros id Hid. destruct (Hin id Hid) as [?|[Hk Hp]]; [set_solver|].
    split; [done|]. intros i Hi E. apply Hp, protect_spec. right. exists i. split; [done|]. unfold spared in Hi. tauto.
  - intros e2 s2 Hd. by rewrite Hd, (proj1 Hs).
Qed.

(** ** The plan *)

(** What the plan knows of the disk it was made on. *)
Record planned (o : GCOptions) (d : Disk) (p : gcPlan) : Prop := MkPlanned {
  pl_ok : bloom_ok (p_bf p);
  pl_marked : forall id, id ∈ p_marked p -> exists h es, holds d id h es /\ marks (p_bf p) es;
  pl_valid : forall id, ValidID id = true -> is_Some (manifest d id) -> exists h es, holds d id h es;
  pl_cap : o_MaxStore o <= 0 -> p_evict p = ∅;
  pl_evict : exists infos, Forall (told False d) infos
    /\ forall id, id ∈ p_evict p -> id ∈ i_ID <$> kept_infos infos (KeepSet infos (o_Keep o))
         /\ forall i, spared (kept_infos infos (KeepSet infos (o_Keep o))) i -> i_ID i <> id
}.

Lemma wp_plan o s : wp (plan o) (fun p s' => same s s' /\ planned o (disk s) p) (stopped_idle s) s.
Proof.
  unfold plan, lstatSnapshots. wp_step. apply wp_attempt.
  assert (Hgo : forall s1, same s s1 -> wp (
    do (infos, _) := List in
    do seen := validate_infos o ∅ infos ∅ in
    let keep := KeepSet infos (o_Keep o) in
    do evict := (if 0 <? o_MaxStore o then capEvict o infos keep (o_MaxStore o) else ret ∅) in
    let keep := keep ∖ evict in
    let refs := foldr (fun i n => (if bool_decide (i_ID i ∈ keep) then files_of i else 0) + n) 0 infos in
    do (marked, bf) := mark_infos o keep infos ∅ (newBloom (refs + Z.quot refs 4 + 1024) (o_seeds o).1 (o_seeds o).2) in
    ret (MkPlan seen marked evict bf)) (fun p s' => same s s' /\ planned o (disk s) p) (stopped_idle s) s1).
  { intros s1 Hs1. wp_step. eapply wp_mono; [apply wp_List|..].
    2: { intros e s2 [(Hd & _) _]. apply idle_refl. by rewrite Hd, (proj1 Hs1). }
    intros [infos strays] s2 [Hs2 Hl]. cbn [fst] in Hl. wp_step. assert (Hs12 : same s s2) by (eapply same_store_trans; eassumption).
    eapply wp_mono; [apply wp_validate_infos|..]; [|intros e s3 Hi; eapply idle_trans; [apply idle_refl, Hs12|exact Hi]].
    intros seen s3 [Hs3 Hval]. assert (Hs13 : same s s3) by (eapply same_store_trans; eassumption). cbv zeta. wp_step.
    eapply (wp_mono _ (fun evict s4 => (o_MaxStore o <= 0 -> evict = ∅) /\ same s s4 /\ forall id, id ∈ evict -> id ∈ i_ID <$> kept_infos infos (KeepSet infos (o_Keep o))
         /\ forall i, spared (kept_infos infos (KeepSet infos (o_Keep o))) i -> i_ID i <> id) _ (stopped_idle s)).
    { destruct (Z.ltb_spec 0 (o_MaxStore o)); [|wp_step; split_and!; [done|done|set_solver]]. eapply wp_mono; [apply wp_capEvict|..].
      - intros evict s4 [Hs4 Hin]. split_and!; [lia|exact (same_store_trans _ _ _ Hs13 Hs4)|done].
      - intros e s4 Hd. apply idle_refl. by rewrite Hd, (proj1 Hs13). }
    2: done. intros evict s4 (Hcap & Hs4 & Hev). wp_step. eapply wp_mono; [apply wp_mark_infos, newBloom_ok|..].
    - intros [marked bf] s5 (Hs5 & Hg & Hm). cbn [fst snd] in *. wp_step. split; [eapply same_store_trans; eassumption|]. constructor; cbn [p_bf p_marked p_evict]; [..|done|].
      + apply Hg.
      + intros id [?|Hid]%Hm; [set_solver|]. by rewrite (proj1 Hs4) in Hid.
      + intros id Hv Hsm. rewrite (proj1 Hs12) in Hval. apply Hval; [|set_solver]. apply (li_ids _ _ _ Hl). by rewrite (proj1 Hs1).
      + exists infos. split; [|done]. rewrite <- (proj1 Hs1). eapply Forall_impl; [apply Hl|]. unfold told. tauto.
    - intros e s5 Hi. eapply idle_trans; [apply idle_refl, Hs4|exact Hi]. }
  wp_step. wp_step; [|apply wp_block_idle; by apply idle_refl]. wp_step. wp_step. destruct (d_snapshots (disk s)).
  - apply wp_fail, wp_block_idle. by apply idle_refl.
  - apply wp_ret, wp_block_idle. by apply idle_refl.
  - apply wp_ret, Hgo. by split_and!.
Qed.

(** ** Deleting *)

Lemma manifest_remove d id id' : manifest (remove_manifest id d) id' = if decide (id' = id) then None else manifest d id'.
Proof.
  unfold manifest, remove_manifest. destruct (d_snapshots d) as [| |entries] eqn:Ed; cbn [d_snapshots set_snapshots]; rewrite ?Ed; try (by destruct (decide _)).
  destruct (decide (id' = id)) as [->|Hne]; [by rewrite lookup_delete_eq|]. rewrite lookup_delete_ne; [done|].
  unfold manifestName. intros E. by apply str_app_inj_r in E.
Qed.

(** What retention and the cap take away. *)
Definition gone (keep evict : gset string) (id : string) : Prop := ~ (id ∈ keep /\ id ∉ evict).
#[export] Instance gone_dec keep evict id : Decision (gone keep evict id).
Proof. unfold gone. apply _. Defined.

(** Manifests are removed, and nothing else. *)
Record pruned (d d' : Disk) : Prop := MkPruned {
  pr_blobs : d_blobs d' = d_blobs d;
  pr_corrupt : d_corrupt d' = d_corrupt d;
  pr_seq : d_seq d' = d_seq d;
  pr_dir : d_snapshots d' = NotDir -> d_snapshots d = NotDir;
  pr_manifests : forall id, manifest d' id = manifest d id \/ manifest d' id = None
}.

Lemma pruned_refl d d' : d_blobs d' = d_blobs d -> d_corrupt d' = d_corrupt d -> d_seq d' = d_seq d -> d_snapshots d' = d_snapshots d -> pruned d d'.
Proof. intros Ha Hb Hc Hd. constructor; [done..|by rewrite Hd|]. intros id. left. unfold manifest. by rewrite Hd. Qed.

Lemma pruned_idle d s s' : pruned d (disk s) -> idle s s' -> pruned d (disk s').
Proof. intros [Ha Hb Hc Hd He] [x Hx]. rewrite Hx. by constructor. Qed.

Lemma pruned_holds d d' id h es : pruned d d' -> holds d' id h es -> holds d id h es.
Proof.
  intros Hp (r & Ho & Hr). exists r. split; [|done]. unfold open_of in *.
  by destruct (pr_manifests _ _ Hp id) as [E|E]; rewrite E in Ho.
Qed.

Lemma wp_Remove_manifest id s :
  wp (Remove_manifest id) (fun _ s' => disk s' = remove_manifest id (disk s) /\ report s' = report s /\ (faults s = [] -> faults s' = []))
     (fun _ s' => disk s' = disk s /\ (faults s = [] -> manifest (disk s) id = None)) s.
Proof. unfold Remove_manifest, manifest. repeat wp_step; try done; (split; [done|]); by intros. Qed.

Lemma pruned_remove d d' id : pruned d d' -> pruned d (remove_manifest id d').
Proof.
  intros [Ha Hb Hs Hn Hc]. assert (Hd : d_blobs (remove_manifest id d') = d_blobs d' /\ d_corrupt (remove_manifest id d') = d_corrupt d'
      /\ d_seq (remove_manifest id d') = d_seq d' /\ (d_snapshots (remove_manifest id d') = NotDir -> d_snapshots d' = NotDir))
    by (unfold remove_manifest; destruct (d_snapshots d') eqn:E; rewrite ?E; by split_and!). destruct Hd as (Hd1 & Hd2 & Hd3 & Hd4).
  constructor; [congruence|congruence|congruence|auto|]. intros id'. rewrite manifest_remove. destruct (decide _); [by right|done].
Qed.

Lemma wp_apply_infos o p keep infos : forall bf d0 s, bloom_ok bf -> pruned d0 (disk s) ->
  wp (apply_infos o p keep infos bf)
     (fun bf' s' => pruned d0 (disk s') /\ grows bf bf'
        /\ (forall id, manifest (disk s') id = if decide (id ∈ i_ID <$> infos /\ gone keep (p_evict p) id) then None else manifest (disk s) id)
        /\ (forall id, id ∈ i_ID <$> infos -> ~ gone keep (p_evict p) id -> id ∈ p_marked p \/ exists h es, holds d0 id h es /\ marks bf' es))
     (fun _ s' => pruned d0 (disk s')) s.
Proof.
  induction infos as [|i infos IH]; intros bf d0 s Hok Hpr; cbn [apply_infos].
  { wp_step. split_and!; [done|by apply grows_refl| |set_solver]. intros id. destruct (decide _) as [[? _]|]; [set_solver|done]. }
  destruct (bool_decide (i_ID i ∈ keep) && negb (bool_decide (i_ID i ∈ p_evict p))) eqn:Eb.
  - apply andb_prop in Eb as [Hk%bool_decide_eq_true He%negb_true_iff]. apply bool_decide_eq_false in He.
    assert (Hng : ~ gone keep (p_evict p) (i_ID i)) by (unfold gone; tauto).
    assert (Hdec : forall (b1 b2 : option bytes) id, (if decide (id ∈ i_ID <$> infos /\ gone keep (p_evict p) id) then b1 else b2)
      = (if decide (id ∈ i_ID <$> i :: infos /\ gone keep (p_evict p) id) then b1 else b2)).
    { intros b1 b2 id. destruct (decide _) as [[Hx Hy]|Hx], (decide _) as [[Hx' Hy']|Hx']; try done; exfalso; [set_solver|].
      apply Hx. split; [|done]. rewrite fmap_cons in Hx'. apply elem_of_cons in Hx' as [->|?]; [by destruct Hng|done]. }
    case_bool_decide as Hm.
    + eapply wp_mono; [by apply (IH bf d0)|..|done]. intros bf' s' (Hp & Hg & Hman & Hall). split_and!; [done|done|..].
      * intros id. by rewrite Hman, Hdec.
      * intros id [->|Hid]%elem_of_cons Hg'; [by left|by apply Hall].
    + wp_step. apply wp_attempt. eapply wp_mono; [by apply wp_mark_blobs|..].
      * intros bf1 s1 ([Hd _] & Hg & h & es & Hh & Hmk). eapply wp_mono; [apply (IH bf1 d0); [apply Hg|by rewrite Hd]|..|done].
        intros bf' s' (Hp & Hg2 & Hman & Hall). split_and!; [done|by eapply grows_trans|..].
        -- intros id. by rewrite Hman, Hdec, Hd.
        -- intros id [->|Hid]%elem_of_cons Hg'; [|by apply Hall]. right. exists h, es. split; [exact (pruned_holds _ _ _ _ _ Hpr Hh)|exact (marks_grows _ _ _ Hg2 Hmk)].
      * intros e s1 (Hd & _). eapply wp_mono; [apply (wp_block o _ _ (fun _ _ => False))|done|]. intros e' s2 (Hi & _). eapply pruned_idle; [|exact Hi]. by rewrite Hd.
  - assert (Hg : gone keep (p_evict p) (i_ID i)).
    { intros [Hk He]. apply andb_false_iff in Eb as [Hb%bool_decide_eq_false|Hb%negb_false_iff]; [done|].
      by apply bool_decide_eq_true in Hb. }
    wp_step. eapply wp_mono; [apply wp_Remove_manifest|..]; [intros u s1 (Hd & _)|intros e s1 [Hd _]; by rewrite Hd].
    wp_step. wp_step. wp_step. assert (Hpr1 : pruned d0 (disk s1)) by (rewrite Hd; by apply pruned_remove).
    assert (Hrest : forall s2, disk s2 = disk s1 -> wp (apply_infos o p keep infos bf)
      (fun bf' s' => pruned d0 (disk s') /\ grows bf bf'
        /\ (forall id, manifest (disk s') id = if decide (id ∈ i_ID <$> i :: infos /\ gone keep (p_evict p) id) then None else manifest (disk s) id)
        /\ (forall id, id ∈ i_ID <$> i :: infos -> ~ gone keep (p_evict p) id -> id ∈ p_marked p \/ exists h es, holds d0 id h es /\ marks bf' es))
      (fun _ s' => pruned d0 (disk s')) s2).
    { intros s2 Hd2. eapply wp_mono; [apply (IH bf d0); [done|by rewrite Hd2]|..|done]. intros bf' s' (Hp & Hgr & Hman & Hall). split_and!; [done|done|..].
      - intros id. rewrite Hman, Hd2, Hd, manifest_remove. destruct (decide (id = i_ID i)) as [->|Hne].
        + destruct (decide _); (rewrite decide_True; [done|]; split; [set_solver|done]).
        + destruct (decide _) as [[Hx Hy]|Hx], (decide _) as [[Hx' Hy']|Hx']; try done; exfalso; [set_solver|].
          apply Hx. split; [|done]. rewrite fmap_cons in Hx'. by apply elem_of_cons in Hx' as [->|?].
      - intros id [->|Hid]%elem_of_cons Hg'; [done|by apply Hall]. }
    destruct (bool_decide _); wp_step; by apply Hrest.
Qed.

(** ** Sweeping *)

Lemma blob_entry d sum : blob d sum = blob_entries d !! blobName sum.
Proof. unfold blob, blob_entries. destruct (d_blobs d); [done|]. cbn. by rewrite lookup_empty. Qed.

(** The blobs a sweep with the filter [bf] takes. *)
Definition swept (bf : bloom) (blobs : gmap string Node) (name : string) : bool :=
  match blob_sum name, blobs !! name with Some sum, Some (File _ _ _) => negb (bloom_has bf sum) | _, _ => false end.

(** The disk while the blobs of [visited] are swept. *)
Record sweeping (bf : bloom) (d0 : Disk) (visited : list string) (d : Disk) : Prop := MkSweeping {
  sw_snapshots : d_snapshots d = d_snapshots d0;
  sw_corrupt : d_corrupt d = d_corrupt d0;
  sw_seq : d_seq d = d_seq d0;
  sw_blobs : forall name, blob_entries d !! name = if decide (name ∈ visited /\ swept bf (blob_entries d0) name = true) then None else blob_entries d0 !! name
}.

Lemma sweeping_step bf d0 visited d name : sweeping bf d0 visited d -> swept bf (blob_entries d0) name = false -> sweeping bf d0 (visited ++ [name]) d.
Proof.
  intros [Ha Hb Hq Hc] Hs. constructor; [done..|]. intros n. rewrite Hc. destruct (decide _) as [[Hx Hy]|Hx], (decide _) as [[Hx' Hy']|Hx']; try done.
  - exfalso. apply Hx'. split; [set_solver|done].
  - apply elem_of_app in Hx' as [?| ->%list_elem_of_singleton]; [|congruence]. exfalso. by apply Hx.
Qed.

Lemma blob_entries_remove d sum name : blob_entries (remove_blob sum d) !! name = if decide (name = blobName sum) then None else blob_entries d !! name.
Proof.
  unfold blob_entries, remove_blob. cbn [d_blobs set_blobs]. destruct (d_blobs d) as [m|]; cbn; [|rewrite lookup_empty; by destruct (decide _)].
  destruct (decide _) as [->|Hne]; [apply lookup_delete_eq|by apply lookup_delete_ne].
Qed.

Lemma sweeping_remove bf d0 visited d sum name : sweeping bf d0 visited d -> blob_sum name = Some sum -> swept bf (blob_entries d0) name = true ->
  sweeping bf d0 (visited ++ [name]) (remove_blob sum d).
Proof.
  intros [Ha Hb Hq Hc] [<- _]%blob_sum_name Hs. constructor; [done..|]. intros n. rewrite blob_entries_remove, Hc.
  destruct (decide (n = blobName sum)) as [->|Hne]; [rewrite decide_True; [done|]; split; [set_solver|done]|].
  destruct (decide _) as [[Hx Hy]|Hx], (decide _) as [[Hx' Hy']|Hx']; try done; exfalso.
  - apply Hx'. split; [set_solver|done].
  - apply elem_of_app in Hx' as [?|?%list_elem_of_singleton]; [by apply Hx|done].
Qed.

(** What the sweep guarantees wherever it stops. *)
Definition swept_safely (bf : bloom) (d0 d : Disk) : Prop :=
  d_snapshots d = d_snapshots d0 /\ d_corrupt d = d_corrupt d0 /\ d_seq d = d_seq d0 /\ forall sum, bloom_has bf sum = true -> blob d sum = blob d0 sum.

Lemma sweeping_safe bf d0 visited d : sweeping bf d0 visited d -> swept_safely bf d0 d.
Proof.
  intros [Ha Hb Hq Hc]. split_and!; [done..|]. intros sum Hs. rewrite !blob_entry, Hc. destruct (decide _) as [[_ Hsw]|]; [|done].
  exfalso. revert Hsw. unfold swept. destruct (blob_sum (blobName sum)) as [t|] eqn:Et; [|done]. apply blob_sum_name in Et as [E%blobName_inj _]. subst t.
  destruct (blob_entries d0 !! blobName sum) as [[]|]; [by rewrite Hs|done|done].
Qed.

Lemma wp_sweep bf s :
  wp (walkBlobs (sweep_blob bf) (fun u _ => ret u) tt)
     (fun _ s' => (exists visited, sweeping bf (disk s) visited (disk s') /\ forall name, is_Some (blob_entries (disk s) !! name) -> name ∈ visited)
        /\ g_Evicted (report s') = g_Evicted (report s) /\ g_Deleted (report s') = g_Deleted (report s) /\ (faults s = [] -> faults s' = []))
     (fun _ s' => swept_safely bf (disk s) (disk s')) s.
Proof.
  set (I := fun visited (_ : unit) d r => sweeping bf (disk s) visited d /\ g_Evicted r = g_Evicted (report s) /\ g_Deleted r = g_Deleted (report s)).
  eapply wp_mono; [apply (wp_walkBlobs _ _ I (fun d _ => swept_safely bf (disk s) d) (blob_entries (disk s)))|..]; try done.
  - intros visited [] d r [Hs _]. by eapply sweeping_safe.
  - intros visited [] d r name [[_ _ _ Hb] _] Hn. rewrite Hb. by destruct (decide _) as [[? _]|].
  - intros visited [] d r name [Hs Hr] Hn. split; [|done]. apply sweeping_step; [done|]. unfold swept. rewrite Hn. by destruct (blob_sum name).
  - intros visited [] s1 name [Hs Hr] Hst. wp_step. split; [|done]. split; [|done]. apply sweeping_step; [done|].
    unfold swept. destruct Hst as [-> | ->]; by destruct (blob_sum name).
  - intros visited [] s1 name sum c dk t [Hs [Hr1 Hr2]] Hn Hsum Hb. unfold sweep_blob. destruct (bloom_has bf sum) eqn:Eh.
    { wp_step. split; [|done]. split; [|done]. apply sweeping_step; [done|]. unfold swept. by rewrite Hsum, Hb, Eh. }
    assert (Hsw : swept bf (blob_entries (disk s)) name = true) by (unfold swept; by rewrite Hsum, Hb, Eh).
    assert (Hbl : blob (disk s1) sum = Some (File c dk t)).
    { pose proof (proj1 (blob_sum_name _ _) Hsum) as [<- _]. rewrite blob_entry, (sw_blobs _ _ _ _ Hs). by destruct (decide _) as [[? _]|]. }
    wp_step. apply wp_attempt. unfold Remove_blob. wp_step. wp_step; [|wp_step; by eapply sweeping_safe]. wp_step. wp_step. rewrite Hbl. wp_step. wp_step.
    split; [|done]. split; [|done]. by apply sweeping_remove.
  - intros [] s' [(visited & (Hs & Hr1 & Hr2) & Hv) Hf]. split_and!; [by exists visited|done..].
Qed.

(** ** After a crash *)

Definition bad_blob (d : Disk) (sum : string) : Prop :=
  exists c a t, blob d sum = Some (File c a t) /\ Token.hex_encode (sha256_sum c) <> sum.

Lemma wp_crash_walk since s :
  wp (walkBlobs (crash_blob since) (fun bad _ => ret bad) []) (fun bad s' => same s s' /\ Forall (bad_blob (disk s)) bad) (fun _ s' => disk s' = disk s) s.
Proof.
  set (I := fun (_ : list string) (bad : list string) d r => d = disk s /\ r = report s /\ Forall (bad_blob (disk s)) bad).
  eapply wp_mono; [apply (wp_walkBlobs _ _ I (fun d _ => d = disk s) (blob_entries (disk s)))|..]; try done.
  - by intros visited bad d r (-> & _).
  - by intros visited bad d r name (-> & _) _.
  - intros visited bad s1 name sum c dk t (Hd & Hr & Hb) Hn Hsum Hbl.
    assert (Hbl' : blob (disk s) sum = Some (File c dk t)) by (pose proof (proj1 (blob_sum_name _ _) Hsum) as [<- _]; by rewrite blob_entry).
    unfold crash_blob, lstatBlob. wp_step. wp_step. wp_step; [|done]. wp_step. wp_step. rewrite Hd, Hbl'. wp_step. cbv zeta.
    destruct (Before t since); [wp_step; by split|]. wp_step. unfold hashFile. wp_step. wp_step; [|done]. wp_step. wp_step. rewrite Hbl'.
    wp_step. wp_step; [|done]. wp_step. wp_step. split; [|cbn [faults] in *; auto]. split_and!; [done..|].
    destruct (str_eqb _ _) eqn:Ee; [done|]. apply Forall_app. split; [done|]. apply Forall_singleton. exists c, dk, t. split; [done|].
    intros E. by rewrite E, str_eqb_refl in Ee.
  - intros bad s' [(visited & (Hd & Hr & Hb) & _) Hf]. by split.
Qed.

(** A bad blob has moved to quarantine; the rest is untouched. *)
Record quarantined (d0 d : Disk) : Prop := MkQuarantined {
  qu_snapshots : d_snapshots d = d_snapshots d0;
  qu_corrupt : d_corrupt d0 ⊆ d_corrupt d;
  qu_seq : d_seq d = d_seq d0;
  qu_blobs : forall sum, blob d sum = blob d0 sum
    \/ (blob d sum = None /\ bad_blob d0 sum /\ exists dst n, blob d0 sum = Some n /\ d_corrupt d !! dst = Some n)
}.

Lemma quarantined_refl d0 d : d_snapshots d = d_snapshots d0 -> d_blobs d = d_blobs d0 -> d_corrupt d = d_corrupt d0 -> d_seq d = d_seq d0 -> quarantined d0 d.
Proof. intros Ha Hb Hc Hq. constructor; [done|by rewrite Hc|done|]. intros sum. left. unfold blob. by rewrite Hb. Qed.

Lemma wp_quarantine_from n : forall i sum d0 (s : St GCResult), quarantined d0 (disk s) -> bad_blob d0 sum ->
  wp (quarantine_from n i sum) (fun _ s' => quarantined d0 (disk s') /\ report s' = report s /\ (faults s = [] -> faults s' = []))
     (fun _ s' => quarantined d0 (disk s')) s.
Proof.
  induction n as [|n IH]; intros i sum d0 s Hq Hbad; cbn [quarantine_from]; [done|].
  assert (Hnext : forall s1, disk s1 = disk s -> report s1 = report s -> (faults s = [] -> faults s1 = []) -> wp (quarantine_from n (i + 1) sum)
    (fun _ s' => quarantined d0 (disk s') /\ report s' = report s /\ (faults s = [] -> faults s' = [])) (fun _ s' => quarantined d0 (disk s')) s1).
  { intros s1 Hd Hr Hf. eapply wp_mono; [apply IH; [by rewrite Hd|done]|..|done]. intros [] s' (? & ? & ?). split_and!; [done|congruence|auto]. }
  wp_step. apply wp_attempt. unfold lstatCorrupt. wp_step. wp_step; [|by apply Hnext]. wp_step. wp_step.
  destruct (d_corrupt (disk s) !! corrupt_name sum i) as [nd|] eqn:Ec; wp_step; [by apply Hnext|].
  wp_step. wp_step; [|done]. wp_step. wp_step. destruct (blob (disk s) sum) as [node|] eqn:Eb; wp_step; [|done].
  split; [|cbn [faults] in *; auto]. destruct Hq as [Ha Hc Hs Hb]. constructor.
  - done.
  - cbn [d_corrupt move_blob set_blobs]. etrans; [exact Hc|]. by apply insert_subseteq.
  - done.
  - intros t. rewrite blob_move. destruct (decide (t = sum)) as [->|Hne].
    + right. destruct (Hb sum) as [E|(E & _)]; [|congruence]. split_and!; [done|done|]. exists (corrupt_name sum i), node.
      split; [congruence|]. cbn [d_corrupt move_blob set_blobs]. apply lookup_insert_eq.
    + destruct (Hb t) as [E|(E & Hbd & dst & n' & En & Ed)]; [by left|]. right. split_and!; [done|done|]. exists dst, n'. split; [done|].
      cbn [d_corrupt move_blob set_blobs]. rewrite lookup_insert_ne; [done|]. intros E'. congruence.
Qed.

Lemma wp_quarantine_all bad : forall d0 s, quarantined d0 (disk s) -> Forall (bad_blob d0) bad ->
  wp (quarantine_all bad) (fun _ s' => quarantined d0 (disk s') /\ g_Evicted (report s') = g_Evicted (report s) /\ g_Deleted (report s') = g_Deleted (report s)
        /\ (faults s = [] -> faults s' = []))
     (fun _ s' => quarantined d0 (disk s')) s.
Proof.
  induction bad as [|sum bad IH]; intros d0 s Hq Hb; cbn [quarantine_all]; [by wp_step|]. apply Forall_cons in Hb as [Hs Hb].
  wp_step. unfold quarantine. wp_step. wp_step; [|done]. eapply wp_mono; [by apply (wp_quarantine_from 1000 0 sum d0)|..|done].
  intros [] s1 (Hq1 & Hr1 & Hf1). wp_step. wp_step. eapply wp_mono; [by apply (IH d0)|..|done]. intros [] s2 (Hq2 & Hr2 & Hr3 & Hf2).
  cbn [report faults] in *. rewrite Hr2, Hr3, Hr1. split_and!; [done..|auto].
Qed.

Lemma wp_clearCrash s :
  wp clearCrash (fun _ s' => quarantined (disk s) (disk s') /\ g_Evicted (report s') = g_Evicted (report s) /\ g_Deleted (report s') = g_Deleted (report s)
        /\ (faults s = [] -> faults s' = []))
     (fun _ s' => quarantined (disk s) (disk s')) s.
Proof.
  unfold clearCrash. wp_step. wp_step; [|by apply quarantined_refl]. wp_step. wp_step. destruct (d_dirty (disk s)) as [marker|].
  2: { wp_step. by split; [apply quarantined_refl|]. }
  cbv zeta. wp_step. eapply wp_mono; [apply wp_crash_walk|..]; cbn [disk report faults]; [intros bad s1 [(Hd & Hr & Hf) Hb]|intros e s1 Hd; by apply quarantined_refl; rewrite Hd].
  cbn [disk report faults] in *. wp_step. eapply wp_mono; [apply (wp_quarantine_all bad (disk s)); [by apply quarantined_refl; rewrite Hd|done]|..|done].
  intros [] s2 (Hq & Hr1 & Hr2 & Hf2). wp_step. wp_step; [|done]. wp_step. cbn [faults] in *. rewrite Hr1, Hr2, Hr. split_and!; [|done|done|auto].
  destruct Hq as [Ha Hc Hs Hbl]. by constructor.
Qed.

(** ** The whole collection *)

(** What no collection may break: a blob that a manifest still on the disk
    refers to is where it was, or its bytes were not its digest's and it is in
    quarantine. *)
Definition safe (d0 d : Disk) : Prop :=
  forall id h es e n, holds d id h es -> e ∈ es -> referencesBlob e = true -> blob d0 (e_SHA256 e) = Some n ->
    blob d (e_SHA256 e) = Some n \/ (bad_blob d0 (e_SHA256 e) /\ exists dst, d_corrupt d !! dst = Some n).

(** Wherever a collection stops: besides that, the mark of the sequence numbers
    is as it was and no manifest is new or changed. *)
Record sound (d0 d : Disk) : Prop := MkSound {
  so_safe : safe d0 d;
  so_seq : d_seq d = d_seq d0;
  so_dir : d_snapshots d = NotDir -> d_snapshots d0 = NotDir;
  so_manifests : forall id, manifest d id = manifest d0 id \/ manifest d id = None
}.

Lemma pruned_sound d0 d : pruned d0 d -> sound d0 d.
Proof. intros [Hb _ Hs Hd Hm]. constructor; [|done..]. intros id h es e n _ _ _ Hn. left. unfold blob. by rewrite Hb. Qed.

(** Losing manifests first changes nothing. *)
Lemma sound_pruned d0 d1 d : pruned d0 d1 -> sound d1 d -> sound d0 d.
Proof.
  intros Hp [Hs Hq Hd Hm]. constructor.
  - intros id h es e n Hh He Hr Hn. assert (Hb : forall sum, blob d1 sum = blob d0 sum) by (intros sum; unfold blob; by rewrite (pr_blobs _ _ Hp)).
    rewrite <- Hb in Hn. destruct (Hs id h es e n Hh He Hr Hn) as [?|[(c & a & t & Hc & Hhash) Hdst]]; [by left|]. right. split; [|done].
    exists c, a, t. by rewrite <- Hb.
  - by rewrite Hq, (pr_seq _ _ Hp).
  - intros E. by apply Hp, Hd.
  - intros id. destruct (Hm id) as [->|]; [apply Hp|by right].
Qed.

Lemma holds_snapshots d d' id h es : d_snapshots d' = d_snapshots d -> holds d' id h es -> holds d id h es.
Proof. intros E. unfold holds, open_of, manifest. by rewrite E. Qed.

Lemma holds_fun d id h es h' es' : holds d id h es -> holds d id h' es' -> es' = es.
Proof. intros (r & Hr & _ & Hy) (r' & Hr' & _ & Hy'). rewrite Hr in Hr'. injection Hr' as <-. by destruct (yields_fun _ _ _ Hy _ _ Hy'). Qed.

Lemma holds_manifest d id h es : holds d id h es -> ValidID id = true /\ is_Some (manifest d id).
Proof. intros (r & Hr & _). split; [by eapply open_of_valid|]. unfold open_of in Hr. by destruct (manifest d id). Qed.

Lemma manifest_snapshots d d' id : d_snapshots d' = d_snapshots d -> manifest d' id = manifest d id.
Proof. unfold manifest. by intros ->. Qed.

(** From the sweep on: every manifest left has its blobs in the filter. *)
Lemma swept_sound bf d0 d1 d : pruned d0 d1 -> (forall id h es, holds d1 id h es -> marks bf es) -> swept_safely bf d1 d -> sound d0 d.
Proof.
  intros Hp Hm (Hs & _ & Hq & Hb). constructor.
  - intros id h es e n Hh He Hr Hn. left. apply (holds_snapshots d1) in Hh; [|done]. specialize (Hm _ _ _ Hh).
    unfold marks in Hm. rewrite Forall_forall in Hm. rewrite Hb by (by apply Hm). unfold blob in *. by rewrite (pr_blobs _ _ Hp).
  - by rewrite Hq, (pr_seq _ _ Hp).
  - rewrite Hs. apply Hp.
  - intros id. rewrite (manifest_snapshots _ _ _ Hs). apply Hp.
Qed.

Lemma quarantined_sound bf d0 d1 d2 d : pruned d0 d1 -> (forall id h es, holds d1 id h es -> marks bf es) -> swept_safely bf d1 d2 -> quarantined d2 d -> sound d0 d.
Proof.
  intros Hp Hm Hsw [Hs Hc Hsq Hq]. pose proof (swept_sound _ _ _ _ Hp Hm Hsw) as [Hsafe Hseq Hdir Hman]. constructor.
  - intros id h es e n Hh He Hr Hn. apply (holds_snapshots d2) in Hh; [|done]. destruct (Hsafe _ _ _ _ _ Hh He Hr Hn) as [Hb|[Hbad (dst & Hd)]].
    + destruct (Hq (e_SHA256 e)) as [->|(Hg & Hbad & dst & n' & Hn' & Hd)]; [by left|]. right. assert (n' = n) as -> by congruence.
      split; [|by exists dst]. destruct Hbad as (c & a & t & Hc' & Hh'). exists c, a, t. split; [|done]. congruence.
    + right. split; [done|]. exists dst. by eapply lookup_weaken.
  - by rewrite Hsq.
  - by rewrite Hs.
  - intros id. by rewrite (manifest_snapshots _ _ _ Hs).
Qed.

(** Manifests are never rewritten: one that is there before and after is the
    same. *)
Definition unrewritten (d0 d : Disk) : Prop := forall id c c', manifest d0 id = Some c -> manifest d id = Some c' -> c' = c.

(** The manifests the second phase leaves. *)
Record retains (o : GCOptions) (quiet : Prop) (evict : gset string) (d0 d : Disk) : Prop := MkRetains {
  re_left : exists infos, listed quiet d0 infos /\
    forall id, ValidID id = true -> manifest d id = if decide (is_Some (manifest d0 id) /\ gone (KeepSet infos (o_Keep o)) evict id) then None else manifest d0 id
}.

Lemma retains_snapshots o quiet evict d0 d d' : d_snapshots d' = d_snapshots d -> retains o quiet evict d0 d -> retains o quiet evict d0 d'.
Proof.
  intros E [(infos & Hl & Hm)]. constructor. exists infos. split; [done|]. intros id Hv. rewrite <- (Hm id Hv). unfold manifest. by rewrite E.
Qed.

Lemma wp_apply o p dp s : planned o dp p -> unrewritten dp (disk s) ->
  wp (apply o p) (fun _ s' => sound (disk s) (disk s') /\ retains o (faults s = []) (p_evict p) (disk s) (disk s')) (fun _ s' => sound (disk s) (disk s')) s.
Proof.
  intros [Hok Hmk _ _ _] Hun. unfold apply. wp_step. eapply wp_mono; [apply wp_List|..].
  2: { intros e s1 [(Hd & _) _]. rewrite Hd. by apply pruned_sound, pruned_refl. }
  intros [infos strays] s1 [(Hd1 & Hr1 & Hf1) Hl]. cbn [fst] in Hl. wp_step. wp_step. wp_step. eapply wp_mono; [apply wp_validate_infos|..].
  2: { intros e s2 Hi. apply pruned_sound. apply (pruned_idle _ (MkSt (faults s1) (disk s1) (set_strays strays (report s1)))); [|exact Hi].
       cbn [disk]. rewrite Hd1. by apply pruned_refl. }
  intros _ s2 [(Hd2 & Hr2 & Hf2) _]. cbn [disk report faults] in *. cbv zeta. wp_step.
  assert (Hd12 : disk s2 = disk s) by congruence. eapply wp_mono; [apply (wp_apply_infos _ _ _ _ _ (disk s)); [done|rewrite Hd12; by apply pruned_refl]|..].
  2: { intros e s3 Hp. by apply pruned_sound. }
  intros bf s3 (Hp & Hg & Hman & Hall). rewrite Hd12 in Hman.
  assert (Hm : forall id h es, holds (disk s3) id h es -> marks bf es).
  { intros id h es Hh. pose proof (pruned_holds _ _ _ _ _ Hp Hh) as Hh1. destruct (holds_manifest _ _ _ _ Hh) as [Hv Hsome].
    destruct (holds_manifest _ _ _ _ Hh1) as [_ Hsome1]. assert (Hin : id ∈ i_ID <$> infos) by (by apply (li_ids _ _ _ Hl)).
    assert (Hng : ~ gone (KeepSet infos (o_Keep o)) (p_evict p) id).
    { intros Hgone. rewrite Hman, decide_True in Hsome by done. by destruct Hsome. }
    destruct (Hall id Hin Hng) as [Hpm|(h' & es' & Hh' & Hm')].
    - destruct (Hmk id Hpm) as (h' & es' & Hh' & Hm'). assert (Hd : holds dp id h es).
      { destruct Hh1 as (r & Ho & Hrest). exists r. split; [|done]. destruct (holds_manifest _ _ _ _ Hh') as [_ [c Hc]]. destruct Hsome1 as [c' Hc'].
        pose proof (Hun id c c' Hc Hc') as ->. unfold open_of in *. by rewrite Hc, Hc' in *. }
      rewrite (holds_fun _ _ _ _ _ _ Hh' Hd). by eapply marks_grows.
    - by rewrite (holds_fun _ _ _ _ _ _ Hh' Hh1). }
  assert (Hret : retains o (faults s = []) (p_evict p) (disk s) (disk s3)).
  { constructor. exists infos. split; [done|]. intros id Hv. rewrite Hman. destruct (decide _) as [[Hx Hy]|Hx], (decide _) as [[Hx' Hy']|Hx']; try done; exfalso.
    - apply Hx'. split; [|done]. by apply (li_ids _ _ _ Hl) in Hx as [_ ?].
    - apply Hx. split; [|done]. by apply (li_ids _ _ _ Hl). }
  assert (Hrest : forall s4, disk s4 = disk s3 -> wp (
    perform walkBlobs (sweep_blob bf) (fun u _ => ret u) tt in
    perform clearCrash in
    do g := peek in
    let evicted := Z.of_nat (length (g_Evicted g)) in
    writeGC o (MkGCStatus zeroTime GCOK "" (g_StoreBytes g) (g_BlobCount g) zeroTime evicted
                 (if 0 <? evicted then o_now o else zeroTime)) false)
    (fun _ s' => sound (disk s) (disk s') /\ retains o (faults s = []) (p_evict p) (disk s) (disk s')) (fun _ s' => sound (disk s) (disk s')) s4).
  { intros s4 Hd4. wp_step. eapply wp_mono; [apply wp_sweep|..].
    2: { intros e s5 Hsw. rewrite Hd4 in Hsw. by eapply swept_sound. }
    intros _ s5 [(visited & Hsw & _) _]. rewrite Hd4 in Hsw. apply sweeping_safe in Hsw. wp_step. eapply wp_mono; [apply wp_clearCrash|..].
    2: { intros e s6 Hq. by eapply quarantined_sound. }
    intros _ s6 (Hq & _).
    assert (Hfin : forall s7, idle s6 s7 -> sound (disk s) (disk s7) /\ retains o (faults s = []) (p_evict p) (disk s) (disk s7)).
    { intros s7 [x Hx]. split.
      - pose proof (quarantined_sound _ _ _ _ _ Hp Hm Hsw Hq) as [Hq1 Hq2 Hq3 Hq4]. rewrite Hx. by constructor.
      - eapply retains_snapshots; [|exact Hret]. rewrite Hx. cbn [d_snapshots set_gc]. rewrite (qu_snapshots _ _ Hq). apply Hsw. }
    wp_step. wp_step. cbv zeta. eapply wp_mono; [apply wp_writeGC|..]; [intros _ s7 (Hi & _); by apply Hfin | intros e s7 (Hi & _); by apply Hfin]. }
  wp_step. apply wp_attempt. unfold syncSnapshots. wp_step. wp_step; [|by apply pruned_sound]. wp_step. wp_step.
  destruct (d_snapshots (disk s3)); [by apply wp_fail, Hrest|..]; (wp_step; [by apply Hrest|by apply pruned_sound]).
Qed.

Lemma wp_remove_all names : forall d0 s, pruned d0 (disk s) -> d_snapshots (disk s) = d_snapshots d0 ->
  wp (remove_all names) (fun _ s' => pruned d0 (disk s') /\ d_snapshots (disk s') = d_snapshots d0 /\ (faults s = [] -> faults s' = []))
     (fun _ s' => pruned d0 (disk s')) s.
Proof.
  induction names as [|n names IH]; intros d0 s Hp Hs; cbn [remove_all]; [by wp_step|]. wp_step. wp_step; [|done]. wp_step. wp_step.
  eapply wp_mono; [apply (IH d0); [by apply pruned_refl; [apply Hp..|]|done]|..|done]. cbn [faults] in *. intros _ s' (? & ? & ?). by split_and!; [..|auto].
Qed.

Lemma wp_busy o s : wp (busy o) (fun _ s' => idle s s' /\ g_Busy (report s') = true) (fun _ s' => idle s s') s.
Proof.
  unfold busy. wp_step. wp_step. eapply wp_mono; [apply wp_writeGC|..].
  - intros _ s' (Hi & Hr & _). split; [exact Hi|]. by rewrite Hr.
  - by intros e s' (Hi & _).
Qed.

(** Everything a collection can do. *)
Lemma wp_GC o shared exclusive between s : unrewritten (disk s) (between (disk s)) ->
  wp (GC o shared exclusive between)
     (fun _ s' => (g_Busy (report s') = true /\ (idle s s' \/ sound (between (disk s)) (disk s')))
        \/ exists p, planned o (disk s) p /\ sound (between (disk s)) (disk s') /\ retains o (faults s = []) (p_evict p) (between (disk s)) (disk s'))
     (fun _ s' => idle s s' \/ ((exists p, planned o (disk s) p) /\ sound (between (disk s)) (disk s'))) s.
Proof.
  intros Hun. unfold GC. wp_step; [|left; by apply idle_refl]. destruct shared.
  2: { eapply wp_mono; [apply wp_busy|..]; [intros _ s' [Hi Hb]; left; auto | intros e s' Hi; by left]. }
  2: { wp_step. left. by apply idle_refl. }
  wp_step. eapply wp_mono; [apply wp_plan|..]; [|intros e s' Hi; by left]. intros p s1 [(Hd & Hr & Hf) Hpl]. wp_step. wp_step. rewrite Hd.
  assert (Hrefl : forall s', idle (MkSt (faults s1) (between (disk s)) (report s1)) s' -> sound (between (disk s)) (disk s')).
  { intros s' Hi. apply pruned_sound. eapply pruned_idle; [|exact Hi]. by apply pruned_refl. }
  destruct exclusive.
  - wp_step. unfold cleanTmp. wp_step. wp_step; [|right; split; [by exists p|by apply pruned_sound, pruned_refl]]. wp_step. wp_step.
    eapply wp_mono; [apply (wp_remove_all _ (between (disk s))); [by apply pruned_refl|done]|..].
    2: { intros e s' Hp. right. split; [by exists p|by apply pruned_sound]. }
    intros _ s2 (Hp & Hs & Hf2). cbn [faults] in *. eapply wp_mono; [apply (wp_apply o p (disk s)); [done|]|..].
    + intros id c c' Hc Hc'. apply (Hun id c c' Hc). unfold manifest in *. by rewrite <- Hs.
    + intros _ s3 [Hs3 [(infos & Hl & Hman)]]. right. exists p. split; [done|]. split; [by eapply sound_pruned|]. constructor. exists infos. split.
      * destruct Hl as [Ha Hb Hc Hs0]. constructor; [done| | |done].
        -- intros id. rewrite Hb. unfold manifest. by rewrite Hs.
        -- eapply Forall_impl; [exact Hc|]. unfold told, header_of, open_of, manifest. rewrite Hs. naive_solver.
      * intros id Hv. rewrite (Hman id Hv). unfold manifest. by rewrite Hs.
    + intros e s3 Hs3. right. split; [by exists p|]. by eapply sound_pruned.
  - eapply wp_mono; [apply wp_busy|..]; [intros _ s' [Hi Hb]; left; auto | intros e s' Hi; right; split; [by exists p|auto]].
  - wp_step. right. split; [by exists p|]. by apply pruned_sound, pruned_refl.
Qed.

Lemma run_wp {R A} (m : M R A) Q E (s : St R) r s' : wp m Q E s -> m s = (r, s') -> match r with Ok a => Q a s' | Err e => E e s' end.
Proof. unfold wp. intros Hw Hr. rewrite Hr in Hw. by destruct r. Qed.

(** * Collecting *)

(** C37: A collection never loses a referenced blob. Whichever calls of the
    operating system fail, whoever holds the locks and whatever others do
    between its two phases short of rewriting a manifest, a blob that a manifest
    left on the disk refers to is where it was, or was bad and is in quarantine;
    or nothing but the status file has changed. *)
Theorem referenced_blobs_survive o shared exclusive between s r s' :
  unrewritten (disk s) (between (disk s)) -> GC o shared exclusive between s = (r, s') ->
  idle s s' \/ safe (between (disk s)) (disk s').
Proof.
  intros Hun Hr. pose proof (run_wp _ _ _ _ _ _ (wp_GC o shared exclusive between s Hun) Hr) as Hw.
  destruct r; [destruct Hw as [[_ [?|[? _ _ _]]]|(p & _ & [? _ _ _] & _)]|destruct Hw as [?|[_ [? _ _ _]]]]; auto.
Qed.

(** C38: A collection fails closed: one manifest that does not validate, and it
    deletes nothing and changes nothing but the status file; holding the lock, it
    ends in an error. *)
Theorem invalid_manifest_stops o shared exclusive between s r s' id :
  ValidID id = true -> is_Some (manifest (disk s) id) -> (forall h es, ~ holds (disk s) id h es) ->
  GC o shared exclusive between s = (r, s') ->
  idle s s' /\ (shared = Locked -> exists e, r = Err e).
Proof.
  intros Hv Hm Hbad. unfold GC. destruct (1 <=? Retention.Last (o_Keep o)); [|intros [= <- <-]; split; [by apply idle_refl|by eexists]].
  destruct shared.
  - intros Hr. assert (Hw : wp (plan o) (fun _ _ => False) (stopped_idle s) s).
    { eapply wp_mono; [apply wp_plan|..|done]. intros p s1 [_ Hp]. destruct (pl_valid _ _ _ Hp id Hv Hm) as (h & es & Hh). by apply (Hbad h es). }
    unfold wp in Hw. unfold bind in Hr. destruct (plan o s) as [[p|e] s1]; [done|]. injection Hr as <- <-. split; [exact Hw|]. by exists e.
  - intros Hr. pose proof (run_wp _ _ _ _ _ _ (wp_busy o s) Hr) as Hw. destruct r; [by destruct Hw|by split].
  - intros [= <- <-]. split; [by apply idle_refl|]. by intros.
Qed.

(** A finished collection leaves exactly what retention keeps: when no call
    failed, a manifest is left unless the policy does not retain it or the cap
    evicted it; without a cap none is evicted, and what the cap evicted was not
    the newest, the newest complete, the newest vm-off or a pinned snapshot of
    those kept when the plan was made. *)
Theorem collection_leaves_the_retained o between s s' :
  unrewritten (disk s) (between (disk s)) -> faults s = [] -> GC o Locked Locked between s = (Ok tt, s') -> g_Busy (report s') = false ->
  exists infos evict, listed True (between (disk s)) infos
    /\ (forall id, ValidID id = true -> manifest (disk s') id = if decide (is_Some (manifest (between (disk s)) id) /\ gone (KeepSet infos (o_Keep o)) evict id)
                                                                then None else manifest (between (disk s)) id)
    /\ (o_MaxStore o <= 0 -> evict = ∅)
    /\ exists seen, Forall (told False (disk s)) seen
         /\ forall id i, id ∈ evict -> spared (kept_infos seen (KeepSet seen (o_Keep o))) i -> i_ID i <> id.
Proof.
  intros Hun Hf Hr Hb. pose proof (run_wp _ _ _ _ _ _ (wp_GC o Locked Locked between s Hun) Hr) as [[Hbusy _]|(p & [_ _ _ Hcap (seen & Hseen & Hev)] & _ & [(infos & Hl & Hman)])]; [congruence|].
  exists infos, (p_evict p). split_and!; [|done|done|].
  - destruct Hl as [H1' H2' H3' H4']. constructor; [done|done| |done]. eapply Forall_impl; [exact H3'|]. unfold told. naive_solver.
  - exists seen. split; [done|]. intros id i Hid Hi. by apply (Hev id Hid).
Qed.

End Gc.

End Gc.
