(* ===== verification/Deletion.v ===== *)
(** Naming, numbering and deleting snapshots of the tree-backup store
    ([internal/treebackup/store.go], [Delete] of [gc.go]): the next sequence
    number and its high-water mark, free ids, references such as [latest~2], and
    the deletion of named snapshots. *)

From stdpp Require Import sorting.
From S2P Require Import Prelude Go Token TreePath ManifestCodec ManifestEntry ManifestHeader Manifest ManifestRound ManifestFile EntryTypes Retention Store Blobs Gc.

Module Deletion.
Import TreePath ManifestCodec ManifestEntry ManifestHeader Manifest ManifestRound ManifestFile EntryTypes Retention Store Blobs Gc.
Open Scope store_scope.

(** [strconv.ParseUint(_, 10, 64)]. *)
Definition ParseUint (s : string) : option Z :=
  if negb (is_empty s) && string_forallb is_digit s && (dec_val s 0 <? 2 ^ 64) then Some (dec_val s 0) else None.

Definition NewSeqFile (seq : Z) : bytes := format_uint seq +:+ newline.

(** The two-digit and wider fields of [time.Format]. *)
Fixpoint pad (n : nat) (v : Z) (acc : string) : string :=
  match n with O => acc | S n => pad n (v / 10) (String (digit (v mod 10)) acc) end.

(** Month and day of the month, from the day of a year that starts in March. *)
Definition month_day (doy : Z) : Z * Z :=
  let mp := (5 * doy + 2) / 153 in
  (if mp <? 10 then mp + 3 else mp - 9, doy - (153 * mp + 2) / 5 + 1).

(** [t.UTC().Format("20060102T150405Z")], for the years of four digits. *)
Definition formatID (t : Time) : string :=
  let days := day_of t in
  let secs := (t - unixEpoch - days * day_ns) / Second in
  let '(month, day) := month_day (march_year days).2 in
  pad 4 (year_of days) (pad 2 month (pad 2 day ("T" +:+ pad 2 (secs / 3600) (pad 2 (secs / 60 mod 60) (pad 2 (secs mod 60) "Z"))))).

Example id_of_new_year : formatID (UnixTime (20454 * day_ns + 11045 * Second + 7)) = "20260101T030405Z".
Proof. reflexivity. Qed.
Example id_of_leap_day : formatID (UnixTime (19782 * day_ns + 86399 * Second)) = "20240229T235959Z".
Proof. reflexivity. Qed.

Section Deletion.
Context `{StdBase64, NanoTime, SHA256}.

Section Numbering.
Context {R : Type}.

(** [readSmall(seqName, 32)], decoded. *)
Definition readSeq : M R Z :=
  perform call in
  do d := get in
  match d_seq d with
  | None => ret 0
  | Some b =>
    require (len b <=? 32) else fail (Failure "seq is too large") in
    match ParseUint (TrimSpace b) with Some v => ret v | None => fail (Failure "seq is corrupt") end
  end.

Definition highest (infos : list ManifestInfo) (high : Z) : Z :=
  foldl (fun high i => match i_Header i with Some h => if high <? h_Seq h then h_Seq h else high | None => high end) high infos.

Definition NextSeq : M R Z :=
  do high := readSeq in
  do (infos, _) := List in
  ret ((highest infos high + 1) mod 2 ^ 64).

(** [replaceFile]: the rename of the new content, and the [fsync] of the
    directory. *)
Definition RecordSeq (seq : Z) : M R unit :=
  perform call in perform update (set_seq (Some (NewSeqFile seq))) in call.

(** The loop of [FreeID] from the candidate [i]. *)
Fixpoint free_id (n : nat) (i : Z) (base : string) : M R string :=
  match n with
  | O => fail (Failure "no free id")
  | S n =>
    let id := if i =? 1 then base else base +:+ "-" +:+ format_int i in
    perform call in
    do d := get in
    match d_snapshots d with
    | IsDir entries => match entries !! manifestName id with Some _ => free_id n (i + 1) base | None => ret id end
    | NoDir => ret id
    | NotDir => fail (Failure "not a directory")
    end
  end.
Definition FreeID (t : Time) : M R string := free_id 999 1 (formatID t).

(** [strconv.Atoi] of what [strconv.Itoa] writes back the same, when not
    negative. *)
Definition plain_number (s : string) : option Z :=
  match ParseUint s with Some v => if (v <? 2 ^ 63) && str_eqb (format_int v) s then Some v else None | None => None end.

Definition Resolve (ref : string) : M R string :=
  do (infos, _) := List in
  let valid := filter (fun i => is_valid i = true) infos in
  let nth back :=
    if Z.of_nat (length valid) <=? back then fail (Failure "no such snapshot")
    else match valid !! (length valid - 1 - Z.to_nat back)%nat with Some i => ret (i_ID i) | None => fail (Failure "no such snapshot") end in
  if str_eqb ref "latest" then nth 0
  else match CutPrefix ref "latest~" with
  | (rest, true) => match plain_number rest with Some n => nth n | None => fail (Failure "bad snapshot reference") end
  | (_, false) =>
    if ValidID ref then
      if existsb (fun i => str_eqb (i_ID i) ref) valid then ret ref else fail (Failure "no such snapshot")
    else fail (Failure "bad snapshot reference")
  end.

End Numbering.

(** [slices.Compact]. *)
Fixpoint compact (l : list string) : list string :=
  match l with
  | a :: l' => match l' with b :: _ => if str_eqb a b then compact l' else a :: compact l' | [] => [a] end
  | [] => []
  end.

Fixpoint lstat_all (ids : list string) : GM unit :=
  match ids with
  | [] => ret tt
  | id :: ids => perform lstatManifest id in lstat_all ids
  end.

Fixpoint remove_ids (ids : list string) : GM unit :=
  match ids with
  | [] => ret tt
  | id :: ids => perform Remove_manifest id in perform log (add_deleted id) in remove_ids ids
  end.

Definition Delete `{MapHash} (ids : list string) (o : GCOptions) (exclusive : lock_outcome) : GM unit :=
  require (1 <=? Retention.Last (o_Keep o)) else fail (Failure "keep.last must be at least 1") in
  require (forallb ValidID ids) else fail (Failure "bad snapshot id") in
  match exclusive with
  | LockBusy => fail (Failure "busy")
  | LockFailed => fail IOError
  | Locked =>
    perform lstat_all ids in
    do next := NextSeq in
    perform RecordSeq ((next - 1) mod 2 ^ 64) in
    perform remove_ids (compact (merge_sort name_le ids)) in
    perform syncSnapshots in
    do p := plan o in
    apply o p
  end.

(** * The sequence file *)

Lemma digit_value c : is_digit c = true -> 48 <= byte_val c <= 57.
Proof. unfold is_digit. lia. Qed.

Lemma digit_chunks d rest : string_forallb is_digit d = true ->
  exists cs, chunks (d +:+ rest) = cs ++ chunks rest /\ foldr (fun c acc => c.2 +:+ acc) "" cs = d /\ Forall (fun c => 48 <= c.1 <= 57) cs /\ length cs = String.length d.
Proof.
  induction d as [|c d IH]; [by exists []|]. cbn [string_forallb]. intros [Hc%digit_value Hd]%andb_prop. destruct (IH Hd) as (cs & Ec & Ef & Ha & El).
  exists ((byte_val c, String c "") :: cs). rewrite string_app_cons, chunks_cons. unfold decode_rune. rewrite (proj2 (Z.ltb_lt (byte_val c) 128)) by lia.
  cbn [foldr snd app length String.length]. rewrite Ec, Ef, El. split_and!; [done|done|by constructor|done].
Qed.

Lemma drop_no_space c cs : 48 <= c.1 <= 57 -> drop_spaces (c :: cs) = c :: cs.
Proof.
  destruct c as [r b]. cbn [fst drop_spaces]. intros Hr. destruct (IsSpace r) eqn:E; [|done]. exfalso. revert E. unfold IsSpace.
  rewrite bool_decide_eq_false_2 by (rewrite !elem_of_cons, elem_of_nil; lia). lia.
Qed.

Lemma TrimSpace_line d : string_forallb is_digit d = true -> d <> "" -> TrimSpace (d +:+ newline) = d.
Proof.
  intros Hd Hne. destruct (digit_chunks d newline Hd) as (cs & Ec & Ef & Ha & El). unfold TrimSpace. rewrite Ec.
  destruct cs as [|c cs]; [by destruct d|]. pose proof (Forall_inv Ha) as Hc. rewrite <- app_comm_cons, drop_no_space, app_comm_cons by done.
  change (chunks newline) with [(10, newline)]. rewrite reverse_snoc.
  change (drop_spaces ((10, newline) :: reverse (c :: cs))) with (drop_spaces (reverse (c :: cs))).
  destruct (reverse (c :: cs)) as [|x l] eqn:Er; [by apply (f_equal length) in Er; rewrite length_reverse in Er|].
  assert (Hx : 48 <= x.1 <= 57).
  { rewrite Forall_forall in Ha. apply Ha. rewrite <- elem_of_reverse, Er. by left. }
  by rewrite drop_no_space, <- Er, reverse_involutive.
Qed.

Lemma seq_file_round v : uint64_range v -> ParseUint (TrimSpace (NewSeqFile v)) = Some v.
Proof.
  intros Hv. destruct (format_uint_spells v Hv) as [H1' H2' H3' _]. unfold NewSeqFile. rewrite TrimSpace_line by done. unfold ParseUint.
  rewrite H1', H3', (proj2 (is_empty_false _) H2'), (proj2 (Z.ltb_lt v (2 ^ 64))) by (unfold uint64_range in Hv; lia). done.
Qed.

Lemma seq_file_small v : len (NewSeqFile v) <= 32.
Proof. unfold NewSeqFile, len. rewrite str_length_app. pose proof (uint_digits_length 20 v ""). unfold format_uint. cbn [String.length newline] in *. lia. Qed.

Lemma ParseUint_range s v : ParseUint s = Some v -> uint64_range v.
Proof.
  unfold ParseUint. destruct (negb _ && string_forallb is_digit s) eqn:Ed; [|done]. cbn [andb]. destruct (Z.ltb_spec (dec_val s 0) (2 ^ 64)); [|done].
  intros [= <-]. apply andb_prop in Ed as [_ Ed]. pose proof (dec_val_nonneg s Ed 0 ltac:(lia)). unfold uint64_range. lia.
Qed.

(** * The high-water mark *)

Definition recorded (d : Disk) : option Z :=
  match d_seq d with None => Some 0 | Some b => if len b <=? 32 then ParseUint (TrimSpace b) else None end.

(** The highest sequence number recorded or in use. *)
Definition high_water (d : Disk) (m : Z) : Prop :=
  exists v, recorded d = Some v /\ v <= m /\ (forall id h, header_of d id = Some h -> h_Seq h <= m)
    /\ (m = v \/ exists id h, header_of d id = Some h /\ h_Seq h = m).

Lemma high_water_fun d m m' : high_water d m -> high_water d m' -> m = m'.
Proof.
  intros (v & Hv & Hle & Hall & Hex) (v' & Hv' & Hle' & Hall' & Hex'). rewrite Hv in Hv'. injection Hv' as <-.
  destruct Hex as [->|(id & h & Hh & <-)], Hex' as [->|(id' & h' & Hh' & <-)]; [done| | |]; apply Z.le_antisymm; eauto; done.
Qed.

Lemma header_of_valid d id h : header_of d id = Some h -> ValidID id = true /\ is_Some (manifest d id).
Proof.
  unfold header_of. destruct (open_of d id) as [r|] eqn:E; [|done]. intros _. split; [by eapply open_of_valid|].
  unfold open_of in E. by destruct (manifest d id).
Qed.

Lemma highest_spec infos : forall high,
  high <= highest infos high /\ (forall i h, i ∈ infos -> i_Header i = Some h -> h_Seq h <= highest infos high)
  /\ (highest infos high = high \/ exists i h, i ∈ infos /\ i_Header i = Some h /\ h_Seq h = highest infos high).
Proof.
  induction infos as [|j infos IH]; intros high; cbn [highest foldl].
  { split_and!; [lia| |by left]. intros i h Hi. by apply elem_of_nil in Hi. }
  fold (highest infos (match i_Header j with Some h => if high <? h_Seq h then h_Seq h else high | None => high end)).
  set (high' := match i_Header j with Some h => if high <? h_Seq h then h_Seq h else high | None => high end).
  destruct (IH high') as (Hle & Hall & Hex).
  assert (Hh : high <= high' /\ (forall h, i_Header j = Some h -> h_Seq h <= high') /\ (high' = high \/ exists h, i_Header j = Some h /\ h_Seq h = high')).
  { unfold high'. destruct (i_Header j) as [h|]; [|split_and!; [lia|done|by left]]. destruct (Z.ltb_spec high (h_Seq h)); split_and!; try lia.
    - intros ? [= <-]. lia.
    - right. by exists h.
    - intros ? [= <-]. lia. }
  destruct Hh as (H1' & H2' & H3'). split_and!; [lia| |].
  - intros i h [->|Hi]%elem_of_cons Hh; [specialize (H2' h Hh); lia|by apply (Hall i)].
  - destruct Hex as [->|(i & h & Hi & Hh & E)]; [|right; exists i, h; split_and!; [by right|done|done]].
    destruct H3' as [->|(h & Hh & E)]; [by left|]. right. exists j, h. split_and!; [by left|done|done].
Qed.

Lemma listed_highest d infos v : listed True d infos -> recorded d = Some v -> high_water d (highest infos v).
Proof.
  intros [Hnd Hids Htold _] Hv. destruct (highest_spec infos v) as (Hle & Hall & Hex). rewrite Forall_forall in Htold. exists v. split_and!; [done|done| |].
  - intros id h Hh. destruct (header_of_valid _ _ _ Hh) as [Hvid Hm]. assert (Hin : id ∈ i_ID <$> infos) by (by apply Hids).
    apply list_elem_of_fmap in Hin as (i & -> & Hi). apply (Hall i h Hi). destruct (Htold i Hi) as [->|[? _]]; [done|tauto].
  - destruct Hex as [->|(i & h & Hi & Hh & E)]; [by left|]. right. exists (i_ID i), h. split; [|done].
    destruct (Htold i Hi) as [E'|[? _]]; [by rewrite <- E'|tauto].
Qed.

Section NumberingSpec.
Context {R : Type}.

Lemma wp_readSeq (s : St R) :
  wp readSeq (fun v s' => same s s' /\ recorded (disk s) = Some v) (fun _ s' => disk s' = disk s /\ (faults s = [] -> recorded (disk s) = None)) s.
Proof.
  unfold readSeq, recorded. wp_step. wp_step; [|by split]. wp_step. wp_step. destruct (d_seq (disk s)) as [b|]; [|by wp_step].
  destruct (len b <=? 32); [|by wp_step; split]. destruct (ParseUint (TrimSpace b)); wp_step; by split.
Qed.

Lemma wp_NextSeq (s : St R) : faults s = [] ->
  wp NextSeq (fun n s' => same s s' /\ exists m, high_water (disk s) m /\ n = (m + 1) mod 2 ^ 64)
     (fun _ s' => disk s' = disk s /\ (recorded (disk s) = None \/ d_snapshots (disk s) = NotDir)) s.
Proof.
  intros Hf. unfold NextSeq. wp_step. eapply wp_mono; [apply wp_readSeq|..]; [|intros e s1 [Hd Hr]; split; [done|left; by apply Hr]].
  intros v s1 [(Hd & Hr & Hf1) Hv]. wp_step. eapply wp_mono; [apply wp_List|..].
  - intros [infos strays] s2 [(Hd2 & Hr2 & Hf2) Hl]. cbn [fst] in Hl. wp_step. split; [split_and!; [congruence|congruence|auto]|].
    exists (highest infos v). split; [|done]. apply listed_highest; [|done]. rewrite Hd in Hl. destruct Hl as [Ha Hb Hc Hs0]. constructor; [done|done| |done].
    eapply Forall_impl; [exact Hc|]. unfold told. intros i [?|[Hx _]]; [by left|]. exfalso. apply Hx. by apply Hf1.
  - intros e s2 [(Hd2 & _) Hn]. split; [congruence|]. right. rewrite <- Hd. apply Hn. by apply Hf1.
Qed.

(** Without failing calls, the next number is a function of the disk. *)
Lemma NextSeq_value (s : St R) m : faults s = [] -> high_water (disk s) m -> d_snapshots (disk s) <> NotDir ->
  exists s', NextSeq s = (Ok ((m + 1) mod 2 ^ 64), s').
Proof.
  intros Hf Hm Hs. pose proof (wp_NextSeq s Hf) as Hw. unfold wp in Hw. destruct (NextSeq s) as [[n|e] s'].
  - destruct Hw as [_ (m' & Hm' & ->)]. rewrite (high_water_fun _ _ _ Hm Hm'). by exists s'.
  - destruct Hw as [_ [Hx|Hx]]; [|done]. destruct Hm as (v & Hv & _). congruence.
Qed.

End NumberingSpec.

Lemma decoded_seq line h : decodeHeader line = Ok h -> uint64_range (h_Seq h).
Proof.
  unfold decodeHeader. destruct (object headerKeys header_field zeroHeader line) as [[[h' seen] s]|] eqn:Eo; cbn [res_bind]; [|done].
  destruct (scan_end s); cbn [res_bind]; [|done]. destruct (requireAll _ _ _); cbn [res_bind]; [|done]. destruct (negb _); [|done].
  destruct (checkHeader h'); cbn [res_bind]; [|done]. intros [= <-].
  apply (object_inv headerKeys header_field (fun h _ => uint64_range (h_Seq h)) _ _ _ _ _ Eo); [unfold uint64_range; simpl; lia|].
  clear. intros k h seen s h' s' _ _ Hh. do 23 (destruct k as [|k];
    [ cbn [header_field]; match goal with |- context [res_bind ?m _] => destruct m as [[v s1]|] eqn:Ev; cbn [res_bind]; [|done] end;
      intros [= <- _]; first [done | by eapply uint_typed] |]).
  by intros [= <- _].
Qed.

Lemma header_seq d id h : header_of d id = Some h -> uint64_range (h_Seq h).
Proof.
  unfold header_of, open_of. destruct (manifest d id) as [c|]; [|done]. destruct (NewReader c (len c) id) as [r|] eqn:En; [|done]. intros [= <-].
  apply NewReader_reading in En as (_ & _ & _ & _ & _ & _ & line & rest & _ & Hh). by eapply decoded_seq.
Qed.

Lemma high_water_range d m : high_water d m -> uint64_range m.
Proof.
  intros (v & Hv & _ & _ & [->|(id & h & Hh & <-)]); [|by eapply header_seq]. unfold recorded in Hv. destruct (d_seq d); [|injection Hv as <-; unfold uint64_range; lia].
  destruct (_ <=? _); [|done]. by eapply ParseUint_range.
Qed.

(** * Deleting *)

Lemma elem_of_compact l id : id ∈ compact l <-> id ∈ l.
Proof.
  induction l as [|a l IH]; [done|]. cbn [compact]. destruct l as [|b l]; [done|]. destruct (str_eqb a b) eqn:E.
  - apply str_eqb_eq in E as ->. rewrite IH. set_solver.
  - rewrite !elem_of_cons, IH. set_solver.
Qed.

Lemma wp_lstat_all ids : forall s, wp (lstat_all ids) (fun _ s' => same s s') (fun _ s' => disk s' = disk s) s.
Proof.
  induction ids as [|id ids IH]; intros s; cbn [lstat_all]; [done|]. wp_step.
  eapply (wp_mono _ (fun _ s1 => same s s1) _ (fun _ s1 => disk s1 = disk s)); [|intros _ s1 Hs; cbv beta|done].
  - unfold lstatManifest. repeat wp_step; unfold same; cbn [disk report faults]; tauto.
  - eapply wp_mono; [apply IH|..]; [intros a s2 Hs2; exact (same_store_trans _ _ _ Hs Hs2)|]. intros e s2 Hd. by rewrite Hd, (proj1 Hs).
Qed.

Lemma wp_remove_ids ids : forall d0 s, pruned d0 (disk s) ->
  wp (remove_ids ids) (fun _ s' => pruned d0 (disk s') /\ pruned (disk s) (disk s') /\ forall id, id ∈ ids -> manifest (disk s') id = None)
     (fun _ s' => pruned d0 (disk s')) s.
Proof.
  induction ids as [|id ids IH]; intros d0 s Hp; cbn [remove_ids]; [wp_step; split_and!; [done|by apply pruned_refl|set_solver]|]. wp_step.
  eapply wp_mono; [apply wp_Remove_manifest|..]; [intros _ s1 (Hd & _)|intros e s1 [Hd _]; by rewrite Hd]. wp_step. wp_step.
  assert (Hself : pruned (disk s) (disk s1)) by (rewrite Hd; by apply pruned_remove, pruned_refl).
  eapply wp_mono; [apply (IH d0); cbn [disk]; rewrite Hd; by apply pruned_remove|..|done]. cbn [disk]. intros _ s2 (Hp0 & Hp1 & Hall). split_and!; [done| |].
  - destruct Hself as [A1 A2 A3 A4 A5], Hp1 as [B1 B2 B3 B4 B5]. constructor; [congruence|congruence|congruence|auto|].
    intros id'. destruct (B5 id') as [->|]; [apply A5|by right].
  - intros id' [->|Hid]%elem_of_cons; [|by apply Hall]. destruct (pr_manifests _ _ Hp1 id) as [->|]; [|done].
    rewrite Hd, manifest_remove. by rewrite decide_True.
Qed.

(** Where a deletion can stop: before it changed anything, or after it recorded
    the mark it had found. *)
Definition deleting (quiet : Prop) (d0 d : Disk) : Prop :=
  d = d0 \/ exists n, (quiet -> exists m, high_water d0 m /\ n = (m + 1) mod 2 ^ 64)
                    /\ sound (set_seq (Some (NewSeqFile ((n - 1) mod 2 ^ 64))) d0) d.

Lemma wp_Delete `{MapHash} ids o exclusive s :
  wp (Delete ids o exclusive) (fun _ s' => deleting (faults s = []) (disk s) (disk s') /\ forall id, id ∈ ids -> manifest (disk s') id = None)
     (fun _ s' => deleting (faults s = []) (disk s) (disk s')) s.
Proof.
  unfold Delete. wp_step; [|by left]. wp_step; [|by left]. destruct exclusive; [|by left..].
  wp_step. eapply wp_mono; [apply wp_lstat_all|..]; [intros _ s1 (Hd1 & _ & Hf1)|intros e s1 Hd; by left].
  wp_step. eapply (wp_mono _ (fun n s2 => disk s2 = disk s /\ (faults s = [] -> exists m, high_water (disk s) m /\ n = (m + 1) mod 2 ^ 64)) _ (fun _ s2 => disk s2 = disk s)).
  { destruct (faults s1) as [|b fs] eqn:Ef.
    - eapply wp_mono; [by apply wp_NextSeq|..]; rewrite ?Hd1; [intros n s2 [[Hd _] Hm]|intros e s2 [Hd _]; congruence].
      split; [congruence|auto].
    - unfold NextSeq. wp_step. eapply wp_mono; [apply wp_readSeq|..]; [|intros e s2 [Hd _]; congruence]. intros v s2 [(Hd2 & _) _]. wp_step.
      eapply wp_mono; [apply wp_List|..]; [intros [infos strays] s3 [(Hd3 & _) _]|intros e s3 [(Hd3 & _) _]; congruence]. wp_step.
      split; [congruence|]. intros Hf. by specialize (Hf1 Hf). }
  2: { intros e s2 Hd. by left. }
  intros n s2 [Hd2 Hn]. wp_step. unfold RecordSeq. wp_step. wp_step; [|left; congruence]. wp_step. wp_step. rewrite Hd2.
  set (d0 := set_seq (Some (NewSeqFile ((n - 1) mod 2 ^ 64))) (disk s)).
  assert (Hdel : forall d, sound d0 d -> deleting (faults s = []) (disk s) d) by (intros d Hs; right; by exists n).
  wp_step; [|by apply Hdel, pruned_sound, pruned_refl].
  wp_step. eapply wp_mono; [apply (wp_remove_ids _ d0); by apply pruned_refl|..]; [|intros e s3 Hp; by apply Hdel, pruned_sound].
  intros _ s3 (Hp & _ & Hgone). wp_step. unfold syncSnapshots. wp_step. wp_step; [|by apply Hdel, pruned_sound]. wp_step. wp_step.
  assert (Hrest : forall s4 : St GCResult, disk s4 = disk s3 -> wp (do p := plan o in apply o p)
    (fun _ s' => deleting (faults s = []) (disk s) (disk s') /\ forall id, id ∈ ids -> manifest (disk s') id = None) (fun _ s' => deleting (faults s = []) (disk s) (disk s')) s4).
  { intros s4 Hd4. wp_step. eapply wp_mono; [apply wp_plan|..].
    - intros p s5 [(Hd5 & _) Hpl]. eapply wp_mono; [apply (wp_apply o p (disk s4)); [done|]|..]; rewrite ?Hd5, ?Hd4.
      + intros id c c' Hc Hc'. congruence.
      + intros _ s6 [Hs6 _]. split; [by apply Hdel; eapply sound_pruned|]. intros id Hid.
        destruct (so_manifests _ _ Hs6 id) as [->|]; [|done]. apply Hgone. by rewrite elem_of_compact, merge_sort_Permutation.
      + intros e s6 Hs6. by apply Hdel; eapply sound_pruned.
    - intros e s5 Hi. apply Hdel, pruned_sound. eapply pruned_idle; [|exact Hi]. by rewrite Hd4. }
  destruct (d_snapshots (disk s3)); [by apply wp_fail, Hdel, pruned_sound|..];
    (wp_step; [by apply Hrest|by apply Hdel, pruned_sound]).
Qed.

(** * References and free ids *)

Section Names.
Context {R : Type}.

Lemma valid_last infos : StronglySorted info_le infos -> forall i, last (filter (fun i => is_valid i = true) infos) = Some i ->
  forall j, j ∈ infos -> is_valid j = true -> seq_of j <= seq_of i.
Proof.
  induction 1 as [|j infos _ IH Hj]; [done|]. intros i Hl. rewrite Forall_forall in Hj. rewrite filter_cons in Hl.
  destruct (decide (is_valid j = true)) as [Hv|Hv]; [|intros k [->|Hk]%elem_of_cons; [done|by apply IH]].
  assert (Hle : forall k, k ∈ infos -> is_valid k = true -> seq_of j <= seq_of k).
  { intros k Hk Hvk. specialize (Hj k Hk). unfold info_le, info_leb, is_valid, seq_of in *. destruct (i_Header j) as [g|], (i_Header k) as [h|]; try done.
    apply orb_prop in Hj as [Hj%Z.ltb_lt|[Hj%Z.eqb_eq _]%andb_prop]; lia. }
  destruct (filter (fun i => is_valid i = true) infos) as [|a l] eqn:Ef.
  - injection Hl as <-. intros k [->|Hk]%elem_of_cons Hvk; [lia|]. exfalso. eapply (not_elem_of_nil k). rewrite <- Ef. by apply list_elem_of_filter.
  - rewrite last_cons_cons in Hl. intros k [->|Hk]%elem_of_cons Hvk; [|by apply IH].
    assert (Hi : i ∈ a :: l) by (by apply last_Some_elem_of). rewrite <- Ef in Hi. apply list_elem_of_filter in Hi as [Hvi Hi]. by apply Hle.
Qed.

(** The reference [latest] names the snapshot with the highest sequence
    number. *)
Lemma latest_is_newest (s : St R) id s' : faults s = [] -> Resolve "latest" s = (Ok id, s') ->
  exists h, header_of (disk s) id = Some h /\ forall id' h', header_of (disk s) id' = Some h' -> h_Seq h' <= h_Seq h.
Proof.
  intros Hf Hr. assert (Hw : wp (Resolve "latest") (fun id _ => exists h, header_of (disk s) id = Some h /\ forall id' h', header_of (disk s) id' = Some h' -> h_Seq h' <= h_Seq h) (fun _ _ => True) s).
  { unfold Resolve. wp_step. eapply wp_mono; [apply wp_List|..|done]. intros [infos strays] s1 [Hs [_ Hids Htold Hsorted]]. cbn [fst] in *. rewrite Hf in Htold. cbv zeta.
    change (str_eqb "latest" "latest") with true. cbn iota. set (valid := filter _ infos). destruct (Z.leb_spec (Z.of_nat (length valid)) 0); [done|].
    destruct (valid !! _) as [i|] eqn:Ei; [|done]. wp_step. change (Z.to_nat 0) with 0%nat in Ei. rewrite Nat.sub_0_r in Ei.
    rewrite <- Nat.sub_1_r, <- last_lookup in Ei || (rewrite Nat.sub_1_r, <- last_lookup in Ei).
    rewrite Forall_forall in Htold. assert (Hi : i ∈ valid) by (by apply last_Some_elem_of). apply list_elem_of_filter in Hi as [Hvi Hi].
    assert (Ht : forall j, j ∈ infos -> i_Header j = header_of (disk s) (i_ID j)) by (intros j Hj; destruct (Htold j Hj) as [?|[? _]]; tauto).
    pose proof (Ht i Hi) as Hh. unfold is_valid in Hvi. destruct (i_Header i) as [h|] eqn:Eh; [|done]. exists h. split; [done|]. intros id' h' Hh'.
    destruct (header_of_valid _ _ _ Hh') as [Hv Hm]. assert (Hin : id' ∈ i_ID <$> infos) by (by apply Hids). apply list_elem_of_fmap in Hin as (j & -> & Hj).
    pose proof (valid_last infos Hsorted i Ei j Hj) as Hle. unfold is_valid, seq_of in Hle. rewrite (Ht j Hj), Hh', Eh in Hle. by apply Hle. }
  unfold wp in Hw. by rewrite Hr in Hw.
Qed.

Lemma digits_then_snoc n k : forall s, digits_then (S n) k s = digits_then n (digits_then 1 k) s.
Proof.
  induction n as [|n IH]; intros [|c s]; try done. change (digits_then (S (S n)) k (String c s)) with (is_digit c && digits_then (S n) k s).
  rewrite IH. done.
Qed.

Lemma pad_digits n k : forall v acc, digits_then n k (pad n v acc) = k acc.
Proof.
  revert k. induction n as [|n IH]; intros k v acc; [done|]. cbn [pad]. rewrite digits_then_snoc, IH. cbn [digits_then].
  by rewrite digit_is by (apply Z.mod_pos_bound; lia).
Qed.

(** Whether a text ends as an id does, after its time. *)
Definition id_ends (s : string) : bool :=
  is_empty s || byte_then "-" (fun s => digits_then 1 is_empty s || digits_then 2 is_empty s || digits_then 3 is_empty s) s.

Lemma pad_app n : forall v acc r, pad n v acc +:+ r = pad n v (acc +:+ r).
Proof. induction n as [|n IH]; intros v acc r; cbn [pad]; [done|]. by rewrite IH, string_app_cons. Qed.

Lemma formatID_ends t r : ValidID (formatID t +:+ r) = id_ends r.
Proof.
  unfold formatID. cbv zeta. destruct (month_day _) as [month day]. rewrite !pad_app. unfold ValidID.
  change 8%nat with (4 + (2 + 2))%nat.
  assert (Hadd : forall n m k s, digits_then (n + m) k s = digits_then n (digits_then m k) s).
  { induction n as [|n IH]; intros m k s; [done|]. destruct s as [|c s]; [by destruct n|]. cbn [Nat.add digits_then]. by rewrite IH. }
  rewrite Hadd, pad_digits, Hadd, pad_digits, pad_digits, str_app_assoc, string_app_cons, string_app_nil. unfold byte_then at 1.
  rewrite bool_decide_true by done. cbn [andb]. rewrite !pad_app. change 6%nat with (2 + (2 + 2))%nat. rewrite Hadd, pad_digits, Hadd, pad_digits, pad_digits.
  by rewrite string_app_cons, string_app_nil.
Qed.

Lemma counter_ends i : 1 < i < 1000 -> id_ends ("-" +:+ format_int i) = true.
Proof.
  intros Hi. unfold id_ends. rewrite string_app_cons, string_app_nil. cbn [is_empty byte_then]. apply orb_true_iff. right. unfold byte_then.
  rewrite bool_decide_true by done. cbn [andb]. unfold format_int. rewrite (proj2 (Z.ltb_ge i 0)) by lia. unfold format_uint.
  assert (Hd : forall v, 0 <= v < 10 -> is_digit (digit (v mod 10)) = true) by (intros v Hv; apply digit_is, Z.mod_pos_bound; lia).
  assert (Hm : forall v, is_digit (digit (v mod 10)) = true) by (intros v; apply digit_is, Z.mod_pos_bound; lia).
  cbn [uint_digits]. destruct (Z.ltb_spec i 10) as [H1'|H1']; [cbn [digits_then]; by rewrite Hm|].
  destruct (Z.ltb_spec (i / 10) 10) as [H2'|H2']; [cbn [digits_then]; by rewrite !Hm|].
  destruct (Z.ltb_spec (i / 10 / 10) 10) as [H3'|H3']; [cbn [digits_then]; by rewrite !Hm|].
  exfalso. assert (i / 10 / 10 < 10); [|lia]. rewrite Z.div_div by lia. apply Z.div_lt_upper_bound; lia.
Qed.

(** A free id is well formed, says when its snapshot began, and no manifest has
    it. *)
Lemma free_id_is_free t (s : St R) id s' : FreeID t s = (Ok id, s') ->
  ValidID id = true /\ HasPrefix id (formatID t) = true /\ manifest (disk s) id = None.
Proof.
  assert (Hgen : forall n i (s : St R), 1 <= i -> i + Z.of_nat n <= 1000 ->
    wp (free_id n i (formatID t)) (fun id s' => ValidID id = true /\ HasPrefix id (formatID t) = true /\ manifest (disk s) id = None) (fun _ _ => True) s).
  { induction n as [|n IH]; intros i s0 Hi Hn; cbn [free_id]; [done|]. wp_step. wp_step; [|done]. wp_step. wp_step.
    set (id0 := if i =? 1 then _ else _).
    assert (Hid : ValidID id0 = true /\ HasPrefix id0 (formatID t) = true).
    { unfold id0. destruct (Z.eqb_spec i 1) as [->|Hne].
      - rewrite <- (str_app_nil (formatID t)) at 1 2. rewrite formatID_ends. split; [done|]. apply HasPrefix_app.
      - rewrite formatID_ends, counter_ends by lia. split; [done|]. apply HasPrefix_app. }
    unfold manifest. destruct (d_snapshots (disk s0)) as [| |entries] eqn:Ed; [wp_step; tauto|done|].
    destruct (entries !! manifestName id0) eqn:El; [|wp_step; rewrite El; tauto].
    specialize (IH (i + 1) (MkSt fs (disk s0) (report s0)) ltac:(lia) ltac:(lia)). unfold manifest in IH. cbn [disk] in IH. by rewrite Ed in IH. }
  intros Hr. pose proof (Hgen 999%nat 1 s ltac:(lia) ltac:(lia)) as Hw. unfold wp in Hw. unfold FreeID in Hr. by rewrite Hr in Hw.
Qed.

End Names.

Section Claims.
Context `{MapHash}.

(** Deleting named snapshots keeps what the others refer to. Wherever it
    stops, a blob that a manifest left on the disk refers to is where it was, or
    was bad and is in quarantine; and when it succeeds the named snapshots are
    gone. *)
Theorem delete_keeps_the_rest ids o exclusive s r s' : Delete ids o exclusive s = (r, s') ->
  safe (disk s) (disk s') /\ (r = Ok tt -> forall id, id ∈ ids -> manifest (disk s') id = None).
Proof.
  intros Hr. assert (Hs : forall d, deleting (faults s = []) (disk s) d -> safe (disk s) d).
  { intros d [->|(n & _ & [Hsafe _ _ _])]; [by apply pruned_sound, pruned_refl|exact Hsafe]. }
  pose proof (run_wp _ _ _ _ _ _ (wp_Delete ids o exclusive s) Hr) as Hw. destruct r as [[]|e]; [destruct Hw as [Hd Hg]; auto|].
  split; [by apply Hs|done].
Qed.

(** Deleting snapshots never frees a sequence number. When no call fails,
    the number the next snapshot takes is the same after a deletion as before
    it, however the deletion ends and whichever snapshots it removed. *)
Theorem delete_keeps_the_numbering ids o exclusive d g r s' n s1 :
  Delete ids o exclusive (MkSt [] d g) = (r, s') -> NextSeq (MkSt [] d g) = (Ok n, s1) ->
  exists s2, NextSeq (MkSt [] (disk s') g) = (Ok n, s2).
Proof.
  intros Hr Hn. pose proof (wp_NextSeq (MkSt [] d g) eq_refl) as Hw. unfold wp in Hw. rewrite Hn in Hw. destruct Hw as [Hsame (m & Hm & ->)]. cbn [disk] in *.
  assert (Hdir : d_snapshots d <> NotDir).
  { intros E. revert Hn. unfold NextSeq, List, bind, readSeq, call, get. cbn. unfold bind. cbn. destruct (d_seq d) as [b|]; [destruct (len b <=? 32); [|done]; destruct (ParseUint _); [|done]|]; cbn; by rewrite E. }
  assert (Hdel : deleting True d (disk s')).
  { pose proof (run_wp _ _ _ _ _ _ (wp_Delete ids o exclusive (MkSt [] d g)) Hr) as Hd. cbn [faults disk] in Hd.
    assert (Hq : deleting ([] = [] :> list bool) d (disk s')) by (destruct r; [apply Hd|exact Hd]).
    destruct Hq as [->|(k & Hk & Hs)]; [by left|]. right. exists k. split; [|done]. intros _. by apply Hk. }
  destruct Hdel as [->|(k & Hk & Hs)]; [by apply NextSeq_value|]. destruct (Hk I) as (m' & Hm' & ->). rewrite <- (high_water_fun _ _ _ Hm Hm') in *. clear Hk Hm' m'.
  pose proof (high_water_range _ _ Hm) as Hrange. unfold uint64_range in Hrange.
  assert (Emark : ((m + 1) mod 2 ^ 64 - 1) mod 2 ^ 64 = m).
  { rewrite Zminus_mod_idemp_l. replace (m + 1 - 1) with m by lia. by apply Z.mod_small. }
  rewrite Emark in Hs. apply NextSeq_value; [done| |].
  - cbn [disk]. exists m. split_and!; [|lia| |by left].
    + unfold recorded. rewrite (so_seq _ _ Hs). cbn [d_seq set_seq]. pose proof (seq_file_small m). rewrite (proj2 (Z.leb_le (len (NewSeqFile m)) 32)) by lia.
      by apply seq_file_round.
    + intros id h Hh. destruct Hm as (v & _ & _ & Hall & _). apply (Hall id). unfold header_of, open_of in *.
      destruct (so_manifests _ _ Hs id) as [E|E]; rewrite E in Hh; [exact Hh|done].
  - cbn [disk]. intros E. apply Hdir. by apply (so_dir _ _ Hs).
Qed.

End Claims.

End Deletion.

End Deletion.
