(* ===== verification/BlobWriter.v ===== *)
(** Storing a blob ([internal/treebackup/store.go]): the sink of a snapshot, the
    writer that hashes and copies in one pass and leaves blocks of zeros as
    holes, and its commit, which deduplicates, repairs or charges the new
    blob. *)

From S2P Require Import Prelude Go Token TreePath ManifestCodec ManifestEntry ManifestHeader Manifest ManifestRound ManifestFile Retention Store Blobs.

Module BlobWriter.
Import TreePath ManifestCodec ManifestEntry ManifestHeader Manifest ManifestRound ManifestFile Retention Store Blobs.
Open Scope store_scope.

(** What the filesystem decides: the disk a file takes, its modification time,
    and its free space with the free and the total inodes ([statfs]). *)
Class FileSystem := {
  fs_allocated : bytes -> Z;
  fs_now : Time;
  fs_free : Z * Z * Z
}.

Definition holeBlock : Z := 4096.

Fixpoint zero_bytes (n : nat) : string := match n with O => "" | S n => String NUL (zero_bytes n) end.
Definition zeros_to (n : Z) : string := zero_bytes (Z.to_nat n).
Definition take_bytes (n : nat) (s : string) : string := String.substring 0 n s.

(** [File.WriteAt] and [File.Truncate]: a gap reads as zeros. *)
Definition write_at (content : bytes) (off : Z) (b : bytes) : bytes :=
  let c := content +:+ zeros_to (off - len content) in
  take_bytes (Z.to_nat off) c +:+ b +:+ drop_bytes (Z.to_nat (off + len b)) c.
Definition truncate (content : bytes) (size : Z) : bytes :=
  take_bytes (Z.to_nat size) (content +:+ zeros_to (size - len content)).

Record SinkOptions := MkSinkOptions { so_MinFree : Z; so_Rehash : bool }.
Record BlobResult := MkBlobResult { br_Sum : string; br_Size : Z; br_New : bool; br_Repaired : bool; br_Stored : Z }.

(** The writer: the content of its open file, which [tmp/] names, and the bytes
    it has hashed. *)
Record blobWriter := MkWriter {
  w_file : bytes;
  w_name : string;
  w_hashed : bytes;
  w_n : Z;
  w_stored : Z;
  w_done : bool
}.
Definition set_done (w : blobWriter) : blobWriter := MkWriter (w_file w) (w_name w) (w_hashed w) (w_n w) (w_stored w) true.

Definition ErrDiskLow : serr := Failure "disk low".
Definition ErrNewBudget : serr := Failure "new budget".

Section Writer.
Context `{SHA256, FileSystem} {R : Type}.

(** [createTemp], with the random suffix. *)
Definition createTemp (prefix suffix : string) : M R string :=
  perform call in
  let name := prefix +:+ suffix in
  perform call in
  do d := get in
  match d_tmp d !! name with
  | Some _ => fail (Failure "file exists")
  | None => perform update (fun d => set_tmp (<[name := File "" 0 fs_now]> (d_tmp d)) d) in ret name
  end.

Definition Remove_tmp (name : string) : M R unit :=
  perform call in
  do d := get in
  match d_tmp d !! name with Some _ => update (fun d => set_tmp (delete name (d_tmp d)) d) | None => fail NotExist end.

Definition HasBlob (sum : string) (size : Z) : M R bool :=
  if validSum sum then
    do fi := attempt (lstatRegular sum) in
    ret match fi with Ok (c, _, _) => len c =? size | Err _ => false end
  else ret false.

Definition CheckSpace (o : SinkOptions) : M R unit :=
  perform call in
  let '(free, ffree, files) := fs_free in
  if (0 <? so_MinFree o) && (free <? so_MinFree o) then fail ErrDiskLow
  else if (0 <? files) && (ffree <? files / 100) then fail ErrDiskLow
  else ret tt.

Definition NewBlob (suffix : string) : M R blobWriter :=
  do name := createTemp "blob." suffix in
  ret (MkWriter "" name "" 0 0 false).

(** The loop of [Write] over what is left of its argument. *)
Fixpoint write_loop (fuel : nat) (p : bytes) (w : blobWriter) : M R blobWriter :=
  match fuel with
  | O => ret w
  | S fuel =>
    if is_empty p then ret w
    else
      let k := Z.min (len p) (holeBlock - w_n w mod holeBlock) in
      let b := take_bytes (Z.to_nat k) p in
      let rest := drop_bytes (Z.to_nat k) p in
      if (k <? holeBlock) || negb (str_eqb b (zeros_to holeBlock)) then
        perform call in
        write_loop fuel rest (MkWriter (write_at (w_file w) (w_n w) b) (w_name w) (w_hashed w) (w_n w + k) (w_stored w + k) (w_done w))
      else write_loop fuel rest (MkWriter (w_file w) (w_name w) (w_hashed w) (w_n w + k) (w_stored w) (w_done w))
  end.

Definition Write (p : bytes) (w : blobWriter) : M R blobWriter :=
  require (negb (w_done w)) else fail (Failure "write after commit") in
  write_loop (String.length p) p (MkWriter (w_file w) (w_name w) (w_hashed w +:+ p) (w_n w) (w_stored w) (w_done w)).

Definition Abort_ (w : blobWriter) : M R blobWriter :=
  if w_done w then ret w
  else perform attempt (Remove_tmp (w_name w)) in ret (set_done w).

(** What [Commit] finds at the blob's place. *)
Inductive place := Absent | Damaged | Present.

Definition find_place (o : SinkOptions) (sum : string) (size : Z) : M R place :=
  do fi := attempt (lstatBlob sum) in
  match fi with
  | Err NotExist => ret Absent
  | Err e => fail e
  | Ok Other => fail (Failure "not a regular file")
  | Ok (File c _ _) =>
    if negb (len c =? size) then ret Damaged
    else if so_Rehash o then
      do ok := blobMatches sum in
      ret (if (ok : bool) then Present else Damaged)
    else ret Present
  end.

(** [s.root.Rename(w.name, dst)], over what is there. *)
Definition rename_blob (w : blobWriter) (sum : string) (content : bytes) : M R unit :=
  perform call in
  do d := get in
  match d_tmp d !! w_name w, d_blobs d with
  | Some _, Some m =>
    update (fun d => set_blobs (Some (<[blobName sum := File content (fs_allocated content) fs_now]> m)) (d_corrupt d)
                       (set_tmp (delete (w_name w) (d_tmp d)) d))
  | _, _ => fail NotExist
  end.

(** Clean up after an error. *)
Definition or_remove {A} (w : blobWriter) (m : M R A) : M R A :=
  do r := attempt m in
  match r with
  | Ok a => ret a
  | Err e => perform attempt (Remove_tmp (w_name w)) in fail (Failure ("store blob: " +:+ message e))
  end.

(** The writer is done whatever [Commit] answers. *)
Definition Commit (o : SinkOptions) (maxNew : Z) (w : blobWriter) : M R BlobResult :=
  require (negb (w_done w)) else fail (Failure "blob already finished") in
  let sum := Token.hex_encode (sha256_sum (w_hashed w)) in
  do p := or_remove w (find_place o sum (w_n w)) in
  match p with
  | Present => perform attempt (Remove_tmp (w_name w)) in ret (MkBlobResult sum (w_n w) false false 0)
  | _ =>
    let new := match p with Absent => true | _ => false end in
    let charge := (w_stored w + holeBlock - 1) / holeBlock * holeBlock + holeBlock in
    if new && (maxNew <? charge) then perform attempt (Remove_tmp (w_name w)) in fail ErrNewBudget
    else
      perform or_remove w (
        perform call in    (* Truncate *)
        perform call in    (* Sync *)
        perform call in    (* Chmod *)
        perform call in    (* Close *)
        perform call in    (* Mkdir *)
        rename_blob w sum (truncate (w_file w) (w_n w))) in
      ret (MkBlobResult sum (w_n w) new (negb new) charge)
  end.

(** * Holes lose nothing *)

Lemma zero_bytes_app n m : zero_bytes (n + m) = zero_bytes n +:+ zero_bytes m.
Proof. induction n as [|n IH]; cbn [Nat.add zero_bytes]; [done|]. by rewrite IH, string_app_cons. Qed.

Lemma zero_bytes_length n : String.length (zero_bytes n) = n.
Proof. induction n as [|n IH]; cbn [zero_bytes String.length]; [done|]. by rewrite IH. Qed.

Lemma zeros_add a b : 0 <= a -> 0 <= b -> zeros_to (a + b) = zeros_to a +:+ zeros_to b.
Proof. intros Ha Hb. unfold zeros_to. rewrite <- zero_bytes_app. f_equal. lia. Qed.

Lemma len_zeros n : 0 <= n -> len (zeros_to n) = n.
Proof. intros Hn. unfold zeros_to, len. rewrite zero_bytes_length. lia. Qed.

Lemma take_drop_bytes n s : take_bytes n s +:+ drop_bytes n s = s.
Proof.
  unfold take_bytes, drop_bytes. revert s. induction n as [|n IH]; intros s.
  - rewrite Nat.sub_0_r. assert (E : String.substring 0 0 s = "") by (by destruct s). rewrite E, string_app_nil. clear E.
    induction s as [|c s IHs]; [done|]. cbn [String.length String.substring]. by rewrite IHs.
  - destruct s as [|c s]; [done|]. cbn [String.length Nat.sub]. cbn [String.substring]. rewrite string_app_cons. by rewrite IH.
Qed.

Lemma len_take n s : 0 <= n <= len s -> len (take_bytes (Z.to_nat n) s) = n.
Proof.
  unfold len, take_bytes. intros Hn. assert (Hg : forall k s, (k <= String.length s)%nat -> String.length (String.substring 0 k s) = k).
  { induction k as [|k IH]; intros [|c t]; cbn [String.length String.substring]; try done; [lia|]. intros Hk. by rewrite IH by lia. }
  rewrite Hg by lia. lia.
Qed.

Lemma take_all s : take_bytes (Z.to_nat (len s)) s = s.
Proof. unfold take_bytes, len. rewrite Nat2Z.id. pose proof (substring_app s "") as Hs. by rewrite str_app_nil in Hs. Qed.

Lemma drop_past n s : len s <= n -> drop_bytes (Z.to_nat n) s = "".
Proof.
  unfold drop_bytes, len. intros Hn. replace (String.length s - Z.to_nat n)%nat with 0%nat by lia.
  generalize (Z.to_nat n). clear. induction s as [|c s IH]; intros [|n]; try done. by cbn [String.substring].
Qed.

(** The writer holds the content [c]: what it hashed, and, holes read as zeros,
    what its file will be. *)
Record wrote (w : blobWriter) (c : bytes) : Prop := MkWrote {
  wr_n : w_n w = len c;
  wr_file : len (w_file w) <= w_n w;
  wr_content : w_file w +:+ zeros_to (w_n w - len (w_file w)) = c
}.

Lemma write_at_end f n b : len f <= n -> write_at f n b = (f +:+ zeros_to (n - len f)) +:+ b.
Proof.
  intros Hn. unfold write_at. cbv zeta. set (c := f +:+ zeros_to (n - len f)).
  assert (Hc : len c = n) by (unfold c; rewrite len_app, len_zeros by lia; lia).
  rewrite <- Hc at 1. rewrite take_all, drop_past, str_app_nil; [done|]. rewrite Hc. pose proof (len_nonneg b). lia.
Qed.

Lemma wrote_step (w w' : blobWriter) c b : wrote w c ->
  w_n w' = w_n w + len b -> (w_file w' = write_at (w_file w) (w_n w) b \/ (w_file w' = w_file w /\ b = zeros_to (len b))) -> wrote w' (c +:+ b).
Proof.
  intros [Hn Hf Hc] Hn' Hw. pose proof (len_nonneg b). constructor.
  - by rewrite Hn', Hn, len_app.
  - destruct Hw as [->|[-> _]]; [|lia]. rewrite write_at_end, Hc, len_app, Hn' by done. lia.
  - destruct Hw as [->|[-> Hb]].
    + rewrite write_at_end, Hc, len_app, Hn' by done. replace (w_n w + len b - (len c + len b)) with 0 by lia. by rewrite str_app_nil.
    + rewrite Hn'. replace (w_n w + len b - len (w_file w)) with (w_n w - len (w_file w) + len b) by lia.
      rewrite zeros_add, <- str_app_assoc, Hc, <- Hb by lia. done.
Qed.

Lemma wp_write_loop fuel : forall p w c (s : St R), (String.length p <= fuel)%nat -> wrote w c ->
  wp (write_loop fuel p w) (fun w' s' => same s s' /\ wrote w' (c +:+ p) /\ (w_hashed w', w_name w', w_done w') = (w_hashed w, w_name w, w_done w))
     (fun _ s' => disk s' = disk s) s.
Proof.
  induction fuel as [|fuel IH]; intros p w c s Hp Hw; cbn [write_loop].
  { destruct p; [|by cbn [String.length] in Hp; lia]. wp_step. by rewrite str_app_nil. }
  destruct (is_empty p) eqn:Ee.
  { apply str_eqb_eq in Ee as ->. wp_step. by rewrite str_app_nil. }
  assert (Hpl : 0 < len p). { unfold is_empty in Ee. destruct p; [done|]. unfold len. cbn [String.length]. lia. }
  cbv zeta. set (k := Z.min _ _).
  assert (Hk : 0 < k <= len p). { unfold k, holeBlock. pose proof (Z.mod_pos_bound (w_n w) 4096 ltac:(lia)). lia. }
  set (b := take_bytes (Z.to_nat k) p). set (rest := drop_bytes (Z.to_nat k) p).
  assert (Ebr : b +:+ rest = p) by apply take_drop_bytes. assert (Hbl : len b = k) by (apply len_take; lia).
  assert (Hrl : (String.length rest <= fuel)%nat).
  { apply (f_equal len) in Ebr. rewrite len_app, Hbl in Ebr. unfold len in Ebr, Hk. lia. }
  assert (Hnext : forall w' s1, same s s1 -> wrote w' (c +:+ b) -> (w_hashed w', w_name w', w_done w') = (w_hashed w, w_name w, w_done w) ->
    wp (write_loop fuel rest w') (fun w' s' => same s s' /\ wrote w' (c +:+ p) /\ (w_hashed w', w_name w', w_done w') = (w_hashed w, w_name w, w_done w))
       (fun _ s' => disk s' = disk s) s1).
  { intros w' s1 (Hd & Hr & Hf) Hw' Ew. eapply wp_mono; [by apply (IH rest w' (c +:+ b))|..]; [intros w2 s2 ((Hd2 & Hr2 & Hf2) & Hw2 & Ew2)|intros e s2 Hd2; congruence].
    split_and!; [split_and!; [congruence|congruence|auto]| |congruence]. rewrite <- Ebr, <- str_app_assoc. exact Hw2. }
  destruct ((k <? holeBlock) || negb (str_eqb b (zeros_to holeBlock))) eqn:Eh.
  - wp_step. wp_step; [|done]. apply Hnext; [by split_and!| |done]. eapply wrote_step; [exact Hw|by rewrite Hbl|by left].
  - apply Hnext; [done| |done]. eapply wrote_step; [exact Hw|by rewrite Hbl|]. right. split; [done|].
    apply orb_false_iff in Eh as [Hk2%Z.ltb_ge Hz%negb_false_iff]. apply str_eqb_eq in Hz. rewrite Hz. rewrite len_zeros by (unfold holeBlock; lia). done.
Qed.

(** Truncated to the size, the file is the content. *)
Lemma truncate_content w c : wrote w c -> truncate (w_file w) (w_n w) = c.
Proof. intros [Hn Hf Hc]. unfold truncate. rewrite Hc, Hn. apply take_all. Qed.

(** * Committing *)

(** Only [tmp/] differs. *)
Definition but_tmp (d d' : Disk) : Prop := exists x, d' = set_tmp x d.

Lemma but_tmp_refl d : but_tmp d d.
Proof. exists (d_tmp d). by destruct d. Qed.

Lemma but_tmp_trans d1 d2 d3 : but_tmp d1 d2 -> but_tmp d2 d3 -> but_tmp d1 d3.
Proof. intros [x ->] [y ->]. by exists y. Qed.

Lemma but_tmp_blob d d' sum : but_tmp d d' -> blob d' sum = blob d sum.
Proof. by intros [x ->]. Qed.

Lemma wp_Remove_tmp name (s : St R) : wp (Remove_tmp name) (fun _ s' => but_tmp (disk s) (disk s')) (fun _ s' => but_tmp (disk s) (disk s')) s.
Proof. unfold Remove_tmp. repeat wp_step; first [apply but_tmp_refl | by eexists]. Qed.

Lemma wp_remove_after {A} name (m : M R A) Q E (s : St R) :
  (forall s', but_tmp (disk s) (disk s') -> wp m Q E s') -> wp (perform attempt (Remove_tmp name) in m) Q E s.
Proof. intros Hm. wp_step. apply wp_attempt. eapply wp_mono; [apply wp_Remove_tmp|..]; intros; by apply Hm. Qed.

Lemma wp_or_remove {A} w (m : M R A) Q E (s : St R) :
  wp m Q (fun _ s' => forall e s2, but_tmp (disk s') (disk s2) -> E e s2) s -> wp (or_remove w m) Q E s.
Proof.
  intros Hm. unfold or_remove. wp_step. apply wp_attempt. eapply wp_mono; [exact Hm|..]; [by intros a s' Ha|].
  intros e s' He. apply wp_remove_after. intros s2 H2'. wp_step. by apply He.
Qed.

Lemma wp_find_place o sum size (s : St R) :
  wp (find_place o sum size) (fun p s' => disk s' = disk s /\ match p with
       | Absent => blob (disk s) sum = None
       | Damaged => exists c a t, blob (disk s) sum = Some (File c a t)
       | Present => exists c a t, blob (disk s) sum = Some (File c a t) /\ len c = size /\ (so_Rehash o = true -> Token.hex_encode (sha256_sum c) = sum)
       end) (fun _ s' => disk s' = disk s) s.
Proof.
  unfold find_place, lstatBlob. wp_step. apply wp_attempt. wp_step. wp_step; [|by wp_step]. wp_step. wp_step.
  destruct (blob (disk s) sum) as [[c a t|]|] eqn:Eb; [|by repeat wp_step|by repeat wp_step]. wp_step.
  destruct (len c =? size) eqn:El; cbn [negb]; [|wp_step; split; [done|by eexists _, _, _]]. apply Z.eqb_eq in El.
  destruct (so_Rehash o); [|wp_step; split; [done|by eexists _, _, _]].
  wp_step. unfold blobMatches, hashFile. wp_step. wp_step. wp_step; [|done]. wp_step. wp_step. rewrite Eb. wp_step. wp_step; [|done]. wp_step. wp_step. wp_step.
  split; [done|]. destruct (str_eqb _ _) eqn:Eh; [|by eexists _, _, _]. apply str_eqb_eq in Eh. by eexists _, _, _.
Qed.

(** What a commit of the content [c] leaves on the disk. *)
Record committed (o : SinkOptions) (maxNew : Z) (c : bytes) (d d' : Disk) (res : BlobResult) : Prop := MkCommitted {
  co_sum : br_Sum res = Token.hex_encode (sha256_sum c);
  co_size : br_Size res = len c;
  co_blob : exists c' a t, blob d' (br_Sum res) = Some (File c' a t) /\ len c' = len c
    /\ (br_New res || br_Repaired res = true -> c' = c) /\ (so_Rehash o = true -> Token.hex_encode (sha256_sum c') = br_Sum res);
  co_new : br_New res = true -> blob d (br_Sum res) = None /\ br_Stored res <= maxNew;
  co_others : forall sum, sum <> br_Sum res -> blob d' sum = blob d sum;
  co_snapshots : d_snapshots d' = d_snapshots d
}.

Lemma wp_Commit o maxNew w c (s : St R) : wrote w c -> w_hashed w = c ->
  wp (Commit o maxNew w) (fun res s' => committed o maxNew c (disk s) (disk s') res) (fun _ s' => but_tmp (disk s) (disk s')) s.
Proof.
  intros Hw Hh. pose proof (wr_n _ _ Hw) as Hn. unfold Commit. wp_step; [|apply but_tmp_refl]. cbv zeta. set (sum := Token.hex_encode _).
  assert (Hsum : sum = Token.hex_encode (sha256_sum c)) by (unfold sum; by rewrite Hh).
  wp_step. apply wp_or_remove. eapply wp_mono; [apply wp_find_place|..]; [|intros e s1 Hd e2 s2; by rewrite Hd].
  intros p s1 [Hd Hp]. assert (Hstore : forall new, (new = true -> blob (disk s) sum = None) ->
    wp (if new && (maxNew <? (w_stored w + holeBlock - 1) / holeBlock * holeBlock + holeBlock) then perform attempt (Remove_tmp (w_name w)) in fail ErrNewBudget
        else perform or_remove w (perform call in perform call in perform call in perform call in perform call in
               rename_blob w sum (truncate (w_file w) (w_n w))) in
             ret (MkBlobResult sum (w_n w) new (negb new) ((w_stored w + holeBlock - 1) / holeBlock * holeBlock + holeBlock)))
       (fun res s' => committed o maxNew c (disk s) (disk s') res) (fun _ s' => but_tmp (disk s) (disk s')) s1).
  { intros new Hnew. destruct (new && _) eqn:Eb.
    { apply wp_remove_after. intros s2 H2'. wp_step. by rewrite <- Hd. }
    wp_step. apply wp_or_remove. rewrite (truncate_content _ _ Hw). do 5 (wp_step; wp_step; [|intros e s2; by rewrite Hd]).
    unfold rename_blob. wp_step. wp_step; [|intros e s2; by rewrite Hd]. wp_step. wp_step.
    destruct (d_tmp (disk s1) !! w_name w); [|wp_step; intros e s2; by rewrite Hd].
    destruct (d_blobs (disk s1)) as [m|] eqn:Em; [|wp_step; intros e s2; by rewrite Hd]. wp_step. wp_step.
    constructor; cbn [br_Sum br_Size br_New br_Repaired br_Stored].
    - done.
    - done.
    - exists c, (fs_allocated c), fs_now. split; [|done]. unfold blob. cbn [d_blobs set_blobs set_tmp]. apply lookup_insert_eq.
    - intros ->. split; [by apply Hnew|]. cbn [andb] in Eb. by apply Z.ltb_ge in Eb.
    - intros t Ht. unfold blob. cbn [d_blobs set_blobs set_tmp]. rewrite <- Hd, Em. apply lookup_insert_ne. intros E. by apply Ht, eq_sym, blobName_inj.
    - cbn [d_snapshots set_blobs set_tmp]. by rewrite Hd. }
  destruct p.
  - by apply Hstore.
  - by apply Hstore.
  - apply wp_remove_after. intros s2 H2'. wp_step. destruct Hp as (c' & a & t & Hb & Hl & Hre). rewrite Hd in H2'.
    constructor; cbn [br_Sum br_Size br_New br_Repaired br_Stored]; try done.
    + exists c', a, t. rewrite (but_tmp_blob _ _ _ H2'). split_and!; [done|congruence|done|done].
    + intros t' _. by apply but_tmp_blob.
    + by destruct H2' as [x ->].
Qed.

(** What a caller does: open a writer, copy the content into it piece by piece,
    and commit. *)
Fixpoint write_all (ps : list bytes) (w : blobWriter) : M R blobWriter :=
  match ps with [] => ret w | p :: ps => do w := Write p w in write_all ps w end.
Definition store_blob (o : SinkOptions) (suffix : string) (maxNew : Z) (ps : list bytes) : M R BlobResult :=
  do w := NewBlob suffix in
  do w := write_all ps w in
  Commit o maxNew w.

Definition concat_bytes (ps : list bytes) : bytes := foldr (fun p c => p +:+ c) "" ps.

Lemma wp_write_all ps : forall w c (s : St R), wrote w c -> w_hashed w = c -> w_done w = false ->
  wp (write_all ps w) (fun w' s' => disk s' = disk s /\ wrote w' (c +:+ concat_bytes ps) /\ w_hashed w' = c +:+ concat_bytes ps /\ w_done w' = false)
     (fun _ s' => disk s' = disk s) s.
Proof.
  induction ps as [|p ps IH]; intros w c s Hw Hh Hd; cbn [write_all concat_bytes foldr]; [wp_step; by rewrite str_app_nil|].
  wp_step. unfold Write. rewrite Hd. cbn [negb]. eapply wp_mono; [apply (wp_write_loop _ p _ c); [done|by destruct Hw]|..|done].
  intros w' s' ((Hd' & _) & Hw' & [= Eh En Ed]). rewrite Hh in Eh.
  eapply wp_mono; [by apply (IH w' (c +:+ p))|..]; [intros w2 s2 (Hd2 & Hw2 & Hh2 & Hdone)|intros e s2 Hd2; congruence].
  rewrite str_app_assoc in Hw2, Hh2. split_and!; [congruence|done..].
Qed.

(** A stored blob is its content. What is written piece by piece, blocks of
    zeros left as holes, ends up under the digest of the whole: a new or repaired
    blob holds exactly that content, and one that was there has its size and,
    when blobs must be re-hashed, its digest. A new blob is within the budget,
    other blobs and the snapshots are untouched, and a failed attempt leaves
    nothing outside [tmp/]. *)
Theorem stored_blob_is_its_content o suffix maxNew ps (s s' : St R) r : store_blob o suffix maxNew ps s = (r, s') ->
  match r with
  | Ok res => committed o maxNew (concat_bytes ps) (disk s) (disk s') res
  | Err _ => but_tmp (disk s) (disk s')
  end.
Proof.
  intros Hr. assert (Hw : wp (store_blob o suffix maxNew ps) (fun res s' => committed o maxNew (concat_bytes ps) (disk s) (disk s') res)
    (fun _ s' => but_tmp (disk s) (disk s')) s).
  { unfold store_blob, NewBlob, createTemp. wp_step. wp_step. wp_step. wp_step; [|apply but_tmp_refl]. cbv zeta. wp_step. wp_step; [|apply but_tmp_refl].
    wp_step. wp_step. destruct (d_tmp (disk s) !! _); [wp_step; apply but_tmp_refl|]. wp_step. wp_step. wp_step. wp_step. wp_step.
    eapply wp_mono; [by apply (wp_write_all ps _ "")|..]; cbn [disk]; [intros w s2 (Hd & Hw & Hh & _)|intros e s2 Hd; rewrite Hd; by eexists].
    rewrite string_app_nil in *. eapply wp_mono; [by apply (wp_Commit o maxNew w (concat_bytes ps))|..]; rewrite Hd.
    - intros res s3 [H1' H2' H3' H4' H5' H6']. by constructor.
    - intros e s3 [x ->]. by eexists. }
  unfold wp in Hw. rewrite Hr in Hw. by destruct r.
Qed.

End Writer.

End BlobWriter.
