(* ===== verification/StoreVerify.v ===== *)
(** Checking a tree-backup store ([internal/treebackup/verify.go]): every
    manifest validated, every blob they refer to re-hashed, and, when asked, the
    bad ones moved to quarantine. *)

From stdpp Require Import sorting.
From S2P Require Import Prelude Go Token TreePath ManifestCodec ManifestEntry ManifestHeader Manifest ManifestFile Retention Store Blobs Gc.

Module StoreVerify.
Import TreePath ManifestCodec ManifestEntry ManifestHeader Manifest ManifestFile Retention Store Blobs Gc.
Open Scope store_scope.

Record VerifyReport := MkReport {
  v_Manifests : Z;
  v_Blobs : Z;
  v_BadManifests : list string;
  v_BadBlobs : list string;
  v_MissingBlobs : list string;
  v_Strays : list string;
  v_DuplicateSeq : list Z;
  v_Quarantined : list string;
  v_Problems : list string
}.
Definition emptyReport : VerifyReport := MkReport 0 0 [] [] [] [] [] [] [].

Definition add_stray (name : string) (r : VerifyReport) : VerifyReport :=
  MkReport (v_Manifests r) (v_Blobs r) (v_BadManifests r) (v_BadBlobs r) (v_MissingBlobs r) (v_Strays r ++ [name]) (v_DuplicateSeq r) (v_Quarantined r) (v_Problems r).
Definition add_problem (p : string) (r : VerifyReport) : VerifyReport :=
  MkReport (v_Manifests r) (v_Blobs r) (v_BadManifests r) (v_BadBlobs r) (v_MissingBlobs r) (v_Strays r) (v_DuplicateSeq r) (v_Quarantined r) (v_Problems r ++ [p]).
Definition set_duplicates (seqs : list Z) (r : VerifyReport) : VerifyReport :=
  MkReport (v_Manifests r) (v_Blobs r) (v_BadManifests r) (v_BadBlobs r) (v_MissingBlobs r) (v_Strays r) seqs (v_Quarantined r) (v_Problems r).
Definition add_manifest (r : VerifyReport) : VerifyReport :=
  MkReport (v_Manifests r + 1) (v_Blobs r) (v_BadManifests r) (v_BadBlobs r) (v_MissingBlobs r) (v_Strays r) (v_DuplicateSeq r) (v_Quarantined r) (v_Problems r).
Definition add_bad_manifest (id p : string) (r : VerifyReport) : VerifyReport :=
  MkReport (v_Manifests r) (v_Blobs r) (v_BadManifests r ++ [id]) (v_BadBlobs r) (v_MissingBlobs r) (v_Strays r) (v_DuplicateSeq r) (v_Quarantined r) (v_Problems r ++ [p]).
Definition set_missing (sums : list string) (r : VerifyReport) : VerifyReport :=
  MkReport (v_Manifests r) (v_Blobs r) (v_BadManifests r) (v_BadBlobs r) sums (v_Strays r) (v_DuplicateSeq r) (v_Quarantined r) (v_Problems r).
Definition add_blob (r : VerifyReport) : VerifyReport :=
  MkReport (v_Manifests r) (v_Blobs r + 1) (v_BadManifests r) (v_BadBlobs r) (v_MissingBlobs r) (v_Strays r) (v_DuplicateSeq r) (v_Quarantined r) (v_Problems r).
Definition add_bad_blob (sum : string) (r : VerifyReport) : VerifyReport :=
  MkReport (v_Manifests r) (v_Blobs r) (v_BadManifests r) (v_BadBlobs r ++ [sum]) (v_MissingBlobs r) (v_Strays r) (v_DuplicateSeq r) (v_Quarantined r) (v_Problems r).
Definition add_v_quarantined (sum : string) (r : VerifyReport) : VerifyReport :=
  MkReport (v_Manifests r) (v_Blobs r) (v_BadManifests r) (v_BadBlobs r) (v_MissingBlobs r) (v_Strays r) (v_DuplicateSeq r) (v_Quarantined r ++ [sum]) (v_Problems r).

Definition nothing {A} (l : list A) : bool := match l with [] => true | _ => false end.
Definition OK (r : VerifyReport) : bool :=
  nothing (v_BadManifests r) && nothing (v_BadBlobs r) && nothing (v_MissingBlobs r) && nothing (v_Strays r) && nothing (v_DuplicateSeq r) && nothing (v_Problems r).

(** The report, and what the callbacks of the marking change: the filter and the
    blobs found missing. *)
Record VState := MkVState { v_report : VerifyReport; v_bf : bloom; v_missing : gset string }.
Definition on_report (f : VerifyReport -> VerifyReport) (v : VState) : VState := MkVState (f (v_report v)) (v_bf v) (v_missing v).
Definition set_filter (bf : bloom) (v : VState) : VState := MkVState (v_report v) bf (v_missing v).
Definition add_missing (sum : string) (v : VState) : VState := MkVState (v_report v) (v_bf v) ({[sum]} ∪ v_missing v).

Definition VM : Type -> Type := M VState.
Definition note (f : VerifyReport -> VerifyReport) : VM unit := log (on_report f).

Definition sumsDir : string := "blobs/sha256".

Section Verify.
Context `{StdBase64, NanoTime, SHA256, MapHash}.

Fixpoint report_strays (strays : list string) : VM unit :=
  match strays with
  | [] => ret tt
  | n :: strays => perform note (add_stray (snapshotsDir +:+ "/" +:+ n)) in report_strays strays
  end.

(** The first loop: count the sequence numbers and validate. *)
Fixpoint validate_all (infos : list ManifestInfo) (seqs : gmap Z Z) (refs : Z) : VM (list ManifestInfo * gmap Z Z * Z) :=
  match infos with
  | [] => ret ([], seqs, refs)
  | i :: infos =>
    match i_Header i with
    | None => do (infos', seqs, refs) := validate_all infos seqs refs in ret (i :: infos', seqs, refs)
    | Some h =>
      let seqs := <[h_Seq h := default 0 (seqs !! h_Seq h) + 1]> seqs in
      do v := attempt (validate (i_ID i)) in
      match v with
      | Err e => do (infos', seqs, refs) := validate_all infos seqs refs in ret (MkInfo (i_ID i) None (message e) :: infos', seqs, refs)
      | Ok _ => do (infos', seqs, refs) := validate_all infos seqs (refs + files_of i) in ret (i :: infos', seqs, refs)
      end
    end
  end.

Definition duplicates (seqs : gmap Z Z) : list Z := merge_sort Z.le (filter (fun sn => 1 < sn.2) (map_to_list seqs)).*1.

(** The callback of the marking, after the filter has the entry's blob. *)
Definition look_for (u : unit) (e : Entry) : VM unit :=
  do v := peek in
  perform log (set_filter (bloom_add (v_bf v) (e_SHA256 e))) in
  if bool_decide (e_SHA256 e ∈ v_missing v) then ret tt
  else
    do fi := attempt (lstatRegular (e_SHA256 e)) in
    match fi with Ok _ => ret tt | Err _ => log (add_missing (e_SHA256 e)) end.

(** The second loop. *)
Fixpoint mark_all (infos : list ManifestInfo) : VM unit :=
  match infos with
  | [] => ret tt
  | i :: infos =>
    perform note add_manifest in
    match i_Header i with
    | None => perform note (add_bad_manifest (i_ID i) (i_Err i)) in mark_all infos
    | Some _ =>
      do r := attempt (markManifest look_for (i_ID i) tt) in
      match r with
      | Ok _ => mark_all infos
      | Err e => perform note (add_bad_manifest (i_ID i) (message e)) in mark_all infos
      end
    end
  end.

Definition check_blob (u : unit) (sum : string) (size : Z) : VM unit :=
  do v := peek in
  if negb (bloom_has (v_bf v) sum) then ret tt
  else
    perform note add_blob in
    do m := attempt (blobMatches sum) in
    match m with
    | Err NotExist => ret tt
    | Err e => fail e
    | Ok true => ret tt
    | Ok false => note (add_bad_blob sum)
    end.

Definition verifyShared (seeds : Z * Z) : VM unit :=
  do fi := attempt lstatSnapshots in
  perform (match fi with Ok true => ret tt | _ => note (add_problem (snapshotsDir +:+ " is missing or not a directory")) end) in
  do (infos, strays) := List in
  perform report_strays strays in
  do (infos, seqs, refs) := validate_all infos ∅ 0 in
  perform note (set_duplicates (duplicates seqs)) in
  perform log (set_filter (newBloom refs seeds.1 seeds.2)) in
  perform mark_all infos in
  do v := peek in
  perform note (set_missing (merge_sort name_le (elements (v_missing v)))) in
  walkBlobs check_blob (fun _ name => note (add_stray (sumsDir +:+ "/" +:+ name))) tt.

(** The second look at the blobs found bad, under the exclusive lock. *)
Fixpoint fix_all (bad : list string) : VM unit :=
  match bad with
  | [] => ret tt
  | sum :: bad =>
    do m := attempt (blobMatches sum) in
    match m with
    | Err NotExist | Ok true => fix_all bad
    | Err e => fail e
    | Ok false => perform quarantine sum in perform note (add_v_quarantined sum) in fix_all bad
    end
  end.

Definition Verify (fix_ : bool) (shared exclusive : lock_outcome) (between : Disk -> Disk) (seeds : Z * Z) : VM unit :=
  match shared with
  | LockBusy => fail (Failure "busy")
  | LockFailed => fail IOError
  | Locked =>
    perform verifyShared seeds in
    perform call in    (* Release *)
    do v := peek in
    let bad := v_BadBlobs (v_report v) in
    if negb fix_ || nothing bad then ret tt
    else
      perform update between in
      match exclusive with
      | LockBusy => fail (Failure "busy")
      | LockFailed => fail IOError
      | Locked => fix_all bad
      end
  end.

Ltac vstep := unfold note; wp_step.

(** * What an empty report means *)

Definition clean_report (r : VerifyReport) : Prop :=
  v_BadManifests r = [] /\ v_BadBlobs r = [] /\ v_Strays r = [] /\ v_Problems r = [].
(** What the callbacks and loops keep of the rest. *)
Definition fixed (v v' : VState) : Prop :=
  v_DuplicateSeq (v_report v') = v_DuplicateSeq (v_report v) /\ v_MissingBlobs (v_report v') = v_MissingBlobs (v_report v).

Lemma nothing_nil {A} (l : list A) : nothing l = true <-> l = [].
Proof. by destruct l. Qed.

Lemma snoc_not_nil {A} (l : list A) x : l ++ [x] <> [].
Proof. by destruct l. Qed.

Lemma OK_clean r : OK r = true <-> clean_report r /\ v_DuplicateSeq r = [] /\ v_MissingBlobs r = [].
Proof. unfold OK, clean_report. rewrite !andb_true_iff, !nothing_nil. tauto. Qed.

Definition clean (s : St VState) : Prop := clean_report (v_report (report s)).

Lemma wp_report_strays strays : forall s,
  wp (report_strays strays) (fun _ s' => disk s' = disk s /\ fixed (report s) (report s') /\ v_bf (report s') = v_bf (report s)
        /\ v_missing (report s') = v_missing (report s) /\ (clean s' -> clean s /\ strays = [])) (fun _ _ => True) s.
Proof.
  induction strays as [|n strays IH]; intros s; cbn [report_strays]; [by vstep|]. vstep. vstep.
  eapply wp_mono; [apply IH|..|done]. intros _ s' (Hd & Hf & Hb & Hm & Hc). split_and!; [done..|]. intros Hcl. exfalso.
  destruct (Hc Hcl) as [(_ & _ & Hs & _) _]. cbn in Hs. by apply snoc_not_nil in Hs.
Qed.

(** How many headers have the sequence number. *)
Fixpoint uses (seq : Z) (infos : list ManifestInfo) : Z :=
  match infos with
  | [] => 0
  | i :: infos => (match i_Header i with Some h => if h_Seq h =? seq then 1 else 0 | None => 0 end) + uses seq infos
  end.

(** The infos after validation: a header is kept only when the manifest is
    valid. *)
Inductive validated (d : Disk) : list ManifestInfo -> list ManifestInfo -> Prop :=
| validated_nil : validated d [] []
| validated_keep i infos infos' : (is_Some (i_Header i) -> exists h es, holds d (i_ID i) h es) -> validated d infos infos' -> validated d (i :: infos) (i :: infos')
| validated_drop i infos infos' e : validated d infos infos' -> validated d (i :: infos) (MkInfo (i_ID i) None e :: infos').

Lemma wp_validate_all infos : forall seqs refs s,
  wp (validate_all infos seqs refs) (fun p s' => disk s' = disk s /\ report s' = report s /\ validated (disk s) infos p.1.1
        /\ forall k, default 0 (p.1.2 !! k) = default 0 (seqs !! k) + uses k infos) (fun _ _ => False) s.
Proof.
  induction infos as [|i infos IH]; intros seqs refs s; cbn [validate_all uses]; [vstep; split_and!; [done|done|constructor|]; intros k; cbn; lia|].
  destruct (i_Header i) as [h|] eqn:Eh.
  2: { vstep. eapply wp_mono; [apply IH|..|done]. intros [[infos' seqs'] refs'] s' (Hd & Hr & Hv & Hk). vstep. split_and!; [done|done|..].
       - apply validated_keep; [by rewrite Eh; intros [? ?]|done].
       - intros k. cbn [fst snd] in *. rewrite Hk. lia. }
  cbv zeta. set (seqs1 := <[_ := _]> seqs). assert (Hs1 : forall k, default 0 (seqs1 !! k) = default 0 (seqs !! k) + if h_Seq h =? k then 1 else 0).
  { intros k. unfold seqs1. destruct (Z.eqb_spec (h_Seq h) k) as [->|Hne]; [by rewrite lookup_insert_eq|]. rewrite lookup_insert_ne by done. lia. }
  vstep. apply wp_attempt. eapply wp_mono; [apply wp_validate|..].
  - intros h' s1 [(Hd & Hr & _) [es Hh]]. vstep. eapply wp_mono; [apply IH|..|done]. intros [[infos' seqs'] refs'] s' (Hd' & Hr' & Hv & Hk). vstep.
    cbn [fst snd] in *. rewrite Hd in Hv. split_and!; [congruence|congruence|..].
    + apply validated_keep; [|done]. intros _. by exists h', es.
    + intros k. rewrite Hk, Hs1. lia.
  - intros e s1 [(Hd & Hr & _) _]. vstep. eapply wp_mono; [apply IH|..|done]. intros [[infos' seqs'] refs'] s' (Hd' & Hr' & Hv & Hk). vstep.
    cbn [fst snd] in *. rewrite Hd in Hv. split_and!; [congruence|congruence|by apply validated_drop|]. intros k. rewrite Hk, Hs1. lia.
Qed.

(** A blob an entry refers to is on the disk, as a file. *)
Definition there (d : Disk) (sum : string) : Prop := exists c a t, blob d sum = Some (File c a t).

(** The callback's effect, over the entries visited. *)
Definition looked (s0 : St VState) (es : list Entry) (v : VState) : Prop :=
  v_report v = v_report (report s0) /\ grows (v_bf (report s0)) (v_bf v) /\ v_missing (report s0) ⊆ v_missing v
  /\ Forall (fun e => referencesBlob e = true -> bloom_has (v_bf v) (e_SHA256 e) = true /\ (e_SHA256 e ∈ v_missing v \/ there (disk s0) (e_SHA256 e))) es.

Lemma looked_step s0 es v e bf' missing' : looked s0 es v -> grows (v_bf v) bf' -> v_missing v ⊆ missing' ->
  (referencesBlob e = true -> bloom_has bf' (e_SHA256 e) = true /\ (e_SHA256 e ∈ missing' \/ there (disk s0) (e_SHA256 e))) ->
  looked s0 (es ++ [e]) (MkVState (v_report v) bf' missing').
Proof.
  intros (Hr & Hg & Hm & Hf) Hg' Hm' He. split_and!; cbn [v_report v_bf v_missing]; [done|by eapply grows_trans|set_solver|].
  apply Forall_app. split; [|by apply Forall_singleton]. eapply Forall_impl; [exact Hf|]. intros x Hx Href. destruct (Hx Href) as [Hb Ht].
  split; [by apply Hg'|]. set_solver.
Qed.

Lemma add_grows bf sum : bloom_ok bf -> grows bf (bloom_add bf sum).
Proof. intros Hok. split; [by apply bloom_add_ok|]. intros t Ht. apply bloom_has_add; auto. Qed.

Lemma wp_markManifest_look id s : bloom_ok (v_bf (report s)) ->
  wp (markManifest look_for id tt) (fun _ s' => disk s' = disk s /\ exists h es, holds (disk s) id h es /\ looked s es (report s'))
     (fun _ s' => disk s' = disk s /\ exists es, looked s es (report s')) s.
Proof.
  intros Hok. eapply wp_mono; [apply (wp_markManifest look_for (fun pre _ d v => d = disk s /\ looked s pre v))|..].
  - intros pre [] e s1 [Hd Hl] He. unfold look_for. vstep. vstep. vstep. vstep.
    assert (Hg : grows (v_bf (report s1)) (bloom_add (v_bf (report s1)) (e_SHA256 e))) by (apply add_grows; destruct Hl as (_ & [? _] & _); done).
    assert (Hhas : bloom_has (bloom_add (v_bf (report s1)) (e_SHA256 e)) (e_SHA256 e) = true).
    { apply bloom_has_add; [|by left]. destruct Hl as (_ & [? _] & _); done. }
    case_bool_decide as Hm; [vstep; split; [|done]; split; [done|]; apply (looked_step s pre (report s1) e); [done|done|done|auto]|].
    vstep. apply wp_attempt. unfold lstatRegular, lstatBlob. vstep. vstep. vstep.
    2: { vstep. split; [|cbn [faults] in *; tauto]. split; [done|]. apply (looked_step s pre (report s1) e); [done|done|set_solver|]. intros _. split; [done|]. left. set_solver. }
    vstep. vstep. rewrite Hd. destruct (blob (disk s) (e_SHA256 e)) as [[c a t|]|] eqn:Eb.
    + vstep. vstep. vstep. split; [|done]. split; [done|]. apply (looked_step s pre (report s1) e); [done|done|set_solver|]. intros _. split; [done|]. right. by exists c, a, t.
    + vstep. vstep. vstep. split; [|done]. split; [done|]. apply (looked_step s pre (report s1) e); [done|done|set_solver|]. intros _. split; [done|]. left. set_solver.
    + vstep. vstep. split; [|done]. split; [done|]. apply (looked_step s pre (report s1) e); [done|done|set_solver|]. intros _. split; [done|]. left. set_solver.
  - intros pre [] e d v [Hd (Hr & Hg & Hm & Hf)] He. split; [done|]. split_and!; [done..|]. apply Forall_app. split; [done|].
    apply Forall_singleton. congruence.
  - split; [done|]. split_and!; [done|by apply grows_refl|done|constructor].
  - intros [] s' [(h & es & Hh & Hd & Hl) _]. split; [done|]. by exists h, es.
  - intros e s' [([] & es & Hd & Hl) _]. split; [done|]. by exists es.
Qed.

(** A manifest whose blobs are in the filter and on the disk, or missing. *)
Definition checked (d : Disk) (v : VState) (i : ManifestInfo) : Prop :=
  is_Some (i_Header i) /\ exists h es, holds d (i_ID i) h es
    /\ Forall (fun e => referencesBlob e = true -> bloom_has (v_bf v) (e_SHA256 e) = true /\ (e_SHA256 e ∈ v_missing v \/ there d (e_SHA256 e))) es.

Lemma checked_more d v v' i : grows (v_bf v) (v_bf v') -> v_missing v ⊆ v_missing v' -> checked d v i -> checked d v' i.
Proof.
  intros [_ Hg] Hm (Hh & h & es & Hho & Hf). split; [done|]. exists h, es. split; [done|]. eapply Forall_impl; [exact Hf|]. intros e He Hr.
  destruct (He Hr) as [Hb Ht]. split; [by apply Hg|]. set_solver.
Qed.

(** A step that leaves those two lists, before one that does. *)
Lemma fixed_more (s0 : VState) v v' f : v_report v = f (v_report s0) -> fixed v v' ->
  v_DuplicateSeq (f (v_report s0)) = v_DuplicateSeq (v_report s0) -> v_MissingBlobs (f (v_report s0)) = v_MissingBlobs (v_report s0) -> fixed s0 v'.
Proof. intros E [Hd Hm] E1 E2. rewrite E in Hd, Hm. split; congruence. Qed.

Lemma wp_mark_all infos : forall s, bloom_ok (v_bf (report s)) ->
  wp (mark_all infos) (fun _ s' => disk s' = disk s /\ fixed (report s) (report s') /\ grows (v_bf (report s)) (v_bf (report s'))
        /\ v_missing (report s) ⊆ v_missing (report s') /\ (clean s' -> clean s /\ Forall (checked (disk s) (report s')) infos)) (fun _ _ => True) s.
Proof.
  induction infos as [|i infos IH]; intros s Hok; cbn [mark_all]; [vstep; split_and!; [done|done|by apply grows_refl|done|by split]|].
  vstep. vstep. destruct (i_Header i) as [h|] eqn:Eh.
  2: { vstep. vstep. eapply wp_mono; [by apply IH|..|done]. intros _ s' (Hd & Hf & Hg & Hm & Hc). split_and!; [done..|].
       intros Hcl. exfalso. destruct (Hc Hcl) as [[Hb _] _]. cbn in Hb. by apply snoc_not_nil in Hb. }
  vstep. apply wp_attempt. eapply wp_mono; [by apply wp_markManifest_look|..]; cbn [report on_report v_bf].
  - intros _ s1 (Hd & h' & es & Hh & Hr & Hg & Hm & Hf). cbn [report disk on_report v_bf v_missing v_report] in Hd, Hh, Hr, Hg, Hm, Hf.
    eapply wp_mono; [apply IH, Hg|..|done]. intros _ s' (Hd' & Hf' & Hg' & Hm' & Hc). split; [exact (eq_trans Hd' Hd)|].
    split; [exact (fixed_more (report s) _ _ add_manifest Hr Hf' eq_refl eq_refl)|]. split; [exact (grows_trans _ _ _ Hg Hg')|]. split; [exact (transitivity Hm Hm')|].
    intros Hcl. destruct (Hc Hcl) as [Hcs Hall]. unfold clean in Hcs. rewrite Hr in Hcs. rewrite Hd in Hall. split; [exact Hcs|]. constructor; [|exact Hall].
    apply (checked_more _ (report s1)); [exact Hg'|exact Hm'|]. split; [by eexists|]. by exists h', es.
  - intros e s1 (Hd & es & Hr & Hg & Hm & Hf). vstep. vstep. cbn [report disk on_report v_bf v_missing v_report] in Hd, Hr, Hg, Hm, Hf.
    eapply wp_mono; [apply IH; exact (proj1 Hg)|..|done]. cbn [report disk on_report v_bf v_missing v_report]. intros _ s' (Hd' & Hf' & Hg' & Hm' & Hc).
    split; [exact (eq_trans Hd' Hd)|]. split; [refine (fixed_more (report s) _ _ (fun r => add_bad_manifest (i_ID i) (message e) (add_manifest r)) _ Hf' eq_refl eq_refl); cbn; by rewrite Hr|].
    split; [exact (grows_trans _ _ _ Hg Hg')|]. split; [exact (transitivity Hm Hm')|].
    intros Hcl. exfalso. destruct (Hc Hcl) as [[Hb _] _]. cbn in Hb. by apply snoc_not_nil in Hb.
Qed.

(** Every name under [blobs/sha256] is a blob's, and those in the filter match
    their digest. *)
Definition blobs_match (bf : bloom) (d : Disk) (name : string) : Prop :=
  forall n, blob_entries d !! name = Some n -> exists sum c a t, blob_sum name = Some sum /\ n = File c a t
    /\ (bloom_has bf sum = true -> Token.hex_encode (sha256_sum c) = sum).

Lemma wp_check_blobs s :
  wp (walkBlobs check_blob (fun _ name => note (add_stray (sumsDir +:+ "/" +:+ name))) tt)
     (fun _ s' => disk s' = disk s /\ fixed (report s) (report s') /\ (clean s' -> clean s /\ forall name, blobs_match (v_bf (report s)) (disk s) name)) (fun _ _ => True) s.
Proof.
  set (I := fun (visited : list string) (_ : unit) d v => d = disk s /\ v_bf v = v_bf (report s) /\ fixed (report s) v
    /\ (clean_report (v_report v) -> clean s /\ forall name, name ∈ visited -> blobs_match (v_bf (report s)) (disk s) name)).
  assert (Hskip : forall visited d v name, I visited tt d v -> (clean_report (v_report v) -> blobs_match (v_bf (report s)) (disk s) name) -> I (visited ++ [name]) tt d v).
  { intros visited d v name (Hd & Hb & Hf & Hc) Hn. split_and!; [done..|]. intros Hcl. destruct (Hc Hcl) as [Hcs Hall]. split; [done|].
    intros name' [Hin| ->%list_elem_of_singleton]%elem_of_app; auto. }
  eapply wp_mono; [apply (wp_walkBlobs _ _ I (fun _ _ => True) (blob_entries (disk s)))|..]; try done.
  - by intros visited [] d v name (-> & _) _.
  - intros visited [] d v name HI Hn. apply Hskip; [done|]. intros _ n Hn'. congruence.
  - intros visited [] s1 name (Hd & Hb & Hf & Hc) _. vstep. split; [|done]. split_and!; [done|done|exact Hf|]. intros (_ & _ & Hs & _). cbn in Hs. by apply snoc_not_nil in Hs.
  - intros visited [] s1 name sum c dk t HI Hn Hsum Hbl. pose proof HI as (Hd & Hb & Hf & Hc). unfold check_blob. vstep. vstep. rewrite Hb.
    destruct (bloom_has (v_bf (report s)) sum) eqn:Eh; cbn [negb].
    2: { vstep. split; [|done]. apply Hskip; [done|]. intros _ n Hn'. rewrite Hbl in Hn'. injection Hn' as <-. exists sum, c, dk, t. split_and!; [done|done|congruence]. }
    assert (Hbs : blob (disk s1) sum = Some (File c dk t)) by (pose proof (proj1 (blob_sum_name _ _) Hsum) as [<- _]; by rewrite blob_entry, Hd).
    vstep. vstep. vstep. apply wp_attempt. unfold blobMatches, hashFile. vstep. vstep. vstep; [|by vstep]. vstep. vstep. rewrite Hbs. vstep. vstep; [|by vstep]. vstep. vstep.
    destruct (str_eqb _ _) eqn:Es; vstep; (split; [|cbn [faults] in *; auto]).
    + apply str_eqb_eq in Es. apply Hskip; [exact HI|]. intros _ n Hn'. rewrite Hbl in Hn'. injection Hn' as <-. by exists sum, c, dk, t.
    + split_and!; [done|done|exact Hf|]. intros (_ & Hbb & _). cbn in Hbb. by apply snoc_not_nil in Hbb.
  - split_and!; [done|done|done|]. intros Hcl. split; [done|]. intros name Hn. by apply elem_of_nil in Hn.
  - intros [] s' [(visited & (Hd & Hb & Hf & Hc) & Hv) _]. split; [done|]. split; [exact Hf|]. intros Hcl. destruct (Hc Hcl) as [Hcs Hall]. split; [done|].
    intros name n Hn. by apply (Hall name); [apply Hv; exists n|].
Qed.

(** * A report that finds nothing wrong *)

Lemma duplicates_none (seqs : gmap Z Z) k : duplicates seqs = [] -> default 0 (seqs !! k) <= 1.
Proof.
  unfold duplicates. intros E. destruct (seqs !! k) as [n|] eqn:Ek; cbn [default from_option]; [|lia]. destruct (Z.lt_ge_cases 1 n) as [Hlt|]; [|done]. exfalso.
  pose proof (merge_sort_Permutation Z.le (filter (fun sn : Z * Z => 1 < sn.2) (map_to_list seqs)).*1) as Hp. rewrite E in Hp. apply Permutation_nil in Hp.
  apply (not_elem_of_nil k). rewrite <- Hp. apply list_elem_of_fmap. exists (k, n). split; [done|]. apply list_elem_of_filter. split; [done|].
  by apply elem_of_map_to_list.
Qed.

Lemma missing_none (missing : gset string) : merge_sort name_le (elements missing) = [] -> missing = ∅.
Proof.
  intros E. pose proof (merge_sort_Permutation name_le (elements missing)) as Hp. rewrite E in Hp. apply Permutation_nil in Hp. by apply elements_empty_inv, leibniz_equiv in Hp.
Qed.

Lemma uses_nonneg k infos : 0 <= uses k infos.
Proof. induction infos as [|i infos IH]; cbn [uses]; [lia|]. destruct (i_Header i); [destruct (h_Seq h =? k)|]; lia. Qed.

Lemma uses_of k infos i h : i ∈ infos -> i_Header i = Some h -> h_Seq h = k -> 1 <= uses k infos.
Proof.
  intros Hi Hh Hk. induction infos as [|j infos IH]; [by apply elem_of_nil in Hi|]. cbn [uses]. pose proof (uses_nonneg k infos). apply elem_of_cons in Hi as [<-|Hi].
  - rewrite Hh, (proj2 (Z.eqb_eq _ _) Hk). lia.
  - specialize (IH Hi). destruct (i_Header j) as [g|]; [destruct (h_Seq g =? k)|]; lia.
Qed.

(** Two of them are at two places. *)
Lemma uses_two infos : (forall k, uses k infos <= 1) -> forall i j h g, i ∈ infos -> j ∈ infos -> i_Header i = Some h -> i_Header j = Some g -> h_Seq h = h_Seq g -> i = j.
Proof.
  induction infos as [|x infos IH]; intros Hu i j h g Hi Hj Hh Hg E; [by apply elem_of_nil in Hi|].
  assert (Hu' : forall k, uses k infos <= 1) by (intros k; specialize (Hu k); cbn [uses] in Hu; destruct (i_Header x) as [y|]; [destruct (h_Seq y =? k)|]; lia).
  assert (Hhead : forall a b, i_Header x = Some a -> b ∈ infos -> forall c, i_Header b = Some c -> h_Seq a = h_Seq c -> False).
  { intros a b Ha Hb c Hc Eac. specialize (Hu (h_Seq c)). cbn [uses] in Hu. rewrite Ha, (proj2 (Z.eqb_eq _ _) Eac) in Hu. pose proof (uses_of _ _ _ _ Hb Hc eq_refl). lia. }
  apply elem_of_cons in Hi as [->|Hi], Hj as [->|Hj]; [done|exfalso; eauto|exfalso; eauto|by apply (IH Hu' i j h g)].
Qed.

(** A manifest with a header is among those validated as it was. *)
Lemma validated_same d infos infos' : validated d infos infos' -> Forall (fun i => is_Some (i_Header i)) infos' -> infos' = infos.
Proof.
  induction 1 as [|i infos infos' _ _ IH|i infos infos' e _ IH]; intros Hf; [done|..]; apply Forall_cons in Hf as [Hi Hf]; [by rewrite IH|]. cbn in Hi. by destruct Hi.
Qed.

(** What a store with nothing wrong is: its snapshots directory holds manifests
    only, each valid, with every blob it refers to there and matching its digest,
    no two with one sequence number, and its blob directory holds blobs only. *)
Record healthy (d : Disk) : Prop := MkHealthy {
  he_snapshots : exists entries, d_snapshots d = IsDir entries /\ forall name node, entries !! name = Some node -> is_Some (manifest_id (name, node));
  he_manifests : forall id, ValidID id = true -> is_Some (manifest d id) -> exists h es, holds d id h es
    /\ Forall (fun e => referencesBlob e = true -> exists c a t, blob d (e_SHA256 e) = Some (File c a t) /\ Token.hex_encode (sha256_sum c) = e_SHA256 e) es;
  he_numbers : forall id id' h h', ValidID id = true -> ValidID id' = true -> header_of d id = Some h -> header_of d id' = Some h' -> h_Seq h = h_Seq h' -> id = id';
  he_blobs : forall name n, blob_entries d !! name = Some n -> exists sum c a t, blob_sum name = Some sum /\ n = File c a t
}.

(** What the listing, the validation, the marking and the hashing found is
    that. *)
Lemma healthy_of d infos infos' bf v :
  (exists entries, d_snapshots d = IsDir entries /\ forall name node, entries !! name = Some node -> is_Some (manifest_id (name, node))) ->
  forall quiet, listed quiet d infos -> validated d infos infos' -> (forall k, uses k infos <= 1) -> Forall (checked d v) infos' -> v_bf v = bf -> v_missing v = ∅ ->
  (forall name, blobs_match bf d name) -> healthy d.
Proof.
  intros Hsn quiet [Honce Hids Htold _] Hval Huse Hch Hbf Hmis Hbl.
  assert (infos' = infos) as -> by (apply (validated_same _ _ _ Hval); eapply Forall_impl; [exact Hch|]; by intros i [? _]).
  assert (Hin : forall id, ValidID id = true -> is_Some (manifest d id) -> exists i, i ∈ infos /\ i_ID i = id /\ i_Header i = header_of d id /\ checked d v i).
  { intros id Hv Hm. destruct (proj1 (list_elem_of_fmap _ _ _) (proj2 (Hids id) (conj Hv Hm))) as (i & -> & Hi). exists i.
    rewrite Forall_forall in Htold, Hch. pose proof (Hch i Hi) as Hc. split_and!; [done|done| |done].
    destruct (Htold i Hi) as [?|[_ Hn]]; [done|]. destruct Hc as [[h Hh] _]. congruence. }
  assert (Hman : forall id h, header_of d id = Some h -> is_Some (manifest d id)).
  { intros id h. unfold header_of, open_of. destruct (manifest d id); [by eexists|done]. }
  constructor; [done| | |].
  - intros id Hv Hm. destruct (Hin id Hv Hm) as (i & _ & <- & _ & _ & h & es & Hh & Hf). exists h, es. split; [done|]. eapply Forall_impl; [exact Hf|].
    intros e He Hr. destruct (He Hr) as [Hb [Hmi|(c & a & t & Hbl')]]; [by rewrite Hmis in Hmi; apply elem_of_empty in Hmi|].
    exists c, a, t. split; [done|]. rewrite blob_entry in Hbl'. destruct (Hbl _ _ Hbl') as (sum & c' & a' & t' & Hs & [= <- <- <-] & Hd).
    apply blob_sum_name in Hs as [Hs _]. apply blobName_inj in Hs as ->. apply Hd. by rewrite <- Hbf.
  - intros id id' h h' Hv Hv' Hh Hh' E. destruct (Hin id Hv (Hman _ _ Hh)) as (i & Hi & <- & Hhi & _), (Hin id' Hv' (Hman _ _ Hh')) as (j & Hj & <- & Hhj & _).
    f_equal. apply (uses_two infos Huse i j h h' Hi Hj); [congruence|congruence|done].
  - intros name n Hn. destruct (Hbl name n Hn) as (sum & c & a & t & Hs & -> & _). by exists sum, c, a, t.
Qed.

(** The problem of a [snapshots] that is no directory. *)
Lemma wp_directory_note (fi : result bool serr) s : (fi = Ok true -> exists entries, d_snapshots (disk s) = IsDir entries) ->
  wp (match fi with Ok true => ret tt | _ => note (add_problem (snapshotsDir +:+ " is missing or not a directory")) end)
     (fun _ s' => disk s' = disk s /\ v_missing (report s') = v_missing (report s) /\ (clean s' -> exists entries, d_snapshots (disk s) = IsDir entries)) (fun _ _ => False) s.
Proof.
  intros Hfi. assert (Hno : wp (note (add_problem (snapshotsDir +:+ " is missing or not a directory")))
     (fun _ s' => disk s' = disk s /\ v_missing (report s') = v_missing (report s) /\ (clean s' -> exists entries, d_snapshots (disk s) = IsDir entries)) (fun _ _ => False) s).
  { vstep. split_and!; [done|done|]. intros (_ & _ & _ & Hp). cbn in Hp. by apply snoc_not_nil in Hp. }
  destruct fi as [[]|]; [|exact Hno..]. vstep. split_and!; [done|done|]. intros _. by apply Hfi.
Qed.

Lemma wp_lstat_dir s :
  wp (attempt (lstatSnapshots (R := VState))) (fun fi s' => disk s' = disk s /\ report s' = report s /\ (fi = Ok true -> exists entries, d_snapshots (disk s) = IsDir entries)) (fun _ _ => False) s.
Proof.
  apply wp_attempt. unfold lstatSnapshots. vstep. vstep; [|done]. vstep. vstep. destruct (d_snapshots (disk s)) as [| |entries]; vstep; [done..|].
  split_and!; [done|done|]. intros _. by exists entries.
Qed.

Lemma wp_verifyShared seeds s :
  wp (verifyShared seeds) (fun _ s' => disk s' = disk s /\ (OK (v_report (report s')) = true -> v_missing (report s) = ∅ -> healthy (disk s))) (fun _ s' => True) s.
Proof.
  unfold verifyShared. vstep. eapply wp_mono; [apply wp_lstat_dir|..|done]. intros fi s0 (Hd0 & Hr0 & Hdir0). rewrite <- Hd0 in Hdir0.
  vstep. eapply wp_mono; [by apply wp_directory_note|..|done]. clear fi Hdir0. intros _ s1 (Hd1 & Hm1 & Hdir). rewrite Hd0 in Hd1, Hdir. rewrite Hr0 in Hm1.
  vstep. eapply wp_mono; [apply wp_and; [apply wp_List|apply wp_List_strays]|..|done]. intros [infos strays] s2 [[(Hd2 & Hr2 & _) Hl] Hst]. cbn [fst snd] in Hl, Hst.
  rewrite Hd1 in Hd2, Hl, Hst. vstep. eapply wp_mono; [apply wp_report_strays|..|done]. intros _ s3 (Hd3 & _ & _ & Hm3 & Hc3). rewrite Hd2 in Hd3. rewrite Hr2, Hm1 in Hm3.
  vstep. eapply wp_mono; [apply wp_validate_all|..|done]. intros [[infos' seqs] refs] s4 (Hd4 & Hr4 & Hval & Huse). cbn [fst snd] in Hval, Huse. rewrite Hd3 in Hd4, Hval.
  vstep. vstep. vstep. vstep. vstep. eapply wp_mono; [apply wp_mark_all; cbn; apply newBloom_ok|..|done]. cbn [report disk on_report set_filter v_bf v_report v_missing].
  intros _ s5 (Hd5 & [Hf5 _] & _ & _ & Hc5). rewrite Hd4 in Hd5, Hc5. cbn in Hf5.
  vstep. vstep. vstep. vstep. eapply wp_mono; [apply wp_check_blobs|..|done]. cbn [report disk on_report set_filter v_bf v_report v_missing].
  intros _ s6 (Hd6 & [Hf6 Hm6] & Hc6). rewrite Hd5 in Hd6, Hc6. cbn in Hf6, Hm6. split; [exact Hd6|]. intros [Hcl [Hdup Hmis]]%OK_clean _.
  rewrite Hf6, Hf5 in Hdup. rewrite Hm6 in Hmis. apply missing_none in Hmis. destruct (Hc6 Hcl) as [Hcl5 Hbl]. destruct (Hc5 Hcl5) as [Hcl4 Hch].
  assert (Hcl3 : clean s3) by (unfold clean in *; rewrite <- Hr4; exact Hcl4). destruct (Hc3 Hcl3) as [Hcl2 Hno].
  assert (Hcl1 : clean s1) by (unfold clean in *; by rewrite <- Hr2).
  destruct (Hdir Hcl1) as [entries Hent].
  apply (healthy_of (disk s) infos infos' (v_bf (report s5)) (report s5)) with (quiet := faults s1 = []); [|done|done| |done|done|done|done].
  - exists entries. split; [done|]. intros name node. by apply (Hst Hno).
  - intros k. pose proof (duplicates_none seqs k Hdup) as Hk. specialize (Huse k). rewrite lookup_empty in Huse. cbn in Huse. lia.
Qed.

(** The repair of the bad blobs leaves the list of them. *)
Lemma wp_quarantine_report n : forall i sum (s : St VState), wp (quarantine_from n i sum) (fun _ s' => report s' = report s) (fun _ _ => True) s.
Proof.
  induction n as [|n IH]; intros i sum s; cbn [quarantine_from]; [done|].
  assert (Hnext : forall s1, report s1 = report s -> wp (quarantine_from n (i + 1) sum) (fun _ s' => report s' = report s) (fun _ _ => True) s1)
    by (intros s1 <-; apply IH).
  vstep. apply wp_attempt. unfold lstatCorrupt. vstep. vstep; [|by apply Hnext]. vstep. vstep.
  destruct (d_corrupt (disk s) !! corrupt_name sum i); vstep; [by apply Hnext|]. vstep. vstep; [|done]. vstep. vstep. by destruct (blob (disk s) sum); vstep.
Qed.

Lemma wp_fix_all bad : forall s, wp (fix_all bad) (fun _ s' => v_BadBlobs (v_report (report s')) = v_BadBlobs (v_report (report s))) (fun _ _ => True) s.
Proof.
  induction bad as [|sum bad IH]; intros s; cbn [fix_all]; [by vstep|]. vstep. apply wp_attempt.
  eapply (wp_mono _ (fun _ s' => report s' = report s) _ (fun _ s' => report s' = report s)).
  { unfold blobMatches, hashFile. repeat (vstep; try done). }
  - intros [] s1 Hr; [by rewrite <- Hr|]. vstep. unfold quarantine. vstep. vstep; [|done]. eapply wp_mono; [apply wp_quarantine_report|..|done]. cbn [report].
    intros _ s2 Hr2. vstep. vstep. eapply wp_mono; [apply IH|..|done]. cbn [report]. intros _ s3 ->. cbn. by rewrite Hr2, Hr.
  - intros [] s1 Hr; try done. by rewrite <- Hr.
Qed.

Lemma wp_Verify fix_ shared exclusive between seeds s :
  wp (Verify fix_ shared exclusive between seeds)
     (fun _ s' => OK (v_report (report s')) = true -> v_missing (report s) = ∅ -> healthy (disk s) /\ disk s' = disk s) (fun _ _ => True) s.
Proof.
  unfold Verify. destruct shared; [|done..]. vstep. eapply wp_mono; [apply wp_verifyShared|..|done]. intros _ s1 [Hd Hok]. vstep. vstep; [|done]. vstep. vstep.
  vstep; [by vstep; split; [apply Hok|]|]. vstep. vstep. destruct exclusive; [|done..].
  eapply wp_mono; [apply wp_fix_all|..|done]. cbn [report]. intros _ s2 Hbad [(_ & Hnone & _) _]%OK_clean _. exfalso.
  rewrite Hbad in Hnone. rewrite Hnone in *. by destruct fix_.
Qed.

(** C11: A verification that reports nothing wrong means there is nothing wrong:
    whichever calls of the operating system fail on the way, if [Verify] returns
    a report that is OK, every file of the snapshots directory is a manifest that
    validates, each blob they refer to is a regular file whose content has its
    digest, no two manifests share a sequence number and the blob directory holds
    nothing else; and, even when it was to repair, the disk is as it was. *)
Theorem verify_ok_means_healthy fix_ shared exclusive between seeds fs d s' :
  Verify fix_ shared exclusive between seeds (MkSt fs d (MkVState emptyReport (newBloom 0 0 0) ∅)) = (Ok tt, s') ->
  OK (v_report (report s')) = true -> healthy d /\ disk s' = d.
Proof. intros Hr Hok. exact (run_wp _ _ _ _ _ _ (wp_Verify fix_ shared exclusive between seeds _) Hr Hok eq_refl). Qed.

End Verify.

End StoreVerify.
