(* ===== verification/Models.v ===== *)
(** Concrete instances of the interfaces the development is parametric in, so
    that its theorems can be evaluated on concrete inputs: a signature scheme, a
    length-free encoding of the token structs, a small JSON reader and writer,
    hexadecimal in the place of base64, the ASCII case tables, and plain choices
    for rendering, URLs, X.509 and the ledger's file names. They satisfy the
    interfaces' laws; they stand in for the Go libraries in the witnesses only.
    Module [TreeModels] does the same for the tree-backup files. *)

From stdpp Require Import pretty.
From S2P Require Import Prelude Go Mcp FoldKeys Rules Registry Token Broker Gateway Opsig SentLedger Messaging DirectiveApi Enrol TreePath ManifestCodec ManifestEntry ManifestHeader Manifest ManifestRound Retention Store Blobs Gc Deletion BlobWriter StoreVerify.

(** Concrete instances of what the tree-backup files are parametric in, for their
    witnesses: hexadecimal in the place of base64, decimal nanoseconds in the
    place of RFC 3339, a checksum in the place of SHA-256 and another in the place
    of the seeded hash. *)

Module TreeModels.
Import TreePath ManifestCodec ManifestEntry ManifestHeader Manifest ManifestRound Retention Store Blobs Gc Deletion BlobWriter StoreVerify.

Lemma hex_encode_plain b : plain (Token.hex_encode b) = true.
Proof.
  destruct (Token.hex_encode_shape b) as (_ & _ & Hh). revert Hh. generalize (Token.hex_encode b). clear.
  unfold plain. induction s as [|c s IH]; [done|]. cbn [byte_list forallb string_forallb]. intros [Hc Hs]%andb_prop.
  rewrite IH, andb_true_r by done. unfold Token.hex_rune in Hc.
  rewrite !andb_true_iff, !negb_true_iff, !bool_decide_eq_false.
  split_and!; try lia; intros E; apply (f_equal byte_val) in E; change (byte_val quote) with 34 in E;
    change (byte_val backslash) with 92 in E; lia.
Qed.

#[export] Program Instance hex_base64 : StdBase64 := {| std_encode := Token.hex_encode; std_decode := Token.hex_decode |}.
Next Obligation. apply Token.hex_round. Qed.
Next Obligation. intros b. destruct (Token.hex_encode_shape b) as (-> & _). lia. Qed.
Next Obligation. apply hex_encode_plain. Qed.

Lemma format_int_plain v : plain (format_int v) = true.
Proof.
  assert (Hd : forall fuel v acc, plain acc = true -> plain (uint_digits fuel v acc) = true).
  { induction fuel as [|fuel IH]; intros w acc Ha; cbn [uint_digits]; [done|].
    assert (Hc : plain (String (digit (w mod 10)) acc) = true).
    { unfold plain in *. cbn [string_forallb]. rewrite Ha, andb_true_r. pose proof (Z.mod_pos_bound w 10 ltac:(lia)) as Hm.
      assert (Hdig : exists n, digit (w mod 10) = digit n /\ n ∈ [0; 1; 2; 3; 4; 5; 6; 7; 8; 9]).
      { exists (w mod 10). split; [done|]. rewrite !elem_of_cons, elem_of_nil. lia. }
      destruct Hdig as (n & -> & Hn). rewrite !elem_of_cons, elem_of_nil in Hn.
      destruct Hn as [->|[->|[->|[->|[->|[->|[->|[->|[->|[->|[]]]]]]]]]]]; by vm_compute. }
    destruct (w <? 10); [done | by apply IH]. }
  unfold format_int, format_uint. destruct (v <? 0); [|by apply Hd]. unfold plain. cbn [string_forallb].
  by apply (Hd 20%nat (- v) "").
Qed.

Definition parse_decimal (s : string) : option Time :=
  match scan_int s with Ok (v, EmptyString) => Some v | _ => None end.

Lemma decimal_round t : int64_range t -> parse_decimal (format_int t) = Some t.
Proof. intros Ht. unfold parse_decimal. rewrite <- (str_app_nil (format_int t)), int_round; [done|done|exact I]. Qed.

#[export] Program Instance decimal_time : NanoTime := {|
  formatTime := format_int;
  parseNano := parse_decimal;
  nano_range := int64_range
|}.
Next Obligation. by apply decimal_round. Qed.
Next Obligation. apply format_int_plain. Qed.

(** Thirty-two copies of the sum of the bytes. *)
Fixpoint byte_sum (s : string) : nat := match s with EmptyString => O | String c s => (nat_of_ascii c + byte_sum s)%nat end.
Fixpoint copies (n : nat) (c : ascii) : string := match n with O => "" | S n => String c (copies n c) end.

Lemma copies_length n c : String.length (copies n c) = n.
Proof. induction n as [|n IH]; [done|]. cbn [copies String.length]. by rewrite IH. Qed.

#[export] Program Instance checksum : SHA256 := {| sha256_sum b := copies 32 (ascii_of_nat (byte_sum b)) |}.
Next Obligation. intros b. apply copies_length. Qed.

(** * A small snapshot *)

Definition root0 : RootInfo := MkRoot true 493 1700000000000000000 "" "" "".
Definition limits0 : Limits := MkLimits 100000 1000000 1000000 1000 1000000 100 10 4096 0.
Definition sum0 : string := Token.hex_encode (copies 32 "a").
Definition dir0 : Entry := MkEntry "a" TypeDir true 493 64 5 6 1 10 2 "" 0 "" false "" "" "".
Definition file0 : Entry := MkEntry ("a/" +:+ String "n" (String (ascii_of_nat 10) "")) TypeFile true 420 3 7 8 1 11 1 sum0 9 "" false "" "" "".
Definition big0 : Entry := MkEntry "a/z" TypeFile true 420 200000 7 8 1 12 1 "" 0 "" false StateSkipped "read" "".
Definition link0 : Entry := MkEntry "b" TypeLink true 511 1 7 8 1 13 1 "" 0 (String (ascii_of_nat 255) "x") true "" "" "".
Definition entries0 : list Entry := [dir0; file0; big0; link0].
Definition blank0 : Header :=
  MkHeader 1 "20260102T030405Z" 3 1700000000000000000 1700000001000000000 "stop" "vm-off" false "v1" "/tree" 1 2 root0 "" "" limits0
    false [] [] (MkCounts ∅ ∅ 0 0) (MkByteCounts 3 3 3) (MkBlobCounts 1 0).
Definition header0 : Header := Summarize blank0 entries0.
Definition file_bytes : string := WriteManifest header0 entries0.
Definition opened0 := NewReader file_bytes (len file_bytes) "20260102T030405Z".

Example small_snapshot_validates : ValidateAll (S (String.length file_bytes)) opened0 = Some (Ok header0).
Proof. vm_compute. reflexivity. Qed.

(** * A small store *)

#[export] Instance sum_hash : MapHash := {|
  maphash seed s := (seed * 31 + 97 * Z.of_nat (byte_sum s)) mod 2 ^ 64;
  bloom_bits n := 10 * n
|}.

(** An older, incomplete snapshot. *)
Definition blank1 : Header :=
  MkHeader 1 "20260101T030405Z" 2 1690000000000000000 1690000001000000000 "stop" "none" false "v1" "/tree" 1 2 root0 "" "" limits0
    false [] [] (MkCounts ∅ ∅ 0 0) (MkByteCounts 3 3 3) (MkBlobCounts 1 0).
Definition older_bytes : string := WriteManifest (Summarize blank1 [dir0; big0]) [dir0; big0].

(** Both snapshots, the blob the newer refers to, one nothing refers to, and a
    blob left damaged by a crash. *)
Definition sum1 : string := Token.hex_encode (copies 32 "b").
Definition store0 : Disk := MkDisk
  (IsDir (list_to_map [("20260102T030405Z.jsonl", File file_bytes 8192 1700000000000000000);
                       ("20260101T030405Z.jsonl", File older_bytes 4096 1690000000000000000); ("notes", Other)]))
  (Some (list_to_map [(blobName sum0, File "a" 4096 1700000000000000000); (blobName sum1, File "b" 4096 1690000000000000000)]))
  ∅ ∅ None None None.
Definition keep_last (n : Z) : GCOptions := MkOptions (MkKeep n 0 0) 0 1800000000000000000 (1, 2) (3, 4).
Definition started (d : Disk) : St GCResult := MkSt [] d emptyResult.

Definition collected0 := GC (keep_last 1) Locked Locked (fun d => d) (started store0).

Example small_store_collects :
  collected0.1 = Ok tt /\ g_Deleted (report collected0.2) = ["20260101T030405Z"] /\ g_BlobsRemoved (report collected0.2) = 1
  /\ g_Strays (report collected0.2) = ["notes"] /\ g_BlobCount (report collected0.2) = 1.
Proof. vm_compute. auto. Qed.

(** The store with a manifest cut short. *)
Definition garbled0 : Disk := set_snapshots
  (IsDir (list_to_map [("20260102T030405Z.jsonl", File "{" 8192 1700000000000000000); ("20260101T030405Z.jsonl", File older_bytes 4096 1690000000000000000)])) store0.
Definition stopped0 := GC (keep_last 1) Locked Locked (fun d => d) (started garbled0).

Definition deleted0 := Delete ["20260102T030405Z"] (keep_last 1) Locked (started store0).
Definition next0 := NextSeq (started store0).

Example deleting_the_newest_frees_its_blob :
  deleted0.1 = Ok tt /\ g_Deleted (report deleted0.2) = ["20260102T030405Z"] /\ g_BlobsRemoved (report deleted0.2) = 2 /\ next0.1 = Ok 4.
Proof. vm_compute. auto. Qed.

(** The store without its stray name, verified. *)
Definition tidy0 : Disk := set_snapshots
  (IsDir (list_to_map [("20260102T030405Z.jsonl", File file_bytes 8192 1700000000000000000); ("20260101T030405Z.jsonl", File older_bytes 4096 1690000000000000000)])) store0.
Definition verified0 := Verify true Locked Locked (fun d => d) (1, 2) (MkSt [] tidy0 (MkVState emptyReport (newBloom 0 0 0) ∅)).

(** A filesystem with room. *)
#[export] Instance roomy : FileSystem := {|
  fs_allocated b := (len b + 4095) / 4096 * 4096;
  fs_now := 1800000000000000000;
  fs_free := (1000000, 1000, 1000)
|}.

(** A blob of a block of zeros and two bytes, in two pieces. *)
Definition pieces0 : list bytes := [zeros_to 4096 +:+ "h"; "i"].
Definition stored0 := store_blob (MkSinkOptions 0 true) "x" 100000 pieces0 (started store0).

Example the_zeros_are_a_hole : (match stored0.1 with Ok r => br_New r && (br_Stored r =? 8192) && (br_Size r =? 4098) | Err _ => false end) = true.
Proof. vm_compute. reflexivity. Qed.

(** The cap drops the oldest not spared, and spares the newest. *)
Definition capped0 : GCOptions := MkOptions (MkKeep 2 0 0) 1 1800000000000000000 (1, 2) (3, 4).
Definition capped := GC capped0 Locked Locked (fun d => d) (started store0).

Example the_cap_evicts_the_oldest : capped.1 = Ok tt /\ g_Evicted (report capped.2) = ["20260101T030405Z"] /\ g_Deleted (report capped.2) = ["20260101T030405Z"].
Proof. vm_compute. auto. Qed.

End TreeModels.

Module Models.

(** * Lists of fields

    Each field in hexadecimal, closed by a semicolon. *)

Definition semi : ascii := ";"%char.

Fixpoint enc_fields (fs : list string) : string :=
  match fs with
  | [] => ""
  | f :: fs' => Token.hex_encode f +:+ String semi (enc_fields fs')
  end.

Fixpoint dec_fields (s : string) : option (list string) :=
  match s with
  | EmptyString => Some []
  | String a s1 =>
    if bool_decide (a = semi) then l ← dec_fields s1; Some ("" :: l)
    else match s1 with
    | EmptyString => None
    | String b s2 =>
      x ← Token.unhex_digit a; y ← Token.unhex_digit b; l ← dec_fields s2;
      match l with
      | f :: fs => Some (String (ascii_of_nat (16 * x + y)) f :: fs)
      | [] => None
      end
    end
  end.

Lemma hex_digit_not_semi n : (n < 16)%nat -> Token.hex_digit n <> semi.
Proof. intros Hn. do 16 (destruct n as [|n]; [done|]). lia. Qed.

Lemma dec_enc_field f : forall rest l,
  dec_fields rest = Some l -> dec_fields (Token.hex_encode f +:+ String semi rest) = Some (f :: l).
Proof.
  induction f as [|c f IH]; intros rest l E.
  { cbn [Token.hex_encode]. rewrite string_app_nil. cbn [dec_fields]. rewrite bool_decide_eq_true_2 by done. by rewrite E. }
  pose proof (nat_ascii_bounded c) as Hc.
  assert (Hd : (nat_of_ascii c / 16 < 16)%nat) by (apply Nat.Div0.div_lt_upper_bound; lia).
  assert (Hm : (nat_of_ascii c mod 16 < 16)%nat) by (apply Nat.mod_upper_bound; lia).
  cbn [Token.hex_encode]. rewrite !string_app_cons. cbn [dec_fields].
  rewrite bool_decide_eq_false_2 by by apply hex_digit_not_semi.
  rewrite !Token.unhex_hex_digit by done. cbn [mbind option_bind]. rewrite (IH rest l E). cbn [mbind option_bind].
  rewrite <- Nat.div_mod by lia. by rewrite ascii_nat_embedding.
Qed.

Lemma dec_enc_fields fs : dec_fields (enc_fields fs) = Some fs.
Proof. induction fs as [|f fs IH]; [done|]. cbn [enc_fields]. by apply dec_enc_field. Qed.

(** Integers in binary, the sign first. *)
Fixpoint pos_str (p : positive) : string :=
  match p with xH => "" | xO p' => String "0"%char (pos_str p') | xI p' => String "1"%char (pos_str p') end.
Fixpoint str_pos (s : string) : positive :=
  match s with
  | EmptyString => xH
  | String c s' => if bool_decide (c = "0"%char) then xO (str_pos s') else xI (str_pos s')
  end.
Definition z_str (z : Z) : string :=
  match z with
  | Z0 => "0"
  | Zpos p => String "+"%char (pos_str p)
  | Zneg p => String "-"%char (pos_str p)
  end.
Definition str_z (s : string) : option Z :=
  match s with
  | EmptyString => None
  | String c s' =>
    Some (if bool_decide (c = "+"%char) then Zpos (str_pos s')
          else if bool_decide (c = "-"%char) then Zneg (str_pos s') else Z0)
  end.

Lemma pos_str_round p : str_pos (pos_str p) = p.
Proof. induction p; simpl; congruence. Qed.

Lemma z_str_round z : str_z (z_str z) = Some z.
Proof. destruct z; simpl; by rewrite ?pos_str_round. Qed.

(** * Signatures and tokens *)

(** The first 32 bytes of a key, padded. *)
Fixpoint key32 (n : nat) (s : string) : string :=
  match n with
  | O => ""
  | S n' => match s with String c s' => String c (key32 n' s') | EmptyString => String "."%char (key32 n' "") end
  end.

Lemma key32_length n : forall s, String.length (key32 n s) = n.
Proof. induction n as [|n IH]; intros s; [done|]. destruct s; simpl; by rewrite IH. Qed.

#[export] Program Instance demo_sig : Token.SigScheme := {|
  Token.PublicOf priv := key32 32 priv;
  Token.Sign priv m := key32 32 priv +:+ m;
  Token.SigVerify pub m s := str_eqb s (pub +:+ m)
|}.
Next Obligation. intros. apply str_eqb_refl. Qed.
Next Obligation. intros. unfold len. by rewrite key32_length. Qed.

Fixpoint cons_fields (cs : list Token.Constraint) : list string :=
  match cs with [] => [] | c :: cs' => Token.Key c :: Token.Value c :: cons_fields cs' end.
Fixpoint fields_cons (fs : list string) : option (list Token.Constraint) :=
  match fs with
  | [] => Some []
  | [_] => None
  | k :: v :: fs' => cs ← fields_cons fs'; Some (Token.MkConstraint k v :: cs)
  end.

Lemma cons_fields_round cs : fields_cons (cons_fields cs) = Some cs.
Proof. induction cs as [|[k v] cs IH]; simpl; [done|]. by rewrite IH. Qed.

Definition payload_fields (p : Token.payload) : list string :=
  Token.p_ID p :: Token.p_Agent p :: Token.p_Tool p :: Token.p_Op p
  :: z_str (Token.p_ExpiryNanos p) :: z_str (Token.p_Epoch p) :: cons_fields (Token.p_Constraints p).
Definition fields_payload (fs : list string) : option Token.payload :=
  match fs with
  | i :: a :: t :: o :: x :: e :: cs =>
    xz ← str_z x; ez ← str_z e; cs ← fields_cons cs; Some (Token.MkPayload i a t o cs xz ez)
  | _ => None
  end.

Lemma payload_fields_round p : fields_payload (payload_fields p) = Some p.
Proof.
  unfold fields_payload, payload_fields. rewrite !z_str_round. cbn [mbind option_bind].
  rewrite cons_fields_round. by destruct p.
Qed.

Definition env_fields (fs : list string) : option Token.envelope :=
  match fs with [p; s] => Some (Token.MkEnvelope p s) | _ => None end.

#[export] Program Instance demo_wire : Token.TokenWire := {|
  Token.marshal_payload p := Some (enc_fields (payload_fields p));
  Token.unmarshal_payload b := fs ← dec_fields b; fields_payload fs;
  Token.marshal_envelope e := Some (enc_fields [Token.e_Payload e; Token.e_Sig e]);
  Token.unmarshal_envelope b := fs ← dec_fields b; env_fields fs
|}.
Next Obligation.
  intros p _. eexists. split; [done|]. rewrite dec_enc_fields. apply payload_fields_round.
Qed.
Next Obligation. intros e. eexists. split; [done|]. rewrite dec_enc_fields. by destruct e. Qed.

#[export] Program Instance demo_b64 : Base64 := {| b64_encode := Token.hex_encode; b64_decode := Token.hex_decode |}.
Next Obligation. apply Token.hex_round. Qed.

(** * The ASCII case tables *)

Definition is_upper (r : Z) : bool := (65 <=? r) && (r <=? 90).
Definition is_lower (r : Z) : bool := (97 <=? r) && (r <=? 122).
Definition swap_case (r : Z) : Z := if is_upper r then r + 32 else if is_lower r then r - 32 else r.

#[export] Program Instance demo_unicode : Unicode := {|
  SimpleFold := swap_case;
  rune_lower r := if is_upper r then r + 32 else r
|}.
Next Obligation.
  intros r. exists 2%nat. split; [lia|]. cbn [Nat.iter nat_rect]. unfold swap_case, is_upper, is_lower.
  repeat case_match; lia.
Qed.
Next Obligation.
  intros r Hr. unfold valid_rune, swap_case, is_upper, is_lower in *. guards. repeat case_match; lia.
Qed.

(** * A small JSON *)

Definition dquote : ascii := ascii_of_nat 34.

(** JSON text written with single quotes. *)
Fixpoint js (s : string) : string :=
  match s with
  | EmptyString => ""
  | String c s' => String (if bool_decide (c = "'"%char) then dquote else c) (js s')
  end.

Inductive ltok := LOpen | LClose | LArr | LEnd | LColon | LComma | LStr (s : string) | LNum (n : Z).

Definition is_digit : ascii -> bool := in_range "0"%char "9"%char.

(** The lexer: [inside] is the string read so far, [num] the number. Anything it
    does not know is skipped. *)
Fixpoint lex (s : string) (inside : option string) (num : option Z) : list ltok :=
  match s with
  | EmptyString => match num with Some n => [LNum n] | None => [] end
  | String c s' =>
    match inside with
    | Some acc =>
      if bool_decide (c = dquote) then LStr acc :: lex s' None None
      else lex s' (Some (acc +:+ String c "")) None
    | None =>
      if is_digit c
      then lex s' None (Some (10 * default 0 num + Z.of_nat (nat_of_ascii c) - 48))
      else
        match num with Some n => [LNum n] | None => [] end
        ++ (if bool_decide (c = dquote) then lex s' (Some "") None
            else match c with
                 | "{"%char => [LOpen] | "}"%char => [LClose] | "["%char => [LArr] | "]"%char => [LEnd]
                 | ":"%char => [LColon] | ","%char => [LComma] | _ => []
                 end ++ lex s' None None)
    end
  end.

(** One value, the members of an object and the elements of an array. *)
Fixpoint value (fuel : nat) (ts : list ltok) : option (any * list ltok) :=
  match fuel with
  | O => None
  | S n =>
    match ts with
    | LStr s :: ts => Some (AStr s, ts)
    | LNum z :: ts => Some (ANum z, ts)
    | LOpen :: ts => members n ts ∅
    | LArr :: ts => elems n ts []
    | _ => None
    end
  end
with members (fuel : nat) (ts : list ltok) (acc : gmap string any) : option (any * list ltok) :=
  match fuel with
  | O => None
  | S n =>
    match ts with
    | LClose :: ts => Some (AObj acc, ts)
    | LComma :: ts => members n ts acc
    | LStr k :: LColon :: ts => '(v, ts) ← value n ts; members n ts (<[k := v]> acc)
    | _ => None
    end
  end
with elems (fuel : nat) (ts : list ltok) (acc : list any) : option (any * list ltok) :=
  match fuel with
  | O => None
  | S n =>
    match ts with
    | LEnd :: ts => Some (AArr acc, ts)
    | LComma :: ts => elems n ts acc
    | _ => '(v, ts) ← value n ts; elems n ts (acc ++ [v])
    end
  end.

Definition unmarshal (b : bytes) : option any :=
  let ts := lex b None None in
  '(v, rest) ← value (S (2 * length ts)) ts; match rest with [] => Some v | _ => None end.

(** The decoder's token stream: without colons and commas. *)
Definition stream (b : bytes) : list jtok :=
  omap (fun t => match t with
                 | LOpen => Some TObjOpen | LClose => Some TObjClose
                 | LArr => Some TArrOpen | LEnd => Some TArrClose
                 | LStr s => Some (TStr s) | LNum _ => Some TScalar
                 | LColon | LComma => None
                 end) (lex b None None).

Definition quoted (s : string) : string := String dquote s +:+ String dquote "".
Definition commas (l : list string) : string := String.concat "," l.

Fixpoint render (fuel : nat) (v : any) : string :=
  match fuel with
  | O => ""
  | S n =>
    match v with
    | ANull => "null"
    | ABool b => if b then "true" else "false"
    | ANum z => pretty z
    | AStr s => quoted s
    | AArr l => "[" +:+ commas (render n <$> l) +:+ "]"
    | AObj m => "{" +:+ commas ((fun kv => quoted kv.1 +:+ ":" +:+ render n kv.2) <$> map_to_list m) +:+ "}"
    end
  end.

#[export] Instance demo_json : GoJson := {|
  Marshal v := Some (render 16 v);
  Unmarshal := unmarshal;
  Tokens b := (stream b, true)
|}.

(** * The other libraries *)

#[export] Instance demo_render : Broker.Rendering := {|
  Broker.regText _ := "registry";
  Broker.tokText _ := "token";
  Broker.itoa := pretty;
  Broker.formatRFC3339 t := pretty t;
  Broker.marshal_constraints m := Some (render 2 (AObj (AStr <$> m)))
|}.

#[export] Instance demo_net : Gateway.NetLib := {|
  Gateway.url_parse s := Some (Gateway.MkURL s "/mcp" "");
  Gateway.hop_by_hop _ := ["Connection"; "Keep-Alive"; "Transfer-Encoding"; "Upgrade"]
|}.

(** Seconds after the Unix epoch, in decimal. *)
Definition read_seconds (s : string) : option Time :=
  match lex s None None with [LNum n] => Some (unixEpoch + n * Second) | _ => None end.

#[export] Instance demo_time : TimeFormat := {| ParseRFC3339 := read_seconds |}.

Definition get_str (m : gmap string any) (k : string) : string := Mcp.get_string m k.
Definition get_num (m : gmap string any) (k : string) : Z := match m !! k with Some (ANum z) => z | _ => 0 end.
Definition get_obj (m : gmap string any) (k : string) : gmap string any := default ∅ (m !! k ≫= as_obj).

Definition read_statement (b : bytes) : option Opsig.Statement :=
  m ← unmarshal b ≫= as_obj;
  let t := get_obj m "target_agent" in
  let a := get_obj m "action" in
  Some (Opsig.MkStatement (get_num m "v") (get_str m "instance") (get_str m "directive_id")
    (Opsig.MkTarget (get_str t "cn") (get_num t "generation"))
    (get_str m "issued_at") (get_str m "not_before") (get_str m "expires_at")
    (Opsig.MkAction (get_str a "kind") (get_str a "tool") (get_str a "op") None
       (get_str a "arg_binding") (get_num a "uses") (get_str a "text"))).

Definition read_envelope (b : bytes) : option Opsig.Envelope :=
  m ← unmarshal b ≫= as_obj;
  Some (Opsig.MkEnvelope (get_num m "v") (get_str m "instance") (get_str m "op") ∅ (get_str m "issued_at")).

#[export] Instance demo_opsig : Opsig.OpsigWire := {|
  Opsig.decode_statement := read_statement;
  Opsig.decode_envelope := read_envelope
|}.

#[export] Instance demo_verifier : Opsig.OpVerifier := {| Opsig.op_verify ns raw sig := str_eqb sig (ns +:+ raw) |}.

#[export] Instance demo_admin : DirectiveApi.AdminLib := {|
  DirectiveApi.b64std_encode := Token.hex_encode;
  DirectiveApi.opText _ := "statement"
|}.

#[export] Instance demo_ledger : SentLedger.LedgerLib := {|
  SentLedger.short s := s;
  SentLedger.line_size l := len (SentLedger.ln_Body l)
|}.

#[export] Instance demo_msg : Messaging.MsgLib := {|
  Messaging.quote := quoted;
  Messaging.neutraliseMarkers s := s;
  Messaging.ledgerText _ := "ledger"
|}.

(** A request is its name and key and a proof, the key repeated. *)
#[export] Instance demo_x509 : Enrol.X509 := {|
  Enrol.pem_decode := Some;
  Enrol.parse_request b := fs ← dec_fields b;
    match fs with [cn; key; _] => Some (Enrol.MkCSR cn key) | _ => None end;
  Enrol.check_signature b :=
    match dec_fields b with Some [_; key; proof] => str_eqb key proof | _ => false end;
  Enrol.create_cert l := Some (Enrol.lf_CN l +:+ Enrol.lf_Key l);
  Enrol.parse_ip := Some
|}.

End Models.
