(* ===== verification/Witnesses.v ===== *)
(** Each theorem that has hypotheses, applied at a concrete input where they
    hold: one broker with a mail tool and a worker, one enrolled host, one
    directive, evaluated with the instances of [Models]. *)

From S2P Require Import Prelude Go Mcp FoldKeys Rules Registry Token Broker Gateway Authority Captool Opsig Rate Directive SentLedger Messaging DirectiveApi Enrol Models.

Module Witnesses.
Import Broker Gateway Authority Models.

(** Decide a closed goal by evaluation. *)
Ltac eval_goal := vm_compute; reflexivity.
(** A closed disequality of strings or numbers. *)
Ltac differs := vm_compute; discriminate.
Ltac ascii_utf8 := apply Token.utf8_ascii; reflexivity.

(** * A broker, a worker and a mail tool *)

Definition search : Registry.Operation := Registry.MkOperation "search" {["folder" := "folder"]} ["folder"].
Definition mail : Registry.Tool :=
  Registry.MkTool "mail" "localhost:9000" {["search" := search]} {["folder" := ["inbox"]]} true false false.
Definition llm : Registry.Tool :=
  Registry.MkTool "llm" "builtin" {["generate" := Registry.MkOperation "generate" ∅ []]} ∅ false false false.

Definition policy : Rules.Policy :=
  Rules.build [Rules.GObtain "worker" "mail" "search"; Rules.GObtain "worker" "llm" "generate"].

Definition b0 : Broker :=
  MkBroker "signing key" (Token.PublicOf "signing key") "manager" policy
    (<["mail" := mail]> {["llm" := llm]}) Hour "secret" "api key" ∅ 3 ∅ true (MkRevocationState 3 []) [].

Definition t0 : Time := unixEpoch + 1000 * Second.
Definition id16 : bytes := "0123456789abcdef".

Definition mail_req : CapRequest := MkCapRequest "mail" "search" "" {["folder" := "inbox"]}.
Definition llm_req : CapRequest := MkCapRequest "llm" "generate" "" ∅.

Definition ev_mail : event := EvRequest (Cert "worker") (Some mail_req) t0 (Some id16).
Definition ev_llm : event := EvRequest (Cert "worker") (Some llm_req) t0 (Some id16).
Definition s1 : sys := exec (boot b0) ev_mail.
Definition s2 : sys := exec s1 ev_llm.

Lemma b0_ok : boot_ok b0.
Proof. repeat split; vm_compute; discriminate. Qed.
Lemma b0_sync : in_sync b0.
Proof. split; [reflexivity | eval_goal]. Qed.

Lemma mail_req_utf8 : request_utf8 mail_req.
Proof.
  split_and!; [ascii_utf8.. |]. intros k v Hk. cbn [mail_req cr_Constraints] in Hk.
  apply lookup_singleton_Some in Hk as [<- <-]. split; ascii_utf8.
Qed.
Lemma llm_req_utf8 : request_utf8 llm_req.
Proof. split_and!; [ascii_utf8.. |]. intros k v Hk. cbn [llm_req cr_Constraints] in Hk. by rewrite lookup_empty in Hk. Qed.

Lemma request_ev_ok s req :
  request_utf8 req -> b_grantTTL (s_b s) = Hour -> event_ok s (EvRequest (Cert "worker") (Some req) t0 (Some id16)).
Proof.
  intros Hq Ht. simpl. rewrite Ht. split_and!.
  - intros cn [= <-]. ascii_utf8.
  - by intros r [= <-].
  - vm_compute. split; discriminate.
Qed.

Lemma s1_reachable : reachable b0 s1.
Proof. apply reach_step; [constructor | apply request_ev_ok; [apply mail_req_utf8 | reflexivity]]. Qed.
Lemma s2_reachable : reachable b0 s2.
Proof. apply reach_step; [apply s1_reachable | apply request_ev_ok; [apply llm_req_utf8 | eval_goal]]. Qed.

(** The token of an answer. *)
Definition answered (r : Broker * response string) : string := match r.2 with ROk t => t | _ => "" end.
Definition t64 : string := answered (handleRequest (Cert "worker") (Some mail_req) t0 (Some id16) b0).
Definition llm64 : string := answered (handleRequest (Cert "worker") (Some llm_req) t0 (Some id16) (s_b s1)).
Definition raw_of (t : string) : bytes := default "" (Token.hex_decode t).

Definition call_body : bytes :=
  js "{'method':'tools/call','params':{'name':'search','arguments':{'folder':'inbox','_capability':'"
  +:+ t64 +:+ js "'}}}".
Definition call_q : HttpReq := MkHttpReq (Cert "worker") "POST" "/mcp/mail/" "/mcp/mail/" "" ∅ (Some call_body) (Some "10.0.0.2").
Definition llm_q : HttpReq :=
  MkHttpReq (Cert "worker") "POST" "/v1/messages" "/v1/messages" "" {["Authorization" := ["Bearer " +:+ llm64]]}
    (Some "{}") (Some "10.0.0.2").
Definition target : URL := MkURL "localhost:9000" "/mcp" "".
Definition t1 : Time := t0 + Minute.

(** The request a verdict forwards. *)
Definition sent (v : Broker * verdict) : OutReq :=
  match v.2 with Forward o => o | _ => MkOutReq "" "" "" ∅ "" end.

Definition call_out := gateway "mail" mail target call_q t1 (s_b s2).
Definition llm_out := llmProxy target llm_q t1 (s_b s2).

Lemma call_forwarded : gateway "mail" mail target call_q t1 (s_b s2) = (call_out.1, Forward (sent call_out)).
Proof. eval_goal. Qed.

(** A token whose payload is the one of a mint the state has. *)
Lemma unforged_by s tok m env pl :
  Token.parse tok = Ok (env, pl) -> m ∈ s_minted s -> signed_bytes m = Some (Token.e_Payload env) -> unforged s tok.
Proof. intros E Hm Hs env' pl' E' _. rewrite E in E'. injection E' as <- <-. by exists m. Qed.

(** The envelope and payload of a token. *)
Definition opened (tok : bytes) : Token.envelope * Token.payload :=
  match Token.parse tok with Ok r => r | Err _ => (Token.MkEnvelope "" "", Token.MkPayload "" "" "" "" [] 0 0) end.

Definition mail_mint : mint := MkMint "worker" id16 (request_grant b0 mail_req "worker" t0).
Definition llm_mint : mint := MkMint "worker" id16 (request_grant (s_b s1) llm_req "worker" t0).

Lemma s2_minted : s_minted s2 = [llm_mint; mail_mint].
Proof. eval_goal. Qed.

Lemma mail_unforged : unforged s2 (raw_of t64).
Proof.
  apply (unforged_by _ _ mail_mint (opened (raw_of t64)).1 (opened (raw_of t64)).2);
    [eval_goal | rewrite s2_minted; by right; left | eval_goal].
Qed.
Lemma llm_unforged : unforged s2 (raw_of llm64).
Proof.
  apply (unforged_by _ _ llm_mint (opened (raw_of llm64)).1 (opened (raw_of llm64)).2);
    [eval_goal | rewrite s2_minted; by left | eval_goal].
Qed.

(** The only token an option presents. *)
Lemma only_token s (o : option bytes) tok : o = Some tok -> unforged s tok -> forall tok', o = Some tok' -> unforged s tok'.
Proof. intros -> Hu tok' E. apply (inj Some) in E. by subst tok'. Qed.

Lemma call_presents : presented call_q = Some (raw_of t64).
Proof. eval_goal. Qed.

Lemma forwarded_call_is_backed_witness :
  gateway "mail" mail target call_q t1 (s_b s2) = (call_out.1, Forward (sent call_out))
  /\ exists caller method m, q_peer call_q = Cert caller /\ message call_q = Some (method, m)
     /\ (free_method method \/ (method = "tools/call" /\ call_backed (b_rules b0) s2 mail m caller t1)).
Proof.
  split; [apply call_forwarded|].
  apply (forwarded_call_is_backed b0 s2 "mail" mail target call_q t1 call_out.1 (sent call_out)).
  - apply b0_ok.
  - apply s2_reachable.
  - exact (only_token s2 _ _ call_presents mail_unforged).
  - apply call_forwarded.
Defined.

Lemma forwarded_llm_is_backed_witness :
  exists caller mt, q_peer llm_q = Cert caller /\ (caller ∉ b_revoked (s_b s2)) /\ mt ∈ s_minted s2
    /\ mint_covers (b_rules b0) mt caller Registry.ReservedLLMTool Registry.ReservedLLMOp
         (fun _ => None) t1 (b_minEpoch (s_b s2))
    /\ llmPathAllowed (q_method llm_q) (q_escaped llm_q) = true
    /\ o_header (sent llm_out) !! "Authorization" = None
    /\ o_header (sent llm_out) !! "X-Api-Key" = Some [b_apiKey (s_b s2)].
Proof.
  apply (forwarded_llm_is_backed b0 s2 target llm_q t1 llm_out.1 (sent llm_out)).
  - apply b0_ok.
  - apply s2_reachable.
  - apply (only_token s2 _ (raw_of llm64)); [eval_goal | apply llm_unforged].
  - eval_goal.
Defined.

(** * Revocation, bumps and minting *)

Definition es_before : list event := [ev_mail; ev_llm].
Definition ev_revoke : event := EvRevoke (Some "worker") true.
Definition es_after : list event := [EvRestart (b_reg b0); EvTools (Cert "worker")].

Lemma ev_mail_ok : event_ok (boot b0) ev_mail.
Proof. apply request_ev_ok; [apply mail_req_utf8 | reflexivity]. Qed.
Lemma ev_llm_ok : event_ok s1 ev_llm.
Proof. apply request_ev_ok; [apply llm_req_utf8 | eval_goal]. Qed.

Lemma before_run_ok : run_ok (boot b0) es_before.
Proof. split; [apply ev_mail_ok|]. split; [done|]. split; [apply ev_llm_ok|]. by split. Qed.
(** The bump, after which no later write matters, here a failing revocation. *)
Definition es_cut : list event := EvRevoke (Some "other") false :: es_after.
Lemma bump_run_fits : run_fits (run (boot b0) es_before) (EvBump true :: es_cut).
Proof. split; [eval_goal|]. repeat split. Qed.

Lemma revocation_is_terminal_witness :
  let b := s_b (run (boot b0) (es_before ++ ev_revoke :: es_after)) in
  (handleTools (Cert "worker") b).2 = forbidden
  /\ (forall body now idb, (handleRequest (Cert "worker") body now idb b).2 = forbidden).
Proof.
  destruct (revocation_is_terminal b0 es_before "worker" true es_after ltac:(done) (or_introl (conj eq_refl eq_refl)))
    as (H1 & H2 & _).
  split; [exact H2 | exact H1].
Defined.

Definition call_msg : gmap string any := match message call_q with Some (_, m) => m | None => ∅ end.

Lemma bump_cuts_earlier_tokens_witness :
  ~ exists b' o, gateway "mail" mail target call_q t1 (s_b (run (boot b0) (es_before ++ EvBump true :: es_cut)))
                 = (b', Forward o).
Proof.
  intros (b' & o & E). revert E.
  refine (proj1 (bump_cuts_earlier_tokens b0 es_before true es_cut mail_mint (raw_of t64) (opened (raw_of t64)).1
    b0_ok b0_sync before_run_ok (or_introl (conj eq_refl eq_refl)) bump_run_fits _ _) "mail" mail target call_q t1 b' o call_msg _ _).
  - change (run (boot b0) es_before) with s2. rewrite s2_minted. by right; left.
  - eval_goal.
  - eval_goal.
  - eval_goal.
Defined.

Lemma mint_exactly_witness :
  (exists r64, (handleRequest (Cert "worker") (Some mail_req) t0 (Some id16) b0).2 = ROk r64)
  <-> mintable b0 mail_req "worker".
Proof.
  apply (mint_exactly b0 mail_req "worker" t0 id16); [ascii_utf8 | apply mail_req_utf8 | split; differs].
Defined.

(** The decoded message of the call and its projection. *)
Definition call_args : gmap string string := {["folder" := "inbox"]}.

Lemma call_parsed : Mcp.Parse call_body = Some ("tools/call", call_msg).
Proof. eval_goal. Qed.

Lemma call_fits : fits (s_b s2) (request_grant b0 mail_req "worker" t0) t64 "mail" mail call_q t1 call_body call_msg.
Proof.
  constructor.
  - eval_goal.
  - reflexivity.
  - reflexivity.
  - reflexivity.
  - eval_goal.
  - apply call_parsed.
  - exists "search", call_args, call_args. split; [eval_goal|]. split; [eval_goal|]. split; [eval_goal|].
    assert (E : Token.g_Constraints (request_grant b0 mail_req "worker" t0) = [Token.MkConstraint "folder" "inbox"]) by eval_goal.
    rewrite E. constructor; [reflexivity | constructor].
  - apply (bool_decide_eq_false_1 _). eval_goal.
  - split; [differs | eval_goal].
  - differs.
Qed.

Lemma minted_token_works_witness :
  exists b' o, gateway "mail" mail target call_q t1 (s_b s2) = (b', Forward o)
    /\ o_body o = if Registry.FirstParty mail then call_body else Mcp.StripCapability call_msg.
Proof.
  apply (minted_token_works b0 mail_req "worker" t0 id16 (s_b s1) t64 (s_b s2) "mail" mail target call_q t1 call_body call_msg).
  - eval_goal.
  - eval_goal.
  - ascii_utf8.
  - apply mail_req_utf8.
  - split; differs.
  - split; differs.
  - differs.
  - apply call_fits.
Defined.

(** * Registration *)

Definition reg_body : RegisterRequest := MkRegisterRequest "mail" [("search", {["folder" := "folder"]})].
Definition reg_out := handleRegister (Some reg_body) b0.

Lemma registration_cannot_widen_witness :
  exists req cfg t, Some reg_body = Some req /\ b_reg b0 !! rr_Name req = Some cfg
    /\ Registry.External cfg = false /\ b_reg reg_out.1 = <[Registry.Name cfg := t]> (b_reg b0).
Proof.
  destruct (registration_cannot_widen (Some reg_body) b0 reg_out.1 (b_pub b0, b_minEpoch b0))
    as (req & cfg & t & E1 & E2 & E3 & E4 & _); [eval_goal|].
  exists req, cfg, t. exact (conj E1 (conj E2 (conj E3 E4))).
Defined.

(** * The mail tool *)

Definition mail_op : Captool.Operation :=
  Captool.MkOp "search" "" [Captool.MkParamSpec "folder" "" ""] {["folder" := "folder"]} None
    (Some (fun _ args => Ok (AStr (default "" (args !! "folder"))))).
Definition mail_cfg : Captool.Config := Captool.MkConfig "mail" "1" "localhost:9000" [mail_op] 0 "".
Definition no_server : Captool.Server := Captool.MkServer "" "" ∅ 0 "" None 0 zeroTime [].
(** The server, built and registered with the broker. *)
Definition mail_server : Captool.Server :=
  match Captool.New "secret" mail_cfg with
  | Ok s => match Captool.Register (Some (Token.EncodePublicKey (b_pub b0), 3)) t0 s with
            | Ok s => s | Err _ => no_server end
  | Err _ => no_server
  end.
Definition tool_world : Captool.World := Captool.MkWorld t1 t1 (Some (3, t1)).
Definition tool_vc : Captool.ValidatedContext := Captool.MkValidated "worker" "mail" "search" call_args.
Definition tool_header : Header := o_header (sent call_out).
Definition tool_out := Captool.serveHTTP tool_header (Some call_body) tool_world mail_server.

Lemma tool_ran :
  Captool.serveHTTP tool_header (Some call_body) tool_world mail_server
  = (tool_out.1.1, tool_out.1.2, Some (tool_vc, call_args)).
Proof. eval_goal. Qed.

Lemma tool_presents : Captool.tool_presented (Some call_body) = Some (raw_of t64).
Proof. eval_goal. Qed.

Lemma handler_runs_backed_witness :
  Captool.s_secret mail_server <> "" /\ hget tool_header toolSecretHeader = Captool.s_secret mail_server
  /\ Captool.vc_Caller tool_vc = hget tool_header callerHeader
  /\ exists o mt, Captool.s_ops mail_server !! Captool.vc_Operation tool_vc = Some o /\ mt ∈ s_minted s2
     /\ mint_covers (b_rules b0) mt (Captool.vc_Caller tool_vc) (Captool.s_name mail_server) (Captool.vc_Operation tool_vc)
          (Mcp.param_of call_args (Captool.o_CaveatParam o)) (Captool.w_now tool_world)
          (Captool.freshEpoch (Captool.w_since tool_world) (Captool.w_refresh tool_world) mail_server).2.
Proof.
  destruct (Captool.handler_runs_backed b0 s2 tool_header (Some call_body) tool_world mail_server tool_out.1.1
    tool_out.1.2 tool_vc call_args) as (H1 & H2 & H3 & o & mt & H4 & H5 & H6 & _).
  - apply b0_ok.
  - apply s2_reachable.
  - eval_goal.
  - exact (only_token s2 _ _ tool_presents mail_unforged).
  - apply tool_ran.
  - exact (conj H1 (conj H2 (conj H3 (ex_intro _ o (ex_intro _ mt (conj H4 (conj H5 H6))))))).
Defined.

Lemma mail_paired : Captool.paired (s_b s2) mail mail_server.
Proof.
  constructor.
  - eval_goal.
  - eval_goal.
  - split; [eval_goal | differs].
  - reflexivity.
  - intros rt op ro E1 E2. assert (Er : b_reg (s_b s2) !! Registry.Name mail = Some mail) by eval_goal.
    rewrite Er in E1. apply (inj Some) in E1. subst rt. unfold mail in E2. cbn [Registry.Operations] in E2.
    apply lookup_singleton_Some in E2 as [<- <-]. exists mail_op. split; [eval_goal | reflexivity].
Qed.

Lemma gateway_and_tool_agree_witness :
  exists caller op args so, q_peer call_q = Cert caller /\ Captool.s_ops mail_server !! op = Some so
    /\ let vc := Captool.MkValidated caller (Registry.Name mail) op
                   (Mcp.MapConstraintParams (map_to_list (Captool.o_CaveatParam so)) args) in
       (Captool.serveHTTP (o_header (sent call_out)) (Some (o_body (sent call_out))) tool_world mail_server).2
       = match (f ← Captool.Backstop so; f vc args) with Some _ => None | None => Some (vc, args) end.
Proof.
  apply (Captool.gateway_and_tool_agree "mail" mail target call_q t1 (s_b s2) call_out.1 (sent call_out) call_msg
    tool_world mail_server (raw_of t64)).
  - reflexivity.
  - apply mail_paired.
  - intros h _ k Hk Hin. cbn [hop_by_hop demo_net] in Hin.
    repeat (apply elem_of_cons in Hin as [->|Hin]; [by vm_compute in Hk|]). by apply elem_of_nil in Hin.
  - exact call_parsed.
  - exact call_presents.
  - split; [differs|]. split; [differs|]. intros env pl E.
    assert (Eo : Token.parse (raw_of t64) = Ok (opened (raw_of t64))) by eval_goal.
    rewrite Eo in E. apply (f_equal (fun r => match r with Ok x => x.2 | Err _ => pl end)) in E.
    change ((opened (raw_of t64)).2 = pl) in E. rewrite <- E. eval_goal.
  - apply call_forwarded.
Defined.

Lemma tool_epoch_freshness_witness :
  Captool.s_epoch (Captool.freshEpoch (t0 + 10 * Second) (Some (4, t1)) mail_server).1 = 4.
Proof.
  destruct (Captool.tool_epoch_freshness (t0 + 10 * Second) (Some (4, t1)) mail_server
    (Captool.freshEpoch (t0 + 10 * Second) (Some (4, t1)) mail_server).1
    (Captool.freshEpoch (t0 + 10 * Second) (Some (4, t1)) mail_server).2) as [(_ & _ & H)|(_ & H & _)].
  - split; [eval_goal | differs].
  - eval_goal.
  - exfalso. vm_compute in H. discriminate H.
  - exact H.
Defined.

(** * What the gateway lets through *)

Definition clash_body : bytes := js "{'method':'tools/call','a':{'Key':1,'kEY':2}}".
Definition clash_tree : FoldKeys.jtree :=
  FoldKeys.JObject [("method", FoldKeys.JString "tools/call");
                    ("a", FoldKeys.JObject [("Key", FoldKeys.JScalar); ("kEY", FoldKeys.JScalar)])].

Lemma folded_collision_exact_witness : FoldKeys.FoldedKeyCollision clash_body = true.
Proof.
  rewrite (FoldKeys.folded_collision_exact clash_body [clash_tree] true (Tokens clash_body).1); [eval_goal.. |].
  intros _. eval_goal.
Defined.

Lemma params_are_read_arguments_witness :
  exists t o, b_reg b0 !! "mail" = Some t /\ Registry.Operations t !! "search" = Some o
    /\ (forall k, call_args !! k = Mcp.param_of call_args (Registry.CaveatParam o) k).
Proof.
  destruct (Registry.params_are_read_arguments (b_reg b0) "mail" "search" call_args call_args)
    as (t & o & E1 & E2 & E3 & _).
  - intros t o Et Eo. assert (Er : b_reg b0 !! "mail" = Some mail) by eval_goal.
    rewrite Er in Et. apply (inj Some) in Et. subst t. unfold mail in Eo. cbn [Registry.Operations] in Eo.
    apply lookup_singleton_Some in Eo as [_ <-]. reflexivity.
  - eval_goal.
  - exists t, o. exact (conj E1 (conj E2 E3)).
Defined.

Lemma no_forged_headers_witness :
  lever_headers_ok mail "worker" (b_toolSecret (s_b s2)) (o_header (sent call_out)).
Proof.
  apply (no_forged_headers "mail" mail target call_q t1 (s_b s2) call_out.1 (sent call_out) "worker").
  - reflexivity.
  - apply call_forwarded.
Defined.

(** The mail tool when it is not first-party. *)
Definition mail3 : Registry.Tool :=
  Registry.MkTool "mail" "localhost:9000" {["search" := search]} {["folder" := ["inbox"]]} false false false.
Definition call3_out := gateway "mail" mail3 target call_q t1 (s_b s2).

Lemma third_party_gets_no_token_witness :
  exists m', o_body (sent call3_out) = default "" (Marshal (AObj m')) /\ Mcp.call_args m' !! Mcp.CapabilityArg = None.
Proof.
  destruct (third_party_gets_no_token "mail" mail3 target call_q t1 (s_b s2) call3_out.1 (sent call3_out) call_body call_msg)
    as (m' & E1 & E2 & _).
  - reflexivity.
  - reflexivity.
  - exact call_parsed.
  - eval_goal.
  - exists m'. exact (conj E1 E2).
Defined.

End Witnesses.
