(* ===== verification/WitnessesNode.v ===== *)
(** The witnesses of the node's theorems: signed directives, their store and
    routes, the rate windows, the sent ledger, messaging and enrolment, each
    theorem applied at a concrete input where its hypotheses hold. *)

From S2P Require Import Prelude Go Mcp FoldKeys Rules Registry Token Broker Gateway Authority Opsig Rate Directive SentLedger Messaging DirectiveApi Enrol ChatLedger Uses Verify Models Witnesses.

Module WitnessesNode.
Import Broker Opsig Directive Messaging DirectiveApi Models Witnesses.

(** The two parts of an outcome that is known to be a success. *)
Definition won {A E} (d : A) (r : result A E) : A := match r with Ok a => a | Err _ => d end.

(** * Duplicate keys *)

Definition dup_raw : bytes := js "{'a':[1,'b'],'c':{'k':2,'k':3}}".
Definition dup_tree : FoldKeys.jtree :=
  FoldKeys.JObject [("a", FoldKeys.JArray [FoldKeys.JScalar; FoldKeys.JString "b"]);
                    ("c", FoldKeys.JObject [("k", FoldKeys.JScalar); ("k", FoldKeys.JScalar)])].

Lemma duplicate_keys_exact_witness : RejectDuplicateKeys dup_raw = false.
Proof.
  rewrite (duplicate_keys_exact dup_raw dup_tree []); [eval_goal | eval_goal].
Defined.

(** * Rate windows *)

Definition calls : list (string * Time) := [("worker", t0); ("other", t0 + Second); ("worker", t0 + Second); ("worker", t0 + 2 * Second)].

Lemma rate_limit_holds_witness : Rate.allowed "worker" calls (Rate.newRateWindow 2) <= 2.
Proof.
  apply (Rate.rate_limit_holds "worker" (Rate.newRateWindow 2) t0 calls).
  - differs.
  - intros cn w E. cbn in E. by rewrite lookup_empty in E.
  - repeat split; differs.
  - reflexivity.
Defined.

Definition taken := Rate.take "worker" t0 (Rate.newRateWindow 2).

Lemma refund_undoes_take_witness :
  Rate.rw_win (Rate.refund "worker" t0 taken.1) !! "worker" = Some (Rate.MkWin t0 0).
Proof.
  destruct (Rate.refund_undoes_take "worker" t0 (Rate.newRateWindow 2) taken.1 taken.2.1 taken.2.2) as (_ & _ & ->).
  - eval_goal.
  - intros cn w E. cbn in E. by rewrite lookup_empty in E.
  - reflexivity.
Defined.

(** * A directive *)

Definition raw1 : bytes :=
  js "{'v':1,'instance':'inst','directive_id':'d1','target_agent':{'cn':'worker','generation':1},'issued_at':'1000','not_before':'1000','expires_at':'4600','action':{'kind':'instruction','text':'hello'}}".
Definition sig1 : bytes := NamespaceDirective +:+ raw1.
Definition exp1 : Time := unixEpoch + 4600 * Second.
Definition bad_statement : Statement :=
  MkStatement 0 "" "" (Opsig.MkTarget "" 0) "" "" "" (MkAction "" "" "" None "" 0 "").
Definition st1 : Statement := won bad_statement (ParseStatement raw1 "inst" t1).
Definition rec1 : DirectiveRecord := send_record st1 raw1 sig1 t0 exp1.

Definition store0 : DirectiveStore := newDirectiveStore (MkState {["worker" := 1]} []) true.
Definition store1 : DirectiveStore := (Submit rec1 t1 true store0).1.
Definition consumed := Consume "d1" "worker" t1 true store1.

(** What happens next: a restart, another submission, an enrolment. *)
Definition rec2 : DirectiveRecord := MkRecord "d2" DirectiveActive "" "" "worker" 1 "instruction" t0 exp1 zeroTime 0.
Definition later : list devent := [DRestart; DSubmit rec2 t1 true; DBump "other" false; DRestart].

Lemma later_ok : Forall (before_pruning exp1) later.
Proof. repeat constructor; differs. Qed.

Lemma rec1_expires : d_ExpiresAt rec1 = exp1.
Proof. reflexivity. Qed.

Lemma consumed_at_most_once_witness :
  Consume "d1" "worker" t1 true (drun consumed.1 later) = (drun consumed.1 later, None).
Proof.
  destruct (consumed_at_most_once "d1" "worker" t1 true store1 consumed.1 (set_state DirectiveConsumed t1 rec1) later)
    as [H _].
  - eval_goal.
  - eval_goal.
  - exact later_ok.
  - apply H.
Defined.

Definition revoked1 := RevokeDirective "d1" true store1.

Lemma revoke_or_reenrol_ends_it_witness :
  (Consume "d1" "worker" t1 true (drun revoked1.1 later)).2 = None.
Proof.
  destruct (revoke_or_reenrol_ends_it "d1" store1 revoked1.1 rec1 later) as [H _].
  - eval_goal.
  - eval_goal.
  - exact later_ok.
  - left. exists true. eval_goal.
  - apply H.
Defined.

Lemma replay_refused_witness :
  (Submit rec1 (t1 + Hour) true (drun store1 later)).2 = Err (AlreadySeen "d1").
Proof.
  apply (replay_refused rec1 t1 true store0 store1 later rec1 (t1 + Hour) true).
  - reflexivity.
  - eval_goal.
  - exact later_ok.
  - reflexivity.
  - differs.
Defined.

Definition previews : list devent :=
  [DPreview "d1" "worker" t1 1 true; DRestart; DPreview "d1" "worker" t1 1 true; DPreview "d1" "worker" t1 1 false].

Lemma previews_bounded_witness : previews_returned "d1" previews store1 <= 1.
Proof.
  apply (previews_bounded exp1 0 "d1" 1 previews store1).
  - split_and!; [exists rec1; split; [eval_goal | split; reflexivity] .. | reflexivity].
  - repeat constructor.
  - repeat constructor.
Defined.

Lemma consume_is_compare_and_swap_witness :
  exists r, findLocked "d1" store1 = Some r /\ entitled r "worker" t1 store1 = true.
Proof.
  pose proof (consume_is_compare_and_swap "d1" "worker" t1 true store1) as H.
  assert (E : Consume "d1" "worker" t1 true store1 = (consumed.1, Some (set_state DirectiveConsumed t1 rec1))) by eval_goal.
  rewrite E in H. destruct H as (r & H1 & H2 & _).
  - assert (Er : ds_recs store1 = [rec1]) by eval_goal. unfold well_kept. rewrite Er.
    constructor; [intros _; reflexivity | constructor].
  - exact (ex_intro _ r (conj H1 H2)).
Defined.

(** * The sent ledger *)

Definition fs1 : SentLedger.FS := SentLedger.MkFS true true (SentLedger.MkStamp 7 100 t1) true.
Definition send_id : string := Token.hex_encode id16.
Definition send1 : SentLedger.Sent := SentLedger.MkSent send_id "worker" "worker" "manager" "hello" t0 zeroTime false.
Definition ledger0 : SentLedger.Ledger := SentLedger.MkLedger ∅ ∅ ∅ ∅.
Definition begun1 := SentLedger.Begin fs1 send1 ledger0.

Lemma recorded_send_is_found_witness :
  SentLedger.ByRef fs1 "worker" send_id begun1.1 = (begun1.1, Ok (Some (SentLedger.begun send1))).
Proof.
  apply (SentLedger.recorded_send_is_found fs1 fs1 send1 ledger0 begun1.1).
  - eval_goal.
  - reflexivity.
  - intros f E. cbn in E. by rewrite lookup_empty in E.
Defined.

(** The index of the restarted process: only the files are left. *)
Definition ledger1 : SentLedger.Ledger := default ledger0 (SentLedger.Open fs1 (SentLedger.l_disk begun1.1)).
Definition found1 := SentLedger.ByRef fs1 "worker" send_id ledger1.

Lemma ledger1_wf : SentLedger.index_wf (SentLedger.l_index ledger1).
Proof.
  assert (E : SentLedger.l_index ledger1 = {[send_id := SentLedger.begun send1]}) by eval_goal.
  rewrite E. intros id s Hs. apply lookup_singleton_Some in Hs as [<- <-]. reflexivity.
Qed.

Lemma lookup_bound_to_caller_witness : SentLedger.se_Recipient (SentLedger.begun send1) = "worker".
Proof.
  apply (SentLedger.lookup_bound_to_caller fs1 "worker" send_id ledger1 found1.1 (SentLedger.begun send1)).
  - apply ledger1_wf.
  - eval_goal.
Defined.

Definition name1 : string * string := ("worker", "manager").
Definition forged : SentLedger.Sent := SentLedger.MkSent send_id "worker" "worker" "manager" "forged" t0 zeroTime false.

Lemma first_send_line_wins_witness :
  exists s', (foldl (SentLedger.read_line name1) (∅, [])
                ([Some (SentLedger.send_line send1)] ++ [Some (SentLedger.send_line forged)])).1 !! send_id = Some s'
    /\ SentLedger.same_send (SentLedger.begun send1) s'.
Proof. apply (SentLedger.first_send_line_wins name1). eval_goal. Defined.

(** * Messaging *)

Definition cfg : NodeConfig := MkNodeConfig "mgr" {["worker"; "other"]} false "proj" "inst" (24 * Hour) true true.
Definition node0 : Node := MkNode b0 cfg store0 (Rate.newRateWindow 30) (SentDir (Some ledger0)) [] [].
Definition fs2 : SentLedger.FS := SentLedger.MkFS true true (SentLedger.MkStamp 7 200 t1) true.
Definition send_world : SendWorld := MkSendWorld (Err "closed") (Some id16) t1 t1 fs1 fs2 None.
Definition sent1 := sendRecorded "worker" "worker" "manager" (markedBody managerMarker "r") "agent:worker" "proj" false send_world node0.

Lemma sends_are_recorded_witness :
  exists led s, n_sent sent1.1 = SentDir (Some led) /\ SentLedger.held "worker" sent1.2.1 led = Some s
    /\ SentLedger.se_Body s = markedBody managerMarker "r" sent1.2.1.
Proof.
  destruct (sends_are_recorded "worker" "worker" "manager" (markedBody managerMarker "r") "agent:worker" "proj" false
    send_world node0 sent1.1 sent1.2.1 sent1.2.2) as [[_ E]|(_ & _ & led & s & H1 & H2 & H3 & _)].
  - discriminate.
  - intros l id E _ f Ef. cbn in E. injection E as <-. cbn in Ef. by rewrite lookup_empty in Ef.
  - eval_goal.
  - exfalso. vm_compute in E. discriminate E.
  - exists led, s. exact (conj H1 (conj H2 H3)).
Defined.

Definition to_manager : msgTarget := MkTarget "agent:mgr" "proj" "manager" "worker".

Lemma message_policy_witness :
  agent_cn "worker" node0
  /\ (mt_recipientCN to_manager = b_manager (n_b node0) \/ mt_recipientCN to_manager = "worker").
Proof.
  destruct (message_policy "worker" "user:manager" node0 to_manager) as (H1 & _ & _ & H2); [eval_goal|].
  split; [exact H1 | apply H2; [differs | reflexivity]].
Defined.

(** The same node without the other worker. *)
Definition node_alone : Node :=
  MkNode b0 (MkNodeConfig "mgr" {["worker"]} false "proj" "inst" (24 * Hour) true true) store0 (Rate.newRateWindow 30)
    (SentDir (Some ledger0)) [] [].

Lemma no_peer_oracle_witness :
  resolveMsgTarget "worker" "agent:other" node_alone = resolveMsgTarget "worker" "agent:other" node0.
Proof.
  apply (no_peer_oracle "worker" "agent:other" node0 node_alone); try reflexivity; try differs.
  all: apply (bool_decide_eq_true_1 _); eval_goal.
Defined.

(** * The directive routes *)

(** The store when the directive is another agent's. *)
Definition store_other : DirectiveStore :=
  set_recs [MkRecord "d1" DirectiveActive "" "" "other" 1 "instruction" t0 exp1 zeroTime 0] store0.

Lemma refusals_are_opaque_witness :
  (handleDirectiveConsume (Cert "worker") (Some "d1") t1 true (set_store store0 node0)).2
  = (handleDirectiveConsume (Cert "worker") (Some "d1") t1 true (set_store store_other node0)).2.
Proof.
  apply (refusals_are_opaque (Cert "worker") "d1" t1 true true node0 store0 store_other).
  intros caller [= <-]. split; intros r Er; vm_compute in Er; [done|]. injection Er as <-. eval_goal.
Defined.

Definition dir_world : SendDirWorld := MkSendDirWorld t1 (Ok "running") true send_world [] true t1.
Definition history : list nevent := [NSend (Some (raw1, sig1)) dir_world; NRestart].
Definition handed := handleDirectiveConsume (Cert "worker") (Some "d1") t1 true (nrun node0 history).
Definition no_response : ConsumeResponse := MkConsumeResponse "" "" None "" "".
Definition response1 : ConsumeResponse := match handed.2 with ROk a => a | _ => no_response end.

Lemma consumed_action_was_signed_witness :
  exists raw sig st, op_verify NamespaceDirective raw sig = true
    /\ ParseStatement raw (nc_instanceID (n_cfg (nrun node0 history))) t1 = Ok st
    /\ t_CN (st_TargetAgent st) = "worker" /\ cr_ID response1 = st_DirectiveID st.
Proof.
  destruct (consumed_action_was_signed node0 history (Cert "worker") (Some "d1") t1 true handed.1 response1)
    as (caller & raw & sig & st & Hp & Hv & Hst & _ & Ht & _ & Hid & _).
  - split; constructor.
  - repeat constructor.
  - eval_goal.
  - exists raw, sig, st. split_and!; [exact Hv | exact Hst | | exact Hid]. rewrite Ht. by injection Hp.
Defined.

Definition node1 : Node := set_store (drun store1 later) node0.

Lemma directive_replay_refused_witness :
  ~ exists a, (handleDirectiveSend (Some (raw1, sig1)) dir_world node1).2 = ROk a.
Proof.
  intros [a E]. revert a E. apply (directive_replay_refused raw1 sig1 dir_world node0 st1 exp1 store1 later dir_world node1).
  - reflexivity.
  - eval_goal.
  - eval_goal.
  - exists t0. eval_goal.
  - exact later_ok.
  - reflexivity.
Defined.

(** * Enrolment *)

Definition key_bytes : bytes := "0123456789abcdef0123456789abcdef".
Definition tevents : list Enrol.tevent := [Enrol.TIssue "worker" Hour false (Some key_bytes) t0].
Definition ticket1 : string := Token.hex_encode key_bytes.

Lemma ticket_single_use_witness :
  (Enrol.Redeem ticket1 "worker" t1 (Enrol.trun (Enrol.Redeem ticket1 "worker" t1 (Enrol.trun Enrol.NewTicketStore tevents)).1 [])).2
  = Err Enrol.UnknownTicket.
Proof.
  destruct (Enrol.ticket_single_use tevents ticket1 "worker" t1
    (Enrol.Redeem ticket1 "worker" t1 (Enrol.trun Enrol.NewTicketStore tevents)).1) as (_ & H & _); [eval_goal|].
  apply (H [] "worker" t1). constructor.
Defined.

Definition host0 : Enrol.Host := Enrol.MkHost node0 ∅ false ∅ ∅ Hour.
Definition booted := Enrol.handleBootstrap (Some key_bytes) t0 host0.

Lemma bootstrap_ticket_is_sole_witness :
  (Enrol.Redeem ticket1 "manager" t1 (Enrol.h_tickets booted.1)).2 = Ok tt.
Proof.
  destruct (Enrol.bootstrap_ticket_is_sole (Some key_bytes) t0 host0 booted.1 ticket1) as (_ & H & _); [eval_goal|].
  apply H; [differs | split; differs].
Defined.

Definition host1 : Enrol.Host := Enrol.set_tickets (Enrol.trun Enrol.NewTicketStore tevents) host0.
Definition csr1 : bytes := enc_fields ["worker"; "agent key"; "agent key"].
Definition sign1 : Enrol.SignWorld := Enrol.MkSignWorld (Some 1) t1 t1.
Definition enrolled := Enrol.handleEnrol (Some (ticket1, csr1)) t1 sign1 true host1.
Definition no_leaf : Enrol.leaf := Enrol.MkLeaf 0 "" 0 0 Enrol.ServerAuth [] [] "".
Definition leaf1 : Enrol.leaf * bytes := match enrolled.2 with ROk a => a | _ => (no_leaf, "") end.

Lemma certificates_carry_proven_names_witness :
  exists c t blk, Enrol.pem_decode csr1 = Some blk /\ Enrol.parse_request blk = Some c
    /\ Enrol.h_tickets host1 !! ticket1 = Some t /\ Enrol.lf_CN leaf1.1 = Enrol.tk_worker t.
Proof.
  destruct (Enrol.certificates_carry_proven_names host1 enrolled.1 leaf1.1 leaf1.2) as [H _].
  destruct (H ticket1 csr1 t1 sign1 true) as (c & t & blk & H1 & H2 & _ & H4 & _ & _ & H7 & _); [eval_goal|].
  exists c, t, blk. exact (conj H1 (conj H2 (conj H4 H7))).
Defined.

Definition heals : list Enrol.hevent := [Enrol.HAdmit t0; Enrol.HAdmit t1; Enrol.HAdmit (t0 + Hour)].

Lemma heals_are_spaced_witness :
  Enrol.spaced None (Enrol.admissions "worker" heals host0).
Proof.
  apply (Enrol.heals_are_spaced "worker" heals host0). split; differs.
Defined.

(** * Verifying messages *)

Definition use_world : Uses.UseWorld := Uses.MkUseWorld ChatLedger.DirOK true true true 0 false true 80 t1.
Definition uses0 : Uses.chatUses * Uses.usesDisk :=
  (Uses.newChatUses true use_world t0 (Uses.MkUsesDisk None None), Uses.MkUsesDisk None None).
Definition post_want : list Uses.useWant := [Uses.MkWant "post-1" t0].
Definition used1 := Uses.takeAll use_world "worker" post_want t1 uses0.
Definition restart : list Uses.uevent := [Uses.URestart use_world t1].
Definition used2 := Uses.takeAll use_world "worker" post_want (t1 + Hour) (Uses.urun used1.1 restart).

Lemma message_verifies_once_witness :
  Uses.g_fresh (default (Uses.MkGot 0 true) (won [] used2.2 !! 0%nat)) = false.
Proof.
  apply (Uses.message_verifies_once use_world "worker" post_want t1 uses0.1 uses0.2 used1.1.1 used1.1.2
    [Uses.MkGot t1 true] 0%nat (Uses.MkGot t1 true) (Uses.MkWant "post-1" t0) restart use_world post_want (t1 + Hour)
    used2.1.1 used2.1.2 (won [] used2.2) 0%nat _ (Uses.MkWant "post-1" t0)).
  - eval_goal.
  - reflexivity.
  - reflexivity.
  - reflexivity.
  - differs.
  - split; constructor.
  - split; [differs | exact I].
  - split; [split; [differs | eval_goal] | exact I].
  - differs.
  - eval_goal.
  - intros E. discriminate E.
  - eval_goal.
  - reflexivity.
  - reflexivity.
Defined.

(** A chat post of the last hour, in the ledger of its login. *)
Definition post1 : ChatLedger.Entry :=
  ChatLedger.MkEntry t0 "op@x.dev" "operator" "dm" "agent-7" "post-1" "user:op@x.dev" (Verify.FormatTime t0) "go ahead".
Definition chat_dir : gmap string ChatLedger.chatFile := {["l-op" := ChatLedger.MkChatFile [Some post1] [] 100]}.
Definition ctl_world : Verify.CtlWorld := Verify.MkCtlWorld t1 t1 t1 (Ok "user:lever@x.dev") false.
Definition verify_world : Verify.VWorld :=
  Verify.MkVWorld (Some (fun slug => Ok "agent-7")) (ChatLedger.MkReadFS ChatLedger.DirOK None) (Ok ledger0) fs1 false ctl_world ctl_world
    use_world "".
Definition verifier0 : Verify.VState :=
  Verify.MkV node0 true (Some chat_dir) {["user:op@x.dev"]} (Verify.MkController "" true None zeroTime zeroTime) uses0
    (Rate.newRateWindow Verify.verifyRateLimit) (Rate.newRateWindow Verify.verifyMissLimit).
Definition verify_req : Verify.VerifyRequest := Verify.MkVerifyReq "1000" "user:op@x.dev" "".
Definition verified1 := Verify.handleMessageVerify (Cert "worker") (Some verify_req) t1 verify_world verifier0.
Definition no_answer : Verify.Response := Verify.MkResponse false false "" "" 0 [] "".
Definition answer1 : Verify.Response := match verified1.2 with ROk r => r | _ => no_answer end.
Definition message1 : Verify.VerifiedMessage := Verify.ve_msg (Verify.web_entry t1 post1).

Lemma verified_messages_are_recorded_witness :
  exists name f e, chat_dir !! name = Some f /\ (Some e ∈ ChatLedger.cf_old f ++ ChatLedger.cf_lines f)
    /\ ChatLedger.e_AgentID e = "agent-7" /\ ChatLedger.e_Sender e = "user:op@x.dev"
    /\ Verify.handed (Verify.web_entry t1 e) message1.
Proof.
  destruct (Verify.verified_messages_are_recorded (Cert "worker") (Some verify_req) t1 verify_world verifier0 verified1.1 answer1 message1)
    as (caller & req & ts & _ & _ & E1 & _ & [(_ & _ & dir & cn & slug & mgr & resolve & ag & name & f & e & Ed & _ & Er & Ea & H1 & H2 & H3 & _ & H4 & _ & _ & H7)|(E & _)]).
  - eval_goal.
  - assert (E : Verify.vr_Messages answer1 = [message1]) by eval_goal. rewrite E. left.
  - injection Ed as <-. injection Er as <-. injection Ea as <-. injection E1 as <-.
    exists name, f, e. exact (conj H1 (conj H2 (conj H3 (conj H4 H7)))).
  - exfalso. revert E. differs.
Defined.

Definition other_req : Verify.VerifyRequest := Verify.MkVerifyReq "2000" "user:op@x.dev" "".
Definition verified2 := Verify.verify verify_world "worker" (Some other_req) t1 verifier0.

Lemma no_record_means_none_witness :
  exists ts, ParseRFC3339 "2000" = Some ts
    /\ (ChatLedger.matches "agent-7" "user:op@x.dev" (Verify.FormatTime ts) post1 = true -> ChatLedger.e_MessageID post1 = "").
Proof.
  destruct (Verify.no_record_means_none verify_world "worker" (Some other_req) t1 verifier0 verified2.1 verified2.2)
    as (req & ts & E1 & E2 & [(_ & dir & ag & Ed & Ea & H)|(Hn & _)]).
  - eval_goal.
  - eval_goal.
  - destruct Ea as (cn & slug & mgr & resolve & _ & Er & Ea & _). injection Er as <-. injection Ed as <-. injection Ea as <-. injection E1 as <-. exists ts. split; [exact E2|].
    apply (H ltac:(differs) "l-op" (ChatLedger.MkChatFile [Some post1] [] 100)); [eval_goal | left].
  - exfalso. apply Hn. injection E1 as <-. by vm_compute.
Defined.

End WitnessesNode.
