(* ===== verification/WitnessesTree.v ===== *)
(** Closed instances of the tree-backup theorems at a small snapshot, evaluated. *)

From S2P Require Import Prelude Go Token TreePath ManifestCodec ManifestEntry ManifestHeader HeaderRound Manifest Listing ManifestRound ManifestFile EntryTypes Retention Store Blobs Gc Deletion BlobWriter StoreVerify Models.

Module WitnessesTree.
Import TreePath ManifestEntry ManifestHeader HeaderRound Manifest Listing ManifestFile Retention Store Gc Deletion BlobWriter StoreVerify TreeModels.

Ltac eval_goal := vm_compute; reflexivity.
Ltac in_range := vm_compute; intuition congruence.

(** The reader the small snapshot opens. *)
Definition reader0 : reader :=
  match opened0 with
  | Ok r => r
  | Err _ => MkReader "" "" blank0 0 0 "" (newSummary root0) None [] [] 0 None true
  end.

Lemma listing0 : listing 4096 entries0.
Proof.
  change entries0 with (((([] ++ [dir0]) ++ [file0]) ++ [big0]) ++ [link0]).
  repeat (apply listing_snoc; [ | eval_goal | eval_goal | repeat constructor | first [left; eval_goal | right; exists dir0; split_and!; [set_solver | eval_goal..]]]).
  constructor.
Qed.

Lemma check_accepts_listings_witness : exists r', check_all reader0 entries0 = Ok r'.
Proof.
  assert (E1 : r_prev reader0 = None) by eval_goal. assert (E2 : r_stack reader0 = []) by eval_goal.
  assert (E3 : r_sealed reader0 = []) by eval_goal. assert (E4 : r_maxPath reader0 = 4096) by eval_goal.
  assert (E5 : r_State (h_Root (r_h reader0)) = StateOK) by eval_goal.
  apply (Listing.check_accepts_listings reader0 entries0); [exact (conj E1 (conj E2 E3))|].
  rewrite E4, E5. split; [exact listing0 | intros E; discriminate E].
Defined.

Lemma entry_line_fits_witness : ManifestRound.line_length link0 <= MaxLineBytes.
Proof. apply (ManifestRound.entry_line_fits link0 4096); [by vm_compute | eval_goal | eval_goal]. Defined.

Definition line0 : string := chop (EncodeEntry "" file0).

Lemma decoded_entries_are_typed_witness : ManifestEntry.decodeEntry line0 = Ok file0 /\ codec_wf file0.
Proof.
  assert (E : ManifestEntry.decodeEntry line0 = Ok file0) by eval_goal.
  split; [exact E | exact (proj1 (EntryTypes.decoded_entries_are_typed line0 file0 E))].
Defined.

(** All the entries a reader returns. *)
Fixpoint drain (fuel : nat) (r : reader) : option (list Entry * rerr) :=
  match fuel with
  | O => None
  | S fuel =>
    match Next r with
    | (Ok e, r) => '(es, err) ← drain fuel r; Some (e :: es, err)
    | (Err err, _) => Some ([], err)
    end
  end.

Lemma drain_yields fuel : forall r es err, drain fuel r = Some (es, err) -> yields r es err.
Proof.
  induction fuel as [|fuel IH]; intros r es err; [done|]. cbn [drain]. destruct (Next r) as [[e|e] r'] eqn:En.
  - destruct (drain fuel r') as [[es' err']|] eqn:Ed; [|done]. intros [= <- <-]. eapply yields_entry; eauto.
  - intros [= <- <-]. by eapply yields_end.
Qed.

Lemma yields0 : yields reader0 entries0 EOF.
Proof. apply (drain_yields 5). vm_compute. reflexivity. Qed.

Lemma accepted_manifest_witness : accepted file_bytes reader0 entries0.
Proof.
  apply (ManifestFile.accepted_manifest file_bytes (len file_bytes) "20260102T030405Z" reader0 entries0);
    [vm_compute; reflexivity | exact yields0].
Defined.

Lemma codec_wf0 : Forall codec_wf entries0.
Proof. repeat constructor; try in_range; cbn; try congruence; unfold int64_range, ManifestCodec.uint64_range, min_int64, max_int64; lia. Qed.

(** A closed fact about bounds, by evaluation. *)
Ltac bounded := vm_compute; repeat split; congruence.

Definition tally_ok (all : list string) (m : gmap string Z) : bool :=
  bool_decide (dom m = list_to_set all) && bool_decide (map_Forall (fun _ v => 0 <= v <= max_int64) m).

Lemma tally_ok_wf all m : tally_ok all m = true -> tally_wf all m.
Proof. intros [H1%bool_decide_eq_true H2%bool_decide_eq_true]%andb_prop. by split. Qed.

Lemma counts_wf0 : counts_wf (h_Counts_ header0).
Proof. constructor; [apply tally_ok_wf; eval_goal | apply tally_ok_wf; eval_goal | bounded | bounded]. Qed.

Lemma partial_wf0 : Forall partial_wf (h_Partial_ header0).
Proof.
  assert (E : h_Partial_ header0 = [MkPartial StateSkipped "read" "a/z" true 1]) by eval_goal. rewrite E.
  constructor; [|constructor]. split_and!; [eval_goal | eval_goal | bounded | discriminate].
Qed.

Lemma header_wf0 : header_wf header0.
Proof.
  assert (Hc : checkHeader header0 = Ok tt) by eval_goal.
  constructor; [bounded | bounded | split; bounded | split_and!; eval_goal | split; bounded | | split; left; eval_goal | | apply partial_wf0
    | constructor | apply counts_wf0 | split_and!; bounded | split; bounded | exact Hc].
  - constructor; [bounded | bounded | discriminate | split_and!; eval_goal].
  - constructor; bounded.
Qed.

Lemma writable0 : writable header0 entries0.
Proof.
  constructor; [exact header_wf0 | exact codec_wf0 | | | eval_goal | by vm_compute | by vm_compute].
  - assert (E : Z.min (l_Path (h_Limits_ header0)) MaxPathCap = 4096) by eval_goal. rewrite E. exact listing0.
  - intros E. discriminate E.
Qed.

Lemma written_manifest_reads_back_witness :
  exists r0, NewReader file_bytes (len file_bytes) "20260102T030405Z" = Ok r0 /\ yields r0 entries0 EOF.
Proof.
  destruct (ManifestFile.written_manifest_reads_back header0 entries0 writable0) as (r0 & E & _ & Hy).
  exists r0. exact (conj E Hy).
Defined.

(** * The store *)

Lemma untouched d : unrewritten d d.
Proof. intros id c c' H1 H2. congruence. Qed.

(** The runs, as the equations the theorems ask for. *)
Lemma collected_run : GC (keep_last 1) Locked Locked (fun d => d) (started store0) = (collected0.1, collected0.2).
Proof. exact (surjective_pairing collected0). Qed.

Lemma collected_ok : GC (keep_last 1) Locked Locked (fun d => d) (started store0) = (Ok tt, collected0.2).
Proof. rewrite collected_run. apply pair_equal_spec. split; [eval_goal|reflexivity]. Qed.

Lemma deleted_run : Delete ["20260102T030405Z"] (keep_last 1) Locked (started store0) = (deleted0.1, deleted0.2).
Proof. exact (surjective_pairing deleted0). Qed.

Lemma next_run : NextSeq (started store0) = (Ok 4, next0.2).
Proof. rewrite (surjective_pairing (NextSeq (started store0))). apply pair_equal_spec. split; [eval_goal|reflexivity]. Qed.

Lemma stored_run : store_blob (MkSinkOptions 0 true) "x" 100000 pieces0 (started store0) = (stored0.1, stored0.2).
Proof. exact (surjective_pairing stored0). Qed.

Definition unverified0 : VState := MkVState emptyReport (newBloom 0 0 0) ∅.
Lemma verified_run : Verify true Locked Locked (fun d => d) (1, 2) (MkSt [] tidy0 unverified0) = (Ok tt, verified0.2).
Proof. rewrite (surjective_pairing (Verify true Locked Locked (fun d => d) (1, 2) (MkSt [] tidy0 unverified0))). apply pair_equal_spec. split; [eval_goal|reflexivity]. Qed.

Lemma referenced_blobs_survive_witness : idle (started store0) collected0.2 \/ safe (disk (started store0)) (disk collected0.2).
Proof.
  exact (Gc.referenced_blobs_survive (keep_last 1) Locked Locked (fun d => d) (started store0) collected0.1 collected0.2 (untouched (disk (started store0))) collected_run).
Defined.

(** The file is no manifest, whatever is asked of it. *)
Lemma garbled_does_not_hold h es : ~ holds (disk (started garbled0)) "20260102T030405Z" h es.
Proof. intros (r & Hr & _). assert (E : open_of (disk (started garbled0)) "20260102T030405Z" = None) by eval_goal. rewrite E in Hr. discriminate Hr. Qed.

Lemma stopped_run : GC (keep_last 1) Locked Locked (fun d => d) (started garbled0) = (stopped0.1, stopped0.2).
Proof. exact (surjective_pairing stopped0). Qed.

Lemma invalid_manifest_stops_witness : idle (started garbled0) stopped0.2 /\ exists e, stopped0.1 = Err e.
Proof.
  assert (Hv : ValidID "20260102T030405Z" = true) by eval_goal.
  assert (Hm : is_Some (manifest (disk (started garbled0)) "20260102T030405Z")) by (exists "{"; eval_goal).
  pose proof (Gc.invalid_manifest_stops (keep_last 1) Locked Locked (fun d => d) (started garbled0) stopped0.1 stopped0.2 "20260102T030405Z" Hv Hm garbled_does_not_hold stopped_run) as [Hi He].
  exact (conj Hi (He eq_refl)).
Defined.

Lemma collection_leaves_the_retained_witness : exists infos evict, listed True (disk (started store0)) infos
  /\ (forall id, ValidID id = true -> manifest (disk collected0.2) id = if decide (is_Some (manifest (disk (started store0)) id) /\ gone (KeepSet infos (o_Keep (keep_last 1))) evict id) then None else manifest (disk (started store0)) id)
  /\ evict = ∅.
Proof.
  assert (E2 : g_Busy (report collected0.2) = false) by eval_goal.
  destruct (Gc.collection_leaves_the_retained (keep_last 1) (fun d => d) (started store0) collected0.2 (untouched (disk (started store0))) eq_refl collected_ok E2)
    as (infos & evict & Hl & Hm & Hc & _).
  exists infos, evict. refine (conj Hl (conj Hm (Hc _))). discriminate.
Defined.

Lemma delete_keeps_the_rest_witness : safe (disk (started store0)) (disk deleted0.2) /\ manifest (disk deleted0.2) "20260102T030405Z" = None.
Proof.
  assert (E : deleted0.1 = Ok tt) by eval_goal.
  destruct (Deletion.delete_keeps_the_rest ["20260102T030405Z"] (keep_last 1) Locked (started store0) deleted0.1 deleted0.2 deleted_run) as [Hs Hg].
  exact (conj Hs (Hg E _ (list_elem_of_here _ _))).
Defined.

Lemma delete_keeps_the_numbering_witness : exists s2, NextSeq (MkSt [] (disk deleted0.2) emptyResult) = (Ok 4, s2).
Proof.
  exact (Deletion.delete_keeps_the_numbering ["20260102T030405Z"] (keep_last 1) Locked store0 emptyResult deleted0.1 deleted0.2 4 next0.2 deleted_run next_run).
Defined.

Lemma stored_blob_is_its_content_witness : exists res, stored0.1 = Ok res
  /\ committed (MkSinkOptions 0 true) 100000 (concat_bytes pieces0) (disk (started store0)) (disk stored0.2) res.
Proof.
  assert (E : match stored0.1 with Ok _ => True | Err _ => False end) by (vm_compute; exact I).
  pose proof (BlobWriter.stored_blob_is_its_content (MkSinkOptions 0 true) "x" 100000 pieces0 (started store0) stored0.2 stored0.1 stored_run) as H.
  destruct stored0.1 as [res|e]; [exists res; exact (conj eq_refl H)|contradiction].
Defined.

Lemma verify_ok_means_healthy_witness : healthy tidy0 /\ disk verified0.2 = tidy0.
Proof.
  assert (E2 : OK (v_report (report verified0.2)) = true) by eval_goal.
  exact (StoreVerify.verify_ok_means_healthy true Locked Locked (fun d => d) (1, 2) [] tidy0 verified0.2 verified_run E2).
Defined.

End WitnessesTree.
