(* ===== verification/WitnessesView.v ===== *)
(** Closed instances of the theorems on waiting, on rendering and on the diff of
    two manifests, evaluated. *)

From S2P Require Import Prelude Go TreePath ManifestCodec ManifestEntry ManifestHeader Manifest Listing Models WitnessesTree Wait Render Merge DiffExact.

Module WitnessesView.
Import Wait.

(** * Waiting *)

(** A probe that is ready at the third try, in a world whose clock stands still
    between the pauses. *)
Definition third : World :=
  MkWorld (fun k => if (k <? 2)%nat then NotYet "not listening" else Ready) (fun _ => 0) (fun _ => None) (fun _ => 0) (fun _ => None).
Definition never : World := MkWorld (fun _ => NotYet "not listening") (fun _ => 0) (fun _ => None) (fun _ => 0) (fun _ => None).
Definition three_tries : Spec := Attempts 3 1000000000.

Lemma int64_eval v : (min_int64 <=? v) && (v <=? max_int64) = true -> int64_range v.
Proof. unfold int64_range. intros [?%Z.leb_le ?%Z.leb_le]%andb_prop. done. Qed.

Lemma third_passes : passing minPause third.
Proof. constructor; [done|done|done|]. intros k. unfold third. cbn [probe]. by destruct (k <? 2)%nat. Qed.

Lemma wait_ends_witness : exists fuel o n, For fuel third three_tries = Some (o, n) /\ o = Done /\ n = 3%nat.
Proof.
  destruct (Wait.wait_ends minPause third three_tries third_passes (int64_eval (s_Budget three_tries) eq_refl)) as (fuel & o & n & E & _ & H).
  destruct (H 2%nat eq_refl eq_refl) as [-> ->]; [intros [|[|j]] Hj; [done|done|exfalso; lia]|]. by exists fuel, Done, 3%nat.
Defined.

Definition timed_out : Progress := MkProgress 2000000000 2000000000 3 "not listening" None.

Lemma never_run : For 5 never three_tries = Some (TimedOut timed_out, 3%nat).
Proof. vm_compute. reflexivity. Qed.

Lemma wait_answers_for_what_it_saw_witness : r_kind (probe never 2) = notYet /\ evidence never 3 timed_out.
Proof.
  destruct (Wait.wait_answers_for_what_it_saw 5 never three_tries _ _ never_run) as (m & Em & _ & Hk & He & _).
  injection Em as <-. exact (conj Hk He).
Defined.

Lemma never_idle : idle never.
Proof. constructor; intros k; done. Qed.

Lemma three_fit : fits three_tries.
Proof. constructor; [by apply int64_eval|by apply Z.leb_le|by apply Z.leb_le]. Qed.

Lemma total_is_exact_witness : exists fuel p n, For fuel never three_tries = Some (TimedOut p, n) /\ p_Elapsed p = 2000000000 /\ n = 3%nat.
Proof.
  destruct (Wait.total_is_exact never three_tries never_idle three_fit) as (fuel & p & n & E & Ht & Hn).
  exists fuel, p, n. split; [exact E|]. split; [exact Ht|]. specialize (Hn 3 1000000000 eq_refl eq_refl). apply Nat2Z.inj. by apply Hn, Z.leb_le.
Defined.

(** * Rendering *)

Import Render.

(** Tables that know of no format character and of no control in the second
    half of Latin-1. *)
#[export] Program Instance plain_tables : UnicodeTables := {| in_Cf r := false; in_visible r := negb ((128 <=? r) && (r <=? 159)) |}.
Next Obligation. intros r [H1 H2]. cbn. by rewrite (proj2 (Z.leb_le _ _) H1), (proj2 (Z.leb_le _ _) H2). Qed.
Next Obligation. intros r [-> | ->]; done. Qed.

(** A line with an escape sequence, and its content line. *)
Definition hostile : string := String (ascii_of_nat 27) ("[2J" +:+ String (ascii_of_nat 200) "x").

Example hostile_is_escaped : contentLine "+" hostile = "+\\x1b[2J\xc8x".
Proof. vm_compute. reflexivity. Qed.

Lemma content_line_is_exact_witness : hostile = hostile \/ maxRawLine < len hostile /\ maxRawLine < len hostile.
Proof. exact (proj2 (Render.content_line_is_exact "+" "+" hostile hostile eq_refl)). Defined.

Definition long_line : string := "a line of more than eighty columns is cut where the narrowest terminal would wrap it, and goes on below".

Lemma long_line_shown : shown long_line.
Proof. by apply shown_ascii. Qed.

Lemma rows_fit_witness : exists row rest, rows long_line = row :: ((fun r => rowCont +:+ r) <$> rest) /\ rest <> [].
Proof.
  destruct (Render.rows_fit long_line long_line_shown) as (row & rest & E & _). exists row, rest. split; [exact E|]. intros ->. vm_compute in E. discriminate E.
Defined.

(** * The diff of two manifests *)

Import ManifestEntry ManifestHeader Manifest Listing Merge DiffExact TreeModels WitnessesTree.

Definition older0 : source := MkSource header0 [dir0; big0] None.
Definition newer0 : source := MkSource header0 entries0 None.

Lemma older_listing : listing 4096 (s_entries older0).
Proof.
  change (s_entries older0) with (([] ++ [dir0]) ++ [big0]).
  repeat (apply listing_snoc; [ | eval_goal | eval_goal | repeat constructor | first [left; eval_goal | right; exists dir0; split_and!; [set_solver | eval_goal..]]]).
  constructor.
Qed.

Lemma newer_listing : listing 4096 (s_entries newer0).
Proof. exact listing0. Qed.

(** Two paths were added: the file and the link. *)
Lemma merged_run : exists m, mergeReaders [] false older0 newer0 = Some (m, None) /\ counts m = MkCounts 2 0 0 0 0 0 0 0.
Proof. eexists. split; [vm_compute; reflexivity|reflexivity]. Qed.

Lemma diff_is_exact_witness : exists m rows, mergeReaders [] false older0 newer0 = Some (m, None) /\ joins [dir0; big0] entries0 rows /\ length (omap item_of (events m)) = length rows.
Proof.
  destruct (DiffExact.diff_is_exact [] false older0 newer0 4096 4096 older_listing newer_listing eq_refl eq_refl) as (m & rows & E & HJ & Hi & _).
  exists m, rows. split; [exact E|]. split; [exact HJ|]. rewrite Hi. clear. induction rows as [|x rows IH]; [reflexivity|]. rewrite filter_cons_True by reflexivity. exact (f_equal S IH).
Defined.

End WitnessesView.
