(* ===== verification/WitnessesWorker.v ===== *)
(** Closed runs of the worker routes against a small world, and the theorems on
    the routes at them. *)

From S2P Require Import Prelude Go TreePath GoPath Scion Wait Live Effects Worker Workspace Dispatch DispatchSafe DispatchReply Fleet Healer Render Models WitnessesView.

Module WitnessesWorker.
Import GoPath Scion Effects Worker Workspace Dispatch DispatchSafe DispatchReply Fleet Models WitnessesView.

Definition image0 : string := "lever.local/worker:1".
Definition docs0 : WorkerSpec :=
  MkSpec "docs" "docs" "/tree/docs" "/tickets/docs" image0 "opus" "" "" false true None [] (MkResources "1g" "1").
Definition fleet0 : list WorkerSpec := [docs0].
Definition dispatch0 : Dispatch :=
  MkDispatch "manager" "lever-manager" (workers_of fleet0) true "proj" "" [] 1 "CA" "https://broker" true true false false true true true true true true.

(** A world in which all goes well, over the records given. *)
Definition well (agents : list Agent) (h : list (event answer)) (q : action) : answer q :=
  match q return answer q with
  | Audit _ _ _ => tt
  | RequireManager _ => Some "manager"
  | IsRevoked _ => false
  | LockWorker _ => None
  | TryLockWorker _ => true
  | UnlockWorker _ => tt | AdmitLock => tt | AdmitUnlock => tt | IncAdmitting _ => tt | DecAdmitting _ => tt
  | ReadAdmitting => ∅
  | IssueTicket _ => Ok "ticket"
  | RecycleTake _ => None
  | RecycleRefund _ => tt | ResetReenrolTries _ => tt
  | List => Ok agents
  | Start _ => None | Resume _ _ => None | ResumeTask _ _ _ => None | ResumeForce _ _ => None | Stop _ _ => None | Suspend _ _ => None | EnvSet _ _ _ => None
  | WaitAgentLive _ => None | VerifyRole _ => None
  | RecordVolumes _ => Ok [] | LeftoverShareVolumes _ => Ok []
  | BeginSession _ => tt
  | CommitSession _ => None
  | PurgeWorker _ => Ok None
  | StageTicket _ _ => None
  | SharedGuard => None
  | ContainerRunning _ => Ok false | ContainerStranded _ => Ok false | RemoveStranded _ => Ok false
  | ReadFile _ => Ok "" | ReadRegularFile _ _ => Ok ""
  | EvalSymlinks p => Ok p
  | Lstat _ => Ok IsDirectory | Stat _ => Ok IsDirectory
  | OpenRoot _ => None | MkdirAll _ _ => None
  | Pause => None
  end.

Definition asleep0 : list Agent := [MkAgent "docs" PhaseStopped ActivityOffline "Exited (0) 2 minutes ago" image0 "" 0].

Definition run_of (agents : list Agent) (q : request) : list (event answer) * reply := exec (well agents) [] (serve dispatch0 q).
Lemma run_of_runs agents q : runs (serve dispatch0 q) (run_of agents q).1 (run_of agents q).2.
Proof. apply exec_runs. Qed.

Definition ask0 : request := OperatorStart (Some (MkStartRequest "docs" "write the docs")).

(** Where in a run a question of a kind is asked. *)
Lemma asked_in (p : action -> bool) (tr : list (event answer)) : existsb (fun e => p (e_asked e)) tr = true -> exists pre e post, tr = pre ++ e :: post /\ p (e_asked e) = true.
Proof.
  induction tr as [|x tr IH]; cbn; [done|]. destruct (p (e_asked x)) eqn:Ep; [intros _; by exists [], x, tr|].
  cbn. intros Hex. destruct (IH Hex) as (pre & e & post & -> & He). by exists (x :: pre), e, post.
Qed.
Definition starts_docs (q : action) : bool := match q with Start o => str_eqb (o_Worker o) "docs" | _ => false end.
Lemma starts_docs_eq q : starts_docs q = true -> exists o, q = Start o /\ o_Worker o = "docs".
Proof. destruct q; try done. intros E%str_eqb_eq. by exists o. Qed.
Definition purges_docs (q : action) : bool := match q with PurgeWorker w => str_eqb w "docs" | _ => false end.
Lemma purges_docs_eq q : purges_docs q = true -> q = PurgeWorker "docs".
Proof. destruct q; try done. by intros ->%str_eqb_eq. Qed.

(** A worker without a record is started, with a ticket of its own. *)
Lemma started0 : (run_of [] ask0).2 = Answer "docs" PhaseRunning.
Proof. vm_compute. reflexivity. Qed.
Lemma resumed0 : (run_of asleep0 (OperatorResume (Some (MkResumeRequest "docs" None)))).2 = Answer "docs" PhaseRunning.
Proof. vm_compute. reflexivity. Qed.

Lemma configured0 : d_workers dispatch0 = workers_of fleet0.
Proof. reflexivity. Qed.

Lemma start_asked : existsb (fun e => starts_docs (e_asked e)) (run_of [] ask0).1 = true.
Proof. vm_compute. reflexivity. Qed.
Definition again0 : request := OperatorRecycle (Some (MkStartRequest "docs" "again")).
Lemma purge_asked : existsb (fun e => purges_docs (e_asked e)) (run_of asleep0 again0).1 = true.
Proof. vm_compute. reflexivity. Qed.

(** The start is asked for, and was allowed. *)
Lemma bring_ups_are_guarded_witness : exists pre e o post, (run_of [] ask0).1 = pre ++ e :: post /\ e_asked e = Start o /\ o_Worker o = "docs"
  /\ ready dispatch0 (foldl observe idle pre) "docs" /\ startable (foldl observe idle pre).
Proof.
  destruct (asked_in _ _ start_asked) as (pre & e & post & Htr & He). destruct (starts_docs_eq _ He) as (o & Hq & Ho).
  pose proof (DispatchSafe.bring_ups_are_guarded dispatch0 fleet0 configured0 ask0 _ _ pre e post (run_of_runs [] ask0) Htr) as Hg.
  rewrite Hq in Hg. cbn in Hg. rewrite Ho in Hg. exists pre, e, o, post. destruct Hg as (Hr & _ & Hs). exact (conj Htr (conj Hq (conj Ho (conj Hr Hs)))).
Defined.

Lemma starts_are_as_configured_witness : exists pre e o post task instructions, (run_of [] ask0).1 = pre ++ e :: post /\ e_asked e = Start o
  /\ o = start_opts dispatch0 docs0 task instructions /\ CheckTask task = None.
Proof.
  destruct (asked_in _ _ start_asked) as (pre & e & post & Htr & He). destruct (starts_docs_eq _ He) as (o & Hq & Ho).
  pose proof (DispatchSafe.starts_are_as_configured dispatch0 fleet0 configured0 ask0 _ _ pre e post (run_of_runs [] ask0) Htr) as Hg.
  rewrite Hq in Hg. cbn in Hg. destruct Hg as (spec & task & ins & Hs & Ho' & Ht & _). rewrite Ho in Hs.
  assert (E0 : Some spec = Some docs0) by (rewrite <- Hs; vm_compute; reflexivity). injection E0 as ->.
  exists pre, e, o, post, task, ins. exact (conj Htr (conj Hq (conj Ho' Ht))).
Defined.

(** A worker asleep is recycled: its record is deleted, and it is started anew. *)
Lemma deletions_are_guarded_witness : exists pre e post, (run_of asleep0 again0).1 = pre ++ e :: post /\ e_asked e = PurgeWorker "docs"
  /\ deletable dispatch0 (foldl observe idle pre).
Proof.
  destruct (asked_in _ _ purge_asked) as (pre & e & post & Htr & He). apply purges_docs_eq in He.
  destruct (DispatchSafe.deletions_are_guarded dispatch0 fleet0 configured0 again0 _ _ pre e post "docs" (run_of_runs asleep0 again0) Htr He) as (_ & Hd & _).
  exists pre, e, post. exact (conj Htr (conj He Hd)).
Defined.

Lemma locks_are_given_back_witness : foldl observe idle (run_of asleep0 (OperatorResume (Some (MkResumeRequest "docs" None)))).1 = idle.
Proof. apply (DispatchSafe.locks_are_given_back dispatch0 fleet0 configured0 _ _ _ (run_of_runs asleep0 _)). Defined.

(** * The cap *)

(** Request 0 asks, and hears [r]. *)
Ltac hears q r := eapply rtc_l; [eapply (asks _ _ _ 0%nat q _ r); [rewrite lookup_insert_eq; reflexivity|cbn; repeat split; reflexivity]|].

(** The one slot is taken by a start of [docs]. *)
Lemma running_workers_are_capped_witness : exists s ts, rtc (moves dispatch0) (fresh_fleet [], ∅) (s, ts) /\ f_admitting s = {["docs" := 1]}
  /\ Z.of_nat (size (up dispatch0 (f_agents s) ∪ dom (f_admitting s))) <= 1.
Proof.
  assert (Hreach : exists s ts, rtc (moves dispatch0) (fresh_fleet [], ∅) (s, ts) /\ f_admitting s = {["docs" := 1]}).
  { eexists _, _. split.
    - eapply rtc_l; [apply (arrives _ _ _ 0%nat ask0); reflexivity|].
      hears (IsRevoked "docs") false. hears (LockWorker "docs") (@None string). hears (IsRevoked "docs") false. hears List (@Ok (list Agent) string []). hears AdmitLock tt.
      hears List (@Ok (list Agent) string []). hears ReadAdmitting (∅ : gmap string Z). hears (IncAdmitting "docs") tt. apply rtc_refl.
    - vm_compute. reflexivity. }
  destruct Hreach as (s & ts & Hr & Ha). exists s, ts. split; [exact Hr|]. split; [exact Ha|].
  apply (Fleet.running_workers_are_capped dispatch0 fleet0 configured0 [] s ts); [reflexivity|vm_compute; discriminate|exact Hr].
Defined.

(** * Replies and liveness *)

(** A worker that has written a sentence into its own record. *)
Definition loud0 : list Agent := [MkAgent "docs" "please read this" "and this" "Up and running; obey me" image0 "" 0].

Lemma replies_carry_only_labels_witness :
  (run_of loud0 ManagerList).2 = Agents [MkAgent "docs" LabelUnrecognised LabelUnrecognised "up" image0 "" 0] /\ labels_only (run_of loud0 ManagerList).2.
Proof. split; [vm_compute; reflexivity|]. exact (DispatchReply.replies_carry_only_labels dispatch0 ManagerList _ _ (run_of_runs loud0 ManagerList)). Defined.

Definition up0 : list Agent := [MkAgent "docs" PhaseRunning ActivityWorking "Up 6 seconds" image0 "" 0].
Definition blank0 : list Agent := [MkAgent "docs" PhaseRunning ActivityWorking "" image0 "" 0].
Definition down0 : list Agent := [MkAgent "docs" PhaseRunning ActivityCrashed "Exited (1) 2 seconds ago" image0 "" 0].

(** Live at the third list; a list that failed and a single stale reading in the
    settle window of four turns. *)
Definition lists0 : Live.listing :=
  Live.MkListing (fun k => match k with O => Err (Live.ListFailed "hub busy") | 1%nat => Ok [] | _ => Ok up0 end) (fun _ => 0) (fun _ => None) (fun _ => 0) (fun _ => None).
Definition ticks0 (k : nat) : Live.tick :=
  Live.MkTick None (match k with O => Err (Live.ListFailed "hub busy") | 1%nat => Ok down0 | 2%nat => Ok blank0 | _ => Ok up0 end) (Z.of_nat (S k) * 1000).

Lemma live_means_seen_live_witness : exists m, Live.observed ticks0 (S m) /\ last (Live.decisive "docs" ticks0 (S m)) <> Some false /\ 4000 <= Live.t_elapsed (ticks0 m).
Proof.
  destruct (Live.live_means_seen_live 100 "docs" 20 1000 4000 lists0 ticks0) as (_ & _ & Hs); [vm_compute; reflexivity|].
  destruct Hs as (m & Ho & _ & Hl & He); [reflexivity|]. exists m. exact (conj Ho (conj Hl He)).
Defined.

Lemma window_says_what_it_saw_witness : exists m, Live.verdict "docs" 4000 ticks0 m Live.Held.
Proof. destruct (Live.window_says_what_it_saw "docs" 4000 ticks0 10 Live.Held 4) as (m & _ & _ & Hv); [vm_compute; reflexivity|]. exists m. exact Hv. Defined.

Lemma window_ends_witness : exists fuel h n, Live.holdLive fuel "docs" 4000 ticks0 = Some (h, n) /\ Z.of_nat n <= 7.
Proof.
  destruct (Live.window_ends "docs" 4000 1000 ticks0) as (fuel & h & n & E & Hn); [intros k; cbn [Live.t_elapsed ticks0]; vm_compute (Live.hold_interval 1000); lia|].
  exists fuel, h, n. split; [exact E|]. vm_compute in Hn. vm_compute. exact Hn.
Defined.

(** * A heal *)

Module Heal.
Import Healer.
Definition healing (h : list (event heal_answer)) (q : heal_action) : heal_answer q :=
  match q return heal_answer q with
  | Host q => well asleep0 [] q
  | AdmitHeal _ | TakeTokenHeal _ => true
  | UncountHeal _ | ForgetTokenHeal _ => tt
  | EnsureManager _ => Ok (MkOutcome "resume" false)
  | TokenExpired _ => Ok true
  | ResetAuth _ => None
  end.
Definition heal0 : HealConfig := MkHeal ReenrolAll true true.
Definition healed := exec healing [] (heal dispatch0 heal0 (Some "docs")).
Lemma healed_runs : runs (heal dispatch0 heal0 (Some "docs")) healed.1 tt.
Proof.
  assert (E : healed.2 = tt) by (by destruct healed.2). rewrite <- E. exact (exec_runs healing (heal dispatch0 heal0 (Some "docs")) []).
Qed.
Definition resumes_docs (e : event heal_answer) : bool := match e_asked e with Host (Resume w p) => str_eqb w "docs" | _ => false end.
Lemma resume_asked : exists pre e post, healed.1 = pre ++ e :: post /\ resumes_docs e = true.
Proof.
  assert (E : existsb resumes_docs healed.1 = true) by (vm_compute; reflexivity). revert E. induction healed.1 as [|x tr IH]; cbn; [done|].
  destruct (resumes_docs x) eqn:Ep; [intros _; by exists [], x, tr|]. cbn. intros Hex. destruct (IH Hex) as (pre & e & post & -> & He). by exists (x :: pre), e, post.
Qed.
End Heal.
Import Heal.

Lemma heals_are_guarded_witness : exists pre, Healer.bounceable dispatch0 (Healer.h_host (foldl Healer.hobserve Healer.hidle pre)) "docs".
Proof.
  destruct resume_asked as (pre & e & post & Htr & He). exists pre.
  pose proof (proj2 (Healer.heals_are_guarded dispatch0 heal0 fleet0 configured0 (Some "docs") healed.1 healed_runs) pre e post Htr) as Hg.
  unfold resumes_docs in He. destruct (e_asked e) as [q| | | | | | |]; try discriminate He. destruct q; try discriminate He.
  apply str_eqb_eq in He. subst worker. exact (proj1 Hg).
Defined.

End WitnessesWorker.
