(* ===== verification/WitnessesContact.v ===== *)
(** Module [WitnessesHost]: the egress theorems at a concrete network. Module
    [WitnessesContact]: a closed run of the contact routes, in which an agent authorizes one message to a
    contact, and the contact's page is shown it; the theorems on the agent ledger
    and the routes at that run. *)

From S2P Require Import Prelude Go Token Broker Rate SentLedger Messaging ChatLedger Uses Verify Manifest Render GoText Egress EgressPolicy AgentLedger AgentShown AgentHistory ContactMsg ContactSafe Models Witnesses WitnessesNode WitnessesView.

(** The theorems on the jail's network at a concrete network. *)

Module WitnessesHost.
Import GoText Egress EgressPolicy.

(** IPv4 addresses as 32-bit numbers, and of IPv6 the rules' two networks: an
    address is a number with its version. *)
Definition v4 (a b c d : Z) : bool * Z := (true, ((a * 256 + b) * 256 + c) * 256 + d).
Definition nets0 : list (string * (bool * Z * Z)) :=
  [("10.0.0.0/8", (v4 10 0 0 0, 24)); ("172.16.0.0/12", (v4 172 16 0 0, 20)); ("192.168.0.0/16", (v4 192 168 0 0, 16));
   ("169.254.0.0/16", (v4 169 254 0 0, 16)); ("100.64.0.0/10", (v4 100 64 0 0, 22)); ("169.254.169.254/32", (v4 169 254 169 254, 0));
   ("fe80::/10", ((false, Z.shiftl 1018 118), 118)); ("fc00::/7", ((false, Z.shiftl 126 121), 121))].
#[export] Instance net0 : Net := {|
  Address := bool * Z;
  Network := bool * Z * Z;
  ParseIP s := if str_eqb s "192.168.5.2" then Some (v4 192 168 5 2) else None;
  ParseCIDR s := snd <$> find (fun e => str_eqb (fst e) s) nets0;
  Contains n a := Bool.eqb (fst (fst n)) (fst a) && (Z.shiftr (snd a) (snd n) =? Z.shiftr (snd (fst n)) (snd n));
  SameIP a b := bool_decide (a = b);
  To4 a := if fst a then Some a else None;
  ip_string a := if bool_decide (a = v4 192 168 5 2) then "192.168.5.2" else "?";
  net_string n := match find (fun e => bool_decide (snd e = n)) nets0 with Some e => fst e | None => "?" end
|}.

Definition to (a : bool * Z) (port : Z) : packet := MkPacket a "eth0" "tcp" port "" "NEW".

Lemma loaded_rules_are_the_policy_witness : exists chain,
  loads (RestoreInput (BuildRulesDNS "192.168.5.2" "" [8090; 8080] true []) IPv4) = Some chain
  /\ leaves chain (to (v4 192 168 5 2) 8080) = true /\ leaves chain (to (v4 192 168 5 2) 22) = false /\ leaves chain (to (v4 8 8 8 8) 443) = false.
Proof.
  destruct (loaded_rules_are_the_policy "192.168.5.2" "" [8090; 8080] [] true IPv4) as (chain & El & Hv);
    [reflexivity|reflexivity|repeat constructor; vm_compute; congruence|constructor|].
  exists chain. rewrite !Hv. vm_compute (reaches _ _ _ _ _ _ _). exact (conj El (conj eq_refl (conj eq_refl eq_refl))).
Defined.

Lemma dropped_for_jail_is_dropped_witness :
  leaves (chain_of (BuildRulesDNS "192.168.5.2" "" [8080] false [MkForward "udp" 53]) IPv4) (to (v4 192 168 1 20) 8080) = false.
Proof.
  apply (dropped_for_jail_is_dropped "192.168.5.2" "" [8080] [MkForward "udp" 53] false (to (v4 192 168 1 20) 8080));
    [repeat constructor; vm_compute; congruence|repeat constructor; vm_compute; congruence|vm_compute; reflexivity|discriminate|vm_compute; reflexivity].
Defined.

Definition output0 : list string := ["-o eth1 -j ACCEPT"; jump; "-j RETURN"; jump].

Lemma jump_is_placed_witness :
  restored (JumpRestoreInput (output_listing output0)) output0 = Some [jump; "-o eth1 -j ACCEPT"; "-j RETURN"]
  /\ restored (JumpRestoreInput (output_listing output0)) [jump] = None.
Proof.
  destruct (jump_is_placed output0 output0) as [Hp _]; [repeat constructor|]. destruct (jump_is_placed output0 [jump]) as [_ Hr]; [repeat constructor|].
  exact (conj (proj1 (Hp eq_refl)) (Hr ltac:(vm_compute; lia))).
Defined.

(** What the listing of the loaded rules looks like. *)
Example Listing0 : Listing (BuildRulesDNS "192.168.5.2" "" [8080] true []) IPv4 =
  ["-N LEVER_EGRESS"; "-A LEVER_EGRESS -o lo -j ACCEPT"; "-A LEVER_EGRESS -d 192.168.5.2/32 -p tcp -m tcp --dport 8080 -j ACCEPT";
   "-A LEVER_EGRESS -d 192.168.5.2/32 -m conntrack --ctstate ESTABLISHED -j ACCEPT"; "-A LEVER_EGRESS -d 192.168.5.2/32 -j DROP";
   "-A LEVER_EGRESS -o lo -p icmp -m icmp --icmp-type 3/10 -m conntrack --ctstate RELATED -j ACCEPT";
   "-A LEVER_EGRESS -d 169.254.169.254/32 -j REJECT --reject-with icmp-host-prohibited"; "-A LEVER_EGRESS -d 10.0.0.0/8 -j DROP";
   "-A LEVER_EGRESS -d 172.16.0.0/12 -j DROP"; "-A LEVER_EGRESS -d 192.168.0.0/16 -j DROP"; "-A LEVER_EGRESS -d 169.254.0.0/16 -j DROP";
   "-A LEVER_EGRESS -d 100.64.0.0/10 -j DROP"; "-A LEVER_EGRESS -j DROP"].
Proof. vm_compute. reflexivity. Qed.

End WitnessesHost.

Module WitnessesContact.
Import Broker Messaging Models Witnesses WitnessesNode WitnessesView.
Import Manifest TreeModels.
Import AgentLedger AgentShown AgentHistory ContactMsg ContactSafe.

#[export] Instance chat0 : ChatLedger.ChatLib := {| ChatLedger.FileFor login := "l-" +:+ login |}.
#[export] Instance contact0 : ContactLib := {| ct_ledger e := "ledger error"; ct_chat e := "chat error"; ct_rand := "no randomness" |}.

Definition ana : ContactEntry := MkContact "ana" "ana@x.dev" ["worker"].
Definition cfg0 : AgentMessagesConfig := withDefaults (MkMessages true 0 0 true [ana]).
Definition k0 : KState := MkK node0 cfg0 (Rate.newRateWindow contactCallLimit) false AgentHistory.ledger0 true uses0.

(** A disk on which all goes well; the [n]th append gives the signature [n]. *)
Definition disk (n : Z) : FS := MkFS true true true (fun _ => true) (fun _ => None) (fun i => MkAppend Whole true (n + Z.of_nat i) 300).
Definition random : bytes := copies 16 "a".
Definition w1 : KWorld :=
  MkKWorld t1 None (disk 1) (Some (fun slug => Ok "agent-7")) (ChatLedger.MkReadFS ChatLedger.DirMissing None) ∅ (Some random) use_world.
Definition req1 : ContactMessageRequest := MkContactReq "ana" "the report is ready" "".
Definition k1 : KState := (handleContactMessage (Cert "worker") (Some req1) w1 k0).1.

Definition auth1 : Auth := new_auth (Token.hex_encode random) "worker" ana KindInitiated "" "the report is ready" t1.
Definition file1 : string := FileFor "ana".

Example message_is_authorized : cr_OK (match (handleContactMessage (Cert "worker") (Some req1) w1 k0).2 with ROk r => r | _ => MkContactResp false "" "" "" "" "" "" "" end) = true.
Proof. vm_compute. reflexivity. Qed.

Lemma start_new w : all_new w k0.
Proof. intros name i. split; [cbn; by rewrite lookup_empty|]. split; cbn; intros e; by rewrite lookup_empty. Qed.
Lemma start_fresh w : ids_fresh w k0.
Proof. intros id name _. split; apply not_elem_of_nil. Qed.

Definition events1 : list kevent := [EMessage (Cert "worker") (Some req1) w1].
Lemma run1 : history k0 events1 k1.
Proof. exact (h_step k0 [] k0 (EMessage (Cert "worker") (Some req1) w1) (h_start k0) (conj (start_fresh w1) (start_new w1))). Qed.

Lemma hourly_rate_is_bounded_witness : window_count (k_led k1) "worker" t1 <= 30 /\ window_count (k_led k1) "worker" t1 = 1.
Proof. split; [exact (hourly_rate_is_bounded k0 events1 k1 "worker" t1 eq_refl run1)|vm_compute; reflexivity]. Defined.

Lemma authorizations_follow_the_rules_witness : exists pre p req w post, events1 = pre ++ EMessage p (Some req) w :: post
  /\ a_SHA256 auth1 = HashText (cq_Text req) /\ a_Created auth1 = kw_now w.
Proof.
  destruct (authorizations_follow_the_rules k0 events1 k1 file1 [] auth1 [] eq_refl run1)
    as (pre & p & req & w & post & caller & c & agentID & Ees & _ & _ & _ & _ & _ & Eh & _ & Et & _).
  - vm_compute. reflexivity.
  - exists pre, p, req, w, post. exact (conj Ees (conj Eh Et)).
Defined.

Definition cand1 : Candidate := MkCand "msg-1" (a_SHA256 auth1) (t1 + Minute).
Definition match1 : MatchRequest := MkMatchReq "worker" "ana" [cand1] false.
Definition w2 : KWorld :=
  MkKWorld (t1 + Hour) None (disk 2) None (ChatLedger.MkReadFS ChatLedger.DirMissing None) ∅ None use_world.
Definition shown1 := handleAgentMessagesMatch (Some match1) w2 k1.

Lemma shown_messages_were_authorized_witness : exists m pre p mreq w post, events1 = pre ++ EMessage p (Some mreq) w :: post
  /\ c_MessageID m = "msg-1" /\ HashText (cq_Text mreq) = c_SHA256 m.
Proof.
  destruct (shown_messages_were_authorized k0 events1 k1 (Some match1) w2 shown1.1 (MkMatchResp ["msg-1"] []) "msg-1" eq_refl run1)
    as (req & m & _ & _ & Em & pre & p & mreq & w & post & caller & c & Ees & _ & _ & _ & _ & _ & Eh & _).
  - vm_compute. reflexivity.
  - apply list_elem_of_singleton. reflexivity.
  - exists m, pre, p, mreq, w, post. exact (conj Ees (conj Em Eh)).
Defined.

(** After the message, no file and no cache has the signature 2. *)
Lemma after_new w : kw_fs w = disk 2 -> all_new w k1.
Proof.
  intros E name i. rewrite E. cbn [disk fs_append ap_sig].
  assert (Hd : map_Forall (fun _ f => f_sig f <= 1) (w_dir (k_led k1))) by (refine (bool_decide_unpack _ _); vm_compute; exact I).
  assert (Hs : map_Forall (fun _ e => default 0 (se_sig e) <= 1) (l_states (w_led (k_led k1)))) by (refine (bool_decide_unpack _ _); vm_compute; exact I).
  assert (Hh : map_Forall (fun _ e => default 0 (h_sig e) <= 1) (l_hours (w_led (k_led k1)))) by (refine (bool_decide_unpack _ _); vm_compute; exact I).
  split; [|split].
  - destruct (w_dir (k_led k1) !! name) as [f|] eqn:Ef; [|done]. specialize (Hd _ _ Ef). cbv beta in Hd. intros Es. assert (f_sig f = 2 + Z.of_nat i) by (by injection Es). lia.
  - intros e Ee Es. specialize (Hs _ _ Ee). cbv beta in Hs. rewrite Es in Hs. change (2 + Z.of_nat i <= 1) in Hs. lia.
  - intros e Ee Es. specialize (Hh _ _ Ee). cbv beta in Hh. rewrite Es in Hh. change (2 + Z.of_nat i <= 1) in Hh. lia.
Qed.

(** The ledger alone. *)
Definition allow_all (v : View) : option unit := None.
Definition led1 : world := (do_authorize (disk 1) auth1 t1 allow_all AgentHistory.ledger0).1.
Definition kept1 := do_match (disk 2) "worker" "ana" [cand1] (t1 + Hour) true led1.

Lemma led1_reached : rtc lstep AgentHistory.ledger0 led1.
Proof.
  apply rtc_once. apply (ls_authorize (disk 1) auth1 t1 allow_all _ _ (do_authorize (disk 1) auth1 t1 allow_all AgentHistory.ledger0).2).
  - split; apply not_elem_of_nil.
  - intros i. split; [cbn; by rewrite lookup_empty|]. split; cbn; intros e; by rewrite lookup_empty.
  - apply surjective_pairing.
Qed.

Lemma led1_new : new_sigs (disk 2) led1 (FileFor "ana").
Proof.
  intros i. cbn [disk fs_append ap_sig].
  assert (Ed : f_sig <$> w_dir led1 !! FileFor "ana" = Some 1) by (vm_compute; reflexivity).
  assert (Es : se_sig <$> l_states (w_led led1) !! FileFor "ana" = Some None) by (vm_compute; reflexivity).
  assert (Eh : l_hours (w_led led1) !! FileFor "ana" = None) by (vm_compute; reflexivity).
  rewrite Ed. split; [intros [= E]; lia|]. split; intros e; [|by rewrite Eh]. intros He E. rewrite He in Es. cbn in Es. congruence.
Qed.

Lemma authorization_shows_once_witness : exists a, a_Agent a = "worker" /\ a_SHA256 a = a_SHA256 auth1
  /\ forall w ln, rtc lstep kept1.1 w -> ln ∈ shown_in (w_past w (FileFor "ana")) -> ln_ID ln = a_ID a -> ln_MessageID ln = "msg-1".
Proof.
  destruct (authorization_shows_once (disk 2) "worker" "ana" [cand1] (t1 + Hour) led1 kept1.1 kept1.2 "msg-1" led1_reached led1_new)
    as (a & m & _ & Ea & Hm & _ & Esh & Hlater); [apply surjective_pairing|vm_compute; reflexivity|].
  exists a. apply list_elem_of_singleton in Hm. subst m. exact (conj Ea (conj Esh Hlater)).
Defined.

End WitnessesContact.
