(* ===== verification/WitnessesRemote.v ===== *)
(** Closed runs of the remote proxy: a contact opens the conversation with its
    agent, reads the page of it that the broker's ledger answers for, follows its
    events, and signs in; and the theorems on the proxy at those runs. *)

From S2P Require Import Prelude Go TreePath GoPath GoText GoHttp RemotePath Token Broker Rate SentLedger Messaging ChatLedger Uses Verify Render Manifest AgentLedger AgentShown AgentHistory ContactMsg ContactSafe Effects RemoteWorld ContactView ContactPage RemoteGate RemoteFence RemoteServe RemoteRuns RemoteLogin Models Witnesses WitnessesNode WitnessesView WitnessesContact.

Module WitnessesRemote.
Import TreePath GoPath GoText GoHttp RemotePath Effects RemoteWorld.
Import ContactView ContactEvents RemoteGate RemoteFence RemoteSafe RemoteRuns.
Import Models Witnesses WitnessesNode WitnessesView.
Import Manifest TreeModels WitnessesContact.

(** * The libraries *)

#[export] Instance ascii_lower : AsciiLower.
Proof. intros r _. reflexivity. Defined.

(** Targets without a scheme or a host: a path and a query. *)
#[export] Instance url_parse : UrlParse := {| url_Parse s := match cut "?" s with (p, q) => Some (MkParsed "" "" p (default "" q)) end |}.

Definition told_me : bytes := "me".
Definition history_text : bytes := "history".
Definition event_text : bytes := "event".
Definition agents_row : json :=
  JObj [("id", JStr "msg-1"); ("sender", JStr "agent:worker"); ("senderId", JStr "a1"); ("type", JStr "assistant-reply"); ("msg", JStr "the report is ready");
        ("createdAt", JStr "sent"); ("secret", JStr "not for a contact")].
Definition other_row : json :=
  JObj [("id", JStr "msg-2"); ("sender", JStr "agent:worker"); ("senderId", JStr "a1"); ("type", JStr "assistant-reply"); ("msg", JStr "never authorized"); ("createdAt", JStr "sent")].
Definition parsed (b : bytes) : option json :=
  if str_eqb b told_me then Some (JObj [("id", JStr "u1")])
  else if str_eqb b history_text then Some (JObj [("messages", JArr [agents_row; other_row]); ("totalCount", JNum "2")])
  else if str_eqb b event_text then Some (JObj [("data", JStr "not for a contact"); ("subject", JStr "user.u1.chat.dm")])
  else None.

Fixpoint printed (v : json) : bytes :=
  match v with
  | JNull => "null"
  | JBool b => if b then "true" else "false"
  | JNum t => t
  | JStr s => "'" +:+ s +:+ "'"
  | JArr l => "[" +:+ foldr (fun x t => printed x +:+ "," +:+ t) "]" l
  | JObj ms => "{" +:+ foldr (fun kv t => kv.1 +:+ ":" +:+ printed kv.2 +:+ "," +:+ t) "}" ms
  end.

#[export] Instance remote_lib : RemoteLib := {|
  json_parse := parsed; json_first := parsed; json_text := printed;
  parse_nano s := if str_eqb s "sent" then Some (t1 + Minute) else None;
  format_chat_time t := "a time";
  Address := string; ParseIP s := if str_eqb s "127.0.0.1" then Some s else None; SameIP := str_eqb; IsUnspecified a := false;
  media_type s := s; EscapeString s := s; Quote s := s
|}.

#[export] Instance login_lib : RemoteLogin.LoginLib := {|
  RemoteLogin.Cookies h := match h !! "Set-Cookie" with Some vs => (fun v => ("scion_sess", v)) <$> vs | None => [] end;
  RemoteLogin.error_text e := "login error"
|}.

(** * A request past the gate *)

Definition remote : Config :=
  MkConfig "127.0.0.1:8080" (MkURL "" "" "") "lever.example.ts.net" 8443 ["ana"] true "" false "" true false false
    {[ "ana" := ["worker"] ]} true true "" true None false false false "".

Definition get (path query : string) : Request :=
  MkRequest "GET" (MkURL path "" query) "lever.example.ts.net"
    (headers [("Tailscale-User-Login", "ana"); ("Cookie", "scion_sess=forged"); ("Authorization", "Bearer forged"); ("X-Scion-User", "root"); ("Sec-Fetch-Site", "same-origin")])
    (Some "") "127.0.0.1:999" false.
Definition conversation : Request := get "/api/v1/chat/conversations/dm:agent:a1:user:u1/messages" "".

(** The hub, which sets a cookie of its own, the session source, and the broker
    behind the question on agent messages. *)
Definition hub_answer (body : bytes) : Response := answer_with 200 [("Set-Cookie", "scion_sess=s2")] body.
Definition world (h : list (event reply)) (q : question) : reply q :=
  match q return reply q with
  | Now => t1 + Hour
  | Current _ => true
  | Cookie _ => Some "s1"
  | RoundTrip _ => Ok (hub_answer history_text)
  | Ask_hub _ => Ok (hub_answer told_me)
  | Resolve => Some {[ "worker" := "a1" ]}
  | Match contact agent asked => ContactPage.remoteAgentMessages asked (ContactMsg.handleAgentMessagesMatch (Some (ContactPage.match_request false contact agent asked)) w2 k1).2
  | Page _ _ _ _ => answer_with 200 [] ""
  | Fresh _ | Record_ _ => None
  | CachedIDs => None
  | CachedUser _ => None
  | Invalidate _ _ | StoreIDs _ | StoreUser _ _ | Audit _ => tt
  end.

Definition served := exec world [] (RemoteServe.ServeHTTP remote conversation).

Lemma served_runs : runs (RemoteServe.ServeHTTP remote conversation) served.1 served.2.
Proof. exact (exec_runs world (RemoteServe.ServeHTTP remote conversation) []). Qed.

(** What the contact is shown: of the agent's two messages, the one it was let
    through to send, without the field nobody listed. *)
Example page_is_shown : rs_Body served.2
  = Some "{messages:[{createdAt:'sent',id:'msg-1',msg:'the report is ready',sender:'agent:worker',senderId:'a1',type:'assistant-reply',},],totalCount:2,}".
Proof. vm_compute. reflexivity. Qed.

Lemma remote_target : plain_target remote.
Proof. by split_and!. Qed.
Lemma canonical_keys_of (h : Header) : forallb (fun kv => str_eqb (CanonicalHeaderKey kv.1) kv.1) (map_to_list h) = true -> canonical_keys h.
Proof.
  intros Hf k (vs & Hk)%elem_of_dom. apply elem_of_map_to_list, list_elem_of_In in Hk. rewrite forallb_forall in Hf. specialize (Hf _ Hk). cbn in Hf. by apply str_eqb_eq in Hf.
Qed.
Lemma conversation_keys : canonical_keys (rq_Header conversation).
Proof. apply canonical_keys_of. vm_compute. reflexivity. Qed.

(** The request the hub saw, the answer it gave, and what came before and after. *)
Definition sent : Request := match served.1 !! 9%nat with Some (Ev (RoundTrip out) _) => out | _ => conversation end.
Definition before : list (event reply) := take 9 served.1.
Definition after : list (event reply) := drop 10 served.1.
Lemma served_splits : served.1 = before ++ Ev (RoundTrip sent) (Ok (hub_answer history_text)) :: after.
Proof. vm_compute. reflexivity. Qed.

Lemma safe_path_reads_one_way_witness : exists segs, Split (rq_Path conversation) Slash = "" :: segs /\ unescaped_segments (EscapedPath (rq_URL conversation)) = Some ("" :: segs).
Proof.
  destruct (safe_path_reads_one_way conversation) as (segs & E1 & E2 & _); [vm_compute; reflexivity|]. exists segs. exact (conj E1 E2).
Defined.

Lemma hub_sees_admitted_requests_witness : exists cookie, rq_Header sent !! "Cookie" = Some [session_cookie cookie]
  /\ rq_Header sent !! "Authorization" = None /\ rq_Header conversation !! "Authorization" = Some ["Bearer forged"].
Proof.
  destruct (hub_sees_admitted_requests remote conversation served.1 served.2 remote_target conversation_keys before sent (Ok (hub_answer history_text)) after served_runs served_splits)
    as (_ & _ & (cookie & Eg & Hc) & _).
  exists cookie. pose proof (cr_auth _ _ _ _ Hc "Authorization" eq_refl conversation_keys) as Ha. split; [|split; [exact Ha|vm_compute; reflexivity]].
  assert (E : cookie = "s1") by (vm_compute in Eg; injection Eg; auto). subst cookie. exact (cr_cookie _ _ _ _ Hc).
Defined.

Lemma contact_reaches_its_agents_witness : exists s, sc_userID s = "u1" /\ may_ask s (rq_Body sent) (u_RawQuery (rq_URL sent)) "GET" (rq_Path conversation).
Proof.
  destruct (contact_reaches_its_agents remote conversation served.1 served.2 remote_target conversation_keys before sent (Ok (hub_answer history_text)) after ["worker"] served_runs served_splits)
    as [[_ Hs]|(s & Eu & _ & _ & Hm)].
  - vm_compute. discriminate.
  - vm_compute. reflexivity.
  - exfalso. vm_compute in Hs. discriminate.
  - exists s. split; [vm_compute in Eu; injection Eu; auto|]. exact Hm.
Defined.

Lemma no_session_leaves_witness : rs_Header served.2 !! "Set-Cookie" = None /\ rs_Header (hub_answer history_text) !! "Set-Cookie" = Some ["scion_sess=s2"].
Proof.
  split; [|vm_compute; reflexivity]. apply (no_session_leaves remote conversation served.1 served.2 remote_target conversation_keys served_runs).
  assert (E : forallb (fun e => match e_asked e with Page _ _ _ _ => false | _ => true end) served.1 = true) by (vm_compute; reflexivity).
  intros h r lg cookie x Hin%list_elem_of_In. rewrite forallb_forall in E. specialize (E _ Hin). discriminate E.
Defined.

(** * The page and the events *)

Definition filtered := exec world [] (filterHistory remote "ana" "worker" "a1" "u1" (hub_answer history_text)).

(** The broker's history with the question of the page at its end. *)
Definition asked_in (e : event reply) : option (list AgentMessage) := match e with Ev (RemoteWorld.Match _ _ asked) _ => Some asked | _ => None end.
Definition asked1 : list AgentMessage := default [] (head (omap asked_in filtered.1)).
Definition question1 : ContactSafe.kevent := ContactSafe.EMatch (Some (ContactPage.match_request false "ana" "worker" asked1)) w2.
Definition events2 : list ContactSafe.kevent := events1 ++ [question1].
Lemma run2 : ContactSafe.history k0 events2 (ContactSafe.kapply k1 question1).
Proof. exact (ContactSafe.h_step k0 events1 k1 question1 run1 (after_new w2 eq_refl)). Qed.

Lemma asked_once asked got : Ev (answer := reply) (RemoteWorld.Match "ana" "worker" asked) got ∈ filtered.1 -> asked = asked1.
Proof.
  intros Hin. assert (Hq : asked ∈ omap asked_in filtered.1) by (apply list_elem_of_omap; by exists (Ev (answer := reply) (RemoteWorld.Match "ana" "worker" asked) got)).
  assert (E : omap asked_in filtered.1 = [asked1]) by (vm_compute; reflexivity). rewrite E in Hq. by apply list_elem_of_singleton in Hq.
Qed.


Definition stream : Response :=
  answer_with 200 [("Content-Type", "text/event-stream")] ("id: 7" +:+ eol +:+ "event: update" +:+ eol +:+ "data: event" +:+ blank).
Lemma events_name_own_subjects_witness : exists frames, rs_Body (reduceEvents "u1" stream) = Some (foldr String.append "" frames) /\ Forall (own_frame (subject_prefix "u1")) frames.
Proof.
  destruct (rs_Body (reduceEvents "u1" stream)) as [b|] eqn:E; [|exfalso; vm_compute in E; discriminate E].
  destruct (events_name_own_subjects "u1" stream b eq_refl E) as (frames & -> & Hf). exists frames. exact (conj eq_refl Hf).
Defined.

Lemma signin_target_may_leave_witness : loginReturnTarget "/\evil.test" = "/" /\ Location conversation (loginReturnTarget "/./\evil.test") = "/\evil.test".
Proof. apply (signin_target_may_leave conversation "evil.test" ""); vm_compute; reflexivity. Defined.

(** * A sign-in *)

Module SignIn.
Import RemoteLogin.

Definition config : LoginConfig := MkLogin "http://127.0.0.1:8080" true true false.
Definition hub (h : list (event told)) (q : asking) : told q :=
  match q return told q with
  | UserOf _ => Some "u1"
  | SignFor _ => Ok "assertion"
  | Get path _ => if str_eqb path hubLoginPath then Ok (answer_with 200 [("Set-Cookie", "s1")] "") else Ok (answer_with 200 [] told_me)
  | LogTime => t1
  | Log _ => tt
  end.
Definition attempt := exec hub [] (login config "ana").
Definition d1 : driver := MkDriver {[ "ana" := 0%nat ]} {[ 0%nat := Running ]} {[ 1%nat := ("ana", Leads 0) ]} [].
Definition d2 : driver := MkDriver {[ "ana" := 0%nat ]} {[ 0%nat := Running ]} {[ 1%nat := ("ana", Leads 0); 2%nat := ("ana", Waits 0) ]} [].

(** One request makes the attempt, another waits for it. *)
Lemma d1_reached : dsteps config new_driver d1.
Proof.
  apply rtc_once. exists None. apply (d_lead config new_driver "ana" 1 0 t1); [reflexivity|reflexivity|]. intros e en E. discriminate E.
Qed.
Lemma d2_reached : dsteps config new_driver d2.
Proof.
  eapply rtc_r; [exact d1_reached|]. exists None.
  replace d2 with (MkDriver (dr_sessions d1) (dr_entries d1) (<[2%nat := ("ana", Waits 0)]> (dr_callers d1)) (dr_past d1))
    by (unfold d2; f_equal; apply (bool_decide_unpack _); vm_compute; exact I).
  by apply (d_share config d1 "ana" 2 0 Running t1).
Qed.

Definition d3 : driver := MkDriver (dr_sessions d1) (<[0%nat := Closed attempt.2 t1]> (dr_entries d1)) (<[1%nat := ("ana", Forgets 0 attempt.2)]> (dr_callers d1)) (dr_past d1 ++ [attempt.1]).
Lemma d3_reached : dsteps config new_driver d3.
Proof.
  eapply rtc_r; [exact d1_reached|]. exists None. apply d_ended; [reflexivity|]. exact (exec_runs hub (login config "ana") []).
Qed.

End SignIn.
Import SignIn.

Lemma session_is_the_recorded_users_witness : exists s', RemoteLogin.dstep config d3 (Some ("ana", Ok "s1")) s' /\ RemoteLogin.signed_in (RemoteLogin.dr_past d3) "ana" "s1".
Proof.
  assert (En : RemoteLogin.dr_callers d3 !! 1%nat = Some ("ana", RemoteLogin.Forgets 0 (Ok "s1"))) by (vm_compute; reflexivity).
  pose proof (RemoteLogin.d_answered config d3 "ana" 1 0 (Ok "s1") En) as Hst.
  eexists. exact (conj Hst (RemoteLogin.session_is_the_recorded_users config d3 "ana" "s1" _ d3_reached Hst)).
Defined.

Lemma waiters_are_answered_witness : exists m, RemoteLogin.dr_callers d2 !! m = Some ("ana", RemoteLogin.Leads 0).
Proof.
  destruct (RemoteLogin.waiters_are_answered config d2 2 "ana" 0 d2_reached) as [(r & at_ & s' & E & _)|(m & E & _)].
  - vm_compute. reflexivity.
  - exfalso. vm_compute in E. discriminate E.
  - exists m. exact E.
Defined.

(** * A revocation *)

Module Revocation.
Import RemoteRevoke.
Definition opened : liveRequests := track "ana" 1 no_requests.
Definition a_pass : list label := [Ticked; Asked "ana" false; Cancelled; PassOver; Ticked].
Definition after_pass : liveRequests := turn (at_poller AtTicker (cancel_all "ana" [] (heard "ana" [] false (turn opened)))).
Lemma opened_steps : rsteps no_requests [Tracked] opened.
Proof. apply (rs_cons _ _ opened); [|constructor]. apply r_track. apply not_elem_of_empty. Qed.
Lemma pass_steps : rsteps opened a_pass after_pass.
Proof.
  apply (rs_cons _ _ (turn opened)); [by apply r_tick|].
  eapply rs_cons; [by apply (r_ask _ "ana" [] false); vm_compute|]. eapply rs_cons; [by apply (r_cancel _ "ana" [])|].
  eapply rs_cons; [by apply r_over|]. eapply rs_cons; [by apply r_tick|]. constructor.
Qed.
End Revocation.
Import Revocation.

Lemma revoked_requests_end_witness : RemoteRevoke.lr_poller opened <> RemoteRevoke.Off /\ 1%nat ∈ RemoteRevoke.lr_cancelled after_pass.
Proof.
  assert (Hn : 1%nat ∈ RemoteRevoke.open_of opened "ana") by (apply (bool_decide_unpack (1%nat ∈ RemoteRevoke.open_of opened "ana")); vm_compute; exact I).
  destruct (RemoteRevoke.revoked_requests_end _ opened "ana" 1 opened_steps Hn) as [Hp Hc]. split; [exact Hp|]. apply (Hc a_pass after_pass pass_steps).
  - vm_compute. auto.
  - intros b Hb. unfold a_pass in Hb. repeat (apply elem_of_cons in Hb as [E|Hb]; [congruence|]). by apply elem_of_nil in Hb.
  - apply (bool_decide_unpack (1%nat ∈ RemoteRevoke.open_of after_pass "ana")). vm_compute. exact I.
Defined.

End WitnessesRemote.
